(* ===== verification/_CoqProject ===== *)
-Q . S2P
Prelude.v
Descriptor.v
Clock.v
Interrupt.v
Intq.v
Serial.v
Vga.v
FdTable.v
Process.v
ProcessSteps.v
ProcessProps.v
KList.v
KListFacts.v
KListSort.v
KListOrder.v
KListProps.v
Arith.v
FixedPoint.v
Bytes.v
CString.v
CStringFacts.v
CStdlib.v
CStdlibFacts.v
Random.v
Hash.v
HashProps.v
Stdio.v
StdioFacts.v
Console.v
UserConsole.v
Kbd.v
Bitmap.v
VAddr.v
Ram.v
StdioProps.v
Ustar.v
UstarProps.v
Palloc.v
Malloc.v
MallocFacts.v
MallocOps.v
MallocRun.v
MallocProps.v
PageDir.v
PageDirFacts.v
PageDirProps.v
KernelMap.v
ArgStack.v
ArgProps.v
Loader.v
LoaderFacts.v
Block.v
CommandLine.v
Ide.v
Buffer.v
BufferFacts.v
BufferProps.v
Inode.v
InodeFacts.v
InodeAlloc.v
InodeExtend.v
InodeGrow.v
InodeRelease.v
InodeCreate.v
InodeProps.v
Directory.v
Filesys.v
DirectoryFacts.v
DirectoryProps.v
LoaderProps.v
Fsutil.v
Syscall.v
SyscallFacts.v
SyscallProps.v
Thread.v
ThreadFacts.v
ThreadRun.v
ThreadSteps.v
ThreadDiscipline.v
ThreadProps.v
