(* ===== verification/Prelude.v ===== *)
(** * Verification of the Pintos kernel

    A shallow embedding of the kernel under src/pintos/src: every function of the source that is
    modelled is a Rocq function of the same name, and the theorems are about these functions.
    Loops and recursion are fixpoints, state is passed explicitly, an assertion that fails, a
    panic and an access outside memory are outcomes.

    ** The program and its parts

    The boot loader leaves a command line in memory.  The kernel reads it (threads/init.c), sets
    up its memory (threads/palloc.c, threads/malloc.c, paging_init), its segments and its
    interrupts (userprog/gdt.c, threads/interrupt.c), its devices (devices/), its threads
    (threads/thread.c, threads/synch.c) and its file system (filesys/), and carries out the
    actions of the command line, mostly the execution of a user program
    (userprog/process.c).  A program enters the kernel through the system call handler
    (userprog/syscall.c), which checks the pointers of the program against its page directory
    (userprog/pagedir.c) and calls the file system and the process functions.  The file
    system keeps inodes, directories and the free map in sectors that it reads through a cache
    (filesys/buffer.c) over block devices (devices/block.c, devices/partition.c), which are
    disks driven by devices/ide.c.  The C library (lib/) is used by all of them.

    ** Conventions

    A computation over the state [S] is [M S A]: it gives a result and the next state, or a
    [fault].  [let!] and [do!] sequence computations.  Machine integers are elements of [Z] with
    the wrap-around written out ([u8], [u32], [u64], [s32], [s64]).  Memory is either a finite
    map from addresses to bytes or words, in which an access to an address that is not
    there is a fault, or the structure that the code keeps in it (a list of nodes by address,
    an array), as the header of each file says.  Where the code is run by several
    threads or is interrupted, its steps are the pieces of the code that run without
    interruption, and the theorems hold for all orders of the steps.

    Each component has a file with its data and operations, and where the proofs are
    long, files with the same first word for the lemmas ([...Facts], [...Run], [...Steps] and the like)
    and for the properties ([...Props]).

    ** Files and sources

    - The C library.  KList: lib/kernel/list.c.  Hash: lib/kernel/hash.c.  Bitmap:
      lib/kernel/bitmap.c.  CString: lib/string.c.  CStdlib: lib/stdlib.c, lib/ctype.h.  Stdio:
      lib/stdio.c.  Arith: lib/arithmetic.c.  FixedPoint: threads/fixed-point.h.  Random:
      lib/random.c.  Ustar: lib/ustar.c.  Bytes has the layouts of integers in bytes.
      UserConsole: lib/user/console.c.
    - Devices.  Block: devices/block.c, devices/partition.c.  Ide: devices/ide.c.  Intq:
      devices/intq.c.  Serial: devices/serial.c, devices/input.c.  Kbd: devices/kbd.c.  Vga:
      devices/vga.c.  Clock: devices/timer.c, devices/pit.c, devices/rtc.c.  Console:
      lib/kernel/console.c.
    - Threads and memory.  Thread: threads/thread.c and threads/synch.c, as a machine of
      threads whose programs call the operations; ThreadDiscipline: when it does not stop.  Interrupt: threads/interrupt.c.  Descriptor:
      userprog/gdt.c and the gates of threads/interrupt.c.  Palloc: threads/palloc.c.
      Malloc: threads/malloc.c.  VAddr: threads/vaddr.h, threads/pte.h.  Ram: memory in words.
      KernelMap: paging_init.  CommandLine: the command line in threads/init.c.
    - User programs.  PageDir: userprog/pagedir.c.  ArgStack: the arguments and the initial
      stack in userprog/process.c.  Loader: the ELF loader in userprog/process.c.  Process:
      creation, waiting and exit in userprog/process.c, as a machine of processes, with what
      [SYS_EXEC] does with the result.  FdTable: the
      file descriptors, and Syscall: the calls and the page fault handler, in
      userprog/syscall.c and userprog/exception.c.
    - The file system.  Buffer: filesys/buffer.c.  Inode: filesys/inode.c, filesys/free-map.c,
      filesys/file.c.  Directory: filesys/directory.c.  Filesys: filesys/filesys.c.  Fsutil:
      filesys/fsutil.c.

    ** Interfaces

    Components meet in classes whose laws the clients' theorems assume and the
    implementations' theorems prove.  The cache is proved over any device of sectors, and
    the block layer is one.  The inodes are proved over any store of sectors, and the cache is
    one.  The loader uses an interface of files, which the file system implements.  The archive
    utilities are proved over files and a device, and the file system and the block layer
    are instances.  The keyboard puts its characters into any input buffer, and the one of
    devices/input.c is an instance.  The driver of the disks runs over any hardware that
    follows the ATA protocol ([AtaLaws]) and refines the transfers of the block layer.

    ** What the theorems show

    - Threads: the lists of the scheduler are right in every reachable state, locks exclude
      each other, no wakeup is lost.  When the programs follow a discipline for locks and
      conditions (ThreadDiscipline), every reachable state can go on, with no failed assertion.
      A ready thread gets to run: in every execution in which the timer interrupts again and
      again, after the threads before it have had their time slices.  The console does not mix
      the output of calls.
    - Interrupts: the table after the start, the dispatch of external interrupts.  The serial
      port transmits every byte in order, and writes one only when the chip has shown that it is
      ready, with one thread that writes and one that reads; two readers of one queue can stop
      the kernel.  The keyboard types what a US keyboard types.  The screen shows the end of an
      endless roll, if the cursor is on the screen at the start.
    - Memory: blocks that malloc returns do not overlap, whatever is allocated and freed; page
      directories map what was set; the kernel's directory maps the memory, as long as the
      tables are not changed.
    - User programs: a loaded segment is what its header describes; the initial stack is the
      command line, if it fits a page and there is memory for the array of words; a call is decoded from the stack of the program or ends it;
      which pointers pass the check; processes use their shared records safely outside
      of the races that are shown; the calls by which a program stops the kernel.
    - The file system: reads and writes of the cache, of files through all levels of index
      blocks, growth, release, directory entries, durability after the cache has been
      written back.  A file that is appended to an archive is extracted again.
      The dump of a file shows all of its bytes.
    - Disks: the driver implements the block layer's transfers; the scan of a partition table
      registers its partitions, and with an extended partition it uses up the memory and panics.
    - The C library: sorting of lists, hash tables as sets, formatted output to a buffer,
      division, archive headers.
    - The start: the words of the command line do what they say.

    ** Bounds

    [OutOfFuel] is not a behaviour of the code.  Where a loop of the code is not structural, the
    fixpoint takes a number of rounds, and the theorems show that the number is enough: it is computed from the
    data (the length of a list or of a format, the size of a file, the number of pages) or is
    universally quantified with a lower bound.  In the serial port it is the number
    of reads of the status register after which the chip is ready; in the disk driver the
    bounds are those of the code, 1000 and 3000 rounds.  The
    depth of the recursion on an extended partition is bounded by the memory, which malloc has
    a finite amount of.

    ** Not modelled

    - Assembly: threads/loader.S, threads/start.S, threads/switch.S, threads/intr-stubs.S and the
      system call stubs of lib/user/syscall.c.  A switch of threads is one step.
    - devices/shutdown.c, devices/speaker.c, userprog/tss.c: stores to ports and to the task
      state segment, which only the hardware reads.
    - lib/debug.c, lib/kernel/debug.c, the statistics, the usage text and the self tests: they
      only print.  Messages are left
      out of the other functions unless they are what the function is for.
    - What the hardware answers, the contents of the clock, and the effect of an action of the
      command line are parameters.
    - The bound of the kernel stacks; a call that prints while the serial port or the screen is
      taking a character; the directory entries of an archive in the theorems on archives.
    - Time is not modelled beyond the ticks of the timer; delays are loops of given length.
    - The tests, the example programs and the programs of the host (utils/). *)

From Stdlib Require Export ZArith Lia Sorting.Sorted Sorting.Permutation.
From stdpp Require Export base numbers gmap list.

#[global] Open Scope Z_scope.
#[global] Set Default Goal Selector "!".

(** ** Outcomes of kernel code

    Kernel code either returns, or stops the machine.  [AssertFail] is a failed
    [ASSERT], [WildAccess] a dereference outside the modelled memory (a null
    pointer included), [KernelPanic] an explicit [PANIC]; [OutOfFuel] never
    stands for a behaviour of the code, it is the exhaustion of the recursion
    bound of the model. *)
Inductive fault : Type := AssertFail | WildAccess | KernelPanic | OutOfFuel.

Inductive res (A : Type) : Type :=
| Ok (a : A)
| Err (f : fault).
Arguments Ok {A} a.
Arguments Err {A} f.

Definition rbind {A B} (m : res A) (k : A -> res B) : res B :=
  match m with Ok a => k a | Err f => Err f end.

(** A computation over the state [S]. *)
Definition M (S A : Type) : Type := S -> res (A * S).

Definition ret {S A} (a : A) : M S A := fun s => Ok (a, s).
Definition bind {S A B} (m : M S A) (k : A -> M S B) : M S B :=
  fun s => match m s with Ok (a, s') => k a s' | Err f => Err f end.
Definition fail {S A} (f : fault) : M S A := fun _ => Err f.
Definition get {S} : M S S := fun s => Ok (s, s).
Definition put {S} (s : S) : M S unit := fun _ => Ok (tt, s).
Definition gets {S A} (f : S -> A) : M S A := fun s => Ok (f s, s).
Definition modify {S} (f : S -> S) : M S unit := fun s => Ok (tt, f s).
(** [ASSERT (b)] *)
Definition assert {S} (b : bool) : M S unit :=
  if b then ret tt else fail AssertFail.
Definition lift {S A} (r : res A) : M S A :=
  fun s => match r with Ok a => Ok (a, s) | Err f => Err f end.

Declare Scope kernel_scope.
Delimit Scope kernel_scope with kernel.
Notation "'let!' x ':=' c 'in' k" := (bind c (fun x => k))
  (at level 10, x pattern, c at level 200, k at level 200,
   format "'[v' 'let!'  x  ':='  c  'in' '/' k ']'") : kernel_scope.
Notation "'do!' c ; k" := (bind c (fun _ : unit => k))
  (at level 10, c at level 200, k at level 200, format "'[v' 'do!'  c ; '/' k ']'") : kernel_scope.
#[global] Open Scope kernel_scope.

Section monad_lemmas.
Context {S : Type}.

Lemma bind_Ok {A B} (m : M S A) (k : A -> M S B) s r :
  bind m k s = Ok r <-> exists a s', m s = Ok (a, s') /\ k a s' = Ok r.
Proof.
  unfold bind. destruct (m s) as [[a s']|f]; split.
  - eauto.
  - by intros (a' & s'' & [= -> ->] & ?).
  - done.
  - by intros (? & ? & ? & _).
Qed.

Lemma bind_eq {A B} (m : M S A) (k : A -> M S B) s a s' :
  m s = Ok (a, s') -> bind m k s = k a s'.
Proof. unfold bind. by intros ->. Qed.

Lemma bind_err {A B} (m : M S A) (k : A -> M S B) s f : m s = Err f -> bind m k s = Err f.
Proof. unfold bind. by intros ->. Qed.

Lemma assert_true (b : bool) (s : S) : b = true -> assert b s = Ok (tt, s).
Proof. by intros ->. Qed.

Lemma assert_Ok (b : bool) (s s' : S) u :
  assert b s = Ok (u, s') -> b = true /\ s' = s.
Proof. destruct b; [|done]. by intros [= _ ->]. Qed.
End monad_lemmas.

(** Run the next operation of a sequence whose outcome is known. *)
Ltac run_with H := erewrite bind_eq; [|eapply H].
Ltac run_step := erewrite bind_eq; [|first [reflexivity | eassumption | by eauto]].

(** Take a successful run of a sequence apart. *)
Ltac inv_ok H :=
  repeat match type of H with
  | bind _ _ _ = Ok _ =>
      let a := fresh "a" in let s := fresh "s" in let E := fresh "E" in
      apply bind_Ok in H as (a & s & E & H)
  end.

(** Membership in a list given by its parts. *)
Ltac in_list := repeat first [rewrite elem_of_app | rewrite elem_of_cons]; first [tauto | intuition congruence].

(** ** Machine integers *)
Definition wrapu (w : Z) (x : Z) : Z := x mod 2 ^ w.
Definition wraps (w : Z) (x : Z) : Z := (x + 2 ^ (w - 1)) mod 2 ^ w - 2 ^ (w - 1).
Abbreviation u8 := (wrapu 8).
Abbreviation u32 := (wrapu 32).
Abbreviation u64 := (wrapu 64).
Abbreviation s32 := (wraps 32).
Abbreviation s64 := (wraps 64).

Definition UINT32_MAX : Z := 4294967295.
Definition INT32_MAX : Z := 2147483647.

Lemma wrapu_small w x : 0 <= x < 2 ^ w -> wrapu w x = x.
Proof. apply Z.mod_small. Qed.

Lemma wrapu_le w x : 0 <= w -> 0 <= x -> wrapu w x <= x.
Proof. intros Hw Hx. unfold wrapu. apply Z.mod_le; [done|]. apply Z.pow_pos_nonneg; lia. Qed.
Lemma wrapu_range w x : 0 <= w -> 0 <= wrapu w x < 2 ^ w.
Proof. intros. apply Z.mod_pos_bound, Z.pow_pos_nonneg; lia. Qed.

Lemma wraps_small w x : 0 < w -> - 2 ^ (w - 1) <= x < 2 ^ (w - 1) -> wraps w x = x.
Proof.
  intros Hw Hx. unfold wraps. rewrite Z.mod_small; [lia|].
  replace (2 ^ w) with (2 * 2 ^ (w - 1)); [lia|].
  rewrite <- Z.pow_succ_r by lia. f_equal; lia.
Qed.

Lemma wraps_range w x : 0 < w -> - 2 ^ (w - 1) <= wraps w x < 2 ^ (w - 1).
Proof.
  intros Hw. unfold wraps.
  assert (2 ^ w = 2 * 2 ^ (w - 1)) as E.
  { rewrite <- Z.pow_succ_r by lia. f_equal; lia. }
  pose proof (Z.mod_pos_bound (x + 2 ^ (w - 1)) (2 ^ w) ltac:(apply Z.pow_pos_nonneg; lia)).
  lia.
Qed.

(** *** Bits of machine words *)

Lemma testbit_wrapu w x i : 0 <= w -> 0 <= i -> Z.testbit (wrapu w x) i = (i <? w) && Z.testbit x i.
Proof.
  intros Hw Hi. unfold wrapu. destruct (Z.ltb_spec i w).
  - by rewrite Z.mod_pow2_bits_low.
  - by rewrite Z.mod_pow2_bits_high by lia.
Qed.

Lemma testbit_high w x i : 0 <= x < 2 ^ w -> w <= i -> Z.testbit x i = false.
Proof.
  intros Hx Hi. destruct (Z.eq_dec x 0) as [->|]; [apply Z.bits_0|].
  apply Z.bits_above_log2; [lia|]. assert (Z.log2 x < w) by (apply Z.log2_lt_pow2; lia). lia.
Qed.

Lemma word_range w x :
  0 <= w -> (forall i, w <= i -> Z.testbit x i = false) -> 0 <= x < 2 ^ w.
Proof.
  intros Hw Hb. replace x with (wrapu w x); [by apply wrapu_range|].
  apply Z.bits_inj'. intros i Hi. rewrite testbit_wrapu by done.
  destruct (Z.ltb_spec i w); [done|]. by rewrite Hb.
Qed.

Lemma land_le a b : 0 <= b -> Z.land a b <= b.
Proof.
  intros Hb. assert (b - Z.land a b = Z.ldiff b (Z.land a b)) as E.
  { apply Z.sub_nocarry_ldiff. apply Z.bits_inj'. intros n Hn. rewrite Z.ldiff_spec, Z.land_spec, Z.bits_0.
    by destruct (Z.testbit a n), (Z.testbit b n). }
  assert (0 <= Z.ldiff b (Z.land a b)) by (apply Z.ldiff_nonneg; by left). lia.
Qed.
Lemma land_range w x y : 0 <= w -> 0 <= x < 2 ^ w -> 0 <= Z.land x y < 2 ^ w.
Proof.
  intros Hw Hx. apply word_range; [done|]. intros i Hi.
  by rewrite Z.land_spec, (testbit_high w x i).
Qed.
Lemma lor_range w x y : 0 <= w -> 0 <= x < 2 ^ w -> 0 <= y < 2 ^ w -> 0 <= Z.lor x y < 2 ^ w.
Proof.
  intros Hw Hx Hy. apply word_range; [done|]. intros i Hi.
  by rewrite Z.lor_spec, (testbit_high w x i), (testbit_high w y i).
Qed.
Lemma lxor_range w x y : 0 <= w -> 0 <= x < 2 ^ w -> 0 <= y < 2 ^ w -> 0 <= Z.lxor x y < 2 ^ w.
Proof.
  intros Hw Hx Hy. apply word_range; [done|]. intros i Hi.
  by rewrite Z.lxor_spec, (testbit_high w x i), (testbit_high w y i).
Qed.

(** The range of a machine word that is built from others. *)
#[global] Create HintDb words.
#[export] Hint Resolve wrapu_range wraps_range land_range lor_range lxor_range : words.
#[export] Hint Extern 3 (_ <= _) => lia : words.
#[export] Hint Extern 3 (_ < _) => lia : words.
