(* ===== verification/Descriptor.v ===== *)
(** * userprog/gdt.c, threads/interrupt.c: descriptors of segments and interrupt gates

    A descriptor is a 64-bit number; the fields the processor reads from it are given by their
    places in it. *)

From S2P Require Import Prelude.

Module Descriptor.

Definition SEL_NULL : Z := 0.
Definition SEL_KCSEG : Z := 8.
Definition SEL_KDSEG : Z := 16.
Definition SEL_UCSEG : Z := 27.
Definition SEL_UDSEG : Z := 35.
Definition SEL_TSS : Z := 40.
Definition SEL_CNT : Z := 6.
Definition CLS_SYSTEM : Z := 0.
Definition CLS_CODE_DATA : Z := 1.
Definition GRAN_BYTE : Z := 0.
Definition GRAN_PAGE : Z := 1.

Definition dassert {A} (b : bool) (r : res A) : res A := if b then r else Err AssertFail.
(** [e0 | (uint64_t) e1 << 32] *)
Definition join (e0 e1 : Z) : Z := Z.lor e0 (Z.shiftl e1 32).

Definition make_seg_desc (base limit class type dpl granularity : Z) : res Z :=
  dassert (limit <=? 1048575) (dassert ((class =? CLS_SYSTEM) || (class =? CLS_CODE_DATA)) (dassert ((0 <=? type) && (type <=? 15))
  (dassert ((0 <=? dpl) && (dpl <=? 3)) (dassert ((granularity =? GRAN_BYTE) || (granularity =? GRAN_PAGE))
  (let e0 := Z.lor (Z.land limit 65535) (u32 (Z.shiftl base 16)) in
   let e1 := Z.lor (Z.lor (Z.lor (Z.lor (Z.lor (Z.lor (Z.lor (Z.lor
               (Z.land (Z.shiftr base 16) 255)
               (Z.shiftl type 8))
               (Z.shiftl class 12))
               (Z.shiftl dpl 13))
               (Z.shiftl 1 15))
               (Z.land limit 983040))
               (Z.shiftl 1 22))
               (Z.shiftl granularity 23))
               (Z.land base 4278190080) in
   Ok (join e0 e1)))))).
Definition make_code_desc (dpl : Z) : res Z := make_seg_desc 0 1048575 CLS_CODE_DATA 10 dpl GRAN_PAGE.
Definition make_data_desc (dpl : Z) : res Z := make_seg_desc 0 1048575 CLS_CODE_DATA 2 dpl GRAN_PAGE.
Definition make_tss_desc (laddr : Z) : res Z := make_seg_desc laddr 103 CLS_SYSTEM 9 0 GRAN_BYTE.
Definition make_gdtr_operand (limit base : Z) : Z := Z.lor limit (Z.shiftl base 16).

(** The table, and the operands of [lgdt] and [ltr]; [tss] and [addr] are the addresses of the
    task-state segment and of the table. *)
Definition gdt_init (tss addr : Z) : res (list Z * Z * Z) :=
  rbind (make_code_desc 0) (fun kc => rbind (make_data_desc 0) (fun kd =>
  rbind (make_code_desc 3) (fun uc => rbind (make_data_desc 3) (fun ud =>
  dassert (negb (tss =? 0)) (rbind (make_tss_desc tss) (fun t =>
  let set := fun sel d gdt => <[Z.to_nat (sel / 8) := d]> gdt in
  Ok (set SEL_TSS t (set SEL_UDSEG ud (set SEL_UCSEG uc (set SEL_KDSEG kd (set SEL_KCSEG kc (set SEL_NULL 0 (replicate (Z.to_nat SEL_CNT) 0)))))),
      make_gdtr_operand (8 * SEL_CNT - 1) addr, SEL_TSS))))))).

Definition make_gate (function dpl type : Z) : res Z :=
  dassert (negb (function =? 0)) (dassert ((0 <=? dpl) && (dpl <=? 3)) (dassert ((0 <=? type) && (type <=? 15))
  (let e0 := Z.lor (Z.land function 65535) (Z.shiftl SEL_KCSEG 16) in
   let e1 := Z.lor (Z.lor (Z.lor (Z.lor
               (Z.land function 4294901760)
               (Z.shiftl 1 15))
               (Z.shiftl dpl 13))
               (Z.shiftl 0 12))
               (Z.shiftl type 8) in
   Ok (join e0 e1)))).
Definition make_intr_gate (function dpl : Z) : res Z := make_gate function dpl 14.
Definition make_trap_gate (function dpl : Z) : res Z := make_gate function dpl 15.
Definition make_idtr_operand (limit base : Z) : Z := Z.lor limit (Z.shiftl base 16).

(** ** What the processor reads *)

(** [w] bits of [d] from bit [k] on. *)
Definition bits (k w d : Z) : Z := (d / 2 ^ k) mod 2 ^ w.
Record segment := { seg_base : Z; seg_limit : Z; seg_type : Z; seg_class : Z; seg_dpl : Z; seg_present : Z; seg_32bit : Z; seg_gran : Z }.
Definition segment_of (d : Z) : segment :=
  {| seg_base := bits 16 24 d + 2 ^ 24 * bits 56 8 d; seg_limit := bits 0 16 d + 2 ^ 16 * bits 48 4 d; seg_type := bits 40 4 d;
     seg_class := bits 44 1 d; seg_dpl := bits 45 2 d; seg_present := bits 47 1 d; seg_32bit := bits 54 1 d; seg_gran := bits 55 1 d |}.
Record gate := { gate_offset : Z; gate_selector : Z; gate_type : Z; gate_system : Z; gate_dpl : Z; gate_present : Z }.
Definition gate_of (d : Z) : gate :=
  {| gate_offset := bits 0 16 d + 2 ^ 16 * bits 48 16 d; gate_selector := bits 16 16 d; gate_type := bits 40 4 d; gate_system := bits 44 1 d;
     gate_dpl := bits 45 2 d; gate_present := bits 47 1 d |}.

(** ** Fields side by side *)

Lemma lor_high a b k : 0 <= k -> 0 <= a < 2 ^ k -> Z.lor a (Z.shiftl b k) = a + 2 ^ k * b.
Proof.
  intros Hk Ha. rewrite Z.shiftl_mul_pow2, (Z.mul_comm b) by done. symmetry. apply Z.add_nocarry_lor. apply Z.bits_inj'. intros n Hn.
  rewrite Z.land_spec, Z.bits_0, Z.mul_comm, <- Z.shiftl_mul_pow2, Z.shiftl_spec by done. destruct (Z.ltb_spec n k).
  - rewrite (Z.testbit_neg_r b) by lia. apply andb_false_r.
  - by rewrite (testbit_high k a n) by lia.
Qed.
(** From the lowest field on. *)
Ltac lor_sums :=
  repeat match goal with |- context [Z.lor ?a (Z.shiftl ?b ?k)] =>
    lazymatch a with context [Z.lor] => fail | _ => rewrite (lor_high a b k) by lia end
  end.
Lemma land_field x n k : 0 <= n -> 0 <= k -> Z.land x (Z.shiftl (Z.ones n) k) = Z.shiftl ((x / 2 ^ k) mod 2 ^ n) k.
Proof.
  intros Hn Hk. rewrite <- Z.land_ones, <- Z.shiftr_div_pow2 by done. apply Z.bits_inj'. intros i Hi. rewrite Z.land_spec, !Z.shiftl_spec by done.
  destruct (Z.ltb_spec i k).
  - rewrite !(Z.testbit_neg_r _ (i - k)) by lia. apply andb_false_r.
  - rewrite Z.land_spec, Z.shiftr_spec by lia. by replace (i - k + k) with i by lia.
Qed.

Lemma seg_desc_sum base limit class type dpl granularity :
  0 <= base < 2 ^ 32 -> 0 <= limit < 2 ^ 20 -> 0 <= class < 2 -> 0 <= type < 16 -> 0 <= dpl < 4 -> 0 <= granularity < 2 ->
  make_seg_desc base limit class type dpl granularity =
    Ok (limit mod 2 ^ 16 + 2 ^ 16 * (base mod 2 ^ 16) + 2 ^ 32 * (base / 2 ^ 16 mod 2 ^ 8) + 2 ^ 40 * type + 2 ^ 44 * class + 2 ^ 45 * dpl + 2 ^ 47 +
        2 ^ 48 * (limit / 2 ^ 16) + 2 ^ 54 + 2 ^ 55 * granularity + 2 ^ 56 * (base / 2 ^ 24)).
Proof.
  intros Hb Hl Hc Ht Hd Hg. unfold make_seg_desc, CLS_SYSTEM, CLS_CODE_DATA, GRAN_BYTE, GRAN_PAGE.
  rewrite (proj2 (Z.leb_le limit 1048575)) by lia. assert ((class =? 0) || (class =? 1) = true) as -> by (destruct (Z.eqb_spec class 0), (Z.eqb_spec class 1); done || lia).
  rewrite (proj2 (Z.leb_le 0 type)), (proj2 (Z.leb_le type 15)), (proj2 (Z.leb_le 0 dpl)), (proj2 (Z.leb_le dpl 3)) by lia.
  assert ((granularity =? 0) || (granularity =? 1) = true) as -> by (destruct (Z.eqb_spec granularity 0), (Z.eqb_spec granularity 1); done || lia).
  cbn [dassert andb]. f_equal. unfold join.
  change 65535 with (Z.ones 16). change 255 with (Z.ones 8). change 983040 with (Z.shiftl (Z.ones 4) 16). change 4278190080 with (Z.shiftl (Z.ones 8) 24).
  rewrite !land_field, !Z.land_ones, Z.shiftr_div_pow2 by lia.
  assert (u32 (Z.shiftl base 16) = Z.shiftl (base mod 2 ^ 16) 16) as ->.
  { rewrite !Z.shiftl_mul_pow2 by lia. unfold wrapu. change (2 ^ 32) with (2 ^ 16 * 2 ^ 16). by rewrite Z.mul_mod_distr_r. }
  assert (limit / 2 ^ 16 mod 2 ^ 4 = limit / 2 ^ 16) as -> by (apply Z.mod_small; split; [apply Z.div_pos|apply Z.div_lt_upper_bound]; lia).
  assert (base / 2 ^ 24 mod 2 ^ 8 = base / 2 ^ 24) as -> by (apply Z.mod_small; split; [apply Z.div_pos|apply Z.div_lt_upper_bound]; lia).
  pose proof (Z.mod_pos_bound limit (2 ^ 16) ltac:(lia)). pose proof (Z.mod_pos_bound base (2 ^ 16) ltac:(lia)). pose proof (Z.mod_pos_bound (base / 2 ^ 16) (2 ^ 8) ltac:(lia)).
  assert (0 <= limit / 2 ^ 16 < 2 ^ 4) by (split; [apply Z.div_pos|apply Z.div_lt_upper_bound]; lia).
  lor_sums. lia.
Qed.

Lemma gate_sum function dpl type : 0 < function < 2 ^ 32 -> 0 <= dpl < 4 -> 0 <= type < 16 ->
  make_gate function dpl type =
    Ok (function mod 2 ^ 16 + 2 ^ 16 * SEL_KCSEG + 2 ^ 40 * type + 2 ^ 45 * dpl + 2 ^ 47 + 2 ^ 48 * (function / 2 ^ 16)).
Proof.
  intros Hf Hd Ht. unfold make_gate. rewrite (proj2 (Z.eqb_neq function 0)) by lia.
  rewrite (proj2 (Z.leb_le 0 type)), (proj2 (Z.leb_le type 15)), (proj2 (Z.leb_le 0 dpl)), (proj2 (Z.leb_le dpl 3)) by lia.
  cbn [dassert andb negb]. f_equal. unfold join. change (Z.shiftl 0 12) with 0. rewrite Z.lor_0_r.
  change 65535 with (Z.ones 16). change 4294901760 with (Z.shiftl (Z.ones 16) 16). rewrite land_field, Z.land_ones by lia.
  assert (function / 2 ^ 16 mod 2 ^ 16 = function / 2 ^ 16) as -> by (apply Z.mod_small; split; [apply Z.div_pos|apply Z.div_lt_upper_bound]; lia).
  pose proof (Z.mod_pos_bound function (2 ^ 16) ltac:(lia)). assert (0 <= function / 2 ^ 16 < 2 ^ 16) by (split; [apply Z.div_pos|apply Z.div_lt_upper_bound]; lia).
  assert (Z.lor (Z.lor (Z.lor (Z.shiftl (function / 2 ^ 16) 16) (Z.shiftl 1 15)) (Z.shiftl dpl 13)) (Z.shiftl type 8) =
    Z.lor (Z.lor (Z.lor (type * 2 ^ 8) (Z.shiftl dpl 13)) (Z.shiftl 1 15)) (Z.shiftl (function / 2 ^ 16) 16)) as ->.
  { rewrite (Z.shiftl_mul_pow2 type) by lia. rewrite (Z.lor_comm _ (type * 2 ^ 8)), !Z.lor_assoc. rewrite <- !(Z.lor_assoc (type * 2 ^ 8)).
    rewrite (Z.lor_comm (Z.lor _ (Z.shiftl 1 15))), (Z.lor_comm (Z.shiftl (function / 2 ^ 16) 16)). by rewrite <- !Z.lor_assoc. }
  unfold SEL_KCSEG. lor_sums. lia.
Qed.

(** A field of a sum. *)
Lemma bits_sum k w lo x hi : 0 <= k -> 0 <= w -> 0 <= lo < 2 ^ k -> 0 <= x < 2 ^ w -> bits k w (lo + 2 ^ k * (x + 2 ^ w * hi)) = x.
Proof.
  intros Hk Hw Hlo Hx. unfold bits. rewrite (Z.mul_comm (2 ^ k)), Z.div_add by lia. rewrite Z.div_small, Z.add_0_l by done.
  rewrite (Z.mul_comm (2 ^ w)), Z.mod_add by lia. by apply Z.mod_small.
Qed.
Ltac field lo hi := match goal with |- bits ?k ?w ?d = ?x => replace d with (lo + 2 ^ k * (x + 2 ^ w * hi)) by lia; apply bits_sum; lia end.

Lemma segment_fields l0 l1 b0 b1 b2 class type dpl granularity :
  0 <= l0 < 2 ^ 16 -> 0 <= l1 < 2 ^ 4 -> 0 <= b0 < 2 ^ 16 -> 0 <= b1 < 2 ^ 8 -> 0 <= b2 < 2 ^ 8 -> 0 <= class < 2 -> 0 <= type < 16 -> 0 <= dpl < 4 -> 0 <= granularity < 2 ->
  segment_of (l0 + 2 ^ 16 * b0 + 2 ^ 32 * b1 + 2 ^ 40 * type + 2 ^ 44 * class + 2 ^ 45 * dpl + 2 ^ 47 + 2 ^ 48 * l1 + 2 ^ 54 + 2 ^ 55 * granularity + 2 ^ 56 * b2) =
    {| seg_base := b0 + 2 ^ 16 * b1 + 2 ^ 24 * b2; seg_limit := l0 + 2 ^ 16 * l1; seg_type := type; seg_class := class; seg_dpl := dpl; seg_present := 1; seg_32bit := 1; seg_gran := granularity |}.
Proof.
  intros. unfold segment_of. match goal with |- context [bits 0 16 ?x] => set (d := x) end.
  assert (bits 0 16 d = l0) as -> by (unfold d; field 0 (b0 + 2 ^ 16 * b1 + 2 ^ 24 * type + 2 ^ 28 * class + 2 ^ 29 * dpl + 2 ^ 31 + 2 ^ 32 * l1 + 2 ^ 38 + 2 ^ 39 * granularity + 2 ^ 40 * b2)).
  assert (bits 16 24 d = b0 + 2 ^ 16 * b1) as -> by (unfold d; field l0 (type + 2 ^ 4 * class + 2 ^ 5 * dpl + 2 ^ 7 + 2 ^ 8 * l1 + 2 ^ 14 + 2 ^ 15 * granularity + 2 ^ 16 * b2)).
  assert (bits 40 4 d = type) as -> by (unfold d; field (l0 + 2 ^ 16 * b0 + 2 ^ 32 * b1) (class + 2 * dpl + 2 ^ 3 + 2 ^ 4 * l1 + 2 ^ 10 + 2 ^ 11 * granularity + 2 ^ 12 * b2)).
  assert (bits 44 1 d = class) as -> by (unfold d; field (l0 + 2 ^ 16 * b0 + 2 ^ 32 * b1 + 2 ^ 40 * type) (dpl + 2 ^ 2 + 2 ^ 3 * l1 + 2 ^ 9 + 2 ^ 10 * granularity + 2 ^ 11 * b2)).
  assert (bits 45 2 d = dpl) as -> by (unfold d; field (l0 + 2 ^ 16 * b0 + 2 ^ 32 * b1 + 2 ^ 40 * type + 2 ^ 44 * class) (1 + 2 * l1 + 2 ^ 7 + 2 ^ 8 * granularity + 2 ^ 9 * b2)).
  assert (bits 47 1 d = 1) as -> by (unfold d; field (l0 + 2 ^ 16 * b0 + 2 ^ 32 * b1 + 2 ^ 40 * type + 2 ^ 44 * class + 2 ^ 45 * dpl) (l1 + 2 ^ 6 + 2 ^ 7 * granularity + 2 ^ 8 * b2)).
  assert (bits 48 4 d = l1) as -> by (unfold d; field (l0 + 2 ^ 16 * b0 + 2 ^ 32 * b1 + 2 ^ 40 * type + 2 ^ 44 * class + 2 ^ 45 * dpl + 2 ^ 47) (2 ^ 2 + 2 ^ 3 * granularity + 2 ^ 4 * b2)).
  assert (bits 54 1 d = 1) as -> by (unfold d; field (l0 + 2 ^ 16 * b0 + 2 ^ 32 * b1 + 2 ^ 40 * type + 2 ^ 44 * class + 2 ^ 45 * dpl + 2 ^ 47 + 2 ^ 48 * l1) (granularity + 2 * b2)).
  assert (bits 55 1 d = granularity) as -> by (unfold d; field (l0 + 2 ^ 16 * b0 + 2 ^ 32 * b1 + 2 ^ 40 * type + 2 ^ 44 * class + 2 ^ 45 * dpl + 2 ^ 47 + 2 ^ 48 * l1 + 2 ^ 54) b2).
  assert (bits 56 8 d = b2) as -> by (unfold d; field (l0 + 2 ^ 16 * b0 + 2 ^ 32 * b1 + 2 ^ 40 * type + 2 ^ 44 * class + 2 ^ 45 * dpl + 2 ^ 47 + 2 ^ 48 * l1 + 2 ^ 54 + 2 ^ 55 * granularity) 0).
  reflexivity.
Qed.
Lemma gate_fields f0 f1 type dpl : 0 <= f0 < 2 ^ 16 -> 0 <= f1 < 2 ^ 16 -> 0 <= type < 16 -> 0 <= dpl < 4 ->
  gate_of (f0 + 2 ^ 16 * 8 + 2 ^ 40 * type + 2 ^ 45 * dpl + 2 ^ 47 + 2 ^ 48 * f1) =
    {| gate_offset := f0 + 2 ^ 16 * f1; gate_selector := 8; gate_type := type; gate_system := 0; gate_dpl := dpl; gate_present := 1 |}.
Proof.
  intros. unfold gate_of. match goal with |- context [bits 0 16 ?x] => set (d := x) end.
  assert (bits 0 16 d = f0) as -> by (unfold d; field 0 (8 + 2 ^ 24 * type + 2 ^ 29 * dpl + 2 ^ 31 + 2 ^ 32 * f1)).
  assert (bits 16 16 d = 8) as -> by (unfold d; field f0 (2 ^ 8 * type + 2 ^ 13 * dpl + 2 ^ 15 + 2 ^ 16 * f1)).
  assert (bits 40 4 d = type) as -> by (unfold d; field (f0 + 2 ^ 16 * 8) (2 * dpl + 2 ^ 3 + 2 ^ 4 * f1)).
  assert (bits 44 1 d = 0) as -> by (unfold d; field (f0 + 2 ^ 16 * 8 + 2 ^ 40 * type) (dpl + 2 ^ 2 + 2 ^ 3 * f1)).
  assert (bits 45 2 d = dpl) as -> by (unfold d; field (f0 + 2 ^ 16 * 8 + 2 ^ 40 * type) (1 + 2 * f1)).
  assert (bits 47 1 d = 1) as -> by (unfold d; field (f0 + 2 ^ 16 * 8 + 2 ^ 40 * type + 2 ^ 45 * dpl) f1).
  assert (bits 48 16 d = f1) as -> by (unfold d; field (f0 + 2 ^ 16 * 8 + 2 ^ 40 * type + 2 ^ 45 * dpl + 2 ^ 47) 0).
  reflexivity.
Qed.
Lemma div_range x k w : 0 <= k -> 0 <= w -> 0 <= x < 2 ^ (k + w) -> 0 <= x / 2 ^ k < 2 ^ w.
Proof. intros Hk Hw Hx. rewrite Z.pow_add_r in Hx by done. split; [apply Z.div_pos; lia|apply Z.div_lt_upper_bound; lia]. Qed.

Lemma seg_desc_fields base limit class type dpl granularity :
  0 <= base < 2 ^ 32 -> 0 <= limit < 2 ^ 20 -> 0 <= class < 2 -> 0 <= type < 16 -> 0 <= dpl < 4 -> 0 <= granularity < 2 ->
  exists d, make_seg_desc base limit class type dpl granularity = Ok d /\ 0 <= d < 2 ^ 64 /\
    segment_of d = {| seg_base := base; seg_limit := limit; seg_type := type; seg_class := class; seg_dpl := dpl; seg_present := 1; seg_32bit := 1; seg_gran := granularity |}.
Proof.
  intros Hb Hl Hc Ht Hd Hg. eexists. split; [by apply seg_desc_sum|].
  pose proof (Z.mod_pos_bound limit (2 ^ 16) ltac:(lia)). pose proof (Z.mod_pos_bound base (2 ^ 16) ltac:(lia)). pose proof (Z.mod_pos_bound (base / 2 ^ 16) (2 ^ 8) ltac:(lia)).
  pose proof (div_range limit 16 4 ltac:(lia) ltac:(lia) Hl). pose proof (div_range base 24 8 ltac:(lia) ltac:(lia) Hb).
  split; [lia|]. rewrite segment_fields by done. pose proof (Z.div_mod limit (2 ^ 16) ltac:(lia)). pose proof (Z.div_mod base (2 ^ 16) ltac:(lia)).
  pose proof (Z.div_mod (base / 2 ^ 16) (2 ^ 8) ltac:(lia)) as E. rewrite Z.div_div in E by lia. change (2 ^ 16 * 2 ^ 8) with (2 ^ 24) in E. f_equal; lia.
Qed.
Lemma gate_desc_fields function dpl type : 0 < function < 2 ^ 32 -> 0 <= dpl < 4 -> 0 <= type < 16 ->
  exists g, make_gate function dpl type = Ok g /\ 0 <= g < 2 ^ 64 /\
    gate_of g = {| gate_offset := function; gate_selector := SEL_KCSEG; gate_type := type; gate_system := 0; gate_dpl := dpl; gate_present := 1 |}.
Proof.
  intros Hf Hd Ht. eexists. split; [by apply gate_sum|].
  pose proof (Z.mod_pos_bound function (2 ^ 16) ltac:(lia)). pose proof (div_range function 16 16 ltac:(lia) ltac:(lia) ltac:(lia)). unfold SEL_KCSEG.
  split; [lia|]. rewrite gate_fields by done. pose proof (Z.div_mod function (2 ^ 16) ltac:(lia)). f_equal; lia.
Qed.

(** The processor finds in a segment descriptor made by [make_seg_desc] the base, limit,
    class, type, privilege level and granularity it was made from, marked as present and
    32-bit, and in a gate made by [make_gate] the entry point, the code segment of the kernel,
    the type and the privilege level. *)
Theorem descriptors_correct base limit class type dpl granularity function :
  0 <= base < 2 ^ 32 -> 0 <= limit < 2 ^ 20 -> 0 <= class < 2 -> 0 <= type < 16 -> 0 <= dpl < 4 -> 0 <= granularity < 2 -> 0 < function < 2 ^ 32 ->
  (exists d, make_seg_desc base limit class type dpl granularity = Ok d /\ 0 <= d < 2 ^ 64 /\
     segment_of d = {| seg_base := base; seg_limit := limit; seg_type := type; seg_class := class; seg_dpl := dpl; seg_present := 1; seg_32bit := 1; seg_gran := granularity |}) /\
  (exists g, make_gate function dpl type = Ok g /\ 0 <= g < 2 ^ 64 /\
     gate_of g = {| gate_offset := function; gate_selector := SEL_KCSEG; gate_type := type; gate_system := 0; gate_dpl := dpl; gate_present := 1 |}).
Proof.
  intros Hb Hl Hc Ht Hd Hg Hf. split; [by apply seg_desc_fields|by apply gate_desc_fields].
Qed.
Lemma descriptors_correct_witness : exists d, make_seg_desc 3221295104 103 CLS_SYSTEM 9 0 GRAN_BYTE = Ok d /\ seg_base (segment_of d) = 3221295104.
Proof.
  destruct (descriptors_correct 3221295104 103 CLS_SYSTEM 9 0 GRAN_BYTE 3221356544) as [(d & E & _ & S) _]; [split; reflexivity || discriminate..|].
  exists d. split; [exact E|]. rewrite S. reflexivity.
Defined.

(** The segments of the table: flat ones for the kernel and for processes, and the task-state
    segment; only two of them can be used by a process. *)
Lemma gdt_init_table tss addr : 0 < tss < 2 ^ 32 -> 0 <= addr < 2 ^ 32 -> exists gdt t op, gdt_init tss addr = Ok (gdt, op, SEL_TSS) /\
  map segment_of gdt =
    [segment_of 0;
     {| seg_base := 0; seg_limit := 1048575; seg_type := 10; seg_class := 1; seg_dpl := 0; seg_present := 1; seg_32bit := 1; seg_gran := 1 |};
     {| seg_base := 0; seg_limit := 1048575; seg_type := 2; seg_class := 1; seg_dpl := 0; seg_present := 1; seg_32bit := 1; seg_gran := 1 |};
     {| seg_base := 0; seg_limit := 1048575; seg_type := 10; seg_class := 1; seg_dpl := 3; seg_present := 1; seg_32bit := 1; seg_gran := 1 |};
     {| seg_base := 0; seg_limit := 1048575; seg_type := 2; seg_class := 1; seg_dpl := 3; seg_present := 1; seg_32bit := 1; seg_gran := 1 |}; t] /\
  seg_base t = tss /\ seg_limit t = 103 /\ seg_type t = 9 /\ seg_dpl t = 0 /\ bits 0 16 op = 47 /\ bits 16 32 op = addr.
Proof.
  intros Ht Ha. unfold gdt_init, make_tss_desc. rewrite (proj2 (Z.eqb_neq tss 0)) by lia.
  destruct (seg_desc_fields tss 103 CLS_SYSTEM 9 0 GRAN_BYTE) as (d & E & _ & S); [lia|done..|]. rewrite E. eexists _, (segment_of d), _. split; [reflexivity|]. split; [reflexivity|].
  rewrite S. change (8 * SEL_CNT - 1) with 47. split_and!; try done; unfold make_gdtr_operand; rewrite lor_high by lia; [field 0 addr|field 47 0].
Qed.

End Descriptor.
