(* ===== verification/Clock.v ===== *)
(** * devices/rtc.c, devices/pit.c, devices/timer.c: time

    What the clock chip answers, and whether a loop takes longer than a tick, are parameters;
    a thread that sleeps is given the number of ticks that each [thread_yield] takes; where a
    function asks for interrupts to be on, [on] says whether they are. *)

From S2P Require Import Prelude Descriptor.

Module Clock.

(** ** The real-time clock *)

Definition RTC_REG_SEC : Z := 0.
Definition RTC_REG_MIN : Z := 2.
Definition RTC_REG_HOUR : Z := 4.
Definition RTC_REG_MDAY : Z := 7.
Definition RTC_REG_MON : Z := 8.
Definition RTC_REG_YEAR : Z := 9.

Definition bcd_to_bin (x : Z) : Z := Z.land x 15 + Z.shiftr x 4 * 10.
Definition days_per_month : list Z := [31; 28; 31; 30; 31; 30; 31; 31; 30; 31; 30; 31].

Fixpoint month_loop (n : nat) (i mon time : Z) : res Z :=
  match n with
  | O => Err OutOfFuel
  | S n =>
      if i <=? mon then
        match (if 1 <=? i then days_per_month !! Z.to_nat (i - 1) else None) with
        | Some d => month_loop n (i + 1) mon (u32 (time + d * 24 * 60 * 60))
        | None => Err WildAccess
        end
      else Ok time
  end.
(** The second half of [rtc_get_time]; the loop has at most 13 rounds before it leaves the array. *)
Definition rtc_seconds (sec min hour mday mon year : Z) : res Z :=
  let year := if year <? 70 then year + 100 else year in
  let year := year - 70 in
  let time := u32 ((year * 365 + Z.quot (year - 1) 4) * 24 * 60 * 60) in
  rbind (month_loop 14 1 mon time) (fun time =>
  let time := if (mon >? 2) && (Z.rem year 4 =? 0) then u32 (time + 24 * 60 * 60) else time in
  let time := u32 (time + (mday - 1) * 24 * 60 * 60) in
  let time := u32 (time + hour * 60 * 60) in
  let time := u32 (time + min * 60) in
  Ok (u32 (time + sec))).

(** The chip: a register, and the chip after it has been read. *)
Section chip.
Context {C : Type} (cmos : Z -> C -> Z * C).
Definition cmos_read (index : Z) : M C Z := fun c => Ok (cmos index c).
Definition read_bcd (index : Z) : M C Z := let! x := cmos_read index in ret (bcd_to_bin x).
Fixpoint rtc_get_time (fuel : nat) : M C Z :=
  match fuel with
  | O => fail OutOfFuel
  | S fuel =>
      let! sec := read_bcd RTC_REG_SEC in
      let! min := read_bcd RTC_REG_MIN in
      let! hour := read_bcd RTC_REG_HOUR in
      let! mday := read_bcd RTC_REG_MDAY in
      let! mon := read_bcd RTC_REG_MON in
      let! year := read_bcd RTC_REG_YEAR in
      let! again := read_bcd RTC_REG_SEC in
      if sec =? again then lift (rtc_seconds sec min hour mday mon year) else rtc_get_time fuel
  end.
End chip.

(** ** The interval timer *)

Definition PIT_HZ : Z := 1193180.
Definition pit_count (frequency : Z) : Z :=
  if frequency <? 19 then 0
  else if frequency >? PIT_HZ then 2
  else wrapu 16 (Z.quot (PIT_HZ + Z.quot frequency 2) frequency).
(** The bytes sent to the ports. *)
Definition pit_configure_channel (channel mode frequency : Z) : res (list (Z * Z)) :=
  if negb ((channel =? 0) || (channel =? 2)) then Err AssertFail
  else if negb ((mode =? 2) || (mode =? 3)) then Err AssertFail
  else
    let count := pit_count frequency in
    Ok [(67, u8 (Z.lor (Z.lor (Z.shiftl channel 6) 48) (Z.shiftl mode 1))); (64 + channel, u8 count); (64 + channel, u8 (Z.shiftr count 8))].

(** ** Delays *)

Definition TIMER_FREQ : Z := 100.

Section calibrate.
Context (too_many_loops : Z -> bool).
Fixpoint double_loop (fuel : nat) (loops_per_tick : Z) : res Z :=
  match fuel with
  | O => Err OutOfFuel
  | S fuel =>
      if negb (too_many_loops (u32 (Z.shiftl loops_per_tick 1))) then
        let loops_per_tick := u32 (Z.shiftl loops_per_tick 1) in
        if loops_per_tick =? 0 then Err AssertFail else double_loop fuel loops_per_tick
      else Ok loops_per_tick
  end.
Fixpoint refine_loop (fuel : nat) (high_bit test_bit loops_per_tick : Z) : res Z :=
  match fuel with
  | O => Err OutOfFuel
  | S fuel =>
      if negb (test_bit =? Z.shiftr high_bit 10) then
        refine_loop fuel high_bit (Z.shiftr test_bit 1)
          (if negb (too_many_loops (Z.lor high_bit test_bit)) then Z.lor loops_per_tick test_bit else loops_per_tick)
      else Ok loops_per_tick
  end.
(** The first loop ends when the number wraps around to 0, the second after nine rounds. *)
Definition timer_calibrate (on : bool) : res Z :=
  if negb on then Err AssertFail else rbind (double_loop 33 (Z.shiftl 1 10)) (fun loops_per_tick => refine_loop 11 loops_per_tick (Z.shiftr loops_per_tick 1) loops_per_tick).
End calibrate.

(** How long [timer_sleep] takes: the ticks that have passed when it returns; none if it is
    still asleep after all the yields of the list. *)
Fixpoint sleep_loop (elapsed ticks : Z) (yields : list Z) : option Z :=
  if elapsed <? ticks then match yields with [] => None | d :: yields => sleep_loop (elapsed + d) ticks yields end
  else Some elapsed.
Definition timer_sleep (on : bool) (ticks : Z) (yields : list Z) : res (option Z) :=
  if negb on then Err AssertFail else Ok (sleep_loop 0 ticks yields).

Inductive delay := Sleep (ticks : Z) | BusyWait (loops : Z).
Definition real_time_delay (loops_per_tick num denom : Z) : res delay :=
  if negb (Z.rem denom 1000 =? 0) then Err AssertFail
  else Ok (BusyWait (Z.quot (s64 (Z.quot (s64 (loops_per_tick * num)) 1000 * TIMER_FREQ)) (Z.quot denom 1000))).
Definition real_time_sleep (on : bool) (loops_per_tick num denom : Z) : res delay :=
  let ticks := Z.quot (s64 (num * TIMER_FREQ)) denom in
  if negb on then Err AssertFail else if ticks >? 0 then Ok (Sleep ticks) else real_time_delay loops_per_tick num denom.
Definition timer_msleep (on : bool) (loops_per_tick ms : Z) : res delay := real_time_sleep on loops_per_tick ms 1000.
Definition timer_usleep (on : bool) (loops_per_tick us : Z) : res delay := real_time_sleep on loops_per_tick us (1000 * 1000).
Definition timer_nsleep (on : bool) (loops_per_tick ns : Z) : res delay := real_time_sleep on loops_per_tick ns (1000 * 1000 * 1000).
Definition timer_mdelay (loops_per_tick ms : Z) : res delay := real_time_delay loops_per_tick ms 1000.
Definition timer_udelay (loops_per_tick us : Z) : res delay := real_time_delay loops_per_tick us (1000 * 1000).
Definition timer_ndelay (loops_per_tick ns : Z) : res delay := real_time_delay loops_per_tick ns (1000 * 1000 * 1000).

(** ** Theorems *)

(** Days since 1970-01-01, for years in which every fourth is a leap year. *)
Definition days_before (mon : Z) : Z := nth (Z.to_nat (mon - 1)) [0; 31; 59; 90; 120; 151; 181; 212; 243; 273; 304; 334] 0.
Definition epoch_days (y mon mday : Z) : Z :=
  (y - 1970) * 365 + (y - 1969) / 4 + days_before mon + (if (mon >? 2) && (y mod 4 =? 0) then 1 else 0) + (mday - 1).
Definition epoch_seconds (y mon mday hour min sec : Z) : Z := epoch_days y mon mday * 86400 + hour * 3600 + min * 60 + sec.

(** The days of [n] months from [i] on. *)
Fixpoint month_days (n : nat) (i : Z) : Z := match n with O => 0 | S n => nth (Z.to_nat (i - 1)) days_per_month 0 + month_days n (i + 1) end.
Lemma month_lookup i : 1 <= i <= 12 -> exists d, days_per_month !! Z.to_nat (i - 1) = Some d /\ nth (Z.to_nat (i - 1)) days_per_month 0 = d /\ 28 <= d <= 31.
Proof.
  intros Hi. destruct (lookup_lt_is_Some_2 days_per_month (Z.to_nat (i - 1))) as [d E]; [cbn; lia|]. exists d. split; [done|]. split; [by apply nth_lookup_Some|].
  assert (Forall (fun d => 28 <= d <= 31) days_per_month) as HF by (repeat constructor; lia). by apply (Forall_lookup_1 _ _ _ _ HF E).
Qed.
Lemma month_loop_days n : forall i mon time, 1 <= i <= mon + 1 -> mon <= 12 -> (Z.to_nat (mon + 1 - i) < n)%nat -> 0 <= time -> time + 86400 * 31 * (mon + 1 - i) < 2 ^ 32 ->
  month_loop n i mon time = Ok (time + 86400 * month_days (Z.to_nat (mon + 1 - i)) i).
Proof.
  induction n as [|n IH]; intros i mon time Hi Hm Hn Ht Hb; [lia|]. cbn [month_loop]. destruct (Z.leb_spec i mon).
  - rewrite (proj2 (Z.leb_le 1 i)) by lia. destruct (month_lookup i ltac:(lia)) as (d & -> & En & Hd). rewrite wrapu_small by lia. rewrite IH by lia.
    replace (Z.to_nat (mon + 1 - i)) with (S (Z.to_nat (mon + 1 - (i + 1)))) by lia. cbn [month_days]. rewrite En. f_equal. lia.
  - replace (Z.to_nat (mon + 1 - i)) with 0%nat by lia. cbn [month_days]. f_equal. lia.
Qed.
Lemma month_loop_run mon time : 1 <= mon <= 12 -> 0 <= time < 2 ^ 31 ->
  month_loop 14 1 mon time = Ok (time + 86400 * (days_before mon + nth (Z.to_nat (mon - 1)) days_per_month 0)).
Proof.
  intros Hm Ht. rewrite month_loop_days by lia. do 3 f_equal.
  assert (mon = 1 \/ mon = 2 \/ mon = 3 \/ mon = 4 \/ mon = 5 \/ mon = 6 \/ mon = 7 \/ mon = 8 \/ mon = 9 \/ mon = 10 \/ mon = 11 \/ mon = 12) as Hc by lia.
  by decompose [or] Hc; subst mon.
Qed.
Lemma days_before_range mon : 1 <= mon <= 12 -> 0 <= days_before mon <= 334.
Proof.
  intros Hm. assert (mon = 1 \/ mon = 2 \/ mon = 3 \/ mon = 4 \/ mon = 5 \/ mon = 6 \/ mon = 7 \/ mon = 8 \/ mon = 9 \/ mon = 10 \/ mon = 11 \/ mon = 12) as Hc by lia.
  by decompose [or] Hc; subst mon.
Qed.
Lemma year_of y : 1970 <= y < 2038 -> (if y mod 100 <? 70 then y mod 100 + 100 else y mod 100) - 70 = y - 1970.
Proof.
  intros Hy. destruct (Z.lt_ge_cases y 2000).
  - assert (y mod 100 = y - 1900) as -> by (symmetry; apply (Z.mod_unique_pos _ _ 19); lia). rewrite (proj2 (Z.ltb_ge _ _)) by lia. lia.
  - assert (y mod 100 = y - 2000) as -> by (symmetry; apply (Z.mod_unique_pos _ _ 20); lia). rewrite (proj2 (Z.ltb_lt _ _)) by lia. lia.
Qed.

(** [rtc_get_time] does not return the seconds since 1970: for every date from 1970 to 2037
    that the chip can give, the result is too late by the length of the current month, since
    the loop over the months includes it, and by a day more or less where the leap years
    before 1972, 1976 and so on are counted two years late; it is between 27 and 32 days ahead. *)
Theorem rtc_ahead y mon mday hour min sec : 1970 <= y < 2038 -> 1 <= mon <= 12 -> 1 <= mday <= 31 -> 0 <= hour < 24 -> 0 <= min < 60 -> 0 <= sec < 60 ->
  exists t d, rtc_seconds sec min hour mday mon (y mod 100) = Ok t /\ t = epoch_seconds y mon mday hour min sec + 86400 * d /\ 27 <= d <= 32.
Proof.
  intros Hy Hm Hd Hh Hmi Hs. unfold rtc_seconds. rewrite year_of by done. assert (exists k, k = y - 1970) as [k Ek] by (by eexists). rewrite <- Ek.
  assert (0 <= Z.quot (k - 1) 4 <= 17 /\ 4 * Z.quot (k - 1) 4 <= Z.max 0 (k - 1) < 4 * Z.quot (k - 1) 4 + 4) as [Hq1 Hq2].
  { destruct (decide (k = 0)) as [E0|Hk]; [rewrite E0; change (Z.quot (0 - 1) 4) with 0; lia|]. rewrite Z.quot_div_nonneg by lia. pose proof (Z.div_mod (k - 1) 4 ltac:(lia)). pose proof (Z.mod_pos_bound (k - 1) 4 ltac:(lia)). lia. }
  set (q := Z.quot (k - 1) 4) in *. rewrite (wrapu_small 32 ((k * 365 + q) * 24 * 60 * 60)) by lia. rewrite month_loop_run by lia. cbn [rbind].
  pose proof (days_before_range mon Hm) as Hb. destruct (month_lookup mon Hm) as (dm & _ & -> & Hn).
  set (leap := (if (mon >? 2) && (Z.rem k 4 =? 0) then 1 else 0)).
  assert (forall x, 0 <= x < 2 ^ 31 + 2 ^ 30 -> (if (mon >? 2) && (Z.rem k 4 =? 0) then u32 (x + 24 * 60 * 60) else x) = x + 86400 * leap) as Hl.
  { intros x Hx. unfold leap. destruct (_ && _); [rewrite wrapu_small by lia|]; lia. }
  assert (0 <= leap <= 1) as Hlp by (unfold leap; destruct (_ && _); lia). rewrite Hl by lia.
  rewrite (wrapu_small 32 (_ + (mday - 1) * 24 * 60 * 60)) by lia. rewrite (wrapu_small 32 (_ + hour * 60 * 60)) by lia. rewrite (wrapu_small 32 (_ + min * 60)) by lia. rewrite (wrapu_small 32 (_ + sec)) by lia.
  eexists _, (q - (y - 1969) / 4 + dm + leap - (if (mon >? 2) && (y mod 4 =? 0) then 1 else 0)). split; [reflexivity|].
  split; [unfold epoch_seconds, epoch_days; lia|].
  assert (Z.rem k 4 = k mod 4) as Er by (apply Z.rem_mod_nonneg; lia). unfold leap. rewrite Er. clear leap Hl Hlp. replace (y - 1969) with (k + 1) by lia. assert (y mod 4 = (k + 2) mod 4) as -> by (replace y with (k + 2 + 492 * 4) by lia; by rewrite Z.mod_add).
  pose proof (Z.div_mod (k + 1) 4 ltac:(lia)). pose proof (Z.mod_pos_bound (k + 1) 4 ltac:(lia)). pose proof (Z.div_mod k 4 ltac:(lia)). pose proof (Z.mod_pos_bound k 4 ltac:(lia)). pose proof (Z.div_mod (k + 2) 4 ltac:(lia)). pose proof (Z.mod_pos_bound (k + 2) 4 ltac:(lia)).
  destruct (mon >? 2), (Z.eqb_spec (k mod 4) 0), (Z.eqb_spec ((k + 2) mod 4) 0); cbn [andb]; lia.
Qed.

Lemma rtc_ahead_witness : exists t, rtc_seconds 0 0 0 1 1 0 = Ok t /\ 27 * 86400 <= t - epoch_seconds 2000 1 1 0 0 0 <= 32 * 86400.
Proof.
  destruct (rtc_ahead 2000 1 1 0 0 0) as (t & d & E & Et & Hd); [lia..|]. exists t. split; [exact E|lia].
Defined.

(** The count is the nearest to the ratio of the frequencies, it fits its 16 bits, and the two
    bytes sent to the channel make it up.  For the highest frequencies it is 1, which the
    comment calls illegal. *)
Lemma pit_count_nearest f : 19 <= f <= PIT_HZ -> 1 <= pit_count f < 65536 /\ 2 * Z.abs (pit_count f * f - PIT_HZ) <= f /\ (2 * PIT_HZ < 3 * f -> pit_count f = 1).
Proof.
  unfold PIT_HZ. intros Hf. unfold pit_count, PIT_HZ. rewrite (proj2 (Z.ltb_ge f 19)) by lia. destruct (Z.gtb_spec f 1193180); [lia|].
  rewrite (Z.quot_div_nonneg f 2) by lia. pose proof (Z.div_mod f 2 ltac:(lia)). pose proof (Z.mod_pos_bound f 2 ltac:(lia)).
  rewrite Z.quot_div_nonneg by lia. pose proof (Z.div_mod (1193180 + f / 2) f ltac:(lia)) as E. pose proof (Z.mod_pos_bound (1193180 + f / 2) f ltac:(lia)).
  assert (1 <= (1193180 + f / 2) / f) by (apply Z.div_le_lower_bound; lia). assert ((1193180 + f / 2) / f < 65536) by (apply Z.div_lt_upper_bound; lia).
  rewrite wrapu_small by lia. split; [lia|]. split; [lia|]. intros Hb. assert ((1193180 + f / 2) / f < 2) by (apply Z.div_lt_upper_bound; lia). lia.
Qed.
Lemma pit_configure_run channel mode f : channel = 0 \/ channel = 2 -> mode = 2 \/ mode = 3 -> 19 <= f <= PIT_HZ -> exists ctl lo hi,
  pit_configure_channel channel mode f = Ok [(67, ctl); (64 + channel, lo); (64 + channel, hi)] /\ lo + 256 * hi = pit_count f.
Proof.
  intros Hc Hm Hf. unfold pit_configure_channel. assert ((channel =? 0) || (channel =? 2) = true) as -> by (by destruct Hc as [-> | ->]).
  assert ((mode =? 2) || (mode =? 3) = true) as -> by (by destruct Hm as [-> | ->]). cbn [negb]. eexists _, _, _. split; [reflexivity|].
  destruct (pit_count_nearest f Hf) as (Hr & _). unfold wrapu. rewrite Z.shiftr_div_pow2 by lia. change (2 ^ 8) with 256.
  rewrite (Z.mod_small (pit_count f / 256)) by (split; [apply Z.div_pos|apply Z.div_lt_upper_bound]; lia). pose proof (Z.div_mod (pit_count f) 256 ltac:(lia)). lia.
Qed.

(** A delay of at least a tick is rounded down to whole ticks. *)
Lemma real_time_sleep_ticks loops num denom n : 0 <= num < 2 ^ 56 -> 0 < denom -> real_time_sleep true loops num denom = Ok (Sleep n) -> n * denom <= num * TIMER_FREQ < (n + 1) * denom.
Proof.
  unfold real_time_sleep, TIMER_FREQ. cbn [negb]. intros Hn Hd. rewrite wraps_small by lia. rewrite Z.quot_div_nonneg by lia. destruct (_ >? 0).
  - intros [= <-]. pose proof (Z.div_mod (num * 100) denom ltac:(lia)). pose proof (Z.mod_pos_bound (num * 100) denom ltac:(lia)). lia.
  - unfold real_time_delay. destruct (negb _); discriminate.
Qed.
(** [timer_sleep] returns at the first yield after which enough ticks have passed, and does so
    whenever there is one. *)
Lemma sleep_loop_enough yields : forall e ticks, Forall (fun d => 0 <= d) yields ->
  match sleep_loop e ticks yields with Some t => ticks <= t | None => e + foldr Z.add 0 yields < ticks end.
Proof.
  induction yields as [|d l IH]; intros e ticks Hl; cbn [sleep_loop foldr]; destruct (Z.ltb_spec e ticks); try lia.
  apply Forall_cons in Hl as [_ Hl]. specialize (IH (e + d) ticks Hl). destruct (sleep_loop (e + d) ticks l); lia.
Qed.

(** *** Calibration *)

Section threshold.
Context (T : Z).
Definition longer (loops : Z) : bool := T <? loops.
Lemma double_loop_run fuel : forall k, 0 <= k <= 31 -> 2 ^ k <= T < 2 ^ 31 -> (Z.to_nat (31 - k) < fuel)%nat ->
  exists m, double_loop longer fuel (2 ^ k) = Ok (2 ^ m) /\ k <= m <= 30 /\ 2 ^ m <= T < 2 ^ (m + 1).
Proof.
  induction fuel as [|fuel IH]; intros k Hk HT Hf; [lia|]. cbn [double_loop]. assert (k < 31) by (destruct (decide (k = 31)) as [->|]; lia).
  rewrite Z.shiftl_mul_pow2 by lia. change (2 ^ 1) with 2. assert (2 ^ (k + 1) = 2 ^ k * 2) as Ep by (rewrite Z.pow_add_r by lia; done).
  assert (2 ^ k * 2 < 2 ^ 32) by (rewrite <- Ep; apply Z.pow_lt_mono_r; lia). assert (0 < 2 ^ k) by (apply Z.pow_pos_nonneg; lia). rewrite wrapu_small by lia.
  unfold longer at 1. destruct (Z.ltb_spec T (2 ^ k * 2)); cbn [negb].
  - exists k. split; [done|]. split; [lia|]. rewrite Ep. lia.
  - rewrite (proj2 (Z.eqb_neq _ 0)) by lia. rewrite <- Ep. destruct (IH (k + 1)) as (m & E & Hm & HT'); [lia|rewrite Ep; lia|lia|]. exists m. split; [exact E|]. split; [lia|done].
Qed.
Lemma refine_loop_run fuel : forall m j y, 10 <= m -> m - 10 <= j <= m - 1 -> (Z.to_nat (j - (m - 10)) < fuel)%nat -> 2 ^ m <= 2 ^ (j + 1) * y -> 2 ^ (j + 1) * y + 2 ^ (j + 1) <= 2 ^ (m + 1) ->
  exists L, refine_loop longer fuel (2 ^ m) (2 ^ j) (2 ^ (j + 1) * y) = Ok L /\ 2 ^ m <= L < 2 ^ (m + 1).
Proof.
  induction fuel as [|fuel IH]; intros m j y Hm Hj Hf Hlo Hhi; [lia|]. cbn [refine_loop]. rewrite !Z.shiftr_div_pow2 by lia.
  assert (2 ^ m / 2 ^ 10 = 2 ^ (m - 10)) as -> by (by rewrite <- Z.pow_sub_r by lia). assert (0 < 2 ^ j) by (apply Z.pow_pos_nonneg; lia).
  assert (2 ^ (j + 1) = 2 * 2 ^ j) as Ej by (rewrite Z.add_1_r, Z.pow_succ_r by lia; done).
  destruct (Z.eqb_spec (2 ^ j) (2 ^ (m - 10))) as [E|Hne]; cbn [negb]; [exists (2 ^ (j + 1) * y); split; [done|lia]|].
  assert (j <> m - 10) by (intros ->; done). assert (2 ^ j / 2 ^ 1 = 2 ^ (j - 1)) as -> by (by rewrite <- Z.pow_sub_r by lia).
  assert (Z.lor (2 ^ (j + 1) * y) (2 ^ j) = 2 ^ (j + 1) * y + 2 ^ j) as El.
  { rewrite Z.lor_comm, (Z.mul_comm _ y), <- Z.shiftl_mul_pow2, Descriptor.lor_high by lia. rewrite Z.shiftl_mul_pow2 by lia. lia. }
  destruct (negb (longer _)); [rewrite El|].
  - replace (2 ^ (j + 1) * y + 2 ^ j) with (2 ^ (j - 1 + 1) * (2 * y + 1)) by (replace (j - 1 + 1) with j by lia; lia).
    apply IH; [done|lia|lia|..]; replace (j - 1 + 1) with j by lia; lia.
  - replace (2 ^ (j + 1) * y) with (2 ^ (j - 1 + 1) * (2 * y)) by (replace (j - 1 + 1) with j by lia; lia).
    apply IH; [done|lia|lia|..]; replace (j - 1 + 1) with j by lia; lia.
Qed.

(** When a tick takes the time of [T] loops, at least 1024 and less than 2^31,
    [timer_calibrate] ends and finds a number between half and twice [T]. *)
Theorem timer_calibrate_bounds : 1024 <= T < 2 ^ 31 -> exists L, timer_calibrate longer true = Ok L /\ T < 2 * L /\ L < 2 * T.
Proof.
  intros HT. unfold timer_calibrate. cbn [negb]. change (Z.shiftl 1 10) with (2 ^ 10). destruct (double_loop_run 33 10) as (m & -> & Hm & HTm); [lia|lia|lia|]. cbn [rbind].
  rewrite Z.shiftr_div_pow2 by lia. assert (2 ^ m / 2 ^ 1 = 2 ^ (m - 1)) as -> by (by rewrite <- Z.pow_sub_r by lia). assert (2 ^ (m + 1) = 2 * 2 ^ m) as Em by (rewrite Z.add_1_r, Z.pow_succ_r by lia; done).
  destruct (refine_loop_run 11 m (m - 1) 1) as (L & E & HL); [lia|lia|lia|replace (m - 1 + 1) with m by lia; lia..|].
  exists L. replace (m - 1 + 1) with m in E by lia. rewrite Z.mul_1_r in E. split; [exact E|]. lia.
Qed.
End threshold.
Lemma timer_calibrate_bounds_witness : exists L, timer_calibrate (longer 1500000) true = Ok L /\ L < 3000000.
Proof. destruct (timer_calibrate_bounds 1500000) as (L & E & _ & H); [lia|]. exists L. split; [exact E|lia]. Defined.

(** The refinement tests every bit by itself, so the result can be more than a tick. *)
Lemma timer_calibrate_overshoots : timer_calibrate (longer 1572864) true = Ok 2095104.
Proof. vm_compute. reflexivity. Qed.

End Clock.
