(* ===== verification/Interrupt.v ===== *)
(** * threads/interrupt.c: the interrupt descriptor table and the dispatch of interrupts

    The state is that of the processor and of the file: the interrupt flag, the table, the
    registered handlers, the counts of unexpected interrupts, the two flags of an external
    interrupt, the bytes sent to ports and, for the handlers, the rest of the kernel.  What a
    handler does, [thread_yield] and the addresses of the entry stubs are parameters. *)

From S2P Require Import Prelude Descriptor.

Module Interrupt.
Import Descriptor.

Definition INTR_CNT : Z := 256.
Inductive intr_level := INTR_OFF | INTR_ON.
(** The handlers that the kernel registers. *)
Inductive intr_handler_func := kill | page_fault | syscall_handler | timer_interrupt | keyboard_interrupt | serial_interrupt | interrupt_handler.
#[export] Instance level_eq_dec : EqDecision intr_level.
Proof. solve_decision. Defined.

Section interrupts.
Context {K : Type}.

Record cpu := {
  IF : bool; idt : list Z; intr_handlers : gmap Z intr_handler_func; unexpected_cnt : gmap Z Z; reported : list Z;
  in_external_intr : bool; yield_on_return : bool; ports : list (Z * Z); rest : K }.

Definition with_IF (b : bool) (s : cpu) : cpu :=
  {| IF := b; idt := idt s; intr_handlers := intr_handlers s; unexpected_cnt := unexpected_cnt s; reported := reported s;
     in_external_intr := in_external_intr s; yield_on_return := yield_on_return s; ports := ports s; rest := rest s |}.
Definition with_gate (vec g : Z) (s : cpu) : cpu :=
  {| IF := IF s; idt := <[Z.to_nat vec := g]> (idt s); intr_handlers := intr_handlers s; unexpected_cnt := unexpected_cnt s; reported := reported s;
     in_external_intr := in_external_intr s; yield_on_return := yield_on_return s; ports := ports s; rest := rest s |}.
Definition with_handler (vec : Z) (h : intr_handler_func) (s : cpu) : cpu :=
  {| IF := IF s; idt := idt s; intr_handlers := <[vec := h]> (intr_handlers s); unexpected_cnt := unexpected_cnt s; reported := reported s;
     in_external_intr := in_external_intr s; yield_on_return := yield_on_return s; ports := ports s; rest := rest s |}.
Definition with_count (vec n : Z) (report : bool) (s : cpu) : cpu :=
  {| IF := IF s; idt := idt s; intr_handlers := intr_handlers s; unexpected_cnt := <[vec := n]> (unexpected_cnt s);
     reported := if report then reported s ++ [vec] else reported s;
     in_external_intr := in_external_intr s; yield_on_return := yield_on_return s; ports := ports s; rest := rest s |}.
Definition with_external (e y : bool) (s : cpu) : cpu :=
  {| IF := IF s; idt := idt s; intr_handlers := intr_handlers s; unexpected_cnt := unexpected_cnt s; reported := reported s;
     in_external_intr := e; yield_on_return := y; ports := ports s; rest := rest s |}.
Definition with_ports (l : list (Z * Z)) (s : cpu) : cpu :=
  {| IF := IF s; idt := idt s; intr_handlers := intr_handlers s; unexpected_cnt := unexpected_cnt s; reported := reported s;
     in_external_intr := in_external_intr s; yield_on_return := yield_on_return s; ports := l; rest := rest s |}.
Definition with_rest (k : K) (s : cpu) : cpu :=
  {| IF := IF s; idt := idt s; intr_handlers := intr_handlers s; unexpected_cnt := unexpected_cnt s; reported := reported s;
     in_external_intr := in_external_intr s; yield_on_return := yield_on_return s; ports := ports s; rest := k |}.
Definition outb (port data : Z) : M cpu unit := modify (fun s => with_ports (ports s ++ [(port, data)]) s).
Definition on_rest {A} (c : M K A) : M cpu A := fun s =>
  match c (rest s) with Ok (a, k) => Ok (a, with_rest k s) | Err f => Err f end.

(** ** The interrupt flag *)

Definition intr_context : M cpu bool := gets in_external_intr.
Definition intr_get_level : M cpu intr_level := gets (fun s => if IF s then INTR_ON else INTR_OFF).
Definition intr_enable : M cpu intr_level :=
  let! old_level := intr_get_level in
  let! c := intr_context in
  do! assert (negb c);
  do! modify (with_IF true);
  ret old_level.
Definition intr_disable : M cpu intr_level :=
  let! old_level := intr_get_level in
  do! modify (with_IF false);
  ret old_level.
Definition intr_set_level (level : intr_level) : M cpu intr_level :=
  match level with INTR_ON => intr_enable | INTR_OFF => intr_disable end.
Definition intr_yield_on_return : M cpu unit :=
  let! c := intr_context in
  do! assert c;
  modify (fun s => with_external (in_external_intr s) true s).

(** ** The interrupt controllers *)

Definition pic_init : M cpu unit :=
  do! outb 33 255; do! outb 161 255;
  do! outb 32 17; do! outb 33 32; do! outb 33 4; do! outb 33 1;
  do! outb 160 17; do! outb 161 40; do! outb 161 2; do! outb 161 1;
  do! outb 33 0; outb 161 0.
Definition pic_end_of_interrupt (irq : Z) : M cpu unit :=
  do! assert ((32 <=? irq) && (irq <? 48));
  do! outb 32 32;
  if 40 <=? irq then outb 160 32 else ret tt.

(** ** Registration *)

Context (intr_stubs : Z -> Z).

(** The gates of [n] vectors, from [i] on. *)
Fixpoint idt_loop (n : nat) (i : Z) : M cpu unit :=
  match n with
  | O => ret tt
  | S n => let! g := lift (make_intr_gate (intr_stubs i) 0) in do! modify (with_gate i g); idt_loop n (i + 1)
  end.
(** The operand of [lidt] is returned; the names of the vectors are not kept. *)
Definition intr_init (addr : Z) : M cpu Z :=
  do! pic_init;
  do! idt_loop (Z.to_nat INTR_CNT) 0;
  ret (make_idtr_operand (8 * INTR_CNT - 1) addr).

Definition register_handler (vec_no dpl : Z) (level : intr_level) (handler : intr_handler_func) : M cpu unit :=
  let! hs := gets intr_handlers in
  do! assert (bool_decide (hs !! vec_no = None));
  let! g := lift (match level with INTR_ON => make_trap_gate (intr_stubs vec_no) dpl | INTR_OFF => make_intr_gate (intr_stubs vec_no) dpl end) in
  do! modify (with_gate vec_no g);
  modify (with_handler vec_no handler).
Definition intr_register_ext (vec_no : Z) (handler : intr_handler_func) : M cpu unit :=
  do! assert ((32 <=? vec_no) && (vec_no <=? 47));
  register_handler vec_no 0 INTR_OFF handler.
Definition intr_register_int (vec_no dpl : Z) (level : intr_level) (handler : intr_handler_func) : M cpu unit :=
  do! assert ((vec_no <? 32) || (vec_no >? 47));
  register_handler vec_no dpl level handler.

Definition exception_init : M cpu unit :=
  do! intr_register_int 3 3 INTR_ON kill; do! intr_register_int 4 3 INTR_ON kill; do! intr_register_int 5 3 INTR_ON kill;
  do! intr_register_int 0 0 INTR_ON kill; do! intr_register_int 1 0 INTR_ON kill; do! intr_register_int 6 0 INTR_ON kill;
  do! intr_register_int 7 0 INTR_ON kill; do! intr_register_int 11 0 INTR_ON kill; do! intr_register_int 12 0 INTR_ON kill;
  do! intr_register_int 13 0 INTR_ON kill; do! intr_register_int 16 0 INTR_ON kill; do! intr_register_int 19 0 INTR_ON kill;
  intr_register_int 14 0 INTR_OFF page_fault.
Definition syscall_init : M cpu unit := intr_register_int 48 3 INTR_ON syscall_handler.
(** The registrations in the order of [main]: timer, keyboard, exceptions, system calls, serial
    port and the two disk channels. *)
Definition interrupts_init (addr : Z) : M cpu Z :=
  let! operand := intr_init addr in
  do! intr_register_ext 32 timer_interrupt;
  do! intr_register_ext 33 keyboard_interrupt;
  do! exception_init;
  do! syscall_init;
  do! intr_register_ext 36 serial_interrupt;
  do! intr_register_ext 46 interrupt_handler;
  do! intr_register_ext 47 interrupt_handler;
  ret operand.

(** ** Dispatch *)

Context (call : intr_handler_func -> Z -> M cpu unit) (thread_yield : M cpu unit).

Definition unexpected_interrupt (vec_no : Z) : M cpu unit :=
  let! cnt := gets unexpected_cnt in
  let n := u32 (default 0 (cnt !! vec_no) + 1) in
  modify (with_count vec_no n (Z.land n (u32 (n - 1)) =? 0)).
Definition invoke (vec_no : Z) : M cpu unit :=
  let! hs := gets intr_handlers in
  match hs !! vec_no with
  | Some h => call h vec_no
  | None => if (vec_no =? 39) || (vec_no =? 47) then ret tt else unexpected_interrupt vec_no
  end.
Definition assert_external (e : bool) : M cpu unit :=
  let! level := intr_get_level in
  do! assert (bool_decide (level = INTR_OFF));
  let! c := intr_context in
  assert (Bool.eqb c e).
Definition intr_handler (vec_no : Z) : M cpu unit :=
  let external := (32 <=? vec_no) && (vec_no <? 48) in
  do! (if external then do! assert_external false; modify (with_external true false) else ret tt);
  do! invoke vec_no;
  if external then
    do! assert_external true;
    do! modify (fun s => with_external false (yield_on_return s) s);
    do! pic_end_of_interrupt vec_no;
    let! y := gets yield_on_return in
    if y then thread_yield else ret tt
  else ret tt.

End interrupts.
Arguments cpu : clear implicits.

End Interrupt.

(** * Interrupts: the table after the start, and external interrupts *)

Module InterruptProps.
Import Descriptor Interrupt.

Section interrupts.
Context {K : Type} (intr_stubs : Z -> Z).
Abbreviation cpu := (cpu K).

(** ** The table *)

(** What is registered: privilege level, interrupt level and handler of a vector. *)
Abbreviation registered := (gmap Z (Z * intr_level * intr_handler_func)).
Definition reg_dpl (R : registered) (vec : Z) : Z := match R !! vec with Some (dpl, _, _) => dpl | None => 0 end.
Definition reg_type (R : registered) (vec : Z) : Z := match R !! vec with Some (_, INTR_ON, _) => 15 | _ => 14 end.
Definition stub_gate (vec type dpl : Z) : gate :=
  {| gate_offset := intr_stubs vec; gate_selector := SEL_KCSEG; gate_type := type; gate_system := 0; gate_dpl := dpl; gate_present := 1 |}.
Record table (R : registered) (s : cpu) : Prop := {
  table_gate : forall vec, 0 <= vec < 256 -> exists g, idt s !! Z.to_nat vec = Some g /\ gate_of g = stub_gate vec (reg_type R vec) (reg_dpl R vec);
  table_handlers : intr_handlers s = snd <$> R }.

Hypothesis stubs_ok : forall vec, 0 <= vec < 256 -> 0 < intr_stubs vec < 2 ^ 32.

Lemma register_run R s vec dpl level h : table R s -> R !! vec = None -> 0 <= vec < 256 -> 0 <= dpl < 4 ->
  exists s', register_handler intr_stubs vec dpl level h s = Ok (tt, s') /\ table (<[vec := (dpl, level, h)]> R) s'.
Proof.
  intros [Hg Hh] HR Hv Hd. unfold register_handler, gets. erewrite bind_eq; [|reflexivity]. rewrite Hh, lookup_fmap, HR. erewrite bind_eq; [|reflexivity].
  destruct (gate_desc_fields (intr_stubs vec) dpl (match level with INTR_ON => 15 | INTR_OFF => 14 end) (stubs_ok vec Hv) Hd) as (g & Eg & _ & Fg); [by destruct level|].
  assert (lift (match level with INTR_ON => make_trap_gate (intr_stubs vec) dpl | INTR_OFF => make_intr_gate (intr_stubs vec) dpl end) s = Ok (g, s)) as ->%(bind_eq (S := cpu) _ _).
  { unfold lift, make_trap_gate, make_intr_gate. destruct level; by rewrite Eg. }
  eexists. split; [reflexivity|]. split; [|cbn; by rewrite fmap_insert, Hh].
  intros v Hv'. cbn [idt with_handler with_gate]. destruct (decide (v = vec)) as [->|Hne].
  - exists g. destruct (Hg vec Hv) as (g0 & E0 & _). rewrite list_lookup_insert_eq by (by eapply lookup_lt_Some). split; [done|].
    rewrite Fg. unfold stub_gate, reg_type, reg_dpl. rewrite lookup_insert_eq. by destruct level.
  - rewrite list_lookup_insert_ne by lia. unfold reg_type, reg_dpl. rewrite lookup_insert_ne by done. by apply Hg.
Qed.
Lemma register_ext_run R s vec h : table R s -> R !! vec = None -> 32 <= vec <= 47 ->
  exists s', intr_register_ext intr_stubs vec h s = Ok (tt, s') /\ table (<[vec := (0, INTR_OFF, h)]> R) s'.
Proof.
  intros Ht HR Hv. unfold intr_register_ext. rewrite (proj2 (Z.leb_le 32 vec)), (proj2 (Z.leb_le vec 47)) by lia. erewrite bind_eq; [|reflexivity].
  apply register_run; [done|done|lia|lia].
Qed.
Lemma register_int_run R s vec dpl level h : table R s -> R !! vec = None -> 0 <= vec < 32 \/ 47 < vec < 256 -> 0 <= dpl < 4 ->
  exists s', intr_register_int intr_stubs vec dpl level h s = Ok (tt, s') /\ table (<[vec := (dpl, level, h)]> R) s'.
Proof.
  intros Ht HR Hv Hd. unfold intr_register_int. assert ((vec <? 32) || (vec >? 47) = true) as -> by (destruct (Z.ltb_spec vec 32), (Z.gtb_spec vec 47); done || lia).
  erewrite bind_eq; [|reflexivity]. apply register_run; [done|done|lia|done].
Qed.

Lemma idt_loop_run n : forall i (s : cpu), 0 <= i -> i + Z.of_nat n <= 256 -> length (idt s) = 256%nat -> exists s',
  idt_loop intr_stubs n i s = Ok (tt, s') /\ length (idt s') = 256%nat /\ intr_handlers s' = intr_handlers s /\
  (forall j, 0 <= j < i -> idt s' !! Z.to_nat j = idt s !! Z.to_nat j) /\
  (forall j, i <= j < i + Z.of_nat n -> exists g, idt s' !! Z.to_nat j = Some g /\ gate_of g = stub_gate j 14 0).
Proof.
  induction n as [|n IH]; intros i s Hi Hn Hl; cbn [idt_loop]; [exists s; split_and!; done || (intros; lia)|].
  destruct (gate_desc_fields (intr_stubs i) 0 14 (stubs_ok i ltac:(lia))) as (g & Eg & _ & Fg); [done|done|]. unfold make_intr_gate. rewrite Eg. unfold lift. erewrite bind_eq; [|reflexivity].
  unfold modify. erewrite bind_eq; [|reflexivity]. destruct (IH (i + 1) (with_gate i g s)) as (s' & E & L & Hh & Hlow & Hg); [lia|lia|by cbn; rewrite length_insert|].
  exists s'. split; [exact E|]. split; [done|]. split; [done|]. split.
  - intros j Hj. rewrite Hlow by lia. apply list_lookup_insert_ne. lia.
  - intros j Hj. destruct (decide (j = i)) as [->|Hne]; [|apply Hg; lia]. exists g. rewrite Hlow by lia. split; [|exact Fg]. apply list_lookup_insert_eq. lia.
Qed.
Lemma intr_init_run addr (s : cpu) : length (idt s) = 256%nat -> intr_handlers s = ∅ -> exists s',
  intr_init intr_stubs addr s = Ok (make_idtr_operand 2047 addr, s') /\ table ∅ s'.
Proof.
  intros Hl Hh. unfold intr_init. erewrite bind_eq; [|reflexivity].
  match goal with |- exists _, bind _ _ ?s1 = _ /\ _ => destruct (idt_loop_run (Z.to_nat INTR_CNT) 0 s1) as (s' & E & _ & Hh' & _ & Hg); [done|done|exact Hl|] end.
  exists s'. erewrite bind_eq; [|exact E]. split; [done|]. split; [|rewrite Hh', fmap_empty; exact Hh]. intros vec Hv. apply Hg. exact Hv.
Qed.

(** A sequence of registrations of [kill]. *)
Lemma kills_run (l : list (Z * Z)) : forall R s (k : M cpu unit), table R s -> NoDup (map fst l) ->
  (forall v d, (v, d) ∈ l -> R !! v = None /\ 0 <= v < 32 /\ 0 <= d < 4) -> exists s',
  foldr (fun '(v, d) k => do! intr_register_int intr_stubs v d INTR_ON kill; k) k l s = k s' /\
  table (foldl (fun R '(v, d) => <[v := (d, INTR_ON, kill)]> R) R l) s'.
Proof.
  induction l as [|[v d] l IH]; intros R s k Ht Hnd Hl; cbn [foldr foldl map fst] in *; [by exists s|]. apply NoDup_cons in Hnd as [Hni Hnd].
  destruct (Hl v d ltac:(left)) as (HR & Hv & Hd). destruct (register_int_run R s v d INTR_ON kill Ht HR) as (s1 & E1 & H1); [lia|done|].
  erewrite bind_eq; [|exact E1]. apply IH; [done|done|]. intros v' d' Hin. destruct (Hl v' d' ltac:(by right)) as (HR' & Hv' & Hd'). split; [|done].
  rewrite lookup_insert_ne; [done|]. intros ->. apply Hni. by apply (list_elem_of_fmap_2 fst) in Hin.
Qed.
Lemma exception_init_run R s : table R s -> (forall v, v ∈ [0; 1; 3; 4; 5; 6; 7; 11; 12; 13; 14; 16; 19] -> R !! v = None) -> exists s',
  exception_init intr_stubs s = Ok (tt, s') /\
  table (<[14 := (0, INTR_OFF, page_fault)]> (foldl (fun R '(v, d) => <[v := (d, INTR_ON, kill)]> R) R
    [(3, 3); (4, 3); (5, 3); (0, 0); (1, 0); (6, 0); (7, 0); (11, 0); (12, 0); (13, 0); (16, 0); (19, 0)])) s'.
Proof.
  intros Ht HR. unfold exception_init.
  destruct (kills_run [(3, 3); (4, 3); (5, 3); (0, 0); (1, 0); (6, 0); (7, 0); (11, 0); (12, 0); (13, 0); (16, 0); (19, 0)] R s (intr_register_int intr_stubs 14 0 INTR_OFF page_fault) Ht)
    as (s1 & E1 & H1).
  - apply (bool_decide_unpack _). by vm_compute.
  - intros v d Hin. apply (Forall_forall (fun '(v, d) => R !! v = None /\ 0 <= v < 32 /\ 0 <= d < 4)) with (x := (v, d)) in Hin; [done|].
    repeat (apply Forall_cons; split; [split; [apply HR, (bool_decide_unpack _); by vm_compute|lia]|]). constructor.
  - destruct (register_int_run _ s1 14 0 INTR_OFF page_fault H1) as (s2 & E2 & H2); [|lia|lia|].
    + cbn [foldl]. rewrite !lookup_insert_ne by done. apply HR. apply (bool_decide_unpack _). by vm_compute.
    + exists s2. split; [|exact H2]. cbn [foldr] in E1. rewrite E1. exact E2.
Qed.

(** C30: After the start the table of interrupts has a present gate for every vector, leading
    to the stub of the vector in the code segment of the kernel.  A process can invoke only
    the vectors 3, 4, 5 and 48 itself.  The vectors of devices (32 to 47) and every vector
    that has no handler, and the page fault, have gates that turn interrupts off; the other
    registered vectors have gates that leave them on.  Each vector has the handler that was
    registered for it, and the operand of [lidt] gives the size and the address of the table. *)
Theorem interrupts_init_correct addr (s : cpu) : 0 <= addr < 2 ^ 32 -> length (idt s) = 256%nat -> intr_handlers s = ∅ ->
  exists op s', interrupts_init intr_stubs addr s = Ok (op, s') /\ bits 0 16 op = 8 * 256 - 1 /\ bits 16 32 op = addr /\
    (forall vec, 0 <= vec < 256 -> exists g, idt s' !! Z.to_nat vec = Some g /\
       gate_of g = stub_gate vec (if bool_decide (vec ∈ [0; 1; 3; 4; 5; 6; 7; 11; 12; 13; 16; 19; 48]) then 15 else 14) (if bool_decide (vec ∈ [3; 4; 5; 48]) then 3 else 0)) /\
    intr_handlers s' = list_to_map (map (fun v => (v, kill)) [0; 1; 3; 4; 5; 6; 7; 11; 12; 13; 16; 19] ++
      [(14, page_fault); (48, syscall_handler); (32, timer_interrupt); (33, keyboard_interrupt); (36, serial_interrupt); (46, interrupt_handler); (47, interrupt_handler)]).
Proof.
  intros Ha Hl Hh. destruct (intr_init_run addr s Hl Hh) as (s1 & E1 & H1). unfold interrupts_init.
  destruct (register_ext_run _ s1 32 timer_interrupt H1) as (s2 & E2 & H2); [done|lia|].
  destruct (register_ext_run _ s2 33 keyboard_interrupt H2) as (s3 & E3 & H3); [by vm_compute|lia|].
  destruct (exception_init_run _ s3 H3) as (s4 & E4 & H4).
  { apply Forall_forall. repeat (apply Forall_cons; split; [by vm_compute|]). constructor. }
  destruct (register_int_run _ s4 48 3 INTR_ON syscall_handler H4) as (s5 & E5 & H5); [by vm_compute|lia|lia|].
  destruct (register_ext_run _ s5 36 serial_interrupt H5) as (s6 & E6 & H6); [by vm_compute|lia|].
  destruct (register_ext_run _ s6 46 interrupt_handler H6) as (s7 & E7 & H7); [by vm_compute|lia|].
  destruct (register_ext_run _ s7 47 interrupt_handler H7) as (s8 & E8 & [Hg Hhs]); [by vm_compute|lia|].
  exists (make_idtr_operand 2047 addr), s8. split; [|split; [|split; [|split]]].
  - erewrite bind_eq; [|exact E1]. erewrite bind_eq; [|exact E2]. erewrite bind_eq; [|exact E3]. erewrite bind_eq; [|exact E4]. unfold syscall_init.
    erewrite bind_eq; [|exact E5]. erewrite bind_eq; [|exact E6]. erewrite bind_eq; [|exact E7]. by erewrite bind_eq; [|exact E8].
  - unfold make_idtr_operand. rewrite lor_high by lia. change (8 * 256 - 1) with 2047. field 0 addr.
  - unfold make_idtr_operand. rewrite lor_high by lia. field 2047 0.
  - intros vec Hv. destruct (Hg vec Hv) as (g & Eg & Fg). exists g. split; [done|]. rewrite Fg. clear -Hv. set (R := <[47 := _]> _).
    assert (Forall (fun v => reg_type R v = (if bool_decide (v ∈ [0; 1; 3; 4; 5; 6; 7; 11; 12; 13; 16; 19; 48]) then 15 else 14) /\ reg_dpl R v = (if bool_decide (v ∈ [3; 4; 5; 48]) then 3 else 0)) (seqZ 0 256)) as HF.
    { apply (bool_decide_unpack _). by vm_compute. }
    rewrite Forall_forall in HF. destruct (HF vec) as [-> ->]; [by apply elem_of_seqZ|done].
  - rewrite Hhs. vm_compute. reflexivity.
Qed.
End interrupts.

(** ** External interrupts *)

Section dispatch.
Context {K : Type}.
Abbreviation cpu := (cpu K).

(** Code that uses interrupts only through the interface of the file, and does with the rest
    of the kernel what it wants. *)
Inductive driver : forall A, M cpu A -> Prop :=
| driver_ret A (a : A) : driver A (ret a)
| driver_bind A B (c : M cpu A) (k : A -> M cpu B) : driver A c -> (forall a, driver B (k a)) -> driver B (bind c k)
| driver_fail A f : driver A (fail f)
| driver_level : driver intr_level intr_get_level
| driver_context : driver bool intr_context
| driver_enable : driver intr_level intr_enable
| driver_disable : driver intr_level intr_disable
| driver_set level : driver intr_level (intr_set_level level)
| driver_yield : driver unit intr_yield_on_return
| driver_outb port data : driver unit (outb port data)
| driver_rest A (c : M K A) : driver A (on_rest c).

(** In an external interrupt it cannot turn interrupts on. *)
Lemma driver_external A c : driver A c -> forall s a s', IF s = false -> in_external_intr s = true -> c s = Ok (a, s') ->
  IF s' = false /\ in_external_intr s' = true /\ intr_handlers s' = intr_handlers s /\ idt s' = idt s.
Proof.
  assert (forall s a s', IF s = false -> in_external_intr s = true -> @intr_enable K s = Ok (a, s') -> False) as Hen.
  { intros s a s' _ He E. unfold intr_enable, intr_get_level, intr_context, gets, bind in E. cbn in E. rewrite He in E. discriminate. }
  induction 1 as [A a|A B c k Hc IHc Hk IHk|A f| | | | |level| |port data|A c]; intros s b s' Hi He E.
  - injection E as _ <-. done.
  - apply bind_Ok in E as (x & s1 & E1 & E2). destruct (IHc s x s1 Hi He E1) as (H1 & H2 & H3 & H4). destruct (IHk x s1 b s' H1 H2 E2) as (G1 & G2 & G3 & G4). by rewrite G3, G4.
  - discriminate.
  - injection E as _ <-. done.
  - injection E as _ <-. done.
  - by apply Hen in E.
  - injection E as _ <-. done.
  - destruct level; [injection E as _ <-; done|by apply Hen in E].
  - unfold intr_yield_on_return, intr_context, gets, bind in E. cbn in E. rewrite He in E. injection E as <- <-. done.
  - injection E as _ <-. done.
  - unfold on_rest in E. destruct (c (rest s)) as [[x k]|f]; [|done]. injection E as _ <-. done.
Qed.

Lemma assert_external_run (s : cpu) e : IF s = false -> in_external_intr s = e -> assert_external e s = Ok (tt, s).
Proof. intros Hi <-. unfold assert_external, intr_get_level, intr_context, gets, bind. cbn. rewrite Hi, bool_decide_true by done. cbn. by destruct (in_external_intr s). Qed.

(** Acknowledged at the controllers that are involved. *)
Definition acknowledged (vec : Z) (s : cpu) : cpu :=
  with_ports (ports s ++ (32, 32) :: (if 40 <=? vec then [(160, 32)] else [])) (with_external false (yield_on_return s) s).

(** C31: An external interrupt whose handler uses interrupts only through the interface runs to
    its end with interrupts off and is not interrupted by another one: the assertions of
    [intr_handler] hold, and unless the handler itself stops the kernel, the interrupt is then
    acknowledged once at the master controller, and at the slave exactly for the vectors from
    40 on, before a thread switch that takes place exactly when the handler has asked for it. *)
Theorem external_interrupt_correct call (thread_yield : M cpu unit) vec h s :
  32 <= vec < 48 -> IF s = false -> in_external_intr s = false -> intr_handlers s !! vec = Some h -> driver unit (call h vec) ->
  match call h vec (with_external true false s) with
  | Err f => intr_handler call thread_yield vec s = Err f
  | Ok (_, s1) => IF s1 = false /\ in_external_intr (acknowledged vec s1) = false /\
      intr_handler call thread_yield vec s = (if yield_on_return s1 then thread_yield else ret tt) (acknowledged vec s1)
  end.
Proof.
  intros Hv Hi He Hh Hd. unfold intr_handler. rewrite (proj2 (Z.leb_le 32 vec)), (proj2 (Z.ltb_lt vec 48)) by lia. cbn [andb].
  pose proof (assert_external_run s false Hi He) as Ha.
  assert (invoke call vec (with_external true false s) = call h vec (with_external true false s)) as Hinv by (unfold invoke, gets, bind; cbn; by rewrite Hh).
  destruct (call h vec (with_external true false s)) as [[[] s1]|f] eqn:Ec.
  - destruct (driver_external _ _ Hd (with_external true false s) _ _ Hi eq_refl Ec) as (H1 & H2 & _). split; [done|]. split; [done|].
    erewrite bind_eq; [|erewrite bind_eq; [|exact Ha]; reflexivity]. erewrite bind_eq; [|exact Hinv].
    erewrite bind_eq; [|exact (assert_external_run s1 true H1 H2)].
    erewrite bind_eq; [|reflexivity]. unfold acknowledged, pic_end_of_interrupt. rewrite (proj2 (Z.leb_le 32 vec)), (proj2 (Z.ltb_lt vec 48)) by lia. cbn [andb].
    destruct (40 <=? vec).
    + erewrite bind_eq; [|reflexivity]. unfold gets. erewrite bind_eq; [|reflexivity]. cbn. rewrite <- app_assoc. by destruct (yield_on_return s1).
    + erewrite bind_eq; [|reflexivity]. unfold gets. erewrite bind_eq; [|reflexivity]. cbn. by destruct (yield_on_return s1).
  - erewrite bind_eq; [|erewrite bind_eq; [|exact Ha]; reflexivity]. by apply bind_err.
Qed.
End dispatch.

(** A timer interrupt that counts and asks for a switch. *)
Definition sample_call (h : intr_handler_func) (vec : Z) : M (cpu Z) unit :=
  do! on_rest (modify (Z.add 1)); intr_yield_on_return.
Definition sample_cpu : cpu Z :=
  {| IF := false; idt := []; intr_handlers := {[32 := timer_interrupt]}; unexpected_cnt := ∅; reported := []; in_external_intr := false; yield_on_return := false; ports := []; rest := 0 |}.
Lemma external_interrupt_correct_witness : exists s', intr_handler sample_call (on_rest (modify (Z.mul 100))) 32 sample_cpu = Ok (tt, s') /\ rest s' = 100 /\ ports s' = [(32, 32)].
Proof.
  pose proof (external_interrupt_correct sample_call (on_rest (modify (Z.mul 100))) 32 timer_interrupt sample_cpu) as T.
  destruct T as (_ & _ & E); [lia|reflexivity|reflexivity|reflexivity|apply driver_bind; [apply driver_rest|intros; apply driver_yield]|].
  eexists. split; [rewrite E; reflexivity|]. split; reflexivity.
Defined.

Lemma interrupts_init_correct_witness : exists op s', interrupts_init (fun vec => 3221356544 + 16 * vec) 3221400000
    {| IF := false; idt := replicate 256 0; intr_handlers := ∅; unexpected_cnt := ∅; reported := []; in_external_intr := false; yield_on_return := false; ports := []; rest := tt |} = Ok (op, s') /\
  bits 16 32 op = 3221400000.
Proof.
  match goal with |- exists _ _, interrupts_init ?st ?a ?s0 = _ /\ _ => destruct (interrupts_init_correct st ltac:(lia) a s0) as (op & s' & E & _ & B & _) end.
  - split; [discriminate|reflexivity].
  - reflexivity.
  - reflexivity.
  - exists op, s'. split; [exact E|exact B].
Defined.

End InterruptProps.
