(* ===== verification/Intq.v ===== *)
(** * devices/intq.c: queues between threads and interrupt handlers

    Every function runs with interrupts off, so a step of the machine is what a thread does up
    to the point where it blocks, or one call from an interrupt handler.  A thread that waits
    for the lock of the queue, or for a byte or for room, is in [blocked] with the operation
    that it is in the middle of.  The bytes that went into the queue and came out of it are
    kept. *)

From S2P Require Import Prelude.

Module Intq.

Definition INTQ_BUFSIZE : Z := 64.

(** [lock] is the holder of the lock. *)
Record intq := { lock : option Z; not_full : option Z; not_empty : option Z; buf : list Z; head : Z; tail : Z }.
Inductive task := Getc | Putc (byte : Z).
Inductive point := Locking | Waiting | Woken.
Record machine := { queue : intq; blocked : gmap Z (task * point); came_in : list Z; came_out : list Z }.

Definition intq_init (q : intq) : intq :=
  {| lock := None; not_full := None; not_empty := None; buf := buf q; head := 0; tail := 0 |}.
Definition next (pos : Z) : Z := Z.rem (pos + 1) INTQ_BUFSIZE.
Definition intq_empty (q : intq) : bool := head q =? tail q.
Definition intq_full (q : intq) : bool := next (head q) =? tail q.

Definition set_queue (q : intq) : M machine unit :=
  modify (fun s => {| queue := q; blocked := blocked s; came_in := came_in s; came_out := came_out s |}).
Definition set_blocked (t : Z) (k : task) (p : point) : M machine unit :=
  modify (fun s => {| queue := queue s; blocked := <[t := (k, p)]> (blocked s); came_in := came_in s; came_out := came_out s |}).
Definition set_running (t : Z) : M machine unit :=
  modify (fun s => {| queue := queue s; blocked := delete t (blocked s); came_in := came_in s; came_out := came_out s |}).
Definition with_lock (h : option Z) (q : intq) : intq :=
  {| lock := h; not_full := not_full q; not_empty := not_empty q; buf := buf q; head := head q; tail := tail q |}.
(** The member of the queue where a thread waits in an operation. *)
Definition waiter (k : task) (q : intq) : option Z := match k with Getc => not_empty q | Putc _ => not_full q end.
Definition with_waiter (k : task) (t : option Z) (q : intq) : intq :=
  match k with
  | Getc => {| lock := lock q; not_full := not_full q; not_empty := t; buf := buf q; head := head q; tail := tail q |}
  | Putc _ => {| lock := lock q; not_full := t; not_empty := not_empty q; buf := buf q; head := head q; tail := tail q |}
  end.
(** What an operation has to wait for. *)
Definition must_wait (k : task) (q : intq) : bool := match k with Getc => intq_empty q | Putc _ => intq_full q end.

Definition wait (t : Z) (k : task) : M machine unit :=
  let! q := gets queue in
  do! assert (must_wait k q);
  do! set_queue (with_waiter k (Some t) q);
  set_blocked t k Waiting.
(** [thread_unblock] requires a blocked thread. *)
Definition signal (k : task) : M machine unit :=
  let! q := gets queue in
  do! assert (negb (must_wait k q));
  match waiter k q with
  | Some t =>
      let! b := gets blocked in
      match b !! t with
      | Some (k', Waiting) => do! set_blocked t k' Woken; set_queue (with_waiter k None q)
      | _ => fail AssertFail
      end
  | None => ret tt
  end.

(** The operations after their loops. *)
Definition take : M machine unit :=
  let! q := gets queue in
  match buf q !! Z.to_nat (tail q) with
  | Some byte =>
      do! modify (fun s =>
        {| queue := {| lock := lock q; not_full := not_full q; not_empty := not_empty q; buf := buf q; head := head q; tail := next (tail q) |};
           blocked := blocked s; came_in := came_in s; came_out := came_out s ++ [byte] |});
      signal (Putc 0)
  | None => fail WildAccess
  end.
Definition store (byte : Z) : M machine unit :=
  let! q := gets queue in
  do! assert (bool_decide (Z.to_nat (head q) < length (buf q))%nat);
  do! modify (fun s =>
    {| queue := {| lock := lock q; not_full := not_full q; not_empty := not_empty q; buf := <[Z.to_nat (head q) := byte]> (buf q); head := next (head q); tail := tail q |};
       blocked := blocked s; came_in := came_in s ++ [byte]; came_out := came_out s |});
  signal Getc.
Definition finish (k : task) : M machine unit := match k with Getc => take | Putc byte => store byte end.

(** From the head of the loop on, in a thread. *)
Definition loop (t : Z) (k : task) : M machine unit :=
  let! q := gets queue in
  if must_wait k q then
    match lock q with
    | None => do! set_queue (with_lock (Some t) q); wait t k
    | Some h => do! assert (negb (h =? t)); set_blocked t k Locking
    end
  else do! finish k; set_running t.
(** The thread [t] gets the processor back. *)
Definition resume (t : Z) : M machine unit :=
  let! b := gets blocked in
  match b !! t with
  | Some (k, Locking) =>
      let! q := gets queue in
      match lock q with None => do! set_queue (with_lock (Some t) q); wait t k | Some _ => ret tt end
  | Some (k, Woken) =>
      let! q := gets queue in
      do! set_queue (with_lock None q);
      do! set_running t;
      loop t k
  | _ => ret tt
  end.
(** In an interrupt handler, which must not wait. *)
Definition in_handler (k : task) : M machine unit :=
  let! q := gets queue in
  do! assert (negb (must_wait k q));
  finish k.

(** What can happen: a thread that is not waiting starts an operation, a thread that is goes on,
    or an interrupt handler puts a byte where there is room, or takes one if there is one. *)
Inductive event := Start (t : Z) (k : task) | Resume (t : Z) | Handler (k : task).
Definition step (e : event) : M machine unit :=
  match e with
  | Start t k => let! b := gets blocked in match b !! t with None => loop t k | Some _ => ret tt end
  | Resume t => resume t
  | Handler k => let! q := gets queue in if must_wait k q then ret tt else in_handler k
  end.
Fixpoint run (l : list event) : M machine unit :=
  match l with [] => ret tt | e :: l => do! step e; run l end.

Definition start : machine :=
  {| queue := intq_init {| lock := None; not_full := None; not_empty := None; buf := replicate (Z.to_nat INTQ_BUFSIZE) 0; head := 0; tail := 0 |};
     blocked := ∅; came_in := []; came_out := [] |}.

(** ** The bytes in the queue *)

Definition cnt (q : intq) : Z := (head q - tail q) mod 64.
Definition contents (q : intq) : list Z := (fun i => nth (Z.to_nat ((tail q + i) mod 64)) (buf q) 0) <$> seqZ 0 (cnt q).
Record wf (q : intq) : Prop := { wf_buf : length (buf q) = 64%nat; wf_head : 0 <= head q < 64; wf_tail : 0 <= tail q < 64 }.

Lemma next_mod p : 0 <= p -> next p = (p + 1) mod 64.
Proof. intros H. apply Z.rem_mod_nonneg; lia. Qed.
Lemma empty_cnt q : wf q -> intq_empty q = (cnt q =? 0).
Proof.
  intros [_ Hh Ht]. unfold intq_empty, cnt. destruct (Z.eqb_spec (head q) (tail q)) as [->|Hne]; [by rewrite Z.sub_diag|].
  symmetry. apply Z.eqb_neq. intros E. apply Z.mod_divide in E as [z Ez]; lia.
Qed.
Lemma full_cnt q : wf q -> intq_full q = (cnt q =? 63).
Proof.
  intros [_ Hh Ht]. unfold intq_full, cnt. rewrite next_mod by lia. pose proof (Z.div_mod (head q - tail q) 64). pose proof (Z.mod_pos_bound (head q - tail q) 64).
  pose proof (Z.div_mod (head q + 1) 64). pose proof (Z.mod_pos_bound (head q + 1) 64).
  destruct (Z.eqb_spec ((head q + 1) mod 64) (tail q)), (Z.eqb_spec ((head q - tail q) mod 64) 63); lia || done.
Qed.

End Intq.

(** * Queues: first in, first out for a single thread, and what two threads do to each other *)

Module IntqProps.
Import Intq.

(** ** The bytes in the queue *)

Definition stored (byte : Z) (q : intq) : intq :=
  {| lock := lock q; not_full := not_full q; not_empty := not_empty q; buf := <[Z.to_nat (head q) := byte]> (buf q); head := next (head q); tail := tail q |}.
Definition taken (q : intq) : intq :=
  {| lock := lock q; not_full := not_full q; not_empty := not_empty q; buf := buf q; head := head q; tail := next (tail q) |}.

Lemma next_range p : 0 <= p -> 0 <= next p < 64.
Proof. intros H. rewrite next_mod by done. by apply Z.mod_pos_bound. Qed.
Lemma stored_wf byte q : wf q -> wf (stored byte q).
Proof. intros [Hb Hh Ht]. split; cbn; [by rewrite length_insert|apply next_range; lia|done]. Qed.
Lemma taken_wf q : wf q -> wf (taken q).
Proof. intros [Hb Hh Ht]. split; cbn; [done|done|apply next_range; lia]. Qed.
Lemma stored_cnt byte q : wf q -> cnt q <> 63 -> cnt (stored byte q) = cnt q + 1.
Proof.
  intros [_ Hh Ht] Hf. unfold cnt in *. cbn [head tail stored]. rewrite next_mod by lia.
  rewrite Zminus_mod_idemp_l. pose proof (Z.mod_pos_bound (head q - tail q) 64 ltac:(lia)).
  replace (head q + 1 - tail q) with (head q - tail q + 1) by lia. rewrite <- Zplus_mod_idemp_l. apply Z.mod_small. lia.
Qed.
Lemma taken_cnt q : wf q -> cnt q <> 0 -> cnt (taken q) = cnt q - 1.
Proof.
  intros [_ Hh Ht] Hf. unfold cnt in *. cbn [head tail taken]. rewrite next_mod by lia.
  rewrite Zminus_mod_idemp_r. pose proof (Z.mod_pos_bound (head q - tail q) 64 ltac:(lia)).
  replace (head q - (tail q + 1)) with (head q - tail q - 1) by lia. rewrite <- Zminus_mod_idemp_l. apply Z.mod_small. lia.
Qed.

Lemma contents_stored byte q : wf q -> cnt q <> 63 -> contents (stored byte q) = contents q ++ [byte].
Proof.
  intros Hw Hf. pose proof Hw as [Hb Hh Ht]. unfold contents. rewrite stored_cnt by done. pose proof (Z.mod_pos_bound (head q - tail q) 64 ltac:(lia)) as Hc. fold (cnt q) in Hc.
  rewrite seqZ_app by lia. rewrite fmap_app. cbn [tail buf stored]. change (seqZ (0 + cnt q) 1) with [0 + cnt q]. rewrite list_fmap_singleton, Z.add_0_l.
  assert ((tail q + cnt q) mod 64 = head q) as Eh. { unfold cnt. rewrite Zplus_mod_idemp_r. replace (tail q + (head q - tail q)) with (head q) by lia. by apply Z.mod_small. }
  f_equal.
  - apply list_fmap_ext. intros k i [-> Hk]%lookup_seqZ. set (i := 0 + Z.of_nat k) in *. rewrite !nth_lookup, list_lookup_insert_ne; [done|]. intros E. apply Z2Nat.inj in E; [|lia|by apply Z.mod_pos_bound].
    rewrite <- Eh in E. assert ((tail q + cnt q - (tail q + i)) mod 64 = 0) as E0 by (rewrite Zminus_mod, E, Z.sub_diag; done).
    replace (tail q + cnt q - (tail q + i)) with (cnt q - i) in E0 by lia. rewrite Z.mod_small in E0 by lia. lia.
  - rewrite Eh, nth_lookup, list_lookup_insert_eq by lia. done.
Qed.
Lemma contents_taken q : wf q -> cnt q <> 0 -> exists byte, buf q !! Z.to_nat (tail q) = Some byte /\ contents q = byte :: contents (taken q).
Proof.
  intros Hw Hf. pose proof Hw as [Hb Hh Ht]. pose proof (Z.mod_pos_bound (head q - tail q) 64 ltac:(lia)) as Hc. fold (cnt q) in Hc.
  destruct (lookup_lt_is_Some_2 (buf q) (Z.to_nat (tail q))) as [byte E]; [lia|]. exists byte. split; [done|]. unfold contents. rewrite taken_cnt by done.
  rewrite (seqZ_cons 0 (cnt q)) by lia. rewrite fmap_cons. cbn [tail buf taken]. rewrite Z.add_0_r, (Z.mod_small (tail q)) by done. rewrite (nth_lookup_Some _ _ _ _ E). f_equal.
  apply list_eq. intros k. rewrite !list_lookup_fmap. destruct (decide (Z.of_nat k < cnt q - 1)) as [Hk|Hk].
  - rewrite !lookup_seqZ_lt by lia. cbn [fmap option_fmap option_map]. do 3 f_equal. rewrite next_mod, Zplus_mod_idemp_l by lia. f_equal. lia.
  - by rewrite !lookup_seqZ_ge by lia.
Qed.

(** ** One thread and the interrupt handlers *)

Inductive status (t : Z) (s : machine) : Prop :=
| status_idle : blocked s = ∅ -> lock (queue s) = None -> not_full (queue s) = None -> not_empty (queue s) = None -> status t s
| status_waiting k : blocked s = {[t := (k, Waiting)]} -> lock (queue s) = Some t -> must_wait k (queue s) = true ->
    waiter k (queue s) = Some t -> (forall k', must_wait k' (queue s) = false -> waiter k' (queue s) = None) -> status t s
| status_woken k : blocked s = {[t := (k, Woken)]} -> lock (queue s) = Some t -> not_full (queue s) = None -> not_empty (queue s) = None -> status t s.
Record inv (t : Z) (s : machine) : Prop := {
  inv_wf : wf (queue s); inv_fifo : came_in s = came_out s ++ contents (queue s); inv_status : status t s }.

(** The end of an operation: the bytes are as they should be, and a thread that waits is woken. *)
Definition other (k : task) : task := match k with Getc => Putc 0 | Putc _ => Getc end.
Definition moved (k : task) (s : machine) : machine :=
  match k with
  | Getc => {| queue := taken (queue s); blocked := blocked s; came_in := came_in s; came_out := came_out s ++ [nth (Z.to_nat (tail (queue s))) (buf (queue s)) 0] |}
  | Putc b => {| queue := stored b (queue s); blocked := blocked s; came_in := came_in s ++ [b]; came_out := came_out s |}
  end.
Lemma finish_moved k s : wf (queue s) -> finish k s = signal (other k) (moved k s).
Proof.
  intros [Hb Hh Ht]. destruct k as [|b]; cbn [finish other moved]; unfold take, store, gets.
  - erewrite bind_eq; [|reflexivity]. destruct (lookup_lt_is_Some_2 (buf (queue s)) (Z.to_nat (tail (queue s)))) as [x E]; [lia|]. rewrite E, (nth_lookup_Some _ _ _ _ E). done.
  - erewrite bind_eq; [|reflexivity]. rewrite bool_decide_true by lia. done.
Qed.
Lemma moved_queue k s : wf (queue s) -> came_in s = came_out s ++ contents (queue s) -> must_wait k (queue s) = false ->
  wf (queue (moved k s)) /\ came_in (moved k s) = came_out (moved k s) ++ contents (queue (moved k s)) /\ must_wait (other k) (queue (moved k s)) = false.
Proof.
  intros Hw Hf Hm. destruct k as [|b]; cbn [must_wait other moved queue came_in came_out] in *.
  - rewrite empty_cnt in Hm by done. apply Z.eqb_neq in Hm. destruct (contents_taken _ Hw Hm) as (x & E & Ec). split; [by apply taken_wf|]. split.
    + rewrite Hf, Ec, (nth_lookup_Some _ _ _ _ E). by rewrite <- app_assoc.
    + rewrite full_cnt, taken_cnt by (done || by apply taken_wf). apply Z.eqb_neq. unfold cnt. pose proof (Z.mod_pos_bound (head (queue s) - tail (queue s)) 64). lia.
  - rewrite full_cnt in Hm by done. apply Z.eqb_neq in Hm. split; [by apply stored_wf|]. split.
    + by rewrite Hf, contents_stored, app_assoc.
    + rewrite empty_cnt, stored_cnt by (done || by apply stored_wf). apply Z.eqb_neq. unfold cnt. pose proof (Z.mod_pos_bound (head (queue s) - tail (queue s)) 64). lia.
Qed.
Lemma moved_waiters k s : lock (queue (moved k s)) = lock (queue s) /\ not_full (queue (moved k s)) = not_full (queue s) /\
  not_empty (queue (moved k s)) = not_empty (queue s) /\ blocked (moved k s) = blocked s.
Proof. by destruct k. Qed.

Lemma finish_run t k s : inv t s -> must_wait k (queue s) = false -> exists s', finish k s = Ok (tt, s') /\ inv t s' /\ (blocked s = ∅ -> blocked s' = ∅).
Proof.
  intros [Hw Hf Hs] Hm. rewrite finish_moved by done. destruct (moved_queue k s Hw Hf Hm) as (Hw' & Hf' & Hm'). destruct (moved_waiters k s) as (El & En & Ee & Eb).
  unfold signal, gets. rewrite !(bind_eq _ _ _ _ _ eq_refl), Hm'. cbn [negb]. rewrite (bind_eq _ _ _ _ _ eq_refl).
  destruct Hs as [Hb Hl Hn He|k' Hb Hl Hk Hwt Hno|k' Hb Hl Hn He].
  - exists (moved k s). assert (waiter (other k) (queue (moved k s)) = None) as -> by (destruct k; cbn [other waiter]; congruence).
    split; [done|]. split; [|congruence]. split; [done|done|]. apply status_idle; congruence.
  - assert (waiter (other k) (queue (moved k s)) = Some t) as ->.
    { destruct k, k'; cbn [other waiter must_wait] in *; congruence. }
    rewrite (bind_eq _ _ _ _ _ eq_refl), Eb, Hb, lookup_singleton_eq. eexists. split; [reflexivity|]. split; [|intros E; exfalso; by apply map_non_empty_singleton in E]. specialize (Hno k Hm).
    split; cbn.
    + destruct Hw' as []. by destruct k; split.
    + rewrite Hf'. by destruct k.
    + apply (status_woken t _ k'); cbn; [by rewrite Eb, Hb, insert_singleton_eq|..].
      all: destruct k; cbn in *; congruence.
  - exists (moved k s). assert (waiter (other k) (queue (moved k s)) = None) as -> by (destruct k; cbn [other waiter]; congruence).
    split; [done|]. split; [|congruence]. split; [done|done|]. apply (status_woken t _ k'); congruence.
Qed.

Lemma loop_run t k s : inv t s -> blocked s = ∅ -> exists s', loop t k s = Ok (tt, s') /\ inv t s'.
Proof.
  intros Hi Hb. pose proof Hi as [Hw Hf Hs]. unfold loop, gets. rewrite (bind_eq _ _ _ _ _ eq_refl). destruct (must_wait k (queue s)) eqn:Hm.
  - assert (lock (queue s) = None /\ not_full (queue s) = None /\ not_empty (queue s) = None) as (Hl & Hn & He).
    { destruct Hs as [_ Hl Hn He|k' Hb'|k' Hb']; [done| |]; rewrite Hb in Hb'; symmetry in Hb'; by apply map_non_empty_singleton in Hb'. }
    rewrite Hl. rewrite (bind_eq _ _ _ _ _ eq_refl). unfold wait, gets. rewrite (bind_eq _ _ _ _ _ eq_refl). cbn [queue with_lock].
    assert (must_wait k (with_lock (Some t) (queue s)) = true) as -> by (by destruct k). eexists. split; [reflexivity|].
    split; cbn; [by destruct k; split; apply Hw|rewrite Hf; by destruct k|].
    apply (status_waiting t _ k); cbn; [by rewrite Hb|by destruct k|by destruct k|by destruct k|]. intros k' Hm'. unfold must_wait, intq_empty, intq_full in *. destruct k, k'; cbn in *; congruence.
  - destruct (finish_run t k s Hi Hm) as (s' & E & Hi' & Hb'). rewrite (bind_eq _ _ _ _ _ E). eexists. split; [reflexivity|]. specialize (Hb' Hb).
    destruct Hi' as [Hw' Hf' Hs']. split; [done|done|]. destruct Hs' as [_ Hl Hn He|k' Hb2|k' Hb2]; [by apply status_idle; cbn; [rewrite Hb', delete_empty|..]| |];
      rewrite Hb' in Hb2; symmetry in Hb2; by apply map_non_empty_singleton in Hb2.
Qed.
(** The events of a single thread and of interrupt handlers. *)
Definition of_thread (t : Z) (e : event) : bool := match e with Start t' _ => t' =? t | Resume t' => t' =? t | Handler _ => true end.
Lemma step_run t e s : inv t s -> of_thread t e = true -> exists s', step e s = Ok (tt, s') /\ inv t s'.
Proof.
  intros Hi He. destruct e as [t' k|t'|k]; cbn [of_thread step] in *; unfold gets.
  - apply Z.eqb_eq in He as ->. rewrite (bind_eq _ _ _ _ _ eq_refl). destruct (inv_status _ _ Hi) as [Hb|k' Hb|k' Hb]; rewrite Hb.
    + rewrite lookup_empty. by apply loop_run.
    + rewrite lookup_singleton_eq. by exists s.
    + rewrite lookup_singleton_eq. by exists s.
  - apply Z.eqb_eq in He as ->. unfold resume, gets. rewrite (bind_eq _ _ _ _ _ eq_refl). pose proof Hi as [Hw Hf Hs]. destruct Hs as [Hb|k' Hb|k' Hb Hl Hn Hem]; rewrite Hb.
    + rewrite lookup_empty. by exists s.
    + rewrite lookup_singleton_eq. by exists s.
    + rewrite lookup_singleton_eq. do 3 rewrite (bind_eq _ _ _ _ _ eq_refl). apply loop_run; [|cbn; by rewrite Hb, delete_singleton_eq].
      split; cbn; [split; apply Hw|done|]. apply status_idle; cbn; [by rewrite Hb, delete_singleton_eq|done..].
  - rewrite (bind_eq _ _ _ _ _ eq_refl). destruct (must_wait k (queue s)) eqn:Hm; [by exists s|]. unfold in_handler, gets. rewrite (bind_eq _ _ _ _ _ eq_refl), Hm.
    destruct (finish_run t k s Hi Hm) as (s' & E & Hi' & _). exists s'. by rewrite (bind_eq _ _ _ _ _ eq_refl).
Qed.
Lemma intq_run_inv t l : forall s, inv t s -> Forall (fun e => of_thread t e = true) l -> exists s', run l s = Ok (tt, s') /\ inv t s'.
Proof.
  induction l as [|e l IH]; intros s Hi Hl; cbn [run]; [by exists s|]. apply Forall_cons in Hl as [He Hl]. destruct (step_run t e s Hi He) as (s1 & E & Hi1).
  rewrite (bind_eq _ _ _ _ _ E). by apply IH.
Qed.
Lemma start_inv t : inv t start.
Proof. split; [by split|done|by apply status_idle]. Qed.

(** With one thread and any interrupt handlers at the two ends of a queue, no assertion
    fails, whatever the order of their operations: the bytes come out in the order in which
    they went in, the ones that have not come out are the contents of the queue, at most 63,
    and the thread is asleep only while there is really no byte, or no room, for it. *)
Theorem intq_single_thread t l : Forall (fun e => of_thread t e = true) l -> exists s, run l start = Ok (tt, s) /\
  came_in s = came_out s ++ contents (queue s) /\ (length (contents (queue s)) <= 63)%nat /\
  forall t' k, blocked s !! t' = Some (k, Waiting) -> t' = t /\ contents (queue s) = [] /\ k = Getc \/ t' = t /\ length (contents (queue s)) = 63%nat /\ exists b, k = Putc b.
Proof.
  intros Hl. destruct (intq_run_inv t l start (start_inv t) Hl) as (s & E & [Hw Hf Hs]). exists s. split; [done|]. split; [done|].
  assert (length (contents (queue s)) = Z.to_nat (cnt (queue s))) as Hc by (unfold contents; by rewrite length_fmap, length_seqZ).
  pose proof (Z.mod_pos_bound (head (queue s) - tail (queue s)) 64 ltac:(lia)) as Hb. fold (cnt (queue s)) in Hb. split; [lia|]. intros t' k Ht.
  destruct Hs as [Hbl|k' Hbl _ Hm|k' Hbl]; rewrite Hbl in Ht; [done| |by apply lookup_singleton_Some in Ht as [_ [=]]].
  apply lookup_singleton_Some in Ht as [<- [= <-]]. destruct k'; cbn [must_wait] in Hm.
  - left. rewrite empty_cnt in Hm by done. apply Z.eqb_eq in Hm. split; [done|]. split; [|done]. apply nil_length_inv. lia.
  - right. rewrite full_cnt in Hm by done. apply Z.eqb_eq in Hm. split; [done|]. split; [lia|by eexists].
Qed.
Lemma intq_single_thread_witness : exists s, run [Start 1 Getc; Handler (Putc 65); Handler (Putc 66); Resume 1; Start 1 Getc] start = Ok (tt, s) /\ came_out s = [65; 66].
Proof.
  destruct (intq_single_thread 1 [Start 1 Getc; Handler (Putc 65); Handler (Putc 66); Resume 1; Start 1 Getc]) as (s & E & _); [repeat constructor|].
  exists s. split; [exact E|]. vm_compute in E. injection E as <-. reflexivity.
Defined.

(** Two threads that read from the same queue can stop the kernel.  The second one finds
    the queue empty and sleeps until it gets the lock that the first one holds while it waits.
    Two bytes arrive, the first thread takes one of them and releases the lock, and the second
    thread then asserts in [wait] that the queue is empty, which it is not.  In the same way a
    reader and a writer can stop it when the queue fills up before a woken reader runs. *)
Example intq_two_threads :
  run [Start 1 Getc; Start 2 Getc; Handler (Putc 65); Handler (Putc 66); Resume 1; Resume 2] start = Err AssertFail /\
  run (Start 1 Getc :: replicate 63 (Handler (Putc 65)) ++ [Start 2 (Putc 66); Resume 1; Resume 2]) start = Err AssertFail.
Proof. split; vm_compute; reflexivity. Qed.

End IntqProps.
