(* ===== verification/Serial.v ===== *)
(** * devices/serial.c, devices/input.c: the serial port and the input buffer

    Both files work on queues ([Intq]), one of bytes to transmit and one of keys.  The state
    has the two queues, the mode of the port and the accesses to the ports of the UART, in
    their order; what the UART answers is a parameter.  Interrupts are off in all of this code:
    it runs in interrupt handlers or after [intr_disable], and gives the processor away only
    where [intq_getc] or [intq_putc] blocks, so a function that a thread calls has a second part
    for the time after that. *)

From S2P Require Import Prelude Intq.

Module Serial.
Import Intq.

Definition IO_BASE : Z := 1016.
Definition RBR_REG : Z := IO_BASE.
Definition THR_REG : Z := IO_BASE.
Definition IER_REG : Z := IO_BASE + 1.
Definition LS_REG : Z := IO_BASE.
Definition MS_REG : Z := IO_BASE + 1.
Definition IIR_REG : Z := IO_BASE + 2.
Definition FCR_REG : Z := IO_BASE + 2.
Definition LCR_REG : Z := IO_BASE + 3.
Definition MCR_REG : Z := IO_BASE + 4.
Definition LSR_REG : Z := IO_BASE + 5.
Definition IER_RECV : Z := 1.
Definition IER_XMIT : Z := 2.
Definition LCR_N81 : Z := 3.
Definition LCR_DLAB : Z := 128.
Definition MCR_OUT2 : Z := 8.
Definition LSR_DR : Z := 1.
Definition LSR_THRE : Z := 32.

Inductive tmode := UNINIT | POLL | QUEUE.
#[export] Instance tmode_eq_dec : EqDecision tmode.
Proof. solve_decision. Defined.

(** An access to a register of the UART, with the byte read or written. *)
Inductive access := In (reg data : Z) | Out (reg data : Z).

Section serial.
(** The UART: reading a register gives a byte and changes its state. *)
Context {U : Type} (read_reg : Z -> U -> Z * U).

Record port := { mode : tmode; txq : machine; buffer : machine; uart : U; log : list access }.
Definition with_mode (m : tmode) (s : port) : port := {| mode := m; txq := txq s; buffer := buffer s; uart := uart s; log := log s |}.
Definition with_txq (q : machine) (s : port) : port := {| mode := mode s; txq := q; buffer := buffer s; uart := uart s; log := log s |}.
Definition with_buffer (q : machine) (s : port) : port := {| mode := mode s; txq := txq s; buffer := q; uart := uart s; log := log s |}.
Definition outb (reg data : Z) : M port unit :=
  modify (fun s => {| mode := mode s; txq := txq s; buffer := buffer s; uart := uart s; log := log s ++ [Out reg data] |}).
Definition inb (reg : Z) : M port Z := fun s =>
  let (b, u) := read_reg reg (uart s) in Ok (b, {| mode := mode s; txq := txq s; buffer := buffer s; uart := u; log := log s ++ [In reg b] |}).
Definition on_txq {A} (c : M machine A) : M port A := fun s =>
  match c (txq s) with Ok (a, q) => Ok (a, with_txq q s) | Err e => Err e end.
Definition on_buffer {A} (c : M machine A) : M port A := fun s =>
  match c (buffer s) with Ok (a, q) => Ok (a, with_buffer q s) | Err e => Err e end.

(** ** Registers *)

Definition input_full : M port bool := gets (fun s => intq_full (queue (buffer s))).
Definition txq_empty : M port bool := gets (fun s => intq_empty (queue (txq s))).
Definition write_ier : M port unit :=
  let! e := txq_empty in
  let ier := if negb e then IER_XMIT else 0 in
  let! f := input_full in
  let ier := if negb f then Z.lor ier IER_RECV else ier in
  outb IER_REG ier.
Definition serial_notify : M port unit :=
  let! m := gets mode in
  if bool_decide (m = QUEUE) then write_ier else ret tt.
Definition set_serial (bps : Z) : M port unit :=
  let base_rate := Z.quot 1843200 16 in
  let divisor := wrapu 16 (Z.quot base_rate bps) in
  do! assert ((300 <=? bps) && (bps <=? 115200));
  do! outb LCR_REG (Z.lor LCR_N81 LCR_DLAB);
  do! outb LS_REG (Z.land divisor 255);
  do! outb MS_REG (Z.shiftr divisor 8);
  outb LCR_REG LCR_N81.
Definition init_queue (q : machine) : machine :=
  {| queue := intq_init (queue q); blocked := blocked q; came_in := []; came_out := [] |}.
Definition init_poll : M port unit :=
  let! m := gets mode in
  do! assert (bool_decide (m = UNINIT));
  do! outb IER_REG 0;
  do! outb FCR_REG 0;
  do! set_serial 9600;
  do! outb MCR_REG MCR_OUT2;
  do! modify (fun s => with_txq (init_queue (txq s)) s);
  modify (with_mode POLL).
(** The registration of the handler is in [Interrupt]. *)
Definition serial_init_queue : M port unit :=
  let! m := gets mode in
  do! (if bool_decide (m = UNINIT) then init_poll else ret tt);
  let! m := gets mode in
  do! assert (bool_decide (m = POLL));
  do! modify (with_mode QUEUE);
  write_ier.
(** At most [n] looks at the line status register. *)
Fixpoint wait_thre (n : nat) : M port unit :=
  match n with
  | O => fail OutOfFuel
  | S n => let! b := inb LSR_REG in if Z.land b LSR_THRE =? 0 then wait_thre n else ret tt
  end.
Definition putc_poll (n : nat) (byte : Z) : M port unit := do! wait_thre n; outb THR_REG byte.

(** ** The transmit queue *)

(** [intq_getc] on a queue that is not empty; the byte is the one that leaves it. *)
Definition txq_getc : M port Z :=
  let! q := gets (fun s => queue (txq s)) in
  do! on_txq (in_handler Getc);
  match buf q !! Z.to_nat (tail q) with Some b => ret b | None => fail WildAccess end.
(** [who] is the thread, none in an interrupt handler; [off] says that interrupts were off
    before.  Whether the byte is in the queue, or the thread waits for room. *)
Definition serial_putc (n : nat) (who : option Z) (off : bool) (byte : Z) : M port unit :=
  let! m := gets mode in
  if negb (bool_decide (m = QUEUE)) then
    do! (if bool_decide (m = UNINIT) then init_poll else ret tt);
    putc_poll n byte
  else
    let! full := gets (fun s => intq_full (queue (txq s))) in
    do! (if off && full then let! b := txq_getc in putc_poll n b else ret tt);
    match who with
    | None => do! on_txq (in_handler (Putc byte)); write_ier
    | Some t =>
        do! on_txq (loop t (Putc byte));
        let! waits := gets (fun s => bool_decide (is_Some (blocked (txq s) !! t))) in
        if waits then ret tt else write_ier
    end.
(** The thread [t], blocked in [serial_putc], gets the processor. *)
Definition serial_putc_resume (t : Z) : M port unit :=
  do! on_txq (resume t);
  let! waits := gets (fun s => bool_decide (is_Some (blocked (txq s) !! t))) in
  if waits then ret tt else write_ier.
Fixpoint flush_loop (k n : nat) : M port unit :=
  let! e := txq_empty in
  if negb e then match k with O => fail OutOfFuel | S k => let! b := txq_getc in do! putc_poll n b; flush_loop k n end
  else ret tt.
(** The queue has at most 63 bytes. *)
Definition serial_flush (n : nat) : M port unit := flush_loop 63 n.

(** ** The input buffer *)

Definition input_init : M port unit := modify (fun s => with_buffer (init_queue (buffer s)) s).
Definition input_putc (key : Z) : M port unit :=
  let! f := input_full in
  do! assert (negb f);
  do! on_buffer (in_handler (Putc key));
  serial_notify.
Definition input_getc (t : Z) : M port unit :=
  do! on_buffer (loop t Getc);
  let! waits := gets (fun s => bool_decide (is_Some (blocked (buffer s) !! t))) in
  if waits then ret tt else serial_notify.
Definition input_getc_resume (t : Z) : M port unit :=
  do! on_buffer (resume t);
  let! waits := gets (fun s => bool_decide (is_Some (blocked (buffer s) !! t))) in
  if waits then ret tt else serial_notify.

(** ** The interrupt handler *)

Fixpoint receive_loop (k : nat) : M port unit :=
  let! f := input_full in
  if negb f then
    let! b := inb LSR_REG in
    if negb (Z.land b LSR_DR =? 0) then
      match k with O => fail OutOfFuel | S k => let! b := inb RBR_REG in do! input_putc b; receive_loop k end
    else ret tt
  else ret tt.
Fixpoint transmit_loop (k : nat) : M port unit :=
  let! e := txq_empty in
  if negb e then
    let! b := inb LSR_REG in
    if negb (Z.land b LSR_THRE =? 0) then
      match k with O => fail OutOfFuel | S k => let! b := txq_getc in do! outb THR_REG b; transmit_loop k end
    else ret tt
  else ret tt.
(** A queue has room for 63 bytes, so neither loop has more rounds. *)
Definition serial_interrupt : M port unit :=
  let! _ := inb IIR_REG in
  do! receive_loop 63;
  do! transmit_loop 63;
  write_ier.

(** ** What can happen once the port is initialized

    One thread, [w], writes to the port, as the lock of the console makes sure; one thread,
    [r], reads keys. *)
Inductive event :=
| Put (off : bool) (byte : Z) | PutResume | HandlerPut (byte : Z) | Read | ReadResume | Key (key : Z) | Interrupt.
Definition step (n : nat) (w r : Z) (e : event) : M port unit :=
  match e with
  | Put off byte => let! b := gets (fun s => blocked (txq s) !! w) in match b with None => serial_putc n (Some w) off byte | Some _ => ret tt end
  | PutResume => let! b := gets (fun s => blocked (txq s) !! w) in match b with Some _ => serial_putc_resume w | None => ret tt end
  | HandlerPut byte => serial_putc n None true byte
  | Read => let! b := gets (fun s => blocked (buffer s) !! r) in match b with None => input_getc r | Some _ => ret tt end
  | ReadResume => let! b := gets (fun s => blocked (buffer s) !! r) in match b with Some _ => input_getc_resume r | None => ret tt end
  | Key key => let! f := input_full in if f then ret tt else input_putc key
  | Interrupt => serial_interrupt
  end.
Fixpoint run (n : nat) (w r : Z) (l : list event) : M port unit :=
  match l with [] => ret tt | e :: l => do! step n w r e; run n w r l end.

End serial.
Arguments port : clear implicits.

(** ** What the UART sees *)

(** The registers at the base and after it are the divisor while bit 7 of the line control
    register is set.  The holding register is known to be [free] from the time the line status
    says so up to the next byte; a byte that is written when it is not known to be free is lost.
    [sent] are the bytes transmitted, and [ier] is what the interrupt enable register holds. *)
Record seen := { dlab : bool; free : bool; sent : list Z; ier : Z }.
Definition see (v : seen) (a : access) : seen :=
  match a with
  | In reg data =>
      if reg =? LSR_REG then {| dlab := dlab v; free := negb (Z.land data LSR_THRE =? 0); sent := sent v; ier := ier v |} else v
  | Out reg data =>
      if reg =? LCR_REG then {| dlab := Z.testbit data 7; free := free v; sent := sent v; ier := ier v |}
      else if dlab v then v
      else if reg =? THR_REG then {| dlab := dlab v; free := false; sent := if free v then sent v ++ [data] else sent v; ier := ier v |}
      else if reg =? IER_REG then {| dlab := dlab v; free := free v; sent := sent v; ier := data |}
      else v
  end.
Definition uart_view (l : list access) : seen := fold_left see l {| dlab := false; free := false; sent := []; ier := 0 |}.

End Serial.

(** * The serial port transmits in order, and asks for the interrupts that it needs *)

Module SerialProps.
Import Intq IntqProps Serial.

(** ** Operations that only put bytes into a queue *)

Definition is_put (k : task) : Prop := match k with Putc _ => True | Getc => False end.
Definition puts_only (s : machine) : Prop := forall t k p, blocked s !! t = Some (k, p) -> is_put k.
(** Nothing comes out of the queue. *)
Definition keeps (c : M machine unit) : Prop := forall s s' u, c s = Ok (u, s') -> puts_only s -> puts_only s' /\ came_out s' = came_out s.

Lemma uart_keeps_bind c k : keeps c -> keeps k -> keeps (do! c; k).
Proof. intros Hc Hk s s' u E Hp. apply bind_Ok in E as ([] & s1 & E1 & E2). destruct (Hc _ _ _ E1 Hp) as [H1 O1]. destruct (Hk _ _ _ E2 H1) as [H2 O2]. split; [done|congruence]. Qed.
Lemma keeps_get {A} (f : machine -> A) k : (forall a, keeps (k a)) -> keeps (let! a := gets f in k a).
Proof. intros Hk s s' u E Hp. exact (Hk (f s) s s' u E Hp). Qed.
Lemma uart_keeps_ret : keeps (ret tt).
Proof. by intros s s' u [= _ <-]. Qed.
Lemma uart_keeps_fail f : keeps (fail f).
Proof. by intros s s' u [=]. Qed.
Lemma uart_keeps_assert b : keeps (assert b).
Proof. destruct b; [apply uart_keeps_ret|apply uart_keeps_fail]. Qed.
Lemma keeps_queue q : keeps (set_queue q).
Proof. by intros s s' u [= _ <-]. Qed.
Lemma keeps_blocked t k p : is_put k -> keeps (set_blocked t k p).
Proof.
  intros Hk s s' u [= _ <-] Hp. split; [|done]. intros t' k' p' E. cbn in E. apply lookup_insert_Some in E as [[_ [= <- <-]]|[_ E]]; [done|by apply (Hp t' k' p')].
Qed.
Lemma keeps_running t : keeps (set_running t).
Proof. intros s s' u [= _ <-] Hp. split; [|done]. intros t' k' p' E. cbn in E. apply lookup_delete_Some in E as [_ E]. by apply (Hp t' k' p'). Qed.
Lemma keeps_signal k : keeps (signal k).
Proof.
  unfold signal. apply keeps_get. intros q. apply uart_keeps_bind; [apply uart_keeps_assert|]. destruct (waiter k q) as [t|]; [|apply uart_keeps_ret].
  intros s s' u E Hp. unfold gets in E. rewrite (bind_eq _ _ _ _ _ eq_refl) in E. destruct (blocked s !! t) as [[k' []]|] eqn:Eb; try done.
  pose proof (Hp t k' Waiting Eb) as Hk. refine (uart_keeps_bind _ _ _ (keeps_queue _) s s' u E Hp). by apply keeps_blocked.
Qed.
Lemma keeps_store b : keeps (store b).
Proof. unfold store. apply keeps_get. intros q. apply uart_keeps_bind; [apply uart_keeps_assert|]. apply uart_keeps_bind; [|apply keeps_signal]. by intros s s' u [= _ <-]. Qed.
Lemma keeps_wait t b : keeps (wait t (Putc b)).
Proof. unfold wait. apply keeps_get. intros q. apply uart_keeps_bind; [apply uart_keeps_assert|]. apply uart_keeps_bind; [apply keeps_queue|by apply keeps_blocked]. Qed.
Lemma keeps_loop t b : keeps (loop t (Putc b)).
Proof.
  unfold loop. apply keeps_get. intros q. destruct (must_wait _ q); [destruct (lock q)|].
  - apply uart_keeps_bind; [apply uart_keeps_assert|by apply keeps_blocked].
  - apply uart_keeps_bind; [apply keeps_queue|apply keeps_wait].
  - apply uart_keeps_bind; [apply keeps_store|apply keeps_running].
Qed.
Lemma keeps_resume t : keeps (resume t).
Proof.
  intros s s' u E Hp. unfold resume, gets in E. rewrite (bind_eq _ _ _ _ _ eq_refl) in E. destruct (blocked s !! t) as [[k p]|] eqn:Eb; [|by injection E as _ <-].
  destruct k as [|b]; [by destruct (Hp t Getc p Eb)|]. destruct p; refine ((_ : keeps _) s s' u E Hp).
  - apply keeps_get. intros q. destruct (lock q); [apply uart_keeps_ret|]. apply uart_keeps_bind; [apply keeps_queue|apply keeps_wait].
  - apply uart_keeps_ret.
  - apply keeps_get. intros q. apply uart_keeps_bind; [apply keeps_queue|]. apply uart_keeps_bind; [apply keeps_running|apply keeps_loop].
Qed.
Lemma keeps_handler b : keeps (in_handler (Putc b)).
Proof. unfold in_handler. apply keeps_get. intros q. apply uart_keeps_bind; [apply uart_keeps_assert|apply keeps_store]. Qed.
(** A byte that is taken out of the queue is the one at its tail. *)
Lemma handler_getc s s' u byte : in_handler Getc s = Ok (u, s') -> buf (queue s) !! Z.to_nat (tail (queue s)) = Some byte -> puts_only s ->
  puts_only s' /\ came_out s' = came_out s ++ [byte].
Proof.
  intros E Eb Hp. unfold in_handler, finish, take, gets in E. rewrite (bind_eq _ _ _ _ _ eq_refl) in E. apply bind_Ok in E as ([] & s1 & E1 & E). apply assert_Ok in E1 as [_ ->].
  rewrite (bind_eq _ _ _ _ _ eq_refl), Eb in E. rewrite (bind_eq _ _ _ _ _ eq_refl) in E. by destruct (keeps_signal _ _ _ _ E Hp) as [H1 ->].
Qed.

Lemma signal_came_in k s s' u : signal k s = Ok (u, s') -> came_in s' = came_in s.
Proof.
  intros E. unfold signal, gets in E. rewrite (bind_eq _ _ _ _ _ eq_refl) in E. apply bind_Ok in E as ([] & s1 & E1 & E). apply assert_Ok in E1 as [_ ->].
  destruct (waiter _ _); [|by injection E as _ <-]. rewrite (bind_eq _ _ _ _ _ eq_refl) in E. destruct (blocked _ !! _) as [[k' []]|]; try done. by injection E as _ <-.
Qed.
Lemma handler_putc s s' u b : in_handler (Putc b) s = Ok (u, s') -> came_in s' = came_in s ++ [b].
Proof.
  intros E. unfold in_handler, finish, store, gets in E. rewrite (bind_eq _ _ _ _ _ eq_refl) in E. apply bind_Ok in E as ([] & s1 & E1 & E). apply assert_Ok in E1 as [_ ->].
  rewrite (bind_eq _ _ _ _ _ eq_refl) in E. apply bind_Ok in E as ([] & s1 & E1 & E). apply assert_Ok in E1 as [_ ->]. rewrite (bind_eq _ _ _ _ _ eq_refl) in E. by apply signal_came_in in E.
Qed.

(** ** The log of the UART *)

Lemma view_snoc l w : uart_view (l ++ [w]) = see (uart_view l) w.
Proof. unfold uart_view. by rewrite fold_left_app. Qed.
(** The UART has seen nothing but reads since [l]. *)
Definition only_reads (l l' : list access) : Prop :=
  dlab (uart_view l') = dlab (uart_view l) /\ sent (uart_view l') = sent (uart_view l) /\ ier (uart_view l') = ier (uart_view l).
Lemma only_reads_in l reg b : only_reads l (l ++ [In reg b]).
Proof. unfold only_reads. rewrite view_snoc. cbn [see]. by destruct (_ =? _). Qed.
Lemma only_reads_trans l1 l2 l3 : only_reads l1 l2 -> only_reads l2 l3 -> only_reads l1 l3.
Proof. intros (A1 & A2 & A3) (B1 & B2 & B3). unfold only_reads. by rewrite B1, B2, B3. Qed.

Section port.
Context {U : Type} (read_reg : Z -> U -> Z * U) (w r : Z).
Implicit Types s : port U.

(** What the interrupt enable register should hold. *)
Definition wanted s : Z := (if intq_empty (queue (txq s)) then 0 else IER_XMIT) + (if intq_full (queue (buffer s)) then 0 else IER_RECV).
(** The queues are in order, and [early] and then the bytes [out] have been transmitted. *)
Record sound (out : list Z) s : Prop := {
  so_txq : inv w (txq s); so_puts : puts_only (txq s); so_buffer : inv r (buffer s); so_mode : mode s = QUEUE;
  so_dlab : dlab (uart_view (log s)) = false; so_sent : sent (uart_view (log s)) = out }.
Definition in_order (early : list Z) s : Prop := sound (early ++ came_out (txq s)) s.
Definition good (early : list Z) s : Prop := in_order early s /\ ier (uart_view (log s)) = wanted s.

Lemma write_ier_run early s : in_order early s -> exists s', write_ier s = Ok (tt, s') /\ good early s' /\ txq s' = txq s /\ buffer s' = buffer s.
Proof.
  intros [H1 H2 H3 H4 H5 H6]. unfold write_ier, txq_empty, input_full, outb, gets, modify. eexists. split; [reflexivity|]. split; [|done].
  split; [split; cbn [txq buffer mode log]; try done|]; cbn [txq buffer log]; rewrite view_snoc; cbn [see]; change (IER_REG =? LCR_REG) with false; cbv beta iota; rewrite H5; [done|done|].
  cbn. unfold wanted. cbn. by destruct (intq_empty _), (intq_full _).
Qed.
Lemma notify_run early s : in_order early s -> exists s', serial_notify s = Ok (tt, s') /\ good early s' /\ txq s' = txq s /\ buffer s' = buffer s.
Proof. intros H. unfold serial_notify, gets. rewrite (bind_eq _ _ _ _ _ eq_refl), (so_mode _ _ H). rewrite bool_decide_true by done. by apply write_ier_run. Qed.

(** Reading a register changes nothing else. *)
Lemma inb_run reg s : exists b u, inb read_reg reg s = Ok (b, {| mode := mode s; txq := txq s; buffer := buffer s; uart := u; log := log s ++ [In reg b] |}).
Proof. unfold inb. destruct (read_reg reg (uart s)) as [b u]. by exists b, u. Qed.
Lemma sound_uart out s u l : only_reads (log s) l -> sound out s -> sound out {| mode := mode s; txq := txq s; buffer := buffer s; uart := u; log := l |}.
Proof. intros (L1 & L2 & _) [H1 H2 H3 H4 H5 H6]. split; cbn [txq buffer mode log]; try done; congruence. Qed.
Lemma in_order_uart early s u reg b : in_order early s -> in_order early {| mode := mode s; txq := txq s; buffer := buffer s; uart := u; log := log s ++ [In reg b] |}.
Proof. apply sound_uart, only_reads_in. Qed.

(** A byte for a holding register that is free is transmitted. *)
Lemma sound_thr out s u b : free (uart_view (log s)) = true -> sound out s ->
  sound (out ++ [b]) {| mode := mode s; txq := txq s; buffer := buffer s; uart := u; log := log s ++ [Out THR_REG b] |}.
Proof.
  intros Hf [H1 H2 H3 H4 H5 H6]. split; cbn [txq buffer mode log]; try done; rewrite view_snoc; cbn [see]; change (THR_REG =? LCR_REG) with false; change (THR_REG =? THR_REG) with true; rewrite H5; cbn; [done|by rewrite Hf, H6].
Qed.

(** ** Putting and getting *)

Lemma handler_run t k m : inv t m -> must_wait k (queue m) = false -> exists m', in_handler k m = Ok (tt, m') /\ inv t m' /\ (blocked m = ∅ -> blocked m' = ∅).
Proof.
  intros Hi Hm. destruct (finish_run t k m Hi Hm) as (m' & E & Hi' & Hb). exists m'. split; [|done]. unfold in_handler, gets. rewrite (bind_eq _ _ _ _ _ eq_refl), Hm. by rewrite (bind_eq _ _ _ _ _ eq_refl).
Qed.
(** The queue that an operation of an interrupt handler leaves. *)
Lemma handler_count t k m m' u : inv t m -> must_wait k (queue m) = false -> in_handler k m = Ok (u, m') ->
  cnt (queue m') = match k with Getc => cnt (queue m) - 1 | Putc _ => cnt (queue m) + 1 end.
Proof.
  intros [Hw Hf Hs] Hm E. unfold in_handler, gets in E. rewrite (bind_eq _ _ _ _ _ eq_refl), Hm, (bind_eq _ _ _ _ _ eq_refl) in E. rewrite finish_moved in E by done.
  assert (cnt (queue m') = cnt (queue (moved k m))) as ->.
  { unfold signal, gets in E. rewrite (bind_eq _ _ _ _ _ eq_refl) in E. apply bind_Ok in E as ([] & m1 & E1 & E). apply assert_Ok in E1 as [_ ->].
    destruct (waiter _ _); [|by injection E as _ <-]. rewrite (bind_eq _ _ _ _ _ eq_refl) in E. destruct (blocked _ !! _) as [[k' []]|]; try done. injection E as _ <-. by destruct k. }
  destruct k as [|b]; cbn [must_wait moved queue] in *.
  - apply taken_cnt; [done|]. rewrite empty_cnt in Hm by done. by apply Z.eqb_neq in Hm.
  - apply stored_cnt; [done|]. rewrite full_cnt in Hm by done. by apply Z.eqb_neq in Hm.
Qed.
Lemma cnt_range q : 0 <= cnt q < 64.
Proof. by apply Z.mod_pos_bound. Qed.

Lemma txq_getc_run early s : in_order early s -> intq_empty (queue (txq s)) = false ->
  exists b s', txq_getc s = Ok (b, s') /\ sound (early ++ came_out (txq s)) s' /\ came_out (txq s') = came_out (txq s) ++ [b] /\
    buffer s' = buffer s /\ cnt (queue (txq s')) = cnt (queue (txq s)) - 1 /\ (blocked (txq s) = ∅ -> blocked (txq s') = ∅) /\ log s' = log s.
Proof.
  intros [H1 H2 H3 H4 H5 H6] He. destruct (handler_run w Getc (txq s) H1 He) as (m' & E & Hi & Hb). pose proof (handler_count w Getc _ _ _ H1 He E) as Hc. cbv beta iota in Hc.
  destruct (lookup_lt_is_Some_2 (buf (queue (txq s))) (Z.to_nat (tail (queue (txq s))))) as [b Eb]; [pose proof (inv_wf _ _ H1) as [Wb _ Wt]; lia|].
  destruct (handler_getc _ _ _ b E Eb H2) as [Hp Ho]. exists b, (with_txq m' s). split; [|split; [by split|done]].
  unfold txq_getc, gets, on_txq. rewrite (bind_eq _ _ _ _ _ eq_refl). erewrite bind_eq; [|rewrite E; reflexivity]. by rewrite Eb.
Qed.

(** The UART is ready for a byte after fewer than [n] looks at its status. *)
Fixpoint ready (n : nat) (u : U) : bool :=
  match n with O => false | S n => let (b, u) := read_reg LSR_REG u in if Z.land b LSR_THRE =? 0 then ready n u else true end.
Lemma wait_thre_run k : forall s, ready k (uart s) = true ->
  exists u l, wait_thre read_reg k s = Ok (tt, {| mode := mode s; txq := txq s; buffer := buffer s; uart := u; log := l |}) /\
    only_reads (log s) l /\ free (uart_view l) = true.
Proof.
  induction k as [|k IH]; intros s Hr; [done|]. cbn [ready wait_thre] in *. unfold bind, inb. destruct (read_reg LSR_REG (uart s)) as [x u].
  destruct (Z.land x LSR_THRE =? 0) eqn:Ex.
  - destruct (IH {| mode := mode s; txq := txq s; buffer := buffer s; uart := u; log := log s ++ [In LSR_REG x] |} Hr) as (u' & l & E & Hl & Hf).
    exists u', l. split; [exact E|]. split; [|done]. eapply only_reads_trans; [apply only_reads_in|exact Hl].
  - exists u, (log s ++ [In LSR_REG x]). split; [done|]. split; [apply only_reads_in|]. rewrite view_snoc. cbn. by rewrite Ex.
Qed.
Lemma putc_poll_log n s b : (forall u, ready n u = true) ->
  exists u l, putc_poll read_reg n b s = Ok (tt, {| mode := mode s; txq := txq s; buffer := buffer s; uart := u; log := l ++ [Out THR_REG b] |}) /\
    only_reads (log s) l /\ free (uart_view l) = true.
Proof. intros Hr. destruct (wait_thre_run n s (Hr (uart s))) as (u & l & E & Hl & Hf). exists u, l. unfold putc_poll. by rewrite (bind_eq _ _ _ _ _ E). Qed.
Lemma putc_poll_run n out s b : (forall u, ready n u = true) -> sound out s -> exists s', putc_poll read_reg n b s = Ok (tt, s') /\ sound (out ++ [b]) s' /\ txq s' = txq s /\ buffer s' = buffer s.
Proof.
  intros Hr Hs. destruct (putc_poll_log n s b Hr) as (u & l & E & Hl & Hf). eexists. split; [exact E|]. split; [|done].
  exact (sound_thr _ {| log := l |} u b Hf (sound_uart _ s u l Hl Hs)).
Qed.

(** A byte is taken out of the queue and transmitted. *)
Lemma poll_one_run n early s : (forall u, ready n u = true) -> in_order early s -> intq_empty (queue (txq s)) = false ->
  exists s', (let! b := txq_getc in putc_poll read_reg n b) s = Ok (tt, s') /\ in_order early s' /\ buffer s' = buffer s /\ cnt (queue (txq s')) = cnt (queue (txq s)) - 1 /\
    (blocked (txq s) = ∅ -> blocked (txq s') = ∅).
Proof.
  intros Hr Hs He. destruct (txq_getc_run early s Hs He) as (b & s1 & E1 & Hs1 & Ho & Hb & Hc & Hbl & _). rewrite (bind_eq _ _ _ _ _ E1).
  destruct (putc_poll_run n _ s1 b Hr Hs1) as (s2 & E2 & Hs2 & Et & Eb). exists s2. split; [done|]. split; [unfold in_order; by rewrite Et, Ho, app_assoc|]. split; [congruence|]. by rewrite Et.
Qed.

Lemma full_not_empty q : wf q -> intq_full q = true -> intq_empty q = false.
Proof. intros Hw Hf. rewrite full_cnt in Hf by done. rewrite empty_cnt by done. apply Z.eqb_eq in Hf. by rewrite Hf. Qed.

(** An operation on one of the queues that leaves the bytes that came out. *)
Lemma on_txq_run early s c m' : in_order early s -> keeps c -> c (txq s) = Ok (tt, m') -> inv w m' -> on_txq c s = Ok (tt, with_txq m' s) /\ in_order early (with_txq m' s).
Proof.
  intros [H1 H2 H3 H4 H5 H6] Hk E Hi. destruct (Hk _ _ _ E H2) as [Hp Ho]. unfold on_txq. rewrite E. split; [done|]. split; cbn [txq with_txq]; [done|done|done|done|done|]. by rewrite Ho.
Qed.
Lemma on_buffer_run early s c m' : in_order early s -> c (buffer s) = Ok (tt, m') -> inv r m' -> on_buffer c s = Ok (tt, with_buffer m' s) /\ in_order early (with_buffer m' s).
Proof. intros [H1 H2 H3 H4 H5 H6] E Hi. unfold on_buffer. rewrite E. by split. Qed.

(** ** Waiting changes nothing *)

Lemma loop_ready t k m m' u : loop t k m = Ok (u, m') -> must_wait k (queue m) = false -> blocked m' !! t = None.
Proof.
  intros E Hm. unfold loop, gets in E. rewrite (bind_eq _ _ _ _ _ eq_refl), Hm in E. apply bind_Ok in E as ([] & m1 & _ & [= _ <-]). cbn. apply lookup_delete_eq.
Qed.
Lemma wait_same t k m m' u : wait t k m = Ok (u, m') -> head (queue m') = head (queue m) /\ tail (queue m') = tail (queue m).
Proof. intros E. unfold wait, gets in E. rewrite (bind_eq _ _ _ _ _ eq_refl) in E. apply bind_Ok in E as ([] & m1 & E1 & [= _ <-]). apply assert_Ok in E1 as [_ ->]. by destruct k. Qed.
Lemma loop_same t k m m' u : loop t k m = Ok (u, m') -> is_Some (blocked m' !! t) -> head (queue m') = head (queue m) /\ tail (queue m') = tail (queue m).
Proof.
  intros E Hb. destruct (must_wait k (queue m)) eqn:Hm; [|pose proof (loop_ready _ _ _ _ _ E Hm) as H0; rewrite H0 in Hb; by destruct Hb].
  unfold loop, gets in E. rewrite (bind_eq _ _ _ _ _ eq_refl), Hm in E. destruct (lock (queue m)) as [h|].
  - apply bind_Ok in E as ([] & m1 & E1 & [= _ <-]). by apply assert_Ok in E1 as [_ ->].
  - rewrite (bind_eq _ _ _ _ _ eq_refl) in E. by apply wait_same in E.
Qed.
Lemma resume_same t m m' u : resume t m = Ok (u, m') -> is_Some (blocked m' !! t) -> head (queue m') = head (queue m) /\ tail (queue m') = tail (queue m).
Proof.
  intros E Hb. unfold resume, gets in E. rewrite (bind_eq _ _ _ _ _ eq_refl) in E. destruct (blocked m !! t) as [[k []]|]; [..|by injection E as _ <-].
  - rewrite (bind_eq _ _ _ _ _ eq_refl) in E. destruct (lock (queue m)); [by injection E as _ <-|]. rewrite (bind_eq _ _ _ _ _ eq_refl) in E. by apply wait_same in E.
  - by injection E as _ <-.
  - do 3 rewrite (bind_eq _ _ _ _ _ eq_refl) in E. by apply (loop_same _ _ _ _ _ E Hb).
Qed.
Lemma wanted_same s s' : head (queue (txq s')) = head (queue (txq s)) /\ tail (queue (txq s')) = tail (queue (txq s)) ->
  head (queue (buffer s')) = head (queue (buffer s)) /\ tail (queue (buffer s')) = tail (queue (buffer s)) -> wanted s' = wanted s.
Proof. intros [E1 E2] [E3 E4]. unfold wanted, intq_empty, intq_full. by rewrite E1, E2, E3, E4. Qed.
Lemma not_blocked t m : inv t m -> blocked m !! t = None -> blocked m = ∅.
Proof. intros [_ _ []] E; [done|..]; match goal with H : blocked m = _ |- _ => rewrite H, lookup_singleton_eq in E end; done. Qed.

(** After a thread has worked on the transmit queue it waits, or updates the register. *)
Definition tx_done (t : Z) : M (port U) unit :=
  let! waits := gets (fun s => bool_decide (is_Some (blocked (txq s) !! t))) in if waits then ret tt else write_ier.
Lemma tx_done_run early s s' : in_order early s' -> (is_Some (blocked (txq s') !! w) -> good early s') -> exists s2, tx_done w s' = Ok (tt, s2) /\ good early s2.
Proof.
  intros H1 H2. unfold tx_done, gets. rewrite (bind_eq _ _ _ _ _ eq_refl). destruct (bool_decide_reflect (is_Some (blocked (txq s') !! w))); [by exists s'; split; [|apply H2]|].
  destruct (write_ier_run early s' H1) as (s2 & E & Hg & _). by exists s2.
Qed.
Lemma put_thread_run early s b : in_order early s -> blocked (txq s) = ∅ -> (intq_full (queue (txq s)) = true -> good early s) ->
  exists s', (do! on_txq (loop w (Putc b)); tx_done w) s = Ok (tt, s') /\ good early s'.
Proof.
  intros Ho Hb Hg. destruct (loop_run w (Putc b) (txq s) (so_txq _ _ Ho) Hb) as (m' & E & Hi). destruct (on_txq_run early s _ m' Ho (keeps_loop w b) E Hi) as [R Ho'].
  rewrite (bind_eq _ _ _ _ _ R). apply (tx_done_run early s); [done|]. intros Hw. cbn [txq with_txq] in Hw.
  destruct (intq_full (queue (txq s))) eqn:Ef; [|rewrite (loop_ready _ (Putc b) _ _ _ E Ef) in Hw; by destruct Hw].
  split; [done|]. destruct (Hg eq_refl) as [_ Hier]. cbn [log with_txq]. rewrite Hier. symmetry. apply wanted_same; [|done]. by apply (loop_same _ _ _ _ _ E).
Qed.
Lemma serial_putc_run n early s who off b : (forall u, ready n u = true) -> good early s ->
  match who with Some t => t = w /\ blocked (txq s) !! w = None | None => off = true end ->
  exists s', serial_putc read_reg n who off b s = Ok (tt, s') /\ good early s'.
Proof.
  intros Hr [Ho Hier] Hwho. unfold serial_putc, gets. rewrite (bind_eq _ _ _ _ _ eq_refl), (so_mode _ _ Ho). rewrite bool_decide_true by done. cbn [negb]. rewrite (bind_eq _ _ _ _ _ eq_refl).
  pose proof (inv_wf _ _ (so_txq _ _ Ho)) as Hw. destruct (off && intq_full (queue (txq s))) eqn:Eof.
  - apply andb_true_iff in Eof as [-> Ef]. destruct (poll_one_run n early s Hr Ho (full_not_empty _ Hw Ef)) as (s1 & E1 & Ho1 & Eb1 & Ec1 & Hbl). rewrite (bind_eq _ _ _ _ _ E1).
    assert (intq_full (queue (txq s1)) = false) as Ef1.
    { rewrite full_cnt in * by (done || apply (inv_wf _ _ (so_txq _ _ Ho1))). apply Z.eqb_eq in Ef. apply Z.eqb_neq. lia. }
    destruct who as [t|].
    + destruct Hwho as [-> Hb]. apply (put_thread_run early s1 b); [done|by apply Hbl, (not_blocked w), Hb; apply (so_txq _ _ Ho)|congruence].
    + destruct (handler_run w (Putc b) (txq s1) (so_txq _ _ Ho1) Ef1) as (m' & E & Hi & _). destruct (on_txq_run early s1 _ m' Ho1 (keeps_handler b) E Hi) as [R Ho']. rewrite (bind_eq _ _ _ _ _ R).
      destruct (write_ier_run early _ Ho') as (s2 & E2 & Hg & _). by exists s2.
  - rewrite (bind_eq _ _ _ _ _ eq_refl). destruct who as [t|].
    + destruct Hwho as [-> Hb]. apply (put_thread_run early s b); [done|by apply (not_blocked w), Hb; apply (so_txq _ _ Ho)|done].
    + subst off. cbn in Eof. destruct (handler_run w (Putc b) (txq s) (so_txq _ _ Ho) Eof) as (m' & E & Hi & _). destruct (on_txq_run early s _ m' Ho (keeps_handler b) E Hi) as [R Ho']. rewrite (bind_eq _ _ _ _ _ R).
      destruct (write_ier_run early _ Ho') as (s2 & E2 & Hg & _). by exists s2.
Qed.

Lemma serial_putc_resume_run early s : good early s -> exists s', serial_putc_resume w s = Ok (tt, s') /\ good early s'.
Proof.
  intros [Ho Hier]. destruct (step_run w (Resume w) (txq s) (so_txq _ _ Ho)) as (m' & E & Hi); [apply Z.eqb_refl|]. cbn [Intq.step] in E.
  destruct (on_txq_run early s _ m' Ho (keeps_resume w) E Hi) as [R Ho']. unfold serial_putc_resume. rewrite (bind_eq _ _ _ _ _ R). apply (tx_done_run early s); [done|].
  intros Hw. split; [done|]. cbn [log with_txq]. rewrite Hier. symmetry. apply wanted_same; [|done]. by apply (resume_same _ _ _ _ E).
Qed.

(** ** The input buffer *)

Lemma input_putc_run early s key : in_order early s -> intq_full (queue (buffer s)) = false ->
  exists s', input_putc key s = Ok (tt, s') /\ good early s' /\ cnt (queue (buffer s')) = cnt (queue (buffer s)) + 1 /\ came_in (buffer s') = came_in (buffer s) ++ [key].
Proof.
  intros Ho Hf. destruct (handler_run r (Putc key) (buffer s) (so_buffer _ _ Ho) Hf) as (m' & E & Hi & _). pose proof (handler_count r (Putc key) _ _ _ (so_buffer _ _ Ho) Hf E) as Hc.
  destruct (on_buffer_run early s _ m' Ho E Hi) as [R Ho']. unfold input_putc, input_full, gets. rewrite (bind_eq _ _ _ _ _ eq_refl), Hf. rewrite (bind_eq _ _ _ _ _ eq_refl), (bind_eq _ _ _ _ _ R).
  destruct (notify_run early _ Ho') as (s2 & E2 & Hg & _ & Eb). exists s2. split; [done|]. split; [done|]. rewrite Eb. split; [done|]. by apply (handler_putc (buffer s) m' tt).
Qed.
Lemma rx_done_run early s s' : in_order early s' -> (is_Some (blocked (buffer s') !! r) -> good early s') ->
  exists s2, (let! waits := gets (fun s => bool_decide (is_Some (blocked (buffer s) !! r))) in if waits then ret tt else serial_notify) s' = Ok (tt, s2) /\ good early s2.
Proof.
  intros H1 H2. unfold gets. rewrite (bind_eq _ _ _ _ _ eq_refl). destruct (bool_decide_reflect (is_Some (blocked (buffer s') !! r))); [by exists s'; split; [|apply H2]|].
  destruct (notify_run early s' H1) as (s2 & E & Hg & _). by exists s2.
Qed.
Lemma input_getc_run early s : good early s -> blocked (buffer s) !! r = None -> exists s', input_getc r s = Ok (tt, s') /\ good early s'.
Proof.
  intros [Ho Hier] Hb. destruct (loop_run r Getc (buffer s) (so_buffer _ _ Ho)) as (m' & E & Hi); [by apply (not_blocked r), Hb; apply (so_buffer _ _ Ho)|].
  destruct (on_buffer_run early s _ m' Ho E Hi) as [R Ho']. unfold input_getc. rewrite (bind_eq _ _ _ _ _ R). apply (rx_done_run early s); [done|].
  intros Hw. split; [done|]. cbn [log with_buffer]. rewrite Hier. symmetry. apply wanted_same; [done|]. by apply (loop_same _ _ _ _ _ E).
Qed.
Lemma input_getc_resume_run early s : good early s -> exists s', input_getc_resume r s = Ok (tt, s') /\ good early s'.
Proof.
  intros [Ho Hier]. destruct (step_run r (Resume r) (buffer s) (so_buffer _ _ Ho)) as (m' & E & Hi); [apply Z.eqb_refl|]. cbn [Intq.step] in E.
  destruct (on_buffer_run early s _ m' Ho E Hi) as [R Ho']. unfold input_getc_resume. rewrite (bind_eq _ _ _ _ _ R). apply (rx_done_run early s); [done|].
  intros Hw. split; [done|]. cbn [log with_buffer]. rewrite Hier. symmetry. apply wanted_same; [done|]. by apply (resume_same _ _ _ _ E).
Qed.

(** ** The interrupt handler *)

Lemma receive_loop_run early k : forall s, in_order early s -> 63 - cnt (queue (buffer s)) <= Z.of_nat k -> exists s', receive_loop read_reg k s = Ok (tt, s') /\ in_order early s'.
Proof.
  induction k as [|k IH]; intros s Ho Hk; cbn [receive_loop]; unfold input_full at 1, gets; rewrite (bind_eq _ _ _ _ _ eq_refl);
    pose proof (full_cnt _ (inv_wf _ _ (so_buffer _ _ Ho))) as Ef; pose proof (cnt_range (queue (buffer s))) as Hc; destruct (intq_full (queue (buffer s))) eqn:Hf; cbn [negb]; try by exists s.
  - symmetry in Ef. apply Z.eqb_neq in Ef. lia.
  - destruct (inb_run LSR_REG s) as (b & u & E). rewrite (bind_eq _ _ _ _ _ E). destruct (negb _); [|eexists; split; [reflexivity|by apply in_order_uart]].
    match goal with |- context [bind (inb _ _) _ ?v] => destruct (inb_run RBR_REG v) as (b' & u' & E'); rewrite (bind_eq _ _ _ _ _ E') end.
    destruct (input_putc_run early {| mode := mode s; txq := txq s; buffer := buffer s; uart := u'; log := (log s ++ [In LSR_REG b]) ++ [In RBR_REG b'] |} b'
      (in_order_uart _ {| log := log s ++ [In LSR_REG b] |} _ _ _ (in_order_uart _ _ u _ _ Ho)) Hf) as (s2 & E2 & [Ho2 _] & Ec & _).
    rewrite (bind_eq _ _ _ _ _ E2). cbn [buffer] in Ec. apply IH; [done|lia].
Qed.
Lemma transmit_loop_run early k : forall s, in_order early s -> cnt (queue (txq s)) <= Z.of_nat k -> exists s', transmit_loop read_reg k s = Ok (tt, s') /\ in_order early s'.
Proof.
  induction k as [|k IH]; intros s Ho Hk; cbn [transmit_loop]; unfold txq_empty at 1, gets; rewrite (bind_eq _ _ _ _ _ eq_refl);
    pose proof (empty_cnt _ (inv_wf _ _ (so_txq _ _ Ho))) as Ee; pose proof (cnt_range (queue (txq s))) as Hc; destruct (intq_empty (queue (txq s))) eqn:He; cbn [negb]; try by exists s.
  - symmetry in Ee. apply Z.eqb_neq in Ee. lia.
  - destruct (inb_run LSR_REG s) as (b & u & E). rewrite (bind_eq _ _ _ _ _ E). destruct (negb _) eqn:Hb; [|eexists; split; [reflexivity|by apply in_order_uart]].
    destruct (txq_getc_run early {| mode := mode s; txq := txq s; buffer := buffer s; uart := u; log := log s ++ [In LSR_REG b] |} (in_order_uart _ _ _ _ _ Ho) He) as (b' & s2 & E2 & Hs2 & Eo & _ & Ec & _ & El).
    assert (free (uart_view (log s2)) = true) as Hf2 by (rewrite El; cbn [log]; rewrite view_snoc; exact Hb).
    rewrite (bind_eq _ _ _ _ _ E2), (bind_eq _ _ _ _ _ eq_refl). cbn [txq] in *. apply IH; cbn [txq]; [|lia]. unfold in_order. cbn [txq]. rewrite Eo, app_assoc. by apply (sound_thr _ s2 (uart s2) b' Hf2).
Qed.
Lemma serial_interrupt_run early s : in_order early s -> exists s', serial_interrupt read_reg s = Ok (tt, s') /\ good early s'.
Proof.
  intros Ho. unfold serial_interrupt. destruct (inb_run IIR_REG s) as (b & u & E). rewrite (bind_eq _ _ _ _ _ E). pose proof (in_order_uart early s u IIR_REG b Ho) as Ho1.
  match goal with |- context [bind (receive_loop _ _) _ ?v] => destruct (receive_loop_run early 63 v Ho1) as (s2 & E2 & Ho2); [pose proof (cnt_range (queue (buffer v))); lia|] end. rewrite (bind_eq _ _ _ _ _ E2).
  destruct (transmit_loop_run early 63 s2 Ho2) as (s3 & E3 & Ho3); [pose proof (cnt_range (queue (txq s2))); lia|]. rewrite (bind_eq _ _ _ _ _ E3).
  destruct (write_ier_run early s3 Ho3) as (s4 & E4 & Hg & _). by exists s4.
Qed.

(** ** Every sequence of events *)

Lemma serial_step_run n early s e : (forall u, ready n u = true) -> good early s -> exists s', step read_reg n w r e s = Ok (tt, s') /\ good early s'.
Proof.
  intros Hr Hg. pose proof Hg as [Ho _]. destruct e as [off b| |b| | |key|]; cbn [step]; unfold gets, input_full; try (rewrite (bind_eq _ _ _ _ _ eq_refl)).
  - destruct (blocked (txq s) !! w) eqn:Eb; [by exists s|]. by apply serial_putc_run.
  - destruct (blocked (txq s) !! w); [by apply serial_putc_resume_run|by exists s].
  - by apply serial_putc_run.
  - destruct (blocked (buffer s) !! r) eqn:Eb; [by exists s|]. by apply input_getc_run.
  - destruct (blocked (buffer s) !! r); [by apply input_getc_resume_run|by exists s].
  - destruct (intq_full (queue (buffer s))) eqn:Ef; [by exists s|]. destruct (input_putc_run early s key Ho Ef) as (s' & E & Hg' & _). by exists s'.
  - by apply serial_interrupt_run.
Qed.
Lemma serial_run n early l : (forall u, ready n u = true) -> forall s, good early s -> exists s', run read_reg n w r l s = Ok (tt, s') /\ good early s'.
Proof.
  intros Hr. induction l as [|e l IH]; intros s Hg; cbn [run]; [by exists s|]. destruct (serial_step_run n early s e Hr Hg) as (s1 & E & Hg1). rewrite (bind_eq _ _ _ _ _ E). by apply IH.
Qed.

(** The port after boot, when [early] has been written in polling mode. *)
Definition boot (u : U) : port U := {| mode := UNINIT; txq := start; buffer := start; uart := u; log := [] |}.
Fixpoint puts (n : nat) (l : list Z) : M (port U) unit := match l with [] => ret tt | b :: l => do! serial_putc read_reg n None true b; puts n l end.

(** Before the queue is in use. *)
Record polling (early : list Z) s : Prop := {
  po_txq : txq s = start; po_buffer : buffer s = start; po_mode : mode s = UNINIT /\ log s = [] \/ mode s = POLL;
  po_dlab : dlab (uart_view (log s)) = false; po_sent : sent (uart_view (log s)) = early }.
Lemma init_poll_run early s : polling early s -> mode s = UNINIT -> exists s', init_poll s = Ok (tt, s') /\ polling early s' /\ mode s' = POLL.
Proof.
  intros [H1 H2 H3 H4 H5] Hm. destruct H3 as [[_ Hl]|]; [|congruence]. unfold init_poll, gets. rewrite (bind_eq _ _ _ _ _ eq_refl), Hm. eexists. split; [reflexivity|]. split; [|done].
  split; cbn [txq buffer mode log with_mode with_txq]; [by rewrite H1|done|by right|..]; rewrite Hl in *; [done|]. by rewrite <- H5.
Qed.
Lemma poll_send n early s b : (forall u, ready n u = true) -> polling early s -> mode s = POLL -> exists s', putc_poll read_reg n b s = Ok (tt, s') /\ polling (early ++ [b]) s'.
Proof.
  intros Hr [H1 H2 H3 H4 H5] Hm. destruct (putc_poll_log n s b Hr) as (u & l & E & (L1 & L2 & _) & Hf). eexists. split; [exact E|].
  split; cbn [txq buffer mode log]; [done|done|by right|..]; rewrite view_snoc; cbn [see]; change (THR_REG =? LCR_REG) with false; change (THR_REG =? THR_REG) with true; rewrite L1, H4; cbn; [done|by rewrite Hf, L2, H5].
Qed.
Lemma poll_put_run n early s b : (forall u, ready n u = true) -> polling early s -> exists s', serial_putc read_reg n None true b s = Ok (tt, s') /\ polling (early ++ [b]) s'.
Proof.
  intros Hr Hp. unfold serial_putc, gets. rewrite (bind_eq _ _ _ _ _ eq_refl). destruct (decide (mode s = UNINIT)) as [Hm|Hm].
  - rewrite Hm. destruct (init_poll_run early s Hp Hm) as (s1 & E1 & Hp1 & Hm1). rewrite (bool_decide_false (UNINIT = QUEUE)), (bool_decide_true (UNINIT = UNINIT)) by done. cbn [negb]. rewrite (bind_eq _ _ _ _ _ E1). by apply poll_send.
  - destruct (po_mode _ _ Hp) as [[]|Hm']; [done|]. rewrite Hm'. rewrite (bool_decide_false (POLL = QUEUE)), (bool_decide_false (POLL = UNINIT)) by done. cbn [negb]. rewrite (bind_eq _ _ _ _ _ eq_refl). by apply poll_send.
Qed.
Lemma puts_run n : (forall u, ready n u = true) -> forall l early s, polling early s -> exists s', puts n l s = Ok (tt, s') /\ polling (early ++ l) s'.
Proof.
  intros Hr. induction l as [|b l IH]; intros early s Hp; cbn [puts]; [exists s; by rewrite app_nil_r|]. destruct (poll_put_run n early s b Hr Hp) as (s1 & E & Hp1). rewrite (bind_eq _ _ _ _ _ E).
  destruct (IH _ _ Hp1) as (s2 & E2 & Hp2). exists s2. split; [done|]. by rewrite <- app_assoc in Hp2.
Qed.
Lemma to_queue early s : polling early s -> mode s = POLL -> in_order early (with_mode QUEUE s).
Proof. intros [H1 H2 H3 H4 H5] Hm. unfold in_order. cbn [txq with_mode]. rewrite H1. split; cbn [txq buffer mode log with_mode]; [rewrite H1; apply start_inv|rewrite H1; by intros ? ? ? ?|rewrite H2; apply start_inv|done|done|]. by rewrite app_nil_r. Qed.
Lemma init_queue_run early s : polling early s -> exists s', serial_init_queue s = Ok (tt, s') /\ good early s'.
Proof.
  intros Hp. assert (exists s1, (if bool_decide (mode s = UNINIT) then init_poll else ret tt) s = Ok (tt, s1) /\ polling early s1 /\ mode s1 = POLL) as (s1 & E1 & Hp1 & Hm1).
  { destruct (bool_decide_reflect (mode s = UNINIT)) as [Hm|Hm]; [by apply init_poll_run|]. exists s. destruct (po_mode _ _ Hp) as [[]|]; done. }
  unfold serial_init_queue, gets. rewrite (bind_eq _ _ _ _ _ eq_refl), (bind_eq _ _ _ _ _ E1), (bind_eq _ _ _ _ _ eq_refl), Hm1. rewrite bool_decide_true by done.
  do 2 rewrite (bind_eq _ _ _ _ _ eq_refl). destruct (write_ier_run early _ (to_queue early s1 Hp1 Hm1)) as (s2 & E2 & Hg & _). by exists s2.
Qed.

(** C14: The serial port transmits every byte, in order, and no assertion fails, with one thread
    that writes to the port and one that reads keys: for a UART that becomes ready in the end,
    whatever is written in polling mode during boot, and whatever happens after
    [serial_init_queue] (writes by the thread with interrupts on or off and by interrupt
    handlers, the two threads waiting and going on, keys, interrupts of the port), the UART has
    transmitted the bytes of polling mode and then those that left the transmit queue, which are
    the first of those put into it: each was written when the line status had shown an empty
    holding register since the byte before; and its interrupts are enabled for transmission
    exactly while the queue has a byte, and for reception exactly while the input buffer has
    room. *)
Theorem serial_in_order n early l u : (forall u, ready n u = true) ->
  exists s, (do! puts n early; do! serial_init_queue; run read_reg n w r l) (boot u) = Ok (tt, s) /\
    sent (uart_view (log s)) = early ++ came_out (txq s) /\ came_in (txq s) = came_out (txq s) ++ contents (queue (txq s)) /\
    came_in (buffer s) = came_out (buffer s) ++ contents (queue (buffer s)) /\
    ier (uart_view (log s)) = (if intq_empty (queue (txq s)) then 0 else IER_XMIT) + (if intq_full (queue (buffer s)) then 0 else IER_RECV).
Proof.
  intros Hr. destruct (puts_run n Hr early [] (boot u)) as (s1 & E1 & Hp1); [split; cbn; try done; by left|]. destruct (init_queue_run early s1 Hp1) as (s2 & E2 & Hg2).
  destruct (serial_run n early l Hr s2 Hg2) as (s3 & E3 & [Ho Hier]). exists s3. rewrite (bind_eq _ _ _ _ _ E1), (bind_eq _ _ _ _ _ E2). split; [exact E3|].
  destruct Ho as [H1 _ H3 _ _ H6]. split; [done|]. split; [apply (inv_fifo _ _ H1)|]. split; [apply (inv_fifo _ _ H3)|done].
Qed.

(** [serial_flush] empties the queue. *)
Lemma flush_loop_run n early k : (forall u, ready n u = true) -> forall s, in_order early s -> cnt (queue (txq s)) <= Z.of_nat k ->
  exists s', flush_loop read_reg k n s = Ok (tt, s') /\ in_order early s' /\ intq_empty (queue (txq s')) = true.
Proof.
  intros Hr. induction k as [|k IH]; intros s Ho Hk; cbn [flush_loop]; unfold txq_empty at 1, gets; rewrite (bind_eq _ _ _ _ _ eq_refl);
    pose proof (empty_cnt _ (inv_wf _ _ (so_txq _ _ Ho))) as Ee; pose proof (cnt_range (queue (txq s))) as Hc; destruct (intq_empty (queue (txq s))) eqn:He; cbn [negb]; try by exists s.
  - symmetry in Ee. apply Z.eqb_neq in Ee. lia.
  - destruct (poll_one_run n early s Hr Ho He) as (s1 & E1 & Ho1 & _ & Ec & _). apply bind_Ok in E1 as (b & s2 & E2 & E1). rewrite (bind_eq _ _ _ _ _ E2), (bind_eq _ _ _ _ _ E1). apply IH; [done|lia].
Qed.
Lemma serial_flush_run n early s : (forall u, ready n u = true) -> good early s ->
  exists s', serial_flush read_reg n s = Ok (tt, s') /\ sent (uart_view (log s')) = early ++ came_in (txq s').
Proof.
  intros Hr [Ho _]. destruct (flush_loop_run n early 63 Hr s Ho) as (s' & E & Ho' & He); [pose proof (cnt_range (queue (txq s))); lia|]. exists s'. split; [exact E|].
  rewrite (so_sent _ _ Ho'), (inv_fifo _ _ (so_txq _ _ Ho')). assert (contents (queue (txq s')) = []) as ->; [|by rewrite app_nil_r].
  rewrite empty_cnt in He by apply (inv_wf _ _ (so_txq _ _ Ho')). apply Z.eqb_eq in He. unfold contents. by rewrite He.
Qed.
End port.

(** A UART that is ready every other time and never receives. *)
Definition sample_reg (reg : Z) (u : bool) : Z * bool := if reg =? LSR_REG then (if u then LSR_THRE else 0, negb u) else (0, u).
Lemma sample_ready u : ready sample_reg 2 u = true.
Proof. by destruct u. Qed.
Lemma serial_in_order_witness : exists s, (do! puts sample_reg 2 [72; 105]; do! serial_init_queue; run sample_reg 2 1 2 [Put false 33; HandlerPut 34; Interrupt; Key 65; Read]) (boot false) = Ok (tt, s) /\
  sent (uart_view (log s)) = [72; 105] ++ came_out (txq s).
Proof. destruct (serial_in_order sample_reg 1 2 2 [72; 105] [Put false 33; HandlerPut 34; Interrupt; Key 65; Read] false sample_ready) as (s & E & Es & _). exists s. split; [exact E|exact Es]. Defined.

End SerialProps.
