(* ===== verification/Vga.v ===== *)
(** * devices/vga.c: the text screen

    The frame buffer is a list of rows of characters with their attributes.  The registers of
    the display controller that hold the cursor are reached through an interface: selecting a
    register, writing it and reading it back.  The beep of the speaker is left out. *)

From S2P Require Import Prelude.
From S2P Require Import Descriptor.
Module Vga.

Definition COL_CNT : Z := 80.
Definition ROW_CNT : Z := 25.
Definition GRAY_ON_BLACK : Z := 7.

(** The registers behind the ports 0x3d4 and 0x3d5. *)
Class CrtcOps (D : Type) := { crtc_select : Z -> D -> D; crtc_write : Z -> D -> D; crtc_read : D -> Z }.
Class CrtcLaws (D : Type) `{CrtcOps D} := {
  crtc_same i v d : 0 <= v < 256 -> crtc_read (crtc_select i (crtc_write v (crtc_select i d))) = v;
  crtc_other i j v d : i <> j -> crtc_read (crtc_select i (crtc_write v (crtc_select j d))) = crtc_read (crtc_select i d);
  crtc_select_twice i j d : crtc_read (crtc_select i (crtc_select j d)) = crtc_read (crtc_select i d) }.

Abbreviation row := (list (Z * Z)).

Section vga.
Context {D : Type} `{CrtcOps D}.

Record vga := { fb : list row; cx : Z; cy : Z; crtc : D; inited : bool }.
Definition with_fb (f : list row) (v : vga) : vga := {| fb := f; cx := cx v; cy := cy v; crtc := crtc v; inited := inited v |}.
Definition with_cursor (x y : Z) (v : vga) : vga := {| fb := fb v; cx := x; cy := y; crtc := crtc v; inited := inited v |}.
Definition with_crtc (d : D) (v : vga) : vga := {| fb := fb v; cx := cx v; cy := cy v; crtc := d; inited := inited v |}.

(** A 16-bit write selects a register with its lower byte and writes it with the upper one. *)
Definition outw (x : Z) : M vga unit := modify (fun v => with_crtc (crtc_write (Z.shiftr x 8) (crtc_select (Z.land x 255) (crtc v))) v).
Definition move_cursor : M vga unit :=
  let! v := get in
  let cp := wrapu 16 (cx v + COL_CNT * cy v) in
  do! outw (Z.lor 14 (Z.land cp 65280));
  outw (wrapu 16 (Z.lor 15 (Z.shiftl cp 8))).
Definition inb (index : Z) : M vga Z := fun v =>
  let d := crtc_select index (crtc v) in Ok (crtc_read d, with_crtc d v).
Definition find_cursor : M vga (Z * Z) :=
  let! hi := inb 14 in
  let cp := wrapu 16 (Z.shiftl hi 8) in
  let! lo := inb 15 in
  let cp := Z.lor cp lo in
  ret (Z.rem cp COL_CNT, Z.quot cp COL_CNT).
Definition init : M vga unit :=
  let! i := gets inited in
  if negb i then
    let! p := find_cursor in
    modify (fun v => {| fb := fb v; cx := fst p; cy := snd p; crtc := crtc v; inited := true |})
  else ret tt.

(** A row, and a place in it, must exist. *)
Definition set_cell (y x : Z) (c : Z * Z) : M vga unit :=
  let! v := get in
  match fb v !! Z.to_nat y with
  | Some r => if (0 <=? x) && (x <? COL_CNT) then put (with_fb (<[Z.to_nat y := <[Z.to_nat x := c]> r]> (fb v)) v) else fail WildAccess
  | None => fail WildAccess
  end.
Fixpoint clear_loop (n : nat) (y x : Z) : M vga unit :=
  match n with O => ret tt | S n => do! set_cell y x (32, GRAY_ON_BLACK); clear_loop n y (x + 1) end.
Definition clear_row (y : Z) : M vga unit := clear_loop (Z.to_nat COL_CNT) y 0.
Fixpoint cls_loop (n : nat) (y : Z) : M vga unit :=
  match n with O => ret tt | S n => do! clear_row y; cls_loop n (y + 1) end.
Definition cls : M vga unit :=
  do! cls_loop (Z.to_nat ROW_CNT) 0;
  do! modify (with_cursor 0 0);
  move_cursor.
(** [memmove] of the rows from the second on to the place of the first. *)
Definition scroll (f : list row) : list row := drop 1 f ++ drop (length f - 1) f.
Definition newline : M vga unit :=
  do! modify (fun v => with_cursor 0 (cy v + 1) v);
  let! v := get in
  if cy v >=? ROW_CNT then
    do! modify (with_cursor (cx v) (ROW_CNT - 1));
    do! modify (fun v => with_fb (scroll (fb v)) v);
    clear_row (ROW_CNT - 1)
  else ret tt.

Definition vga_putc (c : Z) : M vga unit :=
  do! init;
  let! v := get in
  do! (if c =? 10 then newline
       else if c =? 12 then cls
       else if c =? 8 then (if cx v >? 0 then modify (with_cursor (cx v - 1) (cy v)) else ret tt)
       else if c =? 13 then modify (with_cursor 0 (cy v))
       else if c =? 9 then
         let x := Z.quot (cx v + 1 + 8 - 1) 8 * 8 in
         do! modify (with_cursor x (cy v));
         if x >=? COL_CNT then newline else ret tt
       else if c =? 7 then ret tt
       else
         do! set_cell (cy v) (cx v) (u8 c, GRAY_ON_BLACK);
         do! modify (with_cursor (cx v + 1) (cy v));
         if cx v + 1 >=? COL_CNT then newline else ret tt);
  move_cursor.
Fixpoint vga_puts (s : list Z) : M vga unit :=
  match s with [] => ret tt | c :: s => do! vga_putc c; vga_puts s end.

End vga.
Arguments vga : clear implicits.

(** ** An endless roll of paper *)

(** The screen is a window on the last 25 rows of a roll of paper that only grows. *)
Record paper := { rows : list row; px : Z; py : Z }.
Definition blank : row := replicate (Z.to_nat COL_CNT) (32, GRAY_ON_BLACK).
Definition feed (p : paper) : paper :=
  {| rows := if py p + 1 <? Z.of_nat (length (rows p)) then rows p else rows p ++ [blank]; px := 0; py := py p + 1 |}.
Definition paper_putc (c : Z) (p : paper) : paper :=
  if c =? 10 then feed p
  else if c =? 12 then {| rows := rows p ++ replicate (Z.to_nat ROW_CNT) blank; px := 0; py := Z.of_nat (length (rows p)) |}
  else if c =? 8 then {| rows := rows p; px := Z.max 0 (px p - 1); py := py p |}
  else if c =? 13 then {| rows := rows p; px := 0; py := py p |}
  else if c =? 9 then
    let x := 8 * (px p / 8 + 1) in
    if x <? COL_CNT then {| rows := rows p; px := x; py := py p |} else feed p
  else if c =? 7 then p
  else
    let p' := {| rows := alter (<[Z.to_nat (px p) := (u8 c, GRAY_ON_BLACK)]>) (Z.to_nat (py p)) (rows p); px := px p + 1; py := py p |} in
    if px p + 1 <? COL_CNT then p' else feed p'.

End Vga.

(** * The text screen is a window on an endless roll of paper *)

Module VgaProps.
Import Descriptor (lor_high, land_field).
Import Vga.

Section vga.
Context {D : Type} `{CrtcLaws D}.
Abbreviation vga := (vga D).

(** ** The cursor *)

Definition cursor_set (v : vga) : Prop :=
  crtc_read (crtc_select 14 (crtc v)) = (cx v + 80 * cy v) / 256 /\ crtc_read (crtc_select 15 (crtc v)) = (cx v + 80 * cy v) mod 256.
Lemma move_cursor_run (v : vga) : 0 <= cx v < 80 -> 0 <= cy v < 25 -> exists d, move_cursor v = Ok (tt, with_crtc d v) /\ cursor_set (with_crtc d v).
Proof.
  intros Hx Hy. unfold move_cursor, get. rewrite (bind_eq _ _ _ _ _ eq_refl). unfold COL_CNT. rewrite (wrapu_small 16) by lia. set (cp := cx v + 80 * cy v).
  assert (0 <= cp < 2000) as Hcp by lia.
  pose proof (Z.div_mod cp 256 ltac:(lia)) as Ed. pose proof (Z.mod_pos_bound cp 256 ltac:(lia)) as Hm. assert (0 <= cp / 256 < 256) as Hd by (split; [apply Z.div_pos|apply Z.div_lt_upper_bound]; lia).
  assert (Z.lor 14 (Z.land cp 65280) = 14 + 2 ^ 8 * (cp / 256)) as ->.
  { change 65280 with (Z.shiftl (Z.ones 8) 8). rewrite land_field by lia. change (2 ^ 8) with 256. rewrite (Z.mod_small (cp / 256)) by lia. apply lor_high; lia. }
  assert (wrapu 16 (Z.lor 15 (Z.shiftl cp 8)) = 15 + 2 ^ 8 * (cp mod 256)) as ->.
  { rewrite lor_high by lia. unfold wrapu. symmetry. apply (Z.mod_unique_pos _ _ (cp / 256)); lia. }
  assert (forall i x, 0 <= i < 256 -> Z.land (i + 2 ^ 8 * x) 255 = i /\ Z.shiftr (i + 2 ^ 8 * x) 8 = x) as Hsplit.
  { intros i x Hi. change 255 with (Z.ones 8). rewrite Z.land_ones, Z.shiftr_div_pow2 by lia. rewrite (Z.mul_comm (2 ^ 8)), Z.mod_add, Z.div_add by lia. rewrite Z.mod_small, Z.div_small by lia. done. }
  unfold outw, modify. destruct (Hsplit 14 (cp / 256)) as [-> ->]; [lia|]. destruct (Hsplit 15 (cp mod 256)) as [-> ->]; [lia|].
  eexists. split; [reflexivity|]. split; cbn; fold cp.
  - rewrite crtc_other by done. by apply crtc_same.
  - by apply crtc_same.
Qed.
Lemma find_cursor_run (v : vga) : 0 <= cx v < 80 -> 0 <= cy v < 25 -> cursor_set v -> exists d, find_cursor v = Ok ((cx v, cy v), with_crtc d v).
Proof.
  intros Hx Hy [Hhi Hlo]. unfold find_cursor, inb. rewrite (bind_eq _ _ _ _ _ eq_refl). cbn [crtc with_crtc]. rewrite Hhi. set (cp := cx v + 80 * cy v) in *.
  assert (0 <= cp < 2000) as Hcp by lia. pose proof (Z.div_mod cp 256 ltac:(lia)). pose proof (Z.mod_pos_bound cp 256 ltac:(lia)).
  rewrite (bind_eq _ _ _ _ _ eq_refl). cbn [crtc with_crtc]. rewrite crtc_select_twice, Hlo. eexists. unfold ret. do 2 f_equal.
  rewrite (wrapu_small 16) by (rewrite Z.shiftl_mul_pow2 by lia; split; [|change (2 ^ 16) with (256 * 2 ^ 8); apply Z.mul_lt_mono_pos_r; [lia|apply Z.div_lt_upper_bound; lia]]; apply Z.mul_nonneg_nonneg; [apply Z.div_pos|]; lia).
  rewrite Z.lor_comm, lor_high by lia. replace (cp mod 256 + 2 ^ 8 * (cp / 256)) with cp by lia. unfold COL_CNT. rewrite Z.rem_mod_nonneg, Z.quot_div_nonneg by lia.
  f_equal; symmetry; [apply (Z.mod_unique_pos _ _ (cy v))|apply (Z.div_unique_pos _ _ _ (cx v))]; lia.
Qed.

(** ** Rows *)

Lemma clear_loop_run n : forall y x (v : vga) r, fb v !! Z.to_nat y = Some r -> length r = 80%nat -> 0 <= x -> x + Z.of_nat n = 80 ->
  clear_loop n y x v = Ok (tt, with_fb (<[Z.to_nat y := take (Z.to_nat x) r ++ replicate n (32, GRAY_ON_BLACK)]> (fb v)) v).
Proof.
  induction n as [|n IH]; intros y x v r Hr Hl Hx Hn; cbn [clear_loop].
  - rewrite take_ge, app_nil_r, list_insert_id by (done || lia). by destruct v.
  - unfold set_cell, get, put. erewrite bind_eq; [|rewrite (bind_eq _ _ _ _ _ eq_refl), Hr; unfold COL_CNT; rewrite (proj2 (Z.leb_le 0 x)), (proj2 (Z.ltb_lt x 80)) by lia; reflexivity].
    rewrite (IH y (x + 1) _ (<[Z.to_nat x := (32, GRAY_ON_BLACK)]> r)); [|apply list_lookup_insert_eq; by eapply lookup_lt_Some|by rewrite length_insert|lia|lia].
    cbn [fb with_fb]. rewrite list_insert_insert_eq. unfold with_fb. cbn. do 4 f_equal. replace (Z.to_nat (x + 1)) with (S (Z.to_nat x)) by lia.
    rewrite (take_S_r _ _ (32, GRAY_ON_BLACK)) by (apply list_lookup_insert_eq; lia). rewrite take_insert_ge by lia. by rewrite <- app_assoc.
Qed.
Lemma clear_row_run y (v : vga) r : fb v !! Z.to_nat y = Some r -> length r = 80%nat -> clear_row y v = Ok (tt, with_fb (<[Z.to_nat y := blank]> (fb v)) v).
Proof. intros Hr Hl. unfold clear_row. rewrite (clear_loop_run (Z.to_nat COL_CNT) y 0 v r) by done. done. Qed.
Lemma cls_loop_run n : forall y (v : vga), Forall (fun r => length r = 80%nat) (fb v) -> 0 <= y -> y + Z.of_nat n = Z.of_nat (length (fb v)) ->
  cls_loop n y v = Ok (tt, with_fb (take (Z.to_nat y) (fb v) ++ replicate n blank) v).
Proof.
  induction n as [|n IH]; intros y v Hf Hy Hn; cbn [cls_loop].
  - rewrite take_ge, app_nil_r by lia. by destruct v.
  - destruct (lookup_lt_is_Some_2 (fb v) (Z.to_nat y)) as [r Hr]; [lia|]. erewrite bind_eq; [|apply (clear_row_run y v r Hr); exact (Forall_lookup_1 _ _ _ _ Hf Hr)].
    rewrite IH; cbn [fb with_fb]; [|apply Forall_insert; done|lia|rewrite length_insert; lia]. unfold with_fb. cbn. do 3 f_equal.
    replace (Z.to_nat (y + 1)) with (S (Z.to_nat y)) by lia. rewrite (take_S_r _ _ blank) by (apply list_lookup_insert_eq; lia). rewrite take_insert_ge by lia. by rewrite <- app_assoc.
Qed.

(** ** The window *)

(** [v] shows the last 25 rows of [p]; the cursor may be behind the end of its row. *)
Record window (p : paper) (v : vga) : Prop := {
  win_len : (25 <= length (rows p))%nat;
  win_rows : Forall (fun r => length r = 80%nat) (rows p);
  win_fb : fb v = drop (length (rows p) - 25) (rows p);
  win_x : cx v = px p; win_y : cy v = py p - (Z.of_nat (length (rows p)) - 25);
  win_py : Z.of_nat (length (rows p)) - 25 <= py p < Z.of_nat (length (rows p));
  win_inited : inited v = true }.
Definition shows (p : paper) (v : vga) : Prop := window p v /\ 0 <= px p < 80.

Lemma window_fb p v : window p v -> length (fb v) = 25%nat /\ Forall (fun r => length r = 80%nat) (fb v).
Proof.
  intros [Hl Hr Hf _ _ _ _]. rewrite Hf. split; [rewrite length_drop; lia|by apply Forall_drop].
Qed.
Lemma newline_run p v : window p v -> exists v', newline v = Ok (tt, v') /\ shows (feed p) v'.
Proof.
  intros Hw. destruct (window_fb p v Hw) as [Hfl Hfr]. destruct Hw as [Hl Hr Hf Hx Hy Hp Hi]. unfold newline, modify, get. do 2 rewrite (bind_eq _ _ _ _ _ eq_refl). unfold ROW_CNT. cbn [cy with_cursor].
  rewrite Hy. destruct (Z.geb_spec (py p - (Z.of_nat (length (rows p)) - 25) + 1) 25) as [Hlast|Hin].
  - do 2 rewrite (bind_eq _ _ _ _ _ eq_refl). assert (feed p = {| rows := rows p ++ [blank]; px := 0; py := py p + 1 |}) as ->.
    { unfold feed. by rewrite (proj2 (Z.ltb_ge _ _)) by lia. }
    destruct (lookup_lt_is_Some_2 (scroll (fb v)) (Z.to_nat (25 - 1))) as [r Er]; [unfold scroll; rewrite length_app, !length_drop; lia|].
    erewrite clear_row_run; [|exact Er|]; cycle 1.
    { refine (Forall_lookup_1 (fun r => length r = 80%nat) (scroll (fb v)) _ _ _ Er). apply Forall_app. split; by apply Forall_drop. }
    eexists. split; [reflexivity|]. split; [|cbn; lia]. split; cbn [rows px py fb cx cy inited with_fb with_cursor].
    + rewrite length_app. cbn [length]. lia.
    + apply Forall_app. split; [done|]. by repeat constructor.
    + rewrite length_app. cbn [length]. replace (length (rows p) + 1 - 25)%nat with (1 + (length (rows p) - 25))%nat by lia. rewrite drop_app_le by lia. unfold scroll.
      change (Z.to_nat (25 - 1)) with 24%nat. rewrite insert_app_r_alt by (rewrite length_drop; lia). rewrite length_drop, Hfl. change (24 - (25 - 1))%nat with 0%nat.
      rewrite Nat.add_comm, <- drop_drop, <- Hf. f_equal. assert (length (drop 24 (fb v)) = 1%nat) as E1 by (rewrite length_drop; lia).
      change (25 - 1)%nat with 24%nat. destruct (drop 24 (fb v)) as [|a [|b l]]; cbn in E1; try lia. done.
    + done.
    + rewrite length_app. cbn [length]. lia.
    + rewrite length_app. cbn [length]. lia.
    + done.
  - eexists. split; [reflexivity|]. split; [|cbn; lia]. unfold feed. rewrite (proj2 (Z.ltb_lt _ _)) by lia. split; cbn [rows px py fb cx cy inited with_cursor]; (done || lia).
Qed.
Lemma drop_alter {A} (f : A -> A) (k i : nat) (l : list A) : drop k (alter f (k + i)%nat l) = alter f i (drop k l).
Proof. revert l. induction k as [|k IH]; intros [|x l]; cbn; [done..|apply IH]. Qed.
Lemma alter_insert {A} (f : A -> A) (l : list A) : forall (i : nat) x, l !! i = Some x -> <[i := f x]> l = alter f i l.
Proof. induction l as [|y l IH]; intros [|i] x E; cbn in *; [done|done|by injection E as ->|]. f_equal. by apply IH. Qed.

(** A character at the cursor. *)
Lemma set_cell_run p v c : shows p v -> exists v', set_cell (cy v) (cx v) c v = Ok (tt, v') /\
  window {| rows := alter (<[Z.to_nat (px p) := c]>) (Z.to_nat (py p)) (rows p); px := px p; py := py p |} v'.
Proof.
  intros [Hw Hpx]. destruct (window_fb p v Hw) as [Hfl Hfr]. destruct Hw as [Hl Hr Hf Hx Hy Hp Hi]. unfold set_cell, get, put. rewrite (bind_eq _ _ _ _ _ eq_refl).
  destruct (lookup_lt_is_Some_2 (fb v) (Z.to_nat (cy v))) as [r Er]; [lia|]. rewrite Er. unfold COL_CNT. rewrite (proj2 (Z.leb_le 0 (cx v))), (proj2 (Z.ltb_lt (cx v) 80)) by lia. cbn [andb].
  eexists. split; [reflexivity|]. split; cbn [rows px py fb cx cy inited with_fb]; rewrite ?length_alter; try done.
  - apply Forall_alter; [done|]. intros x Hx' Hlx. by rewrite length_insert.
  - replace (Z.to_nat (py p)) with (length (rows p) - 25 + Z.to_nat (cy v))%nat by lia. rewrite drop_alter, <- Hf, Hx. by rewrite (alter_insert _ _ _ _ Er).
Qed.

(** ** The first character *)

(** The registers are bytes. *)
Definition byte_regs (d : D) : Prop := 0 <= crtc_read (crtc_select 14 d) < 256 /\ 0 <= crtc_read (crtc_select 15 d) < 256.
(** The cursor of the controller. *)
Definition cursor_of (d : D) : Z := 256 * crtc_read (crtc_select 14 d) + crtc_read (crtc_select 15 d).
(** The screen as it is after [init], which takes over that cursor. *)
Definition started (v : vga) : vga :=
  if inited v then v
  else {| fb := fb v; cx := cursor_of (crtc v) mod 80; cy := cursor_of (crtc v) / 80; crtc := crtc v; inited := true |}.
(** The screen shows [p] from its next character on. *)
Definition shown (p : paper) (v : vga) : Prop :=
  shows p (started v) /\ (inited v = false -> byte_regs (crtc v)).

Lemma init_run v : (inited v = false -> byte_regs (crtc v)) ->
  exists d, init v = Ok (tt, with_crtc d (started v)).
Proof.
  intros Hb. unfold init, gets. rewrite (bind_eq _ _ _ _ _ eq_refl). unfold started. destruct (inited v) eqn:Ei; cbn [negb].
  { exists (crtc v). destruct v; cbn in *; by subst. }
  destruct (Hb eq_refl) as [Hhi Hlo]. eexists. unfold find_cursor, inb. rewrite (bind_eq _ _ _ _ _ eq_refl). cbn [crtc with_crtc]. rewrite crtc_select_twice.
  assert (Z.lor (wrapu 16 (Z.shiftl (crtc_read (crtc_select 14 (crtc v))) 8)) (crtc_read (crtc_select 15 (crtc v))) = cursor_of (crtc v)) as ->.
  { unfold cursor_of. rewrite wrapu_small by (rewrite Z.shiftl_mul_pow2 by lia; lia). rewrite Z.lor_comm, lor_high by lia. lia. }
  unfold COL_CNT, cursor_of. rewrite Z.rem_mod_nonneg, Z.quot_div_nonneg by lia. reflexivity.
Qed.
Lemma putc_shown c p v : shown p v -> exists v', vga_putc c v = Ok (tt, v') /\ shows (paper_putc c p) v' /\ cursor_set v'.
Proof.
  intros [Hs0 Hb0]. unfold vga_putc. destruct (init_run v Hb0) as [d0 E0]. rewrite (bind_eq _ _ _ _ _ E0).
  set (v0 := with_crtc d0 (started v)). assert (shows p v0) as Hs by (destruct Hs0 as [[] ?]; by split; [split|]).
  clearbody v0. clear E0 Hs0 Hb0 v d0. rename v0 into v. pose proof Hs as [Hw Hpx].
  unfold get. rewrite (bind_eq _ _ _ _ _ eq_refl).
  match goal with |- exists v', bind ?c0 _ v = _ /\ _ => enough (exists v1, c0 v = Ok (tt, v1) /\ shows (paper_putc c p) v1) as (v1 & E1 & S1) end.
  { rewrite (bind_eq _ _ _ _ _ E1). pose proof S1 as [W1 P1]. pose proof (win_x _ _ W1). pose proof (win_y _ _ W1). pose proof (win_py _ _ W1). destruct (move_cursor_run v1) as (d & E & C); [lia|lia|].
    exists (with_crtc d v1). split; [exact E|]. split; [|done]. split; [|done]. destruct W1. by split. }
  pose proof (win_x _ _ Hw) as Hx. unfold paper_putc. destruct (c =? 10); [by apply newline_run|]. destruct (c =? 12).
  { destruct (window_fb p v Hw) as [Hfl Hfr]. unfold cls. erewrite bind_eq; [|apply cls_loop_run; [done|lia|rewrite Hfl; reflexivity]]. unfold modify. rewrite (bind_eq _ _ _ _ _ eq_refl).
    destruct (move_cursor_run (with_cursor 0 0 (with_fb (take (Z.to_nat 0) (fb v) ++ replicate (Z.to_nat ROW_CNT) blank) v))) as (d & E & _); [cbn; lia|cbn; lia|].
    rewrite E. eexists. split; [reflexivity|]. change (Z.to_nat ROW_CNT) with 25%nat. split; [|cbn; lia].
    split; cbn [rows px py fb cx cy inited with_fb with_cursor with_crtc]; rewrite ?length_app, ?length_replicate; try lia; [|by rewrite Nat.add_sub, drop_app_length|apply Hw].
    apply Forall_app. split; [apply Hw|]. by apply Forall_replicate. }
  destruct (c =? 8).
  { destruct (Z.gtb_spec (cx v) 0).
    - eexists. split; [reflexivity|]. split; [|cbn; lia]. destruct Hw. split; cbn; try done; lia.
    - exists v. split; [done|]. split; [|cbn; lia]. destruct Hw. split; cbn; try done; lia. }
  destruct (c =? 13); [eexists; split; [reflexivity|]; split; [destruct Hw; by split|cbn; lia]|].
  destruct (c =? 9).
  { assert (Z.quot (cx v + 1 + 8 - 1) 8 * 8 = 8 * (px p / 8 + 1)) as ->.
    { rewrite Hx, Z.quot_div_nonneg by lia. replace (px p + 1 + 8 - 1) with (px p + 1 * 8) by lia. rewrite Z.div_add by lia. lia. }
    cbv zeta. unfold modify. rewrite (bind_eq _ _ _ _ _ eq_refl). unfold COL_CNT. pose proof (Z.div_pos (px p) 8 ltac:(lia) ltac:(lia)).
    destruct (Z.geb_spec (8 * (px p / 8 + 1)) 80), (Z.ltb_spec (8 * (px p / 8 + 1)) 80); try lia.
    - assert (feed p = feed {| rows := rows p; px := 8 * (px p / 8 + 1); py := py p |}) as -> by done. apply newline_run. destruct Hw. by split.
    - eexists. split; [reflexivity|]. split; [destruct Hw; by split|cbn; lia]. }
  destruct (c =? 7); [by exists v|].
  destruct (set_cell_run p v (u8 c, GRAY_ON_BLACK) Hs) as (v1 & E1 & W1). rewrite (bind_eq _ _ _ _ _ E1). unfold modify. rewrite (bind_eq _ _ _ _ _ eq_refl). unfold COL_CNT. rewrite Hx.
  assert (window {| rows := alter (<[Z.to_nat (px p) := (u8 c, GRAY_ON_BLACK)]>) (Z.to_nat (py p)) (rows p); px := px p + 1; py := py p |} (with_cursor (px p + 1) (cy v) v1)) as W2.
  { pose proof (win_y _ _ Hw). destruct W1 as [L1 R1 F1 X1 Y1 P1 I1]. split; cbn in *; try done. rewrite length_alter. done. }
  destruct (Z.geb_spec (px p + 1) 80), (Z.ltb_spec (px p + 1) 80); try lia; [by apply newline_run|]. eexists. split; [reflexivity|]. split; [exact W2|cbn; lia].
Qed.

(** C33: Whatever is written to the screen, from the first character on, it goes on as on an
    endless roll of paper of which it shows the last 25 rows, provided that the cursor of the
    display controller is on the screen when the first character is written: lines are fed at
    the end of a row and at a line feed, tabs stop at every eighth column, and every access to
    the frame buffer is inside it.  Afterwards the cursor registers of the display controller
    give the place of the next character. *)
Theorem vga_refines_paper s : forall p v, shown p v -> exists v', vga_puts s v = Ok (tt, v') /\ shown (foldl (fun p c => paper_putc c p) p s) v' /\
  (s <> [] -> inited v' = true /\ exists d, find_cursor v' = Ok ((cx v', cy v'), with_crtc d v')).
Proof.
  induction s as [|c s IH]; intros p v Hs; cbn [vga_puts foldl]; [by exists v|]. destruct (putc_shown c p v Hs) as (v1 & E1 & S1 & C1). rewrite (bind_eq _ _ _ _ _ E1).
  pose proof S1 as [W1 P1]. pose proof (win_x _ _ W1). pose proof (win_y _ _ W1). pose proof (win_py _ _ W1).
  assert (shown (paper_putc c p) v1) as Hs1 by (unfold shown, started; by rewrite (win_inited _ _ W1)).
  destruct (IH (paper_putc c p) v1 Hs1) as (v' & E & S' & C'). exists v'. split; [exact E|]. split; [done|]. intros _. destruct s as [|c' s]; [|by apply C'].
  injection E as <-. split; [apply (win_inited _ _ W1)|]. apply find_cursor_run; [lia|lia|done].
Qed.

(** [init] does not look whether the cursor of the controller is on the screen: when it is not,
    the first character is written behind the frame buffer. *)
Theorem vga_cursor_unchecked v c : inited v = false -> length (fb v) = 25%nat ->
  byte_regs (crtc v) -> 2000 <= cursor_of (crtc v) ->
  c ∉ [7; 8; 9; 10; 12; 13] -> vga_putc c v = Err WildAccess.
Proof.
  intros Hi Hl Hb Hc Hk. unfold vga_putc. destruct (init_run v (fun _ => Hb)) as [d E]. rewrite (bind_eq _ _ _ _ _ E). unfold get. rewrite (bind_eq _ _ _ _ _ eq_refl).
  rewrite !not_elem_of_cons in Hk. destruct Hk as (K7 & K8 & K9 & K10 & K12 & K13 & _).
  rewrite !(proj2 (Z.eqb_neq c _)) by done. apply bind_err, bind_err. unfold set_cell, get. rewrite (bind_eq _ _ _ _ _ eq_refl).
  unfold started. rewrite Hi. cbn [fb cy with_crtc]. rewrite lookup_ge_None_2; [done|].
  assert (25 <= cursor_of (crtc v) / 80) by (apply Z.div_le_lower_bound; lia). lia.
Qed.
End vga.

(** ** A controller *)

#[export] Instance sample_crtc : CrtcOps (Z * (Z -> Z)) :=
  {| crtc_select i d := (i, snd d); crtc_write v d := (fst d, fun j => if j =? fst d then v else snd d j); crtc_read d := snd d (fst d) |}.
#[export] Instance sample_crtc_laws : CrtcLaws (Z * (Z -> Z)).
Proof.
  split; [intros i v d _; cbn; by rewrite Z.eqb_refl|intros i j v d Hne; cbn; by rewrite (proj2 (Z.eqb_neq i j))|done].
Qed.
(** A screen that nothing has been written to, with the cursor in the last row. *)
Definition sample_screen : vga (Z * (Z -> Z)) :=
  {| fb := replicate 25 blank; cx := 0; cy := 0; crtc := (0, fun i => if i =? 14 then 7 else 128); inited := false |}.
Lemma vga_refines_paper_witness : exists v', vga_puts [72; 105; 10] sample_screen = Ok (tt, v') /\
  shown (foldl (fun p c => paper_putc c p) {| rows := replicate 25 blank; px := 0; py := 24 |} [72; 105; 10]) v'.
Proof.
  destruct (vga_refines_paper [72; 105; 10] {| rows := replicate 25 blank; px := 0; py := 24 |} sample_screen) as (v' & E & S & _).
  - split; [|intros _; split; cbn; lia]. split; [|cbn; lia]. split; [cbn; lia|repeat constructor|reflexivity|reflexivity|reflexivity|cbn; lia|reflexivity].
  - exists v'. split; [exact E|exact S].
Defined.

End VgaProps.
