(* ===== verification/FdTable.v ===== *)
(** * userprog/syscall.c: the table of open files of a process

    The list [fd_list] of a thread as the sequence of its [fd_pair]s.  [find_free_fd] chooses
    the number of a new entry and the place where it goes. *)

From S2P Require Import Prelude.

Module FdTable.

Record fd_pair := { pair_f : option Z; pair_d : option Z; pair_is_dir : bool; fd : Z }.

Fixpoint get_file_pair (n : Z) (fd_list : list fd_pair) : option fd_pair :=
  match fd_list with
  | [] => None
  | p :: rest => if fd p =? n then Some p else get_file_pair n rest
  end.

(** [list_insert] before the element at the place [i]. *)
Definition insert_before (i : nat) (x : fd_pair) (l : list fd_pair) : list fd_pair := take i l ++ x :: drop i l.

(** The loop of [find_free_fd]: [before] has been passed, [prev_elem] is a place in it. *)
Fixpoint free_loop (insert_pair : Z -> fd_pair) (before rest : list fd_pair) (fd_prev : Z) (prev_elem : option nat) :
    res (Z * list fd_pair) :=
  match rest with
  | [] =>
      let n := if negb (fd_prev =? -1) then s32 (fd_prev + 1) else 2 in
      Ok (n, before ++ [insert_pair n])
  | p :: rest' =>
      let next := free_loop insert_pair (before ++ [p]) rest' (fd p) (Some (length before)) in
      if (fd_prev =? -1) && (fd p =? 2) then next
      else if (fd_prev =? -1) && (fd p >? 2) then Ok (2, insert_pair 2 :: before ++ rest)
      else if fd p >? s32 (fd_prev + 1) then
        match prev_elem with
        | Some i => Ok (s32 (fd_prev + 1), insert_before i (insert_pair (s32 (fd_prev + 1))) (before ++ rest))
        | None => Err WildAccess
        end
      else next
  end.
(** The new entry, whose number is still to be chosen. *)
Definition new_pair (file_pointer dir_pointer : option Z) (is_dir : bool) (n : Z) : fd_pair :=
  if is_dir then {| pair_f := None; pair_d := dir_pointer; pair_is_dir := true; fd := n |}
  else {| pair_f := file_pointer; pair_d := None; pair_is_dir := false; fd := n |}.
(** [mem] is whether the allocation of the entry succeeds; its result is not tested. *)
Definition find_free_fd (mem : bool) (fd_list : list fd_pair) (file_pointer dir_pointer : option Z) (is_dir : bool) :
    res (Z * list fd_pair) :=
  if mem then free_loop (new_pair file_pointer dir_pointer is_dir) [] fd_list (-1) None else Err WildAccess.

(** [list_remove] of the first entry with the number. *)
Fixpoint remove_pair (n : Z) (fd_list : list fd_pair) : list fd_pair :=
  match fd_list with
  | [] => []
  | p :: rest => if fd p =? n then rest else p :: remove_pair n rest
  end.

(** ** Lookup *)

Lemma get_file_pair_spec n l : NoDup (map fd l) -> forall p, get_file_pair n l = Some p <-> p ∈ l /\ fd p = n.
Proof.
  induction l as [|q l IH]; intros Hd p; cbn [get_file_pair map] in *; [set_solver|]. apply NoDup_cons in Hd as [Hq Hd].
  destruct (Z.eqb_spec (fd q) n) as [<-|Hne].
  - split; [intros [= ->]; split; [left|done]|]. intros [[->|Hp]%elem_of_cons E]; [done|].
    destruct Hq. rewrite <- E. by apply list_elem_of_fmap_2.
  - rewrite IH by done. rewrite elem_of_cons. naive_solver.
Qed.
Lemma get_file_pair_None n l : get_file_pair n l = None <-> n ∉ map fd l.
Proof.
  induction l as [|q l IH]; cbn [get_file_pair map]; [split; [set_solver|done]|]. rewrite not_elem_of_cons.
  destruct (Z.eqb_spec (fd q) n); [split; [done|intros [? _]; congruence]|]. rewrite IH. naive_solver.
Qed.
Lemma remove_pair_permutation n p l : get_file_pair n l = Some p -> l ≡ₚ p :: remove_pair n l.
Proof.
  induction l as [|q l IH]; cbn [get_file_pair remove_pair]; [done|]. destruct (_ =? _); [by intros [= ->]|].
  intros E. rewrite (IH E) at 1. apply Permutation_swap.
Qed.

(** ** The choice of a number *)

(** The numbers of a table in ascending order, as it is while no entry is closed. *)
Definition ascending (l : list fd_pair) : Prop := StronglySorted Z.lt (map fd l) /\ Forall (fun p => 2 <= fd p < 2 ^ 31 - 1) l.

Lemma ascending_NoDup l : ascending l -> NoDup (map fd l).
Proof.
  intros [H _]. induction H as [|x xs H IH Hx]; constructor; [|done]. intros Hin.
  rewrite Forall_forall in Hx. specialize (Hx _ Hin). lia.
Qed.

(** [n] is the least number from 2 on that the table [l] does not have. *)
Record chosen (new : Z -> fd_pair) (l : list fd_pair) (n : Z) (l' : list fd_pair) : Prop := {
  ch_range : 2 <= n < 2 ^ 31;
  ch_free : n ∉ map fd l;
  ch_least : forall k, 2 <= k < n -> k ∈ map fd l;
  ch_table : l' ≡ₚ new n :: l;
  ch_first : n = 2 -> l' = new 2 :: l;
  ch_last : (forall p, p ∈ l -> fd p < n) -> l' = l ++ [new n] }.

(** Entries that have the numbers 2, 3, ... *)
Definition counted (l : list fd_pair) : Prop := map fd l = seqZ 2 (Z.of_nat (length l)).
Lemma counted_elem l k : counted l -> k ∈ map fd l <-> 2 <= k < 2 + Z.of_nat (length l).
Proof. unfold counted. intros ->. rewrite elem_of_seqZ. lia. Qed.
Lemma counted_app l p : counted l -> fd p = 2 + Z.of_nat (length l) -> counted (l ++ [p]).
Proof.
  unfold counted. intros E Ep. rewrite map_app, E, length_app, Nat2Z.inj_add, seqZ_app by lia. by cbn [map length Z.of_nat Pos.of_succ_nat seqZ]; rewrite Ep.
Qed.

(** [fd_prev] and [prev_elem] after the entries [before]. *)
Definition prev_fd (before : list fd_pair) : Z := if decide (before = []) then -1 else 1 + Z.of_nat (length before).
Definition prev_place (before : list fd_pair) : option nat := if decide (before = []) then None else Some (length before - 1)%nat.
Lemma prev_fd_app l p : fd p = 2 + Z.of_nat (length l) -> prev_fd (l ++ [p]) = fd p.
Proof. intros E. unfold prev_fd. rewrite decide_False by (by destruct l). rewrite length_app. cbn [length]. lia. Qed.
Lemma prev_place_app l p : prev_place (l ++ [p]) = Some (length l).
Proof. unfold prev_place. rewrite decide_False by (by destruct l). rewrite length_app. cbn [length]. f_equal. lia. Qed.

(** The table has a gap after the entries [before]. *)
Lemma gap_chosen new before rest l' : counted before -> Z.of_nat (length before) < 2 ^ 31 - 4 ->
  Forall (fun p => 2 + Z.of_nat (length before) < fd p) rest -> rest <> [] \/ l' = before ++ rest ++ [new (2 + Z.of_nat (length before))] ->
  l' ≡ₚ new (2 + Z.of_nat (length before)) :: before ++ rest -> (before = [] -> l' = new 2 :: rest) ->
  chosen new (before ++ rest) (2 + Z.of_nat (length before)) l'.
Proof.
  intros Hb Hl Hr Hlast Hp Hfirst. rewrite Forall_forall in Hr. split; [lia| | |done| |].
  - rewrite map_app, elem_of_app, counted_elem by done. intros [H|(p & E & H)%list_elem_of_fmap]; [lia|]. specialize (Hr _ H). lia.
  - intros k Hk. rewrite map_app, elem_of_app, counted_elem by done. left. lia.
  - intros E. destruct before; [by apply Hfirst|cbn [length] in E; lia].
  - intros Hlt. rewrite <- app_assoc. destruct Hlast as [Hne|]; [|done]. destruct rest as [|q rest]; [done|].
    specialize (Hlt q ltac:(apply elem_of_app; right; left)). specialize (Hr q ltac:(left)). lia.
Qed.

Lemma free_loop_run new rest : forall before, counted before -> Z.of_nat (length before + length rest) < 2 ^ 31 - 4 ->
  StronglySorted Z.lt (map fd rest) -> Forall (fun p => 2 + Z.of_nat (length before) <= fd p) rest ->
  exists n l', free_loop new before rest (prev_fd before) (prev_place before) = Ok (n, l') /\ chosen new (before ++ rest) n l'.
Proof.
  induction rest as [|q rest IH]; intros before Hb Hlen Hs Hr; cbn [free_loop length] in *.
  - exists (2 + Z.of_nat (length before)), (before ++ [new (2 + Z.of_nat (length before))]).
    assert ((if negb (prev_fd before =? -1) then s32 (prev_fd before + 1) else 2) = 2 + Z.of_nat (length before)) as ->.
    { unfold prev_fd. case_decide as E; [by subst|]. rewrite (proj2 (Z.eqb_neq _ _)) by lia. cbn [negb]. rewrite wraps_small by lia. lia. }
    split; [done|]. apply gap_chosen; [done|lia|done|by right| |by intros ->]. by rewrite app_nil_r, Permutation_app_comm.
  - apply Forall_cons in Hr as [Hq Hr]. cbn [map] in Hs. apply StronglySorted_inv in Hs as [Hs Hqs]. rewrite Forall_map in Hqs.
    destruct (decide (fd q = 2 + Z.of_nat (length before))) as [Eq|Ne].
    + destruct (IH (before ++ [q])) as (n & l' & E & Hc).
      { by apply counted_app. } { rewrite length_app. cbn [length]. lia. } { done. }
      { eapply Forall_impl; [exact Hqs|]. intros p Hp. rewrite length_app. cbn in *. lia. }
      rewrite (prev_fd_app _ _ Eq), prev_place_app, <- app_assoc in *. cbn [app] in *. exists n, l'. split; [|done].
      destruct (decide (before = [])) as [->|Hne].
      * change (prev_fd []) with (-1). cbn [length] in *. rewrite Eq in E |- *. exact E.
      * unfold prev_fd. rewrite decide_False by done. rewrite (proj2 (Z.eqb_neq _ _)) by lia. cbn [andb]. rewrite wraps_small by lia. rewrite Z.gtb_ltb, (proj2 (Z.ltb_ge _ _)) by lia. exact E.
    + assert (Forall (fun p => 2 + Z.of_nat (length before) < fd p) (q :: rest)) as Hgap.
      { constructor; [lia|]. eapply Forall_impl; [exact Hqs|]. cbn. lia. }
      exists (2 + Z.of_nat (length before)). unfold prev_fd, prev_place. case_decide as E.
      * subst before. cbn [length app] in *. cbn [Z.eqb andb]. rewrite (proj2 (Z.eqb_neq (fd q) 2)) by lia. rewrite Z.gtb_ltb, (proj2 (Z.ltb_lt _ _)) by lia.
        eexists. split; [reflexivity|]. apply (gap_chosen new []); by try left.
      * rewrite (proj2 (Z.eqb_neq _ (-1))) by lia. cbn [andb]. rewrite wraps_small, Z.gtb_ltb, (proj2 (Z.ltb_lt _ _)) by lia.
        replace (1 + Z.of_nat (length before) + 1) with (2 + Z.of_nat (length before)) by lia.
        eexists. split; [reflexivity|]. apply gap_chosen; [done|lia|done|by left| |done].
        unfold insert_before. rewrite <- Permutation_middle, take_drop. done.
Qed.

(** C28: [find_free_fd] on a table in ascending order returns the least number from 2 on that is
    not in use; afterwards that number, and no other, stands for the new file, and every
    other open file keeps its number. *)
Theorem find_free_fd_correct l file dir is_dir : ascending l -> Z.of_nat (length l) < 2 ^ 31 - 4 ->
  exists n l', find_free_fd true l file dir is_dir = Ok (n, l') /\ chosen (new_pair file dir is_dir) l n l' /\
    get_file_pair n l = None /\ get_file_pair n l' = Some (new_pair file dir is_dir n) /\
    forall k, k <> n -> get_file_pair k l' = get_file_pair k l.
Proof.
  intros Ha Hl. pose proof Ha as [Hs Hr]. destruct (free_loop_run (new_pair file dir is_dir) l []) as (n & l' & E & Hc); [done|done|done| |].
  { eapply Forall_impl; [exact Hr|]. cbn. lia. }
  exists n, l'. split; [exact E|]. split; [done|]. destruct Hc as [_ Hfree _ Hp _ _]. cbn [app] in *.
  assert (fd (new_pair file dir is_dir n) = n) as Efd by (by destruct is_dir). pose proof (ascending_NoDup _ Ha) as Hd.
  assert (NoDup (map fd l')) as Hd'. { rewrite Hp. cbn [map]. constructor; [by rewrite Efd|done]. }
  split; [by apply get_file_pair_None|]. split; [apply get_file_pair_spec; [done|]; split; [rewrite Hp; left|done]|].
  intros k Hk. apply option_eq. intros p. rewrite !get_file_pair_spec by done. rewrite Hp, elem_of_cons. naive_solver.
Qed.
Definition sample_table : list fd_pair := map (fun n => new_pair (Some (100 + n)) None false n) [2; 3; 5].
Lemma find_free_fd_correct_witness : exists l', find_free_fd true sample_table (Some 200) None false = Ok (4, l') /\
  get_file_pair 4 l' = Some (new_pair (Some 200) None false 4).
Proof.
  destruct (find_free_fd_correct sample_table (Some 200) None false) as (n & l' & E & _ & _ & Hn & _).
  - split; repeat constructor; by vm_compute.
  - by vm_compute.
  - assert (n = 4) as -> by (vm_compute in E; congruence). exists l'. split; [exact E|exact Hn].
Defined.

(** Closing a file in the middle and opening two more gives the second of them a number
    that is in use: the entry for the gap goes before its predecessor, the table is no longer
    in ascending order, and the file first opened as 2 can no longer be reached. *)
Theorem find_free_fd_reuses_number : exists l l1 l2,
  find_free_fd true [] (Some 101) None false = Ok (2, take 1 l) /\
  find_free_fd true (take 1 l) (Some 102) None false = Ok (3, take 2 l) /\
  find_free_fd true (take 2 l) (Some 103) None false = Ok (4, l) /\
  find_free_fd true (remove_pair 3 l) (Some 104) None false = Ok (3, l1) /\
  find_free_fd true l1 (Some 105) None false = Ok (2, l2) /\
  get_file_pair 2 l1 = Some (new_pair (Some 101) None false 2) /\
  get_file_pair 2 l2 = Some (new_pair (Some 105) None false 2).
Proof.
  set (e f n := new_pair (Some f) None false n).
  exists [e 101 2; e 102 3; e 103 4], [e 104 3; e 101 2; e 103 4], [e 105 2; e 104 3; e 101 2; e 103 4].
  repeat (split; [reflexivity|]). reflexivity.
Qed.

End FdTable.
