(* ===== verification/Process.v ===== *)
(** * userprog/process.c: processes that start, await and outlive each other

    Every process but the first shares a [wait_status] with its parent.  The machine runs any
    number of processes; a step is a piece of the code between two points where another
    process can get in: the accesses of [process_execute], [start_process], [process_wait] and
    [process_exit] to the shared records.  A record is known by the identifier of the child,
    its memory is gone after [free], and every access to a record that is gone is a
    [WildAccess].  A list of children is the sequence of its elements; [list_remove] touches
    the neighbours of the element. *)

From S2P Require Import Prelude.

Module Process.

Record wait_status := { ref_cnt : Z; exit_code : Z; load_code : Z; dead : Z; load_finished : Z }.

(** Where a process is. *)
Inductive point :=
| Loading                           (** [start_process], before [load] has returned *)
| Running
| ExecDir (w : Z)                   (** [process_execute], before [child->curr_dir] is set *)
| ExecWait (w : Z)                  (** [process_execute], at [sema_down (&load_finished)] *)
| ExecCode (w : Z)                  (** [SYS_EXEC], before it looks at [load_code] *)
| WaitTest (w : Z)                  (** [process_wait], before the test of [ref_cnt] *)
| WaitDead (w : Z)                  (** [process_wait], at [sema_down (&dead)] *)
| WaitTake (w : Z)                  (** [process_wait], after it *)
| ExitKids (l : list Z)             (** [process_exit], the children still to be released *)
| ExitKidTest (w : Z) (l : list Z)  (** [process_exit], after the release of [ref_cnt_lock] *)
| ExitSelf                          (** [process_exit], before its own record *)
| ExitTest                          (** [process_exit], before the second test of [ref_cnt] *)
| Gone.
#[export] Instance point_eq_dec : EqDecision point.
Proof. solve_decision. Defined.

(** [status] is the argument of [exit], if the process has called it; [result] what its last
    [process_wait], [process_execute] or [SYS_EXEC] has returned. *)
Record proc := { kids : list Z; pc : point; status : option Z; result : Z }.
Record kernel := { procs : gmap Z proc; heap : gmap Z wait_status; next_tid : Z }.

Definition with_pc (l : point) (x : proc) : proc := {| kids := kids x; pc := l; status := status x; result := result x |}.
Definition with_kids (l : list Z) (x : proc) : proc := {| kids := l; pc := pc x; status := status x; result := result x |}.
Definition with_status (n : Z) (x : proc) : proc := {| kids := kids x; pc := pc x; status := Some n; result := result x |}.
Definition with_result (n : Z) (x : proc) : proc := {| kids := kids x; pc := pc x; status := status x; result := n |}.

Definition get_proc (p : Z) : M kernel proc := fun s =>
  match procs s !! p with Some x => Ok (x, s) | None => Err WildAccess end.
Definition set_proc (p : Z) (x : proc) : M kernel unit :=
  modify (fun s => {| procs := <[p := x]> (procs s); heap := heap s; next_tid := next_tid s |}).
Definition get_ws (w : Z) : M kernel wait_status := fun s =>
  match heap s !! w with Some x => Ok (x, s) | None => Err WildAccess end.
Definition set_ws (w : Z) (x : wait_status) : M kernel unit :=
  modify (fun s => {| procs := procs s; heap := <[w := x]> (heap s); next_tid := next_tid s |}).
Definition free_ws (w : Z) : M kernel unit :=
  let! _ := get_ws w in
  modify (fun s => {| procs := procs s; heap := delete w (heap s); next_tid := next_tid s |}).

(** ** Records *)

Definition with_ref (n : Z) (x : wait_status) : wait_status :=
  {| ref_cnt := n; exit_code := exit_code x; load_code := load_code x; dead := dead x; load_finished := load_finished x |}.
Definition with_exit (n : Z) (x : wait_status) : wait_status :=
  {| ref_cnt := ref_cnt x; exit_code := n; load_code := load_code x; dead := dead x; load_finished := load_finished x |}.
Definition with_dead (n : Z) (x : wait_status) : wait_status :=
  {| ref_cnt := ref_cnt x; exit_code := exit_code x; load_code := load_code x; dead := n; load_finished := load_finished x |}.
Definition with_load (c n : Z) (x : wait_status) : wait_status :=
  {| ref_cnt := ref_cnt x; exit_code := exit_code x; load_code := c; dead := dead x; load_finished := n |}.
Definition init_wait_status : wait_status :=
  {| ref_cnt := 2; exit_code := 0; load_code := 0; dead := 0; load_finished := 0 |}.

(** [list_remove] of [w] from the list [l]. *)
Fixpoint touch (l : list Z) : M kernel unit :=
  match l with [] => ret tt | w :: l => let! _ := get_ws w in touch l end.
Fixpoint neighbours (w : Z) (l : list Z) : list Z :=
  match l with
  | a :: (b :: l') as t => if a =? w then [b] else if b =? w then a :: take 1 l' else neighbours w t
  | _ => []
  end.
Definition list_remove (w : Z) (l : list Z) : M kernel (list Z) :=
  do! touch (w :: neighbours w l);
  ret (filter (fun k => k <> w) l).

Fixpoint get_child_by_tid (l : list Z) (tid : Z) : M kernel (option Z) :=
  match l with
  | [] => ret None
  | w :: l => let! _ := get_ws w in if w =? tid then ret (Some w) else get_child_by_tid l tid
  end.

(** ** Steps *)

(** What a process does next, where that is its own choice. *)
Inductive action := Load (success : bool) | Exec | Wait (tid : Z) | Exit (n : Z) | Kill | Continue.

Definition goto (p : Z) (l : point) : M kernel unit := let! x := get_proc p in set_proc p (with_pc l x).

(** [thread_create] for [process_execute]: the new process and its record. *)
Definition create (p : Z) : M kernel unit :=
  let! n := gets next_tid in
  do! modify (fun s => {| procs := procs s; heap := heap s; next_tid := n + 1 |});
  do! set_proc n {| kids := []; pc := Loading; status := None; result := 0 |};
  do! set_ws n init_wait_status;
  let! x := get_proc p in
  do! touch (drop (length (kids x) - 1) (kids x));
  set_proc p (with_pc (ExecDir n) (with_kids (kids x ++ [n]) x)).
(** [get_thread_by_tid] no longer finds a thread that has exited. *)
Definition exec_dir (p w : Z) : M kernel unit :=
  let! c := get_proc w in
  match pc c with Gone => fail WildAccess | _ => goto p (ExecWait w) end.

Definition start_process (p : Z) (success : bool) : M kernel unit :=
  let! w := get_ws p in
  do! set_ws p (with_load (if success then load_code w else -1) (load_finished w + 1) w);
  goto p (if success then Running else ExitKids []).

Definition exec_wait (p w : Z) : M kernel unit :=
  let! x := get_ws w in
  if load_finished x =? 0 then ret tt
  else
    do! set_ws w (with_load (load_code x) (load_finished x - 1) x);
    let! y := get_proc p in
    set_proc p (with_pc (ExecCode w) (with_result w y)).
(** What [SYS_EXEC] does with the identifier. *)
Definition exec_code (p tid : Z) : M kernel unit :=
  let! y := get_proc p in
  let! child := get_child_by_tid (kids y) tid in
  match child with
  | Some w => let! x := get_ws w in set_proc p (with_pc Running (with_result (if load_code x =? -1 then -1 else tid) y))
  | None => fail WildAccess
  end.

Definition process_wait (p tid : Z) : M kernel unit :=
  let! x := get_proc p in
  let! child := get_child_by_tid (kids x) tid in
  match child with
  | Some w => set_proc p (with_pc (WaitTest w) x)
  | None => set_proc p (with_result (-1) x)
  end.
Definition wait_test (p w : Z) : M kernel unit :=
  let! x := get_ws w in goto p (if ref_cnt x =? 2 then WaitDead w else WaitTake w).
Definition wait_dead (p w : Z) : M kernel unit :=
  let! x := get_ws w in
  if dead x =? 0 then ret tt
  else do! set_ws w (with_dead (dead x - 1) x); goto p (WaitTake w).
Definition wait_take (p w : Z) : M kernel unit :=
  let! x := get_ws w in
  let! y := get_proc p in
  let! l := list_remove w (kids y) in
  do! free_ws w;
  set_proc p (with_pc Running (with_result (exit_code x) (with_kids l y))).

(** [sys_exit_handler] sets the code; a process that is killed goes without. *)
Definition exit (p n : Z) : M kernel unit :=
  let! w := get_ws p in
  do! set_ws p (with_exit n w);
  let! x := get_proc p in
  set_proc p (with_pc (ExitKids (kids x)) (with_status n x)).
Definition kill (p : Z) : M kernel unit :=
  let! x := get_proc p in set_proc p (with_pc (ExitKids (kids x)) x).
Definition exit_kid (p w : Z) (l : list Z) : M kernel unit :=
  let! x := get_ws w in
  do! set_ws w (with_ref (ref_cnt x - 1) x);
  goto p (ExitKidTest w l).
Definition exit_kid_test (p w : Z) (l : list Z) : M kernel unit :=
  let! x := get_ws w in
  if ref_cnt x =? 0 then
    let! y := get_proc p in
    let! l' := list_remove w (kids y) in
    do! free_ws w;
    set_proc p (with_pc (ExitKids l) (with_kids l' y))
  else goto p (ExitKids l).
Definition exit_self (p : Z) : M kernel unit :=
  let! x := get_ws p in
  do! set_ws p (with_ref (ref_cnt x - 1) x);
  goto p ExitTest.
Definition exit_test (p : Z) : M kernel unit :=
  let! x := get_ws p in
  do! (if ref_cnt x =? 0 then free_ws p else set_ws p (with_dead (dead x + 1) x));
  goto p Gone.

(** A step of the process [p]; a process that is blocked, or gone, stays as it is. *)
Definition step (p : Z) (a : action) : M kernel unit :=
  let! x := get_proc p in
  match pc x, a with
  | Loading, Load success => start_process p success
  | Running, Exec => create p
  | Running, Wait tid => process_wait p tid
  | Running, Exit n => exit p n
  | Running, Kill => kill p
  | ExecDir w, _ => exec_dir p w
  | ExecWait w, _ => exec_wait p w
  | ExecCode w, _ => exec_code p w
  | WaitTest w, _ => wait_test p w
  | WaitDead w, _ => wait_dead p w
  | WaitTake w, _ => wait_take p w
  | ExitKids (w :: l), _ => exit_kid p w l
  | ExitKids [], _ => goto p ExitSelf
  | ExitKidTest w l, _ => exit_kid_test p w l
  | ExitSelf, _ => exit_self p
  | ExitTest, _ => exit_test p
  | _, _ => ret tt
  end.
Fixpoint run (l : list (Z * action)) : M kernel unit :=
  match l with [] => ret tt | (p, a) :: l => do! step p a; run l end.

(** The first process, which has no record. *)
Definition boot : kernel :=
  {| procs := {[1 := {| kids := []; pc := Running; status := None; result := 0 |}]}; heap := ∅; next_tid := 2 |}.

End Process.

(** * Processes: the invariant of the shared records *)

Import Process.

Module ProcessFacts.

(** The children that a process still refers to. *)
Definition remaining (x : proc) : list Z :=
  match pc x with
  | ExitKids l | ExitKidTest _ l => l
  | ExitSelf | ExitTest | Gone => []
  | _ => kids x
  end.
Definition held (x : proc) (k : Z) : bool := bool_decide (k ∈ remaining x).
(** The process still refers to its own record. *)
Definition own (y : proc) : bool := match pc y with ExitTest | Gone => false | _ => true end.
(** Outside [process_exit]. *)
Definition plain (x : proc) : bool :=
  match pc x with ExitKids _ | ExitKidTest _ _ | ExitSelf | ExitTest | Gone => false | _ => true end.
(** In the loop of [process_exit]. *)
Definition exiting (x : proc) : bool := match pc x with ExitKids _ | ExitKidTest _ _ => true | _ => false end.
Definition testing (x : proc) (k : Z) : bool := match pc x with ExitKidTest w _ => w =? k | _ => false end.
Definition last_test (y : proc) : bool := match pc y with ExitTest => true | _ => false end.

(** The record [h] of the child [k], when the child is at [y] and its parent at [x]. *)
Record rec_ok (k : Z) (y x : proc) (h : option wait_status) : Prop := {
  r_some : is_Some h <-> held x k || own y || testing x k || last_test y = true;
  r_ref : forall v, h = Some v -> ref_cnt v = Z.b2z (held x k) + Z.b2z (own y);
  r_dead : forall v, h = Some v -> (pc y <> Gone -> dead v = 0) /\ (pc y = Gone -> pc x <> WaitTake k -> dead v = 1);
  r_code : forall v, h = Some v -> exit_code v = default 0 (status y);
  r_take : pc x = WaitTake k -> pc y = Gone;
  r_dir : pc x = ExecDir k -> pc y = Loading;
  r_exit : exiting x = true -> k ∈ kids x -> held x k || testing x k || own y = true /\ last_test y = false }.

(** The children of a process. *)
Record kids_ok (x : proc) : Prop := {
  k_nodup : NoDup (kids x);
  k_rem : remaining x ⊆ kids x;
  k_rem_nodup : NoDup (remaining x);
  k_point : forall w, pc x = ExecDir w \/ pc x = ExecWait w \/ pc x = WaitTest w \/ pc x = WaitDead w \/ pc x = WaitTake w \/ pc x = ExecCode w -> w ∈ kids x;
  k_load : pc x = Loading -> kids x = [];
  k_test : forall w l, pc x = ExitKidTest w l -> w ∈ kids x /\ w ∉ l }.

Record inv (par : gmap Z Z) (s : kernel) : Prop := {
  i_range : forall p, is_Some (procs s !! p) -> 1 <= p < next_tid s;
  i_kids : forall p x, procs s !! p = Some x -> kids_ok x /\ forall k, k ∈ kids x -> par !! k = Some p /\ is_Some (procs s !! k);
  i_rec : forall k y, procs s !! k = Some y -> k <> 1 ->
    exists p x, par !! k = Some p /\ p <> k /\ procs s !! p = Some x /\ rec_ok k y x (heap s !! k);
  i_par : forall k p, par !! k = Some p -> k <> 1 /\ is_Some (procs s !! k);
  i_heap : forall k, is_Some (heap s !! k) -> k <> 1 /\ is_Some (procs s !! k);
  i_first : exists x, procs s !! 1 = Some x /\ plain x = true /\ pc x <> Loading }.

(** Records that no other process may use until the process has moved on: those of its
    children while it goes through their list, its own between the two tests of the count,
    and that of a child it has just started. *)
Definition windows (p : Z) (x : proc) : list Z :=
  match pc x with
  | ExecDir w => [w]
  | ExitKids _ | ExitKidTest _ _ => kids x
  | ExitTest => [p]
  | _ => []
  end.
(** The records that the next step of the process uses. *)
Definition accesses (p : Z) (x : proc) (a : action) : list Z :=
  match pc x, a with
  | Loading, Load _ => [p]
  | Running, Exit _ => p :: kids x
  | Running, Kill => kids x
  | ExecDir w, _ | ExecWait w, _ | ExecCode w, _ | WaitTest w, _ | WaitDead w, _ | WaitTake w, _ => [w]
  | ExitKids (w :: _), _ | ExitKidTest w _, _ => [w]
  | ExitSelf, _ | ExitTest, _ => [p]
  | _, _ => []
  end.
Definition calm_step (s : kernel) (p : Z) (a : action) : Prop :=
  forall x, procs s !! p = Some x ->
    (p = 1 -> match a with Exit _ | Kill => False | _ => True end) /\
    forall q y w, q <> p -> procs s !! q = Some y -> w ∈ accesses p x a -> w ∉ windows q y.

(** ** Changing one process *)

Definition update (p : Z) (x' : proc) (h' : gmap Z wait_status) (s : kernel) : kernel :=
  {| procs := <[p := x']> (procs s); heap := h'; next_tid := next_tid s |}.

Lemma inv_update par s p x x' h' : inv par s -> procs s !! p = Some x -> kids_ok x' -> kids x' ⊆ kids x ->
  (forall k, is_Some (h' !! k) -> is_Some (heap s !! k)) ->
  (forall k, k <> p -> k ∉ kids x -> h' !! k = heap s !! k) ->
  (p = 1 -> plain x' = true /\ pc x' <> Loading) ->
  (forall q y, p <> 1 -> par !! p = Some q -> procs s !! q = Some y -> rec_ok p x y (heap s !! p) -> rec_ok p x' y (h' !! p)) ->
  (forall k y, k <> 1 -> k <> p -> par !! k = Some p -> procs s !! k = Some y -> rec_ok k y x (heap s !! k) -> rec_ok k y x' (h' !! k)) ->
  inv par (update p x' h' s).
Proof.
  intros [I1 I2 I3 I4 I5 I6] Hp Hk Hsub Hh1 Hh2 H1 Hown Hkids.
  assert (forall q, is_Some (<[p := x']> (procs s) !! q) <-> is_Some (procs s !! q)) as Hsome.
  { intros q. rewrite lookup_insert_is_Some. destruct (decide (p = q)) as [<-|]; [rewrite Hp|]; naive_solver. }
  split; cbn [procs heap next_tid update].
  - intros q Hq. apply I1, Hsome, Hq.
  - intros q y Hq. destruct (decide (p = q)) as [<-|Hne].
    + rewrite lookup_insert_eq in Hq. injection Hq as <-. split; [done|]. intros k Hkx. destruct (I2 _ _ Hp) as [_ H]. rewrite Hsome. apply H. auto.
    + rewrite lookup_insert_ne in Hq by done. destruct (I2 _ _ Hq) as [H3 H4]. split; [done|]. intros k Hky. rewrite Hsome. by apply H4.
  - intros k y Hy Hk1. destruct (decide (p = k)) as [<-|Hne].
    + rewrite lookup_insert_eq in Hy. injection Hy as <-. destruct (I3 _ _ Hp Hk1) as (q & z & Hq & Hqp & Hz & R). exists q, z.
      split; [done|]. split; [done|]. split; [by rewrite lookup_insert_ne|]. by apply (Hown q z).
    + rewrite lookup_insert_ne in Hy by done. destruct (I3 _ _ Hy Hk1) as (q & z & Hq & Hqk & Hz & R). destruct (decide (p = q)) as [<-|Hpq].
      * assert (z = x) as -> by congruence. exists p, x'. split; [done|]. split; [done|]. split; [by rewrite lookup_insert_eq|]. by apply Hkids.
      * exists q, z. split; [done|]. split; [done|]. split; [by rewrite lookup_insert_ne|]. rewrite Hh2; [done|done|]. intros Hin. destruct (I2 _ _ Hp) as [_ H]. destruct (H _ Hin). congruence.
  - intros k q Hkq. rewrite Hsome. by apply (I4 _ q).
  - intros k Hkh. rewrite Hsome. by apply I5, Hh1.
  - destruct (decide (p = 1)) as [->|Hne]; [exists x'; split; [apply lookup_insert_eq|by apply H1]|]. destruct I6 as (y & Hy & H). exists y. by rewrite lookup_insert_ne.
Qed.

(** ** Records under a change of one side *)

Lemma plain_remaining x : plain x = true -> remaining x = kids x /\ exiting x = false /\ (forall k, testing x k = false) /\ own x = true /\ last_test x = false.
Proof. unfold plain, remaining, exiting, testing, own, last_test. by destruct (pc x). Qed.

(** The parent moves, outside [process_exit]. *)
Lemma plain_parent k y x x' h : plain x = true -> plain x' = true -> kids x' = kids x -> pc x <> WaitTake k ->
  (pc x' = WaitTake k -> pc y = Gone) -> (pc x' = ExecDir k -> pc y = Loading) -> rec_ok k y x h -> rec_ok k y x' h.
Proof.
  intros P P' Ek Hw Ht Hd [R1 R2 R3 R4 R5 R6 R7]. destruct (plain_remaining x P) as (E1 & E2 & E3 & _), (plain_remaining x' P') as (E1' & E2' & E3' & _).
  assert (held x' k = held x k) as Eh by (unfold held; by rewrite E1, E1', Ek). split; rewrite ?Eh, ?E3', ?E2'; try done.
  - by rewrite E3 in R1.
  - intros v Hv. destruct (R3 v Hv). split; auto.
Qed.
(** A child that is no longer in the list. *)
Lemma removed_parent k y x x' h : kids_ok x -> kids_ok x' -> k ∉ kids x -> k ∉ kids x' -> rec_ok k y x h -> rec_ok k y x' h.
Proof.
  intros K K' Hk Hk' [R1 R2 R3 R4 R5 R6 R7].
  assert (held x k = false /\ held x' k = false) as [Eh Eh'].
  { split; apply bool_decide_eq_false_2; intros Hin; [apply Hk, (k_rem _ K)|apply Hk', (k_rem _ K')]; done. }
  assert (forall x, kids_ok x -> k ∉ kids x -> testing x k = false) as Ht.
  { intros z Kz Hz. unfold testing. destruct (pc z) eqn:E; try done. apply Z.eqb_neq. intros ->. by destruct (k_test _ Kz _ _ E). }
  assert (forall z, kids_ok z -> k ∉ kids z -> pc z <> WaitTake k /\ pc z <> ExecDir k) as Hp.
  { intros z Kz Hz. split; intros E; apply Hz, (k_point _ Kz); tauto. }
  destruct (Hp x K Hk), (Hp x' K' Hk'). split; rewrite ?Eh', ?Ht by done; try done.
  - by rewrite Eh, Ht in R1.
  - intros v Hv. rewrite (R2 v Hv). by rewrite Eh.
  - intros v Hv. destruct (R3 v Hv). split; auto.
Qed.
(** The child moves, before it gives up its record, whose count and codes stay. *)
Lemma live_child k y y' x v v' : own y = true -> last_test y = false -> own y' = true -> last_test y' = false -> pc x <> ExecDir k ->
  ref_cnt v' = ref_cnt v -> dead v' = dead v -> exit_code v' = default 0 (status y') ->
  rec_ok k y x (Some v) -> rec_ok k y' x (Some v').
Proof.
  intros O1 L1 O2 L2 Hd Er Ed Ec [R1 R2 R3 R4 R5 R6 R7].
  assert (pc y <> Gone /\ pc y' <> Gone) as [G G'] by (split; intros E; [unfold own in O1; rewrite E in O1|unfold own in O2; rewrite E in O2]; done).
  split; rewrite ?O2, ?L2.
  - split; [intros _; by rewrite orb_true_r|by eexists].
  - intros ? [= <-]. rewrite Er, (R2 v eq_refl). by rewrite O1.
  - intros ? [= <-]. rewrite Ed. destruct (R3 v eq_refl). split; [auto|done].
  - by intros ? [= <-].
  - intros E. by destruct (G (R5 E)).
  - done.
  - intros He Hk. split; [by rewrite orb_true_r|done].
Qed.

(** ** Access to the records *)

Lemma get_proc_run s p x : procs s !! p = Some x -> get_proc p s = Ok (x, s).
Proof. unfold get_proc. by intros ->. Qed.
Lemma get_ws_run s w v : heap s !! w = Some v -> get_ws w s = Ok (v, s).
Proof. unfold get_ws. by intros ->. Qed.
Lemma goto_run s p x l : procs s !! p = Some x -> goto p l s = Ok (tt, update p (with_pc l x) (heap s) s).
Proof. intros Hp. unfold goto. by erewrite bind_eq; [|by apply get_proc_run]. Qed.
Lemma free_ws_run s w v : heap s !! w = Some v -> free_ws w s = Ok (tt, {| procs := procs s; heap := delete w (heap s); next_tid := next_tid s |}).
Proof. intros Hw. unfold free_ws. by erewrite bind_eq; [|by apply get_ws_run]. Qed.

Lemma touch_run s l : (forall k, k ∈ l -> is_Some (heap s !! k)) -> touch l s = Ok (tt, s).
Proof.
  induction l as [|k l IH]; intros Hl; cbn [touch]; [done|]. destruct (Hl k) as [v Hv]; [left|].
  erewrite bind_eq; [|by apply get_ws_run]. apply IH. intros k' Hk'. apply Hl. by right.
Qed.
Lemma neighbours_sub w l k : k ∈ neighbours w l -> k ∈ l.
Proof.
  induction l as [|a l IH]; [done|]. destruct l as [|b l]; [by intros ?%not_elem_of_nil|].
  change (neighbours w (a :: b :: l)) with (if a =? w then [b] else if b =? w then a :: take 1 l else neighbours w (b :: l)).
  destruct (a =? w); [intros ->%list_elem_of_singleton; right; left|]. destruct (b =? w); [|intros H; right; by apply IH].
  intros [->|H]%elem_of_cons; [left|]. right. right. destruct l as [|c l]; [by apply not_elem_of_nil in H|]. apply list_elem_of_singleton in H as ->. left.
Qed.
Lemma list_remove_run s w l : (forall k, k ∈ l -> is_Some (heap s !! k)) -> w ∈ l -> list_remove w l s = Ok (filter (fun k => k <> w) l, s).
Proof.
  intros Hl Hw. unfold list_remove. erewrite bind_eq; [done|]. apply touch_run. intros k [->|Hk]%elem_of_cons; [by apply Hl|]. by apply Hl, (neighbours_sub w).
Qed.
Lemma get_child_run s l tid : (forall k, k ∈ l -> is_Some (heap s !! k)) ->
  get_child_by_tid l tid s = Ok (if decide (tid ∈ l) then Some tid else None, s).
Proof.
  induction l as [|k l IH]; intros Hl; cbn [get_child_by_tid]; [by rewrite decide_False by set_solver|]. destruct (Hl k) as [v Hv]; [left|].
  erewrite bind_eq; [|by apply get_ws_run]. destruct (Z.eqb_spec k tid) as [->|Hne]; [by rewrite decide_True by left|].
  rewrite IH by (intros; apply Hl; by right). destruct (decide (tid ∈ l)); [by rewrite decide_True by (by right)|]. by rewrite decide_False by set_solver.
Qed.

Section steps.
Context (par : gmap Z Z) (s : kernel) (p : Z) (x : proc) (I : inv par s) (Hp : procs s !! p = Some x).

Lemma own_record : p <> 1 -> own x || last_test x = true ->
  exists v q z, heap s !! p = Some v /\ par !! p = Some q /\ q <> p /\ procs s !! q = Some z /\ rec_ok p x z (Some v).
Proof.
  intros H1 Ho. destruct (i_rec _ _ I _ _ Hp H1) as (q & z & Hq & Hne & Hz & R). destruct (proj2 (r_some _ _ _ _ R)) as [v Hv].
  { apply orb_true_iff in Ho. destruct (held z p), (own x), (testing z p), (last_test x); naive_solver. }
  exists v, q, z. by rewrite Hv in R.
Qed.
Lemma kid_record k : k ∈ kids x -> held x k || testing x k || exiting x = true ->
  exists y v, procs s !! k = Some y /\ par !! k = Some p /\ k <> 1 /\ k <> p /\ heap s !! k = Some v /\ rec_ok k y x (Some v).
Proof.
  intros Hk Hh. destruct (i_kids _ _ I _ _ Hp) as [_ H]. destruct (H k Hk) as [Hpar [y Hy]]. destruct (i_par _ _ I _ _ Hpar) as [H1 _].
  destruct (i_rec _ _ I _ _ Hy H1) as (q & z & Hq & Hne & Hz & R). assert (q = p) as -> by congruence. assert (z = x) as -> by congruence.
  destruct (proj2 (r_some _ _ _ _ R)) as [v Hv].
  { pose proof (r_exit _ _ _ _ R) as He. destruct (held x k), (own y), (testing x k), (last_test y), (exiting x); try done; naive_solver. }
  exists y, v. rewrite Hv in R. by split_and!.
Qed.
Lemma kids_live : plain x = true \/ exiting x = true -> forall k, k ∈ kids x -> is_Some (heap s !! k).
Proof.
  intros Hx k Hk. destruct (kid_record k Hk) as (y & v & _ & _ & _ & _ & Hv & _); [|by eexists].
  destruct Hx as [P| ->]; [|by rewrite orb_true_r]. destruct (plain_remaining x P) as (E & _). unfold held. by rewrite E, bool_decide_eq_true_2.
Qed.
Lemma par_kid k y : k <> 1 -> par !! k = Some p -> procs s !! k = Some y -> rec_ok k y x (heap s !! k).
Proof.
  intros H1 Hk Hy. destruct (i_rec _ _ I _ _ Hy H1) as (q & z & Hq & _ & Hz & R). by assert (q = p) as -> by congruence; assert (z = x) as -> by congruence.
Qed.
Lemma my_kids : kids_ok x.
Proof. apply (i_kids _ _ I _ _ Hp). Qed.
Lemma first_plain : p = 1 -> plain x = true /\ pc x <> Loading.
Proof. intros ->. destruct (i_first _ _ I) as (z & Hz & H). by assert (z = x) as -> by congruence. Qed.

(** A move outside [process_exit] that leaves the records alone, or changes the semaphores of
    one. *)
Lemma plain_step l r h : plain x = true -> plain (with_pc l x) = true -> l <> Loading ->
  (forall w, pc x <> WaitTake w) -> pc x <> Loading ->
  (forall k, l = ExecDir k \/ l = ExecWait k \/ l = WaitTest k \/ l = WaitDead k \/ l = WaitTake k \/ l = ExecCode k -> k ∈ kids x) ->
  (forall k y, k ∈ kids x -> procs s !! k = Some y -> (l = WaitTake k -> pc y = Gone) /\ (l = ExecDir k -> pc y = Loading)) ->
  (h = heap s \/ exists w v v', w ∈ kids x /\ heap s !! w = Some v /\ h = <[w := v']> (heap s) /\
     ref_cnt v' = ref_cnt v /\ exit_code v' = exit_code v /\ (dead v' = dead v \/ l = WaitTake w)) ->
  inv par (update p (with_pc l (with_result r x)) h s).
Proof.
  intros P P' Hl Hnt Hnl Hpt Hpc Hh. pose proof my_kids as K. set (x' := with_pc l (with_result r x)).
  destruct (plain_remaining x P) as (E1 & E2 & E3 & O & L). destruct (plain_remaining x' P') as (E1' & E2' & E3' & O' & L').
  assert (kids_ok x') as K'.
  { split; [apply K|by rewrite E1'|rewrite E1'; apply K|exact Hpt|intros E; by destruct (Hl E)|]. intros w m E. change (plain x' = true) in P'. unfold plain in P'. by rewrite E in P'. }
  apply (inv_update par s p x); [done|done|done|done| | |done| |].
  - intros k. destruct Hh as [->|(w & v & v' & Hw & Hv & -> & Er & Ec & Edd)]; [done|]. rewrite lookup_insert_is_Some. intros [<-|[_ ?]]; [by eexists|done].
  - intros k _ Hk. destruct Hh as [->|(w & v & v' & Hw & Hv & -> & Er & Ec & Edd)]; [done|]. rewrite lookup_insert_ne; [done|]. by intros ->.
  - intros q z H1 Hq Hz R. assert (h !! p = heap s !! p) as ->.
    { destruct Hh as [->|(w & v & v' & Hw & Hv & -> & Er & Ec & Edd)]; [done|]. rewrite lookup_insert_ne; [done|]. intros ->.
      destruct (kid_record p Hw) as (y & _ & _ & _ & _ & ? & _); [|done]. unfold held. by rewrite E1, bool_decide_eq_true_2. }
    destruct (own_record H1) as (v & _ & _ & Hv & _); [by rewrite O|]. rewrite Hv in *. apply (live_child p x x' z v v); try done.
    + intros Ed. by destruct (Hnl (r_dir _ _ _ _ R Ed)).
    + apply (r_code _ _ _ _ R v eq_refl).
  - intros k y H1 Hne Hk Hy R. destruct (decide (k ∈ kids x)) as [Hin|Hnin]; [|].
    + destruct (Hpc k y Hin Hy) as [Ht Hd]. assert (rec_ok k y x' (heap s !! k)) as R' by (by apply (plain_parent k y x)).
      destruct Hh as [->|(w & v & v' & Hw & Hv & -> & Er & Ec & Edd)]; [done|]. destruct (decide (w = k)) as [->|]; [|by rewrite lookup_insert_ne].
      rewrite lookup_insert_eq. rewrite Hv in R'. destruct R' as [R1 R2 R3 R4 R5 R6 R7]. split; try done.
      * split; [intros _; apply R1; by eexists|by eexists].
      * intros ? [= <-]. rewrite Er. apply (R2 v eq_refl).
      * intros ? [= <-]. destruct Edd as [->|El]; [apply (R3 v eq_refl)|]. subst l. split; [intros Hg; by destruct (Hg (Ht eq_refl))|done].
      * intros ? [= <-]. rewrite Ec. apply (R4 v eq_refl).
    + assert (h !! k = heap s !! k) as ->. { destruct Hh as [->|(w & v & v' & Hw & Hv & -> & Er & Ec & Edd)]; [done|]. rewrite lookup_insert_ne; [done|]. by intros ->. }
      by apply (removed_parent k y x).
Qed.

End steps.

End ProcessFacts.
