(* ===== verification/ProcessSteps.v ===== *)
(** * Processes: every step preserves the invariant *)

From S2P Require Import Prelude Process.
Import Process ProcessFacts.

Module ProcessSteps.

Lemma with_result_same x : with_result (result x) x = x.
Proof. by destruct x. Qed.
Lemma update_ws s p x w v : update p x (<[w := v]> (heap s)) s =
  {| procs := <[p := x]> (procs s); heap := <[w := v]> (heap s); next_tid := next_tid s |}.
Proof. done. Qed.

Section steps.
Context (par : gmap Z Z) (s : kernel) (p : Z) (x : proc) (I : inv par s) (Hp : procs s !! p = Some x).

Definition preserves (c : M kernel unit) : Prop := exists s', c s = Ok (tt, s') /\ inv par s'.
Lemma stays : preserves (ret tt).
Proof. by exists s. Qed.

Lemma plain_goto l : plain x = true -> plain (with_pc l x) = true -> l <> Loading ->
  (forall w, pc x <> WaitTake w) -> pc x <> Loading ->
  (forall k, l = ExecDir k \/ l = ExecWait k \/ l = WaitTest k \/ l = WaitDead k \/ l = WaitTake k \/ l = ExecCode k -> k ∈ kids x) ->
  (forall k y, k ∈ kids x -> procs s !! k = Some y -> (l = WaitTake k -> pc y = Gone) /\ (l = ExecDir k -> pc y = Loading)) ->
  preserves (goto p l).
Proof.
  intros. eexists. split; [by apply goto_run|]. rewrite <- (with_result_same x). apply (plain_step par s p x I Hp); auto.
Qed.

Lemma kid_of w : w ∈ kids x -> plain x = true -> exists y v, procs s !! w = Some y /\ par !! w = Some p /\ w <> 1 /\ w <> p /\ heap s !! w = Some v /\ rec_ok w y x (Some v).
Proof.
  intros Hw P. apply (kid_record par s p x I Hp w Hw). destruct (plain_remaining x P) as (E & _). unfold held. by rewrite E, bool_decide_eq_true_2.
Qed.

Lemma exec_dir_step w : pc x = ExecDir w -> preserves (exec_dir p w).
Proof.
  intros E. assert (plain x = true) as P by (unfold plain; by rewrite E). assert (w ∈ kids x) as Hw by (apply (k_point _ (my_kids par s p x I Hp)); tauto).
  destruct (kid_of w Hw P) as (y & v & Hy & _ & _ & _ & _ & R). unfold preserves, exec_dir. erewrite bind_eq; [|by apply get_proc_run].
  rewrite (r_dir _ _ _ _ R E). apply plain_goto; rewrite ?E; try done.
  intros k [?|[[= <-]|[?|[?|[?|?]]]]]; done.
Qed.
Lemma exec_wait_step w : pc x = ExecWait w -> preserves (exec_wait p w).
Proof.
  intros E. assert (plain x = true) as P by (unfold plain; by rewrite E). assert (w ∈ kids x) as Hw by (apply (k_point _ (my_kids par s p x I Hp)); tauto).
  destruct (kid_of w Hw P) as (y & v & Hy & _ & _ & Hne & Hv & R). unfold preserves, exec_wait. erewrite bind_eq; [|by apply get_ws_run].
  destruct (load_finished v =? 0); [apply stays|]. eexists. split.
  - erewrite bind_eq; [|reflexivity]. erewrite bind_eq; [|by apply get_proc_run]. reflexivity.
  - apply (plain_step par s p x I Hp); rewrite ?E; try done; [by intros k [?|[?|[?|[?|[?|[= <-]]]]]]|].
    right. exists w, v. eexists. split; [done|]. split; [done|]. split; [reflexivity|]. auto.
Qed.
Lemma exec_code_step w : pc x = ExecCode w -> preserves (exec_code p w).
Proof.
  intros E. assert (plain x = true) as P by (unfold plain; by rewrite E). assert (w ∈ kids x) as Hw by (apply (k_point _ (my_kids par s p x I Hp)); tauto).
  destruct (kid_of w Hw P) as (y & v & Hy & _ & _ & Hne & Hv & R). unfold preserves, exec_code. erewrite bind_eq; [|by apply get_proc_run].
  erewrite bind_eq; [|apply get_child_run, (kids_live par s p x I Hp); by left]. rewrite decide_True by done.
  erewrite bind_eq; [|by apply get_ws_run]. eexists. split; [reflexivity|].
  apply (plain_step par s p x I Hp); rewrite ?E; try done; [by intros k [?|[?|[?|[?|[?|?]]]]]|by left].
Qed.
Lemma process_wait_step tid : pc x = Running -> preserves (process_wait p tid).
Proof.
  intros E. assert (plain x = true) as P by (unfold plain; by rewrite E). unfold preserves, process_wait. erewrite bind_eq; [|by apply get_proc_run].
  erewrite bind_eq; [|apply get_child_run, (kids_live par s p x I Hp); by left]. case_decide as Hin.
  - eexists. split; [reflexivity|]. rewrite <- (with_result_same x). apply (plain_step par s p x I Hp (WaitTest tid) (result x) (heap s)); rewrite ?E; auto; try done.
    intros k [?|[?|[[= <-]|[?|[?|?]]]]]; done.
  - eexists. split; [reflexivity|]. assert (with_result (-1) x = with_pc Running (with_result (-1) x)) as -> by (destruct x; cbn in *; by subst).
    apply (plain_step par s p x I Hp); rewrite ?E; auto; try done. by intros k [?|[?|[?|[?|[?|?]]]]].
Qed.
(** The child is at the end: its record is the parent's alone. *)
Lemma child_gone y w : own y = false -> w ∉ windows w y -> pc y = Gone.
Proof. unfold own, windows. destruct (pc y); try done. set_solver. Qed.
Lemma wait_test_step w a : pc x = WaitTest w -> calm_step s p a -> preserves (wait_test p w).
Proof.
  intros E Hc. assert (plain x = true) as P by (unfold plain; by rewrite E). assert (w ∈ kids x) as Hw by (apply (k_point _ (my_kids par s p x I Hp)); tauto).
  destruct (kid_of w Hw P) as (y & v & Hy & _ & _ & Hne & Hv & R). unfold preserves, wait_test. erewrite bind_eq; [|by apply get_ws_run].
  pose proof (r_ref _ _ _ _ R v eq_refl) as Er. destruct (plain_remaining x P) as (Erem & _). unfold held in Er. rewrite Erem, bool_decide_eq_true_2 in Er by done.
  destruct (Z.eqb_spec (ref_cnt v) 2) as [E2|E2].
  - apply plain_goto; rewrite ?E; try done. intros k [?|[?|[?|[[= <-]|[?|?]]]]]; done.
  - apply plain_goto; rewrite ?E; try done; [intros k [?|[?|[?|[?|[[= <-]|?]]]]]; done|].
    intros k z Hk Hz. split; [|done]. intros [= <-]. assert (z = y) as -> by congruence. apply (child_gone y w); [by destruct (own y)|].
    destruct (Hc x Hp) as [_ H]. apply (H w y w Hne Hy). unfold accesses. rewrite E. left.
Qed.
Lemma wait_dead_step w : pc x = WaitDead w -> preserves (wait_dead p w).
Proof.
  intros E. assert (plain x = true) as P by (unfold plain; by rewrite E). assert (w ∈ kids x) as Hw by (apply (k_point _ (my_kids par s p x I Hp)); tauto).
  destruct (kid_of w Hw P) as (y & v & Hy & _ & _ & Hne & Hv & R). unfold preserves, wait_dead. erewrite bind_eq; [|by apply get_ws_run].
  destruct (Z.eqb_spec (dead v) 0) as [|Hd]; [apply stays|]. destruct (r_dead _ _ _ _ R v eq_refl) as [Hd0 _].
  assert (pc y = Gone) as Hg by (destruct (pc y); try done; by destruct Hd; apply Hd0).
  eexists. split; [erewrite bind_eq; [|reflexivity]; by apply goto_run|]. rewrite <- (with_result_same x).
  apply (plain_step par s p x I Hp); rewrite ?E; try done; [intros k [?|[?|[?|[?|[[= <-]|?]]]]]; done| |].
  - intros k z Hk Hz. split; [|done]. intros [= <-]. by assert (z = y) as -> by congruence.
  - right. exists w, v. eexists. split; [done|]. split; [done|]. split; [reflexivity|]. auto.
Qed.

(** The own record of a process that moves without using it. *)
Lemma same_child k y y' z h : own y = true -> last_test y = false -> own y' = true -> last_test y' = false -> status y' = status y ->
  pc y <> Loading -> rec_ok k y z h -> rec_ok k y' z h.
Proof.
  intros O L O' L' Es Hnl R. destruct h as [v|].
  - apply (live_child k y y' z v v); try done; [intros Ed; by destruct (Hnl (r_dir _ _ _ _ R Ed))|]. rewrite Es. apply (r_code _ _ _ _ R v eq_refl).
  - destruct (proj2 (r_some _ _ _ _ R)) as [? ?]; [|done]. rewrite O. by rewrite orb_true_r.
Qed.

Lemma filter_kids w l : (filter (fun k => k <> w) l : list Z) ⊆ l.
Proof. intros k Hk%list_elem_of_filter. apply Hk. Qed.

Lemma wait_take_step w : pc x = WaitTake w -> preserves (wait_take p w).
Proof.
  intros E. assert (plain x = true) as P by (unfold plain; by rewrite E). pose proof (my_kids par s p x I Hp) as K.
  assert (w ∈ kids x) as Hw by (apply (k_point _ K); tauto). destruct (kid_of w Hw P) as (y & v & Hy & Hpar & Hw1 & Hne & Hv & R).
  unfold preserves, wait_take. erewrite bind_eq; [|by apply get_ws_run]. erewrite bind_eq; [|by apply get_proc_run].
  erewrite bind_eq; [|apply list_remove_run; [apply (kids_live par s p x I Hp); by left|done]].
  eexists. split; [erewrite bind_eq; [reflexivity|by eapply free_ws_run]|]. set (x' := with_pc Running _).
  assert (forall k, k ∈ kids x' <-> k <> w /\ k ∈ kids x) as Hk' by (intros k; unfold x'; cbn [kids with_pc with_result with_kids]; by rewrite list_elem_of_filter).
  assert (kids_ok x') as K'.
  { split; [apply NoDup_filter, K|done|apply NoDup_filter, K|by intros k [?|[?|[?|[?|[?|?]]]]]|done|done]. }
  apply (inv_update par s p x); [done|done|done|apply filter_kids| | | | |].
  - intros k. cbn [heap]. rewrite lookup_delete_is_Some. tauto.
  - intros k _ Hk. cbn [heap]. rewrite lookup_delete_ne; [done|]. by intros ->.
  - done.
  - intros q z H1 Hq Hz R'. cbn [heap]. rewrite lookup_delete_ne by done. apply (same_child p x); try done; unfold own, last_test; by rewrite E.
  - intros k z H1 Hkp Hk Hz Rk. cbn [heap]. destruct (decide (k = w)) as [->|Hkw].
    + rewrite lookup_delete_eq. assert (z = y) as -> by congruence. pose proof (r_take _ _ _ _ R E) as Eg.
      assert (held x' w = false) as Eh by (apply bool_decide_eq_false_2; change (remaining x') with (kids x'); rewrite Hk'; tauto).
      split; rewrite ?Eh; try done. unfold own, last_test. rewrite Eg. split; [by intros [? ?]|done].
    + rewrite lookup_delete_ne by done. assert (held x' k = held x k) as Eh.
      { destruct (plain_remaining x P) as (Er & _). unfold held. rewrite Er. change (remaining x') with (kids x'). apply bool_decide_ext. rewrite Hk'. tauto. }
      destruct Rk as [R1 R2 R3 R4 R5 R6 R7]. destruct (plain_remaining x P) as (_ & _ & Et & _). rewrite Et in R1.
      split; rewrite ?Eh; try done. intros u Hu. destruct (R3 u Hu) as [Ra Rb]. split; [done|]. intros Hg _. apply Rb; [done|]. rewrite E. congruence.
Qed.

Lemma start_process_step ok a : pc x = Loading -> a = Load ok -> calm_step s p a -> preserves (start_process p ok).
Proof.
  intros E -> Hc. assert (p <> 1) as H1 by (intros ->; by destruct (first_plain par s 1 x I Hp eq_refl)).
  destruct (own_record par s p x I Hp H1) as (v & q & z & Hv & Hq & Hqp & Hz & R); [unfold own; by rewrite E|].
  pose proof (my_kids par s p x I Hp) as K. pose proof (k_load _ K E) as Ek.
  unfold preserves, start_process. erewrite bind_eq; [|by apply get_ws_run]. eexists. split; [erewrite bind_eq; [|reflexivity]; by apply goto_run|].
  set (x' := with_pc _ x). assert (own x' = true /\ last_test x' = false /\ remaining x' = []) as (O' & L' & E') by (unfold x', remaining; destruct ok; by rewrite ?Ek).
  assert (kids_ok x') as K'.
  { split; [apply K|rewrite E'; by apply list_subseteq_nil|rewrite E'; constructor| | |]; destruct ok; cbn; naive_solver. }
  apply (inv_update par s p x); [done|done|done|done| | |done| |].
  - intros k. cbn [heap]. rewrite lookup_insert_is_Some. intros [<-|[_ ?]]; [by eexists|done].
  - intros k Hk _. cbn [heap]. by rewrite lookup_insert_ne.
  - intros q' z' _ Hq' Hz' R'. assert (q' = q) as -> by congruence. assert (z' = z) as -> by congruence. cbn [heap]. rewrite lookup_insert_eq.
    apply (live_child p x x' z v); try done; try (unfold own, last_test; by rewrite E).
    + intros Ed. destruct (Hc x Hp) as [_ H]. apply (H q z p Hqp Hz); [unfold accesses; rewrite E; left|]. unfold windows. rewrite Ed. left.
    + apply (r_code _ _ _ _ R v eq_refl).
  - intros k y Hk1 Hkp Hk Hy Rk. cbn [heap]. rewrite lookup_insert_ne by done. apply (removed_parent k y x); try done; cbn [x' kids with_pc]; rewrite Ek; apply not_elem_of_nil.
Qed.

(** The start of [process_exit]: no child is between the two tests of its count. *)
Lemma begin_exit x' h : pc x = Running -> p <> 1 -> kids x' = kids x -> pc x' = ExitKids (kids x) ->
  (forall k y, k ∈ kids x -> procs s !! k = Some y -> last_test y = false) ->
  (forall k, k <> p -> h !! k = heap s !! k) -> (forall k, is_Some (h !! k) -> is_Some (heap s !! k)) ->
  (forall q z, par !! p = Some q -> procs s !! q = Some z -> rec_ok p x z (heap s !! p) -> rec_ok p x' z (h !! p)) ->
  inv par (update p x' h s).
Proof.
  intros E H1 Ek E' Hl Hh Hh2 Hown. assert (plain x = true) as P by (unfold plain; by rewrite E). pose proof (my_kids par s p x I Hp) as K.
  destruct (plain_remaining x P) as (Er & Ee & Et & _). assert (remaining x' = kids x) as Er' by (unfold remaining; by rewrite E').
  assert (kids_ok x') as K'. { split; rewrite ?Ek, ?Er', ?E'; [apply K|done|apply K|by intros k [?|[?|[?|[?|[?|?]]]]]|done|done]. }
  apply (inv_update par s p x); [done|done|done|by rewrite Ek|done|auto|done|intros q z _; by apply Hown|].
  intros k y Hk1 Hkp Hk Hy R. rewrite Hh by done. assert (held x' k = held x k) as Eh by (unfold held; by rewrite Er, Er').
  destruct R as [R1 R2 R3 R4 R5 R6 R7]. rewrite Et in R1. assert (testing x' k = false) as Et' by (unfold testing; by rewrite E').
  split; rewrite ?Eh, ?Et', ?E'; try done.
  - intros v Hv. destruct (R3 v Hv). split; [done|]. intros Hg _. rewrite E in *. auto.
  - intros _ Hin. rewrite Ek in Hin. split; [|by apply (Hl k)]. unfold held. by rewrite Er, bool_decide_eq_true_2.
Qed.
Lemma calm_children a : pc x = Running -> (exists n, a = Exit n) \/ a = Kill -> calm_step s p a ->
  p <> 1 /\ forall k y, k ∈ kids x -> procs s !! k = Some y -> last_test y = false.
Proof.
  intros E Ha Hc. destruct (Hc x Hp) as [H1 H]. split; [intros H1'; specialize (H1 H1'); by destruct Ha as [[n ->]| ->]|].
  intros k y Hk Hy. assert (k <> p) as Hkp.
  { destruct (kid_of k Hk) as (_ & _ & _ & _ & _ & ? & _); [unfold plain; by rewrite E|done]. }
  assert (k ∈ accesses p x a) as Hin by (unfold accesses; rewrite E; destruct Ha as [[n ->]| ->]; [by right|done]).
  specialize (H k y k Hkp Hy Hin). unfold last_test, windows in *. destruct (pc y); try done. set_solver.
Qed.
Lemma exit_step n : pc x = Running -> calm_step s p (Exit n) -> preserves (exit p n).
Proof.
  intros E Hc. destruct (calm_children (Exit n) E ltac:(eauto) Hc) as [H1 Hl].
  destruct (own_record par s p x I Hp H1) as (v & q & z & Hv & Hq & Hqp & Hz & R); [unfold own; by rewrite E|].
  unfold preserves, exit. erewrite bind_eq; [|by apply get_ws_run]. eexists. split; [erewrite bind_eq; [|reflexivity]; erewrite bind_eq; [reflexivity|by apply get_proc_run]|].
  apply begin_exit; try done.
  - intros k Hk. cbn [heap]. by rewrite lookup_insert_ne.
  - intros k. cbn [heap]. rewrite lookup_insert_is_Some. intros [<-|[_ ?]]; [by eexists|done].
  - intros q' z' Hq' Hz' R'. cbn [heap]. rewrite lookup_insert_eq. rewrite Hv in R'. apply (live_child p x _ z' v); try done; try (unfold own, last_test; by rewrite E).
    intros Ed. pose proof (r_dir _ _ _ _ R' Ed). congruence.
Qed.
Lemma kill_step : pc x = Running -> calm_step s p Kill -> preserves (kill p).
Proof.
  intros E Hc. destruct (calm_children Kill E ltac:(eauto) Hc) as [H1 Hl]. unfold preserves, kill. eexists. split; [by erewrite bind_eq; [|by apply get_proc_run]|].
  apply begin_exit; try done. intros q z Hq Hz R. apply (same_child p x); try done; unfold own, last_test; by rewrite E.
Qed.

(** A move of a process whose record is not used, for which only the children matter. *)
Lemma move x' h : p <> 1 -> own x = true -> last_test x = false -> own x' = true -> last_test x' = false -> pc x <> Loading -> status x' = status x ->
  kids_ok x' -> kids x' ⊆ kids x -> h !! p = heap s !! p ->
  (forall k, k <> p -> k ∉ kids x -> h !! k = heap s !! k) -> (forall k, is_Some (h !! k) -> is_Some (heap s !! k)) ->
  (forall k y, k ∈ kids x -> k <> p -> procs s !! k = Some y -> rec_ok k y x (heap s !! k) -> rec_ok k y x' (h !! k)) ->
  inv par (update p x' h s).
Proof.
  intros H1 O L O' L' Hnl Es K' Hs Hhp Hh Hh2 Hkids. pose proof (my_kids par s p x I Hp) as K.
  apply (inv_update par s p x); [done|done|done|done|done|done|done| |].
  - intros q z _ Hq Hz R. rewrite Hhp. by apply (same_child p x).
  - intros k y Hk1 Hkp Hk Hy R. destruct (decide (k ∈ kids x)) as [Hin|Hnin]; [by apply Hkids|]. rewrite Hh by done. apply (removed_parent k y x); auto.
Qed.

Lemma exit_kids_nil_step : pc x = ExitKids [] -> preserves (goto p ExitSelf).
Proof.
  intros E. assert (p <> 1) as H1 by (intros ->; destruct (first_plain par s 1 x I Hp eq_refl) as [P _]; unfold plain in P; by rewrite E in P).
  pose proof (my_kids par s p x I Hp) as K. eexists. split; [by apply goto_run|].
  apply move; try done; try (unfold own, last_test; by rewrite E).
  - split; [apply K|by apply list_subseteq_nil|constructor|by intros k [?|[?|[?|[?|[?|?]]]]]|done|done].
  - intros k y Hk Hkp Hy [R1 R2 R3 R4 R5 R6 R7]. assert (held x k = false /\ testing x k = false) as [Eh Et] by (unfold held, testing, remaining; by rewrite E).
    rewrite Eh, Et in R1. split; try done.
    + intros v Hv. rewrite (R2 v Hv). by rewrite Eh.
    + intros v Hv. destruct (R3 v Hv) as [Ra Rb]. split; [done|]. intros Hg _. apply Rb; [done|]. by rewrite E.
Qed.

Lemma exit_kid_step w l : pc x = ExitKids (w :: l) -> preserves (exit_kid p w l).
Proof.
  intros E. assert (p <> 1) as H1 by (intros ->; destruct (first_plain par s 1 x I Hp eq_refl) as [P _]; unfold plain in P; by rewrite E in P).
  pose proof (my_kids par s p x I Hp) as K. assert (remaining x = w :: l) as Er by (unfold remaining; by rewrite E).
  assert (w ∈ kids x) as Hw by (apply (k_rem _ K); rewrite Er; left). pose proof (k_rem_nodup _ K) as Hnd. rewrite Er in Hnd. apply NoDup_cons in Hnd as [Hwl Hnd].
  destruct (kid_record par s p x I Hp w Hw) as (y & v & Hy & Hpar & Hw1 & Hne & Hv & R); [unfold exiting; rewrite E; by rewrite orb_true_r|].
  unfold preserves, exit_kid. erewrite bind_eq; [|by apply get_ws_run]. eexists. split; [erewrite bind_eq; [|reflexivity]; by apply goto_run|].
  set (x' := with_pc _ x). assert (forall k, held x' k = bool_decide (k ∈ l)) as Eh' by done.
  apply move; try done; try (unfold own, last_test; by rewrite E); cbn [heap].
  - split; [apply K|intros k Hk; apply (k_rem _ K); rewrite Er; by right|done|by intros k [?|[?|[?|[?|[?|?]]]]]|done|]. intros w' l' [= <- <-]. done.
  - by rewrite lookup_insert_ne.
  - intros k _ Hk. rewrite lookup_insert_ne; [done|]. by intros ->.
  - intros k. rewrite lookup_insert_is_Some. intros [<-|[_ ?]]; [by eexists|done].
  - intros k z Hk Hkp Hz [R1 R2 R3 R4 R5 R6 R7]. assert (exiting x = true) as Ex by (unfold exiting; by rewrite E). destruct (R7 Ex Hk) as [R8 R9].
    assert (testing x k = false) as Et by (unfold testing; by rewrite E). assert (held x k = bool_decide (k ∈ w :: l)) as Eh by (unfold held; by rewrite Er).
    destruct (decide (k = w)) as [->|Hkw].
    + rewrite lookup_insert_eq. rewrite Hv in *. rewrite bool_decide_eq_true_2 in Eh by left. assert (testing x' w = true) as Et' by apply Z.eqb_refl.
      assert (held x' w = false) as Eh'w by (rewrite Eh'; by apply bool_decide_eq_false_2). split; rewrite ?Et', ?Eh'w, ?R9.
      * split; [intros _; by rewrite orb_true_r|by eexists].
      * intros ? [= <-]. cbn [ref_cnt with_ref]. rewrite (R2 v eq_refl), Eh. cbn. lia.
      * intros ? [= <-]. destruct (R3 v eq_refl) as [Ra Rb]. split; [done|]. intros Hg _. apply Rb; [done|]. by rewrite E.
      * intros ? [= <-]. apply (R4 v eq_refl).
      * done.
      * done.
      * intros _ _. by split.
    + rewrite lookup_insert_ne by done. assert (testing x' k = false) as Et' by (by apply Z.eqb_neq).
      assert (held x' k = held x k) as Ehk by (rewrite Eh, Eh'; apply bool_decide_ext; set_solver). rewrite Et in *. split; rewrite ?Et', ?Ehk; try done.
      intros u Hu. destruct (R3 u Hu) as [Ra Rb]. split; [done|]. intros Hg _. apply Rb; [done|]. by rewrite E.
Qed.

Lemma exit_kid_test_step w l : pc x = ExitKidTest w l -> preserves (exit_kid_test p w l).
Proof.
  intros E. assert (p <> 1) as H1 by (intros ->; destruct (first_plain par s 1 x I Hp eq_refl) as [P _]; unfold plain in P; by rewrite E in P).
  pose proof (my_kids par s p x I Hp) as K. assert (remaining x = l) as Er by (unfold remaining; by rewrite E). destruct (k_test _ K _ _ E) as [Hw Hwl].
  assert (exiting x = true) as Ex by (unfold exiting; by rewrite E).
  destruct (kid_record par s p x I Hp w Hw) as (y & v & Hy & Hpar & Hw1 & Hne & Hv & R); [rewrite Ex; by rewrite orb_true_r|].
  assert (held x w = false) as Ehw by (unfold held; rewrite Er; by apply bool_decide_eq_false_2). pose proof (r_ref _ _ _ _ R v eq_refl) as Eref. rewrite Ehw in Eref.
  destruct (r_exit _ _ _ _ R Ex Hw) as [R8 R9].
  assert (forall k z x', k <> w -> pc x' = ExitKids l -> (k ∈ kids x' -> k ∈ kids x) -> rec_ok k z x (heap s !! k) -> rec_ok k z x' (heap s !! k)) as Hother.
  { intros k z x' Hkw E' Hk' [R1 R2 R3 R4 R5 R6 R7]. assert (testing x k = false) as Et by (unfold testing; rewrite E; by apply Z.eqb_neq).
    assert (held x' k = held x k /\ testing x' k = false) as [Eh' Et'] by (unfold held, testing; rewrite Er; unfold remaining; by rewrite E').
    rewrite Et in *. split; rewrite ?Eh', ?Et', ?E'; try done; [|by intros _ Hk; apply R7; auto].
    intros u Hu. destruct (R3 u Hu) as [Ra Rb]. split; [done|]. intros Hg _. apply Rb; [done|]. by rewrite E. }
  unfold preserves, exit_kid_test. erewrite bind_eq; [|by apply get_ws_run]. destruct (Z.eqb_spec (ref_cnt v) 0) as [E0|E0].
  - assert (own y = false) as Ho by (destruct (own y); [cbn in Eref; lia|done]).
    erewrite bind_eq; [|by apply get_proc_run]. erewrite bind_eq; [|apply list_remove_run; [apply (kids_live par s p x I Hp); by right|done]].
    eexists. split; [erewrite bind_eq; [reflexivity|by eapply free_ws_run]|]. set (x' := with_pc _ _).
    assert (forall k, k ∈ kids x' <-> k <> w /\ k ∈ kids x) as Hk' by (intros k; unfold x'; cbn [kids with_pc with_kids]; by rewrite list_elem_of_filter).
    apply move; try done; try (unfold own, last_test; by rewrite E); cbn [heap]; [|apply filter_kids|by rewrite lookup_delete_ne| | |].
    + split; [apply NoDup_filter, K|intros k Hk; apply Hk'; split; [by intros ->|apply (k_rem _ K); by rewrite Er]|change (NoDup l); rewrite <- Er; apply K|by intros k [?|[?|[?|[?|[?|?]]]]]|done|done].
    + intros k _ Hk. rewrite lookup_delete_ne; [done|]. by intros ->.
    + intros k. rewrite lookup_delete_is_Some. tauto.
    + intros k z Hk Hkp Hz Rk. destruct (decide (k = w)) as [->|Hkw]; [|rewrite lookup_delete_ne by done; apply Hother; try done; rewrite Hk'; tauto].
      rewrite lookup_delete_eq. assert (z = y) as -> by congruence. assert (held x' w = false) as Eh by (by apply bool_decide_eq_false_2).
      split; rewrite ?Eh, ?Ho, ?R9; try done; try (by split; [intros [? ?]|]). intros _ Hin. apply Hk' in Hin. tauto.
  - assert (own y = true) as Ho by (destruct (own y); [done|cbn in Eref; lia]). eexists. split; [by apply goto_run|].
    apply move; try done; try (unfold own, last_test; by rewrite E).
    + split; [apply K|change (l ⊆ kids x); rewrite <- Er; apply K|change (NoDup l); rewrite <- Er; apply K|by intros k [?|[?|[?|[?|[?|?]]]]]|done|done].
    + intros k z Hk Hkp Hz Rk. destruct (decide (k = w)) as [->|Hkw]; [|by apply Hother]. assert (z = y) as -> by congruence. rewrite Hv in *.
      destruct Rk as [R1 R2 R3 R4 R5 R6 R7]. set (x' := with_pc _ x). assert (held x' w = false) as Eh by (by apply bool_decide_eq_false_2).
      split; rewrite ?Eh, ?Ho, ?R9; try done.
      * intros u [= <-]. by rewrite Eref, Ho.
      * intros u [= <-]. destruct (R3 v eq_refl) as [Ra Rb]. split; [done|]. intros Hg. unfold own in Ho. by rewrite Hg in Ho.
Qed.

(** The parent is not going through the list of its children, nor has it just started this one. *)
Lemma calm_parent a q z : p ∈ accesses p x a -> calm_step s p a -> q <> p -> procs s !! q = Some z -> p ∉ windows q z.
Proof. intros Ha Hc Hq Hz. destruct (Hc x Hp) as [_ H]. by apply (H q z p). Qed.
Lemma exit_self_step a : pc x = ExitSelf -> calm_step s p a -> preserves (exit_self p).
Proof.
  intros E Hc. assert (p <> 1) as H1 by (intros ->; destruct (first_plain par s 1 x I Hp eq_refl) as [P _]; unfold plain in P; by rewrite E in P).
  destruct (own_record par s p x I Hp H1) as (v & q & z & Hv & Hq & Hqp & Hz & R); [unfold own; by rewrite E|]. pose proof (my_kids par s p x I Hp) as K.
  assert (p ∉ windows q z) as Hwin by (apply (calm_parent a); try done; unfold accesses; rewrite E; left).
  unfold preserves, exit_self. erewrite bind_eq; [|by apply get_ws_run]. eexists. split; [erewrite bind_eq; [|reflexivity]; by apply goto_run|].
  apply (inv_update par s p x); [done|done| |done| | |done| |]; cbn [heap].
  - split; [apply K|by apply list_subseteq_nil|constructor|by intros k [?|[?|[?|[?|[?|?]]]]]|done|done].
  - intros k. rewrite lookup_insert_is_Some. intros [<-|[_ ?]]; [by eexists|done].
  - intros k Hk _. by rewrite lookup_insert_ne.
  - intros q' z' _ Hq' Hz' _. assert (q' = q) as -> by congruence. assert (z' = z) as -> by congruence. rewrite lookup_insert_eq.
    destruct R as [R1 R2 R3 R4 R5 R6 R7]. assert (own x = true) as O by (unfold own; by rewrite E). split; cbn.
    + split; [intros _; by rewrite orb_true_r|by eexists].
    + intros ? [= <-]. cbn. rewrite (R2 v eq_refl), O. cbn. lia.
    + intros ? [= <-]. destruct (R3 v eq_refl) as [Ra _]. split; [|done]. intros _. apply Ra. by rewrite E.
    + intros ? [= <-]. apply (R4 v eq_refl).
    + intros Et. rewrite (R5 Et) in E. done.
    + intros Ed. rewrite (R6 Ed) in E. done.
    + intros He Hk. exfalso. apply Hwin. unfold exiting, windows in *. by destruct (pc z).
  - intros k y Hk1 Hkp Hk Hy [R1 R2 R3 R4 R5 R6 R7]. rewrite lookup_insert_ne by done.
    assert (held x k = false /\ testing x k = false) as [Eh Et] by (unfold held, testing, remaining; by rewrite E). rewrite Eh, Et in *. split; try done.
    intros u Hu. destruct (R3 u Hu) as [Ra Rb]. split; [done|]. intros Hg _. apply Rb; [done|]. by rewrite E.
Qed.
Lemma exit_test_step a : pc x = ExitTest -> calm_step s p a -> preserves (exit_test p).
Proof.
  intros E Hc. assert (p <> 1) as H1 by (intros ->; destruct (first_plain par s 1 x I Hp eq_refl) as [P _]; unfold plain in P; by rewrite E in P).
  destruct (own_record par s p x I Hp H1) as (v & q & z & Hv & Hq & Hqp & Hz & R); [unfold own, last_test; by rewrite E|]. pose proof (my_kids par s p x I Hp) as K.
  assert (p ∉ windows q z) as Hwin by (apply (calm_parent a); try done; unfold accesses; rewrite E; left).
  assert (testing z p = false) as Etz.
  { unfold testing. destruct (pc z) as [| | | | | | | | |w l| | |] eqn:Ez; try done. apply Z.eqb_neq. intros ->. apply Hwin. unfold windows. rewrite Ez.
    destruct (i_kids _ _ I _ _ Hz) as [Kz _]. apply (k_test _ Kz _ _ Ez). }
  pose proof (r_ref _ _ _ _ R v eq_refl) as Eref. assert (own x = false) as O by (unfold own; by rewrite E). rewrite O in Eref.
  destruct (r_dead _ _ _ _ R v eq_refl) as [Hd _]. specialize (Hd ltac:(by rewrite E)).
  set (x' := with_pc Gone x). set (h := if ref_cnt v =? 0 then delete p (heap s) else <[p := with_dead (dead v + 1) v]> (heap s)).
  exists (update p x' h s). split.
  { unfold exit_test. erewrite bind_eq; [|by apply get_ws_run]. unfold h. destruct (ref_cnt v =? 0).
    - erewrite bind_eq; [|by eapply free_ws_run]. by rewrite (goto_run _ p x).
    - erewrite bind_eq; [|reflexivity]. by rewrite (goto_run _ p x). }
  apply (inv_update par s p x); [done|done| |done| | |done| |].
  - split; [apply K|by apply list_subseteq_nil|constructor|by intros k [?|[?|[?|[?|[?|?]]]]]|done|done].
  - intros k. unfold h. destruct (ref_cnt v =? 0); [rewrite lookup_delete_is_Some; tauto|]. rewrite lookup_insert_is_Some. intros [<-|[_ ?]]; [by eexists|done].
  - intros k Hk _. unfold h. destruct (ref_cnt v =? 0); [by rewrite lookup_delete_ne|by rewrite lookup_insert_ne].
  - intros q' z' _ Hq' Hz' _. assert (q' = q) as -> by congruence. assert (z' = z) as -> by congruence. destruct R as [R1 R2 R3 R4 R5 R6 R7].
    assert (exiting z = true -> p ∈ kids z -> False) as Hno. { intros He Hk. apply Hwin. unfold exiting, windows in *. by destruct (pc z). }
    unfold h. destruct (Z.eqb_spec (ref_cnt v) 0) as [E0|E0].
    + rewrite lookup_delete_eq. assert (held z p = false) as Eh by (destruct (held z p); [cbn in Eref; lia|done]). split; rewrite ?Eh, ?Etz; try done.
      * intros Ed. rewrite (R6 Ed) in E. done.
      * intros He Hk. by destruct (Hno He Hk).
    + rewrite lookup_insert_eq. assert (held z p = true) as Eh by (destruct (held z p); [done|cbn in Eref; lia]). split; rewrite ?Eh, ?Etz; try done.
      * intros ? [= <-]. cbn. by rewrite Eref, Eh.
      * intros ? [= <-]. cbn. split; [done|]. lia.
      * intros ? [= <-]. apply (R4 v eq_refl).
      * intros Ed. rewrite (R6 Ed) in E. done.
  - intros k y Hk1 Hkp Hk Hy [R1 R2 R3 R4 R5 R6 R7]. assert (h !! k = heap s !! k) as ->.
    { unfold h. destruct (ref_cnt v =? 0); [by rewrite lookup_delete_ne|by rewrite lookup_insert_ne]. }
    assert (held x k = false /\ testing x k = false) as [Eh Et] by (unfold held, testing, remaining; by rewrite E). rewrite Eh, Et in *. split; try done.
    intros u Hu. destruct (R3 u Hu) as [Ra Rb]. split; [done|]. intros Hg _. apply Rb; [done|]. by rewrite E.
Qed.

(** A new process. *)
Lemma create_step (n := next_tid s) : pc x = Running -> exists s', create p s = Ok (tt, s') /\ inv (<[n := p]> par) s'.
Proof.
  intros E. assert (plain x = true) as P by (unfold plain; by rewrite E). pose proof (my_kids par s p x I Hp) as K.
  destruct (plain_remaining x P) as (Er & Ee & Et & O & L). pose proof (i_range _ _ I p ltac:(by eexists)) as Hpn. fold n in Hpn.
  assert (procs s !! n = None) as Hn by (apply eq_None_not_Some; intros Hs; apply (i_range _ _ I) in Hs; unfold n in Hs; lia).
  assert (heap s !! n = None) as Hhn by (apply eq_None_not_Some; intros Hs; destruct (i_heap _ _ I _ Hs) as [_ [? ?]]; congruence).
  assert (par !! n = None) as Hparn by (destruct (par !! n) as [q|] eqn:Eq; [|done]; destruct (i_par _ _ I _ _ Eq) as [_ [? ?]]; congruence).
  assert (n ∉ kids x) as Hnk by (intros Hk; destruct (i_kids _ _ I _ _ Hp) as [_ H]; destruct (H n Hk); congruence).
  set (x' := with_pc (ExecDir n) (with_kids (kids x ++ [n]) x)). set (c := {| kids := []; pc := Loading; status := None; result := 0 |}).
  exists {| procs := <[p := x']> (<[n := c]> (procs s)); heap := <[n := init_wait_status]> (heap s); next_tid := n + 1 |}. split.
  { unfold create. do 4 (erewrite bind_eq; [|reflexivity]). cbn [procs heap next_tid]. erewrite bind_eq; [|apply get_proc_run; cbn [procs]; by rewrite lookup_insert_ne by lia].
    erewrite bind_eq; [|apply touch_run]; [reflexivity|]. intros k Hk. cbn [heap]. rewrite lookup_insert_is_Some.
    assert (k ∈ kids x) as Hkx by (rewrite <- (take_drop (length (kids x) - 1) (kids x)); apply elem_of_app; by right).
    right. split; [intros Heq; apply Hnk; change n with (next_tid s); by rewrite Heq|]. apply (kids_live par s p x I Hp); [by left|done]. }
  pose proof (i_range _ _ I) as Hrange. change (next_tid s) with n in Hrange. clearbody n.
  assert (forall q, is_Some (<[p := x']> (<[n := c]> (procs s)) !! q) <-> q = n \/ is_Some (procs s !! q)) as Hsome.
  { intros q. rewrite !lookup_insert_is_Some. destruct (decide (p = q)) as [<-|]; [|destruct (decide (n = q)); naive_solver]. split; [by eauto|by left]. }
  assert (p <> n /\ n <> 1) as [Hpn' Hn1] by (pose proof (i_first _ _ I) as (f & Hf & _); pose proof (Hrange 1 ltac:(by eexists)); lia).
  split; cbn [procs heap next_tid].
  - intros q [->|Hq]%Hsome; [lia|]. specialize (Hrange _ Hq). lia.
  - intros q y Hq. destruct (decide (p = q)) as [<-|Hqp]; [|destruct (decide (n = q)) as [<-|Hqn]].
    + rewrite lookup_insert_eq in Hq. injection Hq as <-. split.
      * split; cbn [x' kids pc remaining with_pc with_kids]; try done.
        -- apply NoDup_app. split; [apply K|]. split; [set_solver|]. apply NoDup_singleton.
        -- apply NoDup_app. split; [apply K|]. split; [set_solver|]. apply NoDup_singleton.
        -- intros w [[= <-]|[?|[?|[?|[?|?]]]]]; [|done..]. set_solver.
      * intros k [Hk|Hk%list_elem_of_singleton]%elem_of_app; [|subst k; by rewrite lookup_insert_eq, Hsome; auto].
        rewrite lookup_insert_ne, Hsome by (by intros ->). destruct (i_kids _ _ I _ _ Hp) as [_ H]. destruct (H k Hk). auto.
    + rewrite lookup_insert_ne, lookup_insert_eq in Hq by done. injection Hq as <-. split; [|set_solver].
      split; cbn; try done; [constructor|constructor|naive_solver].
    + rewrite !lookup_insert_ne in Hq by done. destruct (i_kids _ _ I _ _ Hq) as [Kq H]. split; [done|]. intros k Hk. destruct (H k Hk) as [H3 H4].
      rewrite lookup_insert_ne, Hsome by (intros <-; congruence). auto.
  - intros k y Hk Hk1. destruct (decide (n = k)) as [<-|Hkn].
    + rewrite lookup_insert_ne, lookup_insert_eq in Hk by done. injection Hk as <-. exists p, x'. rewrite !lookup_insert_eq. do 3 (split; [done|]).
      assert (held x' n = true) as Eh by (apply bool_decide_eq_true_2; cbn; set_solver). split; rewrite ?Eh; try done.
      * by intros v [= <-].
      * by intros v [= <-].
      * by intros v [= <-].
    + rewrite (lookup_insert_ne (heap s)) by done. rewrite (lookup_insert_ne par) by done. destruct (decide (p = k)) as [<-|Hkp].
      * rewrite lookup_insert_eq in Hk. injection Hk as <-. destruct (i_rec _ _ I _ _ Hp Hk1) as (q & z & Hq & Hqp & Hz & R). exists q, z.
        split; [done|]. split; [done|]. split; [rewrite !lookup_insert_ne by congruence; done|]. apply (same_child p x); try done. by rewrite E.
      * rewrite !lookup_insert_ne in Hk by done. destruct (i_rec _ _ I _ _ Hk Hk1) as (q & z & Hq & Hqk & Hz & R). destruct (decide (p = q)) as [<-|Hpq].
        -- assert (z = x) as -> by congruence. exists p, x'. split; [done|]. split; [done|]. split; [apply lookup_insert_eq|].
           assert (held x' k = held x k) as Eh by (unfold held; rewrite Er; apply bool_decide_ext; cbn; set_solver).
           destruct R as [R1 R2 R3 R4 R5 R6 R7]. rewrite Et in R1. split; rewrite ?Eh; try done.
           ++ intros v Hv. destruct (R3 v Hv) as [Ra Rb]. split; [done|]. intros Hg _. apply Rb; [done|]. by rewrite E.
           ++ by intros [= ->].
        -- exists q, z. split; [done|]. split; [done|]. split; [rewrite !lookup_insert_ne by congruence; done|done].
  - intros k q. destruct (decide (n = k)) as [<-|Hkn]; [intros _; rewrite Hsome; auto|]. rewrite lookup_insert_ne by done. intros Hk.
    destruct (i_par _ _ I _ _ Hk). rewrite Hsome. auto.
  - intros k. rewrite lookup_insert_is_Some. intros [<-|[_ Hk]]; [rewrite Hsome; auto|]. destruct (i_heap _ _ I _ Hk). rewrite Hsome. auto.
  - destruct (i_first _ _ I) as (f & Hf & Hpf). destruct (decide (p = 1)) as [->|Hp1]; [exists x'; split; [apply lookup_insert_eq|done]|].
    exists f. split; [by rewrite !lookup_insert_ne|done].
Qed.
End steps.

(** Every calm step is possible and preserves the invariant. *)
Lemma machine_step_inv par s p x a : inv par s -> procs s !! p = Some x -> calm_step s p a -> exists s' par', step p a s = Ok (tt, s') /\ inv par' s'.
Proof.
  intros I Hp Hc. assert (forall c, preserves par s c -> exists s' par', c s = Ok (tt, s') /\ inv par' s') as Hpr by (intros c (s' & ? & ?); eauto).
  unfold step. rewrite (bind_eq _ _ _ _ _ (get_proc_run s p x Hp)). destruct (pc x) eqn:E.
  - destruct a; try (apply Hpr, stays; done). apply Hpr. by eapply start_process_step.
  - destruct a; try (apply Hpr, stays; done).
    + destruct (create_step par s p x I Hp E) as (s' & ? & ?). eauto.
    + apply Hpr. by eapply process_wait_step.
    + apply Hpr. by eapply exit_step.
    + apply Hpr. by eapply kill_step.
  - apply Hpr. by eapply exec_dir_step.
  - apply Hpr. by eapply exec_wait_step.
  - apply Hpr. by eapply exec_code_step.
  - apply Hpr. by eapply wait_test_step.
  - apply Hpr. by eapply wait_dead_step.
  - apply Hpr. by eapply wait_take_step.
  - destruct l as [|w l]; apply Hpr; [by eapply exit_kids_nil_step|by eapply exit_kid_step].
  - apply Hpr. by eapply exit_kid_test_step.
  - apply Hpr. by eapply exit_self_step.
  - apply Hpr. by eapply exit_test_step.
  - apply Hpr, stays. done.
Qed.

End ProcessSteps.
