(* ===== verification/ProcessProps.v ===== *)
(** * Processes: the properties *)

From S2P Require Import Prelude Process ProcessSteps.
Import Process ProcessFacts ProcessSteps.

Module ProcessProps.

(** A schedule in which no process uses a record while another one is in a window on it. *)
Fixpoint calm (l : list (Z * action)) (s : kernel) : Prop :=
  match l with
  | [] => True
  | (p, a) :: l => is_Some (procs s !! p) /\ calm_step s p a /\ forall s', step p a s = Ok (tt, s') -> calm l s'
  end.

(** What holds between steps: a process that has found its child dead is about to return the
    status of the child, a process waits for the death of a child only while the child is alive,
    and there is a record only for a process that can still use it or whose parent can. *)
Record sound (s : kernel) : Prop := {
  s_wait : forall p x w a, procs s !! p = Some x -> pc x = WaitTake w ->
    exists y s' x', procs s !! w = Some y /\ pc y = Gone /\ step p a s = Ok (tt, s') /\ procs s' !! p = Some x' /\
      pc x' = Running /\ result x' = default 0 (status y) /\ heap s' !! w = None;
  s_block : forall p x w, procs s !! p = Some x -> pc x = WaitDead w ->
    exists y v, procs s !! w = Some y /\ heap s !! w = Some v /\ (dead v = 0 <-> pc y <> Gone);
  s_record : forall k, is_Some (heap s !! k) -> exists y p x, procs s !! k = Some y /\ procs s !! p = Some x /\
    (pc y <> Gone \/ k ∈ kids x /\ plain x || exiting x = true) }.

Lemma inv_sound par s : inv par s -> sound s.
Proof.
  intros I. split.
  - intros p x w a Hp E. assert (plain x = true) as P by (unfold plain; by rewrite E). pose proof (my_kids par s p x I Hp) as K.
    assert (w ∈ kids x) as Hw by (apply (k_point _ K); tauto). destruct (kid_of par s p x I Hp w Hw P) as (y & v & Hy & _ & _ & Hne & Hv & R).
    exists y. eexists. eexists. split; [done|]. split; [by apply (r_take _ _ _ _ R)|]. split.
    { unfold step. rewrite (bind_eq _ _ _ _ _ (get_proc_run s p x Hp)), E. unfold wait_take. erewrite bind_eq; [|by apply get_ws_run].
      erewrite bind_eq; [|by apply get_proc_run]. erewrite bind_eq; [|apply list_remove_run; [apply (kids_live par s p x I Hp); by left|done]].
      by erewrite bind_eq; [|by eapply free_ws_run]. }
    cbn [procs heap]. split; [apply lookup_insert_eq|]. split; [done|]. split; [exact (r_code _ _ _ _ R v eq_refl)|apply lookup_delete_eq].
  - intros p x w Hp E. assert (plain x = true) as P by (unfold plain; by rewrite E). assert (w ∈ kids x) as Hw by (apply (k_point _ (my_kids par s p x I Hp)); tauto).
    destruct (kid_of par s p x I Hp w Hw P) as (y & v & Hy & _ & _ & _ & Hv & R). exists y, v. split; [done|]. split; [done|].
    destruct (r_dead _ _ _ _ R v eq_refl) as [H0 H1]. split; [|done]. intros Hd Hg. rewrite H1 in Hd; [done|done|]. by rewrite E.
  - intros k Hk. destruct (i_heap _ _ I _ Hk) as [Hk1 [y Hy]]. destruct (i_rec _ _ I _ _ Hy Hk1) as (p & x & Hpar & Hne & Hx & R).
    exists y, p, x. split; [done|]. split; [done|]. pose proof (my_kids par s p x I Hx) as K. destruct (decide (pc y = Gone)) as [Eg|]; [right|by left].
    apply (r_some _ _ _ _ R) in Hk. unfold own, last_test in Hk. rewrite Eg, !orb_false_r in Hk. apply orb_true_iff in Hk as [Hh|Ht].
    + apply bool_decide_eq_true_1 in Hh. split; [by apply (k_rem _ K)|]. unfold remaining, plain, exiting in *. destruct (pc x); try done; by apply not_elem_of_nil in Hh.
    + unfold testing in Ht. destruct (pc x) eqn:Ex; try done. apply Z.eqb_eq in Ht as ->. split; [by apply (k_test _ K _ _ Ex)|]. unfold plain, exiting. by rewrite Ex.
Qed.

Lemma machine_boot_inv : inv ∅ boot.
Proof.
  split; cbn [boot procs heap next_tid].
  - intros p [x [<- _]%lookup_singleton_Some]. lia.
  - intros p x [<- <-]%lookup_singleton_Some. split; [|set_solver]. split; cbn; try done; [constructor|constructor|naive_solver].
  - intros k y [<- _]%lookup_singleton_Some. done.
  - intros k p. by rewrite lookup_empty.
  - intros k. by rewrite lookup_empty, is_Some_alt.
  - eexists. split; [apply lookup_singleton_eq|done].
Qed.
Lemma run_inv l : forall s par, inv par s -> calm l s -> exists s' par', run l s = Ok (tt, s') /\ inv par' s'.
Proof.
  induction l as [|[p a] l IH]; intros s par I Hc; cbn [run calm] in *; [by exists s, par|]. destruct Hc as ([x Hp] & Hstep & Hc).
  destruct (machine_step_inv par s p x a I Hp Hstep) as (s1 & par1 & E & I1). erewrite bind_eq; [|exact E]. by apply (IH s1 par1), Hc.
Qed.

(** C8: However processes start, await and outlive each other, as long as the first process
    does not exit; a new process does not finish loading before its parent has set its
    directory; no child of a process finishes loading, calls [exit] or takes its last steps
    while that process goes through the list of its children in [process_exit]; and no process
    uses the record of a child, or begins to exit, while the child is between the two tests of
    its count: no record is used after it has been freed or freed twice, [process_wait] returns
    the status that the child has passed to [exit] - zero if it was killed -, a process is
    blocked in [process_wait] only while the child is alive, and the record of a process is
    freed once it and its parent are gone. *)
Theorem processes_safe l : calm l boot -> exists s, run l boot = Ok (tt, s) /\ sound s.
Proof.
  intros Hc. destruct (run_inv l boot ∅ machine_boot_inv Hc) as (s & par & E & I). exists s. split; [done|]. by apply (inv_sound par).
Qed.

Lemma run_app l l' s : run (l ++ l') s = (do! run l; run l') s.
Proof.
  revert s. induction l as [|[p a] l IH]; intros s; [done|]. cbn [app run]. unfold bind. destruct (step p a s) as [[[] s1]|]; [|done]. apply IH.
Qed.
Lemma touch_err s k l : k ∈ l -> heap s !! k = None -> touch l s = Err WildAccess.
Proof.
  intros Hk Hn. induction l as [|a l IH]; [by apply not_elem_of_nil in Hk|]. cbn [touch]. destruct (heap s !! a) as [v|] eqn:Ha.
  - erewrite bind_eq; [|by apply get_ws_run]. apply IH. apply elem_of_cons in Hk as [->|Hk]; [congruence|done].
  - apply bind_err. unfold get_ws. by rewrite Ha.
Qed.
(** The process frees its record in its last step. *)
Lemma exit_test_frees s p x v : procs s !! p = Some x -> heap s !! p = Some v ->
  exists h, exit_test p s = Ok (tt, update p (with_pc Gone x) h s) /\ (ref_cnt v = 0 -> h = delete p (heap s)).
Proof.
  intros Hp Hv. unfold exit_test. erewrite bind_eq; [|by apply get_ws_run]. destruct (Z.eqb_spec (ref_cnt v) 0) as [|Hne].
  - exists (delete p (heap s)). split; [erewrite bind_eq; [|by eapply free_ws_run]; by rewrite (goto_run _ p x)|done].
  - exists (<[p := with_dead (dead v + 1) v]> (heap s)). split; [erewrite bind_eq; [|reflexivity]; by rewrite (goto_run _ p x)|done].
Qed.
(** The parent takes the record and frees it. *)
Lemma wait_take_frees s p x c v a : procs s !! p = Some x -> pc x = Running -> c ∈ kids x -> (forall k, k ∈ kids x -> is_Some (heap s !! k)) ->
  heap s !! c = Some v -> ref_cnt v = 1 ->
  exists x', run [(p, Wait c); (p, a); (p, a)] s = Ok (tt, update p x' (delete c (heap s)) s).
Proof.
  intros Hp Ex Hc Hl Hv Hr. cbn [run]. unfold step at 1. erewrite bind_eq; [|erewrite bind_eq; [|by apply get_proc_run]; rewrite Ex; unfold process_wait;
    erewrite bind_eq; [|by apply get_proc_run]; erewrite bind_eq; [|by apply get_child_run]; rewrite decide_True by done; reflexivity].
  set (s1 := {| procs := _ |}). assert (procs s1 !! p = Some (with_pc (WaitTest c) x)) as H1 by apply lookup_insert_eq.
  erewrite bind_eq; [|unfold step; erewrite bind_eq; [|by apply get_proc_run]; cbn [pc with_pc]; unfold wait_test;
    erewrite bind_eq; [|by apply (get_ws_run s1 c v)]; rewrite Hr; by apply goto_run].
  set (s2 := update _ _ _ s1). assert (procs s2 !! p = Some (with_pc (WaitTake c) (with_pc (WaitTest c) x))) as H2 by apply lookup_insert_eq.
  eexists. erewrite bind_eq; [reflexivity|]. unfold step. erewrite bind_eq; [|by apply get_proc_run]. cbn [pc with_pc]. unfold wait_take.
  erewrite bind_eq; [|by apply (get_ws_run s2 c v)]. erewrite bind_eq; [|by apply get_proc_run]. erewrite bind_eq; [|by apply list_remove_run].
  erewrite bind_eq; [|by apply (free_ws_run s2 c v)]. unfold set_proc, modify, update, s2, s1. cbn. by rewrite !insert_insert_eq.
Qed.

(** C40: Whatever else is going on, while a process [c] is between the two tests of its count
    in [process_exit], its parent makes the kernel use memory that is gone, in three ways.  When
    the parent calls [process_wait] for it, the parent frees the record that the process is about
    to test.  When the parent goes through the list of its children and is about to remove a
    record next to that of [c], and [c] frees its own first, the removal uses it.  And when the
    parent has not yet looked for the thread that it has started, it finds none. *)
Theorem process_races s p c x y v a b :
  p <> c -> procs s !! p = Some x -> procs s !! c = Some y -> pc y = ExitTest -> heap s !! c = Some v ->
  (pc x = Running -> c ∈ kids x -> (forall k, k ∈ kids x -> is_Some (heap s !! k)) -> ref_cnt v = 1 ->
     run [(p, Wait c); (p, a); (p, a); (c, b)] s = Err WildAccess) /\
  (forall w l u, pc x = ExitKidTest w l -> w <> c -> heap s !! w = Some u -> ref_cnt u = 0 -> c ∈ neighbours w (kids x) -> ref_cnt v = 0 ->
     run [(c, b); (p, a)] s = Err WildAccess) /\
  (pc x = ExecDir c -> run [(c, b); (p, a)] s = Err WildAccess).
Proof.
  intros Hne Hp Hc Ey Hv. assert (forall s, procs s !! c = Some y -> step c b s = exit_test c s) as Hs
    by (intros s' H; unfold step; erewrite bind_eq; [|by apply get_proc_run]; by rewrite Ey).
  destruct (exit_test_frees s c y v Hc Hv) as (h & Ec & Hh). set (s1 := update c (with_pc Gone y) h s) in *.
  assert (procs s1 !! p = Some x) as Hp1 by (cbn; by rewrite lookup_insert_ne). split; [|split].
  - intros Ex Hk Hl Hr. destruct (wait_take_frees s p x c v a Hp Ex Hk Hl Hv Hr) as [x' E].
    change [(p, Wait c); (p, a); (p, a); (c, b)] with ([(p, Wait c); (p, a); (p, a)] ++ [(c, b)]). rewrite run_app.
    erewrite bind_eq; [|exact E]. cbn [run]. apply bind_err. rewrite Hs by (cbn; by rewrite lookup_insert_ne).
    apply bind_err. unfold get_ws. cbn. by rewrite lookup_delete_eq.
  - intros w l u Ex Hw Hu Hru Hn Hrv. cbn [run]. erewrite bind_eq; [|rewrite Hs by done; exact Ec]. apply bind_err. unfold step.
    erewrite bind_eq; [|by apply get_proc_run]. rewrite Ex. unfold exit_kid_test. specialize (Hh Hrv). subst h.
    erewrite bind_eq; [|apply (get_ws_run s1 w u); cbn; by rewrite lookup_delete_ne]. rewrite Hru. change (0 =? 0) with true. cbv iota. erewrite bind_eq; [|by apply get_proc_run].
    apply bind_err. unfold list_remove. apply bind_err, (touch_err s1 c); [by right|]. cbn. apply lookup_delete_eq.
  - intros Ex. cbn [run]. erewrite bind_eq; [|rewrite Hs by done; exact Ec]. apply bind_err. unfold step.
    erewrite bind_eq; [|by apply get_proc_run]. rewrite Ex. unfold exec_dir. erewrite bind_eq; [|apply get_proc_run, lookup_insert_eq]. done.
Qed.

(** ** An instance: a child that exits with status 7 while its parent waits *)

Definition calm_stepb (s : kernel) (p : Z) (a : action) : bool :=
  match procs s !! p with
  | None => false
  | Some x =>
      (negb (p =? 1) || match a with Exit _ | Kill => false | _ => true end) &&
      forallb (fun '(q, y) => (q =? p) || forallb (fun w => bool_decide (w ∉ windows q y)) (accesses p x a)) (map_to_list (procs s))
  end.
Lemma calm_stepb_sound s p a : calm_stepb s p a = true -> is_Some (procs s !! p) /\ calm_step s p a.
Proof.
  unfold calm_stepb, calm_step. destruct (procs s !! p) as [x|]; [|done]. intros [H1 H2]%andb_prop. split; [by eexists|]. intros ? [= <-]. split.
  - intros ->. cbn in H1. by destruct a.
  - intros q y w Hq Hy Hw. rewrite forallb_forall in H2. specialize (H2 (q, y) ltac:(by apply list_elem_of_In, elem_of_map_to_list)).
    cbn in H2. rewrite (proj2 (Z.eqb_neq _ _) Hq) in H2. cbn [orb] in H2. rewrite forallb_forall in H2. specialize (H2 w ltac:(by apply list_elem_of_In)).
    by apply bool_decide_eq_true_1 in H2.
Qed.
Fixpoint calmb (l : list (Z * action)) (s : kernel) : bool :=
  match l with
  | [] => true
  | (p, a) :: l => calm_stepb s p a && match step p a s with Ok (_, s') => calmb l s' | Err _ => true end
  end.
Lemma calmb_sound l : forall s, calmb l s = true -> calm l s.
Proof.
  induction l as [|[p a] l IH]; intros s; cbn [calmb calm]; [done|]. intros [H1 H2]%andb_prop. destruct (calm_stepb_sound s p a H1).
  split; [done|]. split; [done|]. intros s' E. rewrite E in H2. by apply IH.
Qed.

Definition sample_schedule : list (Z * action) :=
  [(1, Exec); (1, Continue); (2, Load true); (1, Continue); (1, Continue); (1, Wait 2); (1, Continue); (2, Exit 7); (2, Continue); (2, Continue); (2, Continue);
   (1, Continue); (1, Continue)].
Lemma processes_safe_witness : exists s, run sample_schedule boot = Ok (tt, s) /\ sound s.
Proof. apply (processes_safe sample_schedule). apply calmb_sound. vm_compute. reflexivity. Defined.


(** Each of the three from boot. *)
Definition start (p c : Z) : list (Z * action) := [(p, Exec); (p, Continue); (c, Load true); (p, Continue); (p, Continue)].
Definition halfway (p : Z) : list (Z * action) := [(p, Exit 7); (p, Continue); (p, Continue)].
Definition after (l : list (Z * action)) : kernel := match run l boot with Ok (_, s) => s | Err _ => boot end.
Definition siblings : list (Z * action) :=
  start 1 2 ++ start 2 3 ++ start 2 4 ++ halfway 4 ++ [(4, Continue); (2, Exit 7); (2, Continue); (2, Continue)] ++ halfway 3 ++ [(2, Continue)].
Definition dying : proc := {| kids := []; pc := ExitTest; status := Some 7; result := 0 |}.
Definition record (r n : Z) : wait_status := {| ref_cnt := r; exit_code := 7; load_code := 0; dead := n; load_finished := 0 |}.
Lemma process_races_witness :
  run [(1, Wait 2); (1, Continue); (1, Continue); (2, Continue)] (after (start 1 2 ++ halfway 2)) = Err WildAccess /\
  run [(3, Continue); (2, Continue)] (after siblings) = Err WildAccess /\
  run [(2, Continue); (1, Continue)] (after ([(1, Exec); (2, Load true)] ++ halfway 2)) = Err WildAccess.
Proof.
  split; [|split].
  - refine (proj1 (process_races (after (start 1 2 ++ halfway 2)) 1 2 {| kids := [2]; pc := Running; status := None; result := 2 |} dying (record 1 0) Continue Continue ltac:(done)
      ltac:(vm_compute; reflexivity) ltac:(vm_compute; reflexivity) eq_refl ltac:(vm_compute; reflexivity)) eq_refl _ _ eq_refl); [apply list_elem_of_here|].
    intros k ->%list_elem_of_singleton. exists (record 1 0). vm_compute. reflexivity.
  - refine (proj1 (proj2 (process_races (after siblings) 2 3 {| kids := [3; 4]; pc := ExitKidTest 4 []; status := Some 7; result := 4 |} dying (record 0 0) Continue Continue ltac:(done)
      ltac:(vm_compute; reflexivity) ltac:(vm_compute; reflexivity) eq_refl ltac:(vm_compute; reflexivity))) 4 [] (record 0 1) eq_refl ltac:(done) _ eq_refl _ eq_refl);
      [vm_compute; reflexivity|apply list_elem_of_here].
  - exact (proj2 (proj2 (process_races (after ([(1, Exec); (2, Load true)] ++ halfway 2)) 1 2 {| kids := [2]; pc := ExecDir 2; status := None; result := 0 |} dying (with_load 0 1 (record 1 0)) Continue Continue ltac:(done)
      ltac:(vm_compute; reflexivity) ltac:(vm_compute; reflexivity) eq_refl ltac:(vm_compute; reflexivity))) eq_refl).
Defined.

End ProcessProps.
