(* ===== verification/KListFacts.v ===== *)
(** * lib/kernel/list.c: what each operation does to the represented sequence

    [is_list h L xs]: in the store [h], the list at address [L] holds exactly
    the elements [xs], in order, correctly linked both ways between its two
    headers.  Every operation of [KList] is shown to succeed (no assertion
    fails, no access is wild, no bound runs out) and to change the sequence as
    documented, and to leave every element outside the list untouched. *)

From S2P Require Import Prelude KList.
Import KList.

Module KListFacts.

(** ** The represented sequence *)

Definition nx (h : heap) (x : Z) : option Z := next <$> h !! x.
Definition pv (h : heap) (x : Z) : option Z := prev <$> h !! x.

Definition links (h : heap) (x y : Z) : Prop := nx h x = Some y /\ pv h y = Some x.

Fixpoint path (h : heap) (l : list Z) : Prop :=
  match l with
  | x :: ((y :: _) as t) => links h x y /\ path h t
  | _ => True
  end.

(** All the nodes of a list, headers included. *)
Definition nodes (L : Z) (xs : list Z) : list Z := head_of L :: xs ++ [tail_of L].

Record is_list (h : heap) (L : Z) (xs : list Z) : Prop := {
  il_path : path h (nodes L xs);
  il_head : pv h (head_of L) = Some NULL;
  il_tail : nx h (tail_of L) = Some NULL;
  il_nodup : NoDup (nodes L xs);
  il_null : NULL ∉ nodes L xs }.

(** An iterator stands before the suffix that is still to be visited. *)
Definition pos (L : Z) (suffix : list Z) : Z :=
  match suffix with x :: _ => x | [] => tail_of L end.

(** [h'] differs from [h] at most in the links of the nodes [F]. *)
Definition frame (F : list Z) (h h' : heap) : Prop :=
  (forall y, y ∉ F -> h' !! y = h !! y) /\ (forall y, is_Some (h' !! y) <-> is_Some (h !! y)).

(** ** Reading and writing links *)

Section store.
Implicit Types (h : heap) (e x v : Z).

Lemma nx_some h x v : nx h x = Some v -> is_Some (h !! x).
Proof. unfold nx. destruct (h !! x); [eauto|done]. Qed.
Lemma pv_some h x v : pv h x = Some v -> is_Some (h !! x).
Proof. unfold pv. destruct (h !! x); [eauto|done]. Qed.

Lemma nx_set_next_eq h e v : is_Some (h !! e) -> nx (set_next h e v) e = Some v.
Proof. intros [n Hn]. unfold nx, set_next. by rewrite lookup_alter_eq, Hn. Qed.
Lemma nx_set_next_ne h e v x : x <> e -> nx (set_next h e v) x = nx h x.
Proof. intros. unfold nx, set_next. by rewrite lookup_alter_ne. Qed.
Lemma pv_set_next h e v x : pv (set_next h e v) x = pv h x.
Proof.
  unfold pv, set_next. rewrite lookup_alter. case_decide; [subst|done].
  by destruct (h !! x).
Qed.
Lemma pv_set_prev_eq h e v : is_Some (h !! e) -> pv (set_prev h e v) e = Some v.
Proof. intros [n Hn]. unfold pv, set_prev. by rewrite lookup_alter_eq, Hn. Qed.
Lemma pv_set_prev_ne h e v x : x <> e -> pv (set_prev h e v) x = pv h x.
Proof. intros. unfold pv, set_prev. by rewrite lookup_alter_ne. Qed.
Lemma nx_set_prev h e v x : nx (set_prev h e v) x = nx h x.
Proof.
  unfold nx, set_prev. rewrite lookup_alter. case_decide; [subst|done].
  by destruct (h !! x).
Qed.

Lemma alloc_set_next h e v x : is_Some (set_next h e v !! x) <-> is_Some (h !! x).
Proof.
  unfold set_next. rewrite lookup_alter. case_decide; [subst|done]. apply fmap_is_Some.
Qed.
Lemma alloc_set_prev h e v x : is_Some (set_prev h e v !! x) <-> is_Some (h !! x).
Proof.
  unfold set_prev. rewrite lookup_alter. case_decide; [subst|done]. apply fmap_is_Some.
Qed.

Lemma rd_next_run h e v : nx h e = Some v -> rd_next e h = Ok (v, h).
Proof. unfold nx, rd_next, bind, ld. destruct (h !! e) as [n|]; [|done]. by intros [= <-]. Qed.
Lemma rd_prev_run h e v : pv h e = Some v -> rd_prev e h = Ok (v, h).
Proof. unfold pv, rd_prev, bind, ld. destruct (h !! e) as [n|]; [|done]. by intros [= <-]. Qed.
Lemma wr_next_run h e v : is_Some (h !! e) -> wr_next e v h = Ok (tt, set_next h e v).
Proof. intros [n Hn]. unfold wr_next, bind, ld. by rewrite Hn. Qed.
Lemma wr_prev_run h e v : is_Some (h !! e) -> wr_prev e v h = Ok (tt, set_prev h e v).
Proof. intros [n Hn]. unfold wr_prev, bind, ld. by rewrite Hn. Qed.

Lemma is_head_run h e p n :
  e <> NULL -> pv h e = Some p -> nx h e = Some n ->
  is_head e h = Ok ((p =? NULL) && negb (n =? NULL), h).
Proof.
  intros He Hp Hn. unfold is_head. rewrite (proj2 (Z.eqb_neq _ _) He).
  erewrite bind_eq; [|by apply rd_prev_run]. destruct (p =? NULL); simpl; [|done].
  erewrite bind_eq; [|by apply rd_next_run]. done.
Qed.
Lemma is_interior_run h e p n :
  e <> NULL -> pv h e = Some p -> nx h e = Some n ->
  is_interior e h = Ok (negb (p =? NULL) && negb (n =? NULL), h).
Proof.
  intros He Hp Hn. unfold is_interior. rewrite (proj2 (Z.eqb_neq _ _) He).
  erewrite bind_eq; [|by apply rd_prev_run]. destruct (p =? NULL); simpl; [done|].
  erewrite bind_eq; [|by apply rd_next_run]. done.
Qed.
Lemma is_tail_run h e p n :
  e <> NULL -> pv h e = Some p -> nx h e = Some n ->
  is_tail e h = Ok (negb (p =? NULL) && (n =? NULL), h).
Proof.
  intros He Hp Hn. unfold is_tail. rewrite (proj2 (Z.eqb_neq _ _) He).
  erewrite bind_eq; [|by apply rd_prev_run]. destruct (p =? NULL); simpl; [done|].
  erewrite bind_eq; [|by apply rd_next_run]. done.
Qed.
End store.

(** A node with a predecessor may be inserted before: it is interior or a tail. *)
Lemma before_ok_run h e p n :
  e <> NULL -> p <> NULL -> pv h e = Some p -> nx h e = Some n ->
  massert (orm (is_interior e) (is_tail e)) h = Ok (tt, h).
Proof.
  intros He Hp Hpv Hnx. unfold massert, orm, bind.
  rewrite (is_interior_run _ _ p n), (proj2 (Z.eqb_neq _ _) Hp) by done.
  destruct (n =? NULL) eqn:E; simpl; [|done].
  by rewrite (is_tail_run _ _ p n), (proj2 (Z.eqb_neq _ _) Hp), E by done.
Qed.

Lemma after_ok_run h e p n :
  e <> NULL -> n <> NULL -> pv h e = Some p -> nx h e = Some n ->
  massert (orm (is_head e) (is_interior e)) h = Ok (tt, h).
Proof.
  intros He Hn Hpv Hnx. unfold massert, orm, bind.
  rewrite (is_head_run _ _ p n), (proj2 (Z.eqb_neq _ _) Hn) by done.
  destruct (p =? NULL) eqn:E; simpl; [done|].
  by rewrite (is_interior_run _ _ p n), (proj2 (Z.eqb_neq _ _) Hn), E by done.
Qed.

Lemma interior_ok_run h e p n :
  e <> NULL -> p <> NULL -> n <> NULL -> pv h e = Some p -> nx h e = Some n ->
  massert (is_interior e) h = Ok (tt, h).
Proof.
  intros He Hp Hn Hpv Hnx. unfold massert, bind. rewrite (is_interior_run _ _ p n) by done.
  by rewrite (proj2 (Z.eqb_neq _ _) Hn), (proj2 (Z.eqb_neq _ _) Hp).
Qed.

(** ** Paths *)

Lemma path_cons2 h x y l : path h (x :: y :: l) <-> links h x y /\ path h (y :: l).
Proof. done. Qed.

Lemma path_split h l1 x l2 : path h (l1 ++ x :: l2) <-> path h (l1 ++ [x]) /\ path h (x :: l2).
Proof.
  induction l1 as [|a l1 IH]; [simpl; tauto|].
  destruct l1 as [|b l1]; simpl app in *; [destruct l2; simpl; tauto|].
  rewrite !path_cons2, IH. tauto.
Qed.

Lemma path_links h l1 x y l2 : path h (l1 ++ x :: y :: l2) -> links h x y.
Proof. rewrite path_split. by intros [_ [? _]]. Qed.

Lemma path_ext h h' l :
  (forall x, x ∈ removelast l -> nx h' x = nx h x) ->
  (forall x, x ∈ tl l -> pv h' x = pv h x) ->
  path h l -> path h' l.
Proof.
  induction l as [|a l IH]; [done|]. destruct l as [|b l]; [done|].
  intros Hn Hp [[L1 L2] HP]. split.
  - split; [rewrite Hn|rewrite Hp]; [done|set_solver|done|set_solver].
  - apply IH; [intros x Hx; apply Hn|intros x Hx; apply Hp|done].
    + by apply elem_of_cons; right.
    + simpl in *. set_solver.
Qed.

(** ** Facts about well-linked lists *)

Lemma frame_refl F h : frame F h h.
Proof. done. Qed.
Lemma frame_trans F h1 h2 h3 : frame F h1 h2 -> frame F h2 h3 -> frame F h1 h3.
Proof. intros [A1 B1] [A2 B2]. split; intros y; [intros Hy; by rewrite A2, A1|by rewrite B2, B1]. Qed.
Lemma frame_mono F F' h h' : (forall y, y ∈ F -> y ∈ F') -> frame F h h' -> frame F' h h'.
Proof. intros HF [A B]. split; [|done]. intros y Hy. apply A. auto. Qed.
Lemma frame_set_next F h h' e v : e ∈ F -> frame F h h' -> frame F h (set_next h' e v).
Proof.
  intros He [A B]. split; intros y; [|by rewrite alloc_set_next].
  intros Hy. unfold set_next. rewrite lookup_alter_ne; [auto|]. by intros ->.
Qed.
Lemma frame_set_prev F h h' e v : e ∈ F -> frame F h h' -> frame F h (set_prev h' e v).
Proof.
  intros He [A B]. split; intros y; [|by rewrite alloc_set_prev].
  intros Hy. unfold set_prev. rewrite lookup_alter_ne; [auto|]. by intros ->.
Qed.

Lemma nodes_split L xs1 xs2 :
  nodes L (xs1 ++ xs2) = (head_of L :: xs1) ++ xs2 ++ [tail_of L].
Proof. unfold nodes. simpl. by rewrite <- app_assoc. Qed.

(** The node before the suffix [xs2], and what follows. *)
Lemma suffix_split L xs1 xs2 :
  exists l1 p l2,
    head_of L :: xs1 = l1 ++ [p] /\ xs2 ++ [tail_of L] = pos L xs2 :: l2 /\
    nodes L (xs1 ++ xs2) = l1 ++ p :: pos L xs2 :: l2.
Proof.
  destruct (exists_last (l := head_of L :: xs1) ltac:(done)) as (l1 & p & E).
  exists l1, p. assert (exists l2, xs2 ++ [tail_of L] = pos L xs2 :: l2) as [l2 E2].
  { destruct xs2 as [|x xs2]; simpl; eauto. }
  exists l2. rewrite nodes_split, E, E2. by rewrite <- app_assoc.
Qed.

Section wf.
Context (h : heap) (L : Z).

Lemma il_not_null xs x : is_list h L xs -> x ∈ nodes L xs -> x <> NULL.
Proof. intros Hl Hx ->. by apply (il_null _ _ _ Hl). Qed.

Lemma il_L xs : is_list h L xs -> negb (L =? NULL) = true.
Proof.
  intros Hl. apply negb_true_iff, Z.eqb_neq, (il_not_null xs); [done|].
  apply list_elem_of_here.
Qed.

Lemma il_links xs l1 x y l2 :
  is_list h L xs -> nodes L xs = l1 ++ x :: y :: l2 -> links h x y.
Proof. intros Hl E. eapply path_links. rewrite <- E. apply Hl. Qed.

(** Every node has both links. *)
Lemma il_nx xs l1 x l2 :
  is_list h L xs -> nodes L xs = l1 ++ x :: l2 ->
  nx h x = Some (default NULL (hd_error l2)).
Proof.
  intros Hl E. destruct l2 as [|y l2]; simpl.
  - assert (x = tail_of L) as ->; [|apply Hl].
    assert (last (nodes L xs) = Some x) as Hx by (rewrite E; apply last_snoc).
    unfold nodes in Hx. change (head_of L :: xs ++ [tail_of L])
      with ((head_of L :: xs) ++ [tail_of L]) in Hx. rewrite last_snoc in Hx. congruence.
  - by destruct (il_links _ _ _ _ _ Hl E).
Qed.
Lemma il_pv xs l1 x l2 :
  is_list h L xs -> nodes L xs = l1 ++ x :: l2 ->
  pv h x = Some (default NULL (last l1)).
Proof.
  intros Hl E. destruct l1 as [|y l1] using rev_ind; simpl in *.
  - injection E as <- _. apply Hl.
  - rewrite last_snoc. simpl. rewrite <- app_assoc in E.
    by destruct (il_links _ _ _ _ _ Hl E).
Qed.

Lemma il_alloc xs x : is_list h L xs -> x ∈ nodes L xs -> is_Some (h !! x).
Proof.
  intros Hl (l1 & l2 & E)%list_elem_of_split. eapply nx_some, il_nx; done.
Qed.

Lemma is_list_frame h' F xs :
  is_list h L xs -> frame F h h' -> (forall x, x ∈ nodes L xs -> x ∉ F) -> is_list h' L xs.
Proof.
  intros Hl [HF _] HD.
  assert (forall x, x ∈ nodes L xs -> h' !! x = h !! x) as E by auto.
  assert (tail_of L ∈ nodes L xs) by (unfold nodes; set_solver).
  assert (head_of L ∈ nodes L xs) by (unfold nodes; set_solver).
  destruct Hl. split; [|unfold pv; by rewrite E|unfold nx; by rewrite E|done|done].
  revert il_path0. apply path_ext; intros x Hx; unfold nx, pv; rewrite E; [done| |done|].
  - destruct (exists_last (l := nodes L xs) ltac:(done)) as (l' & a & El).
    rewrite El in *. rewrite removelast_last in Hx. set_solver.
  - unfold nodes in *. simpl in Hx. set_solver.
Qed.
End wf.

(** ** Iteration *)

Section iterate.
Context (h : heap) (L : Z).

Lemma list_begin_pos xs : is_list h L xs -> list_begin L h = Ok (pos L xs, h).
Proof.
  intros Hl. unfold list_begin. erewrite bind_eq; [|apply assert_true, (il_L h L xs), Hl].
  apply rd_next_run. destruct (suffix_split L [] xs) as (l1 & p & l2 & E & _ & E').
  destruct l1 as [|? [|??]]; simplify_eq/=. by eapply (il_links h L xs []).
Qed.

Lemma list_end_run xs : is_list h L xs -> list_end L h = Ok (tail_of L, h).
Proof.
  intros Hl. unfold list_end. by erewrite bind_eq; [|apply assert_true, (il_L h L xs), Hl].
Qed.

Lemma pos_tail xs1 xs2 :
  is_list h L (xs1 ++ xs2) -> (pos L xs2 =? tail_of L) = bool_decide (xs2 = []).
Proof.
  intros Hl. destruct xs2 as [|x xs2]; simpl; [by rewrite Z.eqb_refl|].
  apply Z.eqb_neq. intros ->. pose proof (il_nodup _ _ _ Hl) as Hnd.
  rewrite nodes_split in Hnd. apply NoDup_app in Hnd as (_ & _ & Hnd).
  simpl in Hnd. apply NoDup_cons in Hnd as [Hnd _]. set_solver.
Qed.

Lemma list_next_node xs l1 x y l2 :
  is_list h L xs -> nodes L xs = l1 ++ x :: y :: l2 -> list_next x h = Ok (y, h).
Proof.
  intros Hl E. unfold list_next. erewrite bind_eq; [|eapply after_ok_run].
  - apply rd_next_run. apply (il_links _ _ _ _ _ _ _ Hl E).
  - eapply il_not_null; [done|]. rewrite E. set_solver.
  - eapply (il_not_null h L xs y); [done|]. rewrite E. set_solver.
  - by eapply il_pv.
  - apply (il_links _ _ _ _ _ _ _ Hl E).
Qed.

Lemma list_prev_node xs l1 x y l2 :
  is_list h L xs -> nodes L xs = l1 ++ x :: y :: l2 -> list_prev y h = Ok (x, h).
Proof.
  intros Hl E. unfold list_prev. erewrite bind_eq; [|eapply before_ok_run].
  - apply rd_prev_run. apply (il_links _ _ _ _ _ _ _ Hl E).
  - eapply (il_not_null h L xs y); [done|]. rewrite E. set_solver.
  - eapply (il_not_null h L xs x); [done|]. rewrite E. set_solver.
  - apply (il_links _ _ _ _ _ _ _ Hl E).
  - eapply (il_nx h L xs (l1 ++ [x])); [done|]. by rewrite E, <- app_assoc.
Qed.

Lemma list_next_pos xs1 x xs2 :
  is_list h L (xs1 ++ x :: xs2) -> list_next x h = Ok (pos L xs2, h).
Proof.
  intros Hl. destruct (suffix_split L (xs1 ++ [x]) xs2) as (l1 & p & l2 & E1 & E2 & E3).
  rewrite <- app_assoc in E3. simpl in E3. eapply list_next_node; [done|]. rewrite E3.
  assert (x = p) as ->; [|done].
  change (head_of L :: xs1 ++ [x]) with ((head_of L :: xs1) ++ [x]) in E1.
  by apply app_inj_tail in E1 as [_ ?].
Qed.

Lemma list_prev_pos xs1 x xs2 :
  is_list h L (xs1 ++ x :: xs2) -> list_prev (pos L xs2) h = Ok (x, h).
Proof.
  intros Hl. destruct (suffix_split L (xs1 ++ [x]) xs2) as (l1 & p & l2 & E1 & E2 & E3).
  rewrite <- app_assoc in E3. simpl in E3. eapply list_prev_node; [done|]. rewrite E3.
  assert (x = p) as ->; [|done].
  change (head_of L :: xs1 ++ [x]) with ((head_of L :: xs1) ++ [x]) in E1.
  by apply app_inj_tail in E1 as [_ ?].
Qed.

Lemma list_empty_run xs : is_list h L xs -> list_empty L h = Ok (bool_decide (xs = []), h).
Proof.
  intros Hl. unfold list_empty. erewrite bind_eq; [|by eapply list_begin_pos].
  erewrite bind_eq; [|by eapply list_end_run]. unfold ret. by rewrite (pos_tail []).
Qed.
End iterate.

(** ** Insertion and removal *)

(** Resolve reads of a store after writes to known, distinct nodes. *)
Ltac alloc_side :=
  repeat first [rewrite alloc_set_next | rewrite alloc_set_prev];
  solve [eauto using nx_some, pv_some].
Ltac node_side := solve [done | congruence | intros ->; set_solver].
Ltac read_links :=
  repeat first
    [ rewrite nx_set_prev | rewrite pv_set_next
    | rewrite nx_set_next_ne by node_side | rewrite pv_set_prev_ne by node_side
    | rewrite nx_set_next_eq by alloc_side | rewrite pv_set_prev_eq by alloc_side ].

(** The store after [elem] has been linked in between [p] and [b]. *)
Definition linked_in (h : heap) (p e b : Z) : heap :=
  set_prev (set_next (set_next (set_prev h e p) e b) p e) b e.

Lemma list_insert_run h L xs l1 p b l2 e :
  is_list h L xs -> nodes L xs = l1 ++ p :: b :: l2 ->
  e ∉ nodes L xs -> e <> NULL -> is_Some (h !! e) ->
  list_insert b e h = Ok (tt, linked_in h p e b).
Proof.
  intros Hl E He Hn Ha. destruct (il_links _ _ _ _ _ _ _ Hl E) as [Lp Lb].
  assert (b <> e) by (intros ->; apply He; rewrite E; set_solver).
  assert (p <> e) by (intros ->; apply He; rewrite E; set_solver).
  unfold list_insert. erewrite bind_eq; [|eapply (before_ok_run h b p)].
  - rewrite (proj2 (Z.eqb_neq _ _) Hn). simpl. erewrite bind_eq; [|done].
    erewrite bind_eq; [|by apply rd_prev_run].
    erewrite bind_eq; [|apply wr_prev_run; alloc_side].
    erewrite bind_eq; [|apply wr_next_run; alloc_side].
    erewrite bind_eq; [|apply (rd_prev_run _ _ p); by read_links].
    erewrite bind_eq; [|apply wr_next_run; alloc_side].
    apply wr_prev_run. alloc_side.
  - eapply (il_not_null h L xs b); [done|]. rewrite E. set_solver.
  - eapply (il_not_null h L xs p); [done|]. rewrite E. set_solver.
  - done.
  - eapply (il_nx h L xs (l1 ++ [p])); [done|]. by rewrite E, <- app_assoc.
Qed.

(** A node list with known neighbours, as facts for [read_links]. *)
Lemma nodup_two {A} (l1 : list A) p b l2 :
  NoDup (l1 ++ p :: b :: l2) ->
  p <> b /\ p ∉ l1 /\ b ∉ l1 /\ p ∉ l2 /\ b ∉ l2 /\ NoDup l1 /\ NoDup l2 /\
  (forall x, x ∈ l1 -> x ∉ l2).
Proof.
  rewrite NoDup_app, !NoDup_cons. intros (? & H & ? & ? & ?). split_and!; try set_solver.
Qed.

Lemma removelast_snoc {A} (l : list A) x : removelast (l ++ [x]) = l.
Proof. apply removelast_last. Qed.

(** A prefix and a suffix of a path are unaffected by writes between them. *)
Lemma path_prefix h h' l p :
  (forall x, x ∈ l -> nx h' x = nx h x) ->
  (forall x, x ∈ tl (l ++ [p]) -> pv h' x = pv h x) ->
  path h (l ++ [p]) -> path h' (l ++ [p]).
Proof. intros H1 H2. apply path_ext; [by rewrite removelast_snoc|done]. Qed.

Lemma path_suffix h h' b l :
  (forall x, x ∈ removelast (b :: l) -> nx h' x = nx h x) ->
  (forall x, x ∈ l -> pv h' x = pv h x) ->
  path h (b :: l) -> path h' (b :: l).
Proof. intros H1 H2. by apply path_ext. Qed.

Lemma elem_removelast {A} (x : A) l : x ∈ removelast l -> x ∈ l.
Proof.
  induction l as [|a l IH]; [done|]. destruct l as [|b l]; [by intros ?%elem_of_nil|].
  simpl in *. set_solver.
Qed.
Lemma elem_tl {A} (x : A) l : x ∈ tl l -> x ∈ l.
Proof. destruct l; [done|]. simpl. set_solver. Qed.

Lemma nodup_removelast {A} (l : list A) x : NoDup l -> last l = Some x -> x ∉ removelast l.
Proof.
  intros Hnd (l' & ->)%last_Some. rewrite removelast_snoc. apply NoDup_app in Hnd. set_solver.
Qed.

Section edit.
Context (h : heap) (L : Z).

(** The nodes around an insertion point, all distinct. *)
Lemma around xs1 xs2 :
  is_list h L (xs1 ++ xs2) ->
  exists l1 p l2,
    head_of L :: xs1 = l1 ++ [p] /\ xs2 ++ [tail_of L] = pos L xs2 :: l2 /\
    nodes L (xs1 ++ xs2) = l1 ++ p :: pos L xs2 :: l2 /\
    p <> pos L xs2 /\ p ∉ l1 /\ pos L xs2 ∉ l1 /\ p ∉ l2 /\ pos L xs2 ∉ l2 /\
    NoDup l1 /\ NoDup l2 /\ (forall x, x ∈ l1 -> x ∉ l2) /\
    head_of L <> pos L xs2 /\ tail_of L <> p /\
    head_of L ∈ nodes L (xs1 ++ xs2) /\ tail_of L ∈ nodes L (xs1 ++ xs2) /\
    (forall e, nodes L (xs1 ++ e :: xs2) = l1 ++ p :: e :: pos L xs2 :: l2).
Proof.
  intros Hl. destruct (suffix_split L xs1 xs2) as (l1 & p & l2 & E1 & E2 & E3).
  pose proof (il_nodup _ _ _ Hl) as Hnd. rewrite E3 in Hnd. apply nodup_two in Hnd.
  destruct Hnd as (?&?&?&?&?&?&?&?). exists l1, p, l2. split_and!; try done.
  - assert (head_of L ∈ l1 ++ [p]) by (rewrite <- E1; apply list_elem_of_here).
    intros E. rewrite E in *. set_solver.
  - assert (tail_of L ∈ pos L xs2 :: l2) by (rewrite <- E2; set_solver).
    intros E. rewrite E in *. set_solver.
  - unfold nodes. set_solver.
  - unfold nodes. set_solver.
  - intros e. rewrite nodes_split. simpl. rewrite E2.
    change (head_of L :: xs1 ++ e :: pos L xs2 :: l2)
      with ((head_of L :: xs1) ++ e :: pos L xs2 :: l2). by rewrite E1, <- app_assoc.
Qed.

Lemma list_insert_list xs1 xs2 e :
  is_list h L (xs1 ++ xs2) -> e ∉ nodes L (xs1 ++ xs2) -> e <> NULL -> is_Some (h !! e) ->
  exists h', list_insert (pos L xs2) e h = Ok (tt, h') /\
    is_list h' L (xs1 ++ e :: xs2) /\ frame (e :: nodes L (xs1 ++ xs2)) h h'.
Proof.
  intros Hl He Hn Ha.
  destruct (around _ _ Hl) as (l1&p&l2&E1&E2&E3&?&?&?&?&?&?&?&?&Hh&Ht&Hh'&Ht'&E4).
  set (b := pos L xs2) in *.
  destruct (il_links _ _ _ _ _ _ _ Hl E3) as [Lp Lb].
  assert (e ∉ l1 /\ e <> p /\ e <> b /\ e ∉ l2) as (?&?&?&?)
    by (clear -He E3; rewrite E3 in He; set_solver).
  exists (linked_in h p e b). split; [by eapply list_insert_run|].
  pose proof (il_path _ _ _ Hl) as HP. rewrite E3 in HP. unfold linked_in.
  apply path_split in HP as [HP1 [_ HP2]].
  split; [split|].
  - rewrite E4. apply path_split. split; [|split; [|split]].
    + revert HP1. apply path_prefix; intros x Hx; [|apply elem_tl in Hx]; by read_links.
    + split; by read_links.
    + split; by read_links.
    + revert HP2. apply path_suffix; intros x Hx; [apply elem_removelast in Hx|]; by read_links.
  - assert (head_of L <> e) by congruence. read_links. apply Hl.
  - assert (tail_of L <> e) by congruence. read_links. apply Hl.
  - rewrite E4. pose proof (il_nodup _ _ _ Hl) as Hnd. rewrite E3 in Hnd.
    rewrite NoDup_app, !NoDup_cons in *. set_solver.
  - rewrite E4. pose proof (il_null _ _ _ Hl) as Hnull. rewrite E3 in Hnull.
    clear -Hnull Hn. set_solver.
  - rewrite E3. apply frame_set_prev; [in_list|]. apply frame_set_next; [in_list|].
    apply frame_set_next; [in_list|]. apply frame_set_prev; [in_list|]. apply frame_refl.
Qed.

(** The nodes around the element [x]. *)
Lemma around_elem xs1 x xs2 :
  is_list h L (xs1 ++ x :: xs2) ->
  exists l1 p l2,
    nodes L (xs1 ++ x :: xs2) = l1 ++ p :: x :: pos L xs2 :: l2 /\
    nodes L (xs1 ++ xs2) = l1 ++ p :: pos L xs2 :: l2 /\
    NoDup (l1 ++ p :: x :: pos L xs2 :: l2) /\
    head_of L ∈ l1 ++ [p] /\ tail_of L ∈ pos L xs2 :: l2.
Proof.
  intros Hl. destruct (suffix_split L xs1 xs2) as (l1 & p & l2 & E1 & E2 & E3).
  exists l1, p, l2. pose proof (il_nodup _ _ _ Hl) as Hnd.
  assert (nodes L (xs1 ++ x :: xs2) = l1 ++ p :: x :: pos L xs2 :: l2) as E.
  { rewrite nodes_split. simpl. rewrite E2.
    change (head_of L :: xs1 ++ x :: pos L xs2 :: l2)
      with ((head_of L :: xs1) ++ x :: pos L xs2 :: l2). by rewrite E1, <- app_assoc. }
  rewrite E in Hnd. split_and!; try done.
  - rewrite <- E1. apply list_elem_of_here.
  - rewrite <- E2. apply elem_of_app. right. apply list_elem_of_here.
Qed.

Lemma list_remove_list xs1 x xs2 :
  is_list h L (xs1 ++ x :: xs2) ->
  exists h', list_remove x h = Ok (pos L xs2, h') /\
    is_list h' L (xs1 ++ xs2) /\ frame (nodes L (xs1 ++ xs2)) h h'.
Proof.
  intros Hl. destruct (around_elem _ _ _ Hl) as (l1 & p & l2 & E & E' & Hnd & Hh & Ht).
  set (b := pos L xs2) in *.
  destruct (il_links _ _ _ _ _ _ _ Hl E) as [Lp Lx].
  assert (nodes L (xs1 ++ x :: xs2) = (l1 ++ [p]) ++ x :: b :: l2) as E2
    by (by rewrite <- app_assoc).
  destruct (il_links _ _ _ _ _ _ _ Hl E2) as [Lx' Lb].
  pose proof (il_null _ _ _ Hl) as Hnull. rewrite E in Hnull.
  assert (p <> NULL /\ x <> NULL /\ b <> NULL) as (?&?&?) by set_solver.
  apply NoDup_app in Hnd as (Hn1 & Hd & Hn2).
  rewrite !NoDup_cons in Hn2. destruct Hn2 as (Np & Nx & Nb & Hn2).
  assert (p <> x /\ p <> b /\ x <> b /\ p ∉ l2 /\ x ∉ l2) as (?&?&?&?&?) by set_solver.
  assert (p ∉ l1 /\ x ∉ l1 /\ b ∉ l1) as (?&?&?) by set_solver.
  assert (head_of L <> b) by (intros Eh; rewrite Eh in Hh; set_solver).
  assert (tail_of L <> p) by (intros Et; rewrite Et in Ht; set_solver).
  exists (set_prev (set_next h p b) b p). split; [|split; [split|]].
  - unfold list_remove. erewrite bind_eq; [|by apply (interior_ok_run h x p b)].
    erewrite bind_eq; [|by apply rd_prev_run].
    erewrite bind_eq; [|by apply rd_next_run].
    erewrite bind_eq; [|apply wr_next_run; alloc_side].
    erewrite bind_eq; [|apply (rd_next_run _ _ b); by read_links].
    erewrite bind_eq; [|apply (rd_prev_run _ _ p); by read_links].
    erewrite bind_eq; [|apply wr_prev_run; alloc_side].
    apply rd_next_run. by read_links.
  - rewrite E'. pose proof (il_path _ _ _ Hl) as HP. rewrite E in HP.
    apply path_split in HP as [HP1 (_ & _ & HP2)]. apply path_split. split; [|split].
    + revert HP1. apply path_prefix; intros y Hy; [|apply elem_tl in Hy]; by read_links.
    + split; by read_links.
    + revert HP2. apply path_suffix; intros y Hy; [|by read_links].
      apply elem_removelast in Hy. by read_links.
  - read_links. apply Hl.
  - read_links. apply Hl.
  - rewrite E'. rewrite NoDup_app, !NoDup_cons. set_solver.
  - rewrite E'. set_solver.
  - rewrite E'. apply frame_set_prev; [in_list|]. apply frame_set_next; [in_list|].
    apply frame_refl.
Qed.
End edit.

(** ** Deque operations *)

Section deque.
Context (h : heap) (L : Z).

Lemma list_init_list :
  L <> NULL -> tail_of L <> NULL -> is_Some (h !! head_of L) -> is_Some (h !! tail_of L) ->
  exists h', list_init L h = Ok (tt, h') /\ is_list h' L [] /\ frame (nodes L []) h h'.
Proof.
  intros HL HT Ah At. assert (head_of L <> tail_of L) by (unfold head_of, tail_of; lia).
  exists (set_next (set_prev (set_next (set_prev h (head_of L) NULL)
            (head_of L) (tail_of L)) (tail_of L) (head_of L)) (tail_of L) NULL).
  split; [|split; [split|]].
  - unfold list_init. rewrite (proj2 (Z.eqb_neq _ _) HL). erewrite bind_eq; [|done].
    erewrite bind_eq; [|apply wr_prev_run; alloc_side].
    erewrite bind_eq; [|apply wr_next_run; alloc_side].
    erewrite bind_eq; [|apply wr_prev_run; alloc_side].
    apply wr_next_run. alloc_side.
  - split; [|done]. split; by read_links.
  - by read_links.
  - by read_links.
  - unfold nodes. simpl. rewrite !NoDup_cons. split_and!; [set_solver|set_solver|constructor].
  - unfold nodes, head_of in *. set_solver.
  - unfold nodes. apply frame_set_next; [in_list|]. apply frame_set_prev; [in_list|].
    apply frame_set_next; [in_list|]. apply frame_set_prev; [in_list|]. apply frame_refl.
Qed.

Lemma list_push_front_list xs e :
  is_list h L xs -> e ∉ nodes L xs -> e <> NULL -> is_Some (h !! e) ->
  exists h', list_push_front L e h = Ok (tt, h') /\ is_list h' L (e :: xs) /\
    frame (e :: nodes L xs) h h'.
Proof.
  intros Hl He Hn Ha. unfold list_push_front.
  erewrite bind_eq; [|by eapply list_begin_pos]. by apply (list_insert_list h L [] xs).
Qed.

Lemma list_push_back_list xs e :
  is_list h L xs -> e ∉ nodes L xs -> e <> NULL -> is_Some (h !! e) ->
  exists h', list_push_back L e h = Ok (tt, h') /\ is_list h' L (xs ++ [e]) /\
    frame (e :: nodes L xs) h h'.
Proof.
  intros Hl He Hn Ha. unfold list_push_back.
  erewrite bind_eq; [|by eapply list_end_run].
  pose proof (list_insert_list h L xs []) as HI. rewrite app_nil_r in HI. by apply HI.
Qed.

Lemma not_empty_ok xs : is_list h L xs -> xs <> [] -> massert (negm (list_empty L)) h = Ok (tt, h).
Proof.
  intros Hl Hne. unfold massert, negm, bind. rewrite (list_empty_run h L xs Hl). simpl.
  by rewrite bool_decide_false.
Qed.

Lemma list_pop_front_list x xs :
  is_list h L (x :: xs) ->
  exists h', list_pop_front L h = Ok (x, h') /\ is_list h' L xs /\ frame (nodes L xs) h h'.
Proof.
  intros Hl. destruct (list_remove_list h L [] x xs Hl) as (h' & Hr & Hl' & Hf).
  exists h'. split; [|done]. unfold list_pop_front, list_front.
  erewrite bind_eq; [|erewrite bind_eq; [|by eapply not_empty_ok]].
  - by erewrite bind_eq; [|exact Hr].
  - apply rd_next_run. by destruct (il_links h L (x :: xs) [] (head_of L) x (xs ++ [tail_of L])).
Qed.

Lemma list_pop_back_list xs x :
  is_list h L (xs ++ [x]) ->
  exists h', list_pop_back L h = Ok (x, h') /\ is_list h' L xs /\ frame (nodes L xs) h h'.
Proof.
  intros Hl. destruct (list_remove_list h L xs x [] Hl) as (h' & Hr & Hl' & Hf).
  rewrite app_nil_r in Hl', Hf.
  exists h'. split; [|done]. unfold list_pop_back, list_back.
  erewrite bind_eq; [|erewrite bind_eq; [|eapply not_empty_ok; [done|by destruct xs]]].
  - by erewrite bind_eq; [|exact Hr].
  - apply rd_prev_run. apply (il_links h L (xs ++ [x]) (head_of L :: xs) x (tail_of L) []); [done|].
    unfold nodes. by rewrite <- app_assoc.
Qed.

Lemma list_pop_empty :
  is_list h L [] -> list_pop_front L h = Err AssertFail /\ list_pop_back L h = Err AssertFail.
Proof.
  intros Hl. unfold list_pop_front, list_pop_back, list_front, list_back, massert, negm, bind.
  rewrite (list_empty_run h L [] Hl). by rewrite bool_decide_true.
Qed.

Lemma size_loop_list fuel xs1 xs2 cnt :
  is_list h L (xs1 ++ xs2) -> (length xs2 < fuel)%nat ->
  0 <= cnt -> cnt + Z.of_nat (length xs2) < 2 ^ 32 ->
  size_loop fuel L (pos L xs2) cnt h = Ok (cnt + Z.of_nat (length xs2), h).
Proof.
  revert xs1 xs2 cnt. induction fuel as [|fuel IH]; intros xs1 xs2 cnt Hl Hf H0 Hc; [lia|].
  simpl. erewrite bind_eq; [|by eapply list_end_run].
  rewrite (pos_tail h L xs1 xs2 Hl). destruct xs2 as [|x xs2]; simpl.
  - unfold ret. by rewrite Z.add_0_r.
  - erewrite bind_eq; [|by eapply list_next_pos]. simpl in Hf, Hc.
    rewrite wrapu_small by lia. rewrite (IH (xs1 ++ [x])); [do 2 f_equal; lia| |lia..].
    by rewrite <- app_assoc.
Qed.

Lemma list_size_list fuel xs :
  is_list h L xs -> (length xs < fuel)%nat -> Z.of_nat (length xs) < 2 ^ 32 ->
  list_size fuel L h = Ok (Z.of_nat (length xs), h).
Proof.
  intros Hl Hf Hs. unfold list_size. erewrite bind_eq; [|by eapply list_begin_pos].
  by apply (size_loop_list fuel []).
Qed.
End deque.

End KListFacts.
