(* ===== verification/KListSort.v ===== *)
(** * lib/kernel/list.c: reversal, splicing, sorting and ordered insertion

    The algorithms on top of the links: [list_splice], [list_reverse], the
    natural merge sort [list_sort], [list_insert_ordered], [list_unique],
    [list_max] and [list_min], each shown to compute a function of the
    represented sequence that is defined on Rocq lists. *)

From S2P Require Import Prelude KList KListFacts.
Import KList KListFacts.

Module KListSort.

(** ** The sequences the algorithms compute *)

Section pure.
Context (less : Z -> Z -> bool).

(** The longest nondecreasing run starting at [x], and the rest. *)
Fixpoint take_run (x : Z) (ys : list Z) : list Z * list Z :=
  match ys with
  | [] => ([x], [])
  | y :: ys' =>
      if less y x then ([x], ys)
      else let '(r, rest) := take_run y ys' in (x :: r, rest)
  end.

Fixpoint merge (xs ys : list Z) : list Z :=
  let fix go ys :=
    match xs, ys with
    | [], _ => ys
    | _, [] => xs
    | x :: xs', y :: ys' =>
        if negb (less y x) then x :: merge xs' ys else y :: go ys'
    end in
  go ys.

(** One pass: merge runs two by two; also the number of runs produced. *)
Fixpoint pass (n : nat) (xs : list Z) : list Z * nat :=
  match n, xs with
  | S n, x :: xs' =>
      let '(a, rest) := take_run x xs' in
      match rest with
      | [] => (a, 1%nat)
      | y :: ys =>
          let '(b, rest') := take_run y ys in
          let '(out, c) := pass n rest' in
          (merge a b ++ out, S c)
      end
  | _, _ => ([], 0%nat)
  end.

Fixpoint sort (n : nat) (xs : list Z) : list Z :=
  match n with
  | O => xs
  | S n =>
      let '(xs', c) := pass (length xs) xs in
      if (1 <? c)%nat then sort n xs' else xs'
  end.

Fixpoint insert (x : Z) (ys : list Z) : list Z :=
  match ys with
  | [] => [x]
  | y :: ys' => if less x y then x :: ys else y :: insert x ys'
  end.

(** Keep the first of each group of adjacent equal elements; the others are
    the duplicates. *)
Fixpoint unique (x : Z) (ys : list Z) : list Z * list Z :=
  match ys with
  | [] => ([x], [])
  | y :: ys' =>
      if negb (less x y) && negb (less y x)
      then let '(u, d) := unique x ys' in (u, y :: d)
      else let '(u, d) := unique y ys' in (x :: u, d)
  end.

Definition max_elem (x : Z) (ys : list Z) : Z :=
  foldl (fun m y => if less m y then y else m) x ys.
Definition min_elem (x : Z) (ys : list Z) : Z :=
  foldl (fun m y => if less y m then y else m) x ys.
End pure.

(** ** Splicing *)

Lemma path_app h l1 l2 x y :
  last l1 = Some x -> hd_error l2 = Some y ->
  path h (l1 ++ l2) <-> path h l1 /\ links h x y /\ path h l2.
Proof.
  intros (l1' & ->)%last_Some Hy. destruct l2 as [|y' l2]; [done|]. injection Hy as ->.
  rewrite <- app_assoc. simpl. rewrite path_split. simpl. tauto.
Qed.

(** The store after the range from [first] to [rm] has been moved from between
    [ak] and [q] to between [p] and [b]. *)
Definition spliced (h : heap) (p b ak first rm q : Z) : heap :=
  set_prev (set_next (set_next (set_prev (set_prev (set_next h ak q) q ak) first p) rm b)
              p first) b rm.

Lemma list_splice_run h p b ak first rm q :
  NULL ∉ [p; b; ak; first; rm; q] ->
  b <> first -> b <> q -> p <> rm -> p <> ak -> first <> q -> q <> first -> rm <> ak ->
  is_Some (h !! p) ->
  pv h b = Some p -> (exists n, nx h b = Some n) ->
  links h ak first -> links h rm q -> (exists n, n <> NULL /\ nx h first = Some n) ->
  (exists n, n <> NULL /\ pv h rm = Some n) -> (exists n, nx h q = Some n) ->
  list_splice b first q h = Ok (tt, spliced h p b ak first rm q).
Proof.
  intros Hnull N1 N2 N3 N4 N5 N6 N7 Ap Lb (nb & Hnb) [La Lf] [Lr Lq] (nf & Hf0 & Hnf)
    (pr & Hpr0 & Hpr) (nq & Hnq).
  assert (p <> NULL /\ b <> NULL /\ ak <> NULL /\ first <> NULL /\ rm <> NULL /\ q <> NULL)
    as (?&?&?&?&?&?) by (clear -Hnull; set_solver).
  unfold list_splice. erewrite bind_eq; [|by apply (before_ok_run h b p nb)].
  rewrite (proj2 (Z.eqb_neq _ _) N5).
  erewrite bind_eq; [|unfold list_prev;
    erewrite bind_eq; [by apply rd_prev_run|by apply (before_ok_run h q rm nq)]].
  erewrite bind_eq; [|by apply (interior_ok_run h first ak nf)].
  erewrite bind_eq; [|by apply (interior_ok_run h rm pr q)].
  erewrite bind_eq; [|by apply rd_prev_run].
  erewrite bind_eq; [|by apply rd_next_run].
  erewrite bind_eq; [|apply wr_next_run; alloc_side].
  erewrite bind_eq; [|apply (rd_next_run _ _ q); by read_links].
  erewrite bind_eq; [|apply (rd_prev_run _ _ ak); by read_links].
  erewrite bind_eq; [|apply wr_prev_run; alloc_side].
  erewrite bind_eq; [|apply (rd_prev_run _ _ p); by read_links].
  erewrite bind_eq; [|apply wr_prev_run; alloc_side].
  erewrite bind_eq; [|apply wr_next_run; alloc_side].
  erewrite bind_eq; [|apply (rd_prev_run _ _ p); by read_links].
  erewrite bind_eq; [|apply wr_next_run; alloc_side].
  apply wr_prev_run. alloc_side.
Qed.

(** Every node has a link unless it is a header, and links stay inside. *)
Lemma il_nx_in h L xs l1 x y l2 :
  is_list h L xs -> nodes L xs = l1 ++ x :: y :: l2 ->
  exists n, n <> NULL /\ nx h x = Some n.
Proof.
  intros Hl E. exists y. split; [|apply (il_links _ _ _ _ _ _ _ Hl E)].
  eapply il_not_null; [done|]. rewrite E. set_solver.
Qed.
Lemma il_pv_in h L xs l1 x l2 :
  is_list h L xs -> nodes L xs = l1 ++ x :: l2 -> l1 <> [] ->
  exists n, n <> NULL /\ pv h x = Some n.
Proof.
  intros Hl E (l1' & y & ->)%exists_last. exists y. rewrite <- app_assoc in E.
  split; [|apply (il_links _ _ _ _ _ _ _ Hl E)].
  eapply il_not_null; [done|]. rewrite E. set_solver.
Qed.

(** Segments keep their inner links when only the links between segments are
    rewritten: the next links of [ns] and the previous links of [ps]. *)
Lemma path_keep h h' l (ns ps : list Z) :
  (forall x, x ∉ ns -> nx h' x = nx h x) -> (forall x, x ∉ ps -> pv h' x = pv h x) ->
  (forall x, x ∈ removelast l -> x ∉ ns) -> (forall x, x ∈ tl l -> x ∉ ps) ->
  path h l -> path h' l.
Proof. intros H1 H2 H3 H4. apply path_ext; auto. Qed.

Lemma nx_spliced h p b ak first rm q x :
  x ∉ [p; ak; rm] -> nx (spliced h p b ak first rm q) x = nx h x.
Proof.
  intros H. unfold spliced. assert (x <> p /\ x <> ak /\ x <> rm) as (?&?&?) by set_solver.
  by read_links.
Qed.
Lemma pv_spliced h p b ak first rm q x :
  x ∉ [b; first; q] -> pv (spliced h p b ak first rm q) x = pv h x.
Proof.
  intros H. unfold spliced. assert (x <> b /\ x <> first /\ x <> q) as (?&?&?) by set_solver.
  by read_links.
Qed.
Lemma nodup_segments {A} (P S R Q : list A) :
  NoDup (P ++ S ++ R ++ Q) ->
  NoDup P /\ NoDup S /\ NoDup R /\ NoDup Q /\
  (forall x, x ∈ P -> x ∉ S /\ x ∉ R /\ x ∉ Q) /\
  (forall x, x ∈ S -> x ∉ P /\ x ∉ R /\ x ∉ Q) /\
  (forall x, x ∈ R -> x ∉ P /\ x ∉ S /\ x ∉ Q) /\
  (forall x, x ∈ Q -> x ∉ P /\ x ∉ S /\ x ∉ R).
Proof. rewrite !NoDup_app. set_solver. Qed.

Lemma last_in {A} (l : list A) x : last l = Some x -> x ∈ l.
Proof. intros (l' & ->)%last_Some. set_solver. Qed.
Lemma hd_in {A} (l : list A) x : hd_error l = Some x -> x ∈ l.
Proof. destruct l; [done|]. intros [= ->]. set_solver. Qed.
Lemma hd_not_tl {A} (l : list A) x : NoDup l -> hd_error l = Some x -> x ∉ tl l.
Proof. destruct l; [done|]. intros [? ?]%NoDup_cons [= ->]. done. Qed.

Lemma links_spliced h p b ak first rm q :
  p <> ak -> p <> rm -> rm <> ak -> b <> first -> b <> q -> first <> q ->
  is_Some (h !! p) -> is_Some (h !! b) -> is_Some (h !! ak) ->
  is_Some (h !! first) -> is_Some (h !! rm) -> is_Some (h !! q) ->
  links (spliced h p b ak first rm q) p first /\ links (spliced h p b ak first rm q) rm b /\
  links (spliced h p b ak first rm q) ak q.
Proof. intros. unfold spliced, links. split_and!; by read_links. Qed.

(** Move the elements [R] in front of the elements [A] of the same list. *)
Lemma list_splice_back h L xs1 A R xs2 :
  is_list h L (xs1 ++ A ++ R ++ xs2) -> A <> [] -> R <> [] ->
  exists h', list_splice (pos L (A ++ R ++ xs2)) (pos L (R ++ xs2)) (pos L xs2) h = Ok (tt, h') /\
    is_list h' L (xs1 ++ R ++ A ++ xs2) /\ frame (nodes L (xs1 ++ A ++ R ++ xs2)) h h'.
Proof.
  intros Hl HA HR.
  set (P := head_of L :: xs1). set (Q := xs2 ++ [tail_of L]).
  assert (nodes L (xs1 ++ A ++ R ++ xs2) = P ++ A ++ R ++ Q) as E.
  { unfold P, Q. rewrite nodes_split. by rewrite <- !app_assoc. }
  assert (nodes L (xs1 ++ R ++ A ++ xs2) = P ++ R ++ A ++ Q) as E'.
  { unfold P, Q. rewrite nodes_split. by rewrite <- !app_assoc. }
  destruct (exists_last HA) as (A' & ak & EA). destruct (exists_last HR) as (R' & rm & ER).
  destruct (exists_last (l := P) ltac:(done)) as (P' & p & EP).
  destruct A as [|a1 A1]; [done|]. destruct R as [|r1 R1]; [done|].
  assert (exists Q1, Q = pos L xs2 :: Q1) as [Q1 EQ] by (unfold Q; destruct xs2; simpl; eauto).
  set (q := pos L xs2) in *. simpl pos.
  pose proof (il_nodup _ _ _ Hl) as Hnd. rewrite E in Hnd.
  pose proof (nodup_segments _ _ _ _ Hnd) as (NP & NA & NR & NQ & DP & DA & DR & DQ).
  pose proof (il_path _ _ _ Hl) as HP. rewrite E in HP.
  assert (last P = Some p) as LP by (rewrite EP; apply last_snoc).
  assert (last (a1 :: A1) = Some ak) as LA by (rewrite EA; apply last_snoc).
  assert (last (r1 :: R1) = Some rm) as LR by (rewrite ER; apply last_snoc).
  assert (hd_error Q = Some q) as HQ by (by rewrite EQ).
  pose proof (last_in _ _ LP). pose proof (last_in _ _ LA). pose proof (last_in _ _ LR).
  pose proof (hd_in _ _ HQ).
  assert (a1 ∈ a1 :: A1) by in_list. assert (r1 ∈ r1 :: R1) by in_list.
  rewrite (path_app _ P _ p a1) in HP by done.
  rewrite (path_app _ (a1 :: A1) _ ak r1), (path_app _ (r1 :: R1) _ rm q) in HP by done.
  destruct HP as (HPP & Lpa & HPA & Lar & HPR & Lrq & HPQ).
  assert (forall x, x ∈ P -> x ∈ a1 :: A1 -> False) as D1 by (intros x Hx; apply (DP x Hx)).
  assert (forall x, x ∈ P -> x ∈ r1 :: R1 -> False) as D2 by (intros x Hx; apply (DP x Hx)).
  assert (forall x, x ∈ P -> x ∈ Q -> False) as D3 by (intros x Hx; apply (DP x Hx)).
  assert (forall x, x ∈ a1 :: A1 -> x ∈ r1 :: R1 -> False) as D4 by (intros x Hx; apply (DA x Hx)).
  assert (forall x, x ∈ a1 :: A1 -> x ∈ Q -> False) as D5 by (intros x Hx; apply (DA x Hx)).
  assert (forall x, x ∈ r1 :: R1 -> x ∈ Q -> False) as D6 by (intros x Hx; apply (DR x Hx)).
  assert (forall x, x ∈ P ++ (a1 :: A1) ++ (r1 :: R1) ++ Q -> is_Some (h !! x)) as Hal
    by (intros x; rewrite <- E; by eapply il_alloc).
  assert (p <> ak /\ p <> rm /\ rm <> ak /\ a1 <> r1 /\ a1 <> q /\ r1 <> q)
    as (N1 & N2 & N3 & N4 & N5 & N6) by (split_and!; intros Ex; rewrite Ex in *; eauto 3).
  assert (forall x, x ∈ [p; ak; rm] -> x ∈ P ++ (a1 :: A1) ++ (r1 :: R1) ++ Q) as I1
    by (intros x; clear -H H0 H1; set_solver).
  assert (forall x, x ∈ [a1; r1; q] -> x ∈ P ++ (a1 :: A1) ++ (r1 :: R1) ++ Q) as I2
    by (intros x; clear -H2; set_solver).
  exists (spliced h p a1 ak r1 rm q). split; [|split; [split|]].
  - apply list_splice_run; try done.
    + pose proof (il_null _ _ _ Hl) as Hnull. rewrite E in Hnull.
      intros HN. apply Hnull. clear -HN I1 I2. set_solver.
    + apply Hal, I1; in_list.
    + apply Lpa.
    + destruct (il_nx_in h L _ P a1 (pos L (A1 ++ r1 :: R1 ++ xs2)) (tl (A1 ++ r1 :: R1 ++ Q)) Hl)
        as (n & _ & ?); [|eauto]. rewrite E. by destruct A1.
    + eapply (il_nx_in h L _ (P ++ a1 :: A1) r1 (pos L (R1 ++ xs2)) (tl (R1 ++ Q)) Hl).
      rewrite E, <- app_assoc. simpl. destruct R1; simpl; [by rewrite EQ|done].
    + rewrite ER in E, Hl. eapply (il_pv_in h L _ (P ++ (a1 :: A1) ++ R') rm Q Hl).
      * rewrite E. by rewrite <- !app_assoc.
      * by destruct P.
    + destruct (Hal q) as [n Hn]; [apply I2; in_list|]. exists (next n). unfold nx. by rewrite Hn.
  - rewrite E'. rewrite (path_app _ P _ p r1) by done.
    rewrite (path_app _ (r1 :: R1) _ rm a1), (path_app _ (a1 :: A1) _ ak q) by done.
    destruct (links_spliced h p a1 ak r1 rm q) as (K1 & K2 & K3); try done.
    1-6: apply Hal; first [apply I1; in_list|apply I2; in_list].
    pose proof (nodup_removelast _ _ NP LP). pose proof (nodup_removelast _ _ NA LA).
    pose proof (nodup_removelast _ _ NR LR).
    pose proof (hd_not_tl _ q NQ HQ).
    pose proof (hd_not_tl _ a1 NA eq_refl). pose proof (hd_not_tl _ r1 NR eq_refl).
    split_and!; try done; (apply (path_keep h _ _ [p; ak; rm] [a1; r1; q]);
      [intros; by apply nx_spliced|intros; by apply pv_spliced| | |done]); intros x Hx Hin.
    all: pose proof Hx as Hx'; first [apply elem_removelast in Hx'|apply elem_tl in Hx'].
    all: repeat (apply elem_of_cons in Hin as [->|Hin]; [first [contradiction|eauto 3]|]).
    all: by apply elem_of_nil in Hin.
  - rewrite pv_spliced; [apply Hl|]. intros Hin.
    assert (head_of L ∈ P) by apply list_elem_of_here.
    repeat (apply elem_of_cons in Hin as [Ex|Hin]; [rewrite Ex in *; eauto 3|]).
    by apply elem_of_nil in Hin.
  - rewrite nx_spliced; [apply Hl|]. intros Hin.
    assert (tail_of L ∈ Q) by (unfold Q; in_list).
    repeat (apply elem_of_cons in Hin as [Ex|Hin]; [rewrite Ex in *; eauto 3|]).
    by apply elem_of_nil in Hin.
  - rewrite E'. revert Hnd. apply NoDup_Permutation_proper. solve_Permutation.
  - rewrite E'. pose proof (il_null _ _ _ Hl) as Hnull. rewrite E in Hnull.
    clear -Hnull. set_solver.
  - rewrite E. unfold spliced. repeat first [apply frame_set_prev | apply frame_set_next];
      try apply frame_refl; first [apply I1; in_list|apply I2; in_list].
Qed.

(** ** Sorting: the code computes [sort] *)

Lemma pos_eq h L xs1 r xs2 :
  is_list h L (xs1 ++ r ++ xs2) -> (pos L (r ++ xs2) =? pos L xs2) = bool_decide (r = []).
Proof.
  intros Hl. destruct r as [|x r]; simpl; [by rewrite Z.eqb_refl|].
  apply Z.eqb_neq. intros ->. pose proof (il_nodup _ _ _ Hl) as Hnd.
  assert (pos L xs2 ∈ xs2 ++ [tail_of L]) by (destruct xs2; simpl; in_list).
  rewrite nodes_split in Hnd. apply NoDup_app in Hnd as (_ & _ & Hnd).
  simpl in Hnd. rewrite <- app_assoc in Hnd. apply NoDup_cons in Hnd as [Hnd _]. apply Hnd.
  apply elem_of_app. by right.
Qed.

Lemma pos_not_null h L xs1 xs2 : is_list h L (xs1 ++ xs2) -> negb (pos L xs2 =? NULL) = true.
Proof.
  intros Hl. apply negb_true_iff, Z.eqb_neq, (il_not_null h L (xs1 ++ xs2)); [done|].
  rewrite nodes_split. destruct xs2; simpl; in_list.
Qed.

Lemma tail_not_null h L xs : is_list h L xs -> negb (tail_of L =? NULL) = true.
Proof.
  intros Hl. apply (pos_not_null h L xs []). by rewrite app_nil_r.
Qed.

Lemma massert_true {S} (m : M S bool) s s' : m s = Ok (true, s') -> massert m s = Ok (tt, s').
Proof. intros E. unfold massert. by erewrite bind_eq; [|exact E]. Qed.

Section sort_refines.
Context (less : Z -> Z -> bool).

(** Adjacent elements are in order. *)
Fixpoint in_order (x : Z) (ys : list Z) : bool :=
  match ys with [] => true | y :: ys' => negb (less y x) && in_order y ys' end.

Definition ordered (xs : list Z) : Prop := Sorted (fun x y => less y x = false) xs.

Lemma in_order_sorted x ys : in_order x ys = true <-> ordered (x :: ys).
Proof.
  revert x. induction ys as [|y ys IH]; intros x; simpl; split; intros H.
  - repeat constructor.
  - done.
  - apply andb_true_iff in H as [H1 H2]. constructor; [by apply IH|].
    constructor. by apply negb_true_iff.
  - inversion H as [|?? Hs Hd]; subst. inversion Hd; subst.
    apply andb_true_iff. split; [by apply negb_true_iff|by apply IH].
Qed.

Lemma is_sorted_list h L fuel xs1 ys xs2 :
  is_list h L (xs1 ++ ys ++ xs2) -> (length ys < fuel)%nat -> ordered ys ->
  is_sorted less fuel (pos L (ys ++ xs2)) (pos L xs2) h = Ok (true, h).
Proof.
  intros Hl Hf Hs. unfold is_sorted. rewrite (pos_eq h L xs1) by done.
  destruct ys as [|x ys]; simpl; [done|]. apply in_order_sorted in Hs.
  revert xs1 x ys Hl Hf Hs. induction fuel as [|fuel IH]; intros xs1 x ys Hl Hf Hs; [simpl in Hf; lia|].
  simpl in *. erewrite bind_eq; [|by eapply (list_next_pos h L xs1)].
  assert (is_list h L ((xs1 ++ [x]) ++ ys ++ xs2)) as Hl' by (by rewrite <- app_assoc).
  rewrite (pos_eq h L (xs1 ++ [x])) by done. destruct ys as [|y ys]; simpl; [done|].
  erewrite bind_eq; [|by apply (list_prev_pos h L xs1 x (y :: ys ++ xs2))].
  simpl in Hs. apply andb_true_iff in Hs as [H1 H2]. apply negb_true_iff in H1 as ->.
  apply (IH (xs1 ++ [x]) y ys); [done|simpl in Hf; lia|done].
Qed.

Lemma take_run_app x ys : (take_run less x ys).1 ++ (take_run less x ys).2 = x :: ys.
Proof.
  revert x. induction ys as [|y ys IH]; intros x; simpl; [done|].
  destruct (less y x); [done|]. specialize (IH y).
  destruct (take_run less y ys). simpl in *. by rewrite IH.
Qed.

Lemma take_run_hd x ys : exists r, (take_run less x ys).1 = x :: r.
Proof.
  destruct ys as [|y ys]; simpl; [eauto|].
  destruct (less y x); [simpl; eauto|]. destruct (take_run less y ys). simpl. eauto.
Qed.

Lemma take_run_ordered x ys : ordered (take_run less x ys).1.
Proof.
  revert x. induction ys as [|y ys IH]; intros x; simpl; [repeat constructor|].
  destruct (less y x) eqn:E; [repeat constructor|]. specialize (IH y).
  destruct (take_run_hd y ys) as [r Hr].
  destruct (take_run less y ys) as [a b]. simpl in *. subst. constructor; [done|].
  by constructor.
Qed.

Lemma run_loop_list h L fuel xs1 x ys :
  is_list h L (xs1 ++ x :: ys) -> (length ys < fuel)%nat ->
  run_loop less fuel x (tail_of L) h = Ok (pos L (take_run less x ys).2, h).
Proof.
  revert xs1 x ys. induction fuel as [|fuel IH]; intros xs1 x ys Hl Hf; [lia|].
  simpl. erewrite bind_eq; [|by eapply list_next_pos].
  assert (is_list h L ((xs1 ++ [x]) ++ ys)) as Hl' by (by rewrite <- app_assoc).
  rewrite (pos_tail h L (xs1 ++ [x])) by done. destruct ys as [|y ys]; simpl; [done|].
  erewrite bind_eq; [|by apply (list_prev_pos h L xs1 x (y :: ys))].
  destruct (less y x); [done|]. rewrite (IH (xs1 ++ [x]) y ys); [|done|simpl in Hf; lia].
  by destruct (take_run less y ys).
Qed.

Lemma find_end_of_run_list h L fuel xs1 x ys :
  is_list h L (xs1 ++ x :: ys) -> (length ys < fuel)%nat ->
  find_end_of_run less fuel x (tail_of L) h = Ok (pos L (take_run less x ys).2, h).
Proof.
  intros Hl Hf. unfold find_end_of_run.
  erewrite bind_eq; [|by apply assert_true, (pos_not_null h L xs1 (x :: ys))].
  erewrite bind_eq; [|by eapply assert_true, tail_not_null].
  pose proof (pos_tail h L xs1 (x :: ys) Hl) as E. simpl in E. rewrite E.
  erewrite bind_eq; [|by apply assert_true]. by eapply run_loop_list.
Qed.

Lemma merge_nil_l ys : merge less [] ys = ys.
Proof. by destruct ys. Qed.
Lemma merge_nil_r xs : merge less xs [] = xs.
Proof. by destruct xs. Qed.
Lemma merge_cons x xs y ys :
  merge less (x :: xs) (y :: ys) =
    if less y x then y :: merge less (x :: xs) ys else x :: merge less xs (y :: ys).
Proof. simpl. by destruct (less y x). Qed.

Lemma merge_perm xs ys : Permutation (merge less xs ys) (xs ++ ys).
Proof.
  revert ys. induction xs as [|x xs IHx]; intros ys; [by rewrite merge_nil_l|].
  induction ys as [|y ys IHy]; [by rewrite merge_nil_r, app_nil_r|].
  rewrite merge_cons. destruct (less y x).
  - rewrite IHy. by rewrite Permutation_middle.
  - by rewrite IHx.
Qed.

Lemma merge_loop_list fuel : forall h L xs1 A B xs2,
  is_list h L (xs1 ++ A ++ B ++ xs2) -> (length A + length B < fuel)%nat ->
  exists h', merge_loop less fuel (pos L (A ++ B ++ xs2)) (pos L (B ++ xs2)) (pos L xs2) h
               = Ok (tt, h') /\
    is_list h' L (xs1 ++ merge less A B ++ xs2) /\ frame (nodes L (xs1 ++ A ++ B ++ xs2)) h h'.
Proof.
  induction fuel as [|fuel IH]; intros h L xs1 A B xs2 Hl Hf; [lia|]. simpl merge_loop.
  rewrite (pos_eq h L xs1 A (B ++ xs2)) by done.
  rewrite (pos_eq h L (xs1 ++ A) B xs2) by (by rewrite <- app_assoc).
  destruct A as [|a A]; simpl; [exists h; rewrite merge_nil_l; eauto using frame_refl|].
  destruct B as [|b B]; simpl; [exists h; eauto using frame_refl|].
  destruct (less b a) eqn:Eb; simpl.
  - assert (is_list h L ((xs1 ++ a :: A) ++ b :: B ++ xs2)) as Hb by (by rewrite <- app_assoc).
    erewrite bind_eq; [|by eapply list_next_pos].
    erewrite bind_eq; [|by apply (list_prev_pos h L (xs1 ++ a :: A) b (B ++ xs2))].
    destruct (list_splice_back h L xs1 (a :: A) [b] (B ++ xs2)) as (h1 & R1 & L1 & F1); [done..|].
    erewrite bind_eq; [|exact R1].
    destruct (IH h1 L (xs1 ++ [b]) (a :: A) B xs2) as (h2 & R2 & L2 & F2).
    { by rewrite <- app_assoc. } { simpl in *. lia. }
    exists h2. split; [done|]. split; [by rewrite <- app_assoc in L2|].
    eapply frame_trans; [done|]. eapply frame_mono; [|done].
    intros y. unfold nodes. clear. set_solver.
  - erewrite bind_eq; [|by eapply list_next_pos].
    destruct (IH h L (xs1 ++ [a]) A (b :: B) xs2) as (h2 & R2 & L2 & F2).
    { by rewrite <- app_assoc. } { simpl in *. lia. }
    exists h2. split; [done|]. rewrite <- app_assoc in L2, F2. done.
Qed.

(** [LESS] is asymmetric: the only law the sort relies on. *)
Context (less_asym : forall x y, less x y = true -> less y x = false).

Lemma merge_hd z xs ys :
  HdRel (fun x y => less y x = false) z xs -> HdRel (fun x y => less y x = false) z ys ->
  HdRel (fun x y => less y x = false) z (merge less xs ys).
Proof.
  intros Hx Hy. destruct xs as [|x xs]; [by rewrite merge_nil_l|].
  destruct ys as [|y ys]; [by rewrite merge_nil_r|]. rewrite merge_cons.
  inversion Hx; inversion Hy; subst. destruct (less y x); by constructor.
Qed.

Lemma merge_ordered xs ys : ordered xs -> ordered ys -> ordered (merge less xs ys).
Proof.
  revert ys. induction xs as [|x xs IHx]; intros ys Hx Hy; [by rewrite merge_nil_l|].
  induction ys as [|y ys IHy]; [by rewrite merge_nil_r|].
  rewrite merge_cons. inversion Hx; inversion Hy; subst. destruct (less y x) eqn:E.
  - constructor; [by apply IHy|]. apply merge_hd; [constructor; by apply less_asym|done].
  - constructor; [by apply IHx|]. apply merge_hd; [done|by constructor].
Qed.

Lemma inplace_merge_list fuel h L xs1 A B xs2 :
  is_list h L (xs1 ++ A ++ B ++ xs2) -> (length A + length B < fuel)%nat ->
  ordered A -> ordered B ->
  exists h', inplace_merge less fuel (pos L (A ++ B ++ xs2)) (pos L (B ++ xs2)) (pos L xs2) h
               = Ok (tt, h') /\
    is_list h' L (xs1 ++ merge less A B ++ xs2) /\ frame (nodes L (xs1 ++ A ++ B ++ xs2)) h h'.
Proof.
  intros Hl Hf HA HB. assert (is_list h L ((xs1 ++ A) ++ B ++ xs2)) as Hl1 by (by rewrite <- app_assoc).
  assert (is_list h L ((xs1 ++ A ++ B) ++ xs2)) as Hl2 by (by rewrite <- !app_assoc).
  unfold inplace_merge.
  erewrite bind_eq; [|by apply assert_true, (pos_not_null h L xs1)].
  erewrite bind_eq; [|by eapply assert_true, pos_not_null].
  erewrite bind_eq; [|by eapply assert_true, pos_not_null].
  erewrite bind_eq; [|apply massert_true, (is_sorted_list h L fuel xs1 A); [done|lia|done]].
  erewrite bind_eq; [|apply massert_true, (is_sorted_list h L fuel (xs1 ++ A) B); [done|lia|done]].
  by apply merge_loop_list.
Qed.

(** Number of runs: one more than the number of descents. *)
Fixpoint runs_from (x : Z) (ys : list Z) : nat :=
  match ys with
  | [] => 1
  | y :: ys' => (if less y x then 1 else 0) + runs_from y ys'
  end%nat.
Definition runs (xs : list Z) : nat := match xs with [] => 0%nat | x :: xs' => runs_from x xs' end.

Lemma runs_from_pos x ys : (1 <= runs_from x ys <= S (length ys))%nat.
Proof.
  revert x. induction ys as [|y ys IH]; intros x; simpl; [lia|].
  specialize (IH y). destruct (less y x); lia.
Qed.

Lemma runs_app xs ys : (runs (xs ++ ys) <= runs xs + runs ys)%nat.
Proof.
  destruct xs as [|x xs]; simpl; [lia|]. revert x.
  induction xs as [|x' xs IH]; intros x; simpl.
  - destruct ys as [|y ys]; simpl; [lia|]. destruct (less y x); lia.
  - specialize (IH x'). destruct (less x' x); lia.
Qed.

Lemma runs_ordered xs : ordered xs -> (runs xs <= 1)%nat.
Proof.
  destruct xs as [|x xs]; simpl; [lia|]. revert x.
  induction xs as [|y xs IH]; intros x Hs; simpl; [lia|].
  inversion Hs as [|?? Hs' Hd]; subst. inversion Hd as [|?? E]; subst. rewrite E.
  by apply IH.
Qed.

Lemma runs_take_run x ys : runs (x :: ys) = S (runs (take_run less x ys).2).
Proof.
  simpl. revert x. induction ys as [|y ys IH]; intros x; simpl; [done|].
  destruct (less y x); [done|]. rewrite IH. by destruct (take_run less y ys).
Qed.

Lemma take_run_length x ys : (length (take_run less x ys).2 <= length ys)%nat.
Proof.
  pose proof (f_equal length (take_run_app x ys)) as E. rewrite length_app in E.
  destruct (take_run_hd x ys) as [r Hr]. rewrite Hr in E. simpl in E. lia.
Qed.

(** A pass permutes, leaves at most as many runs as it reports, and reports
    about half of those it found. *)
Lemma pass_spec n xs :
  (length xs <= n)%nat ->
  Permutation (pass less n xs).1 xs /\
  (runs (pass less n xs).1 <= (pass less n xs).2)%nat /\
  (2 * (pass less n xs).2 <= runs xs + 1)%nat /\
  ((pass less n xs).2 <= 1 -> ordered (pass less n xs).1)%nat.
Proof.
  revert xs. induction n as [|n IH]; intros [|x xs] Hn; try (simpl in *; lia);
    [simpl; repeat split; auto; constructor..|].
  pose proof (runs_take_run x xs) as Hr. pose proof (take_run_app x xs) as Ha.
  pose proof (take_run_ordered x xs) as Ho. pose proof (take_run_length x xs) as Hlen.
  cbn [pass]. destruct (take_run less x xs) as [a [|y ys]]; simpl in Hr, Ha, Ho, Hlen.
  - rewrite app_nil_r in Ha. simpl. subst a. simpl. rewrite Hr.
    split; [done|]. split; [lia|]. split; [lia|done].
  - pose proof (runs_take_run y ys) as Hr'. pose proof (take_run_app y ys) as Ha'.
    pose proof (take_run_ordered y ys) as Ho'. pose proof (take_run_length y ys) as Hlen'.
    destruct (take_run less y ys) as [b rest]; simpl in Hr', Ha', Ho', Hlen'.
    specialize (IH rest). destruct (pass less n rest) as [out c]; simpl in *.
    destruct IH as (P & R1 & R2 & _); [lia|].
    pose proof (merge_ordered a b Ho Ho') as Hm. repeat split.
    + rewrite merge_perm, P, <- app_assoc, Ha', Ha. done.
    + pose proof (runs_app (merge less a b) out). pose proof (runs_ordered _ Hm). lia.
    + lia.
    + intros Hc. destruct out as [|o out]; [by rewrite app_nil_r|].
      pose proof (runs_from_pos o out). simpl in R1. lia.
Qed.

Lemma run_at h L fuel xs1 x xs :
  is_list h L (xs1 ++ x :: xs) -> (length xs < fuel)%nat ->
  exists a rest, take_run less x xs = (a, rest) /\ x :: xs = a ++ rest /\ ordered a /\
    (length a + length rest = S (length xs))%nat /\ (1 <= length a)%nat /\
    find_end_of_run less fuel x (tail_of L) h = Ok (pos L rest, h).
Proof.
  intros Hl Hf. pose proof (take_run_app x xs) as Ha. pose proof (take_run_ordered x xs) as Ho.
  destruct (take_run_hd x xs) as [r Hr].
  rewrite (find_end_of_run_list h L fuel xs1 x xs) by done.
  destruct (take_run less x xs) as [a rest]. simpl in *.
  exists a, rest. split; [done|]. split; [done|]. split; [done|].
  pose proof (f_equal length Ha) as Hlen. rewrite length_app in Hlen. simpl in Hlen.
  split; [done|]. split; [subst a; simpl; lia|done].
Qed.

Lemma pass_loop_list n : forall fuel h L xs1 xs cnt,
  is_list h L (xs1 ++ xs) -> (length xs <= n)%nat -> (length xs < fuel)%nat ->
  0 <= cnt -> cnt + Z.of_nat (length xs) < 2 ^ 32 ->
  exists h', pass_loop less fuel L (pos L xs) cnt h
               = Ok (cnt + Z.of_nat (pass less n xs).2, h') /\
    is_list h' L (xs1 ++ (pass less n xs).1) /\ frame (nodes L (xs1 ++ xs)) h h'.
Proof.
  induction n as [|n IH]; intros [|fuel] h L xs1 xs cnt Hl Hn Hf Hc Hc'; try lia; simpl pass_loop;
    (erewrite bind_eq; [|by eapply list_end_run]); rewrite (pos_tail h L xs1) by done;
    (destruct xs as [|x xs];
      [exists h; simpl; rewrite Z.add_0_r; eauto using frame_refl|]); [simpl in Hn; lia|].
  rewrite bool_decide_eq_false_2 by done. cbn [length] in Hf, Hn, Hc'.
  rewrite (wrapu_small 32 (cnt + 1)) by lia.
  erewrite bind_eq; [|by eapply list_end_run].
  destruct (run_at h L (S fuel) xs1 x xs) as (a & rest & Et & Ex & Ha & Hla & Hla' & Er); [done|lia|].
  erewrite bind_eq; [|exact Er]. erewrite bind_eq; [|by eapply list_end_run].
  assert (is_list h L ((xs1 ++ a) ++ rest)) as Hl1 by (by rewrite <- app_assoc, <- Ex).
  rewrite (pos_tail h L (xs1 ++ a)) by done. cbn [pass]. rewrite Et.
  destruct rest as [|y ys].
  { rewrite app_nil_r in Ex. subst a. exists h. eauto using frame_refl. }
  rewrite bool_decide_eq_false_2 by done. cbn [length] in Hla.
  erewrite bind_eq; [|by eapply list_end_run].
  destruct (run_at h L (S fuel) (xs1 ++ a) y ys)
    as (b & rest & Et' & Ey & Hb & Hlb & Hlb' & Er'); [done|lia|].
  erewrite bind_eq; [|exact Er']. rewrite Et'.
  replace (pos L (y :: ys)) with (pos L (b ++ rest)) by (by rewrite Ey).
  rewrite Ey in Ex. rewrite Ex in Hl |- *.
  destruct (inplace_merge_list (S fuel) h L xs1 a b rest) as (h1 & R1 & L1 & F1); [done|lia|done..|].
  erewrite bind_eq; [|exact R1].
  destruct (IH fuel h1 L (xs1 ++ merge less a b) rest (cnt + 1)) as (h2 & R2 & L2 & F2);
    [by rewrite <- app_assoc|lia..|].
  destruct (pass less n rest) as [out c]. simpl in R2, L2 |- *. exists h2.
  split; [rewrite R2; do 2 f_equal; lia|]. split; [by rewrite <- !app_assoc in L2|].
  eapply frame_trans; [exact F1|]. eapply frame_mono; [|exact F2].
  intros z. rewrite <- app_assoc. unfold nodes.
  by rewrite (merge_perm a b), <- !app_assoc.
Qed.

Lemma sort_perm n xs : Permutation (sort less n xs) xs.
Proof.
  revert xs. induction n as [|n IH]; intros xs; simpl; [done|].
  destruct (pass_spec (length xs) xs) as (P & _); [lia|].
  destruct (pass less (length xs) xs) as [xs' c]. destruct (1 <? c)%nat; [by rewrite IH|done].
Qed.

Lemma sort_ordered n xs : (runs xs < n)%nat -> ordered (sort less n xs).
Proof.
  revert xs. induction n as [|n IH]; intros xs Hn; simpl; [lia|].
  destruct (pass_spec (length xs) xs) as (_ & R1 & R2 & Ho); [lia|].
  destruct (pass less (length xs) xs) as [xs' c]. simpl in *.
  destruct (Nat.ltb_spec 1 c); [apply IH; lia|auto].
Qed.

Lemma sort_loop_list n : forall fuel h L xs,
  is_list h L xs -> (runs xs < n)%nat -> (length xs < fuel)%nat ->
  Z.of_nat (length xs) < 2 ^ 32 ->
  exists h', sort_loop less n fuel L h = Ok (tt, h') /\ is_list h' L (sort less n xs) /\
    frame (nodes L xs) h h'.
Proof.
  induction n as [|n IH]; intros fuel h L xs Hl Hn Hf Hw; [lia|]. simpl sort_loop.
  erewrite bind_eq; [|by eapply list_begin_pos].
  destruct (pass_loop_list (length xs) fuel h L [] xs 0) as (h1 & R1 & L1 & F1); [done|lia..|].
  erewrite bind_eq; [|exact R1].
  destruct (pass_spec (length xs) xs) as (P & Q1 & Q2 & _); [lia|].
  cbn [sort]. destruct (pass less (length xs) xs) as [xs' c]. cbn [fst snd] in *.
  pose proof (Permutation_length P) as Hlen.
  replace (0 + Z.of_nat c >? 1) with (1 <? c)%nat
    by (rewrite Z.gtb_ltb; destruct (Nat.ltb_spec 1 c), (Z.ltb_spec 1 (Z.of_nat c)); first [done|lia]).
  destruct (Nat.ltb_spec 1 c); [|by exists h1].
  destruct (IH fuel h1 L xs') as (h2 & R2 & L2 & F2); [done|lia..|].
  exists h2. split; [done|]. split; [done|]. eapply frame_trans; [exact F1|].
  eapply frame_mono; [|exact F2]. intros z. unfold nodes. by rewrite P.
Qed.
End sort_refines.

End KListSort.
