(* ===== verification/KListOrder.v ===== *)
(** * lib/kernel/list.c: [list_sort], [list_insert_ordered], [list_max],
      [list_min], [list_unique] and [list_reverse]

    Each operation runs to completion on a well-linked list and leaves the list
    holding the sequence the reference functions of [KListSort] compute. *)

From S2P Require Import Prelude KList KListFacts KListSort.
Import KList KListFacts KListSort.

Module KListOrder.

Section ordered_ops.
Context (less : Z -> Z -> bool).

Lemma list_sort_list h L xs fuel :
  (forall x y, less x y = true -> less y x = false) ->
  is_list h L xs -> (length xs < fuel)%nat -> Z.of_nat (length xs) < 2 ^ 32 ->
  exists h' ys, list_sort less fuel L h = Ok (tt, h') /\ is_list h' L ys /\
    Permutation ys xs /\ ordered less ys /\ frame (nodes L xs) h h'.
Proof.
  intros Has Hl Hf Hw. unfold list_sort.
  erewrite bind_eq; [|by eapply assert_true, il_L].
  assert (runs less xs < fuel)%nat as Hr.
  { destruct xs as [|x xs]; simpl in *; [lia|]. pose proof (runs_from_pos less x xs). lia. }
  destruct (sort_loop_list less Has fuel fuel h L xs) as (h' & R & L' & F); [done..|].
  pose proof (sort_perm less Has fuel xs) as P.
  pose proof (sort_ordered less Has fuel xs Hr) as O.
  erewrite bind_eq; [|exact R]. erewrite bind_eq; [|by eapply list_begin_pos].
  erewrite bind_eq; [|by eapply list_end_run].
  exists h', (sort less fuel xs). split; [|done]. apply massert_true.
  pose proof (is_sorted_list less h' L fuel [] (sort less fuel xs) []) as S.
  rewrite app_nil_r in S. apply S; [done| |done]. by rewrite (Permutation_length P).
Qed.

Lemma ordered_loop_list h L e fuel : forall xs1 xs2,
  is_list h L (xs1 ++ xs2) -> (length xs2 < fuel)%nat ->
  exists ys1 ys2, xs2 = ys1 ++ ys2 /\ insert less e xs2 = ys1 ++ e :: ys2 /\
    ordered_loop less fuel L e (pos L xs2) h = Ok (pos L ys2, h).
Proof.
  induction fuel as [|fuel IH]; intros xs1 xs2 Hl Hf; [lia|]. simpl ordered_loop.
  erewrite bind_eq; [|by eapply list_end_run]. rewrite (pos_tail h L xs1) by done.
  destruct xs2 as [|x xs2]; simpl; [by exists [], []|].
  destruct (less e x) eqn:E; [by exists [], (x :: xs2)|].
  erewrite bind_eq; [|by eapply list_next_pos].
  destruct (IH (xs1 ++ [x]) xs2) as (ys1 & ys2 & E1 & E2 & R);
    [by rewrite <- app_assoc|simpl in Hf; lia|].
  exists (x :: ys1), ys2. rewrite E2, R. split; [by rewrite E1|done].
Qed.

Lemma list_insert_ordered_list h L xs e fuel :
  is_list h L xs -> (length xs < fuel)%nat ->
  e ∉ nodes L xs -> e <> NULL -> is_Some (h !! e) ->
  exists h', list_insert_ordered less fuel L e h = Ok (tt, h') /\
    is_list h' L (insert less e xs) /\ frame (e :: nodes L xs) h h'.
Proof.
  intros Hl Hf He Hn Ha. unfold list_insert_ordered.
  erewrite bind_eq; [|by eapply assert_true, il_L].
  erewrite bind_eq; [|by apply assert_true, negb_true_iff, Z.eqb_neq].
  erewrite bind_eq; [|by eapply list_begin_pos].
  destruct (ordered_loop_list h L e fuel [] xs) as (ys1 & ys2 & E1 & E2 & R); [done..|].
  erewrite bind_eq; [|exact R]. rewrite E2. rewrite E1 in Hl, He |- *.
  by apply list_insert_list.
Qed.

Lemma insert_perm x ys : Permutation (insert less x ys) (x :: ys).
Proof.
  induction ys as [|y ys IH]; simpl; [done|]. destruct (less x y); [done|].
  rewrite IH. constructor.
Qed.

Lemma insert_hd z x ys :
  HdRel (fun x y => less y x = false) z ys -> less x z = false ->
  HdRel (fun x y => less y x = false) z (insert less x ys).
Proof.
  intros Hd Hx. destruct ys as [|y ys]; simpl; [by constructor|].
  inversion Hd; subst. destruct (less x y); by constructor.
Qed.

Lemma insert_ordered x ys :
  (forall x y, less x y = true -> less y x = false) ->
  ordered less ys -> ordered less (insert less x ys).
Proof.
  intros Has. induction ys as [|y ys IH]; simpl; intros Ho; [repeat constructor|].
  destruct (less x y) eqn:E; [constructor; [done|constructor; by apply Has]|].
  inversion Ho; subst. constructor; [by apply IH|by apply insert_hd].
Qed.

(** *** Extrema *)

Lemma max_loop_list h L fuel : forall xs1 m xs2,
  is_list h L (xs1 ++ xs2) -> (length xs2 < fuel)%nat ->
  max_loop less fuel L m (pos L xs2) h = Ok (max_elem less m xs2, h).
Proof.
  induction fuel as [|fuel IH]; intros xs1 m xs2 Hl Hf; [lia|]. simpl max_loop.
  erewrite bind_eq; [|by eapply list_end_run]. rewrite (pos_tail h L xs1) by done.
  destruct xs2 as [|x xs2]; simpl; [done|].
  erewrite bind_eq; [|by eapply list_next_pos].
  apply (IH (xs1 ++ [x])); [by rewrite <- app_assoc|simpl in Hf; lia].
Qed.

Lemma min_loop_list h L fuel : forall xs1 m xs2,
  is_list h L (xs1 ++ xs2) -> (length xs2 < fuel)%nat ->
  min_loop less fuel L m (pos L xs2) h = Ok (min_elem less m xs2, h).
Proof.
  induction fuel as [|fuel IH]; intros xs1 m xs2 Hl Hf; [lia|]. simpl min_loop.
  erewrite bind_eq; [|by eapply list_end_run]. rewrite (pos_tail h L xs1) by done.
  destruct xs2 as [|x xs2]; simpl; [done|].
  erewrite bind_eq; [|by eapply list_next_pos].
  apply (IH (xs1 ++ [x])); [by rewrite <- app_assoc|simpl in Hf; lia].
Qed.

Definition max_of (L : Z) (xs : list Z) : Z :=
  match xs with [] => tail_of L | x :: xs' => max_elem less x xs' end.
Definition min_of (L : Z) (xs : list Z) : Z :=
  match xs with [] => tail_of L | x :: xs' => min_elem less x xs' end.

Lemma list_max_list h L xs fuel :
  is_list h L xs -> (length xs < fuel)%nat -> list_max less fuel L h = Ok (max_of L xs, h).
Proof.
  intros Hl Hf. unfold list_max. erewrite bind_eq; [|by eapply list_begin_pos].
  erewrite bind_eq; [|by eapply list_end_run]. rewrite (pos_tail h L []) by done.
  destruct xs as [|x xs]; simpl; [done|].
  erewrite bind_eq; [|by eapply (list_next_pos h L [])].
  apply (max_loop_list h L fuel [x]); [done|simpl in Hf; lia].
Qed.

Lemma list_min_list h L xs fuel :
  is_list h L xs -> (length xs < fuel)%nat -> list_min less fuel L h = Ok (min_of L xs, h).
Proof.
  intros Hl Hf. unfold list_min. erewrite bind_eq; [|by eapply list_begin_pos].
  erewrite bind_eq; [|by eapply list_end_run]. rewrite (pos_tail h L []) by done.
  destruct xs as [|x xs]; simpl; [done|].
  erewrite bind_eq; [|by eapply (list_next_pos h L [])].
  apply (min_loop_list h L fuel [x]); [done|simpl in Hf; lia].
Qed.

(** The first element no other exceeds, and the first none is below. *)
Lemma max_elem_spec x xs :
  (forall x y z, less x y = false -> less y z = false -> less x z = false) ->
  (forall x y, less x y = true -> less y x = false) ->
  exists pre post, x :: xs = pre ++ max_elem less x xs :: post /\
    (forall y, y ∈ pre -> less y (max_elem less x xs) = true) /\
    (forall y, y ∈ post -> less (max_elem less x xs) y = false).
Proof.
  intros Hnt Has. induction xs as [|y xs IH] using rev_ind.
  { exists [], []. split_and!; [done|set_solver..]. }
  destruct IH as (pre & post & E & H1 & H2). unfold max_elem in *. rewrite foldl_app.
  set (m := foldl _ x xs) in *. simpl. rewrite app_comm_cons, E.
  destruct (less m y) eqn:Em.
  - exists (pre ++ m :: post), []. split_and!; [done| |set_solver].
    intros z [Hz|[Hz|Hz]%elem_of_cons]%elem_of_app; [|by subst|].
    + destruct (less z y) eqn:Ez; [done|].
      assert (less m y = false) as E'; [|congruence].
      apply (Hnt _ z); [by apply Has, H1|done].
    + destruct (less z y) eqn:Ez; [done|].
      assert (less m y = false) as E'; [|congruence]. apply (Hnt _ z); auto.
  - exists pre, (post ++ [y]). split_and!; [by rewrite <- app_assoc|done|].
    intros z [Hz|Hz%list_elem_of_singleton]%elem_of_app; subst; auto.
Qed.

Lemma min_elem_spec x xs :
  (forall x y z, less x y = false -> less y z = false -> less x z = false) ->
  (forall x y, less x y = true -> less y x = false) ->
  exists pre post, x :: xs = pre ++ min_elem less x xs :: post /\
    (forall y, y ∈ pre -> less (min_elem less x xs) y = true) /\
    (forall y, y ∈ post -> less y (min_elem less x xs) = false).
Proof.
  intros Hnt Has. induction xs as [|y xs IH] using rev_ind.
  { exists [], []. split_and!; [done|set_solver..]. }
  destruct IH as (pre & post & E & H1 & H2). unfold min_elem in *. rewrite foldl_app.
  set (m := foldl _ x xs) in *. simpl. rewrite app_comm_cons, E.
  destruct (less y m) eqn:Em.
  - exists (pre ++ m :: post), []. split_and!; [done| |set_solver].
    intros z [Hz|[Hz|Hz]%elem_of_cons]%elem_of_app; [|by subst|].
    + destruct (less y z) eqn:Ez; [done|].
      assert (less y m = false) as E'; [|congruence].
      apply (Hnt _ z); [done|by apply Has, H1].
    + destruct (less y z) eqn:Ez; [done|].
      assert (less y m = false) as E'; [|congruence]. apply (Hnt _ z); auto.
  - exists pre, (post ++ [y]). split_and!; [by rewrite <- app_assoc|done|].
    intros z [Hz|Hz%list_elem_of_singleton]%elem_of_app; subst; auto.
Qed.

(** *** Removing duplicates *)

(** The optional list [D] of duplicates holds [zs], apart from the list [L]. *)
Definition dups (h : heap) (L : Z) (xs : list Z) (D : Z) (zs : list Z) : Prop :=
  D = NULL \/ is_list h D zs /\ forall z, z ∈ nodes L xs -> z ∉ nodes D zs.

Lemma unique_drop h L D xs1 y xs2 zs :
  is_list h L (xs1 ++ y :: xs2) -> dups h L (xs1 ++ y :: xs2) D zs ->
  exists r h1 h2, list_remove y h = Ok (r, h1) /\
    (if negb (D =? NULL) then list_push_back D y else ret tt) h1 = Ok (tt, h2) /\
    is_list h2 L (xs1 ++ xs2) /\ dups h2 L (xs1 ++ xs2) D (zs ++ [y]).
Proof.
  intros Hl HD. destruct (list_remove_list h L xs1 y xs2 Hl) as (h1 & R1 & L1 & F1).
  assert (forall z, z ∈ nodes L (xs1 ++ xs2) -> z ∈ nodes L (xs1 ++ y :: xs2)) as Hsub.
  { intros z. unfold nodes. clear. set_solver. }
  assert (y ∈ nodes L (xs1 ++ y :: xs2)) as Hy by (unfold nodes; clear; set_solver).
  assert (y ∉ nodes L (xs1 ++ xs2)) as Hny.
  { pose proof (il_nodup _ _ _ Hl) as Hnd. unfold nodes in Hnd |- *.
    rewrite <- app_assoc in Hnd |- *. simpl in Hnd. rewrite <- Permutation_middle in Hnd.
    rewrite Permutation_swap in Hnd. by apply NoDup_cons in Hnd as [? _]. }
  exists (pos L xs2), h1. destruct HD as [->|[Hd Hdis]].
  { exists h1. split_and!; [done..|by left]. }
  assert (is_list h1 D zs) as Hd1 by (eapply is_list_frame; [done..|]; intros z ?? ; naive_solver).
  destruct (list_push_back_list h1 D zs y Hd1) as (h2 & R2 & L2 & F2); [auto|exact (il_not_null _ _ _ _ Hl Hy)| |].
  { apply F1. exact (il_alloc _ _ _ _ Hl Hy). }
  assert (is_list h2 L (xs1 ++ xs2)) as L3.
  { eapply is_list_frame; [exact L1|exact F2|]. intros z Hz [->|Hz']%elem_of_cons; [done|].
    by eapply Hdis; [apply Hsub|]. }
  exists h2. pose proof (il_L _ _ _ Hd) as ->. split_and!; [done..|]. right. split; [done|].
  intros z Hz Hz'. apply (Hdis z); [by apply Hsub|]. unfold nodes in *.
  assert (z <> y) by (by intros ->). clear -Hz' H. set_solver.
Qed.

Lemma unique_loop_list L D fuel : forall h xs1 x ys zs,
  is_list h L (xs1 ++ x :: ys) -> dups h L (xs1 ++ x :: ys) D zs -> (length ys < fuel)%nat ->
  exists h', unique_loop less fuel L D x h = Ok (tt, h') /\
    is_list h' L (xs1 ++ (unique less x ys).1) /\
    dups h' L (xs1 ++ (unique less x ys).1) D (zs ++ (unique less x ys).2).
Proof.
  induction fuel as [|fuel IH]; intros h xs1 x ys zs Hl HD Hf; [lia|]. simpl unique_loop.
  erewrite bind_eq; [|by eapply list_next_pos].
  erewrite bind_eq; [|by eapply list_end_run].
  assert (is_list h L ((xs1 ++ [x]) ++ ys)) as Hl' by (by rewrite <- app_assoc).
  rewrite (pos_tail h L (xs1 ++ [x])) by done.
  destruct ys as [|y ys]; simpl; [exists h; by rewrite app_nil_r|].
  destruct (negb (less x y) && negb (less y x)).
  - destruct (unique_drop h L D (xs1 ++ [x]) y ys zs) as (r & h1 & h2 & R1 & R2 & L2 & D2);
      [done|by rewrite <- app_assoc|]. rewrite <- app_assoc in L2, D2.
    erewrite bind_eq; [|exact R1]. erewrite bind_eq; [|exact R2].
    destruct (IH h2 xs1 x ys (zs ++ [y])) as (h3 & R3 & L3 & D3); [done..|simpl in Hf; lia|].
    exists h3. destruct (unique less x ys). simpl in *. by rewrite <- app_assoc in D3.
  - destruct (IH h (xs1 ++ [x]) y ys zs) as (h3 & R3 & L3 & D3);
      [done|by rewrite <- app_assoc|simpl in Hf; lia|].
    exists h3. destruct (unique less y ys). simpl in *. by rewrite <- app_assoc in L3, D3.
Qed.

Definition list_uniq (xs : list Z) : list Z * list Z :=
  match xs with [] => ([], []) | x :: xs' => unique less x xs' end.

Lemma list_unique_list L D h xs zs fuel :
  is_list h L xs -> dups h L xs D zs -> (length xs < fuel)%nat ->
  exists h', list_unique less fuel L D h = Ok (tt, h') /\
    is_list h' L (list_uniq xs).1 /\ dups h' L (list_uniq xs).1 D (zs ++ (list_uniq xs).2).
Proof.
  intros Hl HD Hf. unfold list_unique.
  erewrite bind_eq; [|by eapply assert_true, il_L].
  erewrite bind_eq; [|by eapply list_empty_run].
  destruct xs as [|x xs]; simpl; [exists h; by rewrite app_nil_r|].
  erewrite bind_eq; [|by eapply list_begin_pos].
  apply (unique_loop_list L D fuel h [] x xs zs); [done..|simpl in Hf; lia].
Qed.

Lemma unique_perm x ys : Permutation ((unique less x ys).1 ++ (unique less x ys).2) (x :: ys).
Proof.
  revert x. induction ys as [|y ys IH]; intros x; simpl; [done|].
  destruct (negb (less x y) && negb (less y x)).
  - specialize (IH x). destruct (unique less x ys). simpl in *.
    rewrite <- Permutation_middle, IH. constructor.
  - specialize (IH y). destruct (unique less y ys). simpl in *. by rewrite IH.
Qed.

Lemma unique_hd x ys : exists u, (unique less x ys).1 = x :: u.
Proof.
  revert x. induction ys as [|y ys IH]; intros x; simpl; [eauto|].
  destruct (negb (less x y) && negb (less y x)).
  - specialize (IH x). by destruct (unique less x ys).
  - destruct (unique less y ys). simpl. eauto.
Qed.

Lemma unique_adjacent x ys :
  Sorted (fun a b => less a b = true \/ less b a = true) (unique less x ys).1.
Proof.
  revert x. induction ys as [|y ys IH]; intros x; simpl; [repeat constructor|].
  destruct (negb (less x y) && negb (less y x)) eqn:E.
  - specialize (IH x). by destruct (unique less x ys).
  - specialize (IH y). destruct (unique_hd y ys) as [u Hu].
    destruct (unique less y ys). simpl in *. subst. constructor; [done|]. constructor.
    destruct (less x y), (less y x); auto.
Qed.
End ordered_ops.

(** ** Reversal *)

Lemma path_rev h h' l :
  (forall x, x ∈ tl l -> nx h' x = pv h x) ->
  (forall x, x ∈ removelast l -> pv h' x = nx h x) ->
  path h l -> path h' (rev l).
Proof.
  induction l as [|a l IH]; [done|]. destruct l as [|b l]; [done|].
  intros Hn Hp [[L1 L2] HP]. cbn [rev]. rewrite (path_app _ _ _ b a); [|by rewrite last_snoc|done].
  split; [|split; [split|done]].
  - apply IH; [intros x Hx; apply Hn|intros x Hx; apply Hp|done].
    + simpl in *. by apply elem_of_cons; right.
    + by apply elem_of_cons; right.
  - rewrite Hn; [done|]. simpl. apply list_elem_of_here.
  - rewrite Hp; [done|]. apply list_elem_of_here.
Qed.

(** Part of the elements have had their links exchanged. *)
Definition half_reversed (h0 h : heap) (xs : list Z) : Prop :=
  (forall x, x ∈ xs -> nx h x = pv h0 x /\ pv h x = nx h0 x) /\
  (forall x, x ∉ xs -> h !! x = h0 !! x) /\ (forall x, is_Some (h !! x) <-> is_Some (h0 !! x)).

Lemma reverse_step h0 h xs x p n :
  x ∉ xs -> half_reversed h0 h xs -> pv h0 x = Some p -> nx h0 x = Some n ->
  swap (FPrev x) (FNext x) h = Ok (tt, set_next (set_prev h x n) x p) /\
  half_reversed h0 (set_next (set_prev h x n) x p) (xs ++ [x]).
Proof.
  intros Hx (H1 & H2 & H3) Hp Hn.
  assert (is_Some (h !! x)) as Ha by (apply H3; by eapply nx_some). split.
  - unfold swap. simpl. erewrite bind_eq; [|apply (rd_prev_run _ _ p); unfold pv; by rewrite H2].
    erewrite bind_eq; [|apply (rd_next_run _ _ n); unfold nx; by rewrite H2].
    erewrite bind_eq; [|apply wr_prev_run; alloc_side]. apply wr_next_run. alloc_side.
  - split_and!; intros z.
    + intros [Hz|Hz%list_elem_of_singleton]%elem_of_app; [|subst z].
      * assert (z <> x) by (by intros ->). destruct (H1 z Hz). by read_links.
      * rewrite Hp, Hn. by read_links.
    + intros Hz. rewrite <- H2 by (intros ?; apply Hz; in_list).
      unfold set_next, set_prev. by rewrite !lookup_alter_ne by (intros ->; apply Hz; in_list).
    + by rewrite alloc_set_next, alloc_set_prev.
Qed.

Lemma reverse_loop_list h0 L fuel : forall h xs1 xs2,
  is_list h0 L (xs1 ++ xs2) -> half_reversed h0 h xs1 -> (length xs2 < fuel)%nat ->
  exists h', reverse_loop fuel L (pos L xs2) h = Ok (tt, h') /\ half_reversed h0 h' (xs1 ++ xs2).
Proof.
  induction fuel as [|fuel IH]; intros h xs1 xs2 Hl HR Hf; [lia|]. simpl reverse_loop.
  assert (list_end L h = Ok (tail_of L, h)) as Ee.
  { unfold list_end. by erewrite bind_eq; [|by eapply assert_true, il_L]. }
  erewrite bind_eq; [|exact Ee]. rewrite (pos_tail h0 L xs1) by done.
  destruct xs2 as [|x xs2]; simpl; [exists h; by rewrite app_nil_r|].
  destruct (around_elem _ _ _ _ _ Hl) as (l1 & p & l2 & E & _ & Hnd & _).
  pose proof (il_links _ _ _ _ _ _ _ Hl E) as [_ Lx].
  assert (nodes L (xs1 ++ x :: xs2) = (l1 ++ [p]) ++ x :: pos L xs2 :: l2) as E2
    by (by rewrite <- app_assoc).
  pose proof (il_links _ _ _ _ _ _ _ Hl E2) as [Lx' _].
  assert (x ∉ xs1) as Hx.
  { pose proof (il_nodup _ _ _ Hl) as Hn. rewrite nodes_split in Hn.
    apply NoDup_app in Hn as (_ & Hn & _). intros Hx. apply (Hn x); [by right|]. in_list. }
  destruct (reverse_step h0 h xs1 x p (pos L xs2) Hx HR Lx Lx') as [R HR'].
  erewrite bind_eq; [|exact R]. erewrite bind_eq; [|apply (rd_prev_run _ _ (pos L xs2))].
  - destruct (IH (set_next (set_prev h x (pos L xs2)) x p) (xs1 ++ [x]) xs2) as (h' & R' & H');
      [by rewrite <- app_assoc|exact HR'|simpl in Hf; lia|].
    exists h'. by rewrite <- app_assoc in H'.
  - rewrite pv_set_next. apply pv_set_prev_eq. apply HR. by eapply nx_some.
Qed.

Lemma path_ends h u v xs a z :
  hd_error xs = Some a -> last xs = Some z ->
  path h (u :: xs ++ [v]) <-> links h u a /\ path h xs /\ links h z v.
Proof.
  intros Ha Hz. change (u :: xs ++ [v]) with ([u] ++ xs ++ [v]).
  rewrite (path_app h [u] (xs ++ [v]) u a); [|done|by destruct xs].
  rewrite (path_app h xs [v] z v) by done. simpl. tauto.
Qed.

(** The links around the first and the last element are set last. *)
Lemma reverse_ends h0 h L a z xs :
  is_list h0 L xs -> half_reversed h0 h xs -> hd_error xs = Some a -> last xs = Some z ->
  links h0 (head_of L) a -> links h0 z (tail_of L) ->
  let h' := set_next (set_prev (set_prev (set_next h (head_of L) z) (tail_of L) a)
                        z (head_of L)) a (tail_of L) in
  (do! swap (FNext (head_of L)) (FPrev (tail_of L));
   let! hn := rd_next (head_of L) in
   let! tp := rd_prev (tail_of L) in
   swap (FPrev hn) (FNext tp)) h = Ok (tt, h') /\
  is_list h' L (rev xs) /\ frame (nodes L xs) h0 h'.
Proof.
  intros Hl (H1 & H2 & H3) Ha Hz [La La'] [Lz Lz'] h'.
  pose proof (il_nodup _ _ _ Hl) as Hnd. pose proof (il_null _ _ _ Hl) as Hnl. unfold nodes in Hnd, Hnl.
  apply NoDup_cons in Hnd as [Nh Hnd]. apply NoDup_app in Hnd as (Hnd & Hdis & _).
  assert (head_of L ∉ xs) as Nh1 by (intros ?; apply Nh; in_list).
  assert (head_of L <> tail_of L) as Nht by (intros E; apply Nh; rewrite E; in_list).
  assert (tail_of L ∉ xs) as Nt1 by (intros Ht; apply (Hdis _ Ht), list_elem_of_here).
  assert (a ∈ xs) as Ia by (destruct xs; [done|injection Ha as <-; apply list_elem_of_here]).
  assert (z ∈ xs) as Iz by (apply last_Some in Hz as [? ->]; in_list).
  assert (head_of L <> a /\ head_of L <> z /\ tail_of L <> a /\ tail_of L <> z) as (?&?&?&?)
    by (split_and!; congruence).
  assert (nx h (head_of L) = Some a) by (unfold nx in *; by rewrite H2).
  assert (pv h (tail_of L) = Some z) by (unfold pv in *; by rewrite H2).
  destruct (H1 a Ia) as [Ea1 Ea2]. destruct (H1 z Iz) as [Ez1 Ez2]. rewrite La' in Ea1. rewrite Lz in Ez2.
  assert (is_Some (h !! head_of L) /\ is_Some (h !! tail_of L) /\ is_Some (h !! a) /\ is_Some (h !! z))
    as (?&?&?&?) by (split_and!; eauto using nx_some, pv_some).
  pose proof (il_path _ _ _ Hl) as Hp. unfold nodes in Hp.
  rewrite (path_ends h0 _ _ xs a z) in Hp by done. destruct Hp as (_ & Hp & _).
  split; [|split; [split|]].
  - unfold swap. simpl.
    erewrite bind_eq; [|erewrite bind_eq; [|by apply (rd_next_run _ _ a)];
      erewrite bind_eq; [|by apply (rd_prev_run _ _ z)];
      erewrite bind_eq; [|apply wr_next_run; alloc_side]; apply wr_prev_run; alloc_side].
    erewrite bind_eq; [|apply (rd_next_run _ _ z); by read_links].
    erewrite bind_eq; [|apply (rd_prev_run _ _ a); by read_links].
    erewrite bind_eq; [|apply (rd_prev_run _ _ (tail_of L)); by read_links].
    erewrite bind_eq; [|apply (rd_next_run _ _ (head_of L)); by read_links].
    erewrite bind_eq; [|apply wr_prev_run; alloc_side]. apply wr_next_run. alloc_side.
  - assert (forall x, x ∈ xs -> x <> head_of L /\ x <> tail_of L) as Hne by (split; congruence).
    apply (path_ends h' _ _ (rev xs) z a); [| |split_and!].
    + apply last_Some in Hz as [init ->]. by rewrite rev_app_distr.
    + destruct xs; [done|]. injection Ha as ->. simpl. by rewrite last_snoc.
    + split; unfold h'; by read_links.
    + revert Hp. apply path_rev; intros x Hx; unfold h'.
      * destruct (Hne x); [by apply elem_tl|].
        assert (x <> a) by (intros ->; revert Hx; by apply hd_not_tl).
        read_links. by apply H1, elem_tl.
      * destruct (Hne x); [by apply elem_removelast|].
        assert (x <> z) by (intros ->; revert Hx; by apply nodup_removelast).
        read_links. by apply H1, elem_removelast.
    + split; unfold h'; by read_links.
  - unfold h'. read_links. unfold pv. rewrite H2 by done. apply Hl.
  - unfold h'. read_links. unfold nx. rewrite H2 by done. apply Hl.
  - unfold nodes. rewrite <- Permutation_rev. apply Hl.
  - unfold nodes. rewrite <- Permutation_rev. apply Hl.
  - unfold h'. repeat first [apply frame_set_next; [unfold nodes; in_list|] | apply frame_set_prev; [unfold nodes; in_list|]].
    split; [|done]. intros y Hy. apply H2. intros ?. apply Hy. unfold nodes. in_list.
Qed.

Lemma list_reverse_list h L xs fuel :
  is_list h L xs -> (length xs < fuel)%nat ->
  exists h', list_reverse fuel L h = Ok (tt, h') /\ is_list h' L (rev xs) /\ frame (nodes L xs) h h'.
Proof.
  intros Hl Hf. unfold list_reverse. erewrite bind_eq; [|by eapply list_empty_run].
  destruct xs as [|a xs]; simpl; [exists h; eauto using frame_refl|].
  erewrite bind_eq; [|by eapply list_begin_pos].
  destruct (reverse_loop_list h L fuel h [] (a :: xs)) as (h1 & R & HR); [done| |done|].
  { split_and!; [set_solver|done|done]. }
  erewrite bind_eq; [|exact R].
  destruct (exists_last (l := a :: xs) ltac:(done)) as (init & z & E).
  eexists. eapply (reverse_ends h h1 L a z (a :: xs)); [done..|rewrite E; by rewrite last_snoc| |].
  - eapply (il_links h L (a :: xs) [] (head_of L) a); done.
  - eapply (il_links h L (a :: xs) (head_of L :: init) z (tail_of L) []); [done|].
    unfold nodes. rewrite E. simpl. by rewrite <- app_assoc.
Qed.

End KListOrder.
