(* ===== verification/KListProps.v ===== *)
(** * lib/kernel/list.c: the properties of the list module

    The main theorems about [struct list], each with an instance on a small
    store: the list [demo_list] at address 1000 with the elements 24, 8 and 16,
    a second, empty list at 2000, and an unlinked element at 32. *)

From S2P Require Import Prelude KList KListFacts KListSort KListOrder.
Import KList KListFacts KListSort KListOrder.

Module KListProps.

(** ** A concrete store *)

Definition demo_list : Z := 1000.
Definition demo_dups : Z := 2000.
Definition demo : heap :=
  list_to_map [ (1000, {| prev := NULL; next := 24 |}); (24, {| prev := 1000; next := 8 |});
                (8, {| prev := 24; next := 16 |}); (16, {| prev := 8; next := 1008 |});
                (1008, {| prev := 16; next := NULL |});
                (2000, {| prev := NULL; next := 2008 |}); (2008, {| prev := 2000; next := NULL |});
                (32, {| prev := 0; next := 0 |}) ].

Lemma demo_is_list : is_list demo demo_list [24; 8; 16].
Proof.
  split; [by vm_compute|by vm_compute|by vm_compute| | ].
  - apply (bool_decide_unpack _). by vm_compute.
  - apply (bool_decide_unpack _). by vm_compute.
Qed.

Lemma demo_dups_is_list : is_list demo demo_dups [].
Proof.
  split; [by vm_compute|by vm_compute|by vm_compute| | ].
  - apply (bool_decide_unpack _). by vm_compute.
  - apply (bool_decide_unpack _). by vm_compute.
Qed.

Lemma ltb_asym x y : (x <? y) = true -> (y <? x) = false.
Proof. rewrite Z.ltb_lt, Z.ltb_ge. lia. Qed.
Lemma ltb_ntrans x y z : (x <? y) = false -> (y <? z) = false -> (x <? z) = false.
Proof. rewrite !Z.ltb_ge. lia. Qed.

Ltac side := first [apply (bool_decide_unpack _); by vm_compute | by vm_compute; eauto | simpl; lia].

(** ** Insertion and removal *)

(** Inserting a fresh element before any position of a well-linked list
    succeeds (no assertion fails, no wild access), puts it exactly there, and
    changes the links of no node outside the list. *)
Theorem list_insert_correct h L xs1 xs2 e :
  is_list h L (xs1 ++ xs2) -> e ∉ nodes L (xs1 ++ xs2) -> e <> NULL -> is_Some (h !! e) ->
  exists h', list_insert (pos L xs2) e h = Ok (tt, h') /\
    is_list h' L (xs1 ++ e :: xs2) /\ frame (e :: nodes L (xs1 ++ xs2)) h h'.
Proof. apply list_insert_list. Qed.

Lemma list_insert_correct_witness :
  exists h', list_insert 8 32 demo = Ok (tt, h') /\ is_list h' demo_list [24; 32; 8; 16] /\
    frame (32 :: nodes demo_list [24; 8; 16]) demo h'.
Proof.
  apply (list_insert_correct demo demo_list [24] [8; 16] 32);
    [apply demo_is_list|side|by vm_compute|by vm_compute; eauto].
Defined.

(** Removing any element of a well-linked list succeeds, unlinks exactly that
    element, returns the one that followed it (or the tail), and changes no node
    outside the remaining list. *)
Theorem list_remove_correct h L xs1 x xs2 :
  is_list h L (xs1 ++ x :: xs2) ->
  exists h', list_remove x h = Ok (pos L xs2, h') /\
    is_list h' L (xs1 ++ xs2) /\ frame (nodes L (xs1 ++ xs2)) h h'.
Proof. apply list_remove_list. Qed.

Lemma list_remove_correct_witness :
  exists h', list_remove 8 demo = Ok (16, h') /\ is_list h' demo_list [24; 16] /\
    frame (nodes demo_list [24; 16]) demo h'.
Proof. apply (list_remove_correct demo demo_list [24] 8 [16]), demo_is_list. Defined.

(** ** Sorting *)

(** C19: For every asymmetric comparison, [list_sort] terminates on every
    well-linked list (as many rounds as the list has elements are enough for each
    of its loops), leaves a well-linked list that is a permutation of the old one
    with no adjacent pair out of order, passes its own assertions, and changes no
    node outside the list. *)
Theorem list_sort_correct less h L xs fuel :
  (forall x y, less x y = true -> less y x = false) ->
  is_list h L xs -> (length xs < fuel)%nat -> Z.of_nat (length xs) < 2 ^ 32 ->
  exists h' ys, list_sort less fuel L h = Ok (tt, h') /\ is_list h' L ys /\
    Permutation ys xs /\ ordered less ys /\ frame (nodes L xs) h h'.
Proof. apply list_sort_list. Qed.

Lemma list_sort_correct_witness :
  exists h' ys, list_sort Z.ltb 4 demo_list demo = Ok (tt, h') /\ is_list h' demo_list ys /\
    Permutation ys [24; 8; 16] /\ ordered Z.ltb ys /\ frame (nodes demo_list [24; 8; 16]) demo h'.
Proof.
  apply (list_sort_correct Z.ltb demo demo_list [24; 8; 16] 4);
    [apply ltb_asym|apply demo_is_list|simpl; lia|by vm_compute].
Defined.

(** [list_insert_ordered] puts a fresh element into an ordered list so that the
    list stays ordered and holds exactly the old elements and the new one. *)
Theorem list_insert_ordered_correct less h L xs e fuel :
  (forall x y, less x y = true -> less y x = false) ->
  is_list h L xs -> ordered less xs -> (length xs < fuel)%nat ->
  e ∉ nodes L xs -> e <> NULL -> is_Some (h !! e) ->
  exists h' ys, list_insert_ordered less fuel L e h = Ok (tt, h') /\ is_list h' L ys /\
    Permutation ys (e :: xs) /\ ordered less ys /\ frame (e :: nodes L xs) h h'.
Proof.
  intros Has Hl Ho Hf He Hn Ha.
  destruct (list_insert_ordered_list less h L xs e fuel) as (h' & R & L' & F); [done..|].
  exists h', (insert less e xs). split_and!; [done|done|apply insert_perm|by apply insert_ordered|done].
Qed.

Lemma list_insert_ordered_correct_witness :
  exists h' ys, list_insert_ordered (fun x y => x mod 17 <? y mod 17) 4 demo_list 32 demo = Ok (tt, h') /\
    is_list h' demo_list ys /\ Permutation ys [32; 24; 8; 16] /\
    ordered (fun x y => x mod 17 <? y mod 17) ys /\ frame (32 :: nodes demo_list [24; 8; 16]) demo h'.
Proof.
  apply (list_insert_ordered_correct (fun x y => x mod 17 <? y mod 17) demo demo_list [24; 8; 16] 32 4).
  - intros x y. apply ltb_asym.
  - apply demo_is_list.
  - repeat constructor.
  - simpl; lia.
  - side.
  - by vm_compute.
  - by vm_compute; eauto.
Defined.

(** ** Reversal, duplicates, extrema *)

(** [list_reverse] reverses the order of the elements of any well-linked list. *)
Theorem list_reverse_correct h L xs fuel :
  is_list h L xs -> (length xs < fuel)%nat ->
  exists h', list_reverse fuel L h = Ok (tt, h') /\ is_list h' L (rev xs) /\ frame (nodes L xs) h h'.
Proof. apply list_reverse_list. Qed.

Lemma list_reverse_correct_witness :
  exists h', list_reverse 4 demo_list demo = Ok (tt, h') /\ is_list h' demo_list [16; 8; 24] /\
    frame (nodes demo_list [24; 8; 16]) demo h'.
Proof.
  apply (list_reverse_correct demo demo_list [24; 8; 16] 4); [apply demo_is_list|simpl; lia].
Defined.

(** [list_unique] keeps the first element of every group of adjacent equal
    elements and moves the others, in order, to the end of the list of duplicates
    (or drops them when there is none): no two adjacent elements that are left
    compare equal, and together with the duplicates they are the old elements. *)
Theorem list_unique_correct less h L D xs zs fuel :
  is_list h L xs -> dups h L xs D zs -> (length xs < fuel)%nat ->
  exists h' us ds, list_unique less fuel L D h = Ok (tt, h') /\
    is_list h' L us /\ dups h' L us D (zs ++ ds) /\ Permutation (us ++ ds) xs /\
    Sorted (fun a b => less a b = true \/ less b a = true) us.
Proof.
  intros Hl HD Hf. destruct (list_unique_list less L D h xs zs fuel) as (h' & R & L' & D'); [done..|].
  exists h', (list_uniq less xs).1, (list_uniq less xs).2.
  split_and!; [done..| |]; (destruct xs as [|x xs]; simpl; [done || constructor|]).
  - apply unique_perm.
  - apply unique_adjacent.
Qed.

Lemma list_unique_correct_witness :
  exists h' us ds, list_unique (fun x y => x mod 16 <? y mod 16) 4 demo_list demo_dups demo = Ok (tt, h') /\
    is_list h' demo_list us /\ dups h' demo_list us demo_dups ([] ++ ds) /\
    Permutation (us ++ ds) [24; 8; 16] /\
    Sorted (fun a b => (a mod 16 <? b mod 16) = true \/ (b mod 16 <? a mod 16) = true) us.
Proof.
  apply (list_unique_correct (fun x y => x mod 16 <? y mod 16) demo demo_list demo_dups [24; 8; 16] [] 4).
  - apply demo_is_list.
  - right. split; [apply demo_dups_is_list|]. apply Forall_forall.
    apply (bool_decide_unpack _). by vm_compute.
  - simpl; lia.
Defined.

(** [list_max] and [list_min] return, for a total preorder, the earliest of
    the largest and the earliest of the smallest elements of a nonempty list, and
    change nothing. *)
Theorem list_max_min_correct less h L x xs fuel :
  (forall x y z, less x y = false -> less y z = false -> less x z = false) ->
  (forall x y, less x y = true -> less y x = false) ->
  is_list h L (x :: xs) -> (length (x :: xs) < fuel)%nat ->
  (exists m pre post, list_max less fuel L h = Ok (m, h) /\ x :: xs = pre ++ m :: post /\
    (forall y, y ∈ pre -> less y m = true) /\ (forall y, y ∈ post -> less m y = false)) /\
  (exists m pre post, list_min less fuel L h = Ok (m, h) /\ x :: xs = pre ++ m :: post /\
    (forall y, y ∈ pre -> less m y = true) /\ (forall y, y ∈ post -> less y m = false)).
Proof.
  intros Hnt Has Hl Hf. split.
  - destruct (max_elem_spec less x xs Hnt Has) as (pre & post & E).
    exists (max_elem less x xs), pre, post. split; [by apply (list_max_list less h L (x :: xs))|done].
  - destruct (min_elem_spec less x xs Hnt Has) as (pre & post & E).
    exists (min_elem less x xs), pre, post. split; [by apply (list_min_list less h L (x :: xs))|done].
Qed.

Lemma list_max_min_correct_witness :
  exists m pre post, list_max Z.ltb 4 demo_list demo = Ok (m, demo) /\ [24; 8; 16] = pre ++ m :: post /\
    (forall y, y ∈ pre -> (y <? m) = true) /\ (forall y, y ∈ post -> (m <? y) = false).
Proof.
  apply (list_max_min_correct Z.ltb demo demo_list 24 [8; 16] 4);
    [apply ltb_ntrans|apply ltb_asym|apply demo_is_list|simpl; lia].
Defined.

End KListProps.
