(* ===== verification/Arith.v ===== *)
(** * lib/arithmetic.c: 64-bit division on a 32-bit machine

    Unsigned values are integers in their range, kept there by writing out the
    wrap-around of each operation.  [divl] is the x86 instruction, which traps when its
    quotient does not fit into 32 bits. *)

From S2P Require Import Prelude.

Module Arith.







(** ** Leading zeros *)



(** ** The estimate of the quotient *)


(** ** Unsigned division *)






(** ** Signed division and remainders *)





(** ** Main property *)


End Arith.
