(* ===== verification/FixedPoint.v ===== *)
(** * threads/fixed-point.h

    A [fixed_point_t] is its member [f], an [int] that stands for [f / 65536]. *)

From S2P Require Import Prelude.

Module FixedPoint.

Definition FIX_P : Z := 16.
Definition FIX_Q : Z := 16.
Definition FIX_F : Z := Z.shiftl 1 FIX_Q.
Definition FIX_MAX_INT : Z := Z.shiftl 1 FIX_P - 1.
Definition FIX_MIN_INT : Z := - FIX_MAX_INT.

Definition fassert {A} (b : bool) (r : res A) : res A := if b then r else Err AssertFail.
(** The quotient of the C operator [/], which traps on zero. *)
Definition cdiv (n d : Z) : res Z := if d =? 0 then Err KernelPanic else Ok (Z.quot n d).

Definition fix_int (n : Z) : res Z :=
  fassert ((n >=? FIX_MIN_INT) && (n <=? FIX_MAX_INT)) (Ok (s32 (n * FIX_F))).
Definition fix_frac (n d : Z) : res Z :=
  fassert (negb (d =? 0))
    (fassert ((s32 (Z.quot n d) >=? FIX_MIN_INT) && (s32 (Z.quot n d) <=? FIX_MAX_INT))
      (rbind (cdiv (s64 (n * FIX_F)) d) (fun q => Ok (s32 q)))).
Definition fix_round (x : Z) : Z := Z.quot (s32 (x + FIX_F / 2)) FIX_F.
Definition fix_trunc (x : Z) : Z := Z.quot x FIX_F.
Definition fix_add (x y : Z) : Z := s32 (x + y).
Definition fix_sub (x y : Z) : Z := s32 (x - y).
Definition fix_mul (x y : Z) : Z := s32 (Z.quot (s64 (x * y)) FIX_F).
Definition fix_scale (x n : Z) : res Z := fassert (n >=? 0) (Ok (s32 (x * n))).
Definition fix_div (x y : Z) : res Z := rbind (cdiv (s64 (x * FIX_F)) y) (fun q => Ok (s32 q)).
Definition fix_unscale (x n : Z) : res Z := fassert (n >? 0) (rbind (cdiv x n) Ok).
Definition fix_inv (x : Z) : res Z := rbind (fix_int 1) (fun one => fix_div one x).
Definition fix_compare (x y : Z) : Z := if x <? y then -1 else Z.b2z (x >? y).

(** ** Rounding *)

Definition is_int (x : Z) : Prop := - 2 ^ 31 <= x < 2 ^ 31.

Lemma s64_product x y : is_int x -> is_int y -> s64 (x * y) = x * y.
Proof. unfold is_int. intros Hx Hy. apply wraps_small; [lia|]. change (2 ^ (64 - 1)) with (2 ^ 63). nia. Qed.
Lemma F_value : FIX_F = 65536.
Proof. done. Qed.
Lemma quot_near a b : 0 < b -> Z.abs (b * Z.quot a b - a) < b.
Proof. intros Hb. pose proof (Z.quot_rem a b ltac:(lia)). pose proof (Z.rem_bound_abs a b ltac:(lia)). lia. Qed.
Lemma quot_near' a b : b <> 0 -> Z.abs (b * Z.quot a b - a) < Z.abs b.
Proof. intros Hb. pose proof (Z.quot_rem a b Hb). pose proof (Z.rem_bound_abs a b Hb). lia. Qed.

(** products and quotients of fixed-point numbers are exact up to less than one unit
    in the last place, when they can be represented: [fix_mul x y] stands for
    [x * y / 65536] and [fix_div x y] for [x * 65536 / y]. *)
Theorem fix_mul_div_accurate x y :
  is_int x -> is_int y ->
  (is_int (Z.quot (x * y) FIX_F) -> Z.abs (FIX_F * fix_mul x y - x * y) < FIX_F) /\
  (y <> 0 -> is_int (Z.quot (x * FIX_F) y) ->
   exists q, fix_div x y = Ok q /\ Z.abs (y * q - FIX_F * x) < Z.abs y).
Proof.
  intros Hx Hy. split.
  - intros Hr. unfold fix_mul. rewrite s64_product, wraps_small by (unfold is_int in *; done || lia). by apply quot_near.
  - intros Hz Hr. unfold fix_div, cdiv. rewrite (proj2 (Z.eqb_neq y 0)) by done. cbn [rbind].
    rewrite s64_product by (done || (rewrite F_value; unfold is_int; lia)). eexists. split; [done|].
    rewrite wraps_small by (unfold is_int in *; done || lia). rewrite (Z.mul_comm FIX_F). by apply quot_near'.
Qed.
Lemma fix_mul_div_accurate_witness :
  Z.abs (FIX_F * fix_mul 98304 (-49152) - 98304 * -49152) < FIX_F /\ fix_mul 98304 (-49152) = -73728.
Proof.
  destruct (fix_mul_div_accurate 98304 (-49152)) as [H _]; [split; reflexivity || discriminate..|].
  split; [|reflexivity]. apply H. split; reflexivity || discriminate.
Defined.

(** Nonnegative numbers are rounded to the nearest integer. *)
Lemma fix_round_nonneg x : 0 <= x < 2 ^ 31 - FIX_F / 2 -> 2 * Z.abs (FIX_F * fix_round x - x) <= FIX_F.
Proof.
  intros Hx. unfold fix_round. rewrite wraps_small; rewrite F_value in *; change (65536 / 2) with 32768 in *.
  - rewrite Z.quot_div_nonneg by lia. pose proof (Z.div_mod (x + 32768) 65536 ltac:(lia)).
    pose proof (Z.mod_pos_bound (x + 32768) 65536 ltac:(lia)). lia.
  - lia.
  - change (2 ^ (32 - 1)) with (2 ^ 31). lia.
Qed.
(** Negative ones are not: three quarters below zero become zero. *)
Lemma fix_round_negative : fix_round (-49152) = 0 /\ 2 * Z.abs (FIX_F * fix_round (-49152) - -49152) > FIX_F.
Proof. done. Qed.
(** The assertion of [fix_int] lets integers through that do not fit. *)
Lemma fix_int_overflows : fix_int 32768 = Ok (- 2 ^ 31) /\ fix_trunc (- 2 ^ 31) = -32768.
Proof. done. Qed.
Lemma fix_int_exact n : -32768 <= n <= 32767 -> fix_int n = Ok (n * FIX_F) /\ fix_trunc (n * FIX_F) = n.
Proof.
  intros Hn. unfold fix_int, fix_trunc. rewrite Z.quot_mul by done. split; [|done]. rewrite F_value.
  change FIX_MIN_INT with (-65535). change FIX_MAX_INT with 65535.
  replace ((n >=? -65535) && (n <=? 65535)) with true by lia. cbn [fassert].
  rewrite wraps_small; [done|lia|]. change (2 ^ (32 - 1)) with (2 ^ 31). lia.
Qed.

End FixedPoint.
