(* ===== verification/Bytes.v ===== *)
(** * Byte sequences

    Buffers and disk sectors are lists of bytes, each a [Z] in [0, 256).  This
    file has what the components share about them: slices and overwriting
    ([memcpy] out of and into a buffer) and the little-endian layout of 32-bit
    words and of arrays of words. *)

From S2P Require Import Prelude.

Module Bytes.

Definition is_byte (x : Z) : Prop := 0 <= x < 256.
Definition is_word (x : Z) : Prop := 0 <= x < 2 ^ 32.

(** [len] bytes from offset [ofs]. *)
Definition sub_bytes (ofs len : Z) (bs : list Z) : list Z :=
  take (Z.to_nat len) (drop (Z.to_nat ofs) bs).

(** [bs] with [data] copied over it at offset [ofs]. *)
Definition splice (ofs : Z) (data bs : list Z) : list Z :=
  take (Z.to_nat ofs) bs ++ data ++ drop (Z.to_nat ofs + length data) bs.

Definition zeros (n : Z) : list Z := replicate (Z.to_nat n) 0.

Fixpoint le_decode (bs : list Z) : Z :=
  match bs with [] => 0 | b :: bs => b + 256 * le_decode bs end.
Fixpoint le_encode (n : nat) (x : Z) : list Z :=
  match n with O => [] | S n => x mod 256 :: le_encode n (x / 256) end.

(** An array of [n] 32-bit words in memory. *)
Fixpoint to_words (n : nat) (bs : list Z) : list Z :=
  match n with O => [] | S n => le_decode (take 4 bs) :: to_words n (drop 4 bs) end.
Definition of_words (ws : list Z) : list Z := concat (map (le_encode 4) ws).

(** ** Slices *)

Lemma splice_length ofs data bs :
  0 <= ofs -> ofs + Z.of_nat (length data) <= Z.of_nat (length bs) ->
  length (splice ofs data bs) = length bs.
Proof. intros. unfold splice. rewrite !length_app, length_take, length_drop. lia. Qed.

Lemma sub_bytes_length ofs len bs :
  0 <= ofs -> 0 <= len -> ofs + len <= Z.of_nat (length bs) ->
  length (sub_bytes ofs len bs) = Z.to_nat len.
Proof. intros. unfold sub_bytes. rewrite length_take, length_drop. lia. Qed.

Lemma sub_bytes_lookup ofs len bs i :
  (i < Z.to_nat len)%nat -> sub_bytes ofs len bs !! i = bs !! (Z.to_nat ofs + i)%nat.
Proof. intros. unfold sub_bytes. by rewrite lookup_take_lt, lookup_drop. Qed.

Lemma splice_lookup ofs data bs i :
  0 <= ofs -> ofs + Z.of_nat (length data) <= Z.of_nat (length bs) ->
  splice ofs data bs !! i =
    if (Z.to_nat ofs <=? i)%nat && (i <? Z.to_nat ofs + length data)%nat
    then data !! (i - Z.to_nat ofs)%nat else bs !! i.
Proof.
  intros H1 H2. unfold splice. assert (length (take (Z.to_nat ofs) bs) = Z.to_nat ofs) as E
    by (rewrite length_take; lia).
  destruct (Nat.leb_spec (Z.to_nat ofs) i); simpl.
  - rewrite lookup_app_r, E by lia. destruct (Nat.ltb_spec i (Z.to_nat ofs + length data)).
    + rewrite lookup_app_l by lia. done.
    + rewrite lookup_app_r, lookup_drop by lia. f_equal. lia.
  - rewrite lookup_app_l, lookup_take_lt by lia. done.
Qed.

Lemma sub_splice ofs data bs :
  0 <= ofs -> ofs + Z.of_nat (length data) <= Z.of_nat (length bs) ->
  sub_bytes ofs (Z.of_nat (length data)) (splice ofs data bs) = data.
Proof.
  intros H1 H2. unfold sub_bytes, splice. rewrite Nat2Z.id.
  rewrite drop_app_length' by (rewrite length_take; lia). by rewrite take_app_length.
Qed.

Lemma sub_splice_disjoint o n ofs data bs :
  0 <= ofs -> ofs + Z.of_nat (length data) <= Z.of_nat (length bs) ->
  0 <= o -> 0 <= n -> o + n <= ofs \/ ofs + Z.of_nat (length data) <= o ->
  sub_bytes o n (splice ofs data bs) = sub_bytes o n bs.
Proof.
  intros H1 H2 H3 H4 Hd. apply list_eq. intros i.
  destruct (decide (i < Z.to_nat n)%nat) as [Hi|Hi].
  - rewrite !sub_bytes_lookup, splice_lookup by done.
    destruct (Nat.leb_spec (Z.to_nat ofs) (Z.to_nat o + i)),
      (Nat.ltb_spec (Z.to_nat o + i) (Z.to_nat ofs + length data)); try done. lia.
  - unfold sub_bytes. by rewrite !lookup_take_ge by lia.
Qed.

Lemma splice_all data bs : length data = length bs -> splice 0 data bs = data.
Proof.
  intros E. unfold splice. simpl. rewrite E, drop_all. by rewrite app_nil_r.
Qed.

Lemma sub_bytes_all bs n : n = Z.of_nat (length bs) -> sub_bytes 0 n bs = bs.
Proof. intros ->. unfold sub_bytes. by rewrite Nat2Z.id, drop_0, firstn_all. Qed.

Lemma splice_nil ofs bs : splice ofs [] bs = bs.
Proof. unfold splice. simpl. rewrite Nat.add_0_r. apply take_drop. Qed.

Lemma sub_bytes_nil ofs len bs : len <= 0 -> sub_bytes ofs len bs = [].
Proof. intros. unfold sub_bytes. by rewrite Z2Nat.nonpos. Qed.

Lemma sub_bytes_app ofs a b bs :
  0 <= ofs -> 0 <= a -> 0 <= b ->
  sub_bytes ofs (a + b) bs = sub_bytes ofs a bs ++ sub_bytes (ofs + a) b bs.
Proof.
  intros. unfold sub_bytes. rewrite !Z2Nat.inj_add by lia. rewrite <- drop_drop.
  symmetry. apply take_take_drop.
Qed.

Lemma Forall_splice (P : Z -> Prop) ofs data bs :
  Forall P data -> Forall P bs -> Forall P (splice ofs data bs).
Proof.
  intros Hd Hb. unfold splice. rewrite !Forall_app. eauto using Forall_take, Forall_drop.
Qed.
Lemma Forall_sub_bytes (P : Z -> Prop) ofs len bs : Forall P bs -> Forall P (sub_bytes ofs len bs).
Proof. intros Hb. unfold sub_bytes. eauto using Forall_take, Forall_drop. Qed.

(** ** Little-endian words *)

Lemma le_encode_length n x : length (le_encode n x) = n.
Proof. revert x. induction n as [|n IH]; intros x; simpl; [done|by rewrite IH]. Qed.

Lemma le_encode_bytes n x : Forall is_byte (le_encode n x).
Proof.
  revert x. induction n as [|n IH]; intros x; simpl; constructor; [|done].
  apply Z.mod_pos_bound. lia.
Qed.

Lemma le_decode_encode n x : 0 <= x < 256 ^ Z.of_nat n -> le_decode (le_encode n x) = x.
Proof.
  revert x. induction n as [|n IH]; intros x Hx; cbn [le_encode le_decode]; [simpl in Hx; lia|].
  rewrite Nat2Z.inj_succ, Z.pow_succ_r in Hx by lia.
  rewrite IH; [pose proof (Z.div_mod x 256); lia|].
  split; [apply Z.div_pos; lia|apply Z.div_lt_upper_bound; lia].
Qed.

Lemma le_decode_range bs : Forall is_byte bs -> 0 <= le_decode bs < 256 ^ Z.of_nat (length bs).
Proof.
  induction 1 as [|b bs Hb _ IH]; cbn [le_decode length]; [simpl; lia|].
  rewrite Nat2Z.inj_succ, Z.pow_succ_r by lia. unfold is_byte in Hb. lia.
Qed.

Lemma le_encode_decode bs : Forall is_byte bs -> le_encode (length bs) (le_decode bs) = bs.
Proof.
  induction 1 as [|b bs Hb _ IH]; [done|]. unfold is_byte in Hb. cbn [le_decode le_encode length].
  replace ((b + 256 * le_decode bs) mod 256) with b.
  2: { rewrite Z.mul_comm, Z.mod_add, Z.mod_small by lia. done. }
  replace ((b + 256 * le_decode bs) / 256) with (le_decode bs); [by rewrite IH|].
  rewrite Z.mul_comm, Z.div_add, Z.div_small by lia. done.
Qed.

Lemma to_words_length n bs : length (to_words n bs) = n.
Proof. revert bs. induction n as [|n IH]; intros bs; simpl; [done|by rewrite IH]. Qed.

Lemma of_words_length ws : length (of_words ws) = (4 * length ws)%nat.
Proof.
  unfold of_words. induction ws as [|w ws IH]; [done|]. cbn [map concat].
  rewrite length_app, le_encode_length, IH. simpl. lia.
Qed.

Lemma to_of_words ws rest : Forall is_word ws -> to_words (length ws) (of_words ws ++ rest) = ws.
Proof.
  unfold of_words. induction 1 as [|w ws Hw _ IH]; [done|]. cbn [map concat length to_words].
  rewrite <- app_assoc. rewrite take_app_length', drop_app_length' by (by rewrite le_encode_length).
  by rewrite le_decode_encode, IH.
Qed.

Lemma of_words_bytes ws : Forall is_byte (of_words ws).
Proof.
  unfold of_words. induction ws as [|w ws IH]; [constructor|]. cbn [map concat].
  apply Forall_app. split; [apply le_encode_bytes|done].
Qed.

Lemma to_words_words n bs : Forall is_byte bs -> Forall is_word (to_words n bs).
Proof.
  revert bs. induction n as [|n IH]; intros bs Hb; simpl to_words; constructor.
  - assert (Forall is_byte (take 4 bs)) as Ht by by apply Forall_take.
    pose proof (le_decode_range _ Ht) as Hr. rewrite length_take in Hr. unfold is_word.
    assert (256 ^ Z.of_nat (4 `min` length bs) <= 256 ^ 4) by (apply Z.pow_le_mono_r; lia).
    change (2 ^ 32) with (256 ^ 4). lia.
  - apply IH. by apply Forall_drop.
Qed.

Lemma zeros_length n : length (zeros n) = Z.to_nat n.
Proof. apply length_replicate. Qed.
Lemma zeros_bytes n : Forall is_byte (zeros n).
Proof. apply Forall_replicate. unfold is_byte. lia. Qed.

End Bytes.
