(* ===== verification/CString.v ===== *)
(** * lib/string.c

    Memory is a finite map from addresses to bytes; an access outside it is a wild
    access.  A pointer is an address, 0 the null pointer.  The loops over a string
    end at its terminator: [limit], one more than the number of bytes of memory, is
    enough fuel for all of them, since each round reads another byte. *)

From S2P Require Import Prelude.

Module CString.

Notation mem := (gmap Z Z).

Definition load (a : Z) : M mem Z := fun m =>
  match m !! a with Some b => Ok (b, m) | None => Err WildAccess end.
Definition store (a b : Z) : M mem unit := fun m =>
  match m !! a with Some _ => Ok (tt, <[a := b]> m) | None => Err WildAccess end.
Definition limit : M mem nat := gets (fun m => S (size m)).

Definition valid (p size : Z) : bool := negb (p =? 0) || (size =? 0).

Fixpoint copy_up (n : nat) (dst src : Z) : M mem Z :=
  match n with
  | O => ret dst
  | S n => let! b := load src in do! store dst b; copy_up n (dst + 1) (src + 1)
  end.
(** [dst] and [src] point behind what is left to copy. *)
Fixpoint copy_down (n : nat) (dst src : Z) : M mem Z :=
  match n with
  | O => ret dst
  | S n => let! b := load (src - 1) in do! store (dst - 1) b; copy_down n (dst - 1) (src - 1)
  end.

Definition memcpy (dst src size : Z) : M mem Z :=
  do! assert (valid dst size);
  do! assert (valid src size);
  let! _ := copy_up (Z.to_nat size) dst src in
  ret dst.

(** The result is the pointer the loop leaves. *)
Definition memmove (dst src size : Z) : M mem Z :=
  do! assert (valid dst size);
  do! assert (valid src size);
  if dst <? src then copy_up (Z.to_nat size) dst src
  else copy_down (Z.to_nat size) (dst + size) (src + size).

Fixpoint memcmp_loop (n : nat) (a b : Z) : M mem Z :=
  match n with
  | O => ret 0
  | S n =>
      let! x := load a in
      let! y := load b in
      if negb (x =? y) then ret (if x >? y then 1 else -1) else memcmp_loop n (a + 1) (b + 1)
  end.
Definition memcmp (a b size : Z) : M mem Z :=
  do! assert (valid a size);
  do! assert (valid b size);
  memcmp_loop (Z.to_nat size) a b.

Fixpoint strcmp_loop (fuel : nat) (a b : Z) : M mem Z :=
  match fuel with
  | O => fail OutOfFuel
  | S fuel =>
      let! x := load a in
      let! y := load b in
      if negb (x =? 0) && (x =? y) then strcmp_loop fuel (a + 1) (b + 1)
      else ret (if x <? y then -1 else if x >? y then 1 else 0)
  end.
Definition strcmp (a b : Z) : M mem Z :=
  do! assert (negb (a =? 0));
  do! assert (negb (b =? 0));
  let! fuel := limit in
  strcmp_loop fuel a b.

Fixpoint memchr_loop (n : nat) (block ch : Z) : M mem Z :=
  match n with
  | O => ret 0
  | S n => let! x := load block in if x =? ch then ret block else memchr_loop n (block + 1) ch
  end.
Definition memchr (block ch_ size : Z) : M mem Z :=
  do! assert (valid block size);
  memchr_loop (Z.to_nat size) block (u8 ch_).

Fixpoint strchr_loop (fuel : nat) (string c : Z) : M mem Z :=
  match fuel with
  | O => fail OutOfFuel
  | S fuel =>
      let! x := load string in
      if x =? c then ret string
      else if x =? 0 then ret 0
      else strchr_loop fuel (string + 1) c
  end.
Definition strchr (string c_ : Z) : M mem Z :=
  do! assert (negb (string =? 0));
  let! fuel := limit in
  strchr_loop fuel string (u8 c_).

(** [strcspn] stops at a character of [set], [strspn] at one that is not in it. *)
Fixpoint span_loop (inside : bool) (fuel : nat) (string set length : Z) : M mem Z :=
  match fuel with
  | O => fail OutOfFuel
  | S fuel =>
      let! x := load (string + length) in
      if negb (x =? 0) then
        let! p := strchr set x in
        if eqb (negb (p =? 0)) (negb inside) then ret length
        else span_loop inside fuel string set (length + 1)
      else ret length
  end.
Definition strcspn (string stop : Z) : M mem Z :=
  let! fuel := limit in span_loop false fuel string stop 0.
Definition strspn (string skip : Z) : M mem Z :=
  let! fuel := limit in span_loop true fuel string skip 0.

Fixpoint strpbrk_loop (fuel : nat) (string stop : Z) : M mem Z :=
  match fuel with
  | O => fail OutOfFuel
  | S fuel =>
      let! x := load string in
      if negb (x =? 0) then
        let! p := strchr stop x in
        if negb (p =? 0) then ret string else strpbrk_loop fuel (string + 1) stop
      else ret 0
  end.
Definition strpbrk (string stop : Z) : M mem Z :=
  let! fuel := limit in strpbrk_loop fuel string stop.

Fixpoint strrchr_loop (fuel : nat) (string c p : Z) : M mem Z :=
  match fuel with
  | O => fail OutOfFuel
  | S fuel =>
      let! x := load string in
      if negb (x =? 0) then strrchr_loop fuel (string + 1) c (if x =? c then string else p)
      else ret p
  end.
Definition strrchr (string c_ : Z) : M mem Z :=
  let! fuel := limit in strrchr_loop fuel string (u8 c_) 0.

Fixpoint strlen_loop (fuel : nat) (p : Z) : M mem Z :=
  match fuel with
  | O => fail OutOfFuel
  | S fuel => let! x := load p in if negb (x =? 0) then strlen_loop fuel (p + 1) else ret p
  end.
Definition strlen (string : Z) : M mem Z :=
  do! assert (negb (string =? 0));
  let! fuel := limit in
  let! p := strlen_loop fuel string in
  ret (p - string).

Fixpoint strstr_loop (n : nat) (haystack needle needle_len i : Z) : M mem Z :=
  match n with
  | O => ret 0
  | S n =>
      let! c := memcmp (haystack + i) needle needle_len in
      if c =? 0 then ret (haystack + i) else strstr_loop n haystack needle needle_len (i + 1)
  end.
Definition strstr (haystack needle : Z) : M mem Z :=
  let! haystack_len := strlen haystack in
  let! needle_len := strlen needle in
  if haystack_len >=? needle_len then
    strstr_loop (Z.to_nat (haystack_len - needle_len + 1)) haystack needle needle_len 0
  else ret 0.

(** The first of the characters at [s] that is, or with [skip] is not, a delimiter;
    with [skip], [None] when that is the end of the string. *)
Fixpoint skip_delimiters (fuel : nat) (s delimiters : Z) : M mem (option Z * Z) :=
  match fuel with
  | O => fail OutOfFuel
  | S fuel =>
      let! x := load s in
      let! p := strchr delimiters x in
      if negb (p =? 0) then
        if x =? 0 then ret (None, s) else skip_delimiters fuel (s + 1) delimiters
      else ret (Some s, s)
  end.
Fixpoint find_delimiter (fuel : nat) (s delimiters : Z) : M mem Z :=
  match fuel with
  | O => fail OutOfFuel
  | S fuel =>
      let! x := load s in
      let! p := strchr delimiters x in
      if p =? 0 then find_delimiter fuel (s + 1) delimiters else ret s
  end.
(** The token, 0 for none, and the new value of the save pointer. *)
Definition strtok_r (s delimiters save : Z) : M mem (Z * Z) :=
  do! assert (negb (delimiters =? 0));
  let s := if s =? 0 then save else s in
  do! assert (negb (s =? 0));
  let! fuel := limit in
  let! (start, stop) := skip_delimiters fuel s delimiters in
  match start with
  | None => ret (0, stop)
  | Some token =>
      let! s := find_delimiter fuel token delimiters in
      let! x := load s in
      if negb (x =? 0) then do! store s 0; ret (token, s + 1)
      else ret (token, s)
  end.

Fixpoint memset_loop (n : nat) (dst value : Z) : M mem unit :=
  match n with
  | O => ret tt
  | S n => do! store dst value; memset_loop n (dst + 1) value
  end.
Definition memset (dst value size : Z) : M mem Z :=
  do! assert (valid dst size);
  do! memset_loop (Z.to_nat size) dst (u8 value);
  ret dst.

(** The byte at [length] is read before [length] is compared with [maxlen]. *)
Fixpoint strnlen_loop (n : nat) (string maxlen length : Z) : M mem Z :=
  match n with
  | O => fail OutOfFuel
  | S n =>
      let! x := load (string + length) in
      if negb (x =? 0) && (length <? maxlen) then strnlen_loop n string maxlen (length + 1)
      else ret length
  end.
Definition strnlen (string maxlen : Z) : M mem Z := let! fuel := limit in strnlen_loop fuel string maxlen 0.

Definition strlcpy (dst src size : Z) : M mem Z :=
  do! assert (negb (dst =? 0));
  do! assert (negb (src =? 0));
  let! src_len := strlen src in
  do! (if size >? 0 then
         let dst_len := size - 1 in
         let dst_len := if src_len <? dst_len then src_len else dst_len in
         let! _ := memcpy dst src dst_len in
         store (dst + dst_len) 0
       else ret tt);
  ret src_len.

Definition strlcat (dst src size : Z) : M mem Z :=
  do! assert (negb (dst =? 0));
  do! assert (negb (src =? 0));
  let! src_len := strlen src in
  let! dst_len := strlen dst in
  do! (if (size >? 0) && (dst_len <? size) then
         let copy_cnt := size - dst_len - 1 in
         let copy_cnt := if src_len <? copy_cnt then src_len else copy_cnt in
         let! _ := memcpy (dst + dst_len) src copy_cnt in
         store (dst + dst_len + copy_cnt) 0
       else ret tt);
  ret (src_len + dst_len).

End CString.
