(* ===== verification/CStringFacts.v ===== *)
(** * lib/string.c: facts *)

From S2P Require Import Prelude CString.
Import CString.

Module CStringFacts.

Implicit Types (m : mem) (xs : list Z).

(** The bytes [xs] are at [a]. *)
Definition bytes_at m (a : Z) xs : Prop := forall i x, xs !! i = Some x -> m !! (a + Z.of_nat i) = Some x.
(** The string [xs], terminator excluded, is at [a]. *)
Definition cstr_at m (a : Z) xs : Prop :=
  bytes_at m a (xs ++ [0]) /\ Forall (fun x => 0 < x < 256) xs.

Lemma bytes_at_cons m a x xs : bytes_at m a (x :: xs) <-> m !! a = Some x /\ bytes_at m (a + 1) xs.
Proof.
  split.
  - intros H. split.
    + specialize (H 0%nat x eq_refl). by rewrite Z.add_0_r in H.
    + intros i y Hy. specialize (H (S i) y Hy). by replace (a + 1 + Z.of_nat i) with (a + Z.of_nat (S i)) by lia.
  - intros [H0 H] [|i] y Hy.
    + injection Hy as <-. by rewrite Z.add_0_r.
    + replace (a + Z.of_nat (S i)) with (a + 1 + Z.of_nat i) by lia. by apply H.
Qed.
Lemma bytes_at_app m a xs ys :
  bytes_at m a (xs ++ ys) <-> bytes_at m a xs /\ bytes_at m (a + Z.of_nat (length xs)) ys.
Proof.
  revert a. induction xs as [|x xs IH]; intros a; cbn [app length].
  - rewrite Z.add_0_r. split; [|tauto]. intros H. by split; [intros ? ?|].
  - rewrite !bytes_at_cons, IH. replace (a + Z.of_nat (S (length xs))) with (a + 1 + Z.of_nat (length xs)) by lia. tauto.
Qed.
Lemma bytes_at_nil m a : bytes_at m a [].
Proof. by intros i x Hx. Qed.

Lemma cstr_at_nil m a : cstr_at m a [] <-> m !! a = Some 0.
Proof.
  unfold cstr_at. cbn [app]. rewrite bytes_at_cons. split; [tauto|]. intros H. split; [|done].
  split; [done|apply bytes_at_nil].
Qed.
Lemma cstr_at_cons m a x xs : cstr_at m a (x :: xs) <-> m !! a = Some x /\ 0 < x < 256 /\ cstr_at m (a + 1) xs.
Proof. unfold cstr_at. cbn [app]. rewrite bytes_at_cons, Forall_cons. tauto. Qed.

(** A string is shorter than memory, so [limit] is enough fuel for it. *)
Lemma bytes_at_size m a xs : bytes_at m a xs -> (length xs <= size m)%nat.
Proof.
  revert m a. induction xs as [|x xs IH]; intros m a H; [cbn; lia|].
  apply bytes_at_cons in H as [Hx H].
  assert (bytes_at (delete a m) (a + 1) xs) as H'.
  { intros i y Hy. rewrite lookup_delete_ne by lia. by apply H. }
  specialize (IH _ _ H'). rewrite map_size_delete, Hx in IH. cbn.
  assert (size m <> 0%nat) by (intros E; apply map_size_empty_inv in E as ->; by rewrite lookup_empty in Hx). lia.
Qed.
Lemma cstr_size m a xs : cstr_at m a xs -> (length xs < size m)%nat.
Proof. intros [H _]. apply bytes_at_size in H. rewrite length_app in H. cbn in H. lia. Qed.

(** ** [strlen], [strcmp], [strchr] *)

Lemma strlen_loop_run fuel : forall m p xs, cstr_at m p xs -> (length xs < fuel)%nat ->
  strlen_loop fuel p m = Ok (p + Z.of_nat (length xs), m).
Proof.
  induction fuel as [|fuel IH]; intros m p xs H Hf; [lia|]. cbn [strlen_loop]. unfold bind, load.
  destruct xs as [|x xs].
  - apply cstr_at_nil in H. rewrite H. cbn. by rewrite Z.add_0_r.
  - apply cstr_at_cons in H as (H0 & Hx & H). rewrite H0, (proj2 (Z.eqb_neq x 0)) by lia. cbn [negb].
    rewrite (IH m (p + 1) xs H) by (cbn in Hf; lia). do 2 f_equal. cbn [length]. lia.
Qed.
Lemma strlen_run m a xs : a <> 0 -> cstr_at m a xs -> strlen a m = Ok (Z.of_nat (length xs), m).
Proof.
  intros Ha H. unfold strlen. rewrite (proj2 (Z.eqb_neq a 0) Ha). erewrite bind_eq; [|done].
  erewrite bind_eq; [|done]. pose proof (cstr_size m a xs H).
  erewrite bind_eq; [|apply (strlen_loop_run _ m a xs H); lia]. unfold ret. do 2 f_equal. lia.
Qed.

(** The order of strings. *)
Fixpoint str_compare (xs ys : list Z) : Z :=
  match xs, ys with
  | [], [] => 0
  | [], _ => -1
  | _, [] => 1
  | x :: xs, y :: ys => if x <? y then -1 else if x >? y then 1 else str_compare xs ys
  end.

Lemma strcmp_loop_run fuel : forall m a b xs ys, cstr_at m a xs -> cstr_at m b ys -> (length xs < fuel)%nat ->
  strcmp_loop fuel a b m = Ok (str_compare xs ys, m).
Proof.
  induction fuel as [|fuel IH]; intros m a b xs ys Ha Hb Hf; [lia|]. cbn [strcmp_loop]. unfold bind, load.
  destruct xs as [|x xs], ys as [|y ys]; rewrite ?cstr_at_nil, ?cstr_at_cons in *.
  - by rewrite Ha, Hb.
  - destruct Hb as (Hb & Hy & _). rewrite Ha, Hb. cbn [Z.eqb negb andb]. by rewrite (proj2 (Z.ltb_lt 0 y)) by lia.
  - destruct Ha as (Ha & Hx & _). rewrite Ha, Hb. rewrite (proj2 (Z.eqb_neq x 0)) by lia. cbn [negb andb].
    unfold ret, str_compare. destruct (Z.ltb_spec x 0); [lia|]. destruct (Z.gtb_spec x 0); [done|lia].
  - destruct Ha as (Ha & Hx & Ha'), Hb as (Hb & Hy & Hb'). rewrite Ha, Hb. rewrite (proj2 (Z.eqb_neq x 0)) by lia.
    cbn [negb andb str_compare]. destruct (Z.eqb_spec x y) as [->|Hne].
    + rewrite (IH m (a + 1) (b + 1) xs ys) by (done || (cbn in Hf; lia)).
      destruct (Z.ltb_spec y y); [lia|]. destruct (Z.gtb_spec y y); [lia|done].
    + unfold ret. destruct (Z.ltb_spec x y); [done|]. destruct (Z.gtb_spec x y); [done|lia].
Qed.
Lemma strcmp_run m a b xs ys : a <> 0 -> b <> 0 -> cstr_at m a xs -> cstr_at m b ys ->
  strcmp a b m = Ok (str_compare xs ys, m).
Proof.
  intros Ha Hb Hx Hy. unfold strcmp. rewrite (proj2 (Z.eqb_neq a 0) Ha), (proj2 (Z.eqb_neq b 0) Hb).
  do 3 (erewrite bind_eq; [|done]). pose proof (cstr_size m a xs Hx). apply strcmp_loop_run; try done. lia.
Qed.

(** [str_compare] is a total order, with equality as its zero. *)
Lemma str_compare_eq xs ys : str_compare xs ys = 0 <-> xs = ys.
Proof.
  revert ys. induction xs as [|x xs IH]; intros [|y ys]; cbn [str_compare]; try done.
  destruct (Z.ltb_spec x y); [split; [done|]; intros [= -> _]; lia|].
  destruct (Z.gtb_spec x y); [split; [done|]; intros [= -> _]; lia|].
  rewrite IH. assert (x = y) as -> by lia. split; congruence.
Qed.
Lemma str_compare_flip xs ys : str_compare ys xs = - str_compare xs ys.
Proof.
  revert ys. induction xs as [|x xs IH]; intros [|y ys]; cbn [str_compare]; try done. rewrite IH.
  destruct (Z.ltb_spec x y), (Z.ltb_spec y x), (Z.gtb_spec x y), (Z.gtb_spec y x); lia.
Qed.
Lemma str_compare_trans xs ys zs : str_compare xs ys = -1 -> str_compare ys zs = -1 -> str_compare xs zs = -1.
Proof.
  revert ys zs. induction xs as [|x xs IH]; intros [|y ys] [|z zs]; cbn [str_compare]; try done.
  destruct (Z.ltb_spec x y), (Z.ltb_spec y z), (Z.ltb_spec x z), (Z.gtb_spec x y), (Z.gtb_spec y z), (Z.gtb_spec x z);
    try lia; try done. by apply IH.
Qed.

(** ** Copying *)

Definition mapped m (a n : Z) : Prop := forall x, a <= x < a + n -> is_Some (m !! x).
(** [m'] is [m] with the [n] bytes at [src] copied to [dst]. *)
Definition copied m m' (dst src n : Z) : Prop :=
  forall x, m' !! x = if (dst <=? x) && (x <? dst + n) then m !! (x - dst + src) else m !! x.

Lemma mapped_insert m a b y n : mapped m a n -> mapped (<[b := y]> m) a n.
Proof.
  intros H x Hx. destruct (decide (b = x)) as [->|]; [by rewrite lookup_insert_eq|].
  rewrite lookup_insert_ne by done. by apply H.
Qed.
Lemma mem_load_run m a b : m !! a = Some b -> load a m = Ok (b, m).
Proof. unfold load. by intros ->. Qed.
Lemma mem_store_run m a b : is_Some (m !! a) -> store a b m = Ok (tt, <[a := b]> m).
Proof. unfold store. by intros [x ->]. Qed.

(** The test for a range that starts one later, or ends one earlier. *)
Ltac in_ranges :=
  repeat match goal with |- context [?a <=? ?b] => destruct (Z.leb_spec a b) end;
  repeat match goal with |- context [?a <? ?b] => destruct (Z.ltb_spec a b) end; cbn [andb]; try lia; try done.

Lemma copy_up_run n : forall m dst src,
  mapped m dst (Z.of_nat n) -> mapped m src (Z.of_nat n) -> dst <= src \/ src + Z.of_nat n <= dst ->
  exists m', copy_up n dst src m = Ok (dst + Z.of_nat n, m') /\ copied m m' dst src (Z.of_nat n).
Proof.
  induction n as [|n IH]; intros m dst src Hd Hs Hdis; cbn [copy_up].
  { exists m. rewrite Z.add_0_r. split; [done|]. intros x. in_ranges. }
  destruct (Hs src) as [b Hb]; [lia|]. erewrite bind_eq; [|by apply mem_load_run].
  erewrite bind_eq; [|apply mem_store_run, Hd; lia].
  destruct (IH (<[dst := b]> m) (dst + 1) (src + 1)) as (m' & E & C).
  { intros x Hx. apply mapped_insert with (n := Z.of_nat (S n)) (a := dst); [done|lia]. }
  { intros x Hx. apply mapped_insert with (n := Z.of_nat (S n)) (a := src); [done|lia]. } { lia. }
  exists m'. rewrite E. split; [do 2 f_equal; lia|]. intros x. rewrite C.
  destruct (decide (x = dst)) as [->|Hne].
  - replace (dst - dst + src) with src by lia. in_ranges. by rewrite lookup_insert_eq, Hb.
  - in_ranges; rewrite lookup_insert_ne by lia; try done; f_equal; lia.
Qed.

Lemma copy_down_run n : forall m dst src,
  mapped m (dst - Z.of_nat n) (Z.of_nat n) -> mapped m (src - Z.of_nat n) (Z.of_nat n) ->
  src <= dst \/ dst <= src - Z.of_nat n ->
  exists m', copy_down n dst src m = Ok (dst - Z.of_nat n, m') /\
    copied m m' (dst - Z.of_nat n) (src - Z.of_nat n) (Z.of_nat n).
Proof.
  induction n as [|n IH]; intros m dst src Hd Hs Hdis; cbn [copy_down].
  { exists m. rewrite Z.sub_0_r. split; [done|]. intros x. in_ranges. }
  destruct (Hs (src - 1)) as [b Hb]; [lia|]. erewrite bind_eq; [|by apply mem_load_run].
  erewrite bind_eq; [|apply mem_store_run, Hd; lia].
  destruct (IH (<[dst - 1 := b]> m) (dst - 1) (src - 1)) as (m' & E & C).
  { intros x Hx. apply mapped_insert with (n := Z.of_nat (S n)) (a := dst - Z.of_nat (S n)); [done|lia]. }
  { intros x Hx. apply mapped_insert with (n := Z.of_nat (S n)) (a := src - Z.of_nat (S n)); [done|lia]. } { lia. }
  exists m'. rewrite E. split; [do 2 f_equal; lia|]. intros x. rewrite C.
  destruct (decide (x = dst - 1)) as [->|Hne].
  - in_ranges. rewrite lookup_insert_eq, <- Hb. f_equal. lia.
  - in_ranges; rewrite lookup_insert_ne by lia; try done; f_equal; lia.
Qed.

Lemma valid_true p n : p <> 0 \/ n = 0 -> valid p n = true.
Proof. unfold valid. intros [H| ->]; [by rewrite (proj2 (Z.eqb_neq p 0) H)|]. apply orb_true_r. Qed.

Lemma memmove_run m dst src n :
  0 <= n -> dst <> 0 -> src <> 0 -> mapped m dst n -> mapped m src n ->
  exists m', memmove dst src n m = Ok (if dst <? src then dst + n else dst, m') /\ copied m m' dst src n.
Proof.
  intros Hn Hd0 Hs0 Hd Hs. unfold memmove. rewrite !valid_true by auto. do 2 (erewrite bind_eq; [|done]).
  rewrite <- (Z2Nat.id n) in Hd, Hs |- * by lia. rewrite Nat2Z.id. set (k := Z.to_nat n) in *.
  destruct (Z.ltb_spec dst src).
  - apply copy_up_run; [done|done|lia].
  - destruct (copy_down_run k m (dst + Z.of_nat k) (src + Z.of_nat k)) as (m' & E & C);
      rewrite ?Z.add_simpl_r in *; [done|done|lia|]. eauto.
Qed.

Lemma memcpy_run m dst src n :
  0 <= n -> dst <> 0 -> src <> 0 -> mapped m dst n -> mapped m src n -> dst + n <= src \/ src + n <= dst ->
  exists m', memcpy dst src n m = Ok (dst, m') /\ copied m m' dst src n.
Proof.
  intros Hn Hd0 Hs0 Hd Hs Hdis. unfold memcpy. rewrite !valid_true by auto. do 2 (erewrite bind_eq; [|done]).
  rewrite <- (Z2Nat.id n) in Hd, Hs, Hdis |- * by lia. rewrite Nat2Z.id.
  destruct (copy_up_run (Z.to_nat n) m dst src) as (m' & E & C); [done|done|lia|].
  exists m'. erewrite bind_eq; [|exact E]. done.
Qed.

(** ** [strlcpy] and [strlcat] *)

Lemma bytes_at_mapped m a xs : bytes_at m a xs -> mapped m a (Z.of_nat (length xs)).
Proof.
  intros H x Hx. destruct (lookup_lt_is_Some_2 xs (Z.to_nat (x - a))) as [y Hy]; [lia|].
  exists y. rewrite <- (H _ _ Hy). f_equal. lia.
Qed.
Lemma mapped_le m a n n' : mapped m a n -> n' <= n -> mapped m a n'.
Proof. intros H Hn x Hx. apply H. lia. Qed.
Lemma bytes_at_ext m m' a xs :
  (forall x, a <= x < a + Z.of_nat (length xs) -> m' !! x = m !! x) -> bytes_at m a xs -> bytes_at m' a xs.
Proof.
  intros E H i x Hx. rewrite E; [by apply H|]. apply lookup_lt_Some in Hx. lia.
Qed.

(** A copy of the first [n] characters of a string, terminated. *)
Lemma copy_terminated m m' dst src xs n :
  cstr_at m src xs -> 0 <= n <= Z.of_nat (length xs) -> copied m m' dst src n ->
  cstr_at (<[dst + n := 0]> m') dst (take (Z.to_nat n) xs).
Proof.
  intros [H Hc] Hn C. split; [|by apply Forall_take]. apply bytes_at_app. rewrite length_take. split.
  - intros i x Hx. pose proof (lookup_lt_Some _ _ _ Hx) as Hi. rewrite length_take in Hi.
    rewrite lookup_insert_ne, C by lia. in_ranges.
    replace (dst + Z.of_nat i - dst + src) with (src + Z.of_nat i) by lia. apply H.
    rewrite lookup_take_lt in Hx by lia. by apply lookup_app_l_Some.
  - apply bytes_at_cons. split; [|apply bytes_at_nil].
    replace (dst + Z.of_nat (Z.to_nat n `min` length xs)) with (dst + n) by lia. apply lookup_insert_eq.
Qed.

Lemma strlcpy_run m dst src xs size :
  dst <> 0 -> src <> 0 -> 0 < size -> cstr_at m src xs -> mapped m dst size ->
  dst + size <= src \/ src + Z.of_nat (length xs) + 1 <= dst ->
  exists m', strlcpy dst src size m = Ok (Z.of_nat (length xs), m') /\
    cstr_at m' dst (take (Z.to_nat (size - 1)) xs) /\
    forall x, ~ (dst <= x < dst + size) -> m' !! x = m !! x.
Proof.
  intros Hd0 Hs0 Hsz H Hd Hdis. unfold strlcpy.
  rewrite (proj2 (Z.eqb_neq dst 0) Hd0), (proj2 (Z.eqb_neq src 0) Hs0). do 2 (erewrite bind_eq; [|done]).
  erewrite bind_eq; [|by apply strlen_run]. destruct (Z.gtb_spec size 0); [|lia]. cbv zeta.
  set (n := if Z.of_nat (length xs) <? size - 1 then Z.of_nat (length xs) else size - 1).
  assert (0 <= n <= Z.of_nat (length xs) /\ n < size /\ take (Z.to_nat n) xs = take (Z.to_nat (size - 1)) xs) as (Hn & Hns & Et).
  { unfold n. destruct (Z.ltb_spec (Z.of_nat (length xs)) (size - 1)); (split; [lia|]; split; [lia|]); [|done].
    by rewrite !take_ge by lia. }
  clearbody n. pose proof (bytes_at_mapped _ _ _ (proj1 H)) as Hm. rewrite length_app in Hm. cbn in Hm.
  destruct (memcpy_run m dst src n) as (m' & E & C); [lia|done|done|by apply (mapped_le m dst size); [|lia]| |lia|].
  { apply (mapped_le m src _ n Hm). lia. }
  assert (is_Some (m' !! (dst + n))) as Hst.
  { rewrite C. destruct (Z.ltb_spec (dst + n) (dst + n)); [lia|]. rewrite andb_false_r. apply Hd. lia. }
  exists (<[dst + n := 0]> m'). split.
  { erewrite bind_eq; [|erewrite bind_eq; [by apply mem_store_run|exact E]]. done. }
  rewrite <- Et. split; [by apply copy_terminated with (m := m) (src := src)|].
  intros x Hx. rewrite lookup_insert_ne, C by lia. in_ranges.
Qed.

(** ** [strchr] and [strtok_r] *)

Lemma strchr_loop_run fuel : forall m a xs c, cstr_at m a xs -> 0 < a -> (length xs < fuel)%nat ->
  exists p, strchr_loop fuel a c m = Ok (p, m) /\ (p = 0 <-> c <> 0 /\ c ∉ xs).
Proof.
  induction fuel as [|fuel IH]; intros m a xs c H Ha Hf; [lia|]. cbn [strchr_loop].
  destruct xs as [|x xs].
  - apply cstr_at_nil in H. erewrite bind_eq; [|by apply mem_load_run].
    destruct (Z.eqb_spec 0 c) as [<-|Hne]; [exists a|exists 0]; (split; [done|]).
    + split; [lia|tauto].
    + split; [|done]. intros _. split; [done|apply not_elem_of_nil].
  - apply cstr_at_cons in H as (H0 & Hx & H). erewrite bind_eq; [|by apply mem_load_run].
    destruct (Z.eqb_spec x c) as [<-|Hne].
    + exists a. split; [done|]. split; [lia|]. intros [_ Hn]. exfalso. apply Hn, list_elem_of_here.
    + rewrite (proj2 (Z.eqb_neq x 0)) by lia. destruct (IH m (a + 1) xs c H) as (p & E & Hp); [lia|cbn in Hf; lia|].
      exists p. split; [done|]. rewrite Hp, not_elem_of_cons. intuition congruence.
Qed.
Lemma strchr_run m a xs c : cstr_at m a xs -> 0 < a -> 0 <= c < 256 ->
  exists p, strchr a c m = Ok (p, m) /\ (p = 0 <-> c <> 0 /\ c ∉ xs).
Proof.
  intros H Ha Hc. unfold strchr. rewrite (proj2 (Z.eqb_neq a 0)) by lia. do 2 (erewrite bind_eq; [|done]).
  rewrite wrapu_small by lia. apply strchr_loop_run; [done|done|]. pose proof (cstr_size m a xs H). lia.
Qed.

(** The leading delimiters, and the token after them. *)
Fixpoint leading (ds xs : list Z) : nat :=
  match xs with x :: xs => if bool_decide (x ∈ ds) then S (leading ds xs) else O | [] => O end.
Fixpoint token_length (ds xs : list Z) : nat :=
  match xs with x :: xs => if bool_decide (x ∈ ds) then O else S (token_length ds xs) | [] => O end.

Lemma cstr_at_drop m a xs k : cstr_at m a xs -> (k <= length xs)%nat -> cstr_at m (a + Z.of_nat k) (drop k xs).
Proof.
  revert a xs. induction k as [|k IH]; intros a xs H Hk.
  - by rewrite Z.add_0_r, drop_0.
  - destruct xs as [|x xs]; [cbn in Hk; lia|]. apply cstr_at_cons in H as (_ & _ & H).
    replace (a + Z.of_nat (S k)) with (a + 1 + Z.of_nat k) by lia. apply IH; [done|cbn in Hk; lia].
Qed.

Lemma skip_delimiters_run fuel : forall m s d xs ds,
  cstr_at m s xs -> cstr_at m d ds -> 0 < d -> (length xs < fuel)%nat ->
  let k := leading ds xs in
  (k <= length xs)%nat /\
  skip_delimiters fuel s d m =
    Ok (if (k =? length xs)%nat then None else Some (s + Z.of_nat k), s + Z.of_nat k, m).
Proof.
  induction fuel as [|fuel IH]; intros m s d xs ds Hs Hd Hd0 Hf; [lia|]. cbn [skip_delimiters].
  destruct xs as [|x xs]; cbn [leading length].
  - apply cstr_at_nil in Hs. split; [lia|]. erewrite bind_eq; [|by apply mem_load_run].
    destruct (strchr_run m d ds 0 Hd Hd0) as (p & E & Hp); [lia|]. erewrite bind_eq; [|exact E].
    rewrite (proj2 (Z.eqb_neq p 0)) by tauto. cbn. by rewrite Z.add_0_r.
  - apply cstr_at_cons in Hs as (H0 & Hx & Hs). erewrite bind_eq; [|by apply mem_load_run].
    destruct (strchr_run m d ds x Hd Hd0) as (p & E & Hp); [lia|]. erewrite bind_eq; [|exact E].
    destruct (bool_decide_reflect (x ∈ ds)) as [Hin|Hin].
    + rewrite (proj2 (Z.eqb_neq p 0)) by tauto. rewrite (proj2 (Z.eqb_neq x 0)) by lia. cbn [negb].
      destruct (IH m (s + 1) d xs ds Hs Hd Hd0) as [Hk E']; [cbn in Hf; lia|]. split; [lia|]. rewrite E'. cbn [Nat.eqb].
      by replace (s + Z.of_nat (S (leading ds xs))) with (s + 1 + Z.of_nat (leading ds xs)) by lia.
    + assert (p = 0) as -> by (apply Hp; split; [lia|done]). split; [lia|]. cbn. by rewrite Z.add_0_r.
Qed.

Lemma find_delimiter_run fuel : forall m s d xs ds,
  cstr_at m s xs -> cstr_at m d ds -> 0 < d -> (length xs < fuel)%nat ->
  let k := token_length ds xs in
  (k <= length xs)%nat /\ find_delimiter fuel s d m = Ok (s + Z.of_nat k, m).
Proof.
  induction fuel as [|fuel IH]; intros m s d xs ds Hs Hd Hd0 Hf; [lia|]. cbn [find_delimiter].
  destruct xs as [|x xs]; cbn [token_length length].
  - apply cstr_at_nil in Hs. split; [lia|]. erewrite bind_eq; [|by apply mem_load_run].
    destruct (strchr_run m d ds 0 Hd Hd0) as (p & E & Hp); [lia|]. erewrite bind_eq; [|exact E].
    rewrite (proj2 (Z.eqb_neq p 0)) by tauto. cbn. by rewrite Z.add_0_r.
  - apply cstr_at_cons in Hs as (H0 & Hx & Hs). erewrite bind_eq; [|by apply mem_load_run].
    destruct (strchr_run m d ds x Hd Hd0) as (p & E & Hp); [lia|]. erewrite bind_eq; [|exact E].
    destruct (bool_decide_reflect (x ∈ ds)) as [Hin|Hin].
    + rewrite (proj2 (Z.eqb_neq p 0)) by tauto. split; [lia|]. cbn. by rewrite Z.add_0_r.
    + assert (p = 0) as -> by (apply Hp; split; [lia|done]). cbn [Z.eqb].
      destruct (IH m (s + 1) d xs ds Hs Hd Hd0) as [Hk E']; [cbn in Hf; lia|]. split; [lia|]. rewrite E'.
      by replace (s + Z.of_nat (S (token_length ds xs))) with (s + 1 + Z.of_nat (token_length ds xs)) by lia.
Qed.

(** What [strtok_r] leaves of the string [xs] at [s]: a token and the rest. *)
Definition token_split (ds xs : list Z) : option (list Z * list Z) :=
  let ys := drop (leading ds xs) xs in
  match ys with
  | [] => None
  | _ => let k := token_length ds ys in Some (take k ys, drop (S k) ys)
  end.

Lemma cstr_cut m a ys k : cstr_at m a ys -> (k < length ys)%nat ->
  cstr_at (<[a + Z.of_nat k := 0]> m) a (take k ys) /\
  cstr_at (<[a + Z.of_nat k := 0]> m) (a + Z.of_nat k + 1) (drop (S k) ys).
Proof.
  intros H Hk. pose proof H as [Hb Hc]. split.
  - split; [|by apply Forall_take]. apply bytes_at_app. rewrite length_take, Nat.min_l by lia. split.
    + intros i x Hx. pose proof (lookup_lt_Some _ _ _ Hx) as Hi. rewrite length_take in Hi.
      rewrite lookup_insert_ne by lia. apply Hb. rewrite lookup_take_lt in Hx by lia. by apply lookup_app_l_Some.
    + apply bytes_at_cons. split; [apply lookup_insert_eq|apply bytes_at_nil].
  - replace (a + Z.of_nat k + 1) with (a + Z.of_nat (S k)) by lia.
    destruct (cstr_at_drop m a ys (S k) H ltac:(lia)) as [Hb' Hc']. split; [|done].
    eapply bytes_at_ext; [|exact Hb']. intros x Hx. rewrite lookup_insert_ne by lia. done.
Qed.

Lemma strtok_r_run m s d xs ds save (s' := if s =? 0 then save else s) :
  s' <> 0 -> 0 < d -> cstr_at m s' xs -> cstr_at m d ds ->
  exists tok save' m', strtok_r s d save m = Ok (tok, save', m') /\
    match token_split ds xs with
    | None => tok = 0 /\ m' = m /\ cstr_at m' save' []
    | Some (t, rest) => tok = s' + Z.of_nat (leading ds xs) /\ cstr_at m' tok t /\ cstr_at m' save' rest /\
        ((m' = m /\ rest = [] /\ save' = tok + Z.of_nat (length t)) \/
         (m' = <[tok + Z.of_nat (length t) := 0]> m /\ save' = tok + Z.of_nat (length t) + 1 /\
          (leading ds xs + length t < length xs)%nat))
    end.
Proof.
  intros Hs0 Hd0 Hs Hd. unfold strtok_r. rewrite (proj2 (Z.eqb_neq d 0)) by lia. erewrite bind_eq; [|done]. fold s'.
  rewrite (proj2 (Z.eqb_neq s' 0)) by lia. do 2 (erewrite bind_eq; [|done]). pose proof (cstr_size m s' xs Hs) as Hsz.
  destruct (skip_delimiters_run (S (size m)) m s' d xs ds Hs Hd Hd0) as [Hk E]; [lia|].
  erewrite bind_eq; [|exact E]. cbv beta iota. set (k := leading ds xs) in *.
  pose proof (cstr_at_drop m s' xs k Hs Hk) as Hy. destruct (Nat.eqb_spec k (length xs)) as [Ek|Ek].
  { rewrite drop_ge in Hy by lia. eexists 0, _, m. split; [done|].
    unfold token_split. fold k. by rewrite drop_ge by lia. }
  set (ys := drop k xs) in *. assert (length ys <> 0%nat) as Hl by (unfold ys; rewrite length_drop; lia).
  destruct (find_delimiter_run (S (size m)) m (s' + Z.of_nat k) d ys ds Hy Hd Hd0) as [Hj E'];
    [unfold ys; rewrite length_drop; lia|].
  erewrite bind_eq; [|exact E']. set (j := token_length ds ys) in *.
  assert (token_split ds xs = Some (take j ys, drop (S j) ys)) as ->.
  { unfold token_split. fold k ys. unfold j. by destruct ys. }
  destruct (decide (j = length ys)) as [Ej|Ej].
  - pose proof (cstr_at_drop m _ ys j Hy Hj) as He. rewrite drop_ge in He by lia.
    erewrite bind_eq; [|exact (mem_load_run _ _ _ (proj1 (cstr_at_nil _ _) He))]. cbn [Z.eqb negb]. eexists _, _, m. split; [done|].
    rewrite take_ge, drop_ge by lia. split; [done|]. split; [done|]. split; [done|]. left. by rewrite <- Ej.
  - destruct (lookup_lt_is_Some_2 ys j) as [c Hc]; [lia|].
    assert (m !! (s' + Z.of_nat k + Z.of_nat j) = Some c) as Hm by (apply (proj1 Hy); by apply lookup_app_l_Some).
    assert (0 < c) as Hc0 by (pose proof (proj2 Hy) as HF; rewrite Forall_lookup in HF; apply (HF _ _ Hc)).
    erewrite bind_eq; [|by apply mem_load_run]. rewrite (proj2 (Z.eqb_neq c 0)) by lia. cbn [negb].
    erewrite bind_eq; [|by apply mem_store_run; eexists]. eexists _, _, _. split; [done|].
    destruct (cstr_cut m (s' + Z.of_nat k) ys j Hy) as [H1 H2]; [lia|]. split; [done|]. split; [done|]. split; [done|].
    right. rewrite length_take, Nat.min_l by lia. split; [done|]. split; [done|].
    unfold ys in Hj, Ej. rewrite length_drop in Hj, Ej. fold k. lia.
Qed.

End CStringFacts.

(** * lib/string.c: the properties, with instances *)

Import CString CStringFacts.

Module CStringProps.

(** [memmove] copies correctly for every overlap of source and destination: the
    destination then holds what the source held before, and nothing else changes.
    When it copies upwards it returns the end of the destination. *)
Theorem memmove_correct (m : mem) dst src n :
  0 <= n -> dst <> 0 -> src <> 0 -> mapped m dst n -> mapped m src n ->
  exists m', memmove dst src n m = Ok (if dst <? src then dst + n else dst, m') /\ copied m m' dst src n.
Proof. apply memmove_run. Qed.

(** [strcmp] terminates on any two strings and returns -1, 0 or 1 by the
    lexicographic order of their bytes; that is a strict total order. *)
Theorem strcmp_correct (m : mem) a b xs ys :
  a <> 0 -> b <> 0 -> cstr_at m a xs -> cstr_at m b ys ->
  strcmp a b m = Ok (str_compare xs ys, m) /\ (str_compare xs ys = 0 <-> xs = ys) /\
  str_compare ys xs = - str_compare xs ys /\
  forall zs, str_compare xs ys = -1 -> str_compare ys zs = -1 -> str_compare xs zs = -1.
Proof.
  intros Ha Hb Hx Hy. split; [by apply strcmp_run|]. split; [apply str_compare_eq|].
  split; [apply str_compare_flip|]. intros zs. apply str_compare_trans.
Qed.

(** [strlcpy] leaves a terminated copy of the first [size - 1] characters of the
    source, returns the length of the source, and writes inside the [size] bytes of
    the destination only. *)
Theorem strlcpy_correct (m : mem) dst src xs size :
  dst <> 0 -> src <> 0 -> 0 < size -> cstr_at m src xs -> mapped m dst size ->
  dst + size <= src \/ src + Z.of_nat (length xs) + 1 <= dst ->
  exists m', strlcpy dst src size m = Ok (Z.of_nat (length xs), m') /\
    cstr_at m' dst (take (Z.to_nat (size - 1)) xs) /\
    forall x, ~ (dst <= x < dst + size) -> m' !! x = m !! x.
Proof. apply strlcpy_run. Qed.

(** [strtok_r] splits off the next token: the characters after the leading
    delimiters up to the next delimiter, which becomes its terminator; the save
    pointer is left at the rest of the string.  It reports the end when only
    delimiters are left. *)
Theorem strtok_r_correct (m : mem) s d xs ds save (s' := if s =? 0 then save else s) :
  s' <> 0 -> 0 < d -> cstr_at m s' xs -> cstr_at m d ds ->
  exists tok save' m', strtok_r s d save m = Ok (tok, save', m') /\
    match token_split ds xs with
    | None => tok = 0 /\ m' = m /\ cstr_at m' save' []
    | Some (t, rest) => tok = s' + Z.of_nat (leading ds xs) /\ cstr_at m' tok t /\ cstr_at m' save' rest /\
        (m' = m \/ m' = <[tok + Z.of_nat (length t) := 0]> m)
    end.
Proof.
  intros Hs Hd Hx Hds. destruct (strtok_r_run m s d xs ds save Hs Hd Hx Hds) as (tok & save' & m' & E & H).
  exists tok, save', m'. split; [exact E|]. destruct (token_split ds xs) as [[t rest]|]; [|exact H].
  destruct H as (? & ? & ? & H). intuition.
Qed.

(** ** Instances *)

(** The bytes [xs] at [a], in an empty memory. *)
Fixpoint mem_of (a : Z) (xs : list Z) : mem :=
  match xs with [] => ∅ | x :: xs => <[a := x]> (mem_of (a + 1) xs) end.

(** [" echo x"] at 100 and [" "] at 108. *)
Definition demo_mem : mem := mem_of 100 [32; 101; 99; 104; 111; 32; 120; 0; 32; 0].

Ltac solve_cstr :=
  repeat (apply cstr_at_cons; split; [by vm_compute|split; [lia|]]); apply cstr_at_nil; by vm_compute.

Lemma memmove_correct_witness :
  exists m', memmove 102 100 4 demo_mem = Ok (102, m') /\ m' !! 103 = Some 101.
Proof.
  destruct (memmove_correct demo_mem 102 100 4) as (m' & E & C); [lia|lia|lia| | |].
  - intros x Hx. assert (x = 102 \/ x = 103 \/ x = 104 \/ x = 105) as [->|[->|[->| ->]]] by lia; eexists; by vm_compute.
  - intros x Hx. assert (x = 100 \/ x = 101 \/ x = 102 \/ x = 103) as [->|[->|[->| ->]]] by lia; eexists; by vm_compute.
  - exists m'. split; [exact E|]. rewrite (C 103). by vm_compute.
Defined.

Lemma strcmp_correct_witness : strcmp 106 108 demo_mem = Ok (1, demo_mem).
Proof.
  apply (strcmp_correct demo_mem 106 108 [120] [32]); [lia|lia|solve_cstr|solve_cstr].
Defined.

Lemma strlcpy_correct_witness :
  exists m', strlcpy 100 106 3 demo_mem = Ok (1, m') /\ cstr_at m' 100 [120].
Proof.
  destruct (strlcpy_correct demo_mem 100 106 [120] 3) as (m' & E & C & _); [lia|lia|lia|solve_cstr| |cbn; lia|].
  - intros x Hx. assert (x = 100 \/ x = 101 \/ x = 102) as [->|[->| ->]] by lia; eexists; by vm_compute.
  - exists m'. split; [exact E|exact C].
Defined.

Lemma strtok_r_correct_witness :
  exists save' m', strtok_r 100 108 0 demo_mem = Ok (101, save', m') /\
    cstr_at m' 101 [101; 99; 104; 111] /\ cstr_at m' save' [120].
Proof.
  destruct (strtok_r_correct demo_mem 100 108 [32; 101; 99; 104; 111; 32; 120] [32] 0)
    as (tok & save' & m' & E & H); [done|lia|solve_cstr|solve_cstr|].
  destruct H as (-> & H1 & H2 & _). exists save', m'. split; [exact E|]. split; [exact H1|exact H2].
Defined.

End CStringProps.
