(* ===== verification/CStdlib.v ===== *)
(** * lib/stdlib.c and the predicates of lib/ctype.h

    Over the byte-addressed memory of string.c.  The comparison function of [sort] and
    [binary_search], its auxiliary data included, is a parameter.  Indexes and sizes
    are [size_t], 32 bits wide. *)

From S2P Require Import Prelude CString.
Import CString.

Module CStdlib.

(** ** ctype.h *)

Definition islower (c : Z) : bool := (c >=? 97) && (c <=? 122).
Definition isupper (c : Z) : bool := (c >=? 65) && (c <=? 90).
Definition isalpha (c : Z) : bool := islower c || isupper c.
Definition isdigit (c : Z) : bool := (c >=? 48) && (c <=? 57).
Definition isalnum (c : Z) : bool := isalpha c || isdigit c.
Definition isxdigit (c : Z) : bool := isdigit c || ((c >=? 97) && (c <=? 102)) || ((c >=? 65) && (c <=? 70)).
Definition isspace (c : Z) : bool :=
  (c =? 32) || (c =? 12) || (c =? 10) || (c =? 13) || (c =? 9) || (c =? 11).
Definition isprint (c : Z) : bool := (c >=? 32) && (c <? 127).
Definition tolower (c : Z) : Z := if isupper c then c - 65 + 97 else c.
Definition toupper (c : Z) : Z := if islower c then c - 97 + 65 else c.

(** ** Numbers *)

Fixpoint skip_space (fuel : nat) (s : Z) : M mem Z :=
  match fuel with
  | O => fail OutOfFuel
  | S fuel => let! c := load s in if isspace c then skip_space fuel (s + 1) else ret s
  end.
(** The value is built up as a negative number. *)
Fixpoint digits_loop (fuel : nat) (s value : Z) : M mem Z :=
  match fuel with
  | O => fail OutOfFuel
  | S fuel =>
      let! c := load s in
      if isdigit c then digits_loop fuel (s + 1) (s32 (s32 (value * 10) - (c - 48))) else ret value
  end.
Definition atoi (s : Z) : M mem Z :=
  do! assert (negb (s =? 0));
  let! fuel := limit in
  let! s := skip_space fuel s in
  let! c := load s in
  let '(negative, s) := if c =? 43 then (false, s + 1) else if c =? 45 then (true, s + 1) else (false, s) in
  let! value := digits_loop fuel s 0 in
  ret (if negative : bool then value else s32 (- value)).

(** ** Sorting *)

Section compare.
Context (compare : Z -> Z -> M mem Z).

Fixpoint swap_loop (n : nat) (a b : Z) : M mem unit :=
  match n with
  | O => ret tt
  | S n =>
      let! t := load a in
      let! y := load b in
      do! store a y;
      do! store b t;
      swap_loop n (a + 1) (b + 1)
  end.
Definition do_swap (array a_idx b_idx size : Z) : M mem unit :=
  let a := array + u32 ((a_idx - 1) * size) in
  let b := array + u32 ((b_idx - 1) * size) in
  swap_loop (Z.to_nat size) a b.
Definition do_compare (array a_idx b_idx size : Z) : M mem Z :=
  compare (array + u32 ((a_idx - 1) * size)) (array + u32 ((b_idx - 1) * size)).

Fixpoint heapify (fuel : nat) (array i cnt size : Z) : M mem unit :=
  match fuel with
  | O => fail OutOfFuel
  | S fuel =>
      let left := u32 (2 * i) in
      let right := u32 (2 * i + 1) in
      let max := i in
      let! max :=
        (if left <=? cnt then
           let! c := do_compare array left max size in ret (if c >? 0 then left else max)
         else ret max) in
      let! max :=
        (if right <=? cnt then
           let! c := do_compare array right max size in ret (if c >? 0 then right else max)
         else ret max) in
      if max =? i then ret tt
      else do! do_swap array i max size; heapify fuel array max cnt size
  end.
(** An element only floats down, so [cnt + 1] rounds are enough. *)
Definition heap_fuel (cnt : Z) : nat := S (Z.to_nat cnt).

(** [for (i = ...; i > 0; i--)] and [for (i = ...; i > 1; i--)], [n] the rounds left. *)
Fixpoint build_loop (n : nat) (array i cnt size : Z) : M mem unit :=
  match n with
  | O => ret tt
  | S n => do! heapify (heap_fuel cnt) array i cnt size; build_loop n array (i - 1) cnt size
  end.
Fixpoint sort_down (n : nat) (array i size : Z) : M mem unit :=
  match n with
  | O => ret tt
  | S n =>
      do! do_swap array 1 i size;
      do! heapify (heap_fuel (i - 1)) array 1 (i - 1) size;
      sort_down n array (i - 1) size
  end.
Definition sort (array cnt size : Z) : M mem unit :=
  do! assert (negb (array =? 0) || (cnt =? 0));
  do! assert (size >? 0);
  do! build_loop (Z.to_nat (cnt / 2)) array (cnt / 2) cnt size;
  sort_down (Z.to_nat (cnt - 1)) array cnt size.

(** ** Searching *)

Fixpoint search_loop (fuel : nat) (key first last size : Z) : M mem Z :=
  match fuel with
  | O => fail OutOfFuel
  | S fuel =>
      if first <? last then
        let range := (last - first) / size in
        let middle := first + range / 2 * size in
        let! cmp := compare key middle in
        if cmp <? 0 then search_loop fuel key first middle size
        else if cmp >? 0 then search_loop fuel key (middle + size) last size
        else ret middle
      else ret 0
  end.
(** Each round leaves a shorter range. *)
Definition binary_search (key array cnt size : Z) : M mem Z :=
  search_loop (S (Z.to_nat cnt)) key array (array + u32 (size * cnt)) size.

End compare.

End CStdlib.
