(* ===== verification/CStdlibFacts.v ===== *)
(** * lib/stdlib.c: facts about heap sort and binary search

    An array of [n] elements of [size] bytes each is a list of [n] blocks of bytes;
    elements are numbered from 1, as in the code. *)

From S2P Require Import Prelude CString CStringFacts CStdlib.
Import CString CStringFacts CStdlib.

Module CStdlibFacts.

Implicit Types (m : mem) (es : list (list Z)).

(** ** Exchanging elements of a list *)

Section exchange.
Context {A : Type}.
Implicit Types (l : list A) (i j k : Z).

(** Element [k], counted from 1. *)
Definition nth1 l k : option A := if 1 <=? k then l !! Z.to_nat (k - 1) else None.
Definition exchange l i j : list A :=
  match nth1 l i, nth1 l j with
  | Some x, Some y => <[Z.to_nat (i - 1) := y]> (<[Z.to_nat (j - 1) := x]> l)
  | _, _ => l
  end.

Lemma nth1_Some l k : 1 <= k <= Z.of_nat (length l) <-> is_Some (nth1 l k).
Proof.
  unfold nth1. destruct (Z.leb_spec 1 k).
  - rewrite lookup_lt_is_Some. lia.
  - split; [lia|by intros []].
Qed.
Lemma nth1_exchange l i j k : is_Some (nth1 l i) -> is_Some (nth1 l j) -> i <> j ->
  nth1 (exchange l i j) k = if k =? i then nth1 l j else if k =? j then nth1 l i else nth1 l k.
Proof.
  intros Hi Hj Hne. pose proof (proj2 (nth1_Some l i) Hi) as Hri. pose proof (proj2 (nth1_Some l j) Hj) as Hrj.
  unfold exchange. destruct Hi as [x Hx], Hj as [y Hy]. rewrite Hx, Hy. unfold nth1.
  destruct (Z.eqb_spec k i) as [->|Hki]; [|destruct (Z.eqb_spec k j) as [->|Hkj]].
  - rewrite (proj2 (Z.leb_le 1 i)) by lia. apply list_lookup_insert_eq. rewrite length_insert. lia.
  - rewrite (proj2 (Z.leb_le 1 j)) by lia. rewrite list_lookup_insert_ne by lia. apply list_lookup_insert_eq. lia.
  - destruct (Z.leb_spec 1 k); [|done]. by rewrite !list_lookup_insert_ne by lia.
Qed.
Lemma exchange_length l i j : length (exchange l i j) = length l.
Proof. unfold exchange. destruct (nth1 l i), (nth1 l j); [|done..]. by rewrite !length_insert. Qed.
Lemma exchange_perm l i j : i <> j -> Permutation (exchange l i j) l.
Proof.
  intros Hne. unfold exchange. destruct (nth1 l i) as [x|] eqn:Hx; [|done]. destruct (nth1 l j) as [y|] eqn:Hy; [|done].
  pose proof (proj2 (nth1_Some l i) (ex_intro _ _ Hx)) as Hi. pose proof (proj2 (nth1_Some l j) (ex_intro _ _ Hy)) as Hj.
  unfold nth1 in Hx, Hy. rewrite (proj2 (Z.leb_le 1 i)) in Hx by lia. rewrite (proj2 (Z.leb_le 1 j)) in Hy by lia.
  assert (forall a b (u v : A), (a < b)%nat -> l !! a = Some u -> l !! b = Some v -> Permutation (<[a := v]> (<[b := u]> l)) l) as Hlt.
  { intros a b u v Hab Hu Hv. assert (take b l !! a = Some u) as Hu' by (by rewrite lookup_take_lt).
    pose proof (lookup_lt_Some _ _ _ Hu') as Hlen. rewrite <- (take_drop_middle l b v Hv) at 2.
    rewrite (insert_take_drop l b u) by (by apply lookup_lt_Some in Hv). rewrite insert_app_l by done.
    rewrite insert_take_drop by done. rewrite <- (take_drop_middle _ a u Hu') at 3.
    rewrite <- !app_assoc. apply Permutation_app_head. cbn [app].
    rewrite <- !Permutation_middle. apply Permutation_swap. }
  destruct (Z.lt_ge_cases i j); [by apply Hlt; [lia|..]|].
  rewrite list_insert_insert_ne by lia. by apply Hlt; [lia|..].
Qed.
End exchange.

Lemma sorted_lookup {A} (R : A -> A -> Prop) (l : list A) (i j : nat) x y :
  StronglySorted R l -> l !! i = Some x -> l !! j = Some y -> (i < j)%nat -> R x y.
Proof.
  intros Hs. revert i j. induction Hs as [|a l Hs IH Ha]; intros i j Hx Hy Hij; [done|].
  destruct j as [|j]; [lia|]. destruct i as [|i]; [injection Hx as ->|by apply (IH i j); [..|lia]].
  rewrite Forall_forall in Ha. apply Ha. cbn in Hy. by apply list_elem_of_lookup_2 in Hy.
Qed.

(** ** Heaps *)

Section heap.
Context {A : Type} (cmp : A -> A -> Z).
(** What a comparison function promises: the sign of its result is an order. *)
Class Ordering : Prop := {
  cmp_flip : forall x y, cmp x y > 0 <-> cmp y x < 0;
  cmp_trans : forall x y z, cmp x y <= 0 -> cmp y z <= 0 -> cmp x z <= 0 }.
Context `{Ordering}.
Implicit Types (l : list A) (i j k p : Z).

Lemma cmp_total x y : cmp x y <= 0 \/ cmp y x <= 0.
Proof. pose proof (cmp_flip x y). pose proof (cmp_flip y x). lia. Qed.
Lemma cmp_refl x : cmp x x <= 0.
Proof. destruct (cmp_total x x); done. Qed.

(** Element [j] is not larger than element [i]. *)
Definition below l j i : Prop := forall x y, nth1 l j = Some x -> nth1 l i = Some y -> cmp x y <= 0.
Definition child j i : Prop := j = 2 * i \/ j = 2 * i + 1.

(** From [lo] on, no element before [n] is smaller than its children; but for [i], whose
    children are not larger than its parent. *)
Definition heap_but l lo n i : Prop :=
  (forall k j, lo <= k -> k <> i -> child j k -> j <= n -> below l j k) /\
  (forall p j, lo <= p -> child i p -> child j i -> j <= n -> below l j p).
Definition heap l lo n : Prop := forall k j, lo <= k -> child j k -> j <= n -> below l j k.

Lemma below_trans l i j k : is_Some (nth1 l j) -> below l i j -> below l j k -> below l i k.
Proof. intros [y Hy] H1 H2 x z Hx Hz. by apply (cmp_trans x y z); [apply H1|apply H2]. Qed.
Lemma below_refl l i : below l i i.
Proof. intros x y Hx Hy. simplify_eq. apply cmp_refl. Qed.

Lemma below_exchange l i j a b : is_Some (nth1 l i) -> is_Some (nth1 l j) -> i <> j ->
  below (exchange l i j) a b <->
  below l (if a =? i then j else if a =? j then i else a) (if b =? i then j else if b =? j then i else b).
Proof.
  intros Hi Hj Hne. unfold below. rewrite !nth1_exchange by done.
  destruct (a =? i), (a =? j), (b =? i), (b =? j); done.
Qed.

(** Exchanging [i] with its largest child [c] moves the disorder to [c]. *)
Lemma heap_but_down l lo n i c :
  heap_but l lo n i -> 1 <= lo <= i -> child c i -> c <= n -> n <= Z.of_nat (length l) ->
  below l i c -> (forall j, child j i -> j <= n -> below l j c) -> heap_but (exchange l i c) lo n c.
Proof.
  intros [H1 H2] Hlo Hc Hcn Hn Hic Hmax.
  assert (is_Some (nth1 l i)) as Hi by (apply nth1_Some; unfold child in Hc; lia).
  assert (is_Some (nth1 l c)) as Hsc by (apply nth1_Some; unfold child in Hc; lia).
  assert (i <> c) as Hne by (unfold child in Hc; lia).
  split.
  - intros k j Hk Hkc Hj Hjn. rewrite below_exchange by done. rewrite (proj2 (Z.eqb_neq k c)) by done.
    destruct (Z.eqb_spec k i) as [->|Hki].
    + rewrite (proj2 (Z.eqb_neq j i)) by (unfold child in *; lia). destruct (Z.eqb_spec j c) as [->|Hjc]; [done|by apply Hmax].
    + destruct (Z.eqb_spec j i) as [->|Hji]; [by apply (H2 k c)|].
      rewrite (proj2 (Z.eqb_neq j c)) by (unfold child in *; lia). by apply (H1 k j).
  - intros p j Hp Hcp Hj Hjn. assert (p = i) as -> by (unfold child in *; lia). rewrite below_exchange by done.
    rewrite Z.eqb_refl. rewrite (proj2 (Z.eqb_neq j i)), (proj2 (Z.eqb_neq j c)) by (unfold child in *; lia).
    apply (H1 c j); unfold child in *; lia || auto.
Qed.

(** When no child of [i] is larger than it the disorder is gone. *)
Lemma heap_but_done l lo n i : heap_but l lo n i -> (forall j, child j i -> j <= n -> below l j i) -> heap l lo n.
Proof. intros [H1 _] Hi k j Hk Hj Hjn. destruct (decide (k = i)) as [->|Hne]; [by apply Hi|by apply H1]. Qed.

(** The first element of a heap is the largest. *)
Lemma heap_root l n k : heap l 1 n -> 1 <= k <= n -> n <= Z.of_nat (length l) -> below l k 1.
Proof.
  intros Hh Hk Hn. assert (forall b : nat, 1 <= k <= Z.of_nat b -> k <= n -> below l k 1) as Hb; [|apply (Hb (Z.to_nat k)); lia].
  clear Hk. intros b. revert k. induction b as [|b IH]; intros k Hk Hkn; [lia|].
  destruct (decide (k = 1)) as [->|Hne]; [apply below_refl|].
  assert (child k (k / 2)) as Hc by (unfold child; pose proof (Z.div_mod k 2); pose proof (Z.mod_pos_bound k 2); lia).
  assert (1 <= k / 2 < k) as Hr by (split; [apply Z.div_le_lower_bound; lia|apply Z.div_lt; lia]).
  apply (below_trans l k (k / 2)); [apply nth1_Some; lia| |apply IH; lia].
  apply (Hh (k / 2) k); unfold child in *; lia || done.
Qed.

End heap.
Arguments Ordering {A} cmp.

(** ** Arrays in memory *)

(** The memory [m'] is [m] with the two blocks of [n] bytes at [a] and [b] exchanged. *)
Definition swapped m m' (a b n : Z) : Prop :=
  forall x, m' !! x = if (a <=? x) && (x <? a + n) then m !! (x - a + b)
                      else if (b <=? x) && (x <? b + n) then m !! (x - b + a) else m !! x.

Lemma swap_loop_run n : forall m a b,
  mapped m a (Z.of_nat n) -> mapped m b (Z.of_nat n) -> a + Z.of_nat n <= b \/ b + Z.of_nat n <= a ->
  exists m', swap_loop n a b m = Ok (tt, m') /\ swapped m m' a b (Z.of_nat n).
Proof.
  induction n as [|n IH]; intros m a b Ha Hb Hd; cbn [swap_loop].
  - exists m. split; [done|]. intros x. in_ranges.
  - destruct (Ha a) as [u Hu]; [lia|]. destruct (Hb b) as [v Hv]; [lia|].
    erewrite bind_eq; [|by apply mem_load_run]. erewrite bind_eq; [|by apply mem_load_run].
    erewrite bind_eq; [|apply mem_store_run; by eexists].
    erewrite bind_eq; [|apply mem_store_run; rewrite lookup_insert_ne by lia; by eexists].
    destruct (IH (<[b := u]> (<[a := v]> m)) (a + 1) (b + 1)) as (m' & E & Hm');
      [do 2 apply mapped_insert; intros x Hx; apply Ha; lia|do 2 apply mapped_insert; intros x Hx; apply Hb; lia|lia|].
    exists m'. split; [exact E|]. intros x. rewrite Hm'.
    destruct (decide (x = a)) as [->|Hxa]; [|destruct (decide (x = b)) as [->|Hxb]].
    + in_ranges; rewrite ?lookup_insert_ne by lia; rewrite ?lookup_insert_eq; try congruence;
        replace (a - a + b) with b by lia; congruence.
    + in_ranges; rewrite ?lookup_insert_eq; try (replace (b - b + a) with a by lia); congruence.
    + in_ranges; rewrite ?lookup_insert_ne by lia; try done; f_equal; lia.
Qed.

(** The array at [array] has the elements [es], of [size] bytes each. *)
Definition array_at m (array size : Z) es : Prop :=
  forall k e, nth1 es k = Some e -> Z.of_nat (length e) = size /\ bytes_at m (array + (k - 1) * size) e.
(** Only the array changes. *)
Definition same_outside m m' (array size : Z) (n : nat) : Prop :=
  forall x, ~ (array <= x < array + Z.of_nat n * size) -> m' !! x = m !! x.

Lemma array_mapped m array size es k : array_at m array size es -> is_Some (nth1 es k) -> mapped m (array + (k - 1) * size) size.
Proof.
  intros Ha [e He] x Hx. destruct (Ha k e He) as [Hl Hb].
  destruct (lookup_lt_is_Some_2 e (Z.to_nat (x - (array + (k - 1) * size)))) as [b E]; [lia|].
  exists b. rewrite <- (Hb _ _ E). f_equal. lia.
Qed.

Section array.
Context (array size : Z) (compare : Z -> Z -> M mem Z) (cmp : list Z -> list Z -> Z).
Context (Hsize : 0 < size).
(** The comparison function looks at the two elements only. *)
Definition compares : Prop := forall m a b x y,
  Z.of_nat (length x) = size -> Z.of_nat (length y) = size -> bytes_at m a x -> bytes_at m b y ->
  compare a b m = Ok (cmp x y, m).
Context (Hcompare : compares) `{!Ordering cmp}.

Lemma u32_offset es k : Z.of_nat (length es) * size < 2 ^ 32 -> is_Some (nth1 es k) -> u32 ((k - 1) * size) = (k - 1) * size.
Proof. intros Hb Hk%nth1_Some. apply wrapu_small. nia. Qed.

Lemma do_swap_run m es i j :
  array_at m array size es -> Z.of_nat (length es) * size < 2 ^ 32 -> is_Some (nth1 es i) -> is_Some (nth1 es j) -> i <> j ->
  exists m', do_swap array i j size m = Ok (tt, m') /\ array_at m' array size (exchange es i j) /\
    same_outside m m' array size (length es).
Proof.
  intros Ha Hb Hi Hj Hne. unfold do_swap. rewrite !(u32_offset es) by done.
  pose proof (array_mapped _ _ _ _ _ Ha Hi) as Hmi. pose proof (array_mapped _ _ _ _ _ Ha Hj) as Hmj.
  destruct (swap_loop_run (Z.to_nat size) m (array + (i - 1) * size) (array + (j - 1) * size)) as (m' & E & Hm').
  { by rewrite Z2Nat.id by lia. } { by rewrite Z2Nat.id by lia. } { nia. }
  rewrite Z2Nat.id in Hm' by lia. exists m'. split; [exact E|].
  pose proof (proj2 (nth1_Some es i) Hi) as Hri. pose proof (proj2 (nth1_Some es j) Hj) as Hrj. split.
  - intros k e. rewrite nth1_exchange by done. intros Hk.
    assert (1 <= k <= Z.of_nat (length es)) as Hrk.
    { destruct (Z.eqb_spec k i); [lia|]. destruct (Z.eqb_spec k j); [lia|]. apply nth1_Some. by eexists. }
    destruct (Z.eqb_spec k i) as [->|Hki]; [|destruct (Z.eqb_spec k j) as [->|Hkj]].
    + destruct (Ha j e Hk) as [Hl He]. split; [done|]. intros o b Ho. rewrite Hm'. pose proof (lookup_lt_Some _ _ _ Ho).
      rewrite <- (He o b Ho). in_ranges; f_equal; lia.
    + destruct (Ha i e Hk) as [Hl He]. split; [done|]. intros o b Ho. rewrite Hm'. pose proof (lookup_lt_Some _ _ _ Ho).
      rewrite <- (He o b Ho). assert ((j - 1) * size + Z.of_nat o < (i - 1) * size \/ (i - 1) * size + size <= (j - 1) * size + Z.of_nat o) by nia.
      in_ranges; f_equal; lia.
    + destruct (Ha k e Hk) as [Hl He]. split; [done|]. intros o b Ho. rewrite Hm'. pose proof (lookup_lt_Some _ _ _ Ho).
      rewrite <- (He o b Ho). assert ((k - 1) * size + Z.of_nat o < (i - 1) * size \/ (i - 1) * size + size <= (k - 1) * size + Z.of_nat o) by nia.
      assert ((k - 1) * size + Z.of_nat o < (j - 1) * size \/ (j - 1) * size + size <= (k - 1) * size + Z.of_nat o) by nia.
      in_ranges.
  - intros x Hx. rewrite Hm'. assert ((i - 1) * size + size <= Z.of_nat (length es) * size) by nia.
    assert ((j - 1) * size + size <= Z.of_nat (length es) * size) by nia.
    assert (0 <= (i - 1) * size) by nia. assert (0 <= (j - 1) * size) by nia. in_ranges.
Qed.

Lemma do_compare_run m es i j x y :
  array_at m array size es -> Z.of_nat (length es) * size < 2 ^ 32 -> nth1 es i = Some x -> nth1 es j = Some y ->
  do_compare compare array i j size m = Ok (cmp x y, m).
Proof.
  intros Ha Hb Hx Hy. unfold do_compare. rewrite !(u32_offset es) by (done || by eexists).
  destruct (Ha i x Hx), (Ha j y Hy). by apply Hcompare.
Qed.

(** What a routine that permutes the first [n] elements leaves behind. *)
Definition rearranged m m' es es' (n : Z) : Prop :=
  array_at m' array size es' /\ Permutation es' es /\ (forall k, n < k -> nth1 es' k = nth1 es k) /\
  same_outside m m' array size (length es).

Lemma rearranged_refl m es n : array_at m array size es -> rearranged m m es es n.
Proof. intros Ha. by split. Qed.
Lemma rearranged_trans m1 m2 m3 es1 es2 es3 n :
  rearranged m1 m2 es1 es2 n -> rearranged m2 m3 es2 es3 n -> rearranged m1 m3 es1 es3 n.
Proof.
  intros (A1 & P1 & N1 & S1) (A2 & P2 & N2 & S2). split; [done|]. split; [by transitivity es2|]. split.
  - intros k Hk. by rewrite N2, N1.
  - intros x Hx. rewrite S2, S1; [done|done|]. by rewrite (Permutation_length P1).
Qed.
Lemma rearranged_weaken m m' es es' n n' : n <= n' -> rearranged m m' es es' n -> rearranged m m' es es' n'.
Proof. intros Hn (A & P & N & S). split; [done|]. split; [done|]. split; [intros k Hk; apply N; lia|done]. Qed.
Lemma rearranged_exchange m m' es i j n :
  1 <= i <= n -> 1 <= j <= n -> n <= Z.of_nat (length es) -> i <> j ->
  array_at m' array size (exchange es i j) -> same_outside m m' array size (length es) ->
  rearranged m m' es (exchange es i j) n.
Proof.
  intros Hi Hj Hn Hne Ha Hs. split; [done|]. split; [by apply exchange_perm|]. split; [|done].
  intros k Hk. rewrite nth1_exchange; [|apply nth1_Some; lia|apply nth1_Some; lia|done].
  by rewrite (proj2 (Z.eqb_neq k i)), (proj2 (Z.eqb_neq k j)) by lia.
Qed.
(** The first [n] elements are the old ones in another order. *)
Lemma rearranged_prefix m m' es es' n k x : rearranged m m' es es' n -> 0 <= n -> 1 <= k <= n -> nth1 es' k = Some x ->
  exists k', 1 <= k' <= n /\ nth1 es k' = Some x.
Proof.
  intros (_ & P & N & _) Hn Hk Hx. set (c := Z.to_nat n).
  assert (drop c es' = drop c es) as Ed.
  { apply list_eq. intros i. rewrite !lookup_drop. specialize (N (n + 1 + Z.of_nat i) ltac:(lia)). unfold nth1 in N.
    rewrite (proj2 (Z.leb_le 1 _)) in N by lia. by replace (Z.to_nat (n + 1 + Z.of_nat i - 1)) with (c + i)%nat in N by lia. }
  assert (Permutation (take c es') (take c es)) as Pt.
  { apply (Permutation_app_inv_r (drop c es)). rewrite <- Ed at 1. by rewrite !take_drop. }
  unfold nth1 in Hx. rewrite (proj2 (Z.leb_le 1 k)) in Hx by lia.
  assert (x ∈ take c es) as Hin.
  { rewrite <- Pt. apply (list_elem_of_lookup_2 _ (Z.to_nat (k - 1))). rewrite lookup_take_lt by lia. done. }
  apply list_elem_of_lookup in Hin as [i Hi]. apply lookup_take_Some in Hi as [Hi Hlt].
  exists (Z.of_nat i + 1). split; [lia|]. unfold nth1. rewrite (proj2 (Z.leb_le 1 _)) by lia.
  by replace (Z.to_nat (Z.of_nat i + 1 - 1)) with i by lia.
Qed.

(** One choice of [heapify]: the larger of [max] and [c], if there is a [c]. *)
Lemma choose_run m es (c n : Z) (max : Z) :
  array_at m array size es -> Z.of_nat (length es) * size < 2 ^ 32 -> n <= Z.of_nat (length es) -> 1 <= c -> is_Some (nth1 es max) ->
  exists r, (if c <=? n then let! v := do_compare compare array c max size in ret (if v >? 0 then c else max) else ret max) m = Ok (r, m) /\
    (r = max \/ r = c /\ c <= n) /\ below cmp es max r /\ (c <= n -> below cmp es c r).
Proof.
  intros Ha Hb Hn Hc [y Hy]. destruct (Z.leb_spec c n) as [Hle|Hgt].
  - destruct (proj1 (nth1_Some es c)) as [x Hx]; [lia|]. erewrite bind_eq; [|by apply (do_compare_run _ es c max x y)].
    destruct (Z.gtb_spec (cmp x y) 0) as [Hpos|Hneg]; eexists; (split; [done|]).
    + split; [by right|]. split; [|intros _; by apply below_refl]. intros u v Hu Hv. rewrite Hy in Hu. rewrite Hx in Hv.
      injection Hu as <-. injection Hv as <-. pose proof (proj1 (cmp_flip cmp x y)). lia.
    + split; [by left|]. split; [by apply below_refl|]. intros _ u v Hu Hv. by simplify_eq.
  - exists max. split; [done|]. split; [by left|]. split; [by apply below_refl|lia].
Qed.

Lemma heapify_run fuel : forall m es i lo n,
  array_at m array size es -> 2 * Z.of_nat (length es) * size < 2 ^ 32 - 1 -> n <= Z.of_nat (length es) ->
  heap_but cmp es lo n i -> 1 <= lo <= i -> i <= n -> (Z.to_nat (n - i) < fuel)%nat ->
  exists m' es', heapify compare fuel array i n size m = Ok (tt, m') /\ rearranged m m' es es' n /\ heap cmp es' lo n.
Proof.
  induction fuel as [|fuel IH]; intros m es i lo n Ha Hb Hn Hh Hlo Hi Hf; [lia|]. cbn [heapify].
  assert (Z.of_nat (length es) * size < 2 ^ 32) as Hb' by lia. assert (i <= Z.of_nat (length es)) as Hil by lia.
  assert (2 * i + 1 < 2 ^ 32) as Hi32 by nia. rewrite (wrapu_small 32 (2 * i)), (wrapu_small 32 (2 * i + 1)) by lia.
  assert (is_Some (nth1 es i)) as Hsi by (apply nth1_Some; lia).
  destruct (choose_run m es (2 * i) n i) as (r1 & E1 & C1 & B1 & B1'); [done|done|done|lia|done|].
  erewrite bind_eq; [|exact E1].
  assert (is_Some (nth1 es r1)) as Hs1 by (apply nth1_Some; lia).
  destruct (choose_run m es (2 * i + 1) n r1) as (r2 & E2 & C2 & B2 & B2'); [done|done|done|lia|done|].
  erewrite bind_eq; [|exact E2].
  assert (is_Some (nth1 es r2)) as Hs2 by (apply nth1_Some; lia).
  assert (forall j, child j i -> j <= n -> below cmp es j r2) as Hmax.
  { intros j [-> | ->] Hj; [|by apply B2']. by apply (below_trans cmp es _ r1); [done|apply B1'|]. }
  assert (below cmp es i r2) as Hir by (by apply (below_trans cmp es _ r1)).
  destruct (Z.eqb_spec r2 i) as [->|Hne].
  - exists m, es. split; [done|]. split; [by apply rearranged_refl|]. by apply (heap_but_done cmp es lo n i).
  - assert (child r2 i) as Hc by (unfold child; lia).
    destruct (do_swap_run m es i r2) as (m1 & Es & Ha1 & Ho1); [done|done|done|done|lia|].
    erewrite bind_eq; [|exact Es].
    destruct (IH m1 (exchange es i r2) r2 lo n) as (m' & es' & E' & R' & H'); rewrite ?exchange_length; [done|done|done| |unfold child in Hc; lia..|].
    + apply heap_but_down; [done|lia|done|lia|lia|done|done].
    + exists m', es'. split; [exact E'|]. split; [|done]. eapply rearranged_trans; [|exact R'].
      apply rearranged_exchange; [lia|lia|lia|done|done|done].
Qed.

(** ** Sorting *)

Lemma heap_extend es lo n : 1 <= lo -> heap cmp es (lo + 1) n -> heap_but cmp es lo n lo.
Proof.
  intros Hlo Hh. split; [intros k j Hk Hne Hj Hjn; apply Hh; lia || done|]. intros p j Hp Hc. unfold child in Hc. lia.
Qed.
Lemma heap_leaves es lo n : n < 2 * lo -> heap cmp es lo n.
Proof. intros Hlo k j Hk Hj Hjn. unfold child in Hj. lia. Qed.

Lemma build_run n : forall m es i cnt,
  array_at m array size es -> 2 * Z.of_nat (length es) * size < 2 ^ 32 - 1 -> cnt <= Z.of_nat (length es) ->
  heap cmp es (i + 1) cnt -> Z.of_nat n = i -> i <= cnt ->
  exists m' es', build_loop compare n array i cnt size m = Ok (tt, m') /\ rearranged m m' es es' cnt /\ heap cmp es' 1 cnt.
Proof.
  induction n as [|n IH]; intros m es i cnt Ha Hb Hc Hh Hi Hic; cbn [build_loop].
  - exists m, es. split; [done|]. split; [by apply rearranged_refl|]. by replace (i + 1) with 1 in Hh by lia.
  - destruct (heapify_run (heap_fuel cnt) m es i i cnt) as (m1 & es1 & E1 & R1 & H1); [done|done|done|by apply heap_extend; [lia|]|lia|lia|unfold heap_fuel; lia|].
    erewrite bind_eq; [|exact E1]. pose proof R1 as (Ha1 & P1 & _).
    destruct (IH m1 es1 (i - 1) cnt) as (m' & es' & E' & R' & H'); rewrite ?(Permutation_length P1); [done|done|done|by replace (i - 1 + 1) with i by lia|lia|lia|].
    exists m', es'. split; [exact E'|]. split; [|done]. by eapply rearranged_trans.
Qed.

(** The elements from [i + 1] on are in order and not smaller than those before. *)
Definition tail_sorted es (i : Z) : Prop :=
  (forall k j, i < k -> k <= j -> below cmp es k j) /\ (forall k j, 1 <= k <= i -> i < j -> below cmp es k j).

Lemma heap_pop es i : heap cmp es 1 i -> 2 <= i -> i <= Z.of_nat (length es) -> heap_but cmp (exchange es 1 i) 1 (i - 1) 1.
Proof.
  intros Hh Hi Hl. assert (is_Some (nth1 es 1)) as H1 by (apply nth1_Some; lia). assert (is_Some (nth1 es i)) as Hsi by (apply nth1_Some; lia).
  split; [|intros p j Hp Hc; unfold child in Hc; lia]. intros k j Hk Hne Hj Hjn. rewrite below_exchange by (done || lia).
  rewrite (proj2 (Z.eqb_neq j 1)), (proj2 (Z.eqb_neq j i)), (proj2 (Z.eqb_neq k 1)), (proj2 (Z.eqb_neq k i)) by (unfold child in *; lia).
  apply Hh; unfold child in *; lia || done.
Qed.
Lemma tail_pop es i : heap cmp es 1 i -> tail_sorted es i -> 2 <= i -> i <= Z.of_nat (length es) -> tail_sorted (exchange es 1 i) (i - 1).
Proof.
  intros Hh [T1 T2] Hi Hl. assert (is_Some (nth1 es 1)) as H1 by (apply nth1_Some; lia). assert (is_Some (nth1 es i)) as Hsi by (apply nth1_Some; lia).
  assert (forall k, 1 <= k <= i -> below cmp es k 1) as Hroot by (intros k Hk; by apply (heap_root cmp es i k)).
  split; intros k j Hk Hj; rewrite below_exchange by (done || lia).
  - rewrite (proj2 (Z.eqb_neq k 1)), (proj2 (Z.eqb_neq j 1)) by lia. destruct (Z.eqb_spec k i), (Z.eqb_spec j i); subst.
    + by apply below_refl.
    + apply T2; lia.
    + lia.
    + apply T1; lia.
  - rewrite (proj2 (Z.eqb_neq k i)), (proj2 (Z.eqb_neq j 1)) by lia. destruct (Z.eqb_spec k 1), (Z.eqb_spec j i); subst.
    + apply Hroot; lia.
    + apply T2; lia.
    + apply Hroot; lia.
    + apply T2; lia.
Qed.
Lemma tail_rearranged m m' es es' i : tail_sorted es i -> rearranged m m' es es' i -> 0 <= i -> tail_sorted es' i.
Proof.
  intros [T1 T2] R Hi. pose proof R as (_ & _ & N & _). split; intros k j Hk Hj x y Hx Hy.
  - rewrite N in Hx, Hy by lia. by apply (T1 k j).
  - rewrite N in Hy by lia. destruct (rearranged_prefix m m' es es' i k x R Hi Hk Hx) as (k' & Hk' & Hx'). by apply (T2 k' j).
Qed.

Lemma sort_down_run n : forall m es i,
  array_at m array size es -> 2 * Z.of_nat (length es) * size < 2 ^ 32 - 1 -> i <= Z.of_nat (length es) ->
  heap cmp es 1 i -> tail_sorted es i -> Z.of_nat n = i - 1 ->
  exists m' es', sort_down compare n array i size m = Ok (tt, m') /\ rearranged m m' es es' i /\ tail_sorted es' 1.
Proof.
  induction n as [|n IH]; intros m es i Ha Hb Hi Hh Ht Hn; cbn [sort_down].
  - exists m, es. split; [done|]. split; [by apply rearranged_refl|]. by replace 1 with i by lia.
  - destruct (do_swap_run m es 1 i) as (m1 & E1 & Ha1 & S1); [done|lia|apply nth1_Some; lia|apply nth1_Some; lia|lia|].
    erewrite bind_eq; [|exact E1]. set (es1 := exchange es 1 i) in *. assert (length es1 = length es) as Hl by apply exchange_length.
    destruct (heapify_run (heap_fuel (i - 1)) m1 es1 1 1 (i - 1)) as (m2 & es2 & E2 & R2 & H2);
      rewrite ?Hl; [done|done|lia|by apply heap_pop; [|lia|]|lia|lia|unfold heap_fuel; lia|].
    erewrite bind_eq; [|exact E2]. pose proof R2 as (Ha2 & P2 & _).
    assert (tail_sorted es2 (i - 1)) as Ht2 by (eapply tail_rearranged; [apply tail_pop; [done|done|lia|done]|exact R2|lia]).
    destruct (IH m2 es2 (i - 1)) as (m' & es' & E' & R' & H'); rewrite ?(Permutation_length P2), ?Hl; [done|done|lia|done|done|lia|].
    exists m', es'. split; [exact E'|]. split; [|done]. eapply rearranged_trans; [apply (rearranged_exchange m m1 es 1 i i); done || lia|].
    eapply rearranged_trans; (eapply rearranged_weaken; [|eassumption]); lia.
Qed.

Lemma tail_all_sorted es : tail_sorted es 1 -> StronglySorted (fun x y => cmp x y <= 0) es.
Proof.
  intros [T1 T2]. assert (forall i j x y, (i <= j)%nat -> es !! i = Some x -> es !! j = Some y -> cmp x y <= 0) as Hle.
  { intros i j x y Hij Hx Hy. assert (forall n, nth1 es (Z.of_nat n + 1) = es !! n) as En.
    { intros n. unfold nth1. rewrite (proj2 (Z.leb_le 1 _)) by lia. f_equal. lia. }
    rewrite <- En in Hx, Hy. destruct i as [|i].
    - destruct j as [|j]; [simplify_eq; by apply cmp_refl|]. apply (T2 1 (Z.of_nat (S j) + 1)); [lia|lia|done|done].
    - apply (T1 (Z.of_nat (S i) + 1) (Z.of_nat j + 1)); [lia|lia|done|done]. }
  clear T1 T2. induction es as [|e es IH]; constructor.
  - apply IH. intros i j x y Hij Hx Hy. by apply (Hle (S i) (S j)); [lia|..].
  - apply Forall_forall. intros y Hy. apply list_elem_of_lookup in Hy as [j Hj]. by apply (Hle 0%nat (S j)); [lia|..].
Qed.

Lemma sort_run m es (cnt := Z.of_nat (length es)) :
  array_at m array size es -> array <> 0 -> 2 * cnt * size < 2 ^ 32 - 1 ->
  exists m' es', sort compare array cnt size m = Ok (tt, m') /\ array_at m' array size es' /\ Permutation es' es /\
    StronglySorted (fun x y => cmp x y <= 0) es' /\ same_outside m m' array size (length es).
Proof.
  intros Ha Hz Hb. unfold sort. rewrite (proj2 (Z.eqb_neq array 0)) by done. erewrite bind_eq; [|done].
  replace (size >? 0) with true by lia. erewrite bind_eq; [|done].
  pose proof (Z.div_mod cnt 2 ltac:(lia)) as Ed. pose proof (Z.mod_pos_bound cnt 2 ltac:(lia)) as Hm.
  destruct (build_run (Z.to_nat (cnt / 2)) m es (cnt / 2) cnt) as (m1 & es1 & E1 & R1 & H1); [done|done|lia|apply heap_leaves; lia|lia|lia|].
  erewrite bind_eq; [|exact E1]. pose proof R1 as (Ha1 & P1 & _ & S1). pose proof (Permutation_length P1) as Hl1.
  destruct (decide (cnt = 0)) as [E0|Hne].
  - rewrite E0. cbn. exists m1, es1. split; [done|]. split; [done|]. split; [done|]. split; [|done].
    destruct es1; [constructor|]. cbn in Hl1. lia.
  - destruct (sort_down_run (Z.to_nat (cnt - 1)) m1 es1 cnt) as (m' & es' & E' & R' & H'); rewrite ?Hl1; [done|done|lia|done| |lia|].
    + split; [intros k j Hk Hj x y Hx Hy|intros k j Hk Hj x y Hx Hy];
        assert (j <= Z.of_nat (length es1)) by (apply (proj2 (nth1_Some es1 j)); by eexists); lia.
    + pose proof (rearranged_trans _ _ _ _ _ _ _ R1 R') as (A & P & _ & S). exists m', es'. split; [exact E'|].
      split; [done|]. split; [done|]. split; [by apply tail_all_sorted|done].
Qed.

(** ** Searching *)

(** Elements [a] up to [b], counted from 0, are left; the others do not match. *)
Lemma search_run fuel : forall m es key kx a b,
  array_at m array size es -> bytes_at m key kx -> Z.of_nat (length kx) = size -> StronglySorted (fun x y => cmp x y <= 0) es ->
  0 <= a <= b -> b <= Z.of_nat (length es) -> (Z.to_nat (b - a) < fuel)%nat ->
  (forall k e, nth1 es k = Some e -> k <= a \/ b < k -> cmp kx e <> 0) ->
  exists r, search_loop compare fuel key (array + a * size) (array + b * size) size m = Ok (r, m) /\
    ((exists k e, nth1 es k = Some e /\ r = array + (k - 1) * size /\ cmp kx e = 0) \/
     (r = 0 /\ forall k e, nth1 es k = Some e -> cmp kx e <> 0)).
Proof.
  induction fuel as [|fuel IH]; intros m es key kx a b Ha Hk Hkl Hso Hab Hb Hf Hout; [lia|]. cbn [search_loop].
  destruct (Z.ltb_spec (array + a * size) (array + b * size)) as [Hlt|Hge]; cycle 1.
  { exists 0. split; [done|]. right. split; [done|]. intros k e He. apply (Hout k e He). nia. }
  assert (a < b) as Hab' by nia.
  replace ((array + b * size - (array + a * size)) / size) with (b - a).
  2:{ replace (array + b * size - (array + a * size)) with ((b - a) * size) by ring. by rewrite Z.div_mul by lia. }
  pose proof (Z.div_mod (b - a) 2 ltac:(lia)) as Ed. pose proof (Z.mod_pos_bound (b - a) 2 ltac:(lia)) as Hm.
  set (h := (b - a) / 2) in *. set (c := a + h). replace (array + a * size + h * size) with (array + (c + 1 - 1) * size) by (unfold c; ring).
  destruct (proj1 (nth1_Some es (c + 1))) as [e He]; [unfold c; lia|]. destruct (Ha (c + 1) e He) as [Hel Heb].
  erewrite bind_eq; [|by apply (Hcompare m key _ kx e)].
  assert (forall k k' x y, k < k' -> nth1 es k = Some x -> nth1 es k' = Some y -> cmp x y <= 0) as Hord.
  { intros k k' x y Hkk Hx Hy. pose proof (proj2 (nth1_Some es k) (ex_intro _ _ Hx)). pose proof (proj2 (nth1_Some es k') (ex_intro _ _ Hy)).
    unfold nth1 in Hx, Hy. rewrite (proj2 (Z.leb_le 1 k)) in Hx by lia. rewrite (proj2 (Z.leb_le 1 k')) in Hy by lia.
    apply (sorted_lookup (fun x y => cmp x y <= 0) es (Z.to_nat (k - 1)) (Z.to_nat (k' - 1)) x y); [done|done|done|lia]. }
  pose proof (cmp_flip cmp kx e) as Fl. pose proof (cmp_flip cmp e kx) as Fl'. destruct (Z.ltb_spec (cmp kx e) 0) as [Hl|Hg]; [|destruct (Z.gtb_spec (cmp kx e) 0)].
  - replace (array + (c + 1 - 1) * size) with (array + c * size) by ring. apply IH; [done..|unfold c; lia|unfold c; lia|unfold c; lia|].
    intros k x Hx Hr E. destruct (decide (k <= a \/ b < k)) as [?|Hin]; [by apply (Hout k x)|].
    assert (cmp e x <= 0) as Hex by (destruct (decide (k = c + 1)) as [->|]; [simplify_eq; by apply cmp_refl|apply (Hord (c + 1) k); done || lia]).
    pose proof (cmp_flip cmp x kx). pose proof (cmp_trans cmp e x kx Hex). lia.
  - replace (array + (c + 1 - 1) * size + size) with (array + (c + 1) * size) by ring. apply IH; [done..|unfold c; lia|lia|unfold c; lia|].
    intros k x Hx Hr E. destruct (decide (k <= a \/ b < k)) as [?|Hin]; [by apply (Hout k x)|].
    assert (cmp x e <= 0) as Hex by (destruct (decide (k = c + 1)) as [->|]; [simplify_eq; by apply cmp_refl|apply (Hord k (c + 1)); done || lia]).
    pose proof (cmp_flip cmp kx x). pose proof (cmp_trans cmp kx x e). lia.
  - eexists. split; [done|]. left. exists (c + 1), e. split; [done|]. split; [done|lia].
Qed.

End array.

End CStdlibFacts.

(** * lib/stdlib.c: the properties, with instances *)

Import CString CStringFacts CStringProps CStdlib CStdlibFacts.

Module CStdlibProps.

Implicit Types (m : mem) (es : list (list Z)).

(** for every comparison function whose sign is a total order of the elements'
    contents, [sort] (heap sort) terminates on every array that fits into memory twice
    over, leaves a sorted permutation of its elements in place, and changes no memory
    outside the array. *)
Theorem sort_correct (array size : Z) compare cmp m es :
  0 < size -> compares size compare cmp -> Ordering cmp ->
  array_at m array size es -> array <> 0 -> 2 * Z.of_nat (length es) * size < 2 ^ 32 - 1 ->
  exists m' es', sort compare array (Z.of_nat (length es)) size m = Ok (tt, m') /\
    array_at m' array size es' /\ Permutation es' es /\ StronglySorted (fun x y => cmp x y <= 0) es' /\
    same_outside m m' array size (length es).
Proof. intros Hs Hc Ho Ha Hz Hb. by apply sort_run. Qed.

(** on a sorted array [binary_search] terminates and returns the address of an
    element equal to the key, or null exactly when there is none. *)
Theorem binary_search_correct (array size : Z) compare cmp m es key kx :
  0 < size -> compares size compare cmp -> Ordering cmp ->
  array_at m array size es -> Z.of_nat (length es) * size < 2 ^ 32 -> StronglySorted (fun x y => cmp x y <= 0) es ->
  bytes_at m key kx -> Z.of_nat (length kx) = size ->
  exists r, binary_search compare key array (Z.of_nat (length es)) size m = Ok (r, m) /\
    ((exists k e, nth1 es k = Some e /\ r = array + (k - 1) * size /\ cmp kx e = 0) \/
     (r = 0 /\ forall k e, nth1 es k = Some e -> cmp kx e <> 0)).
Proof.
  intros Hs Hc Ho Ha Hb Hso Hk Hkl. unfold binary_search. rewrite wrapu_small by nia. rewrite (Z.mul_comm size).
  destruct (search_run array size compare cmp Hs Hc (S (Z.to_nat (Z.of_nat (length es)))) m es key kx 0 (Z.of_nat (length es)))
    as (r & E & Hr); [done..|lia|lia|lia| |].
  - intros k e He. pose proof (proj2 (nth1_Some es k) (ex_intro _ _ He)). lia.
  - exists r. rewrite Z.mul_0_l, Z.add_0_r in E. done.
Qed.

(** ** Instances: an array of bytes *)

Definition demo_compare (a b : Z) : M mem Z := let! x := load a in let! y := load b in ret (x - y).
Definition demo_cmp (x y : list Z) : Z := hd 0 x - hd 0 y.
Lemma demo_compares : compares 1 demo_compare demo_cmp.
Proof.
  intros m a b [|x [|? ?]] [|y [|? ?]] Hx Hy Ha Hb; cbn in Hx, Hy; try lia.
  apply bytes_at_cons in Ha as [Ha _]. apply bytes_at_cons in Hb as [Hb _]. unfold demo_compare.
  erewrite bind_eq; [|by apply mem_load_run]. by erewrite bind_eq; [|by apply mem_load_run].
Qed.
Lemma demo_ordering : Ordering demo_cmp.
Proof. split; unfold demo_cmp; lia. Qed.
Definition demo_bytes : mem := mem_of 100 [7; 3; 9; 3; 1].
Lemma demo_array : array_at demo_bytes 100 1 [[7]; [3]; [9]; [3]; [1]].
Proof.
  intros k e He. unfold nth1 in He. destruct (Z.leb_spec 1 k); [|done]. remember (Z.to_nat (k - 1)) as n eqn:En.
  replace (100 + (k - 1) * 1) with (100 + Z.of_nat n) by lia. clear k H En.
  do 5 (destruct n as [|n]; [injection He as <-; split; [done|]; apply bytes_at_cons; split; [done|apply bytes_at_nil]|]). done.
Qed.

Lemma sort_correct_witness :
  exists m' es', sort demo_compare 100 5 1 demo_bytes = Ok (tt, m') /\ array_at m' 100 1 es' /\
    Permutation es' [[7]; [3]; [9]; [3]; [1]] /\ StronglySorted (fun x y => demo_cmp x y <= 0) es' /\
    same_outside demo_bytes m' 100 1 5.
Proof.
  exact (sort_correct 100 1 demo_compare demo_cmp demo_bytes [[7]; [3]; [9]; [3]; [1]] ltac:(lia) demo_compares demo_ordering
    demo_array ltac:(lia) ltac:(vm_compute; reflexivity)).
Defined.

Definition demo_sorted : mem := <[50 := 7]> (mem_of 100 [1; 3; 7]).
Lemma demo_sorted_array : array_at demo_sorted 100 1 [[1]; [3]; [7]].
Proof.
  intros k e He. unfold nth1 in He. destruct (Z.leb_spec 1 k); [|done]. remember (Z.to_nat (k - 1)) as n eqn:En.
  replace (100 + (k - 1) * 1) with (100 + Z.of_nat n) by lia. clear k H En.
  do 3 (destruct n as [|n]; [injection He as <-; split; [done|]; apply bytes_at_cons; split; [done|apply bytes_at_nil]|]). done.
Qed.
Lemma binary_search_correct_witness :
  exists r, binary_search demo_compare 50 100 3 1 demo_sorted = Ok (r, demo_sorted) /\
    ((exists k e, nth1 [[1]; [3]; [7]] k = Some e /\ r = 100 + (k - 1) * 1 /\ demo_cmp [7] e = 0) \/
     (r = 0 /\ forall k e, nth1 [[1]; [3]; [7]] k = Some e -> demo_cmp [7] e <> 0)).
Proof.
  apply (binary_search_correct 100 1 demo_compare demo_cmp demo_sorted [[1]; [3]; [7]] 50 [7]).
  - lia.
  - exact demo_compares.
  - exact demo_ordering.
  - exact demo_sorted_array.
  - reflexivity.
  - repeat constructor; discriminate.
  - apply bytes_at_cons. split; [reflexivity|apply bytes_at_nil].
  - reflexivity.
Defined.

End CStdlibProps.
