(* ===== verification/Random.v ===== *)
(** * lib/random.c: the pseudo-random number generator

    The state of the cipher is an array of 256 bytes and two indices; a seed is a 32-bit
    number whose bytes are in memory with the lowest first. *)

From S2P Require Import Prelude Bytes CStdlibFacts.

Module Random.
Import Bytes.

Record rng := { s : list Z; s_i : Z; s_j : Z; inited : bool }.

Definition swap_byte (a b : Z) (l : list Z) : res (list Z) :=
  match l !! Z.to_nat a, l !! Z.to_nat b with
  | Some x, Some y => Ok (<[Z.to_nat b := x]> (<[Z.to_nat a := y]> l))
  | _, _ => Err WildAccess
  end.
Definition at_index (l : list Z) (i : Z) : res Z := match l !! Z.to_nat i with Some x => Ok x | None => Err WildAccess end.

Fixpoint init_loop (n : nat) (i j seed : Z) (l : list Z) : res (list Z) :=
  match n with
  | O => Ok l
  | S n =>
      rbind (at_index l i) (fun x =>
      rbind (at_index (le_encode 4 seed) (Z.rem i 4)) (fun p =>
      let j := u8 (j + x + p) in
      rbind (swap_byte i j l) (init_loop n (i + 1) j seed)))
  end.
Definition random_init (seed : Z) : M rng unit :=
  let! l := lift (init_loop 256 0 0 seed (seqZ 0 256)) in
  put {| s := l; s_i := 0; s_j := 0; inited := true |}.

Fixpoint bytes_loop (size : nat) : M rng (list Z) :=
  match size with
  | O => ret []
  | S size =>
      let! g := get in
      let i := u8 (s_i g + 1) in
      let! x := lift (at_index (s g) i) in
      let j := u8 (s_j g + x) in
      let! l := lift (swap_byte i j (s g)) in
      let! a := lift (at_index l i) in
      let! b := lift (at_index l j) in
      let! byte := lift (at_index l (u8 (a + b))) in
      do! put {| s := l; s_i := i; s_j := j; inited := inited g |};
      let! bs := bytes_loop size in
      ret (byte :: bs)
  end.
Definition random_bytes (size : nat) : M rng (list Z) :=
  let! i := gets inited in
  do! (if negb i then random_init 0 else ret tt);
  bytes_loop size.
Definition random_ulong : M rng Z := let! bs := random_bytes 4 in ret (le_decode bs).

(** ** The array stays a permutation *)

Definition permuted (l : list Z) : Prop := Permutation l (seqZ 0 256).
Record wf (g : rng) : Prop := { wf_s : inited g = true -> permuted (s g); wf_i : 0 <= s_i g < 256; wf_j : 0 <= s_j g < 256 }.

Lemma permuted_length l : permuted l -> length l = 256%nat.
Proof. intros H. by rewrite (Permutation_length H), length_seqZ. Qed.
Lemma at_index_run l i : permuted l -> 0 <= i < 256 -> exists x, at_index l i = Ok x /\ l !! Z.to_nat i = Some x /\ is_byte x.
Proof.
  intros H Hi. pose proof (permuted_length l H). destruct (lookup_lt_is_Some_2 l (Z.to_nat i)) as [x E]; [lia|]. exists x. unfold at_index. rewrite E. split; [done|]. split; [done|].
  apply list_elem_of_lookup_2 in E. unfold permuted in H. rewrite H in E. by apply elem_of_seqZ in E.
Qed.
Lemma swap_byte_run l a b : permuted l -> 0 <= a < 256 -> 0 <= b < 256 -> exists l', swap_byte a b l = Ok l' /\ permuted l'.
Proof.
  intros H Ha Hb. destruct (at_index_run l a H Ha) as (x & _ & Ex & _), (at_index_run l b H Hb) as (y & _ & Ey & _). unfold swap_byte. rewrite Ex, Ey. eexists. split; [reflexivity|].
  destruct (decide (a = b)) as [->|Hne].
  - assert (x = y) as -> by congruence. rewrite list_insert_insert_eq, list_insert_id; done.
  - unfold permuted in *. rewrite <- H. pose proof (CStdlibFacts.exchange_perm l (b + 1) (a + 1) ltac:(lia)) as P. unfold CStdlibFacts.exchange, CStdlibFacts.nth1 in P.
    rewrite (proj2 (Z.leb_le 1 (b + 1))), (proj2 (Z.leb_le 1 (a + 1))) in P by lia. replace (Z.to_nat (b + 1 - 1)) with (Z.to_nat b) in P by lia. replace (Z.to_nat (a + 1 - 1)) with (Z.to_nat a) in P by lia.
    by rewrite Ex, Ey in P.
Qed.

Lemma init_loop_run n : forall i j seed l, permuted l -> 0 <= i -> i + Z.of_nat n <= 256 -> exists l', init_loop n i j seed l = Ok l' /\ permuted l'.
Proof.
  induction n as [|n IH]; intros i j seed l H Hi Hn; cbn [init_loop]; [by exists l|]. destruct (at_index_run l i H ltac:(lia)) as (x & -> & _). cbn [rbind].
  assert (0 <= Z.rem i 4 < 4) as Hr by (rewrite Z.rem_mod_nonneg by lia; apply Z.mod_pos_bound; lia).
  destruct (lookup_lt_is_Some_2 (le_encode 4 seed) (Z.to_nat (Z.rem i 4))) as [p Ep]; [rewrite le_encode_length; lia|]. unfold at_index at 1. rewrite Ep. cbn [rbind].
  destruct (swap_byte_run l i (u8 (j + x + p)) H) as (l1 & -> & H1); [lia|apply wrapu_range; lia|]. cbn [rbind]. apply IH; [done|lia|lia].
Qed.
Lemma random_init_run seed g : exists l, random_init seed g = Ok (tt, {| s := l; s_i := 0; s_j := 0; inited := true |}) /\ permuted l.
Proof.
  destruct (init_loop_run 256 0 0 seed (seqZ 0 256)) as (l & E & H); [unfold permuted; reflexivity|lia|lia|]. exists l. split; [|done]. unfold random_init. rewrite E. done.
Qed.
Lemma bytes_loop_run n : forall g, wf g -> inited g = true -> exists bs g', bytes_loop n g = Ok (bs, g') /\ length bs = n /\ Forall is_byte bs /\ wf g' /\ inited g' = true.
Proof.
  induction n as [|n IH]; intros g Hw Hin; cbn [bytes_loop]; [by exists [], g|]. destruct Hw as [Hs Hi Hj]. specialize (Hs Hin). unfold get. rewrite (bind_eq _ _ _ _ _ eq_refl).
  assert (forall x, 0 <= u8 x < 256) as Hu by (intros; change 256 with (2 ^ 8); auto with words).
  destruct (at_index_run (s g) (u8 (s_i g + 1)) Hs (Hu _)) as (x & Ex & _). rewrite Ex. unfold lift at 1. rewrite (bind_eq _ _ _ _ _ eq_refl).
  destruct (swap_byte_run (s g) (u8 (s_i g + 1)) (u8 (s_j g + x)) Hs (Hu _) (Hu _)) as (l & El & Hl). rewrite El. unfold lift at 1. rewrite (bind_eq _ _ _ _ _ eq_refl).
  destruct (at_index_run l (u8 (s_i g + 1)) Hl (Hu _)) as (a & Ea & _). rewrite Ea. unfold lift at 1. rewrite (bind_eq _ _ _ _ _ eq_refl).
  destruct (at_index_run l (u8 (s_j g + x)) Hl (Hu _)) as (b & Eb & _). rewrite Eb. unfold lift at 1. rewrite (bind_eq _ _ _ _ _ eq_refl).
  destruct (at_index_run l (u8 (a + b)) Hl (Hu _)) as (y & Ey & _ & Hy). rewrite Ey. unfold lift at 1. do 2 rewrite (bind_eq _ _ _ _ _ eq_refl).
  destruct (IH {| s := l; s_i := u8 (s_i g + 1); s_j := u8 (s_j g + x); inited := inited g |}) as (bs & g' & E & Hbl & Hbs & Hw' & Hin'); [split; [done|apply Hu|apply Hu]|done|].
  exists (y :: bs), g'. rewrite (bind_eq _ _ _ _ _ E). split; [done|]. split; [cbn; lia|]. split; [by constructor|done].
Qed.

(** The bytes of one request are those of two shorter ones. *)
Lemma bytes_loop_app m n g : bytes_loop (m + n) g = (let! a := bytes_loop m in let! b := bytes_loop n in ret (a ++ b)) g.
Proof.
  revert g. induction m as [|m IH]; intros g; cbn [Nat.add bytes_loop].
  - rewrite (bind_eq _ _ _ _ _ eq_refl). unfold bind, ret. by destruct (bytes_loop n g) as [[b g']|f].
  - unfold bind, get, put, lift, ret. destruct (at_index (s g) (u8 (s_i g + 1))) as [x|f]; [|done]. destruct (swap_byte _ _ (s g)) as [l|f]; [|done].
    destruct (at_index l (u8 (s_i g + 1))) as [a|f]; [|done]. destruct (at_index l (u8 (s_j g + x))) as [b|f]; [|done]. destruct (at_index l (u8 (a + b))) as [y|f]; [|done].
    rewrite IH. unfold bind, ret. destruct (bytes_loop m _) as [[u g1]|f]; [|done]. by destruct (bytes_loop n g1) as [[v g2]|f].
Qed.

(** The array of the generator is a permutation of 0..255 at all times, whatever the seed
    and however many bytes are drawn, so that every index is valid: a request always returns
    as many bytes as were asked for, and drawing [m] bytes and then [n] gives the same as
    drawing [m + n]. *)
Theorem random_bytes_correct g m n : wf g -> exists a b g1 g2, random_bytes m g = Ok (a, g1) /\ random_bytes n g1 = Ok (b, g2) /\
  random_bytes (m + n) g = Ok (a ++ b, g2) /\ length a = m /\ length b = n /\ Forall is_byte (a ++ b) /\ wf g1 /\ wf g2 /\ permuted (s g1) /\ permuted (s g2).
Proof.
  intros Hw. assert (exists g0, (if negb (inited g) then random_init 0 else ret tt) g = Ok (tt, g0) /\ wf g0 /\ inited g0 = true) as (g0 & E0 & Hw0 & Hi0).
  { destruct (inited g) eqn:Hi; cbn [negb]; [by exists g|]. destruct (random_init_run 0 g) as (l & E & Hl). eexists. split; [exact E|]. split; [split; [intros _; exact Hl|cbn; lia|cbn; lia]|reflexivity]. }
  destruct (bytes_loop_run m g0 Hw0 Hi0) as (a & g1 & Ea & La & Ba & Hw1 & Hi1). destruct (bytes_loop_run n g1 Hw1 Hi1) as (b & g2 & Eb & Lb & Bb & Hw2 & Hi2).
  exists a, b, g1, g2. unfold random_bytes, gets. rewrite !(bind_eq _ _ _ _ _ eq_refl), Hi1. cbn [negb]. rewrite !(bind_eq _ _ _ _ _ E0), (bind_eq _ _ _ _ _ eq_refl). split; [done|]. split; [done|].
  split; [rewrite bytes_loop_app, (bind_eq _ _ _ _ _ Ea), (bind_eq _ _ _ _ _ Eb); done|]. split_and!; try done; [by apply Forall_app|by apply Hw1|by apply Hw2].
Qed.
Lemma random_bytes_correct_witness : exists a g', random_bytes 2 {| s := replicate 256 0; s_i := 0; s_j := 0; inited := false |} = Ok (a, g') /\ length a = 2%nat.
Proof.
  destruct (random_bytes_correct {| s := replicate 256 0; s_i := 0; s_j := 0; inited := false |} 2 1) as (a & b & g1 & g2 & E & _ & _ & L & _).
  - split; [discriminate|cbn; lia|cbn; lia].
  - exists a, g1. split; [exact E|exact L].
Defined.

End Random.
