(* ===== verification/Hash.v ===== *)
(** * lib/kernel/hash.c: hash tables

    An element is its address; the hash and comparison functions, with their auxiliary
    data, are parameters.  A bucket is the list of its elements, front first: what the
    operations of list.c do to it is the subject of [KListProps].  [malloc] for the new
    buckets of [rehash] succeeds or not as the argument [ok] says. *)

From S2P Require Import Prelude Bytes CString.
Import Bytes CString.

Module Hash.

Record hash := { elem_cnt : Z; buckets : list (list Z) }.
Definition bucket_cnt (h : hash) : Z := Z.of_nat (length (buckets h)).
Definition with_buckets (bs : list (list Z)) (h : hash) : hash := {| elem_cnt := elem_cnt h; buckets := bs |}.

(** ** Hash functions *)

Definition FNV_32_PRIME : Z := 16777619.
Definition FNV_32_BASIS : Z := 2166136261.
Definition fnv (hash byte : Z) : Z := Z.lxor (u32 (hash * FNV_32_PRIME)) byte.

Fixpoint hash_bytes_loop (size : nat) (buf hash : Z) : M mem Z :=
  match size with
  | O => ret hash
  | S size => let! b := load buf in hash_bytes_loop size (buf + 1) (fnv hash b)
  end.
Definition hash_bytes (buf size : Z) : M mem Z :=
  do! assert (negb (buf =? 0));
  hash_bytes_loop (Z.to_nat size) buf FNV_32_BASIS.
Fixpoint hash_string_loop (fuel : nat) (s hash : Z) : M mem Z :=
  match fuel with
  | O => fail OutOfFuel
  | S fuel => let! b := load s in if negb (b =? 0) then hash_string_loop fuel (s + 1) (fnv hash b) else ret hash
  end.
Definition hash_string (s : Z) : M mem Z :=
  do! assert (negb (s =? 0));
  let! fuel := limit in
  hash_string_loop fuel s FNV_32_BASIS.
(** The bytes of an [int], least significant first. *)
Definition hash_int (i : Z) : Z := fold_left fnv (le_encode 4 (u32 i)) FNV_32_BASIS.

(** ** The table *)

Section table.
Context (hash_func : Z -> Z) (less : Z -> Z -> bool).

Definition hash_clear (h : hash) : hash := {| elem_cnt := 0; buckets := map (fun _ => []) (buckets h) |}.
(** The elements in the order in which the destructor sees them. *)
Definition hash_clear_destroy (h : hash) : list Z * hash := (concat (buckets h), hash_clear h).
(** The elements the destructor sees before the buckets are freed. *)
Definition hash_destroy (destructor : bool) (h : hash) : list Z := if destructor then fst (hash_clear_destroy h) else [].
Definition hash_init (ok : bool) : option hash :=
  if ok then Some (hash_clear {| elem_cnt := 0; buckets := replicate 4 [] |}) else None.

Definition find_bucket (h : hash) (e : Z) : nat := Z.to_nat (Z.land (hash_func e) (bucket_cnt h - 1)).
Fixpoint find_elem (bucket : list Z) (e : Z) : option Z :=
  match bucket with
  | [] => None
  | hi :: bucket => if negb (less hi e) && negb (less e hi) then Some hi else find_elem bucket e
  end.

Definition turn_off_least_1bit (x : Z) : Z := Z.land x (u32 (x - 1)).
Definition is_power_of_2 (x : Z) : bool := negb (x =? 0) && (turn_off_least_1bit x =? 0).

Definition push_front (i : nat) (e : Z) (bs : list (list Z)) : list (list Z) := alter (cons e) i bs.
Definition insert_elem (i : nat) (e : Z) (h : hash) : hash :=
  {| elem_cnt := u32 (elem_cnt h + 1); buckets := push_front i e (buckets h) |}.
(** [list_remove] takes the element out of the bucket it is in. *)
Definition remove_elem (e : Z) (h : hash) : hash :=
  {| elem_cnt := u32 (elem_cnt h - 1); buckets := map (List.filter (fun x => negb (x =? e))) (buckets h) |}.

Definition BEST_ELEMS_PER_BUCKET : Z := 2.
Fixpoint power_loop (fuel : nat) (x : Z) : res Z :=
  match fuel with
  | O => Err OutOfFuel
  | S fuel => if negb (is_power_of_2 x) then power_loop fuel (turn_off_least_1bit x) else Ok x
  end.
(** Every round makes the number smaller. *)
Definition new_bucket_cnt (cnt : Z) : res Z :=
  let n := cnt / BEST_ELEMS_PER_BUCKET in
  let n := if n <? 4 then 4 else n in
  power_loop (S (Z.to_nat n)) n.
(** Move the elements of the old buckets, front first, to the front of the new ones. *)
Definition move_elem (h : hash) (e : Z) : hash := with_buckets (push_front (find_bucket h e) e (buckets h)) h.
Definition rehash (ok : bool) (h : hash) : res hash :=
  rbind (new_bucket_cnt (elem_cnt h)) (fun n =>
  if n =? bucket_cnt h then Ok h
  else if negb ok then Ok h
  else Ok (fold_left move_elem (concat (buckets h)) (with_buckets (replicate (Z.to_nat n) []) h))).

(** A table without buckets has no place for the element. *)
Definition bucket (h : hash) (i : nat) : res (list Z) :=
  match buckets h !! i with Some b => Ok b | None => Err WildAccess end.

Definition hash_insert (ok : bool) (new : Z) (h : hash) : res (option Z * hash) :=
  let i := find_bucket h new in
  rbind (bucket h i) (fun b =>
  let old := find_elem b new in
  let h := match old with None => insert_elem i new h | Some _ => h end in
  rbind (rehash ok h) (fun h => Ok (old, h))).

Definition hash_replace (ok : bool) (new : Z) (h : hash) : res (option Z * hash) :=
  let i := find_bucket h new in
  rbind (bucket h i) (fun b =>
  let old := find_elem b new in
  let h := match old with Some o => remove_elem o h | None => h end in
  rbind (rehash ok (insert_elem i new h)) (fun h => Ok (old, h))).

Definition hash_find (e : Z) (h : hash) : res (option Z) :=
  rbind (bucket h (find_bucket h e)) (fun b => Ok (find_elem b e)).

Definition hash_delete (ok : bool) (e : Z) (h : hash) : res (option Z * hash) :=
  rbind (bucket h (find_bucket h e)) (fun b =>
  match find_elem b e with
  | None => Ok (None, h)
  | Some found => rbind (rehash ok (remove_elem found h)) (fun h => Ok (Some found, h))
  end).

(** The elements in the order [hash_apply] calls its action on them. *)
Definition hash_apply (h : hash) : list Z := concat (buckets h).
Definition hash_size (h : hash) : Z := elem_cnt h.
Definition hash_empty (h : hash) : bool := elem_cnt h =? 0.

(** ** Iteration: the bucket and the number of elements of it already visited *)

Record hash_iterator := { it_bucket : nat; it_pos : nat }.
Definition hash_first : hash_iterator := {| it_bucket := 0; it_pos := 0 |}.
(** The first element of the buckets from [i] on. *)
Fixpoint next_bucket (i : nat) (bs : list (list Z)) : option (Z * hash_iterator) :=
  match bs with
  | [] => None
  | [] :: bs => next_bucket (S i) bs
  | (e :: _) :: _ => Some (e, {| it_bucket := i; it_pos := 1 |})
  end.
Definition hash_next (h : hash) (it : hash_iterator) : option (Z * hash_iterator) :=
  match buckets h !! it_bucket it with
  | None => None
  | Some b =>
      match b !! it_pos it with
      | Some e => Some (e, {| it_bucket := it_bucket it; it_pos := S (it_pos it) |})
      | None => next_bucket (S (it_bucket it)) (drop (S (it_bucket it)) (buckets h))
      end
  end.

End table.

End Hash.

(** * lib/kernel/hash.c: a hash table is a set of elements without equal ones *)

Import Hash.

Module HashFacts.

Section table.
Context (hash_func : Z -> Z) (less : Z -> Z -> bool).

(** Elements that the comparison function does not tell apart. *)
Definition same (x y : Z) : bool := negb (less x y) && negb (less y x).

(** What the two functions have to promise. *)
Class HashLaws : Prop := {
  hash_range : forall x, 0 <= hash_func x < 2 ^ 32;
  same_refl : forall x, same x x = true;
  same_trans : forall x y z, same x y = true -> same y z = true -> same x z = true;
  same_hash : forall x y, same x y = true -> hash_func x = hash_func y }.
Context `{HashLaws}.

Lemma same_sym x y : same x y = same y x.
Proof. unfold same. apply andb_comm. Qed.

Definition elems (h : hash) : list Z := concat (buckets h).

(** Every element is in the bucket its hash value says. *)
Definition placed (h : hash) : Prop :=
  forall i b e, buckets h !! i = Some b -> e ∈ b -> find_bucket hash_func h e = i.
Record wf (h : hash) : Prop := {
  wf_cnt : 1 <= bucket_cnt h;
  wf_placed : placed h;
  wf_size : elem_cnt h = Z.of_nat (length (elems h));
  wf_nodup : NoDup (elems h);
  wf_distinct : forall x y, x ∈ elems h -> y ∈ elems h -> same x y = true -> x = y }.

(** ** Buckets *)

Lemma find_bucket_lt h e : 1 <= bucket_cnt h -> (find_bucket hash_func h e < length (buckets h))%nat.
Proof.
  intros Hc. unfold find_bucket. unfold bucket_cnt in *. pose proof (hash_range e).
  assert (0 <= Z.land (hash_func e) (Z.of_nat (length (buckets h)) - 1) <= Z.of_nat (length (buckets h)) - 1); [|lia].
  split; [apply Z.land_nonneg; lia|apply land_le; lia].
Qed.
Lemma find_bucket_ext h h' e : length (buckets h') = length (buckets h) -> find_bucket hash_func h' e = find_bucket hash_func h e.
Proof. unfold find_bucket, bucket_cnt. by intros ->. Qed.
Lemma find_bucket_same h x y : same x y = true -> find_bucket hash_func h x = find_bucket hash_func h y.
Proof. intros E. unfold find_bucket. by rewrite (same_hash x y E). Qed.

Lemma find_elem_spec b e :
  match find_elem less b e with
  | Some x => x ∈ b /\ same x e = true
  | None => forall x, x ∈ b -> same x e = false
  end.
Proof.
  induction b as [|y b IH]; cbn [find_elem]; [by intros x ?%not_elem_of_nil|].
  change (negb (less y e) && negb (less e y)) with (same y e). destruct (same y e) eqn:E.
  - split; [apply list_elem_of_here|done].
  - destruct (find_elem less b e) as [x|].
    + destruct IH. split; [by apply list_elem_of_further|done].
    + intros x [->|Hx]%elem_of_cons; [done|by apply IH].
Qed.
Lemma elem_in_bucket h x : x ∈ elems h <-> exists i b, buckets h !! i = Some b /\ x ∈ b.
Proof.
  unfold elems. rewrite list_elem_of_In, in_concat. split.
  - intros (b & Hb & Hx). apply list_elem_of_In, list_elem_of_lookup in Hb as [i Hi]. exists i, b. by rewrite list_elem_of_In.
  - intros (i & b & Hi & Hx). exists b. rewrite <- !list_elem_of_In. split; [by apply list_elem_of_lookup_2 in Hi|done].
Qed.

(** The bucket of [e] shows whether an element like it is in the table. *)
Lemma bucket_find h e : wf h -> exists b,
  bucket h (find_bucket hash_func h e) = Ok b /\
  match find_elem less b e with
  | Some x => x ∈ elems h /\ same x e = true
  | None => forall x, x ∈ elems h -> same x e = false
  end.
Proof.
  intros Hw. destruct (lookup_lt_is_Some_2 (buckets h) (find_bucket hash_func h e)) as [b Hb]; [by apply find_bucket_lt, Hw|].
  exists b. unfold bucket. rewrite Hb. split; [done|]. pose proof (find_elem_spec b e) as Hf.
  destruct (find_elem less b e) as [x|].
  - destruct Hf as [Hx Hs]. split; [|done]. apply elem_in_bucket. eauto.
  - intros x Hx. apply elem_in_bucket in Hx as (i & b' & Hi & Hx). destruct (same x e) eqn:E; [|done].
    pose proof (wf_placed h Hw i b' x Hi Hx) as Ei. rewrite (find_bucket_same h x e E) in Ei. subst i.
    rewrite Hb in Hi. injection Hi as <-. rewrite <- E. by apply Hf.
Qed.

(** ** Insertion and removal *)

Lemma push_front_length i e bs : length (push_front i e bs) = length bs.
Proof. apply length_alter. Qed.
Lemma push_front_concat i e bs : (i < length bs)%nat -> Permutation (concat (push_front i e bs)) (e :: concat bs).
Proof.
  revert i. induction bs as [|b bs IH]; intros i Hi; cbn in Hi; [lia|]. destruct i as [|i]; [done|].
  cbn. change (b ++ concat (push_front i e bs) ≡ₚ e :: b ++ concat bs). rewrite IH by lia. symmetry. apply Permutation_middle.
Qed.
Lemma push_front_lookup i e bs j b : push_front i e bs !! j = Some b ->
  (exists b0, bs !! j = Some b0 /\ b = e :: b0 /\ i = j) \/ (bs !! j = Some b /\ i <> j).
Proof.
  unfold push_front. destruct (decide (i = j)) as [->|Hne].
  - rewrite list_lookup_alter_eq. destruct (bs !! j) as [b0|]; [|done]. intros [= <-]. left. eauto.
  - rewrite list_lookup_alter_ne by done. auto.
Qed.

Lemma placed_push h e : placed h -> placed (with_buckets (push_front (find_bucket hash_func h e) e (buckets h)) h).
Proof.
  intros Hp j b x Hj Hx. cbn in Hj.
  rewrite (find_bucket_ext h) by apply push_front_length. apply push_front_lookup in Hj as [(b0 & Hb0 & -> & <-)|[Hj Hne]]; [|by apply (Hp j b)].
  apply elem_of_cons in Hx as [->|Hx]; [done|by apply (Hp _ b0)].
Qed.

Lemma insert_wf h e : wf h -> (forall x, x ∈ elems h -> same x e = false) -> elem_cnt h + 1 < 2 ^ 32 ->
  wf (insert_elem (find_bucket hash_func h e) e h) /\ Permutation (elems (insert_elem (find_bucket hash_func h e) e h)) (e :: elems h).
Proof.
  intros Hw Hn Hlt. pose proof (push_front_concat _ e (buckets h) (find_bucket_lt h e (wf_cnt h Hw))) as Hperm.
  assert (forall x, x ∈ elems h -> same x e = true -> False) as Hn' by (intros x Hx E; rewrite (Hn x Hx) in E; done).
  split; [|exact Hperm]. split.
  - unfold bucket_cnt. cbn. rewrite push_front_length. apply Hw.
  - exact (placed_push h e (wf_placed h Hw)).
  - cbn. unfold elems. cbn. rewrite (Permutation_length Hperm). cbn. fold (elems h). rewrite (wf_size h Hw) in *.
    rewrite wrapu_small; lia.
  - unfold elems. cbn. rewrite Hperm. constructor; [|apply Hw]. intros He. by apply (Hn' e He), same_refl.
  - intros x y. unfold elems. cbn. rewrite Hperm. intros Hx Hy E. apply elem_of_cons in Hx as [->|Hx], Hy as [->|Hy]; [done| | |].
    + exfalso. apply (Hn' y Hy). by rewrite same_sym.
    + exfalso. by apply (Hn' x Hx).
    + by apply (wf_distinct h Hw).
Qed.

Lemma filter_out_elem (e : Z) l : e ∈ l -> NoDup l -> Permutation l (e :: List.filter (fun x => negb (x =? e)) l).
Proof.
  intros He. induction l as [|y l IH]; [by apply not_elem_of_nil in He|]. intros [Hn Hd]%NoDup_cons. cbn.
  destruct (Z.eqb_spec y e) as [->|Hne]; cbn [negb].
  - assert (List.filter (fun x => negb (x =? e)) l = l) as ->; [|done]. clear -Hn. induction l as [|z l IH]; [done|].
    apply not_elem_of_cons in Hn as [Hz Hn]. cbn. rewrite (proj2 (Z.eqb_neq z e)) by congruence. cbn. by rewrite IH.
  - apply elem_of_cons in He as [?|He]; [congruence|]. rewrite (IH He Hd) at 1. apply Permutation_swap.
Qed.
Lemma filter_out_concat (e : Z) bs :
  concat (map (List.filter (fun x => negb (x =? e))) bs) = List.filter (fun x => negb (x =? e)) (concat bs).
Proof. induction bs as [|b bs IH]; [done|]. cbn. by rewrite IH, List.filter_app. Qed.

Lemma remove_wf h e : wf h -> e ∈ elems h -> elem_cnt h < 2 ^ 32 -> wf (remove_elem e h) /\ Permutation (elems h) (e :: elems (remove_elem e h)).
Proof.
  intros Hw He Hlt. unfold elems. cbn. rewrite filter_out_concat. fold (elems h).
  pose proof (filter_out_elem e (elems h) He (wf_nodup h Hw)) as Hperm. split; [|exact Hperm].
  pose proof (wf_nodup h Hw) as Hnd. rewrite Hperm in Hnd. apply NoDup_cons in Hnd as [Hni Hnd]. split.
  - unfold bucket_cnt. cbn. rewrite length_map. apply Hw.
  - intros i b x Hi Hx. cbn in Hi. rewrite (find_bucket_ext h) by apply length_map. rewrite list_lookup_fmap in Hi.
    destruct (buckets h !! i) as [b0|] eqn:E; [|done]. injection Hi as <-. apply list_elem_of_In, filter_In in Hx as [Hx _].
    apply (wf_placed h Hw i b0); [done|]. by apply list_elem_of_In.
  - unfold elems. cbn. rewrite filter_out_concat. fold (elems h). pose proof (wf_size h Hw) as Hs. rewrite (Permutation_length Hperm) in Hs.
    cbn [length] in Hs. rewrite wrapu_small; lia.
  - unfold elems. cbn. by rewrite filter_out_concat.
  - intros x y. unfold elems. cbn. rewrite filter_out_concat. fold (elems h). intros Hx Hy. apply (wf_distinct h Hw); rewrite Hperm; by apply list_elem_of_further.
Qed.

(** ** Rehashing *)

Lemma turn_off_lt x : 0 < x < 2 ^ 32 -> 0 <= turn_off_least_1bit x < x.
Proof.
  intros Hx. unfold turn_off_least_1bit. rewrite wrapu_small by lia. split; [apply Z.land_nonneg; lia|].
  pose proof (land_le x (x - 1)). lia.
Qed.
Lemma power_loop_run fuel : forall x, 0 < x < 2 ^ 32 -> (Z.to_nat x < fuel)%nat ->
  exists n, power_loop fuel x = Ok n /\ 0 < n < 2 ^ 32 /\ is_power_of_2 n = true.
Proof.
  induction fuel as [|fuel IH]; intros x Hx Hf; [lia|]. cbn [power_loop]. destruct (is_power_of_2 x) eqn:E; cbn [negb]; [by exists x|].
  pose proof (turn_off_lt x Hx) as Ht. unfold is_power_of_2 in E. rewrite (proj2 (Z.eqb_neq x 0)) in E by lia. cbn in E.
  apply Z.eqb_neq in E. apply IH; lia.
Qed.
Lemma new_bucket_cnt_run c : 0 <= c < 2 ^ 32 -> exists n, new_bucket_cnt c = Ok n /\ 0 < n.
Proof.
  intros Hc. unfold new_bucket_cnt, BEST_ELEMS_PER_BUCKET. set (x := if c / 2 <? 4 then 4 else c / 2).
  assert (0 < x < 2 ^ 32) as Hx.
  { assert (c / 2 < 2 ^ 32) by (apply Z.div_lt_upper_bound; lia). unfold x. destruct (Z.ltb_spec (c / 2) 4); lia. }
  destruct (power_loop_run (S (Z.to_nat x)) x Hx) as (n & E & Hn & _); [lia|]. exists n. split; [done|lia].
Qed.

Lemma move_all l : forall h, 1 <= bucket_cnt h -> placed h ->
  let h' := fold_left (move_elem hash_func) l h in
  bucket_cnt h' = bucket_cnt h /\ placed h' /\ Permutation (elems h') (l ++ elems h) /\ elem_cnt h' = elem_cnt h.
Proof.
  induction l as [|e l IH]; intros h Hc Hp; [done|]. cbn [fold_left app].
  assert (bucket_cnt (move_elem hash_func h e) = bucket_cnt h) as Ec by (unfold bucket_cnt; cbn; by rewrite push_front_length).
  destruct (IH (move_elem hash_func h e)) as (E1 & P1 & Q1 & C1); [by rewrite Ec|by apply placed_push|].
  split; [congruence|]. split; [done|]. split; [|done]. rewrite Q1. unfold elems at 1. cbn.
  rewrite push_front_concat by (by apply find_bucket_lt). symmetry. apply Permutation_middle.
Qed.

Lemma rehash_run ok h : wf h -> elem_cnt h < 2 ^ 32 ->
  exists h', rehash hash_func ok h = Ok h' /\ wf h' /\ Permutation (elems h') (elems h).
Proof.
  intros Hw Hlt. unfold rehash. destruct (new_bucket_cnt_run (elem_cnt h)) as (n & En & Hn); [rewrite (wf_size h Hw) in *; lia|].
  rewrite En. cbn [rbind]. destruct (n =? bucket_cnt h); [by exists h|]. destruct ok; cbn [negb]; [|by exists h].
  set (h0 := with_buckets (replicate (Z.to_nat n) []) h).
  assert (bucket_cnt h0 = n) as E0 by (unfold bucket_cnt; cbn; rewrite length_replicate; lia).
  assert (placed h0) as Hp0. { intros i b e Hi He. apply lookup_replicate in Hi as [-> _]. by apply not_elem_of_nil in He. }
  assert (elems h0 = []) as El0. { unfold elems. cbn. clear. induction (Z.to_nat n) as [|k IHk]; [done|exact IHk]. }
  destruct (move_all (elems h) h0) as (E1 & P1 & Q1 & C1); [lia|done|]. rewrite El0, app_nil_r in Q1.
  eexists. split; [done|]. split; [|exact Q1]. fold (elems h). split.
  - lia.
  - exact P1.
  - rewrite C1. cbn. by rewrite (Permutation_length Q1), (wf_size h Hw).
  - rewrite Q1. apply Hw.
  - intros x y. rewrite Q1. apply (wf_distinct h Hw).
Qed.

End table.

End HashFacts.
