(* ===== verification/HashProps.v ===== *)
(** * lib/kernel/hash.c: a table behaves like a set

    The abstract set is a list without equal elements.  Whatever the sequence of operations
    and whichever of the allocations of [rehash] fail, the table gives the answers of the set. *)

From S2P Require Import Prelude Bytes Hash.
Import Bytes Hash HashFacts.

Module HashProps.

Inductive op :=
  | Insert (ok : bool) (e : Z)
  | Replace (ok : bool) (e : Z)
  | Delete (ok : bool) (e : Z)
  | Find (e : Z)
  | Clear.

Section table.
Context (hash_func : Z -> Z) (less : Z -> Z -> bool).
Notation same := (same less).
Notation wf := (wf hash_func less).

Definition exec (o : op) (h : hash) : res (option Z * hash) :=
  match o with
  | Insert ok e => hash_insert hash_func less ok e h
  | Replace ok e => hash_replace hash_func less ok e h
  | Delete ok e => hash_delete hash_func less ok e h
  | Find e => rbind (hash_find hash_func less e h) (fun r => Ok (r, h))
  | Clear => Ok (None, hash_clear h)
  end.
Fixpoint exec_all (ops : list op) (h : hash) : res (list (option Z) * hash) :=
  match ops with
  | [] => Ok ([], h)
  | o :: ops => rbind (exec o h) (fun '(r, h) => rbind (exec_all ops h) (fun '(rs, h) => Ok (r :: rs, h)))
  end.

(** ** The abstract set *)

Definition set_find (e : Z) (s : list Z) : option Z := List.find (fun x => same x e) s.
Definition set_without (e : Z) (s : list Z) : list Z := List.filter (fun x => negb (same x e)) s.
Definition set_exec (o : op) (s : list Z) : option Z * list Z :=
  match o with
  | Insert _ e => (set_find e s, match set_find e s with None => e :: s | Some _ => s end)
  | Replace _ e => (set_find e s, e :: set_without e s)
  | Delete _ e => (set_find e s, set_without e s)
  | Find e => (set_find e s, s)
  | Clear => (None, [])
  end.
Fixpoint set_exec_all (ops : list op) (s : list Z) : list (option Z) * list Z :=
  match ops with
  | [] => ([], s)
  | o :: ops => let '(r, s) := set_exec o s in let '(rs, s) := set_exec_all ops s in (r :: rs, s)
  end.

(** ** Refinement of one operation *)

Definition represents (h : hash) (s : list Z) : Prop := wf h /\ Permutation (elems h) s.

Context `{!HashLaws hash_func less}.

Lemma represents_find h s e : represents h s -> exists b,
  bucket h (find_bucket hash_func h e) = Ok b /\ find_elem less b e = set_find e s /\
  match set_find e s with
  | Some x => x ∈ elems h /\ same x e = true
  | None => forall x, x ∈ elems h -> same x e = false
  end.
Proof.
  intros [Hw Hp]. destruct (bucket_find hash_func less h e Hw) as (b & Hb & Hf). exists b. split; [done|].
  assert (find_elem less b e = set_find e s) as E; [|by rewrite <- E].
  unfold set_find. destruct (List.find _ s) as [y|] eqn:Ey.
  - apply find_some in Ey as [Hy Es]. apply list_elem_of_In in Hy. rewrite <- Hp in Hy.
    destruct (find_elem less b e) as [x|]; [|by rewrite (Hf y Hy) in Es]. f_equal. destruct Hf as [Hx Hs].
    apply (wf_distinct _ _ _ Hw); [done..|]. apply (same_trans hash_func less x e y Hs). by rewrite same_sym.
  - destruct (find_elem less b e) as [x|]; [|done]. destruct Hf as [Hx Hs]. rewrite Hp in Hx.
    apply list_elem_of_In in Hx. apply (find_none _ _ Ey) in Hx. by rewrite Hs in Hx.
Qed.

Lemma remove_found h s e x : represents h s -> elem_cnt h < 2 ^ 32 -> x ∈ elems h -> same x e = true ->
  represents (remove_elem x h) (set_without e s) /\ elem_cnt (remove_elem x h) = elem_cnt h - 1.
Proof.
  intros [Hw Hp] Hlt Hx Hs. destruct (remove_wf hash_func less h x Hw Hx Hlt) as [Hw' Hp'].
  assert (elems (remove_elem x h) = set_without e (elems h)) as E.
  { unfold elems at 1. cbn. rewrite filter_out_concat. apply filter_ext_in. intros y Hy. apply list_elem_of_In in Hy. f_equal.
    destruct (same y e) eqn:Ey.
    - apply Z.eqb_eq, (wf_distinct _ _ _ Hw); [done..|]. apply (same_trans hash_func less y e x Ey). by rewrite same_sym.
    - apply Z.eqb_neq. intros ->. by rewrite Hs in Ey. }
  split; [split; [done|]|].
  - rewrite E. unfold set_without. clear -Hp. induction Hp; cbn; repeat case_match; try done; try by constructor. by etrans.
  - pose proof (wf_size _ _ _ Hw). pose proof (wf_size _ _ _ Hw'). rewrite (Permutation_length Hp') in *. cbn [length] in *. lia.
Qed.
Lemma without_none e s : set_find e s = None -> set_without e s = s.
Proof.
  unfold set_find, set_without. induction s as [|x s IH]; [done|]. cbn. destruct (same x e); [done|]. intros E. cbn. by rewrite IH.
Qed.
Lemma without_other e s x : x ∈ set_without e s -> same x e = false.
Proof. intros Hx. apply list_elem_of_In, filter_In in Hx as [_ E]. by destruct (same x e). Qed.

Lemma insert_new h s e : represents h s -> elem_cnt h + 1 < 2 ^ 32 -> (forall x, x ∈ s -> same x e = false) ->
  represents (insert_elem (find_bucket hash_func h e) e h) (e :: s) /\ elem_cnt (insert_elem (find_bucket hash_func h e) e h) = elem_cnt h + 1.
Proof.
  intros [Hw Hp] Hlt Hn. destruct (insert_wf hash_func less h e Hw) as [Hw' Hp']; [|done|].
  { intros x. rewrite Hp. apply Hn. }
  split; [split; [done|by rewrite Hp', Hp]|]. pose proof (wf_size _ _ _ Hw). cbn. apply wrapu_small. lia.
Qed.
Lemma rehash_represents ok h s : represents h s -> elem_cnt h < 2 ^ 32 ->
  exists h', rehash hash_func ok h = Ok h' /\ represents h' s /\ elem_cnt h' = elem_cnt h.
Proof.
  intros [Hw Hp] Hlt. destruct (rehash_run hash_func less ok h Hw Hlt) as (h' & E & Hw' & Hp').
  exists h'. split; [done|]. split; [split; [done|by rewrite Hp']|].
  by rewrite (wf_size _ _ _ Hw), (wf_size _ _ _ Hw'), (Permutation_length Hp').
Qed.

Lemma exec_represents o h s : represents h s -> elem_cnt h + 1 < 2 ^ 32 ->
  exists h', exec o h = Ok (fst (set_exec o s), h') /\ represents h' (snd (set_exec o s)) /\ elem_cnt h' <= elem_cnt h + 1.
Proof.
  intros Hr Hlt. pose proof (wf_size _ _ _ (proj1 Hr)) as Hsz. destruct o as [ok e|ok e|ok e|e|]; cbn [exec set_exec fst snd].
  1-4: destruct (represents_find h s e Hr) as (b & Eb & Ef & Hs).
  - unfold hash_insert. rewrite Eb. cbn [rbind]. rewrite Ef. destruct (set_find e s) as [x|] eqn:Es.
    + destruct (rehash_represents ok h s Hr) as (h' & -> & Hr' & Ec); [lia|]. exists h'. split; [done|]. split; [done|lia].
    + destruct (insert_new h s e Hr Hlt) as [Hr1 E1]; [intros x; rewrite <- (proj2 Hr); apply Hs|].
      destruct (rehash_represents ok _ _ Hr1) as (h' & -> & Hr' & Ec); [lia|]. exists h'. split; [done|]. split; [done|lia].
  - unfold hash_replace. rewrite Eb. cbn [rbind]. rewrite Ef.
    set (h1 := match set_find e s with Some o => remove_elem o h | None => h end).
    assert (represents h1 (set_without e s) /\ 0 <= elem_cnt h1 <= elem_cnt h /\ find_bucket hash_func h1 e = find_bucket hash_func h e) as (Hr1 & Hc1 & Eb1).
    { subst h1. destruct (set_find e s) as [x|] eqn:Es; [|rewrite (without_none e s Es); repeat split; try apply Hr; lia].
      destruct Hs as [Hx Hs]. destruct (remove_found h s e x Hr) as [Hr1 E1]; [lia|done..|]. split; [done|].
      pose proof (wf_size _ _ _ (proj1 Hr1)). split; [lia|]. apply find_bucket_ext. cbn. apply length_map. }
    rewrite <- Eb1. destruct (insert_new h1 _ e Hr1) as [Hr2 E2]; [lia|apply without_other|].
    destruct (rehash_represents ok _ _ Hr2) as (h' & -> & Hr' & Ec); [lia|]. exists h'. split; [done|]. split; [done|lia].
  - unfold hash_delete. rewrite Eb. cbn [rbind]. rewrite Ef. destruct (set_find e s) as [x|] eqn:Es.
    + destruct Hs as [Hx Hs]. destruct (remove_found h s e x Hr) as [Hr1 E1]; [lia|done..|].
      destruct (rehash_represents ok _ _ Hr1) as (h' & -> & Hr' & Ec); [lia|]. exists h'. split; [done|]. split; [done|lia].
    + exists h. rewrite (without_none e s Es). split; [done|]. split; [done|lia].
  - unfold hash_find. rewrite Eb. cbn [rbind]. rewrite Ef. exists h. split; [done|]. split; [done|lia].
  - exists (hash_clear h). split; [done|]. split; [|cbn; lia].
    assert (elems (hash_clear h) = []) as E0. { unfold elems. cbn. clear. induction (buckets h) as [|b bs IH]; [done|exact IH]. }
    split; [|by rewrite E0]. split; rewrite ?E0; [|..|done|constructor|by intros x y ?%not_elem_of_nil].
    + unfold bucket_cnt. cbn. rewrite length_map. apply (wf_cnt _ _ _ (proj1 Hr)).
    + intros i b e Hi He. cbn in Hi. rewrite list_lookup_fmap in Hi. destruct (buckets h !! i); [|done]. injection Hi as <-. by apply not_elem_of_nil in He.
Qed.

Lemma exec_all_represents ops : forall h s, represents h s -> elem_cnt h + Z.of_nat (length ops) < 2 ^ 32 ->
  exists h', exec_all ops h = Ok (fst (set_exec_all ops s), h') /\ represents h' (snd (set_exec_all ops s)).
Proof.
  induction ops as [|o ops IH]; intros h s Hr Hlt; [by exists h|]. cbn [exec_all set_exec_all]. cbn [length] in Hlt.
  destruct (exec_represents o h s Hr) as (h1 & -> & Hr1 & Hc); [lia|]. cbn [rbind].
  destruct (set_exec o s) as [r s1]. cbn [fst snd] in *. destruct (IH h1 s1 Hr1) as (h' & -> & Hr'); [lia|].
  exists h'. by destruct (set_exec_all ops s1).
Qed.

End table.

(** ** Iteration *)

Fixpoint iterate (fuel : nat) (h : hash) (it : hash_iterator) : list Z :=
  match fuel with
  | O => []
  | S fuel => match hash_next h it with None => [] | Some (e, it) => e :: iterate fuel h it end
  end.

Definition rest (h : hash) (it : hash_iterator) : list Z :=
  drop (it_pos it) (default [] (buckets h !! it_bucket it)) ++ concat (drop (S (it_bucket it)) (buckets h)).

Lemma next_bucket_rest h i : match next_bucket i (drop i (buckets h)) with
  | None => concat (drop i (buckets h)) = []
  | Some (e, it) => concat (drop i (buckets h)) = e :: rest h it /\ (it_bucket it < length (buckets h))%nat
  end.
Proof.
  remember (drop i (buckets h)) as bs eqn:E. revert i E. induction bs as [|b bs IH]; intros i E; [done|].
  assert (buckets h !! i = Some b) as Hb by (rewrite <- (Nat.add_0_r i), <- lookup_drop, <- E; done).
  assert (bs = drop (S i) (buckets h)) as Es by (rewrite (drop_S _ b i Hb) in E; by injection E).
  destruct b as [|e b]; [by apply IH|]. cbn [next_bucket]. split; [|by apply lookup_lt_Some in Hb].
  unfold rest. cbn [it_bucket it_pos]. rewrite Hb, Es. done.
Qed.
Lemma hash_next_rest h it : (it_bucket it < length (buckets h))%nat -> match hash_next h it with
  | None => rest h it = []
  | Some (e, it') => rest h it = e :: rest h it' /\ (it_bucket it' < length (buckets h))%nat
  end.
Proof.
  intros Hlt. unfold hash_next. destruct (lookup_lt_is_Some_2 _ _ Hlt) as [b Hb]. rewrite Hb.
  destruct (b !! it_pos it) as [e|] eqn:Ep.
  - split; [|done]. unfold rest. cbn [it_bucket it_pos]. rewrite Hb. change (default [] (Some b)) with b. by rewrite (drop_S b e _ Ep).
  - pose proof (next_bucket_rest h (S (it_bucket it))) as Hn. assert (rest h it = concat (drop (S (it_bucket it)) (buckets h))) as ->; [|exact Hn].
    unfold rest. rewrite Hb. change (default [] (Some b)) with b. by rewrite (drop_ge b) by (by apply lookup_ge_None in Ep).
Qed.
Lemma iterate_rest h fuel : forall it, (it_bucket it < length (buckets h))%nat -> (length (rest h it) < fuel)%nat ->
  iterate fuel h it = rest h it.
Proof.
  induction fuel as [|fuel IH]; intros it Hlt Hf; [lia|]. cbn [iterate]. pose proof (hash_next_rest h it Hlt) as Hn.
  destruct (hash_next h it) as [[e it']|]; [|done]. destruct Hn as [E Hlt']. rewrite E in *. cbn [length] in Hf. f_equal. apply IH; [done|lia].
Qed.
Lemma iterate_apply h : 1 <= bucket_cnt h -> iterate (S (length (elems h))) h hash_first = hash_apply h.
Proof.
  unfold bucket_cnt. intros Hc. assert (rest h hash_first = elems h) as E.
  { unfold rest, elems. cbn. destruct (buckets h) as [|b bs]; [cbn in Hc; lia|]. cbn. by rewrite drop_0. }
  rewrite iterate_rest; rewrite ?E; [done|cbn; lia|lia].
Qed.

(** C18: a hash table refines a set without equal elements: starting from [hash_init], every
    sequence of fewer than 2^32 insertions, replacements, deletions, searches and clearings
    runs without fault and gives the answers the abstract set gives, whichever allocations
    of [rehash] fail; afterwards [hash_apply] and the iterator both visit exactly the
    elements of the set, once each, and [hash_size] and [hash_empty] count them.  The
    callbacks only have to hash equal elements alike and to compare them as equivalent. *)
Theorem hash_refines_set hash_func less (L : HashLaws hash_func less) ops :
  Z.of_nat (length ops) < 2 ^ 32 ->
  exists h0 h, hash_init true = Some h0 /\
  exec_all hash_func less ops h0 = Ok (fst (set_exec_all less ops []), h) /\
  Permutation (hash_apply h) (snd (set_exec_all less ops [])) /\ NoDup (hash_apply h) /\
  iterate (S (length (hash_apply h))) h hash_first = hash_apply h /\
  hash_size h = Z.of_nat (length (hash_apply h)) /\ (hash_empty h = true <-> hash_apply h = []).
Proof.
  intros Hlt. eexists. assert (represents hash_func less {| elem_cnt := 0; buckets := replicate 4 [] |} []) as H0.
  { split; [|done]. split; [done| |done|constructor|by intros x y ?%not_elem_of_nil].
    intros i b e Hi He. apply lookup_replicate in Hi as [-> _]. by apply not_elem_of_nil in He. }
  destruct (exec_all_represents hash_func less ops _ _ H0) as (h & E & [Hw Hp]); [exact Hlt|].
  exists h. split; [reflexivity|]. split; [exact E|]. change (hash_apply h) with (elems h). split; [done|]. split; [apply Hw|].
  split; [apply iterate_apply, Hw|]. split; [apply Hw|]. unfold hash_empty. rewrite (wf_size _ _ _ Hw), Z.eqb_eq. destruct (elems h); [done|]. cbn. split; [lia|done].
Qed.

(** Integers as their own elements, hashed by [hash_int]. *)
Lemma fnv_range l : forall z, 0 <= z < 2 ^ 32 -> Forall is_byte l -> 0 <= fold_left fnv l z < 2 ^ 32.
Proof.
  induction l as [|b l IH]; intros z Hz Hl; [done|]. inversion_clear Hl as [|?? Hb]. unfold is_byte in Hb. cbn. apply IH; [|done]. unfold fnv.
  auto with words lia.
Qed.
#[export] Instance int_laws : HashLaws hash_int Z.ltb.
Proof.
  split.
  - intros x. apply fnv_range; [done|apply le_encode_bytes].
  - intros x. unfold HashFacts.same. by rewrite Z.ltb_irrefl.
  - intros x y z. unfold HashFacts.same. lia.
  - intros x y. unfold HashFacts.same. intros E. f_equal. lia.
Qed.

Definition sample : list op :=
  map (fun i => Insert (negb (i =? 7)) (i * 3)) [1; 2; 3; 4; 5; 6; 7; 8; 9; 10; 11; 12; 5] ++ [Delete true 9; Replace false 12; Find 9; Find 30].
Lemma hash_refines_set_witness :
  Z.of_nat (length sample) < 2 ^ 32 /\ exists h, exec_all hash_int Z.ltb sample {| elem_cnt := 0; buckets := replicate 4 [] |} = Ok (fst (set_exec_all Z.ltb sample []), h) /\
  hash_size h = 11.
Proof.
  split; [reflexivity|]. destruct (hash_refines_set hash_int Z.ltb int_laws sample) as (h0 & h & E0 & E & Hp & _ & _ & Hs & _); [reflexivity|].
  injection E0 as <-. exists h. split; [exact E|]. rewrite Hs, (Permutation_length Hp). vm_compute. reflexivity.
Defined.

End HashProps.
