(* ===== verification/Stdio.v ===== *)
(** * lib/stdio.c: formatted output

    The format strings of the kernel are literals, so a format is its list of characters;
    the terminator is the end of the list.  A [va_list] is the list of the 32-bit words left
    on the stack: a 64-bit argument takes two of them, the low one first.  The function
    [output] with its auxiliary data, and how the caller's state contains the memory that
    [%s] reads, are parameters of the formatting code. *)

From stdpp Require Import strings.
From S2P Require Import Prelude CString CStdlib.
Import CString CStdlib.

Module Stdio.

(** The characters of a literal. *)
Fixpoint chars (s : string) : list Z :=
  match s with EmptyString => [] | String c s => Z.of_nat (Ascii.nat_of_ascii c) :: chars s end.

(** The character at the position of the format, the terminator at its end. *)
Definition cur (format : list Z) : Z := hd 0 format.

(** ** Conversions *)

Definition MINUS : Z := 1.
Definition PLUS : Z := 2.
Definition SPACE : Z := 4.
Definition POUND : Z := 8.
Definition ZERO : Z := 16.
Definition GROUP : Z := 32.

Inductive arg_type := CHAR | SHORT | INT | INTMAX | LONG | LONGLONG | PTRDIFFT | SIZET.
Record printf_conversion := { flags : Z; width : Z; precision : Z; type : arg_type }.
Record integer_base := { base : Z; digits : list Z; x_char : Z; group : Z }.

Definition base_d : integer_base := {| base := 10; digits := chars "0123456789"; x_char := 0; group := 3 |}.
Definition base_o : integer_base := {| base := 8; digits := chars "01234567"; x_char := 0; group := 3 |}.
Definition base_x : integer_base := {| base := 16; digits := chars "0123456789abcdef"; x_char := 120; group := 4 |}.
Definition base_X : integer_base := {| base := 16; digits := chars "0123456789ABCDEF"; x_char := 88; group := 4 |}.

(** Whether a flag is set. *)
Definition on (fs f : Z) : bool := negb (Z.land fs f =? 0).

(** [va_arg] of a 32-bit and of a 64-bit type. *)
Definition va_word (args : list Z) : res (Z * list Z) :=
  match args with w :: args => Ok (u32 w, args) | [] => Err WildAccess end.
Definition va_long (args : list Z) : res (Z * list Z) :=
  match args with lo :: hi :: args => Ok (u32 lo + 2 ^ 32 * u32 hi, args) | _ => Err WildAccess end.

Definition flag_of (ch : Z) : Z :=
  if ch =? 45 then MINUS else if ch =? 43 then PLUS else if ch =? 32 then SPACE
  else if ch =? 35 then POUND else if ch =? 48 then ZERO else if ch =? 39 then GROUP else 0.
Fixpoint parse_flags (format : list Z) (fs : Z) : Z * list Z :=
  match format with
  | ch :: rest => if flag_of ch =? 0 then (fs, format) else parse_flags rest (Z.lor fs (flag_of ch))
  | [] => (fs, [])
  end.
Fixpoint parse_number (format : list Z) (n : Z) : Z * list Z :=
  match format with
  | ch :: rest => if isdigit ch then parse_number rest (s32 (s32 (s32 (n * 10) + ch) - 48)) else (n, format)
  | [] => (n, [])
  end.
Definition parse_type (format : list Z) : arg_type * list Z :=
  let ch := cur format in
  let next := tl format in
  if ch =? 104 then if cur next =? 104 then (CHAR, tl next) else (SHORT, next)
  else if ch =? 106 then (INTMAX, next)
  else if ch =? 108 then if cur next =? 108 then (LONGLONG, tl next) else (LONG, next)
  else if ch =? 116 then (PTRDIFFT, next)
  else if ch =? 122 then (SIZET, next)
  else (INT, format).
(** An [int] given in the format, or by the next argument for [*]. *)
Definition parse_amount (format args : list Z) : res (Z * list Z * list Z) :=
  if cur format =? 42 then rbind (va_word args) (fun '(w, args) => Ok (s32 w, tl format, args))
  else let (n, format) := parse_number format 0 in Ok (n, format, args).

Definition parse_conversion (format args : list Z) : res (printf_conversion * list Z * list Z) :=
  let (fs, format) := parse_flags format 0 in
  let fs := if on fs MINUS then Z.ldiff fs ZERO else fs in
  let fs := if on fs PLUS then Z.ldiff fs SPACE else fs in
  rbind (parse_amount format args) (fun '(w, format, args) =>
  let fs := if w <? 0 then Z.lor fs MINUS else fs in
  let w := if w <? 0 then s32 (- w) else w in
  rbind (if cur format =? 46 then
           rbind (parse_amount (tl format) args) (fun '(p, format, args) =>
           Ok (if p <? 0 then -1 else p, format, args))
         else Ok (-1, format, args)) (fun '(p, format, args) =>
  let fs := if p >=? 0 then Z.ldiff fs ZERO else fs in
  let (t, format) := parse_type format in
  Ok ({| flags := fs; width := w; precision := p; type := t |}, format, args))).

(** The value of the next argument as [intmax_t] and as [uintmax_t]. *)
Definition signed_arg (t : arg_type) (args : list Z) : res (Z * list Z) :=
  match t with
  | CHAR => rbind (va_word args) (fun '(w, args) => Ok (wraps 8 w, args))
  | SHORT => rbind (va_word args) (fun '(w, args) => Ok (wraps 16 w, args))
  | INT | LONG | PTRDIFFT => rbind (va_word args) (fun '(w, args) => Ok (s32 w, args))
  | INTMAX | LONGLONG => rbind (va_long args) (fun '(w, args) => Ok (s64 w, args))
  | SIZET =>
      rbind (va_word args) (fun '(w, args) =>
      Ok (if w >? UINT32_MAX / 2 then w - UINT32_MAX - 1 else w, args))
  end.
Definition unsigned_arg (t : arg_type) (args : list Z) : res (Z * list Z) :=
  match t with
  | CHAR => rbind (va_word args) (fun '(w, args) => Ok (u8 w, args))
  | SHORT => rbind (va_word args) (fun '(w, args) => Ok (wrapu 16 w, args))
  | INT | LONG | SIZET => va_word args
  | INTMAX | LONGLONG => va_long args
  | PTRDIFFT =>
      rbind (va_word args) (fun '(w, args) =>
      Ok (Z.land (u64 (s32 w)) (Z.lor (u64 (Z.shiftl INT32_MAX 1)) 1), args))
  end.

(** ** Digits

    The buffer of [format_integer] is the list of the characters in it, the last one
    written first; it has room for 64. *)

Definition push (ch : Z) (buf : list Z) : res (list Z) :=
  if (length buf <? 64)%nat then Ok (ch :: buf) else Err WildAccess.
Definition digit (b : integer_base) (d : Z) : res Z :=
  match digits b !! Z.to_nat d with Some ch => Ok ch | None => Err WildAccess end.
Fixpoint digit_loop (fuel : nat) (grouped : bool) (b : integer_base) (value digit_cnt : Z) (buf : list Z) : res (list Z) :=
  match fuel with
  | O => Err OutOfFuel
  | S fuel =>
      if value >? 0 then
        rbind (if grouped && (digit_cnt >? 0) && (digit_cnt mod group b =? 0) then push 44 buf else Ok buf) (fun buf =>
        rbind (digit b (value mod base b)) (fun ch =>
        rbind (push ch buf) (fun buf =>
        digit_loop fuel grouped b (value / base b) (digit_cnt + 1) buf)))
      else Ok buf
  end.
Fixpoint precision_loop (fuel : nat) (prec : Z) (buf : list Z) : res (list Z) :=
  match fuel with
  | O => Err OutOfFuel
  | S fuel =>
      if (Z.of_nat (length buf) <? prec) && (Z.of_nat (length buf) <? 63) then
        rbind (push 48 buf) (precision_loop fuel prec)
      else Ok buf
  end.
(** The digits of a 64-bit number, at most one for each bit, and the zeros that reach
    the precision. *)
Definition integer_digits (value : Z) (b : integer_base) (c : printf_conversion) : res (list Z) :=
  rbind (digit_loop 65 (on (flags c) GROUP) b value 0 []) (fun buf =>
  rbind (precision_loop 65 (if precision c <? 0 then 1 else precision c) buf) (fun buf =>
  if on (flags c) POUND && (base b =? 8) && negb (cur buf =? 48) then push 48 buf else Ok buf)).

Definition sign_char (is_signed negative : bool) (fs : Z) : Z :=
  if is_signed then
    if on fs PLUS then if negative then 45 else 43
    else if on fs SPACE then if negative then 45 else 32
    else if negative then 45 else 0
  else 0.

(** ** Output *)

Section output.
Context {S : Type}.
Context (in_mem : forall A, M mem A -> M S A).
Context (output : Z -> M S unit).

Fixpoint output_times (ch : Z) (cnt : nat) : M S unit :=
  match cnt with O => ret tt | Datatypes.S cnt => do! output ch; output_times ch cnt end.
Definition output_dup (ch cnt : Z) : M S unit := output_times ch (Z.to_nat (u32 cnt)).
Fixpoint output_all (buf : list Z) : M S unit :=
  match buf with [] => ret tt | ch :: buf => do! output ch; output_all buf end.

Definition format_integer (value : Z) (is_signed negative : bool) (b : integer_base) (c : printf_conversion) : M S unit :=
  let sign := sign_char is_signed negative (flags c) in
  let x := if on (flags c) POUND && negb (value =? 0) then x_char b else 0 in
  let! buf := lift (integer_digits value b c) in
  let pad_cnt := s32 (width c - Z.of_nat (length buf) - (if negb (x =? 0) then 2 else 0) - (if negb (sign =? 0) then 1 else 0)) in
  let pad_cnt := if pad_cnt <? 0 then 0 else pad_cnt in
  do! (if negb (on (flags c) (Z.lor MINUS ZERO)) then output_dup 32 pad_cnt else ret tt);
  do! (if negb (sign =? 0) then output sign else ret tt);
  do! (if negb (x =? 0) then do! output 48; output x else ret tt);
  do! (if on (flags c) ZERO then output_dup 48 pad_cnt else ret tt);
  do! output_all buf;
  if on (flags c) MINUS then output_dup 32 pad_cnt else ret tt.

(** A string to format: a literal or local one, or one in memory. *)
Inductive text := Literal (xs : list Z) | At (p : Z).
Definition text_char (s : text) (i : Z) : M S Z :=
  match s with
  | Literal xs => match xs !! Z.to_nat i with Some ch => ret ch | None => fail WildAccess end
  | At p => in_mem _ (load (p + i))
  end.
Definition text_length (s : text) (maxlen : Z) : M S Z :=
  match s with
  | Literal xs => ret (Z.min (Z.of_nat (length xs)) maxlen)
  | At p => in_mem _ (strnlen p maxlen)
  end.
(** The characters from [i] on, [n] of them. *)
Fixpoint output_text (n : nat) (s : text) (i : Z) : M S unit :=
  match n with
  | O => ret tt
  | Datatypes.S n => let! ch := text_char s i in do! output ch; output_text n s (i + 1)
  end.
Definition format_string (s : text) (len : Z) (c : printf_conversion) : M S unit :=
  do! (if (width c >? len) && negb (on (flags c) MINUS) then output_dup 32 (width c - len) else ret tt);
  do! output_text (Z.to_nat len) s 0;
  if (width c >? len) && on (flags c) MINUS then output_dup 32 (width c - len) else ret tt.

(** The conversion that the character [ch] asks for, and the arguments left. *)
Definition convert (complain : list Z -> list Z -> M S unit) (ch : Z) (c : printf_conversion) (args : list Z) : M S (list Z) :=
  if (ch =? 100) || (ch =? 105) then
    let! (value, args) := lift (signed_arg (type c) args) in
    do! format_integer (u64 (if value <? 0 then - value else value)) true (value <? 0) base_d c;
    ret args
  else if (ch =? 111) || (ch =? 117) || (ch =? 120) || (ch =? 88) then
    let! (value, args) := lift (unsigned_arg (type c) args) in
    let b := if ch =? 111 then base_o else if ch =? 117 then base_d else if ch =? 120 then base_x else base_X in
    do! format_integer value false false b c;
    ret args
  else if ch =? 99 then
    let! (w, args) := lift (va_word args) in
    do! format_string (Literal [u8 w]) 1 c;
    ret args
  else if ch =? 115 then
    let! (p, args) := lift (va_word args) in
    let s := if p =? 0 then Literal (chars "(null)") else At p in
    let! len := text_length s (u32 (precision c)) in
    do! format_string s (s32 len) c;
    ret args
  else if ch =? 112 then
    let! (p, args) := lift (va_word args) in
    do! format_integer p false false base_x {| flags := POUND; width := width c; precision := precision c; type := type c |};
    ret args
  else if (ch =? 102) || (ch =? 101) || (ch =? 69) || (ch =? 103) || (ch =? 71) || (ch =? 110) then
    do! complain (chars "<<no %%%c in kernel>>") [ch]; ret args
  else do! complain (chars "<<no %%%c conversion>>") [ch]; ret args.

(** A conversion at the very end of the format lets the loop step over the terminator. *)
Fixpoint vprintf_loop (fuel : nat) (format args : list Z) : M S unit :=
  match fuel with
  | O => fail OutOfFuel
  | Datatypes.S fuel =>
      match format with
      | [] => ret tt
      | ch :: format =>
          if negb (ch =? 37) then do! output ch; vprintf_loop fuel format args
          else if cur format =? 37 then do! output 37; vprintf_loop fuel (tl format) args
          else
            let! (c, format, args) := lift (parse_conversion format args) in
            let! args := convert (vprintf_loop fuel) (cur format) c args in
            match format with
            | [] => fail WildAccess
            | _ :: format => vprintf_loop fuel format args
            end
      end
  end.
(** Every round takes a character of the format; the two messages have at most 22. *)
Definition __vprintf (format args : list Z) : M S unit := vprintf_loop (length format + 24) format args.

(** *** A dump of memory *)

Fixpoint print_times (n : nat) (format : list Z) : M S unit :=
  match n with O => ret tt | Datatypes.S n => do! __vprintf format []; print_times n format end.
(** The bytes at the columns from [i] on. *)
Fixpoint print_bytes (bs : list Z) (i : Z) : M S unit :=
  match bs with
  | [] => ret tt
  | b :: bs => do! __vprintf (chars "%02hhx%c") [b; if i =? 7 then 45 else 32]; print_bytes bs (i + 1)
  end.
Fixpoint print_ascii (bs : list Z) : M S unit :=
  match bs with
  | [] => ret tt
  | b :: bs => do! __vprintf (chars "%c") [if isprint b then b else 46]; print_ascii bs
  end.
(** Every round of the loop prints at least one byte. *)
Fixpoint hex_dump_loop (fuel : nat) (ofs : Z) (buf : list Z) (ascii : bool) : M S unit :=
  match buf with
  | [] => ret tt
  | _ =>
      match fuel with
      | O => fail OutOfFuel
      | Datatypes.S fuel =>
          let start := ofs mod 16 in
          let n := if 16 - start >? Z.of_nat (length buf) then Z.of_nat (length buf) else 16 - start in
          let bs := take (Z.to_nat n) buf in
          let rest := Z.to_nat (16 - (start + n)) in
          do! __vprintf (chars "%08jx  ") [ofs / 16 * 16; 0];
          do! print_times (Z.to_nat start) (chars "   ");
          do! print_bytes bs start;
          do! (if ascii then
                 do! print_times rest (chars "   ");
                 do! __vprintf (chars "|") [];
                 do! print_times (Z.to_nat start) (chars " ");
                 do! print_ascii bs;
                 do! print_times rest (chars " ");
                 __vprintf (chars "|") []
               else ret tt);
          do! __vprintf [10] [];
          hex_dump_loop fuel (u32 (ofs + n)) (drop (Z.to_nat n) buf) ascii
      end
  end.
Definition hex_dump (ofs : Z) (buf : list Z) (ascii : bool) : M S unit := hex_dump_loop (length buf) ofs buf ascii.

(** The number and its unit, the format written out with the unit in place of [%s]. *)
Fixpoint scale (factors : list (list Z)) (last : list Z) (size : Z) : Z * list Z :=
  match factors with
  | [] => (size, last)
  | next :: factors => if size >=? 1024 then scale factors next (size / 1024) else (size, last)
  end.
Definition print_human_readable_size (size : Z) : M S unit :=
  if size =? 1 then __vprintf (chars "1 byte") []
  else
    let '(n, unit) := scale [chars "kB"; chars "MB"; chars "GB"; chars "TB"] (chars "bytes") size in
    __vprintf (chars "%llu " ++ unit) [u32 n; n / 2 ^ 32].

End output.
Arguments Literal _ : clear implicits.

(** ** Output to a buffer *)

Record vsnprintf_aux := { p : Z; out_length : Z; max_length : Z }.

Definition vsnprintf_helper (ch : Z) : M (mem * vsnprintf_aux) unit := fun '(m, a) =>
  let a' := {| p := p a; out_length := s32 (out_length a + 1); max_length := max_length a |} in
  if out_length a <? max_length a then
    rbind (store (p a) (u8 ch) m) (fun '(_, m) =>
    Ok (tt, (m, {| p := p a + 1; out_length := out_length a'; max_length := max_length a |})))
  else Ok (tt, (m, a')).
Definition with_aux {A} (c : M mem A) : M (mem * vsnprintf_aux) A := fun '(m, a) =>
  match c m with Ok (x, m) => Ok (x, (m, a)) | Err f => Err f end.
Definition vsnprintf (buffer buf_size : Z) (format args : list Z) : M mem Z := fun m =>
  let aux := {| p := buffer; out_length := 0; max_length := s32 (if buf_size >? 0 then buf_size - 1 else 0) |} in
  rbind (__vprintf (@with_aux) vsnprintf_helper format args (m, aux)) (fun '(_, (m, a)) =>
  if buf_size >? 0 then rbind (store (p a) 0 m) (fun '(_, m) => Ok (out_length a, m))
  else Ok (out_length a, m)).
Definition snprintf (buffer buf_size : Z) (format args : list Z) : M mem Z := vsnprintf buffer buf_size format args.

End Stdio.
