(* ===== verification/StdioFacts.v ===== *)
(** * Facts about formatted output

    The digits that [integer_digits] produces, the text that [format_integer] writes, and a
    simulation between two ways of output: what one run prints, any other run prints, when
    the outputs are related. *)

From stdpp Require Import strings.
From S2P Require Import Prelude Bytes CString CStringFacts CStdlib Stdio.
Import CString CStringFacts CStdlib Stdio.

Module StdioFacts.

(** ** Digits *)

(** The value of a sequence of digits, the most significant one first. *)
Definition eval (b : Z) (ds : list Z) : Z := fold_left (fun acc d => acc * b + d) ds 0.
Definition digit_char (b : integer_base) (d : Z) : Z := nth (Z.to_nat d) (digits b) 0.
(** A base with a character for each of its digits. *)
Class GoodBase (b : integer_base) := {
  base_min : 8 <= base b;
  base_digits : length (digits b) = Z.to_nat (base b);
  base_group : 3 <= group b;
  base_zero : nth 0 (digits b) 0 = 48 }.

#[export] Instance base_d_good : GoodBase base_d.
Proof. by split. Qed.
#[export] Instance base_o_good : GoodBase base_o.
Proof. by split. Qed.
#[export] Instance base_x_good : GoodBase base_x.
Proof. by split. Qed.
#[export] Instance base_X_good : GoodBase base_X.
Proof. by split. Qed.

Lemma eval_app b xs ys : eval b (xs ++ ys) = fold_left (fun acc d => acc * b + d) ys (eval b xs).
Proof. apply fold_left_app. Qed.
Lemma eval_snoc b xs d : eval b (xs ++ [d]) = eval b xs * b + d.
Proof. by rewrite eval_app. Qed.
Lemma eval_zeros b n ds : eval b (replicate n 0 ++ ds) = eval b ds.
Proof.
  unfold eval. rewrite fold_left_app. f_equal. induction n as [|n IH]; [done|]. cbn [replicate fold_left]. by rewrite Z.mul_0_l.
Qed.

Section base.
Context (b : integer_base) {G : GoodBase b}.

Lemma digit_run d : 0 <= d < base b -> digit b d = Ok (digit_char b d).
Proof.
  intros Hd. unfold digit, digit_char. pose proof base_digits. destruct (lookup_lt_is_Some_2 (digits b) (Z.to_nat d)) as [ch E]; [lia|].
  rewrite E. f_equal. symmetry. by apply nth_lookup_Some.
Qed.

(** Without groups the buffer gets the digits of the value. *)
Lemma digit_loop_value fuel k : forall value cnt buf,
  0 <= value < base b ^ Z.of_nat k -> (k < fuel)%nat -> (k + length buf <= 64)%nat ->
  exists ds, digit_loop fuel false b value cnt buf = Ok (map (digit_char b) ds ++ buf) /\
    Forall (fun d => 0 <= d < base b) ds /\ eval (base b) ds = value /\ (length ds <= k)%nat /\
    (forall d ds', ds = d :: ds' -> d <> 0).
Proof.
  pose proof base_min as Hb. revert k. induction fuel as [|fuel IH]; intros k value cnt buf Hv Hk Hl; [lia|]. cbn [digit_loop].
  destruct (Z.gtb_spec value 0) as [Hp|Hp].
  2:{ exists []. split; [done|]. split; [constructor|]. split; [cbn; lia|]. split; [cbn; lia|done]. }
  destruct k as [|k]; [cbn in Hv; lia|]. rewrite Nat2Z.inj_succ, Z.pow_succ_r in Hv by lia.
  cbn [andb rbind]. rewrite (digit_run (value mod base b)) by (apply Z.mod_pos_bound; lia). cbn [rbind].
  unfold push. rewrite (proj2 (Nat.ltb_lt _ _)) by lia. cbn [rbind].
  destruct (IH k (value / base b) (cnt + 1) (digit_char b (value mod base b) :: buf)) as (ds & E & Hd & Hv' & Hn & Hz).
  { split; [apply Z.div_pos; lia|]. apply Z.div_lt_upper_bound; lia. }
  { lia. } { cbn. lia. }
  exists (ds ++ [value mod base b]). rewrite map_app, <- app_assoc. split; [exact E|].
  split; [apply Forall_app; split; [done|]; constructor; [apply Z.mod_pos_bound; lia|constructor]|].
  rewrite eval_snoc, Hv', length_app. split; [pose proof (Z.div_mod value (base b)); lia|]. split; [cbn; lia|].
  intros d ds' Ed. destruct ds as [|d0 ds0]; cbn in Ed; injection Ed as <- _; [|by eapply Hz].
  cbn in Hv'. pose proof (Z.div_mod value (base b)). lia.
Qed.

(** Every digit puts at most two characters into the buffer. *)
Lemma digit_loop_bounded fuel k : forall grouped value cnt buf,
  0 <= value < base b ^ Z.of_nat k -> (k < fuel)%nat -> (2 * k + length buf <= 64)%nat ->
  exists buf', digit_loop fuel grouped b value cnt buf = Ok buf' /\ (length buf' <= 2 * k + length buf)%nat.
Proof.
  pose proof base_min as Hb. revert k. induction fuel as [|fuel IH]; intros k grouped value cnt buf Hv Hk Hl; [lia|]. cbn [digit_loop].
  destruct (Z.gtb_spec value 0) as [Hp|Hp]; [|exists buf; split; [done|lia]].
  destruct k as [|k]; [cbn in Hv; lia|]. rewrite Nat2Z.inj_succ, Z.pow_succ_r in Hv by lia.
  set (buf1 := if grouped && (cnt >? 0) && (cnt mod group b =? 0) then 44 :: buf else buf).
  assert ((if grouped && (cnt >? 0) && (cnt mod group b =? 0) then push 44 buf else Ok buf) = Ok buf1) as ->.
  { unfold push, buf1. rewrite (proj2 (Nat.ltb_lt _ _)) by lia. by destruct (_ && _). }
  assert (length buf1 <= S (length buf))%nat as H1 by (unfold buf1; destruct (_ && _); cbn; lia).
  cbn [rbind]. rewrite (digit_run (value mod base b)) by (apply Z.mod_pos_bound; lia). cbn [rbind].
  unfold push. rewrite (proj2 (Nat.ltb_lt _ _)) by lia. cbn [rbind].
  destruct (IH k grouped (value / base b) (cnt + 1) (digit_char b (value mod base b) :: buf1)) as (buf' & E & Hn); [| |cbn; lia|].
  - split; [apply Z.div_pos; lia|]. apply Z.div_lt_upper_bound; lia.
  - lia.
  - exists buf'. split; [exact E|]. cbn in Hn. lia.
Qed.

(** A 64-bit number has at most 22 digits. *)
Lemma digits_bound value : 0 <= value < 2 ^ 64 -> 0 <= value < base b ^ Z.of_nat 22.
Proof.
  intros Hv. pose proof base_min. assert (8 ^ 22 <= base b ^ 22) by (apply Z.pow_le_mono_l; lia). change (Z.of_nat 22) with 22. lia.
Qed.
End base.

(** The zeros up to the precision, but for the last place of the buffer. *)
Lemma precision_loop_run fuel : forall prec buf, (length buf <= 63)%nat -> (63 < fuel + length buf)%nat ->
  precision_loop fuel prec buf =
    Ok (replicate (Z.to_nat (Z.min prec 63) - length buf) 48 ++ buf).
Proof.
  induction fuel as [|fuel IH]; intros prec buf Hl Hf; [lia|]. cbn [precision_loop].
  destruct (Z.ltb_spec (Z.of_nat (length buf)) prec), (Z.ltb_spec (Z.of_nat (length buf)) 63); cbn [andb];
    [|by replace (_ - _)%nat with 0%nat by lia..].
  unfold push. rewrite (proj2 (Nat.ltb_lt _ _)) by lia. cbn [rbind]. rewrite IH by (cbn; lia). f_equal.
  replace (Z.to_nat (Z.min prec 63) - length buf)%nat with (S (Z.to_nat (Z.min prec 63) - length (48%Z :: buf)))%nat by (cbn; lia).
  by rewrite replicate_S_end, <- app_assoc.
Qed.

Lemma integer_digits_fits b {G : GoodBase b} value c : 0 <= value < 2 ^ 64 ->
  exists buf, integer_digits value b c = Ok buf /\ (length buf <= 64)%nat.
Proof.
  intros Hv. unfold integer_digits.
  destruct (digit_loop_bounded b 65 22 (on (flags c) GROUP) value 0 []) as (buf & -> & Hn); [by apply digits_bound|lia|cbn; lia|].
  cbn [rbind length] in *. rewrite precision_loop_run by lia. cbn [rbind].
  set (buf' := replicate _ _ ++ buf). assert (length buf' <= 63)%nat.
  { unfold buf'. rewrite length_app, length_replicate. lia. }
  destruct (_ && _); [|exists buf'; split; [done|lia]]. unfold push. rewrite (proj2 (Nat.ltb_lt _ _)) by lia.
  eexists. split; [done|]. cbn. lia.
Qed.

(** ** Two runs with related outputs *)

(** Every successful run of the first computation is one of the second. *)
Definition sim {S1 S2 A} (R : S1 -> S2 -> Prop) (c1 : M S1 A) (c2 : M S2 A) : Prop :=
  forall s1 s2 a s1', R s1 s2 -> c1 s1 = Ok (a, s1') -> exists s2', c2 s2 = Ok (a, s2') /\ R s1' s2'.

#[global] Create HintDb sim.

Section simulation.
Context {S1 S2 : Type} (R : S1 -> S2 -> Prop).

Lemma sim_ret {A} (a : A) : sim R (ret a) (ret a).
Proof. intros s1 s2 x s1' HR [= -> ->]. by exists s2. Qed.
Lemma sim_fail {A} f (c : M S2 A) : sim R (fail f) c.
Proof. by intros s1 s2 x s1' HR. Qed.
Lemma sim_lift {A} (r : res A) : sim R (lift r) (lift r).
Proof. intros s1 s2 x s1' HR E. unfold lift in *. destruct r; [|done]. injection E as -> ->. by exists s2. Qed.
Lemma sim_bind {A B} (c1 : M S1 A) (c2 : M S2 A) (k1 : A -> M S1 B) (k2 : A -> M S2 B) :
  sim R c1 c2 -> (forall a, sim R (k1 a) (k2 a)) -> sim R (bind c1 k1) (bind c2 k2).
Proof.
  intros Hc Hk s1 s2 b s1'' HR E. apply bind_Ok in E as (a & s1' & E1 & E2).
  destruct (Hc s1 s2 a s1' HR E1) as (s2' & E1' & HR'). destruct (Hk a s1' s2' b s1'' HR' E2) as (s2'' & E2' & HR'').
  exists s2''. split; [|done]. erewrite bind_eq; [exact E2'|exact E1'].
Qed.
Lemma sim_if {A} (b : bool) (c1 d1 : M S1 A) (c2 d2 : M S2 A) :
  sim R c1 c2 -> sim R d1 d2 -> sim R (if b then c1 else d1) (if b then c2 else d2).
Proof. by destruct b. Qed.

Hint Resolve sim_ret sim_fail sim_lift sim_bind sim_if : sim.

Context (in1 : forall A, M mem A -> M S1 A) (in2 : forall A, M mem A -> M S2 A).
Context (output1 : Z -> M S1 unit) (output2 : Z -> M S2 unit).
Hypothesis sim_output : forall ch, sim R (output1 ch) (output2 ch).
Hypothesis sim_load : forall a, sim R (in1 _ (load a)) (in2 _ (load a)).
Hypothesis sim_strnlen : forall a n, sim R (in1 _ (strnlen a n)) (in2 _ (strnlen a n)).
Hint Resolve sim_output sim_load sim_strnlen : sim.

Lemma sim_output_dup ch cnt : sim R (output_dup output1 ch cnt) (output_dup output2 ch cnt).
Proof. unfold output_dup. induction (Z.to_nat _) as [|n IH]; cbn; auto with sim. Qed.
Lemma sim_output_all buf : sim R (output_all output1 buf) (output_all output2 buf).
Proof. induction buf as [|ch buf IH]; cbn; auto with sim. Qed.
Hint Resolve sim_output_dup sim_output_all : sim.

Lemma sim_format_integer value sg neg b c :
  sim R (format_integer output1 value sg neg b c) (format_integer output2 value sg neg b c).
Proof. unfold format_integer. auto 20 with sim. Qed.

Lemma sim_text_char t i : sim R (text_char in1 t i) (text_char in2 t i).
Proof. destruct t; cbn; [destruct (_ !! _)|]; auto with sim. Qed.
Lemma sim_text_length t n : sim R (text_length in1 t n) (text_length in2 t n).
Proof. destruct t; cbn; auto with sim. Qed.
Lemma sim_output_text n : forall t i, sim R (output_text in1 output1 n t i) (output_text in2 output2 n t i).
Proof. induction n as [|n IH]; intros t i; cbn; [auto with sim|]. apply sim_bind; [apply sim_text_char|]. auto with sim. Qed.
Hint Resolve sim_format_integer sim_text_length sim_output_text : sim.
Lemma sim_format_string t len c :
  sim R (format_string in1 output1 t len c) (format_string in2 output2 t len c).
Proof. unfold format_string. auto 20 with sim. Qed.
Hint Resolve sim_format_string : sim.

Lemma sim_convert k1 k2 ch c args : (forall f a, sim R (k1 f a) (k2 f a)) ->
  sim R (convert in1 output1 k1 ch c args) (convert in2 output2 k2 ch c args).
Proof.
  intros Hk. unfold convert.
  repeat (apply sim_if; [repeat first [apply sim_ret|apply sim_bind; [auto with sim|intros []]]|]); auto with sim.
Qed.
Lemma sim_vprintf_loop fuel : forall format args,
  sim R (vprintf_loop in1 output1 fuel format args) (vprintf_loop in2 output2 fuel format args).
Proof.
  induction fuel as [|fuel IH]; intros format args; cbn [vprintf_loop]; [auto with sim|].
  destruct format as [|ch format]; [auto with sim|]. repeat apply sim_if; [auto with sim..|].
  apply sim_bind; [auto with sim|]. intros [[c f] a]. apply sim_bind; [by apply sim_convert|].
  intros a'. destruct f; auto with sim.
Qed.
End simulation.

(** ** The printed text and the buffer *)

(** What a call prints, the strings read from memory that does not change; the number of
    characters has to fit an [int]. *)
Definition log_output (ch : Z) : M (mem * list Z) unit := fun '(m, log) =>
  if Z.of_nat (length log) <? INT32_MAX then Ok (tt, (m, log ++ [u8 ch])) else Err WildAccess.
Definition with_log {A} (c : M mem A) : M (mem * list Z) A := fun '(m, log) =>
  match c m with Ok (x, m) => Ok (x, (m, log)) | Err f => Err f end.
Definition printed (m : mem) (format args : list Z) : res (list Z) :=
  rbind (__vprintf (@with_log) log_output format args (m, [])) (fun '(_, (_, log)) => Ok log).

(** The memory without the [n] bytes from [a] on. *)
Definition outside (m : mem) (a n : Z) : mem := filter (fun '(x, _) => x < a \/ a + n <= x) m.
Lemma outside_lookup m a n x v : outside m a n !! x = Some v <-> m !! x = Some v /\ (x < a \/ a + n <= x).
Proof. unfold outside. apply map_lookup_filter_Some. Qed.

Section buffer.
Context (m0 : mem) (buffer n : Z).

(** The buffer has the beginning of what is printed. *)
Definition buffered (s1 : mem * list Z) (s2 : mem * vsnprintf_aux) : Prop :=
  let '(m1, log) := s1 in let '(m2, a) := s2 in
  let k := Z.min (Z.of_nat (length log)) (n - 1) in
  m1 = outside m0 buffer n /\ (forall x, x < buffer \/ buffer + n <= x -> m2 !! x = m0 !! x) /\ mapped m2 buffer n /\
  out_length a = Z.of_nat (length log) /\ Z.of_nat (length log) <= INT32_MAX /\ max_length a = n - 1 /\
  p a = buffer + k /\ bytes_at m2 buffer (take (Z.to_nat (n - 1)) log).

Lemma buffered_output ch : sim buffered (log_output ch) (vsnprintf_helper ch).
Proof.
  intros [m1 log] [m2 a] u [m1' log'] (-> & Ho & Hm & Hlen & Hmax & HM & Hp & Hb) E. cbn in E.
  destruct (Z.ltb_spec (Z.of_nat (length log)) INT32_MAX) as [Hl|]; [|done]. injection E as <- <- <-.
  cbn [vsnprintf_helper]. rewrite Hlen, HM. unfold INT32_MAX in *.
  assert (s32 (Z.of_nat (length log) + 1) = Z.of_nat (length log) + 1) as Es by (apply wraps_small; lia).
  destruct (Z.ltb_spec (Z.of_nat (length log)) (n - 1)) as [Hk|Hk].
  - rewrite Hp, Z.min_l in * by lia. rewrite mem_store_run by (apply Hm; lia). cbn [rbind]. eexists. split; [done|].
    cbn -[take]. rewrite length_app, Es. cbn [length]. split; [done|]. split.
    { intros x Hx. rewrite lookup_insert_ne by lia. by apply Ho. }
    split; [by apply mapped_insert|]. split; [lia|]. split; [unfold INT32_MAX; lia|]. split; [done|]. split; [lia|].
    rewrite take_ge in * by (rewrite ?length_app; cbn; lia). apply bytes_at_app. split.
    + eapply bytes_at_ext; [|exact Hb]. intros x Hx. apply lookup_insert_ne. lia.
    + apply bytes_at_cons. split; [apply lookup_insert_eq|apply bytes_at_nil].
  - eexists. split; [done|]. cbn -[take]. rewrite length_app, Es. cbn [length].
    split; [done|]. split; [done|]. split; [done|]. split; [lia|]. split; [unfold INT32_MAX; lia|]. split; [done|].
    split; [lia|]. by rewrite take_app_le by lia.
Qed.

Lemma buffered_read {A} (c : M mem A) : (forall m m' x m1, m ⊆ m' -> c m = Ok (x, m1) -> m1 = m /\ c m' = Ok (x, m')) ->
  sim buffered (with_log c) (with_aux c).
Proof.
  intros Hc [m1 log] [m2 a] x [m1' log'] HR E. unfold with_log in E. destruct (c m1) as [[y my]|f] eqn:Ec; [|done].
  injection E as <- <- <-. destruct (Hc m1 m2 y my) as [-> E2]; [|done|].
  - destruct HR as (-> & Ho & _). apply map_subseteq_spec. intros i v Hi. apply outside_lookup in Hi as [Hi Hx]. by rewrite Ho.
  - unfold with_aux. rewrite E2. by eexists.
Qed.
Lemma load_incl m m' a x m1 : m ⊆ m' -> load a m = Ok (x, m1) -> m1 = m /\ load a m' = Ok (x, m').
Proof.
  intros Hs E. unfold load in *. destruct (m !! a) as [v|] eqn:Ev; [|done]. injection E as <- <-. split; [done|].
  by rewrite (lookup_weaken _ _ _ _ Ev Hs).
Qed.
Lemma strnlen_loop_incl f f' a N k m m' x m1 : m ⊆ m' -> (f <= f')%nat ->
  strnlen_loop f a N k m = Ok (x, m1) -> m1 = m /\ strnlen_loop f' a N k m' = Ok (x, m').
Proof.
  intros Hs. revert f' k. induction f as [|f IH]; intros f' k Hf E; [done|]. destruct f' as [|f']; [lia|]. cbn [strnlen_loop] in *.
  apply bind_Ok in E as (v & m2 & E1 & E2). destruct (load_incl _ _ _ _ _ Hs E1) as [-> E1']. erewrite bind_eq; [|exact E1'].
  destruct (_ && _); [apply IH; [lia|done]|]. by injection E2 as <- <-.
Qed.
Lemma strnlen_incl a N m m' x m1 : m ⊆ m' -> strnlen a N m = Ok (x, m1) -> m1 = m /\ strnlen a N m' = Ok (x, m').
Proof. intros Hs. apply strnlen_loop_incl; [done|]. apply le_n_S. by apply map_subseteq_size. Qed.

Lemma buffered_vprintf fuel format args :
  sim buffered (vprintf_loop (@with_log) log_output fuel format args) (vprintf_loop (@with_aux) vsnprintf_helper fuel format args).
Proof.
  apply sim_vprintf_loop; intros.
  - apply buffered_output.
  - apply buffered_read. intros. by eapply load_incl.
  - apply buffered_read. intros. by eapply strnlen_incl.
Qed.
End buffer.

(** The buffer gets what is printed, cut to its size, and the terminator. *)
Lemma vsnprintf_run m buffer n format args cs : 0 < n <= INT32_MAX -> mapped m buffer n ->
  printed (outside m buffer n) format args = Ok cs ->
  exists m', vsnprintf buffer n format args m = Ok (Z.of_nat (length cs), m') /\
    bytes_at m' buffer (take (Z.to_nat (n - 1)) cs ++ [0]) /\
    mapped m' buffer n /\ (forall x, x < buffer \/ buffer + n <= x -> m' !! x = m !! x).
Proof.
  intros Hn Hm E. unfold printed in E. destruct (__vprintf _ _ _ _ _) as [[[] [m1 log]]|f] eqn:Ep; [|done]. injection E as ->.
  unfold vsnprintf. set (a0 := {| p := _ |}).
  destruct (buffered_vprintf m buffer n (length format + 24) format args (outside m buffer n, []) (m, a0) tt (m1, cs)) as ([m2 a] & E2 & HR); [|exact Ep|].
  { unfold a0. cbn. split; [done|]. split; [done|]. split; [done|]. split; [done|]. split; [done|].
    rewrite (proj2 (Z.gtb_lt n 0)) by lia. unfold INT32_MAX in *. split; [apply wraps_small; lia|]. split; [lia|]. rewrite take_nil. apply bytes_at_nil. }
  unfold __vprintf. rewrite E2. cbn [rbind]. rewrite (proj2 (Z.gtb_lt n 0)) by lia.
  destruct HR as (-> & Ho & Hm2 & Hl & _ & _ & Hp & Hb). rewrite Hp. rewrite mem_store_run by (apply Hm2; lia). cbn [rbind]. rewrite Hl.
  eexists. split; [done|]. assert (Z.of_nat (length (take (Z.to_nat (n - 1)) cs)) = Z.min (Z.of_nat (length cs)) (n - 1)) as El
    by (rewrite length_take; lia). split.
  - apply bytes_at_app. rewrite El. split.
    + eapply bytes_at_ext; [|exact Hb]. intros x Hx. apply lookup_insert_ne. lia.
    + apply bytes_at_cons. split; [apply lookup_insert_eq|apply bytes_at_nil].
  - split; [by apply mapped_insert|]. intros x Hx. rewrite lookup_insert_ne by lia. by apply Ho.
Qed.

(** ** The text of an integer *)

Lemma bind_ext {S A B} (c c' : M S A) (k k' : A -> M S B) s :
  (forall s, c s = c' s) -> (forall a s, k a s = k' a s) -> bind c k s = bind c' k' s.
Proof. intros Hc Hk. unfold bind. rewrite Hc. by destruct (c' s) as [[a s']|f]. Qed.

Section text.
Context {S : Type} (output : Z -> M S unit).

Lemma output_all_app xs ys s : output_all output (xs ++ ys) s = bind (output_all output xs) (fun _ => output_all output ys) s.
Proof.
  revert s. induction xs as [|x xs IH]; intros s; [done|]. cbn. unfold bind at 1 2 3. destruct (output x s) as [[u s']|f]; [|done].
  by rewrite IH.
Qed.
Lemma output_times_all ch n s : output_times output ch n s = output_all output (replicate n ch) s.
Proof. revert s. induction n as [|n IH]; intros s; [done|]. cbn. unfold bind. destruct (output ch s) as [[u s']|f]; [apply IH|done]. Qed.
Lemma output_one ch s : output ch s = output_all output [ch] s.
Proof. cbn. unfold bind. by destruct (output ch s) as [[[] s']|f]. Qed.
End text.

Definition pad_count (c : printf_conversion) (buf : list Z) (x sign : Z) : Z :=
  Z.max 0 (s32 (width c - Z.of_nat (length buf) - (if negb (x =? 0) then 2 else 0) - (if negb (sign =? 0) then 1 else 0))).
(** Blanks or zeros up to the width, the sign, [0x], and the digits. *)
Definition integer_text (value : Z) (is_signed negative : bool) (b : integer_base) (c : printf_conversion) (buf : list Z) : list Z :=
  let sign := sign_char is_signed negative (flags c) in
  let x := if on (flags c) POUND && negb (value =? 0) then x_char b else 0 in
  let pad := fun ch => replicate (Z.to_nat (pad_count c buf x sign)) ch in
  (if negb (on (flags c) (Z.lor MINUS ZERO)) then pad 32 else []) ++
  (if negb (sign =? 0) then [sign] else []) ++ (if negb (x =? 0) then [48; x] else []) ++
  (if on (flags c) ZERO then pad 48 else []) ++ buf ++ (if on (flags c) MINUS then pad 32 else []).

Lemma pad_count_word c buf x sign : u32 (pad_count c buf x sign) = pad_count c buf x sign.
Proof. apply wrapu_small. unfold pad_count. pose proof (wraps_range 32 (width c - Z.of_nat (length buf) - (if negb (x =? 0) then 2 else 0) - (if negb (sign =? 0) then 1 else 0))). lia. Qed.

Lemma format_integer_text {S} (output : Z -> M S unit) value sg neg b c buf s : integer_digits value b c = Ok buf ->
  format_integer output value sg neg b c s = output_all output (integer_text value sg neg b c buf) s.
Proof.
  intros E. unfold format_integer, integer_text. cbv zeta. rewrite E. erewrite bind_eq; [|done].
  set (sign := sign_char _ _ _). set (x := if _ && _ then _ else _).
  set (q := s32 _). assert ((if q <? 0 then 0 else q) = pad_count c buf x sign) as ->.
  { unfold pad_count. fold q. destruct (Z.ltb_spec q 0); lia. }
  unfold output_dup. rewrite pad_count_word. set (n := Z.to_nat _). clearbody n. clear q. clearbody x sign.
  repeat (rewrite output_all_app; apply bind_ext; [intros ?|intros [] ?]).
  - destruct (negb (on _ _)); [apply output_times_all|done].
  - destruct (negb _); [apply output_one|done].
  - destruct (negb _); [|done]. cbn. apply bind_ext; [done|intros [] ?]. apply output_one.
  - destruct (on _ _); [apply output_times_all|done].
  - done.
  - destruct (on _ _); [apply output_times_all|done].
Qed.

(** ** Printing a decimal number *)

Lemma output_all_log m cs : forall log, Z.of_nat (length log + length cs) <= INT32_MAX ->
  output_all log_output cs (m, log) = Ok (tt, (m, log ++ map u8 cs)).
Proof.
  induction cs as [|ch cs IH]; intros log Hl; cbn [output_all map]; [by rewrite app_nil_r|]. cbn in Hl.
  erewrite bind_eq; [|cbn; rewrite (proj2 (Z.ltb_lt _ _)) by lia; done].
  rewrite IH by (rewrite length_app; cbn; lia). by rewrite <- app_assoc.
Qed.

Lemma format_integer_log m value sg neg b c buf : integer_digits value b c = Ok buf ->
  Z.of_nat (length (integer_text value sg neg b c buf)) <= INT32_MAX ->
  format_integer log_output value sg neg b c (m, []) = Ok (tt, (m, map u8 (integer_text value sg neg b c buf))).
Proof. intros E Hl. rewrite (format_integer_text _ _ _ _ _ _ buf) by done. by rewrite output_all_log. Qed.

(** The digits in a conversion without flags: the number in its base. *)
Lemma plain_digits b {G : GoodBase b} value w t k fs : 0 <= value < base b ^ Z.of_nat k -> (0 < k <= 22)%nat ->
  on fs GROUP = false -> on fs POUND = false -> exists ds,
  integer_digits value b {| flags := fs; width := w; precision := -1; type := t |} = Ok (map (digit_char b) ds) /\
  Forall (fun d => 0 <= d < base b) ds /\ eval (base b) ds = value /\ (0 < length ds <= k)%nat.
Proof.
  intros Hv Hk Hg Hp. unfold integer_digits. cbn [flags precision]. rewrite Hg, Hp.
  destruct (digit_loop_value b 65 k value 0 []) as (ds & -> & Hd & He & Hn & _); [done|lia|cbn; lia|].
  rewrite app_nil_r. cbn [rbind andb]. change (if -1 <? 0 then 1 else -1) with 1. rewrite precision_loop_run by (rewrite length_map; lia).
  cbn [rbind]. rewrite length_map. change (Z.to_nat (Z.min 1 63)) with 1%nat. pose proof base_min.
  destruct ds as [|d ds]; [|exists (d :: ds); cbn [length Nat.sub replicate app]; split; [done|]; split; [done|]; split; [done|]; cbn in Hn; lia].
  exists [0]. cbn in He |- *. split; [unfold digit_char; by rewrite base_zero|]. split; [constructor; [lia|constructor]|]. lia.
Qed.

Lemma digit_char_decimal ds : Forall (fun d => 0 <= d < 10) ds -> map u8 (map (digit_char base_d) ds) = map (Z.add 48) ds.
Proof.
  induction 1 as [|d ds Hd _ IH]; [done|]. cbn [map]. rewrite IH. f_equal.
  assert (d = 0 \/ d = 1 \/ d = 2 \/ d = 3 \/ d = 4 \/ d = 5 \/ d = 6 \/ d = 7 \/ d = 8 \/ d = 9) as Hc by lia.
  by decompose [or] Hc; subst.
Qed.

(** One conversion of the format. *)
Lemma vprintf_conversion {S} in_mem (output : Z -> M S unit) fuel format args c ch format' args' s :
  cur format <> 37 -> parse_conversion format args = Ok (c, ch :: format', args') ->
  vprintf_loop in_mem output (Datatypes.S fuel) (37 :: format) args s =
    bind (convert in_mem output (vprintf_loop in_mem output fuel) ch c args') (vprintf_loop in_mem output fuel format') s.
Proof.
  intros Hf E. cbn [vprintf_loop Z.eqb Pos.eqb negb]. rewrite (proj2 (Z.eqb_neq _ _) Hf). rewrite E. erewrite bind_eq; [|done]. done.
Qed.

(** A format that is a single conversion of an integer. *)
Lemma printed_signed m format args c args' value rest buf :
  cur format <> 37 -> parse_conversion format args = Ok (c, [100], args') ->
  signed_arg (type c) args' = Ok (value, rest) ->
  integer_digits (u64 (Z.abs value)) base_d c = Ok buf ->
  let t := integer_text (u64 (Z.abs value)) true (value <? 0) base_d c buf in
  Z.of_nat (length t) <= INT32_MAX -> printed m (37 :: format) args = Ok (map u8 t).
Proof.
  intros Hf E Ea Ed t Hl. unfold printed, __vprintf. cbn [length Nat.add]. rewrite (vprintf_conversion _ _ _ _ _ c 100 [] args') by done.
  erewrite bind_eq; [|unfold convert; cbn [Z.eqb Pos.eqb orb]].
  2:{ erewrite bind_eq; [|rewrite Ea; done]. cbv beta iota.
      assert ((if value <? 0 then - value else value) = Z.abs value) as -> by (destruct (Z.ltb_spec value 0); lia).
      erewrite bind_eq; [done|]. by apply format_integer_log. }
  rewrite Nat.add_comm. by cbn [Nat.add vprintf_loop ret rbind].
Qed.

(** [%d] prints the sign and the decimal digits. *)
Lemma printed_d m n : - 2 ^ 31 <= n < 2 ^ 31 -> exists ds,
  printed m (chars "%d") [u32 n] = Ok ((if n <? 0 then [45] else []) ++ map (Z.add 48) ds) /\
  Forall (fun d => 0 <= d < 10) ds /\ eval 10 ds = Z.abs n /\ (0 < length ds <= 10)%nat.
Proof.
  intros Hn. set (c := {| flags := 0; width := 0; precision := -1; type := INT |}).
  destruct (plain_digits base_d (Z.abs n) 0 INT 10 0) as (ds & E & Hd & He & Hl); [change (base base_d) with 10; lia|lia|done|done|].
  exists ds. split; [|done]. assert (s32 (u32 (u32 n)) = n) as Ew.
  { rewrite (wrapu_small 32 (u32 n)) by (by apply wrapu_range). unfold wraps, wrapu. rewrite Zplus_mod_idemp_l.
    change (2 ^ (32 - 1)) with (2 ^ 31). rewrite Z.mod_small by lia. lia. }
  assert (u64 (Z.abs n) = Z.abs n) as Eu by (apply wrapu_small; lia).
  assert (integer_text (Z.abs n) true (n <? 0) base_d c (map (digit_char base_d) ds) =
    (if n <? 0 then [45] else []) ++ map (digit_char base_d) ds) as Et.
  { assert (forall x, pad_count c (map (digit_char base_d) ds) 0 x = 0) as Hp.
    { intros x. unfold pad_count. cbn [width c]. rewrite length_map. rewrite wraps_small by (destruct (negb (x =? 0)); cbn; lia).
      destruct (negb (x =? 0)); cbn; lia. }
    unfold integer_text. cbn [c flags]. destruct (n <? 0); cbn -[pad_count digit_char c]; rewrite !Hp; cbn -[digit_char]; by rewrite ?app_nil_r. }
  change (chars "%d") with (37 :: [100]). erewrite (printed_signed m [100] [u32 n] c [u32 n] n []); [|done|done| |rewrite Eu; exact E|].
  - rewrite Eu, Et. rewrite map_app, digit_char_decimal by done. by destruct (n <? 0).
  - cbn [signed_arg type c va_word rbind]. by rewrite Ew.
  - rewrite Eu, Et, length_app, length_map. unfold INT32_MAX. destruct (n <? 0); cbn [length]; lia.
Qed.

(** [%0Wo] prints a number of at most [W] octal digits with zeros in front. *)
Lemma printed_octal m format w v : cur format <> 37 ->
  (forall args, parse_conversion format args = Ok ({| flags := ZERO; width := w; precision := -1; type := INT |}, [111], args)) ->
  0 < w <= 22 -> 0 <= v < 8 ^ w -> v < 2 ^ 32 -> exists ds,
  printed m (37 :: format) [v] = Ok (map (Z.add 48) ds) /\ Forall (fun d => 0 <= d < 8) ds /\ eval 8 ds = v /\ length ds = Z.to_nat w.
Proof.
  intros Hf Hc Hw Hv Hv32. set (c := {| flags := ZERO; width := w; precision := -1; type := INT |}).
  destruct (plain_digits base_o v w INT (Z.to_nat w) ZERO) as (ds & E & Hd & He & Hl); [change (base base_o) with 8; rewrite Z2Nat.id by lia; lia|lia|done|done|].
  exists (replicate (Z.to_nat w - length ds) 0 ++ ds). change (base base_o) with 8 in *.
  split; [|split; [apply Forall_app; split; [apply Forall_replicate; lia|done]|split; [by rewrite eval_zeros|rewrite length_app, length_replicate; lia]]].
  assert (pad_count c (map (digit_char base_o) ds) 0 0 = w - Z.of_nat (length ds)) as Ep.
  { unfold pad_count. cbn [width c Z.eqb negb]. rewrite length_map, wraps_small by lia. lia. }
  assert (integer_text v false false base_o c (map (digit_char base_o) ds) = replicate (Z.to_nat w - length ds) 48 ++ map (digit_char base_o) ds) as Et.
  { unfold integer_text. cbv zeta. change (flags c) with ZERO. change (on ZERO POUND) with false. change (on ZERO (Z.lor MINUS ZERO)) with true.
    change (on ZERO ZERO) with true. change (on ZERO MINUS) with false. change (sign_char false false ZERO) with 0. cbn [andb negb Z.eqb app].
    rewrite Ep, app_nil_r. do 2 f_equal. lia. }
  unfold printed, __vprintf. cbn [length Nat.add]. rewrite (vprintf_conversion _ _ _ _ _ c 111 [] [v]) by (done || apply Hc).
  assert (unsigned_arg (type c) [v] = Ok (v, [])) as Ea by (cbn; by rewrite wrapu_small by lia).
  erewrite bind_eq; [|unfold convert; cbn [Z.eqb Pos.eqb orb]].
  2:{ erewrite bind_eq; [|rewrite Ea; done]. cbv beta iota zeta. erewrite bind_eq; [done|]. apply format_integer_log; [exact E|].
      rewrite Et, length_app, length_replicate, length_map. unfold INT32_MAX. lia. }
  rewrite Et. rewrite Nat.add_comm. cbn [Nat.add vprintf_loop ret rbind]. f_equal. rewrite !map_app. f_equal; [generalize (Z.to_nat w - length ds)%nat; intros k; induction k as [|k IH]; [done|]; cbn [replicate map]; rewrite IH; reflexivity|].
  clear -Hd. induction Hd as [|d ds Hd _ IH]; [done|]. cbn [map]. rewrite IH. f_equal.
  assert (d = 0 \/ d = 1 \/ d = 2 \/ d = 3 \/ d = 4 \/ d = 5 \/ d = 6 \/ d = 7) as Hc by lia. by decompose [or] Hc; subst.
Qed.

End StdioFacts.

(** * The output of hex_dump *)

Module HexDump.
Import Bytes StdioFacts.

(** ** The text of a dump *)

(** Output without a bound on its length. *)
Definition say (ch : Z) : M (mem * list Z) unit := fun '(m, log) => Ok (tt, (m, log ++ [u8 ch])).

Lemma printed_said m format args cs log : printed m format args = Ok cs ->
  __vprintf (@with_log) say format args (m, log) = Ok (tt, (m, log ++ cs)).
Proof.
  intros E. unfold printed in E. destruct (__vprintf _ _ _ _ _) as [[[] [m1 log1]]|f] eqn:Ep; [|done]. injection E as ->.
  set (R := fun (s1 s2 : mem * list Z) => fst s1 = m /\ fst s2 = m /\ snd s2 = log ++ snd s1).
  assert (forall A (c : M mem A), (forall x m1, c m = Ok (x, m1) -> m1 = m) -> sim R (with_log c) (with_log c)) as Hr.
  { intros A c Hc [m2 l1] [m3 l2] x [m4 l4] (E1 & E2 & E3) E. cbn in E1, E2, E3. subst m2 m3 l2. unfold with_log in *.
    destruct (c m) as [[y my]|] eqn:El; [|done]. injection E as <- <- <-. rewrite (Hc _ _ eq_refl). by eexists. }
  destruct (sim_vprintf_loop R (@with_log) (@with_log) log_output say) with (fuel := (length format + 24)%nat) (format := format) (args := args)
    (s1 := (m, [] : list Z)) (s2 := (m, log)) (a := tt) (s1' := (m1, cs)) as ([m2 l2] & E2 & E3 & E4 & E5).
  - intros ch [m2 l1] [m3 l2] u [m4 l4] (E1 & E2 & E3) E. cbn in E1, E2, E3, E. subst m2 m3 l2. destruct (_ <? _); [|done]. injection E as <- <- <-.
    eexists. split; [reflexivity|]. split; [done|]. split; [done|]. cbn. by rewrite app_assoc.
  - intros a. apply Hr. intros x m2 El. by destruct (load_incl _ _ _ _ _ (reflexivity m) El).
  - intros a n. apply Hr. intros x m2 El. by destruct (strnlen_incl _ _ _ _ _ _ (reflexivity m) El).
  - split; [done|]. split; [done|]. cbn. by rewrite app_nil_r.
  - exact Ep.
  - cbn in E4, E5. subst m2 l2. exact E2.
Qed.

(** The hexadecimal digit of a value below 16. *)
Definition nibble (d : Z) : Z := if d <? 10 then 48 + d else 87 + d.

Definition prints (m : mem) (format args cs : list Z) : bool :=
  match printed m format args with Ok xs => bool_decide (xs = cs) | Err _ => false end.
Lemma prints_ok m format args cs : prints m format args cs = true -> printed m format args = Ok cs.
Proof. unfold prints. destruct (printed _ _ _); [|done]. intros E. apply bool_decide_eq_true in E. by subst. Qed.

Lemma printed_cell m b sep : is_byte b -> sep = 32 \/ sep = 45 ->
  printed m (chars "%02hhx%c") [b; sep] = Ok [nibble (b / 16); nibble (b mod 16); sep].
Proof.
  intros Hb Hs. apply prints_ok.
  assert (Forall (fun b => prints m (chars "%02hhx%c") [b; 32] [nibble (b / 16); nibble (b mod 16); 32] &&
    prints m (chars "%02hhx%c") [b; 45] [nibble (b / 16); nibble (b mod 16); 45] = true) (seqZ 0 256)) as H
    by (apply (bool_decide_unpack _); vm_compute; exact I).
  rewrite Forall_forall in H. specialize (H b ltac:(apply elem_of_seqZ; unfold is_byte in Hb; lia)). apply andb_true_iff in H as [H1 H2].
  by destruct Hs as [-> | ->].
Qed.
Lemma printed_char m c : is_byte c -> printed m (chars "%c") [c] = Ok [c].
Proof.
  intros Hc. apply prints_ok.
  assert (Forall (fun c => prints m (chars "%c") [c] [c] = true) (seqZ 0 256)) as H by (apply (bool_decide_unpack _); vm_compute; exact I).
  rewrite Forall_forall in H. apply H, elem_of_seqZ. unfold is_byte in Hc. lia.
Qed.

Definition address (a : Z) : list Z := map (fun k => nibble (a / 16 ^ k mod 16)) [7; 6; 5; 4; 3; 2; 1; 0].

Lemma digit_char_hex ds : Forall (fun d => 0 <= d < 16) ds -> map u8 (map (digit_char base_x) ds) = map nibble ds.
Proof.
  induction 1 as [|d ds Hd _ IH]; [done|]. cbn [map]. rewrite IH. f_equal.
  assert (Forall (fun d => u8 (digit_char base_x d) = nibble d) (seqZ 0 16)) as H by (apply (bool_decide_unpack _); vm_compute; exact I).
  rewrite Forall_forall in H. apply H, elem_of_seqZ. lia.
Qed.
Lemma address_digits a ds : Forall (fun d => 0 <= d < 16) ds -> eval 16 ds = a -> length ds = 8%nat -> address a = map nibble ds.
Proof.
  intros Hd He Hl. do 8 (destruct ds as [|? ds]; [done|]). destruct ds; [|done]. rewrite !Forall_cons in Hd. destruct_and! Hd.
  cbn in He. unfold address. cbn [map].
  change (16 ^ 7) with 268435456. change (16 ^ 6) with 16777216. change (16 ^ 5) with 1048576. change (16 ^ 4) with 65536.
  change (16 ^ 3) with 4096. change (16 ^ 2) with 256. change (16 ^ 1) with 16. change (16 ^ 0) with 1.
  do 8 (apply (f_equal2 cons); [apply f_equal; clear Hl; Z.to_euclidean_division_equations; lia|]). done.
Qed.

Lemma printed_address m a : 0 <= a < 2 ^ 32 -> printed m (chars "%08jx  ") [a; 0] = Ok (address a ++ [32; 32]).
Proof.
  intros Ha. set (c := {| flags := ZERO; width := 8; precision := -1; type := INTMAX |}).
  destruct (plain_digits base_x a 8 INTMAX 8 ZERO) as (ds & E & Hd & He & Hl); [change (base base_x) with 16; lia|lia|done|done|].
  change (base base_x) with 16 in *. rewrite (address_digits a (replicate (8 - length ds) 0 ++ ds));
    [|apply Forall_app; split; [apply Forall_replicate; lia|done]|by rewrite eval_zeros|rewrite length_app, length_replicate; lia].
  assert (pad_count c (map (digit_char base_x) ds) 0 0 = 8 - Z.of_nat (length ds)) as Ep.
  { unfold pad_count. cbn [width c Z.eqb negb]. rewrite length_map, wraps_small by lia. lia. }
  assert (integer_text a false false base_x c (map (digit_char base_x) ds) = replicate (8 - length ds) 48 ++ map (digit_char base_x) ds) as Et.
  { unfold integer_text. cbv zeta. change (flags c) with ZERO. change (on ZERO POUND) with false. change (on ZERO (Z.lor MINUS ZERO)) with true.
    change (on ZERO ZERO) with true. change (on ZERO MINUS) with false. change (sign_char false false ZERO) with 0. cbn [andb negb Z.eqb app].
    rewrite Ep, app_nil_r. do 2 f_equal. lia. }
  unfold printed, __vprintf. change (chars "%08jx  ") with (37 :: chars "08jx  "). cbn [length Nat.add].
  rewrite (vprintf_conversion _ _ _ _ _ c 120 [32; 32] [a; 0]) by done.
  assert (unsigned_arg (type c) [a; 0] = Ok (a, [])) as Ea by (change (va_long [a; 0] = Ok (a, [])); unfold va_long; rewrite !wrapu_small by lia; by rewrite Z.mul_0_r, Z.add_0_r).
  erewrite bind_eq; [|unfold convert; cbn [Z.eqb Pos.eqb orb]].
  2:{ erewrite bind_eq; [|rewrite Ea; done]. cbv beta iota zeta. erewrite bind_eq; [done|]. apply format_integer_log; [exact E|].
      rewrite Et, length_app, length_replicate, length_map. unfold INT32_MAX. lia. }
  rewrite Et, map_app, digit_char_hex by done. rewrite map_app.
  assert (map u8 (replicate (8 - length ds) 48) = map nibble (replicate (8 - length ds) 0)) as ->
    by (generalize (8 - length ds)%nat; intros k; induction k as [|k IH]; [done|]; cbn [replicate map]; by rewrite IH).
  cbn. set (t := _ ++ _). assert (length t = 8%nat) as Lt by (unfold t; rewrite length_app, !length_map, length_replicate; lia).
  change (rbind (output_all log_output [32; 32] (m, t)) (fun '(_, (_, log)) => Ok log) = Ok (t ++ [32; 32])).
  rewrite output_all_log by (rewrite Lt; unfold INT32_MAX; cbn; lia). done.
Qed.

(** The column of a byte, the bytes from column [i] on, and the character shown for a byte. *)
Definition cell (i b : Z) : list Z := [nibble (b / 16); nibble (b mod 16); if i =? 7 then 45 else 32].
Fixpoint cells (i : Z) (bs : list Z) : list Z := match bs with [] => [] | b :: bs => cell i b ++ cells (i + 1) bs end.
Definition shown (b : Z) : Z := if isprint b then b else 46.
Definition dump_line (ofs : Z) (bs : list Z) (ascii : bool) : list Z :=
  let start := Z.to_nat (ofs mod 16) in
  let rest := (16 - (start + length bs))%nat in
  address (ofs / 16 * 16) ++ [32; 32] ++ replicate (3 * start) 32 ++ cells (ofs mod 16) bs ++
  (if ascii then replicate (3 * rest) 32 ++ [124] ++ replicate start 32 ++ map shown bs ++ replicate rest 32 ++ [124] else []) ++ [10].
(** A text is the dump of [buf]: its lines hold the bytes up to the next multiple of 16, one after the
    other. *)
Inductive dumps (ascii : bool) : Z -> list Z -> list Z -> Prop :=
| dumps_nil ofs : dumps ascii ofs [] []
| dumps_line ofs bs buf text : bs <> [] -> ofs mod 16 + Z.of_nat (length bs) <= 16 ->
    (buf <> [] -> ofs mod 16 + Z.of_nat (length bs) = 16) ->
    dumps ascii (u32 (ofs + Z.of_nat (length bs))) buf text ->
    dumps ascii ofs (bs ++ buf) (dump_line ofs bs ascii ++ text).

Section said.
Context (m : mem).
Definition says (c : M (mem * list Z) unit) (t : list Z) : Prop := forall log, c (m, log) = Ok (tt, (m, log ++ t)).

Lemma says_bind c k t t' : says c t -> says k t' -> says (bind c (fun _ : unit => k)) (t ++ t').
Proof. intros Hc Hk log. rewrite (bind_eq _ _ _ _ _ (Hc log)), Hk. by rewrite app_assoc. Qed.
Lemma says_eq c t t' : says c t -> t = t' -> says c t'.
Proof. by intros Hc ->. Qed.
Lemma says_ret : says (ret tt : M (mem * list Z) unit) [].
Proof. intros log. by rewrite app_nil_r. Qed.
Lemma says_times n k format : printed m format [] = Ok (replicate k 32) ->
  says (print_times (@with_log) say n format) (replicate (k * n) 32).
Proof.
  intros E. induction n as [|n IH]; [rewrite Nat.mul_0_r; apply says_ret|]. rewrite Nat.mul_succ_r, Nat.add_comm, replicate_add.
  apply says_bind; [intros log; by apply printed_said|exact IH].
Qed.
Lemma says_bytes bs : forall i, Forall is_byte bs -> says (print_bytes (@with_log) say bs i) (cells i bs).
Proof.
  induction bs as [|b bs IH]; intros i Hb; [apply says_ret|]. apply Forall_cons in Hb as [Hb Hbs].
  apply says_bind; [|by apply IH]. intros log. apply printed_said, printed_cell; [done|]. destruct (i =? 7); auto.
Qed.
Lemma says_ascii bs : Forall is_byte bs -> says (print_ascii (@with_log) say bs) (map shown bs).
Proof.
  induction 1 as [|b bs Hb _ IH]; [apply says_ret|]. apply (says_bind _ _ [shown b] (map shown bs)); [|exact IH].
  intros log. apply printed_said, printed_char. unfold is_byte, shown in *. destruct (isprint b); lia.
Qed.

Lemma hex_dump_says fuel : forall ofs buf ascii, Forall is_byte buf -> 0 <= ofs < 2 ^ 32 -> (length buf <= fuel)%nat ->
  exists text, says (hex_dump_loop (@with_log) say fuel ofs buf ascii) text /\ dumps ascii ofs buf text.
Proof.
  induction fuel as [|fuel IH]; intros ofs buf ascii Hb Ho Hl.
  { destruct buf; [|cbn in Hl; lia]. exists []. split; [apply says_ret|constructor]. }
  destruct (decide (buf = [])) as [->|Hne]; [exists []; split; [apply says_ret|constructor]|].
  assert (0 < length buf)%nat by (destruct buf; [done|cbn; lia]). pose proof (Z.mod_pos_bound ofs 16 ltac:(lia)) as Hm.
  set (n := if 16 - ofs mod 16 >? Z.of_nat (length buf) then Z.of_nat (length buf) else 16 - ofs mod 16).
  assert (0 < n <= Z.of_nat (length buf) /\ ofs mod 16 + n <= 16 /\ (n < Z.of_nat (length buf) -> ofs mod 16 + n = 16)) as (Hn & Hn16 & Hfull).
  { unfold n. destruct (Z.gtb_spec (16 - ofs mod 16) (Z.of_nat (length buf))); lia. }
  pose proof (take_drop (Z.to_nat n) buf) as Es. set (bs := take (Z.to_nat n) buf) in *. set (rest := drop (Z.to_nat n) buf) in *.
  assert (length bs = Z.to_nat n) as Lb by (unfold bs; rewrite length_take; lia).
  destruct (IH (u32 (ofs + n)) rest ascii) as (text & Ht & Hd); [by apply Forall_drop|auto with words|unfold rest; rewrite length_drop; lia|].
  exists (dump_line ofs bs ascii ++ text). split.
  - destruct buf as [|b0 buf0]; [done|]. cbn [hex_dump_loop]. fold n bs rest. intros log.
    assert (Z.to_nat (16 - (ofs mod 16 + n)) = 16 - (Z.to_nat (ofs mod 16) + length bs))%nat as -> by lia.
    set (k := (16 - (Z.to_nat (ofs mod 16) + length bs))%nat).
    assert (Forall is_byte bs) as Hbs by (by apply Forall_take).
    assert (says (__vprintf (@with_log) say (chars "|") []) [124]) as Hbar by (intros log0; by apply printed_said).
    pose proof (fun n => says_times n 3 (chars "   ") eq_refl) as H3. pose proof (fun n => says_times n 1 (chars " ") eq_refl) as H1.
    setoid_rewrite Nat.mul_1_l in H1.
    revert log. eapply says_eq.
    { eapply says_bind; [intros log; apply printed_said, printed_address; pose proof (Z.div_mod ofs 16); lia|].
      eapply says_bind; [apply H3|]. eapply says_bind; [by apply says_bytes|].
      eapply (says_bind _ _ (if ascii then replicate (3 * k) 32 ++ [124] ++ replicate (Z.to_nat (ofs mod 16)) 32 ++ map shown bs ++ replicate k 32 ++ [124] else [])).
      { destruct ascii; [|apply says_ret]. do 5 (apply says_bind; [first [exact (H3 _)|exact (H1 _)|exact Hbar|by apply says_ascii]|]). exact Hbar. }
      eapply says_bind; [intros log; by apply (printed_said m _ [] [10])|exact Ht]. }
    unfold dump_line. fold k. by rewrite <- !app_assoc.
  - rewrite <- Es at 1. apply dumps_line; [intros E; rewrite E in Lb; cbn in Lb; lia|lia| |].
    + intros Hr. rewrite Lb, Z2Nat.id by lia. apply Hfull. destruct (Z.ltb_spec n (Z.of_nat (length buf))) as [|Hge]; [done|].
      exfalso. apply Hr. unfold rest. apply drop_ge. lia.
    + by rewrite Lb, Z2Nat.id by lia.
Qed.
End said.

Lemma dumps_empty ascii ofs t : dumps ascii ofs [] t -> t = [].
Proof. inversion 1 as [|? bs buf ? Hne]; [done|]. by destruct bs. Qed.

(** Dumps of pieces that end at a multiple of 16 join to a dump of the whole. *)
Lemma dumps_app ascii ofs xs t ys t' : dumps ascii ofs xs t -> 0 <= ofs < 2 ^ 32 -> (ofs + Z.of_nat (length xs)) mod 16 = 0 ->
  dumps ascii (u32 (ofs + Z.of_nat (length xs))) ys t' -> dumps ascii ofs (xs ++ ys) (t ++ t').
Proof.
  induction 1 as [ofs|ofs bs buf text Hne H16 Hf Hd IH]; intros Ho Hm Hy.
  - cbn in *. by rewrite Z.add_0_r, wrapu_small in Hy by lia.
  - rewrite <- !app_assoc. rewrite length_app, Nat2Z.inj_add, Z.add_assoc in *. set (n := Z.of_nat (length bs)) in *.
    assert (0 < n) by (destruct bs; [done|unfold n; cbn; lia]).
    assert (u32 (u32 (ofs + n) + Z.of_nat (length buf)) = u32 (ofs + n + Z.of_nat (length buf))) as E by (unfold wrapu; apply Zplus_mod_idemp_l).
    apply dumps_line; [done|done| |].
    + intros _. destruct (decide (buf = [])) as [->|]; [|auto]. cbn in Hm. rewrite Z.add_0_r in Hm. Z.to_euclidean_division_equations. lia.
    + apply IH; [auto with words| |by rewrite E].
      rewrite <- Hm. unfold wrapu. rewrite <- (Zplus_mod_idemp_l (_ mod _)), <- (Zplus_mod_idemp_l (ofs + n)). do 2 f_equal.
      rewrite <- Znumtheory.Zmod_div_mod; [done|lia|lia|]. by exists (2 ^ 28).
Qed.

(** A size below 1024 keeps its unit; a larger one is scaled until it is below 1024 or
    the units are used up. *)
Lemma scale_run fs last size : 0 <= size ->
  exists k, (k <= length fs)%nat /\ fst (scale fs last size) = size / 1024 ^ Z.of_nat k /\
    (last :: fs) !! k = Some (snd (scale fs last size)) /\ (k = length fs \/ fst (scale fs last size) < 1024) /\
    forall j, (j < k)%nat -> 1024 <= size / 1024 ^ Z.of_nat j.
Proof.
  revert last size. induction fs as [|f fs IH]; intros last size Hs; cbn [scale].
  - exists 0%nat. cbn. rewrite Z.div_1_r. split_and!; [lia|done|done|by left|lia].
  - destruct (Z.geb_spec size 1024) as [Hg|Hg].
    + destruct (IH f (size / 1024)) as (k & Hk & E1 & E2 & E3 & E4); [apply Z.div_pos; lia|].
      assert (forall j, size / 1024 ^ Z.of_nat (Datatypes.S j) = size / 1024 / 1024 ^ Z.of_nat j) as Ed.
      { intros j. rewrite Nat2Z.inj_succ, Z.pow_succ_r, Z.div_div by lia. done. }
      exists (Datatypes.S k). rewrite Ed. cbn [length lookup list_lookup]. split_and!; [lia|done|exact E2|destruct E3; [left; lia|by right]|].
      intros [|j] Hj; [by rewrite Z.div_1_r|]. rewrite Ed. apply E4. lia.
    + exists 0%nat. cbn. rewrite Z.div_1_r. split_and!; [lia|done|done|right; lia|lia].
Qed.
Example human_readable : rbind (print_human_readable_size (@with_log) say (5 * 2 ^ 20 + 1) (∅, [])) (fun '(_, (_, t)) => Ok t) = Ok (chars "5 MB").
Proof. vm_compute. reflexivity. Qed.
End HexDump.
