(* ===== verification/Console.v ===== *)
(** * lib/kernel/console.c: printing, and the lock of the console

    Threads print with calls that take the lock of the console, write characters and give the
    lock back; a call can be interrupted by another one of the same thread, which finds the lock
    held and counts how deep it is.  A thread is the list of the operations it has still to do,
    and a schedule says which thread does its next operation; a thread that waits for the lock
    stays where it is.  The screen and the serial port are parameters. *)

From S2P Require Import Prelude CString Stdio StdioFacts.
Import CString.

Module Console.

(** ** Calls *)

Inductive op := Acquire | Put (c : Z) | Release.
Definition call (text : list Z) : list op := Acquire :: map Put text ++ [Release].
Definition putbuf (buffer : list Z) : list op := call buffer.
(** The format, with strings from the memory [m]; the result of [vprintf] is the number of characters. *)
Definition vprintf (m : mem) (format args : list Z) : res (list op * Z) :=
  rbind (StdioFacts.printed m format args) (fun text => Ok (call text, Z.of_nat (length text))).
(** What each thread has still to do. *)
Abbreviation threads := (gmap Z (list op)).

(** ** The console *)

Section console.
Context {D : Type} (serial_putc vga_putc : Z -> D -> D).

(** [console_lock] is the thread that holds it. *)
Record console := {
  console_lock : option Z; use_console_lock : bool; console_lock_depth : Z; write_cnt : Z; devices : D }.
Definition with_lock (h : option Z) (d : Z) (s : console) : console :=
  {| console_lock := h; use_console_lock := use_console_lock s; console_lock_depth := d; write_cnt := write_cnt s; devices := devices s |}.
Definition with_use (b : bool) (s : console) : console :=
  {| console_lock := console_lock s; use_console_lock := b; console_lock_depth := console_lock_depth s; write_cnt := write_cnt s; devices := devices s |}.
Definition console_init : M console unit := modify (fun s => with_use true (with_lock None (console_lock_depth s) s)).
Definition console_panic : M console unit := modify (with_use false).


(** ** Threads that print *)


End console.
Arguments console : clear implicits.

End Console.

(** * Calls of different threads do not mix *)

Module ConsoleProps.
Import Console.

(** Operations that end with as many releases as acquisitions, when [n] of them are open, and
    write only inside. *)
Fixpoint balanced (n : nat) (l : list op) : bool :=
  match l with
  | [] => (n =? 0)%nat
  | Acquire :: l => balanced (S n) l
  | Put _ :: l => (0 <? n)%nat && balanced n l
  | Release :: l => match n with O => false | S n => balanced n l end
  end.
Lemma balanced_app l l' : forall n, balanced n l = true -> balanced n (l ++ l') = balanced 0 l'.
Proof. induction l as [|[| |] l IH]; intros n; cbn; [by intros ->%Nat.eqb_eq|apply IH|intros [-> H]%andb_true_iff; by apply IH|destruct n; [done|apply IH]]. Qed.
Lemma balanced_puts n text l : (0 < n)%nat -> balanced n (map Put text ++ l) = balanced n l.
Proof. intros Hn. induction text as [|c text IH]; cbn; [done|]. rewrite IH. by destruct n; [lia|]. Qed.
(** A call, with further calls inside it. *)
Lemma call_balanced text n l : balanced n (call text ++ l) = balanced n l.
Proof. unfold call. cbn. rewrite <- app_assoc, balanced_puts by lia. done. Qed.

(** The texts of the outermost calls: [n] acquisitions are open and [cur] has been written since
    the first of them. *)
Fixpoint split_calls (n : nat) (cur : list Z) (l : list op) : list (list Z) :=
  match l with
  | [] => []
  | Acquire :: l => split_calls (S n) cur l
  | Put c :: l => split_calls n (cur ++ [u8 c]) l
  | Release :: l => match n with O => [] | S O => cur :: split_calls 0 [] l | S n => split_calls n cur l end
  end.
Definition calls (l : list op) : list (list Z) := split_calls 0 [] l.
Lemma split_puts n cur text l : split_calls n cur (map Put text ++ l) = split_calls n (cur ++ map u8 text) l.
Proof. revert cur. induction text as [|c text IH]; intros cur; cbn; [by rewrite app_nil_r|]. by rewrite IH, <- app_assoc. Qed.
Lemma calls_call text l : calls (call text ++ l) = map u8 text :: calls l.
Proof. unfold calls, call. cbn. by rewrite <- app_assoc, split_puts. Qed.


Section machine.
Context {D : Type} (serial_putc vga_putc : Z -> D -> D) (p0 : threads) (d0 : D).
Implicit Types (s : console D) (p : threads).






End machine.


End ConsoleProps.
