(* ===== verification/UserConsole.v ===== *)
(** * lib/user/console.c: printing by user programs

    The formatted output of the C library, collected in a buffer of 64 characters and handed to
    the [write] system call.  A call of [write] is recorded with its file handle and its bytes;
    the code does not look at its result.  The buffer is the part of the array that is in
    use. *)

From stdpp Require Import strings.
From S2P Require Import Prelude Bytes CString Stdio StdioFacts.
Import Bytes CString Stdio StdioFacts.

Module UserConsole.

Definition STDOUT_FILENO : Z := 1.

(** A call of [write]. *)
Record write_call : Type := Write { handle : Z; written : list Z }.

Record vhprintf_aux : Type := Aux { buf : list Z; char_cnt : Z; to : Z; writes : list write_call }.

Definition flush (a : vhprintf_aux) : vhprintf_aux :=
  match buf a with
  | [] => a
  | bs => Aux [] (char_cnt a) (to a) (writes a ++ [Write (to a) bs])
  end.

(** A store behind the buffer would overwrite the pointer into it. *)
Definition add_char (c : Z) : M (mem * vhprintf_aux) unit := fun '(m, a) =>
  if Z.of_nat (length (buf a)) <? 64 then
    let a := Aux (buf a ++ [u8 c]) (char_cnt a) (to a) (writes a) in
    let a := if Z.of_nat (length (buf a)) >=? 64 then flush a else a in
    Ok (tt, (m, Aux (buf a) (s32 (char_cnt a + 1)) (to a) (writes a)))
  else Err WildAccess.

Definition reads {A} (c : M mem A) : M (mem * vhprintf_aux) A := fun '(m, a) =>
  match c m with Ok (x, m) => Ok (x, (m, a)) | Err f => Err f end.

(** The result and the calls of [write], the oldest one first. *)
Definition vhprintf (h : Z) (format args : list Z) (m : mem) : res (Z * list write_call) :=
  rbind (__vprintf (@reads) add_char format args (m, Aux [] 0 h [])) (fun '(_, (_, a)) =>
  let a := flush a in Ok (char_cnt a, writes a)).
Definition hprintf (h : Z) (format args : list Z) (m : mem) : res (Z * list write_call) := vhprintf h format args m.
Definition vprintf (format args : list Z) (m : mem) : res (Z * list write_call) := vhprintf STDOUT_FILENO format args m.

Definition putchar (c : Z) : Z * list write_call := (c, [Write STDOUT_FILENO [u8 c]]).
Definition puts (s : list Z) : Z * list write_call := (0, Write STDOUT_FILENO s :: snd (putchar 10)).

End UserConsole.

Module UserConsoleProps.
Import UserConsole.

(** The characters so far are those of the calls and of the buffer. *)
Definition collected (h : Z) (m : mem) (s1 : mem * list Z) (s2 : mem * vhprintf_aux) : Prop :=
  let '(m1, log) := s1 in let '(m2, a) := s2 in
  m1 = m /\ m2 = m /\ to a = h /\ log = concat (map written (writes a)) ++ buf a /\
  Forall (fun w => handle w = h /\ length (written w) = 64%nat) (writes a) /\
  (length (buf a) < 64)%nat /\ char_cnt a = Z.of_nat (length log) /\ Z.of_nat (length log) <= INT32_MAX.

Lemma collected_output h m ch : sim (collected h m) (log_output ch) (add_char ch).
Proof.
  intros [m1 log] [m2 a] u [m1' log'] (-> & -> & Eh & El & Hw & Hb & Hc & Hm) E. cbn in E.
  destruct (Z.ltb_spec (Z.of_nat (length log)) INT32_MAX) as [Hl|]; [|done]. injection E as <- <- <-.
  cbn [add_char]. rewrite (proj2 (Z.ltb_lt _ _)) by lia. cbn [buf].
  assert (s32 (char_cnt a + 1) = Z.of_nat (length (log ++ [u8 ch]))) as Es.
  { rewrite length_app, Hc. cbn [length]. unfold INT32_MAX in *. rewrite wraps_small by lia. lia. }
  assert (Z.of_nat (length (log ++ [u8 ch])) <= INT32_MAX) as Hm' by (rewrite length_app; cbn [length]; lia).
  rewrite length_app. cbn [length]. destruct (Z.geb_spec (Z.of_nat (length (buf a) + 1)) 64) as [Hf|Hf].
  - unfold flush. cbn [buf]. destruct (buf a ++ [u8 ch]) as [|x xs] eqn:Ex; [by destruct (buf a)|]. rewrite <- Ex.
    eexists. split; [reflexivity|]. unfold collected. cbn [buf char_cnt to writes]. split; [done|]. split; [done|]. split; [done|]. split.
    { rewrite map_app, concat_app, El, <- app_assoc. cbn. by rewrite !app_nil_r. }
    split; [|split; [cbn; lia|done]]. apply Forall_app. split; [done|]. apply Forall_singleton. split; [done|].
    cbn [written]. rewrite length_app. cbn [length]. lia.
  - eexists. split; [reflexivity|]. unfold collected. cbn [buf char_cnt to writes]. do 3 (split; [done|]). split; [by rewrite El, app_assoc|].
    split; [done|]. split; [rewrite length_app; cbn [length]; lia|done].
Qed.

Lemma collected_read {A} h m (c : M mem A) : (forall m x m1, c m = Ok (x, m1) -> m1 = m) ->
  sim (collected h m) (with_log c) (reads c).
Proof.
  intros Hc [m1 log] [m2 a] x [m1' log'] HR E. pose proof HR as (-> & -> & HR'). unfold with_log in E.
  destruct (c m) as [[y my]|f] eqn:Ec; [|done]. injection E as <- <- <-. rewrite (Hc _ _ _ Ec) in *.
  unfold reads. rewrite Ec. rewrite (Hc _ _ _ Ec). by eexists.
Qed.

Lemma collected_vprintf h m fuel format args :
  sim (collected h m) (vprintf_loop (@with_log) log_output fuel format args) (vprintf_loop (@reads) add_char fuel format args).
Proof.
  apply sim_vprintf_loop; intros.
  - apply collected_output.
  - apply collected_read. intros m0 x m1 E. by destruct (load_incl _ _ _ _ _ (reflexivity m0) E).
  - apply collected_read. intros m0 x m1 E. by destruct (strnlen_incl _ _ _ _ _ _ (reflexivity m0) E).
Qed.

(** A user program prints what the format says: the text reaches the handle in pieces of 64
    characters and a last shorter one, no piece is empty, and the result is the number
    of characters. *)
Lemma vhprintf_correct h format args m cs : printed m format args = Ok cs ->
  exists calls, vhprintf h format args m = Ok (Z.of_nat (length cs), calls) /\
    concat (map written calls) = cs /\ Forall (fun w => handle w = h /\ written w <> []) calls /\
    exists full last, calls = full ++ last /\ Forall (fun w => length (written w) = 64%nat) full /\
      (last = [] \/ exists w, last = [w] /\ (length (written w) < 64)%nat).
Proof.
  intros E. unfold printed in E. destruct (__vprintf _ _ _ _ _) as [[[] [m1 log]]|f] eqn:Ep; [|done]. injection E as ->.
  destruct (collected_vprintf h m (length format + 24) format args (m, []) (m, Aux [] 0 h []) tt (m1, cs)) as ([m2 a] & E2 & HR);
    [by split_and!; try apply Forall_nil; cbn; try lia|exact Ep|].
  unfold vhprintf, __vprintf. rewrite E2. cbn [rbind]. destruct HR as (-> & -> & Eh & El & Hw & Hb & Hc & _).
  assert (Forall (fun w => handle w = h /\ written w <> []) (writes a)) as Hn.
  { eapply Forall_impl; [exact Hw|]. intros w [Hh Hl]. split; [done|]. by intros En; rewrite En in Hl. }
  assert (Forall (fun w => length (written w) = 64%nat) (writes a)) as Hf by (eapply Forall_impl; [exact Hw|]; by intros w []).
  unfold flush. destruct (buf a) as [|x xs] eqn:Eb.
  - rewrite Hc. eexists. split; [done|]. rewrite app_nil_r in El. do 2 (split; [done|]). exists (writes a), []. rewrite app_nil_r. auto.
  - cbn [char_cnt writes]. rewrite Hc. eexists. split; [done|]. split; [by rewrite map_app, concat_app, El; cbn; rewrite app_nil_r|].
    split; [apply Forall_app; split; [done|]; by apply Forall_singleton|].
    exists (writes a), [Write (to a) (x :: xs)]. split; [done|]. split; [done|]. right. by eexists.
Qed.

(** 70 characters in two pieces. *)
Example vhprintf_pieces :
  vhprintf 1 (chars "%70d"%string) [7] ∅ = Ok (70, [Write 1 (replicate 64 32); Write 1 [32; 32; 32; 32; 32; 55]]).
Proof. vm_compute. reflexivity. Qed.
End UserConsoleProps.
