(* ===== verification/Kbd.v ===== *)
(** * devices/kbd.c: the keyboard

    The keyboard sends a scan code when a key is pressed and another one when it is released;
    the handler keeps track of the shift keys and puts characters into the input buffer, which
    it uses through an interface.  An interrupt is given with the bytes that can be read from
    the controller. *)

From stdpp Require Import strings.
From S2P Require Import Prelude CString CStdlib Stdio Intq Serial.

Module Kbd.
Import CStdlib.
Abbreviation text := Stdio.chars.

Class InputOps (I : Type) := { input_full : M I bool; input_putc : Z -> M I unit }.

(** ** Tables *)

Definition keymap : Type := list (Z * list Z).
Definition invariant_keymap : keymap :=
  [(1, [27]); (14, [8]); (15, 9 :: text "QWERTYUIOP"); (28, [13]); (30, text "ASDFGHJKL"); (44, text "ZXCVBNM"); (55, text "*"); (57, text " "); (83, [127])].
Definition unshifted_keymap : keymap :=
  [(2, text "1234567890-="); (26, text "[]"); (39, text ";'`"); (43, [92]); (51, text ",./")].
Definition shifted_keymap : keymap :=
  [(2, text "!@#$%^&*()_+"); (26, text "{}"); (39, [58; 34; 126]); (43, text "|"); (51, text "<>?")].
Fixpoint map_key (k : keymap) (scancode : Z) : option Z :=
  match k with
  | [] => None
  | (first_scancode, chars) :: k =>
      if (scancode >=? first_scancode) && (scancode <? first_scancode + Z.of_nat (length chars))
      then chars !! Z.to_nat (scancode - first_scancode)
      else map_key k scancode
  end.

Record kbd := {
  left_shift : bool; right_shift : bool; left_alt : bool; right_alt : bool; left_ctrl : bool; right_ctrl : bool;
  caps_lock : bool; key_cnt : Z }.
Inductive shift_key := LeftShift | RightShift | LeftAlt | RightAlt | LeftCtrl | RightCtrl.
Definition shift_keys : list (Z * shift_key) :=
  [(42, LeftShift); (54, RightShift); (56, LeftAlt); (57400, RightAlt); (29, LeftCtrl); (57373, RightCtrl)].
#[export] Instance shift_key_eq_dec : EqDecision shift_key.
Proof. solve_decision. Defined.
Definition key_state (k : shift_key) (s : kbd) : bool :=
  match k with
  | LeftShift => left_shift s | RightShift => right_shift s | LeftAlt => left_alt s
  | RightAlt => right_alt s | LeftCtrl => left_ctrl s | RightCtrl => right_ctrl s
  end.
Definition set_key (k : shift_key) (b : bool) (s : kbd) : kbd :=
  match k with
  | LeftShift => {| left_shift := b; right_shift := right_shift s; left_alt := left_alt s; right_alt := right_alt s; left_ctrl := left_ctrl s; right_ctrl := right_ctrl s; caps_lock := caps_lock s; key_cnt := key_cnt s |}
  | RightShift => {| left_shift := left_shift s; right_shift := b; left_alt := left_alt s; right_alt := right_alt s; left_ctrl := left_ctrl s; right_ctrl := right_ctrl s; caps_lock := caps_lock s; key_cnt := key_cnt s |}
  | LeftAlt => {| left_shift := left_shift s; right_shift := right_shift s; left_alt := b; right_alt := right_alt s; left_ctrl := left_ctrl s; right_ctrl := right_ctrl s; caps_lock := caps_lock s; key_cnt := key_cnt s |}
  | RightAlt => {| left_shift := left_shift s; right_shift := right_shift s; left_alt := left_alt s; right_alt := b; left_ctrl := left_ctrl s; right_ctrl := right_ctrl s; caps_lock := caps_lock s; key_cnt := key_cnt s |}
  | LeftCtrl => {| left_shift := left_shift s; right_shift := right_shift s; left_alt := left_alt s; right_alt := right_alt s; left_ctrl := b; right_ctrl := right_ctrl s; caps_lock := caps_lock s; key_cnt := key_cnt s |}
  | RightCtrl => {| left_shift := left_shift s; right_shift := right_shift s; left_alt := left_alt s; right_alt := right_alt s; left_ctrl := left_ctrl s; right_ctrl := b; caps_lock := caps_lock s; key_cnt := key_cnt s |}
  end.
Definition toggle_caps (s : kbd) : kbd :=
  {| left_shift := left_shift s; right_shift := right_shift s; left_alt := left_alt s; right_alt := right_alt s; left_ctrl := left_ctrl s; right_ctrl := right_ctrl s; caps_lock := negb (caps_lock s); key_cnt := key_cnt s |}.
Definition count_key (s : kbd) : kbd :=
  {| left_shift := left_shift s; right_shift := right_shift s; left_alt := left_alt s; right_alt := right_alt s; left_ctrl := left_ctrl s; right_ctrl := right_ctrl s; caps_lock := caps_lock s; key_cnt := s64 (key_cnt s + 1) |}.

Fixpoint find_shift (l : list (Z * shift_key)) (code : Z) : option shift_key :=
  match l with [] => None | (scancode, k) :: l => if scancode =? code then Some k else find_shift l code end.

Section kbd.
Context {I : Type} `{InputOps I}.

(** Control, shift and caps lock, and alt. *)
Definition modify_char (shift alt ctrl caps : bool) (c : Z) : Z :=
  let c := if ctrl && (c >=? 64) && (c <? 96) then c - 64
           else if Bool.eqb shift caps then u8 (tolower c) else c in
  if alt then u8 (c + 128) else c.
Definition on_input {A} (c : M I A) : M (kbd * I) A := fun '(s, i) =>
  match c i with Ok (a, i) => Ok (a, (s, i)) | Err e => Err e end.
(** The scan code without its release bit, and that bit. *)
Definition read_code (byte1 byte2 : Z) : Z * bool :=
  let code := if byte1 =? 224 then Z.lor (Z.shiftl byte1 8) byte2 else byte1 in
  let release := negb (Z.land code 128 =? 0) in
  (Z.land code (Z.lxor (2 ^ 32 - 1) 128), release).
(** [byte1], and after a prefix [byte2], are read from the controller; whether the machine is
    restarted, from which there is no return. *)
Definition keyboard_interrupt (byte1 byte2 : Z) : M (kbd * I) bool :=
  let! s := gets fst in
  let shift := left_shift s || right_shift s in
  let alt := left_alt s || right_alt s in
  let ctrl := left_ctrl s || right_ctrl s in
  let (code, release) := read_code byte1 byte2 in
  if code =? 58 then
    do! (if negb release then modify (fun '(s, i) => (toggle_caps s, i)) else ret tt);
    ret false
  else
    match (match map_key invariant_keymap code with
           | Some c => Some c
           | None => if negb shift then map_key unshifted_keymap code else map_key shifted_keymap code
           end) with
    | Some c =>
        if negb release then
          if (c =? 127) && ctrl && alt then ret true
          else
            let c := modify_char shift alt ctrl (caps_lock s) c in
            let! full := on_input input_full in
            do! (if negb full then
                   do! modify (fun '(s, i) => (count_key s, i));
                   on_input (input_putc c)
                 else ret tt);
            ret false
        else ret false
    | None =>
        do! match find_shift shift_keys code with
            | Some k => modify (fun '(s, i) => (set_key k (negb release) s, i))
            | None => ret tt
            end;
        ret false
    end.

End kbd.

(** What the buffer promises in the states [in_ok]: a key is kept if there is room. *)
Class InputLaws (I : Type) `{InputOps I} := {
  in_ok : I -> Prop;
  in_keys : I -> list Z;
  in_room : I -> bool;
  full_law i : in_ok i -> input_full i = Ok (negb (in_room i), i);
  putc_law i c : in_ok i -> in_room i = true -> exists i', input_putc c i = Ok (tt, i') /\ in_ok i' /\ in_keys i' = in_keys i ++ [c] }.

(** The input buffer of [Serial]. *)
#[export] Instance port_input (U : Type) : InputOps (Serial.port U) :=
  {| input_full := Serial.input_full; input_putc := Serial.input_putc |}.
Definition port_input_laws (U : Type) (w r : Z) (early : list Z) : InputLaws (Serial.port U).
Proof.
  refine {| in_ok s := SerialProps.good w r early s; in_keys s := Intq.came_in (Serial.buffer s); in_room s := negb (Intq.intq_full (Intq.queue (Serial.buffer s))) |}.
  - intros s _. cbn. by rewrite negb_involutive.
  - intros s c [Hs _] Hf. apply negb_true_iff in Hf. destruct (SerialProps.input_putc_run w r early s c Hs Hf) as (s' & E & Hg & _ & Ek). by exists s'.
Defined.

End Kbd.

(** * The keyboard types what is on its keys *)

Module KbdProps.
Import Kbd.

(** ** A reference keyboard *)

(** Scan codes of the keys of a US keyboard, without shift and with it. *)
Definition us_layout : list (Z * (Z * Z)) :=
  let row first plain shifted := imap (fun i p => (first + Z.of_nat i, p)) (zip plain shifted) in
  row 2 (text "1234567890-=") (text "!@#$%^&*()_+") ++
  row 16 (text "qwertyuiop[]") (text "QWERTYUIOP{}") ++
  row 30 (text "asdfghjkl;'`") (text "ASDFGHJKL:" ++ [34] ++ text "~") ++
  row 43 [92] (text "|") ++
  row 44 (text "zxcvbnm,./") (text "ZXCVBNM<>?") ++
  [(57, (32, 32)); (55, (42, 42)); (1, (27, 27)); (14, (8, 8)); (15, (9, 9)); (28, (13, 13)); (83, (127, 127))].
Fixpoint key_of (l : list (Z * (Z * Z))) (code : Z) : option (Z * Z) :=
  match l with [] => None | (k, p) :: l => if k =? code then Some p else key_of l code end.
Definition is_letter (c : Z) : bool := ((65 <=? c) && (c <=? 90)) || ((97 <=? c) && (c <=? 122)).
(** Caps lock turns the shift key around for letters; control makes a control character of the
    upper case letters and of the others in their part of the table; alt sets the top bit. *)
Definition us_char (shift alt ctrl caps : bool) (p : Z * Z) : Z :=
  let up := if is_letter (fst p) then xorb shift caps else shift in
  let c := if up then snd p else fst p in
  let top := if is_letter c then snd p else c in
  let c := if ctrl && (64 <=? top) && (top <? 96) then top - 64 else c in
  if alt then c + 128 else c.

Definition bools : list bool := [false; true].
(** What the handler computes for a code, from its tables. *)
Definition on_key (shift : bool) (code : Z) : option Z :=
  match map_key invariant_keymap code with
  | Some c => Some c
  | None => if negb shift then map_key unshifted_keymap code else map_key shifted_keymap code
  end.
Definition typed (shift alt ctrl caps : bool) (code : Z) : option Z :=
  modify_char shift alt ctrl caps <$> on_key shift code.
Lemma typed_us_all : forallb (fun shift => forallb (fun alt => forallb (fun ctrl => forallb (fun caps => forallb (fun code =>
  bool_decide (typed shift alt ctrl caps code = us_char shift alt ctrl caps <$> key_of us_layout code)) (seqZ 0 128)) bools) bools) bools) bools = true.
Proof. vm_compute. reflexivity. Qed.
Lemma in_bools b : In b bools.
Proof. destruct b; cbn; tauto. Qed.
Lemma typed_us shift alt ctrl caps code : 0 <= code < 128 -> typed shift alt ctrl caps code = us_char shift alt ctrl caps <$> key_of us_layout code.
Proof.
  intros Hc. pose proof typed_us_all as H. rewrite forallb_forall in H. specialize (H shift (in_bools shift)).
  rewrite forallb_forall in H. specialize (H alt (in_bools alt)). rewrite forallb_forall in H. specialize (H ctrl (in_bools ctrl)).
  rewrite forallb_forall in H. specialize (H caps (in_bools caps)). rewrite forallb_forall in H. specialize (H code).
  apply bool_decide_eq_true in H; [done|]. apply list_elem_of_In, elem_of_seqZ. lia.
Qed.

(** ** Keys that are held down *)

(** A key goes down or up; the keys of the second group are sent with a prefix. *)
Record key_event := { code : Z; up : bool }.
Definition valid_key (c : Z) : bool := ((1 <=? c) && (c <? 128) && negb (c =? 96)) || ((57344 <=? c) && (c <? 57472)).
Definition bytes_of (e : key_event) : Z * Z :=
  let c := code e + if up e then 128 else 0 in if c <? 256 then (c, 0) else (224, c - 57344).
Record hands := { held : gset Z; caps : bool }.
Definition hands_step (h : hands) (e : key_event) : hands :=
  {| held := if up e then held h ∖ {[code e]} else held h ∪ {[code e]};
     caps := if (code e =? 58) && negb (up e) then negb (caps h) else caps h |}.
Definition shift_down (h : hands) : bool := bool_decide (42 ∈ held h) || bool_decide (54 ∈ held h).
Definition alt_down (h : hands) : bool := bool_decide (56 ∈ held h) || bool_decide (57400 ∈ held h).
Definition ctrl_down (h : hands) : bool := bool_decide (29 ∈ held h) || bool_decide (57373 ∈ held h).
(** The character that the key types. *)
Definition expected (h : hands) (e : key_event) : option Z :=
  if up e then None else us_char (shift_down h) (alt_down h) (ctrl_down h) (caps h) <$> key_of us_layout (code e).
Definition restarts (h : hands) (e : key_event) : bool := negb (up e) && (code e =? 83) && ctrl_down h && alt_down h.

Definition key_codes : list Z := List.filter valid_key (seqZ 0 128 ++ seqZ 57344 128).
Lemma valid_in c : valid_key c = true -> In c key_codes.
Proof.
  intros Hv. apply filter_In. split; [|done]. apply in_app_iff. rewrite <- !list_elem_of_In, !elem_of_seqZ. unfold valid_key in Hv. lia.
Qed.
Lemma read_code_all : forallb (fun c => forallb (fun u => bool_decide (read_code (fst (bytes_of {| code := c; up := u |})) (snd (bytes_of {| code := c; up := u |})) = (c, u))) bools) key_codes = true.
Proof. vm_compute. reflexivity. Qed.
Lemma read_code_event e : valid_key (code e) = true -> read_code (fst (bytes_of e)) (snd (bytes_of e)) = (code e, up e).
Proof.
  intros Hv. pose proof read_code_all as H. rewrite forallb_forall in H. specialize (H _ (valid_in _ Hv)). rewrite forallb_forall in H. specialize (H (up e) (in_bools _)).
  apply bool_decide_eq_true in H. by destruct e.
Qed.
(** No key is in two tables, only Delete types the last ASCII character, and keys with a prefix type nothing. *)
Definition table_ok (c : Z) (shift : bool) : bool :=
  match on_key shift c with
  | Some x => (c <? 128) && negb (c =? 58) && bool_decide (find_shift shift_keys c = None) && Bool.eqb (x =? 127) (c =? 83)
  | None => bool_decide (key_of us_layout c = None) && negb (c =? 83) && (negb (c =? 58) || bool_decide (find_shift shift_keys c = None))
  end.
Lemma tables_all : forallb (fun c => forallb (table_ok c) bools) key_codes = true.
Proof. vm_compute. reflexivity. Qed.
Lemma tables c shift : valid_key c = true -> table_ok c shift = true.
Proof. intros Hv. pose proof tables_all as H. rewrite forallb_forall in H. specialize (H _ (valid_in _ Hv)). rewrite forallb_forall in H. apply (H shift (in_bools _)). Qed.

(** The handler knows which shift keys are held. *)
Record follows (h : hands) (s : kbd) : Prop := {
  fo_keys : Forall (fun '(c, k) => key_state k s = bool_decide (c ∈ held h)) shift_keys; fo_caps : caps_lock s = caps h }.

Lemma follows_downs h s : follows h s -> left_shift s || right_shift s = shift_down h /\ left_alt s || right_alt s = alt_down h /\ left_ctrl s || right_ctrl s = ctrl_down h.
Proof. intros [Hk _]. unfold shift_keys in Hk. rewrite !Forall_cons in Hk. destruct Hk as (H1 & H2 & H3 & H4 & H5 & H6 & _). cbn [key_state] in *. unfold shift_down, alt_down, ctrl_down. by rewrite H1, H2, H3, H4, H5, H6. Qed.

Lemma find_shift_none l c : find_shift l c = None -> Forall (fun '(c', _) => c' <> c) l.
Proof. induction l as [|[c' k] l IH]; cbn [find_shift]; [constructor|]. destruct (Z.eqb_spec c' c); [done|]. intros E. constructor; [done|by apply IH]. Qed.
Lemma find_shift_some l c k : find_shift l c = Some k -> (c, k) ∈ l.
Proof. induction l as [|[c' k'] l IH]; cbn [find_shift]; [done|]. destruct (Z.eqb_spec c' c) as [->|]; [intros [= <-]; by left|]. intros E. right. by apply IH. Qed.
Definition shift_code (k : shift_key) : Z := match k with LeftShift => 42 | RightShift => 54 | LeftAlt => 56 | RightAlt => 57400 | LeftCtrl => 29 | RightCtrl => 57373 end.
Lemma shift_keys_code : Forall (fun '(c, k) => c = shift_code k) shift_keys.
Proof. repeat constructor. Qed.
Lemma follows_other h s e : find_shift shift_keys (code e) = None -> caps_lock s = caps (hands_step h e) ->
  Forall (fun '(c, k) => key_state k s = bool_decide (c ∈ held h)) shift_keys -> follows (hands_step h e) s.
Proof.
  intros Hn Hc Hk. split; [|done]. apply find_shift_none in Hn. rewrite Forall_forall in *. intros [c k] Hin. specialize (Hn (c, k) Hin). specialize (Hk (c, k) Hin). cbn in Hn. rewrite Hk.
  apply bool_decide_ext. cbn. destruct (up e); set_solver.
Qed.
Lemma key_state_set k k' b s : key_state k' (set_key k b s) = if decide (k = k') then b else key_state k' s.
Proof. by destruct k, k'. Qed.
Lemma follows_shift h s e k : find_shift shift_keys (code e) = Some k -> code e <> 58 -> follows h s -> follows (hands_step h e) (set_key k (negb (up e)) s).
Proof.
  intros Hf Hc [Hk Hcl]. split; [|cbn [hands_step caps]; rewrite (proj2 (Z.eqb_neq _ _)) by done; by destruct k].
  apply find_shift_some in Hf. pose proof shift_keys_code as Hsc. rewrite Forall_forall in Hsc, Hk |- *. pose proof (Hsc _ Hf) as Ek. cbn in Ek.
  intros [c k'] Hin. pose proof (Hsc _ Hin) as Ec. specialize (Hk _ Hin). cbn in Ec, Hk. rewrite key_state_set. cbn [hands_step held]. rewrite Ek. subst c.
  destruct (decide (k = k')) as [->|Hne].
  - destruct (up e); symmetry; [apply bool_decide_eq_false|apply bool_decide_eq_true]; set_solver.
  - rewrite Hk. assert (shift_code k' <> shift_code k) by (by destruct k, k'). apply bool_decide_ext. destruct (up e); set_solver.
Qed.

Section handler.
Context {I : Type} `{HI : InputLaws I}.

Lemma interrupt_run h s (i : I) e : valid_key (code e) = true -> follows h s -> in_ok i -> restarts h e = false ->
  exists s' i', keyboard_interrupt (fst (bytes_of e)) (snd (bytes_of e)) (s, i) = Ok (false, (s', i')) /\ follows (hands_step h e) s' /\ in_ok i' /\
    in_keys i' = in_keys i ++ match expected h e with Some c => if in_room i then [c] else [] | None => [] end.
Proof.
  intros Hv Hf Hi Hr. unfold keyboard_interrupt, gets. rewrite (bind_eq _ _ _ _ _ eq_refl), (read_code_event e Hv). cbn [fst]. destruct (follows_downs h s Hf) as (-> & -> & ->).
  pose proof (tables (code e) (shift_down h) Hv) as Ht. unfold table_ok in Ht. fold (on_key (shift_down h) (code e)). unfold expected. rewrite (fo_caps _ _ Hf).
  destruct (Z.eqb_spec (code e) 58) as [E58|N58].
  - destruct (on_key (shift_down h) (code e)); [rewrite E58 in Ht; cbn in Ht; by rewrite ?andb_false_r in Ht|]. rewrite andb_true_iff, andb_true_iff in Ht. destruct Ht as [[Hk _] Hs]. cbn in Hs.
    apply bool_decide_eq_true in Hk, Hs. destruct (up e) eqn:Eu; (eexists _, i; split; [reflexivity|]; split; [|split; [done|by rewrite ?Hk, app_nil_r]]).
    + apply follows_other; [done| |apply (fo_keys _ _ Hf)]. cbn. rewrite Eu, andb_false_r. apply (fo_caps _ _ Hf).
    + apply follows_other; [done| |].
      * cbn. rewrite Eu, E58. cbn. by rewrite (fo_caps _ _ Hf).
      * apply (Forall_impl _ _ _ (fo_keys _ _ Hf)). intros [c k]. by destruct k.
  - assert (caps (hands_step h e) = caps h) as Ecaps by (cbn; by rewrite (proj2 (Z.eqb_neq _ _) N58)).
    destruct (on_key (shift_down h) (code e)) as [x|] eqn:Ex.
    + rewrite !andb_true_iff in Ht. destruct Ht as [[[Hlt _] Hs] Hdel]. apply bool_decide_eq_true in Hs. apply Bool.eqb_prop in Hdel.
      assert (follows (hands_step h e) s /\ follows (hands_step h e) (count_key s)) as [Hf1 Hf2].
      { split; (apply follows_other; [done|by rewrite Ecaps; apply (fo_caps _ _ Hf)|]); [apply (fo_keys _ _ Hf)|]. apply (Forall_impl _ _ _ (fo_keys _ _ Hf)). intros [c k]. by destruct k. }
      destruct (up e) eqn:Eu; cbn [negb]; [eexists s, i; split; [reflexivity|]; split; [done|]; split; [done|by rewrite app_nil_r]|].
      assert ((x =? 127) && ctrl_down h && alt_down h = false) as -> by (rewrite Hdel; unfold restarts in Hr; by rewrite Eu in Hr).
      assert (0 <= code e < 128) as Hrange by (unfold valid_key in Hv; lia). pose proof (typed_us (shift_down h) (alt_down h) (ctrl_down h) (caps h) (code e) Hrange) as Ety.
      unfold typed in Ety. rewrite Ex in Ety. rewrite <- Ety. cbn [fmap option_fmap option_map]. set (c := modify_char _ _ _ _ x).
      erewrite bind_eq; [|unfold on_input; rewrite (full_law i Hi); reflexivity]. rewrite negb_involutive. destruct (in_room i) eqn:Ero; [|eexists s, i; split; [reflexivity|]; split; [done|]; split; [done|by rewrite app_nil_r]].
      destruct (putc_law i c Hi Ero) as (i' & E & Hi' & Ek). exists (count_key s), i'. split; [|done]. unfold bind, modify, on_input, ret. by rewrite E.
    + rewrite !andb_true_iff in Ht. destruct Ht as [[Hk _] _]. apply bool_decide_eq_true in Hk. rewrite Hk. destruct (find_shift shift_keys (code e)) as [k|] eqn:Ef.
      * eexists _, i. split; [reflexivity|]. split; [by apply follows_shift|]. split; [done|]. destruct (up e); by rewrite app_nil_r.
      * eexists s, i. split; [reflexivity|]. split; [apply follows_other; [done|by rewrite Ecaps; apply (fo_caps _ _ Hf)|apply (fo_keys _ _ Hf)]|]. split; [done|]. destruct (up e); by rewrite app_nil_r.
Qed.

(** Interrupts for a sequence of keys, up to a restart. *)
Fixpoint type_keys (es : list key_event) : M (kbd * I) bool :=
  match es with
  | [] => ret false
  | e :: es => let! b := keyboard_interrupt (fst (bytes_of e)) (snd (bytes_of e)) in if b then ret true else type_keys es
  end.
Definition kbd_boot : kbd :=
  {| left_shift := false; right_shift := false; left_alt := false; right_alt := false; left_ctrl := false; right_ctrl := false; caps_lock := false; key_cnt := 0 |}.
Definition no_hands : hands := {| held := ∅; caps := false |}.
Definition after (h : hands) (es : list key_event) : hands := fold_left hands_step es h.
Fixpoint no_restart (h : hands) (es : list key_event) : bool :=
  match es with [] => true | e :: es => negb (restarts h e) && no_restart (hands_step h e) es end.
Lemma type_keys_run es : forall h s (i : I), Forall (fun e => valid_key (code e) = true) es -> follows h s -> in_ok i -> no_restart h es = true ->
  exists s' i', type_keys es (s, i) = Ok (false, (s', i')) /\ follows (after h es) s' /\ in_ok i'.
Proof.
  induction es as [|e es IH]; intros h s i Hv Hf Hi Hr; cbn [type_keys]; [by exists s, i|]. apply Forall_cons in Hv as [He Hv]. cbn in Hr. apply andb_true_iff in Hr as [Hr1 Hr]. apply negb_true_iff in Hr1.
  destruct (interrupt_run h s i e He Hf Hi Hr1) as (s1 & i1 & E & Hf1 & Hi1 & _). rewrite (bind_eq _ _ _ _ _ E). by apply IH.
Qed.
Lemma boot_follows : follows no_hands kbd_boot.
Proof. split; [|done]. repeat constructor. Qed.

(** C17: The keyboard handler types what a US keyboard types: after any sequence of keys that
    were pressed and released (without Ctrl+Alt+Delete), the next key puts into the input
    buffer, if there is room, the character that the key has with the shift, control and alt
    keys that are held down at that time and with caps lock, and nothing otherwise; keys that
    are released and the shift keys type nothing. *)
Theorem keyboard_types es e (i : I) : Forall (fun e => valid_key (code e) = true) (es ++ [e]) -> in_ok i -> no_restart no_hands (es ++ [e]) = true ->
  exists s1 i1 s2 i2, type_keys es (kbd_boot, i) = Ok (false, (s1, i1)) /\
    keyboard_interrupt (fst (bytes_of e)) (snd (bytes_of e)) (s1, i1) = Ok (false, (s2, i2)) /\
    in_keys i2 = in_keys i1 ++ match expected (after no_hands es) e with Some c => if in_room i1 then [c] else [] | None => [] end.
Proof.
  intros Hv Hi Hr. apply Forall_app in Hv as [Hv He]. apply Forall_cons in He as [He _].
  assert (forall h, no_restart h (es ++ [e]) = no_restart h es && negb (restarts (after h es) e)) as Hsplit.
  { clear. induction es as [|e' es IH]; intros h; cbn; [by rewrite andb_true_r|]. by rewrite IH, andb_assoc. }
  rewrite Hsplit in Hr. apply andb_true_iff in Hr as [Hr1 Hr2]. apply negb_true_iff in Hr2.
  destruct (type_keys_run es no_hands kbd_boot i Hv boot_follows Hi Hr1) as (s1 & i1 & E1 & Hf1 & Hi1).
  destruct (interrupt_run _ s1 i1 e He Hf1 Hi1 Hr2) as (s2 & i2 & E2 & _ & _ & Ek). by exists s1, i1, s2, i2.
Qed.

(** Every character that can be printed is on a key, with or without shift. *)
Lemma every_char c : 32 <= c < 127 -> exists k shift, 1 <= k < 128 /\ us_char shift false false false <$> key_of us_layout k = Some c.
Proof.
  intros Hc. assert (existsb (fun k => existsb (fun shift => bool_decide (us_char shift false false false <$> key_of us_layout k = Some c)) bools) (seqZ 1 127) = true) as Hex.
  { assert (forallb (fun c => existsb (fun k => existsb (fun shift => bool_decide (us_char shift false false false <$> key_of us_layout k = Some c)) bools) (seqZ 1 127)) (seqZ 32 95) = true) as H' by (vm_compute; reflexivity).
    rewrite forallb_forall in H'. apply H'. apply list_elem_of_In, elem_of_seqZ. lia. }
  apply existsb_exists in Hex as (k & Hk & Hex). apply existsb_exists in Hex as (shift & _ & E). apply bool_decide_eq_true in E. exists k, shift. split; [|done]. apply list_elem_of_In, elem_of_seqZ in Hk. lia.
Qed.
End handler.

(** Shift, A, and the same with control. *)
#[local] Instance list_input : InputOps (list Z) := {| input_full := ret false; input_putc c l := Ok (tt, l ++ [c]) |}.
#[local] Instance list_input_laws : InputLaws (list Z).
Proof. refine {| in_ok _ := True; in_keys l := l; in_room _ := true |}; [done|]. intros i c _ _. by eexists. Defined.
Lemma keyboard_types_witness : exists s1 s2 i1, type_keys [{| code := 42; up := false |}] (kbd_boot, []) = Ok (false, (s1, i1)) /\
  keyboard_interrupt 30 0 (s1, i1) = Ok (false, (s2, i1 ++ [65])).
Proof.
  destruct (keyboard_types [{| code := 42; up := false |}] {| code := 30; up := false |} []) as (s1 & i1 & s2 & i2 & E1 & E2 & Ek); [repeat constructor|exact I|reflexivity|].
  exists s1, s2, i1. split; [exact E1|]. cbn [in_keys in_room list_input_laws] in Ek. rewrite Ek in E2. exact E2.
Defined.

End KbdProps.
