(* ===== verification/Bitmap.v ===== *)
(** * lib/kernel/bitmap.c: bitmaps

    [struct bitmap] is a bit count and an array of 32-bit elements.  The
    operations are those of the source; [bit b i] is the abstract array of bits
    the header comment promises, and every operation is characterised by what it
    does to that array. *)

From S2P Require Import Prelude.

Module Bitmap.

(** ** Data *)

Definition ELEM_BITS : Z := 32.
Definition BITMAP_ERROR : Z := 4294967295.

Record bitmap := { bit_cnt : Z; bits : list Z }.

Definition elem_idx (bit_idx : Z) : Z := bit_idx / ELEM_BITS.
Definition bit_mask (bit_idx : Z) : Z := u32 (Z.shiftl 1 (bit_idx mod ELEM_BITS)).
(** [DIV_ROUND_UP (bit_cnt, ELEM_BITS)] *)
Definition elem_cnt (bit_cnt : Z) : Z := u32 (bit_cnt + ELEM_BITS - 1) / ELEM_BITS.
Definition byte_cnt (bit_cnt : Z) : Z := u32 (4 * elem_cnt bit_cnt).
Definition last_mask (b : bitmap) : Z :=
  let last_bits := bit_cnt b mod ELEM_BITS in
  if last_bits =? 0 then u32 (-1) else u32 (u32 (Z.shiftl 1 last_bits) - 1).

(** ** Operations *)

(** [b->bits[idx]] and the assignment to it. *)
Definition load (idx : Z) : M bitmap Z := fun b =>
  match bits b !! Z.to_nat idx with
  | Some v => if 0 <=? idx then Ok (v, b) else Err WildAccess
  | None => Err WildAccess
  end.
Definition store (idx v : Z) : M bitmap unit := fun b =>
  if (0 <=? idx) && (idx <? Z.of_nat (length (bits b)))
  then Ok (tt, {| bit_cnt := bit_cnt b; bits := <[Z.to_nat idx := v]> (bits b) |})
  else Err WildAccess.

Definition bitmap_size : M bitmap Z := gets bit_cnt.

Definition bitmap_mark (bit_idx : Z) : M bitmap unit :=
  let idx := elem_idx bit_idx in
  let mask := bit_mask bit_idx in
  let! v := load idx in
  store idx (Z.lor v mask).
Definition bitmap_reset (bit_idx : Z) : M bitmap unit :=
  let idx := elem_idx bit_idx in
  let mask := bit_mask bit_idx in
  let! v := load idx in
  store idx (Z.land v (u32 (Z.lnot mask))).
Definition bitmap_flip (bit_idx : Z) : M bitmap unit :=
  let idx := elem_idx bit_idx in
  let mask := bit_mask bit_idx in
  let! v := load idx in
  store idx (Z.lxor v mask).

Definition bitmap_set (idx : Z) (value : bool) : M bitmap unit :=
  let! n := bitmap_size in
  do! assert (idx <? n);
  if value then bitmap_mark idx else bitmap_reset idx.

Definition bitmap_test (idx : Z) : M bitmap bool :=
  let! n := bitmap_size in
  do! assert (idx <? n);
  let! v := load (elem_idx idx) in
  ret (negb (Z.land v (bit_mask idx) =? 0)).

(** The loop over [n] remaining bits, from bit [i]. *)
Fixpoint set_loop (n : nat) (i : Z) (value : bool) : M bitmap unit :=
  match n with
  | O => ret tt
  | S n => do! bitmap_set i value; set_loop n (i + 1) value
  end.
Definition bitmap_set_multiple (start cnt : Z) (value : bool) : M bitmap unit :=
  let! n := bitmap_size in
  do! assert (start <=? n);
  do! assert (u32 (start + cnt) <=? n);
  set_loop (Z.to_nat cnt) start value.

Definition bitmap_set_all (value : bool) : M bitmap unit :=
  let! n := bitmap_size in bitmap_set_multiple 0 n value.

Fixpoint count_loop (n : nat) (i : Z) (value : bool) (value_cnt : Z) : M bitmap Z :=
  match n with
  | O => ret value_cnt
  | S n =>
      let! t := bitmap_test i in
      count_loop n (i + 1) value (if eqb t value then u32 (value_cnt + 1) else value_cnt)
  end.
Definition bitmap_count (start cnt : Z) (value : bool) : M bitmap Z :=
  let! n := bitmap_size in
  do! assert (start <=? n);
  do! assert (u32 (start + cnt) <=? n);
  count_loop (Z.to_nat cnt) start value 0.

Fixpoint contains_loop (n : nat) (i : Z) (value : bool) : M bitmap bool :=
  match n with
  | O => ret false
  | S n =>
      let! t := bitmap_test i in
      if eqb t value then ret true else contains_loop n (i + 1) value
  end.
Definition bitmap_contains (start cnt : Z) (value : bool) : M bitmap bool :=
  let! n := bitmap_size in
  do! assert (start <=? n);
  do! assert (u32 (start + cnt) <=? n);
  contains_loop (Z.to_nat cnt) start value.

Definition bitmap_any (start cnt : Z) : M bitmap bool := bitmap_contains start cnt true.
Definition bitmap_none (start cnt : Z) : M bitmap bool :=
  let! r := bitmap_contains start cnt true in ret (negb r).
Definition bitmap_all (start cnt : Z) : M bitmap bool :=
  let! r := bitmap_contains start cnt false in ret (negb r).

(** The candidates left to try are the [n] positions from [i]. *)
Fixpoint scan_loop (n : nat) (i cnt : Z) (value : bool) : M bitmap Z :=
  match n with
  | O => ret BITMAP_ERROR
  | S n =>
      let! c := bitmap_contains i cnt (negb value) in
      if negb c then ret i else scan_loop n (i + 1) cnt value
  end.
Definition bitmap_scan (start cnt : Z) (value : bool) : M bitmap Z :=
  let! n := bitmap_size in
  do! assert (start <=? n);
  if cnt <=? n then scan_loop (Z.to_nat (n - cnt - start + 1)) start cnt value
  else ret BITMAP_ERROR.

Definition bitmap_scan_and_flip (start cnt : Z) (value : bool) : M bitmap Z :=
  let! idx := bitmap_scan start cnt value in
  do! (if negb (idx =? BITMAP_ERROR) then bitmap_set_multiple idx cnt (negb value) else ret tt);
  ret idx.

(** [b_ok] and [bits]: what the two calls of [malloc] give, the second one an
    array of [elem_cnt bit_cnt] words of arbitrary contents. *)
Definition bitmap_create (bit_cnt : Z) (b_ok : bool) (bits : option (list Z)) : res (option bitmap) :=
  let finish bits :=
    match bitmap_set_all false {| bit_cnt := bit_cnt; bits := bits |} with
    | Ok (_, b) => Ok (Some b)
    | Err f => Err f
    end in
  if b_ok then
    match bits with
    | Some bits => finish bits
    | None => if bit_cnt =? 0 then finish [] else Ok None
    end
  else Ok None.

Definition bitmap_buf_size (bit_cnt : Z) : Z := u32 (8 + byte_cnt bit_cnt).
Definition bitmap_create_in_buf (bit_cnt block_size : Z) (block : list Z) : res bitmap :=
  if block_size >=? bitmap_buf_size bit_cnt then
    match bitmap_set_all false {| bit_cnt := bit_cnt; bits := block |} with
    | Ok (_, b) => Ok b
    | Err f => Err f
    end
  else Err AssertFail.

Definition bitmap_file_size : M bitmap Z := gets (fun b => byte_cnt (bit_cnt b)).

(** ** The abstract array of bits *)

Definition bit (b : bitmap) (i : Z) : bool :=
  match bits b !! Z.to_nat (i / ELEM_BITS) with
  | Some v => Z.testbit v (i mod ELEM_BITS)
  | None => false
  end.

Record wf (b : bitmap) : Prop := {
  wf_cnt : 0 <= bit_cnt b <= 2 ^ 32 - 32;
  wf_len : Z.of_nat (length (bits b)) = elem_cnt (bit_cnt b);
  wf_words : Forall (fun v => 0 <= v < 2 ^ 32) (bits b) }.

Lemma elem_cnt_eq n : 0 <= n <= 2 ^ 32 - 32 -> elem_cnt n = (n + 31) / 32.
Proof. intros Hn. unfold elem_cnt, ELEM_BITS. rewrite wrapu_small by lia. f_equal; lia. Qed.

Lemma wf_elem b i : wf b -> 0 <= i < bit_cnt b ->
  exists v, bits b !! Z.to_nat (i / 32) = Some v /\ 0 <= v < 2 ^ 32.
Proof.
  intros [Hc Hl Hw] Hi. rewrite elem_cnt_eq in Hl by done.
  destruct (lookup_lt_is_Some_2 (bits b) (Z.to_nat (i / 32))) as [v Hv].
  { apply Nat2Z.inj_lt. rewrite Hl, Z2Nat.id by (apply Z.div_pos; lia).
    apply Z.div_lt_upper_bound; [lia|]. pose proof (Z.mod_pos_bound (bit_cnt b + 31) 32).
    pose proof (Z.div_mod (bit_cnt b + 31) 32). lia. }
  exists v. split; [done|]. by eapply (Forall_lookup_1 _ _ _ _ Hw).
Qed.

Lemma load_run b i : wf b -> 0 <= i < bit_cnt b ->
  exists v, load (elem_idx i) b = Ok (v, b) /\ 0 <= v < 2 ^ 32 /\
    bits b !! Z.to_nat (i / 32) = Some v /\ bit b i = Z.testbit v (i mod 32).
Proof.
  intros Hwf Hi. destruct (wf_elem b i Hwf Hi) as (v & Hv & Hr). exists v.
  unfold load, elem_idx, bit, ELEM_BITS. rewrite Hv.
  rewrite (proj2 (Z.leb_le 0 _)) by (apply Z.div_pos; lia). done.
Qed.

Lemma mask_testbit i k : 0 <= k -> Z.testbit (bit_mask i) k = (k =? i mod 32).
Proof.
  intros Hk. unfold bit_mask, ELEM_BITS. pose proof (Z.mod_pos_bound i 32).
  rewrite testbit_wrapu, Z.shiftl_1_l, Z.pow2_bits_eqb by lia.
  destruct (Z.eqb_spec (i mod 32) k), (Z.eqb_spec k (i mod 32)), (Z.ltb_spec k 32); done || lia.
Qed.

Lemma land_mask v i : (Z.land v (bit_mask i) =? 0) = negb (Z.testbit v (i mod 32)).
Proof.
  pose proof (Z.mod_pos_bound i 32). destruct (Z.testbit v (i mod 32)) eqn:E; simpl.
  - apply Z.eqb_neq. intros H0. apply (f_equal (fun x => Z.testbit x (i mod 32))) in H0.
    rewrite Z.land_spec, E, mask_testbit, Z.eqb_refl, Z.bits_0 in H0 by lia. done.
  - apply Z.eqb_eq, Z.bits_inj'. intros k Hk. rewrite Z.land_spec, Z.bits_0, mask_testbit by done.
    destruct (Z.eqb_spec k (i mod 32)) as [->|]; [by rewrite E|by rewrite andb_false_r].
Qed.

Lemma bitmap_test_run b i : wf b -> 0 <= i < bit_cnt b -> bitmap_test i b = Ok (bit b i, b).
Proof.
  intros Hwf Hi. destruct (load_run b i Hwf Hi) as (v & Hl & _ & _ & Hb).
  unfold bitmap_test, bitmap_size, gets. erewrite bind_eq; [|done].
  erewrite bind_eq; [|apply assert_true; lia]. erewrite bind_eq; [|exact Hl].
  by rewrite land_mask, negb_involutive, Hb.
Qed.

(** [b'] is [b] with the bits of the positions [P] replaced by [f]. *)
Definition updated (P : Z -> bool) (f : Z -> bool) (b b' : bitmap) : Prop :=
  wf b' /\ bit_cnt b' = bit_cnt b /\
  forall j, 0 <= j -> bit b' j = if P j then f j else bit b j.

Lemma store_run b i v w g :
  wf b -> 0 <= i < bit_cnt b -> bits b !! Z.to_nat (i / 32) = Some v ->
  0 <= w < 2 ^ 32 ->
  (forall k, 0 <= k < 32 -> Z.testbit w k = if k =? i mod 32 then g else Z.testbit v k) ->
  exists b', store (elem_idx i) w b = Ok (tt, b') /\ updated (Z.eqb i) (fun _ => g) b b'.
Proof.
  intros Hwf Hi Hv Hw Hb. pose proof (lookup_lt_Some _ _ _ Hv) as Hlt.
  assert (0 <= i / 32) by (apply Z.div_pos; lia).
  exists {| bit_cnt := bit_cnt b; bits := <[Z.to_nat (i / 32) := w]> (bits b) |}.
  split; [|split; [|split; [done|]]].
  - unfold store, elem_idx, ELEM_BITS. rewrite (proj2 (Z.leb_le _ _)), (proj2 (Z.ltb_lt _ _)) by lia. done.
  - destruct Hwf as [W1 W2 W3]. split; [done|by simpl; rewrite length_insert|].
    by apply Forall_insert.
  - intros j Hj. unfold bit, ELEM_BITS. simpl. pose proof (Z.mod_pos_bound j 32).
    pose proof (Z.div_mod i 32). pose proof (Z.div_mod j 32).
    destruct (decide (i / 32 = j / 32)) as [E|E].
    + rewrite <- E, list_lookup_insert_eq, Hv, Hb by lia.
      destruct (Z.eqb_spec (j mod 32) (i mod 32)), (Z.eqb_spec i j); try done; lia || congruence.
    + rewrite list_lookup_insert_ne.
      2: { intros E'. apply E. apply Z2Nat.inj in E'; [done..|]. apply Z.div_pos; lia. }
      destruct (Z.eqb_spec i j); [congruence|done].
Qed.

Lemma bitmap_mark_run b i : wf b -> 0 <= i < bit_cnt b ->
  exists b', bitmap_mark i b = Ok (tt, b') /\ updated (Z.eqb i) (fun _ => true) b b'.
Proof.
  intros Hwf Hi. destruct (load_run b i Hwf Hi) as (v & Hl & Hr & Hv & _).
  unfold bitmap_mark. erewrite bind_eq; [|exact Hl]. eapply store_run; [done..| |].
  - unfold bit_mask. auto with words.
  - intros k Hk. rewrite Z.lor_spec, mask_testbit by lia.
    destruct (k =? i mod 32); [by rewrite orb_true_r|by rewrite orb_false_r].
Qed.

Lemma bitmap_reset_run b i : wf b -> 0 <= i < bit_cnt b ->
  exists b', bitmap_reset i b = Ok (tt, b') /\ updated (Z.eqb i) (fun _ => false) b b'.
Proof.
  intros Hwf Hi. destruct (load_run b i Hwf Hi) as (v & Hl & Hr & Hv & _).
  unfold bitmap_reset. erewrite bind_eq; [|exact Hl]. eapply store_run; [done..| |].
  - apply land_range; [lia|done].
  - intros k Hk. rewrite Z.land_spec, testbit_wrapu, Z.lnot_spec, mask_testbit by lia.
    rewrite (proj2 (Z.ltb_lt k 32)) by lia. simpl.
    destruct (k =? i mod 32); [by rewrite andb_false_r|by rewrite andb_true_r].
Qed.

Lemma bitmap_flip_run b i : wf b -> 0 <= i < bit_cnt b ->
  exists b', bitmap_flip i b = Ok (tt, b') /\ updated (Z.eqb i) (fun j => negb (bit b j)) b b'.
Proof.
  intros Hwf Hi. destruct (load_run b i Hwf Hi) as (v & Hl & Hr & Hv & Hb).
  unfold bitmap_flip. erewrite bind_eq; [|exact Hl].
  destruct (store_run b i v (Z.lxor v (bit_mask i)) (negb (bit b i))) as (b' & R & W & C & U); [done..| | |].
  - unfold bit_mask. auto with words.
  - intros k Hk. rewrite Z.lxor_spec, mask_testbit, Hb by lia.
    destruct (Z.eqb_spec k (i mod 32)) as [->|]; [by rewrite xorb_true_r|by rewrite xorb_false_r].
  - exists b'. split; [done|]. split; [done|]. split; [done|]. intros j Hj. rewrite U by done.
    by destruct (Z.eqb_spec i j) as [->|].
Qed.

Lemma bitmap_set_run b i v : wf b -> 0 <= i < bit_cnt b ->
  exists b', bitmap_set i v b = Ok (tt, b') /\ updated (Z.eqb i) (fun _ => v) b b'.
Proof.
  intros Hwf Hi. unfold bitmap_set, bitmap_size, gets. erewrite bind_eq; [|done].
  erewrite bind_eq; [|apply assert_true; lia].
  destruct v; [by apply bitmap_mark_run|by apply bitmap_reset_run].
Qed.

(** ** Ranges of bits *)

(** The positions of the range of [cnt] bits from [start]. *)
Definition in_range (start cnt j : Z) : bool := (start <=? j) && (j <? start + cnt).

Lemma in_range_spec start cnt j : in_range start cnt j = true <-> start <= j < start + cnt.
Proof. unfold in_range. lia. Qed.

Lemma updated_refl b : wf b -> updated (fun _ => false) (fun _ => false) b b.
Proof. by intros Hwf. Qed.

Lemma set_loop_run n : forall b i v, wf b -> 0 <= i -> i + Z.of_nat n <= bit_cnt b ->
  exists b', set_loop n i v b = Ok (tt, b') /\ updated (in_range i (Z.of_nat n)) (fun _ => v) b b'.
Proof.
  induction n as [|n IH]; intros b i v Hwf Hi Hn; simpl set_loop.
  - exists b. split; [done|]. split; [done|]. split; [done|]. intros j Hj.
    destruct (in_range i (Z.of_nat 0) j) eqn:E; [|done]. apply in_range_spec in E. lia.
  - destruct (bitmap_set_run b i v) as (b1 & R1 & W1 & C1 & U1); [done|lia|].
    erewrite bind_eq; [|exact R1].
    destruct (IH b1 (i + 1) v) as (b2 & R2 & W2 & C2 & U2); [done|lia..|].
    exists b2. split; [done|]. split; [done|]. split; [congruence|]. intros j Hj.
    rewrite U2, U1 by done. unfold in_range.
    destruct (Z.leb_spec (i + 1) j), (Z.ltb_spec j (i + 1 + Z.of_nat n)), (Z.leb_spec i j),
      (Z.ltb_spec j (i + Z.of_nat (S n))), (Z.eqb_spec i j); done || lia.
Qed.

Lemma range_guards {A} (k : M bitmap A) b start cnt :
  wf b -> 0 <= start -> 0 <= cnt -> start + cnt <= bit_cnt b ->
  (let! n := bitmap_size in
   do! assert (start <=? n);
   do! assert (u32 (start + cnt) <=? n);
   k) b = k b.
Proof.
  intros [Hwf _ _] Hs Hc Hn. unfold bitmap_size, gets. erewrite bind_eq; [|done].
  erewrite bind_eq; [|apply assert_true; lia]. rewrite wrapu_small by lia.
  by erewrite bind_eq; [|apply assert_true; lia].
Qed.

Lemma bitmap_set_multiple_run b start cnt v :
  wf b -> 0 <= start -> 0 <= cnt -> start + cnt <= bit_cnt b ->
  exists b', bitmap_set_multiple start cnt v b = Ok (tt, b') /\
    updated (in_range start cnt) (fun _ => v) b b'.
Proof.
  intros Hwf Hs Hc Hn. unfold bitmap_set_multiple. rewrite range_guards by done.
  destruct (set_loop_run (Z.to_nat cnt) b start v) as (b' & R & U); [done|lia..|].
  rewrite Z2Nat.id in U by done. eauto.
Qed.

Lemma bitmap_set_all_run b v : wf b ->
  exists b', bitmap_set_all v b = Ok (tt, b') /\
    updated (in_range 0 (bit_cnt b)) (fun _ => v) b b'.
Proof.
  intros Hwf. unfold bitmap_set_all, bitmap_size, gets. erewrite bind_eq; [|done].
  apply bitmap_set_multiple_run; [done|lia|apply Hwf|lia].
Qed.

(** All of the bits of the range are [v]. *)
Definition all_are (b : bitmap) (start cnt : Z) (v : bool) : Prop :=
  forall j, start <= j < start + cnt -> bit b j = v.

Lemma contains_loop_run n : forall b i v, wf b -> 0 <= i -> i + Z.of_nat n <= bit_cnt b ->
  exists r, contains_loop n i v b = Ok (r, b) /\
    (r = false <-> all_are b i (Z.of_nat n) (negb v)).
Proof.
  induction n as [|n IH]; intros b i v Hwf Hi Hn; simpl contains_loop.
  - exists false. split; [done|]. split; [|done]. intros _ j Hj. lia.
  - erewrite bind_eq; [|apply bitmap_test_run; [done|lia]].
    destruct (bool_eq_dec (bit b i) v) as [E|E].
    + rewrite E, eqb_reflx. exists true. split; [done|]. split; [done|]. intros Ha.
      rewrite (Ha i) in E by lia. by destruct v.
    + rewrite (proj2 (eqb_false_iff _ _) E).
      destruct (IH b (i + 1) v) as (r & R & Hr); [done|lia..|]. exists r. split; [done|].
      rewrite Hr. split; intros Ha j Hj.
      * destruct (decide (j = i)) as [->|]; [by destruct (bit b i), v|apply Ha; lia].
      * apply Ha. lia.
Qed.

Lemma bitmap_contains_run b start cnt v :
  wf b -> 0 <= start -> 0 <= cnt -> start + cnt <= bit_cnt b ->
  exists r, bitmap_contains start cnt v b = Ok (r, b) /\
    (r = false <-> all_are b start cnt (negb v)).
Proof.
  intros Hwf Hs Hc Hn. unfold bitmap_contains. rewrite range_guards by done.
  destruct (contains_loop_run (Z.to_nat cnt) b start v) as (r & R & Hr); [done|lia..|].
  rewrite Z2Nat.id in Hr by done. eauto.
Qed.

(** The number of bits of the range that are [v]. *)
Fixpoint occurrences (b : bitmap) (n : nat) (i : Z) (v : bool) : Z :=
  match n with
  | O => 0
  | S n => (if eqb (bit b i) v then 1 else 0) + occurrences b n (i + 1) v
  end.

Lemma occurrences_bound b n i v : 0 <= occurrences b n i v <= Z.of_nat n.
Proof.
  revert i. induction n as [|n IH]; intros i; cbn [occurrences]; [lia|].
  specialize (IH (i + 1)). destruct (eqb (bit b i) v); lia.
Qed.

Lemma count_loop_run n : forall b i v c, wf b -> 0 <= i -> i + Z.of_nat n <= bit_cnt b ->
  0 <= c -> c + Z.of_nat n < 2 ^ 32 ->
  count_loop n i v c b = Ok (c + occurrences b n i v, b).
Proof.
  induction n as [|n IH]; intros b i v c Hwf Hi Hn Hc Hb; simpl count_loop;
    [by rewrite Z.add_0_r|].
  erewrite bind_eq; [|apply bitmap_test_run; [done|lia]].
  cbn [occurrences]. destruct (eqb (bit b i) v).
  - rewrite wrapu_small by lia. rewrite IH by (done || lia). do 2 f_equal. lia.
  - rewrite IH by (done || lia). do 2 f_equal.
Qed.

Lemma bitmap_count_run b start cnt v :
  wf b -> 0 <= start -> 0 <= cnt -> start + cnt <= bit_cnt b ->
  bitmap_count start cnt v b = Ok (occurrences b (Z.to_nat cnt) start v, b).
Proof.
  intros Hwf Hs Hc Hn. unfold bitmap_count. rewrite range_guards by done.
  pose proof (wf_cnt b Hwf). by rewrite count_loop_run by (done || lia).
Qed.

(** ** Scanning *)

Lemma scan_loop_run n : forall b i cnt v,
  wf b -> 0 <= i -> 0 <= cnt -> i + Z.of_nat n + cnt <= bit_cnt b + 1 ->
  exists r, scan_loop n i cnt v b = Ok (r, b) /\
    ((i <= r < i + Z.of_nat n /\ all_are b r cnt v /\
       forall k, i <= k < r -> ~ all_are b k cnt v) \/
     (r = BITMAP_ERROR /\ forall k, i <= k < i + Z.of_nat n -> ~ all_are b k cnt v)).
Proof.
  induction n as [|n IH]; intros b i cnt v Hwf Hi Hc Hn; simpl scan_loop.
  - exists BITMAP_ERROR. split; [done|]. right. split; [done|]. intros; lia.
  - destruct (bitmap_contains_run b i cnt (negb v)) as (c & R & Hr); [done|lia..|].
    rewrite negb_involutive in Hr. erewrite bind_eq; [|exact R]. destruct c; simpl.
    + assert (~ all_are b i cnt v) as Hno by (intros ?%Hr; done).
      destruct (IH b (i + 1) cnt v) as (r & R' & H'); [done|lia..|]. exists r. split; [done|].
      destruct H' as [(Hb & Ha & Hk)|[-> Hk]].
      * left. split; [lia|]. split; [done|]. intros k ?.
        destruct (decide (k = i)) as [->|]; [done|apply Hk; lia].
      * right. split; [done|]. intros k ?.
        destruct (decide (k = i)) as [->|]; [done|apply Hk; lia].
    + exists i. split; [done|]. left. split; [lia|]. split; [by apply Hr|]. intros; lia.
Qed.

(** What [bitmap_scan] promises of its result [r]. *)
Definition scan_result (b : bitmap) (start cnt : Z) (v : bool) (r : Z) : Prop :=
  (r <> BITMAP_ERROR /\ start <= r /\ r + cnt <= bit_cnt b /\ all_are b r cnt v /\
    forall k, start <= k < r -> ~ all_are b k cnt v) \/
  (r = BITMAP_ERROR /\ forall k, start <= k -> k + cnt <= bit_cnt b -> ~ all_are b k cnt v).

Lemma bitmap_scan_run b start cnt v :
  wf b -> 0 <= start <= bit_cnt b -> 0 <= cnt ->
  exists r, bitmap_scan start cnt v b = Ok (r, b) /\ scan_result b start cnt v r.
Proof.
  intros Hwf Hs Hc. pose proof (wf_cnt b Hwf). unfold bitmap_scan, bitmap_size, gets.
  erewrite bind_eq; [|done]. erewrite bind_eq; [|apply assert_true; lia].
  destruct (Z.leb_spec cnt (bit_cnt b)).
  - destruct (decide (start + cnt <= bit_cnt b)) as [Hf|Hf].
    + destruct (scan_loop_run (Z.to_nat (bit_cnt b - cnt - start + 1)) b start cnt v)
        as (r & R & Hr); [done|lia..|]. exists r. split; [done|].
      destruct Hr as [(Hb & Ha & Hk)|[-> Hk]]; [left|right].
      * split; [unfold BITMAP_ERROR; lia|]. split; [lia|]. split; [lia|done].
      * split; [done|]. intros k ??. apply Hk. lia.
    + replace (Z.to_nat (bit_cnt b - cnt - start + 1)) with 0%nat by lia.
      exists BITMAP_ERROR. split; [done|]. right. split; [done|]. intros; lia.
  - exists BITMAP_ERROR. split; [done|]. right. split; [done|]. intros; lia.
Qed.

Lemma bitmap_scan_and_flip_run b start cnt v :
  wf b -> 0 <= start <= bit_cnt b -> 0 <= cnt ->
  exists r b', bitmap_scan_and_flip start cnt v b = Ok (r, b') /\ scan_result b start cnt v r /\
    (if r =? BITMAP_ERROR then b' = b else updated (in_range r cnt) (fun _ => negb v) b b').
Proof.
  intros Hwf Hs Hc. destruct (bitmap_scan_run b start cnt v) as (r & R & Hr); [done..|].
  unfold bitmap_scan_and_flip. erewrite bind_eq; [|exact R].
  pose proof Hr as [(Hne & ? & ? & _)|[-> _]].
  - rewrite (proj2 (Z.eqb_neq _ _) Hne). simpl.
    destruct (bitmap_set_multiple_run b r cnt (negb v)) as (b' & R' & U); [done|lia..|].
    erewrite bind_eq; [|exact R']. exists r, b'. rewrite (proj2 (Z.eqb_neq _ _) Hne). done.
  - rewrite Z.eqb_refl. simpl. exists BITMAP_ERROR, b. done.
Qed.

(** ** Creation *)

Lemma bitmap_create_run n words :
  0 <= n <= 2 ^ 32 - 32 -> Z.of_nat (length words) = elem_cnt n ->
  Forall (fun v => 0 <= v < 2 ^ 32) words ->
  exists b, bitmap_create n true (Some words) = Ok (Some b) /\ wf b /\ bit_cnt b = n /\
    all_are b 0 n false.
Proof.
  intros Hn Hl Hw. unfold bitmap_create.
  destruct (bitmap_set_all_run {| bit_cnt := n; bits := words |} false) as (b & R & W & C & U).
  { split; done. }
  rewrite R. exists b. simpl in *. split; [done|]. split; [done|]. split; [done|]. intros j Hj.
  rewrite U by lia. by rewrite (proj2 (in_range_spec _ _ _)).
Qed.

(** ** Main property *)

(** On a well-formed bitmap, [bitmap_scan_and_flip] returns the first start of
    a group of [cnt] consecutive bits equal to [value] at or after [start] and sets
    exactly the bits of that group to [!value]; it returns [BITMAP_ERROR] and changes
    nothing exactly when there is no such group.  It never fails an assertion or
    leaves the array, and the bitmap stays well formed. *)
Theorem bitmap_scan_and_flip_correct b start cnt value :
  wf b -> 0 <= start <= bit_cnt b -> 0 <= cnt ->
  exists r b', bitmap_scan_and_flip start cnt value b = Ok (r, b') /\ wf b' /\
    (r = BITMAP_ERROR /\ b' = b /\
       (forall k, start <= k -> k + cnt <= bit_cnt b -> ~ all_are b k cnt value) \/
     r <> BITMAP_ERROR /\ start <= r /\ r + cnt <= bit_cnt b /\ all_are b r cnt value /\
       (forall k, start <= k < r -> ~ all_are b k cnt value) /\
       (forall j, 0 <= j -> bit b' j = if in_range r cnt j then negb value else bit b j)).
Proof.
  intros Hwf Hs Hc.
  destruct (bitmap_scan_and_flip_run b start cnt value) as (r & b' & R & Hr & Hb); [done..|].
  exists r, b'. split; [done|]. destruct Hr as [(Hne & ? & ? & ? & ?)|[-> Hno]].
  - rewrite (proj2 (Z.eqb_neq _ _) Hne) in Hb. destruct Hb as (W & _ & U).
    split; [done|]. right. by split_and!.
  - rewrite Z.eqb_refl in Hb. subst b'. split; [done|]. left. by split_and!.
Qed.

Lemma bitmap_scan_and_flip_correct_witness :
  exists r b', bitmap_scan_and_flip 0 2 false {| bit_cnt := 40; bits := [4294967295; 1] |} = Ok (r, b') /\
    wf b'.
Proof.
  destruct (bitmap_scan_and_flip_correct {| bit_cnt := 40; bits := [4294967295; 1] |} 0 2 false)
    as (r & b' & R & W & _).
  - split; [simpl; lia|by vm_compute|repeat constructor; by vm_compute].
  - simpl; lia.
  - lia.
  - exists r, b'. split; [exact R|exact W].
Defined.

End Bitmap.
