(* ===== verification/VAddr.v ===== *)
(** * threads/vaddr.h, threads/pte.h: addresses and page table entries

    An address is a number below 2^32; the kernel sees the physical memory from
    [PHYS_BASE] on. *)

From S2P Require Import Prelude.

Module VAddr.

Definition PGBITS : Z := 12.
Definition PGSIZE : Z := 4096.
Definition BITMASK (shift cnt : Z) : Z := Z.shiftl (Z.shiftl 1 cnt - 1) shift.
Definition PGMASK : Z := BITMASK 0 PGBITS.
Definition PHYS_BASE : Z := 3221225472.

Definition pg_ofs (va : Z) : Z := Z.land va PGMASK.
Definition pg_no (va : Z) : Z := Z.shiftr va PGBITS.
Definition pg_round_up (va : Z) : Z := Z.land (u32 (va + PGSIZE - 1)) (u32 (Z.lnot PGMASK)).
Definition pg_round_down (va : Z) : Z := Z.land va (u32 (Z.lnot PGMASK)).
Definition is_user_vaddr (va : Z) : bool := va <? PHYS_BASE.
Definition is_kernel_vaddr (va : Z) : bool := va >=? PHYS_BASE.
Definition ptov (paddr : Z) : res Z := if paddr <? PHYS_BASE then Ok (u32 (paddr + PHYS_BASE)) else Err AssertFail.
Definition vtop (va : Z) : res Z := if is_kernel_vaddr va then Ok (va - PHYS_BASE) else Err AssertFail.

(** ** Page tables *)

Definition PTSHIFT : Z := PGBITS.
Definition PTBITS : Z := 10.
Definition PTMASK : Z := BITMASK PTSHIFT PTBITS.
Definition PDSHIFT : Z := PTSHIFT + PTBITS.
Definition pt_no (va : Z) : Z := Z.shiftr (Z.land va PTMASK) PTSHIFT.
Definition pd_no (va : Z) : Z := Z.shiftr va PDSHIFT.

Definition PTE_ADDR : Z := 4294963200.
Definition PTE_P : Z := 1.
Definition PTE_W : Z := 2.
Definition PTE_U : Z := 4.
Definition PTE_A : Z := 32.
Definition PTE_D : Z := 64.

Definition vassert {A} (b : bool) (r : res A) : res A := if b then r else Err AssertFail.
Definition pde_create (pt : Z) : res Z :=
  vassert (pg_ofs pt =? 0) (rbind (vtop pt) (fun p => Ok (Z.lor (Z.lor (Z.lor p PTE_U) PTE_P) PTE_W))).
Definition pde_get_pt (pde : Z) : res Z := vassert (negb (Z.land pde PTE_P =? 0)) (ptov (Z.land pde PTE_ADDR)).
Definition pte_create_kernel (page : Z) (writable : bool) : res Z :=
  vassert (pg_ofs page =? 0) (rbind (vtop page) (fun p => Ok (Z.lor (Z.lor p PTE_P) (if writable then PTE_W else 0)))).
Definition pte_create_user (page : Z) (writable : bool) : res Z :=
  rbind (pte_create_kernel page writable) (fun pte => Ok (Z.lor pte PTE_U)).
Definition pte_get_page (pte : Z) : res Z := ptov (Z.land pte PTE_ADDR).

(** ** The functions in terms of division *)

Lemma pg_ofs_mod va : pg_ofs va = va mod 4096.
Proof. unfold pg_ofs. change PGMASK with (Z.ones 12). by rewrite Z.land_ones. Qed.
Lemma pg_no_div va : pg_no va = va / 4096.
Proof. unfold pg_no. by rewrite Z.shiftr_div_pow2. Qed.
Lemma pd_no_div va : pd_no va = va / 4194304.
Proof. unfold pd_no. by rewrite Z.shiftr_div_pow2. Qed.
Lemma pt_no_div va : pt_no va = (va / 4096) mod 1024.
Proof.
  unfold pt_no. rewrite Z.shiftr_land. change (Z.shiftr PTMASK PTSHIFT) with (Z.ones 10).
  by rewrite Z.land_ones, Z.shiftr_div_pow2.
Qed.

Lemma page_div a o : a mod 4096 = 0 -> 0 <= o < 4096 -> 4096 * ((a + o) / 4096) = a.
Proof.
  intros Hm Ho. apply Z.div_exact in Hm; [|done]. replace (a + o) with (a / 4096 * 4096 + o) by lia.
  rewrite Z.div_add_l, (Z.div_small o) by done. lia.
Qed.
(** Keeping the upper 20 bits of a word. *)
Lemma land_page va : 0 <= va < 2 ^ 32 -> Z.land va PTE_ADDR = 4096 * (va / 4096).
Proof.
  intros Hva. change PTE_ADDR with (Z.shiftl (Z.ones 20) 12). apply Z.bits_inj'. intros n Hn.
  rewrite (Z.mul_comm 4096), <- (Z.shiftl_mul_pow2 _ 12), Z.land_spec, !Z.shiftl_spec by lia.
  destruct (Z.ltb_spec n 12) as [Hlt|Hge].
  - rewrite !(Z.testbit_neg_r _ (n - 12)) by lia. apply andb_false_r.
  - change (va / 4096) with (va / 2 ^ 12). rewrite <- Z.shiftr_div_pow2, Z.shiftr_spec by lia. replace (n - 12 + 12) with n by lia.
    destruct (Z.ltb_spec (n - 12) 20).
    + rewrite Z.ones_spec_low by lia. apply andb_true_r.
    + rewrite Z.ones_spec_high by lia. rewrite (testbit_high 32 va n) by lia. done.
Qed.
Lemma pg_round_down_div va : 0 <= va < 2 ^ 32 -> pg_round_down va = 4096 * (va / 4096).
Proof. intros Hva. by rewrite <- land_page. Qed.
Lemma pg_round_down_in a o : 0 <= a -> a mod 4096 = 0 -> 0 <= o < 4096 -> a + o < 2 ^ 32 -> pg_round_down (a + o) = a.
Proof.
  intros Ha Hm Ho Hlt. rewrite pg_round_down_div by lia. by apply page_div.
Qed.
Lemma pg_ofs_in a o : a mod 4096 = 0 -> 0 <= o < 4096 -> pg_ofs (a + o) = o.
Proof. intros Hm Ho. rewrite pg_ofs_mod, <- Zplus_mod_idemp_l, Hm. by apply Z.mod_small. Qed.

(** A page address with flags in the lower bits. *)
Lemma lor_flags p f : p mod 4096 = 0 -> 0 <= f < 4096 -> Z.lor p f = p + f.
Proof.
  intros Hp Hf. apply Z.div_exact in Hp; [|done]. set (q := p / 4096) in *. clearbody q. subst p.
  change 4096 with (2 ^ 12) in *. rewrite Z.mul_comm, <- Z.shiftl_mul_pow2 by done. symmetry. apply Z.add_nocarry_lor. apply Z.bits_inj'. intros n Hn. rewrite Z.land_spec, Z.bits_0, Z.shiftl_spec by done.
  destruct (Z.ltb_spec n 12).
  - by rewrite (Z.testbit_neg_r _ (n - 12)) by lia.
  - rewrite (testbit_high 12 f n) by lia. apply andb_false_r.
Qed.
Lemma land_page_flags p f : 0 <= p -> p + f < 2 ^ 32 -> p mod 4096 = 0 -> 0 <= f < 4096 -> Z.land (p + f) PTE_ADDR = p.
Proof.
  intros H0 Hlt Hp Hf. rewrite land_page by lia. by apply page_div.
Qed.

(** An address is determined by its directory index, table index and offset. *)
Lemma split_address va : 0 <= va -> va = pd_no va * 4194304 + pt_no va * 4096 + pg_ofs va.
Proof.
  intros Hva. rewrite pd_no_div, pt_no_div, pg_ofs_mod. pose proof (Z.div_mod va 4096 ltac:(done)) as E1.
  pose proof (Z.div_mod (va / 4096) 1024 ltac:(done)) as E2. rewrite Z.div_div in E2 by done. change (4096 * 1024) with 4194304 in E2. lia.
Qed.

End VAddr.
