(* ===== verification/Ram.v ===== *)
(** * Words and blocks of bytes in memory *)

From S2P Require Import Prelude Bytes CString CStringFacts.
Import Bytes CString CStringFacts.

Module Ram.

(** Aligned or not, a word is stored least significant byte first. *)
Definition load32 (a : Z) : M mem Z :=
  let! b0 := load a in
  let! b1 := load (a + 1) in
  let! b2 := load (a + 2) in
  let! b3 := load (a + 3) in
  ret (le_decode [b0; b1; b2; b3]).
Definition store32 (a v : Z) : M mem unit :=
  match le_encode 4 v with
  | [b0; b1; b2; b3] => do! store a b0; do! store (a + 1) b1; do! store (a + 2) b2; store (a + 3) b3
  | _ => ret tt
  end.

Definition word_at (m : mem) (a v : Z) : Prop := bytes_at m a (le_encode 4 v).
(** [m'] differs from [m] at most in the [n] bytes at [a]. *)
Definition frame (m m' : mem) (a n : Z) : Prop :=
  (forall x, ~ (a <= x < a + n) -> m' !! x = m !! x) /\ (forall x, is_Some (m !! x) -> is_Some (m' !! x)).

Lemma ram_frame_refl m a n : frame m m a n.
Proof. by split. Qed.
Lemma ram_frame_trans m1 m2 m3 a n : frame m1 m2 a n -> frame m2 m3 a n -> frame m1 m3 a n.
Proof. intros [A B] [A' B']. split; [intros x Hx; by rewrite A', A|eauto]. Qed.
Lemma frame_weaken m m' a n b k : frame m m' a n -> b <= a -> a + n <= b + k -> frame m m' b k.
Proof. intros [A B] ??. split; [|done]. intros x Hx. apply A. lia. Qed.
Lemma frame_mapped m m' a n b k : frame m m' a n -> mapped m b k -> mapped m' b k.
Proof. intros [_ B] H x Hx. by apply B, H. Qed.
Lemma frame_bytes m m' a n b xs : frame m m' a n -> bytes_at m b xs ->
  b + Z.of_nat (length xs) <= a \/ a + n <= b -> bytes_at m' b xs.
Proof. intros [A _] H Hd. apply (bytes_at_ext m); [|done]. intros x Hx. apply A. lia. Qed.
Lemma frame_word m m' a n b v : frame m m' a n -> word_at m b v -> b + 4 <= a \/ a + n <= b -> word_at m' b v.
Proof. intros F H Hd. apply (frame_bytes m m' a n b); [done..|]. by rewrite le_encode_length. Qed.

Lemma insert_frame (m : mem) a v : frame m (<[a := v]> m) a 1.
Proof.
  split.
  - intros x Hx. apply lookup_insert_ne. lia.
  - intros x Hx. destruct (decide (a = x)) as [->|]; [by rewrite lookup_insert_eq|by rewrite lookup_insert_ne].
Qed.
Lemma store_frame m a v : is_Some (m !! a) -> exists m', store a v m = Ok (tt, m') /\ m' !! a = Some v /\ frame m m' a 1.
Proof. intros H. exists (<[a := v]> m). split; [by apply mem_store_run|]. split; [apply lookup_insert_eq|apply insert_frame]. Qed.

Lemma word_mapped m a v : word_at m a v -> mapped m a 4.
Proof. intros H. apply bytes_at_mapped in H. by rewrite le_encode_length in H. Qed.

Lemma load32_run m a v : is_word v -> word_at m a v -> load32 a m = Ok (v, m).
Proof.
  intros Hv H. unfold word_at, le_encode in H. repeat rewrite bytes_at_cons in H. destruct H as (H0 & H1 & H2 & H3 & _).
  unfold load32. rewrite <- !Z.add_assoc in *. cbn [Z.add Pos.add Pos.succ] in *.
  run_with (mem_load_run _ _ _ H0). run_with (mem_load_run _ _ _ H1). run_with (mem_load_run _ _ _ H2). run_with (mem_load_run _ _ _ H3).
  unfold ret. f_equal. f_equal. apply (le_decode_encode 4). exact Hv.
Qed.

Lemma store32_run m a v : mapped m a 4 -> exists m', store32 a v m = Ok (tt, m') /\ word_at m' a v /\ frame m m' a 4.
Proof.
  intros Hm. unfold store32, word_at. cbn [le_encode]. set (b0 := v mod 256). set (b1 := (v / 256) mod 256).
  set (b2 := (v / 256 / 256) mod 256). set (b3 := (v / 256 / 256 / 256) mod 256). clearbody b0 b1 b2 b3.
  destruct (store_frame m a b0) as (m0 & E0 & L0 & F0); [apply Hm; lia|]. apply (frame_mapped _ _ _ _ _ _ F0) in Hm.
  destruct (store_frame m0 (a + 1) b1) as (m1 & E1 & L1 & F1); [apply Hm; lia|]. apply (frame_mapped _ _ _ _ _ _ F1) in Hm.
  destruct (store_frame m1 (a + 2) b2) as (m2 & E2 & L2 & F2); [apply Hm; lia|]. apply (frame_mapped _ _ _ _ _ _ F2) in Hm.
  destruct (store_frame m2 (a + 3) b3) as (m3 & E3 & L3 & F3); [apply Hm; lia|].
  exists m3. run_with E0. run_with E1. run_with E2. split; [exact E3|].
  rewrite <- (proj1 F1), <- (proj1 F2), <- (proj1 F3) in L0 by lia. rewrite <- (proj1 F2), <- (proj1 F3) in L1 by lia.
  rewrite <- (proj1 F3) in L2 by lia. split.
  - repeat rewrite bytes_at_cons. rewrite <- !Z.add_assoc. cbn [Z.add Pos.add Pos.succ].
    by split_and!.
  - apply (ram_frame_trans _ m0); [apply (frame_weaken _ _ _ _ _ _ F0); lia|]. apply (ram_frame_trans _ m1); [apply (frame_weaken _ _ _ _ _ _ F1); lia|].
    apply (ram_frame_trans _ m2); [apply (frame_weaken _ _ _ _ _ _ F2); lia|]. apply (frame_weaken _ _ _ _ _ _ F3); lia.
Qed.

Lemma memset_loop_run n : forall m a v, mapped m a (Z.of_nat n) ->
  exists m', memset_loop n a v m = Ok (tt, m') /\ bytes_at m' a (replicate n v) /\ frame m m' a (Z.of_nat n).
Proof.
  induction n as [|n IH]; intros m a v Hm; cbn [memset_loop replicate].
  { exists m. split; [done|]. split; [apply bytes_at_nil|apply ram_frame_refl]. }
  destruct (store_frame m a v) as (m1 & E1 & L1 & F1); [apply Hm; lia|]. run_with E1.
  destruct (IH m1 (a + 1) v) as (m' & E & B & F). { intros x Hx. apply F1, Hm. lia. }
  exists m'. split; [done|]. split.
  - apply bytes_at_cons. split; [|done]. rewrite (proj1 F) by lia. done.
  - apply (ram_frame_trans _ m1); [apply (frame_weaken _ _ _ _ _ _ F1)|apply (frame_weaken _ _ _ _ _ _ F)]; lia.
Qed.
Lemma memset_run m a v n : 0 <= n -> a <> 0 -> mapped m a n ->
  exists m', memset a v n m = Ok (a, m') /\ bytes_at m' a (replicate (Z.to_nat n) (u8 v)) /\ frame m m' a n.
Proof.
  intros Hn Ha Hm. unfold memset. rewrite valid_true by auto. erewrite bind_eq; [|done].
  destruct (memset_loop_run (Z.to_nat n) m a (u8 v)) as (m' & E & B & F); [by rewrite Z2Nat.id|]. run_with E.
  exists m'. split; [done|]. split; [done|]. by rewrite Z2Nat.id in F.
Qed.

Lemma copied_frame m m' dst src n : copied m m' dst src n -> mapped m src n -> frame m m' dst n.
Proof.
  intros C Hs. split; intros x Hx; rewrite C; in_ranges. apply Hs. lia.
Qed.
Lemma copied_bytes m m' dst src n xs : copied m m' dst src n -> bytes_at m src xs -> Z.of_nat (length xs) <= n -> bytes_at m' dst xs.
Proof.
  intros C H Hn i x Hx. rewrite C. pose proof (lookup_lt_Some _ _ _ Hx). in_ranges.
  replace (dst + Z.of_nat i - dst + src) with (src + Z.of_nat i) by lia. by apply H.
Qed.

(** ** Reading words of a memory of bytes *)

Definition ram_bytes (m : mem) : Prop := forall x v, m !! x = Some v -> is_byte v.
Definition byte_at (m : mem) (x : Z) : Z := default 0 (m !! x).
Definition read32 (m : mem) (a : Z) : Z := le_decode [byte_at m a; byte_at m (a + 1); byte_at m (a + 2); byte_at m (a + 3)].

Lemma byte_at_run m x : is_Some (m !! x) -> load x m = Ok (byte_at m x, m).
Proof. intros [v E]. unfold load, byte_at. by rewrite E. Qed.
Lemma load32_read m a : mapped m a 4 -> load32 a m = Ok (read32 m a, m).
Proof. intros Hm. unfold load32. do 4 (erewrite bind_eq; [|apply byte_at_run, Hm; lia]). done. Qed.
Lemma byte_at_byte m x : ram_bytes m -> is_byte (byte_at m x).
Proof. intros Hb. unfold byte_at. destruct (m !! x) as [v|] eqn:E; [by apply (Hb x)|done]. Qed.
Lemma read32_word m a : ram_bytes m -> is_word (read32 m a).
Proof. intros Hb. apply (le_decode_range [_; _; _; _]). repeat constructor; by apply byte_at_byte. Qed.
Lemma read32_at m a v : is_word v -> word_at m a v -> read32 m a = v.
Proof.
  intros Hv Hw. pose proof (load32_run m a v Hv Hw) as E. rewrite (load32_read m a) in E by (by apply (word_mapped m a v)). by injection E.
Qed.
Lemma read32_ext m m' a : (forall x, a <= x < a + 4 -> m' !! x = m !! x) -> read32 m' a = read32 m a.
Proof. intros He. unfold read32, byte_at. by rewrite !He by lia. Qed.
Lemma read32_frame m m' x n a : frame m m' x n -> a + 4 <= x \/ x + n <= a -> read32 m' a = read32 m a.
Proof. intros [F _] Hd. apply read32_ext. intros y Hy. apply F. lia. Qed.
Lemma read32_zero m a k n : bytes_at m a (replicate n 0) -> 0 <= k -> k + 4 <= Z.of_nat n -> read32 m (a + k) = 0.
Proof.
  intros Hb Hk Hn. assert (forall j, 0 <= j < 4 -> byte_at m (a + k + j) = 0) as Hz.
  { intros j Hj. unfold byte_at. pose proof (Hb (Z.to_nat (k + j)) 0) as E. rewrite lookup_replicate_2 in E by lia. specialize (E eq_refl).
    replace (a + Z.of_nat (Z.to_nat (k + j))) with (a + k + j) in E by lia. by rewrite E. }
  unfold read32. rewrite <- (Z.add_0_r (a + k)) at 1. by rewrite !Hz by lia.
Qed.
Lemma bytes_frame m m' a xs : ram_bytes m -> frame m m' a (Z.of_nat (length xs)) -> bytes_at m' a xs -> Forall is_byte xs -> ram_bytes m'.
Proof.
  intros Hb [F _] Hx Hxs x v E. destruct (decide (a <= x < a + Z.of_nat (length xs))) as [Hin|Hout]; [|rewrite F in E by done; by apply (Hb x)].
  destruct (lookup_lt_is_Some_2 xs (Z.to_nat (x - a))) as [w Hw]; [lia|]. pose proof (Hx _ _ Hw) as Ew. replace (a + Z.of_nat (Z.to_nat (x - a))) with x in Ew by lia.
  rewrite E in Ew. injection Ew as ->. by apply (Forall_lookup_1 _ _ _ _ Hxs Hw).
Qed.
Lemma store32_read m a v : mapped m a 4 -> is_word v -> ram_bytes m ->
  exists m', store32 a v m = Ok (tt, m') /\ read32 m' a = v /\ frame m m' a 4 /\ ram_bytes m'.
Proof.
  intros Hm Hv Hb. destruct (store32_run m a v Hm) as (m' & E & W & F). exists m'. split; [done|]. split; [by apply read32_at|]. split; [done|].
  apply (bytes_frame m m' a (le_encode 4 v)); [done|by rewrite le_encode_length|done|apply le_encode_bytes].
Qed.

(** A memory of [n] bytes from [a] on. *)
Definition ram_of (a n v : Z) : mem := list_to_map (map (fun i => (a + Z.of_nat i, v)) (seq 0 (Z.to_nat n))).
Lemma ram_of_mapped a n v : mapped (ram_of a n v) a n.
Proof.
  intros x Hx. exists v. unfold ram_of. apply elem_of_list_to_map_1'.
  - intros y Hy. apply list_elem_of_fmap in Hy as (i & Ei & _). by injection Ei.
  - apply list_elem_of_fmap. exists (Z.to_nat (x - a)). split; [f_equal; lia|]. apply elem_of_seq. lia.
Qed.

Lemma ram_of_other a n v x : x < a \/ a + n <= x -> ram_of a n v !! x = None.
Proof.
  intros Hx. unfold ram_of. apply not_elem_of_list_to_map_1. intros H. rewrite map_map in H. cbn in H.
  apply list_elem_of_In, in_map_iff in H as (i & E & Hi). apply in_seq in Hi. lia.
Qed.
Lemma ram_of_value a n v x w : ram_of a n v !! x = Some w -> w = v.
Proof. unfold ram_of. intros E. apply elem_of_list_to_map_2 in E. apply list_elem_of_fmap in E as (i & Ei & _). by injection Ei. Qed.
Lemma ram_of_bytes a n v : is_byte v -> ram_bytes (ram_of a n v).
Proof. intros Hv x w Hx. apply ram_of_value in Hx as ->. exact Hv. Qed.

End Ram.
