(* ===== verification/StdioProps.v ===== *)
(** * Correctness of formatted output

    [vsnprintf] writes what the same call prints, cut to the buffer; an integer printed in
    decimal is read back by [atoi]; the buffer of [format_integer] is large enough. *)

From stdpp Require Import strings.
From S2P Require Import Prelude Bytes CString CStringFacts CStdlib Stdio StdioFacts Ram.
Import CString CStringFacts CStdlib Stdio StdioFacts Ram.

Module StdioProps.

(** ** Reading a number back *)

Lemma digits_loop_run fuel : forall m s ds v, cstr_at m s (map (Z.add 48) ds) -> (length ds < fuel)%nat ->
  Forall (fun d => 0 <= d < 10) ds -> 0 <= v -> fold_left (fun acc d => acc * 10 + d) ds v <= 2 ^ 31 ->
  digits_loop fuel s (- v) m = Ok (- fold_left (fun acc d => acc * 10 + d) ds v, m).
Proof.
  induction fuel as [|fuel IH]; intros m s ds v Hs Hf Hd Hv Hb; [lia|]. cbn [digits_loop]. destruct ds as [|d ds].
  - apply cstr_at_nil in Hs. erewrite bind_eq; [|by apply mem_load_run]. done.
  - cbn [map] in Hs. apply cstr_at_cons in Hs as (H0 & _ & Hs). inversion_clear Hd as [|? ? Hd0 Hd']. cbn [fold_left length] in *.
    erewrite bind_eq; [|by apply mem_load_run]. unfold isdigit.
    rewrite (proj2 (Z.geb_le _ _)), (proj2 (Z.leb_le _ _)) by lia. cbn [andb].
    assert (v * 10 + d <= fold_left (fun acc d => acc * 10 + d) ds (v * 10 + d)) as Hm.
    { clear -Hd' Hv Hd0. assert (0 <= v * 10 + d) as H by lia. generalize dependent (v * 10 + d). intros w Hw.
      revert w Hw. induction Hd' as [|e ds He _ IH]; intros w Hw; cbn; [lia|]. specialize (IH (w * 10 + e) ltac:(lia)). lia. }
    rewrite (wraps_small 32 (- v * 10)) by lia. rewrite wraps_small by lia.
    replace (- v * 10 - (48 + d - 48)) with (- (v * 10 + d)) by lia. apply IH; [done|lia|done|lia|done].
Qed.

Lemma atoi_run m s n ds : s <> 0 -> - 2 ^ 31 <= n < 2 ^ 31 ->
  cstr_at m s ((if n <? 0 then [45] else []) ++ map (Z.add 48) ds) ->
  Forall (fun d => 0 <= d < 10) ds -> eval 10 ds = Z.abs n -> (0 < length ds)%nat -> atoi s m = Ok (n, m).
Proof.
  intros Hs Hn Hm Hd He Hl. pose proof (cstr_size _ _ _ Hm) as Hz. rewrite length_app, length_map in Hz.
  unfold atoi. rewrite (proj2 (Z.eqb_neq s 0)) by done. do 2 (erewrite bind_eq; [|done]).
  destruct ds as [|d ds]; [cbn in Hl; lia|]. pose proof (Forall_inv Hd) as Hd0. cbn beta in Hd0.
  destruct (Z.ltb_spec n 0) as [Hneg|Hpos]; cbn [app map] in Hm, Hz.
  - pose proof Hm as Hm'. apply cstr_at_cons in Hm' as (H45 & _ & Hm').
    erewrite bind_eq; [|cbn [skip_space]; erewrite bind_eq; [|by apply mem_load_run]; done].
    erewrite bind_eq; [|by apply mem_load_run]. cbv beta iota. cbn [Z.eqb Pos.eqb].
    erewrite bind_eq; [|apply (digits_loop_run _ m (s + 1) (d :: ds) 0); [done|cbn in *; lia|done|lia|fold (eval 10 (d :: ds)); rewrite He; lia]].
    fold (eval 10 (d :: ds)). rewrite He. unfold ret. do 2 f_equal. lia.
  - pose proof Hm as Hm'. apply cstr_at_cons in Hm' as (H48 & _ & Hm').
    assert (isspace (48 + d) = false) as Es by (unfold isspace; rewrite !(proj2 (Z.eqb_neq (48 + d) _)) by lia; done).
    erewrite bind_eq; [|cbn [skip_space]; erewrite bind_eq; [|by apply mem_load_run]; rewrite Es; done].
    erewrite bind_eq; [|by apply mem_load_run]. rewrite !(proj2 (Z.eqb_neq (48 + d) _)) by lia.
    erewrite bind_eq; [|apply (digits_loop_run _ m s (d :: ds) 0); [done|cbn in *; lia|done|lia|fold (eval 10 (d :: ds)); rewrite He; lia]].
    fold (eval 10 (d :: ds)). rewrite He. unfold ret. rewrite wraps_small by lia. do 2 f_equal. lia.
Qed.

(** ** Properties *)

(** C27: [vsnprintf] puts into the buffer what the same call prints: if the text is [cs], the
    buffer gets its first [n - 1] characters and a terminator, nothing outside the buffer
    changes, and the result is the length of the whole text, cut or not. *)
Theorem vsnprintf_correct (m : mem) buffer n format args cs :
  0 < n <= INT32_MAX -> mapped m buffer n -> printed (outside m buffer n) format args = Ok cs ->
  exists m', vsnprintf buffer n format args m = Ok (Z.of_nat (length cs), m') /\
    bytes_at m' buffer (take (Z.to_nat (n - 1)) cs ++ [0]) /\
    mapped m' buffer n /\ (forall x, x < buffer \/ buffer + n <= x -> m' !! x = m !! x).
Proof. apply vsnprintf_run. Qed.

(** an [int] printed with [%d] into a buffer of at least 12 bytes is read back by [atoi],
    the smallest one included. *)
Theorem print_atoi_roundtrip (m : mem) buffer size n :
  buffer <> 0 -> 12 <= size <= INT32_MAX -> mapped m buffer size -> - 2 ^ 31 <= n < 2 ^ 31 ->
  exists len m', snprintf buffer size (chars "%d") [u32 n] m = Ok (len, m') /\ atoi buffer m' = Ok (n, m').
Proof.
  intros Hb Hs Hm Hn. destruct (printed_d (outside m buffer size) n Hn) as (ds & E & Hd & He & Hl).
  destruct (vsnprintf_run m buffer size _ _ _ ltac:(lia) Hm E) as (m' & E' & Hbytes & _). eexists _, m'. split; [exact E'|].
  rewrite take_ge in Hbytes by (rewrite length_app, length_map; destruct (n <? 0); cbn [length]; lia).
  apply (atoi_run _ _ _ ds); [done|done| |done|done|lia]. split; [exact Hbytes|]. apply Forall_app. split.
  - destruct (n <? 0); repeat constructor.
  - apply Forall_map. eapply Forall_impl; [exact Hd|]. cbn. lia.
Qed.

(** the 64 bytes of the buffer in which [format_integer] builds up its digits are enough
    for every 64-bit value in every base, whatever the flags and the precision. *)
Theorem format_integer_fits (b : integer_base) value c : b ∈ [base_d; base_o; base_x; base_X] -> 0 <= value < 2 ^ 64 ->
  exists buf, integer_digits value b c = Ok buf /\ (length buf <= 64)%nat.
Proof.
  intros Hb Hv. rewrite !elem_of_cons in Hb.
  destruct Hb as [->|[->|[->|[->|Hb]]]]; [by apply integer_digits_fits; try apply _..|by apply elem_of_nil in Hb].
Qed.

(** ** Instances *)

(** ["ab"] at 100 and a buffer of 16 bytes at 200. *)
Definition print_mem : mem := <[100 := 97]> (<[101 := 98]> (<[102 := 0]> (ram_of 200 16 7))).

Lemma print_mem_mapped : mapped print_mem 200 16.
Proof. unfold print_mem. do 3 apply mapped_insert. apply ram_of_mapped. Qed.

Lemma vsnprintf_correct_witness : exists m',
  vsnprintf 200 6 (chars "%s=%04x;") [100; 255] print_mem = Ok (8, m') /\
  bytes_at m' 200 [97; 98; 61; 48; 48; 0].
Proof.
  destruct (vsnprintf_correct print_mem 200 6 (chars "%s=%04x;") [100; 255] (chars "ab=00ff;")) as (m' & E & H & _).
  - by split.
  - eapply mapped_le; [exact print_mem_mapped|lia].
  - by vm_compute.
  - exists m'. split; [exact E|exact H].
Defined.

Lemma print_atoi_roundtrip_witness : exists len m',
  snprintf 200 12 (chars "%d") [u32 (- 2147483648)] print_mem = Ok (len, m') /\ atoi 200 m' = Ok (- 2147483648, m').
Proof.
  apply (print_atoi_roundtrip print_mem 200 12 (- 2147483648)); [done|by split| |by split].
  eapply mapped_le; [exact print_mem_mapped|lia].
Defined.

Lemma format_integer_fits_witness :
  exists buf, integer_digits (2 ^ 64 - 1) base_o {| flags := Z.lor POUND GROUP; width := 0; precision := 100; type := INTMAX |} = Ok buf /\ (length buf <= 64)%nat.
Proof. apply format_integer_fits; [|by split]. apply list_elem_of_further, list_elem_of_here. Defined.

End StdioProps.
