(* ===== verification/Ustar.v ===== *)
(** * lib/ustar.c: headers of tar archives

    A header is the sequence of its 512 bytes, a C string the sequence of its characters.
    [strlcpy] and [snprintf] into a field of the header are what [CString] and [Stdio] show of
    them: the text, cut to one byte less than the field, and a null byte. *)

From stdpp Require Import strings.
From S2P Require Import Prelude Bytes Stdio StdioFacts.

Module Ustar.
Import Bytes Stdio StdioFacts.

Definition USTAR_HEADER_SIZE : Z := 512.
(** [enum ustar_type]; the numbers are bytes of the format. *)
Definition USTAR_REGULAR : Z := 48.
Definition USTAR_DIRECTORY : Z := 53.
Definition USTAR_EOF : Z := -1.

Record ustar_header := {
  name : list Z; mode : list Z; uid : list Z; gid : list Z; size : list Z; mtime : list Z; chksum : list Z;
  typeflag : Z; linkname : list Z; magic : list Z; version : list Z; uname : list Z; gname : list Z;
  devmajor : list Z; devminor : list Z; prefix : list Z; padding : list Z }.

(** The bytes of a structure, and the structure in 512 bytes. *)
Definition bytes_of (h : ustar_header) : list Z :=
  name h ++ mode h ++ uid h ++ gid h ++ size h ++ mtime h ++ chksum h ++ [typeflag h] ++ linkname h ++ magic h ++
  version h ++ uname h ++ gname h ++ devmajor h ++ devminor h ++ prefix h ++ padding h.
Definition header_of (bs : list Z) : ustar_header :=
  {| name := sub_bytes 0 100 bs; mode := sub_bytes 100 8 bs; uid := sub_bytes 108 8 bs; gid := sub_bytes 116 8 bs;
     size := sub_bytes 124 12 bs; mtime := sub_bytes 136 12 bs; chksum := sub_bytes 148 8 bs;
     typeflag := nth 156 bs 0; linkname := sub_bytes 157 100 bs; magic := sub_bytes 257 6 bs;
     version := sub_bytes 263 2 bs; uname := sub_bytes 265 32 bs; gname := sub_bytes 297 32 bs;
     devmajor := sub_bytes 329 8 bs; devminor := sub_bytes 337 8 bs; prefix := sub_bytes 345 155 bs;
     padding := sub_bytes 500 12 bs |}.

(** The characters up to the null byte. *)
Fixpoint cstring (bs : list Z) : list Z :=
  match bs with [] => [] | b :: bs => if b =? 0 then [] else b :: cstring bs end.

(** ** Checksum *)

Fixpoint chksum_loop (header : list Z) (i acc : Z) : Z :=
  match header with
  | [] => acc
  | b :: header =>
      let in_chksum_field := (148 <=? i) && (i <? 148 + 8) in
      chksum_loop header (i + 1) (u32 (acc + if in_chksum_field then 32 else b))
  end.
Definition calculate_chksum (header : list Z) : Z := chksum_loop header 0 0.

(** ** Names *)

(** [memcmp] with a literal, which the terminator of the name ends in time. *)
Definition starts_with (lit file_name : list Z) : bool := bool_decide (take (length lit) (file_name ++ [0]) = lit).
Fixpoint after_slash (file_name : list Z) : list Z :=
  match file_name with [] => [] | c :: file_name => if c =? 47 then file_name else after_slash file_name end.
Definition antisocial (file_name : list Z) : bool :=
  (hd 0 file_name =? 47) || starts_with [46; 47] file_name || starts_with [46; 46; 47] file_name.
Fixpoint strip_loop (fuel : nat) (file_name : list Z) : list Z :=
  match fuel with
  | O => file_name
  | S fuel => if antisocial file_name then strip_loop fuel (after_slash file_name) else file_name
  end.
Definition strip_antisocial_prefixes (file_name : list Z) : list Z :=
  let file_name := strip_loop (length file_name) file_name in
  if bool_decide (file_name = []) || bool_decide (file_name = [46; 46]) then [46] else file_name.

(** ** Writing a header *)

(** A field of [n] zero bytes after [strlcpy]. *)
Definition strlcpy_field (n : Z) (src : list Z) : list Z :=
  let src := take (Z.to_nat (n - 1)) src in src ++ zeros (n - Z.of_nat (length src)).
(** The same after [snprintf], whose arguments are numbers. *)
Definition snprintf_field (n : Z) (format args : list Z) : res (list Z) :=
  rbind (printed ∅ format args) (fun s => Ok (strlcpy_field n s)).

(** The name with which the function fails, or the header. *)
Definition ustar_make_header (file_name : list Z) (type sz : Z) : res (list Z + list Z) :=
  if negb ((type =? USTAR_REGULAR) || (type =? USTAR_DIRECTORY)) then Err AssertFail
  else
    let file_name := strip_antisocial_prefixes file_name in
    if Z.of_nat (length file_name) >? 99 then Ok (inl (file_name ++ chars ": file name too long"%string ++ [10]))
    else
      rbind (snprintf_field 8 (chars "%07o"%string) [if type =? USTAR_REGULAR then 420 else 493]) (fun mode =>
      rbind (snprintf_field 12 (chars "%011o"%string) [u32 sz]) (fun size =>
      rbind (snprintf_field 12 (chars "%011o"%string) [1136102400]) (fun mtime =>
      let h := fun chksum =>
        {| name := strlcpy_field 100 file_name; mode := mode; uid := strlcpy_field 8 (chars "0000000"%string);
           gid := strlcpy_field 8 (chars "0000000"%string); size := size; mtime := mtime; chksum := chksum;
           typeflag := type; linkname := zeros 100; magic := strlcpy_field 6 (chars "ustar"%string); version := [48; 48];
           uname := strlcpy_field 32 (chars "root"%string); gname := strlcpy_field 32 (chars "root"%string);
           devmajor := zeros 8; devminor := zeros 8; prefix := zeros 155; padding := zeros 12 |} in
      rbind (snprintf_field 8 (chars "%07o"%string) [calculate_chksum (bytes_of (h (zeros 8)))]) (fun chksum =>
      Ok (inr (bytes_of (h chksum))))))).

(** ** Reading a header *)

Fixpoint octal_loop (s : list Z) (ofs value : Z) : option Z :=
  match s with
  | [] => None
  | c :: s =>
      if (48 <=? c) && (c <=? 55) then
        if value >? 4294967295 / 8 then None else octal_loop s (ofs + 1) (u32 (c - 48 + value * 8))
      else if (c =? 32) || (c =? 0) then if ofs >? 0 then Some value else None
      else None
  end.
Definition parse_octal_field (s : list Z) : option Z := octal_loop s 0 0.

Fixpoint is_all_zeros (block : list Z) : bool :=
  match block with [] => true | b :: block => if negb (b =? 0) then false else is_all_zeros block end.

(** The messages of [ustar_parse_header]. *)
Inductive ustar_error :=
| NotUstar | InvalidVersion | CorruptChksum | ChksumMismatch | NameTooLong | UnimplementedType | CorruptSize | FileTooLarge.
(** [file_name], [type] and [size] of an entry; the end of the archive has no name. *)
Definition ustar_parse_header (header : list Z) : ustar_error + (option (list Z) * Z * Z) :=
  let h := header_of header in
  if is_all_zeros header then inr (None, USTAR_EOF, 0)
  else if negb (bool_decide (magic h = chars "ustar"%string ++ [0])) then inl NotUstar
  else if negb (bool_decide (version h = [48; 48])) then inl InvalidVersion
  else
    match parse_octal_field (chksum h) with
    | None => inl CorruptChksum
    | Some sum =>
        if negb (sum =? calculate_chksum header) then inl ChksumMismatch
        else if negb (nth 99 (name h) 0 =? 0) || negb (nth 0 (prefix h) 0 =? 0) then inl NameTooLong
        else if negb (typeflag h =? USTAR_REGULAR) && negb (typeflag h =? USTAR_DIRECTORY) then inl UnimplementedType
        else
          let entry := fun size_ul => inr (Some (strip_antisocial_prefixes (cstring (name h))), typeflag h, size_ul) in
          if typeflag h =? USTAR_REGULAR then
            match parse_octal_field (size h) with
            | None => inl CorruptSize
            | Some size_ul => if size_ul >? 2147483647 then inl FileTooLarge else entry size_ul
            end
          else entry 0
    end.

End Ustar.
