(* ===== verification/UstarProps.v ===== *)
(** * Archive headers: what is written can be read back, and damage is noticed *)

From stdpp Require Import strings.
From S2P Require Import Prelude Bytes Stdio StdioFacts Ustar.

Module UstarProps.
Import Bytes Stdio StdioFacts Ustar.

(** ** The layout *)

Record layout (h : ustar_header) : Prop := {
  l_name : length (name h) = 100%nat; l_mode : length (mode h) = 8%nat; l_uid : length (uid h) = 8%nat;
  l_gid : length (gid h) = 8%nat; l_size : length (size h) = 12%nat; l_mtime : length (mtime h) = 12%nat;
  l_chksum : length (chksum h) = 8%nat; l_linkname : length (linkname h) = 100%nat; l_magic : length (magic h) = 6%nat;
  l_version : length (version h) = 2%nat; l_uname : length (uname h) = 32%nat; l_gname : length (gname h) = 32%nat;
  l_devmajor : length (devmajor h) = 8%nat; l_devminor : length (devminor h) = 8%nat; l_prefix : length (prefix h) = 155%nat;
  l_padding : length (padding h) = 12%nat }.

Lemma sub_bytes_skip ofs len xs ys :
  Z.of_nat (length xs) <= ofs -> sub_bytes ofs len (xs ++ ys) = sub_bytes (ofs - Z.of_nat (length xs)) len ys.
Proof. intros H. unfold sub_bytes. rewrite drop_app_ge by lia. do 2 f_equal. lia. Qed.
Lemma sub_bytes_here len xs ys : Z.of_nat (length xs) = len -> sub_bytes 0 len (xs ++ ys) = xs.
Proof. intros <-. unfold sub_bytes. rewrite Nat2Z.id, drop_0. apply take_app_length. Qed.

Lemma bytes_of_length h : layout h -> length (bytes_of h) = 512%nat.
Proof.
  intros []. unfold bytes_of. rewrite !length_app. cbn [length]. lia.
Qed.

(** The structure is found again in its bytes. *)
Lemma header_of_bytes_of h : layout h -> header_of (bytes_of h) = h.
Proof.
  intros L. pose proof L as []. unfold header_of, bytes_of.
  assert (nth 156 (bytes_of h) 0 = typeflag h) as Et.
  { unfold bytes_of. rewrite !app_assoc. repeat rewrite (app_nth1 _ _ _ (n := 156)) by (rewrite ?length_app; cbn [length]; lia).
    rewrite app_nth2 by (rewrite ?length_app; cbn [length]; lia). rewrite !length_app.
    replace (156 - _)%nat with 0%nat by lia. done. }
  unfold bytes_of in Et. rewrite Et. destruct h. cbn [name mode uid gid size mtime chksum typeflag linkname magic version uname gname devmajor devminor prefix padding] in *. f_equal;
    repeat (rewrite sub_bytes_skip by (cbn [length]; lia));
    (match goal with |- sub_bytes ?o _ _ = _ => replace o with 0 by (cbn [length]; lia) end);
    (apply sub_bytes_here || (rewrite <- (app_nil_r padding0) at 1; apply sub_bytes_here)); lia.
Qed.

(** ** The checksum *)

Definition weight (i b : Z) : Z := if (148 <=? i) && (i <? 148 + 8) then 32 else b.
Fixpoint weights (i : Z) (bs : list Z) : Z := match bs with [] => 0 | b :: bs => weight i b + weights (i + 1) bs end.

Lemma weights_app bs1 : forall i bs2, weights i (bs1 ++ bs2) = weights i bs1 + weights (i + Z.of_nat (length bs1)) bs2.
Proof.
  induction bs1 as [|b bs1 IH]; intros i bs2; cbn [app weights length]; [by rewrite Z.add_0_r|].
  rewrite IH. replace (i + 1 + Z.of_nat (length bs1)) with (i + Z.of_nat (S (length bs1))) by lia. lia.
Qed.
Lemma weights_bound bs : forall i, Forall is_byte bs -> 0 <= weights i bs <= 255 * Z.of_nat (length bs).
Proof.
  induction bs as [|b bs IH]; intros i Hb; cbn [weights length]; [lia|]. apply Forall_cons in Hb as [Hb Hbs].
  specialize (IH (i + 1) Hbs). unfold weight, is_byte in *. destruct (_ && _); lia.
Qed.
Lemma weights_field bs bs' : forall i, 148 <= i -> i + Z.of_nat (length bs) <= 156 -> length bs = length bs' -> weights i bs = weights i bs'.
Proof.
  revert bs'. induction bs as [|b bs IH]; intros [|b' bs'] i H1 H2 Hl; [done..|]. cbn [weights length] in *.
  injection Hl as Hl. rewrite (IH bs' (i + 1)) by lia. unfold weight.
  destruct (Z.leb_spec 148 i), (Z.ltb_spec i (148 + 8)); try lia; done.
Qed.

(** The checksum is the plain sum: 512 bytes cannot overflow it. *)
Lemma chksum_loop_weights bs : forall i acc, Forall is_byte bs -> 0 <= acc -> acc + 255 * Z.of_nat (length bs) < 2 ^ 32 ->
  chksum_loop bs i acc = acc + weights i bs.
Proof.
  induction bs as [|b bs IH]; intros i acc Hb Ha Hl; cbn [chksum_loop weights length] in *; [lia|].
  apply Forall_cons in Hb as [Hb Hbs]. change (if (148 <=? i) && (i <? 148 + 8) then 32 else b) with (weight i b).
  assert (0 <= weight i b <= 255) as Hw by (unfold weight, is_byte in *; destruct (_ && _); lia).
  rewrite wrapu_small by lia. rewrite IH; [lia|done|lia|lia].
Qed.
Lemma chksum_sum bs : Forall is_byte bs -> length bs = 512%nat -> calculate_chksum bs = weights 0 bs.
Proof. intros Hb Hl. unfold calculate_chksum. rewrite chksum_loop_weights; [lia|done|lia|lia]. Qed.

(** A single byte outside the field changes the sum. *)
Lemma weights_insert i b bs : (i < length bs)%nat -> ~ (148 <= i < 156)%nat ->
  weights 0 (<[i := b]> bs) = weights 0 bs - nth i bs 0 + b.
Proof.
  intros Hi Hf. rewrite insert_take_drop by done.
  assert (weights 0 bs = weights 0 (take i bs ++ drop i bs)) as -> by (by rewrite take_drop). rewrite !weights_app, length_take.
  assert (bs !! i = Some (nth i bs 0)) as E by (destruct (lookup_lt_is_Some_2 bs i Hi) as [x E]; rewrite E; f_equal; symmetry; by apply nth_lookup_Some).
  rewrite (drop_S _ _ _ E). cbn [weights]. unfold weight.
  destruct (Z.leb_spec 148 (0 + Z.of_nat (i `min` length bs))), (Z.ltb_spec (0 + Z.of_nat (i `min` length bs)) (148 + 8)); try lia; cbn [andb]; lia.
Qed.

(** ** Octal fields *)

Lemma octal_loop_digits ds : forall rest ofs v, Forall (fun d => 0 <= d < 8) ds -> 0 <= v -> 0 < ofs + Z.of_nat (length ds) -> 0 <= ofs ->
  fold_left (fun acc d => acc * 8 + d) ds v < 2 ^ 32 -> octal_loop (map (Z.add 48) ds ++ 0 :: rest) ofs v = Some (fold_left (fun acc d => acc * 8 + d) ds v).
Proof.
  assert (forall ds v, Forall (fun d => 0 <= d < 8) ds -> 0 <= v -> v <= fold_left (fun acc d => acc * 8 + d) ds v) as Hmono.
  { clear. intros ds. induction ds as [|d ds IH]; intros v Hd Hv; cbn [fold_left]; [lia|]. apply Forall_cons in Hd as [Hd Hds].
    specialize (IH (v * 8 + d) Hds). lia. }
  induction ds as [|d ds IH]; intros rest ofs v Hd Hv Hl Ho Hm; cbn [map app octal_loop fold_left length] in *.
  - change ((48 <=? 0) && (0 <=? 55)) with false. change ((0 =? 32) || (0 =? 0)) with true. cbn iota.
    by destruct (Z.gtb_spec ofs 0); [|lia].
  - apply Forall_cons in Hd as [Hd Hds]. pose proof (Hmono ds (v * 8 + d) Hds ltac:(lia)) as Hb.
    destruct (Z.leb_spec 48 (48 + d)), (Z.leb_spec (48 + d) 55); try lia. cbn [andb].
    change (4294967295 / 8) with 536870911. destruct (Z.gtb_spec v 536870911); [lia|].
    rewrite wrapu_small by lia. replace (48 + d - 48 + v * 8) with (v * 8 + d) by lia. apply IH; [done|lia..].
Qed.

(** What [snprintf] leaves in a numeric field, and what is read from it. *)
Lemma octal_field w v format : cur format <> 37 ->
  (forall args, parse_conversion format args = Ok ({| flags := ZERO; width := w; precision := -1; type := INT |}, [111], args)) ->
  0 < w <= 22 -> 0 <= v < 8 ^ w -> v < 2 ^ 32 -> exists s,
  snprintf_field (w + 1) (37 :: format) [v] = Ok s /\ length s = Z.to_nat (w + 1) /\ Forall is_byte s /\ parse_octal_field s = Some v.
Proof.
  intros Hf Hc Hw Hv Hv32. destruct (printed_octal ∅ format w v Hf Hc Hw Hv Hv32) as (ds & E & Hd & He & Hl).
  exists (map (Z.add 48) ds ++ [0]). unfold snprintf_field. rewrite E. cbn [rbind].
  split; [|split; [|split]].
  - f_equal. unfold strlcpy_field. rewrite take_ge by (rewrite length_map; lia). rewrite length_map. do 2 f_equal.
    replace (w + 1 - Z.of_nat (length ds)) with 1 by lia. done.
  - rewrite length_app, length_map. cbn [length]. lia.
  - apply Forall_app. split; [|by repeat constructor]. apply Forall_map. eapply Forall_impl; [done|]. unfold is_byte. cbn. lia.
  - unfold parse_octal_field. rewrite (octal_loop_digits ds [] 0 0); [f_equal; exact He|done|lia|lia|lia|]. change (fold_left _ ds 0) with (eval 8 ds). lia.
Qed.

(** ** Names *)

Lemma antisocial_shorter s : antisocial s = true -> (length (after_slash s) < length s)%nat /\ exists t, s = t ++ after_slash s.
Proof.
  assert (forall s, (length (after_slash s) <= length s)%nat /\ exists t, s = t ++ after_slash s) as Hle.
  { clear. induction s as [|c s [IH [t Et]]]; cbn [after_slash length]; [split; [lia|by exists []]|].
    destruct (c =? 47); (split; [lia|]); [by exists [c]|]. exists (c :: t). cbn [app]. by f_equal. }
  intros Ha. destruct s as [|c s]; [discriminate|]. split; [|apply Hle]. cbn [after_slash length].
  destruct (c =? 47); [lia|]. pose proof (proj1 (Hle s)). lia.
Qed.
Lemma strip_loop_clean fuel : forall s, (length s <= fuel)%nat -> antisocial (strip_loop fuel s) = false.
Proof.
  induction fuel as [|fuel IH]; intros s Hl; cbn [strip_loop]; [by destruct s; [|cbn in Hl; lia]|].
  destruct (antisocial s) eqn:Ha; [|done]. apply IH. pose proof (proj1 (antisocial_shorter s Ha)). lia.
Qed.
Lemma strip_loop_same fuel s : antisocial s = false -> strip_loop fuel s = s.
Proof. intros H. destruct fuel; cbn [strip_loop]; [done|by rewrite H]. Qed.
Lemma strip_loop_suffix fuel : forall s, exists t, s = t ++ strip_loop fuel s.
Proof.
  induction fuel as [|fuel IH]; intros s; cbn [strip_loop]; [by exists []|]. destruct (antisocial s) eqn:Ha; [|by exists []].
  destruct (antisocial_shorter s Ha) as [_ [t Et]]. destruct (IH (after_slash s)) as [t' Et']. exists (t ++ t'). rewrite Et at 1. rewrite Et' at 1. by rewrite app_assoc.
Qed.

(** A name an extractor can use: it does not start at the root or above the directory. *)
Record safe_name (s : list Z) : Prop := {
  safe_nonempty : s <> []; safe_dotdot : s <> [46; 46];
  safe_root : forall t, s <> 47 :: t; safe_up : forall t, s <> 46 :: 46 :: 47 :: t; safe_here : forall t, s <> 46 :: 47 :: t }.

Lemma strip_shape s : strip_antisocial_prefixes s = [46] \/
  (exists t, s = t ++ strip_antisocial_prefixes s) /\ antisocial (strip_antisocial_prefixes s) = false /\
  strip_antisocial_prefixes s <> [] /\ strip_antisocial_prefixes s <> [46; 46].
Proof.
  unfold strip_antisocial_prefixes. destruct (bool_decide _ || bool_decide _) eqn:E; [by left|right].
  apply orb_false_iff in E as [E1 E2]. apply bool_decide_eq_false in E1, E2.
  split; [apply strip_loop_suffix|]. split; [by apply strip_loop_clean|done].
Qed.
Lemma antisocial_safe s : antisocial s = false -> s <> [] -> s <> [46; 46] -> safe_name s.
Proof.
  intros Ha H1 H2. split; [done|done|..]; intros t ->; discriminate.
Qed.
Lemma strip_safe s : safe_name (strip_antisocial_prefixes s).
Proof. destruct (strip_shape s) as [-> |(_ & Ha & H1 & H2)]; by apply antisocial_safe. Qed.
Lemma strip_again s : strip_antisocial_prefixes (strip_antisocial_prefixes s) = strip_antisocial_prefixes s.
Proof.
  destruct (strip_shape s) as [-> |(_ & Ha & H1 & H2)]; [done|].
  unfold strip_antisocial_prefixes at 1. rewrite strip_loop_same by done. cbv zeta.
  by rewrite !bool_decide_false by done.
Qed.
Lemma strip_chars (Q : Z -> Prop) s : Q 46 -> Forall Q s -> Forall Q (strip_antisocial_prefixes s).
Proof.
  intros Hq Hs. destruct (strip_shape s) as [-> |([t Et] & _)]; [by repeat constructor|]. rewrite Et in Hs. apply Forall_app in Hs as [_ Hs]. exact Hs.
Qed.

Lemma cstring_field s n : Forall (fun c => 0 < c < 256) s -> cstring (s ++ zeros n) = s.
Proof.
  induction 1 as [|c s Hc _ IH]; cbn [app cstring].
  - unfold zeros. by destruct (Z.to_nat n).
  - destruct (Z.eqb_spec c 0); [lia|]. by rewrite IH.
Qed.
Lemma strlcpy_field_length n s : 0 < n -> length (strlcpy_field n s) = Z.to_nat n.
Proof. intros H. unfold strlcpy_field. rewrite length_app, zeros_length, length_take. lia. Qed.
Lemma strlcpy_field_bytes n s : Forall is_byte s -> Forall is_byte (strlcpy_field n s).
Proof. intros H. unfold strlcpy_field. apply Forall_app. split; [by apply Forall_take|apply zeros_bytes]. Qed.

(** ** Theorems *)

(** C32: Whatever the 512 bytes are, an entry that [ustar_parse_header] accepts is
    well-formed: it is a regular file or a directory, its size fits an [int] and is 0 for a
    directory, and its name neither is empty nor starts with [/], [./] or [../], nor is [..]. *)
Theorem ustar_entry_wf header file_name type sz :
  ustar_parse_header header = inr (Some file_name, type, sz) ->
  safe_name file_name /\ (type = USTAR_REGULAR /\ 0 <= sz <= 2147483647 \/ type = USTAR_DIRECTORY /\ sz = 0).
Proof.
  assert (forall s ofs v r, 0 <= v -> octal_loop s ofs v = Some r -> 0 <= r) as Hpos.
  { induction s as [|c s IH]; intros ofs v r Hv H; cbn [octal_loop] in H; [done|].
    destruct (_ && _); [destruct (_ >? _); [done|]; eapply IH; [|exact H]; apply wrapu_range; lia|].
    destruct (_ || _); [|done]. destruct (ofs >? 0); [|done]. congruence. }
  unfold ustar_parse_header. intros H. destruct (is_all_zeros header); [congruence|].
  destruct (negb _); [done|]. destruct (negb _); [done|]. destruct (parse_octal_field (chksum _)); [|done].
  destruct (negb _); [done|]. destruct (_ || _); [done|]. destruct (_ && _) eqn:Et; [done|].
  destruct (Z.eqb_spec (typeflag (header_of header)) USTAR_REGULAR) as [Er|Er].
  - destruct (parse_octal_field (size _)) as [k|] eqn:Ek; [|done]. destruct (Z.gtb_spec k 2147483647); [done|].
    injection H as <- <- <-. split; [apply strip_safe|]. left. split; [done|]. split; [|lia]. by apply (Hpos _ _ _ _ (Z.le_refl 0) Ek).
  - injection H as <- <- <-. split; [apply strip_safe|]. right. split; [|done].
    destruct (Z.eqb_spec (typeflag (header_of header)) USTAR_DIRECTORY); [done|]. discriminate.
Qed.

Lemma all_zeros_nth bs i : is_all_zeros bs = true -> nth i bs 0 = 0.
Proof.
  revert i. induction bs as [|b bs IH]; intros [|i] H; cbn [is_all_zeros nth] in *; [done..| |]; destruct (Z.eqb_spec b 0); try done. by apply IH.
Qed.
Lemma sub_bytes_nth ofs len bs i : 0 <= ofs -> (i < Z.to_nat len)%nat -> nth i (sub_bytes ofs len bs) 0 = nth (Z.to_nat ofs + i) bs 0.
Proof. intros Ho Hi. rewrite !nth_lookup. by rewrite sub_bytes_lookup. Qed.

(** An accepted header carries the sum of its bytes. *)
Lemma accepted_sum header name type sz : ustar_parse_header header = inr (Some name, type, sz) ->
  magic (header_of header) = chars "ustar"%string ++ [0] /\ parse_octal_field (chksum (header_of header)) = Some (calculate_chksum header).
Proof.
  unfold ustar_parse_header. intros H. destruct (is_all_zeros header); [congruence|].
  destruct (bool_decide (magic _ = _)) eqn:Em; cbn [negb] in H; [|done]. destruct (negb _); [done|].
  destruct (parse_octal_field (chksum _)) as [k|] eqn:Ek; [|done]. destruct (Z.eqb_spec k (calculate_chksum header)) as [->|]; cbn [negb] in H; [|done].
  split; [|done]. by apply bool_decide_eq_true in Em.
Qed.

(** The checksum notices every change of a single byte: when one byte of an accepted
    header outside the checksum field is replaced by another value, the header is refused. *)
Theorem ustar_chksum_detects header name type sz i b :
  Forall is_byte header -> length header = 512%nat -> ustar_parse_header header = inr (Some name, type, sz) ->
  (i < 512)%nat -> ~ (148 <= i < 156)%nat -> is_byte b -> header !! i <> Some b ->
  exists e, ustar_parse_header (<[i := b]> header) = inl e.
Proof.
  intros Hb Hl Hp Hi Hf Hbb Hne. destruct (accepted_sum _ _ _ _ Hp) as [Hm Hc].
  assert (calculate_chksum (<[i := b]> header) <> calculate_chksum header) as Hd.
  { rewrite !chksum_sum by (try apply Forall_insert; rewrite ?length_insert; done). rewrite weights_insert by lia.
    destruct (lookup_lt_is_Some_2 header i ltac:(lia)) as [x E]. rewrite (nth_lookup_Some _ _ _ _ E). rewrite E in Hne. intros ?. apply Hne. f_equal. lia. }
  assert (chksum (header_of (<[i := b]> header)) = chksum (header_of header)) as Es.
  { cbn [chksum header_of]. apply list_eq. intros j. destruct (Nat.lt_ge_cases j 8) as [Hj|Hj].
    - rewrite !sub_bytes_lookup by (cbn; lia). apply list_lookup_insert_ne. cbn. lia.
    - rewrite !lookup_ge_None_2; [done|..]; rewrite sub_bytes_length; rewrite ?length_insert; lia. }
  assert (is_all_zeros (<[i := b]> header) = false) as Hz.
  { apply not_true_iff_false. intros Hz. assert (exists j, (257 <= j < 259)%nat /\ j <> i) as (j & Hj & Hji) by (destruct (decide (i = 257%nat)); [exists 258%nat|exists 257%nat]; lia).
    pose proof (all_zeros_nth _ j Hz) as Ez. rewrite nth_lookup, list_lookup_insert_ne, <- nth_lookup in Ez by done.
    assert (forall k, (k < 6)%nat -> nth (257 + k) header 0 = nth k [117; 115; 116; 97; 114; 0] 0) as Hk.
    { intros k Hk. rewrite <- (sub_bytes_nth 257 6) by (cbn; lia). cbn [magic header_of] in Hm. by rewrite Hm. }
    pose proof (Hk 0%nat ltac:(lia)). pose proof (Hk 1%nat ltac:(lia)). cbn in *. assert (j = 257%nat \/ j = 258%nat) as [-> | ->] by lia; lia. }
  unfold ustar_parse_header. rewrite Hz, Es, Hc.
  destruct (negb _); [by eexists|]. destruct (negb _); [by eexists|].
  destruct (Z.eqb_spec (calculate_chksum header) (calculate_chksum (<[i := b]> header))); [congruence|]. by eexists.
Qed.

(** The sum does not depend on what the field holds. *)
Lemma chksum_of_field h h' : layout h -> layout h' -> Forall is_byte (bytes_of h) -> Forall is_byte (bytes_of h') ->
  h' = {| name := name h; mode := mode h; uid := uid h; gid := gid h; size := size h; mtime := mtime h; chksum := chksum h';
          typeflag := typeflag h; linkname := linkname h; magic := magic h; version := version h; uname := uname h; gname := gname h;
          devmajor := devmajor h; devminor := devminor h; prefix := prefix h; padding := padding h |} ->
  calculate_chksum (bytes_of h) = calculate_chksum (bytes_of h').
Proof.
  intros L L' Hb Hb' E. rewrite !chksum_sum by (done || by apply bytes_of_length).
  pose proof L as []. pose proof (l_chksum h' L') as Hc. rewrite E. set (c := chksum h') in *. clearbody c. clear E Hb Hb' L L' h'.
  unfold bytes_of. cbn [name mode uid gid size mtime chksum typeflag linkname magic version uname gname devmajor devminor prefix padding].
  rewrite !weights_app. rewrite (weights_field (chksum h) c) by lia. by rewrite l_chksum0, Hc.
Qed.

Section make.
Context (file_name modes sizes times : list Z) (type : Z).
Hypothesis (Hn : Forall (fun c => 0 < c < 256) file_name) (Hnl : (length file_name <= 99)%nat).
Hypothesis (Hm : length modes = 8%nat /\ Forall is_byte modes) (Hs : length sizes = 12%nat /\ Forall is_byte sizes).
Hypothesis (Ht : length times = 12%nat /\ Forall is_byte times) (Hty : type = USTAR_REGULAR \/ type = USTAR_DIRECTORY).

(** The header as it is being filled in. *)
Definition filled (chksum : list Z) : ustar_header :=
  {| name := strlcpy_field 100 file_name; mode := modes; uid := strlcpy_field 8 (chars "0000000"%string);
     gid := strlcpy_field 8 (chars "0000000"%string); size := sizes; mtime := times; chksum := chksum;
     typeflag := type; linkname := zeros 100; magic := strlcpy_field 6 (chars "ustar"%string); version := [48; 48];
     uname := strlcpy_field 32 (chars "root"%string); gname := strlcpy_field 32 (chars "root"%string);
     devmajor := zeros 8; devminor := zeros 8; prefix := zeros 155; padding := zeros 12 |}.

Lemma filled_layout c : length c = 8%nat -> layout (filled c).
Proof. intros Hc. destruct Hm, Hs, Ht. split; unfold filled; cbn [name linkname devmajor devminor prefix padding]; rewrite ?strlcpy_field_length, ?zeros_length; (done || lia). Qed.
Lemma filled_bytes c : Forall is_byte c -> Forall is_byte (bytes_of (filled c)).
Proof.
  intros Hc. destruct Hm, Hs, Ht. unfold bytes_of, filled. cbn [name mode uid gid size mtime chksum typeflag linkname magic version uname gname devmajor devminor prefix padding].
  assert (Forall is_byte [type]) by (repeat constructor; destruct Hty as [-> | ->]; done).
  assert (Forall is_byte (strlcpy_field 100 file_name)) by (apply strlcpy_field_bytes; eapply Forall_impl; [exact Hn|unfold is_byte; cbn; lia]).
  assert (forall s, Forall is_byte (chars s)) as Hch.
  { induction s as [|a s IH]; cbn [chars]; constructor; [|done]. unfold is_byte. pose proof (Ascii.nat_ascii_bounded a). lia. }
  rewrite !Forall_app. repeat split; try (apply zeros_bytes || (apply strlcpy_field_bytes; apply Hch) || done). by repeat constructor.
Qed.
Lemma filled_chksum c : length c = 8%nat -> Forall is_byte c -> calculate_chksum (bytes_of (filled c)) = calculate_chksum (bytes_of (filled (zeros 8))).
Proof.
  intros Hc Hb. apply chksum_of_field; try (by apply filled_layout) || (by apply filled_bytes); [by apply filled_bytes, zeros_bytes|done].
Qed.

Lemma filled_parse c : length c = 8%nat -> Forall is_byte c -> parse_octal_field c = Some (calculate_chksum (bytes_of (filled (zeros 8)))) ->
  ustar_parse_header (bytes_of (filled c)) =
    if type =? USTAR_REGULAR then
      match parse_octal_field sizes with
      | None => inl CorruptSize
      | Some k => if k >? 2147483647 then inl FileTooLarge else inr (Some (strip_antisocial_prefixes file_name), type, k)
      end
    else inr (Some (strip_antisocial_prefixes file_name), type, 0).
Proof.
  intros Hc Hb Hp. pose proof (header_of_bytes_of _ (filled_layout c Hc)) as Eh.
  assert (is_all_zeros (bytes_of (filled c)) = false) as Hz.
  { apply not_true_iff_false. intros Hz. pose proof (all_zeros_nth _ 257 Hz) as E.
    change 257%nat with (Z.to_nat 257 + 0)%nat in E. rewrite <- (sub_bytes_nth 257 6) in E by (cbn; lia).
    change (sub_bytes 257 6 (bytes_of (filled c))) with (magic (header_of (bytes_of (filled c)))) in E. rewrite Eh in E. discriminate. }
  unfold ustar_parse_header. rewrite Hz, Eh, (filled_chksum c) by done. cbv zeta.
  change (chksum (filled c)) with c. change (typeflag (filled c)) with type. change (size (filled c)) with sizes. rewrite Hp, Z.eqb_refl.
  change (bool_decide (magic (filled c) = _)) with true. change (bool_decide (version (filled c) = _)) with true.
  change (nth 0 (prefix (filled c)) 0) with 0. change (name (filled c)) with (strlcpy_field 100 file_name).
  unfold strlcpy_field. rewrite take_ge by lia. rewrite cstring_field by done.
  assert (nth 99 (file_name ++ zeros (100 - Z.of_nat (length file_name))) 0 = 0) as ->.
  { rewrite app_nth2 by lia. unfold zeros. by rewrite nth_lookup, lookup_replicate_2 by lia. }
  cbn [negb Z.eqb orb]. by destruct Hty as [-> | ->].
Qed.
End make.

Lemma made_header_parses file_name type sz :
  Forall (fun c => 0 < c < 256) file_name -> (length (strip_antisocial_prefixes file_name) <= 99)%nat ->
  type = USTAR_REGULAR \/ type = USTAR_DIRECTORY -> 0 <= sz <= 2147483647 ->
  exists header, ustar_make_header file_name type sz = Ok (inr header) /\ length header = 512%nat /\ Forall is_byte header /\
    ustar_parse_header header = inr (Some (strip_antisocial_prefixes file_name), type, if type =? USTAR_REGULAR then sz else 0).
Proof.
  intros Hn Hl Hty Hsz. set (s := strip_antisocial_prefixes file_name) in *.
  assert (Forall (fun c => 0 < c < 256) s) as Hs by (apply strip_chars; [lia|done]).
  destruct (octal_field 7 (if type =? USTAR_REGULAR then 420 else 493) (chars "07o"%string)) as (mo & Em & Lm & Bm & _); [done|done|lia|destruct (type =? USTAR_REGULAR); lia..|].
  destruct (octal_field 11 (u32 sz) (chars "011o"%string)) as (si & Es & Ls & Bs & Ps); [done|done|lia|rewrite wrapu_small; lia..|].
  destruct (octal_field 11 1136102400 (chars "011o"%string)) as (ti & Et & Lt & Bt & _); [done|done|lia..|].
  assert (length mo = 8%nat /\ Forall is_byte mo) as M by exact (conj Lm Bm).
  assert (length si = 12%nat /\ Forall is_byte si) as S by exact (conj Ls Bs).
  assert (length ti = 12%nat /\ Forall is_byte ti) as T by exact (conj Lt Bt).
  set (h := filled s mo si ti type).
  assert (forall c, length c = 8%nat -> layout (h c)) as HL by exact (filled_layout s mo si ti type M S T).
  assert (forall c, Forall is_byte c -> Forall is_byte (bytes_of (h c))) as HB by exact (filled_bytes s mo si ti type Hs Hl M S T Hty).
  assert (0 <= calculate_chksum (bytes_of (h (zeros 8))) <= 130560) as Hc.
  { assert (length (bytes_of (h (zeros 8))) = 512%nat) as E by exact (bytes_of_length _ (HL _ (zeros_length 8))).
    pose proof (weights_bound (bytes_of (h (zeros 8))) 0 (HB _ (zeros_bytes 8))) as Hw. rewrite (chksum_sum _ (HB _ (zeros_bytes 8)) E). lia. }
  destruct (octal_field 7 (calculate_chksum (bytes_of (h (zeros 8)))) (chars "07o"%string)) as (ck & Ec & Lc & Bc & Pc); [done|done|lia..|].
  exists (bytes_of (h ck)). split; [|split; [|split]].
  - unfold ustar_make_header. fold s. assert ((type =? USTAR_REGULAR) || (type =? USTAR_DIRECTORY) = true) as -> by (by destruct Hty as [-> | ->]).
    cbn [negb]. destruct (Z.gtb_spec (Z.of_nat (length s)) 99); [lia|]. cbv zeta.
    change (chars "%07o"%string) with (37 :: chars "07o"%string). change (chars "%011o"%string) with (37 :: chars "011o"%string).
    change 8 with (7 + 1) at 1. rewrite Em. cbn [rbind]. change 12 with (11 + 1) at 1. rewrite Es. cbn [rbind]. change 12 with (11 + 1) at 1. rewrite Et. cbn [rbind].
    fold (filled s mo si ti type (zeros 8)). fold h. change (snprintf_field 8) with (snprintf_field (7 + 1)). by rewrite Ec.
  - exact (bytes_of_length _ (HL ck Lc)).
  - exact (HB ck Bc).
  - unfold h. rewrite (filled_parse s mo si ti type Hs Hl M S T Hty ck Lc Bc Pc). unfold s. rewrite strip_again. fold s. rewrite Ps, wrapu_small by lia.
    destruct (type =? USTAR_REGULAR); [|done]. by destruct (Z.gtb_spec sz 2147483647); [lia|].
Qed.

(** A header that is written can be read back: for a name without a null byte that has
    at most 99 characters after its leading [/], [./] and [../] are gone, [ustar_make_header]
    fills 512 bytes in which [ustar_parse_header] finds that name, the type and, for a regular
    file, the size. *)
Theorem ustar_roundtrip file_name type sz :
  Forall (fun c => 0 < c < 256) file_name -> (length (strip_antisocial_prefixes file_name) <= 99)%nat ->
  type = USTAR_REGULAR \/ type = USTAR_DIRECTORY -> 0 <= sz <= 2147483647 ->
  exists header, ustar_make_header file_name type sz = Ok (inr header) /\ length header = 512%nat /\ Forall is_byte header /\
    ustar_parse_header header = inr (Some (strip_antisocial_prefixes file_name), type, if type =? USTAR_REGULAR then sz else 0).
Proof. apply made_header_parses. Qed.

(** ** A concrete archive entry *)

Definition sample_name : list Z := chars "../bin/echo"%string.
Definition sample_header : list Z := match ustar_make_header sample_name USTAR_REGULAR 1234 with Ok (inr h) => h | _ => [] end.
Lemma sample_parsed : ustar_parse_header sample_header = inr (Some (chars "bin/echo"%string), USTAR_REGULAR, 1234).
Proof. vm_compute. reflexivity. Qed.

Lemma ustar_entry_wf_witness : safe_name (chars "bin/echo"%string).
Proof. exact (proj1 (ustar_entry_wf sample_header _ USTAR_REGULAR 1234 sample_parsed)). Defined.

Lemma ustar_chksum_detects_witness : exists e, ustar_parse_header (<[0%nat := 66]> sample_header) = inl e.
Proof.
  apply (ustar_chksum_detects sample_header (chars "bin/echo"%string) USTAR_REGULAR 1234 0 66);
    [|vm_compute; reflexivity|exact sample_parsed|lia|lia|unfold is_byte; lia|vm_compute; discriminate].
  apply (bool_decide_unpack _). vm_compute. exact I.
Defined.

Lemma ustar_roundtrip_witness : exists header, ustar_make_header sample_name USTAR_DIRECTORY 0 = Ok (inr header) /\
  ustar_parse_header header = inr (Some (chars "bin/echo"%string), USTAR_DIRECTORY, 0).
Proof.
  destruct (ustar_roundtrip sample_name USTAR_DIRECTORY 0) as (h & E & _ & _ & P).
  - repeat constructor; lia.
  - vm_compute. lia.
  - by right.
  - lia.
  - exists h. split; [exact E|exact P].
Defined.

End UstarProps.
