(* ===== verification/Palloc.v ===== *)
(** * threads/palloc.c: the page allocator

    The state is the memory and the two pools.  The bitmap of a pool lies at the start of its
    pages, so the pool proper begins after it.  The lock of a pool is held around the search
    only; what a lock guarantees is the subject of [ThreadProps], here a call is one step. *)

From S2P Require Import Prelude Bytes CString CStringFacts Bitmap VAddr Ram.
Import Bytes CString CStringFacts VAddr Ram.

Module Palloc.
Import Bitmap (bitmap, bit_cnt, bits, bit, BITMAP_ERROR, all_are, in_range, updated).

Record pool := { used_map : bitmap; base : Z }.
Record phys := { ram : mem; kernel_pool : pool; user_pool : pool }.

Definition PAL_ASSERT : Z := 1.
Definition PAL_ZERO : Z := 2.
Definition PAL_USER : Z := 4.

Definition pool_of (user : bool) (s : phys) : pool := if user then user_pool s else kernel_pool s.
Definition with_ram (m : mem) (s : phys) : phys :=
  {| ram := m; kernel_pool := kernel_pool s; user_pool := user_pool s |}.
Definition with_map (user : bool) (b : bitmap) (s : phys) : phys :=
  let p := {| used_map := b; base := base (pool_of user s) |} in
  {| ram := ram s; kernel_pool := if user then kernel_pool s else p; user_pool := if user then p else user_pool s |}.
(** Operations on a part of the state. *)
Definition in_ram {A} (c : M mem A) : M phys A := fun s =>
  match c (ram s) with Ok (a, m) => Ok (a, with_ram m s) | Err f => Err f end.
Definition in_map {A} (user : bool) (c : M bitmap A) : M phys A := fun s =>
  match c (used_map (pool_of user s)) with Ok (a, b) => Ok (a, with_map user b s) | Err f => Err f end.

Definition has (flags flag : Z) : bool := negb (Z.land flags flag =? 0).

Definition palloc_get_multiple (flags page_cnt : Z) : M phys Z :=
  let user := has flags PAL_USER in
  if page_cnt =? 0 then ret 0
  else
    let! page_idx := in_map user (Bitmap.bitmap_scan_and_flip 0 page_cnt false) in
    let! p := gets (pool_of user) in
    let pages := if negb (page_idx =? BITMAP_ERROR) then u32 (base p + PGSIZE * page_idx) else 0 in
    if negb (pages =? 0) then
      do! (if has flags PAL_ZERO then let! _ := in_ram (memset pages 0 (u32 (PGSIZE * page_cnt))) in ret tt else ret tt);
      ret pages
    else if has flags PAL_ASSERT then fail KernelPanic else ret pages.
Definition palloc_get_page (flags : Z) : M phys Z := palloc_get_multiple flags 1.

Definition page_from_pool (p : pool) (page : Z) : bool :=
  let page_no := pg_no page in
  let start_page := pg_no (base p) in
  let end_page := u32 (start_page + bit_cnt (used_map p)) in
  (page_no >=? start_page) && (page_no <? end_page).

Definition palloc_free_multiple (pages page_cnt : Z) : M phys unit :=
  do! assert (pg_ofs pages =? 0);
  if (pages =? 0) || (page_cnt =? 0) then ret tt
  else
    let! s := get in
    let! user :=
      if page_from_pool (kernel_pool s) pages then ret false
      else if page_from_pool (user_pool s) pages then ret true
      else fail KernelPanic in
    let page_idx := u32 (pg_no pages - pg_no (base (pool_of user s))) in
    let! _ := in_ram (memset pages 204 (u32 (PGSIZE * page_cnt))) in
    let! all := in_map user (Bitmap.bitmap_all page_idx page_cnt) in
    do! assert all;
    in_map user (Bitmap.bitmap_set_multiple page_idx page_cnt false).
Definition palloc_free_page (page : Z) : M phys unit := palloc_free_multiple page 1.

(** [words]: what the words of the bitmap's buffer hold before it is cleared. *)
Definition init_pool (start page_cnt : Z) (words : list Z) : res pool :=
  let bm_pages := u32 (Bitmap.bitmap_buf_size page_cnt + PGSIZE - 1) / PGSIZE in
  if bm_pages >? page_cnt then Err KernelPanic
  else
    let page_cnt := page_cnt - bm_pages in
    rbind (Bitmap.bitmap_create_in_buf page_cnt (u32 (bm_pages * PGSIZE)) words) (fun b =>
    Ok {| used_map := b; base := u32 (start + bm_pages * PGSIZE) |}).

Definition palloc_init (init_ram_pages user_page_limit : Z) (m : mem) (kwords uwords : list Z) : res phys :=
  rbind (ptov (1024 * 1024)) (fun free_start =>
  rbind (ptov (u32 (init_ram_pages * PGSIZE))) (fun free_end =>
  let free_pages := u32 (Z.quot (s32 (free_end - free_start)) PGSIZE) in
  let user_pages := free_pages / 2 in
  let user_pages := if user_pages >? user_page_limit then user_page_limit else user_pages in
  let kernel_pages := free_pages - user_pages in
  rbind (init_pool free_start kernel_pages kwords) (fun k =>
  rbind (init_pool (u32 (free_start + kernel_pages * PGSIZE)) user_pages uwords) (fun u =>
  Ok {| ram := m; kernel_pool := k; user_pool := u |})))).

(** ** Well-formed states *)

Record pool_ok (m : mem) (p : pool) : Prop := {
  pool_map : Bitmap.wf (used_map p);
  pool_aligned : base p mod 4096 = 0;
  pool_start : PHYS_BASE <= base p;
  pool_end : base p + 4096 * bit_cnt (used_map p) < 2 ^ 32;
  pool_mapped : mapped m (base p) (4096 * bit_cnt (used_map p)) }.
Record phys_ok (s : phys) : Prop := {
  phys_kernel : pool_ok (ram s) (kernel_pool s);
  phys_user : pool_ok (ram s) (user_pool s);
  phys_apart : base (kernel_pool s) + 4096 * bit_cnt (used_map (kernel_pool s)) <= base (user_pool s) }.

Lemma phys_pool s user : phys_ok s -> pool_ok (ram s) (pool_of user s).
Proof. intros Hs. destruct user; apply Hs. Qed.

Lemma phys_frame s m x n : phys_ok s -> frame (ram s) m x n -> phys_ok (with_ram m s).
Proof.
  intros [[] [] Ha] F. split; [..|exact Ha]; split; try done; cbn; by apply (frame_mapped _ _ _ _ _ _ F).
Qed.

(** [s'] is [s] with the use of [cnt] pages from [i] on set to [v], and perhaps their contents changed. *)
Record set_pages (user : bool) (i cnt : Z) (v : bool) (s s' : phys) : Prop := {
  sp_bits : updated (in_range i cnt) (fun _ => v) (used_map (pool_of user s)) (used_map (pool_of user s'));
  sp_base : base (pool_of user s') = base (pool_of user s);
  sp_other : pool_of (negb user) s' = pool_of (negb user) s;
  sp_ram : frame (ram s) (ram s') (base (pool_of user s) + 4096 * i) (4096 * cnt) }.

Lemma set_pages_ok user i cnt v s s' : set_pages user i cnt v s s' -> phys_ok s -> phys_ok s'.
Proof.
  intros [(W & C & _) Eb Eo F] Hs. pose proof (phys_pool s user Hs) as Hp. pose proof (phys_pool s (negb user) Hs) as Hq.
  assert (pool_ok (ram s') (pool_of user s')) as Hp'.
  { split; rewrite ?C, ?Eb; [done|apply Hp|apply Hp|apply Hp|]. apply (frame_mapped _ _ _ _ _ _ F), Hp. }
  assert (pool_ok (ram s') (pool_of (negb user) s')) as Hq'.
  { rewrite Eo. split; [apply Hq|apply Hq|apply Hq|apply Hq|]. apply (frame_mapped _ _ _ _ _ _ F), Hq. }
  pose proof (phys_apart s Hs) as Ha. split; destruct user; cbn [pool_of negb] in *; try done; rewrite ?C, ?Eb, ?Eo; done.
Qed.

(** ** The operations *)

Lemma in_ram_run {A} (c : M mem A) s a m : c (ram s) = Ok (a, m) -> in_ram c s = Ok (a, with_ram m s).
Proof. unfold in_ram. by intros ->. Qed.
Lemma in_map_run {A} user (c : M bitmap A) s a b : c (used_map (pool_of user s)) = Ok (a, b) -> in_map user c s = Ok (a, with_map user b s).
Proof. unfold in_map. by intros ->. Qed.
Lemma pool_with_map user b s : pool_of user (with_map user b s) = {| used_map := b; base := base (pool_of user s) |}.
Proof. by destruct user. Qed.
Lemma other_with_map user b s : pool_of (negb user) (with_map user b s) = pool_of (negb user) s.
Proof. by destruct user. Qed.
Lemma pool_with_ram user m s : pool_of user (with_ram m s) = pool_of user s.
Proof. by destruct user. Qed.

Lemma page_address m p i : pool_ok m p -> 0 <= i -> i <= bit_cnt (used_map p) ->
  u32 (base p + PGSIZE * i) = base p + 4096 * i /\ 0 < base p + 4096 * i /\ (base p + 4096 * i) mod 4096 = 0.
Proof.
  intros Hp Hi Hle. destruct Hp as [_ Ha Hs He _]. unfold PHYS_BASE, PGSIZE in *. split; [apply wrapu_small; lia|]. split; [lia|].
  rewrite Z.mul_comm, Z.mod_add; done.
Qed.

(** There is no group of [cnt] unused pages. *)
Definition no_room (p : pool) (cnt : Z) : Prop := forall k, 0 <= k -> k + cnt <= bit_cnt (used_map p) -> ~ all_are (used_map p) k cnt false.

Lemma palloc_get_multiple_run s flags cnt (user := has flags PAL_USER) (p := pool_of user s) :
  phys_ok s -> 0 < cnt < 2 ^ 32 ->
  (exists i s', palloc_get_multiple flags cnt s = Ok (base p + 4096 * i, s') /\ 0 <= i /\ i + cnt <= bit_cnt (used_map p) /\
     all_are (used_map p) i cnt false /\ set_pages user i cnt true s s' /\
     (if has flags PAL_ZERO then bytes_at (ram s') (base p + 4096 * i) (replicate (Z.to_nat (4096 * cnt)) 0) else ram s' = ram s)) \/
  (no_room p cnt /\ palloc_get_multiple flags cnt s = if has flags PAL_ASSERT then Err KernelPanic else Ok (0, s)).
Proof.
  intros Hs Hc. pose proof (phys_pool s user Hs) as Hp. fold p in Hp. pose proof (Bitmap.wf_cnt _ (pool_map _ _ Hp)) as Hw.
  unfold palloc_get_multiple. rewrite (proj2 (Z.eqb_neq cnt 0)) by lia. fold user.
  destruct (Bitmap.bitmap_scan_and_flip_run (used_map p) 0 cnt false) as (i & b & R & Hr & Hb); [apply Hp|lia..|].
  erewrite bind_eq; [|apply in_map_run; exact R]. unfold gets. erewrite bind_eq; [|reflexivity]. rewrite pool_with_map. cbn [base]. fold p.
  destruct Hr as [(Hne & H0 & Hle & Ha & _)|[-> Hno]].
  - rewrite (proj2 (Z.eqb_neq i _) Hne) in Hb |- *. cbn [negb]. destruct (page_address _ _ i Hp) as (Eu & Hpos & _); [lia..|].
    rewrite Eu. rewrite (proj2 (Z.eqb_neq _ 0)) by lia. cbn [negb]. left. exists i. pose proof (pool_end _ _ Hp) as He. pose proof (pool_start _ _ Hp) as Hst. unfold PHYS_BASE in Hst.
    assert (mapped (ram s) (base p + 4096 * i) (4096 * cnt)) as Hm. { intros x Hx. apply (pool_mapped _ _ Hp). lia. }
    unfold PGSIZE. rewrite (wrapu_small 32 (4096 * cnt)) by lia. destruct (has flags PAL_ZERO).
    + destruct (memset_run (ram s) (base p + 4096 * i) 0 (4096 * cnt)) as (m & Em & Bm & Fm); [lia|lia|done|].
      exists (with_ram m (with_map user b s)). split.
      { assert (ram (with_map user b s) = ram s) as Er by (by destruct user).
        unfold bind, in_ram. rewrite Er, Em. reflexivity. }
      split_and!; try done. split; rewrite ?pool_with_ram, ?pool_with_map, ?other_with_map; done.
    + eexists. split; [reflexivity|]. split_and!; try done; by destruct user.
  - cbn [negb] in *. rewrite Z.eqb_refl in Hb. cbn [negb Z.eqb]. rewrite Z.eqb_refl. cbn [negb Z.eqb]. right. split; [intros k Hk Hle; apply Hno; lia|].
    subst b. destruct (has flags PAL_ASSERT); [done|]. unfold ret. do 2 f_equal. unfold p, with_map. destruct s as [m [] []]; by destruct user.
Qed.

Lemma page_from_pool_spec m p i : pool_ok m p -> 0 <= i ->
  base p + 4096 * i < 2 ^ 32 -> page_from_pool p (base p + 4096 * i) = (i <? bit_cnt (used_map p)).
Proof.
  intros Hp Hi Hlt. unfold page_from_pool. rewrite !pg_no_div. pose proof (pool_end _ _ Hp). pose proof (pool_start _ _ Hp). unfold PHYS_BASE in *.
  pose proof (Bitmap.wf_cnt _ (pool_map _ _ Hp)).
  rewrite Z.mul_comm, Z.div_add by done. pose proof (Z.mul_div_le (base p) 4096 ltac:(lia)). pose proof (Z.div_pos (base p) 4096 ltac:(lia) ltac:(lia)).
  rewrite (wrapu_small 32) by (split; [lia|]; lia).
  rewrite (proj2 (Z.geb_le _ _)) by lia. cbn [andb]. destruct (Z.ltb_spec i (bit_cnt (used_map p))); destruct (Z.ltb_spec (base p / 4096 + i) (base p / 4096 + bit_cnt (used_map p))); lia.
Qed.

(** A page of the user pool is above the kernel pool. *)
Lemma page_pool_of s user i : phys_ok s -> 0 <= i < bit_cnt (used_map (pool_of user s)) ->
  let page := base (pool_of user s) + 4096 * i in
  (if page_from_pool (kernel_pool s) page then ret false else if page_from_pool (user_pool s) page then ret true else fail KernelPanic) s = Ok (user, s).
Proof.
  intros Hs Hi page. pose proof (phys_pool s user Hs) as Hp. pose proof (pool_end _ _ Hp). subst page. destruct user; cbn [pool_of] in *.
  - pose proof (phys_kernel s Hs) as Hk. pose proof (phys_apart s Hs) as Ha.
    pose proof (pool_aligned _ _ Hk) as Hk1. pose proof (pool_aligned _ _ Hp) as Hp1. apply Z.div_exact in Hk1, Hp1; [|done..].
    set (j := base (user_pool s) / 4096 + i - base (kernel_pool s) / 4096).
    pose proof (Bitmap.wf_cnt _ (pool_map _ _ Hk)).
    replace (base (user_pool s) + 4096 * i) with (base (kernel_pool s) + 4096 * j) by lia.
    rewrite (page_from_pool_spec _ _ j Hk) by lia. destruct (Z.ltb_spec j (bit_cnt (used_map (kernel_pool s)))); [lia|].
    replace (base (kernel_pool s) + 4096 * j) with (base (user_pool s) + 4096 * i) by lia.
    rewrite (page_from_pool_spec _ _ i Hp) by lia. by rewrite (proj2 (Z.ltb_lt _ _)) by lia.
  - rewrite (page_from_pool_spec _ _ i Hp) by lia. by rewrite (proj2 (Z.ltb_lt _ _)) by lia.
Qed.

Lemma palloc_free_multiple_run s user i cnt (p := pool_of user s) :
  phys_ok s -> 0 <= i -> 0 < cnt -> i + cnt <= bit_cnt (used_map p) -> all_are (used_map p) i cnt true ->
  exists s', palloc_free_multiple (base p + 4096 * i) cnt s = Ok (tt, s') /\ set_pages user i cnt false s s' /\
    bytes_at (ram s') (base p + 4096 * i) (replicate (Z.to_nat (4096 * cnt)) 204).
Proof.
  intros Hs Hi Hc Hle Ha. pose proof (phys_pool s user Hs) as Hp. fold p in Hp. pose proof (Bitmap.wf_cnt _ (pool_map _ _ Hp)) as Hw.
  destruct (page_address _ _ i Hp) as (_ & Hpos & Hal); [lia..|]. pose proof (pool_end _ _ Hp) as He. pose proof (pool_start _ _ Hp) as Hst. unfold PHYS_BASE in Hst.
  unfold palloc_free_multiple. rewrite pg_ofs_mod, Hal. erewrite bind_eq; [|reflexivity]. rewrite (proj2 (Z.eqb_neq (base p + 4096 * i) 0)), (proj2 (Z.eqb_neq cnt 0)) by lia. cbn [orb].
  unfold get. erewrite bind_eq; [|reflexivity]. erewrite bind_eq; [|apply (page_pool_of s user i Hs); fold p; lia]. fold p.
  rewrite !pg_no_div, (Z.mul_comm 4096 i), Z.div_add, Z.add_simpl_l, (Z.mul_comm i) by done. rewrite (wrapu_small 32 i) by lia.
  unfold PGSIZE. rewrite (wrapu_small 32 (4096 * cnt)) by lia.
  destruct (memset_run (ram s) (base p + 4096 * i) 204 (4096 * cnt)) as (m & Em & Bm & Fm); [lia|lia|intros x Hx; apply (pool_mapped _ _ Hp); lia|].
  run_with (in_ram_run (memset (base p + 4096 * i) 204 (4096 * cnt)) s _ _ Em).
  destruct (Bitmap.bitmap_contains_run (used_map p) i cnt false) as (r & Rr & Hr); [apply Hp|lia..|].
  assert (r = false) as -> by (by apply Hr).
  erewrite bind_eq; [|apply in_map_run; rewrite pool_with_ram; fold p; unfold Bitmap.bitmap_all; erewrite bind_eq; [reflexivity|exact Rr]].
  erewrite bind_eq; [|reflexivity]. destruct (Bitmap.bitmap_set_multiple_run (used_map p) i cnt false) as (b & Rb & Ub); [apply Hp|lia..|].
  eexists. split; [apply in_map_run; rewrite pool_with_map; exact Rb|]. split.
  - split; rewrite ?pool_with_map, ?other_with_map, ?pool_with_ram; done.
  - destruct user; exact Bm.
Qed.

(** ** Initialisation *)

Definition map_pages (page_cnt : Z) : Z := (8 + 4 * ((page_cnt + 31) / 32) + 4095) / 4096.

Lemma buf_size_eq n : 0 <= n <= 2 ^ 20 -> Bitmap.bitmap_buf_size n = 8 + 4 * ((n + 31) / 32).
Proof.
  intros Hn. unfold Bitmap.bitmap_buf_size, Bitmap.byte_cnt. rewrite Bitmap.elem_cnt_eq by lia.
  assert (0 <= (n + 31) / 32 <= n + 31) by (split; [apply Z.div_pos; lia|apply Z.div_le_upper_bound; lia]).
  rewrite !wrapu_small; rewrite ?wrapu_small; lia.
Qed.

Lemma init_pool_run m start cnt words (bm := map_pages cnt) :
  start mod 4096 = 0 -> PHYS_BASE <= start -> 0 <= cnt -> start + 4096 * cnt < 2 ^ 32 -> bm <= cnt ->
  Z.of_nat (length words) = Bitmap.elem_cnt (cnt - bm) -> Forall is_word words -> mapped m start (4096 * cnt) ->
  exists p, init_pool start cnt words = Ok p /\ pool_ok m p /\ base p = start + 4096 * bm /\
    bit_cnt (used_map p) = cnt - bm /\ all_are (used_map p) 0 (cnt - bm) false.
Proof.
  intros Ha Hst Hc Hlt Hbm Hl Hw Hm. assert (PHYS_BASE = 3221225472) as Epb by done.
  assert (0 <= (cnt + 31) / 32 <= cnt + 31) as Hq by (split; [apply Z.div_pos; lia|apply Z.div_le_upper_bound; lia]).
  assert (0 <= bm) as Hbm0 by (apply Z.div_pos; lia).
  unfold init_pool. rewrite buf_size_eq by lia. unfold PGSIZE. rewrite (wrapu_small 32) by lia.
  replace ((8 + 4 * ((cnt + 31) / 32) + 4096 - 1) / 4096) with bm by (unfold bm, map_pages; f_equal; lia).
  rewrite Z.gtb_ltb, (proj2 (Z.ltb_ge cnt bm)) by lia.
  destruct (Bitmap.bitmap_set_all_run {| bit_cnt := cnt - bm; bits := words |} false) as (b & R & W & C & U).
  { split; [cbn; lia|done|done]. }
  cbn [bit_cnt] in *. assert (Bitmap.bitmap_create_in_buf (cnt - bm) (u32 (bm * 4096)) words = Ok b) as ->.
  { unfold Bitmap.bitmap_create_in_buf. rewrite R, buf_size_eq by lia. rewrite wrapu_small by lia.
    destruct (Z.geb_spec (bm * 4096) (8 + 4 * ((cnt - bm + 31) / 32))) as [|Hbad]; [done|exfalso].
    assert ((cnt - bm + 31) / 32 <= (cnt + 31) / 32) by (apply Z.div_le_mono; lia).
    pose proof (Z.div_mod (8 + 4 * ((cnt + 31) / 32) + 4095) 4096 ltac:(done)) as Ed. fold (map_pages cnt) in Ed. fold bm in Ed.
    pose proof (Z.mod_pos_bound (8 + 4 * ((cnt + 31) / 32) + 4095) 4096 ltac:(done)). lia. }
  cbn [rbind]. rewrite (Z.mul_comm bm), wrapu_small by lia. eexists. split; [reflexivity|]. cbn [base used_map]. split_and!; try done.
  - split; cbn [base used_map]; rewrite ?C; [done| |lia|lia|].
    + rewrite Z.mul_comm, Z.mod_add; done.
    + intros x Hx. apply Hm. lia.
  - intros j Hj. rewrite U by lia. rewrite (proj2 (Bitmap.in_range_spec 0 (cnt - bm) j)); [done|lia].
Qed.

(** The number of pages of the two parts of the memory. *)
Definition user_share (init_ram_pages limit : Z) : Z := Z.min ((init_ram_pages - 256) / 2) limit.
Definition kernel_share (init_ram_pages limit : Z) : Z := init_ram_pages - 256 - user_share init_ram_pages limit.
Definition buffer_ok (cnt : Z) (words : list Z) : Prop :=
  map_pages cnt <= cnt /\ Z.of_nat (length words) = Bitmap.elem_cnt (cnt - map_pages cnt) /\ Forall is_word words.

Lemma palloc_init_run n limit m kwords uwords :
  256 <= n < 2 ^ 18 -> 0 <= limit -> buffer_ok (kernel_share n limit) kwords -> buffer_ok (user_share n limit) uwords ->
  mapped m (PHYS_BASE + 2 ^ 20) (4096 * (n - 256)) ->
  exists s, palloc_init n limit m kwords uwords = Ok s /\ phys_ok s /\
    (forall user, all_are (used_map (pool_of user s)) 0 (bit_cnt (used_map (pool_of user s))) false) /\ ram s = m /\
    bit_cnt (used_map (kernel_pool s)) = kernel_share n limit - map_pages (kernel_share n limit) /\
    bit_cnt (used_map (user_pool s)) = user_share n limit - map_pages (user_share n limit).
Proof.
  intros Hn Hl (Kb & Kl & Kw) (Ub & Ul & Uw) Hm. unfold palloc_init, ptov, PGSIZE. change (1024 * 1024 <? PHYS_BASE) with true. cbn [rbind].
  rewrite (wrapu_small 32 (n * 4096)) by lia. rewrite (proj2 (Z.ltb_lt (n * 4096) PHYS_BASE)) by (unfold PHYS_BASE; lia). cbn [rbind].
  change (u32 (1024 * 1024 + PHYS_BASE)) with (PHYS_BASE + 2 ^ 20). rewrite (wrapu_small 32 (n * 4096 + PHYS_BASE)) by (unfold PHYS_BASE; lia).
  replace (n * 4096 + PHYS_BASE - (PHYS_BASE + 2 ^ 20)) with ((n - 256) * 4096) by lia.
  rewrite wraps_small, Z.quot_mul by lia. rewrite (wrapu_small 32 (n - 256)) by lia.
  assert ((if (n - 256) / 2 >? limit then limit else (n - 256) / 2) = user_share n limit) as ->.
  { unfold user_share. destruct (Z.gtb_spec ((n - 256) / 2) limit); lia. }
  fold (kernel_share n limit).
  assert (0 <= user_share n limit <= n - 256) as Hu.
  { unfold user_share. pose proof (Z.div_pos (n - 256) 2). assert ((n - 256) / 2 <= n - 256) by (apply Z.div_le_upper_bound; lia). lia. }
  assert (kernel_share n limit + user_share n limit = n - 256) as Eks by (unfold kernel_share; lia). unfold PHYS_BASE in *.
  destruct (init_pool_run m (3221225472 + 2 ^ 20) (kernel_share n limit) kwords) as (k & -> & Hk & Ek & Ck & Ak);
    [done|unfold PHYS_BASE; lia|lia|lia|done|done|done|intros x Hx; apply Hm; lia|]. cbn [rbind].
  rewrite (Z.mul_comm (kernel_share n limit)), wrapu_small by lia.
  destruct (init_pool_run m (3221225472 + 2 ^ 20 + 4096 * kernel_share n limit) (user_share n limit) uwords) as (u & -> & Huo & Eu & Cu & Au);
    [rewrite Z.mul_comm, Z.mod_add; done|unfold PHYS_BASE; lia|lia|lia|done|done|done|intros x Hx; apply Hm; lia|]. cbn [rbind].
  eexists. split; [reflexivity|]. split; [|split; [|split; [done|split; done]]].
  - assert (0 <= map_pages (user_share n limit)) by (apply Z.div_pos; [|lia]; assert (0 <= (user_share n limit + 31) / 32) by (apply Z.div_pos; lia); lia).
    split; cbn; [done|done|lia].
  - intros []; cbn; rewrite ?Cu, ?Ck; done.
Qed.

(** ** Main property *)

(** in a well-formed state [palloc_get_multiple] hands out pages that were all unused,
    lie inside the pool the flags name, and are then marked as used, while every other page
    of both pools keeps its mark and every byte outside the pages keeps its value; with
    [PAL_ZERO] the pages are zero.  It gives a null pointer, or panics with [PAL_ASSERT],
    exactly when the pool has no such group of pages.  Freeing the pages makes them unused
    again, and the marks of both pools are those from before the call. *)
Theorem palloc_correct s flags cnt (user := has flags PAL_USER) (p := pool_of user s) :
  phys_ok s -> 0 < cnt < 2 ^ 32 ->
  (no_room p cnt /\ palloc_get_multiple flags cnt s = if has flags PAL_ASSERT then Err KernelPanic else Ok (0, s)) \/
  exists i s' s'', 0 <= i /\ i + cnt <= bit_cnt (used_map p) /\ all_are (used_map p) i cnt false /\
    palloc_get_multiple flags cnt s = Ok (base p + 4096 * i, s') /\ phys_ok s' /\ set_pages user i cnt true s s' /\
    (has flags PAL_ZERO = true -> bytes_at (ram s') (base p + 4096 * i) (replicate (Z.to_nat (4096 * cnt)) 0)) /\
    palloc_free_multiple (base p + 4096 * i) cnt s' = Ok (tt, s'') /\ phys_ok s'' /\
    (forall u j, 0 <= j -> bit (used_map (pool_of u s'')) j = bit (used_map (pool_of u s)) j) /\
    frame (ram s) (ram s'') (base p + 4096 * i) (4096 * cnt).
Proof.
  intros Hs Hc. destruct (palloc_get_multiple_run s flags cnt Hs Hc) as [(i & s' & E & Hi & Hle & Ha & Hset & Hz)|Hno]; [|by left].
  right. fold user p in E, Hle, Ha, Hset, Hz. pose proof (set_pages_ok _ _ _ _ _ _ Hset Hs) as Hs'. destruct Hset as [Hu Eb Eo Hf].
  destruct (palloc_free_multiple_run s' user i cnt) as (s'' & E'' & Hset' & _); [done|done|lia| | |].
  { rewrite (proj1 (proj2 Hu)). exact Hle. }
  { intros j Hj. rewrite (proj2 (proj2 Hu)) by lia. by rewrite (proj2 (Bitmap.in_range_spec i cnt j) Hj). }
  exists i, s', s''. rewrite Eb in E''. split_and!; try done.
  - by intros Ez; rewrite Ez in Hz.
  - by apply (set_pages_ok _ _ _ _ _ _ Hset').
  - intros u j Hj. destruct Hset' as [Hu' _ Eo' _]. destruct (decide (u = user)) as [->|Hne].
    + rewrite (proj2 (proj2 Hu')), (proj2 (proj2 Hu)) by done. destruct (in_range i cnt j) eqn:Ej; [|done].
      symmetry. apply Ha. by apply Bitmap.in_range_spec.
    + assert (u = negb user) as -> by (by destruct u, user). by rewrite Eo', Eo.
  - apply (ram_frame_trans _ (ram s')); [exact Hf|]. pose proof (sp_ram _ _ _ _ _ _ Hset') as Hf'. by rewrite Eb in Hf'.
Qed.

(** A machine with 264 pages: three usable pages in each pool. *)
Definition sample_ram : mem := ram_of (PHYS_BASE + 2 ^ 20) 32768 7.
Lemma palloc_correct_witness : exists s, palloc_init 264 100 sample_ram [5] [6] = Ok s /\ phys_ok s /\
  ((no_room (pool_of true s) 2 /\ palloc_get_multiple (PAL_USER + PAL_ZERO) 2 s = Ok (0, s)) \/
   exists i s', palloc_get_multiple (PAL_USER + PAL_ZERO) 2 s = Ok (base (pool_of true s) + 4096 * i, s') /\ phys_ok s').
Proof.
  destruct (palloc_init_run 264 100 sample_ram [5] [6]) as (s & E & Hs & _); [lia|lia| | |apply ram_of_mapped|].
  1, 2: split_and!; [vm_compute; discriminate|reflexivity|repeat constructor; vm_compute; done].
  exists s. split; [exact E|]. split; [exact Hs|].
  destruct (palloc_correct s (PAL_USER + PAL_ZERO) 2 Hs ltac:(lia)) as [H|(i & s' & s'' & _ & _ & _ & H & H' & _)]; [left; exact H|].
  right. exists i, s'. split; [exact H|exact H'].
Defined.

End Palloc.
