(* ===== verification/Malloc.v ===== *)
(** * threads/malloc.c: the block allocator

    An arena keeps its header (magic number, descriptor, count) in the first twelve bytes of
    its first page, in memory.  A descriptor is referred to by its position in [descs]
    counted from one, zero standing for the null pointer.  The free list of a descriptor is
    the sequence of its blocks, front first; the links it keeps inside the free blocks are
    not part of the memory.  The lock of a descriptor makes every call one step. *)

From S2P Require Import Prelude Bytes CString CStringFacts Bitmap VAddr Ram Palloc.
Import Bytes CString CStringFacts VAddr Ram Palloc.

Module Malloc.

Record desc := { block_size : Z; blocks_per_arena : Z; free_list : list Z }.
Record heap := { phys_mem : phys; descs : list desc }.

Definition ARENA_MAGIC : Z := 2589232877.
(** [sizeof (struct arena)] *)
Definition HEADER : Z := 12.

Definition in_phys {A} (c : M phys A) : M heap A := fun h =>
  match c (phys_mem h) with Ok (a, s) => Ok (a, {| phys_mem := s; descs := descs h |}) | Err f => Err f end.
Definition load_word (a : Z) : M heap Z := in_phys (in_ram (load32 a)).
Definition store_word (a v : Z) : M heap unit := in_phys (in_ram (store32 a v)).
Definition get_desc (p : Z) : M heap desc := fun h =>
  match (if p <=? 0 then None else descs h !! Z.to_nat (p - 1)) with Some d => Ok (d, h) | None => Err WildAccess end.
Definition set_free (p : Z) (fl : list Z) : M heap unit := fun h =>
  match (if p <=? 0 then None else descs h !! Z.to_nat (p - 1)) with
  | Some d =>
      let d' := {| block_size := block_size d; blocks_per_arena := blocks_per_arena d; free_list := fl |} in
      Ok (tt, {| phys_mem := phys_mem h; descs := <[Z.to_nat (p - 1) := d']> (descs h) |})
  | None => Err WildAccess
  end.

(** ** Initialisation *)

Fixpoint init_loop (fuel : nat) (size : Z) (ds : list desc) : res (list desc) :=
  match fuel with
  | O => Err OutOfFuel
  | S fuel =>
      if size <? PGSIZE / 2 then
        if Z.of_nat (S (length ds)) <=? 10 then
          init_loop fuel (u32 (size * 2))
            (ds ++ [{| block_size := size; blocks_per_arena := (PGSIZE - HEADER) / size; free_list := [] |}])
        else Err AssertFail
      else Ok ds
  end.
(** The size doubles every time, and eleven descriptors do not fit. *)
Definition malloc_init (s : phys) : res heap :=
  rbind (init_loop 12 16 []) (fun ds => Ok {| phys_mem := s; descs := ds |}).

(** ** Arenas *)

Definition block_to_arena (b : Z) : M heap Z :=
  let a := pg_round_down b in
  do! assert (negb (a =? 0));
  let! magic := load_word a in
  do! assert (magic =? ARENA_MAGIC);
  let! d := load_word (a + 4) in
  do! (if d =? 0 then ret tt
       else let! dd := get_desc d in assert (u32 (pg_ofs b - HEADER) mod block_size dd =? 0));
  do! assert (negb (d =? 0) || (pg_ofs b =? HEADER));
  ret a.
Definition arena_to_block (a idx : Z) : M heap Z :=
  do! assert (negb (a =? 0));
  let! magic := load_word a in
  do! assert (magic =? ARENA_MAGIC);
  let! d := load_word (a + 4) in
  let! dd := get_desc d in
  do! assert (idx <? blocks_per_arena dd);
  ret (u32 (a + HEADER + idx * block_size dd)).

Definition make_arena (a d cnt : Z) : M heap unit :=
  do! store_word a ARENA_MAGIC;
  do! store_word (a + 4) d;
  store_word (a + 8) cnt.
(** Put the blocks of the arena from [i] on, [n] of them, at the end of the free list. *)
Fixpoint fill_loop (n : nat) (a i d : Z) : M heap unit :=
  match n with
  | O => ret tt
  | S n =>
      let! b := arena_to_block a i in
      let! dd := get_desc d in
      do! set_free d (free_list dd ++ [b]);
      fill_loop n a (i + 1) d
  end.

(** ** malloc *)

(** The first descriptor whose blocks are large enough. *)
Fixpoint find_desc (size : Z) (ds : list desc) (i : Z) : option Z :=
  match ds with
  | [] => None
  | d :: ds => if block_size d >=? size then Some i else find_desc size ds (i + 1)
  end.

Definition malloc_big (size : Z) : M heap Z :=
  let page_cnt := u32 (size + HEADER + PGSIZE - 1) / PGSIZE in
  let! a := in_phys (palloc_get_multiple 0 page_cnt) in
  if a =? 0 then ret 0
  else do! make_arena a 0 page_cnt; ret (a + HEADER).

(** The first block of the free list. *)
Definition take_block (d : Z) : M heap Z :=
  let! dd := get_desc d in
  match free_list dd with
  | [] => fail AssertFail
  | b :: fl =>
      do! set_free d fl;
      let! a := block_to_arena b in
      let! cnt := load_word (a + 8) in
      do! store_word (a + 8) (u32 (cnt - 1));
      ret b
  end.

Definition malloc (size : Z) : M heap Z :=
  if size =? 0 then ret 0
  else
    let! h := get in
    match find_desc size (descs h) 1 with
    | None => malloc_big size
    | Some d =>
        let! dd := get_desc d in
        match free_list dd with
        | [] =>
            let! a := in_phys (palloc_get_page 0) in
            if a =? 0 then ret 0
            else
              do! make_arena a d (blocks_per_arena dd);
              do! fill_loop (Z.to_nat (blocks_per_arena dd)) a 0 d;
              take_block d
        | _ => take_block d
        end
    end.

Definition calloc (a b : Z) : M heap Z :=
  let size := u32 (a * b) in
  if (size <? a) || (size <? b) then ret 0
  else
    let! p := malloc size in
    do! (if negb (p =? 0) then let! _ := in_phys (in_ram (memset p 0 size)) in ret tt else ret tt);
    ret p.

(** ** free *)

(** [list_remove] of a block that has to be on the list. *)
Definition unlink (d b : Z) : M heap unit :=
  let! dd := get_desc d in
  if bool_decide (b ∈ free_list dd) then set_free d (List.filter (fun x => negb (x =? b)) (free_list dd))
  else fail WildAccess.
Fixpoint unlink_loop (n : nat) (a i d : Z) : M heap unit :=
  match n with
  | O => ret tt
  | S n => let! b := arena_to_block a i in do! unlink d b; unlink_loop n a (i + 1) d
  end.

Definition free (p : Z) : M heap unit :=
  if p =? 0 then ret tt
  else
    let! a := block_to_arena p in
    let! d := load_word (a + 4) in
    if negb (d =? 0) then
      let! dd := get_desc d in
      let! _ := in_phys (in_ram (memset p 204 (block_size dd))) in
      do! set_free d (p :: free_list dd);
      let! cnt := load_word (a + 8) in
      let cnt := u32 (cnt + 1) in
      do! store_word (a + 8) cnt;
      if cnt >=? blocks_per_arena dd then
        do! assert (cnt =? blocks_per_arena dd);
        do! unlink_loop (Z.to_nat (blocks_per_arena dd)) a 0 d;
        in_phys (palloc_free_page a)
      else ret tt
    else
      let! n := load_word (a + 8) in
      in_phys (palloc_free_multiple a n).

(** The function [block_size] of the source. *)
Definition size_of_block (block : Z) : M heap Z :=
  let! a := block_to_arena block in
  let! d := load_word (a + 4) in
  if negb (d =? 0) then let! dd := get_desc d in ret (block_size dd)
  else let! n := load_word (a + 8) in ret (u32 (PGSIZE * n - pg_ofs block)).

Definition realloc (old_block new_size : Z) : M heap Z :=
  if new_size =? 0 then do! free old_block; ret 0
  else
    let! new_block := malloc new_size in
    do! (if negb (old_block =? 0) && negb (new_block =? 0) then
           let! old_size := size_of_block old_block in
           let min_size := if new_size <? old_size then new_size else old_size in
           let! _ := in_phys (in_ram (memcpy new_block old_block min_size)) in
           free old_block
         else ret tt);
    ret new_block.

End Malloc.
