(* ===== verification/MallocFacts.v ===== *)
(** * threads/malloc.c: the invariant of the heap *)

From S2P Require Import Prelude Bytes CString CStringFacts Bitmap VAddr Ram Palloc Malloc.
Import Bytes CString CStringFacts VAddr Ram Palloc Malloc.

Module MallocFacts.
Import Bitmap (bit_cnt, bit, all_are, in_range, updated).

(** What an arena is used for: blocks of one descriptor, or one big block of several pages. *)
Inductive kind := Small (i : Z) | Big (n : Z).
Definition pages (k : kind) : Z := match k with Small _ => 1 | Big n => n end.

Definition hram (h : heap) : mem := ram (phys_mem h).
Definition set_ram (m : mem) (h : heap) : heap := {| phys_mem := with_ram m (phys_mem h); descs := descs h |}.
Definition kpool (h : heap) : pool := kernel_pool (phys_mem h).
Definition desc_at (h : heap) (i : Z) : option desc := if i <=? 0 then None else descs h !! Z.to_nat (i - 1).

(** The [k]-th block of the arena [a]. *)
Definition block (a : Z) (d : desc) (k : Z) : Z := a + 12 + k * block_size d.
(** The number of blocks of the arena [a] on a free list. *)
Definition count (a : Z) (fl : list Z) : Z := Z.of_nat (length (List.filter (fun b => pg_round_down b =? a) fl)).

Record desc_ok (d : desc) : Prop := {
  desc_size : 16 <= block_size d <= 1024;
  desc_cnt : blocks_per_arena d = 4084 / block_size d }.

Definition page_used (h : heap) (a n : Z) : Prop :=
  exists j, a = base (kpool h) + 4096 * j /\ 0 <= j /\ 0 < n /\ j + n <= bit_cnt (used_map (kpool h)) /\ all_are (used_map (kpool h)) j n true.

Definition header (m : mem) (a d n : Z) : Prop :=
  word_at m a ARENA_MAGIC /\ word_at m (a + 4) d /\ word_at m (a + 8) n.
Definition arena_ok (h : heap) (a : Z) (k : kind) : Prop :=
  match k with
  | Small i => exists d, desc_at h i = Some d /\ header (hram h) a i (count a (free_list d))
  | Big n => header (hram h) a 0 n
  end.
Definition listed (h : heap) (A : gmap Z kind) (i : Z) (d : desc) : Prop :=
  NoDup (free_list d) /\
  forall b, b ∈ free_list d -> exists a k, A !! a = Some (Small i) /\ 0 <= k < blocks_per_arena d /\ b = block a d k.

Record inv (h : heap) (A : gmap Z kind) : Prop := {
  inv_phys : phys_ok (phys_mem h);
  inv_len : (length (descs h) <= 10)%nat;
  inv_descs : forall i d, desc_at h i = Some d -> desc_ok d /\ listed h A i d;
  inv_used : forall a k, A !! a = Some k -> page_used h a (pages k);
  inv_header : forall a k, A !! a = Some k -> arena_ok h a k;
  inv_apart : forall a k a' k', A !! a = Some k -> A !! a' = Some k' -> a <> a' ->
    a + 4096 * pages k <= a' \/ a' + 4096 * pages k' <= a }.

(** The blocks in use, with their sizes. *)
Definition allocated (h : heap) (A : gmap Z kind) (b s : Z) : Prop :=
  (exists a i d k, A !! a = Some (Small i) /\ desc_at h i = Some d /\ 0 <= k < blocks_per_arena d /\
     b = block a d k /\ b ∉ free_list d /\ s = block_size d) \/
  (exists a n, A !! a = Some (Big n) /\ b = a + 12 /\ s = 4096 * n - 12).

(** ** Arithmetic of blocks *)

Lemma desc_bounds d : desc_ok d -> 1 <= blocks_per_arena d <= 255 /\ 12 + blocks_per_arena d * block_size d <= 4096.
Proof.
  intros [Hs ->]. pose proof (Z.mul_div_le 4084 (block_size d) ltac:(lia)).
  assert (4084 / block_size d < 256) by (apply Z.div_lt_upper_bound; lia).
  assert (1 <= 4084 / block_size d) by (apply Z.div_le_lower_bound; lia). lia.
Qed.
Lemma block_inside d k : desc_ok d -> 0 <= k < blocks_per_arena d -> 12 + k * block_size d + block_size d <= 4096.
Proof. intros Hd Hk. pose proof (desc_bounds d Hd). pose proof (desc_size d Hd). nia. Qed.
Lemma block_inj a d k k' : desc_ok d -> block a d k = block a d k' -> k = k'.
Proof. intros Hd. pose proof (desc_size d Hd). unfold block. nia. Qed.

(** Where arenas can be. *)
Definition page_addr (a : Z) : Prop := PHYS_BASE <= a /\ a + 4096 < 2 ^ 32 + 1 /\ a mod 4096 = 0.
Lemma used_addr h a n : phys_ok (phys_mem h) -> page_used h a n ->
  page_addr a /\ a + 4096 * n < 2 ^ 32 /\ 0 < n /\ mapped (hram h) a (4096 * n).
Proof.
  intros Hp (j & -> & Hj & Hn & Hle & _). pose proof (phys_kernel _ Hp) as Hk. fold (kpool h) in Hk.
  pose proof (pool_end _ _ Hk). pose proof (pool_start _ _ Hk). destruct (page_address _ _ j Hk) as (_ & _ & Hm); [lia..|].
  split; [split; [lia|]; split; [lia|done]|]. split; [lia|]. split; [done|]. intros x Hx. apply (pool_mapped _ _ Hk). lia.
Qed.
Lemma round_block a o : page_addr a -> 0 <= o < 4096 -> pg_round_down (a + o) = a.
Proof. intros (H1 & H2 & H3) Ho. unfold PHYS_BASE in H1. apply pg_round_down_in; [lia|done|done|lia]. Qed.
Lemma round_small a d k : page_addr a -> desc_ok d -> 0 <= k < blocks_per_arena d -> pg_round_down (block a d k) = a.
Proof.
  intros Ha Hd Hk. unfold block. rewrite <- Z.add_assoc. apply round_block; [done|].
  pose proof (block_inside d k Hd Hk). pose proof (desc_size d Hd). nia.
Qed.

(** ** Counting *)

Lemma count_cons a b fl : count a (b :: fl) = (if pg_round_down b =? a then 1 else 0) + count a fl.
Proof. unfold count. cbn. destruct (pg_round_down b =? a); cbn [length]; lia. Qed.
Lemma count_nonneg a fl : 0 <= count a fl.
Proof. unfold count. lia. Qed.
Lemma count_app a fl fl' : count a (fl ++ fl') = count a fl + count a fl'.
Proof. unfold count. rewrite List.filter_app, length_app. lia. Qed.
Lemma count_none a fl : (forall b, b ∈ fl -> pg_round_down b <> a) -> count a fl = 0.
Proof.
  unfold count. induction fl as [|b fl IH]; [done|]. intros Hn. cbn.
  rewrite (proj2 (Z.eqb_neq (pg_round_down b) a)) by (apply Hn, list_elem_of_here). apply IH. intros x Hx. by apply Hn, list_elem_of_further.
Qed.

Definition block_list (a : Z) (d : desc) : list Z := map (fun k => block a d (Z.of_nat k)) (seq 0 (Z.to_nat (blocks_per_arena d))).
Lemma block_list_in a d b : b ∈ block_list a d <-> exists k, 0 <= k < blocks_per_arena d /\ b = block a d k.
Proof.
  unfold block_list. rewrite list_elem_of_fmap. split.
  - intros (k & -> & Hk). apply elem_of_seq in Hk. exists (Z.of_nat k). split; [lia|done].
  - intros (k & Hk & ->). exists (Z.to_nat k). rewrite Z2Nat.id by lia. split; [done|]. apply elem_of_seq. lia.
Qed.
Lemma block_list_length a d : desc_ok d -> Z.of_nat (length (block_list a d)) = blocks_per_arena d.
Proof. intros Hd. pose proof (desc_bounds d Hd). unfold block_list. rewrite length_map, length_seq. lia. Qed.
Lemma block_list_nodup a d : desc_ok d -> NoDup (block_list a d).
Proof. intros Hd. apply NoDup_fmap_2_strong; [|apply NoDup_seq]. intros x y _ _ E. apply (block_inj a d) in E; [lia|done]. Qed.

(** The blocks of an arena that are on the list. *)
Lemma filter_count_bound h A i d a : inv h A -> desc_at h i = Some d -> A !! a = Some (Small i) ->
  count a (free_list d) <= blocks_per_arena d /\
  (count a (free_list d) = blocks_per_arena d -> forall k, 0 <= k < blocks_per_arena d -> block a d k ∈ free_list d).
Proof.
  intros Hi Hd Ha. destruct (inv_descs _ _ Hi i d Hd) as [Hok [Hnd Hin]].
  destruct (used_addr h a 1 (inv_phys _ _ Hi) (inv_used _ _ Hi _ _ Ha)) as (Hpa & _).
  set (l := List.filter (fun b => pg_round_down b =? a) (free_list d)).
  assert (l ⊆ block_list a d) as Hsub.
  { intros b Hb. apply list_elem_of_In, filter_In in Hb as [Hb E]. apply list_elem_of_In in Hb. apply Z.eqb_eq in E. apply block_list_in.
    destruct (Hin b Hb) as (a' & k & Ha' & Hk & ->). exists k. split; [done|].
    destruct (used_addr h a' 1 (inv_phys _ _ Hi) (inv_used _ _ Hi _ _ Ha')) as (Hpa' & _). rewrite round_small in E by done. by subst a'. }
  assert (NoDup l) as Hndl. { unfold l. apply NoDup_ListNoDup, List.NoDup_filter. by apply NoDup_ListNoDup. }
  pose proof (NoDup_submseteq l (block_list a d) Hndl Hsub) as Hsm. pose proof (submseteq_length _ _ Hsm) as Hlen.
  pose proof (block_list_length a d Hok) as Hbl. split; [unfold count; fold l; lia|].
  intros E k Hk. assert (block a d k ∈ l) as Hbk.
  { rewrite (submseteq_length_Permutation _ _ Hsm) by (unfold count in E; fold l in E; lia). apply block_list_in. eauto. }
  apply list_elem_of_In, filter_In in Hbk as [Hbk _]. by apply list_elem_of_In.
Qed.

(** ** Running the elementary operations *)

Lemma in_phys_run {A} (c : M phys A) h a s : c (phys_mem h) = Ok (a, s) -> in_phys c h = Ok (a, {| phys_mem := s; descs := descs h |}).
Proof. unfold in_phys. by intros ->. Qed.
Lemma in_mem_run {A} (c : M mem A) h a m : c (hram h) = Ok (a, m) -> in_phys (in_ram c) h = Ok (a, set_ram m h).
Proof. intros E. apply in_phys_run. by apply in_ram_run. Qed.
Lemma set_ram_same h : set_ram (hram h) h = h.
Proof. by destruct h as [[]]. Qed.
Lemma load_word_run h a v : is_word v -> word_at (hram h) a v -> load_word a h = Ok (v, h).
Proof. intros Hv Hw. unfold load_word. rewrite (in_mem_run _ h v (hram h)) by (by apply load32_run). by rewrite set_ram_same. Qed.
Lemma store_word_run h a v : mapped (hram h) a 4 ->
  exists m, store_word a v h = Ok (tt, set_ram m h) /\ word_at m a v /\ frame (hram h) m a 4.
Proof. intros Hm. destruct (store32_run (hram h) a v Hm) as (m & E & W & F). exists m. split; [by apply in_mem_run|done]. Qed.

Definition with_free (d : desc) (fl : list Z) : desc :=
  {| block_size := block_size d; blocks_per_arena := blocks_per_arena d; free_list := fl |}.
Definition put_free (i : Z) (d : desc) (fl : list Z) (h : heap) : heap :=
  {| phys_mem := phys_mem h; descs := <[Z.to_nat (i - 1) := with_free d fl]> (descs h) |}.
Lemma get_desc_run h i d : desc_at h i = Some d -> get_desc i h = Ok (d, h).
Proof. unfold get_desc. fold (desc_at h i). by intros ->. Qed.
Lemma set_free_run h i d fl : desc_at h i = Some d -> set_free i fl h = Ok (tt, put_free i d fl h).
Proof. unfold set_free. fold (desc_at h i). by intros ->. Qed.
Lemma desc_at_bound h i d : desc_at h i = Some d -> 1 <= i <= Z.of_nat (length (descs h)).
Proof. unfold desc_at. destruct (Z.leb_spec i 0); [done|]. intros E. apply lookup_lt_Some in E. lia. Qed.
Lemma desc_at_put h i d fl i' : desc_at h i = Some d ->
  desc_at (put_free i d fl h) i' = if i' =? i then Some (with_free d fl) else desc_at h i'.
Proof.
  intros E. pose proof (desc_at_bound h i d E). unfold desc_at. cbn [descs put_free]. destruct (Z.leb_spec i' 0).
  { by rewrite (proj2 (Z.eqb_neq i' i)) by lia. }
  destruct (Z.eqb_spec i' i) as [->|Hne].
  - apply list_lookup_insert_eq. lia.
  - apply list_lookup_insert_ne. lia.
Qed.
Lemma with_free_ok d fl : desc_ok d -> desc_ok (with_free d fl).
Proof. intros [A B]. by split. Qed.

Lemma magic_word : is_word ARENA_MAGIC.
Proof. by unfold is_word, ARENA_MAGIC. Qed.
Lemma index_word h i d : desc_at h i = Some d -> (length (descs h) <= 10)%nat -> is_word i /\ i <> 0.
Proof. intros E Hl. apply desc_at_bound in E. unfold is_word. lia. Qed.
Lemma page_addr_pos a : page_addr a -> 0 < a.
Proof. intros (H & _). unfold PHYS_BASE in H. lia. Qed.

Lemma block_to_arena_run h a i n d k :
  page_addr a -> header (hram h) a i n -> desc_at h i = Some d -> desc_ok d -> (length (descs h) <= 10)%nat -> 0 <= k < blocks_per_arena d ->
  block_to_arena (block a d k) h = Ok (a, h).
Proof.
  intros Ha (Hm & Hi & _) Hd Hok Hl Hk. unfold block_to_arena. rewrite round_small by done.
  rewrite (proj2 (Z.eqb_neq a 0)) by (pose proof (page_addr_pos a Ha); lia). erewrite bind_eq; [|reflexivity].
  erewrite bind_eq; [|apply load_word_run; [apply magic_word|exact Hm]]. erewrite bind_eq; [|reflexivity]. destruct (index_word h i d Hd Hl) as [Hw Hne].
  erewrite bind_eq; [|apply load_word_run; [exact Hw|exact Hi]]. rewrite (proj2 (Z.eqb_neq i 0)) by done.
  pose proof (block_inside d k Hok Hk). pose proof (desc_size d Hok).
  assert (pg_ofs (block a d k) = 12 + k * block_size d) as Eo.
  { unfold block. rewrite <- Z.add_assoc. apply pg_ofs_in; [apply Ha|nia]. }
  rewrite Eo. unfold HEADER. rewrite Z.add_simpl_l, wrapu_small by nia.
  erewrite bind_eq; [|erewrite bind_eq; [|by apply get_desc_run]; rewrite Z.mod_mul by lia; reflexivity]. reflexivity.
Qed.
Lemma block_to_arena_big h a n : page_addr a -> header (hram h) a 0 n -> block_to_arena (a + 12) h = Ok (a, h).
Proof.
  intros Ha (Hm & Hi & _). unfold block_to_arena. rewrite round_block by done.
  rewrite (proj2 (Z.eqb_neq a 0)) by (pose proof (page_addr_pos a Ha); lia). erewrite bind_eq; [|reflexivity].
  erewrite bind_eq; [|apply load_word_run; [apply magic_word|exact Hm]]. erewrite bind_eq; [|reflexivity].
  erewrite bind_eq; [|apply load_word_run; [done|exact Hi]]. erewrite bind_eq; [|reflexivity]. rewrite pg_ofs_in by (try apply Ha; lia). reflexivity.
Qed.
Lemma arena_to_block_run h a i n d k :
  page_addr a -> header (hram h) a i n -> desc_at h i = Some d -> desc_ok d -> (length (descs h) <= 10)%nat -> 0 <= k < blocks_per_arena d ->
  arena_to_block a k h = Ok (block a d k, h).
Proof.
  intros Ha (Hm & Hi & _) Hd Hok Hl Hk. unfold arena_to_block.
  rewrite (proj2 (Z.eqb_neq a 0)) by (pose proof (page_addr_pos a Ha); lia). erewrite bind_eq; [|reflexivity].
  erewrite bind_eq; [|apply load_word_run; [apply magic_word|exact Hm]]. erewrite bind_eq; [|reflexivity]. destruct (index_word h i d Hd Hl) as [Hw Hne].
  erewrite bind_eq; [|apply load_word_run; [exact Hw|exact Hi]]. erewrite bind_eq; [|apply get_desc_run; exact Hd]. rewrite (proj2 (Z.ltb_lt k (blocks_per_arena d))) by lia.
  erewrite bind_eq; [|reflexivity]. unfold ret, HEADER. do 2 f_equal. pose proof (block_inside d k Hok Hk). pose proof (desc_size d Hok).
  destruct Ha as (Ha1 & Ha2 & _). unfold PHYS_BASE in Ha1. assert (0 <= k * block_size d) by nia. apply wrapu_small. unfold block in *. lia.
Qed.

End MallocFacts.
