(* ===== verification/MallocOps.v ===== *)
(** * threads/malloc.c: the operations keep the invariant *)

From S2P Require Import Prelude Bytes CString CStringFacts Bitmap VAddr Ram Palloc Malloc MallocFacts.
Import Bytes CString CStringFacts VAddr Ram Palloc Malloc MallocFacts.

Module MallocOps.
Import Bitmap (bit_cnt, bit, all_are, in_range, updated).

Lemma header_frame m m' x n a i c : frame m m' x n -> header m a i c -> a + 12 <= x \/ x + n <= a -> header m' a i c.
Proof. intros F (H1 & H2 & H3) Hd. split_and!; [apply (frame_word m m' x n)..]; try done; lia. Qed.
Lemma word_count a fl : count a fl <= 255 -> is_word (count a fl).
Proof. pose proof (count_nonneg a fl). unfold is_word. lia. Qed.
Lemma arena_addr h A a k : inv h A -> A !! a = Some k ->
  page_addr a /\ a + 4096 * pages k < 2 ^ 32 /\ 0 < pages k /\ mapped (hram h) a (4096 * pages k).
Proof. intros Hi Ha. apply used_addr; [apply Hi|by apply (inv_used h A)]. Qed.
Lemma small_arena h A a i : inv h A -> A !! a = Some (Small i) ->
  exists d, desc_at h i = Some d /\ desc_ok d /\ listed h A i d /\ header (hram h) a i (count a (free_list d)).
Proof.
  intros Hi Ha. destruct (inv_header _ _ Hi _ _ Ha) as (d & Hd & Hh). destruct (inv_descs _ _ Hi _ _ Hd). by exists d.
Qed.

(** Two arenas do not share a page. *)
Lemma page_arena h A a k a' k' : inv h A -> A !! a = Some k -> A !! a' = Some k' ->
  a' <= a < a' + 4096 * pages k' -> a = a' /\ k = k'.
Proof.
  intros Hi Ha Ha' Hin. destruct (decide (a = a')) as [->|Hne]; [split; congruence|].
  destruct (arena_addr _ _ _ _ Hi Ha) as (_ & _ & ? & _). destruct (inv_apart _ _ Hi _ _ _ _ Ha Ha' Hne); lia.
Qed.
Lemma listed_page h A i d b : inv h A -> desc_at h i = Some d -> b ∈ free_list d ->
  exists a k, A !! a = Some (Small i) /\ 0 <= k < blocks_per_arena d /\ b = block a d k /\ pg_round_down b = a.
Proof.
  intros Hi Hd Hb. destruct (inv_descs _ _ Hi _ _ Hd) as (Hok & _ & Hin). destruct (Hin b Hb) as (a & k & Ha & Hk & ->).
  exists a, k. destruct (arena_addr _ _ _ _ Hi Ha) as (Hpa & _). split; [done|]. split; [done|]. split; [done|]. by apply round_small.
Qed.

(** ** Changing a free list

    The list [fl] replaces the free list of the descriptor [i]; only the arena [a] has
    a different number of blocks on it, and only bytes of [a] behind the descriptor
    field have changed. *)
Record relisted (h : heap) (A : gmap Z kind) (i : Z) (d : desc) (fl : list Z) (a : Z) (m : mem) : Prop := {
  rl_arena : A !! a = Some (Small i);
  rl_nodup : NoDup fl;
  rl_blocks : forall b, b ∈ fl -> exists a k, A !! a = Some (Small i) /\ 0 <= k < blocks_per_arena d /\ b = block a d k;
  rl_others : forall a', a' <> a -> count a' fl = count a' (free_list d);
  rl_frame : frame (hram h) m (a + 8) 4088;
  rl_count : word_at m (a + 8) (count a fl) }.

Lemma relisted_inv h A i d fl a m : inv h A -> desc_at h i = Some d -> relisted h A i d fl a m -> inv (set_ram m (put_free i d fl h)) A.
Proof.
  intros Hi Hd [Ha Hnd Hbl Hot Hf Hc]. destruct (inv_descs _ _ Hi _ _ Hd) as [Hok _]. split.
  - apply (phys_frame _ _ _ _ (inv_phys _ _ Hi) Hf).
  - cbn. rewrite length_insert. apply Hi.
  - intros i' d' Hd'. change (desc_at (put_free i d fl h) i' = Some d') in Hd'. rewrite desc_at_put in Hd' by done.
    destruct (Z.eqb_spec i' i) as [->|]; [|apply (inv_descs _ _ Hi i' d' Hd')].
    injection Hd' as <-. split; [by apply with_free_ok|]. by split.
  - intros a' k' Ha'. apply (inv_used _ _ Hi a' k' Ha').
  - intros a' k' Ha'. assert (a' <> a -> a' + 12 <= a + 8 \/ a + 8 + 4088 <= a') as Hap.
    { intros Hne. destruct (arena_addr _ _ _ _ Hi Ha') as (_ & _ & ? & _). destruct (inv_apart _ _ Hi _ _ _ _ Ha' Ha Hne); cbn [pages] in *; lia. }
    pose proof (inv_header _ _ Hi _ _ Ha') as Hh'. destruct k' as [i'|n']; cbn [arena_ok] in *.
    + destruct Hh' as (d' & Hd' & Hh'). change (desc_at (set_ram m (put_free i d fl h)) i') with (desc_at (put_free i d fl h) i'). rewrite desc_at_put by done.
      destruct (Z.eqb_spec i' i) as [->|Hne].
      * assert (d' = d) as -> by congruence. eexists. split; [done|]. cbn [free_list with_free]. destruct (decide (a' = a)) as [->|Hna].
        -- destruct Hh' as (H1 & H2 & _). split_and!; [apply (frame_word _ _ _ _ _ _ Hf H1)|apply (frame_word _ _ _ _ _ _ Hf H2)|exact Hc]; lia.
        -- rewrite Hot by done. apply (header_frame _ _ _ _ _ _ _ Hf Hh'). auto.
      * exists d'. split; [done|]. apply (header_frame _ _ _ _ _ _ _ Hf Hh'), Hap. intros ->. congruence.
    + apply (header_frame _ _ _ _ _ _ _ Hf Hh'), Hap. intros ->. congruence.
  - apply Hi.
Qed.

(** The arena of a block is determined by its address. *)
Lemma block_page h A a i d k : inv h A -> A !! a = Some (Small i) -> desc_at h i = Some d -> 0 <= k < blocks_per_arena d ->
  pg_round_down (block a d k) = a.
Proof.
  intros Hi Ha Hd Hk. destruct (inv_descs _ _ Hi _ _ Hd) as [Hok _]. destruct (arena_addr _ _ _ _ Hi Ha) as (Hpa & _). by apply round_small.
Qed.
Lemma big_page h A a n : inv h A -> A !! a = Some (Big n) -> pg_round_down (a + 12) = a.
Proof. intros Hi Ha. destruct (arena_addr _ _ _ _ Hi Ha) as (Hpa & _). by apply round_block. Qed.

Lemma relisted_allocated h A i d fl a m x s : inv h A -> desc_at h i = Some d -> relisted h A i d fl a m ->
  allocated (set_ram m (put_free i d fl h)) A x s <->
  (allocated h A x s \/ x ∈ free_list d /\ s = block_size d) /\ x ∉ fl.
Proof.
  intros Hi Hd R. assert (forall a' k', A !! a' = Some k' -> k' <> Small i -> pg_round_down x = a' -> x ∉ fl) as Hother.
  { intros a' k' Ha' Hne Er Hx. destruct (rl_blocks _ _ _ _ _ _ _ R x Hx) as (a2 & k2 & Ha2 & Hk2 & ->).
    rewrite (block_page h A a2 i d k2) in Er by done. subst a2. congruence. }
  unfold allocated. split.
  - intros [(a' & i' & d' & k' & Ha' & Hd' & Hk' & E & Hn & ->)|(a' & n & Ha' & -> & ->)].
    + change (desc_at (put_free i d fl h) i' = Some d') in Hd'. rewrite desc_at_put in Hd' by done. destruct (Z.eqb_spec i' i) as [->|Hne].
      * injection Hd' as <-. split; [|done]. destruct (decide (x ∈ free_list d)) as [Hx|Hx]; [by right|]. left. left. by exists a', i, d, k'.
      * split; [left; left; by exists a', i', d', k'|]. apply (Hother a' _ Ha'); [congruence|]. rewrite E. by apply (block_page h A a' i').
    + split; [left; right; by exists a', n|]. apply (Hother a' _ Ha'); [done|]. by apply (big_page h A a' n).
  - intros [[[(a' & i' & d' & k' & Ha' & Hd' & Hk' & E & Hn & ->)|H]|[Hx ->]] Hnf].
    + left. change (desc_at (set_ram m (put_free i d fl h))) with (desc_at (put_free i d fl h)). destruct (decide (i' = i)) as [->|Hne].
      * assert (d' = d) as -> by congruence. exists a', i, (with_free d fl), k'. rewrite desc_at_put, Z.eqb_refl by done.
        exact (conj Ha' (conj eq_refl (conj Hk' (conj E (conj Hnf eq_refl))))).
      * exists a', i', d', k'. rewrite desc_at_put, (proj2 (Z.eqb_neq i' i)) by done.
        exact (conj Ha' (conj Hd' (conj Hk' (conj E (conj Hn eq_refl))))).
    + by right.
    + left. destruct (listed_page h A i d x Hi Hd Hx) as (a' & k' & Ha' & Hk' & -> & _). exists a', i, (with_free d fl), k'.
      change (desc_at (set_ram m (put_free i d fl h))) with (desc_at (put_free i d fl h)). rewrite desc_at_put, Z.eqb_refl by done.
      exact (conj Ha' (conj eq_refl (conj Hk' (conj eq_refl (conj Hnf eq_refl))))).
Qed.

(** ** Taking a block off the free list *)

Lemma take_block_run h A i d b fl : inv h A -> desc_at h i = Some d -> free_list d = b :: fl ->
  exists a m, take_block i h = Ok (b, set_ram m (put_free i d fl h)) /\ relisted h A i d fl a m /\ frame (hram h) m (a + 8) 4.
Proof.
  intros Hi Hd Hfl. destruct (inv_descs _ _ Hi _ _ Hd) as (Hok & Hnd & Hin). rewrite Hfl in Hnd. apply NoDup_cons in Hnd as [Hnb Hnd].
  destruct (listed_page h A i d b Hi Hd) as (a & k & Ha & Hk & Eb & Er); [rewrite Hfl; apply list_elem_of_here|].
  destruct (arena_addr _ _ _ _ Hi Ha) as (Hpa & Hlt & _ & Hmap). cbn [pages] in *.
  destruct (small_arena h A a i Hi Ha) as (d' & Hd' & _ & _ & Hh). rewrite Hd in Hd'. injection Hd' as <-.
  pose proof (proj1 (filter_count_bound h A i d a Hi Hd Ha)) as Hcb. pose proof (desc_bounds d Hok) as Hb255.
  set (h1 := put_free i d fl h). assert (desc_at h1 i = Some (with_free d fl)) as Hd1.
  { unfold h1. rewrite desc_at_put by done. by rewrite Z.eqb_refl. }
  assert (length (descs h1) <= 10)%nat as Hl1 by (cbn; rewrite length_insert; apply Hi).
  destruct (store_word_run h1 (a + 8) (u32 (count a (free_list d) - 1))) as (m & Es & Ws & Fs). { intros x Hx. apply Hmap. lia. }
  change (hram h1) with (hram h) in Fs. exists a, m. split; [|split; [|done]].
  - unfold take_block. erewrite bind_eq; [|by apply get_desc_run]. rewrite Hfl. erewrite bind_eq; [|by apply set_free_run]. fold h1.
    rewrite Eb at 1. erewrite bind_eq; [|apply (block_to_arena_run h1 a i (count a (free_list d)) (with_free d fl)); [done|exact Hh|done|by apply with_free_ok|done|exact Hk]].
    erewrite bind_eq; [|apply (load_word_run _ _ (count a (free_list d))); [apply word_count; lia|apply Hh]]. erewrite bind_eq; [|exact Es]. reflexivity.
  - split; [done|done| | | |].
    + intros b' Hb'. apply (Hin b'). rewrite Hfl. by apply list_elem_of_further.
    + intros a' Hne. rewrite Hfl, count_cons, Er, (proj2 (Z.eqb_neq a a')) by congruence. lia.
    + apply (frame_weaken _ _ _ _ _ _ Fs); lia.
    + rewrite Hfl, count_cons, Er, Z.eqb_refl in Ws, Hcb. pose proof (count_nonneg a fl). rewrite wrapu_small in Ws by lia.
      by replace (1 + count a fl - 1) with (count a fl) in Ws by lia.
Qed.

(** ** New pages *)

Definition with_phys (s : phys) (h : heap) : heap := {| phys_mem := s; descs := descs h |}.

(** The heap [h1] differs from [h] in the [n] pages from [a] on, which the page allocator has added. *)
Record grown (h : heap) (A : gmap Z kind) (a n : Z) (h1 : heap) : Prop := {
  gr_descs : descs h1 = descs h;
  gr_phys : phys_ok (phys_mem h1);
  gr_ram : hram h1 = hram h;
  gr_new : page_used h1 a n;
  gr_old : forall a' k', A !! a' = Some k' -> page_used h1 a' (pages k');
  gr_apart : forall a' k', A !! a' = Some k' -> a' + 4096 * pages k' <= a \/ a + 4096 * n <= a' }.

Lemma grow_run h A n : inv h A -> 0 < n < 2 ^ 32 ->
  (exists a s', palloc_get_multiple 0 n (phys_mem h) = Ok (a, s') /\ a <> 0 /\ grown h A a n (with_phys s' h)) \/
  (no_room (kpool h) n /\ palloc_get_multiple 0 n (phys_mem h) = Ok (0, phys_mem h)).
Proof.
  intros Hi Hn. destruct (palloc_get_multiple_run (phys_mem h) 0 n (inv_phys _ _ Hi) Hn) as [(j & s' & E & Hj & Hle & Ha & Hset & Hr)|Hno]; [|by right].
  left. change (has 0 PAL_USER) with false in *. change (has 0 PAL_ZERO) with false in Hr. cbn [pool_of] in *. fold (kpool h) in *.
  pose proof (phys_kernel _ (inv_phys _ _ Hi)) as Hk. fold (kpool h) in Hk. destruct (page_address _ _ j Hk) as (_ & Hpos & _); [lia..|].
  exists (base (kpool h) + 4096 * j), s'. split; [done|]. split; [lia|].
  pose proof (set_pages_ok _ _ _ _ _ _ Hset (inv_phys _ _ Hi)) as Hp'. destruct Hset as [(_ & Ec & Eb) Ebase _ _]. cbn [pool_of] in *.
  split; [done|done|exact Hr| | |].
  - exists j. unfold kpool. cbn [phys_mem with_phys]. rewrite Ebase, Ec. split; [done|]. split; [done|]. split; [lia|]. split; [done|].
    intros t Ht. rewrite Eb by lia. by rewrite (proj2 (Bitmap.in_range_spec j n t) Ht).
  - intros a' k' Ha'. destruct (inv_used _ _ Hi _ _ Ha') as (j' & -> & Hj' & Hn' & Hle' & Hall). exists j'. unfold kpool in *. cbn [phys_mem with_phys].
    rewrite Ebase, Ec. split_and!; try done. intros t Ht. rewrite Eb by lia. destruct (in_range j n t); [done|]. by apply Hall.
  - intros a' k' Ha'. destruct (inv_used _ _ Hi _ _ Ha') as (j' & -> & Hj' & Hn' & Hle' & Hall).
    destruct (decide (j' + pages k' <= j)); [lia|]. destruct (decide (j + n <= j')); [lia|]. exfalso.
    specialize (Ha (Z.max j j')). specialize (Hall (Z.max j j')). rewrite Ha in Hall by lia. discriminate Hall. lia.
Qed.

Lemma make_arena_run h a d c : mapped (hram h) a 12 ->
  exists m, make_arena a d c h = Ok (tt, set_ram m h) /\ header m a d c /\ frame (hram h) m a 12.
Proof.
  intros Hm. destruct (store_word_run h a ARENA_MAGIC) as (m1 & E1 & W1 & F1); [intros x Hx; apply Hm; lia|].
  destruct (store_word_run (set_ram m1 h) (a + 4) d) as (m2 & E2 & W2 & F2); [intros x Hx; apply F1, Hm; lia|].
  destruct (store_word_run (set_ram m2 (set_ram m1 h)) (a + 8) c) as (m3 & E3 & W3 & F3); [intros x Hx; apply F2, F1, Hm; lia|].
  exists m3. split; [|split; [split; [|split]|]].
  - unfold make_arena. erewrite bind_eq; [|exact E1]. erewrite bind_eq; [|exact E2]. exact E3.
  - apply (frame_word _ _ _ _ _ _ F3); [|lia]. apply (frame_word _ _ _ _ _ _ F2); [done|lia].
  - apply (frame_word _ _ _ _ _ _ F3); [done|lia].
  - done.
  - apply (ram_frame_trans _ m1); [apply (frame_weaken _ _ _ _ _ _ F1); lia|]. apply (ram_frame_trans _ m2); [apply (frame_weaken _ _ _ _ _ _ F2)|apply (frame_weaken _ _ _ _ _ _ F3)]; lia.
Qed.

(** The arenas of [h] are arenas of a heap [h2] that only changes the new pages. *)
Lemma add_arena_inv h A a k h1 h2 : inv h A -> grown h A a (pages k) h1 -> kpool h2 = kpool h1 ->
  phys_ok (phys_mem h2) -> (length (descs h2) <= 10)%nat -> frame (hram h) (hram h2) a (4096 * pages k) ->
  (forall i d, desc_at h2 i = Some d -> desc_ok d /\ listed h2 (<[a := k]> A) i d) -> arena_ok h2 a k ->
  (forall i d, desc_at h i = Some d -> exists d2, desc_at h2 i = Some d2 /\ forall a', is_Some (A !! a') -> count a' (free_list d2) = count a' (free_list d)) ->
  inv h2 (<[a := k]> A).
Proof.
  intros Hi G Ek Hp Hl Hf Hds Hak Hcnt. split; [done|done|done| | |].
  - intros a' k' Ha'. unfold page_used. rewrite Ek. apply lookup_insert_Some in Ha' as [[<- <-]|[_ Ha']]; [apply G|by apply (gr_old _ _ _ _ _ G)].
  - intros a' k' Ha'. apply lookup_insert_Some in Ha' as [[<- <-]|[_ Ha']]; [done|].
    destruct (arena_addr _ _ _ _ Hi Ha') as (_ & _ & Hpos & _). pose proof (gr_apart _ _ _ _ _ G _ _ Ha') as Hap.
    pose proof (inv_header _ _ Hi _ _ Ha') as Hh. destruct k' as [i'|n']; cbn [arena_ok] in *.
    + destruct Hh as (d & Hd & Hh). destruct (Hcnt i' d Hd) as (d2 & Hd2 & Ec). exists d2. split; [done|]. rewrite Ec by eauto.
      apply (header_frame _ _ _ _ _ _ _ Hf Hh). lia.
    + apply (header_frame _ _ _ _ _ _ _ Hf Hh). lia.
  - intros a1 k1 a2 k2 H1 H2 Hne. apply lookup_insert_Some in H1 as [[<- <-]|[_ H1]], H2 as [[<- <-]|[_ H2]]; [done| | |].
    + pose proof (gr_apart _ _ _ _ _ G _ _ H2). lia.
    + pose proof (gr_apart _ _ _ _ _ G _ _ H1). lia.
    + by apply (inv_apart _ _ Hi).
Qed.

Lemma put_put h i d fl fl' : put_free i (with_free d fl) fl' (put_free i d fl h) = put_free i d fl' h.
Proof. unfold put_free. cbn. by rewrite list_insert_insert_eq. Qed.
Lemma put_same h i d : desc_at h i = Some d -> put_free i d (free_list d) h = h.
Proof.
  unfold desc_at, put_free. destruct (i <=? 0); [done|]. intros E. destruct d as [bs n fl]. cbn. rewrite list_insert_id by done. by destruct h.
Qed.

Lemma fill_loop_run a i c n : forall k h d, page_addr a -> header (hram h) a i c -> desc_at h i = Some d -> desc_ok d ->
  (length (descs h) <= 10)%nat -> 0 <= k -> k + Z.of_nat n <= blocks_per_arena d ->
  fill_loop n a k i h = Ok (tt, put_free i d (free_list d ++ map (fun t => block a d (k + Z.of_nat t)) (seq 0 n)) h).
Proof.
  induction n as [|n IH]; intros k h d Ha Hh Hd Hok Hl Hk Hn; cbn [fill_loop].
  { cbn [seq map]. rewrite app_nil_r, put_same by done. done. }
  erewrite bind_eq; [|apply (arena_to_block_run h a i c d k); try done; lia]. erewrite bind_eq; [|by apply get_desc_run].
  erewrite bind_eq; [|by apply set_free_run]. set (d1 := with_free d (free_list d ++ [block a d k])).
  rewrite (IH (k + 1) _ d1); [|done|exact Hh| |by apply with_free_ok|cbn; by rewrite length_insert|lia|cbn; lia].
  - unfold d1. rewrite put_put. cbn [free_list with_free]. do 3 f_equal. rewrite <- app_assoc. f_equal. cbn. rewrite Z.add_0_r. f_equal.
    rewrite <- seq_shift, map_map. apply map_ext. intros t. unfold block. cbn [block_size with_free]. lia.
  - rewrite desc_at_put by done. by rewrite Z.eqb_refl.
Qed.
Lemma block_list_count h1 a d n : phys_ok (phys_mem h1) -> page_used h1 a n -> desc_ok d -> count a (block_list a d) = blocks_per_arena d.
Proof.
  intros Hp Hu Hok. destruct (used_addr _ _ _ Hp Hu) as (Hpa & _). unfold count. rewrite <- (block_list_length a d Hok). do 2 f_equal.
  assert (forall b, b ∈ block_list a d -> pg_round_down b = a) as Hall.
  { intros b (k & Hk & ->)%block_list_in. by apply round_small. }
  revert Hall. generalize (block_list a d) as l. induction l as [|b l IH]; [done|]. intros Hall. cbn.
  rewrite (Hall b (list_elem_of_here _ _)), Z.eqb_refl. f_equal. apply IH. intros x Hx. by apply Hall, list_elem_of_further.
Qed.

Lemma grown_fresh h A a n h1 : inv h A -> grown h A a n h1 -> A !! a = None.
Proof.
  intros Hi G. destruct (A !! a) as [k|] eqn:E; [|done]. destruct (arena_addr _ _ _ _ Hi E) as (_ & _ & ? & _).
  destruct (gr_new _ _ _ _ _ G) as (_ & _ & _ & ? & _). pose proof (gr_apart _ _ _ _ _ G _ _ E). lia.
Qed.

(** The heap after a new arena for the descriptor [i]. *)
Definition new_arena (h1 : heap) (i : Z) (d : desc) (a : Z) (m : mem) : heap := set_ram m (put_free i d (block_list a d) h1).

Lemma new_arena_desc h A i d a h1 m : grown h A a 1 h1 -> desc_at h i = Some d -> forall i',
  desc_at (new_arena h1 i d a m) i' = if i' =? i then Some (with_free d (block_list a d)) else desc_at h i'.
Proof.
  intros G Hd i'. change (desc_at (new_arena h1 i d a m) i') with (desc_at (put_free i d (block_list a d) h1) i').
  rewrite desc_at_put; unfold desc_at in *; by rewrite (gr_descs _ _ _ _ _ G).
Qed.

Lemma new_arena_run h A i d a h1 : inv h A -> grown h A a 1 h1 -> desc_at h i = Some d -> free_list d = [] ->
  exists m, (do! make_arena a i (blocks_per_arena d); fill_loop (Z.to_nat (blocks_per_arena d)) a 0 i) h1 = Ok (tt, new_arena h1 i d a m) /\
    frame (hram h) m a 12 /\ header m a i (blocks_per_arena d).
Proof.
  intros Hi G Hd Hfl. destruct (inv_descs _ _ Hi _ _ Hd) as [Hok _]. destruct (used_addr _ _ _ (gr_phys _ _ _ _ _ G) (gr_new _ _ _ _ _ G)) as (Hpa & Hlt & _ & Hmap).
  destruct (make_arena_run h1 a i (blocks_per_arena d)) as (m & E & Hh & Hf); [intros x Hx; apply Hmap; lia|].
  rewrite (gr_ram _ _ _ _ _ G) in Hf. exists m. split; [|done]. erewrite bind_eq; [|exact E]. pose proof (desc_bounds d Hok).
  assert (desc_at (set_ram m h1) i = Some d) as Hd1 by (unfold desc_at; cbn; rewrite (gr_descs _ _ _ _ _ G); exact Hd).
  assert (length (descs (set_ram m h1)) <= 10)%nat as Hl by (cbn; rewrite (gr_descs _ _ _ _ _ G); apply Hi).
  rewrite (fill_loop_run a i (blocks_per_arena d) _ 0 (set_ram m h1) d Hpa Hh Hd1 Hok Hl) by lia. by rewrite Hfl.
Qed.

Lemma new_arena_inv h A i d a h1 m : inv h A -> grown h A a 1 h1 -> desc_at h i = Some d -> free_list d = [] ->
  frame (hram h) m a 12 -> header m a i (blocks_per_arena d) -> inv (new_arena h1 i d a m) (<[a := Small i]> A).
Proof.
  intros Hi G Hd Hfl Hf Hh. destruct (inv_descs _ _ Hi _ _ Hd) as [Hok _].
  pose proof (grown_fresh h A a 1 h1 Hi G) as Hna.
  pose proof (new_arena_desc h A i d a h1 m G Hd) as Hda.
  apply (add_arena_inv h A a (Small i) h1); [done|done|done| | | | | |].
  - apply (phys_frame (phys_mem h1) m a 12); [apply G|]. change (frame (hram h1) m a 12). by rewrite (gr_ram _ _ _ _ _ G).
  - cbn. rewrite length_insert, (gr_descs _ _ _ _ _ G). apply Hi.
  - apply (frame_weaken _ _ _ _ _ _ Hf); cbn; lia.
  - intros i' d' Hd'. rewrite Hda in Hd'. destruct (Z.eqb_spec i' i) as [->|Hne].
    + injection Hd' as <-. split; [by apply with_free_ok|]. split; [by apply block_list_nodup|].
      intros b (k & Hk & ->)%block_list_in. exists a, k. split; [apply lookup_insert_eq|]. done.
    + destruct (inv_descs _ _ Hi _ _ Hd') as (Hok' & Hnd' & Hin'). split; [done|]. split; [done|]. intros b Hb.
      destruct (Hin' b Hb) as (a' & k & Ha' & Hk & ->). exists a', k. split; [|done]. rewrite lookup_insert_ne; [done|]. congruence.
  - exists (with_free d (block_list a d)). rewrite Hda, Z.eqb_refl. split; [done|]. cbn [free_list with_free].
    rewrite (block_list_count h1 a d 1) by (done || apply G). exact Hh.
  - intros i' d' Hd'. rewrite Hda. destruct (Z.eqb_spec i' i) as [->|Hne]; [|by exists d'].
    assert (d' = d) as -> by congruence. eexists. split; [done|]. intros a' [k' Ha']. cbn [free_list with_free]. rewrite Hfl. apply count_none.
    intros b (k & Hk & ->)%block_list_in. destruct (used_addr _ _ _ (gr_phys _ _ _ _ _ G) (gr_new _ _ _ _ _ G)) as (Hpa & _).
    rewrite round_small by done. congruence.
Qed.

Lemma new_arena_allocated h A i d a h1 m x s : inv h A -> grown h A a 1 h1 -> desc_at h i = Some d -> free_list d = [] ->
  allocated (new_arena h1 i d a m) (<[a := Small i]> A) x s <-> allocated h A x s.
Proof.
  intros Hi G Hd Hfl. pose proof (new_arena_desc h A i d a h1 m G Hd) as Hda.
  pose proof (grown_fresh h A a 1 h1 Hi G) as Hna.
  destruct (used_addr _ _ _ (gr_phys _ _ _ _ _ G) (gr_new _ _ _ _ _ G)) as (Hpa & _).
  unfold allocated. split.
  - intros [(a' & i' & d' & k' & Ha' & Hd' & Hk' & E & Hn & ->)|(a' & n & Ha' & -> & ->)].
    + left. rewrite Hda in Hd'. apply lookup_insert_Some in Ha' as [[<- [= <-]]|[Hne Ha']].
      * rewrite Z.eqb_refl in Hd'. injection Hd' as <-. exfalso. apply Hn. cbn. apply block_list_in. exists k'. done.
      * destruct (Z.eqb_spec i' i) as [->|]; [|by exists a', i', d', k']. injection Hd' as <-. exists a', i, d, k'.
        rewrite Hfl. exact (conj Ha' (conj Hd (conj Hk' (conj E (conj (not_elem_of_nil x) eq_refl))))).
    + right. apply lookup_insert_Some in Ha' as [[_ ?]|[Hne Ha']]; [done|]. by exists a', n.
  - intros [(a' & i' & d' & k' & Ha' & Hd' & Hk' & E & Hn & ->)|(a' & n & Ha' & -> & ->)].
    + left. assert (a <> a') as Hne by congruence. destruct (decide (i' = i)) as [->|Hne'].
      * assert (d' = d) as -> by congruence. exists a', i, (with_free d (block_list a d)), k'. rewrite lookup_insert_ne, Hda, Z.eqb_refl by done.
        refine (conj Ha' (conj eq_refl (conj Hk' (conj E (conj _ eq_refl))))). cbn. intros (k & Hk & Ex)%block_list_in.
        destruct (inv_descs _ _ Hi _ _ Hd) as [Hok _]. apply Hne. rewrite <- (round_small a d k Hpa Hok Hk), <- Ex, E. by apply (block_page h A a' i).
      * exists a', i', d', k'. rewrite lookup_insert_ne, Hda, (proj2 (Z.eqb_neq i' i)) by done. done.
    + right. assert (a <> a') as Hne by congruence. exists a', n. by rewrite lookup_insert_ne.
Qed.

End MallocOps.

(** * threads/malloc.c: big blocks, and giving memory back *)

Import Bytes CString CStringFacts VAddr Ram Palloc Malloc MallocFacts MallocOps.

Module MallocFree.
Import Bitmap (bit_cnt, bit, all_are, in_range, updated).

(** ** Big blocks *)

Lemma big_arena_inv h A a n h1 m : inv h A -> grown h A a n h1 -> frame (hram h) m a 12 -> header m a 0 n ->
  inv (set_ram m h1) (<[a := Big n]> A).
Proof.
  intros Hi G Hf Hh. pose proof (grown_fresh h A a n h1 Hi G) as Hna. destruct (gr_new _ _ _ _ _ G) as (_ & _ & _ & Hn & _).
  assert (forall i, desc_at (set_ram m h1) i = desc_at h i) as Hda by (intros i; unfold desc_at; cbn; by rewrite (gr_descs _ _ _ _ _ G)).
  apply (add_arena_inv h A a (Big n) h1); [done|done|done| | | | |exact Hh|].
  - apply (phys_frame (phys_mem h1) m a 12); [apply G|]. change (frame (hram h1) m a 12). by rewrite (gr_ram _ _ _ _ _ G).
  - cbn. rewrite (gr_descs _ _ _ _ _ G). apply Hi.
  - apply (frame_weaken _ _ _ _ _ _ Hf); cbn; lia.
  - intros i d Hd. rewrite Hda in Hd. destruct (inv_descs _ _ Hi _ _ Hd) as (Hok & Hnd & Hin). split; [done|]. split; [done|]. intros b Hb.
    destruct (Hin b Hb) as (a' & k & Ha' & Hk & ->). exists a', k. split; [|done]. rewrite lookup_insert_ne; [done|congruence].
  - intros i d Hd. exists d. by rewrite Hda.
Qed.
Lemma big_arena_allocated h A a n h1 m x s : inv h A -> grown h A a n h1 ->
  allocated (set_ram m h1) (<[a := Big n]> A) x s <-> allocated h A x s \/ x = a + 12 /\ s = 4096 * n - 12.
Proof.
  intros Hi G. pose proof (grown_fresh h A a n h1 Hi G) as Hna.
  assert (forall i, desc_at (set_ram m h1) i = desc_at h i) as Hda by (intros i; unfold desc_at; cbn; by rewrite (gr_descs _ _ _ _ _ G)).
  unfold allocated. split.
  - intros [(a' & i & d & k & Ha' & Hd & H)|(a' & n' & Ha' & -> & ->)]; apply lookup_insert_Some in Ha' as [[<- E]|[Hne Ha']]; try done.
    + left. left. rewrite Hda in Hd. by exists a', i, d, k.
    + injection E as <-. by right.
    + left. right. by exists a', n'.
  - intros [[(a' & i & d & k & Ha' & Hd & H)|(a' & n' & Ha' & -> & ->)]|[-> ->]].
    + left. exists a', i, d, k. rewrite lookup_insert_ne, Hda by congruence. done.
    + right. exists a', n'. by rewrite lookup_insert_ne by congruence.
    + right. exists a, n. by rewrite lookup_insert_eq.
Qed.

(** ** Dropping an arena *)

(** The pages of no arena can be released. *)
Lemma release_inv h A j n s' : inv h A -> 0 <= j -> set_pages false j n false (phys_mem h) s' ->
  (forall a' k', A !! a' = Some k' -> a' + 4096 * pages k' <= base (kpool h) + 4096 * j \/ base (kpool h) + 4096 * (j + n) <= a') ->
  inv (with_phys s' h) A.
Proof.
  intros Hi Hj Hset Hap. pose proof (set_pages_ok _ _ _ _ _ _ Hset (inv_phys _ _ Hi)) as Hp'. destruct Hset as [(_ & Ec & Eb) Ebase _ Hf]. cbn [pool_of] in *.
  split; [done|apply Hi|apply Hi| | |apply Hi].
  - intros a' k' Ha'. pose proof (Hap _ _ Ha') as Hap'. destruct (inv_used _ _ Hi _ _ Ha') as (j' & -> & Hj' & Hn' & Hle' & Hall). exists j'.
    unfold kpool in *. cbn [phys_mem with_phys]. rewrite Ebase, Ec. split_and!; try done. intros t Ht. rewrite Eb by lia.
    destruct (in_range j n t) eqn:E; [|by apply Hall]. apply Bitmap.in_range_spec in E. lia.
  - intros a' k' Ha'. pose proof (Hap _ _ Ha') as Hap'. destruct (arena_addr _ _ _ _ Hi Ha') as (_ & _ & ? & _).
    pose proof (inv_header _ _ Hi _ _ Ha') as Hh. fold (kpool h) in Hf. destruct k' as [i'|n']; cbn [arena_ok] in *.
    + destruct Hh as (d & Hd & Hh). exists d. split; [done|]. apply (header_frame _ _ _ _ _ _ _ Hf Hh). lia.
    + apply (header_frame _ _ _ _ _ _ _ Hf Hh). lia.
Qed.

(** An arena without blocks in use is forgotten when its blocks leave the free list. *)
Lemma forget_small h A a i d fl : inv h A -> A !! a = Some (Small i) -> desc_at h i = Some d -> NoDup fl ->
  (forall b, b ∈ fl -> b ∈ free_list d /\ pg_round_down b <> a) -> (forall a', a' <> a -> count a' fl = count a' (free_list d)) ->
  inv (put_free i d fl h) (delete a A).
Proof.
  intros Hi Ha Hd Hnd Hsub Hcnt. destruct (inv_descs _ _ Hi _ _ Hd) as (Hok & _ & Hin). split.
  - apply Hi.
  - cbn. rewrite length_insert. apply Hi.
  - intros i' d' Hd'. rewrite desc_at_put in Hd' by done. destruct (Z.eqb_spec i' i) as [->|Hne].
    + injection Hd' as <-. split; [by apply with_free_ok|]. split; [done|]. intros b Hb. destruct (Hsub b Hb) as [Hb' Hne].
      destruct (listed_page h A i d b Hi Hd Hb') as (a' & k & Ha' & Hk & -> & Er). exists a', k. split; [|done]. rewrite lookup_delete_ne; [done|congruence].
    + destruct (inv_descs _ _ Hi _ _ Hd') as (Hok' & Hnd' & Hin'). split; [done|]. split; [done|]. intros b Hb.
      destruct (Hin' b Hb) as (a' & k & Ha' & Hk & ->). exists a', k. split; [|done]. rewrite lookup_delete_ne; [done|congruence].
  - intros a' k' Ha'. apply lookup_delete_Some in Ha' as [_ Ha']. apply (inv_used _ _ Hi _ _ Ha').
  - intros a' k' Ha'. apply lookup_delete_Some in Ha' as [Hne Ha']. pose proof (inv_header _ _ Hi _ _ Ha') as Hh. destruct k' as [i'|n']; [|exact Hh].
    destruct Hh as (d' & Hd' & Hh). cbn [arena_ok]. rewrite desc_at_put by done. destruct (Z.eqb_spec i' i) as [->|]; [|by exists d'].
    assert (d' = d) as -> by congruence. eexists. split; [done|]. cbn [free_list with_free]. by rewrite Hcnt by congruence.
  - intros a1 k1 a2 k2 H1 H2. apply lookup_delete_Some in H1 as [_ H1], H2 as [_ H2]. by apply (inv_apart _ _ Hi).
Qed.
Lemma forget_big h A a n : inv h A -> A !! a = Some (Big n) -> inv h (delete a A).
Proof.
  intros Hi Ha. split; [apply Hi|apply Hi| | | |].
  - intros i d Hd. destruct (inv_descs _ _ Hi _ _ Hd) as (Hok' & Hnd' & Hin'). split; [done|]. split; [done|]. intros b Hb.
    destruct (Hin' b Hb) as (a' & k & Ha' & Hk & ->). exists a', k. split; [|done]. rewrite lookup_delete_ne; [done|congruence].
  - intros a' k' Ha'. apply lookup_delete_Some in Ha' as [_ Ha']. apply (inv_used _ _ Hi _ _ Ha').
  - intros a' k' Ha'. apply lookup_delete_Some in Ha' as [_ Ha']. apply (inv_header _ _ Hi _ _ Ha').
  - intros a1 k1 a2 k2 H1 H2. apply lookup_delete_Some in H1 as [_ H1], H2 as [_ H2]. by apply (inv_apart _ _ Hi).
Qed.

(** Freeing the pages of an arena that has been forgotten. *)
Lemma free_pages_run h A a k h1 : inv h A -> A !! a = Some k -> inv h1 (delete a A) -> phys_mem h1 = phys_mem h ->
  exists s', palloc_free_multiple a (pages k) (phys_mem h1) = Ok (tt, s') /\ inv (with_phys s' h1) (delete a A) /\
    frame (hram h) (ram s') a (4096 * pages k).
Proof.
  intros Hi Ha Hi1 Ep. destruct (inv_used _ _ Hi _ _ Ha) as (j & Ea & Hj & Hn & Hle & Hall).
  destruct (palloc_free_multiple_run (phys_mem h) false j (pages k) (inv_phys _ _ Hi) Hj Hn Hle Hall) as (s' & E & Hset & _).
  cbn [pool_of] in E, Hset. fold (kpool h) in E. rewrite <- Ea in E. rewrite Ep. exists s'. split; [done|]. split.
  - apply (release_inv h1 (delete a A) j (pages k)); [done|done|by rewrite Ep|]. unfold kpool. rewrite Ep. fold (kpool h).
    intros a' k' Ha'. apply lookup_delete_Some in Ha' as [Hne Ha']. destruct (inv_apart _ _ Hi _ _ _ _ Ha Ha' Hne); lia.
  - pose proof (sp_ram _ _ _ _ _ _ Hset) as Hf. cbn [pool_of] in Hf. fold (kpool h) in Hf. by rewrite <- Ea in Hf.
Qed.

(** ** Taking the blocks of an arena off the list *)

Fixpoint without_blocks (a : Z) (d : desc) (n : nat) (k : Z) (fl : list Z) : list Z :=
  match n with
  | O => fl
  | S n => without_blocks a d n (k + 1) (List.filter (fun x => negb (x =? block a d k)) fl)
  end.
Lemma without_in a d n : forall k fl x,
  x ∈ without_blocks a d n k fl <-> x ∈ fl /\ forall t, k <= t < k + Z.of_nat n -> x <> block a d t.
Proof.
  induction n as [|n IH]; intros k fl x; cbn [without_blocks]; [split; [intros Hx; split; [done|lia]|by intros [? _]]|].
  rewrite IH, list_elem_of_In, filter_In, <- list_elem_of_In, negb_true_iff, Z.eqb_neq. split.
  - intros [[Hx Hne] Hall]. split; [done|]. intros t Ht. destruct (decide (t = k)) as [->|]; [done|]. apply Hall. lia.
  - intros [Hx Hall]. split; [split; [done|apply Hall; lia]|]. intros t Ht. apply Hall. lia.
Qed.
Lemma without_nodup a d n : forall k fl, NoDup fl -> NoDup (without_blocks a d n k fl).
Proof.
  induction n as [|n IH]; intros k fl Hfl; cbn [without_blocks]; [done|]. apply IH. apply NoDup_ListNoDup, List.NoDup_filter. by apply NoDup_ListNoDup.
Qed.
Lemma count_filter_other a a' b fl : pg_round_down b = a -> a' <> a -> count a' (List.filter (fun x => negb (x =? b)) fl) = count a' fl.
Proof.
  intros Eb Hne. induction fl as [|x fl IH]; [done|]. cbn [List.filter]. rewrite count_cons. destruct (Z.eqb_spec x b) as [->|]; cbn [negb].
  - rewrite IH, Eb, (proj2 (Z.eqb_neq a a')) by congruence. lia.
  - by rewrite count_cons, IH.
Qed.
Lemma without_count a d n a' : page_addr a -> desc_ok d -> a' <> a -> forall k fl, 0 <= k -> k + Z.of_nat n <= blocks_per_arena d ->
  count a' (without_blocks a d n k fl) = count a' fl.
Proof.
  intros Ha Hd Hne. induction n as [|n IH]; intros k fl Hk Hn; cbn [without_blocks]; [done|]. rewrite IH by lia.
  apply (count_filter_other a); [|done]. apply round_small; [done|done|lia].
Qed.

Lemma without_with_free a d fl n : forall k l, without_blocks a (with_free d fl) n k l = without_blocks a d n k l.
Proof. induction n as [|n IH]; intros k l; [done|]. apply IH. Qed.
Lemma unlink_loop_run a i c n : forall k h d, page_addr a -> header (hram h) a i c -> desc_at h i = Some d -> desc_ok d ->
  (length (descs h) <= 10)%nat -> 0 <= k -> k + Z.of_nat n <= blocks_per_arena d ->
  (forall t, k <= t < k + Z.of_nat n -> block a d t ∈ free_list d) ->
  unlink_loop n a k i h = Ok (tt, put_free i d (without_blocks a d n k (free_list d)) h).
Proof.
  induction n as [|n IH]; intros k h d Ha Hh Hd Hok Hl Hk Hn Hin; cbn [unlink_loop without_blocks].
  { by rewrite put_same. }
  erewrite bind_eq; [|apply (arena_to_block_run h a i c d k); try done; lia]. set (fl := List.filter (fun x => negb (x =? block a d k)) (free_list d)).
  assert (unlink i (block a d k) h = Ok (tt, put_free i d fl h)) as Eu.
  { unfold unlink. erewrite bind_eq; [|by apply get_desc_run]. rewrite bool_decide_true by (apply Hin; lia). by apply set_free_run. }
  erewrite bind_eq; [|exact Eu]. rewrite (IH (k + 1) _ (with_free d fl)); [|done|exact Hh| |by apply with_free_ok|cbn; by rewrite length_insert|lia|cbn; lia|].
  - by rewrite put_put, without_with_free.
  - rewrite desc_at_put by done. by rewrite Z.eqb_refl.
  - intros t Ht. unfold fl. cbn [free_list with_free]. change (block a (with_free d _) t) with (block a d t).
    apply list_elem_of_In, filter_In. split; [apply list_elem_of_In, Hin; lia|]. apply negb_true_iff, Z.eqb_neq. intros E. apply block_inj in E; [lia|done].
Qed.

End MallocFree.
