(* ===== verification/MallocRun.v ===== *)
(** * threads/malloc.c: what the calls do to the blocks in use *)

From S2P Require Import Prelude Bytes CString CStringFacts Bitmap VAddr Ram Palloc Malloc MallocFacts MallocOps.
Import Bytes CString CStringFacts VAddr Ram Palloc Malloc MallocFacts MallocOps MallocFree.

Module MallocRun.
Import Bitmap (bit_cnt, bit, all_are, in_range, updated).

(** ** Blocks in use *)

Lemma allocated_range h A b s : inv h A -> allocated h A b s ->
  exists a k, A !! a = Some k /\ a + 12 <= b /\ 0 < s /\ b + s <= a + 4096 * pages k.
Proof.
  intros Hi [(a & i & d & k & Ha & Hd & Hk & -> & _ & ->)|(a & n & Ha & -> & ->)].
  - exists a, (Small i). destruct (inv_descs _ _ Hi _ _ Hd) as [Hok _]. pose proof (block_inside d k Hok Hk). pose proof (desc_size d Hok).
    unfold block. cbn [pages]. split; [done|]. nia.
  - exists a, (Big n). destruct (arena_addr _ _ _ _ Hi Ha) as (_ & _ & ? & _). cbn [pages] in *. split; [done|]. lia.
Qed.
Lemma allocated_not_free h A b s i d : inv h A -> allocated h A b s -> desc_at h i = Some d -> b ∉ free_list d.
Proof.
  intros Hi Hb Hd Hin. destruct (listed_page h A i d b Hi Hd Hin) as (a & k & Ha & Hk & Eb & Er).
  destruct Hb as [(a' & i' & d' & k' & Ha' & Hd' & Hk' & Eb' & Hn & _)|(a' & n & Ha' & Eb' & _)].
  - rewrite Eb', (block_page h A a' i' d' k') in Er by done. subst a'. assert (i' = i) as -> by congruence. congruence.
  - rewrite Eb', (big_page h A a' n) in Er by done. subst a'. congruence.
Qed.
Lemma allocated_inj h A b s s' : inv h A -> allocated h A b s -> allocated h A b s' -> s = s'.
Proof.
  intros Hi [(a & i & d & k & Ha & Hd & Hk & E & _ & ->)|(a & n & Ha & E & ->)] [(a' & i' & d' & k' & Ha' & Hd' & Hk' & E' & _ & ->)|(a' & n' & Ha' & E' & ->)];
    assert (a' = a) as -> by (first [rewrite <- (block_page h A a i d k), <- E by done|rewrite <- (big_page h A a n), <- E by done];
      symmetry; first [rewrite E'; by apply (block_page h A a' i' d' k')|rewrite E'; by apply (big_page h A a' n')]); try congruence.
Qed.
(** Different blocks do not overlap. *)
Lemma allocated_disjoint h A b s b' s' : inv h A -> allocated h A b s -> allocated h A b' s' -> b <> b' -> b + s <= b' \/ b' + s' <= b.
Proof.
  intros Hi Hb Hb' Hne. destruct (allocated_range _ _ _ _ Hi Hb) as (a & k & Ha & H1 & H2 & H3).
  destruct (allocated_range _ _ _ _ Hi Hb') as (a' & k' & Ha' & H1' & H2' & H3').
  destruct (decide (a = a')) as [<-|Hna]; [|destruct (inv_apart _ _ Hi _ _ _ _ Ha Ha' Hna); lia].
  assert (k' = k) as -> by congruence.
  assert (forall x t, allocated h A x t -> a + 12 <= x -> x + t <= a + 4096 * pages k -> 0 < t ->
    match k with Small i => exists d j, desc_at h i = Some d /\ x = block a d j /\ t = block_size d | Big n => x = a + 12 end) as Hk.
  { intros x t [(a2 & i2 & d2 & k2 & Ha2 & Hd2 & Hk2 & -> & _ & ->)|(a2 & n2 & Ha2 & -> & ->)] ? ? ?.
    - destruct (inv_descs _ _ Hi _ _ Hd2) as [Hok _]. pose proof (block_inside d2 k2 Hok Hk2). pose proof (desc_size d2 Hok).
      destruct (decide (a2 = a)) as [->|Hn2]; [|destruct (inv_apart _ _ Hi _ _ _ _ Ha2 Ha Hn2); unfold block in *; cbn [pages] in *; nia].
      rewrite Ha in Ha2. injection Ha2 as ->. by exists d2, k2.
    - destruct (decide (a2 = a)) as [->|Hn2]; [|destruct (inv_apart _ _ Hi _ _ _ _ Ha2 Ha Hn2); cbn [pages] in *; lia].
      rewrite Ha in Ha2. by injection Ha2 as ->. }
  pose proof (Hk b s Hb H1 H3 H2) as Kb. pose proof (Hk b' s' Hb' H1' H3' H2') as Kb'. destruct k as [i|n]; [|congruence].
  destruct Kb as (d & j & Hd & -> & ->), Kb' as (d' & j' & Hd' & -> & ->). assert (d' = d) as -> by congruence.
  unfold block in *. assert (j <> j') by congruence. destruct (inv_descs _ _ Hi _ _ Hd) as [Hok _]. pose proof (desc_size d Hok). nia.
Qed.
(** Memory that does not reach behind the header of any arena. *)
Lemma kept_frame h A m x n b s y : inv h A -> frame (hram h) m x n ->
  (forall a k, A !! a = Some k -> x + n <= a + 12 \/ a + 4096 * pages k <= x) -> allocated h A b s -> b <= y < b + s -> m !! y = hram h !! y.
Proof.
  intros Hi [Hf _] Hap Hb Hy. destruct (allocated_range _ _ _ _ Hi Hb) as (a & k & Ha & ? & ? & ?). apply Hf. destruct (Hap _ _ Ha); lia.
Qed.

Lemma put_sizes h i d fl : desc_at h i = Some d -> map block_size (descs (put_free i d fl h)) = map block_size (descs h).
Proof.
  unfold desc_at, put_free. destruct (i <=? 0); [done|]. intros E. cbn [descs]. change (map block_size) with (fmap (M := list) block_size).
  rewrite list_fmap_insert. apply list_insert_id. by rewrite list_lookup_fmap, E.
Qed.

(** ** malloc *)

(** The call has added the block [p] of [s] bytes to those in use, and has left the contents of the others alone. *)
Record gives (h : heap) (A : gmap Z kind) (p s : Z) (h' : heap) (A' : gmap Z kind) : Prop := {
  gv_inv : inv h' A';
  gv_sizes : map block_size (descs h') = map block_size (descs h);
  gv_nonnull : p <> 0;
  gv_blocks : forall x t, allocated h' A' x t <-> allocated h A x t \/ x = p /\ t = s;
  gv_new : forall t, ~ allocated h A p t;
  gv_kept : forall b t y, allocated h A b t -> b <= y < b + t -> hram h' !! y = hram h !! y }.

Lemma take_block_gives h A i d b fl : inv h A -> desc_at h i = Some d -> free_list d = b :: fl ->
  exists h', take_block i h = Ok (b, h') /\ gives h A b (block_size d) h' A.
Proof.
  intros Hi Hd Hfl. destruct (take_block_run h A i d b fl Hi Hd Hfl) as (a & m & E & R & Hf). eexists. split; [exact E|].
  destruct (inv_descs _ _ Hi _ _ Hd) as (Hok & Hnd & _). rewrite Hfl in Hnd. apply NoDup_cons in Hnd as [Hnb _].
  assert (b ∈ free_list d) as Hb by (rewrite Hfl; apply list_elem_of_here). split.
  - by apply (relisted_inv h A i d fl a m).
  - cbn [descs set_ram]. by apply put_sizes.
  - destruct (listed_page h A i d b Hi Hd Hb) as (a' & k & Ha' & Hk & -> & _). destruct (arena_addr _ _ _ _ Hi Ha') as (Hpa & _).
    apply page_addr_pos in Hpa. pose proof (desc_size d Hok). unfold block. nia.
  - intros x t. rewrite (relisted_allocated h A i d fl a m) by done. rewrite Hfl, elem_of_cons. split.
    + intros [[Hx|[[->|Hx] ->]] Hn]; [by left|by right|done].
    + intros [Hx|[-> ->]]; [|split; [right; split; [by left|done]|done]]. split; [by left|].
      pose proof (allocated_not_free h A x t i d Hi Hx Hd) as Hn. rewrite Hfl in Hn. by apply not_elem_of_cons in Hn as [_ ?].
  - intros t Hx. by apply (allocated_not_free h A b t i d Hi Hx Hd).
  - intros x t y Hx Hy. apply (kept_frame h A m (a + 8) 4 x t y Hi Hf); [|done|done]. intros a' k' Ha'. pose proof (rl_arena _ _ _ _ _ _ _ R) as Ha.
    destruct (decide (a' = a)) as [->|Hne]; [lia|]. destruct (arena_addr _ _ _ _ Hi Ha') as (_ & _ & ? & _).
    destruct (inv_apart _ _ Hi _ _ _ _ Ha' Ha Hne); cbn [pages] in *; lia.
Qed.

(** A block from a descriptor whose free list is empty. *)
Lemma fresh_block_gives h A i d a h1 : inv h A -> grown h A a 1 h1 -> desc_at h i = Some d -> free_list d = [] ->
  exists p h' A', (do! make_arena a i (blocks_per_arena d);
    do! fill_loop (Z.to_nat (blocks_per_arena d)) a 0 i; take_block i) h1 = Ok (p, h') /\ gives h A p (block_size d) h' A'.
Proof.
  intros Hi G Hd Hfl. destruct (new_arena_run h A i d a h1 Hi G Hd Hfl) as (m & E & Hf & Hh).
  pose proof (new_arena_inv h A i d a h1 m Hi G Hd Hfl Hf Hh) as Hi2. set (h2 := new_arena h1 i d a m) in *.
  destruct (inv_descs _ _ Hi _ _ Hd) as [Hok _]. pose proof (desc_bounds d Hok) as Hbd.
  assert (desc_at h2 i = Some (with_free d (block_list a d))) as Hd2 by (unfold h2; rewrite (new_arena_desc h A) by done; by rewrite Z.eqb_refl).
  destruct (block_list a d) as [|b fl] eqn:Ebl. { pose proof (block_list_length a d Hok) as Hl. rewrite Ebl in Hl. cbn in Hl. lia. }
  destruct (take_block_gives h2 _ i _ b fl Hi2 Hd2 eq_refl) as (h' & E' & Gv).
  assert (forall x t, allocated h2 (<[a := Small i]> A) x t <-> allocated h A x t) as Heq by (intros x t; by apply new_arena_allocated).
  exists b, h', (<[a := Small i]> A). split.
  { apply bind_Ok in E as (u & hm & Em & Ef). erewrite bind_eq; [|exact Em]. erewrite bind_eq; [|exact Ef]. exact E'. }
  destruct Gv as [I1 S1 N1 B1 W1 K1]. split; [done| |done| | |].
  - rewrite S1. unfold h2, new_arena. cbn [descs set_ram]. rewrite put_sizes; unfold desc_at in *; by rewrite (gr_descs _ _ _ _ _ G).
  - intros x t. by rewrite B1, Heq.
  - intros t Ht. apply (W1 t). by apply Heq.
  - intros x t y Hx Hy. rewrite (K1 x t y) by (try apply Heq; done). apply (kept_frame h A m a 12 x t y Hi Hf); [|done|done].
    intros a' k' Ha'. pose proof (gr_apart _ _ _ _ _ G _ _ Ha'). lia.
Qed.

Lemma find_desc_spec size ds : forall i, match find_desc size ds i with
  | Some j => i <= j /\ exists d, ds !! Z.to_nat (j - i) = Some d /\ size <= block_size d
  | None => forall d, d ∈ ds -> block_size d < size
  end.
Proof.
  induction ds as [|d ds IH]; intros i; cbn [find_desc]; [by intros d ?%not_elem_of_nil|].
  destruct (Z.geb_spec (block_size d) size).
  - split; [lia|]. exists d. rewrite Z.sub_diag. split; [done|lia].
  - specialize (IH (i + 1)). destruct (find_desc size ds (i + 1)) as [j|].
    + destruct IH as (Hle & d' & E & Hs). split; [lia|]. exists d'. split; [|done]. replace (Z.to_nat (j - i)) with (S (Z.to_nat (j - (i + 1)))) by lia. done.
    + intros d' [->|Hd]%elem_of_cons; [lia|by apply IH].
Qed.

Definition SIZES : list Z := [16; 32; 64; 128; 256; 512; 1024].
(** The pages the page allocator has to provide, if the free list cannot serve the request. *)
Definition pages_for (size : Z) : Z := if size <=? 1024 then 1 else (size + 12 + 4095) / 4096.

(** A block of [n] pages of its own. *)
Lemma big_block_gives h A n : inv h A -> 0 < n < 2 ^ 32 ->
  exists p h', (let! a := in_phys (palloc_get_multiple 0 n) in
                if a =? 0 then ret 0 else do! make_arena a 0 n; ret (a + HEADER)) h = Ok (p, h') /\
    ((p = 0 /\ h' = h /\ no_room (kpool h) n) \/ exists A', gives h A p (4096 * n - 12) h' A').
Proof.
  intros Hi Hn. destruct (grow_run h A n Hi Hn) as [(a & s' & E & Ha & G)|[Hno E]].
  - erewrite bind_eq; [|by apply in_phys_run]. rewrite (proj2 (Z.eqb_neq a 0) Ha). fold (with_phys s' h).
    destruct (used_addr _ _ _ (gr_phys _ _ _ _ _ G) (gr_new _ _ _ _ _ G)) as (Hpa & _ & _ & Hmap).
    destruct (make_arena_run (with_phys s' h) a 0 n) as (m & Em & Hh & Hf); [intros x Hx; apply Hmap; lia|].
    rewrite (gr_ram _ _ _ _ _ G) in Hf. erewrite bind_eq; [|exact Em]. exists (a + 12), (set_ram m (with_phys s' h)). split; [done|]. right.
    exists (<[a := Big n]> A). split; [by apply (big_arena_inv h A)|done| | | |].
    + apply page_addr_pos in Hpa. lia.
    + intros x t. by apply big_arena_allocated.
    + intros t Ht. destruct (allocated_range _ _ _ _ Hi Ht) as (a' & k' & Ha' & ?). pose proof (gr_apart _ _ _ _ _ G _ _ Ha'). lia.
    + intros x t y Hx Hy. apply (kept_frame h A m a 12 x t y Hi Hf); [|done|done]. intros a' k' Ha'. pose proof (gr_apart _ _ _ _ _ G _ _ Ha'). lia.
  - erewrite bind_eq; [|by apply in_phys_run]. exists 0, h. split; [by destruct h|]. by left.
Qed.

Lemma heap_malloc_run h A size : inv h A -> map block_size (descs h) = SIZES -> 0 < size < 2 ^ 32 - 4107 ->
  exists p h', malloc size h = Ok (p, h') /\
    ((p = 0 /\ h' = h /\ no_room (kpool h) (pages_for size)) \/ exists s A', size <= s /\ gives h A p s h' A').
Proof.
  intros Hi Hsz Hs. unfold malloc. rewrite (proj2 (Z.eqb_neq size 0)) by lia. unfold get. erewrite bind_eq; [|reflexivity].
  pose proof (find_desc_spec size (descs h) 1) as Hfd. destruct (find_desc size (descs h) 1) as [i|].
  - destruct Hfd as (Hi1 & d & Hd' & Hsd). assert (desc_at h i = Some d) as Hd by (unfold desc_at; rewrite (proj2 (Z.leb_gt i 0)) by lia; exact Hd').
    assert (pages_for size = 1) as Ep. { unfold pages_for. destruct (inv_descs _ _ Hi _ _ Hd) as [Hok _]. pose proof (desc_size d Hok). by rewrite (proj2 (Z.leb_le size 1024)) by lia. }
    erewrite bind_eq; [|by apply get_desc_run]. destruct (free_list d) as [|b fl] eqn:Hfl.
    + destruct (grow_run h A 1 Hi) as [(a & s' & E & Ha & G)|[Hno E]]; [lia| |].
      * erewrite bind_eq; [|by apply in_phys_run]. rewrite (proj2 (Z.eqb_neq a 0) Ha). fold (with_phys s' h).
        destruct (fresh_block_gives h A i d a _ Hi G Hd Hfl) as (p & h' & A' & E' & Gv). exists p, h'. split; [exact E'|]. right. exists (block_size d), A'. done.
      * erewrite bind_eq; [|by apply in_phys_run]. exists 0, h. split; [by destruct h|]. left. by rewrite Ep.
    + destruct (take_block_gives h A i d b fl Hi Hd Hfl) as (h' & E & Gv). exists b, h'. split; [exact E|]. right. by exists (block_size d), A.
  - assert (1024 < size) as Hbig. { assert (1024 ∈ map block_size (descs h)) as Hin by (rewrite Hsz; unfold SIZES; in_list). apply list_elem_of_fmap in Hin as (d & -> & Hd). by apply Hfd. }
    assert (pages_for size = (size + 12 + 4095) / 4096) as Ep by (unfold pages_for; by rewrite (proj2 (Z.leb_gt size 1024)) by lia).
    unfold malloc_big, HEADER, PGSIZE. rewrite wrapu_small by lia. replace (size + 12 + 4096 - 1) with (size + 12 + 4095) by lia. rewrite <- Ep.
    assert (0 < pages_for size < 2 ^ 32 /\ size + 12 <= 4096 * pages_for size) as [Hn Hle].
    { rewrite Ep. pose proof (Z.div_mod (size + 12 + 4095) 4096 ltac:(done)). pose proof (Z.mod_pos_bound (size + 12 + 4095) 4096 ltac:(done)). lia. }
    destruct (big_block_gives h A (pages_for size) Hi Hn) as (p & h' & E & [H|(A' & Gv)]); exists p, h'; (split; [exact E|]); [by left|].
    right. exists (4096 * pages_for size - 12), A'. split; [lia|done].
Qed.

(** ** free *)

(** The call has removed the block [p] from those in use, and has left the contents of the others alone. *)
Record frees (h : heap) (A : gmap Z kind) (p : Z) (h' : heap) (A' : gmap Z kind) : Prop := {
  fr_inv : inv h' A';
  fr_sizes : map block_size (descs h') = map block_size (descs h);
  fr_blocks : forall x t, allocated h' A' x t <-> allocated h A x t /\ x <> p;
  fr_kept : forall b t y, allocated h A b t -> b <> p -> b <= y < b + t -> hram h' !! y = hram h !! y }.

(** Putting a block back on the free list of its descriptor. *)
Lemma push_block_run h A a i d k (p := block a d k) :
  inv h A -> A !! a = Some (Small i) -> desc_at h i = Some d -> 0 <= k < blocks_per_arena d -> p ∉ free_list d ->
  exists m, relisted h A i d (p :: free_list d) a m /\
    (forall b t y, allocated h A b t -> b <> p -> b <= y < b + t -> m !! y = hram h !! y) /\
    free p h = (if count a (p :: free_list d) >=? blocks_per_arena d then
                  do! assert (count a (p :: free_list d) =? blocks_per_arena d);
                  do! unlink_loop (Z.to_nat (blocks_per_arena d)) a 0 i; in_phys (palloc_free_page a)
                else ret tt) (set_ram m (put_free i d (p :: free_list d) h)).
Proof.
  intros Hi Ha Hd Hk Hn. destruct (inv_descs _ _ Hi _ _ Hd) as (Hok & Hnd & Hin). destruct (arena_addr _ _ _ _ Hi Ha) as (Hpa & Hlt & _ & Hmap). cbn [pages] in *.
  destruct (small_arena h A a i Hi Ha) as (d' & Hd' & _ & _ & Hh). rewrite Hd in Hd'. injection Hd' as <-.
  pose proof (block_inside d k Hok Hk) as Hin'. pose proof (desc_size d Hok) as Hsz. assert (a + 12 <= p /\ p + block_size d <= a + 4096) as Hpr by (unfold p, block; nia).
  pose proof (page_addr_pos a Hpa) as Hapos. pose proof (block_page h A a i d k Hi Ha Hd Hk) as Er. fold p in Er.
  destruct (memset_run (hram h) p 204 (block_size d)) as (m1 & E1 & _ & F1); [lia|lia|intros x Hx; apply Hmap; lia|].
  assert (header m1 a i (count a (free_list d))) as Hh1 by (apply (header_frame _ _ _ _ _ _ _ F1 Hh); lia).
  set (h1 := put_free i d (p :: free_list d) (set_ram m1 h)).
  pose proof (proj1 (filter_count_bound h A i d a Hi Hd Ha)) as Hcb. pose proof (desc_bounds d Hok) as Hb255. pose proof (count_nonneg a (free_list d)) as Hc0.
  assert (count a (p :: free_list d) = u32 (count a (free_list d) + 1)) as Ec by (rewrite count_cons, Er, Z.eqb_refl, wrapu_small; lia).
  destruct (store_word_run h1 (a + 8) (count a (p :: free_list d))) as (m2 & E2 & W2 & F2); [intros x Hx; apply (frame_mapped _ _ _ _ _ _ F1 Hmap); lia|].
  change (hram h1) with m1 in F2. destruct (index_word h i d Hd (inv_len _ _ Hi)) as [Hw Hne]. exists m2. split; [|split].
  - split; [done|by apply NoDup_cons| | | |done].
    + intros b [->|Hb]%elem_of_cons; [by exists a, k|by apply Hin].
    + intros a' Hne'. rewrite count_cons, Er, (proj2 (Z.eqb_neq a a')) by congruence. done.
    + apply (ram_frame_trans _ m1); [apply (frame_weaken _ _ _ _ _ _ F1)|apply (frame_weaken _ _ _ _ _ _ F2)]; lia.
  - assert (allocated h A p (block_size d)) as Hp by (left; by exists a, i, d, k).
    intros b t y Hb Hbp Hy. rewrite (proj1 F2), (proj1 F1); [done| |].
    + destruct (allocated_disjoint _ _ _ _ _ _ Hi Hb Hp Hbp); lia.
    + destruct (allocated_range _ _ _ _ Hi Hb) as (a' & k' & Ha' & ? & ? & ?). destruct (decide (a' = a)) as [->|Hna]; [lia|].
      destruct (inv_apart _ _ Hi _ _ _ _ Ha' Ha Hna); cbn [pages] in *; lia.
  - unfold free. rewrite (proj2 (Z.eqb_neq p 0)) by lia. unfold p at 1.
    erewrite bind_eq; [|apply (block_to_arena_run h a i _ d k Hpa Hh Hd Hok (inv_len _ _ Hi) Hk)].
    erewrite bind_eq; [|apply load_word_run; [exact Hw|apply Hh]]. rewrite (proj2 (Z.eqb_neq i 0) Hne). cbn [negb].
    erewrite bind_eq; [|by apply get_desc_run]. erewrite bind_eq; [|apply in_mem_run; exact E1].
    erewrite bind_eq; [|apply set_free_run; exact Hd]. fold h1.
    erewrite bind_eq; [|apply (load_word_run h1 (a + 8) (count a (free_list d))); [apply word_count; lia|apply Hh1]]. rewrite <- Ec.
    erewrite bind_eq; [|exact E2]. reflexivity.
Qed.

(** The arena is kept: another block of it is in use. *)
Lemma push_block_frees h A a i d k m (p := block a d k) :
  inv h A -> A !! a = Some (Small i) -> desc_at h i = Some d -> 0 <= k < blocks_per_arena d -> p ∉ free_list d ->
  relisted h A i d (p :: free_list d) a m -> (forall b t y, allocated h A b t -> b <> p -> b <= y < b + t -> m !! y = hram h !! y) ->
  frees h A p (set_ram m (put_free i d (p :: free_list d) h)) A.
Proof.
  intros Hi Ha Hd Hk Hn R Hkept. split; [by apply (relisted_inv h A i d _ a m)|cbn [descs set_ram]; by apply put_sizes| |exact Hkept].
  intros x t. rewrite (relisted_allocated h A i d _ a m) by done. rewrite not_elem_of_cons. split.
  - intros [[Hx|[Hx ->]] [Hne Hnf]]; [by split|done].
  - intros [Hx Hne]. split; [by left|]. split; [done|]. by apply (allocated_not_free h A x t i d).
Qed.

(** ** Giving back an arena *)

Section drop.
Context (h : heap) (A : gmap Z kind) (a i : Z) (d : desc).
Context (Hi : inv h A) (Ha : A !! a = Some (Small i)) (Hd : desc_at h i = Some d).
Context (Hall : forall k, 0 <= k < blocks_per_arena d -> block a d k ∈ free_list d).
Let fl := without_blocks a d (Z.to_nat (blocks_per_arena d)) 0 (free_list d).

Lemma drop_list b : b ∈ fl <-> b ∈ free_list d /\ pg_round_down b <> a.
Proof.
  unfold fl. rewrite without_in. split; intros [Hb Hx]; (split; [done|]).
  - intros E. destruct (listed_page h A i d b Hi Hd Hb) as (a' & k & Ha' & Hk & -> & Er). rewrite E in Er. subst a'. apply (Hx k); [lia|done].
  - intros t Ht ->. apply Hx. apply (block_page h A a i); try done. lia.
Qed.
(** No block in use is in the arena. *)
Lemma drop_apart b t : allocated h A b t -> b + t <= a \/ a + 4096 <= b.
Proof.
  intros [(a2 & i2 & d2 & k2 & Ha2 & Hd2 & Hk2 & -> & Hn2 & ->)|(a2 & n2 & Ha2 & -> & ->)].
  - assert (a2 <> a) as Hne. { intros ->. assert (i2 = i) as -> by congruence. assert (d2 = d) as -> by congruence. by apply Hn2, Hall. }
    destruct (inv_descs _ _ Hi _ _ Hd2) as [Hok _]. pose proof (block_inside d2 k2 Hok Hk2). pose proof (desc_size d2 Hok).
    destruct (inv_apart _ _ Hi _ _ _ _ Ha2 Ha Hne); unfold block in *; cbn [pages] in *; nia.
  - assert (a2 <> a) as Hne by congruence. destruct (inv_apart _ _ Hi _ _ _ _ Ha2 Ha Hne); cbn [pages] in *; lia.
Qed.
Lemma drop_allocated h' x t : descs h' = descs (put_free i d fl h) -> allocated h' (delete a A) x t <-> allocated h A x t.
Proof.
  intros Eds. assert (forall i', desc_at h' i' = if i' =? i then Some (with_free d fl) else desc_at h i') as Hda.
  { intros i'. rewrite <- desc_at_put by done. unfold desc_at. by rewrite Eds. }
  unfold allocated. split.
  - intros [(a' & i' & d' & k' & Ha' & Hd' & Hk' & E & Hn & ->)|(a' & n' & Ha' & -> & ->)]; apply lookup_delete_Some in Ha' as [Hne Ha']; [|by right; exists a', n'].
    left. rewrite Hda in Hd'. destruct (Z.eqb_spec i' i) as [->|]; [|by exists a', i', d', k'].
    injection Hd' as <-. exists a', i, d, k'. refine (conj Ha' (conj Hd (conj Hk' (conj E (conj _ eq_refl))))). intros Hx. apply Hn, drop_list. split; [done|].
    rewrite E. change (block a' (with_free d fl) k') with (block a' d k'). rewrite (block_page h A a' i) by done. congruence.
  - intros [(a' & i' & d' & k' & Ha' & Hd' & Hk' & E & Hn & ->)|(a' & n' & Ha' & -> & ->)].
    + left. destruct (decide (i' = i)) as [->|Hne].
      * assert (d' = d) as -> by congruence. exists a', i, (with_free d fl), k'. rewrite Hda, Z.eqb_refl. rewrite lookup_delete_ne; [|intros <-; subst x; by apply Hn, Hall].
        refine (conj Ha' (conj eq_refl (conj Hk' (conj E (conj _ eq_refl))))). cbn. rewrite drop_list. by intros [? _].
      * exists a', i', d', k'. rewrite Hda, (proj2 (Z.eqb_neq i' i)), lookup_delete_ne by (done || congruence). done.
    + right. exists a', n'. by rewrite lookup_delete_ne by congruence.
Qed.

Lemma drop_arena_run :
  exists h', (do! unlink_loop (Z.to_nat (blocks_per_arena d)) a 0 i; in_phys (palloc_free_page a)) h = Ok (tt, h') /\
    inv h' (delete a A) /\ descs h' = descs (put_free i d fl h) /\ frame (hram h) (hram h') a 4096.
Proof.
  destruct (inv_descs _ _ Hi _ _ Hd) as (Hok & Hnd & Hin). destruct (arena_addr _ _ _ _ Hi Ha) as (Hpa & _). pose proof (desc_bounds d Hok) as Hb255.
  destruct (small_arena h A a i Hi Ha) as (d' & Hd' & _ & _ & Hh). rewrite Hd in Hd'. injection Hd' as <-.
  assert (inv (put_free i d fl h) (delete a A)) as Hi1.
  { apply (forget_small h A a i d fl Hi Ha Hd); [by apply without_nodup|intros b; apply drop_list|]. intros a' Hne. apply without_count; try done; lia. }
  destruct (free_pages_run h A a (Small i) _ Hi Ha Hi1 eq_refl) as (s' & Es & Hi2 & Hf). cbn [pages] in *.
  exists (with_phys s' (put_free i d fl h)). split; [|split; [exact Hi2|split; [done|exact Hf]]].
  erewrite bind_eq; [|apply (unlink_loop_run a i (count a (free_list d)) _ 0 h d Hpa Hh Hd Hok (inv_len _ _ Hi)); [lia|lia|intros t Ht; apply Hall; lia]].
  fold fl. apply in_phys_run. exact Es.
Qed.
End drop.

Lemma free_small h A a i d k (p := block a d k) :
  inv h A -> A !! a = Some (Small i) -> desc_at h i = Some d -> 0 <= k < blocks_per_arena d -> p ∉ free_list d ->
  exists h' A', free p h = Ok (tt, h') /\ frees h A p h' A'.
Proof.
  intros Hi Ha Hd Hk Hn. destruct (push_block_run h A a i d k Hi Ha Hd Hk Hn) as (m & R & Hkept & E). fold p in R, Hkept, E. rewrite E.
  pose proof (push_block_frees h A a i d k m Hi Ha Hd Hk Hn R Hkept) as Fr. fold p in Fr. set (h2 := set_ram m (put_free i d (p :: free_list d) h)) in *.
  assert (desc_at h2 i = Some (with_free d (p :: free_list d))) as Hd2.
  { change (desc_at h2 i) with (desc_at (put_free i d (p :: free_list d) h) i). by rewrite desc_at_put, Z.eqb_refl. }
  destruct (filter_count_bound h2 A i _ a (fr_inv _ _ _ _ _ Fr) Hd2 Ha) as [Hle Hall]. cbn [free_list with_free blocks_per_arena] in Hle, Hall.
  destruct (Z.geb_spec (count a (p :: free_list d)) (blocks_per_arena d)) as [Hge|Hlt]; [|by exists h2, A].
  assert (count a (p :: free_list d) = blocks_per_arena d) as Ec by lia. specialize (Hall Ec). rewrite Ec, Z.eqb_refl. erewrite bind_eq; [|reflexivity].
  destruct (drop_arena_run h2 A a i _ (fr_inv _ _ _ _ _ Fr) Ha Hd2 Hall) as (h' & E' & Hi' & Eds & Hf). exists h', (delete a A). split; [exact E'|].
  destruct Fr as [Hi2 Hs2 Hb2 Hk2]. assert (forall x t, allocated h' (delete a A) x t <-> allocated h2 A x t) as Heq by (intros x t; by eapply drop_allocated).
  split; [done| | |].
  - by rewrite Eds, put_sizes.
  - intros x t. by rewrite Heq.
  - intros b t y Hb Hne Hy. rewrite <- (Hk2 b t y Hb Hne Hy). apply (proj1 Hf).
    assert (allocated h2 A b t) as Hb' by (by apply Hb2). destruct (drop_apart h2 A a i _ Hi2 Ha Hd2 Hall b t Hb'); lia.
Qed.

Lemma free_big h A a n : inv h A -> A !! a = Some (Big n) -> exists h' A', free (a + 12) h = Ok (tt, h') /\ frees h A (a + 12) h' A'.
Proof.
  intros Hi Ha. destruct (arena_addr _ _ _ _ Hi Ha) as (Hpa & Hlt & Hn & _). pose proof (page_addr_pos a Hpa). cbn [pages] in *.
  pose proof (inv_header _ _ Hi _ _ Ha) as Hh. cbn [arena_ok] in Hh. pose proof (forget_big h A a n Hi Ha) as Hi1.
  destruct (free_pages_run h A a (Big n) h Hi Ha Hi1 eq_refl) as (s' & E & Hi2 & Hf). exists (with_phys s' h), (delete a A). split.
  - unfold free. rewrite (proj2 (Z.eqb_neq (a + 12) 0)) by lia. erewrite bind_eq; [|by apply (block_to_arena_big h a n)].
    erewrite bind_eq; [|apply (load_word_run h (a + 4) 0); [done|apply Hh]]. cbn [Z.eqb negb].
    erewrite bind_eq; [|apply (load_word_run h (a + 8) n); [unfold is_word; lia|apply Hh]]. by apply in_phys_run.
  - split; [done|done| |].
    + intros x t. unfold allocated. split.
      * intros [(a' & i & d & k & Ha' & Hd & Hk & E' & H')|(a' & n' & Ha' & -> & ->)]; apply lookup_delete_Some in Ha' as [Hne Ha'].
        -- split; [left; by exists a', i, d, k|]. intros ->. apply Hne. rewrite <- (big_page h A a n Hi Ha), E'. by apply (block_page h A a' i d k).
        -- split; [right; by exists a', n'|]. lia.
      * intros [[(a' & i & d & k & Ha' & H')|(a' & n' & Ha' & -> & ->)] Hne].
        -- left. exists a', i, d, k. rewrite lookup_delete_ne by congruence. done.
        -- right. exists a', n'. rewrite lookup_delete_ne by (intros ->; lia). done.
    + intros b t y Hb Hne Hy. apply (proj1 Hf). cbn [pages]. assert (allocated h A (a + 12) (4096 * n - 12)) as Hp by (right; by exists a, n).
      destruct (allocated_range _ _ _ _ Hi Hb) as (a' & k' & Ha' & ? & ? & ?).
      destruct (allocated_disjoint _ _ _ _ _ _ Hi Hb Hp Hne); [|lia]. destruct (decide (a' = a)) as [->|Hna]; [lia|].
      destruct (inv_apart _ _ Hi _ _ _ _ Ha' Ha Hna); cbn [pages] in *; lia.
Qed.
Lemma free_run h A p s : inv h A -> allocated h A p s -> exists h' A', free p h = Ok (tt, h') /\ frees h A p h' A'.
Proof.
  intros Hi [(a & i & d & k & Ha & Hd & Hk & -> & Hn & _)|(a & n & Ha & -> & _)]; [by apply (free_small h A a i d k)|by apply (free_big h A a n)].
Qed.

End MallocRun.
