(* ===== verification/MallocProps.v ===== *)
(** * threads/malloc.c: the promise to the rest of the kernel

    The heap is described by the map of the blocks in use, from their addresses to their
    sizes. *)

From S2P Require Import Prelude Bytes CString CStringFacts Bitmap VAddr Ram Palloc Malloc MallocFacts MallocOps MallocRun.
Import Bytes CString CStringFacts VAddr Ram Palloc Malloc MallocFacts MallocOps MallocFree MallocRun.

Module MallocProps.

Definition heap_ok (h : heap) (L : gmap Z Z) : Prop :=
  exists A, inv h A /\ map block_size (descs h) = SIZES /\ forall b s, L !! b = Some s <-> allocated h A b s.
(** The contents of the blocks of [L] have not changed. *)
Definition kept (h h' : heap) (L : gmap Z Z) : Prop :=
  forall b s x, L !! b = Some s -> b <= x < b + s -> hram h' !! x = hram h !! x.
(** The block [p] of [s] bytes overlaps none of [L]. *)
Definition apart (p s : Z) (L : gmap Z Z) : Prop := forall b t, L !! b = Some t -> b <> p -> p + s <= b \/ b + t <= p.
(** The largest request for which the number of pages does not overflow. *)
Definition MAX_REQUEST : Z := 2 ^ 32 - 4108.

Lemma heap_apart h L p s : heap_ok h L -> L !! p = Some s -> apart p s L.
Proof.
  intros (A & Hi & _ & HL) Hp b t Hb Hne. apply HL in Hp, Hb. destruct (allocated_disjoint h A p s b t Hi Hp Hb); [congruence|lia..].
Qed.
Lemma heap_block h L p s : heap_ok h L -> L !! p = Some s -> PHYS_BASE <= p /\ 0 < s /\ p + s < 2 ^ 32 /\ mapped (hram h) p s.
Proof.
  intros (A & Hi & _ & HL) Hp. apply HL in Hp. destruct (allocated_range _ _ _ _ Hi Hp) as (a & k & Ha & ? & ? & ?).
  destruct (arena_addr _ _ _ _ Hi Ha) as ((? & _) & ? & ? & Hm). split_and!; [lia..|]. intros x Hx. apply Hm. lia.
Qed.

Lemma malloc_init_ok s : phys_ok s -> exists h, malloc_init s = Ok h /\ heap_ok h ∅.
Proof.
  intros Hs. eexists. split; [reflexivity|]. exists ∅. split; [|split; [reflexivity|]].
  - split; [exact Hs|cbn; lia| |intros a k Ha; by rewrite lookup_empty in Ha|intros a k Ha; by rewrite lookup_empty in Ha|intros a k a' k' Ha; by rewrite lookup_empty in Ha].
    intros i d Hd. assert (d ∈ descs {| phys_mem := s; descs := map (fun z => {| block_size := z; blocks_per_arena := 4084 / z; free_list := [] |}) SIZES |}) as Hin.
    { unfold desc_at in Hd. destruct (i <=? 0); [done|]. by apply list_elem_of_lookup_2 in Hd. }
    cbn [descs] in Hin. apply list_elem_of_fmap in Hin as (z & -> & Hz).
    split; [split; [|done]|split; [constructor|by intros b ?%not_elem_of_nil]]. cbn [block_size].
    unfold SIZES in Hz. repeat (apply elem_of_cons in Hz as [->|Hz]; [lia|]). by apply not_elem_of_nil in Hz.
  - intros b t. rewrite lookup_empty. split; [done|]. intros [(a & i & d & k & Ha & _)|(a & n & Ha & _)]; by rewrite lookup_empty in Ha.
Qed.

Lemma gives_ok h A L p s h' A' : map block_size (descs h) = SIZES -> (forall b s, L !! b = Some s <-> allocated h A b s) -> gives h A p s h' A' ->
  p <> 0 /\ L !! p = None /\ heap_ok h' (<[p := s]> L) /\ kept h h' L.
Proof.
  intros Hsz HL [I1 S1 N1 B1 W1 K1]. split_and!; try done.
  - destruct (L !! p) as [t|] eqn:Ep; [|done]. apply HL in Ep. by apply W1 in Ep.
  - exists A'. split; [done|]. split; [congruence|]. intros b t. rewrite B1, <- HL. destruct (decide (b = p)) as [->|Hbp].
    + rewrite lookup_insert_eq. split; [intros [= <-]; by right|]. intros [Hp|[_ ->]]; [|done]. apply HL in Hp. by apply W1 in Hp.
    + rewrite lookup_insert_ne by done. split; [by left|]. by intros [?|[? _]].
  - intros b t x Hb Hx. apply HL in Hb. by apply (K1 b t).
Qed.
Lemma malloc_ok h L size : heap_ok h L -> 0 <= size <= MAX_REQUEST ->
  exists p h', malloc size h = Ok (p, h') /\
    ((p = 0 /\ h' = h /\ (size = 0 \/ no_room (kpool h) (pages_for size))) \/
     exists s, p <> 0 /\ size <= s /\ L !! p = None /\ heap_ok h' (<[p := s]> L) /\ kept h h' L).
Proof.
  intros (A & Hi & Hsz & HL) Hs. destruct (decide (size = 0)) as [->|Hne]; [exists 0, h; split; [done|]; left; auto|].
  destruct (heap_malloc_run h A size Hi Hsz) as (p & h' & E & [(-> & -> & Hno)|(s & A' & Hle & Gv)]); [unfold MAX_REQUEST in Hs; lia| |].
  - exists 0, h. split; [exact E|]. left. auto.
  - exists p, h'. split; [exact E|]. right. exists s. destruct (gives_ok h A L p s h' A' Hsz HL Gv) as (? & ? & ? & ?). done.
Qed.
Lemma free_ok h L p s : heap_ok h L -> L !! p = Some s -> exists h', free p h = Ok (tt, h') /\ heap_ok h' (delete p L) /\ kept h h' (delete p L).
Proof.
  intros (A & Hi & Hsz & HL) Hp. apply HL in Hp. destruct (free_run h A p s Hi Hp) as (h' & A' & E & [I1 S1 B1 K1]). exists h'. split; [exact E|]. split.
  - exists A'. split; [done|]. split; [congruence|]. intros b t. rewrite B1, <- HL. rewrite lookup_delete_Some. naive_solver.
  - intros b t x Hb Hx. apply lookup_delete_Some in Hb as [Hne Hb]. apply HL in Hb. apply (K1 b t); [done|congruence|done].
Qed.

(** A client may write into its block. *)
Lemma write_ok h L p s m : heap_ok h L -> L !! p = Some s -> frame (hram h) m p s -> heap_ok (set_ram m h) L.
Proof.
  intros (A & Hi & Hsz & HL) Hp Hf. apply HL in Hp. destruct (allocated_range _ _ _ _ Hi Hp) as (a & k & Ha & ? & ? & ?).
  exists A. split; [|done]. split; [apply (phys_frame _ _ _ _ (inv_phys _ _ Hi) Hf)|apply Hi|apply Hi|apply Hi| |apply Hi].
  intros a' k' Ha'. assert (a' + 12 <= p \/ p + s <= a') as Hap.
  { destruct (decide (a' = a)) as [->|Hne]; [lia|]. destruct (arena_addr _ _ _ _ Hi Ha') as (_ & _ & ? & _). destruct (inv_apart _ _ Hi _ _ _ _ Ha' Ha Hne); lia. }
  pose proof (inv_header _ _ Hi _ _ Ha') as Hh. destruct k' as [i'|n']; cbn [arena_ok] in *.
  - destruct Hh as (d & Hd & Hh). exists d. split; [done|]. by apply (header_frame _ _ _ _ _ _ _ Hf Hh).
  - by apply (header_frame _ _ _ _ _ _ _ Hf Hh).
Qed.
Lemma kept_frame_block h L p s m : heap_ok h L -> L !! p = Some s -> frame (hram h) m p s -> kept h (set_ram m h) (delete p L).
Proof.
  intros Hok Hp [Hf _] b t x Hb Hx. apply lookup_delete_Some in Hb as [Hne Hb]. apply Hf. destruct (heap_apart h L p s Hok Hp b t Hb); [congruence|lia..].
Qed.

Lemma size_of_block_ok h L p s : heap_ok h L -> L !! p = Some s -> size_of_block p h = Ok (s, h).
Proof.
  intros (A & Hi & Hsz & HL) Hp. apply HL in Hp. unfold size_of_block. destruct Hp as [(a & i & d & k & Ha & Hd & Hk & -> & Hn & ->)|(a & n & Ha & -> & ->)].
  - destruct (arena_addr _ _ _ _ Hi Ha) as (Hpa & _). destruct (small_arena h A a i Hi Ha) as (d' & Hd' & Hok & _ & Hh). rewrite Hd in Hd'. injection Hd' as <-.
    destruct (index_word h i d Hd (inv_len _ _ Hi)) as [Hw Hne]. erewrite bind_eq; [|apply (block_to_arena_run h a i _ d k Hpa Hh Hd Hok (inv_len _ _ Hi) Hk)].
    erewrite bind_eq; [|apply load_word_run; [exact Hw|apply Hh]]. rewrite (proj2 (Z.eqb_neq i 0) Hne). cbn [negb]. by erewrite bind_eq; [|by apply get_desc_run].
  - destruct (arena_addr _ _ _ _ Hi Ha) as (Hpa & Hlt & Hn & _). cbn [pages] in *. pose proof (inv_header _ _ Hi _ _ Ha) as Hh. cbn [arena_ok] in Hh.
    pose proof (page_addr_pos a Hpa). erewrite bind_eq; [|by apply (block_to_arena_big h a n)].
    erewrite bind_eq; [|apply (load_word_run h (a + 4) 0); [done|apply Hh]]. cbn [Z.eqb negb].
    erewrite bind_eq; [|apply (load_word_run h (a + 8) n); [unfold is_word; lia|apply Hh]]. unfold ret, PGSIZE. do 2 f_equal.
    rewrite pg_ofs_in; [|apply Hpa|lia]. apply wrapu_small. lia.
Qed.

(** [realloc] and [calloc] *)
Lemma realloc_ok h L p s size : heap_ok h L -> L !! p = Some s -> 0 < size <= MAX_REQUEST ->
  exists p' h', realloc p size h = Ok (p', h') /\
    ((p' = 0 /\ h' = h) \/
     exists s', p' <> 0 /\ size <= s' /\ heap_ok h' (<[p' := s']> (delete p L)) /\ kept h h' (delete p L) /\
       forall x, 0 <= x < Z.min size s -> hram h' !! (p' + x) = hram h !! (p + x)).
Proof.
  intros Hok Hp Hsize. destruct (heap_block _ _ _ _ Hok Hp) as (Hp0 & _). unfold PHYS_BASE in Hp0. unfold realloc. rewrite (proj2 (Z.eqb_neq size 0)) by lia.
  destruct (malloc_ok h L size Hok) as (q & h1 & E & H); [lia|]. erewrite bind_eq; [|exact E]. rewrite (proj2 (Z.eqb_neq p 0)) by lia. cbn [negb andb].
  destruct H as [(-> & -> & _)|(s' & Hq & Hle & Hnone & Hok1 & Hk1)]; [exists 0, h; split; [done|by left]|].
  rewrite (proj2 (Z.eqb_neq q 0) Hq). cbn [negb]. assert (q <> p) as Hqp by congruence. assert (<[q := s']> L !! p = Some s) as Hp1 by (by rewrite lookup_insert_ne).
  pose proof (lookup_insert_eq L q s') as Hq1. destruct (heap_block _ _ _ _ Hok1 Hp1) as (_ & Hs0 & _ & Hm).
  destruct (heap_block _ _ _ _ Hok1 Hq1) as (_ & _ & _ & Hmq). pose proof (heap_apart _ _ q s' Hok1 Hq1 p s Hp1 ltac:(congruence)) as Hdis.
  destruct (memcpy_run (hram h1) q p (Z.min size s)) as (m & Em & Cm); [lia|lia|lia|apply (mapped_le _ _ s'); [done|lia]|apply (mapped_le _ _ s); [done|lia]|lia|].
  assert (frame (hram h1) m q s') as Fm.
  { apply (frame_weaken _ _ q (Z.min size s)); [|lia|lia]. apply (copied_frame _ _ _ p); [done|]. apply (mapped_le _ _ s); [done|lia]. }
  pose proof (write_ok h1 _ q s' m Hok1 Hq1 Fm) as Hok2. destruct (free_ok (set_ram m h1) _ p s Hok2 Hp1) as (h' & E' & Hok' & Hk').
  rewrite delete_insert_ne in Hok', Hk' by done. exists q, h'. split.
  - erewrite bind_eq; [reflexivity|]. erewrite bind_eq; [|exact (size_of_block_ok h1 _ p s Hok1 Hp1)].
    erewrite bind_eq; [exact E'|]. apply in_mem_run. replace (if size <? s then size else s) with (Z.min size s) by (destruct (Z.ltb_spec size s); lia). exact Em.
  - right. exists s'. split_and!; try done.
    + intros b t x Hb Hx. assert (b <> q) as Hbq by (apply lookup_delete_Some in Hb as [_ Hb]; congruence).
      rewrite (Hk' b t x) by (done || by rewrite lookup_insert_ne).
      rewrite (kept_frame_block h1 _ q s' m Hok1 Hq1 Fm b t x); [|rewrite delete_insert_id by done; by apply lookup_delete_Some in Hb as [_ Hb]|done].
      apply (Hk1 b t); [by apply lookup_delete_Some in Hb as [_ Hb]|done].
    + intros x Hx. rewrite (Hk' q s' (q + x)) by (first [by rewrite lookup_insert_eq|lia]). cbn. change (hram (set_ram m h1)) with m. rewrite Cm.
      rewrite (proj2 (Z.leb_le q (q + x))), (proj2 (Z.ltb_lt (q + x) (q + Z.min size s))) by lia. cbn [andb].
      replace (q + x - q + p) with (p + x) by lia. apply (Hk1 p s); [done|lia].
Qed.

Lemma calloc_ok h L a b : heap_ok h L -> 0 <= a -> 0 <= b -> 0 < a * b <= MAX_REQUEST ->
  exists q h', calloc a b h = Ok (q, h') /\
    ((q = 0 /\ h' = h) \/
     exists t, q <> 0 /\ a * b <= t /\ heap_ok h' (<[q := t]> L) /\ kept h h' L /\ bytes_at (hram h') q (replicate (Z.to_nat (a * b)) 0)).
Proof.
  intros Hok Ha Hb Hab. unfold MAX_REQUEST in *. unfold calloc. rewrite (wrapu_small 32 (a * b)) by lia.
  assert (1 <= a /\ 1 <= b) as [Ha1 Hb1] by nia. assert (a <= a * b /\ b <= a * b) as [Hla Hlb] by nia.
  rewrite (proj2 (Z.ltb_ge (a * b) a)), (proj2 (Z.ltb_ge (a * b) b)) by lia. cbn [orb].
  destruct (malloc_ok h L (a * b) Hok) as (q & h1 & E & H); [unfold MAX_REQUEST; lia|]. erewrite bind_eq; [|exact E].
  destruct H as [(-> & -> & _)|(t & Hq & Hle & Hnone & Hok1 & Hk1)]; [exists 0, h; split; [done|by left]|].
  rewrite (proj2 (Z.eqb_neq q 0) Hq). cbn [negb]. pose proof (lookup_insert_eq L q t) as Hq1. destruct (heap_block _ _ _ _ Hok1 Hq1) as (_ & _ & _ & Hmq).
  destruct (memset_run (hram h1) q 0 (a * b)) as (m & Em & Bm & Fm); [lia|done|by apply (mapped_le _ _ t)|].
  apply (frame_weaken _ _ _ _ q t) in Fm; [|lia|lia]. exists q, (set_ram m h1). split.
  - erewrite bind_eq; [reflexivity|]. erewrite bind_eq; [reflexivity|]. by apply in_mem_run.
  - right. exists t. split_and!; try done.
    + by apply (write_ok h1 _ q t).
    + intros c u x Hc Hx. rewrite (kept_frame_block h1 _ q t m Hok1 Hq1 Fm c u x); [by apply (Hk1 c u)|by rewrite delete_insert_id|done].
Qed.

(** ** Main properties *)

(** C7: when the blocks [L] are in use, [malloc] of any size up to [MAX_REQUEST] returns without
    fault: either a null pointer, and then nothing has changed and the size is zero or the
    kernel pool has no room for the pages needed, or a new block that is at least as large as
    requested, overlaps no block in use, and is now in use itself.  [free] of a block in use
    never fails an assertion and removes it.  Neither call changes the contents of the other
    blocks in use, and the heap stays well formed. *)
Theorem malloc_free_correct h L size p0 s0 : heap_ok h L -> 0 <= size <= MAX_REQUEST -> L !! p0 = Some s0 ->
  (exists p h', malloc size h = Ok (p, h') /\
    ((p = 0 /\ h' = h /\ (size = 0 \/ no_room (kpool h) (pages_for size))) \/
     exists s, p <> 0 /\ size <= s /\ L !! p = None /\ apart p s L /\ heap_ok h' (<[p := s]> L) /\ kept h h' L)) /\
  (exists h', free p0 h = Ok (tt, h') /\ heap_ok h' (delete p0 L) /\ kept h h' (delete p0 L)).
Proof.
  intros Hok Hs Hp0. split; [|by apply (free_ok h L p0 s0)]. destruct (malloc_ok h L size Hok Hs) as (p & h' & E & H). exists p, h'. split; [exact E|].
  destruct H as [H|(s & H1 & H2 & H3 & H4 & H5)]; [by left|]. right. exists s. split_and!; try done.
  intros b t Hb Hne. apply (heap_apart h' _ p s H4); [apply lookup_insert_eq|by rewrite lookup_insert_ne|done].
Qed.

(** [realloc] of a block in use either fails with a null pointer and changes nothing, or
    returns a block of at least the new size that begins with the bytes of the old one, as
    many as fit in both, and the old block is not in use any more; the contents of all other
    blocks stay.  [calloc] gives a block in use whose bytes are all zero. *)
Theorem realloc_calloc_correct h L p s size a b : heap_ok h L -> L !! p = Some s -> 0 < size <= MAX_REQUEST ->
  0 <= a -> 0 <= b -> 0 < a * b <= MAX_REQUEST ->
  (exists p' h', realloc p size h = Ok (p', h') /\
    ((p' = 0 /\ h' = h) \/
     exists s', p' <> 0 /\ size <= s' /\ heap_ok h' (<[p' := s']> (delete p L)) /\ kept h h' (delete p L) /\
       forall x, 0 <= x < Z.min size s -> hram h' !! (p' + x) = hram h !! (p + x))) /\
  (exists q h', calloc a b h = Ok (q, h') /\
    ((q = 0 /\ h' = h) \/
     exists t, q <> 0 /\ a * b <= t /\ heap_ok h' (<[q := t]> L) /\ kept h h' L /\ bytes_at (hram h') q (replicate (Z.to_nat (a * b)) 0))).
Proof. intros Hok Hp Hsize Ha Hb Hab. split; [by apply realloc_ok|by apply calloc_ok]. Qed.

(** the size of a big block is rounded up without a check for overflow: a request for more
    than 2^32 - 12 bytes is served, when the kernel pool has a page left, with a block of
    4084 bytes. *)
Theorem malloc_overflow h L size : heap_ok h L -> 2 ^ 32 - 12 < size < 2 ^ 32 ->
  exists p h', malloc size h = Ok (p, h') /\
    ((p = 0 /\ no_room (kpool h) 1) \/ (p <> 0 /\ heap_ok h' (<[p := 4084]> L) /\ 4084 < size)).
Proof.
  intros (A & Hi & Hsz & HL) Hs. unfold malloc. rewrite (proj2 (Z.eqb_neq size 0)) by lia. unfold get. erewrite bind_eq; [|reflexivity].
  pose proof (find_desc_spec size (descs h) 1) as Hfd. destruct (find_desc size (descs h) 1) as [i|].
  { destruct Hfd as (_ & d & Hd & Hle). assert (block_size d ∈ map block_size (descs h)) as Hin by (apply list_elem_of_fmap; exists d; split; [done|by apply list_elem_of_lookup_2 in Hd]).
    rewrite Hsz in Hin. unfold SIZES in Hin. repeat (apply elem_of_cons in Hin as [E|Hin]; [lia|]). by apply not_elem_of_nil in Hin. }
  unfold malloc_big. assert (u32 (size + HEADER + PGSIZE - 1) / PGSIZE = 1) as ->.
  { unfold HEADER, PGSIZE, wrapu. replace (size + 12 + 4096 - 1) with (size - (2 ^ 32 - 12) + 4095 + 1 * 2 ^ 32) by lia.
    rewrite Z.mod_add, Z.mod_small by lia. symmetry. apply (Z.div_unique _ 4096 1 (size - (2 ^ 32 - 12) - 1)); lia. }
  destruct (big_block_gives h A 1 Hi) as (p & h' & E & [(-> & _ & Hno)|(A' & Gv)]); [lia| |]; eexists _, _; (split; [exact E|]).
  - by left.
  - right. destruct (gives_ok h A L p _ h' A' Hsz HL Gv) as (? & _ & ? & _). split_and!; [done|done|lia].
Qed.

(** ** A heap with one block in use *)

Lemma sample_heap : exists h p s, heap_ok h {[p := s]} /\ 100 <= s.
Proof.
  destruct (palloc_init_run 264 100 sample_ram [5] [6]) as (ph & E & Hs & Hall & _ & Ec & _); [lia|lia| | |apply ram_of_mapped|].
  1, 2: split_and!; [vm_compute; discriminate|reflexivity|repeat constructor; vm_compute; done].
  destruct (malloc_init_ok ph Hs) as (h & Eh & Hok). destruct (malloc_ok h ∅ 100 Hok) as (p & h' & _ & [(_ & _ & Hno)|(s & _ & Hle & _ & Hok' & _)]); [by vm_compute| |].
  - exfalso. destruct Hno as [?|Hno]; [done|]. change (pages_for 100) with 1 in Hno. apply (Hno 0); [lia| |].
    + injection Eh as <-. unfold kpool. cbn [phys_mem]. rewrite Ec. by vm_compute.
    + injection Eh as <-. intros j Hj. apply (Hall false). cbn [pool_of]. rewrite Ec. change (kernel_share 264 100 - map_pages (kernel_share 264 100)) with 3. lia.
  - exists h', p, s. done.
Qed.
Lemma malloc_free_correct_witness : exists h p s h', heap_ok h {[p := s]} /\ free p h = Ok (tt, h') /\ heap_ok h' ∅.
Proof.
  destruct sample_heap as (h & p & s & Hok & _). destruct (malloc_free_correct h {[p := s]} 5000 p s Hok) as [_ (h' & E & Hok' & _)]; [by vm_compute|apply lookup_singleton_eq|].
  exists h, p, s, h'. split; [exact Hok|]. split; [exact E|]. rewrite delete_singleton_eq in Hok'. exact Hok'.
Defined.
Lemma realloc_calloc_correct_witness : exists h p s p' h', heap_ok h {[p := s]} /\ realloc p 40 h = Ok (p', h') /\ (p' = 0 \/ forall x, 0 <= x < 40 -> hram h' !! (p' + x) = hram h !! (p + x)).
Proof.
  destruct sample_heap as (h & p & s & Hok & Hle).
  destruct (realloc_calloc_correct h {[p := s]} p s 40 2 3 Hok) as [(p' & h' & E & H) _]; [apply lookup_singleton_eq|by vm_compute|lia|lia|by vm_compute|].
  exists h, p, s, p', h'. split; [exact Hok|]. split; [exact E|]. destruct H as [[-> _]|(s' & _ & _ & _ & _ & H)]; [left; reflexivity|right].
  intros x Hx. apply H. lia.
Defined.
Lemma malloc_overflow_witness : exists h p s q h', heap_ok h {[p := s]} /\ malloc (2 ^ 32 - 5) h = Ok (q, h').
Proof.
  destruct sample_heap as (h & p & s & Hok & _). destruct (malloc_overflow h {[p := s]} (2 ^ 32 - 5) Hok) as (q & h' & E & _); [lia|].
  exists h, p, s, q, h'. split; [exact Hok|exact E].
Defined.

End MallocProps.
