(* ===== verification/PageDir.v ===== *)
(** * userprog/pagedir.c: page directories

    The state is the physical memory with its page allocator, the page directory the kernel
    starts with, and the register [cr3].  The number of pages of memory, [init_ram_pages], is
    a parameter; it does not change after the start. *)

From S2P Require Import Prelude Bytes CString CStringFacts Bitmap VAddr Ram Palloc.
Import Bytes CString CStringFacts VAddr Ram Palloc.

Module PageDir.

Record vm := { vphys : phys; init_page_dir : Z; cr3 : Z }.

Definition on_phys {A} (c : M phys A) : M vm A := fun s =>
  match c (vphys s) with
  | Ok (a, p) => Ok (a, {| vphys := p; init_page_dir := init_page_dir s; cr3 := cr3 s |})
  | Err f => Err f
  end.
Definition load_entry (a : Z) : M vm Z := on_phys (in_ram (load32 a)).
Definition store_entry (a v : Z) : M vm unit := on_phys (in_ram (store32 a v)).

(** ** Activation *)

Definition set_cr3 (v : Z) : M vm unit := modify (fun s => {| vphys := vphys s; init_page_dir := init_page_dir s; cr3 := v |}).
Definition pagedir_activate (pd : Z) : M vm unit :=
  let! init := gets init_page_dir in
  let! p := lift (vtop (if pd =? 0 then init else pd)) in
  set_cr3 p.
Definition active_pd : M vm Z := let! c := gets cr3 in lift (ptov c).
Definition invalidate_pagedir (pd : Z) : M vm unit :=
  let! a := active_pd in
  if a =? pd then pagedir_activate pd else ret tt.

(** ** Creation and destruction *)

Definition pagedir_create : M vm Z :=
  let! pd := on_phys (palloc_get_page 0) in
  if negb (pd =? 0) then
    let! init := gets init_page_dir in
    let! _ := on_phys (in_ram (memcpy pd init PGSIZE)) in
    ret pd
  else ret pd.

(** The entries of a page table from [pte] on, [n] of them. *)
Fixpoint destroy_table (n : nat) (pte : Z) : M vm unit :=
  match n with
  | O => ret tt
  | S n =>
      let! v := load_entry pte in
      do! (if negb (Z.land v PTE_P =? 0) then
             let! page := lift (pte_get_page v) in on_phys (palloc_free_page page)
           else ret tt);
      destroy_table n (pte + 4)
  end.
Fixpoint destroy_dir (n : nat) (pde : Z) : M vm unit :=
  match n with
  | O => ret tt
  | S n =>
      let! v := load_entry pde in
      do! (if negb (Z.land v PTE_P =? 0) then
             let! pt := lift (pde_get_pt v) in
             do! destroy_table (Z.to_nat (PGSIZE / 4)) pt;
             on_phys (palloc_free_page pt)
           else ret tt);
      destroy_dir n (pde + 4)
  end.
Definition pagedir_destroy (pd : Z) : M vm unit :=
  if pd =? 0 then ret tt
  else
    let! init := gets init_page_dir in
    do! assert (negb (pd =? init));
    do! destroy_dir (Z.to_nat (pd_no PHYS_BASE)) pd;
    on_phys (palloc_free_page pd).

(** ** Entries *)

Definition entry_address (pde va : Z) : M vm Z :=
  let! pt := lift (pde_get_pt pde) in ret (pt + 4 * pt_no va).
Definition lookup_page (pd va : Z) (create : bool) : M vm Z :=
  do! assert (negb (pd =? 0));
  do! assert (negb create || is_user_vaddr va);
  let pde := pd + 4 * pd_no va in
  let! v := load_entry pde in
  if v =? 0 then
    if create then
      let! pt := on_phys (palloc_get_page PAL_ZERO) in
      if pt =? 0 then ret 0
      else
        let! v := lift (pde_create pt) in
        do! store_entry pde v;
        entry_address v va
    else ret 0
  else entry_address v va.

Section memory_size.
Context (init_ram_pages : Z).

Definition pagedir_set_page (pd upage kpage : Z) (writable : bool) : M vm bool :=
  do! assert (pg_ofs upage =? 0);
  do! assert (pg_ofs kpage =? 0);
  do! assert (is_user_vaddr upage);
  let! p := lift (vtop kpage) in
  do! assert (Z.shiftr p PTSHIFT <? init_ram_pages);
  let! init := gets init_page_dir in
  do! assert (negb (pd =? init));
  let! pte := lookup_page pd upage true in
  if negb (pte =? 0) then
    let! v := load_entry pte in
    do! assert (Z.land v PTE_P =? 0);
    let! v := lift (pte_create_user kpage writable) in
    do! store_entry pte v;
    ret true
  else ret false.
End memory_size.

Definition pagedir_get_page (pd uaddr : Z) : M vm Z :=
  do! assert (is_user_vaddr uaddr);
  let! pte := lookup_page pd uaddr false in
  if negb (pte =? 0) then
    let! v := load_entry pte in
    if negb (Z.land v PTE_P =? 0) then let! page := lift (pte_get_page v) in ret (u32 (page + pg_ofs uaddr))
    else ret 0
  else ret 0.

Definition pagedir_clear_page (pd upage : Z) : M vm unit :=
  do! assert (pg_ofs upage =? 0);
  do! assert (is_user_vaddr upage);
  let! pte := lookup_page pd upage false in
  if negb (pte =? 0) then
    let! v := load_entry pte in
    if negb (Z.land v PTE_P =? 0) then
      do! store_entry pte (Z.land v (u32 (Z.lnot PTE_P)));
      invalidate_pagedir pd
    else ret tt
  else ret tt.

(** Whether a flag of the entry is set, and setting or clearing it. *)
Definition test_flag (flag pd vpage : Z) : M vm bool :=
  let! pte := lookup_page pd vpage false in
  if negb (pte =? 0) then let! v := load_entry pte in ret (negb (Z.land v flag =? 0))
  else ret false.
Definition change_flag (flag pd vpage : Z) (on : bool) : M vm unit :=
  let! pte := lookup_page pd vpage false in
  if negb (pte =? 0) then
    let! v := load_entry pte in
    if on then store_entry pte (Z.lor v flag)
    else do! store_entry pte (Z.land v (u32 (Z.lnot flag))); invalidate_pagedir pd
  else ret tt.
Definition pagedir_is_dirty : Z -> Z -> M vm bool := test_flag PTE_D.
Definition pagedir_set_dirty : Z -> Z -> bool -> M vm unit := change_flag PTE_D.
Definition pagedir_is_accessed : Z -> Z -> M vm bool := test_flag PTE_A.
Definition pagedir_set_accessed : Z -> Z -> bool -> M vm unit := change_flag PTE_A.

End PageDir.
