(* ===== verification/PageDirFacts.v ===== *)
(** * userprog/pagedir.c: well-formed page directories *)

From S2P Require Import Prelude Bytes CString CStringFacts Bitmap VAddr Ram Palloc PageDir.
Import Bytes CString CStringFacts VAddr Ram Palloc PageDir.

Module PageDirFacts.
Import Bitmap (bit_cnt, bit, all_are, in_range, updated).

Definition vram (s : vm) : mem := ram (vphys s).
(** A page of the kernel pool that is in use. *)
Definition kernel_page (s : vm) (a : Z) : Prop :=
  exists j, a = base (kernel_pool (vphys s)) + 4096 * j /\ 0 <= j < bit_cnt (used_map (kernel_pool (vphys s))) /\ bit (used_map (kernel_pool (vphys s))) j = true.
(** An entry that is present refers to a page of memory. *)
Definition pte_ok (w : Z) : Prop := Z.testbit w 0 = true -> 4096 * (w / 4096) < 2 ^ 30.

(** The directory [pd] refers to the page tables [T]. *)
Record dir_ok (s : vm) (pd : Z) (T : gmap Z Z) : Prop := {
  dir_phys : phys_ok (vphys s);
  dir_bytes : ram_bytes (vram s);
  dir_page : kernel_page s pd;
  dir_entry : forall i, 0 <= i < 768 -> read32 (vram s) (pd + 4 * i) = match T !! i with Some pt => pt - PHYS_BASE + 7 | None => 0 end;
  dir_table : forall i pt, T !! i = Some pt -> 0 <= i < 768 /\ kernel_page s pt /\ pt <> pd;
  dir_inj : forall i i' pt, T !! i = Some pt -> T !! i' = Some pt -> i = i';
  dir_pte : forall i pt k, T !! i = Some pt -> 0 <= k < 1024 -> pte_ok (read32 (vram s) (pt + 4 * k));
  dir_cr3 : 0 <= cr3 s < 2 ^ 30 }.

(** The entry for an address; zero when there is no page table. *)
Definition pte_of (s : vm) (T : gmap Z Z) (va : Z) : Z :=
  match T !! pd_no va with Some pt => read32 (vram s) (pt + 4 * pt_no va) | None => 0 end.
Definition user_addr (va : Z) : Prop := 0 <= va < PHYS_BASE.

Lemma kernel_page_addr s a : phys_ok (vphys s) -> kernel_page s a ->
  PHYS_BASE <= a /\ a + 4096 < 2 ^ 32 /\ a mod 4096 = 0 /\ mapped (vram s) a 4096.
Proof.
  intros Hp (j & -> & Hj & _). pose proof (phys_kernel _ Hp) as Hk. pose proof (pool_end _ _ Hk). pose proof (pool_start _ _ Hk).
  destruct (page_address _ _ j Hk) as (_ & _ & Hm); [lia..|]. split; [lia|]. split; [lia|]. split; [done|]. intros x Hx. apply (pool_mapped _ _ Hk). lia.
Qed.
Lemma pages_apart s a b : kernel_page s a -> kernel_page s b -> a <> b -> a + 4096 <= b \/ b + 4096 <= a.
Proof. intros (i & -> & _) (j & -> & _) Hne. lia. Qed.

Lemma index_range va : user_addr va -> 0 <= pd_no va < 768 /\ 0 <= pt_no va < 1024.
Proof.
  unfold user_addr, PHYS_BASE. intros Hva. rewrite pd_no_div, pt_no_div. split; [|apply Z.mod_pos_bound; lia].
  split; [apply Z.div_pos; lia|apply Z.div_lt_upper_bound; lia].
Qed.

(** ** Entries of a directory *)

Lemma odd_bit w : negb (Z.land w PTE_P =? 0) = Z.testbit w 0.
Proof.
  unfold PTE_P. change 1 with (Z.ones 1). rewrite Z.land_ones by lia. change (2 ^ 1) with 2. rewrite Zmod_odd, Z.bit0_odd. by destruct (Z.odd w).
Qed.
Lemma pde_get_pt_run pt : PHYS_BASE <= pt -> pt + 4096 < 2 ^ 32 -> pt mod 4096 = 0 -> pde_get_pt (pt - PHYS_BASE + 7) = Ok pt.
Proof.
  unfold pde_get_pt. intros H1 H2 H3. rewrite odd_bit. unfold PHYS_BASE in *.
  assert ((pt - 3221225472) mod 4096 = 0) as Hm by (rewrite Zminus_mod, H3; done).
  rewrite Z.bit0_odd, Z.odd_add. apply Z.div_exact in Hm; [|done]. assert (Z.odd (pt - 3221225472) = false) as ->.
  { rewrite Hm, Z.odd_mul. done. }
  cbn [vassert xorb Z.odd]. rewrite land_page_flags by (try lia; rewrite Zminus_mod, H3; done). unfold ptov, PHYS_BASE.
  rewrite (proj2 (Z.ltb_lt _ _)) by lia. rewrite wrapu_small by lia. f_equal. lia.
Qed.
Lemma pde_create_run pt : PHYS_BASE <= pt -> pt mod 4096 = 0 -> pde_create pt = Ok (pt - PHYS_BASE + 7).
Proof.
  intros H1 H2. unfold pde_create, vtop, is_kernel_vaddr. rewrite pg_ofs_mod, H2. cbn [vassert Z.eqb]. rewrite (proj2 (Z.geb_le _ _)) by done. cbn [rbind].
  rewrite <- !Z.lor_assoc. f_equal. change (Z.lor PTE_U (Z.lor PTE_P PTE_W)) with 7. apply lor_flags; [|lia]. unfold PHYS_BASE. by rewrite Zminus_mod, H2.
Qed.
Lemma pte_create_user_run page w : PHYS_BASE <= page -> page mod 4096 = 0 ->
  pte_create_user page w = Ok (page - PHYS_BASE + (if w then 7 else 5)).
Proof.
  intros H1 H2. unfold pte_create_user, pte_create_kernel, vtop, is_kernel_vaddr. rewrite pg_ofs_mod, H2. cbn [vassert Z.eqb].
  rewrite (proj2 (Z.geb_le _ _)) by done. cbn [rbind]. rewrite <- !Z.lor_assoc. f_equal.
  replace (Z.lor PTE_P (Z.lor (if w then PTE_W else 0) PTE_U)) with (if w then 7 else 5) by (by destruct w).
  apply lor_flags; [|destruct w; lia]. unfold PHYS_BASE. by rewrite Zminus_mod, H2.
Qed.
Lemma pte_get_page_run w : is_word w -> 4096 * (w / 4096) < 2 ^ 30 -> pte_get_page w = Ok (PHYS_BASE + 4096 * (w / 4096)).
Proof.
  intros Hw Hlt. unfold pte_get_page, ptov. rewrite land_page by done. unfold PHYS_BASE in *. pose proof (Z.div_pos w 4096 ltac:(apply Hw) ltac:(lia)).
  rewrite (proj2 (Z.ltb_lt _ _)) by lia. rewrite wrapu_small by lia. f_equal. lia.
Qed.

(** ** Running the operations on memory *)

Definition set_vram (m : mem) (s : vm) : vm := {| vphys := with_ram m (vphys s); init_page_dir := init_page_dir s; cr3 := cr3 s |}.
Lemma on_phys_run {A} (c : M phys A) s a p : c (vphys s) = Ok (a, p) ->
  on_phys c s = Ok (a, {| vphys := p; init_page_dir := init_page_dir s; cr3 := cr3 s |}).
Proof. unfold on_phys. by intros ->. Qed.
Lemma on_ram_run {A} (c : M mem A) s a m : c (vram s) = Ok (a, m) -> on_phys (in_ram c) s = Ok (a, set_vram m s).
Proof. intros E. apply on_phys_run. by apply in_ram_run. Qed.
Lemma set_vram_same s : set_vram (vram s) s = s.
Proof. by destruct s as [[]]. Qed.
Lemma load_entry_run s a : mapped (vram s) a 4 -> load_entry a s = Ok (read32 (vram s) a, s).
Proof. intros Hm. unfold load_entry. rewrite (on_ram_run _ s _ _ (load32_read _ _ Hm)). by rewrite set_vram_same. Qed.

(** The address of the entry for [va]. *)
Definition pte_addr (T : gmap Z Z) (va : Z) : Z := match T !! pd_no va with Some pt => pt + 4 * pt_no va | None => 0 end.

Lemma lookup_page_run s pd T va : dir_ok s pd T -> user_addr va -> lookup_page pd va false s = Ok (pte_addr T va, s).
Proof.
  intros Hd Hva. destruct (index_range va Hva) as [Hi Hk]. destruct (kernel_page_addr s pd (dir_phys _ _ _ Hd) (dir_page _ _ _ Hd)) as (H1 & H2 & H3 & Hm).
  unfold lookup_page. rewrite (proj2 (Z.eqb_neq pd 0)) by (unfold PHYS_BASE in H1; lia). do 2 (erewrite bind_eq; [|reflexivity]).
  erewrite bind_eq; [|apply load_entry_run; intros x Hx; apply Hm; lia]. rewrite (dir_entry _ _ _ Hd) by done. unfold pte_addr.
  destruct (T !! pd_no va) as [pt|] eqn:E; [|done]. destruct (dir_table _ _ _ Hd _ _ E) as (_ & Hpt & _).
  destruct (kernel_page_addr s pt (dir_phys _ _ _ Hd) Hpt) as (P1 & P2 & P3 & _). rewrite (proj2 (Z.eqb_neq _ 0)) by lia.
  unfold entry_address. rewrite pde_get_pt_run by done. done.
Qed.
Lemma pte_addr_some s pd T va pt : dir_ok s pd T -> user_addr va -> T !! pd_no va = Some pt ->
  pte_addr T va = pt + 4 * pt_no va /\ pte_addr T va <> 0 /\ mapped (vram s) (pt + 4 * pt_no va) 4 /\ is_word (pte_of s T va) /\ pte_ok (pte_of s T va) /\
  read32 (vram s) (pt + 4 * pt_no va) = pte_of s T va.
Proof.
  intros Hd Hva E. destruct (index_range va Hva) as [Hi Hk]. destruct (dir_table _ _ _ Hd _ _ E) as (_ & Hpt & _).
  destruct (kernel_page_addr s pt (dir_phys _ _ _ Hd) Hpt) as (P1 & P2 & P3 & Hm). unfold PHYS_BASE in P1. unfold pte_addr, pte_of. rewrite E. split_and!; try done.
  - lia.
  - intros x Hx. apply Hm. lia.
  - apply read32_word, Hd.
  - by apply (dir_pte _ _ _ Hd (pd_no va)).
Qed.

(** The kernel address an entry gives to [va]. *)
Definition translate (w va : Z) : Z := if Z.testbit w 0 then PHYS_BASE + 4096 * (w / 4096) + va mod 4096 else 0.

Lemma pagedir_get_page_run s pd T va : dir_ok s pd T -> user_addr va -> pagedir_get_page pd va s = Ok (translate (pte_of s T va) va, s).
Proof.
  intros Hd Hva. unfold pagedir_get_page, is_user_vaddr. rewrite (proj2 (Z.ltb_lt va PHYS_BASE)) by apply Hva. erewrite bind_eq; [|reflexivity].
  erewrite bind_eq; [|by apply (lookup_page_run s pd T)]. destruct (T !! pd_no va) as [pt|] eqn:E.
  - destruct (pte_addr_some s pd T va pt Hd Hva E) as (Ea & Hn & Hm & Hw & Hok & Er). rewrite (proj2 (Z.eqb_neq _ 0) Hn), Ea. cbn [negb].
    erewrite bind_eq; [|by apply load_entry_run]. rewrite Er, odd_bit. unfold translate. destruct (Z.testbit (pte_of s T va) 0) eqn:Eb; [|done].
    specialize (Hok Eb). rewrite pte_get_page_run by done. unfold lift. erewrite bind_eq; [|reflexivity]. unfold ret. do 2 f_equal.
    rewrite pg_ofs_mod. pose proof (Z.mod_pos_bound va 4096 ltac:(lia)). pose proof (Z.div_pos (pte_of s T va) 4096 ltac:(apply Hw) ltac:(lia)).
    apply wrapu_small. unfold PHYS_BASE in *. lia.
  - unfold pte_addr, pte_of, translate. rewrite E. done.
Qed.

(** ** Changing entries *)

(** Addresses in neither the directory nor one of its tables. *)
Definition outside (pd : Z) (T : gmap Z Z) (x : Z) : Prop :=
  ~ (pd <= x < pd + 4096) /\ forall i pt, T !! i = Some pt -> ~ (pt <= x < pt + 4096).

Lemma same_entry va va' : pd_no va = pd_no va' -> pt_no va = pt_no va' -> va / 4096 = va' / 4096.
Proof.
  rewrite !pd_no_div, !pt_no_div. intros E1 E2. rewrite (Z.div_mod (va / 4096) 1024), (Z.div_mod (va' / 4096) 1024) by done.
  rewrite !Z.div_div by done. change (4096 * 1024) with 4194304. by rewrite E1, E2.
Qed.

Lemma store_pte_run s pd T va pt v : dir_ok s pd T -> user_addr va -> T !! pd_no va = Some pt -> is_word v -> pte_ok v ->
  exists m, store_entry (pt + 4 * pt_no va) v s = Ok (tt, set_vram m s) /\ dir_ok (set_vram m s) pd T /\ pte_of (set_vram m s) T va = v /\
    (forall va', user_addr va' -> va' / 4096 <> va / 4096 -> pte_of (set_vram m s) T va' = pte_of s T va') /\
    (forall x, outside pd T x -> m !! x = vram s !! x).
Proof.
  intros Hd Hva E Hv Hok. destruct (pte_addr_some s pd T va pt Hd Hva E) as (_ & _ & Hm & _). destruct (index_range va Hva) as [Hi Hk].
  destruct (dir_table _ _ _ Hd _ _ E) as (_ & Hpt & Hne). destruct (store32_read (vram s) _ v Hm Hv (dir_bytes _ _ _ Hd)) as (m & Es & Er & F & Hb).
  assert (forall i pt' k, T !! i = Some pt' -> 0 <= k < 1024 -> (i, k) <> (pd_no va, pt_no va) -> read32 m (pt' + 4 * k) = read32 (vram s) (pt' + 4 * k)) as Hother.
  { intros i pt' k Hi' Hk' Hik. apply (read32_frame _ _ _ _ _ F). destruct (decide (pt' = pt)) as [->|Hpp].
    - pose proof (dir_inj _ _ _ Hd _ _ _ Hi' E) as ->. assert (k <> pt_no va) by congruence. lia.
    - destruct (dir_table _ _ _ Hd _ _ Hi') as (_ & Hpt' & _). destruct (pages_apart s pt' pt Hpt' Hpt Hpp); lia. }
  exists m. split; [by apply on_ram_run|]. split; [|split; [|split]].
  - split; [apply (phys_frame _ _ _ _ (dir_phys _ _ _ Hd) F)|done|apply Hd| |apply Hd|apply Hd| |apply Hd].
    + intros i Hi'. rewrite <- (dir_entry _ _ _ Hd i Hi'). apply (read32_frame _ _ _ _ _ F). destruct (pages_apart s pt pd Hpt (dir_page _ _ _ Hd) Hne); lia.
    + intros i pt' k Hi' Hk'. change (vram (set_vram m s)) with m. destruct (decide ((i, k) = (pd_no va, pt_no va))) as [[= -> ->]|Hik].
      * assert (pt' = pt) as -> by congruence. by rewrite Er.
      * rewrite (Hother i) by done. exact (dir_pte _ _ _ Hd i pt' k Hi' Hk').
  - unfold pte_of. rewrite E. exact Er.
  - intros va' Hva' Hpg. unfold pte_of. destruct (T !! pd_no va') as [pt'|] eqn:E'; [|done]. change (vram (set_vram m s)) with m.
    apply (Hother (pd_no va')); [done|by apply index_range|]. intros [= E1 E2]. by apply Hpg, same_entry.
  - intros x [_ Hx]. apply F. pose proof (Hx _ _ E). lia.
Qed.

(** A page taken from the kernel pool. *)
Definition with_vphys (p : phys) (s : vm) : vm := {| vphys := p; init_page_dir := init_page_dir s; cr3 := cr3 s |}.
Record fresh_page (s : vm) (pt : Z) (p' : phys) : Prop := {
  fp_phys : phys_ok p';
  fp_pool : base (kernel_pool p') = base (kernel_pool (vphys s)) /\ bit_cnt (used_map (kernel_pool p')) = bit_cnt (used_map (kernel_pool (vphys s)));
  fp_page : kernel_page (with_vphys p' s) pt;
  fp_old : forall a, kernel_page s a -> kernel_page (with_vphys p' s) a /\ a <> pt;
  fp_only : forall a, kernel_page (with_vphys p' s) a -> kernel_page s a \/ a = pt;
  fp_frame : frame (vram s) (ram p') pt 4096;
  fp_user : user_pool p' = user_pool (vphys s) }.

Lemma pool_page_run s flags : phys_ok (vphys s) -> has flags PAL_USER = false ->
  (exists pt p', palloc_get_page flags (vphys s) = Ok (pt, p') /\ fresh_page s pt p' /\
     (if has flags PAL_ZERO then bytes_at (ram p') pt (replicate (Z.to_nat 4096) 0) else ram p' = vram s)) \/
  (no_room (kernel_pool (vphys s)) 1 /\ palloc_get_page flags (vphys s) = if has flags PAL_ASSERT then Err KernelPanic else Ok (0, vphys s)).
Proof.
  intros Hp Hu. destruct (palloc_get_multiple_run (vphys s) flags 1 Hp) as [(j & p' & E & Hj & Hle & Ha & Hset & Hz)|[Hno E]]; [lia| |right; rewrite Hu in *; by split].
  left. rewrite Hu in *. cbn [pool_of] in *. exists (base (kernel_pool (vphys s)) + 4096 * j), p'. split; [exact E|]. pose proof (set_pages_ok _ _ _ _ _ _ Hset Hp) as Hp'.
  destruct Hset as [(_ & Ec & Eb) Ebase Eo Hf]. cbn [pool_of] in *. split; [|exact Hz]. split; [done|by split| | | |exact Hf|exact Eo].
  - exists j. cbn [vphys with_vphys]. rewrite Ebase, Ec, Eb by done. rewrite (proj2 (Bitmap.in_range_spec j 1 j)) by lia. split; [done|]. split; [lia|done].
  - intros a (i & -> & Hi & Hb). assert (i <> j) by (intros ->; rewrite Ha in Hb by lia; done). split; [|lia].
    exists i. cbn [vphys with_vphys]. rewrite Ebase, Ec, Eb by lia. split; [done|]. split; [lia|]. destruct (in_range j 1 i); done.
  - intros a (i & -> & Hi & Hb). cbn [vphys with_vphys] in *. rewrite Ebase. rewrite Ec in Hi. rewrite Eb in Hb by lia. destruct (in_range j 1 i) eqn:Er.
    + apply Bitmap.in_range_spec in Er. right. lia.
    + left. exists i. done.
Qed.

Lemma kernel_page_run s flags : phys_ok (vphys s) -> has flags PAL_USER = false -> has flags PAL_ASSERT = false ->
  (exists pt p', palloc_get_page flags (vphys s) = Ok (pt, p') /\ fresh_page s pt p' /\
     (if has flags PAL_ZERO then bytes_at (ram p') pt (replicate (Z.to_nat 4096) 0) else ram p' = vram s)) \/
  (no_room (kernel_pool (vphys s)) 1 /\ palloc_get_page flags (vphys s) = Ok (0, vphys s)).
Proof. intros Hp Hu Ha. pose proof (pool_page_run s flags Hp Hu) as H. by rewrite Ha in H. Qed.

(** The state with the new table entered into the directory. *)
Lemma add_table_ok s pd T i pt p' : dir_ok s pd T -> 0 <= i < 768 -> T !! i = None -> fresh_page s pt p' -> bytes_at (ram p') pt (replicate (Z.to_nat 4096) 0) ->
  exists m, store_entry (pd + 4 * i) (pt - PHYS_BASE + 7) (with_vphys p' s) = Ok (tt, set_vram m (with_vphys p' s)) /\
    dir_ok (set_vram m (with_vphys p' s)) pd (<[i := pt]> T) /\ (forall k, 0 <= k < 1024 -> read32 m (pt + 4 * k) = 0) /\
    (forall i' pt' k, T !! i' = Some pt' -> 0 <= k < 1024 -> read32 m (pt' + 4 * k) = read32 (vram s) (pt' + 4 * k)) /\
    (forall x, outside pd (<[i := pt]> T) x -> m !! x = vram s !! x).
Proof.
  intros Hd Hi E [Hp _ Hpt Hold _ Hf _] Hz. set (s1 := with_vphys p' s) in *. destruct (Hold pd (dir_page _ _ _ Hd)) as [Hpd1 Hne].
  destruct (kernel_page_addr s1 pd Hp Hpd1) as (_ & _ & _ & Hm). destruct (kernel_page_addr s1 pt Hp Hpt) as (P1 & P2 & P3 & _). unfold PHYS_BASE in *.
  assert (ram_bytes (ram p')) as Hb1. { apply (bytes_frame (vram s) _ pt (replicate (Z.to_nat 4096) 0)); [apply Hd|rewrite length_replicate; exact Hf|exact Hz|]. apply Forall_replicate. done. }
  destruct (store32_read (ram p') (pd + 4 * i) (pt - 3221225472 + 7)) as (m & Es & Er & F & Hb); [intros x Hx; apply Hm; lia|unfold is_word; lia|done|].
  pose proof (pages_apart s1 pd pt Hpd1 Hpt Hne) as Hap.
  assert (forall i' pt' k, T !! i' = Some pt' -> 0 <= k < 1024 -> read32 m (pt' + 4 * k) = read32 (vram s) (pt' + 4 * k)) as Hother.
  { intros i' pt' k Hi' Hk. destruct (dir_table _ _ _ Hd _ _ Hi') as (_ & Hpt' & Hne'). destruct (Hold pt' Hpt') as [Hpt1 Hne1].
    rewrite (read32_frame _ _ _ _ _ F), (read32_frame _ _ _ _ _ Hf); [done| |].
    - destruct (pages_apart s1 pt' pt Hpt1 Hpt Hne1); lia.
    - destruct (pages_apart s1 pt' pd Hpt1 Hpd1 Hne'); lia. }
  assert (forall k, 0 <= k < 1024 -> read32 m (pt + 4 * k) = 0) as Hzero.
  { intros k Hk. rewrite (read32_frame _ _ _ _ _ F) by lia. apply (read32_zero _ _ _ _ Hz); lia. }
  exists m. split; [by apply on_ram_run|]. split; [|split; [done|split; [done|]]].
  - split; [apply (phys_frame _ _ _ _ Hp F)|done|exact Hpd1| | | | |apply Hd].
    + intros i' Hi'. change (vram (set_vram m s1)) with m. destruct (decide (i' = i)) as [->|Hni]; [by rewrite lookup_insert_eq|].
      rewrite lookup_insert_ne by done. rewrite (read32_frame _ _ _ _ _ F) by lia. rewrite (read32_frame _ _ _ _ _ Hf) by lia. by apply (dir_entry _ _ _ Hd).
    + intros i' pt' Hi'. apply lookup_insert_Some in Hi' as [[<- <-]|[_ Hi']]; [split; [done|]; split; [exact Hpt|congruence]|].
      destruct (dir_table _ _ _ Hd _ _ Hi') as (? & Hpt' & ?). split_and!; try done; try lia. by apply Hold.
    + intros i1 i2 pt' Hi1 Hi2. apply lookup_insert_Some in Hi1 as [[<- <-]|[_ Hi1]], Hi2 as [[<- Ept]|[_ Hi2]]; [done| | |by apply (dir_inj _ _ _ Hd i1 i2 pt')].
      * destruct (dir_table _ _ _ Hd _ _ Hi2) as (_ & Hpt' & _). by destruct (Hold _ Hpt').
      * subst pt'. destruct (dir_table _ _ _ Hd _ _ Hi1) as (_ & Hpt' & _). by destruct (Hold _ Hpt').
    + intros i' pt' k Hi' Hk. change (vram (set_vram m s1)) with m. apply lookup_insert_Some in Hi' as [[<- <-]|[_ Hi']]; [by rewrite Hzero|].
      rewrite (Hother i') by done. exact (dir_pte _ _ _ Hd i' pt' k Hi' Hk).
  - intros x [Hx1 Hx2]. rewrite (proj1 F) by lia. apply Hf. apply (Hx2 i pt), lookup_insert_eq.
Qed.

(** A table for an address that has none. *)
Lemma new_table_run s pd T va : dir_ok s pd T -> user_addr va -> T !! pd_no va = None ->
  (exists s' pt, lookup_page pd va true s = Ok (pt + 4 * pt_no va, s') /\ dir_ok s' pd (<[pd_no va := pt]> T) /\
     (init_page_dir s' = init_page_dir s /\ user_pool (vphys s') = user_pool (vphys s)) /\
     (forall va', user_addr va' -> pte_of s' (<[pd_no va := pt]> T) va' = pte_of s T va') /\
     (forall x, outside pd (<[pd_no va := pt]> T) x -> vram s' !! x = vram s !! x)) \/
  (no_room (kernel_pool (vphys s)) 1 /\ lookup_page pd va true s = Ok (0, s)).
Proof.
  intros Hd Hva E. destruct (index_range va Hva) as [Hi Hk]. destruct (kernel_page_addr s pd (dir_phys _ _ _ Hd) (dir_page _ _ _ Hd)) as (H1 & H2 & H3 & Hm).
  unfold lookup_page. rewrite (proj2 (Z.eqb_neq pd 0)) by (unfold PHYS_BASE in H1; lia). erewrite bind_eq; [|reflexivity].
  unfold is_user_vaddr. rewrite (proj2 (Z.ltb_lt va PHYS_BASE)) by apply Hva. erewrite bind_eq; [|reflexivity].
  erewrite bind_eq; [|apply load_entry_run; intros x Hx; apply Hm; lia]. rewrite (dir_entry _ _ _ Hd), E by done. cbn [Z.eqb].
  destruct (kernel_page_run s PAL_ZERO (dir_phys _ _ _ Hd) eq_refl eq_refl) as [(pt & p' & Ep & Hf & Hz0)|[Hno Ep]].
  2: { right. split; [exact Hno|]. erewrite bind_eq; [|apply on_phys_run; exact Ep]. by destruct s. }
  left. destruct (kernel_page_addr (with_vphys p' s) pt (fp_phys _ _ _ Hf) (fp_page _ _ _ Hf)) as (P1 & P2 & P3 & _).
  destruct (add_table_ok s pd T (pd_no va) pt p' Hd Hi E Hf Hz0) as (m & Es & Hd' & Hz & Hother & Hout).
  exists (set_vram m (with_vphys p' s)), pt. split; [|split; [done|split; [split; [done|exact (fp_user _ _ _ Hf)]|split; [|done]]]].
  - erewrite bind_eq; [|apply on_phys_run; exact Ep]. rewrite (proj2 (Z.eqb_neq pt 0)) by (unfold PHYS_BASE in P1; lia). rewrite pde_create_run by done.
    unfold lift at 1. erewrite bind_eq; [|reflexivity]. erewrite bind_eq; [|exact Es]. unfold entry_address. by rewrite pde_get_pt_run.
  - intros va' Hva'. unfold pte_of. change (vram (set_vram m (with_vphys p' s))) with m. destruct (index_range va' Hva') as [_ Hk'].
    destruct (decide (pd_no va' = pd_no va)) as [->|Hne]; [rewrite lookup_insert_eq, E; by apply Hz|]. rewrite lookup_insert_ne by done.
    destruct (T !! pd_no va') as [pt'|] eqn:E'; [|done]. by apply (Hother (pd_no va')).
Qed.

End PageDirFacts.

(** * userprog/pagedir.c: destroying a page directory *)

Import Bytes CString CStringFacts VAddr Ram Palloc PageDir PageDirFacts.

Module PageDirDestroy.
Import Bitmap (bit_cnt, bit, all_are, in_range, updated).

Definition pool_in (user : bool) (s : vm) : pool := pool_of user (vphys s).
(** The page [a] of a pool is in use. *)
Definition page_used (user : bool) (s : vm) (a : Z) : Prop :=
  exists j, a = base (pool_in user s) + 4096 * j /\ 0 <= j < bit_cnt (used_map (pool_in user s)) /\ bit (used_map (pool_in user s)) j = true.
Definition not_in (ps : list Z) (x : Z) : Prop := forall p, p ∈ ps -> ~ (p <= x < p + 4096).

(** [s'] is [s] after the pages [U] of the user pool and [K] of the kernel pool have been freed. *)
Record freed (U K : list Z) (s s' : vm) : Prop := {
  fd_phys : phys_ok (vphys s');
  fd_pool : forall user, base (pool_in user s') = base (pool_in user s) /\ bit_cnt (used_map (pool_in user s')) = bit_cnt (used_map (pool_in user s));
  fd_bits : forall (user : bool) j, 0 <= j -> bit (used_map (pool_in user s')) j =
    (bit (used_map (pool_in user s)) j && bool_decide (base (pool_in user s) + 4096 * j ∉ (if user then U else K)));
  fd_ram : forall x, not_in (U ++ K) x -> vram s' !! x = vram s !! x;
  fd_bytes : ram_bytes (vram s) -> ram_bytes (vram s');
  fd_regs : init_page_dir s' = init_page_dir s /\ cr3 s' = cr3 s }.

Lemma freed_nil s : phys_ok (vphys s) -> freed [] [] s s.
Proof.
  intros Hp. split; try done. intros user j Hj. rewrite bool_decide_true; [by rewrite andb_true_r|]. destruct user; apply not_elem_of_nil.
Qed.
Lemma freed_trans U K U' K' s s1 s2 : freed U K s s1 -> freed U' K' s1 s2 -> freed (U ++ U') (K ++ K') s s2.
Proof.
  intros [P1 B1 D1 R1 Y1 G1] [P2 B2 D2 R2 Y2 G2]. split; [done| | | |auto|].
  - intros user. destruct (B1 user), (B2 user). split; congruence.
  - intros user j Hj. rewrite D2, D1 by done. rewrite (proj1 (B1 user)), <- andb_assoc. f_equal. rewrite <- bool_decide_and. apply bool_decide_ext.
    destruct user; rewrite not_elem_of_app; done.
  - intros x Hx. rewrite R2, R1; [done| |]; intros p Hp; apply Hx; apply elem_of_app in Hp as [Hp|Hp]; in_list.
  - destruct G1, G2. split; congruence.
Qed.
Lemma used_after U K s s' user a : freed U K s s' -> page_used user s a -> a ∉ (if user then U else K) -> page_used user s' a.
Proof.
  intros F (j & -> & Hj & Hb) Hn. destruct (fd_pool _ _ _ _ F user) as [Eb Ec]. exists j. rewrite Eb, Ec, (fd_bits _ _ _ _ F) by lia.
  split; [done|]. split; [done|]. by rewrite Hb, bool_decide_true.
Qed.

Lemma free_page_run (user : bool) s a : phys_ok (vphys s) -> page_used user s a ->
  exists s', on_phys (palloc_free_page a) s = Ok (tt, s') /\ freed (if user then [a] else []) (if user then [] else [a]) s s'.
Proof.
  intros Hp (j & -> & Hj & Hb). destruct (palloc_free_multiple_run (vphys s) user j 1 Hp) as (p' & E & Hset & Hz); [lia|lia|fold (pool_in user s); lia| |].
  { intros t Ht. fold (pool_in user s). by replace t with j by lia. }
  fold (pool_in user s) in E. eexists. split; [apply on_phys_run; exact E|]. pose proof (set_pages_ok _ _ _ _ _ _ Hset Hp) as Hp'.
  destruct Hset as [(_ & Ec & Eb) Ebase Eo Hf]. fold (pool_in user s) in *. split; [exact Hp'| | | | |done]; unfold pool_in; cbn [vphys].
  - intros u. destruct (decide (u = user)) as [->|Hne]; [by split|]. assert (u = negb user) as -> by (by destruct u, user). rewrite Eo. done.
  - intros u t Ht. destruct (decide (u = user)) as [->|Hne].
    + rewrite Eb by done. unfold pool_in. destruct (in_range j 1 t) eqn:Er.
      * apply Bitmap.in_range_spec in Er. replace t with j by lia. rewrite bool_decide_false; [by rewrite andb_false_r|].
        destruct user; intros Hn; apply Hn, list_elem_of_here.
      * rewrite bool_decide_true; [by rewrite andb_true_r|]. assert (t <> j). { intros ->. rewrite (proj2 (Bitmap.in_range_spec j 1 j)) in Er by lia. done. }
        destruct user; (apply not_elem_of_cons; split; [unfold pool_in; lia|apply not_elem_of_nil]).
    + assert (u = negb user) as -> by (by destruct u, user). rewrite Eo. rewrite bool_decide_true; [by rewrite andb_true_r|]. destruct user; apply not_elem_of_nil.
  - intros x Hx. apply Hf. destruct user; cbn [app] in Hx; apply (Hx _ (list_elem_of_here _ _)).
  - intros Hby. apply (bytes_frame (vram s) _ _ _ Hby) in Hz; [done|rewrite length_replicate; exact Hf|by apply Forall_replicate].
Qed.

(** ** The frames a table refers to *)

Fixpoint frames (m : mem) (n : nat) (a : Z) : list Z :=
  match n with
  | O => []
  | S n => (if Z.testbit (read32 m a) 0 then [PHYS_BASE + 4096 * (read32 m a / 4096)] else []) ++ frames m n (a + 4)
  end.
Lemma frames_ext m m' n : forall a, (forall x, a <= x < a + 4 * Z.of_nat n -> m' !! x = m !! x) -> frames m' n a = frames m n a.
Proof.
  induction n as [|n IH]; intros a He; [done|]. cbn [frames]. rewrite IH by (intros x Hx; apply He; lia).
  by rewrite (read32_ext m m' a) by (intros x Hx; apply He; lia).
Qed.

(** Pages of the user pool are not in the kernel pool. *)
Lemma user_kernel_apart s a b x : phys_ok (vphys s) -> page_used true s a -> page_used false s b -> b <= x < b + 4096 -> ~ (a <= x < a + 4096).
Proof.
  intros Hp (i & -> & Hi & _) (j & -> & Hj & _) Hx. pose proof (phys_apart _ Hp). unfold pool_in in *. cbn [pool_of] in *. lia.
Qed.

Lemma destroy_table_run b n : forall s a, phys_ok (vphys s) -> ram_bytes (vram s) -> page_used false s b -> b <= a -> a + 4 * Z.of_nat n <= b + 4096 ->
  (forall k, 0 <= k < Z.of_nat n -> pte_ok (read32 (vram s) (a + 4 * k))) ->
  NoDup (frames (vram s) n a) -> (forall f, f ∈ frames (vram s) n a -> page_used true s f) ->
  exists s', destroy_table n a s = Ok (tt, s') /\ freed (frames (vram s) n a) [] s s'.
Proof.
  induction n as [|n IH]; intros s a Hp Hby Hb Hlo Hhi Hok Hnd Hus; cbn [destroy_table frames] in *; [exists s; split; [done|by apply freed_nil]|].
  destruct (kernel_page_addr s b Hp Hb) as (_ & _ & _ & Hm). erewrite bind_eq; [|apply load_entry_run; intros x Hx; apply Hm; lia]. rewrite odd_bit.
  pose proof (Hok 0 ltac:(lia)) as Hok0. replace (a + 4 * 0) with a in Hok0 by lia. set (w := read32 (vram s) a) in *.
  assert (forall U s1, freed U [] s s1 -> (forall f, f ∈ U -> page_used true s f) -> (forall x, b <= x < b + 4096 -> vram s1 !! x = vram s !! x)) as Hkeep.
  { intros U s1 F HU x Hx. apply (fd_ram _ _ _ _ F). intros p Hp'. rewrite app_nil_r in Hp'. exact (user_kernel_apart s p b x Hp (HU p Hp') Hb Hx). }
  assert (exists s1, (if Z.testbit w 0 then let! page := lift (pte_get_page w) in on_phys (palloc_free_page page) else ret tt) s = Ok (tt, s1) /\
    freed (if Z.testbit w 0 then [PHYS_BASE + 4096 * (w / 4096)] else []) [] s s1) as (s1 & E1 & F1).
  { destruct (Z.testbit w 0) eqn:Eb; [|exists s; split; [done|by apply freed_nil]]. rewrite pte_get_page_run; [|by apply read32_word|by apply Hok0].
    erewrite bind_eq; [|reflexivity]. apply (free_page_run true s); [done|]. apply Hus. in_list. }
  erewrite bind_eq; [|exact E1]. set (U1 := if Z.testbit w 0 then [PHYS_BASE + 4096 * (w / 4096)] else []) in *.
  apply NoDup_app in Hnd as (Hnd1 & Hdis & Hnd2). assert (forall f, f ∈ U1 -> page_used true s f) as HU1 by (intros f Hf; apply Hus; in_list).
  pose proof (Hkeep U1 s1 F1 HU1) as Hk1. assert (frames (vram s1) n (a + 4) = frames (vram s) n (a + 4)) as Ef by (apply frames_ext; intros x Hx; apply Hk1; lia).
  destruct (IH s1 (a + 4)) as (s' & E' & F'); [apply F1| |by apply (used_after U1 [] s s1 false b F1 Hb (not_elem_of_nil b))|lia|lia| | | |].
  - by apply (fd_bytes _ _ _ _ F1).
  - intros k Hk. assert (read32 (vram s1) (a + 4 + 4 * k) = read32 (vram s) (a + 4 * (k + 1))) as ->; [|apply Hok; lia].
    replace (a + 4 + 4 * k) with (a + 4 * (k + 1)) by lia. apply read32_ext. intros x Hx. apply Hk1. lia.
  - by rewrite Ef.
  - rewrite Ef. intros f Hf. apply (used_after U1 [] s s1 true f F1); [apply Hus; in_list|]. intros Hf1. by apply (Hdis f).
  - exists s'. split; [done|]. rewrite Ef in F'. exact (freed_trans _ _ _ _ _ _ _ F1 F').
Qed.

(** ** The whole directory *)

Fixpoint tables (T : gmap Z Z) (n : nat) (i : Z) : list Z :=
  match n with O => [] | S n => match T !! i with Some pt => [pt] | None => [] end ++ tables T n (i + 1) end.
Fixpoint data (m : mem) (T : gmap Z Z) (n : nat) (i : Z) : list Z :=
  match n with O => [] | S n => match T !! i with Some pt => frames m 1024 pt | None => [] end ++ data m T n (i + 1) end.
Lemma tables_in T n : forall i pt, pt ∈ tables T n i -> exists t, i <= t < i + Z.of_nat n /\ T !! t = Some pt.
Proof.
  induction n as [|n IH]; intros i pt Hin; cbn [tables] in Hin; [by apply not_elem_of_nil in Hin|]. apply elem_of_app in Hin as [Hin|Hin].
  - exists i. destruct (T !! i) as [pt'|] eqn:E; [|by apply not_elem_of_nil in Hin]. apply list_elem_of_singleton in Hin as ->. split; [lia|done].
  - destruct (IH (i + 1) pt Hin) as (t & Ht & E). exists t. split; [lia|done].
Qed.
Lemma data_ext m m' T n : forall i, (forall t pt x, i <= t < i + Z.of_nat n -> T !! t = Some pt -> pt <= x < pt + 4096 -> m' !! x = m !! x) ->
  data m' T n i = data m T n i.
Proof.
  induction n as [|n IH]; intros i He; [done|]. cbn [data]. rewrite IH by (intros t pt x Ht; apply He; lia). f_equal.
  destruct (T !! i) as [pt|] eqn:E; [|done]. apply frames_ext. intros x Hx. apply (He i pt); [lia|done|lia].
Qed.
Lemma app_user s (U K : list Z) x b : phys_ok (vphys s) -> page_used false s b -> b <= x < b + 4096 -> (forall f, f ∈ U -> page_used true s f) ->
  (forall k, k ∈ K -> page_used false s k /\ k <> b) -> not_in (U ++ K) x.
Proof.
  intros Hp Hb Hx HU HK p Hin. apply elem_of_app in Hin as [Hin|Hin].
  - exact (user_kernel_apart s p b x Hp (HU p Hin) Hb Hx).
  - destruct (HK p Hin) as [(i & -> & _) Hne]. destruct Hb as (j & -> & _). lia.
Qed.

Section directory.
Context (pd : Z) (T : gmap Z Z) (Hinj : forall i i' pt, T !! i = Some pt -> T !! i' = Some pt -> i = i').

(** What the loop over the entries from [i] on needs. *)
Record pending (n : nat) (i : Z) (s : vm) : Prop := {
  pg_index : 0 <= i /\ i + Z.of_nat n <= 768;
  pg_phys : phys_ok (vphys s);
  pg_bytes : ram_bytes (vram s);
  pg_dir : page_used false s pd;
  pg_entry : forall t, i <= t < i + Z.of_nat n -> read32 (vram s) (pd + 4 * t) = match T !! t with Some pt => pt - PHYS_BASE + 7 | None => 0 end;
  pg_table : forall t pt, i <= t < i + Z.of_nat n -> T !! t = Some pt -> page_used false s pt /\ pt <> pd;
  pg_pte : forall t pt k, i <= t < i + Z.of_nat n -> T !! t = Some pt -> 0 <= k < 1024 -> pte_ok (read32 (vram s) (pt + 4 * k));
  pg_nodup : NoDup (data (vram s) T n i);
  pg_used : forall f, f ∈ data (vram s) T n i -> page_used true s f }.

(** Freeing the first table leaves what the rest of the loop needs. *)
Lemma pending_step n i s s1 U K : pending (S n) i s -> freed U K s s1 ->
  U = match T !! i with Some pt => frames (vram s) 1024 pt | None => [] end -> K = match T !! i with Some pt => [pt] | None => [] end ->
  pending n (i + 1) s1 /\ data (vram s1) T n (i + 1) = data (vram s) T n (i + 1).
Proof.
  intros [Hix Hp Hby Hd He Ht Hpte Hnd Hus] F EU EK. cbn [data] in Hnd, Hus. rewrite <- EU in Hnd, Hus. apply NoDup_app in Hnd as (_ & Hdis & Hnd).
  assert (forall f, f ∈ U -> page_used true s f) as HU by (intros f Hf; apply Hus; in_list).
  assert (forall k, k ∈ K -> T !! i = Some k) as HK.
  { intros k Hk. rewrite EK in Hk. destruct (T !! i) as [pt|]; [|by apply not_elem_of_nil in Hk]. by apply list_elem_of_singleton in Hk as ->. }
  assert (forall b x, page_used false s b -> (forall k, k ∈ K -> k <> b) -> b <= x < b + 4096 -> vram s1 !! x = vram s !! x) as Hkeep.
  { intros b x Hb Hkb Hx. apply (fd_ram _ _ _ _ F), (app_user s U K x b Hp Hb Hx HU). intros k Hk. split; [|by apply Hkb]. apply (Ht i); [lia|by apply HK]. }
  assert (forall k, k ∈ K -> k <> pd) as Hkpd by (intros k Hk; apply (Ht i); [lia|by apply HK]).
  assert (forall t pt k, i + 1 <= t < i + 1 + Z.of_nat n -> T !! t = Some pt -> k ∈ K -> k <> pt) as Hkt.
  { intros t pt k Hti Et Hk ->. pose proof (Hinj _ _ _ Et (HK pt Hk)). lia. }
  assert (data (vram s1) T n (i + 1) = data (vram s) T n (i + 1)) as Ed.
  { apply data_ext. intros t pt x Hti Et Hx. apply (Hkeep pt); [apply (Ht t); [lia|done]|intros k Hk; by apply (Hkt t)|done]. }
  split; [|done]. split.
  - lia.
  - apply F.
  - by apply (fd_bytes _ _ _ _ F).
  - apply (used_after U K s s1 false pd F Hd). intros Hk. by apply (Hkpd pd).
  - intros t Hti. rewrite <- He by lia. apply read32_ext. intros x Hx. apply (Hkeep pd); [done|done|lia].
  - intros t pt Hti Et. destruct (Ht t pt) as [Hu Hne]; [lia|done|]. split; [|done]. apply (used_after U K s s1 false pt F Hu). intros Hk. by apply (Hkt t pt pt).
  - intros t pt k Hti Et Hk. assert (read32 (vram s1) (pt + 4 * k) = read32 (vram s) (pt + 4 * k)) as ->; [|apply (Hpte t); [lia|done|done]].
    apply read32_ext. intros x Hx. apply (Hkeep pt); [apply (Ht t); [lia|done]|intros k' Hk'; by apply (Hkt t)|lia].
  - by rewrite Ed.
  - rewrite Ed. intros f Hf. apply (used_after U K s s1 true f F); [apply Hus; in_list|]. intros Hf1. by apply (Hdis f).
Qed.

Lemma destroy_dir_run n : forall i s, pending n i s ->
  exists s', destroy_dir n (pd + 4 * i) s = Ok (tt, s') /\ freed (data (vram s) T n i) (tables T n i) s s'.
Proof.
  induction n as [|n IH]; intros i s P; cbn [destroy_dir data tables]; [exists s; split; [done|apply freed_nil, P]|].
  pose proof P as [Hix Hp Hby Hd He Ht Hpte Hnd Hus]. destruct (kernel_page_addr s pd Hp Hd) as (_ & _ & _ & Hm).
  erewrite bind_eq; [|apply load_entry_run; intros x Hx; apply Hm; lia]. rewrite He, odd_bit by lia.
  set (U := match T !! i with Some pt => frames (vram s) 1024 pt | None => [] end). set (K := match T !! i with Some pt => [pt] | None => [] end).
  set (w := match T !! i with Some pt => pt - PHYS_BASE + 7 | None => 0 end).
  assert (exists s1, (if Z.testbit w 0 then let! pt := lift (pde_get_pt w) in do! destroy_table (Z.to_nat (PGSIZE / 4)) pt; on_phys (palloc_free_page pt) else ret tt) s = Ok (tt, s1) /\
    freed U K s s1) as (s1 & E1 & F1).
  { unfold U, K, w. clear U K w. destruct (T !! i) as [pt|] eqn:E; [|exists s; split; [done|by apply freed_nil]].
    destruct (Ht i pt) as [Hpt Hne]; [lia|done|]. destruct (kernel_page_addr s pt Hp Hpt) as (P1 & P2 & P3 & _).
    pose proof (pde_get_pt_run pt P1 P2 P3) as Eg. pose proof Eg as Eg'. unfold pde_get_pt in Eg'. rewrite odd_bit in Eg'. destruct (Z.testbit (pt - PHYS_BASE + 7) 0); [|done].
    rewrite Eg. erewrite bind_eq; [|reflexivity]. cbn [data] in Hnd, Hus. rewrite E in Hnd, Hus. apply NoDup_app in Hnd as (Hnd1 & _ & _).
    destruct (destroy_table_run pt 1024 s pt Hp Hby Hpt) as (s0 & E0 & F0); [lia|lia|intros k Hk; apply (Hpte i); [lia|done|lia]|done|intros f Hf; apply Hus; in_list|].
    change (Z.to_nat (PGSIZE / 4)) with 1024%nat. erewrite bind_eq; [|exact E0].
    destruct (free_page_run false s0 pt) as (s1 & E1 & F1); [apply F0|apply (used_after _ _ s s0 false pt F0 Hpt), not_elem_of_nil|].
    exists s1. split; [done|]. pose proof (freed_trans _ _ _ _ _ _ _ F0 F1) as F. cbn [app] in F. by rewrite app_nil_r in F. }
  erewrite bind_eq; [|exact E1]. destruct (pending_step n i s s1 U K P F1 eq_refl eq_refl) as [P1 Ed].
  destruct (IH (i + 1) s1 P1) as (s' & E' & F'). exists s'. replace (pd + 4 * i + 4) with (pd + 4 * (i + 1)) by lia. split; [done|].
  rewrite Ed in F'. exact (freed_trans _ _ _ _ _ _ _ F1 F').
Qed.
End directory.

(** Every page the directory maps to is a page of the user pool in use, and no two entries share one. *)
Definition owns_pages (s : vm) (T : gmap Z Z) : Prop :=
  NoDup (data (vram s) T 768 0) /\ forall f, f ∈ data (vram s) T 768 0 -> page_used true s f.

Lemma pagedir_destroy_run s pd T : dir_ok s pd T -> owns_pages s T -> pd <> init_page_dir s ->
  exists s', pagedir_destroy pd s = Ok (tt, s') /\ freed (data (vram s) T 768 0) (tables T 768 0 ++ [pd]) s s'.
Proof.
  intros Hd [Hnd Hus] Hne. destruct (kernel_page_addr s pd (dir_phys _ _ _ Hd) (dir_page _ _ _ Hd)) as (P1 & _). unfold PHYS_BASE in P1.
  assert (pending pd T 768 0 s) as P.
  { split; [lia|apply Hd|apply Hd|apply (dir_page _ _ _ Hd)| | | |done|done].
    - intros t Ht. apply (dir_entry _ _ _ Hd). lia.
    - intros t pt _ Et. by destruct (dir_table _ _ _ Hd _ _ Et) as (_ & ? & ?).
    - intros t pt k _ Et Hk. exact (dir_pte _ _ _ Hd t pt k Et Hk). }
  destruct (destroy_dir_run pd T (dir_inj _ _ _ Hd) 768 0 s P) as (s1 & E1 & F1).
  destruct (free_page_run false s1 pd) as (s2 & E2 & F2); [apply F1| |].
  { apply (used_after _ _ s s1 false pd F1 (dir_page _ _ _ Hd)). intros Hin. apply tables_in in Hin as (t & _ & Et). by destruct (dir_table _ _ _ Hd _ _ Et) as (_ & _ & ?). }
  exists s2. split.
  - unfold pagedir_destroy, gets. rewrite (proj2 (Z.eqb_neq pd 0)) by lia. erewrite bind_eq; [|reflexivity]. rewrite (proj2 (Z.eqb_neq pd _)) by done.
    erewrite bind_eq; [|reflexivity]. change (Z.to_nat (pd_no PHYS_BASE)) with 768%nat. replace (pd + 4 * 0) with pd in E1 by lia. erewrite bind_eq; [|exact E1]. exact E2.
  - pose proof (freed_trans _ _ _ _ _ _ _ F1 F2) as F. by rewrite app_nil_r in F.
Qed.

End PageDirDestroy.
