(* ===== verification/PageDirProps.v ===== *)
(** * userprog/pagedir.c: mappings *)

From S2P Require Import Prelude Bytes CString CStringFacts Bitmap VAddr Ram Palloc PageDir PageDirFacts.
Import Bytes CString CStringFacts VAddr Ram Palloc PageDir PageDirFacts PageDirDestroy.

Module PageDirProps.

Lemma lookup_found s pd T va pt c : dir_ok s pd T -> user_addr va -> T !! pd_no va = Some pt -> lookup_page pd va c s = Ok (pt + 4 * pt_no va, s).
Proof.
  intros Hd Hva E. destruct (index_range va Hva) as [Hi Hk]. destruct (kernel_page_addr s pd (dir_phys _ _ _ Hd) (dir_page _ _ _ Hd)) as (H1 & H2 & H3 & Hm).
  destruct (dir_table _ _ _ Hd _ _ E) as (_ & Hpt & _). destruct (kernel_page_addr s pt (dir_phys _ _ _ Hd) Hpt) as (P1 & P2 & P3 & _).
  unfold lookup_page. rewrite (proj2 (Z.eqb_neq pd 0)) by (unfold PHYS_BASE in H1; lia). erewrite bind_eq; [|reflexivity].
  unfold is_user_vaddr. rewrite (proj2 (Z.ltb_lt va PHYS_BASE)), orb_true_r by apply Hva. erewrite bind_eq; [|reflexivity].
  erewrite bind_eq; [|apply load_entry_run; intros x Hx; apply Hm; lia]. rewrite (dir_entry _ _ _ Hd), E by done.
  rewrite (proj2 (Z.eqb_neq _ 0)) by lia. unfold entry_address. by rewrite pde_get_pt_run.
Qed.

(** What looking up an address for a new mapping does. *)
Lemma lookup_create s pd T va : dir_ok s pd T -> user_addr va ->
  (exists s' T' pt, lookup_page pd va true s = Ok (pt + 4 * pt_no va, s') /\ dir_ok s' pd T' /\ T' !! pd_no va = Some pt /\
     (init_page_dir s' = init_page_dir s /\ user_pool (vphys s') = user_pool (vphys s)) /\ (forall va', user_addr va' -> pte_of s' T' va' = pte_of s T va') /\
     (forall x, outside pd T' x -> vram s' !! x = vram s !! x)) \/
  (no_room (kernel_pool (vphys s)) 1 /\ lookup_page pd va true s = Ok (0, s)).
Proof.
  intros Hd Hva. destruct (T !! pd_no va) as [pt|] eqn:E.
  - left. exists s, T, pt. split; [by apply (lookup_found s pd T)|]. done.
  - destruct (new_table_run s pd T va Hd Hva E) as [(s' & pt & E' & Hd' & Ei & Hp & Ho)|Hno]; [left|by right].
    exists s', (<[pd_no va := pt]> T), pt. split; [done|]. split; [done|]. split; [apply lookup_insert_eq|]. done.
Qed.

(** ** Bits of entries *)

Lemma high_bits v v' : (forall n, 12 <= n -> Z.testbit v n = Z.testbit v' n) -> v / 4096 = v' / 4096.
Proof.
  intros Hb. change 4096 with (2 ^ 12). rewrite <- !Z.shiftr_div_pow2 by done. apply Z.bits_inj'. intros n Hn. rewrite !Z.shiftr_spec by done. apply Hb. lia.
Qed.
Lemma clear_bits v k n : is_word v -> 0 <= k < 32 -> 0 <= n -> Z.testbit (Z.land v (u32 (Z.lnot (2 ^ k)))) n = negb (n =? k) && Z.testbit v n.
Proof.
  intros Hv Hk Hn. rewrite Z.land_spec, testbit_wrapu, Z.lnot_spec, Z.pow2_bits_eqb by lia. rewrite (Z.eqb_sym k n).
  destruct (Z.ltb_spec n 32); [cbn [andb]; apply andb_comm|]. rewrite (testbit_high 32 v n Hv) by lia. cbn [andb]. symmetry. apply andb_false_r.
Qed.
Lemma set_bits v k n : 0 <= k -> 0 <= n -> Z.testbit (Z.lor v (2 ^ k)) n = (n =? k) || Z.testbit v n.
Proof. intros Hk Hn. rewrite Z.lor_spec, Z.pow2_bits_eqb by lia. rewrite (Z.eqb_sym k n). apply orb_comm. Qed.

(** Flags change neither the page nor, unless it is bit 0, whether the entry is present. *)
Lemma translate_flags v v' va : (forall n, n = 0 \/ 12 <= n -> Z.testbit v' n = Z.testbit v n) -> translate v' va = translate v va.
Proof. intros Hb. unfold translate. rewrite (Hb 0) by lia. by rewrite (high_bits v' v) by (intros n Hn; apply Hb; lia). Qed.

(** ** Setting and clearing *)

Definition same_page (va va' : Z) : bool := va / 4096 =? va' / 4096.
Lemma pte_of_page s T va va' : same_page va va' = true -> pte_of s T va = pte_of s T va'.
Proof.
  intros E%Z.eqb_eq. unfold pte_of. assert (pd_no va = pd_no va' /\ pt_no va = pt_no va') as [-> ->]; [|done].
  rewrite !pd_no_div, !pt_no_div, E. split; [|done]. change 4194304 with (4096 * 1024). rewrite <- !Z.div_div by done. by rewrite E.
Qed.

Lemma set_page_run n s pd T upage kpage w :
  dir_ok s pd T -> pd <> init_page_dir s -> user_addr upage -> upage mod 4096 = 0 ->
  PHYS_BASE <= kpage -> kpage mod 4096 = 0 -> (kpage - PHYS_BASE) / 4096 < n <= 2 ^ 18 -> Z.testbit (pte_of s T upage) 0 = false ->
  (exists s' T', pagedir_set_page n pd upage kpage w s = Ok (true, s') /\ dir_ok s' pd T' /\
     (forall va, user_addr va -> translate (pte_of s' T' va) va = if same_page va upage then kpage + va mod 4096 else translate (pte_of s T va) va) /\
     (forall x, outside pd T' x -> vram s' !! x = vram s !! x) /\
     init_page_dir s' = init_page_dir s /\ user_pool (vphys s') = user_pool (vphys s) /\
     (forall va, user_addr va -> pte_of s' T' va = if same_page va upage then kpage - PHYS_BASE + (if w then 7 else 5) else pte_of s T va)) \/
  (no_room (kernel_pool (vphys s)) 1 /\ pagedir_set_page n pd upage kpage w s = Ok (false, s)).
Proof.
  intros Hd Hni Hu Hua Hk Hka Hn Hnp. unfold pagedir_set_page, is_user_vaddr, vtop, is_kernel_vaddr, PTSHIFT, PGBITS. rewrite !pg_ofs_mod, Hua, Hka.
  do 2 (erewrite bind_eq; [|reflexivity]). rewrite (proj2 (Z.ltb_lt upage PHYS_BASE)) by apply Hu. erewrite bind_eq; [|reflexivity].
  rewrite (proj2 (Z.geb_le _ _)) by done. erewrite bind_eq; [|reflexivity]. rewrite Z.shiftr_div_pow2 by done. change (2 ^ 12) with 4096.
  rewrite (proj2 (Z.ltb_lt _ _)) by lia. erewrite bind_eq; [|reflexivity]. unfold gets. erewrite bind_eq; [|reflexivity].
  rewrite (proj2 (Z.eqb_neq pd _)) by done. erewrite bind_eq; [|reflexivity].
  destruct (lookup_create s pd T upage Hd Hu) as [(s1 & T' & pt & E & Hd1 & Ept & [Ei1 Eu1] & Hp1 & Ho1)|[Hno E]].
  2: { right. split; [done|]. by erewrite bind_eq; [|exact E]. }
  left. erewrite bind_eq; [|exact E]. destruct (pte_addr_some s1 pd T' upage pt Hd1 Hu Ept) as (Ea & Hne & Hm & _ & _ & Er). rewrite Ea in Hne.
  rewrite (proj2 (Z.eqb_neq _ 0) Hne). cbn [negb]. erewrite bind_eq; [|by apply load_entry_run]. rewrite Er, Hp1 by done.
  pose proof (odd_bit (pte_of s T upage)) as Eob. rewrite Hnp in Eob. apply negb_false_iff in Eob. rewrite Eob. erewrite bind_eq; [|reflexivity].
  rewrite pte_create_user_run by done. erewrite bind_eq; [|reflexivity].
  set (f := if w then 7 else 5). set (v := kpage - PHYS_BASE + f). assert (0 <= f < 4096 /\ Z.odd f = true) as [Hf Hodd] by (by destruct w).
  assert (kpage < 2 ^ 32 /\ (kpage - PHYS_BASE) mod 4096 = 0) as [Hk32 Hkm].
  { split; [|unfold PHYS_BASE; by rewrite Zminus_mod, Hka]. unfold PHYS_BASE in *. pose proof (Z.div_mod (kpage - 3221225472) 4096 ltac:(done)).
    pose proof (Z.mod_pos_bound (kpage - 3221225472) 4096 ltac:(done)). lia. }
  assert (4096 * (v / 4096) = kpage - PHYS_BASE) as Epage by (by apply page_div).
  assert (Z.testbit v 0 = true) as Hb0.
  { unfold v. apply Z.div_exact in Hkm; [|done]. rewrite Z.bit0_odd, Z.odd_add, Hodd. rewrite Hkm, Z.odd_mul. done. }
  assert (kpage - PHYS_BASE < 2 ^ 30) as Hlt. { pose proof (Z.div_mod (kpage - PHYS_BASE) 4096 ltac:(done)). lia. }
  destruct (store_pte_run s1 pd T' upage pt v Hd1 Hu Ept) as (m & Es & Hd2 & Ev & Hoth & Hout); [unfold is_word, v; lia|intros _; lia|].
  exists (set_vram m s1), T'. split; [by erewrite bind_eq; [|exact Es]|]. split; [done|]. split.
  - intros va Hva. destruct (same_page va upage) eqn:Epg; [|apply Z.eqb_neq in Epg; rewrite Hoth, Hp1 by done; done].
    rewrite (pte_of_page _ _ va upage Epg), Ev. unfold translate. rewrite Hb0, Epage. lia.
  - split; [intros x Hx; rewrite <- Ho1 by done; by apply Hout|]. do 2 (split; [done|]). intros va Hva.
    destruct (same_page va upage) eqn:Epg; [by rewrite (pte_of_page _ _ va upage Epg)|]. apply Z.eqb_neq in Epg. by rewrite Hoth, Hp1.
Qed.

Lemma activate_run s pd : PHYS_BASE <= pd -> pagedir_activate pd s = Ok (tt, {| vphys := vphys s; init_page_dir := init_page_dir s; cr3 := pd - PHYS_BASE |}).
Proof.
  intros Hpd. unfold pagedir_activate, gets, vtop, is_kernel_vaddr. erewrite bind_eq; [|reflexivity].
  rewrite (proj2 (Z.eqb_neq pd 0)) by (unfold PHYS_BASE in Hpd; lia). rewrite (proj2 (Z.geb_le _ _)) by done. done.
Qed.
(** Re-activating the active directory changes nothing but the cache of the processor. *)
Lemma invalidate_run s pd : PHYS_BASE <= pd -> 0 <= cr3 s < 2 ^ 30 -> invalidate_pagedir pd s = Ok (tt, s).
Proof.
  intros Hpd Hc. unfold invalidate_pagedir, active_pd, gets, ptov. erewrite bind_eq; [|erewrite bind_eq; [|reflexivity]; rewrite (proj2 (Z.ltb_lt _ _)) by (unfold PHYS_BASE; lia); reflexivity].
  destruct (Z.eqb_spec (u32 (cr3 s + PHYS_BASE)) pd) as [E|]; [|done]. rewrite activate_run by done.
  rewrite wrapu_small in E by (unfold PHYS_BASE; lia). destruct s as [p i c]. cbn in *. do 3 f_equal. lia.
Qed.

Lemma clear_page_run s pd T upage : dir_ok s pd T -> user_addr upage -> upage mod 4096 = 0 ->
  exists s', pagedir_clear_page pd upage s = Ok (tt, s') /\ dir_ok s' pd T /\
    (forall va, user_addr va -> translate (pte_of s' T va) va = if same_page va upage then 0 else translate (pte_of s T va) va) /\
    (forall x, outside pd T x -> vram s' !! x = vram s !! x).
Proof.
  intros Hd Hu Hua. unfold pagedir_clear_page, is_user_vaddr. rewrite pg_ofs_mod, Hua. erewrite bind_eq; [|reflexivity].
  rewrite (proj2 (Z.ltb_lt upage PHYS_BASE)) by apply Hu. erewrite bind_eq; [|reflexivity]. erewrite bind_eq; [|by apply (lookup_page_run s pd T)].
  assert (Z.testbit (pte_of s T upage) 0 = false -> forall va, user_addr va -> translate (pte_of s T va) va = if same_page va upage then 0 else translate (pte_of s T va) va) as Hnone.
  { intros Hb va Hva. destruct (same_page va upage) eqn:Ep; [|done]. rewrite (pte_of_page _ _ va upage Ep). unfold translate. by rewrite Hb. }
  destruct (T !! pd_no upage) as [pt|] eqn:Ept.
  2: { unfold pte_addr. rewrite Ept. cbn. exists s. split; [done|]. split; [done|]. split; [|done]. apply Hnone. unfold pte_of. by rewrite Ept. }
  destruct (pte_addr_some s pd T upage pt Hd Hu Ept) as (Ea & Hne & Hm & Hw & Hok & Er). rewrite (proj2 (Z.eqb_neq _ 0) Hne), Ea. cbn [negb].
  erewrite bind_eq; [|by apply load_entry_run]. rewrite Er, odd_bit. destruct (Z.testbit (pte_of s T upage) 0) eqn:Eb; [|by exists s; auto].
  change PTE_P with (2 ^ 0). set (v := Z.land (pte_of s T upage) (u32 (Z.lnot (2 ^ 0)))).
  assert (Z.testbit v 0 = false) as Hb0 by (unfold v; by rewrite clear_bits by (done || lia)).
  destruct (store_pte_run s pd T upage pt v Hd Hu Ept) as (m & Es & Hd2 & Ev & Hoth & Hout); [apply (land_range 32); [lia|apply Hw]|intros Hbad; congruence|].
  exists (set_vram m s). destruct (kernel_page_addr s pd (dir_phys _ _ _ Hd) (dir_page _ _ _ Hd)) as (H1 & _).
  split; [erewrite bind_eq; [|exact Es]; by apply invalidate_run; [|apply Hd]|]. split; [done|]. split; [|exact Hout].
  intros va Hva. destruct (same_page va upage) eqn:Ep.
  - rewrite (pte_of_page _ _ va upage Ep), Ev. unfold translate. by rewrite Hb0.
  - rewrite Hoth; [done|done|]. by apply Z.eqb_neq in Ep.
Qed.

(** ** Flags *)

Lemma flag_bit w k : 0 <= k -> negb (Z.land w (2 ^ k) =? 0) = Z.testbit w k.
Proof.
  intros Hk. destruct (Z.testbit w k) eqn:E.
  - apply negb_true_iff, Z.eqb_neq. intros E'. assert (Z.testbit (Z.land w (2 ^ k)) k = true) as Hb by (by rewrite Z.land_spec, E, Z.pow2_bits_true).
    by rewrite E', Z.bits_0 in Hb.
  - apply negb_false_iff, Z.eqb_eq, Z.bits_inj'. intros n Hn. rewrite Z.land_spec, Z.pow2_bits_eqb, Z.bits_0 by done.
    destruct (Z.eqb_spec k n) as [<-|]; [by rewrite E|apply andb_false_r].
Qed.
Lemma test_flag_run s pd T va k : dir_ok s pd T -> user_addr va -> 0 <= k -> test_flag (2 ^ k) pd va s = Ok (Z.testbit (pte_of s T va) k, s).
Proof.
  intros Hd Hva Hk. unfold test_flag. erewrite bind_eq; [|by apply (lookup_page_run s pd T)]. destruct (T !! pd_no va) as [pt|] eqn:Ept.
  - destruct (pte_addr_some s pd T va pt Hd Hva Ept) as (Ea & Hne & Hm & Hw & Hok & Er). rewrite (proj2 (Z.eqb_neq _ 0) Hne), Ea. cbn [negb].
    erewrite bind_eq; [|by apply load_entry_run]. by rewrite Er, flag_bit.
  - unfold pte_addr, pte_of. rewrite Ept. cbn. by rewrite Z.bits_0.
Qed.
Lemma change_flag_run s pd T va k on : dir_ok s pd T -> user_addr va -> 1 <= k < 12 ->
  exists s', change_flag (2 ^ k) pd va on s = Ok (tt, s') /\ dir_ok s' pd T /\
    (is_Some (T !! pd_no va) -> Z.testbit (pte_of s' T va) k = on) /\
    (forall va', user_addr va' -> translate (pte_of s' T va') va' = translate (pte_of s T va') va') /\
    (forall va' n, user_addr va' -> same_page va' va = false -> Z.testbit (pte_of s' T va') n = Z.testbit (pte_of s T va') n).
Proof.
  intros Hd Hva Hk. unfold change_flag. erewrite bind_eq; [|by apply (lookup_page_run s pd T)]. destruct (T !! pd_no va) as [pt|] eqn:Ept.
  2: { unfold pte_addr. rewrite Ept. exists s. split; [done|]. split; [done|]. split; [by intros []|done]. }
  destruct (pte_addr_some s pd T va pt Hd Hva Ept) as (Ea & Hne & Hm & Hw & Hok & Er). rewrite (proj2 (Z.eqb_neq _ 0) Hne), Ea. cbn [negb].
  erewrite bind_eq; [|by apply load_entry_run]. rewrite Er. set (w := pte_of s T va) in *.
  set (v := if on then Z.lor w (2 ^ k) else Z.land w (u32 (Z.lnot (2 ^ k)))).
  assert (0 < 2 ^ k < 2 ^ 32) as Hpow by (split; [lia|apply Z.pow_lt_mono_r; lia]).
  assert (forall n, 0 <= n -> Z.testbit v n = if n =? k then on else Z.testbit w n) as Hbits.
  { intros n Hn. unfold v. destruct on; [rewrite set_bits by lia|rewrite clear_bits by (done || lia)]; by destruct (n =? k). }
  assert (forall va', translate v va' = translate w va') as Htr.
  { intros va'. apply translate_flags. intros n Hn. rewrite Hbits by lia. by rewrite (proj2 (Z.eqb_neq n k)) by lia. }
  assert (is_word v) as Hvw by (unfold v; destruct on; [apply (lor_range 32); [lia|apply Hw|lia]|apply (land_range 32); [lia|apply Hw]]).
  assert (pte_ok v) as Hvok.
  { intros Hb. rewrite Hbits in Hb by lia. rewrite (proj2 (Z.eqb_neq 0 k)) in Hb by lia. specialize (Hok Hb).
    assert (v / 4096 = w / 4096) as ->; [|exact Hok]. apply high_bits. intros n Hn. rewrite Hbits by lia. by rewrite (proj2 (Z.eqb_neq n k)) by lia. }
  destruct (store_pte_run s pd T va pt v Hd Hva Ept Hvw Hvok) as (m & Es & Hd2 & Ev & Hoth & _).
  destruct (kernel_page_addr s pd (dir_phys _ _ _ Hd) (dir_page _ _ _ Hd)) as (H1 & _).
  exists (set_vram m s). split; [|split; [done|split; [|split]]].
  - unfold v in Es. destruct on; [exact Es|]. erewrite bind_eq; [|exact Es]. apply invalidate_run; [done|apply Hd].
  - intros _. rewrite Ev, Hbits by lia. by rewrite Z.eqb_refl.
  - intros va' Hva'. destruct (same_page va' va) eqn:Ep; [rewrite !(pte_of_page _ _ va' va Ep), Ev; apply Htr|]. apply Z.eqb_neq in Ep. by rewrite Hoth.
  - intros va' n Hva' Ep. apply Z.eqb_neq in Ep. by rewrite Hoth.
Qed.

(** ** Creation *)

Lemma pagedir_create_run s : phys_ok (vphys s) -> ram_bytes (vram s) -> kernel_page s (init_page_dir s) -> 0 <= cr3 s < 2 ^ 30 ->
  (forall i, 0 <= i < 768 -> read32 (vram s) (init_page_dir s + 4 * i) = 0) ->
  (exists pd p' m, pagedir_create s = Ok (pd, set_vram m (with_vphys p' s)) /\ dir_ok (set_vram m (with_vphys p' s)) pd ∅ /\
     fresh_page s pd p' /\ (forall x, 0 <= x < 4096 -> m !! (pd + x) = vram s !! (init_page_dir s + x)) /\ frame (vram s) m pd 4096) \/
  (no_room (kernel_pool (vphys s)) 1 /\ pagedir_create s = Ok (0, s)).
Proof.
  intros Hp Hby Hin Hc Hz. unfold pagedir_create. destruct (kernel_page_run s 0 Hp eq_refl eq_refl) as [(pd & p' & E & Hf & Er)|[Hno E]].
  2: { right. split; [done|]. erewrite bind_eq; [|apply on_phys_run; exact E]. cbn. by destruct s. }
  left. change (has 0 PAL_ZERO) with false in Er. cbn beta iota in Er. pose proof (fp_phys _ _ _ Hf) as Hp'. pose proof (fp_page _ _ _ Hf) as Hpd.
  destruct (fp_old _ _ _ Hf _ Hin) as [Hin' Hne]. set (s1 := with_vphys p' s) in *.
  destruct (kernel_page_addr s1 pd Hp' Hpd) as (P1 & P2 & P3 & Pm). destruct (kernel_page_addr s1 _ Hp' Hin') as (I1 & _ & _ & Im). unfold PHYS_BASE in P1, I1.
  destruct (memcpy_run (vram s1) pd (init_page_dir s) 4096) as (m & Em & Cm); [lia|lia|lia|done|done|destruct (pages_apart s1 _ _ Hin' Hpd Hne); lia|].
  pose proof (copied_frame _ _ _ _ _ Cm Im) as Fm. change (vram s1) with (ram p') in *. rewrite Er in Cm, Fm.
  assert (forall x, 0 <= x < 4096 -> m !! (pd + x) = vram s !! (init_page_dir s + x)) as Hcopy.
  { intros x Hx. rewrite Cm. rewrite (proj2 (Z.leb_le pd (pd + x))), (proj2 (Z.ltb_lt (pd + x) (pd + 4096))) by lia. cbn [andb]. f_equal. lia. }
  exists pd, p', m. split; [|split; [|done]].
  - erewrite bind_eq; [|apply on_phys_run; exact E]. rewrite (proj2 (Z.eqb_neq pd 0)) by lia. cbn [negb]. unfold gets. erewrite bind_eq; [|reflexivity].
    fold (with_vphys p' s). fold s1. erewrite bind_eq; [|apply on_ram_run; exact Em]. done.
  - split; [apply (phys_frame p' m pd 4096 Hp'); by rewrite Er| |exact Hpd| | | | |exact Hc].
    + intros x v Hx. change (vram (set_vram m s1)) with m in Hx. destruct (decide (pd <= x < pd + 4096)).
      * replace x with (pd + (x - pd)) in Hx by lia. rewrite Hcopy in Hx by lia. by apply (Hby _ _ Hx).
      * rewrite (proj1 Fm) in Hx by done. by apply (Hby _ _ Hx).
    + intros i Hi. rewrite lookup_empty, <- (Hz i Hi). change (vram (set_vram m s1)) with m. unfold read32, byte_at. rewrite <- !Z.add_assoc, !Hcopy by lia. by rewrite !Z.add_assoc.
    + intros i pt Hi. by rewrite lookup_empty in Hi.
    + intros i i' pt Hi. by rewrite lookup_empty in Hi.
    + intros i pt k Hi. by rewrite lookup_empty in Hi.
Qed.

(** ** Main properties *)

(** C11: in a well-formed page directory, [pagedir_set_page] of a user page that is not mapped
    either changes nothing and returns false, because the kernel pool is full, or makes
    [pagedir_get_page] map every address of the page to the same offset in the kernel page
    and every other user address as before; no memory outside the directory and its tables
    changes.  [pagedir_clear_page] then makes the page unmapped again, everything else staying
    as it is. *)
Theorem pagedir_set_get_clear n s pd T upage kpage w :
  dir_ok s pd T -> pd <> init_page_dir s -> user_addr upage -> upage mod 4096 = 0 ->
  PHYS_BASE <= kpage -> kpage mod 4096 = 0 -> (kpage - PHYS_BASE) / 4096 < n <= 2 ^ 18 -> pagedir_get_page pd upage s = Ok (0, s) ->
  (no_room (kernel_pool (vphys s)) 1 /\ pagedir_set_page n pd upage kpage w s = Ok (false, s)) \/
  exists s' T' s'', pagedir_set_page n pd upage kpage w s = Ok (true, s') /\ dir_ok s' pd T' /\
    pagedir_clear_page pd upage s' = Ok (tt, s'') /\ dir_ok s'' pd T' /\
    (forall x, outside pd T' x -> vram s' !! x = vram s !! x /\ vram s'' !! x = vram s !! x) /\
    forall va r, user_addr va -> pagedir_get_page pd va s = Ok (r, s) ->
      pagedir_get_page pd va s' = Ok (if same_page va upage then kpage + va mod 4096 else r, s') /\
      pagedir_get_page pd va s'' = Ok (if same_page va upage then 0 else r, s'').
Proof.
  intros Hd Hni Hu Hua Hk Hka Hn Hg. rewrite (pagedir_get_page_run s pd T) in Hg by done. injection Hg as Hg.
  assert (Z.testbit (pte_of s T upage) 0 = false) as Hnp.
  { unfold translate in Hg. destruct (Z.testbit (pte_of s T upage) 0) eqn:Eb; [|done]. exfalso. rewrite Hua in Hg. unfold PHYS_BASE in Hg.
    assert (0 <= pte_of s T upage / 4096); [|lia]. apply Z.div_pos; [|lia]. unfold pte_of. destruct (T !! pd_no upage); [|done]. apply read32_word, Hd. }
  destruct (set_page_run n s pd T upage kpage w Hd Hni Hu Hua Hk Hka Hn Hnp) as [(s' & T' & E & Hd' & Ht & Ho & _)|Hno]; [right|by left].
  destruct (clear_page_run s' pd T' upage Hd' Hu Hua) as (s'' & E' & Hd'' & Ht' & Ho'). exists s', T', s''. split_and!; try done.
  - intros x Hx. split; [by apply Ho|]. by rewrite Ho', Ho.
  - intros va r Hva Er. rewrite (pagedir_get_page_run s pd T) in Er by done. injection Er as <-. split.
    + by rewrite (pagedir_get_page_run s' pd T'), Ht.
    + rewrite (pagedir_get_page_run s'' pd T'), Ht', Ht by done. by destruct (same_page va upage).
Qed.

(** destroying a page directory whose entries refer to different pages of the user pool
    runs without fault and makes exactly those pages, the page tables and the directory
    unused again: every other page of both pools keeps its mark, and no byte outside the
    freed pages changes. *)
Theorem pagedir_destroy_frees s pd T : dir_ok s pd T -> owns_pages s T -> pd <> init_page_dir s ->
  exists s', pagedir_destroy pd s = Ok (tt, s') /\ phys_ok (vphys s') /\
    (forall (user : bool) j, 0 <= j -> Bitmap.bit (used_map (pool_of user (vphys s'))) j =
      (Bitmap.bit (used_map (pool_of user (vphys s))) j &&
       bool_decide (base (pool_of user (vphys s)) + 4096 * j ∉ (if user then data (vram s) T 768 0 else tables T 768 0 ++ [pd])))) /\
    (forall x, not_in (data (vram s) T 768 0 ++ tables T 768 0 ++ [pd]) x -> vram s' !! x = vram s !! x).
Proof.
  intros Hd Ho Hne. destruct (pagedir_destroy_run s pd T Hd Ho Hne) as (s' & E & [F1 F2 F3 F4 F5 F6]). exists s'. split; [exact E|]. split; [exact F1|]. split; [exact F3|exact F4].
Qed.

(** ** A directory *)

Lemma room s (x y : Z) : phys_ok (vphys s) -> Bitmap.bit_cnt (used_map (kernel_pool (vphys s))) = 3 -> (forall a, kernel_page s a -> a = x \/ a = y) ->
  ~ no_room (kernel_pool (vphys s)) 1.
Proof.
  intros Hp Hc Hall Hno. set (b := base (kernel_pool (vphys s))).
  assert (exists j, 0 <= j < 3 /\ b + 4096 * j <> x /\ b + 4096 * j <> y) as (j & Hj & Hx & Hy).
  { destruct (decide (b <> x /\ b <> y)); [exists 0; lia|]. destruct (decide (b + 4096 <> x /\ b + 4096 <> y)); [exists 1; lia|]. exists 2. lia. }
  apply (Hno j); [lia|lia|]. intros t Ht. replace t with j by lia. destruct (Bitmap.bit (used_map (kernel_pool (vphys s))) j) eqn:E; [|done].
  destruct (Hall (b + 4096 * j)); [exists j; split; [done|]; split; [lia|done]|done|done].
Qed.
Lemma sample_dir : exists s pd, dir_ok s pd ∅ /\ pd <> init_page_dir s /\ ~ no_room (kernel_pool (vphys s)) 1 /\ ~ no_room (user_pool (vphys s)) 1.
Proof.
  destruct (palloc_init_run 264 100 sample_ram [5] [6]) as (ph & E & Hs & Hall & Er & Ec & Eu); [lia|lia| | |apply ram_of_mapped|].
  1, 2: split_and!; [vm_compute; discriminate|reflexivity|repeat constructor; vm_compute; done].
  change (kernel_share 264 100 - map_pages (kernel_share 264 100)) with 3 in Ec. change (user_share 264 100 - map_pages (user_share 264 100)) with 3 in Eu. clear E.
  assert (~ no_room (user_pool ph) 1) as Hur.
  { intros Hno. apply (Hno 0); [lia|lia|]. intros j Hj. apply (Hall true j). cbn [pool_of]. lia. }
  set (s0 := {| vphys := ph; init_page_dir := 0; cr3 := 0 |}).
  assert (forall a, ~ kernel_page s0 a) as Hnone.
  { intros a (j & -> & Hj & Hb). cbn [vphys s0] in *. pose proof (Hall false j) as Hf. cbn [pool_of] in Hf. rewrite Hf in Hb by lia. done. }
  assert (ram_bytes (vram s0)) as Hby0.
  { unfold vram. cbn [vphys s0]. rewrite Er. apply ram_of_bytes. by split. }
  clear Er.
  destruct (kernel_page_run s0 PAL_ZERO Hs eq_refl eq_refl) as [(ip & p1 & _ & F1 & Hz)|[Hno _]]; [|exfalso; by apply (room s0 0 0 Hs Ec); [intros a Ha; by apply Hnone in Ha|]].
  set (s1 := {| vphys := p1; init_page_dir := ip; cr3 := 0 |}). destruct F1 as [Hp1 [_ Ec1] Hip _ Honly Hf Eu1]. change (has PAL_ZERO PAL_ZERO) with true in Hz. cbn beta iota in Hz.
  assert (ram_bytes (vram s1)) as Hby1.
  { apply (bytes_frame (vram s0) (ram p1) ip (replicate (Z.to_nat 4096) 0) Hby0); [rewrite length_replicate; exact Hf|exact Hz|by apply Forall_replicate]. }
  assert (forall a, kernel_page s1 a -> a = ip) as Hone by (intros a Ha; destruct (Honly a Ha) as [H|H]; [by apply Hnone in H|done]).
  destruct (pagedir_create_run s1 Hp1 Hby1 Hip) as [(pd & p2 & m & _ & Hd & F2 & _)|[Hno _]]; [cbn; lia| | |].
  - intros i Hi. apply (read32_zero _ _ _ _ Hz); lia.
  - exists (set_vram m (with_vphys p2 s1)), pd. split; [done|]. destruct F2 as [Hp2 [_ Ec2] _ Hold2 Honly2 _ Eu2]. destruct (Hold2 ip Hip) as [_ Hne]. split; [cbn; congruence|]. split; [|change (~ no_room (user_pool p2) 1); rewrite Eu2; change (~ no_room (user_pool p1) 1); by rewrite Eu1].
    apply (room _ ip pd); [apply Hd|exact (eq_trans Ec2 (eq_trans Ec1 Ec))|]. intros a Ha. destruct (Honly2 a Ha) as [H|H]; [left; by apply Hone|by right].
  - exfalso. apply (room s1 ip ip Hp1); [exact (eq_trans Ec1 Ec)|intros a Ha; left; by apply Hone|done].
Qed.

Lemma pagedir_set_get_clear_witness : exists s pd s', pagedir_set_page 264 pd 134512640 (PHYS_BASE + 1052 * 1024) true s = Ok (true, s') /\
  pagedir_get_page pd (134512640 + 17) s' = Ok (PHYS_BASE + 1052 * 1024 + 17, s').
Proof.
  destruct sample_dir as (s & pd & Hd & Hni & Hroom & _). exists s, pd.
  assert (forall va, user_addr va -> pagedir_get_page pd va s = Ok (0, s)) as Hg.
  { intros va Hva. rewrite (pagedir_get_page_run s pd ∅) by done. unfold pte_of. by rewrite lookup_empty. }
  destruct (pagedir_set_get_clear 264 s pd ∅ 134512640 (PHYS_BASE + 1052 * 1024) true Hd Hni) as [[Hno _]|(s' & T' & s'' & E & _ & _ & _ & _ & H)].
  - split; reflexivity || discriminate.
  - reflexivity.
  - discriminate.
  - reflexivity.
  - split; [reflexivity|discriminate].
  - apply Hg. split; reflexivity || discriminate.
  - exfalso. exact (Hroom Hno).
  - exists s'. split; [exact E|]. destruct (H (134512640 + 17) 0) as [H1 _]; [split; reflexivity || discriminate|apply Hg; split; reflexivity || discriminate|exact H1].
Defined.

Lemma tables_empty n i : tables ∅ n i = [].
Proof. revert i. induction n as [|n IH]; intros i; [done|]. cbn [tables]. by rewrite lookup_empty, IH. Qed.
Lemma data_empty m n i : data m ∅ n i = [].
Proof. revert i. induction n as [|n IH]; intros i; [done|]. cbn [data]. by rewrite lookup_empty, IH. Qed.
Lemma pagedir_destroy_frees_witness : exists s pd s', dir_ok s pd ∅ /\ pagedir_destroy pd s = Ok (tt, s') /\ phys_ok (vphys s').
Proof.
  destruct sample_dir as (s & pd & Hd & Hni & _). destruct (pagedir_destroy_frees s pd ∅ Hd) as (s' & E & Hp & _); [|exact Hni|].
  - unfold owns_pages. rewrite data_empty. split; [constructor|intros f Hf; by apply not_elem_of_nil in Hf].
  - exists s, pd, s'. split; [exact Hd|]. split; [exact E|exact Hp].
Defined.

End PageDirProps.
