(* ===== verification/KernelMap.v ===== *)
(** * threads/init.c: the page directory of the kernel

    [paging_init] maps the whole physical memory at [PHYS_BASE], the text of the kernel
    without write permission.  The addresses of the text and the number of pages are
    parameters.  A translation follows the two levels of tables as the processor does. *)

From S2P Require Import Prelude Bytes CString CStringFacts Bitmap VAddr Ram Palloc PageDir PageDirFacts PageDirProps.
Import Bytes CString CStringFacts VAddr Ram Palloc PageDir PageDirFacts PageDirProps.

Module KernelMap.
Import Bitmap (bit_cnt, bit, all_are).

Section paging.
Context (init_ram_pages _start _end_kernel_text : Z).

Definition in_kernel_text (vaddr : Z) : bool := (_start <=? vaddr) && (vaddr <? _end_kernel_text).

(** [n] more pages, from [page] on; [pt] is the page table in use. *)
Fixpoint paging_loop (n : nat) (page pd pt : Z) : M vm unit :=
  match n with
  | O => ret tt
  | S n =>
      let paddr := u32 (page * PGSIZE) in
      let! vaddr := lift (ptov paddr) in
      let pde := pd + 4 * pd_no vaddr in
      let! v := load_entry pde in
      let! pt := (if v =? 0 then
                    let! pt := on_phys (palloc_get_page (Z.lor PAL_ASSERT PAL_ZERO)) in
                    let! e := lift (pde_create pt) in
                    do! store_entry pde e;
                    ret pt
                  else ret pt) in
      let! e := lift (pte_create_kernel vaddr (negb (in_kernel_text vaddr))) in
      do! store_entry (pt + 4 * pt_no vaddr) e;
      paging_loop n (page + 1) pd pt
  end.
Definition set_init_page_dir (pd : Z) : M vm unit :=
  modify (fun s => {| vphys := vphys s; init_page_dir := pd; cr3 := cr3 s |}).
Definition paging_init : M vm unit :=
  let! pd := on_phys (palloc_get_page (Z.lor PAL_ASSERT PAL_ZERO)) in
  do! set_init_page_dir pd;
  do! paging_loop (Z.to_nat init_ram_pages) 0 pd 0;
  let! p := lift (vtop pd) in
  set_cr3 p.

(** ** Translation *)

(** The physical address of [va], and whether the page may be written and used by a process. *)
Definition translation (m : mem) (pd va : Z) : option (Z * bool * bool) :=
  let pde := read32 m (pd + 4 * pd_no va) in
  if Z.testbit pde 0 then
    let pte := read32 m (PHYS_BASE + 4096 * (pde / 4096) + 4 * pt_no va) in
    if Z.testbit pte 0 then
      Some (4096 * (pte / 4096) + va mod 4096, Z.testbit pde 1 && Z.testbit pte 1, Z.testbit pde 2 && Z.testbit pte 2)
    else None
  else None.

(** ** Free pages *)

Definition free_page (s : vm) (a : Z) : Prop :=
  exists j, a = base (kernel_pool (vphys s)) + 4096 * j /\ 0 <= j < bit_cnt (used_map (kernel_pool (vphys s))) /\ bit (used_map (kernel_pool (vphys s))) j = false.
(** At least [n] of them. *)
Definition free_pages (s : vm) (n : Z) : Prop := exists l, NoDup l /\ Z.of_nat (length l) = n /\ Forall (free_page s) l.

Lemma free_pages_room s n : 0 < n -> free_pages s n -> ~ no_room (kernel_pool (vphys s)) 1.
Proof.
  intros Hn ([|a l] & _ & Hl & Hf) Hno; [cbn in Hl; lia|]. apply Forall_cons in Hf as [(j & _ & Hj & Hb) _].
  apply (Hno j); [lia|lia|]. intros k Hk. by replace k with j by lia.
Qed.
Lemma free_pages_fresh s pt p' n : fresh_page s pt p' -> free_pages s (n + 1) -> 0 <= n -> free_pages (with_vphys p' s) n.
Proof.
  intros [_ [Eb Ec] _ _ Honly _ _] (l & Hd & Hl & Hf) Hn.
  assert (forall a, free_page s a -> a <> pt -> free_page (with_vphys p' s) a) as Hkeep.
  { intros a (j & -> & Hj & Hb) Hne. exists j. cbn [vphys with_vphys]. rewrite Eb, Ec. split; [done|]. split; [done|].
    destruct (bit (used_map (kernel_pool p')) j) eqn:E; [|done]. destruct (Honly (base (kernel_pool (vphys s)) + 4096 * j)) as [(i & Ei & _ & Hi)|]; [|by replace i with j in Hi by lia; congruence|done].
    exists j. cbn [vphys with_vphys]. rewrite Eb, Ec. done. }
  destruct (decide (pt ∈ l)) as [Hin|Hout].
  - apply elem_of_Permutation in Hin as [l' El]. rewrite El in Hd, Hf. apply NoDup_cons in Hd as [Hni Hd]. apply Forall_cons in Hf as [_ Hf].
    exists l'. split; [done|]. split; [rewrite El in Hl; cbn in Hl; lia|]. rewrite Forall_forall in Hf |- *. intros a Ha. apply Hkeep; [by apply Hf|congruence].
  - destruct l as [|a l]; [cbn in Hl; lia|]. exists l. apply NoDup_cons in Hd as [_ Hd]. split; [done|]. split; [cbn in Hl; lia|].
    rewrite Forall_forall in Hf |- *. intros b Hb. apply Hkeep; [apply Hf; by right|]. intros ->. apply Hout. by right.
Qed.

(** ** The directory while it is being filled *)

Definition kernel_pte (p page : Z) : Z := if p <? page then 4096 * p + (if in_kernel_text (PHYS_BASE + 4096 * p) then 1 else 3) else 0.
(** The tables [pts] are entered from entry 768 on, and hold the first [page] pages. *)
Record filled (s : vm) (pd : Z) (pts : list Z) (page : Z) : Prop := {
  fi_phys : phys_ok (vphys s);
  fi_bytes : ram_bytes (vram s);
  fi_pages : Forall (kernel_page s) (pd :: pts);
  fi_nodup : NoDup (pd :: pts);
  fi_pde : forall i, 0 <= i < 1024 ->
    read32 (vram s) (pd + 4 * i) = match (if 768 <=? i then pts !! Z.to_nat (i - 768) else None) with Some q => q - PHYS_BASE + 7 | None => 0 end;
  fi_pte : forall j q k, pts !! j = Some q -> 0 <= k < 1024 -> read32 (vram s) (q + 4 * k) = kernel_pte (Z.of_nat j * 1024 + k) page }.

Lemma store_entry_run s a v : mapped (vram s) a 4 -> is_word v -> ram_bytes (vram s) ->
  exists m, store_entry a v s = Ok (tt, set_vram m s) /\ read32 m a = v /\ frame (vram s) m a 4 /\ ram_bytes m.
Proof.
  intros Hm Hv Hb. destruct (store32_read (vram s) a v Hm Hv Hb) as (m & E & R & F & Hb'). exists m. split; [|done]. by apply on_ram_run.
Qed.

(** A new table behind the others. *)
Lemma filled_table s pd pts page n : filled s pd pts page -> Z.of_nat (length pts) * 1024 = page -> (length pts < 256)%nat ->
  free_pages s (n + 1) -> 0 <= n -> exists s' pt,
  (let! pt := on_phys (palloc_get_page (Z.lor PAL_ASSERT PAL_ZERO)) in
   let! e := lift (pde_create pt) in
   do! store_entry (pd + 4 * (768 + Z.of_nat (length pts))) e; ret pt) s = Ok (pt, s') /\
  filled s' pd (pts ++ [pt]) page /\ free_pages s' n /\ init_page_dir s' = init_page_dir s.
Proof.
  intros [Hp Hb Hpg Hnd Hpde Hpte] Hlen Hlt Hfree Hn.
  destruct (pool_page_run s (Z.lor PAL_ASSERT PAL_ZERO) Hp eq_refl) as [(pt & p' & E & Hf & Hz)|[Hno _]]; [|by apply (free_pages_room s (n + 1)) in Hno; [|lia|]].
  change (has _ PAL_ZERO) with true in Hz. cbn beta iota in Hz. pose proof Hf as [Hp' _ Hpt Hold _ Hframe _].
  assert (Forall (fun a => kernel_page (with_vphys p' s) a /\ a <> pt) (pd :: pts)) as Hpg' by (eapply Forall_impl; [exact Hpg|exact Hold]).
  destruct (kernel_page_addr (with_vphys p' s) _ Hp' Hpt) as (P1 & P2 & P3 & _). apply Forall_cons in Hpg' as HH. destruct HH as [[Hpd Hne] _].
  destruct (kernel_page_addr (with_vphys p' s) _ Hp' Hpd) as (_ & _ & _ & Hm).
  assert (ram_bytes (ram p')) as Hb1.
  { apply (bytes_frame (vram s) _ pt (replicate (Z.to_nat 4096) 0) Hb); [rewrite length_replicate; exact Hframe|exact Hz|by apply Forall_replicate]. }
  destruct (store_entry_run (with_vphys p' s) (pd + 4 * (768 + Z.of_nat (length pts))) (pt - PHYS_BASE + 7)) as (m & Es & Er & F & Hb2);
    [intros x Hx; apply Hm; lia|unfold is_word, PHYS_BASE in *; lia|exact Hb1|].
  pose proof (pages_apart (with_vphys p' s) _ _ Hpd Hpt Hne) as Hap.
  exists (set_vram m (with_vphys p' s)), pt. split; [|split; [|split; [|done]]].
  - erewrite bind_eq; [|apply on_phys_run; exact E]. rewrite pde_create_run by done. unfold lift. erewrite bind_eq; [|reflexivity]. by erewrite bind_eq; [|exact Es].
  - split; [apply (phys_frame _ _ _ _ Hp' F)|exact Hb2| | | |].
    + rewrite app_comm_cons. apply Forall_app. split; [eapply Forall_impl; [exact Hpg'|by intros a [? _]]|by repeat constructor].
    + rewrite app_comm_cons. apply NoDup_app. split; [exact Hnd|]. split; [|apply NoDup_singleton]. intros a Ha Hin. apply list_elem_of_singleton in Hin as ->.
      rewrite Forall_forall in Hpg'. by destruct (Hpg' pt Ha).
    + intros i Hi. change (vram (set_vram m (with_vphys p' s))) with m. destruct (decide (i = 768 + Z.of_nat (length pts))) as [->|Hni].
      * rewrite Er. rewrite (proj2 (Z.leb_le 768 _)) by lia. replace (Z.to_nat (768 + Z.of_nat (length pts) - 768)) with (length pts) by lia. by rewrite list_lookup_middle.
      * rewrite (read32_frame _ _ _ _ _ F) by lia. change (vram (with_vphys p' s)) with (ram p'). rewrite (read32_frame _ _ _ _ _ Hframe) by lia. rewrite Hpde by done.
        destruct (Z.leb_spec 768 i); [|done]. destruct (Nat.lt_ge_cases (Z.to_nat (i - 768)) (length pts)); [by rewrite lookup_app_l|].
        rewrite !lookup_ge_None_2; [done| |lia]. rewrite length_app. cbn [length]. lia.
    + intros j q k Hj Hk. change (vram (set_vram m (with_vphys p' s))) with m. apply lookup_app_Some in Hj as [Hj|[Hj1 Hj2]].
      * assert (q ∈ pd :: pts) as Hq by (right; by apply list_elem_of_lookup_2 in Hj). rewrite Forall_forall in Hpg'. destruct (Hpg' q Hq) as [Hqp Hqn].
        assert (q <> pd) as Hqd. { apply NoDup_cons in Hnd as [Hni _]. intros ->. apply Hni. by apply list_elem_of_lookup_2 in Hj. }
        rewrite (read32_frame _ _ _ _ _ F) by (destruct (pages_apart (with_vphys p' s) _ _ Hqp Hpd Hqd); lia). change (vram (with_vphys p' s)) with (ram p').
        rewrite (read32_frame _ _ _ _ _ Hframe) by (destruct (pages_apart (with_vphys p' s) _ _ Hqp Hpt Hqn); lia). by apply Hpte.
      * apply list_lookup_singleton_Some in Hj2 as [Hj2 <-]. rewrite (read32_frame _ _ _ _ _ F) by lia. change (vram (with_vphys p' s)) with (ram p').
        rewrite (read32_zero _ _ _ _ Hz) by lia. unfold kernel_pte. by destruct (Z.ltb_spec (Z.of_nat j * 1024 + k) page); [lia|].
  - apply (free_pages_fresh s pt p' n Hf Hfree Hn).
Qed.
(** One more page in the table it belongs to. *)
Lemma filled_entry s pd pts page pt : filled s pd pts page -> 0 <= page < 2 ^ 18 -> pts !! Z.to_nat (page / 1024) = Some pt -> exists m,
  store_entry (pt + 4 * (page mod 1024)) (kernel_pte page (page + 1)) s = Ok (tt, set_vram m s) /\ filled (set_vram m s) pd pts (page + 1).
Proof.
  intros [Hp Hb Hpg Hnd Hpde Hpte] Hpage Hpt. pose proof (Z.mod_pos_bound page 1024 ltac:(lia)) as Hk. pose proof (Z.div_pos page 1024 ltac:(lia) ltac:(lia)) as Hj0.
  assert (forall j q, pts !! j = Some q -> kernel_page s q /\ q <> pd) as Hq.
  { intros j q Hj. apply list_elem_of_lookup_2 in Hj. apply NoDup_cons in Hnd as [Hni _]. rewrite Forall_forall in Hpg. split; [apply Hpg; by right|congruence]. }
  destruct (Hq _ _ Hpt) as [Hkp Hne]. apply Forall_cons in Hpg as HH. destruct HH as [Hpd _]. destruct (kernel_page_addr s _ Hp Hkp) as (_ & _ & _ & Hm).
  assert (is_word (kernel_pte page (page + 1))) as Hw.
  { unfold kernel_pte, is_word. rewrite (proj2 (Z.ltb_lt page (page + 1))) by lia. destruct (in_kernel_text _); lia. }
  destruct (store_entry_run s (pt + 4 * (page mod 1024)) (kernel_pte page (page + 1))) as (m & Es & Er & F & Hb2); [intros x Hx; apply Hm; lia|done|done|].
  exists m. split; [exact Es|]. split; [apply (phys_frame _ _ _ _ Hp F)|exact Hb2|exact Hpg|exact Hnd| |].
  - intros i Hi. change (vram (set_vram m s)) with m. rewrite (read32_frame _ _ _ _ _ F) by (destruct (pages_apart s _ _ Hkp Hpd Hne); lia). by apply Hpde.
  - intros j q k Hj Hk'. change (vram (set_vram m s)) with m. destruct (decide (Z.of_nat j * 1024 + k = page)) as [Ejk|Hnp].
    + assert (page / 1024 = Z.of_nat j) as Ej by (symmetry; apply (Z.div_unique_pos _ _ _ k); lia).
      assert (page mod 1024 = k) as Ek by (symmetry; apply (Z.mod_unique_pos _ _ (Z.of_nat j)); lia).
      rewrite Ej, Nat2Z.id in Hpt. assert (q = pt) as -> by congruence. rewrite Ejk, <- Ek. exact Er.
    + assert (kernel_pte (Z.of_nat j * 1024 + k) (page + 1) = kernel_pte (Z.of_nat j * 1024 + k) page) as ->.
      { unfold kernel_pte. destruct (Z.ltb_spec (Z.of_nat j * 1024 + k) (page + 1)), (Z.ltb_spec (Z.of_nat j * 1024 + k) page); lia || done. }
      rewrite (read32_frame _ _ _ _ _ F); [by apply Hpte|]. destruct (decide (q = pt)) as [->|Hqp]; [|destruct (pages_apart s _ _ (proj1 (Hq _ _ Hj)) Hkp Hqp); lia].
      apply NoDup_cons in Hnd as [_ Hnd]. pose proof (NoDup_lookup _ _ _ _ Hnd Hj Hpt) as ->. pose proof (Z.div_mod page 1024 ltac:(lia)). lia.
Qed.

Lemma page_indices page : 0 <= page < 2 ^ 18 ->
  ptov (u32 (page * PGSIZE)) = Ok (PHYS_BASE + 4096 * page) /\ pd_no (PHYS_BASE + 4096 * page) = 768 + page / 1024 /\ pt_no (PHYS_BASE + 4096 * page) = page mod 1024 /\
  pte_create_kernel (PHYS_BASE + 4096 * page) (negb (in_kernel_text (PHYS_BASE + 4096 * page))) = Ok (kernel_pte page (page + 1)).
Proof.
  intros Hp. unfold ptov, PGSIZE. rewrite pd_no_div, pt_no_div. rewrite wrapu_small by lia. rewrite (proj2 (Z.ltb_lt _ PHYS_BASE)) by (unfold PHYS_BASE; lia).
  assert ((PHYS_BASE + 4096 * page) / 4096 = 768 * 1024 + page) as E.
  { change PHYS_BASE with (768 * 1024 * 4096). rewrite (Z.mul_comm 4096), <- Z.mul_add_distr_r. by apply Z.div_mul. }
  split; [f_equal; rewrite wrapu_small by (unfold PHYS_BASE; lia); lia|].
  split; [change 4194304 with (4096 * 1024); rewrite <- Z.div_div, E, Z.div_add_l by lia; done|].
  split; [rewrite E, Z.add_comm, Z.mod_add by lia; done|].
  unfold pte_create_kernel, vtop, is_kernel_vaddr. rewrite pg_ofs_mod, (Z.mul_comm 4096), Z.mod_add by lia. cbn [vassert Z.eqb Z.modulo]. change (PHYS_BASE mod 4096 =? 0) with true. cbn [vassert].
  rewrite (proj2 (Z.geb_le _ _)) by lia. cbn [rbind]. replace (PHYS_BASE + page * 4096 - PHYS_BASE) with (page * 4096) by lia. f_equal.
  unfold kernel_pte. rewrite (proj2 (Z.ltb_lt page (page + 1))) by lia. rewrite <- Z.lor_assoc, (Z.mul_comm 4096 page).
  destruct (in_kernel_text _); cbn [negb]; (rewrite lor_flags; [done|apply Z.mod_mul; lia|done]).
Qed.

(** The number of tables for the first [page] pages. *)
Definition tables_for (page : Z) : Z := (page + 1023) / 1024.
Lemma ktables_step page : 0 <= page -> tables_for (page + 1) = page / 1024 + 1.
Proof. intros H. unfold tables_for. replace (page + 1 + 1023) with (page + 1 * 1024) by lia. by apply Z.div_add. Qed.
Lemma tables_same page : 0 <= page -> page mod 1024 <> 0 -> tables_for page = page / 1024 + 1.
Proof.
  intros H Hm. unfold tables_for. pose proof (Z.div_mod page 1024 ltac:(lia)). pose proof (Z.mod_pos_bound page 1024 ltac:(lia)).
  symmetry. apply (Z.div_unique_pos _ _ _ (page mod 1024 - 1)); lia.
Qed.
Lemma tables_full page : 0 <= page -> page mod 1024 = 0 -> tables_for page = page / 1024.
Proof.
  intros H Hm. unfold tables_for. pose proof (Z.div_mod page 1024 ltac:(lia)). symmetry. apply (Z.div_unique_pos _ _ _ 1023); lia.
Qed.

Lemma paging_loop_run n : forall s pd pts page pt, filled s pd pts page -> 0 <= page -> page + Z.of_nat n <= 2 ^ 18 ->
  Z.of_nat (length pts) = tables_for page -> (page mod 1024 <> 0 -> last pts = Some pt) ->
  free_pages s (tables_for (page + Z.of_nat n) - tables_for page) -> exists s' pts',
  paging_loop n page pd pt s = Ok (tt, s') /\ filled s' pd pts' (page + Z.of_nat n) /\ Z.of_nat (length pts') = tables_for (page + Z.of_nat n) /\
  init_page_dir s' = init_page_dir s.
Proof.
  induction n as [|n IH]; intros s pd pts page pt Hf Hp Hle Hlen Hlast Hfree; cbn [paging_loop].
  { exists s, pts. rewrite Nat2Z.inj_0, Z.add_0_r. done. }
  destruct (page_indices page ltac:(lia)) as (Ev & Ed & Et & Ee). rewrite Ev. unfold lift at 1. erewrite bind_eq; [|reflexivity]. rewrite Ed, Et.
  pose proof (Z.mod_pos_bound page 1024 ltac:(lia)) as Hk. pose proof (Z.div_pos page 1024 ltac:(lia) ltac:(lia)) as Hj. assert (page / 1024 < 256) as Hj2 by (apply Z.div_lt_upper_bound; lia).
  pose proof (fi_pages _ _ _ _ Hf) as Hpg. apply Forall_cons in Hpg as [Hpd _]. destruct (kernel_page_addr s _ (fi_phys _ _ _ _ Hf) Hpd) as (_ & _ & _ & Hm).
  erewrite bind_eq; [|apply load_entry_run; intros x Hx; apply Hm; lia]. rewrite (fi_pde _ _ _ _ Hf) by lia. rewrite (proj2 (Z.leb_le 768 _)) by lia.
  replace (Z.to_nat (768 + page / 1024 - 768)) with (Z.to_nat (page / 1024)) by lia.
  replace (page + Z.of_nat (S n)) with (page + 1 + Z.of_nat n) in * by lia.
  assert (exists s1 pts1 pt1, (if match pts !! Z.to_nat (page / 1024) with Some q => q - PHYS_BASE + 7 | None => 0 end =? 0 then
      let! pt := on_phys (palloc_get_page (Z.lor PAL_ASSERT PAL_ZERO)) in let! e := lift (pde_create pt) in do! store_entry (pd + 4 * (768 + page / 1024)) e; ret pt
      else ret pt) s = Ok (pt1, s1) /\ filled s1 pd pts1 page /\ pts1 !! Z.to_nat (page / 1024) = Some pt1 /\ Z.of_nat (length pts1) = tables_for (page + 1) /\
      free_pages s1 (tables_for (page + 1 + Z.of_nat n) - tables_for (page + 1)) /\ init_page_dir s1 = init_page_dir s) as (s1 & pts1 & pt1 & Ealloc & Hf1 & Hpt1 & Hlen1 & Hfree1 & Hi1).
  { rewrite (ktables_step page) by done. destruct (decide (page mod 1024 = 0)) as [Hz|Hnz].
    - rewrite (tables_full page) in Hlen, Hfree by done. rewrite lookup_ge_None_2 by lia. cbn [Z.eqb].
      destruct (filled_table s pd pts page (tables_for (page + 1 + Z.of_nat n) - (page / 1024 + 1)) Hf) as (s1 & pt1 & E & Hf1 & Hfree1 & Hi); [pose proof (Z.div_mod page 1024); lia|lia| | |].
      + by replace (_ - (page / 1024 + 1) + 1) with (tables_for (page + 1 + Z.of_nat n) - page / 1024) by lia.
      + rewrite <- ktables_step by done. assert (tables_for (page + 1) <= tables_for (page + 1 + Z.of_nat n)) by (apply Z.div_le_mono; lia). lia.
      + exists s1, (pts ++ [pt1]), pt1. rewrite Hlen in E. split; [exact E|]. split; [done|]. split; [|split; [rewrite length_app; cbn [length]; lia|done]].
        replace (Z.to_nat (page / 1024)) with (length pts) by lia. apply list_lookup_middle. done.
    - rewrite (tables_same page) in Hlen, Hfree by done. specialize (Hlast Hnz). rewrite last_lookup in Hlast. replace (pred (length pts)) with (Z.to_nat (page / 1024)) in Hlast by lia.
      rewrite Hlast. assert (kernel_page s pt) as Hkp.
      { pose proof (fi_pages _ _ _ _ Hf) as Hpg. rewrite Forall_forall in Hpg. apply Hpg. right. by apply list_elem_of_lookup_2 in Hlast. }
      destruct (kernel_page_addr s _ (fi_phys _ _ _ _ Hf) Hkp) as (P1 & _). rewrite (proj2 (Z.eqb_neq _ 0)) by lia. exists s, pts, pt. done. }
  erewrite bind_eq; [|exact Ealloc].
  destruct (filled_entry s1 pd pts1 page pt1 Hf1 ltac:(lia) Hpt1) as (m & Es & Hf2). rewrite Ee. unfold lift. erewrite bind_eq; [|reflexivity].
  erewrite bind_eq; [|exact Es]. destruct (IH (set_vram m s1) pd pts1 (page + 1) pt1) as (s' & pts' & E & Hf' & Hl' & Hi'); [done|lia|lia|done| |exact Hfree1|].
  - intros _. rewrite last_lookup. replace (pred (length pts1)) with (Z.to_nat (page / 1024)) by (rewrite ktables_step in Hlen1; lia). done.
  - exists s', pts'. split; [exact E|]. split; [done|]. split; [done|]. rewrite Hi'. exact Hi1.
Qed.
(** ** The finished directory *)

Lemma entry_flag_bit a f n : a mod 4096 = 0 -> 0 <= f < 4096 -> 0 <= n < 12 -> Z.testbit (a + f) n = Z.testbit f n.
Proof.
  intros Ha Hf Hn. rewrite <- lor_flags by done. rewrite Z.lor_spec. apply Z.div_exact in Ha; [|done]. rewrite Ha, Z.mul_comm, <- (Z.shiftl_mul_pow2 _ 12), Z.shiftl_spec_low by lia. done.
Qed.
Lemma kernel_addr_split va : PHYS_BASE <= va < 2 ^ 32 ->
  va / 4096 = 768 * 1024 + (pd_no va - 768) * 1024 + pt_no va /\ 0 <= pd_no va - 768 < 256 /\ 0 <= pt_no va < 1024.
Proof.
  intros Hva. rewrite pd_no_div, pt_no_div. change 4194304 with (4096 * 1024). rewrite <- Z.div_div by lia. set (q := va / 4096).
  assert (768 * 1024 <= q < 1024 * 1024) as Hq by (split; [apply Z.div_le_lower_bound|apply Z.div_lt_upper_bound]; unfold PHYS_BASE in Hva; lia).
  pose proof (Z.div_mod q 1024 ltac:(lia)). pose proof (Z.mod_pos_bound q 1024 ltac:(lia)).
  assert (768 <= q / 1024 < 1024) by (split; [apply Z.div_le_lower_bound|apply Z.div_lt_upper_bound]; lia). lia.
Qed.
Lemma filled_translation s pd pts : filled s pd pts init_ram_pages -> Z.of_nat (length pts) = tables_for init_ram_pages -> 0 <= init_ram_pages <= 2 ^ 18 ->
  forall va, 0 <= va < 2 ^ 32 -> translation (vram s) pd va =
    if (PHYS_BASE <=? va) && (va <? PHYS_BASE + 4096 * init_ram_pages) then Some (va - PHYS_BASE, negb (in_kernel_text (4096 * (va / 4096))), false) else None.
Proof.
  intros [Hp Hb Hpg Hnd Hpde Hpte] Hlen Hn va Hva. unfold translation.
  assert (0 <= pd_no va < 1024) as Hi by (rewrite pd_no_div; split; [apply Z.div_pos|apply Z.div_lt_upper_bound]; lia).
  rewrite Hpde by done. destruct (Z.leb_spec PHYS_BASE va) as [Hge|Hlt]; cbn [andb].
  2: { assert (pd_no va < 768) by (rewrite pd_no_div; apply Z.div_lt_upper_bound; unfold PHYS_BASE in Hlt; lia). by rewrite (proj2 (Z.leb_gt 768 (pd_no va))). }
  destruct (kernel_addr_split va ltac:(lia)) as (Ediv & Hj & Hk). set (j := pd_no va - 768) in *. rewrite (proj2 (Z.leb_le 768 (pd_no va))) by lia.
  pose proof (Z.div_mod va 4096 ltac:(lia)) as Em. pose proof (Z.mod_pos_bound va 4096 ltac:(lia)) as Hm.
  destruct (pts !! Z.to_nat j) as [q|] eqn:Eq.
  - assert (kernel_page s q) as Hq. { rewrite Forall_forall in Hpg. apply Hpg. right. by apply list_elem_of_lookup_2 in Eq. }
    destruct (kernel_page_addr s q Hp Hq) as (Q1 & Q2 & Q3 & _). assert ((q - PHYS_BASE) mod 4096 = 0) as Q4 by (rewrite Zminus_mod, Q3; done).
    rewrite !entry_flag_bit by (done || lia). change (Z.testbit 7 0) with true. change (Z.testbit 7 1) with true. change (Z.testbit 7 2) with true. cbn [andb].
    rewrite page_div by (done || lia). replace (PHYS_BASE + (q - PHYS_BASE) + 4 * pt_no va) with (q + 4 * pt_no va) by lia. rewrite (Hpte _ _ _ Eq Hk).
    rewrite Z2Nat.id by lia. unfold kernel_pte. set (p := j * 1024 + pt_no va) in *.
    assert (4096 * p = va - va mod 4096 - PHYS_BASE) as Ep by (unfold PHYS_BASE; lia).
    destruct (Z.ltb_spec p init_ram_pages), (Z.ltb_spec va (PHYS_BASE + 4096 * init_ram_pages)); try lia; [|by rewrite Z.testbit_0_l].
    assert ((4096 * p) mod 4096 = 0) as Ez by (rewrite Z.mul_comm; by apply Z.mod_mul).
    replace (4096 * (va / 4096)) with (PHYS_BASE + 4096 * p) by lia.
    destruct (in_kernel_text (PHYS_BASE + 4096 * p)); rewrite !entry_flag_bit by (done || lia); rewrite page_div by (done || lia); cbn; do 3 f_equal; lia.
  - apply lookup_ge_None_1 in Eq. rewrite Z.testbit_0_l. destruct (Z.ltb_spec va (PHYS_BASE + 4096 * init_ram_pages)); [|done]. exfalso.
    assert (init_ram_pages <= 1024 * tables_for init_ram_pages) as Ht.
    { unfold tables_for. pose proof (Z.div_mod (init_ram_pages + 1023) 1024 ltac:(lia)). pose proof (Z.mod_pos_bound (init_ram_pages + 1023) 1024 ltac:(lia)). lia. }
    unfold PHYS_BASE in *. lia.
Qed.
(** A copy of the directory in a new page translates in the same way. *)
Lemma copy_translation s pd pts p' m q : filled s pd pts init_ram_pages -> fresh_page s q p' -> frame (vram s) m q 4096 ->
  (forall x, 0 <= x < 4096 -> m !! (q + x) = vram s !! (pd + x)) -> forall va, 0 <= va < 2 ^ 32 -> translation m q va = translation (vram s) pd va.
Proof.
  intros [Hp Hb Hpg Hnd Hpde Hpte] Hf F Hc va Hva. unfold translation.
  assert (0 <= pd_no va < 1024) as Hi by (rewrite pd_no_div; split; [apply Z.div_pos|apply Z.div_lt_upper_bound]; lia).
  assert (0 <= pt_no va < 1024) as Hk by (rewrite pt_no_div; apply Z.mod_pos_bound; lia).
  assert (read32 m (q + 4 * pd_no va) = read32 (vram s) (pd + 4 * pd_no va)) as ->.
  { unfold read32, byte_at. rewrite <- !Z.add_assoc, !Hc by lia. done. }
  rewrite Hpde by done. destruct (if 768 <=? pd_no va then _ else None) as [t|] eqn:Et; [|done].
  destruct (Z.leb_spec 768 (pd_no va)); [|done]. assert (kernel_page s t) as Ht. { rewrite Forall_forall in Hpg. apply Hpg. right. by apply list_elem_of_lookup_2 in Et. }
  destruct (kernel_page_addr s t Hp Ht) as (T1 & T2 & T3 & _). assert ((t - PHYS_BASE) mod 4096 = 0) as T4 by (rewrite Zminus_mod, T3; done).
  rewrite page_div by (done || lia). destruct (fp_old _ _ _ Hf t Ht) as [Ht' Hne].
  rewrite (read32_frame _ _ _ _ _ F); [done|]. destruct (pages_apart (with_vphys p' s) _ _ Ht' (fp_page _ _ _ Hf) Hne); lia.
Qed.

(** ** Later states *)

(** The pages of the kernel's directory: its own and its page tables. *)
Definition map_page (s : vm) (a : Z) : Prop :=
  a = init_page_dir s \/
  exists i, 0 <= i < 1024 /\ Z.testbit (read32 (vram s) (init_page_dir s + 4 * i)) 0 = true /\
    a = PHYS_BASE + 4096 * (read32 (vram s) (init_page_dir s + 4 * i) / 4096).
(** Whatever has been allocated, freed and written since [s], those pages are as they were. *)
Record keeps_map (s s' : vm) : Prop := {
  km_phys : phys_ok (vphys s');
  km_bytes : ram_bytes (vram s');
  km_dir : init_page_dir s' = init_page_dir s;
  km_cr3 : 0 <= cr3 s' < 2 ^ 30;
  km_page : forall a, map_page s a -> kernel_page s' a;
  km_same : forall a x, map_page s a -> a <= x < a + 4096 -> vram s' !! x = vram s !! x }.

Lemma filled_map_page s pd pts page q : filled s pd pts page -> init_page_dir s = pd -> (length pts <= 256)%nat -> q ∈ pd :: pts -> map_page s q.
Proof.
  intros H Hi Hl [->|Hq]%elem_of_cons; [by left|]. right. apply list_elem_of_lookup in Hq as [j Hj]. pose proof (lookup_lt_Some _ _ _ Hj).
  exists (768 + Z.of_nat j). split; [lia|]. rewrite Hi, (fi_pde _ _ _ _ H) by lia. rewrite (proj2 (Z.leb_le 768 _)) by lia.
  replace (Z.to_nat (768 + Z.of_nat j - 768)) with j by lia. rewrite Hj.
  pose proof (fi_pages _ _ _ _ H) as Hpg. rewrite Forall_forall in Hpg. specialize (Hpg q ltac:(right; by apply list_elem_of_lookup_2 in Hj)).
  destruct (kernel_page_addr s q (fi_phys _ _ _ _ H) Hpg) as (Q1 & Q2 & Q3 & _). assert ((q - PHYS_BASE) mod 4096 = 0) as Q4 by (rewrite Zminus_mod, Q3; done).
  rewrite entry_flag_bit by (done || lia). split; [done|]. rewrite page_div by (done || lia). lia.
Qed.
Lemma filled_keeps s s' pd pts page : filled s pd pts page -> init_page_dir s = pd -> (length pts <= 256)%nat -> keeps_map s s' -> filled s' pd pts page.
Proof.
  intros H Hi Hl K. pose proof (fun q => filled_map_page s pd pts page q H Hi Hl) as Hm.
  assert (forall q k, q ∈ pd :: pts -> 0 <= k < 1024 -> read32 (vram s') (q + 4 * k) = read32 (vram s) (q + 4 * k)) as Hr.
  { intros q k Hq Hk. apply read32_ext. intros x Hx. apply (km_same _ _ K q); [by apply Hm|lia]. }
  split; [apply K|apply K| |apply H| |].
  - apply Forall_forall. intros q Hq. by apply (km_page _ _ K), Hm.
  - intros i Hi'. rewrite Hr by (done || apply list_elem_of_here). by apply (fi_pde _ _ _ _ H).
  - intros j q k Hj Hk. rewrite Hr; [by apply (fi_pte _ _ _ _ H)| |done]. right. by apply list_elem_of_lookup_2 in Hj.
Qed.
(** A directory made in a later state. *)
Lemma create_translation s pd pts : filled s pd pts init_ram_pages -> init_page_dir s = pd -> 0 <= cr3 s < 2 ^ 30 ->
  (exists q s', pagedir_create s = Ok (q, s') /\ dir_ok s' q ∅ /\ forall va, 0 <= va < 2 ^ 32 -> translation (vram s') q va = translation (vram s) pd va) \/
  (no_room (kernel_pool (vphys s)) 1 /\ pagedir_create s = Ok (0, s)).
Proof.
  intros H <- Hcr. pose proof (fi_pages _ _ _ _ H) as Hpg. apply Forall_cons in Hpg as [Hpd _]. destruct (kernel_page_addr s _ (fi_phys _ _ _ _ H) Hpd) as (P1 & P2 & _).
  destruct (pagedir_create_run s (fi_phys _ _ _ _ H) (fi_bytes _ _ _ _ H)) as [(q & p2 & m & Ec & Hd & Hq & Hcopy & F)|Hno]; [done|done| | |by right].
  - intros i Hi'. rewrite (fi_pde _ _ _ _ H) by lia. by rewrite (proj2 (Z.leb_gt 768 i)) by lia.
  - left. exists q, (set_vram m (with_vphys p2 s)). split; [exact Ec|]. split; [exact Hd|].
    intros va Hva. exact (copy_translation s _ pts p2 m q H Hq F Hcopy va Hva).
Qed.

(** C29: With enough free pages, [paging_init] returns with a page directory in [cr3] that maps
    every address of the first [init_ram_pages] pages from [PHYS_BASE] on to its physical
    address, for the kernel only, writable unless the page is in the text of the kernel, and
    maps nothing else.  Every directory that [pagedir_create] makes afterwards, in any state in
    which the pages of this directory are still in use and hold what they held, has no user
    page and translates the addresses of the kernel in the same way. *)
Theorem paging_init_correct s : phys_ok (vphys s) -> ram_bytes (vram s) -> 0 <= init_ram_pages <= 2 ^ 18 -> free_pages s (1 + tables_for init_ram_pages) ->
  exists s', paging_init s = Ok (tt, s') /\ kernel_page s' (init_page_dir s') /\ cr3 s' = init_page_dir s' - PHYS_BASE /\
    (forall va, 0 <= va < 2 ^ 32 -> translation (vram s') (init_page_dir s') va =
       if (PHYS_BASE <=? va) && (va <? PHYS_BASE + 4096 * init_ram_pages) then Some (va - PHYS_BASE, negb (in_kernel_text (4096 * (va / 4096))), false) else None) /\
    keeps_map s' s' /\
    forall s2, keeps_map s' s2 ->
      (exists pd s3, pagedir_create s2 = Ok (pd, s3) /\ dir_ok s3 pd ∅ /\
         forall va, 0 <= va < 2 ^ 32 -> translation (vram s3) pd va = translation (vram s') (init_page_dir s') va) \/
      (no_room (kernel_pool (vphys s2)) 1 /\ pagedir_create s2 = Ok (0, s2)).
Proof.
  intros Hp Hb Hn Hfree. assert (0 <= tables_for init_ram_pages) as Ht by (apply Z.div_pos; lia).
  destruct (pool_page_run s (Z.lor PAL_ASSERT PAL_ZERO) Hp eq_refl) as [(pd & p' & E & Hf & Hz)|[Hno _]]; [|by apply (free_pages_room s (1 + tables_for init_ram_pages)) in Hno; [|lia|]].
  change (has _ PAL_ZERO) with true in Hz. cbn beta iota in Hz. set (s1 := {| vphys := p'; init_page_dir := pd; cr3 := cr3 s |}).
  assert (filled s1 pd [] 0) as H1.
  { pose proof Hf as [Hp' _ Hpg _ _ Hframe _]. split; [done| |by repeat constructor|apply NoDup_singleton| |done].
    - apply (bytes_frame (vram s) (ram p') pd (replicate (Z.to_nat 4096) 0) Hb); [rewrite length_replicate; exact Hframe|exact Hz|by apply Forall_replicate].
    - intros i Hi. unfold vram. cbn [vphys s1]. rewrite (read32_zero _ _ _ _ Hz) by lia. rewrite lookup_nil. by destruct (768 <=? i). }
  destruct (paging_loop_run (Z.to_nat init_ram_pages) s1 pd [] 0 0 H1) as (s2 & pts & E2 & H2 & Hl & Hi); [lia|lia|done|done| |].
  { rewrite Z2Nat.id, Z.add_0_l by lia. change (tables_for 0) with 0. rewrite Z.sub_0_r. apply (free_pages_fresh s pd p' _ Hf); [by rewrite Z.add_comm|done]. }
  rewrite Z2Nat.id, Z.add_0_l in H2, Hl by lia. cbn in Hi. pose proof (fi_pages _ _ _ _ H2) as Hpg. apply Forall_cons in Hpg as [Hpd _].
  destruct (kernel_page_addr s2 pd (fi_phys _ _ _ _ H2) Hpd) as (P1 & P2 & _).
  set (s3 := {| vphys := vphys s2; init_page_dir := init_page_dir s2; cr3 := pd - PHYS_BASE |}).
  assert (filled s3 pd pts init_ram_pages) as H3 by (destruct H2; split; done).
  exists s3. cbn [init_page_dir cr3 s3]. rewrite Hi. split; [|split; [exact Hpd|split; [done|split; [by apply (filled_translation s3 pd pts)|]]]].
  2: split.
  - unfold paging_init. erewrite bind_eq; [|apply on_phys_run; exact E]. unfold set_init_page_dir, modify. erewrite bind_eq; [|reflexivity]. fold s1. erewrite bind_eq; [|exact E2].
    unfold vtop, is_kernel_vaddr. rewrite (proj2 (Z.geb_le _ _)) by done. unfold lift. by erewrite bind_eq; [|reflexivity].
  - split; [apply H3|apply H3|done|cbn; unfold PHYS_BASE in *; lia| |done]. intros a [->|(i & Hi' & Hb' & ->)]; [cbn; by rewrite Hi|]. cbn [init_page_dir s3] in *. rewrite Hi in *.
    rewrite (fi_pde _ _ _ _ H3) in * by lia. destruct (if 768 <=? i then _ else None) as [q|] eqn:Eq; [|by rewrite Z.testbit_0_l in Hb'].
    assert (kernel_page s3 q) as Hq. { pose proof (fi_pages _ _ _ _ H3) as Hpg. rewrite Forall_forall in Hpg. apply Hpg. right. destruct (768 <=? i); [|done]. by apply list_elem_of_lookup_2 in Eq. }
    destruct (kernel_page_addr s3 q (fi_phys _ _ _ _ H3) Hq) as (Q1 & Q2 & Q3 & _). rewrite page_div by (lia || by rewrite Zminus_mod, Q3). by replace (PHYS_BASE + (q - PHYS_BASE)) with q by lia.
  - intros s4 K. assert (filled s4 pd pts init_ram_pages) as H4.
    { apply (filled_keeps s3); [done|done| |done]. assert (tables_for init_ram_pages <= 256); [|lia]. unfold tables_for. apply Z.lt_succ_r, Z.div_lt_upper_bound; lia. }
    destruct (create_translation s4 pd pts H4) as [(q & s5 & E5 & D5 & T5)|Hno]; [by rewrite (km_dir _ _ K)|apply K| |by right].
    left. exists q, s5. split; [exact E5|]. split; [exact D5|]. intros va Hva. rewrite T5, (filled_translation s4 pd pts), (filled_translation s3 pd pts) by done. done.
Qed.
End paging.

(** A machine with 264 pages whose text has 20 pages. *)
Lemma paging_init_correct_witness : exists s s', paging_init 264 (PHYS_BASE + 131072) (PHYS_BASE + 212992) s = Ok (tt, s') /\
  translation (vram s') (init_page_dir s') (PHYS_BASE + 131073) = Some (131073, false, false).
Proof.
  destruct (palloc_init_run 264 100 sample_ram [5] [6]) as (ph & E & Hs & Hall & Er & Ec & _); [lia|lia| | |apply ram_of_mapped|].
  1, 2: split_and!; [vm_compute; discriminate|reflexivity|repeat constructor; vm_compute; done].
  set (s := {| vphys := ph; init_page_dir := 0; cr3 := 0 |}).
  destruct (paging_init_correct 264 (PHYS_BASE + 131072) (PHYS_BASE + 212992) s Hs) as (s' & R & _ & _ & Ht & _).
  - unfold vram. cbn [vphys s]. rewrite Er. apply ram_of_bytes. split; [discriminate|reflexivity].
  - split; [discriminate|]. vm_compute. discriminate.
  - change (1 + tables_for 264) with 2. exists [base (kernel_pool ph) + 4096 * 0; base (kernel_pool ph) + 4096 * 1]. split; [|split; [reflexivity|]].
    + apply NoDup_cons. split; [|apply NoDup_singleton]. intros H. apply list_elem_of_singleton in H. lia.
    + change (kernel_share 264 100 - map_pages (kernel_share 264 100)) with 3 in Ec.
      apply Forall_cons. split; [|apply Forall_cons; split; [|constructor]]; eexists; (split; [reflexivity|]); cbn [vphys s]; rewrite Ec; (split; [lia|]); apply (Hall false); cbn [pool_of]; rewrite Ec; lia.
  - exists s, s'. split; [exact R|]. rewrite Ht; [reflexivity|]. split; reflexivity || discriminate.
Defined.
End KernelMap.
