(* ===== verification/ArgStack.v ===== *)
(** * userprog/process.c: the arguments of a program

    How [load] breaks a command line into words and [push_stack] lays them out on the first
    page of the user stack, over the memory that the loading thread sees: the kernel's and,
    below [PHYS_BASE], its own pages. *)

From S2P Require Import Prelude Bytes CString CStringFacts VAddr Ram.
Import Bytes CString CStringFacts VAddr Ram.

Module ArgStack.

Section words.
(** Where the literal [" "] is, and whether an allocation of a given size succeeds; the
    results of [malloc] and [realloc] are used without a test. *)
Context (blank : Z) (granted : Z -> bool).

(** The loop over the words; [cap] is the number of places of [param_array], zero when the
    array is lost, which then has no first element either. *)
Fixpoint parse_loop (fuel : nat) (token save cap : Z) (params : list Z) : M mem (list Z) :=
  match fuel with
  | O => fail OutOfFuel
  | S fuel =>
      if token =? 0 then ret (if cap =? 0 then [] else params)
      else
        do! (if Z.of_nat (length params) <? cap then ret tt else fail WildAccess);
        let params := params ++ [token] in
        let cap := if Z.of_nat (length params) >=? cap then if granted (cap * 2 * 4) then cap * 2 else 0 else cap in
        let! (token, save) := strtok_r 0 blank save in
        parse_loop fuel token save cap params
  end.
(** A word takes at least a byte of memory. *)
Definition parse_args (file_name : Z) : M mem (list Z) :=
  let! fuel := limit in
  let! (token, save) := strtok_r file_name blank 0 in
  parse_loop fuel token save (if granted 400 then 100 else 0) [].
End words.

(** ** The stack *)

(** The strings, the last one first; the result is the stack pointer, the number of bytes
    and the addresses of the strings. *)
Fixpoint push_strings (args : list Z) (esp total_size : Z) (adds : list Z) : M mem (Z * Z * list Z) :=
  match args with
  | [] => ret (esp, total_size, adds)
  | arg :: args =>
      let! n := strlen arg in
      let esp := u32 (esp - n - 1) in
      let! _ := memcpy esp arg (n + 1) in
      push_strings args esp (s32 (total_size + n + 1)) (esp :: adds)
  end.
(** The words [ws], each below the one before. *)
Fixpoint push_words (ws : list Z) (esp : Z) : M mem Z :=
  match ws with
  | [] => ret esp
  | w :: ws => let esp := u32 (esp - 4) in do! store32 esp w; push_words ws esp
  end.
Definition push_stack (args : list Z) : M mem Z :=
  let! (esp, total_size, adds) := push_strings (rev args) PHYS_BASE 0 [] in
  let word_align_unit := 4 - Z.rem total_size 4 in
  let esp := u32 (esp - word_align_unit) in
  let! _ := memset esp 0 word_align_unit in
  let esp := u32 (esp - 4) in
  let! _ := memset esp 0 4 in
  let! esp := push_words (rev adds) esp in
  let! esp := push_words [esp] esp in
  let! esp := push_words [Z.of_nat (length args)] esp in
  let esp := u32 (esp - 4) in
  let! _ := memset esp 0 4 in
  ret esp.

End ArgStack.

(** * The layout of the user stack *)

Import Bytes CString CStringFacts VAddr Ram ArgStack.

Module ArgStackFacts.

(** The page of the stack. *)
Definition bottom : Z := PHYS_BASE - PGSIZE.

(** The bytes that the strings take. *)
Fixpoint total (xss : list (list Z)) : Z :=
  match xss with [] => 0 | xs :: xss => Z.of_nat (length xs) + 1 + total xss end.
Lemma total_nonneg xss : 0 <= total xss.
Proof. induction xss; cbn; lia. Qed.
Lemma total_app xss yss : total (xss ++ yss) = total xss + total yss.
Proof. induction xss as [|xs xss IH]; cbn; [done|]. rewrite IH. lia. Qed.
Lemma total_rev xss : total (rev xss) = total xss.
Proof. induction xss as [|xs xss IH]; [done|]. cbn. rewrite total_app, IH. cbn. lia. Qed.

Lemma rev_reverse {A} (l : list A) : rev l = reverse l.
Proof. apply rev_alt. Qed.

(** An argument in memory that is not on the page of the stack. *)
Definition arg_at (m : mem) (a : Z) (xs : list Z) : Prop :=
  0 < a /\ cstr_at m a xs /\ (a + Z.of_nat (length xs) + 1 <= bottom \/ PHYS_BASE <= a).

Lemma cstr_mapped m a xs : cstr_at m a xs -> mapped m a (Z.of_nat (length xs) + 1).
Proof. intros [H _]. apply bytes_at_mapped in H. rewrite length_app in H. cbn in H. by rewrite Nat2Z.inj_add in H. Qed.
Lemma frame_cstr m m' a n b xs : frame m m' a n -> cstr_at m b xs ->
  b + Z.of_nat (length xs) + 1 <= a \/ a + n <= b -> cstr_at m' b xs.
Proof. intros F [H Hc] Hd. split; [|done]. apply (frame_bytes m m' a n); [done|done|]. rewrite length_app. cbn. lia. Qed.
Lemma frame_arg m m' a n b xs : frame m m' a n -> bottom <= a -> a + n <= PHYS_BASE -> arg_at m b xs -> arg_at m' b xs.
Proof. intros F Ha Hn (H0 & H & Hd). split; [done|]. split; [|done]. apply (frame_cstr m m' a n); [done|done|lia]. Qed.

Lemma push_strings_run args : forall xss m esp tot adds,
  Forall2 (arg_at m) args xss -> mapped m bottom PGSIZE -> bottom + total xss <= esp <= PHYS_BASE ->
  0 <= tot -> tot + total xss < 2 ^ 31 ->
  exists m' rs, push_strings args esp tot adds m = Ok (esp - total xss, tot + total xss, rev rs ++ adds, m') /\
    Forall2 (fun p xs => cstr_at m' p xs /\ esp - total xss <= p /\ p + Z.of_nat (length xs) + 1 <= esp) rs xss /\
    frame m m' (esp - total xss) (total xss).
Proof.
  induction args as [|a args IH]; intros xss m esp tot adds Ha Hm He Ht0 Ht; inversion Ha as [|? xs ? xss' H1 H2]; subst; cbn [total push_strings] in *.
  { exists m, []. rewrite Z.sub_0_r, Z.add_0_r. split; [done|]. split; [constructor|apply ram_frame_refl]. }
  pose proof (total_nonneg xss') as Hn. pose proof H1 as (Ha0 & Hs & Hd). set (n := Z.of_nat (length xs)) in *.
  erewrite bind_eq; [|apply strlen_run; [lia|exact Hs]]. fold n. unfold bottom, PHYS_BASE, PGSIZE, PGBITS in He, Hd. cbn in He, Hd.
  assert (u32 (esp - n - 1) = esp - n - 1) as -> by (apply wrapu_small; lia).
  assert (mapped m (esp - n - 1) (n + 1)) as Hmd.
  { intros x Hx. apply Hm. unfold bottom, PHYS_BASE, PGSIZE, PGBITS. cbn. lia. }
  destruct (memcpy_run m (esp - n - 1) a (n + 1)) as (m1 & E1 & C1); [lia|lia|lia|exact Hmd|by apply cstr_mapped|lia|].
  erewrite bind_eq; [|exact E1]. pose proof (copied_frame _ _ _ _ _ C1 (cstr_mapped _ _ _ Hs)) as F1.
  assert (s32 (tot + n + 1) = tot + n + 1) as -> by (apply wraps_small; lia).
  destruct (IH xss' m1 (esp - n - 1) (tot + n + 1) ((esp - n - 1) :: adds)) as (m' & rs & E & Hrs & F).
  { eapply Forall2_impl; [exact H2|]. intros b ys Hb. eapply frame_arg; [exact F1| | |exact Hb];
      unfold bottom, PHYS_BASE, PGSIZE, PGBITS; cbn; lia. }
  { by eapply frame_mapped. } { unfold bottom, PHYS_BASE, PGSIZE, PGBITS; cbn; lia. } { lia. } { lia. }
  assert (cstr_at m1 (esp - n - 1) xs) as Hc.
  { split; [|exact (proj2 Hs)]. eapply copied_bytes; [exact C1|exact (proj1 Hs)|]. rewrite length_app. cbn. lia. }
  exists m', ((esp - n - 1) :: rs). rewrite E. cbn [rev]. rewrite <- app_assoc. split; [do 4 f_equal; lia|]. split.
  - constructor.
    + split; [|lia]. eapply frame_cstr; [exact F|exact Hc|lia].
    + eapply Forall2_impl; [exact Hrs|]. intros p ys (Hp & H3 & H4). split; [done|]. lia.
  - eapply ram_frame_trans; [eapply frame_weaken; [exact F1|lia|lia]|eapply frame_weaken; [exact F|lia|lia]].
Qed.

Lemma push_words_run ws : forall m esp (k := 4 * Z.of_nat (length ws)),
  0 <= esp - k -> esp < 2 ^ 32 -> mapped m (esp - k) k ->
  exists m', push_words ws esp m = Ok (esp - k, m') /\ frame m m' (esp - k) k /\
    forall i w, ws !! i = Some w -> word_at m' (esp - 4 * (Z.of_nat i + 1)) w.
Proof.
  induction ws as [|w ws IH]; intros m esp k H0 H1 Hm; unfold k in *; cbn [push_words length] in *.
  { exists m. rewrite Z.sub_0_r. split; [done|]. split; [apply ram_frame_refl|done]. }
  assert (u32 (esp - 4) = esp - 4) as -> by (apply wrapu_small; lia).
  destruct (store32_run m (esp - 4) w) as (m1 & E1 & W1 & F1); [intros x Hx; apply Hm; lia|]. erewrite bind_eq; [|exact E1].
  destruct (IH m1 (esp - 4)) as (m' & E & F & W); [lia|lia|intros x Hx; apply F1, Hm; lia|].
  exists m'. rewrite E. split; [do 2 f_equal; lia|]. split.
  - eapply ram_frame_trans; [eapply frame_weaken; [exact F1|lia|lia]|eapply frame_weaken; [exact F|lia|lia]].
  - intros [|i] v Hv; cbn in Hv.
    + injection Hv as ->. eapply frame_word; [exact F|exact W1|lia].
    + replace (esp - 4 * (Z.of_nat (S i) + 1)) with (esp - 4 - 4 * (Z.of_nat i + 1)) by lia. by apply W.
Qed.

(** The size of the whole block: strings, padding, the null pointer, the array of
    addresses, and the three words of the call. *)
Definition stack_size (xss : list (list Z)) : Z :=
  total xss + (4 - total xss mod 4) + 4 * (Z.of_nat (length xss) + 4).

(** The stack that the C library expects: return address, [argc], [argv], the array with its
    null pointer, and the strings. *)
Definition laid_out (m : mem) (esp : Z) (xss : list (list Z)) : Prop :=
  let argc := Z.of_nat (length xss) in
  word_at m esp 0 /\ word_at m (esp + 4) argc /\ word_at m (esp + 8) (esp + 12) /\
  exists argv, Forall2 (fun p xs => cstr_at m p xs /\ esp <= p /\ p + Z.of_nat (length xs) < PHYS_BASE) argv xss /\
    (forall i p, argv !! i = Some p -> word_at m (esp + 12 + 4 * Z.of_nat i) p) /\
    word_at m (esp + 12 + 4 * argc) 0.

(** What the blocks that are written one below the other leave. *)
Lemma frame_strings m m' a n argv xss lo hi : frame m m' a n -> a + n <= lo ->
  Forall2 (fun p xs => cstr_at m p xs /\ lo <= p /\ p + Z.of_nat (length xs) + 1 <= hi) argv xss ->
  Forall2 (fun p xs => cstr_at m' p xs /\ lo <= p /\ p + Z.of_nat (length xs) + 1 <= hi) argv xss.
Proof.
  intros F Hl H. eapply Forall2_impl; [exact H|]. intros p xs (Hc & H1 & H2). split; [|done].
  eapply frame_cstr; [exact F|exact Hc|lia].
Qed.
Lemma frame_words m m' a n (ws : list Z) (f : nat -> Z) : frame m m' a n -> (forall i, (i < length ws)%nat -> a + n <= f i) ->
  (forall i w, ws !! i = Some w -> word_at m (f i) w) -> forall i w, ws !! i = Some w -> word_at m' (f i) w.
Proof. intros F Hf H i w Hw. eapply frame_word; [exact F|by apply H|]. right. apply Hf. by eapply lookup_lt_Some. Qed.

Lemma push_word_run m esp w : 4 <= esp < 2 ^ 32 -> mapped m (esp - 4) 4 ->
  exists m', push_words [w] esp m = Ok (esp - 4, m') /\ frame m m' (esp - 4) 4 /\ word_at m' (esp - 4) w.
Proof.
  intros He Hm. destruct (push_words_run [w] m esp) as (m' & E & F & W); cbn in *; [lia|lia|done|].
  exists m'. split; [exact E|]. split; [exact F|]. exact (W 0%nat w eq_refl).
Qed.
Lemma memset_zero_run m a : a <> 0 -> mapped m a 4 ->
  exists m', memset a 0 4 m = Ok (a, m') /\ frame m m' a 4 /\ word_at m' a 0.
Proof. intros Ha Hm. destruct (memset_run m a 0 4) as (m' & E & B & F); [lia|done|done|]. by exists m'. Qed.

(** The words below the strings, which end at [A]. *)
Lemma push_call_run m A rs argc k : Z.of_nat (length rs) = k -> 4 * (k + 4) < A < 2 ^ 32 ->
  let esp := A - 4 * (k + 4) in mapped m esp (A - esp) -> exists m',
  (let! _ := memset (u32 (A - 4)) 0 4 in
   let! esp := push_words rs (u32 (A - 4)) in
   let! esp := push_words [esp] esp in
   let! esp := push_words [argc] esp in
   let esp := u32 (esp - 4) in
   let! _ := memset esp 0 4 in
   ret esp) m = Ok (esp, m') /\ frame m m' esp (A - esp) /\
  word_at m' esp 0 /\ word_at m' (esp + 4) argc /\ word_at m' (esp + 8) (esp + 12) /\
  (forall i w, rs !! i = Some w -> word_at m' (esp + 12 + 4 * (k - 1 - Z.of_nat i)) w) /\ word_at m' (esp + 12 + 4 * k) 0.
Proof.
  intros Hk HA esp Hm. assert (u32 (A - 4) = A - 4) as -> by (apply wrapu_small; lia).
  destruct (memset_zero_run m (A - 4)) as (m3 & E3 & F3 & W3); [lia|intros x Hx; apply Hm; lia|]. erewrite bind_eq; [|exact E3].
  pose proof (frame_mapped _ _ _ _ _ _ F3 Hm) as Hm3.
  destruct (push_words_run rs m3 (A - 4)) as (m4 & E4 & F4 & W4); [lia|lia|intros x Hx; apply Hm3; lia|].
  rewrite Hk in E4, F4.
  erewrite bind_eq; [|exact E4]. pose proof (frame_mapped _ _ _ _ _ _ F4 Hm3) as Hm4. set (V := A - 4 - 4 * k) in *.
  assert (V = esp + 12) as EV by (unfold V, esp; lia). rewrite EV in *. clearbody V.
  destruct (push_word_run m4 (esp + 12) (esp + 12)) as (m5 & E5 & F5 & W5); [lia|intros x Hx; apply Hm4; lia|]. erewrite bind_eq; [|exact E5].
  pose proof (frame_mapped _ _ _ _ _ _ F5 Hm4) as Hm5. replace (esp + 12 - 4) with (esp + 8) in * by lia.
  destruct (push_word_run m5 (esp + 8) argc) as (m6 & E6 & F6 & W6); [lia|intros x Hx; apply Hm5; lia|]. erewrite bind_eq; [|exact E6].
  pose proof (frame_mapped _ _ _ _ _ _ F6 Hm5) as Hm6. replace (esp + 8 - 4) with (esp + 4) in * by lia. replace (esp + 4 - 4) with esp by lia.
  assert (u32 esp = esp) as -> by (apply wrapu_small; lia).
  destruct (memset_zero_run m6 esp) as (m7 & E7 & F7 & W7); [lia|intros x Hx; apply Hm6; lia|]. erewrite bind_eq; [|exact E7].
  assert (frame m4 m7 esp 12) as F57.
  { eapply ram_frame_trans; [eapply frame_weaken; [exact F5|lia|lia]|]. eapply ram_frame_trans; [eapply frame_weaken; [exact F6|lia|lia]|].
    eapply frame_weaken; [exact F7|lia|lia]. }
  exists m7. split; [done|]. split.
  { eapply ram_frame_trans; [eapply frame_weaken; [exact F3|lia|lia]|]. eapply ram_frame_trans; [eapply frame_weaken; [exact F4|lia|lia]|].
    eapply frame_weaken; [exact F57|lia|lia]. }
  split; [done|]. split; [eapply frame_word; [exact F7|exact W6|lia]|].
  split; [eapply frame_word; [exact F7|eapply frame_word; [exact F6|exact W5|lia]|lia]|]. split.
  - intros i w Hw. pose proof (lookup_lt_Some _ _ _ Hw). eapply frame_word; [exact F57| |lia].
    replace (esp + 12 + 4 * (k - 1 - Z.of_nat i)) with (A - 4 - 4 * (Z.of_nat i + 1)) by (unfold esp; lia). by apply W4.
  - eapply frame_word; [exact F57| |lia]. replace (esp + 12 + 4 * k) with (A - 4) by (unfold esp; lia).
    eapply frame_word; [exact F4|exact W3|lia].
Qed.

Lemma push_stack_run m args xss : Forall2 (arg_at m) args xss -> mapped m bottom PGSIZE -> stack_size xss <= PGSIZE ->
  let esp := PHYS_BASE - stack_size xss in
  exists m', push_stack args m = Ok (esp, m') /\ laid_out m' esp xss /\ frame m m' esp (stack_size xss).
Proof.
  intros Ha Hm Hs esp. pose proof (total_nonneg xss) as Ht. pose proof (Z.mod_pos_bound (total xss) 4 ltac:(lia)) as Hr.
  assert (PHYS_BASE = 3221225472 /\ PGSIZE = 4096 /\ bottom = 3221221376) as (Eb & Eg & Eo) by done.
  pose proof (Forall2_length _ _ _ Ha) as Hlen. set (n := Z.of_nat (length xss)).
  set (pad := 4 - total xss mod 4). assert (stack_size xss = total xss + pad + 4 * (n + 4)) as Ess by done.
  destruct (push_strings_run (rev args) (rev xss) m PHYS_BASE 0 []) as (m1 & rs & E1 & S1 & F1); rewrite ?total_rev in *.
  { rewrite !rev_reverse. by apply Forall2_reverse. } { done. } { lia. } { lia. } { lia. }
  unfold push_stack. erewrite bind_eq; [|exact E1]. rewrite app_nil_r, Z.add_0_l, rev_involutive. rewrite Z.rem_mod_nonneg by lia.
  fold pad. set (A := PHYS_BASE - total xss - pad). assert (Z.of_nat (length rs) = n) as Hn.
  { rewrite (Forall2_length _ _ _ S1), length_rev. done. }
  assert (u32 A = A) as -> by (apply wrapu_small; lia). pose proof (frame_mapped _ _ _ _ _ _ F1 Hm) as Hm1.
  destruct (memset_run m1 A 0 pad) as (m2 & E2 & _ & F2); [lia|lia|intros x Hx; apply Hm1; lia|]. erewrite bind_eq; [|exact E2].
  pose proof (frame_mapped _ _ _ _ _ _ F2 Hm1) as Hm2. rewrite Hlen. fold n.
  destruct (push_call_run m2 A rs n n) as (m' & E & F & W0 & W4 & W8 & Wi & Wn); [done|lia|intros x Hx; apply Hm2; lia|].
  assert (A - 4 * (n + 4) = esp) as Ee by (unfold esp, A; lia). rewrite Ee in *. exists m'. split; [exact E|].
  assert (frame m1 m' esp (A + pad - esp)) as F1'.
  { eapply ram_frame_trans; [eapply frame_weaken; [exact F2|lia|lia]|eapply frame_weaken; [exact F|lia|lia]]. }
  split; [|eapply ram_frame_trans; [eapply frame_weaken; [exact F1|lia|lia]|eapply frame_weaken; [exact F1'|lia|lia]]].
  split; [done|]. split; [done|]. split; [done|]. exists (rev rs). split; [|split; [|done]].
  - apply Forall2_reverse in S1. rewrite <- !rev_reverse, rev_involutive in S1.
    eapply Forall2_impl; [eapply frame_strings; [exact F1'| |exact S1]; lia|]. intros p xs (Hc & H1 & H2). split; [done|]. lia.
  - intros i p Hi. pose proof (lookup_lt_Some _ _ _ Hi) as Hi'. rewrite length_rev in Hi'.
    rewrite rev_reverse in Hi. apply reverse_lookup_Some in Hi as [Hi _].
    replace (4 * Z.of_nat i) with (4 * (n - 1 - Z.of_nat (length rs - S i))) by lia. by apply Wi.
Qed.

End ArgStackFacts.

(** * The words of a command line *)

Import Bytes CString CStringFacts VAddr Ram ArgStack ArgStackFacts.

Module ArgWords.

(** The maximal sequences of characters that are not blanks. *)
Fixpoint split_words (w xs : list Z) : list (list Z) :=
  match xs with
  | [] => match w with [] => [] | _ => [w] end
  | x :: xs =>
      if x =? 32 then match w with [] => split_words [] xs | _ => w :: split_words [] xs end
      else split_words (w ++ [x]) xs
  end.
Definition words (xs : list Z) : list (list Z) := split_words [] xs.

Lemma blank_in x : bool_decide (x ∈ [32]) = (x =? 32).
Proof.
  destruct (Z.eqb_spec x 32) as [->|Hx].
  - apply bool_decide_eq_true. apply list_elem_of_here.
  - apply bool_decide_eq_false. intros H. apply list_elem_of_singleton in H. done.
Qed.

Lemma words_leading xs : words xs = words (drop (leading [32] xs) xs).
Proof.
  induction xs as [|x xs IH]; [done|]. cbn [leading]. rewrite blank_in.
  destruct (Z.eqb_spec x 32) as [->|Hx]; [exact IH|done].
Qed.
Lemma leading_stop xs x ys : drop (leading [32] xs) xs = x :: ys -> x <> 32.
Proof.
  induction xs as [|z xs IH]; cbn [leading]; [done|]. rewrite blank_in. destruct (Z.eqb_spec z 32) as [->|Hz]; [exact IH|].
  cbn. by intros [= -> _].
Qed.
Lemma split_words_token ys : forall w, w <> [] ->
  split_words w ys = (w ++ take (token_length [32] ys) ys) :: words (drop (S (token_length [32] ys)) ys).
Proof.
  induction ys as [|y ys IH]; intros w Hw; cbn [split_words token_length take drop].
  { rewrite app_nil_r. by destruct w. }
  rewrite blank_in. destruct (Z.eqb_spec y 32) as [->|Hy]; cbn [take drop].
  - rewrite app_nil_r. by destruct w.
  - rewrite IH by (by destruct w). by rewrite <- app_assoc.
Qed.

Lemma words_token xs :
  match token_split [32] xs with None => words xs = [] | Some (t, rest) => words xs = t :: words rest end.
Proof.
  unfold token_split. rewrite words_leading. pose proof (leading_stop xs) as Hs.
  destruct (drop (leading [32] xs) xs) as [|y ys]; [done|]. specialize (Hs y ys eq_refl).
  cbn [token_length]. rewrite blank_in, (proj2 (Z.eqb_neq y 32) Hs). cbn [take drop]. unfold words at 1. cbn [split_words].
  rewrite (proj2 (Z.eqb_neq y 32) Hs). by rewrite split_words_token.
Qed.

Lemma token_split_length xs t rest : token_split [32] xs = Some (t, rest) ->
  (leading [32%Z] xs + length t < length xs -> leading [32%Z] xs + length t + 1 + length rest = length xs)%nat /\
  (leading [32%Z] xs + length t <= length xs)%nat /\ (0 < length t)%nat.
Proof.
  unfold token_split. pose proof (leading_stop xs) as Hs. pose proof (length_drop xs (leading [32] xs)) as Hl.
  destruct (drop (leading [32] xs) xs) as [|y ys] eqn:Ed; [done|]. specialize (Hs y ys eq_refl). intros [= <- <-].
  cbn [token_length]. rewrite blank_in, (proj2 (Z.eqb_neq y 32) Hs). cbn [take drop length] in *.
  rewrite length_take, length_drop. lia.
Qed.

(** How many words there are, and their size. *)
Lemma words_length xs : (length (words xs) <= length xs)%nat.
Proof.
  unfold words. assert (forall w, length (split_words w xs) <= length xs + (match w with [] => 0 | _ => 1 end))%nat as Hl.
  { induction xs as [|x xs IH]; intros w; cbn; [by destruct w|].
    destruct (x =? 32); [|etrans; [apply IH|destruct w; cbn; lia]]. pose proof (IH []). destruct w; cbn in *; lia. }
  specialize (Hl []). cbn in Hl. lia.
Qed.
Lemma words_total xs : total (words xs) <= Z.of_nat (length xs) + 1.
Proof.
  unfold words. assert (forall w, total (split_words w xs) <= Z.of_nat (length w) + Z.of_nat (length xs) + 1) as Hl; [|apply (Hl [])].
  induction xs as [|x xs IH]; intros w; cbn [split_words length]; [destruct w; cbn [total length]; lia|].
  destruct (x =? 32); [|pose proof (IH (w ++ [x])); rewrite length_app in *; cbn [length] in *; lia].
  pose proof (IH []). cbn [length] in *. destruct w; cbn [total length] in *; lia.
Qed.

Section parse.
Context (blank : Z) (granted : Z -> bool).
Hypothesis granted_all : forall n, granted n = true.

Lemma parse_loop_run fuel : forall m s save0 cap params xs (s' := if s =? 0 then save0 else s),
  0 < s' -> cstr_at m s' xs -> 0 < blank -> cstr_at m blank [32] ->
  blank + 1 < s' \/ s' + Z.of_nat (length xs) <= blank -> (length (words xs) < fuel)%nat -> Z.of_nat (length params) < cap ->
  exists m' ps, (let! (token, save) := strtok_r s blank save0 in parse_loop blank granted fuel token save cap params) m =
      Ok (params ++ ps, m') /\
    Forall2 (fun p t => s' <= p /\ cstr_at m' p t /\ p + Z.of_nat (length t) <= s' + Z.of_nat (length xs)) ps (words xs) /\
    frame m m' s' (Z.of_nat (length xs)).
Proof.
  induction fuel as [|fuel IH]; intros m s save0 cap params xs s' Hs0 Hs Hb0 Hb Hd Hf Hc; [lia|].
  destruct (strtok_r_run m s blank xs [32] save0) as (tok & save & m1 & E1 & H1); fold s'; [lia|done|done|done|].
  erewrite bind_eq; [|exact E1]. cbv beta iota. cbn [parse_loop]. pose proof (words_token xs) as Hw. fold s' in H1.
  destruct (token_split [32] xs) as [[t rest]|] eqn:Et.
  2:{ destruct H1 as (-> & -> & _). exists m, []. rewrite Hw, app_nil_r. cbn [Z.eqb]. rewrite (proj2 (Z.eqb_neq cap 0)) by lia. split; [done|]. split; [constructor|apply ram_frame_refl]. }
  apply token_split_length in Et as (Hl & Hl' & Ht). destruct H1 as (Etok & Htok & Hrest & Hm1). rewrite Hw in Hf |- *. cbn [length] in Hf.
  rewrite (proj2 (Z.eqb_neq tok 0)) by lia. rewrite (proj2 (Z.ltb_lt _ _)) by done. erewrite bind_eq; [|done]. rewrite !granted_all.
  assert (frame m m1 s' (Z.of_nat (length xs))) as F1.
  { destruct Hm1 as [(-> & _)|(-> & _ & Hk)]; [apply ram_frame_refl|]. eapply frame_weaken; [apply insert_frame|lia|lia]. }
  assert (tok + Z.of_nat (length t) <= save <= s' + Z.of_nat (length xs) /\ save + Z.of_nat (length rest) <= s' + Z.of_nat (length xs) /\
    (rest = [] \/ tok + Z.of_nat (length t) < save)) as (Hsv & Hsr & Hcase).
  { destruct Hm1 as [(_ & -> & ->)|(_ & -> & Hk)]; cbn; [split; [lia|]; split; [lia|auto]|]. specialize (Hl Hk). split; [lia|]. split; [lia|]. right. lia. }
  set (cap' := if _ >=? cap then cap * 2 else cap).
  destruct (IH m1 0 save cap' (params ++ [tok]) rest) as (m' & ps & E & Hps & F); cbn [Z.eqb].
  { lia. } { done. } { done. }
  { destruct Hb as [Hb1 Hb2]. split; [|done]. eapply frame_bytes; [exact F1|exact Hb1|]. cbn. lia. }
  { lia. } { lia. }
  { unfold cap'. rewrite length_app. cbn [length]. destruct (Z.geb_spec (Z.of_nat (length params + 1)) cap); lia. }
  exists m', (tok :: ps). rewrite E, <- app_assoc. split; [done|]. cbn [Z.eqb] in Hps, F. split.
  - constructor.
    + split; [lia|]. split; [|lia]. destruct Htok as [Hb1 Hb2]. split; [|done]. eapply bytes_at_ext; [|exact Hb1].
      intros x Hx. rewrite length_app in Hx. cbn in Hx. apply (proj1 F). destruct Hcase as [->|]; cbn; lia.
    + eapply Forall2_impl; [exact Hps|]. intros p u (H1 & H2 & H3). split; [lia|]. split; [done|]. lia.
  - eapply ram_frame_trans; [exact F1|]. eapply frame_weaken; [exact F|lia|lia].
Qed.

(** The words of the command line, in order, each a string of its own. *)
Lemma parse_args_run m s xs : 0 < s -> cstr_at m s xs -> 0 < blank -> cstr_at m blank [32] ->
  blank + 1 < s \/ s + Z.of_nat (length xs) <= blank ->
  exists m' ps, parse_args blank granted s m = Ok (ps, m') /\
    Forall2 (fun p t => s <= p /\ cstr_at m' p t /\ p + Z.of_nat (length t) <= s + Z.of_nat (length xs)) ps (words xs) /\
    frame m m' s (Z.of_nat (length xs)).
Proof.
  intros Hs0 Hs Hb0 Hb Hd. unfold parse_args. erewrite bind_eq; [|done]. rewrite granted_all.
  pose proof (parse_loop_run (S (size m)) m s 0 100 [] xs) as H. cbv zeta in H. rewrite (proj2 (Z.eqb_neq s 0)) in H by lia.
  apply H; [done..| |cbn; lia]. pose proof (cstr_size _ _ _ Hs). pose proof (words_length xs). lia.
Qed.
End parse.

(** Without an array for the words. *)
Lemma parse_args_lost blank granted m s xs : granted 400 = false -> 0 < s -> cstr_at m s xs -> 0 < blank -> cstr_at m blank [32] -> words xs <> [] ->
  parse_args blank granted s m = Err WildAccess.
Proof.
  intros Hg Hs0 Hs Hb0 Hb Hne. unfold parse_args. erewrite bind_eq; [|done]. rewrite Hg.
  assert ((s =? 0) = false) as Es by lia. pose proof (strtok_r_run m s blank xs [32] 0) as H. rewrite Es in H.
  destruct H as (tok & save & m1 & E1 & H1); [lia|done|done|done|]. erewrite bind_eq; [|exact E1]. cbv beta iota. pose proof (words_token xs) as Hw.
  destruct (token_split [32] xs) as [[t rest]|]; [|done]. destruct H1 as (Etok & _). unfold limit. cbn [parse_loop].
  rewrite (proj2 (Z.eqb_neq tok 0)) by lia. done.
Qed.

End ArgWords.
