(* ===== verification/ArgProps.v ===== *)
(** * Correctness of the user stack

    A command line becomes the stack that the C library of the program expects; arguments
    that do not fit its page make the kernel access memory that is not mapped. *)

From S2P Require Import Prelude Bytes CString CStringFacts VAddr Ram ArgStack.
Import Bytes CString CStringFacts VAddr Ram ArgStack ArgStackFacts ArgWords.

Module ArgProps.

(** ** Arguments that do not fit *)

(** Nothing is mapped in the 64 kB below the page of the stack. *)
Definition guarded (m : mem) : Prop :=
  mapped m bottom PGSIZE /\ forall x, bottom - 65536 <= x < bottom -> m !! x = None.

Lemma guarded_frame m m' a n : guarded m -> frame m m' a n -> bottom <= a -> guarded m'.
Proof.
  intros [Hm Hg] F Ha. split; [by eapply frame_mapped|]. intros x Hx. rewrite (proj1 F) by lia. by apply Hg.
Qed.

Section below.
Context (m : mem) (a : Z) (Hg : guarded m) (Ha : bottom - 65536 <= a < bottom).

Lemma store_below v : store a v m = Err WildAccess.
Proof. unfold store. destruct Hg as [_ H]. by rewrite H. Qed.
Lemma memset_below v n : 0 < n -> memset a v n m = Err WildAccess.
Proof.
  intros Hn. unfold memset. rewrite valid_true by (left; unfold bottom, PHYS_BASE, PGSIZE in Ha; cbn in Ha; lia).
  erewrite bind_eq; [|done]. destruct (Z.to_nat n) as [|k] eqn:E; [lia|]. cbn [memset_loop].
  unfold bind at 1. rewrite (bind_err _ _ _ WildAccess); [done|]. apply store_below.
Qed.
Lemma store32_below v : store32 a v m = Err WildAccess.
Proof. unfold store32. cbn [le_encode]. apply bind_err. apply store_below. Qed.
Lemma memcpy_below src n : src <> 0 -> 0 < n -> mapped m src n -> memcpy a src n m = Err WildAccess.
Proof.
  intros Hs Hn Hm. unfold memcpy. rewrite !valid_true by (left; unfold bottom, PHYS_BASE, PGSIZE in Ha; cbn in Ha; lia).
  do 2 (erewrite bind_eq; [|done]). destruct (Z.to_nat n) as [|k] eqn:E; [lia|]. cbn [copy_up]. destruct (Hm src) as [b Hb]; [lia|].
  apply bind_err. erewrite bind_eq; [|by apply mem_load_run]. apply bind_err. apply store_below.
Qed.
End below.

Lemma push_strings_below args : forall xss m esp tot adds,
  Forall2 (arg_at m) args xss -> guarded m -> bottom <= esp <= PHYS_BASE -> total xss < 32768 -> esp - total xss < bottom ->
  push_strings args esp tot adds m = Err WildAccess.
Proof.
  assert (PHYS_BASE = 3221225472 /\ bottom = 3221221376) as (Eb & Eo) by done.
  induction args as [|a args IH]; intros xss m esp tot adds Ha Hg He Ht Hb; inversion Ha as [|? xs ? xss' H1 H2]; subst; cbn [total push_strings] in *; [lia|].
  pose proof (total_nonneg xss') as Hn. pose proof H1 as (Ha0 & Hs & Hd). set (n := Z.of_nat (length xs)) in *.
  erewrite bind_eq; [|apply strlen_run; [lia|exact Hs]]. fold n.
  assert (u32 (esp - n - 1) = esp - n - 1) as -> by (apply wrapu_small; lia). pose proof (cstr_mapped _ _ _ Hs) as Hm. fold n in Hm.
  destruct (decide (esp - n - 1 < bottom)) as [Hl|Hl].
  { apply bind_err. apply memcpy_below; [done|lia|lia|lia|done]. }
  destruct (memcpy_run m (esp - n - 1) a (n + 1)) as (m1 & E1 & C1); [lia|lia|lia|intros x Hx; apply Hg; change PGSIZE with 4096; lia|done|lia|].
  erewrite bind_eq; [|exact E1]. pose proof (copied_frame _ _ _ _ _ C1 Hm) as F1. apply (IH xss').
  - eapply Forall2_impl; [exact H2|]. intros b ys Hb'. eapply frame_arg; [exact F1|lia|lia|done].
  - eapply guarded_frame; [done|exact F1|lia].
  - lia.
  - lia.
  - lia.
Qed.

Lemma push_words_below ws : forall m esp, guarded m -> bottom <= esp <= PHYS_BASE -> 4 * Z.of_nat (length ws) < 32768 ->
  esp - 4 * Z.of_nat (length ws) < bottom -> push_words ws esp m = Err WildAccess.
Proof.
  assert (PHYS_BASE = 3221225472 /\ bottom = 3221221376) as (Eb & Eo) by done.
  induction ws as [|w ws IH]; intros m esp Hg He Hl Hb; cbn [push_words length] in *; [lia|].
  assert (u32 (esp - 4) = esp - 4) as -> by (apply wrapu_small; lia).
  destruct (decide (esp - 4 < bottom)); [apply bind_err, store32_below; [done|lia]|].
  destruct (store32_run m (esp - 4) w) as (m1 & E1 & W1 & F1); [intros x Hx; apply Hg; change PGSIZE with 4096; lia|].
  erewrite bind_eq; [|exact E1]. apply IH; [eapply guarded_frame; [done|exact F1|lia]|lia..].
Qed.

(** The words below the strings. *)
Lemma push_call_below m A rs argc (k := Z.of_nat (length rs)) : guarded m -> bottom <= A <= PHYS_BASE -> 4 * k < 32768 ->
  A - 4 * (k + 4) < bottom ->
  (let! _ := memset (u32 (A - 4)) 0 4 in
   let! esp := push_words rs (u32 (A - 4)) in
   let! esp := push_words [esp] esp in
   let! esp := push_words [argc] esp in
   let esp := u32 (esp - 4) in
   let! _ := memset esp 0 4 in
   ret esp) m = Err WildAccess.
Proof.
  assert (PHYS_BASE = 3221225472 /\ bottom = 3221221376) as (Eb & Eo) by done.
  intros Hg HA Hk Hb. assert (u32 (A - 4) = A - 4) as -> by (apply wrapu_small; lia).
  destruct (decide (A - 4 < bottom)); [apply bind_err, memset_below; [done|lia|lia]|].
  destruct (memset_zero_run m (A - 4)) as (m1 & E1 & F1 & _); [lia|intros x Hx; apply Hg; change PGSIZE with 4096; lia|].
  erewrite bind_eq; [|exact E1]. assert (guarded m1) as Hg1 by (eapply guarded_frame; [exact Hg|exact F1|lia]).
  destruct (decide (A - 4 - 4 * k < bottom)); [apply bind_err, push_words_below; [done|lia..]|].
  destruct (push_words_run rs m1 (A - 4)) as (m2 & E2 & F2 & _); [lia|lia|intros x Hx; apply Hg1; change PGSIZE with 4096; lia|].
  erewrite bind_eq; [|exact E2]. assert (guarded m2) as Hg2 by (eapply guarded_frame; [exact Hg1|exact F2|lia]).
  fold k. set (V := A - 4 - 4 * k) in *.
  destruct (decide (V - 4 < bottom)); [apply bind_err, push_words_below; [done|lia|cbn; lia|cbn; lia]|].
  destruct (push_word_run m2 V V) as (m3 & E3 & F3 & _); [lia|intros x Hx; apply Hg2; change PGSIZE with 4096; lia|].
  erewrite bind_eq; [|exact E3]. assert (guarded m3) as Hg3 by (eapply guarded_frame; [exact Hg2|exact F3|lia]).
  destruct (decide (V - 8 < bottom)); [apply bind_err, push_words_below; [done|lia|cbn; lia|cbn; lia]|].
  destruct (push_word_run m3 (V - 4) argc) as (m4 & E4 & F4 & _); [lia|intros x Hx; apply Hg3; change PGSIZE with 4096; lia|].
  erewrite bind_eq; [|exact E4]. assert (guarded m4) as Hg4 by (eapply guarded_frame; [exact Hg3|exact F4|lia]).
  assert (u32 (V - 4 - 4 - 4) = V - 12) as -> by (replace (V - 4 - 4 - 4) with (V - 12) by lia; apply wrapu_small; lia).
  apply bind_err, memset_below; [done|lia|lia].
Qed.

Lemma push_stack_below m args xss : Forall2 (arg_at m) args xss -> guarded m -> total xss < 32768 -> 4 * Z.of_nat (length xss) < 32768 ->
  PGSIZE < stack_size xss -> push_stack args m = Err WildAccess.
Proof.
  assert (PHYS_BASE = 3221225472 /\ PGSIZE = 4096 /\ bottom = 3221221376) as (Eb & Eg & Eo) by done.
  intros Ha Hg Ht Hl Hs. pose proof (total_nonneg xss) as Hn. pose proof (Z.mod_pos_bound (total xss) 4 ltac:(lia)) as Hr.
  assert (Forall2 (arg_at m) (rev args) (rev xss)) as Ha' by (rewrite !rev_reverse; by apply Forall2_reverse). unfold push_stack.
  destruct (decide (PHYS_BASE - total xss < bottom)).
  { apply bind_err. eapply push_strings_below; [exact Ha'|done|lia|rewrite total_rev; lia|rewrite total_rev; lia]. }
  destruct (push_strings_run (rev args) (rev xss) m PHYS_BASE 0 []) as (m1 & rs & E1 & S1 & F1); rewrite ?total_rev in *.
  { done. } { apply Hg. } { lia. } { lia. } { lia. }
  erewrite bind_eq; [|exact E1]. rewrite app_nil_r, Z.add_0_l, rev_involutive. rewrite Z.rem_mod_nonneg by lia.
  assert (guarded m1) as Hg1 by (eapply guarded_frame; [exact Hg|exact F1|lia]).
  set (pad := 4 - total xss mod 4). set (A := PHYS_BASE - total xss - pad). assert (u32 A = A) as -> by (apply wrapu_small; lia).
  assert (Z.of_nat (length rs) = Z.of_nat (length xss)) as Hk by (rewrite (Forall2_length _ _ _ S1), length_rev; done).
  destruct (decide (A < bottom)); [apply bind_err, memset_below; [done|lia|lia]|].
  destruct (memset_run m1 A 0 pad) as (m2 & E2 & _ & F2); [lia|lia|intros x Hx; apply Hg1; lia|]. erewrite bind_eq; [|exact E2].
  unfold stack_size in Hs. fold pad in Hs.
  apply push_call_below; [eapply guarded_frame; [exact Hg1|exact F2|lia]|lia|lia|lia].
Qed.

(** ** Properties *)

(** C23: a command line in memory becomes the initial stack of the program, when there is
    memory for the array of its words and the stack fits a page: [load] finds the words, and
    [push_stack] leaves, from the stack pointer up, a return address, the number of words, the
    address of the array, the array with its null pointer, and the strings; the stack pointer
    is aligned to words.  When the stack of a command line of less than a page does not fit, the
    kernel accesses memory below the stack page, where nothing is mapped, for [push_stack] makes
    no check; and when there is no memory for the array, [load] writes the first word through
    the null pointer. *)
Theorem command_line_stack (blank : Z) (granted : Z -> bool) (m : mem) s xs :
  PHYS_BASE <= s -> cstr_at m s xs -> PHYS_BASE <= blank -> cstr_at m blank [32] ->
  blank + 1 < s \/ s + Z.of_nat (length xs) <= blank ->
  let stack := (let! args := parse_args blank granted s in push_stack args) m in
  ((forall n, granted n = true) -> mapped m bottom PGSIZE -> stack_size (words xs) <= PGSIZE ->
     exists m' esp, stack = Ok (esp, m') /\ laid_out m' esp (words xs) /\ esp mod 4 = 0 /\ bottom <= esp) /\
  ((forall n, granted n = true) -> guarded m -> Z.of_nat (length xs) < PGSIZE -> PGSIZE < stack_size (words xs) -> stack = Err WildAccess) /\
  (granted 400 = false -> words xs <> [] -> stack = Err WildAccess).
Proof.
  intros Hs0 Hs Hb0 Hb Hd stack. assert (PHYS_BASE = 3221225472 /\ bottom = PHYS_BASE - PGSIZE) as (Eb & Eo) by done.
  assert ((forall n, granted n = true) -> exists m1 ps, stack = push_stack ps m1 /\ Forall2 (arg_at m1) ps (words xs) /\ frame m m1 s (Z.of_nat (length xs))) as Hparse.
  { intros Hgr. destruct (parse_args_run blank granted Hgr m s xs) as (m1 & ps & E1 & Hps & F1); [lia|done|lia|done|done|].
    exists m1, ps. split; [unfold stack; by erewrite bind_eq; [|exact E1]|]. split; [|done].
    eapply Forall2_impl; [exact Hps|]. intros p t (H1 & H2 & H3). split; [lia|]. split; [done|]. lia. }
  split; [|split].
  - intros Hgr Hm Hz. destruct (Hparse Hgr) as (m1 & ps & -> & Ha & F1).
    destruct (push_stack_run m1 ps (words xs)) as (m' & E & L & F); [done|by eapply frame_mapped|done|].
    eexists m', _. split; [exact E|]. split; [exact L|]. split; [|lia]. unfold stack_size.
    replace (_ - _) with ((PHYS_BASE / 4 - total (words xs) / 4 - (Z.of_nat (length (words xs)) + 5)) * 4); [apply Z_mod_mult|].
    pose proof (Z.div_mod (total (words xs)) 4). rewrite Eb. change (3221225472 / 4) with 805306368. lia.
  - intros Hgr Hg Hl Hz. destruct (Hparse Hgr) as (m1 & ps & -> & Ha & F1). pose proof (words_total xs). pose proof (words_length xs).
    change PGSIZE with 4096 in *. apply (push_stack_below m1 ps (words xs)); [done|eapply guarded_frame; [exact Hg|exact F1|lia]|lia|lia|done].
  - intros Hg Hne. apply bind_err. by apply (parse_args_lost blank granted m s xs); [|lia| |lia| |].
Qed.

(** When the arguments with their pointers take more than the page of the stack, the
    kernel writes below it: [push_stack] makes no check, and accesses memory that is not
    mapped. *)
Theorem push_stack_overflow (m : mem) args xss :
  Forall2 (arg_at m) args xss -> guarded m -> total xss < 32768 -> 4 * Z.of_nat (length xss) < 32768 ->
  PGSIZE < stack_size xss -> push_stack args m = Err WildAccess.
Proof. apply push_stack_below. Qed.

(** ** Instances *)

(** A stack page, ["echo  x"] at [PHYS_BASE + 16] and a blank at [PHYS_BASE]. *)
Definition page_mem : mem := ram_of bottom PGSIZE 0.
Definition command : list Z := [101; 99; 104; 111; 32; 32; 120].
Fixpoint write_bytes (a : Z) (xs : list Z) (m : mem) : mem :=
  match xs with [] => m | x :: xs => <[a := x]> (write_bytes (a + 1) xs m) end.
Definition command_mem : mem := write_bytes PHYS_BASE [32; 0] (write_bytes (PHYS_BASE + 16) (command ++ [0]) page_mem).

Lemma write_bytes_frame xs : forall a m b n, a + Z.of_nat (length xs) <= b \/ b + n <= a -> mapped m b n -> mapped (write_bytes a xs m) b n.
Proof. induction xs as [|x xs IH]; intros a m b n Hd Hm; cbn; [done|]. apply mapped_insert. apply IH; [cbn in Hd; lia|done]. Qed.
Lemma write_bytes_lookup xs : forall a m i, (i < length xs)%nat -> write_bytes a xs m !! (a + Z.of_nat i) = xs !! i.
Proof.
  induction xs as [|x xs IH]; intros a m i Hi; cbn in *; [lia|]. destruct i as [|i]; [by rewrite Z.add_0_r, lookup_insert_eq|].
  rewrite lookup_insert_ne by lia. replace (a + Z.of_nat (S i)) with (a + 1 + Z.of_nat i) by lia. apply IH. lia.
Qed.
Lemma write_bytes_other xs : forall a m x, x < a \/ a + Z.of_nat (length xs) <= x -> write_bytes a xs m !! x = m !! x.
Proof. induction xs as [|y xs IH]; intros a m x Hx; cbn in *; [done|]. rewrite lookup_insert_ne by lia. apply IH. lia. Qed.
Lemma write_bytes_at xs a m : bytes_at (write_bytes a xs m) a xs.
Proof. intros i x Hx. rewrite write_bytes_lookup by (by eapply lookup_lt_Some). done. Qed.

Lemma command_line_stack_witness : exists m' esp,
  (let! args := parse_args PHYS_BASE (fun _ => true) (PHYS_BASE + 16) in push_stack args) command_mem = Ok (esp, m') /\
  laid_out m' esp [[101; 99; 104; 111]; [120]] /\ esp mod 4 = 0 /\ bottom <= esp.
Proof.
  apply (command_line_stack PHYS_BASE (fun _ => true) command_mem (PHYS_BASE + 16) command).
  - lia.
  - split; [|repeat constructor; lia]. unfold command_mem. eapply bytes_at_ext; [|apply write_bytes_at].
    intros x Hx. apply write_bytes_other. cbn [length]. lia.
  - lia.
  - split; [apply write_bytes_at|repeat constructor; lia].
  - cbn. lia.
  - done.
  - unfold command_mem. apply write_bytes_frame; [right; by vm_compute|]. apply write_bytes_frame; [right; by vm_compute|]. apply ram_of_mapped.
  - by vm_compute.
Defined.

Definition letter_mem : mem := write_bytes PHYS_BASE [97; 0] page_mem.
Lemma letter_args n : Forall2 (arg_at letter_mem) (replicate n PHYS_BASE) (replicate n [97]).
Proof.
  apply Forall2_replicate. split; [done|]. split; [|by right]. split; [apply write_bytes_at|repeat constructor; lia].
Qed.
Lemma letter_guarded : guarded letter_mem.
Proof.
  assert (bottom = 3221221376 /\ PHYS_BASE = 3221225472) as [Eo Eb] by done.
  split; [apply write_bytes_frame; [right; by vm_compute|apply ram_of_mapped]|]. intros x Hx.
  unfold letter_mem. rewrite write_bytes_other by (cbn [length]; lia).
  apply ram_of_other. lia.
Qed.

(** 700 arguments ["a"] make 1400 bytes of strings and 2800 of pointers. *)
Lemma push_stack_overflow_witness : push_stack (replicate 700 PHYS_BASE) letter_mem = Err WildAccess.
Proof.
  apply (push_stack_overflow letter_mem (replicate 700 PHYS_BASE) (replicate 700 [97])).
  - exact (letter_args 700).
  - exact letter_guarded.
  - by vm_compute.
  - by vm_compute.
  - by vm_compute.
Defined.

End ArgProps.
