(* ===== verification/Loader.v ===== *)
(** * userprog/process.c: loading an executable

    The loader uses the file system through [FileOps], the functions of file.c and filesys.c
    that it calls; the state of a loading thread is the file system, the virtual memory with
    its page allocator, and the two fields of the thread that [load] sets. *)

From S2P Require Import Prelude Bytes CString CStringFacts VAddr Ram Palloc PageDir ArgStack.
Import Bytes CString CStringFacts VAddr Ram Palloc PageDir ArgStack.

Module Loader.

Class FileOps (F : Type) := {
  open_file : list Z -> M F (option Z);
  deny_file : Z -> M F unit;
  seek_file : Z -> Z -> M F unit;
  read_file : Z -> Z -> M F (list Z);
  length_file : Z -> M F Z }.

(** ** ELF structures *)

Record Elf32_Ehdr := {
  e_ident : list Z; e_type : Z; e_machine : Z; e_version : Z; e_entry : Z; e_phoff : Z;
  e_phentsize : Z; e_phnum : Z }.
Record Elf32_Phdr := {
  p_type : Z; p_offset : Z; p_vaddr : Z; p_filesz : Z; p_memsz : Z; p_flags : Z }.

(** The 16-bit or 32-bit field at an offset. *)
Definition half (ofs : Z) (bs : list Z) : Z := le_decode (sub_bytes ofs 2 bs).
Definition word (ofs : Z) (bs : list Z) : Z := le_decode (sub_bytes ofs 4 bs).
Definition ehdr_of (bs : list Z) : Elf32_Ehdr :=
  {| e_ident := sub_bytes 0 16 bs; e_type := half 16 bs; e_machine := half 18 bs; e_version := word 20 bs;
     e_entry := word 24 bs; e_phoff := word 28 bs; e_phentsize := half 42 bs; e_phnum := half 44 bs |}.
Definition phdr_of (bs : list Z) : Elf32_Phdr :=
  {| p_type := word 0 bs; p_offset := word 4 bs; p_vaddr := word 8 bs; p_filesz := word 16 bs;
     p_memsz := word 20 bs; p_flags := word 24 bs |}.
Definition EHDR_SIZE : Z := 52.
Definition PHDR_SIZE : Z := 32.

Definition PT_LOAD : Z := 1.
Definition PT_DYNAMIC : Z := 2.
Definition PT_INTERP : Z := 3.
Definition PT_SHLIB : Z := 5.
Definition PF_W : Z := 2.

(** [ROUND_UP] of a 32-bit number to whole pages. *)
Definition round_page (x : Z) : Z := u32 (u32 (x + PGSIZE - 1) / PGSIZE * PGSIZE).

(** Whether the header is acceptable, with [file_length] the length of the file. *)
Definition validate_segment (phdr : Elf32_Phdr) (file_length : Z) : bool :=
  if negb (Z.land (p_offset phdr) PGMASK =? Z.land (p_vaddr phdr) PGMASK) then false
  else if p_offset phdr >? u32 file_length then false
  else if p_memsz phdr <? p_filesz phdr then false
  else if p_memsz phdr =? 0 then false
  else if negb (is_user_vaddr (p_vaddr phdr)) then false
  else if negb (is_user_vaddr (u32 (p_vaddr phdr + p_memsz phdr))) then false
  else if u32 (p_vaddr phdr + p_memsz phdr) <? p_vaddr phdr then false
  else if p_vaddr phdr <? PGSIZE then false
  else true.

(** The numbers of bytes to read and to clear for a segment. *)
Definition segment_sizes (phdr : Elf32_Phdr) : Z * Z :=
  let page_offset := Z.land (p_vaddr phdr) PGMASK in
  if p_filesz phdr >? 0 then
    let read_bytes := u32 (page_offset + p_filesz phdr) in
    (read_bytes, u32 (round_page (u32 (page_offset + p_memsz phdr)) - read_bytes))
  else (0, round_page (u32 (page_offset + p_memsz phdr))).

Definition check_header (bs : list Z) : bool :=
  let ehdr := ehdr_of bs in
  negb (negb (Z.of_nat (length bs) =? EHDR_SIZE)
        || negb (bool_decide (take 7 (e_ident ehdr) = [127; 69; 76; 70; 1; 1; 1]))
        || negb (e_type ehdr =? 2) || negb (e_machine ehdr =? 3) || negb (e_version ehdr =? 1)
        || negb (e_phentsize ehdr =? PHDR_SIZE) || (e_phnum ehdr >? 1024)).

Section load.
Context {F : Type} `{FileOps F}.

Record task := { tfs : F; tvm : vm; pagedir : Z; executable : option Z }.

Definition on_fs {A} (c : M F A) : M task A := fun t =>
  match c (tfs t) with
  | Ok (a, f) => Ok (a, {| tfs := f; tvm := tvm t; pagedir := pagedir t; executable := executable t |})
  | Err f => Err f
  end.
Definition on_vm {A} (c : M vm A) : M task A := fun t =>
  match c (tvm t) with
  | Ok (a, v) => Ok (a, {| tfs := tfs t; tvm := v; pagedir := pagedir t; executable := executable t |})
  | Err f => Err f
  end.
Definition on_mem {A} (c : M mem A) : M task A := on_vm (on_phys (in_ram c)).

(** The machine's memory size, the literal [" "], and whether the allocations of the array of
    arguments succeed. *)
Context (init_ram_pages blank : Z) (granted : Z -> bool).

Definition install_page (upage kpage : Z) (writable : bool) : M task bool :=
  let! pd := gets pagedir in
  let! old := on_vm (pagedir_get_page pd upage) in
  if old =? 0 then on_vm (pagedir_set_page init_ram_pages pd upage kpage writable) else ret false.

(** Bytes that [file_read] puts at [a]. *)
Fixpoint store_bytes (a : Z) (bs : list Z) : M mem unit :=
  match bs with [] => ret tt | b :: bs => do! store a b; store_bytes (a + 1) bs end.

(** A page of the segment: [page_read_bytes] from the file, the rest cleared. *)
Definition load_page (file upage page_read_bytes : Z) (writable : bool) : M task bool :=
  let page_zero_bytes := PGSIZE - page_read_bytes in
  let! kpage := on_vm (on_phys (palloc_get_page PAL_USER)) in
  if kpage =? 0 then ret false
  else
    let! bs := on_fs (read_file file page_read_bytes) in
    do! on_mem (store_bytes kpage bs);
    if negb (Z.of_nat (length bs) =? page_read_bytes) then
      do! on_vm (on_phys (palloc_free_page kpage)); ret false
    else
      let! _ := on_mem (memset (kpage + page_read_bytes) 0 page_zero_bytes) in
      let! installed := install_page upage kpage writable in
      if negb installed then do! on_vm (on_phys (palloc_free_page kpage)); ret false
      else ret true.
Fixpoint segment_loop (fuel : nat) (file upage read_bytes zero_bytes : Z) (writable : bool) : M task bool :=
  match fuel with
  | O => fail OutOfFuel
  | S fuel =>
      if (read_bytes >? 0) || (zero_bytes >? 0) then
        let page_read_bytes := if read_bytes <? PGSIZE then read_bytes else PGSIZE in
        let page_zero_bytes := PGSIZE - page_read_bytes in
        let! ok := load_page file upage page_read_bytes writable in
        if ok : bool then
          segment_loop fuel file (u32 (upage + PGSIZE)) (u32 (read_bytes - page_read_bytes))
            (u32 (zero_bytes - page_zero_bytes)) writable
        else ret false
      else ret true
  end.
(** A round for each page and the one that ends the loop. *)
Definition load_segment (file ofs upage read_bytes zero_bytes : Z) (writable : bool) : M task bool :=
  do! assert (u32 (read_bytes + zero_bytes) mod PGSIZE =? 0);
  do! assert (pg_ofs upage =? 0);
  do! assert (Z.rem ofs PGSIZE =? 0);
  do! on_fs (seek_file file ofs);
  segment_loop (S (Z.to_nat (u32 (read_bytes + zero_bytes) / PGSIZE))) file upage read_bytes zero_bytes writable.

(** A header of type [PT_LOAD]. *)
Definition load_header (file : Z) (phdr : Elf32_Phdr) : M task bool :=
  let! len := on_fs (length_file file) in
  if validate_segment phdr len then
    let writable := negb (Z.land (p_flags phdr) PF_W =? 0) in
    let file_page := Z.land (p_offset phdr) (u32 (Z.lnot PGMASK)) in
    let mem_page := Z.land (p_vaddr phdr) (u32 (Z.lnot PGMASK)) in
    let (read_bytes, zero_bytes) := segment_sizes phdr in
    load_segment file (s32 file_page) mem_page read_bytes zero_bytes writable
  else ret false.
(** The program headers from [file_ofs] on, [n] of them. *)
Fixpoint headers_loop (n : nat) (file file_ofs : Z) : M task bool :=
  match n with
  | O => ret true
  | S n =>
      let! len := on_fs (length_file file) in
      if (file_ofs <? 0) || (file_ofs >? len) then ret false
      else
        do! on_fs (seek_file file file_ofs);
        let! bs := on_fs (read_file file PHDR_SIZE) in
        if negb (Z.of_nat (length bs) =? PHDR_SIZE) then ret false
        else
          let phdr := phdr_of bs in
          let file_ofs := s32 (file_ofs + PHDR_SIZE) in
          if (p_type phdr =? PT_DYNAMIC) || (p_type phdr =? PT_INTERP) || (p_type phdr =? PT_SHLIB) then ret false
          else if p_type phdr =? PT_LOAD then
            let! ok := load_header file phdr in
            if ok : bool then headers_loop n file file_ofs else ret false
          else headers_loop n file file_ofs
  end.

(** ** The stack *)

(** A computation that sees the frame [kpage] at the user address [upage] too. *)
Definition see_page (upage kpage : Z) (m : mem) : mem :=
  foldr (fun i m => match m !! (kpage + Z.of_nat i) with Some b => <[upage + Z.of_nat i := b]> m | None => m end)
    m (seq 0 (Z.to_nat PGSIZE)).
Definition leave_page (upage kpage : Z) (m : mem) : mem :=
  foldr (fun i m => match m !! (upage + Z.of_nat i) with
                    | Some b => delete (upage + Z.of_nat i) (<[kpage + Z.of_nat i := b]> m)
                    | None => m
                    end)
    m (seq 0 (Z.to_nat PGSIZE)).
Definition through_page {A} (upage kpage : Z) (c : M mem A) : M mem A := fun m =>
  match c (see_page upage kpage m) with Ok (a, m) => Ok (a, leave_page upage kpage m) | Err f => Err f end.

(** The stack pointer, or the failure. *)
Definition setup_stack (args : list Z) : M task (option Z) :=
  let! kpage := on_vm (on_phys (palloc_get_page (Z.lor PAL_USER PAL_ZERO))) in
  if negb (kpage =? 0) then
    let! success := install_page (PHYS_BASE - PGSIZE) kpage true in
    if success : bool then
      let! esp := on_mem (through_page (PHYS_BASE - PGSIZE) kpage (push_stack args)) in
      ret (Some esp)
    else do! on_vm (on_phys (palloc_free_page kpage)); ret None
  else ret None.

(** ** load *)

Definition set_pagedir (pd : Z) : M task unit :=
  modify (fun t => {| tfs := tfs t; tvm := tvm t; pagedir := pd; executable := executable t |}).
Definition set_executable (f : Z) : M task unit :=
  modify (fun t => {| tfs := tfs t; tvm := tvm t; pagedir := pagedir t; executable := Some f |}).

(** The string at [p] with its terminator. *)
Fixpoint string_loop (fuel : nat) (p : Z) : M mem (list Z) :=
  match fuel with
  | O => fail OutOfFuel
  | S fuel => let! c := load p in if c =? 0 then ret [0] else let! cs := string_loop fuel (p + 1) in ret (c :: cs)
  end.
Definition read_string (p : Z) : M mem (list Z) := let! fuel := limit in string_loop fuel p.

(** The entry point and the stack pointer.  Without a word on the command line the first
    element of the array of arguments is not initialised. *)
Definition load (file_name : Z) : M task (option (Z * Z)) :=
  let! args := on_mem (parse_args blank granted file_name) in
  let! pd := on_vm pagedir_create in
  do! set_pagedir pd;
  if pd =? 0 then ret None
  else
    do! on_vm (pagedir_activate pd);
    match args with
    | [] => fail WildAccess
    | arg :: _ =>
        let! name := on_mem (read_string arg) in
        let! file := on_fs (open_file name) in
        match file with
        | None => ret None
        | Some file =>
            do! set_executable file;
            do! on_fs (deny_file file);
            let! bs := on_fs (read_file file EHDR_SIZE) in
            if check_header bs then
              let ehdr := ehdr_of bs in
              let! ok := headers_loop (Z.to_nat (e_phnum ehdr)) file (s32 (e_phoff ehdr)) in
              if ok : bool then
                let! esp := setup_stack args in
                match esp with
                | Some esp => ret (Some (e_entry ehdr, esp))
                | None => ret None
                end
              else ret None
            else ret None
        end
    end.

End load.
Arguments task : clear implicits.
Arguments Build_task {F} _ _ _ _.

End Loader.
