(* ===== verification/LoaderFacts.v ===== *)
(** * The address space of a process while it is loaded

    [space_ok] says that the pages mapped in user space are pages of the user pool that are
    in use.  A page taken from that pool, filled and installed changes what the process sees
    at the addresses of that page only. *)

From S2P Require Import Prelude Bytes CString CStringFacts Bitmap VAddr Ram Palloc PageDir PageDirFacts PageDirProps ArgStack Loader.
Import Bytes CString CStringFacts VAddr Ram Palloc PageDir PageDirFacts PageDirDestroy PageDirProps ArgStack Loader.

Module LoaderFacts.
Import Bitmap (bit_cnt, bit).

(** ** The interface to files *)

(** [holds s f bs pos]: the open file [f] has the contents [bs] and the position [pos]. *)
Class FileLaws (F : Type) `{FileOps F} := {
  holds : F -> Z -> list Z -> Z -> Prop;
  holds_bytes s f bs p : holds s f bs p -> Forall is_byte bs /\ Z.of_nat (length bs) < 2 ^ 31;
  seek_law s f bs p q : holds s f bs p -> 0 <= q -> exists s', seek_file f q s = Ok (tt, s') /\ holds s' f bs q;
  read_law s f bs p n : holds s f bs p -> 0 <= p -> 0 <= n < 2 ^ 31 -> p + n < 2 ^ 31 ->
    exists s', read_file f n s = Ok (sub_bytes p n bs, s') /\ holds s' f bs (p + Z.of_nat (length (sub_bytes p n bs)));
  length_law s f bs p : holds s f bs p -> exists s', length_file f s = Ok (Z.of_nat (length bs), s') /\ holds s' f bs p }.

(** ** Address spaces *)

Definition frame_of (w : Z) : Z := PHYS_BASE + 4096 * (w / 4096).

Record space_ok (n : Z) (s : vm) (pd : Z) (T : gmap Z Z) : Prop := {
  sp_dir : dir_ok s pd T;
  sp_init : pd <> init_page_dir s;
  sp_used : forall va, user_addr va -> Z.testbit (pte_of s T va) 0 = true -> page_used true s (frame_of (pte_of s T va));
  sp_size : base (user_pool (vphys s)) + 4096 * bit_cnt (used_map (user_pool (vphys s))) <= PHYS_BASE + 4096 * n /\ n <= 2 ^ 18 }.

(** What the process sees at an address. *)
Definition user_byte (s : vm) (T : gmap Z Z) (va : Z) : option Z :=
  if Z.testbit (pte_of s T va) 0 then vram s !! (frame_of (pte_of s T va) + va mod 4096) else None.

(** A page of the user pool: where it is, and that it is no page of the directory. *)
Lemma user_page_addr n s pd T a : space_ok n s pd T -> page_used true s a ->
  PHYS_BASE <= a /\ a + 4096 < 2 ^ 32 /\ a mod 4096 = 0 /\ mapped (vram s) a 4096 /\ (a - PHYS_BASE) / 4096 < n.
Proof.
  intros [Hd _ _ [Hz Hn]] (j & -> & Hj & _). unfold pool_in in *. cbn [pool_of] in *. pose proof (phys_user _ (dir_phys _ _ _ Hd)) as Hu.
  pose proof (pool_end _ _ Hu). pose proof (pool_start _ _ Hu). destruct (page_address _ _ j Hu) as (_ & _ & Hm); [lia..|].
  split; [lia|]. split; [lia|]. split; [done|]. split; [intros x Hx; apply (pool_mapped _ _ Hu); lia|].
  apply Z.div_lt_upper_bound; lia.
Qed.
Lemma user_page_apart s a b : phys_ok (vphys s) -> page_used true s a -> kernel_page s b -> b + 4096 <= a.
Proof.
  intros Hp (j & -> & Hj & _) (i & -> & Hi & _). pose proof (phys_apart _ Hp). unfold pool_in in *. cbn [pool_of] in *. lia.
Qed.
Lemma user_page_outside s pd T a x : dir_ok s pd T -> page_used true s a -> a <= x < a + 4096 -> outside pd T x.
Proof.
  intros Hd Ha Hx. split.
  - pose proof (user_page_apart s a pd (dir_phys _ _ _ Hd) Ha (dir_page _ _ _ Hd)). lia.
  - intros i pt Hi. destruct (dir_table _ _ _ Hd _ _ Hi) as (_ & Hpt & _). pose proof (user_page_apart s a pt (dir_phys _ _ _ Hd) Ha Hpt). lia.
Qed.
Lemma user_pages_apart s a b : page_used true s a -> page_used true s b -> a <> b -> a + 4096 <= b \/ b + 4096 <= a.
Proof. intros (i & -> & _) (j & -> & _) Hne. lia. Qed.

(** ** Changes of a page of the user pool *)

(** The directory depends on the pages of the kernel pool only. *)
Lemma user_change_ok s s' pd T a : dir_ok s pd T -> phys_ok (vphys s') -> (forall b, kernel_page s b -> kernel_page s' b) ->
  frame (vram s) (vram s') a 4096 -> ram_bytes (vram s') -> (forall b, kernel_page s b -> b + 4096 <= a) -> cr3 s' = cr3 s ->
  dir_ok s' pd T /\ forall va, user_addr va -> pte_of s' T va = pte_of s T va.
Proof.
  intros Hd Hp Hk F Hb Hap Hc.
  assert (forall b k, kernel_page s b -> 0 <= k < 1024 -> read32 (vram s') (b + 4 * k) = read32 (vram s) (b + 4 * k)) as Hread.
  { intros b k Hkb Hr. pose proof (Hap b Hkb). apply (read32_frame _ _ _ _ _ F). lia. }
  split.
  - split; [done|done|apply Hk, Hd| | |apply Hd| |rewrite Hc; apply Hd].
    + intros i Hi. rewrite Hread by (try apply Hd; lia). by apply (dir_entry _ _ _ Hd).
    + intros i pt Hi. destruct (dir_table _ _ _ Hd _ _ Hi) as (? & Hpt & ?). split; [done|]. split; [by apply Hk|done].
    + intros i pt k Hi Hr. destruct (dir_table _ _ _ Hd _ _ Hi) as (_ & Hpt & _).
      rewrite Hread by done. exact (dir_pte _ _ _ Hd i pt k Hi Hr).
  - intros va Hva. unfold pte_of. destruct (T !! pd_no va) as [pt|] eqn:E; [|done].
    destruct (dir_table _ _ _ Hd _ _ E) as (_ & Hpt & _). apply Hread; [done|]. by apply index_range.
Qed.

Lemma write_page_ok n s pd T a m : space_ok n s pd T -> page_used true s a -> frame (vram s) m a 4096 -> ram_bytes m ->
  space_ok n (set_vram m s) pd T /\ (forall va, user_addr va -> pte_of (set_vram m s) T va = pte_of s T va) /\
  (forall b, page_used true (set_vram m s) b <-> page_used true s b).
Proof.
  intros Hs Ha F Hb. pose proof (sp_dir _ _ _ _ Hs) as Hd. pose proof (dir_phys _ _ _ Hd) as Hp.
  destruct (user_change_ok s (set_vram m s) pd T a Hd (phys_frame _ _ _ _ Hp F)) as [Hd' Hpte]; [done|done|done| |done|].
  { intros b. by apply user_page_apart. }
  split; [|by split]. split; [done|apply Hs| |apply Hs]. intros va Hva. rewrite Hpte by done. apply (sp_used _ _ _ _ Hs va Hva).
Qed.

Lemma take_page_run n s pd T flags : space_ok n s pd T -> has flags PAL_USER = true -> has flags PAL_ASSERT = false ->
  (exists a s', on_phys (palloc_get_page flags) s = Ok (a, s') /\ space_ok n s' pd T /\ page_used true s' a /\
     (forall va, user_addr va -> pte_of s' T va = pte_of s T va) /\ (forall b, page_used true s b -> page_used true s' b /\ b <> a) /\
     frame (vram s) (vram s') a 4096 /\ (if has flags PAL_ZERO then bytes_at (vram s') a (replicate (Z.to_nat 4096) 0) else vram s' = vram s) /\
     kernel_pool (vphys s') = kernel_pool (vphys s)) \/
  (no_room (user_pool (vphys s)) 1 /\ on_phys (palloc_get_page flags) s = Ok (0, s)).
Proof.
  intros Hs Hu Has. pose proof (sp_dir _ _ _ _ Hs) as Hd. pose proof (dir_phys _ _ _ Hd) as Hp.
  destruct (palloc_get_multiple_run (vphys s) flags 1 Hp) as [(j & p' & E & Hj & Hle & Ha & Hset & Hz)|[Hno E]]; [lia| |].
  2:{ right. rewrite Hu, Has in *. split; [done|]. unfold palloc_get_page. rewrite (on_phys_run _ _ _ _ E). by destruct s. }
  left. rewrite Hu in *. cbn [pool_of] in *. set (a := base (user_pool (vphys s)) + 4096 * j) in *. exists a, (with_vphys p' s).
  split; [by apply on_phys_run|]. pose proof (set_pages_ok _ _ _ _ _ _ Hset Hp) as Hp'.
  destruct Hset as [(_ & Ec & Eb) Ebase Eo Hf]. cbn [pool_of negb] in *. fold a in Hf.
  assert (page_used true (with_vphys p' s) a) as Hnew.
  { exists j. unfold pool_in. cbn [pool_of vphys with_vphys]. rewrite Ebase, Ec, Eb by done.
    rewrite (proj2 (Bitmap.in_range_spec j 1 j)) by lia. split; [done|]. split; [lia|done]. }
  assert (forall b, page_used true s b -> page_used true (with_vphys p' s) b /\ b <> a) as Hold.
  { intros b (i & -> & Hi & Hb). unfold pool_in in *. cbn [pool_of] in *. assert (i <> j) by (intros ->; rewrite Ha in Hb by lia; done). split; [|unfold a; lia].
    exists i. unfold pool_in. cbn [pool_of vphys with_vphys]. rewrite Ebase, Ec, Eb by lia. split; [done|]. split; [lia|]. destruct (Bitmap.in_range j 1 i); done. }
  assert (ram_bytes (ram p')) as Hby.
  { destruct (has flags PAL_ZERO); [|by rewrite Hz; apply Hd]. change (4096 * 1) with 4096 in *.
    apply (bytes_frame (vram s) _ a (replicate (Z.to_nat 4096) 0)); [apply Hd|rewrite length_replicate; exact Hf|exact Hz|by apply Forall_replicate]. }
  assert (forall b, kernel_page s b -> kernel_page (with_vphys p' s) b) as Hk. { intros b (i & Hi). exists i. cbn [vphys with_vphys]. by rewrite Eo. }
  destruct (user_change_ok s (with_vphys p' s) pd T a Hd Hp' Hk Hf Hby) as [Hd' Hpte]; [|done|].
  { intros b Hb. apply (user_page_apart (with_vphys p' s)); [done|done|by apply Hk]. }
  split; [|split; [done|]; split; [done|]; split; [done|]; split; [exact Hf|split; [exact Hz|exact Eo]]].
  split; [done|apply Hs| |cbn [vphys with_vphys]; rewrite Ebase, Ec; apply Hs].
  intros va Hva. rewrite Hpte by done. intros Hb. by apply Hold, (sp_used _ _ _ _ Hs).
Qed.

(** Giving back a page that is not mapped. *)
Lemma drop_page_run n s pd T a : space_ok n s pd T -> page_used true s a ->
  (forall va, user_addr va -> Z.testbit (pte_of s T va) 0 = true -> frame_of (pte_of s T va) <> a) ->
  exists s', on_phys (palloc_free_page a) s = Ok (tt, s') /\ space_ok n s' pd T /\
    (forall va, user_addr va -> pte_of s' T va = pte_of s T va) /\ (forall x, ~ (a <= x < a + 4096) -> vram s' !! x = vram s !! x) /\
    (no_room (kernel_pool (vphys s)) 1 -> no_room (kernel_pool (vphys s')) 1).
Proof.
  intros Hs Ha Hnm. pose proof (sp_dir _ _ _ _ Hs) as Hd. pose proof (dir_phys _ _ _ Hd) as Hp.
  destruct (free_page_run true s a Hp Ha) as (s' & E & Fd). exists s'. split; [exact E|]. cbn [app] in *.
  destruct (fd_pool _ _ _ _ Fd false) as [Bk Ck], (fd_pool _ _ _ _ Fd true) as [Bu Cu]. pose proof (fd_bits _ _ _ _ Fd) as Hbits. unfold pool_in in *. cbn [pool_of] in *.
  assert (forall b, kernel_page s b -> kernel_page s' b) as Hk.
  { intros b (i & -> & Hi & Hb). exists i. rewrite Bk, Ck. split; [done|]. split; [done|]. pose proof (Hbits false i ltac:(lia)) as Hx. cbn [pool_of] in Hx.
    rewrite Hx, Hb. cbn [andb]. apply bool_decide_eq_true. apply not_elem_of_nil. }
  assert (forall x, ~ (a <= x < a + 4096) -> vram s' !! x = vram s !! x) as Hram.
  { intros x Hx. apply (fd_ram _ _ _ _ Fd). intros p Hpn. apply list_elem_of_singleton in Hpn as ->. done. }
  assert (frame (vram s) (vram s') a 4096) as F.
  { split; [done|]. intros x Hx. destruct (decide (a <= x < a + 4096)) as [Hin|Hin]; [|by rewrite Hram].
    destruct Ha as (j & -> & Hj & _). unfold pool_in in *. cbn [pool_of] in *. apply (pool_mapped _ _ (phys_user _ (fd_phys _ _ _ _ Fd))). rewrite Bu, Cu. lia. }
  destruct (user_change_ok s s' pd T a Hd (fd_phys _ _ _ _ Fd) Hk F) as [Hd' Hpte].
  { apply (fd_bytes _ _ _ _ Fd), Hd. } { intros b. by apply user_page_apart. } { apply (fd_regs _ _ _ _ Fd). }
  assert (no_room (kernel_pool (vphys s)) 1 -> no_room (kernel_pool (vphys s')) 1) as Hnr.
  { intros Hno k Hk0 Hk1 Hall. rewrite Ck in Hk1. apply (Hno k Hk0 Hk1). intros j Hj. pose proof (Hbits false j ltac:(lia)) as Hx. cbn [pool_of] in Hx.
    rewrite (Hall j Hj) in Hx. destruct (bit (used_map (kernel_pool (vphys s))) j); [|done]. cbn [andb] in Hx. rewrite bool_decide_eq_true_2 in Hx; [done|apply not_elem_of_nil]. }
  split; [|by split]. split; [done|rewrite (proj1 (fd_regs _ _ _ _ Fd)); apply Hs| |rewrite Bu, Cu; apply Hs].
  intros va Hva. rewrite Hpte by done. intros Hb. eapply (used_after _ _ s s' true); [exact Fd|by apply (sp_used _ _ _ _ Hs)|].
  cbn. intros Hin. apply list_elem_of_singleton in Hin. by apply (Hnm va Hva Hb).
Qed.

(** ** Installing a page *)

Lemma frame_translate w va : is_word w -> Z.testbit w 0 = true -> translate w va = frame_of w + va mod 4096.
Proof. intros Hw Hb. unfold translate, frame_of. by rewrite Hb. Qed.

(** The entry that maps a page of memory. *)
Lemma user_entry a (w : bool) (v := a - PHYS_BASE + (if w then 7 else 5)) : PHYS_BASE <= a -> a mod 4096 = 0 ->
  Z.testbit v 0 = true /\ Z.testbit v 1 = w /\ frame_of v = a.
Proof.
  intros Ha Hm. change PHYS_BASE with 3221225472 in *. assert (exists q, a - 3221225472 = 4096 * q) as [q Eq].
  { exists (a / 4096 - 786432). pose proof (Z.div_mod a 4096). lia. }
  assert (v = 4096 * q + (if w then 7 else 5)) as Ev by (unfold v; change PHYS_BASE with 3221225472; lia).
  rewrite Ev. split; [|split].
  - rewrite Z.bit0_odd, Z.odd_add, Z.odd_mul. by destruct w.
  - rewrite Z.testbit_odd, Z.shiftr_div_pow2 by done. replace (4096 * q + (if w then 7 else 5)) with ((if w then 7 else 5) + (2048 * q) * 2 ^ 1) by lia.
    rewrite Z.div_add, Z.odd_add, Z.odd_mul by done. by destruct w.
  - unfold frame_of. change PHYS_BASE with 3221225472. rewrite (Z.mul_comm 4096 q), Z.div_add_l, Z.div_small by (destruct w; lia). lia.
Qed.

Lemma install_page_run n s pd T upage a w : space_ok n s pd T -> page_used true s a -> user_addr upage -> upage mod 4096 = 0 ->
  Z.testbit (pte_of s T upage) 0 = false ->
  (exists s' T', pagedir_set_page n pd upage a w s = Ok (true, s') /\ space_ok n s' pd T' /\
     (forall b, page_used true s' b <-> page_used true s b) /\
     (forall b x, page_used true s b -> b <= x < b + 4096 -> vram s' !! x = vram s !! x) /\
     (forall va, user_addr va -> same_page va upage = true ->
        Z.testbit (pte_of s' T' va) 0 = true /\ Z.testbit (pte_of s' T' va) 1 = w /\ frame_of (pte_of s' T' va) = a) /\
     (forall va, user_addr va -> same_page va upage = false -> pte_of s' T' va = pte_of s T va)) \/
  (no_room (kernel_pool (vphys s)) 1 /\ pagedir_set_page n pd upage a w s = Ok (false, s)).
Proof.
  intros Hs Ha Hu Hal Hnp. destruct (user_page_addr _ _ _ _ _ Hs Ha) as (A1 & A2 & A3 & _ & A5). pose proof (sp_dir _ _ _ _ Hs) as Hd.
  destruct (set_page_run n s pd T upage a w) as [(s' & T' & E & Hd' & _ & Ho & Ei & Eu & Hpte)|Hno]; [done|apply Hs|done|done|done|done| |done| |by right].
  { split; [done|apply Hs]. }
  left. exists s', T'. split; [exact E|].
  assert (forall b, page_used true s' b <-> page_used true s b) as Hus by (intros b; unfold page_used, pool_in; cbn [pool_of]; by rewrite Eu).
  assert (forall va, user_addr va -> same_page va upage = true ->
    Z.testbit (pte_of s' T' va) 0 = true /\ Z.testbit (pte_of s' T' va) 1 = w /\ frame_of (pte_of s' T' va) = a) as Hsame.
  { intros va Hva Hp. rewrite Hpte, Hp by done. by apply user_entry. }
  split; [|split; [done|]; split; [|split; [done|intros va Hva Hp; by rewrite Hpte, Hp]]].
  - split; [done|rewrite Ei; apply Hs| |rewrite Eu; apply Hs]. intros va Hva. rewrite Hpte by done. intros Hb. apply Hus.
    destruct (same_page va upage) eqn:Hp; [|by apply (sp_used _ _ _ _ Hs)]. destruct (Hsame va Hva Hp) as (_ & _ & Ef). by rewrite Hpte, Hp in Ef; [rewrite Ef|].
  - intros b x Hb Hx. apply Ho. apply (user_page_outside s' pd T' b); [done|by apply Hus|done].
Qed.

(** ** Loading a page *)

Lemma store_bytes_run bs : forall m a, mapped m a (Z.of_nat (length bs)) ->
  exists m', store_bytes a bs m = Ok (tt, m') /\ bytes_at m' a bs /\ frame m m' a (Z.of_nat (length bs)).
Proof.
  induction bs as [|b bs IH]; intros m a Hm; cbn [store_bytes length] in *.
  { exists m. split; [done|]. split; [apply bytes_at_nil|apply ram_frame_refl]. }
  destruct (store_frame m a b) as (m1 & E1 & L1 & F1); [apply Hm; lia|]. erewrite bind_eq; [|exact E1].
  destruct (IH m1 (a + 1)) as (m' & E & B & F). { intros x Hx. apply F1, Hm. lia. }
  exists m'. split; [done|]. split.
  - apply bytes_at_cons. split; [|done]. rewrite (proj1 F) by lia. done.
  - apply (ram_frame_trans _ m1); [apply (frame_weaken _ _ _ _ _ _ F1)|apply (frame_weaken _ _ _ _ _ _ F)]; lia.
Qed.

(** The addresses in [P] are mapped as before and have the same contents. *)
Definition unchanged (P : Z -> Prop) (s : vm) (T : gmap Z Z) (s' : vm) (T' : gmap Z Z) : Prop :=
  forall va, user_addr va -> P va -> pte_of s' T' va = pte_of s T va /\ user_byte s' T' va = user_byte s T va.

Lemma unchanged_trans P s T s1 T1 s2 T2 : unchanged P s T s1 T1 -> unchanged P s1 T1 s2 T2 -> unchanged P s T s2 T2.
Proof. intros H1 H2 va Hva HP. destruct (H1 va Hva HP), (H2 va Hva HP). split; congruence. Qed.
Lemma unchanged_weaken (P Q : Z -> Prop) s T s' T' : unchanged P s T s' T' -> (forall va, user_addr va -> Q va -> P va) -> unchanged Q s T s' T'.
Proof. intros H Hq va Hva HQ. apply H; auto. Qed.

(** A change of a page that is in use but not mapped. *)
Lemma unmapped_unchanged n s pd T s' a : space_ok n s pd T -> (forall va, user_addr va -> pte_of s' T va = pte_of s T va) ->
  (forall x, ~ (a <= x < a + 4096) -> vram s' !! x = vram s !! x) ->
  (forall va, user_addr va -> Z.testbit (pte_of s T va) 0 = true ->
     a + 4096 <= frame_of (pte_of s T va) \/ frame_of (pte_of s T va) + 4096 <= a) ->
  unchanged (fun _ => True) s T s' T.
Proof.
  intros Hs Hp Hr Hm va Hva _. unfold user_byte. rewrite Hp by done. split; [done|].
  destruct (Z.testbit (pte_of s T va) 0) eqn:Hb; [|done]. apply Hr. pose proof (Z.mod_pos_bound va 4096 ltac:(lia)). specialize (Hm va Hva Hb). lia.
Qed.

Section load.
Context {F : Type} `{FileLaws F} (n : Z).

Lemma on_vm_run {A} (c : M vm A) (t : task F) x v : c (tvm t) = Ok (x, v) ->
  on_vm c t = Ok (x, Build_task (tfs t) v (pagedir t) (executable t)).
Proof. unfold on_vm. by intros ->. Qed.
Lemma on_fs_run {A} (c : M F A) (t : task F) x f : c (tfs t) = Ok (x, f) ->
  on_fs c t = Ok (x, Build_task f (tvm t) (pagedir t) (executable t)).
Proof. unfold on_fs. by intros ->. Qed.
Lemma on_mem_run {A} (c : M mem A) (t : task F) x m : c (vram (tvm t)) = Ok (x, m) ->
  on_mem c t = Ok (x, Build_task (tfs t) (set_vram m (tvm t)) (pagedir t) (executable t)).
Proof. intros E. apply on_vm_run. by apply on_ram_run. Qed.

Lemma install_run (t : task F) T upage a w : space_ok n (tvm t) (pagedir t) T -> page_used true (tvm t) a -> user_addr upage -> upage mod 4096 = 0 ->
  Z.testbit (pte_of (tvm t) T upage) 0 = false /\ (exists s' T', install_page n upage a w t = Ok (true, Build_task (tfs t) s' (pagedir t) (executable t)) /\ space_ok n s' (pagedir t) T' /\
     (forall va, user_addr va -> same_page va upage = true -> user_byte s' T' va = vram (tvm t) !! (a + va mod 4096) /\ Z.testbit (pte_of s' T' va) 1 = w) /\
     unchanged (fun va => same_page va upage = false) (tvm t) T s' T') \/
  (Z.testbit (pte_of (tvm t) T upage) 0 = true \/ no_room (kernel_pool (vphys (tvm t))) 1) /\ install_page n upage a w t = Ok (false, t).
Proof.
  destruct t as [f v pd ex]. cbn [tfs tvm pagedir executable]. intros Hs Ha Hu Hal. unfold install_page, gets. erewrite bind_eq; [|reflexivity]. cbn [pagedir].
  erewrite bind_eq; [|apply on_vm_run, (pagedir_get_page_run _ _ T); [apply Hs|done]]. cbn [tvm tfs pagedir executable].
  destruct (Z.testbit (pte_of v T upage) 0) eqn:Hb.
  { right. split; [by left|]. pose proof (sp_used _ _ _ _ Hs upage Hu Hb) as Hused. destruct (user_page_addr _ _ _ _ _ Hs Hused) as (A1 & _).
    assert (translate (pte_of v T upage) upage = frame_of (pte_of v T upage) + upage mod 4096) as -> by (unfold translate, frame_of; by rewrite Hb).
    change PHYS_BASE with 3221225472 in A1. pose proof (Z.mod_pos_bound upage 4096 ltac:(lia)).
    by rewrite (proj2 (Z.eqb_neq _ _)) by lia. }
  unfold translate. rewrite Hb. cbn [Z.eqb].
  destruct (install_page_run n v pd T upage a w Hs Ha Hu Hal Hb) as [(s' & T' & E & Hs' & Hus & Hram & Hsame & Hdiff)|[Hnr E]].
  - left. split; [done|]. exists s', T'. split; [by apply on_vm_run|]. split; [done|]. split.
    + intros va Hva Hp. destruct (Hsame va Hva Hp) as (Eb & Ew & Ef). split; [|done]. unfold user_byte. rewrite Eb, Ef. apply (Hram a); [done|].
      pose proof (Z.mod_pos_bound va 4096 ltac:(lia)). lia.
    + intros va Hva Hp. split; [by apply Hdiff|]. unfold user_byte. rewrite Hdiff by done.
      destruct (Z.testbit (pte_of v T va) 0) eqn:Ebt; [|done].
      apply (Hram (frame_of (pte_of v T va))); [by apply (sp_used _ _ _ _ Hs)|]. pose proof (Z.mod_pos_bound va 4096 ltac:(lia)). lia.
  - right. split; [by right|]. apply (on_vm_run (pagedir_set_page n pd upage a w) (Build_task f v pd ex) _ _ E).
Qed.
End load.

End LoaderFacts.

(** * Loading the segments of an executable *)

Import Bytes CString CStringFacts VAddr Ram Palloc PageDir PageDirFacts PageDirDestroy PageDirProps ArgStack Loader LoaderFacts.

Module LoaderRun.

Section load.
Context {F : Type} `{FileLaws F} (n : Z).
Implicit Types (t : task F).

(** Filling a page that has just been taken. *)
Lemma fill_page_run s pd T a bs prb : space_ok n s pd T -> page_used true s a -> Forall is_byte bs ->
  Z.of_nat (length bs) <= prb -> 0 <= prb <= 4096 ->
  exists m1, store_bytes a bs (vram s) = Ok (tt, m1) /\ frame (vram s) m1 a 4096 /\ ram_bytes m1 /\
  exists m2, memset (a + prb) 0 (PGSIZE - prb) m1 = Ok (a + prb, m2) /\ frame (vram s) m2 a 4096 /\ ram_bytes m2 /\
    (Z.of_nat (length bs) = prb -> forall i, 0 <= i < 4096 -> m2 !! (a + i) = Some (if i <? prb then nth (Z.to_nat i) bs 0 else 0)).
Proof.
  intros Hs Ha Hb Hl Hp. destruct (user_page_addr _ _ _ _ _ Hs Ha) as (A1 & A2 & _ & Hm & _). change PHYS_BASE with 3221225472 in A1.
  pose proof (dir_bytes _ _ _ (sp_dir _ _ _ _ Hs)) as Hr.
  destruct (store_bytes_run bs (vram s) a) as (m1 & E1 & B1 & F1); [intros x Hx; apply Hm; lia|].
  assert (frame (vram s) m1 a 4096) as F1' by (eapply frame_weaken; [exact F1|lia|lia]).
  assert (ram_bytes m1) as Hr1 by (by apply (bytes_frame (vram s) m1 a bs)).
  exists m1. split; [exact E1|]. split; [done|]. split; [done|]. change PGSIZE with 4096. pose proof (frame_mapped _ _ _ _ _ _ F1' Hm) as Hm1.
  destruct (memset_run m1 (a + prb) 0 (4096 - prb)) as (m2 & E2 & B2 & F2); [lia|lia|intros x Hx; apply Hm1; lia|].
  exists m2. split; [exact E2|]. split; [eapply ram_frame_trans; [exact F1'|eapply frame_weaken; [exact F2|lia|lia]]|]. split.
  { apply (bytes_frame m1 m2 (a + prb) (replicate (Z.to_nat (4096 - prb)) (u8 0))); [done| |exact B2|by apply Forall_replicate].
    rewrite length_replicate, Z2Nat.id by lia. exact F2. }
  intros Hlen i Hi. destruct (Z.ltb_spec i prb).
  - rewrite (proj1 F2) by lia. destruct (lookup_lt_is_Some_2 bs (Z.to_nat i)) as [b Eb]; [lia|].
    rewrite (nth_lookup_Some _ _ _ _ Eb). pose proof (B1 _ _ Eb) as Hx. rewrite Z2Nat.id in Hx by lia. exact Hx.
  - pose proof (B2 (Z.to_nat (i - prb)) 0) as Hx. rewrite Z2Nat.id in Hx by lia. replace (a + prb + (i - prb)) with (a + i) in Hx by lia.
    apply Hx. apply lookup_replicate. split; [done|lia].
Qed.

Lemma sub_bytes_Forall (P : Z -> Prop) ofs len bs : Forall P bs -> Forall P (sub_bytes ofs len bs).
Proof. intros Hb. unfold sub_bytes. by apply Forall_take, Forall_drop. Qed.
Lemma sub_bytes_le ofs len bs : 0 <= len -> Z.of_nat (length (sub_bytes ofs len bs)) <= len.
Proof. intros Hl. unfold sub_bytes. rewrite length_take. lia. Qed.

(** The page [a] was not in use before, so nothing is mapped to it. *)
Lemma fresh_unmapped s s1 pd T a : space_ok n s pd T -> page_used true s1 a -> (forall b, page_used true s b -> page_used true s1 b /\ b <> a) ->
  forall va, user_addr va -> Z.testbit (pte_of s T va) 0 = true ->
    a + 4096 <= frame_of (pte_of s T va) \/ frame_of (pte_of s T va) + 4096 <= a.
Proof.
  intros Hs Ha Hf va Hva Hb. destruct (Hf _ (sp_used _ _ _ _ Hs va Hva Hb)) as [Hu Hne].
  destruct (user_pages_apart s1 _ _ Hu Ha Hne); lia.
Qed.

(** Giving the page back after a failure. *)
Lemma abandon_page_run s0 s pd T a : space_ok n s0 pd T -> space_ok n s pd T -> page_used true s a ->
  (forall va, user_addr va -> pte_of s T va = pte_of s0 T va) -> (forall x, ~ (a <= x < a + 4096) -> vram s !! x = vram s0 !! x) ->
  (forall va, user_addr va -> Z.testbit (pte_of s0 T va) 0 = true ->
     a + 4096 <= frame_of (pte_of s0 T va) \/ frame_of (pte_of s0 T va) + 4096 <= a) ->
  exists s', on_phys (palloc_free_page a) s = Ok (tt, s') /\ space_ok n s' pd T /\ unchanged (fun _ => True) s0 T s' T /\
    (no_room (kernel_pool (vphys s)) 1 -> no_room (kernel_pool (vphys s')) 1).
Proof.
  intros Hs0 Hs Ha Hp Hr Hm. destruct (drop_page_run n s pd T a Hs Ha) as (s' & E & Hs' & Hp' & Hr' & Hnr).
  { intros va Hva. rewrite Hp by done. intros Hb Hf. specialize (Hm va Hva Hb). lia. }
  exists s'. split; [exact E|]. split; [done|]. split; [|exact Hnr]. apply (unmapped_unchanged n s0 pd T s' a); [done| | |done].
  - intros va Hva. by rewrite Hp', Hp.
  - intros x Hx. by rewrite Hr', Hr.
Qed.

Lemma page_part upage i : user_addr upage -> upage mod 4096 = 0 -> 0 <= i < 4096 ->
  (upage + i) mod 4096 = i /\ user_addr (upage + i) /\ same_page (upage + i) upage = true.
Proof.
  intros Hu Hal Hi. assert (exists q, upage = q * 4096) as [q ->].
  { exists (upage / 4096). pose proof (Z.div_mod upage 4096). lia. }
  unfold same_page. rewrite (Z.add_comm _ i), Z_mod_plus_full, Z.mod_small by lia.
  rewrite Z.div_add, Z.div_mul, Z.div_small by lia. split; [done|]. split; [|apply Z.eqb_eq; lia].
  unfold user_addr in *. change PHYS_BASE with (786432 * 4096) in *. lia.
Qed.

(** One of the pools has no page left. *)
Definition no_memory (s : vm) : Prop := no_room (user_pool (vphys s)) 1 \/ no_room (kernel_pool (vphys s)) 1.

Lemma load_page_run t T file bs pos upage prb w :
  space_ok n (tvm t) (pagedir t) T -> holds (tfs t) file bs pos -> 0 <= pos -> 0 <= prb <= 4096 -> pos + prb < 2 ^ 31 ->
  user_addr upage -> upage mod 4096 = 0 ->
  exists (ok : bool) t' T', load_page n file upage prb w t = Ok (ok, t') /\ pagedir t' = pagedir t /\ executable t' = executable t /\
    space_ok n (tvm t') (pagedir t) T' /\ unchanged (fun va => ok = true -> same_page va upage = false) (tvm t) T (tvm t') T' /\
    if ok then Z.testbit (pte_of (tvm t) T upage) 0 = false /\ holds (tfs t') file bs (pos + prb) /\ (0 < prb -> pos + prb <= Z.of_nat (length bs)) /\
      (forall i, 0 <= i < 4096 -> user_byte (tvm t') T' (upage + i) = Some (if i <? prb then nth (Z.to_nat (pos + i)) bs 0 else 0) /\
         Z.testbit (pte_of (tvm t') T' (upage + i)) 1 = w)
    else (exists pos', holds (tfs t') file bs pos') /\
      (no_memory (tvm t') \/ Z.testbit (pte_of (tvm t) T upage) 0 = true \/ 0 < prb /\ Z.of_nat (length bs) < pos + prb).
Proof.
  destruct t as [f s pd ex]. cbn [tfs tvm pagedir executable]. intros Hs Hh Hpos Hprb Hlt Hu Hal. unfold load_page.
  destruct (take_page_run n s pd T PAL_USER Hs eq_refl eq_refl) as [(a & s1 & E1 & Hs1 & Ha & Hp1 & Hf1 & _ & Hr1 & _)|[Hnr E1]].
  2:{ exists false, (Build_task f s pd ex), T. cbn [tfs tvm pagedir executable]. split; [|split; [done|]; split; [done|]; split; [done|]; split; [done|split; [by exists pos|by left; left]]].
      erewrite bind_eq; [|apply on_vm_run; exact E1]. done. }
  cbn in Hr1. destruct (user_page_addr _ _ _ _ _ Hs1 Ha) as (A1 & _). change PHYS_BASE with 3221225472 in A1.
  destruct (read_law f file bs pos prb Hh Hpos ltac:(lia) Hlt) as (f1 & E2 & Hh1). set (bs1 := sub_bytes pos prb bs) in *.
  pose proof (fresh_unmapped s s1 pd T a Hs Ha Hf1) as Hfr.
  destruct (fill_page_run s1 pd T a bs1 prb Hs1 Ha) as (m1 & E3 & F3 & B3 & m2 & E4 & F4 & B4 & V4); [apply sub_bytes_Forall, (holds_bytes _ _ _ _ Hh)|apply sub_bytes_le; lia|done|].
  destruct (write_page_ok n s1 pd T a m1 Hs1 Ha F3 B3) as (Hs2 & Hp2 & Hu2).
  erewrite bind_eq; [|apply on_vm_run; exact E1]. rewrite (proj2 (Z.eqb_neq a 0)) by lia. cbn [tfs tvm pagedir executable].
  erewrite bind_eq; [|apply on_fs_run; exact E2]. erewrite bind_eq; [|apply on_mem_run; exact E3]. cbn [tfs tvm pagedir executable].
  destruct (Z.eqb_spec (Z.of_nat (length bs1)) prb) as [El|El]; cbn [negb].
  2:{ destruct (abandon_page_run s (set_vram m1 s1) pd T a Hs Hs2) as (s' & E & Hs' & Hun & _); [by apply Hu2| | |done|].
      { intros va Hva. by rewrite Hp2, Hp1. } { intros x Hx. change (vram (set_vram m1 s1)) with m1. by rewrite (proj1 F3), Hr1. }
      exists false, (Build_task f1 s' pd ex), T. cbn [tfs tvm pagedir executable].
      split; [erewrite bind_eq; [|apply on_vm_run; exact E]; done|]. do 2 (split; [done|]). split; [done|]. split; [eapply unchanged_weaken; [exact Hun|done]|].
      split; [by eexists|]. right; right. unfold bs1, sub_bytes in El. rewrite length_take, length_drop in El. lia. }
  destruct (write_page_ok n s1 pd T a m2 Hs1 Ha F4 B4) as (Hs3 & Hp3 & Hu3).
  erewrite bind_eq; [|apply on_mem_run; exact E4]. cbn [tfs tvm pagedir executable]. change (set_vram m2 (set_vram m1 s1)) with (set_vram m2 s1).
  assert (unchanged (fun _ => True) s T (set_vram m2 s1) T) as Hun.
  { apply (unmapped_unchanged n s pd T _ a); [done| | |done]; [intros va Hva; by rewrite Hp3, Hp1|].
    intros x Hx. change (vram (set_vram m2 s1)) with m2. by rewrite (proj1 F4), Hr1. }
  destruct (install_run n (Build_task f1 (set_vram m2 s1) pd ex) T upage a w) as [(Hnm & s' & T' & E & Hs' & Hv & Hun')|[Hwhy E]]; cbn [tfs tvm pagedir executable] in *.
  { done. } { by apply Hu3. } { done. } { done. }
  - exists true, (Build_task f1 s' pd ex), T'. cbn [tfs tvm pagedir executable]. split; [by erewrite bind_eq; [|exact E]|]. do 2 (split; [done|]). split; [done|].
    split; [eapply unchanged_trans; [eapply unchanged_weaken; [exact Hun|done]|eapply unchanged_weaken; [exact Hun'|intros va _ Hq; by apply Hq]]|].
    split; [by rewrite Hp3, Hp1 in Hnm|]. split; [by rewrite <- El|]. split.
    { intros H0p. unfold bs1, sub_bytes in El. rewrite length_take, length_drop in El. lia. }
    intros i Hi. assert ((upage + i) mod 4096 = i /\ user_addr (upage + i) /\ same_page (upage + i) upage = true) as (Em & Hui & Hpi).
    { by apply page_part. }
    destruct (Hv (upage + i)) as [Hvi Hwi]; [done..|]. split; [|done]. rewrite Hvi, Em. change (vram (set_vram m2 s1)) with m2. rewrite V4 by done. f_equal. destruct (Z.ltb_spec i prb); [|done].
    unfold bs1, sub_bytes. rewrite <- (Z2Nat.id pos), <- (Z2Nat.id i), <- Nat2Z.inj_add, !Nat2Z.id by lia. rewrite nth_lookup, nth_lookup. f_equal.
    rewrite lookup_take_lt by lia. by rewrite lookup_drop.
  - destruct (abandon_page_run s (set_vram m2 s1) pd T a Hs Hs3) as (s' & E5 & Hs' & Hun5 & Hnr5); [by apply Hu3| | |done|].
    { intros va Hva. by rewrite Hp3, Hp1. } { intros x Hx. change (vram (set_vram m2 s1)) with m2. by rewrite (proj1 F4), Hr1. }
    exists false, (Build_task f1 s' pd ex), T. cbn [tfs tvm pagedir executable]. split.
    { erewrite bind_eq; [|exact E]. cbn [negb]. erewrite bind_eq; [|apply on_vm_run; exact E5]. done. }
    do 2 (split; [done|]). split; [done|]. split; [eapply unchanged_weaken; [exact Hun5|done]|]. split; [by eexists|].
    destruct Hwhy as [Hm|Hno]; [right; left; by rewrite Hp3, Hp1 in Hm|left; right; by apply Hnr5].
Qed.

(** Outside the [k] pages from [upage] on. *)
Definition other (upage k va : Z) : Prop := va < upage \/ upage + 4096 * k <= va.

(** Those addresses, and the ones that are mapped already. *)
Definition kept t T (upage k va : Z) : Prop := other upage k va \/ Z.testbit (pte_of (tvm t) T va) 0 = true.

Lemma other_page upage va : upage mod 4096 = 0 -> other upage 1 va -> same_page va upage = false.
Proof.
  intros Hal Ho. apply Z.eqb_neq. intros E. pose proof (Z.div_mod upage 4096 ltac:(lia)). pose proof (Z.div_mod va 4096 ltac:(lia)).
  pose proof (Z.mod_pos_bound va 4096 ltac:(lia)). unfold other in Ho. lia.
Qed.

(** The contents of the segment: [rd] bytes of the file from [pos] on, then zeros. *)
Definition segment_byte (bs : list Z) (pos rd i : Z) : Z := if i <? rd then nth (Z.to_nat (pos + i)) bs 0 else 0.

(** Why [k] pages from [upage] on are not loaded: there is no memory for them, one of them was
    mapped before, or the file of [len] bytes does not have the [rd] bytes from [pos] on. *)
Definition refused (s : vm) (T : gmap Z Z) (s' : vm) (upage k len pos rd : Z) : Prop :=
  no_memory s' \/ (exists va, upage <= va < upage + 4096 * k /\ Z.testbit (pte_of s T va) 0 = true) \/ 0 < rd /\ len < pos + rd.

Lemma segment_loop_run file bs w fuel : forall t T upage rd zr pos k,
  space_ok n (tvm t) (pagedir t) T -> holds (tfs t) file bs pos -> 0 <= pos <= Z.of_nat (length bs) -> Z.of_nat (length bs) + 4096 < 2 ^ 31 ->
  0 <= rd -> 0 <= zr ->
  rd + zr = 4096 * k -> k < Z.of_nat fuel -> 0 <= upage -> upage mod 4096 = 0 -> upage + 4096 * k <= PHYS_BASE ->
  exists (ok : bool) t' T' pos', segment_loop n fuel file upage rd zr w t = Ok (ok, t') /\ pagedir t' = pagedir t /\ executable t' = executable t /\
    space_ok n (tvm t') (pagedir t) T' /\ unchanged (kept t T upage k) (tvm t) T (tvm t') T' /\ holds (tfs t') file bs pos' /\
    (ok = false -> refused (tvm t) T (tvm t') upage k (Z.of_nat (length bs)) pos rd) /\
    (ok = true -> (0 < rd -> pos + rd <= Z.of_nat (length bs)) /\
       (forall va, upage <= va < upage + 4096 * k -> Z.testbit (pte_of (tvm t) T va) 0 = false) /\
       forall i, 0 <= i < 4096 * k -> user_byte (tvm t') T' (upage + i) = Some (segment_byte bs pos rd i) /\ Z.testbit (pte_of (tvm t') T' (upage + i)) 1 = w).
Proof.
  induction fuel as [|fuel IH]; intros t T upage rd zr pos k Hs Hh Hpos Hlt Hrd Hzr Hk Hf Hu0 Hal Hu; [lia|]. cbn [segment_loop].
  destruct (decide (k = 0)) as [->|Hk0].
  { assert (rd = 0 /\ zr = 0) as [-> ->] by lia. exists true, t, T, pos. split; [done|]. split; [done|]. split; [done|]. split; [done|].
    split; [by intros va ? _|]. split; [done|]. split; [done|]. intros _. split; [lia|]. split; [intros va Hva; lia|]. intros i Hi. lia. }
  assert ((rd >? 0) || (zr >? 0) = true) as ->. { apply orb_true_iff. rewrite !Z.gtb_lt. lia. }
  change PGSIZE with 4096. set (prb := if rd <? 4096 then rd else 4096).
  assert (0 <= prb <= 4096 /\ prb <= rd /\ 4096 - prb <= zr /\ (prb < 4096 -> rd = prb)) as (Hp1 & Hp2 & Hp3 & Hp4)
    by (unfold prb; destruct (Z.ltb_spec rd 4096); lia).
  change PHYS_BASE with 3221225472 in Hu.
  destruct (load_page_run t T file bs pos upage prb w) as (ok & t1 & T1 & E1 & Ep1 & Ee1 & Hs1 & Hun1 & Hok); try done; [lia|lia| |].
  { unfold user_addr. change PHYS_BASE with 3221225472. lia. }
  erewrite bind_eq; [|exact E1]. destruct ok.
  2:{ destruct Hok as [(pos' & Hh') Hwhy]. exists false, t1, T1, pos'. split; [done|]. split; [done|]. split; [done|]. split; [done|].
      split; [eapply unchanged_weaken; [exact Hun1|done]|]. split; [done|]. split; [intros _|done].
      destruct Hwhy as [?|[?|?]]; [by left|right; left; exists upage; split; [lia|done]|right; right; lia]. }
  destruct Hok as (Hnm & Hh1 & Hlen1 & Hb1).
  assert (forall va, kept t T upage k va -> same_page va upage = false) as Hkp.
  { intros va [Ho|Hm]; [apply other_page; [done|]; unfold other in *; lia|]. destruct (same_page va upage) eqn:Ep; [|done].
    rewrite (pte_of_page _ _ va upage Ep) in Hm. congruence. }
  rewrite (wrapu_small 32 (upage + 4096)), (wrapu_small 32 (rd - prb)), (wrapu_small 32 (zr - (4096 - prb))) by lia.
  destruct (IH t1 T1 (upage + 4096) (rd - prb) (zr - (4096 - prb)) (pos + prb) (k - 1)) as (ok & t' & T' & pos' & E & Ep & Ee & Hs' & Hun & Hh' & Hno & Hok).
  { by rewrite Ep1. } { done. } { lia. } { lia. } { lia. } { lia. } { lia. } { lia. } { lia. }
  { rewrite <- (Z.mul_1_l 4096) at 1. by rewrite Z_mod_plus_full. } { change PHYS_BASE with 3221225472. lia. }
  exists ok, t', T', pos'. split; [exact E|]. split; [congruence|]. split; [congruence|]. split; [by rewrite <- Ep1|]. split; [|split; [done|split]].
  { eapply unchanged_trans.
    - eapply unchanged_weaken; [exact Hun1|]. intros va _ Ho _. by apply Hkp.
    - eapply unchanged_weaken; [exact Hun|]. intros va Hva Ho. pose proof Ho as [Ho'|Hm]; [left; unfold other in *; lia|right].
      destruct (Hun1 va Hva) as [-> _]; [intros _; by apply Hkp|done]. }
  { intros Eok. destruct (Hno Eok) as [?|[(va & Hva & Hm)|?]]; [by left|right; left|right; right; lia].
    exists va. split; [lia|]. destruct (Hun1 va) as [<- _]; [unfold user_addr; change PHYS_BASE with 3221225472; lia| |done].
    intros _. apply other_page; [done|]. right. lia. }
  intros Eok. destruct (Hok Eok) as (Hlen & Hnm1 & Hb). split; [intros H0r; destruct (Z.eq_dec (rd - prb) 0); lia|]. split.
  { intros va Hva. assert (user_addr va) as Hua by (unfold user_addr; change PHYS_BASE with 3221225472; lia). destruct (decide (va < upage + 4096)).
    - destruct (page_part upage (va - upage)) as (_ & _ & Epg); [unfold user_addr in *; lia|done|lia|]. replace (upage + (va - upage)) with va in Epg by lia.
      by rewrite (pte_of_page _ _ va upage Epg).
    - destruct (Hun1 va Hua) as [<- _]; [intros _; apply other_page; [done|]; right; lia|]. apply Hnm1. lia. }
  intros i Hi. destruct (decide (i < 4096)) as [Hi1|Hi1].
  - destruct (Hun (upage + i)) as [-> ->]; [unfold user_addr; change PHYS_BASE with 3221225472; lia|left; left; lia|].
    destruct (Hb1 i) as [-> Hw1]; [lia|]. split; [|done]. unfold segment_byte. destruct (Z.ltb_spec i prb), (Z.ltb_spec i rd); done || lia.
  - replace (upage + i) with (upage + 4096 + (i - 4096)) by lia. destruct (Hb (i - 4096)) as [-> Hw1]; [lia|]. split; [|done]. unfold segment_byte.
    destruct (Z.ltb_spec (i - 4096) (rd - prb)), (Z.ltb_spec i rd); try done; [|lia|lia]. do 2 f_equal. lia.
Qed.

(** Loading a segment of [k] pages. *)
Lemma load_segment_run t T file bs pos ofs upage rd zr w k :
  space_ok n (tvm t) (pagedir t) T -> holds (tfs t) file bs pos -> 0 <= ofs <= Z.of_nat (length bs) ->
  ofs mod 4096 = 0 -> Z.of_nat (length bs) + 4096 < 2 ^ 31 -> 0 <= rd -> 0 <= zr ->
  rd + zr = 4096 * k -> 0 <= upage -> upage mod 4096 = 0 -> upage + 4096 * k <= PHYS_BASE ->
  exists (ok : bool) t' T' pos', load_segment n file ofs upage rd zr w t = Ok (ok, t') /\ pagedir t' = pagedir t /\ executable t' = executable t /\
    space_ok n (tvm t') (pagedir t) T' /\ unchanged (kept t T upage k) (tvm t) T (tvm t') T' /\ holds (tfs t') file bs pos' /\
    (ok = false -> refused (tvm t) T (tvm t') upage k (Z.of_nat (length bs)) ofs rd) /\
    (ok = true -> (0 < rd -> ofs + rd <= Z.of_nat (length bs)) /\
       (forall va, upage <= va < upage + 4096 * k -> Z.testbit (pte_of (tvm t) T va) 0 = false) /\
       forall i, 0 <= i < 4096 * k -> user_byte (tvm t') T' (upage + i) = Some (segment_byte bs ofs rd i) /\ Z.testbit (pte_of (tvm t') T' (upage + i)) 1 = w).
Proof.
  intros Hs Hh Ho Hoal Hlt Hrd Hzr Hk Hu0 Hal Hu. unfold load_segment. change PHYS_BASE with 3221225472 in Hu. change PGSIZE with 4096.
  rewrite (wrapu_small 32 (rd + zr)) by lia. assert ((4096 * k) mod 4096 = 0 /\ 4096 * k / 4096 = k) as [Em Ed].
  { rewrite Z.mul_comm. split; [apply Z_mod_mult|apply Z.div_mul; lia]. }
  rewrite Hk, Em, Ed. cbn [Z.eqb]. erewrite bind_eq; [|reflexivity].
  rewrite pg_ofs_mod, Hal. erewrite bind_eq; [|reflexivity]. rewrite Z.rem_mod_nonneg, Hoal by lia. erewrite bind_eq; [|reflexivity].
  destruct (seek_law (tfs t) file bs pos ofs Hh (proj1 Ho)) as (f1 & E1 & Hh1). erewrite bind_eq; [|apply on_fs_run; exact E1].
  destruct (segment_loop_run file bs w (S (Z.to_nat k)) (Build_task f1 (tvm t) (pagedir t) (executable t)) T upage rd zr ofs k) as (ok & t' & T' & pos' & Hr);
    cbn [tfs tvm pagedir executable]; try done; [lia|].
  by exists ok, t', T', pos'.
Qed.

End load.

End LoaderRun.
