(* ===== verification/Block.v ===== *)
(** * devices/block.c, devices/partition.c, and the sector access of
      devices/ide.c

    The registered block devices, in probe order, with their drivers: an IDE
    disk, or a partition of another block device.  A [struct block *] is the
    device's position in [all_blocks].  The contents of the disks are part of the
    state; the disk is addressed by the LBA registers
    [select_sector] fills in.  The exchange with the controller is in Ide.v, which shows that
    the driver implements [ide_read] and [ide_write]. *)

From stdpp Require Import strings pretty.
From S2P Require Import Prelude Bytes.
Import Bytes.

Module Block.

Definition BLOCK_SECTOR_SIZE : Z := 512.

Inductive block_type : Type :=
| BLOCK_KERNEL | BLOCK_FILESYS | BLOCK_SCRATCH | BLOCK_SWAP | BLOCK_RAW | BLOCK_FOREIGN.
#[global] Instance block_type_eq_dec : EqDecision block_type.
Proof. solve_decision. Defined.

(** The drivers, with their auxiliary data: the number of an ATA disk, or the
    [struct partition]. *)
Inductive driver : Type :=
| Ide (disk : Z)
| Partition (block : nat) (start : Z).

Record block := {
  name : string; type : block_type; size : Z; ops : driver; read_cnt : Z; write_cnt : Z }.

Record state := {
  all_blocks : list block;
  block_by_role : block_type -> option nat;
  disks : Z -> Z -> list Z;
  held : Z }.

Definition upd_blocks (f : list block -> list block) (s : state) : state :=
  {| all_blocks := f (all_blocks s); block_by_role := block_by_role s; disks := disks s; held := held s |}.
Definition with_held (n : Z) (s : state) : state :=
  {| all_blocks := all_blocks s; block_by_role := block_by_role s; disks := disks s; held := n |}.

(** Roles are the types before [BLOCK_ROLE_CNT]. *)
Definition is_role (t : block_type) : bool :=
  match t with BLOCK_RAW | BLOCK_FOREIGN => false | _ => true end.

Definition block_get_role (role : block_type) : M state (option nat) :=
  do! assert (is_role role);
  gets (fun s => block_by_role s role).
Definition block_set_role (role : block_type) (block : nat) : M state unit :=
  do! assert (is_role role);
  modify (fun s => {| all_blocks := all_blocks s;
    block_by_role := fun r => if decide (r = role) then Some block else block_by_role s r;
    disks := disks s; held := held s |}).

(** [list_elem_to_block] of a position of [all_blocks]. *)
Definition list_elem_to_block (i : nat) : M state (option nat) :=
  gets (fun s => if (i <? length (all_blocks s))%nat then Some i else None).
Definition block_first : M state (option nat) := list_elem_to_block 0.
Definition block_next (block : nat) : M state (option nat) := list_elem_to_block (S block).

Fixpoint find_name (i : nat) (bs : list block) (nm : string) : option nat :=
  match bs with
  | [] => None
  | b :: bs => if String.eqb nm (name b) then Some i else find_name (S i) bs nm
  end.
Definition block_get_by_name (nm : string) : M state (option nat) :=
  gets (fun s => find_name 0 (all_blocks s) nm).

Definition deref (id : nat) : M state block := fun s =>
  match all_blocks s !! id with Some b => Ok (b, s) | None => Err WildAccess end.
Definition block_size (id : nat) : M state Z := let! b := deref id in ret (size b).
Definition block_name (id : nat) : M state string := let! b := deref id in ret (name b).

Definition check_sector (b : block) (sector : Z) : M state unit :=
  if sector >=? size b then fail KernelPanic else ret tt.

(** ** IDE disks *)

(** The sector number registers: low, middle and high byte, and the low nibble
    of the device register. *)
Definition select_sector (sec_no : Z) : M state (Z * Z * Z * Z) :=
  do! assert (sec_no <? 2 ^ 28);
  ret (u8 sec_no, u8 (Z.shiftr sec_no 8), u8 (Z.shiftr sec_no 16), u8 (Z.shiftr sec_no 24)).
(** The sector the controller addresses. *)
Definition lba (r : Z * Z * Z * Z) : Z :=
  let '(l, m, h, d) := r in
  Z.lor l (Z.lor (Z.shiftl m 8) (Z.lor (Z.shiftl h 16) (Z.shiftl (Z.land d 15) 24))).

Definition ide_read (d sec_no : Z) : M state (list Z) :=
  let! r := select_sector sec_no in
  gets (fun s => disks s d (lba r)).
Definition ide_write (d sec_no : Z) (buffer : list Z) : M state unit :=
  let! r := select_sector sec_no in
  modify (fun s => {| all_blocks := all_blocks s; block_by_role := block_by_role s;
    disks := fun d' sec' => if (d' =? d) && (sec' =? lba r) then buffer else disks s d' sec'; held := held s |}).

(** ** Reading and writing sectors *)

Definition count_read (id : nat) : M state unit :=
  modify (upd_blocks (alter (fun b => {| name := name b; type := type b; size := size b;
    ops := ops b; read_cnt := u64 (read_cnt b + 1); write_cnt := write_cnt b |}) id)).
Definition count_write (id : nat) : M state unit :=
  modify (upd_blocks (alter (fun b => {| name := name b; type := type b; size := size b;
    ops := ops b; read_cnt := read_cnt b; write_cnt := u64 (write_cnt b + 1) |}) id)).

(** [block_read] dispatches to [ide_read] or [partition_read], which calls
    [block_read] on the underlying device: the bound is the depth of partitions. *)
Fixpoint block_read_at (depth : nat) (id : nat) (sector : Z) : M state (list Z) :=
  match depth with
  | O => fail OutOfFuel
  | S depth =>
      let! b := deref id in
      do! check_sector b sector;
      let! buffer := (match ops b with
                      | Ide d => ide_read d sector
                      | Partition base start => block_read_at depth base (u32 (start + sector))
                      end) in
      do! count_read id;
      ret buffer
  end.
Fixpoint block_write_at (depth : nat) (id : nat) (sector : Z) (buffer : list Z) : M state unit :=
  match depth with
  | O => fail OutOfFuel
  | S depth =>
      let! b := deref id in
      do! check_sector b sector;
      do! assert (negb (bool_decide (type b = BLOCK_FOREIGN)));
      do! (match ops b with
           | Ide d => ide_write d sector buffer
           | Partition base start => block_write_at depth base (u32 (start + sector)) buffer
           end);
      count_write id
  end.
(** A device is registered after the one it is a partition of. *)
Definition block_read (id : nat) : Z -> M state (list Z) := block_read_at (S id) id.
Definition block_write (id : nat) : Z -> list Z -> M state unit := block_write_at (S id) id.

(** ** Memory *)

(** The memory that the code below has got and not given back is [held] bytes.  Whether
    [malloc] returns a block of [size] bytes, with so much held, is a parameter. *)
Definition malloc (granted : Z -> Z -> bool) (size : Z) : M state bool := fun s =>
  if granted (held s) size then Ok (true, with_held (held s + size) s) else Ok (false, s).
Definition free (size : Z) : M state unit := modify (fun s => with_held (held s - size) s).

(** ** Registration and partition tables *)

Definition sizeof_block : Z := 56.
Definition sizeof_partition : Z := 8.

Section registration.
Context (granted : Z -> Z -> bool).

Definition block_register (nm : string) (ty : block_type) (sz : Z) (drv : driver) : M state nat :=
  let! ok := malloc granted sizeof_block in
  do! (if ok then ret tt else fail KernelPanic);
  let! id := gets (fun s => length (all_blocks s)) in
  do! modify (upd_blocks (fun bs => bs ++
    [{| name := String.substring 0 15 nm; type := ty; size := sz; ops := drv;
        read_cnt := 0; write_cnt := 0 |}]));
  ret id.

Definition partition_block_type (part_type : Z) : block_type :=
  if part_type =? 0x20 then BLOCK_KERNEL
  else if part_type =? 0x21 then BLOCK_FILESYS
  else if part_type =? 0x22 then BLOCK_SCRATCH
  else if part_type =? 0x23 then BLOCK_SWAP
  else BLOCK_FOREIGN.

Definition found_partition (id : nat) (part_type start sz part_nr : Z) : M state unit :=
  let! bsize := block_size id in
  if start >=? bsize then ret tt
  else if (u32 (start + sz) <? start) || (u32 (start + sz) >? bsize) then ret tt
  else
    let! ok := malloc granted sizeof_partition in
    do! (if ok then ret tt else fail KernelPanic);
    let! bname := block_name id in
    let! _ := block_register (String.substring 0 15 (bname +:+ pretty part_nr))
                (partition_block_type part_type) sz (Partition id start) in
    ret tt.

(** Entry [i] of the partition table in a sector: type, offset and size. *)
Definition pt_entry (pt : list Z) (i : Z) : Z * Z * Z :=
  let e := 446 + 16 * i in
  (le_decode (sub_bytes (e + 4) 1 pt), le_decode (sub_bytes (e + 8) 4 pt),
   le_decode (sub_bytes (e + 12) 4 pt)).
Definition pt_signature (pt : list Z) : Z := le_decode (sub_bytes 510 2 pt).

Definition is_extended (ty : Z) : bool :=
  (ty =? 0x05) || (ty =? 0x0f) || (ty =? 0x85) || (ty =? 0xc5).

(** The loop over the remaining entries of one table, [rec] the recursive call on
    an extended partition's table. *)
Fixpoint pt_loop (rec : Z -> Z -> Z -> M state Z) (id : nat) (sector primary_extended_sector : Z)
    (pt : list Z) (entries : list Z) (part_nr : Z) : M state Z :=
  match entries with
  | [] => ret part_nr
  | i :: entries =>
      let '(ty, offset, sz) := pt_entry pt i in
      let! part_nr :=
        (if (sz =? 0) || (ty =? 0) then ret part_nr
         else if is_extended ty then
           (if sector =? 0 then rec offset offset part_nr
            else rec (u32 (offset + primary_extended_sector)) primary_extended_sector part_nr)
         else
           do! found_partition id ty (u32 (offset + sector)) sz (part_nr + 1);
           ret (part_nr + 1)) in
      pt_loop rec id sector primary_extended_sector pt entries part_nr
  end.

(** [fuel] bounds the nesting of tables. *)
Fixpoint read_partition_table (fuel : nat) (id : nat)
    (sector primary_extended_sector part_nr : Z) : M state Z :=
  match fuel with
  | O => fail OutOfFuel
  | S fuel =>
      let! bsize := block_size id in
      if sector >=? bsize then ret part_nr else
      let! ok := malloc granted BLOCK_SECTOR_SIZE in
      do! (if ok then ret tt else fail KernelPanic);
      let! pt := block_read id 0 in
      if negb (pt_signature pt =? 0xaa55) then do! free BLOCK_SECTOR_SIZE; ret part_nr else
      let! part_nr := pt_loop (fun s p n => read_partition_table fuel id s p n) id sector
        primary_extended_sector pt [0; 1; 2; 3] part_nr in
      do! free BLOCK_SECTOR_SIZE;
      ret part_nr
  end.
Definition partition_scan (fuel : nat) (id : nat) : M state Z := read_partition_table fuel id 0 0 0.

End registration.

(** ** Where the sectors of a device are *)

Lemma lba_select sec s :
  0 <= sec < 2 ^ 28 -> exists r, select_sector sec s = Ok (r, s) /\ lba r = sec.
Proof.
  intros Hs. unfold select_sector. erewrite bind_eq; [|apply assert_true; lia].
  eexists. split; [done|]. unfold lba. apply Z.bits_inj'. intros i Hi.
  rewrite !Z.lor_spec, !Z.shiftl_spec by done.
  rewrite Z.land_spec. change 15 with (Z.ones 4).
  assert (forall k, Z.testbit (u8 (Z.shiftr sec k)) (i - k) = (0 <=? i - k) && (i - k <? 8) && Z.testbit sec i) as Hb.
  { intros k. destruct (Z.leb_spec 0 (i - k)); simpl.
    - rewrite testbit_wrapu, Z.shiftr_spec by lia. do 2 f_equal. lia.
    - by rewrite Z.testbit_neg_r by lia. }
  rewrite !Hb, testbit_wrapu by lia.
  destruct (Z.ltb_spec i 28).
  - destruct (Z.ltb_spec i 24), (Z.ltb_spec i 16), (Z.ltb_spec i 8);
      try (rewrite Z.ones_spec_low by lia);
      repeat match goal with |- context [?a <=? ?b] => destruct (Z.leb_spec a b); try lia
      | |- context [?a <? ?b] => destruct (Z.ltb_spec a b); try lia end;
      simpl; rewrite ?andb_true_r, ?orb_false_r, ?orb_diag; try done; try lia.
    all: try (rewrite Z.testbit_neg_r with (n := i - 24) by lia; by rewrite ?andb_false_r, ?orb_false_r).
  - rewrite (testbit_high 28 sec i) by lia. by rewrite !andb_false_r.
Qed.

(** A device without its access counters. *)
Definition erase (b : block) : block :=
  {| name := name b; type := type b; size := size b; ops := ops b; read_cnt := 0; write_cnt := 0 |}.
Definition shape (s : state) : list block := map erase (all_blocks s).

(** The disk a device lies on and its first sector there. *)
Fixpoint phys (depth : nat) (bs : list block) (id : nat) : Z * Z :=
  match depth, bs !! id with
  | S depth, Some b =>
      match ops b with
      | Ide d => (d, 0)
      | Partition base start => let '(d, o) := phys depth bs base in (d, o + start)
      end
  | _, _ => (0, 0)
  end.
Definition sector_of (s : state) (id : nat) (sector : Z) : Z * Z :=
  let '(d, o) := phys (S id) (shape s) id in (d, o + sector).

(** Partitions lie inside devices registered before them; disks have at most
    2^28 sectors of 512 bytes. *)
Definition block_wf (bs : list block) (id : nat) (b : block) : Prop :=
  0 <= size b < 2 ^ 32 /\
  match ops b with
  | Ide _ => size b <= 2 ^ 28
  | Partition base start =>
      (base < id)%nat /\ 0 <= start /\
      exists bb, bs !! base = Some bb /\ start + size b <= size bb /\ type bb <> BLOCK_FOREIGN
  end.
Record wf (s : state) : Prop := {
  wf_blocks : forall id b, shape s !! id = Some b -> block_wf (shape s) id b;
  wf_sectors : forall d sec, length (disks s d sec) = 512%nat /\ Forall is_byte (disks s d sec) }.

Lemma shape_lookup s id b : all_blocks s !! id = Some b -> shape s !! id = Some (erase b).
Proof. intros E. unfold shape. by rewrite list_lookup_fmap, E. Qed.

Lemma shape_count s id f : (forall b, erase (f b) = erase b) ->
  shape (upd_blocks (alter f id) s) = shape s.
Proof.
  intros Hf. unfold shape. simpl. apply list_eq. intros i. rewrite !list_lookup_fmap.
  destruct (decide (i = id)) as [->|].
  - rewrite list_lookup_alter_eq. destruct (all_blocks s !! id); simpl; [by rewrite Hf|done].
  - by rewrite list_lookup_alter_ne.
Qed.

Lemma phys_depth s d1 : wf s -> forall d2 id b,
  shape s !! id = Some b -> (id < d1)%nat -> (id < d2)%nat ->
  phys d1 (shape s) id = phys d2 (shape s) id.
Proof.
  intros Hwf. induction d1 as [|d1 IH]; intros [|d2] id b Hb H1 H2; try lia.
  simpl. rewrite Hb. pose proof (wf_blocks s Hwf id b Hb) as [_ Ho].
  destruct (ops b) as [d|base start]; [done|]. destruct Ho as (Hlt & _ & bb & Hbb & _ & _).
  by rewrite (IH d2 base bb) by (done || lia).
Qed.

(** The sectors of a well-formed device are distinct sectors of its disk. *)
Lemma phys_part s id b base start sec :
  wf s -> shape s !! id = Some b -> ops b = Partition base start ->
  sector_of s id sec = sector_of s base (start + sec).
Proof.
  intros Hwf Hb E. unfold sector_of. simpl. rewrite Hb, E.
  pose proof (wf_blocks s Hwf id b Hb) as [_ Ho]. rewrite E in Ho.
  destruct Ho as (Hlt & _ & bb & Hbb & _ & _).
  rewrite (phys_depth s id Hwf (S base) base bb) by (done || lia).
  change (match shape s !! base with Some _ => _ | None => _ end) with (phys (S base) (shape s) base).
  destruct (phys (S base) (shape s) base). f_equal. lia.
Qed.

Definition at_sector (s : state) (id : nat) (sec : Z) : list Z :=
  let '(d, p) := sector_of s id sec in disks s d p.

(** What is left unchanged by reading. *)
Definition same (s s' : state) : Prop :=
  shape s' = shape s /\ disks s' = disks s /\ block_by_role s' = block_by_role s.

Lemma wf_same s s' : shape s' = shape s -> disks s' = disks s -> wf s -> wf s'.
Proof. intros E1 E2 [H1 H2]. split; [by rewrite E1|by rewrite E2]. Qed.

Lemma deref_run s id b sec :
  shape s !! id = Some b -> 0 <= sec < size b ->
  exists b0, deref id s = Ok (b0, s) /\ check_sector b0 sec s = Ok (tt, s) /\
    type b0 = type b /\ ops b0 = ops b.
Proof.
  intros Hb Hs. unfold shape in Hb. rewrite list_lookup_fmap in Hb.
  destruct (all_blocks s !! id) as [b0|] eqn:E0; [|done]. injection Hb as <-.
  exists b0. unfold deref, check_sector. rewrite E0. simpl in *.
  destruct (Z.geb_spec sec (size b0)); [lia|done].
Qed.

Lemma block_read_at_run depth : forall s id b sec,
  wf s -> shape s !! id = Some b -> (id < depth)%nat -> 0 <= sec < size b ->
  exists s', block_read_at depth id sec s = Ok (at_sector s id sec, s') /\ same s s'.
Proof.
  induction depth as [|depth IH]; intros s id b sec Hwf Hb Hd Hs; [lia|]. simpl.
  pose proof (wf_blocks s Hwf id b Hb) as [Hsz Ho].
  destruct (deref_run s id b sec Hb Hs) as (b0 & Ed & Ec & _ & Eo).
  erewrite bind_eq; [|exact Ed]. erewrite bind_eq; [|exact Ec]. rewrite Eo.
  destruct (ops b) as [d|base start] eqn:Eb.
  - destruct (lba_select sec s) as (r & Er & Hr); [lia|].
    unfold ide_read at 1. erewrite bind_eq; [|erewrite bind_eq; [|exact Er]; done].
    eexists. split.
    + unfold count_read. erewrite bind_eq; [|done]. unfold at_sector, sector_of. simpl.
      rewrite Hb, Eb, Hr. done.
    + split; [by apply shape_count|done].
  - destruct Ho as (Hlt & Hst & bb & Hbb & Hle & _).
    pose proof (wf_blocks s Hwf base bb Hbb) as [Hbs _]. rewrite wrapu_small by lia.
    destruct (IH s base bb (start + sec)) as (s1 & R & S1 & S2 & S3); [done..|lia|lia|].
    erewrite bind_eq; [|exact R]. eexists. split.
    + unfold count_read. erewrite bind_eq; [|done]. unfold at_sector.
      by rewrite <- (phys_part s id b base start sec Hwf Hb).
    + split; [by rewrite shape_count|done].
Qed.

(** What writing [buffer] to a sector changes. *)
Definition wrote (s s' : state) (id : nat) (sec : Z) (buffer : list Z) : Prop :=
  shape s' = shape s /\ block_by_role s' = block_by_role s /\
  forall d p, disks s' d p = if bool_decide ((d, p) = sector_of s id sec) then buffer else disks s d p.

Lemma block_write_at_run depth : forall s id b sec buffer,
  wf s -> shape s !! id = Some b -> type b <> BLOCK_FOREIGN -> (id < depth)%nat -> 0 <= sec < size b ->
  exists s', block_write_at depth id sec buffer s = Ok (tt, s') /\ wrote s s' id sec buffer.
Proof.
  induction depth as [|depth IH]; intros s id b sec buffer Hwf Hb Ht Hd Hs; [lia|]. simpl.
  pose proof (wf_blocks s Hwf id b Hb) as [Hsz Ho].
  destruct (deref_run s id b sec Hb Hs) as (b0 & Ed & Ec & Et & Eo).
  erewrite bind_eq; [|exact Ed]. erewrite bind_eq; [|exact Ec]. rewrite Eo, Et.
  erewrite bind_eq; [|apply assert_true; by rewrite bool_decide_eq_false_2].
  destruct (ops b) as [d|base start] eqn:Eb.
  - destruct (lba_select sec s) as (r & Er & Hr); [lia|].
    unfold ide_write at 1. erewrite bind_eq; [|erewrite bind_eq; [|exact Er]; done].
    eexists. split; [done|]. split; [rewrite shape_count; done|]. split; [done|].
    intros d' p. unfold sector_of. simpl. rewrite Hb, Eb, Hr. simpl.
    destruct (Z.eqb_spec d' d), (Z.eqb_spec p sec); simpl; case_bool_decide; naive_solver.
  - destruct Ho as (Hlt & Hst & bb & Hbb & Hle & Hf).
    pose proof (wf_blocks s Hwf base bb Hbb) as [Hbs _]. rewrite wrapu_small by lia.
    destruct (IH s base bb (start + sec) buffer) as (s1 & R & S1 & S2 & S3); [done..|lia|lia|].
    erewrite bind_eq; [|exact R]. eexists. split; [done|].
    split; [by rewrite shape_count|]. split; [done|]. intros d p. simpl. rewrite S3.
    by rewrite <- (phys_part s id b base start sec Hwf Hb).
Qed.

Lemma block_past_end depth s id b sec buffer :
  shape s !! id = Some b -> size b <= sec ->
  block_read_at (S depth) id sec s = Err KernelPanic /\
  block_write_at (S depth) id sec buffer s = Err KernelPanic.
Proof.
  intros Hb Hs. unfold shape in Hb. rewrite list_lookup_fmap in Hb.
  destruct (all_blocks s !! id) as [b0|] eqn:E0; [|done]. injection Hb as <-. simpl in Hs.
  assert (deref id s = Ok (b0, s)) as Ed by (unfold deref; by rewrite E0).
  assert (check_sector b0 sec s = Err KernelPanic) as Ec.
  { unfold check_sector. destruct (Z.geb_spec sec (size b0)); [done|lia]. }
  simpl. unfold bind. rewrite Ed, Ec. done.
Qed.

(** ** The interface to the buffer cache *)

(** Sector access as the clients of block.c use it. *)
Class SectorDevice (D : Type) := {
  sd_read : nat -> Z -> M D (list Z);
  sd_write : nat -> Z -> list Z -> M D unit }.

(** What it promises about the device [blk]: its sectors hold what was last
    written to them, and reading and writing one leaves the others alone. *)
Class SectorDeviceLaws (D : Type) `{SectorDevice D} (blk : nat) := {
  sd_inv : D -> Prop;
  sd_size : D -> Z;
  sd_at : D -> Z -> list Z;
  sd_size_range : forall d, sd_inv d -> 0 <= sd_size d < 2 ^ 32;
  sd_at_wf : forall d sec, sd_inv d -> length (sd_at d sec) = 512%nat /\ Forall is_byte (sd_at d sec);
  sd_read_ok : forall d sec, sd_inv d -> 0 <= sec < sd_size d ->
    exists d', sd_read blk sec d = Ok (sd_at d sec, d') /\ sd_inv d' /\ sd_size d' = sd_size d /\
      forall sec', sd_at d' sec' = sd_at d sec';
  sd_write_ok : forall d sec data, sd_inv d -> 0 <= sec < sd_size d ->
    length data = 512%nat -> Forall is_byte data ->
    exists d', sd_write blk sec data d = Ok (tt, d') /\ sd_inv d' /\ sd_size d' = sd_size d /\
      forall sec', sd_at d' sec' = if sec' =? sec then data else sd_at d sec';
  sd_past_end : forall d sec data, sd_inv d -> sd_size d <= sec ->
    sd_read blk sec d = Err KernelPanic /\ sd_write blk sec data d = Err KernelPanic }.

#[global] Instance block_device : SectorDevice state :=
  {| sd_read := block_read; sd_write := block_write |}.

Definition dev_size (blk : nat) (s : state) : Z := from_option size 0 (shape s !! blk).
Definition dev_inv (blk : nat) (s : state) : Prop :=
  wf s /\ exists b, shape s !! blk = Some b /\ type b <> BLOCK_FOREIGN.

Lemma at_sector_wrote s s' id sec buffer sec' :
  wrote s s' id sec buffer -> at_sector s' id sec' = if sec' =? sec then buffer else at_sector s id sec'.
Proof.
  intros (E1 & _ & E3). unfold at_sector, sector_of in *. rewrite E1.
  destruct (phys (S id) (shape s) id) as [d o]. rewrite E3.
  destruct (Z.eqb_spec sec' sec) as [->|]; case_bool_decide; naive_solver lia.
Qed.

Lemma wf_wrote s s' id sec buffer :
  wf s -> wrote s s' id sec buffer -> length buffer = 512%nat -> Forall is_byte buffer -> wf s'.
Proof.
  intros [H1 H2] (E1 & _ & E3) Hl Hb. split; [by rewrite E1|]. intros d p. rewrite E3.
  by case_bool_decide.
Qed.

#[global] Program Instance block_device_laws (blk : nat) : SectorDeviceLaws state blk :=
  {| sd_inv := dev_inv blk; sd_size := dev_size blk; sd_at := fun s => at_sector s blk |}.
Next Obligation.
  intros blk d (Hwf & b & Hb & _). unfold dev_size. rewrite Hb. simpl.
  by destruct (wf_blocks d Hwf blk b Hb).
Qed.
Next Obligation.
  intros blk d sec (Hwf & _). unfold at_sector. destruct (sector_of d blk sec). by apply wf_sectors.
Qed.
Next Obligation.
  intros blk d sec (Hwf & b & Hb & Ht) Hs. unfold dev_size in *. rewrite Hb in *. simpl in *.
  destruct (block_read_at_run (S blk) d blk b sec) as (d' & R & E1 & E2 & E3); [done..|lia|done|].
  exists d'. split; [done|]. split; [split; [by eapply wf_same|rewrite E1; eauto]|].
  rewrite E1, Hb. split; [done|]. intros sec'. unfold at_sector, sector_of. by rewrite E1, E2.
Qed.
Next Obligation.
  intros blk d sec data (Hwf & b & Hb & Ht) Hs Hl Hd. unfold dev_size in *. rewrite Hb in *. simpl in *.
  destruct (block_write_at_run (S blk) d blk b sec data) as (d' & R & W); [done..|lia|done|].
  exists d'. split; [done|]. pose proof W as (E1 & _ & _).
  split; [split; [by eapply wf_wrote|rewrite E1; eauto]|]. rewrite E1, Hb. split; [done|].
  intros sec'. by apply at_sector_wrote.
Qed.
Next Obligation.
  intros blk d sec data (Hwf & b & Hb & Ht) Hs. unfold dev_size in *. rewrite Hb in *.
  by eapply block_past_end.
Qed.

(** ** Partitions *)

Lemma block_wf_app bs bs' id b : block_wf bs id b -> block_wf (bs ++ bs') id b.
Proof.
  intros [H1 H2]. split; [done|]. destruct (ops b) as [|base start]; [done|].
  destruct H2 as (? & ? & bb & Hb & ? & ?). split; [done|]. split; [done|].
  exists bb. split; [by apply lookup_app_l_Some|done].
Qed.

(** The device that a partition becomes, if it lies inside the device [b]. *)
Definition partition_in (id : nat) (b : block) (ty start sz part_nr : Z) : list block :=
  if (start <? size b) && (start + sz <=? size b) then
    [{| name := String.substring 0 15 (String.substring 0 15 (name b +:+ pretty part_nr));
        type := partition_block_type ty; size := sz; ops := Partition id start; read_cnt := 0; write_cnt := 0 |}]
  else [].

Lemma partition_in_test start sz bsize : 0 <= start < bsize -> 0 <= sz < 2 ^ 32 -> bsize < 2 ^ 32 ->
  (u32 (start + sz) <? start) || (u32 (start + sz) >? bsize) = negb (start + sz <=? bsize).
Proof.
  intros Hst Hsz Hb. destruct (Z_lt_dec (start + sz) (2 ^ 32)); [rewrite wrapu_small by lia; lia|].
  unfold wrapu. replace (start + sz) with (start + sz - 2 ^ 32 + 1 * 2 ^ 32) at 1 2 by lia.
  rewrite Z.mod_add, Z.mod_small by lia. lia.
Qed.

Lemma register_wf s id b start sz nm ty : wf s -> shape s !! id = Some b -> type b <> BLOCK_FOREIGN -> 0 <= start -> 0 <= sz < 2 ^ 32 -> start + sz <= size b ->
  wf (upd_blocks (fun bs => bs ++ [{| name := nm; type := ty; size := sz; ops := Partition id start; read_cnt := 0; write_cnt := 0 |}]) s).
Proof.
  intros Hwf Hb Ht Hst Hsz Hle. split; [|apply Hwf]. unfold shape. simpl. rewrite map_app. intros id' b' Hl.
  apply lookup_app_Some in Hl as [Hl|[Hge Hl]]; [by apply block_wf_app, (wf_blocks s Hwf)|].
  pose proof (lookup_lt_Some _ _ _ Hb) as Hlt. unfold shape in Hlt. rewrite length_map in Hlt, Hge, Hl.
  apply list_lookup_singleton_Some in Hl as [Ei <-].
  split; [simpl; lia|]. simpl. split; [lia|]. split; [lia|]. exists b. split; [by apply lookup_app_l_Some|done].
Qed.

(** Memory may run out, and nothing else can go wrong. *)
Definition no_memory (granted : Z -> Z -> bool) (e : fault) : Prop := e = KernelPanic /\ exists h n, granted h n = false.

Lemma block_malloc_run granted n s (k : M state unit) :
  (let! ok := malloc granted n in do! (if ok then ret tt else fail KernelPanic); k) s =
    (if granted (held s) n then k (with_held (held s + n) s) else Err KernelPanic).
Proof. unfold bind, malloc. by destruct (granted (held s) n). Qed.
Lemma with_held_wf n s : wf s -> wf (with_held n s).
Proof. intros [H1 H2]. by split. Qed.

Lemma found_partition_run granted s id b ty start sz part_nr :
  wf s -> shape s !! id = Some b -> type b <> BLOCK_FOREIGN -> 0 <= start < 2 ^ 32 -> 0 <= sz < 2 ^ 32 ->
  match found_partition granted id ty start sz part_nr s with
  | Ok (_, s') => wf s' /\ disks s' = disks s /\ block_by_role s' = block_by_role s /\
      shape s' = shape s ++ partition_in id b ty start sz part_nr
  | Err e => no_memory granted e
  end.
Proof.
  intros Hwf Hb Ht Hst Hsz. pose proof (wf_blocks s Hwf id b Hb) as [Hbs _].
  pose proof Hb as Hb'. unfold shape in Hb'. rewrite list_lookup_fmap in Hb'.
  destruct (all_blocks s !! id) as [b0|] eqn:E0; [|done]. injection Hb' as Eb.
  assert (size b0 = size b /\ name b0 = name b) as [Es En] by (by subst b).
  assert (forall n, deref id (with_held n s) = Ok (b0, with_held n s)) as Ed by (intros n; unfold deref; cbn; by rewrite E0).
  unfold found_partition, partition_in. erewrite bind_eq; [|unfold block_size, bind, deref; rewrite E0; reflexivity]. rewrite Es.
  destruct (Z.geb_spec start (size b)).
  { rewrite (proj2 (Z.ltb_ge _ _)) by lia. cbn. by rewrite app_nil_r. }
  rewrite partition_in_test, (proj2 (Z.ltb_lt start (size b))) by lia. cbn [andb].
  destruct (Z.leb_spec (start + sz) (size b)) as [Hle|_]; cbn [negb]; [|cbn; by rewrite app_nil_r].
  rewrite block_malloc_run. destruct (granted (held s) _) eqn:Eg1; [|split; [done|by eexists _, _]].
  erewrite bind_eq; [|unfold block_name; erewrite bind_eq; [|apply Ed]; reflexivity]. rewrite En.
  unfold block_register, bind at 1 2, malloc. cbn [held with_held].
  destruct (granted _ sizeof_block) eqn:Eg2; [|split; [done|by eexists _, _]]. cbn.
  split; [|split; [done|]; split; [done|]; unfold shape; cbn; by rewrite map_app].
  refine (register_wf (with_held _ s) id b start sz _ _ (with_held_wf _ _ Hwf) Hb Ht _ Hsz Hle). lia.
Qed.

Lemma block_read_run s id b sec :
  wf s -> shape s !! id = Some b -> 0 <= sec < size b ->
  exists s', block_read id sec s = Ok (at_sector s id sec, s') /\ same s s'.
Proof. intros. unfold block_read. eapply block_read_at_run; [done..|lia|done]. Qed.

Lemma block_size_run s s' id b : shape s !! id = Some b -> same s s' -> block_size id s' = Ok (size b, s').
Proof.
  intros Hb (E & _ & _). rewrite <- E in Hb. unfold shape in Hb. rewrite list_lookup_fmap in Hb.
  unfold block_size, bind, deref. destruct (all_blocks s' !! id) as [b0|] eqn:E0; [|done].
  by injection Hb as <-.
Qed.

Lemma same_refl s : same s s.
Proof. done. Qed.
Lemma same_trans s1 s2 s3 : same s1 s2 -> same s2 s3 -> same s1 s3.
Proof. intros (A1 & A2 & A3) (B1 & B2 & B3). split_and!; congruence. Qed.
Lemma at_sector_same s s' id sec : same s s' -> at_sector s' id sec = at_sector s id sec.
Proof. intros (E1 & E2 & _). unfold at_sector, sector_of. by rewrite E1, E2. Qed.

(** The table of a disk whose first partition is an extended one at [offset]. *)
Definition extended_first (pt : list Z) (offset : Z) : Prop :=
  pt_signature pt = 0xaa55 /\
  exists ty sz, pt_entry pt 0 = (ty, offset, sz) /\ is_extended ty = true /\ sz <> 0.

Lemma is_extended_nonzero ty : is_extended ty = true -> ty <> 0.
Proof. intros H ->. done. Qed.

Lemma block_read_at_held depth : forall id sec s a s', block_read_at depth id sec s = Ok (a, s') -> held s' = held s.
Proof.
  induction depth as [|depth IH]; intros id sec s a s'; [done|]. cbn [block_read_at]. intros (b & s1 & E1 & E)%bind_Ok.
  assert (s1 = s) as -> by (unfold deref in E1; destruct (all_blocks s !! id); by simplify_eq).
  apply bind_Ok in E as ([] & s2 & E2 & E). assert (s2 = s) as -> by (unfold check_sector in E2; destruct (_ >=? _); [done|by injection E2]).
  apply bind_Ok in E as (buf & s3 & E3 & E). apply bind_Ok in E as ([] & s4 & [= <-] & [= _ <-]). cbn [held upd_blocks].
  destruct (ops b) as [d|base start]; [|by apply (IH _ _ _ _ _ E3)].
  apply bind_Ok in E3 as (q & s5 & E5 & [= _ <-]). apply bind_Ok in E5 as ([] & s6 & [_ ->]%assert_Ok & [= _ <-]). done.
Qed.

(** A table is read into memory, unless there is none left. *)
Lemma table_run granted s s' id b sector primary n fuel :
  wf s -> shape s !! id = Some b -> same s s' -> 0 <= sector < size b ->
  read_partition_table granted (S fuel) id sector primary n s' =
  if granted (held s') BLOCK_SECTOR_SIZE then
    match block_read id 0 (with_held (held s' + BLOCK_SECTOR_SIZE) s') with
    | Ok (_, s1) =>
        (if negb (pt_signature (at_sector s id 0) =? 0xaa55) then do! free BLOCK_SECTOR_SIZE; ret n
         else let! n := pt_loop granted (fun s p n => read_partition_table granted fuel id s p n) id sector primary
                          (at_sector s id 0) [0; 1; 2; 3] n in
              do! free BLOCK_SECTOR_SIZE; ret n) s1
    | Err e => Err e
    end
  else Err KernelPanic.
Proof.
  intros Hwf Hb Hs Hsec. cbn [read_partition_table]. erewrite bind_eq; [|by eapply block_size_run].
  destruct (Z.geb_spec sector (size b)); [lia|]. unfold bind at 1 2, malloc. destruct (granted (held s') _); [|done].
  pose proof Hs as (E1 & E2 & E3). set (s0 := with_held _ s').
  destruct (block_read_run s0 id b 0) as (s1 & R & S1); [by apply (wf_same s)|by rewrite <- Hb, <- E1|lia|].
  cbn [ret]. erewrite bind_eq; [|exact R]. rewrite R. by rewrite (at_sector_same s s0).
Qed.

Lemma extended_step granted s s' id b offset sector primary n fuel :
  wf s -> shape s !! id = Some b -> extended_first (at_sector s id 0) offset -> same s s' ->
  0 <= sector < size b ->
  (forall s'', same s s'' -> held s'' = held s' + BLOCK_SECTOR_SIZE -> granted (held s') BLOCK_SECTOR_SIZE = true ->
     (if sector =? 0 then read_partition_table granted fuel id offset offset n
      else read_partition_table granted fuel id (u32 (offset + primary)) primary n) s'' = Err KernelPanic) ->
  read_partition_table granted (S fuel) id sector primary n s' = Err KernelPanic.
Proof.
  intros Hwf Hb (Hsig & ty & sz & He & Hx & Hsz) Hs Hsec Hrec. rewrite (table_run granted s s' id b) by done.
  destruct (granted (held s') BLOCK_SECTOR_SIZE) eqn:Eg; [|done]. pose proof Hs as (E1 & E2 & E3). set (s0 := with_held _ s').
  destruct (block_read_run s0 id b 0) as (s1 & R & S1); [by apply (wf_same s)|by rewrite <- Hb, <- E1|lia|]. rewrite R.
  pose proof (block_read_at_held _ _ _ _ _ _ R) as Hh. rewrite Hsig. change (negb (43605 =? 43605)) with false. cbv iota.
  apply bind_err. cbn [pt_loop]. rewrite He. pose proof (is_extended_nonzero ty Hx) as Hty.
  rewrite (proj2 (Z.eqb_neq _ _) Hsz), (proj2 (Z.eqb_neq _ _) Hty), Hx. cbn [orb].
  apply bind_err. specialize (Hrec s1 (same_trans s s0 s1 Hs S1) Hh eq_refl). by destruct (sector =? 0).
Qed.

(** Every table read is the one in sector 0, so the search goes on until there is no memory
    for a table. *)
Lemma extended_panics granted total s id b offset n k :
  wf s -> shape s !! id = Some b -> extended_first (at_sector s id 0) offset ->
  (forall h sz, granted h sz = true -> h + sz <= total) ->
  0 < offset -> 2 * offset < size b ->
  forall s' fuel, same s s' -> total < held s' + BLOCK_SECTOR_SIZE * (Z.of_nat k + 1) -> (k < fuel)%nat ->
  read_partition_table granted fuel id (2 * offset) offset n s' = Err KernelPanic.
Proof.
  intros Hwf Hb Hx Hg Ho Hsz. pose proof (wf_blocks s Hwf id b Hb) as [Hbs _].
  induction k as [|k IH]; intros s' fuel Hs Hm Hf; (destruct fuel as [|fuel]; [lia|]);
    (eapply (extended_step granted s s' id b offset); [done..|lia|]); intros s'' Hs'' Hh Eg; specialize (Hg _ _ Eg); [lia|].
  destruct (Z.eqb_spec (2 * offset) 0); [lia|]. rewrite wrapu_small by lia.
  replace (offset + offset) with (2 * offset) by lia. apply IH; [done| |lia]. rewrite Hh. lia.
Qed.

(** ** A table without extended partitions *)

Definition plain_table (pt : list Z) : Prop :=
  forall i, i ∈ [0; 1; 2; 3] -> let '(ty, _, sz) := pt_entry pt i in sz = 0 \/ ty = 0 \/ is_extended ty = false.

(** What is registered for the entries; [n] partitions have been found before. *)
Fixpoint entries_in (id : nat) (b : block) (pt entries : list Z) (n : Z) : list block * Z :=
  match entries with
  | [] => ([], n)
  | i :: entries =>
      let '(ty, offset, sz) := pt_entry pt i in
      if (sz =? 0) || (ty =? 0) then entries_in id b pt entries n
      else let '(bs, n') := entries_in id b pt entries (n + 1) in (partition_in id b ty offset sz (n + 1) ++ bs, n')
  end.

Lemma pt_entry_range pt i ty offset sz : Forall is_byte pt -> pt_entry pt i = (ty, offset, sz) -> 0 <= offset < 2 ^ 32 /\ 0 <= sz < 2 ^ 32.
Proof.
  intros Hb [= _ <- <-]. assert (forall o, 0 <= le_decode (sub_bytes o 4 pt) < 2 ^ 32) as H; [|split; apply H].
  intros o. pose proof (le_decode_range (sub_bytes o 4 pt) (Forall_sub_bytes _ _ _ _ Hb)) as [H1 H2]. split; [done|].
  eapply Z.lt_le_trans; [exact H2|]. change (2 ^ 32) with (256 ^ 4). apply Z.pow_le_mono_r; [lia|]. unfold sub_bytes. rewrite length_take. lia.
Qed.

Lemma plain_loop granted rec id b pt : Forall is_byte pt -> type b <> BLOCK_FOREIGN ->
  forall entries s n, wf s -> shape s !! id = Some b ->
  (forall i, i ∈ entries -> let '(ty, _, sz) := pt_entry pt i in sz = 0 \/ ty = 0 \/ is_extended ty = false) ->
  match pt_loop granted rec id 0 0 pt entries n s with
  | Ok (n', s') => wf s' /\ disks s' = disks s /\ block_by_role s' = block_by_role s /\
      shape s' = shape s ++ (entries_in id b pt entries n).1 /\ n' = (entries_in id b pt entries n).2
  | Err e => no_memory granted e
  end.
Proof.
  intros Hbytes Ht. induction entries as [|i entries IH]; intros s n Hwf Hb Hp; cbn [pt_loop entries_in].
  { cbn. by rewrite app_nil_r. }
  destruct (pt_entry pt i) as [[ty offset] sz] eqn:He. pose proof (Hp i (list_elem_of_here _ _)) as Hi. rewrite He in Hi.
  assert (forall j, j ∈ entries -> let '(ty, _, sz) := pt_entry pt j in sz = 0 \/ ty = 0 \/ is_extended ty = false) as Hp'
    by (intros j Hj; apply Hp; by right).
  destruct (pt_entry_range pt i ty offset sz Hbytes He) as [Ho Hs]. destruct ((sz =? 0) || (ty =? 0)) eqn:Ez.
  { erewrite bind_eq; [|reflexivity]. by apply IH. }
  apply orb_false_iff in Ez as [E1%Z.eqb_neq E2%Z.eqb_neq]. assert (is_extended ty = false) as -> by (destruct Hi as [?|[?|?]]; done).
  rewrite Z.add_0_r, wrapu_small by done.
  pose proof (found_partition_run granted s id b ty offset sz (n + 1) Hwf Hb Ht Ho Hs) as R. unfold bind.
  destruct (found_partition _ _ _ _ _ _ _) as [[[] s1]|e]; [|exact R]. destruct R as (W1 & D1 & R1 & S1). cbn.
  specialize (IH s1 (n + 1) W1). rewrite S1 in IH. specialize (IH (lookup_app_l_Some _ _ _ _ Hb) Hp').
  destruct (pt_loop _ _ _ _ _ _ _ _ _) as [[n' s2]|e]; [|exact IH]. destruct IH as (W2 & D2 & R2 & S2 & N2).
  destruct (entries_in id b pt entries (n + 1)) as [bs m]. cbn [fst snd] in *. rewrite <- app_assoc in S2.
  split_and!; congruence.
Qed.

(** ** Main properties *)

(** A disk of 64 sectors and a file system partition of it, the sectors 8 to 39. *)
Definition demo_part : block :=
  {| name := "hda1"; type := BLOCK_FILESYS; size := 32; ops := Partition 0 8;
     read_cnt := 0; write_cnt := 0 |}.
Definition demo : state :=
  {| all_blocks :=
       [ {| name := "hda"; type := BLOCK_RAW; size := 64; ops := Ide 0; read_cnt := 0; write_cnt := 0 |};
         demo_part ];
     block_by_role := fun r => if decide (r = BLOCK_FILESYS) then Some 1%nat else None;
     disks := fun _ _ => zeros 512; held := 0 |}.

Lemma demo_wf : wf demo.
Proof.
  split; [|split; [by vm_compute|apply zeros_bytes]].
  intros [|[|id]] b Hb; simplify_eq/=; unfold block_wf; simpl; [lia|].
  split; [lia|]. split; [lia|]. split; [lia|]. eexists. split; [done|]. simpl. split; [lia|done].
Qed.

(** Block device access behaves as an array of sectors, through any depth of
    partitions: a write to a sector inside a device succeeds, a later read of that
    sector gives the data back and a read of any other sector of the device gives
    what it held before; an access past the end of the device panics. *)
Theorem block_write_then_read s id b sec data sec' :
  wf s -> shape s !! id = Some b -> type b <> BLOCK_FOREIGN ->
  0 <= sec < size b -> length data = 512%nat -> Forall is_byte data -> 0 <= sec' ->
  exists s', block_write id sec data s = Ok (tt, s') /\ wf s' /\
    if sec' <? size b then
      exists old s1 s2, block_read id sec' s = Ok (old, s1) /\
        block_read id sec' s' = Ok (if sec' =? sec then data else old, s2)
    else block_read id sec' s' = Err KernelPanic.
Proof.
  intros Hwf Hb Ht Hs Hl Hd Hs'.
  destruct (block_write_at_run (S id) s id b sec data) as (s' & R & W); [done..|lia|done|].
  exists s'. split; [done|]. pose proof (wf_wrote _ _ _ _ _ Hwf W Hl Hd) as Hwf'. split; [done|].
  pose proof W as (E1 & _). destruct (Z.ltb_spec sec' (size b)).
  - destruct (block_read_run s id b sec') as (s1 & R1 & _); [done..|].
    destruct (block_read_run s' id b sec') as (s2 & R2 & _); [done|by rewrite E1|done|].
    exists (at_sector s id sec'), s1, s2. split; [done|]. rewrite R2.
    by rewrite (at_sector_wrote _ _ _ _ _ _ W).
  - eapply (block_past_end id s' id b sec' data); [by rewrite E1|done].
Qed.

Lemma block_write_then_read_witness :
  exists s', block_write 1 3 (replicate 512 7) demo = Ok (tt, s') /\ wf s' /\
    exists old s1 s2, block_read 1 4 demo = Ok (old, s1) /\
      block_read 1 4 s' = Ok (if 4 =? 3 then replicate 512 7 else old, s2).
Proof.
  apply (block_write_then_read demo 1 demo_part 3 (replicate 512 7) 4);
    [apply demo_wf|reflexivity|done|simpl; lia|done|apply Forall_replicate; unfold is_byte; lia|lia].
Defined.

(** C37: A disk whose first partition table entry is an extended partition (at an
    offset whose double is still inside the disk) stops the kernel: [read_partition_table]
    reads sector 0 again for every nested table, so it recurses on the same entry, with one
    more table in memory each time, until it panics because memory, however much there is,
    has run out.  (The stack of the kernel, which may overflow before that, is not modelled; in
    no case does the scan return.) *)
Theorem partition_scan_extended_panics granted total s id b offset :
  wf s -> shape s !! id = Some b -> extended_first (at_sector s id 0) offset ->
  0 < offset -> 2 * offset < size b -> (forall h n, granted h n = true -> h + n <= total) ->
  exists enough, forall fuel, (enough <= fuel)%nat -> partition_scan granted fuel id s = Err KernelPanic.
Proof.
  intros Hwf Hb Hx Ho Hsz Hg. set (k := Z.to_nat (total - held s)). exists (S (S (S k))). intros fuel Hf. unfold partition_scan.
  pose proof (wf_blocks s Hwf id b Hb) as [Hbs _]. destruct fuel as [|fuel]; [lia|].
  eapply (extended_step granted s s id b offset); [done..|lia|]. intros s' Hs' Hh' Eg'. simpl Z.eqb. cbv iota.
  destruct fuel as [|fuel]; [lia|].
  eapply (extended_step granted s s' id b offset); [done..|lia|]. intros s'' Hs'' Hh'' Eg''.
  destruct (Z.eqb_spec offset 0); [lia|]. rewrite wrapu_small by lia.
  replace (offset + offset) with (2 * offset) by lia. eapply (extended_panics granted total s id b offset 0 k); [done..| |lia].
  unfold BLOCK_SECTOR_SIZE in *. lia.
Qed.

(** C36: The scan of a disk with a partition table that has no extended partitions registers
    exactly the partitions of the table that lie inside the disk, in order, each with the
    type and the number of its entry, and returns the number of partitions; a sector without
    the signature has none.  The contents of the disks and the roles do not change, and the
    devices stay well formed.  The scan fails only by a panic for lack of memory. *)
Theorem partition_scan_registers granted s id b fuel :
  wf s -> shape s !! id = Some b -> type b <> BLOCK_FOREIGN -> 0 < size b -> plain_table (at_sector s id 0) ->
  match partition_scan granted (S fuel) id s with
  | Ok (n, s') =>
      let found := if pt_signature (at_sector s id 0) =? 0xaa55 then entries_in id b (at_sector s id 0) [0; 1; 2; 3] 0 else ([], 0) in
      wf s' /\ disks s' = disks s /\ block_by_role s' = block_by_role s /\ shape s' = shape s ++ found.1 /\ n = found.2
  | Err e => e = KernelPanic /\ exists h sz, granted h sz = false
  end.
Proof.
  intros Hwf Hb Ht Hsz Hp. unfold partition_scan. rewrite (table_run granted s s id b) by (done || lia).
  destruct (granted (held s) _) eqn:Eg; [|split; [done|by eexists _, _]]. set (s0 := with_held _ s).
  destruct (block_read_run s0 id b 0) as (s1 & R & E1 & E2 & E3); [by apply (wf_same s)|done|lia|]. rewrite R.
  assert (wf s1) as Hwf1 by (apply (wf_same s); [by rewrite E1|by rewrite E2|done]).
  destruct (_ =? 43605); cbn [negb].
  - unfold bind. pose proof (plain_loop granted (fun s p n => read_partition_table granted fuel id s p n) id b (at_sector s id 0)
      ltac:(unfold at_sector; destruct (sector_of s id 0); apply (wf_sectors s Hwf)) Ht [0; 1; 2; 3] s1 0 Hwf1 ltac:(by rewrite E1) Hp) as L.
    destruct (pt_loop _ _ _ _ _ _ _ _ _) as [[n s2]|e]; [|exact L]. destruct L as (W & D & Ro & Sh & N). cbn.
    split_and!; [by apply with_held_wf|by rewrite D, E2|by rewrite Ro, E3| |done]. unfold shape in *. cbn. by rewrite Sh, E1.
  - cbn. rewrite app_nil_r. split_and!; [by apply with_held_wf|done..].
Qed.

(** A boot sector whose first entry is an extended partition of 16 sectors at
    sector 16. *)
Definition demo_mbr : list Z :=
  zeros 446 ++ [0; 0; 0; 0; 0x05; 0; 0; 0; 16; 0; 0; 0; 16; 0; 0; 0] ++ zeros 48 ++ [0x55; 0xaa].
Definition demo_extended : state :=
  {| all_blocks := all_blocks demo; block_by_role := block_by_role demo;
     disks := fun _ sec => if sec =? 0 then demo_mbr else zeros 512; held := 0 |}.

Lemma demo_extended_wf : wf demo_extended.
Proof.
  split; [apply (wf_blocks demo demo_wf)|]. intros d sec. simpl. destruct (sec =? 0).
  - split; [by vm_compute|]. unfold demo_mbr. rewrite !Forall_app.
    split; [apply zeros_bytes|]. split; [repeat constructor; by vm_compute|].
    split; [apply zeros_bytes|repeat constructor; by vm_compute].
  - split; [by vm_compute|apply zeros_bytes].
Qed.

(** A machine with four megabytes. *)
Definition demo_granted (h n : Z) : bool := h + n <=? 4194304.
Lemma partition_scan_extended_panics_witness :
  exists enough, forall fuel, (enough <= fuel)%nat -> partition_scan demo_granted fuel 0 demo_extended = Err KernelPanic.
Proof.
  eapply (partition_scan_extended_panics demo_granted 4194304 demo_extended 0 _ 16);
    [apply demo_extended_wf|reflexivity| |lia|simpl; lia|unfold demo_granted; lia].
  split; [by vm_compute|]. exists 5, 16. by vm_compute.
Defined.

(** A boot sector with a kernel partition of 16 sectors at sector 16 and a file system of 100
    sectors, too many, at sector 32. *)
Definition demo_plain_mbr : list Z :=
  zeros 446 ++ [0; 0; 0; 0; 0x20; 0; 0; 0; 16; 0; 0; 0; 16; 0; 0; 0]
            ++ [0; 0; 0; 0; 0x21; 0; 0; 0; 32; 0; 0; 0; 100; 0; 0; 0] ++ zeros 32 ++ [0x55; 0xaa].
Definition demo_plain : state :=
  {| all_blocks := all_blocks demo; block_by_role := block_by_role demo;
     disks := fun _ sec => if sec =? 0 then demo_plain_mbr else zeros 512; held := 0 |}.
Lemma demo_plain_wf : wf demo_plain.
Proof.
  split; [apply (wf_blocks demo demo_wf)|]. intros d sec. simpl. destruct (sec =? 0); (split; [by vm_compute|]).
  - apply (bool_decide_unpack _). vm_compute. exact I.
  - apply zeros_bytes.
Qed.
Lemma partition_scan_registers_witness :
  exists s', partition_scan demo_granted 1 0 demo_plain = Ok (2, s') /\
    shape s' = shape demo_plain ++ [{| name := "hda1"; type := BLOCK_KERNEL; size := 16; ops := Partition 0 16; read_cnt := 0; write_cnt := 0 |}].
Proof.
  pose proof (partition_scan_registers demo_granted demo_plain 0 _ 0 demo_plain_wf eq_refl ltac:(done) ltac:(simpl; lia)) as H.
  assert (plain_table (at_sector demo_plain 0 0)) as Hp.
  { intros i Hi. repeat (apply elem_of_cons in Hi as [->|Hi]; [vm_compute; auto|]). by apply elem_of_nil in Hi. }
  specialize (H Hp). destruct (partition_scan demo_granted 1 0 demo_plain) as [[n s']|e] eqn:E; [|vm_compute in E; discriminate E].
  destruct H as (_ & _ & _ & Hs & ->). exists s'. split; [reflexivity|]. rewrite Hs. reflexivity.
Defined.

End Block.
