(* ===== verification/CommandLine.v ===== *)
(** * threads/init.c: the command line of the kernel

    The loader leaves the arguments, one after the other with their terminators, and their
    number at fixed addresses.  The code works on the memory of string.c, as [strtok_r] writes
    into the arguments; the addresses of the literals (an equals sign and the empty string) are
    parameters, as are the time of the clock and what the actions do.  Messages are left out. *)

From stdpp Require Import strings.
From S2P Require Import Prelude Bytes CString CStringFacts CStdlib Stdio Block.
Import Bytes CString CStringFacts CStdlib.

Module CommandLine.
Abbreviation text := Stdio.chars.

Definition LOADER_ARGS_LEN : Z := 128.
(** [ptov (LOADER_ARGS)] and [ptov (LOADER_ARG_CNT)] *)
Definition LOADER_ARGS : Z := 3221225472 + 32062.
Definition LOADER_ARG_CNT : Z := LOADER_ARGS - 4.

(** ** Words *)

Definition load32 (a : Z) : M mem Z :=
  let! b0 := load a in let! b1 := load (a + 1) in let! b2 := load (a + 2) in let! b3 := load (a + 3) in
  ret (le_decode [b0; b1; b2; b3]).
(** [n] more words from [p] on; the array has 65 places. *)
Fixpoint argv_loop (n : nat) (i p : Z) (argv : list Z) : M mem (list Z) :=
  match n with
  | O => ret argv
  | S n =>
      if p >=? LOADER_ARGS + LOADER_ARGS_LEN then fail KernelPanic
      else if i >=? Z.quot LOADER_ARGS_LEN 2 + 1 then fail WildAccess
      else
        let! k := strnlen p (LOADER_ARGS + LOADER_ARGS_LEN - p) in
        argv_loop n (i + 1) (p + k + 1) (argv ++ [p])
  end.
(** The words before the null pointer, which needs a place as well. *)
Definition read_command_line : M mem (list Z) :=
  let! n := load32 LOADER_ARG_CNT in
  let argc := s32 n in
  let! argv := argv_loop (Z.to_nat argc) 0 LOADER_ARGS [] in
  if (0 <=? argc) && (argc <? Z.quot LOADER_ARGS_LEN 2 + 1) then ret argv else fail WildAccess.

(** ** Options *)

Inductive shutdown_type := SHUTDOWN_NONE | SHUTDOWN_POWER_OFF | SHUTDOWN_REBOOT.
(** The variables that the options set, and the arguments of [random_init], in order; names are
    of type [N], a pointer in the code. *)
Record settings (N : Type) := {
  how : shutdown_type; format_filesys : bool; filesys_bdev_name : N; scratch_bdev_name : N;
  thread_mlfqs : bool; user_page_limit : Z; seeds : list Z }.
Arguments how {N}. Arguments format_filesys {N}. Arguments filesys_bdev_name {N}. Arguments scratch_bdev_name {N}.
Arguments thread_mlfqs {N}. Arguments user_page_limit {N}. Arguments seeds {N}.
Inductive setting (N : Type) :=
| SetHow (h : shutdown_type) | SetFormat | SetFilesys (n : N) | SetScratch (n : N) | SetSeed (x : Z) | SetMlfqs | SetLimit (x : Z).
Arguments SetHow {N}. Arguments SetFormat {N}. Arguments SetFilesys {N}. Arguments SetScratch {N}. Arguments SetSeed {N}. Arguments SetMlfqs {N}. Arguments SetLimit {N}.
Definition set {N} (x : setting N) (s : settings N) : settings N :=
  {| how := match x with SetHow h => h | _ => how s end;
     format_filesys := match x with SetFormat => true | _ => format_filesys s end;
     filesys_bdev_name := match x with SetFilesys n => n | _ => filesys_bdev_name s end;
     scratch_bdev_name := match x with SetScratch n => n | _ => scratch_bdev_name s end;
     thread_mlfqs := match x with SetMlfqs => true | _ => thread_mlfqs s end;
     user_page_limit := match x with SetLimit n => n | _ => user_page_limit s end;
     seeds := match x with SetSeed n => seeds s ++ [n] | _ => seeds s end |}.

(** [!strcmp (a, lit)] for a literal. *)
Fixpoint is_string (a : Z) (lit : list Z) : M mem bool :=
  let! x := load a in
  match lit with
  | [] => ret (x =? 0)
  | c :: lit => if x =? c then is_string (a + 1) lit else ret false
  end.

Section boot.
Context (eq_lit empty_lit now : Z).

(** What the option asks for; none if it powers the machine off ([usage]). *)
Definition option_of (name value : Z) : M mem (option (setting Z)) :=
  let! b := is_string name (text "-h") in if b : bool then ret None else
  let! b := is_string name (text "-q") in if b : bool then ret (Some (SetHow SHUTDOWN_POWER_OFF)) else
  let! b := is_string name (text "-r") in if b : bool then ret (Some (SetHow SHUTDOWN_REBOOT)) else
  let! b := is_string name (text "-f") in if b : bool then ret (Some SetFormat) else
  let! b := is_string name (text "-filesys") in if b : bool then ret (Some (SetFilesys value)) else
  let! b := is_string name (text "-scratch") in if b : bool then ret (Some (SetScratch value)) else
  let! b := is_string name (text "-rs") in if b : bool then let! n := atoi value in ret (Some (SetSeed (u32 n))) else
  let! b := is_string name (text "-mlfqs") in if b : bool then ret (Some SetMlfqs) else
  let! b := is_string name (text "-ul") in if b : bool then let! n := atoi value in ret (Some (SetLimit (u32 n))) else
  fail KernelPanic.
(** The settings and the words after the options. *)
Fixpoint parse_options (argv : list Z) (s : settings Z) : M mem (option (settings Z * list Z)) :=
  match argv with
  | [] => ret (Some (set (SetSeed (u32 now)) s, argv))
  | arg :: rest =>
      let! c := load arg in
      if c =? 45 then
        let! tok := strtok_r arg eq_lit 0 in
        let! val := strtok_r 0 empty_lit (snd tok) in
        let! o := option_of (fst tok) (fst val) in
        match o with Some x => parse_options rest (set x s) | None => ret None end
      else ret (Some (set (SetSeed (u32 now)) s, argv))
  end.

(** ** Actions *)

Inductive action := RunTask | FsutilLs | FsutilCat | FsutilRm | FsutilExtract | FsutilAppend.
(** Their names and numbers of arguments, with the name. *)
Definition actions : list (list Z * nat * action) :=
  [(text "run", 2%nat, RunTask); (text "ls", 1%nat, FsutilLs); (text "cat", 2%nat, FsutilCat); (text "rm", 2%nat, FsutilRm);
   (text "extract", 1%nat, FsutilExtract); (text "append", 2%nat, FsutilAppend)].
Fixpoint find_action (arg : Z) (l : list (list Z * nat * action)) : M mem (option (nat * action)) :=
  match l with
  | [] => ret None
  | (name, argc, a) :: l => let! b := is_string arg name in if b : bool then ret (Some (argc, a)) else find_action arg l
  end.
(** The characters of a string. *)
Fixpoint read_string (fuel : nat) (a : Z) : M mem (list Z) :=
  match fuel with
  | O => fail OutOfFuel
  | S fuel => let! x := load a in if x =? 0 then ret [] else let! xs := read_string fuel (a + 1) in ret (x :: xs)
  end.
Context {S : Type} (exec : action -> list Z -> M S unit).
Definition on_mem {A} (c : M mem A) : M (mem * S) A := fun '(m, s) => match c m with Ok (a, m) => Ok (a, (m, s)) | Err f => Err f end.
Definition on_rest {A} (c : M S A) : M (mem * S) A := fun '(m, s) => match c s with Ok (a, s) => Ok (a, (m, s)) | Err f => Err f end.
(** [a->function (argv)]: the functions use [argv[1]] at most. *)
Definition invoke (a : action) (argc : nat) (argv : list Z) : M (mem * S) unit :=
  match argc, argv with
  | 2%nat, _ :: p :: _ => let! fuel := on_mem limit in let! arg := on_mem (read_string fuel p) in on_rest (exec a arg)
  | _, _ => on_rest (exec a [])
  end.
Fixpoint actions_loop (fuel : nat) (argv : list Z) : M (mem * S) unit :=
  match argv with
  | [] => ret tt
  | arg :: _ =>
      match fuel with
      | O => fail OutOfFuel
      | Datatypes.S fuel =>
          let! a := on_mem (find_action arg actions) in
          match a with
          | None => fail KernelPanic
          | Some (argc, a) =>
              if (length argv <? argc)%nat then fail KernelPanic
              else do! invoke a argc argv; actions_loop fuel (drop argc argv)
          end
      end
  end.
Definition run_actions (argv : list Z) : M (mem * S) unit := actions_loop (length argv) argv.
End boot.

(** ** Block devices *)

Fixpoint first_of_type (fuel : nat) (role : Block.block_type) (block : option nat) : M Block.state (option nat) :=
  match block with
  | None => ret None
  | Some id =>
      match fuel with
      | O => fail OutOfFuel
      | S fuel =>
          let! b := Block.deref id in
          if bool_decide (Block.type b = role) then ret (Some id)
          else let! next := Block.block_next id in first_of_type fuel role next
      end
  end.
Definition locate_block_device (role : Block.block_type) (name : option string) : M Block.state unit :=
  let! block := match name with
                | Some nm => let! b := Block.block_get_by_name nm in match b with Some id => ret (Some id) | None => fail KernelPanic end
                | None =>
                    let! n := gets (fun s => length (Block.all_blocks s)) in
                    let! b := Block.block_first in
                    first_of_type n role b
                end in
  match block with Some id => Block.block_set_role role id | None => ret tt end.
Definition locate_block_devices (filesys scratch : option string) : M Block.state unit :=
  do! locate_block_device Block.BLOCK_FILESYS filesys;
  locate_block_device Block.BLOCK_SCRATCH scratch.

End CommandLine.

(** * The words of the command line set what they say, and the actions run in their order *)

Module CommandLineProps.
Import CommandLine CStringProps.

(** ** Strings in memory *)

Lemma is_string_run lit : Forall (fun c => c <> 0) lit -> forall m a xs, cstr_at m a xs -> is_string a lit m = Ok (bool_decide (xs = lit), m).
Proof.
  induction 1 as [|c lit Hc _ IH]; intros m a xs Hx; cbn [is_string].
  - destruct xs as [|x xs]; [apply cstr_at_nil in Hx|apply cstr_at_cons in Hx as (Hx & Hr & _)]; (erewrite bind_eq; [|by apply mem_load_run]); [done|].
    rewrite (proj2 (Z.eqb_neq x 0)) by lia. by rewrite bool_decide_false.
  - destruct xs as [|x xs]; [apply cstr_at_nil in Hx|apply cstr_at_cons in Hx as (Hx & Hr & Hxs)]; (erewrite bind_eq; [|by apply mem_load_run]).
    + rewrite (proj2 (Z.eqb_neq 0 c)) by congruence. by rewrite bool_decide_false.
    + destruct (Z.eqb_spec x c) as [->|Hne].
      * rewrite (IH m (a + 1) xs Hxs). do 2 f_equal. apply bool_decide_ext. split; congruence.
      * rewrite bool_decide_false by congruence. done.
Qed.
Lemma read_string_run fuel : forall m a xs, cstr_at m a xs -> (length xs < fuel)%nat -> read_string fuel a m = Ok (xs, m).
Proof.
  induction fuel as [|fuel IH]; intros m a xs Hx Hf; [lia|]. cbn [read_string]. destruct xs as [|x xs].
  - apply cstr_at_nil in Hx. by erewrite bind_eq; [|by apply mem_load_run].
  - apply cstr_at_cons in Hx as (Hx & Hr & Hxs). erewrite bind_eq; [|by apply mem_load_run]. rewrite (proj2 (Z.eqb_neq x 0)) by lia.
    erewrite bind_eq; [|apply IH; [exact Hxs|cbn in Hf; lia]]. done.
Qed.
Lemma strnlen_run m a xs n : cstr_at m a xs -> Z.of_nat (length xs) <= n -> strnlen a n m = Ok (Z.of_nat (length xs), m).
Proof.
  intros Hx Hn. unfold strnlen. erewrite bind_eq; [|reflexivity].
  assert (forall fuel k, (k <= length xs)%nat -> (length xs - k < fuel)%nat -> strnlen_loop fuel a n (Z.of_nat k) m = Ok (Z.of_nat (length xs), m)) as X.
  { induction fuel as [|fuel IH]; intros k Hk Hf; [lia|]. cbn [strnlen_loop]. pose proof (cstr_at_drop m a xs k Hx Hk) as Hd. destruct (drop k xs) as [|x ys] eqn:Ed.
    - apply cstr_at_nil in Hd. erewrite bind_eq; [|by apply mem_load_run]. apply (f_equal length) in Ed. rewrite length_drop in Ed. cbn in Ed. cbn. by replace k with (length xs) by lia.
    - apply cstr_at_cons in Hd as (Hd & Hr & _). erewrite bind_eq; [|by apply mem_load_run]. apply (f_equal length) in Ed. rewrite length_drop in Ed. cbn in Ed.
      rewrite (proj2 (Z.eqb_neq x 0)), (proj2 (Z.ltb_lt _ _)) by lia. cbn [negb andb]. replace (Z.of_nat k + 1) with (Z.of_nat (S k)) by lia. apply IH; lia. }
  apply (X (S (size m)) 0%nat); [lia|]. pose proof (cstr_size m a xs Hx). lia.
Qed.

(** [atoi] of a sequence of characters. *)
Fixpoint skip_blanks (xs : list Z) : list Z := match xs with [] => [] | x :: ys => if isspace x then skip_blanks ys else xs end.
Fixpoint digits_value (xs : list Z) (v : Z) : Z := match xs with [] => v | x :: xs => if isdigit x then digits_value xs (s32 (s32 (v * 10) - (x - 48))) else v end.
Definition atoi_of (xs : list Z) : Z :=
  match skip_blanks xs with
  | [] => 0
  | x :: ys => if x =? 43 then s32 (- digits_value ys 0) else if x =? 45 then digits_value ys 0 else s32 (- digits_value (x :: ys) 0)
  end.
Lemma digits_value_run fuel : forall m a xs v, cstr_at m a xs -> (length xs < fuel)%nat -> digits_loop fuel a v m = Ok (digits_value xs v, m).
Proof.
  induction fuel as [|fuel IH]; intros m a xs v Hx Hf; [lia|]. cbn [digits_loop]. destruct xs as [|x xs].
  - apply cstr_at_nil in Hx. by erewrite bind_eq; [|by apply mem_load_run].
  - apply cstr_at_cons in Hx as (Hx & Hr & Hxs). erewrite bind_eq; [|by apply mem_load_run]. cbn [digits_value]. destruct (isdigit x); [|done]. apply IH; [done|cbn in Hf; lia].
Qed.
Lemma skip_space_run fuel : forall m a xs, cstr_at m a xs -> (length xs < fuel)%nat -> exists a', skip_space fuel a m = Ok (a', m) /\ cstr_at m a' (skip_blanks xs) /\ (length (skip_blanks xs) <= length xs)%nat.
Proof.
  induction fuel as [|fuel IH]; intros m a xs Hx Hf; [lia|]. cbn [skip_space]. destruct xs as [|x xs].
  - pose proof Hx as H0. apply cstr_at_nil in H0. exists a. erewrite bind_eq; [|by apply mem_load_run]. done.
  - pose proof Hx as H0. apply cstr_at_cons in H0 as (H0 & Hr & Hxs). erewrite bind_eq; [|by apply mem_load_run]. cbn [skip_blanks]. destruct (isspace x); [|by exists a].
    destruct (IH m (a + 1) xs Hxs) as (a' & E & Ha & Hl); [cbn in Hf; lia|]. exists a'. split; [done|]. split; [done|]. cbn. lia.
Qed.
Lemma atoi_of_run m a xs : a <> 0 -> cstr_at m a xs -> atoi a m = Ok (atoi_of xs, m).
Proof.
  intros Ha Hx. pose proof (cstr_size m a xs Hx) as Hs. unfold atoi. rewrite (proj2 (Z.eqb_neq a 0)) by done. do 2 (erewrite bind_eq; [|done]).
  destruct (skip_space_run (S (size m)) m a xs Hx) as (a' & E & Hx' & Hl); [lia|]. erewrite bind_eq; [|exact E]. unfold atoi_of. destruct (skip_blanks xs) as [|x ys].
  - pose proof Hx' as H0. apply cstr_at_nil in H0. erewrite bind_eq; [|by apply mem_load_run]. cbn [Z.eqb]. erewrite bind_eq; [|apply (digits_value_run _ m a' [] 0 Hx'); cbn in *; lia]. done.
  - pose proof Hx' as H0. apply cstr_at_cons in H0 as (H0 & Hr & Hys). erewrite bind_eq; [|by apply mem_load_run]. destruct (x =? 43); [|destruct (x =? 45)];
      (erewrite bind_eq; [|by apply digits_value_run; [eassumption|cbn in *; lia]]); done.
Qed.

(** ** Words in memory *)

Fixpoint words_at (m : mem) (a : Z) (ws : list (list Z)) : Prop :=
  match ws with [] => True | w :: ws => cstr_at m a w /\ words_at m (a + Z.of_nat (length w) + 1) ws end.
Fixpoint addrs (a : Z) (ws : list (list Z)) : list Z :=
  match ws with [] => [] | w :: ws => a :: addrs (a + Z.of_nat (length w) + 1) ws end.
Definition total (ws : list (list Z)) : Z := Z.of_nat (length (concat ((.++ [0]) <$> ws))).
Lemma total_cons w ws : total (w :: ws) = Z.of_nat (length w) + 1 + total ws.
Proof. unfold total. cbn. rewrite !length_app. cbn. lia. Qed.
Lemma addrs_length a ws : length (addrs a ws) = length ws.
Proof. revert a. induction ws as [|w ws IH]; intros a; cbn; [done|]. by rewrite IH. Qed.
Lemma words_at_ext m m' ws : forall a, (forall x, a <= x -> m' !! x = m !! x) -> words_at m a ws -> words_at m' a ws.
Proof.
  induction ws as [|w ws IH]; intros a Hx; cbn; [done|]. intros [[Hb Hc] Hw]. split; [|apply IH; [intros x Hx'; apply Hx; lia|done]].
  split; [|done]. eapply bytes_at_ext; [|exact Hb]. intros x Hx'. apply Hx. lia.
Qed.

Lemma argv_loop_run ws : forall m i p argv, words_at m p ws -> 0 <= i -> i + Z.of_nat (length ws) <= 65 -> p + total ws <= LOADER_ARGS + LOADER_ARGS_LEN ->
  argv_loop (length ws) i p argv m = Ok (argv ++ addrs p ws, m).
Proof.
  induction ws as [|w ws IH]; intros m i p argv Hw Hi Hl Ht; cbn [argv_loop length addrs]; [by rewrite app_nil_r|]. destruct Hw as [Hw Hws]. rewrite total_cons in Ht. cbn [length] in Hl.
  assert (0 <= total ws) by (unfold total; lia). rewrite Z.geb_leb, (proj2 (Z.leb_gt _ _)) by lia. change (Z.quot LOADER_ARGS_LEN 2 + 1) with 65. rewrite Z.geb_leb, (proj2 (Z.leb_gt _ _)) by lia.
  erewrite bind_eq; [|apply strnlen_run; [exact Hw|lia]]. rewrite (IH m (i + 1)) by (done || lia). by rewrite <- app_assoc.
Qed.
Lemma arg_cnt_run m a n : bytes_at m a (le_encode 4 n) -> 0 <= n < 2 ^ 32 -> load32 a m = Ok (n, m).
Proof.
  intros Hb Hn. cbn [le_encode] in Hb. apply bytes_at_cons in Hb as [H0 Hb]. apply bytes_at_cons in Hb as [H1 Hb]. apply bytes_at_cons in Hb as [H2 Hb]. apply bytes_at_cons in Hb as [H3 _].
  rewrite <- !Z.add_assoc in *. unfold load32. do 4 (erewrite bind_eq; [|by apply mem_load_run]). unfold ret. do 2 f_equal. pose proof (le_decode_encode 4 n). cbn [le_encode] in H. apply H. lia.
Qed.

(** ** What the words mean *)

(** The name of an option, and its value, which may not be empty. *)
Definition option_name (w : list Z) : list Z := take (token_length [61] w) w.
Definition option_value (w : list Z) : option (list Z) := match drop (S (token_length [61] w)) w with [] => None | v => Some v end.
Definition number (value : option (list Z)) : res Z := match value with Some v => Ok (u32 (atoi_of v)) | None => Err AssertFail end.
Definition meaning (name : list Z) (value : option (list Z)) : res (option (setting (option (list Z)))) :=
  if bool_decide (name = text "-h") then Ok None
  else if bool_decide (name = text "-q") then Ok (Some (SetHow SHUTDOWN_POWER_OFF))
  else if bool_decide (name = text "-r") then Ok (Some (SetHow SHUTDOWN_REBOOT))
  else if bool_decide (name = text "-f") then Ok (Some SetFormat)
  else if bool_decide (name = text "-filesys") then Ok (Some (SetFilesys value))
  else if bool_decide (name = text "-scratch") then Ok (Some (SetScratch value))
  else if bool_decide (name = text "-rs") then rbind (number value) (fun n => Ok (Some (SetSeed n)))
  else if bool_decide (name = text "-mlfqs") then Ok (Some SetMlfqs)
  else if bool_decide (name = text "-ul") then rbind (number value) (fun n => Ok (Some (SetLimit n)))
  else Err KernelPanic.
Definition is_option (w : list Z) : bool := hd 0 w =? 45.
(** The settings after all options, and the other words. *)
Fixpoint configure (ws : list (list Z)) (c : settings (option (list Z))) : res (option (settings (option (list Z)) * list (list Z))) :=
  match ws with
  | [] => Ok (Some (c, []))
  | w :: rest =>
      if is_option w then
        rbind (meaning (option_name w) (option_value w)) (fun o => match o with Some x => configure rest (set x c) | None => Ok None end)
      else Ok (Some (c, ws))
  end.

Section boot.
Context (eq_lit empty_lit now : Z).

(** A pointer to a name below the address [b], or null. *)
Definition points (m : mem) (b p : Z) (v : option (list Z)) : Prop :=
  match v with None => p = 0 | Some xs => 0 < p /\ p + Z.of_nat (length xs) < b /\ cstr_at m p xs end.
Record agree (m : mem) (b : Z) (s : settings Z) (c : settings (option (list Z))) : Prop := {
  ag_how : how s = how c; ag_format : format_filesys s = format_filesys c; ag_mlfqs : thread_mlfqs s = thread_mlfqs c;
  ag_limit : user_page_limit s = user_page_limit c; ag_seeds : seeds s = seeds c;
  ag_filesys : points m b (filesys_bdev_name s) (filesys_bdev_name c); ag_scratch : points m b (scratch_bdev_name s) (scratch_bdev_name c) }.
(** The literals are outside the words. *)
Definition literals (m : mem) (a b : Z) : Prop :=
  cstr_at m eq_lit [61] /\ cstr_at m empty_lit [] /\ 0 < eq_lit /\ 0 < empty_lit /\ (eq_lit + 1 < a \/ b <= eq_lit) /\ (empty_lit < a \/ b <= empty_lit).

Definition setting_agrees (m : mem) (b : Z) (x : setting Z) (y : setting (option (list Z))) : Prop :=
  match x, y with
  | SetHow h, SetHow h' => h = h' | SetFormat, SetFormat => True | SetMlfqs, SetMlfqs => True
  | SetFilesys p, SetFilesys v => points m b p v | SetScratch p, SetScratch v => points m b p v
  | SetSeed n, SetSeed n' => n = n' | SetLimit n, SetLimit n' => n = n' | _, _ => False
  end.
Lemma agree_set m b s c x y : agree m b s c -> setting_agrees m b x y -> agree m b (set x s) (set y c).
Proof. intros [] Hx. destruct x, y; cbn in Hx; try done; split; cbn; try done; congruence. Qed.
Lemma points_mono m m' b b' p v : (forall x, x < b -> m' !! x = m !! x) -> b <= b' -> points m b p v -> points m' b' p v.
Proof.
  intros Hm Hb. destruct v as [xs|]; cbn; [|done]. intros (H0 & H1 & [H2 H3]). split; [done|]. split; [lia|]. split; [|done].
  eapply bytes_at_ext; [|exact H2]. intros x Hx. apply Hm. rewrite length_app in Hx. cbn in Hx. lia.
Qed.
Lemma agree_mono m m' b b' s c : (forall x, x < b -> m' !! x = m !! x) -> b <= b' -> agree m b s c -> agree m' b' s c.
Proof. intros Hm Hb []. split; try done; by eapply points_mono. Qed.

Lemma option_of_run m b name value n v : cstr_at m name n -> points m b value v ->
  match meaning n v with
  | Err e => option_of name value m = Err e
  | Ok None => option_of name value m = Ok (None, m)
  | Ok (Some y) => exists x, option_of name value m = Ok (Some x, m) /\ setting_agrees m b x y
  end.
Proof.
  intros Hn Hv. unfold meaning, option_of.
  assert (atoi value m = match v with Some xs => Ok (atoi_of xs, m) | None => Err AssertFail end) as Ea.
  { destruct v as [xs|]; [destruct Hv as (H0 & _ & H1); apply atoi_of_run; [lia|done]|]. cbn in Hv. by rewrite Hv. }
  do 9 (erewrite bind_eq; [|apply is_string_run; [apply (bool_decide_unpack _); vm_compute; exact I|exact Hn]]; case_bool_decide;
    [first [reflexivity | by eexists; split; [reflexivity|] | unfold bind; rewrite Ea; destruct v as [xs|]; cbn [number rbind]; [by eexists; split; [reflexivity|]|done]]|]).
  done.
Qed.

(** The two calls of [strtok_r] on an option. *)
Lemma literals_ext m m' a b : (forall x, x < a \/ b <= x -> m' !! x = m !! x) -> literals m a b -> literals m' a b.
Proof.
  intros Hx ([H1 H1'] & H2 & H3 & H4 & H5 & H6). split; [|split; [|done]].
  - split; [|done]. eapply bytes_at_ext; [|exact H1]. intros x Hr. apply Hx. cbn in Hr. lia.
  - apply cstr_at_nil. apply cstr_at_nil in H2. rewrite Hx by lia. done.
Qed.
Lemma no_leading xs : leading [] xs = 0%nat.
Proof. by destruct xs. Qed.
Lemma whole_token xs : token_length [] xs = length xs.
Proof. induction xs as [|x xs IH]; cbn; [done|]. by rewrite IH. Qed.
Lemma value_split xs : token_split [] xs = match xs with [] => None | _ => Some (xs, []) end.
Proof. unfold token_split. rewrite no_leading, drop_0. destruct xs as [|x xs]; [done|]. rewrite whole_token. by rewrite firstn_all, drop_ge by lia. Qed.
Lemma option_split w : is_option w = true -> leading [61] w = 0%nat /\ token_split [61] w = Some (option_name w, drop (S (token_length [61] w)) w).
Proof. destruct w as [|x w]; [done|]. unfold is_option. cbn [hd]. intros ->%Z.eqb_eq. done. Qed.
Lemma tokens_run m lo hi a w : literals m lo hi -> lo <= a -> 0 < a -> a + Z.of_nat (length w) + 1 <= hi -> cstr_at m a w -> is_option w = true ->
  exists name save value save' m1 m2, strtok_r a eq_lit 0 m = Ok (name, save, m1) /\ strtok_r 0 empty_lit save m1 = Ok (value, save', m2) /\
    cstr_at m2 name (option_name w) /\ points m2 (a + Z.of_nat (length w) + 1) value (option_value w) /\ forall x, x < a \/ a + Z.of_nat (length w) < x -> m2 !! x = m !! x.
Proof.
  intros Hl Hlo Ha Hhi Hw Ho. pose proof Hl as (L1 & L2 & L3 & L4 & L5 & L6). destruct (option_split w Ho) as [El Es].
  destruct (strtok_r_run m a eq_lit w [61] 0) as (name & save & m1 & E1 & X); rewrite ?(proj2 (Z.eqb_neq a 0)) in * by lia; [lia|done|done|done|].
  rewrite Es, El in X. cbv zeta in X. rewrite ?(proj2 (Z.eqb_neq a 0)) in X by lia. rewrite Z.add_0_r in X. destruct X as (-> & Hn & Hr & X). cbn [Nat.add] in X. set (rest := drop (S (token_length [61] w)) w) in *.
  assert (length (option_name w) = token_length [61] w \/ option_name w = w) as Hlen.
  { unfold option_name. destruct (le_lt_dec (token_length [61] w) (length w)); [left; apply length_take_le; lia|right; apply take_ge; lia]. }
  assert ((forall x, x < a \/ a + Z.of_nat (length w) < x -> m1 !! x = m !! x) /\ 0 < save /\ save + Z.of_nat (length rest) <= a + Z.of_nat (length w)) as (Hm1 & Hs0 & Hs1).
  { assert (length (option_name w) <= length w)%nat by (unfold option_name; rewrite length_take; lia). destruct X as [(-> & Er & ->)|(-> & -> & Hlt)].
    - rewrite Er. cbn. split; [done|lia].
    - split; [intros x Hx; apply lookup_insert_ne; lia|]. unfold rest. rewrite length_drop. destruct Hlen as [Hlen|Hlen]; [|rewrite Hlen in Hlt; lia]. lia. }
  assert (literals m1 lo hi) as Hl1 by (apply (literals_ext m); [intros x Hx; apply Hm1; lia|done]). destruct Hl1 as (_ & K2 & _).
  destruct (strtok_r_run m1 0 empty_lit rest [] save) as (value & save' & m2 & E2 & Y); rewrite ?Z.eqb_refl; [lia|done|done|done|].
  rewrite value_split in Y. cbv zeta in Y. rewrite ?Z.eqb_refl in Y. exists a, save, value, save', m1, m2. split; [exact E1|]. split; [exact E2|].
  assert (m2 = m1 /\ points m1 (a + Z.of_nat (length w) + 1) value (option_value w)) as [-> Hp].
  { unfold option_value. fold rest. destruct rest as [|r rs] eqn:Er; [destruct Y as (-> & -> & _); done|]. rewrite no_leading, Z.add_0_r in Y.
    destruct Y as (-> & Hv & _ & [(-> & _)|(_ & _ & Hlt)]); [|cbn in Hlt; lia]. split; [done|]. split; [done|]. split; [lia|done]. }
  done.
Qed.

(** The options, one after the other. *)
Lemma parse_options_run ws : forall m lo hi a s c, literals m lo hi -> lo <= a -> 0 < a -> a + total ws <= hi -> words_at m a ws -> agree m a s c ->
  match configure ws c with
  | Err e => parse_options eq_lit empty_lit now (addrs a ws) s m = Err e
  | Ok None => exists m', parse_options eq_lit empty_lit now (addrs a ws) s m = Ok (None, m')
  | Ok (Some (c', rest)) => exists s' m' a', parse_options eq_lit empty_lit now (addrs a ws) s m = Ok (Some (s', addrs a' rest), m') /\
      words_at m' a' rest /\ agree m' a' s' (set (SetSeed (u32 now)) c')
  end.
Proof.
  induction ws as [|w ws IH]; intros m lo hi a s c Hl Hlo Ha Hhi Hw Hag; cbn [configure addrs parse_options].
  - eexists _, m, a. split; [reflexivity|]. split; [done|]. by apply agree_set.
  - rewrite total_cons in Hhi. assert (0 <= total ws) by (unfold total; lia). destruct Hw as [Hw Hws].
    assert (m !! a = Some (hd 0 w)) as Hd by (destruct w; [by apply cstr_at_nil in Hw|by apply cstr_at_cons in Hw as (? & _)]).
    erewrite bind_eq; [|by apply mem_load_run]. fold (is_option w). destruct (is_option w) eqn:Ho; [|eexists _, m, a; split; [reflexivity|]; split; [done|]; by apply agree_set].
    destruct (tokens_run m lo hi a w) as (name & save & value & save' & m1 & m2 & E1 & E2 & Hn & Hv & Hm2); [done|done|done|lia|done|done|].
    erewrite bind_eq; [|exact E1]. erewrite bind_eq; [|exact E2]. cbn [fst snd]. pose proof (option_of_run m2 _ _ _ _ _ Hn Hv) as X.
    assert (agree m2 (a + Z.of_nat (length w) + 1) s c) as Hag2 by (apply (agree_mono m m2 a); [intros x Hx; apply Hm2; lia|lia|done]).
    destruct (meaning (option_name w) (option_value w)) as [[y|]|e]; cbn [rbind].
    + destruct X as (x & E & Hxy). erewrite bind_eq; [|exact E].
      apply (IH m2 lo hi (a + Z.of_nat (length w) + 1)); [|lia|lia|lia| |by apply agree_set].
      * apply (literals_ext m); [intros z Hz; apply Hm2; lia|done].
      * apply (words_at_ext m); [intros z Hz; apply Hm2; lia|done].
    + erewrite bind_eq; [|exact X]. by exists m2.
    + by erewrite bind_err.
Qed.

(** ** Actions *)

Context {S : Type} (exec : action -> list Z -> M S unit).
Fixpoint action_named (w : list Z) (l : list (list Z * nat * action)) : option (nat * action) :=
  match l with [] => None | (name, argc, a) :: l => if bool_decide (w = name) then Some (argc, a) else action_named w l end.
Fixpoint perform (fuel : nat) (ws : list (list Z)) : M S unit :=
  match ws with
  | [] => ret tt
  | w :: rest =>
      match fuel with
      | O => ret tt
      | Datatypes.S fuel =>
          match action_named w actions with
          | None => fail KernelPanic
          | Some (argc, a) =>
              if (length ws <? argc)%nat then fail KernelPanic
              else do! exec a (if (argc =? 2)%nat then hd [] rest else []); perform fuel (drop argc ws)
          end
      end
  end.
Lemma find_action_run m p w l : cstr_at m p w -> Forall (fun x => Forall (fun c => c <> 0) x.1.1) l -> find_action p l m = Ok (action_named w l, m).
Proof.
  intros Hw. induction 1 as [|[[name argc] a] l Hn _ IH]; cbn [find_action action_named]; [done|]. erewrite bind_eq; [|by apply is_string_run]. by case_bool_decide.
Qed.
Lemma actions_names : Forall (fun x => Forall (fun c => c <> 0) x.1.1) actions.
Proof. apply (bool_decide_unpack _). vm_compute. exact I. Qed.
Lemma action_argc w argc a : action_named w actions = Some (argc, a) -> argc = 1%nat \/ argc = 2%nat.
Proof. cbn. repeat case_bool_decide; intros [=]; subst; tauto. Qed.
Lemma words_at_drop m ws k : forall a, words_at m a ws -> exists a', addrs a' (drop k ws) = drop k (addrs a ws) /\ words_at m a' (drop k ws).
Proof.
  revert ws. induction k as [|k IH]; intros ws a Hw; [by exists a; rewrite !drop_0|]. destruct ws as [|w ws]; [by exists a|]. cbn [drop addrs]. destruct Hw as [_ Hw]. by apply IH.
Qed.
Lemma run_actions_run fuel : forall m a ws s, words_at m a ws -> (length ws <= fuel)%nat ->
  actions_loop exec fuel (addrs a ws) (m, s) = match perform fuel ws s with Ok (u, s) => Ok (u, (m, s)) | Err e => Err e end.
Proof.
  induction fuel as [|fuel IH]; intros m a [|w ws] s Hw Hf; try done; [cbn in Hf; lia|]. cbn [addrs actions_loop perform]. pose proof Hw as [Hw0 Hws].
  unfold bind at 1, on_mem. rewrite (find_action_run m a w actions Hw0 actions_names). destruct (action_named w actions) as [[argc act]|] eqn:Ea; [|done].
  cbn [length] in *. rewrite addrs_length. destruct (Nat.ltb_spec (Datatypes.S (length ws)) argc) as [|Hlen]; [done|].
  assert (invoke exec act argc (a :: addrs (a + Z.of_nat (length w) + 1) ws) (m, s) =
    match exec act (if (argc =? 2)%nat then hd [] ws else []) s with Ok (u, s) => Ok (u, (m, s)) | Err e => Err e end) as Ei.
  { unfold invoke. destruct (action_argc _ _ _ Ea) as [-> | ->]; [done|]. destruct ws as [|w1 ws]; [cbn in Hlen; lia|]. cbn [addrs hd Nat.eqb]. destruct Hws as [Hw1 _].
    erewrite bind_eq; [|reflexivity]. pose proof (cstr_size _ _ _ Hw1). erewrite bind_eq; [|unfold on_mem; rewrite (read_string_run _ _ _ _ Hw1) by lia; reflexivity]. done. }
  unfold bind. rewrite Ei. destruct (exec act _ s) as [[u s1]|e]; [|done].
  destruct (words_at_drop m (w :: ws) argc a Hw) as (a' & Ed & Hw'). cbn [addrs] in Ed. rewrite <- Ed. apply IH; [done|]. rewrite length_drop. cbn. destruct (action_argc _ _ _ Ea) as [-> | ->]; lia.
Qed.

(** What is written on the command line for an action. *)
Definition spell (x : action * list Z) : list (list Z) :=
  match x with
  | (RunTask, arg) => [text "run"; arg] | (FsutilLs, _) => [text "ls"] | (FsutilCat, arg) => [text "cat"; arg]
  | (FsutilRm, arg) => [text "rm"; arg] | (FsutilExtract, _) => [text "extract"] | (FsutilAppend, arg) => [text "append"; arg]
  end.
Definition argument (x : action * list Z) : list Z := match x.1 with FsutilLs | FsutilExtract => [] | _ => x.2 end.
Fixpoint exec_all (l : list (action * list Z)) : M S unit := match l with [] => ret tt | x :: l => do! exec x.1 (argument x); exec_all l end.
Lemma spell_named x : action_named (hd [] (spell x)) actions = Some (length (spell x), x.1) /\ (0 < length (spell x))%nat /\
  forall rest, (if (length (spell x) =? 2)%nat then hd [] (drop 1 (spell x) ++ rest) else []) = argument x.
Proof. destruct x as [[] arg]; (split; [vm_compute; reflexivity|]); (split; [cbn; lia|done]). Qed.
Lemma perform_spell l : forall fuel s, (length (concat (spell <$> l)) <= fuel)%nat -> perform fuel (concat (spell <$> l)) s = exec_all l s.
Proof.
  induction l as [|x l IH]; intros fuel s Hf; [by destruct fuel|]. destruct (spell_named x) as (Hn & Hpos & Ha). specialize (Ha (concat (spell <$> l))).
  cbn [fmap list_fmap concat exec_all] in *. fold (fmap (M := list) spell l) in *. destruct (spell x) as [|w ws]; [cbn in Hpos; lia|]. cbn [hd drop app] in *.
  destruct fuel as [|fuel]; [cbn in Hf; lia|]. cbn [perform]. rewrite Hn. replace (length (w :: ws ++ concat (spell <$> l)) <? length (w :: ws))%nat with false
    by (symmetry; apply Nat.ltb_ge; cbn; rewrite length_app; lia). rewrite drop_0 in Ha. rewrite Ha. unfold bind. destruct (exec x.1 (argument x) s) as [[u s1]|e]; [|done].
  change (w :: ws ++ concat (spell <$> l)) with ((w :: ws) ++ concat (spell <$> l)). rewrite drop_app_length. apply IH. cbn in Hf. rewrite length_app in Hf. lia.
Qed.
End boot.

(** ** Theorems *)

Section command_line.
Context (eq_lit empty_lit now : Z) {S : Type} (exec : action -> list Z -> M S unit).
(** Reading the words, the options and running the actions, as [main] does; none if the machine
    is powered off by an option. *)
Definition command_line (s0 : settings Z) : M (mem * S) (option (settings Z)) :=
  let! argv := on_mem read_command_line in
  let! r := on_mem (parse_options eq_lit empty_lit now argv s0) in
  match r with Some (s, argv) => do! run_actions exec argv; ret (Some s) | None => ret None end.
Definition no_settings : settings Z :=
  {| how := SHUTDOWN_NONE; format_filesys := false; filesys_bdev_name := 0; scratch_bdev_name := 0; thread_mlfqs := false; user_page_limit := UINT32_MAX; seeds := [] |}.
Definition no_config : settings (option (list Z)) :=
  {| how := SHUTDOWN_NONE; format_filesys := false; filesys_bdev_name := None; scratch_bdev_name := None; thread_mlfqs := false; user_page_limit := UINT32_MAX; seeds := [] |}.

(** C15: The command line does what its words say.  If the loader has left at most 64 words with
    their terminators in the 128 bytes for them, the kernel reads them all; the options before
    the first word that is not one set what they name, the last one of a kind wins, and
    names of devices are the text after [=]; an option that is unknown stops the kernel, as does
    [-rs] or [-ul] without a number; the seed of the clock is used after, and so instead of, the
    one of [-rs]; then the actions run in their order with their arguments, up to the first one
    that fails, is unknown or lacks its argument. *)
Theorem command_line_correct m s ws : (length ws <= 64)%nat -> total ws <= LOADER_ARGS_LEN -> words_at m LOADER_ARGS ws ->
  bytes_at m LOADER_ARG_CNT (le_encode 4 (Z.of_nat (length ws))) -> literals eq_lit empty_lit m LOADER_ARGS (LOADER_ARGS + LOADER_ARGS_LEN) ->
  match configure ws no_config with
  | Err e => command_line no_settings (m, s) = Err e
  | Ok None => exists m', command_line no_settings (m, s) = Ok (None, (m', s))
  | Ok (Some (c, rest)) =>
      match perform exec (length rest) rest s with
      | Err e => command_line no_settings (m, s) = Err e
      | Ok (_, s') => exists st m' b, command_line no_settings (m, s) = Ok (Some st, (m', s')) /\ agree m' b st (set (SetSeed (u32 now)) c)
      end
  end.
Proof.
  intros Hn Ht Hw Hc Hl. assert (read_command_line m = Ok (addrs LOADER_ARGS ws, m)) as Er.
  { unfold read_command_line. erewrite bind_eq; [|apply arg_cnt_run; [exact Hc|lia]]. rewrite wraps_small by lia. rewrite Nat2Z.id.
    erewrite bind_eq; [|apply argv_loop_run; [done|lia|lia|lia]]. change (Z.quot LOADER_ARGS_LEN 2 + 1) with 65. rewrite (proj2 (Z.leb_le _ _)), (proj2 (Z.ltb_lt _ _)) by lia. done. }
  unfold command_line. erewrite bind_eq; [|unfold on_mem; rewrite Er; reflexivity].
  pose proof (parse_options_run eq_lit empty_lit now ws m LOADER_ARGS (LOADER_ARGS + LOADER_ARGS_LEN) LOADER_ARGS no_settings no_config Hl ltac:(lia) ltac:(done) ltac:(lia) Hw) as X.
  specialize (X ltac:(by split)). destruct (configure ws no_config) as [[[c rest]|]|e].
  - destruct X as (st & m' & a' & E & Hw' & Hag).
    pose proof (run_actions_run exec (length rest) m' a' rest s Hw' (le_n _)) as R. unfold run_actions. rewrite <- (addrs_length a' rest) in R at 1.
    destruct (perform exec (length rest) rest s) as [[u s']|e].
    + exists st, m', a'. split; [|exact Hag]. erewrite bind_eq; [|unfold on_mem; rewrite E; reflexivity]. cbv beta iota. erewrite bind_eq; [|exact R]. done.
    + erewrite bind_eq; [|unfold on_mem; rewrite E; reflexivity]. cbv beta iota. by apply bind_err.
  - destruct X as [m' E]. exists m'. by erewrite bind_eq; [|unfold on_mem; rewrite E; reflexivity].
  - apply bind_err. unfold on_mem. by rewrite X.
Qed.
End command_line.

(** ["-f -filesys=hda1 ls"], with the literals at 100 and 102. *)
Definition sample_words : list (list Z) := Eval vm_compute in [text "-f"; text "-filesys=hda1"; text "ls"].
Definition sample_mem : mem := mem_of LOADER_ARG_CNT (le_encode 4 3 ++ concat ((.++ [0]) <$> sample_words)) ∪ mem_of 100 [61; 0; 0].
Lemma command_line_correct_witness : exists st m', command_line 100 102 5 (fun _ _ => modify (Z.add 1)) no_settings (sample_mem, 0) = Ok (Some st, (m', 1)) /\
  format_filesys st = true /\ seeds st = [5].
Proof.
  pose proof (command_line_correct 100 102 5 (fun _ _ => modify (Z.add 1)) sample_mem 0 sample_words) as X.
  assert (configure sample_words no_config = Ok (Some (set (SetFilesys (Some (text "hda1"))) (set SetFormat no_config), [text "ls"]))) as Ec by (vm_compute; reflexivity).
  rewrite Ec in X. destruct X as (st & m' & b & E & Hag).
  - cbn. lia.
  - vm_compute. discriminate.
  - split; [solve_cstr|]. split; [solve_cstr|]. split; [solve_cstr|exact I].
  - apply bytes_at_cons; split; [by vm_compute|]. apply bytes_at_cons; split; [by vm_compute|]. apply bytes_at_cons; split; [by vm_compute|]. apply bytes_at_cons; split; [by vm_compute|]. apply bytes_at_nil.
  - split; [solve_cstr|]. split; [solve_cstr|]. split; [lia|]. split; [lia|]. split; left; unfold LOADER_ARGS; lia.
  - exists st, m'. split; [exact E|]. split; [exact (ag_format _ _ _ _ Hag)|exact (ag_seeds _ _ _ _ Hag)].
Defined.

(** The array of words has room for 64 words, but 128 empty ones fit where the loader puts them. *)
Lemma too_many_words : read_command_line (mem_of LOADER_ARG_CNT (le_encode 4 66 ++ replicate 128 0)) = Err WildAccess.
Proof. vm_compute. reflexivity. Qed.

(** ** Roles of block devices *)

Definition has_type (role : Block.block_type) (b : Block.block) : Prop := Block.type b = role.
#[local] Instance has_type_dec role b : Decision (has_type role b) := decide (Block.type b = role).
Lemma first_of_type_run role fuel : forall s id, (length (Block.all_blocks s) - id <= fuel)%nat ->
  first_of_type fuel role (if (id <? length (Block.all_blocks s))%nat then Some id else None) s =
    Ok ((fun x => (id + x.1)%nat) <$> list_find (has_type role) (drop id (Block.all_blocks s)), s).
Proof.
  induction fuel as [|fuel IH]; intros s id Hf; destruct (Nat.ltb_spec id (length (Block.all_blocks s))) as [Hlt|Hge]; try lia; cbn [first_of_type]; try by rewrite drop_ge by lia.
  destruct (lookup_lt_is_Some_2 _ _ Hlt) as [b Eb]. erewrite bind_eq; [|unfold Block.deref; rewrite Eb; reflexivity]. rewrite (drop_S _ b id Eb). cbn [list_find]. unfold has_type at 1.
  destruct (decide (Block.type b = role)) as [E|E].
  - rewrite bool_decide_true by done. cbn. by rewrite Nat.add_0_r.
  - rewrite bool_decide_false by done. erewrite bind_eq; [|reflexivity]. rewrite IH by lia. unfold ret. do 2 f_equal. destruct (list_find _ _) as [[k x]|]; cbn; [f_equal; lia|done].
Qed.
(** Without a name the first device of the type gets the role, and without one nothing happens. *)
Lemma locate_unnamed role s : Block.is_role role = true ->
  exists s', locate_block_device role None s = Ok (tt, s') /\ Block.all_blocks s' = Block.all_blocks s /\ Block.disks s' = Block.disks s /\
    (forall r, r <> role -> Block.block_by_role s' r = Block.block_by_role s r) /\
    Block.block_by_role s' role = match list_find (has_type role) (Block.all_blocks s) with Some (id, _) => Some id | None => Block.block_by_role s role end.
Proof.
  intros Hr. unfold locate_block_device. pose proof (first_of_type_run role (length (Block.all_blocks s)) s 0 ltac:(lia)) as E. rewrite drop_0 in E.
  erewrite bind_eq; [|unfold bind, gets, Block.block_first, Block.list_elem_to_block; exact E].
  destruct (list_find _ _) as [[id b]|]; cbn [fmap option_fmap option_map fst]; [|by exists s].
  unfold Block.block_set_role. rewrite Hr. eexists. split; [reflexivity|]. cbn. split; [done|]. split; [done|]. split; [|by rewrite decide_True].
  intros r Hne. by rewrite decide_False.
Qed.

End CommandLineProps.
