(* ===== verification/Ide.v ===== *)
(** * devices/ide.c: the ATA disk driver

    The two disks of a channel behind their registers.  The hardware is a parameter
    ([AtaOps]): what its ports answer, what passes with time, and when it raises its
    interrupt, which reaches the driver after any instruction that runs with interrupts
    enabled, or while the driver waits on the semaphore.  [AtaLaws] states the protocol of the
    ATA standard for the transfer of one sector.  The theorem shows that the driver
    implements the transfers the block layer is built on.  The lock of a channel
    serialises the calls, so that a call is one computation here; messages are left out. *)

From stdpp Require Import strings.
From S2P Require Import Prelude Bytes CStdlib Block.

Module Ide.

(** ** The ports of a channel *)
Section registers.
Variable reg_base : Z.
Definition reg_data : Z := reg_base + 0.
Definition reg_error : Z := reg_base + 1.
Definition reg_nsect : Z := reg_base + 2.
Definition reg_lbal : Z := reg_base + 3.
Definition reg_lbam : Z := reg_base + 4.
Definition reg_lbah : Z := reg_base + 5.
Definition reg_device : Z := reg_base + 6.
Definition reg_status : Z := reg_base + 7.
Definition reg_command : Z := reg_status.
Definition reg_ctl : Z := reg_base + 518.
Definition reg_alt_status : Z := reg_ctl.
End registers.

Definition STA_BSY : Z := 128.
Definition STA_DRDY : Z := 64.
Definition STA_DRQ : Z := 8.
Definition CTL_SRST : Z := 4.
Definition DEV_MBS : Z := 160.
Definition DEV_LBA : Z := 64.
Definition DEV_DEV : Z := 16.
Definition CMD_IDENTIFY_DEVICE : Z := 236.
Definition CMD_READ_SECTOR_RETRY : Z := 32.
Definition CMD_WRITE_SECTOR_RETRY : Z := 48.

(** The hardware: a byte from or to a port, a sector from or to the data port, the passing of
    time, whether the interrupt line is raised, and the state in which it will next be. *)
Class AtaOps (D : Type) := {
  ata_in : Z -> D -> Z * D;
  ata_out : Z -> Z -> D -> D;
  ata_insw : Z -> D -> list Z * D;
  ata_outsw : Z -> list Z -> D -> D;
  ata_sleep : D -> D;
  ata_pending : D -> bool;
  ata_wait : D -> option D }.

(** A channel; [is_ata] has the flags of its two devices. *)
Record channel (D : Type) : Type := Channel {
  reg_base : Z;
  irq : Z;
  expecting_interrupt : bool;
  completion_wait : Z;
  is_ata : list bool;
  hw : D }.
Arguments Channel {D}. Arguments reg_base {D}. Arguments irq {D}. Arguments expecting_interrupt {D}.
Arguments completion_wait {D}. Arguments is_ata {D}. Arguments hw {D}.

Section driver.
Context {D : Type} `{AtaOps D}.
(** Whether interrupts are enabled in the thread that uses the disk. *)
Variable on : bool.
Abbreviation chan := (channel D).

Definition set_hw (h : D) (c : chan) : chan :=
  Channel (reg_base c) (irq c) (expecting_interrupt c) (completion_wait c) (is_ata c) h.
Definition set_completion (n : Z) (c : chan) : chan :=
  Channel (reg_base c) (irq c) (expecting_interrupt c) n (is_ata c) (hw c).
Definition set_expecting (c : chan) : chan :=
  Channel (reg_base c) (irq c) true (completion_wait c) (is_ata c) (hw c).
Definition set_is_ata (dev_no : nat) (b : bool) (c : chan) : chan :=
  Channel (reg_base c) (irq c) (expecting_interrupt c) (completion_wait c) (<[dev_no := b]> (is_ata c)) (hw c).

(** ** Interrupts *)

(** The part of the handler for the channel whose interrupt it is. *)
Definition acknowledge (c : chan) : chan :=
  if expecting_interrupt c
  then set_completion (completion_wait c + 1) (set_hw (snd (ata_in (reg_status (reg_base c)) (hw c))) c)
  else c.

Fixpoint interrupt_handler (vec_no : Z) (cs : list chan) : res (list chan) :=
  match cs with
  | [] => Err AssertFail
  | c :: cs =>
      if vec_no =? irq c then Ok (acknowledge c :: cs)
      else rbind (interrupt_handler vec_no cs) (fun cs => Ok (c :: cs))
  end.

(** After an instruction a raised interrupt is taken. *)
Definition deliver (c : chan) : chan := if on && ata_pending (hw c) then acknowledge c else c.

Definition inb (port : Z) : M chan Z :=
  fun c => let '(v, h) := ata_in port (hw c) in Ok (v, deliver (set_hw h c)).
Definition outb (port v : Z) : M chan unit :=
  fun c => Ok (tt, deliver (set_hw (ata_out port v (hw c)) c)).
Definition timer_sleep : M chan unit := fun c => Ok (tt, deliver (set_hw (ata_sleep (hw c)) c)).

(** [sema_down] on the semaphore of the channel; a thread that is not woken waits without
    end. *)
Definition sema_down : M chan unit :=
  fun c =>
    if 0 <? completion_wait c then Ok (tt, set_completion (completion_wait c - 1) c)
    else match ata_wait (hw c) with
         | None => Err OutOfFuel
         | Some h => let c := acknowledge (set_hw h c) in
                     if 0 <? completion_wait c then Ok (tt, set_completion (completion_wait c - 1) c)
                     else Err OutOfFuel
         end.

(** ** Low-level primitives *)

Fixpoint idle_loop (n : nat) : M chan unit :=
  match n with
  | O => ret tt
  | S n => let! base := gets reg_base in
           let! status := inb (reg_status base) in
           if Z.land status (Z.lor STA_BSY STA_DRQ) =? 0 then ret tt
           else do! timer_sleep; idle_loop n
  end.
Definition wait_until_idle : M chan unit := idle_loop 1000.

Fixpoint busy_loop (n : nat) : M chan bool :=
  match n with
  | O => ret false
  | S n => let! base := gets reg_base in
           let! status := inb (reg_alt_status base) in
           if Z.land status STA_BSY =? 0 then
             let! status := inb (reg_alt_status base) in
             ret (negb (Z.land status STA_DRQ =? 0))
           else do! timer_sleep; busy_loop n
  end.
Definition wait_while_busy : M chan bool := busy_loop 3000.

Definition select_device (dev_no : nat) : M chan unit :=
  let! base := gets reg_base in
  do! outb (reg_device base) (if decide (dev_no = 1%nat) then Z.lor DEV_MBS DEV_DEV else DEV_MBS);
  let! _ := inb (reg_alt_status base) in
  timer_sleep.

Definition select_device_wait (dev_no : nat) : M chan unit :=
  do! wait_until_idle; do! select_device dev_no; wait_until_idle.

Definition issue_pio_command (command : Z) : M chan unit :=
  do! assert on;
  do! modify set_expecting;
  let! base := gets reg_base in
  outb (reg_command base) command.

Definition input_sector : M chan (list Z) :=
  fun c => let '(sector, h) := ata_insw (reg_data (reg_base c)) (hw c) in Ok (sector, deliver (set_hw h c)).
Definition output_sector (sector : list Z) : M chan unit :=
  fun c => Ok (tt, deliver (set_hw (ata_outsw (reg_data (reg_base c)) sector (hw c)) c)).

Definition device_byte (dev_no : nat) (sec_no : Z) : Z :=
  u8 (Z.lor (Z.lor (Z.lor DEV_MBS DEV_LBA) (if decide (dev_no = 1%nat) then DEV_DEV else 0)) (Z.shiftr sec_no 24)).

Definition select_sector (dev_no : nat) (sec_no : Z) : M chan unit :=
  do! assert (sec_no <? 2 ^ 28);
  do! select_device_wait dev_no;
  let! base := gets reg_base in
  do! outb (reg_nsect base) 1;
  do! outb (reg_lbal base) (u8 sec_no);
  do! outb (reg_lbam base) (u8 (Z.shiftr sec_no 8));
  do! outb (reg_lbah base) (u8 (Z.shiftr sec_no 16));
  outb (reg_device base) (device_byte dev_no sec_no).

(** ** Transfers *)

Definition ide_read (dev_no : nat) (sec_no : Z) : M chan (list Z) :=
  do! select_sector dev_no sec_no;
  do! issue_pio_command CMD_READ_SECTOR_RETRY;
  do! sema_down;
  let! ok := wait_while_busy in
  if negb ok then fail KernelPanic else input_sector.

Definition ide_write (dev_no : nat) (sec_no : Z) (buffer : list Z) : M chan unit :=
  do! select_sector dev_no sec_no;
  do! issue_pio_command CMD_WRITE_SECTOR_RETRY;
  let! ok := wait_while_busy in
  if negb ok then fail KernelPanic else
  do! output_sector buffer;
  sema_down.

(** ** Detection and identification *)

Definition probe (dev_no : nat) : M chan bool :=
  do! select_device dev_no;
  let! base := gets reg_base in
  do! outb (reg_nsect base) 85; do! outb (reg_lbal base) 170;
  do! outb (reg_nsect base) 170; do! outb (reg_lbal base) 85;
  do! outb (reg_nsect base) 85; do! outb (reg_lbal base) 170;
  let! nsect := inb (reg_nsect base) in
  if nsect =? 85 then let! lbal := inb (reg_lbal base) in ret (lbal =? 170) else ret false.

Fixpoint slave_loop (n : nat) : M chan unit :=
  match n with
  | O => ret tt
  | S n => let! base := gets reg_base in
           let! nsect := inb (reg_nsect base) in
           let! lbal := (if nsect =? 1 then inb (reg_lbal base) else ret 0) in
           if (nsect =? 1) && (lbal =? 1) then ret tt else do! timer_sleep; slave_loop n
  end.

Definition reset_channel : M chan unit :=
  let! present0 := probe 0 in
  let! present1 := probe 1 in
  let! base := gets reg_base in
  do! outb (reg_ctl base) 0; do! timer_sleep;
  do! outb (reg_ctl base) CTL_SRST; do! timer_sleep;
  do! outb (reg_ctl base) 0; do! timer_sleep;
  do! (if present0 : bool then do! select_device 0; let! _ := wait_while_busy in ret tt else ret tt);
  if present1 : bool then do! select_device 1; do! slave_loop 3000; let! _ := wait_while_busy in ret tt
  else ret tt.

Definition check_device_type (dev_no : nat) : M chan bool :=
  do! select_device dev_no;
  let! base := gets reg_base in
  let! error := inb (reg_error base) in
  let! lbam := inb (reg_lbam base) in
  let! lbah := inb (reg_lbah base) in
  let! status := inb (reg_status base) in
  if (negb (error =? 1) && (negb (error =? 129) || bool_decide (dev_no = 1%nat)))
     || (Z.land status STA_DRDY =? 0) || negb (Z.land status STA_BSY =? 0)
  then do! modify (set_is_ata dev_no false); ret (negb (error =? 129))
  else do! modify (set_is_ata dev_no (((lbam =? 0) && (lbah =? 0)) || ((lbam =? 60) && (lbah =? 195))));
       ret true.

(** [register] registers the disk of the given capacity with the block layer and scans its
    partitions. *)
Variable register : nat -> Z -> M chan unit.

Definition identify_ata_device (dev_no : nat) : M chan unit :=
  let! flags := gets is_ata in
  do! assert (default false (flags !! dev_no));
  do! select_device_wait dev_no;
  do! issue_pio_command CMD_IDENTIFY_DEVICE;
  do! sema_down;
  let! ok := wait_while_busy in
  if negb ok then modify (set_is_ata dev_no false) else
  let! id := input_sector in
  let capacity := Bytes.le_decode (Bytes.sub_bytes 120 4 id) in
  if 1024 * 1024 * 1024 / Block.BLOCK_SECTOR_SIZE <=? capacity then modify (set_is_ata dev_no false)
  else register dev_no capacity.

Definition identify_if_ata (dev_no : nat) : M chan unit :=
  let! flags := gets is_ata in
  if default false (flags !! dev_no) then identify_ata_device dev_no else ret tt.

(** One turn of the loop of [ide_init]; the registration of the interrupt handler
    ([intr_register_ext], modelled in Interrupt.v) is left out. *)
Definition start_channel (chan_no : nat) (h : D) : chan :=
  match chan_no with
  | O => Channel 496 (14 + 32) false 0 [false; false] h
  | _ => Channel 368 (15 + 32) false 0 [false; false] h
  end.
Definition ide_init_channel : M chan unit :=
  do! reset_channel;
  let! slave := check_device_type 0 in
  do! (if slave : bool then let! _ := check_device_type 1 in ret tt else ret tt);
  do! identify_if_ata 0;
  identify_if_ata 1.
End driver.

(** Both channels, one after the other; [register] gets the number of the channel first. *)
Definition ide_init {D} `{AtaOps D} (on : bool) (register : nat -> nat -> Z -> M (channel D) unit) (h0 h1 : D) :
  res (channel D * channel D) :=
  rbind (ide_init_channel on (register 0%nat) (start_channel 0 h0)) (fun '(_, c0) =>
  rbind (ide_init_channel on (register 1%nat) (start_channel 1 h1)) (fun '(_, c1) => Ok (c0, c1))).

(** ** The strings of the identification *)

Fixpoint swap_pairs (s : list Z) : list Z :=
  match s with
  | a :: b :: s => b :: a :: swap_pairs s
  | s => s
  end.
(** The position of the terminator: past the last character before [size] that is neither
    white space nor null. *)
Fixpoint trim_loop (string : list Z) (size : nat) : nat :=
  match size with
  | O => O
  | S n => let c := nth n string 0 in
           if negb (c =? 0) && negb (CStdlib.isspace c) then size else trim_loop string n
  end.
Definition descramble_ata_string (string : list Z) : list Z :=
  let s := swap_pairs string in
  <[trim_loop s (length s - 1) := 0]> s.

End Ide.

Module IdeProps.
Import Ide.

(** ** The protocol of the ATA standard

    The phases of a transfer.  [Preparing n]: a write has been accepted and the disk is
    busy; it asks for the data after at most [n + 1] waits of the driver.  [DataInIrq] and [DoneIrq] are the phases in which the
    interrupt line is raised, until the status register is read.  [Other] stands for any other
    command, about which nothing is said. *)
Inductive phase : Type :=
| Idle | Reading | DataInIrq | DataIn | Preparing (n : nat) | DataOut | Writing | DoneIrq
| Other.
Definition raised (p : phase) : Prop := p = DataInIrq \/ p = DoneIrq.
Definition quiet (p : phase) : Prop := match p with DataInIrq | DoneIrq | Other => False | _ => True end.

(** The registers that select what is transferred. *)
Record task_file : Type := Task { nsect : Z; lbal : Z; lbam : Z; lbah : Z; device : Z }.
Definition write_task (reg : nat) (v : Z) (t : task_file) : task_file :=
  match reg with
  | 2%nat => Task v (lbal t) (lbam t) (lbah t) (device t)
  | 3%nat => Task (nsect t) v (lbam t) (lbah t) (device t)
  | 4%nat => Task (nsect t) (lbal t) v (lbah t) (device t)
  | 5%nat => Task (nsect t) (lbal t) (lbam t) v (device t)
  | _ => Task (nsect t) (lbal t) (lbam t) (lbah t) v
  end.
Definition selected (t : task_file) : nat := if Z.testbit (device t) 4 then 1 else 0.
Definition sector_of (t : task_file) : Z := Block.lba (lbal t, lbam t, lbah t, device t).
(** One sector, addressed linearly. *)
Definition one_sector (t : task_file) : Prop := nsect t = 1 /\ Z.testbit (device t) 6 = true.

Definition store (f : nat -> Z -> list Z) (dev : nat) (sec : Z) (data : list Z) : nat -> Z -> list Z :=
  fun dev' sec' => if bool_decide (dev' = dev /\ sec' = sec) then data else f dev' sec'.

Class AtaLaws (D : Type) `{AtaOps D} (base : Z) := {
  phase_of : D -> phase;
  task : D -> task_file;
  contents : D -> nat -> Z -> list Z;
  pending_raised d : raised (phase_of d) -> ata_pending d = true;
  pending_quiet d : quiet (phase_of d) -> ata_pending d = false;
  (** idle: the status has neither BSY nor DRQ, the registers take what is written *)
  idle_status d : phase_of d = Idle -> exists v d',
    ata_in (reg_status base) d = (v, d') /\ Z.land v (Z.lor STA_BSY STA_DRQ) = 0 /\
    phase_of d' = Idle /\ task d' = task d /\ contents d' = contents d;
  idle_alt d : phase_of d = Idle -> exists v d',
    ata_in (reg_alt_status base) d = (v, d') /\ phase_of d' = Idle /\ task d' = task d /\ contents d' = contents d;
  idle_sleep d : phase_of d = Idle ->
    phase_of (ata_sleep d) = Idle /\ task (ata_sleep d) = task d /\ contents (ata_sleep d) = contents d;
  idle_write d reg v : phase_of d = Idle -> (2 <= reg <= 6)%nat -> 0 <= v < 256 ->
    let d' := ata_out (base + Z.of_nat reg) v d in
    phase_of d' = Idle /\ task d' = write_task reg v (task d) /\ contents d' = contents d;
  (** reading: the interrupt comes when the data are there *)
  read_command d : phase_of d = Idle -> one_sector (task d) ->
    let d' := ata_out (reg_command base) CMD_READ_SECTOR_RETRY d in
    (phase_of d' = Reading \/ phase_of d' = DataInIrq) /\ task d' = task d /\ contents d' = contents d;
  read_wait d : phase_of d = Reading -> exists d',
    ata_wait d = Some d' /\ phase_of d' = DataInIrq /\ task d' = task d /\ contents d' = contents d;
  read_ack d : phase_of d = DataInIrq ->
    let d' := snd (ata_in (reg_status base) d) in
    phase_of d' = DataIn /\ task d' = task d /\ contents d' = contents d;
  data_alt d : phase_of d = DataIn \/ phase_of d = DataOut -> exists v d',
    ata_in (reg_alt_status base) d = (v, d') /\ Z.land v STA_BSY = 0 /\ Z.land v STA_DRQ <> 0 /\
    phase_of d' = phase_of d /\ task d' = task d /\ contents d' = contents d;
  data_in d : phase_of d = DataIn -> exists d',
    ata_insw (reg_data base) d = (contents d (selected (task d)) (sector_of (task d)), d') /\
    phase_of d' = Idle /\ contents d' = contents d;
  (** writing: the disk asks for the data within 30 seconds, the interrupt comes when it has
      stored them *)
  write_command d : phase_of d = Idle -> one_sector (task d) ->
    let d' := ata_out (reg_command base) CMD_WRITE_SECTOR_RETRY d in
    (phase_of d' = DataOut \/ exists n, (n < 2999)%nat /\ phase_of d' = Preparing n) /\
    task d' = task d /\ contents d' = contents d;
  prepare_alt d n : phase_of d = Preparing n -> exists v d',
    ata_in (reg_alt_status base) d = (v, d') /\ Z.land v STA_BSY <> 0 /\
    phase_of d' = Preparing n /\ task d' = task d /\ contents d' = contents d;
  prepare_sleep d n : phase_of d = Preparing n ->
    let d' := ata_sleep d in
    (phase_of d' = DataOut \/ exists m, (m < n)%nat /\ phase_of d' = Preparing m) /\
    task d' = task d /\ contents d' = contents d;
  data_out d data : phase_of d = DataOut -> length data = 512%nat ->
    let d' := ata_outsw (reg_data base) data d in
    (phase_of d' = Writing \/ phase_of d' = DoneIrq) /\
    contents d' = store (contents d) (selected (task d)) (sector_of (task d)) data;
  write_wait d : phase_of d = Writing -> exists d',
    ata_wait d = Some d' /\ phase_of d' = DoneIrq /\ contents d' = contents d;
  write_ack d : phase_of d = DoneIrq ->
    let d' := snd (ata_in (reg_status base) d) in
    phase_of d' = Idle /\ contents d' = contents d }.

Section proofs.
Context {D : Type} `{AtaOps D} (base : Z) `{!AtaLaws D base}.
Abbreviation chan := (channel D).
Abbreviation tr := (fun c : chan => (phase_of (hw c), task (hw c), contents (hw c))).

(** What a call leaves unchanged. *)
Definition same (c c' : chan) : Prop := reg_base c' = reg_base c /\ irq c' = irq c /\ is_ata c' = is_ata c.

(** The channel [c] in phase [p] of a transfer. *)
Definition at_phase (c : chan) (p : phase) (t : task_file) (f : nat -> Z -> list Z) (n : Z) : Prop :=
  reg_base c = base /\ phase_of (hw c) = p /\ task (hw c) = t /\ contents (hw c) = f /\ completion_wait c = n.

Lemma deliver_quiet (c : chan) : quiet (phase_of (hw c)) -> deliver true c = c.
Proof. intros Hq. unfold deliver. by rewrite (pending_quiet _ Hq). Qed.

Lemma chan_trans c1 c2 c3 : same c1 c2 -> same c2 c3 -> same c1 c3.
Proof. unfold same. intuition congruence. Qed.
Lemma same_hw h c : same c (set_hw h c).
Proof. done. Qed.

(** A call that takes the channel from one phase to another. *)
Definition leads {A} (m : M chan A) (c : chan) (Q : A -> chan -> Prop) : Prop :=
  exists a c', m c = Ok (a, c') /\ same c c' /\ (expecting_interrupt c = true -> expecting_interrupt c' = true) /\ Q a c'.

Lemma leads_bind {A B} (m : M chan A) (k : A -> M chan B) c Q R :
  leads m c Q -> (forall a c', Q a c' -> leads (k a) c' R) -> leads (bind m k) c R.
Proof.
  intros (a & c1 & E & S1 & X1 & HQ) Hk. destruct (Hk _ _ HQ) as (b & c2 & E2 & S2 & X2 & HR).
  exists b, c2. rewrite (bind_eq _ _ _ _ _ E). split_and!; [exact E2|by eapply chan_trans|auto|exact HR].
Qed.
Lemma leads_mono {A} (m : M chan A) c (Q R : A -> chan -> Prop) :
  leads m c Q -> (forall a c', Q a c' -> R a c') -> leads m c R.
Proof. intros (a & c1 & E & S1 & X1 & HQ) Hk. exists a, c1. auto. Qed.
Lemma leads_ret {A} (a : A) c (Q : A -> chan -> Prop) : Q a c -> leads (ret a) c Q.
Proof. intros HQ. by exists a, c. Qed.
Lemma leads_base {B} (k : Z -> M chan B) c R :
  reg_base c = base -> leads (k base) c R -> leads (bind (gets reg_base) k) c R.
Proof. intros E (b & c2 & R2). exists b, c2. erewrite bind_eq; [|reflexivity]. by rewrite E. Qed.
Lemma leads_assert {B} b (k : unit -> M chan B) c R : b = true -> leads (k tt) c R -> leads (bind (assert b) k) c R.
Proof. intros -> HR. exact HR. Qed.

(** *** The idle channel *)

Lemma idle_step h (c : chan) t f :
  reg_base c = base -> completion_wait c = 0 ->
  phase_of h = Idle -> task h = t -> contents h = f ->
  at_phase (deliver true (set_hw h c)) Idle t f 0 /\ deliver true (set_hw h c) = set_hw h c.
Proof. intros Eb En Ep Et Ef. rewrite deliver_quiet by (cbn; by rewrite Ep). done. Qed.

Lemma outb_idle c t f reg v :
  at_phase c Idle t f 0 -> (2 <= reg <= 6)%nat -> 0 <= v < 256 ->
  leads (outb true (base + Z.of_nat reg) v) c (fun _ c' => at_phase c' Idle (write_task reg v t) f 0).
Proof.
  intros (Eb & Ep & <- & <- & En) Hr Hv. destruct (idle_write (hw c) reg v Ep Hr Hv) as (Ep' & Et' & Ef').
  destruct (idle_step _ c _ _ Eb En Ep' Et' Ef') as [Ha Ee].
  eexists _, _. split; [reflexivity|]. rewrite Ee in Ha |- *. done.
Qed.

Lemma sleep_idle c t f : at_phase c Idle t f 0 -> leads (timer_sleep true) c (fun _ c' => at_phase c' Idle t f 0).
Proof.
  intros (Eb & Ep & <- & <- & En). destruct (idle_sleep (hw c) Ep) as (Ep' & Et' & Ef').
  destruct (idle_step _ c _ _ Eb En Ep' Et' Ef') as [Ha Ee].
  eexists _, _. split; [reflexivity|]. rewrite Ee in Ha |- *. done.
Qed.

Lemma alt_idle c t f : at_phase c Idle t f 0 -> leads (inb true (reg_alt_status base)) c (fun _ c' => at_phase c' Idle t f 0).
Proof.
  intros (Eb & Ep & <- & <- & En). destruct (idle_alt (hw c) Ep) as (v & d' & E & Ep' & Et' & Ef').
  destruct (idle_step _ c _ _ Eb En Ep' Et' Ef') as [Ha Ee].
  exists v, (set_hw d' c). unfold inb. rewrite E, Ee in *. done.
Qed.

Lemma status_idle c t f : at_phase c Idle t f 0 ->
  leads (inb true (reg_status base)) c (fun v c' => Z.land v (Z.lor STA_BSY STA_DRQ) = 0 /\ at_phase c' Idle t f 0).
Proof.
  intros (Eb & Ep & <- & <- & En). destruct (idle_status (hw c) Ep) as (v & d' & E & Hv & Ep' & Et' & Ef').
  destruct (idle_step _ c _ _ Eb En Ep' Et' Ef') as [Ha Ee].
  exists v, (set_hw d' c). unfold inb. rewrite E, Ee in *. done.
Qed.

Lemma wait_until_idle_run c t f : at_phase c Idle t f 0 -> leads (wait_until_idle true) c (fun _ c' => at_phase c' Idle t f 0).
Proof.
  intros Ha. unfold wait_until_idle. change 1000%nat with (S 999). cbn [idle_loop].
  apply leads_base; [apply Ha|]. eapply leads_bind; [by apply status_idle|]. intros v c' [Hv Ha'].
  cbv beta. rewrite Hv. by apply leads_ret.
Qed.

Lemma select_device_run dev c t f : at_phase c Idle t f 0 ->
  leads (select_device true dev) c (fun _ c' => exists t', at_phase c' Idle t' f 0).
Proof.
  intros Ha. apply leads_base; [apply Ha|].
  eapply leads_bind; [apply (outb_idle c t f 6 _ Ha); [lia|by case_decide]|]. intros ? c1 H1.
  eapply leads_bind; [exact (alt_idle _ _ _ H1)|]. intros ? c2 H2.
  eapply leads_mono; [exact (sleep_idle _ _ _ H2)|]. intros ? c3 H3. eexists. exact H3.
Qed.

Lemma select_sector_run dev sec c t f :
  at_phase c Idle t f 0 -> 0 <= sec < 2 ^ 28 ->
  leads (select_sector true dev sec) c (fun _ c' => at_phase c' Idle
    (Task 1 (u8 sec) (u8 (Z.shiftr sec 8)) (u8 (Z.shiftr sec 16)) (device_byte dev sec)) f 0).
Proof.
  intros Ha Hs. apply leads_assert; [apply Z.ltb_lt; lia|].
  apply (leads_bind _ _ _ (fun _ c' => exists t', at_phase c' Idle t' f 0)).
  { eapply leads_bind; [exact (wait_until_idle_run _ _ _ Ha)|]. intros ? c1 H1.
    eapply leads_bind; [exact (select_device_run dev _ _ _ H1)|]. intros ? c2 (t2 & H2).
    eapply leads_mono; [exact (wait_until_idle_run _ _ _ H2)|]. intros ? c3 H3. eexists. exact H3. }
  intros ? c1 (t1 & H1). apply leads_base; [apply H1|].
  assert (forall x, 0 <= u8 x < 256) as Hu by (intros; change 256 with (2 ^ 8); auto with words).
  eapply leads_bind; [apply (outb_idle _ _ _ 2 1 H1); lia|]. intros ? c2 H2.
  eapply leads_bind; [apply (outb_idle _ _ _ 3 _ H2); [lia|apply Hu]|]. intros ? c3 H3.
  eapply leads_bind; [apply (outb_idle _ _ _ 4 _ H3); [lia|apply Hu]|]. intros ? c4 H4.
  eapply leads_bind; [apply (outb_idle _ _ _ 5 _ H4); [lia|apply Hu]|]. intros ? c5 H5.
  apply (outb_idle _ _ _ 6 _ H5); [lia|apply Hu].
Qed.

(** *** The transfer of a sector *)

Lemma deliver_taken (c : chan) : raised (phase_of (hw c)) ->
  deliver true c = acknowledge c.
Proof. intros Hp. unfold deliver. by rewrite (pending_raised _ Hp). Qed.

Lemma acknowledge_run (c : chan) : expecting_interrupt c = true -> reg_base c = base ->
  acknowledge c = set_completion (completion_wait c + 1) (set_hw (snd (ata_in (reg_status base) (hw c))) c).
Proof. intros Ee Eb. unfold acknowledge. by rewrite Ee, Eb. Qed.

(** The command is accepted; its interrupt may already have been taken. *)
Lemma issue_read_run c t f : at_phase c Idle t f 0 -> one_sector t ->
  leads (issue_pio_command true CMD_READ_SECTOR_RETRY) c (fun _ c' => expecting_interrupt c' = true /\
    (at_phase c' Reading t f 0 \/ at_phase c' DataIn t f 1)).
Proof.
  intros (Eb & Ep & <- & <- & En) Ho. apply leads_assert; [done|].
  destruct (read_command (hw c) Ep Ho) as (Hp & Et & Ef). eexists _, _. split.
  { erewrite bind_eq; [|reflexivity]. erewrite bind_eq; [|reflexivity]. cbn [reg_base set_expecting]. rewrite Eb. reflexivity. }
  cbn [hw set_expecting]. set (c1 := set_hw _ _). destruct Hp as [Hp|Hp].
  - rewrite deliver_quiet by (unfold c1; cbn; by rewrite Hp). do 2 (split; [done|]). split; [done|]. left. done.
  - rewrite deliver_taken by (left; exact Hp). rewrite acknowledge_run by done.
    destruct (read_ack _ Hp) as (Hp2 & Et2 & Ef2). do 2 (split; [done|]). split; [done|]. right.
    split_and!; [exact Eb|exact Hp2|exact (eq_trans Et2 Et)|exact (eq_trans Ef2 Ef)|]. cbn. by rewrite En.
Qed.

Lemma read_sema_run c t f : expecting_interrupt c = true -> at_phase c Reading t f 0 \/ at_phase c DataIn t f 1 ->
  leads sema_down c (fun _ c' => at_phase c' DataIn t f 0).
Proof.
  intros Ee [(Eb & Ep & <- & <- & En)|(Eb & Ep & <- & <- & En)]; unfold leads, sema_down; rewrite En; cbn [Z.ltb Z.compare].
  - destruct (read_wait _ Ep) as (d' & -> & Ep' & Et' & Ef'). rewrite acknowledge_run by done.
    destruct (read_ack _ Ep') as (Hp2 & Et2 & Ef2). cbn [completion_wait set_completion set_hw]. rewrite En.
    eexists _, _. split; [reflexivity|]. split; [done|]. split; [done|].
    split_and!; [exact Eb|exact Hp2|exact (eq_trans Et2 Et')|exact (eq_trans Ef2 Ef')|done].
  - eexists _, _. split; [reflexivity|]. done.
Qed.

Lemma data_ready_run k c p t f n : p = DataIn \/ p = DataOut -> at_phase c p t f n ->
  leads (busy_loop true (S k)) c (fun ok c' => ok = true /\ at_phase c' p t f n).
Proof.
  assert (forall c, p = DataIn \/ p = DataOut -> at_phase c p t f n ->
    leads (inb true (reg_alt_status base)) c (fun v c' => Z.land v STA_BSY = 0 /\ Z.land v STA_DRQ <> 0 /\ at_phase c' p t f n)) as Hin.
  { intros c0 Hp (Eb & <- & <- & <- & En). destruct (data_alt _ Hp) as (v & d' & E & Hb & Hd & Ep & Et & Ef).
    exists v, (set_hw d' c0). unfold inb. rewrite E. rewrite deliver_quiet; [done|]. cbn. rewrite Ep. by destruct Hp as [-> | ->]. }
  intros Hp Ha. cbn [busy_loop]. apply leads_base; [apply Ha|].
  eapply leads_bind; [exact (Hin _ Hp Ha)|]. intros v c1 (Hb & _ & H1). rewrite Hb. cbn [Z.eqb].
  eapply leads_bind; [exact (Hin _ Hp H1)|]. intros v2 c2 (_ & Hd & H2). apply leads_ret. split; [|done].
  apply Z.eqb_neq in Hd. by rewrite Hd.
Qed.

Lemma preparing_run n : forall k c t f, (n < k)%nat -> at_phase c (Preparing n) t f 0 ->
  leads (busy_loop true (S k)) c (fun ok c' => ok = true /\ at_phase c' DataOut t f 0).
Proof.
  induction n as [n IH] using lt_wf_ind. intros k c t f Hk (Eb & Ep & <- & <- & En).
  remember (busy_loop true k) as rest eqn:Er. cbn [busy_loop]. rewrite <- Er. apply leads_base; [exact Eb|].
  destruct (prepare_alt _ _ Ep) as (v & d1 & E1 & Hb & Ep1 & Et1 & Ef1).
  assert (deliver true (set_hw d1 c) = set_hw d1 c) as Ed1 by (apply deliver_quiet; cbn; by rewrite Ep1).
  destruct (prepare_sleep _ _ Ep1) as (Hp2 & Et2 & Ef2).
  set (c2 := set_hw (ata_sleep d1) (set_hw d1 c)).
  assert (deliver true c2 = c2) as Ed2.
  { apply deliver_quiet. cbn. destruct Hp2 as [-> |(m & _ & ->)]; done. }
  assert (leads rest c2 (fun ok c' => ok = true /\ at_phase c' DataOut (task (hw c)) (contents (hw c)) 0)) as (a & c3 & E3 & R3).
  { subst rest. destruct k as [|k]; [lia|]. destruct Hp2 as [Hp2|(m & Hm & Hp2)].
    - apply data_ready_run; [by right|]. split_and!; [exact Eb|exact Hp2|exact (eq_trans Et2 Et1)|exact (eq_trans Ef2 Ef1)|exact En].
    - apply (IH m); [done|lia|]. split_and!; [exact Eb|exact Hp2|exact (eq_trans Et2 Et1)|exact (eq_trans Ef2 Ef1)|exact En]. }
  exists a, c3. split; [|exact R3].
  erewrite bind_eq; [|unfold inb; rewrite E1, Ed1; reflexivity]. rewrite (proj2 (Z.eqb_neq _ _) Hb).
  erewrite bind_eq; [|unfold timer_sleep; cbn [hw set_hw]; fold c2; rewrite Ed2; reflexivity]. exact E3.
Qed.

Lemma issue_write_run c t f : at_phase c Idle t f 0 -> one_sector t ->
  leads (issue_pio_command true CMD_WRITE_SECTOR_RETRY) c (fun _ c' => expecting_interrupt c' = true /\
    (at_phase c' DataOut t f 0 \/ exists n, (n < 2999)%nat /\ at_phase c' (Preparing n) t f 0)).
Proof.
  intros (Eb & Ep & <- & <- & En) Ho. apply leads_assert; [done|].
  destruct (write_command (hw c) Ep Ho) as (Hp & Et & Ef). eexists _, _. split.
  { erewrite bind_eq; [|reflexivity]. erewrite bind_eq; [|reflexivity]. cbn [reg_base set_expecting]. rewrite Eb. reflexivity. }
  cbn [hw set_expecting]. set (c1 := set_hw _ _).
  rewrite deliver_quiet by (unfold c1; cbn; by destruct Hp as [-> |(n & _ & ->)]).
  do 2 (split; [done|]). split; [done|]. destruct Hp as [Hp|(n & Hn & Hp)]; [by left|right; by exists n].
Qed.

Lemma wait_data_run c t f : at_phase c DataOut t f 0 \/ (exists n, (n < 2999)%nat /\ at_phase c (Preparing n) t f 0) ->
  leads (wait_while_busy true) c (fun ok c' => ok = true /\ at_phase c' DataOut t f 0).
Proof.
  unfold wait_while_busy. change 3000%nat with (S 2999). intros [Ha|(n & Hn & Ha)].
  - apply data_ready_run; [by right|done].
  - by apply (preparing_run n).
Qed.

(** The data are sent; the interrupt may already have been taken. *)
Lemma output_run c t f data : expecting_interrupt c = true -> at_phase c DataOut t f 0 -> length data = 512%nat ->
  exists c', bind (output_sector true data) (fun _ => sema_down) c = Ok (tt, c') /\ same c c' /\
    exists t', at_phase c' Idle t' (store f (selected t) (sector_of t) data) 0.
Proof.
  intros Ee (Eb & Ep & <- & <- & En) Hl. destruct (data_out _ data Ep Hl) as (Hp & Ef).
  erewrite bind_eq; [|reflexivity]. rewrite Eb. set (c1 := set_hw _ c). destruct Hp as [Hp|Hp].
  - rewrite deliver_quiet by (unfold c1; cbn; by rewrite Hp). unfold sema_down. cbn [completion_wait c1 set_hw]. rewrite En. cbn [Z.ltb Z.compare].
    destruct (write_wait (hw c1) Hp) as (d' & -> & Ep' & Ef'). rewrite acknowledge_run by done.
    destruct (write_ack _ Ep') as (Hp2 & Ef2). cbn [completion_wait set_completion set_hw c1]. rewrite En.
    eexists. split; [reflexivity|]. split; [done|]. eexists.
    split_and!; [exact Eb|exact Hp2|reflexivity|exact (eq_trans Ef2 (eq_trans Ef' Ef))|done].
  - rewrite deliver_taken by (right; exact Hp). rewrite acknowledge_run by done. destruct (write_ack _ Hp) as (Hp2 & Ef2).
    unfold sema_down. cbn [completion_wait set_completion set_hw c1]. rewrite En.
    eexists. split; [reflexivity|]. split; [done|]. eexists.
    split_and!; [exact Eb|exact Hp2|reflexivity|exact (eq_trans Ef2 Ef)|done].
Qed.

(** *** Addressing *)

Lemma device_byte_bits dev sec i : (dev < 2)%nat -> 0 <= sec < 2 ^ 28 -> 0 <= i < 8 ->
  Z.testbit (device_byte dev sec) i =
  if i <? 4 then Z.testbit sec (i + 24) else if i =? 4 then bool_decide (dev = 1%nat) else true.
Proof.
  intros Hd Hs Hi. unfold device_byte. rewrite testbit_wrapu, !Z.lor_spec, Z.shiftr_spec by lia.
  rewrite (proj2 (Z.ltb_lt i 8)) by lia. cbn [andb].
  destruct (Z.ltb_spec i 4).
  - assert (i = 0 \/ i = 1 \/ i = 2 \/ i = 3) as [-> |[-> |[-> | ->]]] by lia; by case_decide.
  - rewrite (testbit_high 28 sec (i + 24)) by lia.
    assert (i = 4 \/ i = 5 \/ i = 6 \/ i = 7) as [-> |[-> |[-> | ->]]] by lia;
      assert (dev = 0%nat \/ dev = 1%nat) as [-> | ->] by lia; reflexivity.
Qed.

Lemma device_byte_lba dev sec s : (dev < 2)%nat -> 0 <= sec < 2 ^ 28 ->
  exists r, Block.select_sector sec s = Ok (r, s) /\
    Block.lba r = sec /\ Block.lba (u8 sec, u8 (Z.shiftr sec 8), u8 (Z.shiftr sec 16), device_byte dev sec) = sec.
Proof.
  intros Hd Hs. destruct (Block.lba_select sec s Hs) as (r & Er & Hr). exists r. split_and!; [done..|].
  unfold Block.select_sector in Er. rewrite (bind_eq _ _ _ _ _ (assert_true _ s (proj2 (Z.ltb_lt _ _) (proj2 Hs)))) in Er.
  injection Er as <-. rewrite <- Hr at 5. unfold Block.lba.
  replace (Z.land (device_byte dev sec) 15) with (Z.land (u8 (Z.shiftr sec 24)) 15); [done|].
  apply Z.bits_inj'. intros i Hi. rewrite !Z.land_spec. destruct (Z.ltb_spec i 4).
  - rewrite device_byte_bits, testbit_wrapu, Z.shiftr_spec, (proj2 (Z.ltb_lt i 4)), (proj2 (Z.ltb_lt i 8)) by lia. done.
  - rewrite (testbit_high 4 15 i), !andb_false_r by lia. done.
Qed.

(** ** The contract of the block layer *)

(** The disks of the block layer are those behind the channel: disk [first + n] is device [n]. *)
Definition agrees (first : Z) (c : chan) (s : Block.state) : Prop :=
  forall (n : nat) sec, (n < 2)%nat -> 0 <= sec < 2 ^ 28 -> Block.disks s (first + Z.of_nat n) sec = contents (hw c) n sec.
Definition ready (c : chan) : Prop := exists t f, at_phase c Idle t f 0.

Lemma task_of dev sec : (dev < 2)%nat -> 0 <= sec < 2 ^ 28 ->
  let t := Task 1 (u8 sec) (u8 (Z.shiftr sec 8)) (u8 (Z.shiftr sec 16)) (device_byte dev sec) in
  one_sector t /\ selected t = dev /\ sector_of t = sec.
Proof.
  intros Hd Hs. destruct (device_byte_lba dev sec {| Block.all_blocks := []; Block.block_by_role := fun _ => None; Block.disks := fun _ _ => []; Block.held := 0 |} Hd Hs)
    as (r & _ & _ & El).
  split; [|split; [|exact El]].
  - split; [done|]. cbn [device]. by rewrite device_byte_bits by lia.
  - unfold selected. cbn [device]. rewrite device_byte_bits by lia. cbn. case_bool_decide; lia.
Qed.

Lemma ide_read_run dev sec c t f : (dev < 2)%nat -> 0 <= sec < 2 ^ 28 -> at_phase c Idle t f 0 ->
  leads (ide_read true dev sec) c (fun data c' => data = f dev sec /\ exists t', at_phase c' Idle t' f 0).
Proof.
  intros Hd Hs Ha. destruct (task_of dev sec Hd Hs) as (Ho & Es & El). set (t1 := Task _ _ _ _ _) in *.
  eapply leads_bind; [exact (select_sector_run dev sec _ _ _ Ha Hs)|]. intros ? c1 H1.
  eapply leads_bind; [exact (issue_read_run _ _ _ H1 Ho)|]. intros ? c2 [Ee H2].
  eapply leads_bind; [exact (read_sema_run _ _ _ Ee H2)|]. intros ? c3 H3.
  eapply leads_bind; [exact (data_ready_run 2999 _ _ _ _ _ (or_introl eq_refl) H3)|]. intros ? c4 [-> (Eb & Ep & Et & Ef & En)]. cbn [negb].
  destruct (data_in _ Ep) as (d' & E & Ep' & Ef').
  change (task (hw c4) = t1) in Et. rewrite Et, Ef, Es, El in E. exists (f dev sec), (set_hw d' c4). unfold input_sector. rewrite Eb, E.
  rewrite deliver_quiet by (cbn; by rewrite Ep'). split; [done|]. split; [done|]. split; [done|]. split; [done|].
  exists (task d'). split_and!; [exact Eb|exact Ep'|done|by cbn; rewrite Ef'|exact En].
Qed.

Lemma ide_write_run dev sec data c t f : (dev < 2)%nat -> 0 <= sec < 2 ^ 28 -> length data = 512%nat ->
  at_phase c Idle t f 0 ->
  exists c', ide_write true dev sec data c = Ok (tt, c') /\ exists t', at_phase c' Idle t' (store f dev sec data) 0.
Proof.
  intros Hd Hs Hl Ha. destruct (task_of dev sec Hd Hs) as (Ho & Es & El). set (t1 := Task _ _ _ _ _) in *.
  destruct (select_sector_run dev sec _ _ _ Ha Hs) as (? & c1 & E1 & _ & _ & H1). fold t1 in H1.
  destruct (issue_write_run _ _ _ H1 Ho) as (? & c2 & E2 & _ & _ & Ee & H2).
  destruct (wait_data_run _ _ _ H2) as (ok & c3 & E3 & _ & X3 & -> & H3).
  destruct (output_run _ _ _ data (X3 Ee) H3 Hl) as (c4 & E4 & _ & H4). rewrite Es, El in H4.
  exists c4. split; [|exact H4]. unfold ide_write. rewrite (bind_eq _ _ _ _ _ E1), (bind_eq _ _ _ _ _ E2), (bind_eq _ _ _ _ _ E3). exact E4.
Qed.

(** C12: The disk driver implements the sector transfers on which the block layer is built.
    For hardware that follows the ATA protocol, whose interrupt may arrive after any
    instruction, and that asks for data within 30 seconds, a read returns what the block
    layer's disk holds, a write stores the sector and changes no other on either disk
    of the channel, both return, and they leave the channel ready for the next transfer, with
    no completion left over; a sector number of 2^28 or more fails the assertion in both. *)
Theorem ide_refines_block first c s (dev : nat) sec :
  ready c -> agrees first c s -> (dev < 2)%nat -> 0 <= sec ->
  if sec <? 2 ^ 28 then
    (exists data c', ide_read true dev sec c = Ok (data, c') /\
       Block.ide_read (first + Z.of_nat dev) sec s = Ok (data, s) /\ ready c' /\ agrees first c' s) /\
    (forall data, length data = 512%nat -> exists c' s', ide_write true dev sec data c = Ok (tt, c') /\
       Block.ide_write (first + Z.of_nat dev) sec data s = Ok (tt, s') /\ ready c' /\ agrees first c' s')
  else ide_read true dev sec c = Err AssertFail /\ Block.ide_read (first + Z.of_nat dev) sec s = Err AssertFail /\
       forall data, ide_write true dev sec data c = Err AssertFail /\
         Block.ide_write (first + Z.of_nat dev) sec data s = Err AssertFail.
Proof.
  intros (t & f & Ha) Hg Hd H0. destruct (Z.ltb_spec sec (2 ^ 28)) as [H1|H1].
  - assert (0 <= sec < 2 ^ 28) as Hs by lia. pose proof Ha as (_ & _ & _ & Ef & _).
    destruct (device_byte_lba dev sec s Hd Hs) as (r & Er & El & _). split.
    + destruct (ide_read_run dev sec c t f Hd Hs Ha) as (data & c' & E & _ & _ & -> & t' & H').
      exists (f dev sec), c'. split; [exact E|]. split.
      { unfold Block.ide_read. rewrite (bind_eq _ _ _ _ _ Er), El. unfold gets. by rewrite (Hg dev sec Hd Hs), Ef. }
      split; [by exists t', f|]. destruct H' as (_ & _ & _ & Ef' & _). intros n sec' Hn Hs'. by rewrite Ef', (Hg n sec' Hn Hs'), Ef.
    + intros data Hl. destruct (ide_write_run dev sec data c t f Hd Hs Hl Ha) as (c' & E & t' & H').
      eexists c', _. split; [exact E|]. split.
      { unfold Block.ide_write. rewrite (bind_eq _ _ _ _ _ Er), El. reflexivity. }
      split; [by eexists _, _|]. destruct H' as (_ & _ & _ & Ef' & _). intros n sec' Hn Hs'. rewrite Ef'. unfold store. cbn [Block.disks].
      rewrite (Hg n sec' Hn Hs'), Ef. case_bool_decide as Hc; destruct (Z.eqb_spec (first + Z.of_nat n) (first + Z.of_nat dev)),
        (Z.eqb_spec sec' sec); cbn [andb]; try done; exfalso; try apply Hc; lia.
  - assert (sec <? 2 ^ 28 = false) as E by (apply Z.ltb_ge; lia).
    unfold ide_read, ide_write, select_sector, Block.ide_read, Block.ide_write, Block.select_sector. by rewrite E.
Qed.

(** With interrupts disabled no command is issued. *)
Lemma issue_disabled command c : issue_pio_command false command c = Err AssertFail.
Proof. done. Qed.
End proofs.

(** The interrupt of a channel wakes the thread that waits on that channel; an interrupt that is
    not expected changes nothing. *)
Lemma handler_dispatch {D} `{AtaOps D} (c0 c1 : channel D) :
  irq c0 = 46 -> irq c1 = 47 ->
  interrupt_handler 46 [c0; c1] = Ok [acknowledge c0; c1] /\
  interrupt_handler 47 [c0; c1] = Ok [c0; acknowledge c1] /\
  (expecting_interrupt c0 = false -> acknowledge c0 = c0).
Proof. intros E0 E1. cbn. rewrite E0, E1. split_and!; [done..|]. unfold acknowledge. by intros ->. Qed.

(** ** The strings of the identification *)

Lemma swap_pairs_involutive s : swap_pairs (swap_pairs s) = s.
Proof.
  induction s as [s IH] using (induction_ltof1 _ (@length Z)). unfold ltof in IH.
  destruct s as [|a [|b s]]; [done..|]. cbn [swap_pairs]. rewrite IH; [done|cbn; lia].
Qed.

Lemma trim_padding (xs : list Z) x k j :
  x <> 0 -> CStdlib.isspace x = false -> (j <= k)%nat ->
  trim_loop (xs ++ x :: replicate k 32) (length xs + 1 + j) = (length xs + 1)%nat.
Proof.
  intros Hx Hs Hj. induction j as [|j IH].
  - replace (length xs + 1 + 0)%nat with (S (length xs)) by lia. cbn [trim_loop].
    rewrite app_nth2, Nat.sub_diag by lia. cbn [nth]. apply Z.eqb_neq in Hx. rewrite Hx, Hs. cbn. lia.
  - replace (length xs + 1 + S j)%nat with (S (length xs + 1 + j)) by lia. cbn [trim_loop].
    rewrite app_nth2 by lia. replace (length xs + 1 + j - length xs)%nat with (S j) by lia. cbn [nth].
    rewrite nth_lookup, lookup_replicate_2 by lia. cbn. apply IH. lia.
Qed.

(** A text that ends in neither white space nor null, stored with its bytes swapped in pairs
    and padded with blanks, is read back as that text with a terminator. *)
Lemma descramble_roundtrip xs x k :
  x <> 0 -> CStdlib.isspace x = false -> (0 < k)%nat ->
  descramble_ata_string (swap_pairs (xs ++ x :: replicate k 32)) = xs ++ x :: 0 :: replicate (k - 1) 32.
Proof.
  intros Hx Hs Hk. unfold descramble_ata_string. rewrite swap_pairs_involutive, length_app. cbn [length]. rewrite length_replicate.
  replace (length xs + S k - 1)%nat with (length xs + 1 + (k - 1))%nat by lia. rewrite trim_padding by (done || lia).
  rewrite insert_app_r. cbn. destruct k as [|k]; [lia|]. cbn. by rewrite Nat.sub_0_r.
Qed.
(** A text that fills its field loses its last character to the terminator. *)
Example descramble_full : descramble_ata_string [66; 65; 68; 67] = [65; 66; 67; 0].
Proof. reflexivity. Qed.

(** ** A disk that follows the protocol *)

Record disk : Type := Disk { dphase : phase; dtask : task_file; dident : bool; dsectors : nat -> Z -> list Z }.
Definition to_phase (p : phase) (d : disk) : disk := Disk p (dtask d) (dident d) (dsectors d).
Definition status_byte (p : phase) : Z :=
  match p with Idle | DoneIrq => 64 | DataIn | DataInIrq | DataOut => 88 | _ => 128 end.
Definition ident_sector (cap : Z) : list Z := Bytes.zeros 120 ++ Bytes.le_encode 4 cap ++ Bytes.zeros 388.

#[local] Instance disk_ops : AtaOps disk := {|
  ata_in port d :=
    if port =? 503 then (status_byte (dphase d),
      match dphase d with DataInIrq => to_phase DataIn d | DoneIrq => to_phase Idle d | _ => d end)
    else if port =? 1014 then (status_byte (dphase d), d)
    else if port =? 497 then (1, d)
    else if port =? 498 then (nsect (dtask d), d)
    else if port =? 499 then (lbal (dtask d), d)
    else if port =? 500 then (lbam (dtask d), d)
    else if port =? 501 then (lbah (dtask d), d) else (255, d);
  ata_out port v d :=
    if port =? 503 then
      (if v =? 32 then Disk Reading (dtask d) false (dsectors d)
       else if v =? 48 then to_phase (Preparing 1) d
       else if v =? 236 then Disk Reading (dtask d) true (dsectors d) else d)
    else if port =? 1014 then (if v =? 4 then Disk Idle (Task 1 1 0 0 0) false (dsectors d) else d)
    else Disk (dphase d) (write_task (Z.to_nat (port - 496)) v (dtask d)) (dident d) (dsectors d);
  ata_insw _ d := ((if dident d then ident_sector 20000 else dsectors d (selected (dtask d)) (sector_of (dtask d))),
                   Disk Idle (dtask d) false (dsectors d));
  ata_outsw _ data d := Disk DoneIrq (dtask d) (dident d)
                          (store (dsectors d) (selected (dtask d)) (sector_of (dtask d)) data);
  ata_sleep d := match dphase d with Preparing (S n) => to_phase (Preparing n) d | Preparing O => to_phase DataOut d | _ => d end;
  ata_pending d := match dphase d with DataInIrq | DoneIrq => true | _ => false end;
  ata_wait d := match dphase d with Reading => Some (to_phase DataInIrq d) | Writing => Some (to_phase DoneIrq d) | _ => None end |}.

(** A disk that is asked for its identity is not in the middle of a transfer. *)
Definition disk_phase (d : disk) : phase := if dident d then Other else dphase d.

Lemma disk_phase_is d p : disk_phase d = p -> p <> Other -> exists t f, d = Disk p t false f.
Proof. destruct d as [q t [] f]; cbn; intros <- Hp; [done|]. by eexists _, _. Qed.

#[local] Instance disk_laws : AtaLaws disk 496.
Proof.
  unshelve refine {| phase_of := disk_phase; task := dtask; contents := dsectors |}.
  - intros d [E|E]; by destruct (disk_phase_is _ _ E) as (t & f & ->).
  - intros [p t [] f] Hq; [done|]. by destruct p.
  - intros d E. destruct (disk_phase_is _ _ E) as (t & f & ->); [done|]. by eexists _, _.
  - intros d E. destruct (disk_phase_is _ _ E) as (t & f & ->); [done|]. by eexists _, _.
  - intros d E. by destruct (disk_phase_is _ _ E) as (t & f & ->).
  - intros d reg v E Hr _. destruct (disk_phase_is _ _ E) as (t & f & ->); [done|].
    assert (reg = 2 \/ reg = 3 \/ reg = 4 \/ reg = 5 \/ reg = 6)%nat as [-> |[-> |[-> |[-> | ->]]]] by lia; done.
  - intros d E _. destruct (disk_phase_is _ _ E) as (t & f & ->); [done|]. split; [by left|done].
  - intros d E. destruct (disk_phase_is _ _ E) as (t & f & ->); [done|]. by eexists.
  - intros d E. by destruct (disk_phase_is _ _ E) as (t & f & ->).
  - intros d [E|E]; destruct (disk_phase_is _ _ E) as (t & f & ->); try done; by eexists _, _.
  - intros d E. destruct (disk_phase_is _ _ E) as (t & f & ->); [done|]. by eexists.
  - intros d E _. destruct (disk_phase_is _ _ E) as (t & f & ->); [done|]. split; [right; exists 1%nat; split; [lia|done]|done].
  - intros d n E. destruct (disk_phase_is _ _ E) as (t & f & ->); [done|]. by eexists _, _.
  - intros d n E. destruct (disk_phase_is _ _ E) as (t & f & ->); [done|]. destruct n as [|n]; [by split; [left|]|].
    split; [right; exists n; split; [lia|done]|done].
  - intros d data E _. destruct (disk_phase_is _ _ E) as (t & f & ->); [done|]. split; [by right|done].
  - intros d E. destruct (disk_phase_is _ _ E) as (t & f & ->); [done|]. by eexists.
  - intros d E. by destruct (disk_phase_is _ _ E) as (t & f & ->).
Defined.

Definition demo_disk : disk := Disk Idle (Task 0 0 0 0 0) false (fun n sec => replicate 512 (Z.of_nat n + sec)).
Definition demo_channel : channel disk := start_channel 0 demo_disk.

(** The driver finds both disks of a channel and leaves it ready. *)
Example finds_disks :
  match ide_init_channel true (fun _ _ => ret tt) demo_channel with
  | Ok (_, c) => is_ata c = [true; true] /\ dphase (hw c) = Idle /\ completion_wait c = 0
  | Err _ => False
  end.
Proof. vm_compute. done. Qed.

Lemma ide_refines_block_witness : exists data c',
  ide_read true 1 7 demo_channel = Ok (data, c') /\ data = replicate 512 8.
Proof.
  pose (s := {| Block.all_blocks := []; Block.block_by_role := fun _ => None;
                Block.disks := fun d sec => replicate 512 (d + sec); Block.held := 0 |}).
  destruct (ide_refines_block 496 0 demo_channel s 1 7) as [(data & c' & E & Eb & _) _].
  - eexists _, _. by split_and!.
  - intros n sec _ _. reflexivity.
  - lia.
  - lia.
  - exists data, c'. split; [exact E|]. apply (f_equal (fun r => match r with Ok (d, _) => d | Err _ => [] end)) in Eb. by rewrite <- Eb.
Defined.
End IdeProps.
