(* ===== verification/Buffer.v ===== *)
(** * filesys/buffer.c: the buffer cache

    Sixty-four sectors of the file system device kept in memory in the order of
    their last use, written back when they are replaced.  The list
    [open_sectors], front (most recent) to back, is a Rocq list: [KListFacts]
    shows that [struct list] implements one.  An entry holds the contents of the
    [struct sector] it points to.  The mutual exclusion [list_revise_lock] gives is
    that each operation is one step.

    [view] is what the cache stands for: for every sector of the device its
    cached contents, or else its contents on the device. *)

From S2P Require Import Prelude Bytes Block.
Import Bytes Block.

Module Buffer.

Definition CACHE_SIZE : nat := 64.

Record sector_cache := {
  sector_id : Z; block_id : option nat; content : list Z; valid : bool; dirty : bool }.

Record state (D : Type) := {
  dev : D; open_sectors : list sector_cache; num_access : Z; num_hits : Z }.
Arguments dev {D} _.
Arguments open_sectors {D} _.
Arguments num_access {D} _.
Arguments num_hits {D} _.
Arguments Build_state {D} _ _ _ _.

Section buffer.
Context {D : Type} `{SectorDevice D}.
Notation state := (state D).

(** ** Operations *)

Definition on_dev {A} (m : M D A) : M state A := fun s =>
  match m (dev s) with
  | Ok (a, d) => Ok (a, Build_state d (open_sectors s) (num_access s) (num_hits s))
  | Err f => Err f
  end.
Definition set_sectors (es : list sector_cache) : M state unit :=
  modify (fun s => Build_state (dev s) es (num_access s) (num_hits s)).
Definition count_access : M state unit :=
  modify (fun s => Build_state (dev s) (open_sectors s) (s32 (num_access s + 1)) (num_hits s)).
Definition count_hit : M state unit :=
  modify (fun s => Build_state (dev s) (open_sectors s) (num_access s) (s32 (num_hits s + 1))).

(** The bytes [offset, offset + size) of a sector, and copying over them. *)
Definition copy_out (bytes : list Z) (offset size : Z) : M state (list Z) :=
  if (0 <=? offset) && (0 <=? size) && (offset + size <=? 512)
  then ret (sub_bytes offset size bytes) else fail WildAccess.
Definition copy_in (bytes : list Z) (offset : Z) (data : list Z) : M state (list Z) :=
  if (0 <=? offset) && (offset + Z.of_nat (length data) <=? 512)
  then ret (splice offset data bytes) else fail WildAccess.

Definition is_entry (block : nat) (sector : Z) (c : sector_cache) : bool :=
  (sector_id c =? sector) && bool_decide (block_id c = Some block).

(** The search loop: the position where it stops, and whether that is a match;
    it gives up at the first invalid entry. *)
Fixpoint search (block : nat) (sector : Z) (es : list sector_cache) : nat * bool :=
  match es with
  | [] => (0%nat, false)
  | c :: es =>
      if valid c then
        if is_entry block sector c then (0%nat, true)
        else let '(i, hit) := search block sector es in (S i, hit)
      else (0%nat, false)
  end.

(** The entry to replace after a search that stopped at [i]: the last one if the
    search reached the end; it is taken off the list, and written back if dirty. *)
Definition evict (i : nat) : M state (sector_cache * list sector_cache) :=
  let! es := gets open_sectors in
  let v := if (i =? length es)%nat then (length es - 1)%nat else i in
  match es !! v with
  | None => fail AssertFail
  | Some c =>
      do! (if dirty c && valid c then
             match block_id c with
             | Some b => on_dev (sd_write b (sector_id c) (content c))
             | None => fail WildAccess
             end
           else ret tt);
      ret (c, delete v es)
  end.

Definition buffer_read (block : nat) (sector offset size : Z) : M state (list Z) :=
  do! count_access;
  let! es := gets open_sectors in
  let '(i, hit) := search block sector es in
  if hit then
    match es !! i with
    | None => fail WildAccess
    | Some c =>
        let! buffer := copy_out (content c) offset size in
        do! set_sectors (c :: delete i es);
        do! count_hit;
        ret buffer
    end
  else
    let! (c, rest) := evict i in
    let! data := on_dev (sd_read block sector) in
    let! buffer := copy_out data offset size in
    do! set_sectors ({| sector_id := sector; block_id := Some block; content := data;
                        valid := true; dirty := false |} :: rest);
    ret buffer.

Definition buffer_write (block : nat) (sector : Z) (buffer : list Z) (offset : Z) : M state unit :=
  do! count_access;
  let! es := gets open_sectors in
  let '(i, hit) := search block sector es in
  if hit then
    match es !! i with
    | None => fail WildAccess
    | Some c =>
        let! data := copy_in (content c) offset buffer in
        do! set_sectors ({| sector_id := sector_id c; block_id := block_id c; content := data;
                            valid := true; dirty := true |} :: delete i es);
        count_hit
    end
  else
    let! (c, rest) := evict i in
    let! data := copy_in (content c) offset buffer in
    set_sectors ({| sector_id := sector; block_id := Some block; content := data;
                    valid := true; dirty := true |} :: rest).

(** Write back the dirty entries of a list. *)
Fixpoint flush (es : list sector_cache) : M D (list sector_cache) :=
  match es with
  | [] => ret []
  | c :: es =>
      let! c' :=
        (if valid c && dirty c then
           match block_id c with
           | Some b =>
               do! sd_write b (sector_id c) (content c);
               ret {| sector_id := sector_id c; block_id := block_id c; content := content c;
                      valid := valid c; dirty := false |}
           | None => fail WildAccess
           end
         else ret c) in
      let! es' := flush es in
      ret (c' :: es')
  end.
Definition buffer_update_disk : M state unit :=
  let! es := gets open_sectors in
  let! es' := on_dev (flush es) in
  set_sectors es'.

Definition buffer_clean : M state unit :=
  do! buffer_update_disk;
  modify (fun s => Build_state (dev s)
    (map (fun c => {| sector_id := sector_id c; block_id := block_id c; content := content c;
                      valid := false; dirty := dirty c |}) (open_sectors s)) 0 0).

Definition buffer_performance : M state (Z * Z) :=
  let! r := gets (fun s => (num_access s, num_hits s)) in
  do! modify (fun s => Build_state (dev s) (open_sectors s) 0 0);
  ret r.

Fixpoint init_loop (n : nat) (es : list sector_cache) : list sector_cache :=
  match n with
  | O => es
  | S n => init_loop n ({| sector_id := 0; block_id := None; content := zeros 512;
                           valid := false; dirty := false |} :: es)
  end.
(** [data_ok] and [meta_ok]: whether the two allocations succeed. *)
Definition buffer_init (data_ok meta_ok : bool) : M state bool :=
  do! set_sectors [];
  if negb data_ok then ret false
  else if negb meta_ok then ret false
  else
    do! modify (fun s => Build_state (dev s) (init_loop CACHE_SIZE []) 0 0);
    ret true.
End buffer.

End Buffer.
