(* ===== verification/BufferFacts.v ===== *)
(** * filesys/buffer.c: the cache stands for the device

    The invariant of the cache, and what each operation does to the contents it
    stands for. *)

From S2P Require Import Prelude Bytes Block Buffer.
Import Bytes Block Buffer.

Module BufferFacts.

(** ** The contents a list of entries stands for *)

Definition caches (sec : Z) (c : sector_cache) : bool := valid c && (sector_id c =? sec).
Definition keys (es : list sector_cache) : list Z := map sector_id (filter (fun c => valid c = true) es).

(** Valid entries come before invalid ones. *)
Definition valid_first (es : list sector_cache) : Prop :=
  StronglySorted (fun a b => valid b = true -> valid a = true) es.

Lemma caches_spec sec c : caches sec c = true <-> valid c = true /\ sector_id c = sec.
Proof. unfold caches. rewrite andb_true_iff, Z.eqb_eq. done. Qed.

Lemma keys_perm es es' : es ≡ₚ es' -> keys es ≡ₚ keys es'.
Proof. intros E. unfold keys. by rewrite E. Qed.

Lemma keys_cons_valid c es : valid c = true -> keys (c :: es) = sector_id c :: keys es.
Proof. intros Hv. unfold keys. by rewrite filter_cons_True. Qed.
Lemma keys_cons_invalid c es : valid c = false -> keys (c :: es) = keys es.
Proof. intros Hv. unfold keys. rewrite filter_cons_False; [done|by rewrite Hv]. Qed.

Lemma elem_keys sec es : sec ∈ keys es <-> exists c, c ∈ es /\ valid c = true /\ sector_id c = sec.
Proof.
  unfold keys. rewrite list_elem_of_fmap. split.
  - intros (c & -> & [Hv Hc]%list_elem_of_filter). eauto.
  - intros (c & Hc & Hv & <-). exists c. split; [done|]. by apply list_elem_of_filter.
Qed.

Lemma valid_first_delete es i : valid_first es -> valid_first (delete i es).
Proof.
  intros Hs. revert i. induction Hs as [|c es Hs IH Hf]; intros [|i]; simpl; [constructor|constructor|done|].
  constructor; [by apply IH|by apply Forall_delete].
Qed.

Lemma valid_first_replicate n c : valid_first (replicate n c).
Proof.
  induction n as [|n IH]; [constructor|]. cbn [replicate]. constructor; [exact IH|].
  by apply Forall_replicate.
Qed.

Lemma valid_first_cons c es : valid c = true -> valid_first es -> valid_first (c :: es).
Proof. intros Hv Hs. constructor; [done|]. apply Forall_forall. done. Qed.

Section laws.
Context {D : Type} `{HL : SectorDeviceLaws D blk}.
Implicit Types (d : D) (es : list sector_cache) (c : sector_cache).

Definition view_of d es (sec : Z) : list Z :=
  match List.find (caches sec) es with Some c => content c | None => sd_at d sec end.

Definition entry_ok d c : Prop :=
  length (content c) = 512%nat /\ Forall is_byte (content c) /\
  (valid c = true -> block_id c = Some blk /\ 0 <= sector_id c < sd_size d /\
                     (dirty c = false -> content c = sd_at d (sector_id c))).

Record entries_inv d es : Prop := {
  ei_first : valid_first es;
  ei_keys : NoDup (keys es);
  ei_ok : Forall (entry_ok d) es }.

Lemma view_cons d c es sec :
  view_of d (c :: es) sec = if caches sec c then content c else view_of d es sec.
Proof. unfold view_of. simpl. by destruct (caches sec c). Qed.

Lemma view_out d es sec : sec ∉ keys es -> view_of d es sec = sd_at d sec.
Proof.
  intros Hk. unfold view_of. destruct (List.find (caches sec) es) as [c|] eqn:E; [|done].
  apply find_some in E as [Hc Hm%caches_spec]. exfalso. apply Hk, elem_keys. exists c.
  split; [by apply list_elem_of_In|done].
Qed.

Lemma view_in d es c : NoDup (keys es) -> c ∈ es -> valid c = true -> view_of d es (sector_id c) = content c.
Proof.
  intros Hnd Hc Hv. induction es as [|c' es IH]; [by apply not_elem_of_nil in Hc|].
  rewrite view_cons. apply elem_of_cons in Hc as [->|Hc].
  - by rewrite (proj2 (caches_spec _ _)).
  - destruct (valid c') eqn:Hv'.
    + rewrite keys_cons_valid in Hnd by done. apply NoDup_cons in Hnd as [Hn Hnd].
      destruct (caches (sector_id c) c') eqn:E; [|by apply IH].
      apply caches_spec in E as [_ E]. exfalso. apply Hn. rewrite E. apply elem_keys. eauto.
    + rewrite keys_cons_invalid in Hnd by done. unfold caches. rewrite Hv'. by apply IH.
Qed.

Lemma view_ext d d' es sec : (sec ∉ keys es -> sd_at d' sec = sd_at d sec) -> view_of d' es sec = view_of d es sec.
Proof.
  intros E. destruct (decide (sec ∈ keys es)) as [Hk|Hk].
  - apply elem_keys in Hk as (c & Hc & Hm). unfold view_of.
    destruct (List.find (caches sec) es) eqn:Ef; [done|]. exfalso.
    apply list_elem_of_In in Hc. apply (find_none _ _ Ef) in Hc.
    by rewrite (proj2 (caches_spec _ _)) in Hc.
  - by rewrite !view_out by done; apply E.
Qed.

Lemma view_perm d es es' sec : NoDup (keys es) -> es ≡ₚ es' -> view_of d es sec = view_of d es' sec.
Proof.
  intros Hnd Hp. assert (NoDup (keys es')) as Hnd' by (by rewrite <- (keys_perm _ _ Hp)).
  destruct (decide (sec ∈ keys es)) as [Hk|Hk].
  - apply elem_keys in Hk as (c & Hc & Hv & <-).
    rewrite !view_in; [done|done| |done|done|done|done]. by rewrite <- Hp.
  - rewrite !view_out; [done| |done]. by rewrite <- (keys_perm _ _ Hp).
Qed.

Lemma entry_ok_dev d d' c :
  sd_size d' = sd_size d -> (valid c = true -> sd_at d' (sector_id c) = sd_at d (sector_id c)) ->
  entry_ok d c -> entry_ok d' c.
Proof.
  intros Es Ea (Hl & Hb & Hv). split; [done|]. split; [done|]. intros Hc.
  destruct (Hv Hc) as (H1 & H2 & H3). rewrite Es, (Ea Hc). done.
Qed.

Lemma entries_ok_dev d d' es :
  sd_size d' = sd_size d -> (forall sec, sec ∈ keys es -> sd_at d' sec = sd_at d sec) ->
  Forall (entry_ok d) es -> Forall (entry_ok d') es.
Proof.
  intros Es Ea. rewrite !Forall_forall. intros Hf c Hc. apply (entry_ok_dev d); auto.
  intros Hv. apply Ea, elem_keys. eauto.
Qed.

(** ** The search *)

Lemma search_hit es sec i :
  search blk sec es = (i, true) ->
  exists c, es !! i = Some c /\ valid c = true /\ sector_id c = sec /\ block_id c = Some blk.
Proof.
  revert i. induction es as [|c es IH]; intros i; simpl; [done|].
  destruct (valid c) eqn:Hv; [|done]. destruct (is_entry blk sec c) eqn:He.
  - intros [= <-]. unfold is_entry in He. apply andb_true_iff in He as [E1%Z.eqb_eq E2%bool_decide_eq_true].
    eauto.
  - destruct (search blk sec es) as [j h]. intros [= <- ->]. simpl. by apply IH.
Qed.

Lemma search_miss d es sec i :
  valid_first es -> Forall (entry_ok d) es -> search blk sec es = (i, false) ->
  sec ∉ keys es /\ (i = length es \/ exists c, es !! i = Some c /\ valid c = false).
Proof.
  intros Hs. revert i. induction Hs as [|c es Hs IH Hf]; intros i Hok; simpl.
  { intros [= <-]. split; [apply not_elem_of_nil|by left]. }
  inversion Hok as [|?? (_ & _ & Hc) Hok']; subst. destruct (valid c) eqn:Hv.
  - destruct (is_entry blk sec c) eqn:He; [done|].
    destruct (search blk sec es) as [j h] eqn:Ej. intros [= <- ->].
    destruct (IH j Hok' eq_refl) as [Hk Hj]. rewrite keys_cons_valid by done. split.
    + intros [->|?]%elem_of_cons; [|done]. unfold is_entry in He.
      destruct (Hc eq_refl) as (Hb & _). rewrite Z.eqb_refl, bool_decide_eq_true_2 in He; done.
    + destruct Hj as [->|Hj]; [by left|by right].
  - intros [= <-]. split; [|right; exists c; done].
    rewrite elem_keys. intros (c' & [->|Hc']%elem_of_cons & Hv' & _); [congruence|].
    rewrite Forall_forall in Hf. specialize (Hf c' Hc' Hv'). congruence.
Qed.

Lemma delete_perm {A} (l : list A) i x : l !! i = Some x -> l ≡ₚ x :: delete i l.
Proof. apply delete_Permutation. Qed.

(** Taking an entry off the list. *)
Lemma entries_inv_delete d es i c :
  entries_inv d es -> es !! i = Some c ->
  entries_inv d (delete i es) /\ entry_ok d c /\ (valid c = true -> sector_id c ∉ keys (delete i es)) /\
  (forall sec, view_of d es sec = view_of d (c :: delete i es) sec).
Proof.
  intros [H1 H2 H3] Hi. pose proof (delete_perm es i c Hi) as Hp.
  pose proof (Forall_inv (P := entry_ok d) (a := c) (l := delete i es)) as Hinv.
  rewrite Hp in H3. rewrite (keys_perm _ _ Hp) in H2. inversion H3; subst.
  split; [split|]; [by apply valid_first_delete| |done|].
  - destruct (valid c) eqn:Hv.
    + rewrite keys_cons_valid in H2 by done. by apply NoDup_cons in H2 as [_ ?].
    + by rewrite keys_cons_invalid in H2.
  - split; [done|]. split.
    + intros Hv. rewrite keys_cons_valid in H2 by done. by apply NoDup_cons in H2 as [? _].
    + intros sec. apply view_perm; [by rewrite (keys_perm _ _ Hp)|done].
Qed.

(** Putting one at the front. *)
Lemma entries_inv_cons d es c :
  entries_inv d es -> entry_ok d c -> valid c = true -> sector_id c ∉ keys es ->
  entries_inv d (c :: es).
Proof.
  intros [H1 H2 H3] Hc Hv Hk. split; [by apply valid_first_cons| |by constructor].
  rewrite keys_cons_valid by done. by constructor.
Qed.

(** ** The invariant of the cache *)

Notation state := (state D).
Implicit Types s : state.

Record inv s : Prop := {
  i_dev : sd_inv (dev s);
  i_some : open_sectors s <> [];
  i_entries : entries_inv (dev s) (open_sectors s) }.

Definition view s (sec : Z) : list Z := view_of (dev s) (open_sectors s) sec.
Definition cached s (sec : Z) : Prop := sec ∈ keys (open_sectors s).

Lemma view_wf s sec : inv s -> length (view s sec) = 512%nat /\ Forall is_byte (view s sec).
Proof.
  intros [H1 _ [_ _ H3]]. unfold view, view_of.
  destruct (List.find (caches sec) (open_sectors s)) as [c|] eqn:E; [|by apply sd_at_wf].
  apply find_some in E as [Hc%list_elem_of_In _]. rewrite Forall_forall in H3.
  by destruct (H3 c Hc) as (? & ? & _).
Qed.

(** Replacing an entry: it is off the list, its contents are on the device if they
    were the only copy. *)
Lemma evict_run s i :
  inv s -> (i = length (open_sectors s) \/ exists c, open_sectors s !! i = Some c /\ valid c = false) ->
  exists c rest d, evict i s = Ok (c, rest, Build_state d (open_sectors s) (num_access s) (num_hits s)) /\
    sd_inv d /\ sd_size d = sd_size (dev s) /\ entries_inv d rest /\
    length (content c) = 512%nat /\ Forall is_byte (content c) /\
    (forall sec, sec ∈ keys rest -> cached s sec) /\
    (forall sec, view_of d rest sec = view s sec) /\
    (i = length (open_sectors s) -> last (open_sectors s) = Some c).
Proof.
  intros [Hd Hne He] Hi. unfold evict, gets. erewrite bind_eq; [|done].
  set (es := open_sectors s) in *. set (v := if (i =? length es)%nat then _ else _).
  assert (exists c, es !! v = Some c) as [c Hc].
  { unfold v. destruct (Nat.eqb_spec i (length es)); [|destruct Hi as [?|(c & Hc & _)]; [done|eauto]].
    apply lookup_lt_is_Some. destruct es; [done|simpl; lia]. }
  rewrite Hc. destruct (entries_inv_delete _ _ _ _ He Hc) as (Hr & (Hl & Hb & Hok) & Hk & Hv).
  assert (i = length es -> last es = Some c) as Hlast.
  { intros ->. rewrite last_lookup. unfold v in Hc. rewrite Nat.eqb_refl in Hc.
    by replace (pred (length es)) with (length es - 1)%nat by lia. }
  assert (forall sec, sec ∈ keys (delete v es) -> cached s sec) as Hsub.
  { intros sec (c' & Hc' & Hm)%elem_keys. apply elem_keys. exists c'. split; [|done].
    fold es. rewrite (delete_perm es v c Hc). by apply elem_of_cons; right. }
  exists c, (delete v es). destruct (dirty c && valid c) eqn:Edv.
  - apply andb_true_iff in Edv as [Ed Ev]. destruct (Hok Ev) as (-> & Hs & _).
    destruct (sd_write_ok (dev s) (sector_id c) (content c) Hd Hs Hl Hb) as (d & R & I & S & A).
    exists d. unfold on_dev. erewrite bind_eq; [|by rewrite R]. split; [done|].
    split; [done|]. split; [done|].
    assert (forall sec, sec ∈ keys (delete v es) -> sd_at d sec = sd_at (dev s) sec) as Hsame.
    { intros sec Hsec. rewrite A. destruct (Z.eqb_spec sec (sector_id c)) as [->|]; [|done].
      by destruct (Hk Ev). }
    split; [split; [apply Hr|apply Hr|eapply entries_ok_dev; [done|exact Hsame|apply Hr]]|].
    split_and!; [done..| |done]. intros sec. unfold view. fold es. rewrite Hv, view_cons.
    destruct (caches sec c) eqn:Ec.
    + apply caches_spec in Ec as [_ <-]. rewrite view_out by auto. by rewrite A, Z.eqb_refl.
    + apply view_ext. intros _. rewrite A. destruct (Z.eqb_spec sec (sector_id c)); [|done].
      unfold caches in Ec. rewrite Ev in Ec. simpl in Ec. lia.
  - exists (dev s). erewrite bind_eq; [|done]. split; [by destruct s|].
    split_and!; [done..| |done]. intros sec. unfold view. fold es. rewrite Hv, view_cons.
    destruct (caches sec c) eqn:Ec; [|done]. apply caches_spec in Ec as [Ev <-].
    rewrite view_out by auto. destruct (dirty c) eqn:Edc; [by rewrite Ev in Edv|].
    destruct (Hok Ev) as (_ & _ & ->); done.
Qed.

Lemma on_dev_run {A} (m : M D A) s a d :
  m (dev s) = Ok (a, d) ->
  on_dev m s = Ok (a, Build_state d (open_sectors s) (num_access s) (num_hits s)).
Proof. intros E. unfold on_dev. by rewrite E. Qed.

Lemma copy_out_run s bytes offset size :
  0 <= offset -> 0 <= size -> offset + size <= 512 ->
  copy_out bytes offset size s = Ok (sub_bytes offset size bytes, s).
Proof.
  intros. unfold copy_out. rewrite !(proj2 (Z.leb_le _ _)) by lia. done.
Qed.
Lemma copy_in_run s bytes offset data :
  0 <= offset -> offset + Z.of_nat (length data) <= 512 ->
  copy_in bytes offset data s = Ok (splice offset data bytes, s).
Proof.
  intros. unfold copy_in. rewrite !(proj2 (Z.leb_le _ _)) by lia. done.
Qed.

Lemma buffer_read_run s sec offset size :
  inv s -> 0 <= sec < sd_size (dev s) -> 0 <= offset -> 0 <= size -> offset + size <= 512 ->
  exists s', buffer_read blk sec offset size s = Ok (sub_bytes offset size (view s sec), s') /\
    inv s' /\ sd_size (dev s') = sd_size (dev s) /\ cached s' sec /\
    (forall sec', view s' sec' = view s sec').
Proof.
  intros Hi Hsec Ho Hs Hos. pose proof Hi as [Hd Hne He]. unfold buffer_read, count_access, modify, gets.
  erewrite bind_eq; [|done]. erewrite bind_eq; [|done]. cbn [open_sectors].
  destruct (search blk sec (open_sectors s)) as [i hit] eqn:Es. destruct hit.
  - destruct (search_hit _ _ _ Es) as (c & Hc & Hv & <- & Hb). rewrite Hc.
    destruct (entries_inv_delete _ _ _ _ He Hc) as (Hr & Hok & Hk & Hview).
    erewrite bind_eq; [|by apply copy_out_run]. eexists. split.
    + unfold set_sectors, count_hit, modify. erewrite bind_eq; [|done]. erewrite bind_eq; [|done].
      unfold view. rewrite view_in; [done|apply He| |done]. by eapply list_elem_of_lookup_2.
    + split; [split; [done|done|]; simpl; apply entries_inv_cons; auto|]. split; [done|].
      split; [apply elem_keys; exists c; split; [apply list_elem_of_here|done]|].
      intros sec'. unfold view. simpl. by rewrite Hview.
  - destruct (search_miss (dev s) (open_sectors s) sec i) as [Hk Hv]; [apply He|apply He|done|].
    set (s0 := Build_state (dev s) (open_sectors s) (s32 (num_access s + 1)) (num_hits s)).
    destruct (evict_run s0 i) as (c & rest & d & R & Id & Sd & Er & _ & _ & Hsub & V & _); [split; done|done|].
    erewrite bind_eq; [|exact R]. simpl in Sd.
    destruct (sd_read_ok d sec Id) as (d' & R' & Id' & Sd' & A'); [lia|].
    erewrite bind_eq; [|apply on_dev_run; exact R'].
    assert (sd_at d sec = view s sec) as Ea.
    { rewrite <- (view_out d rest sec); [by rewrite V|]. intros ?. by apply Hk, (Hsub sec). }
    erewrite bind_eq; [|by apply copy_out_run]. rewrite Ea. eexists. split; [done|].
    assert (entries_inv d' rest) as Er'.
    { split; [apply Er|apply Er|]. eapply entries_ok_dev; [exact Sd'|auto|apply Er]. }
    destruct (view_wf s sec Hi) as [Hl Hb].
    split; [split; [done|done|]; simpl|].
    + apply entries_inv_cons; [done| |done|simpl; intros ?; by apply Hk, (Hsub sec)].
      split; [done|]. split; [done|]. intros _. simpl. rewrite A', Ea. split; [done|]. split; [lia|done].
    + simpl. split; [lia|]. split; [apply elem_keys; eexists; split; [apply list_elem_of_here|done]|].
      intros sec'. unfold view at 1. simpl. rewrite view_cons. unfold caches. simpl.
      destruct (Z.eqb_spec sec sec') as [->|]; [done|]. rewrite (view_ext d) by auto. apply V.
Qed.

(** Writing: the bytes written are there, every other sector is untouched.  The
    other bytes of the sector are kept if it was cached; on a miss they are those
    of the entry replaced. *)
Lemma buffer_write_run s sec data offset :
  inv s -> 0 <= sec < sd_size (dev s) -> 0 <= offset ->
  offset + Z.of_nat (length data) <= 512 -> Forall is_byte data ->
  exists s' base, buffer_write blk sec data offset s = Ok (tt, s') /\
    inv s' /\ sd_size (dev s') = sd_size (dev s) /\ cached s' sec /\
    length base = 512%nat /\ Forall is_byte base /\ (cached s sec -> base = view s sec) /\
    (~ cached s sec -> Forall (fun c => valid c = true) (open_sectors s) ->
       exists c, last (open_sectors s) = Some c /\ base = content c) /\
    (forall sec', view s' sec' = if sec' =? sec then splice offset data base else view s sec').
Proof.
  intros Hi Hsec Ho Hos Hdb. pose proof Hi as [Hd Hne He].
  unfold buffer_write, count_access, modify, gets.
  erewrite bind_eq; [|done]. erewrite bind_eq; [|done]. cbn [open_sectors].
  destruct (search blk sec (open_sectors s)) as [i hit] eqn:Es. destruct hit.
  - destruct (search_hit _ _ _ Es) as (c & Hc & Hv & <- & Hb). rewrite Hc.
    destruct (entries_inv_delete _ _ _ _ He Hc) as (Hr & (Hl & Hby & Hok) & Hk & Hview).
    erewrite bind_eq; [|by apply copy_in_run]. eexists _, (content c). split; [done|].
    split; [split; [done|done|]; simpl|].
    + apply entries_inv_cons; [done| |done|simpl; auto]. destruct (Hok Hv) as (? & ? & _).
      split; [simpl; rewrite splice_length by lia; done|].
      split; [by apply Forall_splice|done].
    + simpl. split; [done|]. split; [apply elem_keys; eexists; split; [apply list_elem_of_here|done]|].
      split; [done|]. split; [done|]. split.
      * intros _. unfold view. rewrite view_in; [done|apply He| |done]. by eapply list_elem_of_lookup_2.
      * split; [intros Hn; destruct Hn; apply elem_keys; exists c; split; [by eapply list_elem_of_lookup_2|done]|].
        intros sec'. unfold view at 1. simpl. rewrite view_cons. unfold caches. simpl.
        rewrite (Z.eqb_sym sec'). destruct (Z.eqb_spec (sector_id c) sec') as [|Hn]; [done|].
        unfold view. rewrite Hview, view_cons. unfold caches. rewrite Hv. simpl.
        by rewrite (proj2 (Z.eqb_neq _ _) Hn).
  - destruct (search_miss (dev s) (open_sectors s) sec i) as [Hk Hv]; [apply He|apply He|done|].
    set (s0 := Build_state (dev s) (open_sectors s) (s32 (num_access s + 1)) (num_hits s)).
    destruct (evict_run s0 i) as (c & rest & d & R & Id & Sd & Er & Hl & Hb & Hsub & V & HL'); [split; done|done|].
    erewrite bind_eq; [|exact R]. simpl in Sd. cbv beta iota.
    erewrite bind_eq; [|by apply copy_in_run]. eexists _, (content c). split; [done|].
    split; [split; [done|done|]; simpl|].
    + apply entries_inv_cons; [done| |done|simpl; intros ?; by apply Hk, (Hsub sec)].
      split; [simpl; rewrite splice_length by lia; done|]. split; [by apply Forall_splice|].
      intros _. simpl. split; [done|]. split; [lia|done].
    + simpl. split; [done|]. split; [apply elem_keys; eexists; split; [apply list_elem_of_here|done]|].
      split; [done|]. split; [done|]. split; [intros ?; by destruct Hk|].
      split.
      { intros _ Hall. exists c. split; [|done]. apply HL'. destruct Hv as [?|(c' & Hc' & Hv')]; [done|].
        rewrite (Forall_lookup_1 _ _ _ _ Hall Hc') in Hv'. done. }
      intros sec'. unfold view at 1. simpl. rewrite view_cons. unfold caches. simpl.
      rewrite (Z.eqb_sym sec'). destruct (Z.eqb_spec sec sec'); [done|]. apply V.
Qed.

(** ** Writing back *)

Definition cleaned c : sector_cache :=
  if valid c && dirty c
  then {| sector_id := sector_id c; block_id := block_id c; content := content c;
          valid := valid c; dirty := false |}
  else c.

Lemma entries_inv_tail d c es : entries_inv d (c :: es) ->
  entries_inv d es /\ entry_ok d c /\ (valid c = true -> sector_id c ∉ keys es).
Proof.
  intros He. destruct (entries_inv_delete d (c :: es) 0 c He eq_refl) as (H1 & H2 & H3 & _). done.
Qed.

Lemma flush_run es : forall d, sd_inv d -> entries_inv d es ->
  exists d', flush es d = Ok (map cleaned es, d') /\ sd_inv d' /\ sd_size d' = sd_size d /\
    (forall sec, sd_at d' sec = view_of d es sec).
Proof.
  induction es as [|c es IH]; intros d Hd He; simpl; [by exists d|].
  destruct (entries_inv_tail _ _ _ He) as (He' & (Hl & Hb & Hok) & Hk).
  unfold cleaned at 1. destruct (valid c && dirty c) eqn:Ev.
  - apply andb_true_iff in Ev as [Ev Edi]. destruct (Hok Ev) as (Eb & Hs & _). rewrite Eb.
    destruct (sd_write_ok d (sector_id c) (content c) Hd Hs Hl Hb) as (d1 & R & I & S & A).
    erewrite bind_eq; [|by erewrite bind_eq; [|exact R]].
    destruct (IH d1 I) as (d' & R' & I' & S' & A').
    { split; [apply He'|apply He'|]. eapply entries_ok_dev; [done| |apply He']. intros sec Hsec.
      rewrite A. destruct (Z.eqb_spec sec (sector_id c)) as [->|]; [|done]. by destruct (Hk Ev). }
    erewrite bind_eq; [|exact R']. exists d'. split; [done|]. split; [done|]. split; [congruence|].
    intros sec. rewrite A', view_cons. destruct (caches sec c) eqn:Ec.
    + apply caches_spec in Ec as [_ <-]. rewrite view_out by auto. by rewrite A, Z.eqb_refl.
    + apply view_ext. intros _. rewrite A. destruct (Z.eqb_spec sec (sector_id c)); [|done].
      unfold caches in Ec. rewrite Ev in Ec. simpl in Ec. lia.
  - erewrite bind_eq; [|done]. destruct (IH d Hd He') as (d' & R' & I' & S' & A').
    erewrite bind_eq; [|exact R']. exists d'. split; [done|]. split; [done|]. split; [congruence|].
    intros sec. rewrite A', view_cons. destruct (caches sec c) eqn:Ec; [|done].
    apply caches_spec in Ec as [Hv <-]. rewrite view_out by auto. rewrite Hv in Ev. simpl in Ev.
    by destruct (Hok Hv) as (_ & _ & ->).
Qed.

Lemma keys_ext f es :
  (forall c, valid (f c) = valid c /\ sector_id (f c) = sector_id c) -> keys (map f es) = keys es.
Proof.
  intros Hf. induction es as [|c es IH]; [done|]. simpl. destruct (Hf c) as [Hv Hs].
  destruct (valid c) eqn:E.
  - by rewrite !keys_cons_valid, IH, Hs by congruence.
  - by rewrite !keys_cons_invalid, IH by congruence.
Qed.

Lemma cleaned_same c : valid (cleaned c) = valid c /\ sector_id (cleaned c) = sector_id c /\
  content (cleaned c) = content c /\ block_id (cleaned c) = block_id c.
Proof. unfold cleaned. by destruct (valid c && dirty c). Qed.

Lemma view_cleaned d es sec : view_of d (map cleaned es) sec = view_of d es sec.
Proof.
  induction es as [|c es IH]; [done|]. simpl map. rewrite !view_cons, IH.
  destruct (cleaned_same c) as (Hv & Hs & Hc & _). unfold caches. by rewrite Hv, Hs, Hc.
Qed.

Lemma valid_first_ext f es :
  (forall c, valid (f c) = valid c) -> valid_first es -> valid_first (map f es).
Proof.
  intros Hf Hs. induction Hs as [|c es Hs IH Hc]; simpl; [constructor|]. constructor; [done|].
  apply Forall_map. eapply Forall_impl; [exact Hc|]. simpl. intros x. by rewrite !Hf.
Qed.

(** After a flush the device holds everything the cache stands for. *)
Lemma buffer_update_disk_run s :
  inv s -> exists s', buffer_update_disk s = Ok (tt, s') /\ inv s' /\
    sd_size (dev s') = sd_size (dev s) /\
    (forall sec, view s' sec = view s sec) /\ (forall sec, sd_at (dev s') sec = view s sec).
Proof.
  intros [Hd Hne He]. destruct (flush_run (open_sectors s) (dev s) Hd He) as (d' & R & I & S & A).
  unfold buffer_update_disk, gets. erewrite bind_eq; [|done].
  erewrite bind_eq; [|apply on_dev_run; exact R]. eexists. split; [done|].
  assert (forall sec, view_of d' (open_sectors s) sec = view s sec) as Hv.
  { intros sec. apply view_ext. intros Hk. rewrite A. by apply view_out. }
  split; [split; simpl|].
  - done.
  - by destruct (open_sectors s).
  - split.
    + apply valid_first_ext; [apply cleaned_same|apply He].
    + rewrite keys_ext; [apply He|]. intros c. by destruct (cleaned_same c) as (? & ? & _).
    + apply Forall_map, Forall_forall. intros c Hc. simpl.
      destruct (cleaned_same c) as (E1 & E2 & E3 & E4).
      destruct (proj1 (Forall_forall _ _) (ei_ok _ _ He) c Hc) as (Hl & Hb & Hok).
      unfold entry_ok. rewrite E1, E2, E3, E4. split; [done|]. split; [done|]. intros Hvc.
      destruct (Hok Hvc) as (? & ? & _). split; [done|]. split; [by rewrite S|]. intros _.
      rewrite A. symmetry. by apply view_in; [apply He|..].
  - simpl. split; [done|]. split; [|done]. intros sec. unfold view at 1. simpl.
    by rewrite view_cleaned.
Qed.

Lemma buffer_clean_run s :
  inv s -> exists s', buffer_clean s = Ok (tt, s') /\ inv s' /\
    sd_size (dev s') = sd_size (dev s) /\ (forall sec, ~ cached s' sec) /\
    (forall sec, view s' sec = view s sec).
Proof.
  intros Hi. destruct (buffer_update_disk_run s Hi) as (s1 & R & [Hd Hne He] & S & _ & A).
  unfold buffer_clean. erewrite bind_eq; [|exact R]. eexists. split; [done|].
  set (f := fun c => {| sector_id := sector_id c; valid := false |}).
  assert (forall es, keys (map f es) = []) as Hk.
  { induction es as [|c es IH]; [done|]. simpl. by rewrite keys_cons_invalid. }
  split; [split; simpl|].
  - done.
  - by destruct (open_sectors s1).
  - split; [|by rewrite Hk; constructor|].
    + generalize (open_sectors s1). induction l as [|c l IH]; simpl; constructor; [done|].
      apply Forall_map, Forall_forall. done.
    + apply Forall_map, Forall_forall. intros c Hc. simpl.
      destruct (proj1 (Forall_forall _ _) (ei_ok _ _ He) c Hc) as (Hl & Hb & _). done.
  - simpl. split; [done|]. unfold cached, view. simpl. fold f. rewrite Hk.
    split; [intros sec; apply not_elem_of_nil|]. intros sec. rewrite view_out; [by rewrite A|].
    rewrite Hk. apply not_elem_of_nil.
Qed.

Definition empty_cache : list sector_cache := init_loop CACHE_SIZE [].

Lemma init_loop_eq n es : init_loop n es = replicate n {| sector_id := 0; block_id := None;
  content := zeros 512; valid := false; dirty := false |} ++ es.
Proof.
  revert es. induction n as [|n IH]; intros es; [done|]. simpl init_loop. rewrite IH.
  rewrite (cons_middle _ _ es), app_assoc, <- replicate_cons_app. done.
Qed.

Lemma buffer_init_run s :
  sd_inv (dev s) -> exists s', buffer_init true true s = Ok (true, s') /\ inv s' /\
    dev s' = dev s /\ (forall sec, view s' sec = sd_at (dev s) sec).
Proof.
  intros Hd. exists (Build_state (dev s) empty_cache 0 0). split; [done|].
  assert (keys empty_cache = []) as Hk by done.
  split; [split; [done|done|]|split; [done|]].
  - cbn [dev open_sectors]. unfold empty_cache. split.
    + rewrite init_loop_eq, app_nil_r. apply valid_first_replicate.
    + fold empty_cache. rewrite Hk. constructor.
    + rewrite init_loop_eq, app_nil_r. apply Forall_replicate.
      split; [done|]. split; [apply zeros_bytes|done].
  - intros sec. unfold view. cbn [dev open_sectors]. apply view_out. rewrite Hk. apply not_elem_of_nil.
Qed.

End laws.

(** ** The interface to the file system *)

(** Sectors as the file system uses them: slices of the sectors of one device. *)
Class SectorStore (S : Type) := {
  st_read : Z -> Z -> Z -> M S (list Z);
  st_write : Z -> list Z -> Z -> M S unit }.

(** Reads give the current contents; a write puts the bytes written in place and
    leaves the other sectors alone.  Nothing is promised about the other bytes of
    the sector unless all of it is written. *)
Class SectorStoreLaws (S : Type) `{SectorStore S} := {
  st_inv : S -> Prop;
  st_size : S -> Z;
  st_view : S -> Z -> list Z;
  st_size_range : forall s, st_inv s -> 0 <= st_size s < 2 ^ 32;
  st_view_wf : forall s sec, st_inv s -> length (st_view s sec) = 512%nat /\ Forall is_byte (st_view s sec);
  st_read_ok : forall s sec offset size, st_inv s -> 0 <= sec < st_size s ->
    0 <= offset -> 0 <= size -> offset + size <= 512 ->
    exists s', st_read sec offset size s = Ok (sub_bytes offset size (st_view s sec), s') /\
      st_inv s' /\ st_size s' = st_size s /\ forall sec', st_view s' sec' = st_view s sec';
  st_write_ok : forall s sec data offset, st_inv s -> 0 <= sec < st_size s ->
    0 <= offset -> offset + Z.of_nat (length data) <= 512 -> Forall is_byte data ->
    exists s' base, st_write sec data offset s = Ok (tt, s') /\
      st_inv s' /\ st_size s' = st_size s /\ length base = 512%nat /\
      forall sec', st_view s' sec' = if sec' =? sec then splice offset data base else st_view s sec' }.

Section store_instance.
Context (D : Type) `{HL : SectorDeviceLaws D blk}.

#[export] Instance buffer_store : SectorStore (state D) :=
  {| st_read := buffer_read blk; st_write := buffer_write blk |}.

#[export] Program Instance buffer_store_laws : SectorStoreLaws (state D) :=
  {| st_inv := inv; st_size := fun s => sd_size (dev s); st_view := view |}.
Next Obligation. intros s [Hd _ _]. by apply sd_size_range. Qed.
Next Obligation. intros s sec Hi. by apply view_wf. Qed.
Next Obligation.
  intros s sec offset size Hi ????.
  destruct (buffer_read_run s sec offset size Hi) as (s' & R & I & S & _ & V); [done..|]. eauto.
Qed.
Next Obligation.
  intros s sec data offset Hi ????.
  destruct (buffer_write_run s sec data offset Hi) as (s' & base & R & I & S & _ & L & _ & _ & _ & V);
    [done..|]. by exists s', base.
Qed.
End store_instance.

End BufferFacts.
