(* ===== verification/BufferProps.v ===== *)
(** * filesys/buffer.c: the properties of the buffer cache

    With instances on the partition of [Block.demo]: an empty cache, and a full
    one of a single entry. *)

From S2P Require Import Prelude Bytes Block Buffer BufferFacts.
Import Bytes Block Buffer BufferFacts.

Module BufferProps.

Section props.
Context {D : Type} `{HL : SectorDeviceLaws D blk}.

(** C20: A read through the cache returns exactly the bytes the cache stands for
    (the cached copy, or else the device), whether it hits, misses, or has to
    write a dirty sector back first; no sector changes. *)
Theorem buffer_read_correct (s : state D) sec offset size :
  inv (blk := blk) s -> 0 <= sec < sd_size (dev s) -> 0 <= offset -> 0 <= size -> offset + size <= 512 ->
  exists s', buffer_read blk sec offset size s = Ok (sub_bytes offset size (view s sec), s') /\
    inv (blk := blk) s' /\ forall sec', view s' sec' = view s sec'.
Proof.
  intros. destruct (buffer_read_run s sec offset size) as (s' & ? & ? & _ & _ & ?); eauto.
Qed.

(** C21: A write through the cache stores the bytes written and leaves every other
    sector as it was.  The rest of the written sector is kept when the sector was
    in the cache; when it was not, and all the entries are in use, it becomes what
    the least recently used entry held. *)
Theorem buffer_write_correct (s : state D) sec data offset :
  inv (blk := blk) s -> 0 <= sec < sd_size (dev s) -> 0 <= offset ->
  offset + Z.of_nat (length data) <= 512 -> Forall is_byte data ->
  exists s' base, buffer_write blk sec data offset s = Ok (tt, s') /\ inv (blk := blk) s' /\
    (forall sec', sec' <> sec -> view s' sec' = view s sec') /\
    view s' sec = splice offset data base /\ length base = 512%nat /\
    (cached s sec -> base = view s sec) /\
    (~ cached s sec -> Forall (fun c => valid c = true) (open_sectors s) ->
       exists c, last (open_sectors s) = Some c /\ base = content c).
Proof.
  intros Hi Hs Ho Hl Hb.
  destruct (buffer_write_run s sec data offset) as (s' & base & R & I & _ & _ & L & _ & B1 & B2 & V); [done..|].
  exists s', base. split_and!; [done|done| | |done|done|done].
  - intros sec' Hne. rewrite V. by rewrite (proj2 (Z.eqb_neq _ _) Hne).
  - by rewrite V, Z.eqb_refl.
Qed.

(** C34: [buffer_update_disk] makes the device hold everything the cache stands for,
    and changes nothing the file system sees. *)
Theorem buffer_update_disk_durable (s : state D) :
  inv (blk := blk) s ->
  exists s', buffer_update_disk s = Ok (tt, s') /\ inv (blk := blk) s' /\
    (forall sec, view s' sec = view s sec) /\ (forall sec, sd_at (dev s') sec = view s sec).
Proof.
  intros Hi. destruct (buffer_update_disk_run s Hi) as (s' & ? & ? & _ & ? & ?). eauto 6.
Qed.
End props.

(** ** Instances *)

Definition demo_cache : state Block.state := Build_state Block.demo empty_cache 0 0.

Lemma demo_dev : sd_inv (blk := 1) Block.demo.
Proof. split; [apply demo_wf|]. exists demo_part. done. Qed.

Lemma demo_inv : inv (blk := 1) demo_cache.
Proof.
  destruct (buffer_init_run (blk := 1) demo_cache demo_dev) as (s' & R & I & _).
  by injection R as <-.
Qed.

Lemma buffer_read_correct_witness :
  exists s', buffer_read 1 5 10 20 demo_cache = Ok (sub_bytes 10 20 (view (blk := 1) demo_cache 5), s') /\
    inv (blk := 1) s' /\ forall sec', view (blk := 1) s' sec' = view (blk := 1) demo_cache sec'.
Proof.
  apply (buffer_read_correct (blk := 1) demo_cache 5 10 20);
    [apply demo_inv|by vm_compute|lia|lia|lia].
Defined.

(** A full cache of one entry, sector 5, of which every byte is 7. *)
Definition demo_full : state Block.state :=
  Build_state Block.demo
    [{| sector_id := 5; block_id := Some 1%nat; content := replicate 512 7;
        valid := true; dirty := true |}] 0 0.

Lemma demo_full_inv : inv (blk := 1) demo_full.
Proof.
  split; [apply demo_dev|done|]. split.
  - repeat constructor.
  - vm_compute. repeat constructor. apply not_elem_of_nil.
  - apply (bool_decide_unpack _). by vm_compute.
Qed.

(** Sector 6 is all zero on the device; after one byte of it is written, its second
    byte is 7, a byte of sector 5. *)
Lemma buffer_write_correct_witness :
  view (blk := 1) demo_full 6 !! 1%nat = Some 0 /\
  exists s' base, buffer_write 1 6 [1] 0 demo_full = Ok (tt, s') /\ inv (blk := 1) s' /\
    view (blk := 1) s' 6 = splice 0 [1] base /\ splice 0 [1] base !! 1%nat = Some 7.
Proof.
  split; [by vm_compute|].
  destruct (buffer_write_correct (blk := 1) demo_full 6 [1] 0) as (s' & base & R & I & _ & V & _ & _ & B).
  - apply demo_full_inv.
  - by vm_compute.
  - lia.
  - simpl. lia.
  - repeat constructor; by vm_compute.
  - exists s', base. split; [exact R|]. split; [exact I|]. split; [exact V|].
    destruct B as (c & Hc & ->).
    + unfold cached. apply (bool_decide_unpack _). by vm_compute.
    + repeat constructor.
    + injection Hc as <-. by vm_compute.
Defined.

Lemma buffer_update_disk_durable_witness :
  exists s', buffer_update_disk demo_full = Ok (tt, s') /\ inv (blk := 1) s' /\
    (forall sec, view (blk := 1) s' sec = view (blk := 1) demo_full sec) /\
    (forall sec, sd_at (blk := 1) (dev s') sec = view (blk := 1) demo_full sec).
Proof. apply (buffer_update_disk_durable (blk := 1) demo_full), demo_full_inv. Defined.

End BufferProps.
