(* ===== verification/Inode.v ===== *)
(** * filesys/inode.c, filesys/free-map.c and filesys/file.c

    In-memory inodes, open files and directories are objects with addresses; a
    freed object is gone, so that using it is a wild access.  [open_inodes] is the
    list of the addresses, front first.  The three source files are mutually
    recursive: extending a file allocates sectors, which writes the free map to
    its file, which is a write to an inode.  The operations are therefore defined
    over the write operation [write_rec] to use for the free map's file, and tied
    together by [inode_write_at], whose bound [DEPTH] is the nesting of writes.

    Allocations whose failure the code handles take their outcome from the
    oracle [oom]; an allocation whose result the code uses unchecked succeeds. *)

From S2P Require Import Prelude Bytes Block Bitmap BufferFacts.
Import Bytes Block Bitmap BufferFacts.

Module Inode.

Definition INODE_MAGIC : Z := 0x494e4f44.
Definition DIR_LEN : Z := 123.
(** [BLOCK_SECTOR_SIZE / 4], the number of entries of a table of sectors. *)
Definition TABLE : Z := 128.
Definition MAX_LEN : Z := (123 + 2 * 512 / 4 + 512 / 4 * 512 / 4) * 512.
Definition FREE_MAP_SECTOR : Z := 0.
Definition ROOT_DIR_SECTOR : Z := 1.
Definition NO_SECTOR : Z := u32 (-1).

Record inode_disk := {
  length : Z; magic : Z; dir : list Z; single_indir : list Z; double_indir : Z }.

Record inode := {
  sector : Z; open_cnt : Z; removed : bool; deny_write_cnt : Z; data : inode_disk }.

Record file := { file_inode : Z; pos : Z; deny_write : bool }.
Record dirp := { dir_inode : Z; dir_pos : Z; is_remove : bool }.

(** The on-disk form of an inode, 128 words. *)
Definition encode (d : inode_disk) : list Z :=
  of_words (u32 (length d) :: magic d :: dir d ++ single_indir d ++ [double_indir d]).
Definition decode (bs : list Z) : inode_disk :=
  let ws := to_words 128 bs in
  {| length := s32 (nth 0 ws 0); magic := nth 1 ws 0; dir := take 123 (drop 2 ws);
     single_indir := take 2 (drop 125 ws); double_indir := nth 127 ws 0 |}.

Record fs (S : Type) := {
  store : S;
  free_map : bitmap;
  free_map_file : option Z;
  inodes : gmap Z inode;
  open_inodes : list Z;
  files : gmap Z file;
  dirs : gmap Z dirp;
  curr_dir : option Z;
  next_ptr : Z;
  oom : list bool }.
Arguments store {S} _.
Arguments free_map {S} _.
Arguments free_map_file {S} _.
Arguments inodes {S} _.
Arguments open_inodes {S} _.
Arguments files {S} _.
Arguments dirs {S} _.
Arguments curr_dir {S} _.
Arguments next_ptr {S} _.
Arguments oom {S} _.
Arguments Build_fs {S} _ _ _ _ _ _ _ _ _ _.

Section inode.
Context {S : Type} `{SectorStore S}.
Notation fs := (fs S).

(** ** State access *)

Definition with_store (x : S) (s : fs) : fs :=
  Build_fs x (free_map s) (free_map_file s) (inodes s) (open_inodes s) (files s) (dirs s)
    (curr_dir s) (next_ptr s) (oom s).
Definition with_map (x : bitmap) (s : fs) : fs :=
  Build_fs (store s) x (free_map_file s) (inodes s) (open_inodes s) (files s) (dirs s)
    (curr_dir s) (next_ptr s) (oom s).
Definition with_map_file (x : option Z) (s : fs) : fs :=
  Build_fs (store s) (free_map s) x (inodes s) (open_inodes s) (files s) (dirs s)
    (curr_dir s) (next_ptr s) (oom s).
Definition with_inodes (x : gmap Z inode) (s : fs) : fs :=
  Build_fs (store s) (free_map s) (free_map_file s) x (open_inodes s) (files s) (dirs s)
    (curr_dir s) (next_ptr s) (oom s).
Definition with_open (x : list Z) (s : fs) : fs :=
  Build_fs (store s) (free_map s) (free_map_file s) (inodes s) x (files s) (dirs s)
    (curr_dir s) (next_ptr s) (oom s).
Definition with_files (x : gmap Z file) (s : fs) : fs :=
  Build_fs (store s) (free_map s) (free_map_file s) (inodes s) (open_inodes s) x (dirs s)
    (curr_dir s) (next_ptr s) (oom s).
Definition with_dirs (x : gmap Z dirp) (s : fs) : fs :=
  Build_fs (store s) (free_map s) (free_map_file s) (inodes s) (open_inodes s) (files s) x
    (curr_dir s) (next_ptr s) (oom s).
Definition with_curr (x : option Z) (s : fs) : fs :=
  Build_fs (store s) (free_map s) (free_map_file s) (inodes s) (open_inodes s) (files s) (dirs s)
    x (next_ptr s) (oom s).

Definition on_store {A} (m : M S A) : M fs A := fun s =>
  match m (store s) with Ok (a, x) => Ok (a, with_store x s) | Err f => Err f end.
Definition on_map {A} (m : M bitmap A) : M fs A := fun s =>
  match m (free_map s) with Ok (a, x) => Ok (a, with_map x s) | Err f => Err f end.

Definition buf_read (sec ofs size : Z) : M fs (list Z) := on_store (st_read sec ofs size).
Definition buf_write (sec : Z) (bs : list Z) (ofs : Z) : M fs unit := on_store (st_write sec bs ofs).

(** A new object's address, or the failure of the allocation. *)
Definition malloc : M fs (option Z) := fun s =>
  let s' rest := Build_fs (store s) (free_map s) (free_map_file s) (inodes s) (open_inodes s)
    (files s) (dirs s) (curr_dir s) (next_ptr s + 1) rest in
  match oom s with
  | true :: rest => Ok (None, s' rest)
  | _ :: rest => Ok (Some (next_ptr s), s' rest)
  | [] => Ok (Some (next_ptr s), s' [])
  end.

Definition get_inode (p : Z) : M fs inode := fun s =>
  match inodes s !! p with Some i => Ok (i, s) | None => Err WildAccess end.
Definition set_inode (p : Z) (i : inode) : M fs unit :=
  modify (fun s => with_inodes (<[p := i]> (inodes s)) s).
Definition set_data (p : Z) (d : inode_disk) : M fs unit :=
  let! i := get_inode p in
  set_inode p {| sector := sector i; open_cnt := open_cnt i; removed := removed i;
                 deny_write_cnt := deny_write_cnt i; data := d |}.
Definition get_file (p : Z) : M fs file := fun s =>
  match files s !! p with Some f => Ok (f, s) | None => Err WildAccess end.

(** Entry [i] of an array of words, and the assignment to it. *)
Definition entry (ws : list Z) (i : Z) : M fs Z := fun s =>
  if 0 <=? i then
    match ws !! Z.to_nat i with Some w => Ok (w, s) | None => Err WildAccess end
  else Err WildAccess.
Definition set_entry (ws : list Z) (i w : Z) : M fs (list Z) := fun s =>
  if (0 <=? i) && (i <? Z.of_nat (List.length ws))
  then Ok (<[Z.to_nat i := w]> ws, s) else Err WildAccess.

(** A table of sector numbers read from a sector, and written to one. *)
Definition read_table (sec : Z) : M fs (list Z) :=
  let! bs := buf_read sec 0 512 in ret (to_words 128 bs).
Definition write_table (sec : Z) (ws : list Z) : M fs unit := buf_write sec (of_words ws) 0.
Definition no_table : list Z := replicate 128 0.

(** ** Reading *)

Definition inode_length (p : Z) : M fs Z := let! i := get_inode p in ret (length (data i)).

Definition byte_to_sector_helper (p ofs len : Z) : M fs Z :=
  let! inode := get_inode p in
  if ofs <? len then
    let index := Z.quot ofs 512 in
    if index <? DIR_LEN then entry (dir (data inode)) index
    else if index <? DIR_LEN + TABLE then
      let! t := entry (single_indir (data inode)) 0 in
      let! tmp_buf := read_table t in
      entry tmp_buf (index - DIR_LEN)
    else if index <? DIR_LEN + 2 * TABLE then
      let! t := entry (single_indir (data inode)) 1 in
      let! tmp_buf := read_table t in
      entry tmp_buf (index - DIR_LEN - TABLE)
    else
      let! tmp_buf := read_table (double_indir (data inode)) in
      let index := index - (DIR_LEN + 2 * TABLE) in
      let! id_2level := entry tmp_buf (Z.quot index TABLE) in
      let! tmp_buf := read_table id_2level in
      entry tmp_buf (Z.rem index TABLE)
  else ret NO_SECTOR.

Definition byte_to_sector (p ofs : Z) : M fs Z :=
  let! len := inode_length p in byte_to_sector_helper p ofs len.

Fixpoint read_loop (fuel : nat) (p inode_len size offset : Z) (acc : list Z) : M fs (list Z) :=
  match fuel with
  | O => fail OutOfFuel
  | Datatypes.S fuel =>
      if size >? 0 then
        let! sector_idx := byte_to_sector p offset in
        let sector_ofs := Z.rem offset 512 in
        let inode_left := inode_len - offset in
        let sector_left := 512 - sector_ofs in
        let min_left := if inode_left <? sector_left then inode_left else sector_left in
        let chunk_size := if size <? min_left then size else min_left in
        if chunk_size <=? 0 then ret acc else
        let! bs := buf_read sector_idx sector_ofs chunk_size in
        read_loop fuel p inode_len (size - chunk_size) (offset + chunk_size) (acc ++ bs)
      else ret acc
  end.
(** The bytes read; their number is the result of the call. *)
Definition inode_read_at (p size offset : Z) : M fs (list Z) :=
  let! inode_len := inode_length p in
  read_loop (Datatypes.S (Z.to_nat size)) p inode_len size offset [].

(** ** Writing *)

Section recursive.
Context (write_rec : Z -> list Z -> Z -> M fs Z).

(** [bitmap_write (free_map, free_map_file)] *)
Definition bitmap_write : M fs bool :=
  let! b := gets free_map in
  let! f := gets free_map_file in
  match f with
  | None => fail WildAccess
  | Some f =>
      let! file := get_file f in
      let size := byte_cnt (bit_cnt b) in
      let! n := write_rec (file_inode file) (take (Z.to_nat size) (of_words (bits b))) 0 in
      ret (n =? size)
  end.

Definition free_map_allocate (cnt : Z) : M fs (option Z) :=
  let! sector := on_map (bitmap_scan_and_flip 0 cnt false) in
  if sector =? BITMAP_ERROR then ret None else
  let! f := gets free_map_file in
  match f with
  | None => ret (Some sector)
  | Some _ =>
      let! ok := bitmap_write in
      if ok : bool then ret (Some sector) else
      do! on_map (bitmap_set_multiple sector cnt false);
      ret None
  end.

Definition free_map_release (sector cnt : Z) : M fs unit :=
  let! all := on_map (bitmap_all sector cnt) in
  do! assert all;
  do! on_map (bitmap_set_multiple sector cnt false);
  let! _ := bitmap_write in
  ret tt.

(** [free_map_allocate (1, &x)]: the new value of [x], the old one on failure. *)
Definition alloc_into (old : Z) : M fs Z :=
  let! r := free_map_allocate 1 in
  ret (match r with Some sec => sec | None => old end).
(** The same for an array element, of which the data sector is zeroed. *)
Definition alloc_entry (ws : list Z) (i : Z) : M fs (list Z) :=
  let! old := entry ws i in
  let! v := alloc_into old in
  set_entry ws i v.
Definition alloc_zeroed (ws : list Z) (i : Z) : M fs (list Z) :=
  let! ws := alloc_entry ws i in
  let! v := entry ws i in
  do! buf_write v (zeros 512) 0;
  ret ws.

(** The tables held in memory while an inode is built: the inode itself, the two
    single-indirect tables, the double-indirect one and its current page. *)
Record tables := {
  t_inode : inode_disk; t_1st : list Z; t_2nd : list Z; t_2level : list Z; t_cur : list Z }.

Definition set_dir (t : tables) (ws : list Z) : tables :=
  {| t_inode := {| length := length (t_inode t); magic := magic (t_inode t); dir := ws;
                   single_indir := single_indir (t_inode t);
                   double_indir := double_indir (t_inode t) |};
     t_1st := t_1st t; t_2nd := t_2nd t; t_2level := t_2level t; t_cur := t_cur t |}.
Definition set_single (d : inode_disk) (ws : list Z) : inode_disk :=
  {| length := length d; magic := magic d; dir := dir d; single_indir := ws;
     double_indir := double_indir d |}.
Definition set_double (d : inode_disk) (w : Z) : inode_disk :=
  {| length := length d; magic := magic d; dir := dir d; single_indir := single_indir d;
     double_indir := w |}.
Definition set_length (d : inode_disk) (n : Z) : inode_disk :=
  {| length := n; magic := magic d; dir := dir d; single_indir := single_indir d;
     double_indir := double_indir d |}.
Definition set_1st (t : tables) (ws : list Z) : tables :=
  {| t_inode := t_inode t; t_1st := ws; t_2nd := t_2nd t; t_2level := t_2level t; t_cur := t_cur t |}.
Definition set_2nd (t : tables) (ws : list Z) : tables :=
  {| t_inode := t_inode t; t_1st := t_1st t; t_2nd := ws; t_2level := t_2level t; t_cur := t_cur t |}.
Definition set_cur (t : tables) (ws : list Z) : tables :=
  {| t_inode := t_inode t; t_1st := t_1st t; t_2nd := t_2nd t; t_2level := t_2level t; t_cur := ws |}.

(** Allocate the pages [i], [i + 1], ... of the double-indirect table, [n] of them. *)
Fixpoint alloc_pages (n : nat) (i : Z) (ws : list Z) : M fs (list Z) :=
  match n with
  | O => ret ws
  | Datatypes.S n => let! ws := alloc_entry ws i in alloc_pages n (i + 1) ws
  end.

(** One round of the loop of [inode_create] over the data sectors. *)
Definition create_step (index i : Z) (t : tables) : M fs tables :=
  if i <? DIR_LEN then
    let! ws := alloc_zeroed (dir (t_inode t)) i in ret (set_dir t ws)
  else if i <? DIR_LEN + TABLE then
    let! ws := alloc_zeroed (t_1st t) (i - DIR_LEN) in ret (set_1st t ws)
  else if i <? DIR_LEN + 2 * TABLE then
    let! ws := alloc_zeroed (t_2nd t) (i - DIR_LEN - TABLE) in ret (set_2nd t ws)
  else
    let index_1st_level := i - DIR_LEN - 2 * TABLE in
    let tmp_index := Z.quot index_1st_level TABLE in
    let tmp_index2 := Z.rem index_1st_level TABLE in
    let cur := if tmp_index2 =? 0 then no_table else t_cur t in
    let! cur := alloc_zeroed cur tmp_index2 in
    do! (if (tmp_index2 =? TABLE - 1) || (i =? index) then
           let! page := entry (t_2level t) tmp_index in write_table page cur
         else ret tt);
    ret (set_cur t cur).

Fixpoint create_loop (n : nat) (index i : Z) (t : tables) : M fs tables :=
  match n with
  | O => ret t
  | Datatypes.S n => let! t := create_step index i t in create_loop n index (i + 1) t
  end.

Definition inode_create (sec len : Z) : M fs bool :=
  do! assert (len >=? 0);
  if len >? MAX_LEN then ret false else
  let! mem := malloc in
  match mem with
  | None => ret false
  | Some _ =>
      let index := Z.quot len 512 in
      let di := {| length := len; magic := INODE_MAGIC; dir := replicate 123 0;
                   single_indir := [0; 0]; double_indir := 0 |} in
      let! di := (if index >=? DIR_LEN then
                    let! ws := alloc_entry (single_indir di) 0 in ret (set_single di ws)
                  else ret di) in
      let! di := (if index >=? DIR_LEN + TABLE then
                    let! ws := alloc_entry (single_indir di) 1 in ret (set_single di ws)
                  else ret di) in
      let! (di, t2) :=
        (if index >=? DIR_LEN + 2 * TABLE then
           let! v := alloc_into (double_indir di) in
           let di := set_double di v in
           let tmp_index2 := Z.quot (index - (DIR_LEN + 2 * TABLE)) TABLE in
           let! ws := alloc_pages (Z.to_nat (tmp_index2 + 1)) 0 no_table in
           do! write_table (double_indir di) ws;
           ret (di, ws)
         else ret (di, no_table)) in
      let! t := create_loop (Z.to_nat (index + 1)) index 0
                  {| t_inode := di; t_1st := no_table; t_2nd := no_table; t_2level := t2;
                     t_cur := no_table |} in
      do! (if index >=? DIR_LEN then
             let! v := entry (single_indir (t_inode t)) 0 in write_table v (t_1st t)
           else ret tt);
      do! (if index >=? DIR_LEN + TABLE then
             let! v := entry (single_indir (t_inode t)) 1 in write_table v (t_2nd t)
           else ret tt);
      do! buf_write sec (encode (t_inode t)) 0;
      ret true
  end.

(** One round of the loop of [inode_extend_length]; the inode is updated in place. *)
Definition extend_step (p i : Z) (t : tables) : M fs tables :=
  if i <? DIR_LEN then
    let! old := entry (dir (t_inode t)) i in
    let! v := alloc_into old in
    let! ws := set_entry (dir (t_inode t)) i v in
    let t := set_dir t ws in
    do! set_data p (t_inode t);
    do! buf_write v (zeros 512) 0;
    ret t
  else if i <? DIR_LEN + TABLE then
    let! ws := alloc_zeroed (t_1st t) (i - DIR_LEN) in ret (set_1st t ws)
  else if i <? DIR_LEN + 2 * TABLE then
    let! ws := alloc_zeroed (t_2nd t) (i - DIR_LEN - TABLE) in ret (set_2nd t ws)
  else
    let index_1st_level := i - DIR_LEN - 2 * TABLE in
    let tmp_index := Z.quot index_1st_level TABLE in
    let tmp_index2 := Z.rem index_1st_level TABLE in
    let! cur := (if tmp_index2 =? 0 then ret no_table
                 else let! page := entry (t_2level t) tmp_index in read_table page) in
    let! cur := alloc_zeroed cur tmp_index2 in
    let! page := entry (t_2level t) tmp_index in
    do! write_table page cur;
    ret (set_cur t cur).

Fixpoint extend_loop (n : nat) (p i : Z) (t : tables) : M fs tables :=
  match n with
  | O => ret t
  | Datatypes.S n => let! t := extend_step p i t in extend_loop n p (i + 1) t
  end.

(** A single-indirect table of the inode, allocated when the file first reaches it. *)
Definition extend_single (p k : Z) (fresh : bool) : M fs unit :=
  if fresh then
    let! inode := get_inode p in
    let! ws := alloc_entry (single_indir (data inode)) k in
    set_data p (set_single (data inode) ws)
  else ret tt.

(** The double-indirect table after its missing pages have been allocated. *)
Definition extend_double (p oldindex newindex : Z) : M fs (list Z) :=
  do! (if oldindex <? DIR_LEN + 2 * TABLE then
         let! inode := get_inode p in
         let! v := alloc_into (double_indir (data inode)) in
         set_data p (set_double (data inode) v)
       else ret tt);
  let! inode := get_inode p in
  let! t2 := read_table (double_indir (data inode)) in
  let newtmp_index2 := Z.quot (newindex - (DIR_LEN + 2 * TABLE)) TABLE in
  let oldtmp_index := oldindex - (DIR_LEN + 2 * TABLE) in
  let oldtmp_index2 := if oldtmp_index <? 0 then -1 else Z.quot oldtmp_index TABLE in
  let! t2 := alloc_pages (Z.to_nat (newtmp_index2 - oldtmp_index2)) (oldtmp_index2 + 1) t2 in
  do! write_table (double_indir (data inode)) t2;
  ret t2.

(** What comes before the loop: the missing tables are allocated, all are read. *)
Definition extend_tables (p oldindex newindex : Z) : M fs tables :=
  do! extend_single p 0 ((newindex >=? DIR_LEN) && (oldindex <? DIR_LEN));
  do! extend_single p 1 ((newindex >=? DIR_LEN + TABLE) && (oldindex <? DIR_LEN + TABLE));
  let! t2 := (if newindex >=? DIR_LEN + 2 * TABLE then extend_double p oldindex newindex
              else ret no_table) in
  let! inode := get_inode p in
  let! t_1 := (if newindex >=? DIR_LEN then
                 let! v := entry (single_indir (data inode)) 0 in read_table v
               else ret no_table) in
  let! t_2 := (if newindex >=? DIR_LEN + TABLE then
                 let! v := entry (single_indir (data inode)) 1 in read_table v
               else ret no_table) in
  ret {| t_inode := data inode; t_1st := t_1; t_2nd := t_2; t_2level := t2; t_cur := no_table |}.

(** What comes after it: the tables and the inode are written. *)
Definition extend_write_back (sec newindex : Z) (t : tables) : M fs unit :=
  do! (if newindex >=? DIR_LEN then
         let! v := entry (single_indir (t_inode t)) 0 in write_table v (t_1st t)
       else ret tt);
  do! (if newindex >=? DIR_LEN + TABLE then
         let! v := entry (single_indir (t_inode t)) 1 in write_table v (t_2nd t)
       else ret tt);
  buf_write sec (encode (t_inode t)) 0.

Definition inode_extend_length (p size offset : Z) : M fs unit :=
  let newLen := s32 (offset + size) in
  let! oldLen := inode_length p in
  if oldLen <? newLen then
    let newindex := Z.quot newLen 512 in
    let oldindex := Z.quot oldLen 512 in
    let! t := extend_tables p oldindex newindex in
    let! t := extend_loop (Z.to_nat (newindex - oldindex)) p (oldindex + 1) t in
    let! inode := get_inode p in
    extend_write_back (sector inode) newindex t
  else ret tt.

Fixpoint write_loop (fuel : nat) (p newLen : Z) (buffer : list Z) (offset written : Z) : M fs Z :=
  match fuel with
  | O => fail OutOfFuel
  | Datatypes.S fuel =>
      let size := Z.of_nat (List.length buffer) in
      if size >? 0 then
        let! sector_idx := byte_to_sector_helper p offset newLen in
        let sector_ofs := Z.rem offset 512 in
        let inode_left := newLen - offset in
        let sector_left := 512 - sector_ofs in
        let min_left := if inode_left <? sector_left then inode_left else sector_left in
        let chunk_size := if size <? min_left then size else min_left in
        if chunk_size <=? 0 then ret written else
        do! buf_write sector_idx (take (Z.to_nat chunk_size) buffer) sector_ofs;
        write_loop fuel p newLen (drop (Z.to_nat chunk_size) buffer) (offset + chunk_size)
          (written + chunk_size)
      else ret written
  end.

Definition write_at_body (p : Z) (buffer : list Z) (offset : Z) : M fs Z :=
  let size := Z.of_nat (List.length buffer) in
  let! inode := get_inode p in
  if negb (deny_write_cnt inode =? 0) then ret 0 else
  let newLen := s32 (size + offset) in
  if newLen >? MAX_LEN then ret 0 else
  do! inode_extend_length p size offset;
  let! inodeLen := inode_length p in
  let newLen := if inodeLen >? newLen then inodeLen else newLen in
  let! written := write_loop (Datatypes.S (List.length buffer)) p newLen buffer offset 0 in
  let! inode := get_inode p in
  let di := set_length (data inode) newLen in
  do! set_data p di;
  do! buf_write (sector inode) (encode di) 0;
  ret written.

End recursive.

(** The whole write operation, [depth] the nesting of writes still possible. *)
Fixpoint inode_write_at_depth (depth : nat) (p : Z) (buffer : list Z) (offset : Z) : M fs Z :=
  match depth with
  | O => fail OutOfFuel
  | Datatypes.S depth => write_at_body (inode_write_at_depth depth) p buffer offset
  end.
(** A write may extend its file, and the write of the free map then does not. *)
Definition DEPTH : nat := 2.
Definition inode_write_at : Z -> list Z -> Z -> M fs Z := inode_write_at_depth DEPTH.

(** ** Opening and closing *)

Definition inode_reopen (p : Z) : M fs Z :=
  let! i := get_inode p in
  do! set_inode p {| sector := sector i; open_cnt := open_cnt i + 1; removed := removed i;
                     deny_write_cnt := deny_write_cnt i; data := data i |};
  ret p.

Fixpoint find_open (sec : Z) (ps : list Z) : M fs (option Z) :=
  match ps with
  | [] => ret None
  | p :: ps =>
      let! i := get_inode p in
      if sector i =? sec then ret (Some p) else find_open sec ps
  end.

Definition inode_open (sec : Z) : M fs (option Z) :=
  let! ps := gets open_inodes in
  let! found := find_open sec ps in
  match found with
  | Some p => let! p := inode_reopen p in ret (Some p)
  | None =>
      let! mem := malloc in
      match mem with
      | None => ret None
      | Some p =>
          do! modify (fun s => with_open (p :: open_inodes s) s);
          let! bs := buf_read sec 0 512 in
          do! set_inode p {| sector := sec; open_cnt := 1; removed := false; deny_write_cnt := 0;
                             data := decode bs |};
          ret (Some p)
      end
  end.

Definition inode_get_inumber (p : Z) : M fs Z := let! i := get_inode p in ret (sector i).

Definition release_step (index i : Z) (t : tables) : M fs tables :=
  let release := free_map_release (inode_write_at_depth 1) in
  if i <? DIR_LEN then
    let! v := entry (dir (t_inode t)) i in do! release v 1; ret t
  else if i <? DIR_LEN + TABLE then
    let! v := entry (t_1st t) (i - DIR_LEN) in do! release v 1; ret t
  else if i <? DIR_LEN + 2 * TABLE then
    let! v := entry (t_2nd t) (i - DIR_LEN - TABLE) in do! release v 1; ret t
  else
    let index_1st_level := i - DIR_LEN - 2 * TABLE in
    let tmp_index := Z.quot index_1st_level TABLE in
    let tmp_index2 := Z.rem index_1st_level TABLE in
    let! cur := (if tmp_index2 =? 0 then
                   let! page := entry (t_2level t) tmp_index in read_table page
                 else ret (t_cur t)) in
    let! v := entry cur tmp_index2 in
    do! release v 1;
    do! (if (tmp_index2 =? TABLE - 1) || (i =? index) then
           let! page := entry (t_2level t) tmp_index in release page 1
         else ret tt);
    ret (set_cur t cur).
Fixpoint release_loop (n : nat) (index i : Z) (t : tables) : M fs unit :=
  match n with
  | O => ret tt
  | Datatypes.S n => let! t := release_step index i t in release_loop n index (i + 1) t
  end.

(** Deallocate the sectors of a removed inode. *)
Definition release_inode (i : inode) : M fs unit :=
  let release := free_map_release (inode_write_at_depth 1) in
  do! release (sector i) 1;
  let di := data i in
  let index := Z.quot (length di) 512 in
  let! t_1 := (if index >=? DIR_LEN then
                 let! v := entry (single_indir di) 0 in
                 let! ws := read_table v in
                 do! release v 1; ret ws
               else ret no_table) in
  let! t_2 := (if index >=? DIR_LEN + TABLE then
                 let! v := entry (single_indir di) 1 in
                 let! ws := read_table v in
                 do! release v 1; ret ws
               else ret no_table) in
  let! t2 := (if index >=? DIR_LEN + 2 * TABLE then
                let! ws := read_table (double_indir di) in
                do! release (double_indir di) 1; ret ws
              else ret no_table) in
  release_loop (Z.to_nat (index + 1)) index 0
    {| t_inode := di; t_1st := t_1; t_2nd := t_2; t_2level := t2; t_cur := no_table |}.

Definition inode_close (p : option Z) : M fs unit :=
  match p with
  | None => ret tt
  | Some p =>
      let! i := get_inode p in
      let i := {| sector := sector i; open_cnt := open_cnt i - 1; removed := removed i;
                  deny_write_cnt := deny_write_cnt i; data := data i |} in
      do! set_inode p i;
      if open_cnt i =? 0 then
        do! modify (fun s => with_open (List.filter (fun q => negb (q =? p)) (open_inodes s)) s);
        do! (if removed i then release_inode i else ret tt);
        modify (fun s => with_inodes (delete p (inodes s)) s)
      else ret tt
  end.

Definition inode_remove (p : Z) : M fs unit :=
  let! i := get_inode p in
  set_inode p {| sector := sector i; open_cnt := open_cnt i; removed := true;
                 deny_write_cnt := deny_write_cnt i; data := data i |}.

Definition inode_deny_write (p : Z) : M fs unit :=
  let! i := get_inode p in
  do! set_inode p {| sector := sector i; open_cnt := open_cnt i; removed := removed i;
                     deny_write_cnt := deny_write_cnt i + 1; data := data i |};
  assert (deny_write_cnt i + 1 <=? open_cnt i).
Definition inode_allow_write (p : Z) : M fs unit :=
  let! i := get_inode p in
  do! assert (deny_write_cnt i >? 0);
  do! assert (deny_write_cnt i <=? open_cnt i);
  set_inode p {| sector := sector i; open_cnt := open_cnt i; removed := removed i;
                 deny_write_cnt := deny_write_cnt i - 1; data := data i |}.

(** ** file.c *)

Definition set_file (f : Z) (x : file) : M fs unit :=
  modify (fun s => with_files (<[f := x]> (files s)) s).

Definition file_open (inode : option Z) : M fs (option Z) :=
  let! mem := malloc in
  match inode, mem with
  | Some i, Some f =>
      do! set_file f {| file_inode := i; pos := 0; deny_write := false |};
      ret (Some f)
  | _, _ => do! inode_close inode; ret None
  end.
Definition file_reopen (f : Z) : M fs (option Z) :=
  let! x := get_file f in
  let! i := inode_reopen (file_inode x) in
  file_open (Some i).

Definition file_deny_write (f : Z) : M fs unit :=
  let! x := get_file f in
  if negb (deny_write x) then
    do! set_file f {| file_inode := file_inode x; pos := pos x; deny_write := true |};
    inode_deny_write (file_inode x)
  else ret tt.
Definition file_allow_write (f : Z) : M fs unit :=
  let! x := get_file f in
  if deny_write x then
    do! set_file f {| file_inode := file_inode x; pos := pos x; deny_write := false |};
    inode_allow_write (file_inode x)
  else ret tt.
Definition file_close (f : option Z) : M fs unit :=
  match f with
  | None => ret tt
  | Some f =>
      do! file_allow_write f;
      let! x := get_file f in
      do! inode_close (Some (file_inode x));
      modify (fun s => with_files (delete f (files s)) s)
  end.
Definition file_get_inode (f : Z) : M fs Z := let! x := get_file f in ret (file_inode x).

Definition file_read_at (f size ofs : Z) : M fs (list Z) :=
  let! x := get_file f in inode_read_at (file_inode x) size ofs.
Definition file_write_at (f : Z) (buffer : list Z) (ofs : Z) : M fs Z :=
  let! x := get_file f in inode_write_at (file_inode x) buffer ofs.
Definition file_read (f size : Z) : M fs (list Z) :=
  let! x := get_file f in
  let! bs := inode_read_at (file_inode x) size (pos x) in
  do! set_file f {| file_inode := file_inode x; pos := s32 (pos x + Z.of_nat (List.length bs));
                    deny_write := deny_write x |};
  ret bs.
Definition file_write (f : Z) (buffer : list Z) : M fs Z :=
  let! x := get_file f in
  let! n := inode_write_at (file_inode x) buffer (pos x) in
  do! set_file f {| file_inode := file_inode x; pos := s32 (pos x + n); deny_write := deny_write x |};
  ret n.
Definition file_length (f : Z) : M fs Z := let! x := get_file f in inode_length (file_inode x).
Definition file_seek (f new_pos : Z) : M fs unit :=
  do! assert (new_pos >=? 0);
  let! x := get_file f in
  set_file f {| file_inode := file_inode x; pos := new_pos; deny_write := deny_write x |}.
Definition file_tell (f : Z) : M fs Z := let! x := get_file f in ret (pos x).

(** ** free-map.c: starting up *)

Definition free_map_init (dev_size : Z) (b_ok : bool) (words : option (list Z)) : M fs unit :=
  match bitmap_create dev_size b_ok words with
  | Ok (Some b) =>
      do! modify (with_map b);
      do! on_map (bitmap_mark FREE_MAP_SECTOR);
      on_map (bitmap_mark ROOT_DIR_SECTOR)
  | Ok None => fail KernelPanic
  | Err f => fail f
  end.

Definition open_map_file : M fs unit :=
  let! i := inode_open FREE_MAP_SECTOR in
  let! f := file_open i in
  do! modify (with_map_file f);
  match f with None => fail KernelPanic | Some _ => ret tt end.

(** [bitmap_read (free_map, free_map_file)] *)
Definition bitmap_read (f : Z) : M fs bool :=
  let! b := gets free_map in
  if bit_cnt b >? 0 then
    let size := byte_cnt (bit_cnt b) in
    let! bs := file_read_at f size 0 in
    let ws := to_words (Z.to_nat (elem_cnt (bit_cnt b)))
                (bs ++ drop (List.length bs) (of_words (bits b))) in
    let last := (Z.to_nat (elem_cnt (bit_cnt b)) - 1)%nat in
    do! modify (with_map {| bit_cnt := bit_cnt b;
                            bits := alter (fun w => Z.land w (last_mask b)) last ws |});
    ret (Z.of_nat (List.length bs) =? size)
  else ret true.

Definition free_map_open : M fs unit :=
  do! open_map_file;
  let! f := gets free_map_file in
  match f with
  | None => fail KernelPanic
  | Some f =>
      let! ok := bitmap_read f in
      if ok : bool then ret tt else fail KernelPanic
  end.
Definition free_map_close : M fs unit :=
  let! f := gets free_map_file in file_close f.
Definition free_map_create : M fs unit :=
  let! size := gets (fun s => byte_cnt (bit_cnt (free_map s))) in
  let! ok := inode_create (inode_write_at_depth 1) FREE_MAP_SECTOR size in
  if negb ok then fail KernelPanic else
  do! open_map_file;
  let! ok := bitmap_write inode_write_at in
  if ok : bool then ret tt else fail KernelPanic.

End inode.

End Inode.
