(* ===== verification/InodeFacts.v ===== *)
(** * filesys/inode.c: reading and writing the contents of a file

    [block v di i] is the sector of the [i]-th block of a file, found through the
    direct entries and the indirect tables, as a function of the contents [v] of
    the sectors; [fbyte v di k] is the [k]-th byte.  Reading returns these bytes;
    writing inside the file sets them. *)

From S2P Require Import Prelude Bytes Block Bitmap BufferFacts Inode.
Import Bytes Block Bitmap BufferFacts Inode.

Module InodeFacts.

(** ** Block maps *)

Section pure.
Implicit Types (v : Z -> list Z) (di : inode_disk) (i k : Z).

Definition word (ws : list Z) i : Z := nth (Z.to_nat i) ws 0.
Definition table v (sec : Z) : list Z := to_words 128 (v sec).

(** The tables consulted for block [i]. *)
Definition path v di i : list Z :=
  if i <? DIR_LEN then []
  else if i <? DIR_LEN + TABLE then [word (single_indir di) 0]
  else if i <? DIR_LEN + 2 * TABLE then [word (single_indir di) 1]
  else [double_indir di; word (table v (double_indir di)) ((i - (DIR_LEN + 2 * TABLE)) / TABLE)].

Definition block v di i : Z :=
  if i <? DIR_LEN then word (dir di) i
  else if i <? DIR_LEN + TABLE then word (table v (word (single_indir di) 0)) (i - DIR_LEN)
  else if i <? DIR_LEN + 2 * TABLE then
    word (table v (word (single_indir di) 1)) (i - DIR_LEN - TABLE)
  else
    let j := i - (DIR_LEN + 2 * TABLE) in
    word (table v (word (table v (double_indir di)) (j / TABLE))) (j mod TABLE).

Definition fbyte v di k : Z := nth (Z.to_nat (k mod 512)) (v (block v di (k / 512))) 0.

(** The bytes [ofs, ofs + n) of the file. *)
Definition contents v di (ofs n : Z) : list Z := map (fbyte v di) (seqZ ofs n).

(** The number of blocks an inode can have. *)
Definition MAX_BLOCKS : Z := DIR_LEN + 2 * TABLE + TABLE * TABLE.

(** The first [n] blocks and the tables that lead to them are sectors of a device of
    [size] sectors; different blocks are different sectors, none of them a table. *)
Record maps v (size : Z) di (n : Z) : Prop := {
  m_dir : List.length (dir di) = 123%nat;
  m_single : List.length (single_indir di) = 2%nat;
  m_max : n <= MAX_BLOCKS;
  m_path : forall i, 0 <= i < n -> Forall (fun t => 0 <= t < size) (path v di i);
  m_block : forall i, 0 <= i < n -> 0 <= block v di i < size;
  m_inj : forall i j, 0 <= i < n -> 0 <= j < n -> block v di i = block v di j -> i = j;
  m_sep : forall i j, 0 <= i < n -> 0 <= j < n -> block v di i ∉ path v di j }.

(** The map depends on the tables only. *)
Lemma block_path_ext v v' di i : (forall t, t ∈ path v di i -> v' t = v t) -> path v' di i = path v di i.
Proof.
  unfold path. destruct (i <? DIR_LEN); [done|]. destruct (i <? DIR_LEN + TABLE); [done|].
  destruct (i <? DIR_LEN + 2 * TABLE); [done|]. intros E. unfold table.
  rewrite (E (double_indir di)); [done|apply list_elem_of_here].
Qed.

Lemma block_ext v v' di i : (forall t, t ∈ path v di i -> v' t = v t) -> block v' di i = block v di i.
Proof.
  unfold path, block. destruct (i <? DIR_LEN); [done|]. unfold table.
  destruct (i <? DIR_LEN + TABLE); [intros E; rewrite E; [done|apply list_elem_of_here]|].
  destruct (i <? DIR_LEN + 2 * TABLE); [intros E; rewrite E; [done|apply list_elem_of_here]|].
  intros E. rewrite (E (double_indir di)) by apply list_elem_of_here.
  rewrite E; [done|]. in_list.
Qed.

Lemma maps_ext v v' size di n :
  maps v size di n -> (forall i t, 0 <= i < n -> t ∈ path v di i -> v' t = v t) ->
  maps v' size di n /\ (forall i, 0 <= i < n -> block v' di i = block v di i) /\
  (forall i, 0 <= i < n -> path v' di i = path v di i).
Proof.
  intros [H1 H2 H3 H4 H5 H6 H7] E.
  assert (forall i, 0 <= i < n -> block v' di i = block v di i) as Eb
    by (intros i Hi; apply block_ext; eauto).
  assert (forall i, 0 <= i < n -> path v' di i = path v di i) as Ep
    by (intros i Hi; apply block_path_ext; eauto).
  split; [|done]. split; try done.
  - intros i Hi. rewrite Ep by done. eauto.
  - intros i Hi. rewrite Eb by done. eauto.
  - intros i j Hi Hj. rewrite !Eb by done. eauto.
  - intros i j Hi Hj. rewrite Eb, Ep by done. eauto.
Qed.

Lemma contents_length v di ofs n : List.length (contents v di ofs n) = Z.to_nat n.
Proof. unfold contents. by rewrite length_map, length_seqZ. Qed.

Lemma contents_app v di ofs a b :
  0 <= a -> 0 <= b -> contents v di ofs (a + b) = contents v di ofs a ++ contents v di (ofs + a) b.
Proof. intros. unfold contents. by rewrite seqZ_app, map_app by lia. Qed.

(** Bytes that lie in one sector. *)
Lemma contents_sector v di ofs n :
  0 <= ofs -> 0 <= n -> ofs mod 512 + n <= 512 ->
  List.length (v (block v di (ofs / 512))) = 512%nat ->
  contents v di ofs n = sub_bytes (ofs mod 512) n (v (block v di (ofs / 512))).
Proof.
  intros Ho Hn Hs Hl. pose proof (Z.mod_pos_bound ofs 512). apply list_eq_same_length with (n := Z.to_nat n).
  - rewrite sub_bytes_length; lia.
  - apply contents_length.
  - intros i x y Hi Hx Hy. unfold contents in Hx. rewrite list_lookup_fmap, lookup_seqZ_lt in Hx by lia.
    injection Hx as <-. rewrite sub_bytes_lookup in Hy by lia. unfold fbyte.
    assert (ofs + Z.of_nat i = ofs / 512 * 512 + (ofs mod 512 + Z.of_nat i)) as E
      by (pose proof (Z.div_mod ofs 512); lia).
    assert ((ofs + Z.of_nat i) / 512 = ofs / 512) as ->.
    { rewrite E, Z.div_add_l, (Z.div_small (ofs mod 512 + _)) by lia. lia. }
    assert ((ofs + Z.of_nat i) mod 512 = ofs mod 512 + Z.of_nat i) as ->.
    { rewrite E, Z.add_comm, Z.mod_add, Z.mod_small by lia. done. }
    apply nth_lookup_Some with (d := 0) in Hy. rewrite <- Hy. f_equal. lia.
Qed.
End pure.

(** ** The on-disk inode *)

Record disk_wf (di : inode_disk) : Prop := {
  dw_len : - 2 ^ 31 <= length di < 2 ^ 31;
  dw_magic : is_word (magic di);
  dw_dir : List.length (dir di) = 123%nat /\ Forall is_word (dir di);
  dw_single : List.length (single_indir di) = 2%nat /\ Forall is_word (single_indir di);
  dw_double : is_word (double_indir di) }.

Lemma encode_length di : disk_wf di -> List.length (encode di) = 512%nat.
Proof.
  intros [_ _ [H1 _] [H2 _] _]. unfold encode. rewrite of_words_length. cbn [List.length].
  rewrite !length_app, H1, H2. done.
Qed.
Lemma encode_bytes di : Forall is_byte (encode di).
Proof. apply of_words_bytes. Qed.

Lemma decode_encode di : disk_wf di -> decode (encode di) = di.
Proof.
  intros [Hl Hm [Hd Fd] [Hs Fs] Hdb]. unfold decode, encode.
  set (ws := u32 (length di) :: magic di :: dir di ++ single_indir di ++ [double_indir di]).
  assert (List.length ws = 128%nat) as Hlen.
  { unfold ws. cbn [List.length]. by rewrite !length_app, Hd, Hs. }
  assert (Forall is_word ws) as Hw.
  { constructor; [apply wrapu_range; lia|]. constructor; [done|].
    rewrite !Forall_app. repeat split; try done. by constructor. }
  rewrite <- (app_nil_r (of_words ws)), <- Hlen, to_of_words by done. unfold ws.
  destruct di as [len mg d sg db]. cbn [Inode.length magic dir single_indir double_indir] in *.
  change (nth 0 (u32 len :: mg :: d ++ sg ++ [db]) 0) with (u32 len).
  change (nth 1 (u32 len :: mg :: d ++ sg ++ [db]) 0) with mg.
  change (drop 2 (u32 len :: mg :: d ++ sg ++ [db])) with (d ++ sg ++ [db]).
  change (drop 125 (u32 len :: mg :: d ++ sg ++ [db])) with (drop 123 (d ++ sg ++ [db])).
  change (nth 127 (u32 len :: mg :: d ++ sg ++ [db]) 0) with (nth 125 (d ++ sg ++ [db]) 0).
  rewrite take_app_length', drop_app_length' by (by rewrite Hd).
  rewrite take_app_length' by (by rewrite Hs). f_equal.
  - unfold wraps, wrapu. rewrite Zplus_mod_idemp_l. change (32 - 1) with 31.
    rewrite Z.mod_small by lia. lia.
  - by rewrite nth_lookup, lookup_app_r, lookup_app_r, Hd, Hs by lia.
Qed.

(** An inode in memory with another on-disk part. *)
Definition with_data (i : inode) (di : inode_disk) : inode :=
  {| sector := sector i; open_cnt := open_cnt i; removed := removed i;
     deny_write_cnt := deny_write_cnt i; data := di |}.

Section run.
Context {S : Type} `{HS : SectorStoreLaws S}.
Notation fs := (fs S).
Implicit Types s : fs.

Definition fview s : Z -> list Z := st_view (store s).
Definition fsize s : Z := st_size (store s).

(** [s'] is [s] with the contents of the sectors changed to [v']. *)
Definition stores s s' (v' : Z -> list Z) : Prop :=
  exists x, s' = with_store x s /\ st_inv x /\ st_size x = fsize s /\ forall sec, st_view x sec = v' sec.

Lemma stores_refl s : st_inv (store s) -> stores s s (fview s).
Proof. intros Hi. exists (store s). split; [by destruct s|done]. Qed.

Lemma stores_ext s s' v v' : (forall sec, v sec = v' sec) -> stores s s' v -> stores s s' v'.
Proof. intros E (x & -> & ? & ? & Hv). exists x. split_and!; try done. intros sec. by rewrite Hv. Qed.

Lemma stores_trans s s1 s2 v1 v2 : stores s s1 v1 -> stores s1 s2 v2 -> stores s s2 v2.
Proof.
  intros (x & -> & I1 & S1 & V1) (y & -> & I2 & S2 & V2). exists y. split; [by destruct s|].
  split; [done|]. split; [|done]. rewrite S2. done.
Qed.

Lemma stores_view s s' v sec : stores s s' v -> fview s' sec = v sec.
Proof. intros (x & -> & _ & _ & Hv). apply Hv. Qed.
Lemma stores_inv s s' v : stores s s' v -> st_inv (store s').
Proof. by intros (x & -> & ? & _). Qed.
Lemma stores_size s s' v : stores s s' v -> fsize s' = fsize s.
Proof. intros (x & -> & _ & Hs & _). done. Qed.
Lemma stores_inodes s s' v : stores s s' v -> inodes s' = inodes s.
Proof. by intros (x & -> & _). Qed.

Lemma fview_wf s sec : st_inv (store s) ->
  List.length (fview s sec) = 512%nat /\ Forall is_byte (fview s sec).
Proof. apply st_view_wf. Qed.

Lemma get_inode_run s p i : inodes s !! p = Some i -> get_inode p s = Ok (i, s).
Proof. intros E. unfold get_inode. by rewrite E. Qed.

Lemma buf_read_run s sec ofs n :
  st_inv (store s) -> 0 <= sec < fsize s -> 0 <= ofs -> 0 <= n -> ofs + n <= 512 ->
  exists s', buf_read sec ofs n s = Ok (sub_bytes ofs n (fview s sec), s') /\ stores s s' (fview s).
Proof.
  intros Hi Hs Ho Hn Hon. destruct (st_read_ok (store s) sec ofs n) as (x & R & I & Sz & V); [done..|].
  exists (with_store x s). unfold buf_read, on_store. rewrite R. split; [done|]. exists x. done.
Qed.

(** The contents after [data] is written at [ofs] of sector [sec], the rest of the
    sector being [base]. *)
Definition put (v : Z -> list Z) (sec ofs : Z) (data base : list Z) : Z -> list Z :=
  fun sec' => if sec' =? sec then splice ofs data base else v sec'.

Lemma buf_write_run s sec data ofs :
  st_inv (store s) -> 0 <= sec < fsize s -> 0 <= ofs -> ofs + Z.of_nat (List.length data) <= 512 ->
  Forall is_byte data ->
  exists s' base, buf_write sec data ofs s = Ok (tt, s') /\ List.length base = 512%nat /\
    stores s s' (put (fview s) sec ofs data base).
Proof.
  intros Hi Hs Ho Hn Hb.
  destruct (st_write_ok (store s) sec data ofs) as (x & base & R & I & Sz & L & V); [done..|].
  exists (with_store x s), base. unfold buf_write, on_store. rewrite R. split; [done|]. split; [done|].
  exists x. done.
Qed.

(** Writing a whole sector. *)
Lemma buf_write_all s sec data :
  st_inv (store s) -> 0 <= sec < fsize s -> List.length data = 512%nat -> Forall is_byte data ->
  exists s', buf_write sec data 0 s = Ok (tt, s') /\
    stores s s' (fun sec' => if sec' =? sec then data else fview s sec').
Proof.
  intros Hi Hs Hl Hb. destruct (buf_write_run s sec data 0) as (s' & base & R & L & W); [done..|lia|lia|done|].
  exists s'. split; [done|]. eapply stores_ext; [|exact W]. intros sec'. unfold put.
  by rewrite splice_all by congruence.
Qed.

Lemma entry_run s ws i : 0 <= i < Z.of_nat (List.length ws) -> entry ws i s = Ok (word ws i, s).
Proof.
  intros Hi. unfold entry, word. rewrite (proj2 (Z.leb_le 0 i)) by lia.
  destruct (lookup_lt_is_Some_2 ws (Z.to_nat i)) as [w Hw]; [lia|].
  rewrite Hw. by rewrite (nth_lookup_Some _ _ _ _ Hw).
Qed.

Lemma read_table_run s sec :
  st_inv (store s) -> 0 <= sec < fsize s ->
  exists s', read_table sec s = Ok (table (fview s) sec, s') /\ stores s s' (fview s).
Proof.
  intros Hi Hs. destruct (buf_read_run s sec 0 512) as (s' & R & W); [done..|lia|lia|lia|].
  exists s'. unfold read_table. erewrite bind_eq; [|exact R]. split; [|done].
  unfold table. rewrite sub_bytes_all; [done|]. by rewrite (proj1 (fview_wf s sec Hi)).
Qed.

(** ** Finding the sector of a byte *)

Lemma byte_to_sector_run s p i ofs len n :
  st_inv (store s) -> inodes s !! p = Some i -> maps (fview s) (fsize s) (data i) n ->
  0 <= ofs < len -> ofs / 512 < n ->
  exists s', byte_to_sector_helper p ofs len s = Ok (block (fview s) (data i) (ofs / 512), s') /\
    stores s s' (fview s).
Proof.
  intros Hi Hp Hm Ho Hn. assert (0 <= ofs / 512) by (apply Z.div_pos; lia).
  pose proof (m_path _ _ _ _ Hm (ofs / 512) ltac:(lia)) as Hpa. pose proof (m_max _ _ _ _ Hm) as Hmax.
  unfold byte_to_sector_helper. erewrite bind_eq; [|by apply get_inode_run].
  rewrite (proj2 (Z.ltb_lt ofs len)) by lia. rewrite Z.quot_div_nonneg by lia.
  set (b := ofs / 512) in *. unfold block, path in *.
  pose proof (m_single _ _ _ _ Hm) as Hsl. pose proof (m_dir _ _ _ _ Hm) as Hdl.
  unfold MAX_BLOCKS, DIR_LEN, TABLE in *.
  destruct (Z.ltb_spec b 123).
  { rewrite entry_run by lia. exists s. split; [done|by apply stores_refl]. }
  destruct (Z.ltb_spec b (123 + 128)).
  { erewrite bind_eq; [|apply entry_run; lia].
    destruct (read_table_run s (word (single_indir (data i)) 0)) as (s1 & R & W); [done|by inversion_clear Hpa|].
    erewrite bind_eq; [|exact R]. rewrite entry_run by (unfold table; rewrite to_words_length; lia). eauto. }
  destruct (Z.ltb_spec b (123 + 2 * 128)).
  { erewrite bind_eq; [|apply entry_run; lia].
    destruct (read_table_run s (word (single_indir (data i)) 1)) as (s1 & R & W); [done|by inversion_clear Hpa|].
    erewrite bind_eq; [|exact R]. rewrite entry_run by (unfold table; rewrite to_words_length; lia). eauto. }
  inversion_clear Hpa as [|?? Ht1 Hpa']. inversion_clear Hpa' as [|?? Ht2 _].
  destruct (read_table_run s (double_indir (data i))) as (s1 & R1 & W1); [done..|].
  erewrite bind_eq; [|exact R1]. rewrite Z.quot_div_nonneg, Z.rem_mod_nonneg by lia.
  assert (0 <= (b - (123 + 2 * 128)) / 128 < 128) by (split; [apply Z.div_pos; lia|apply Z.div_lt_upper_bound; lia]).
  pose proof (Z.mod_pos_bound (b - (123 + 2 * 128)) 128).
  erewrite bind_eq; [|apply entry_run; unfold table; rewrite to_words_length; lia].
  destruct (read_table_run s1 (word (table (fview s) (double_indir (data i))) ((b - (123 + 2 * 128)) / 128)))
    as (s2 & R2 & W2); [by eapply stores_inv|by rewrite (stores_size _ _ _ W1)|].
  erewrite bind_eq; [|exact R2]. rewrite entry_run by (unfold table; rewrite to_words_length; lia).
  exists s2. split.
  - unfold table at 1. rewrite (stores_view _ _ _ _ W1). done.
  - eapply stores_trans; [exact W1|]. eapply stores_ext; [|exact W2]. intros sec. by apply (stores_view s).
Qed.

Lemma inode_length_run s p i : inodes s !! p = Some i -> inode_length p s = Ok (length (data i), s).
Proof. intros E. unfold inode_length. erewrite bind_eq; [|by apply get_inode_run]. done. Qed.

(** ** Reading *)

(** The size of the next chunk. *)
Lemma chunk_spec size ofs len :
  0 < size -> 0 <= ofs -> 
  let sector_left := 512 - ofs mod 512 in
  let min_left := if len - ofs <? sector_left then len - ofs else sector_left in
  let chunk := if size <? min_left then size else min_left in
  (chunk <= 0 <-> len <= ofs) /\ chunk <= size /\ ofs mod 512 + chunk <= 512 /\
  (ofs < len -> chunk <= len - ofs) /\ (chunk < size -> ofs + size <= len -> ofs mod 512 + chunk = 512).
Proof.
  intros Hs Ho. pose proof (Z.mod_pos_bound ofs 512). simpl.
  destruct (Z.ltb_spec (len - ofs) (512 - ofs mod 512)); [destruct (Z.ltb_spec size (len - ofs))|
    destruct (Z.ltb_spec size (512 - ofs mod 512))]; lia.
Qed.

Lemma read_loop_run fuel : forall s p i len n size ofs acc,
  st_inv (store s) -> inodes s !! p = Some i -> length (data i) = len ->
  maps (fview s) (fsize s) (data i) n -> 0 <= ofs -> (len - 1) / 512 < n ->
  (Z.to_nat size < fuel)%nat ->
  exists s', read_loop fuel p len size ofs acc s =
      Ok (acc ++ contents (fview s) (data i) ofs (Z.max 0 (Z.min size (len - ofs))), s') /\
    stores s s' (fview s).
Proof.
  induction fuel as [|fuel IH]; intros s p i len n size ofs acc Hi Hp Hlen Hm Ho Hn Hf; [lia|].
  cbn [read_loop]. destruct (Z.gtb_spec size 0) as [Hs|Hs].
  2: { rewrite Z.max_l by lia. exists s. unfold contents. rewrite seqZ_nil by lia. simpl.
       rewrite app_nil_r. split; [done|by apply stores_refl]. }
  destruct (chunk_spec size ofs len Hs Ho) as (C1 & C2 & C3 & C4 & _).
  unfold byte_to_sector. rewrite Z.rem_mod_nonneg by lia.
  destruct (Z_lt_dec ofs len) as [Hol|Hol].
  - assert (ofs / 512 <= (len - 1) / 512) by (apply Z.div_le_mono; lia).
    destruct (byte_to_sector_run s p i ofs len n) as (s1 & R1 & W1); [done..|lia|lia|].
    erewrite bind_eq; [|erewrite bind_eq; [|by apply inode_length_run]; rewrite Hlen; exact R1].
    set (chunk := if size <? _ then size else _) in *.
    rewrite (proj2 (Z.leb_gt chunk 0)) by lia. assert (0 <= ofs / 512) by (apply Z.div_pos; lia).
    destruct (buf_read_run s1 (block (fview s) (data i) (ofs / 512)) (ofs mod 512) chunk) as (s2 & R2 & W2).
    { by eapply stores_inv. }
    { rewrite (stores_size _ _ _ W1). apply (m_block _ _ _ _ Hm). lia. }
    { apply Z.mod_pos_bound. lia. } { lia. } { lia. }
    erewrite bind_eq; [|exact R2].
    assert (stores s s2 (fview s)) as W.
    { eapply stores_trans; [exact W1|]. eapply stores_ext; [|exact W2]. intros sec. by apply (stores_view s). }
    rewrite (stores_view _ _ _ _ W1), <- contents_sector;
      [|lia|lia|lia|apply fview_wf; done].
    destruct (maps_ext (fview s) (fview s2) (fsize s) (data i) n Hm) as (Hm2 & Hb2 & _).
    { intros. by apply (stores_view s). }
    destruct (IH s2 p i len n (size - chunk) (ofs + chunk)
                (acc ++ contents (fview s) (data i) ofs chunk)) as (s3 & R3 & W3).
    { by eapply stores_inv. } { by rewrite (stores_inodes _ _ _ W). } { done. }
    { by rewrite (stores_size _ _ _ W). } { lia. } { done. } { lia. }
    exists s3. split.
    + rewrite R3, <- app_assoc. do 3 f_equal.
      replace (Z.max 0 (Z.min size (len - ofs))) with
        (chunk + Z.max 0 (Z.min (size - chunk) (len - (ofs + chunk)))) by lia.
      rewrite contents_app by lia. apply (f_equal2 app); [done|]. unfold contents.
      apply map_ext_in. intros k Hk%list_elem_of_In%elem_of_seqZ. unfold fbyte.
      assert (0 <= k / 512 < n). { split; [apply Z.div_pos; lia|].
        enough (k / 512 <= (len - 1) / 512) by lia. apply Z.div_le_mono; lia. }
      rewrite Hb2 by done. by rewrite (stores_view _ _ _ _ W).
    + eapply stores_trans; [exact W|]. eapply stores_ext; [|exact W3]. intros sec. by apply (stores_view s).
  - unfold byte_to_sector_helper. erewrite bind_eq; [|erewrite bind_eq; [|by apply inode_length_run];
      erewrite bind_eq; [|by apply get_inode_run]; rewrite Hlen, (proj2 (Z.ltb_ge ofs len)) by lia; done].
    set (chunk := if size <? _ then size else _) in *.
    rewrite (proj2 (Z.leb_le chunk 0)) by lia. rewrite Z.max_l by lia.
    exists s. unfold contents. rewrite seqZ_nil by lia. simpl. rewrite app_nil_r.
    split; [done|by apply stores_refl].
Qed.

Lemma inode_read_at_run s p i n size ofs :
  st_inv (store s) -> inodes s !! p = Some i -> maps (fview s) (fsize s) (data i) n ->
  0 <= ofs -> (length (data i) - 1) / 512 < n ->
  exists s', inode_read_at p size ofs s =
      Ok (contents (fview s) (data i) ofs (Z.max 0 (Z.min size (length (data i) - ofs))), s') /\
    stores s s' (fview s).
Proof.
  intros Hi Hp Hm Ho Hn. unfold inode_read_at. erewrite bind_eq; [|by apply inode_length_run].
  by apply (read_loop_run _ s p i _ n size ofs []); [..|lia].
Qed.

(** ** Writing inside the file *)

(** The sectors the bytes [ofs, ofs + n) lie in. *)
Definition touched v di (ofs n x : Z) : Prop := exists k, ofs <= k < ofs + n /\ x = block v di (k / 512).

(** [v'] has [buf] at [ofs] of the file, and differs from [v] in its sectors only. *)
Definition written v v' di (ofs : Z) (buf : list Z) : Prop :=
  contents v' di ofs (Z.of_nat (List.length buf)) = buf /\
  forall x, ~ touched v di ofs (Z.of_nat (List.length buf)) x -> v' x = v x.

Lemma maps_written v v' size di n ofs (buf : list Z) :
  maps v size di n -> 0 <= ofs -> (ofs + Z.of_nat (List.length buf) - 1) / 512 < n ->
  (forall x, ~ touched v di ofs (Z.of_nat (List.length buf)) x -> v' x = v x) ->
  maps v' size di n /\ (forall i, 0 <= i < n -> block v' di i = block v di i) /\
  (forall i, 0 <= i < n -> path v' di i = path v di i).
Proof.
  intros Hm Ho Hn Hv. apply maps_ext; [done|]. intros i t Hi Ht. apply Hv.
  intros (k & Hk & ->). eapply (m_sep _ _ _ _ Hm (k / 512) i); [|done|done].
  split; [apply Z.div_pos; lia|]. enough (k / 512 <= (ofs + Z.of_nat (List.length buf) - 1) / 512) by lia.
  apply Z.div_le_mono; lia.
Qed.

Lemma written_ext v1 v2 v' di ofs (buf : list Z) :
  (forall x, v1 x = v2 x) -> written v1 v' di ofs buf -> written v2 v' di ofs buf.
Proof.
  intros E [Hc Hv]. split; [done|]. intros x Hx. rewrite <- E. apply Hv. intros (k & Hk & ->).
  apply Hx. exists k. split; [done|]. apply block_ext. auto.
Qed.

Lemma div_next ofs chunk : 0 <= ofs -> ofs mod 512 + chunk = 512 -> forall k, ofs + chunk <= k -> ofs / 512 < k / 512.
Proof.
  intros Ho Hc k Hk. enough ((ofs + chunk) / 512 <= k / 512 /\ (ofs + chunk) / 512 = ofs / 512 + 1) by lia.
  split; [by apply Z.div_le_mono|]. pose proof (Z.div_mod ofs 512).
  replace (ofs + chunk) with ((ofs / 512 + 1) * 512) by lia. apply Z.div_mul. lia.
Qed.

Lemma maps_put v size di n j ofs d base :
  maps v size di n -> 0 <= j < n ->
  maps (put v (block v di j) ofs d base) size di n /\
  (forall i, 0 <= i < n -> block (put v (block v di j) ofs d base) di i = block v di i).
Proof.
  intros Hm Hj. destruct (maps_ext v (put v (block v di j) ofs d base) size di n Hm) as (H1 & H2 & _).
  - intros i t Hi Ht. unfold put. destruct (Z.eqb_spec t (block v di j)) as [->|]; [|done].
    by apply (m_sep _ _ _ _ Hm j i) in Ht.
  - done.
Qed.

(** A chunk [d1] that ends a sector, or the write, followed by the rest [d2]. *)
Lemma written_chunk v v' size di n ofs (d1 d2 base : list Z) :
  let n1 := Z.of_nat (List.length d1) in
  let n2 := Z.of_nat (List.length d2) in
  maps v size di n -> 0 <= ofs -> 0 < n1 -> (ofs + n1 + n2 - 1) / 512 < n ->
  ofs mod 512 + n1 <= 512 -> (0 < n2 -> ofs mod 512 + n1 = 512) -> List.length base = 512%nat ->
  written (put v (block v di (ofs / 512)) (ofs mod 512) d1 base) v' di (ofs + n1) d2 ->
  written v v' di ofs (d1 ++ d2).
Proof.
  intros n1 n2 Hm Ho Hn1 Hn Hs Hfull Hbase [Hc Hv]. fold n2 in Hc, Hv.
  set (blk := block v di (ofs / 512)) in *. set (v2 := put v blk (ofs mod 512) d1 base) in *.
  pose proof (Z.mod_pos_bound ofs 512).
  assert (forall k, ofs <= k < ofs + n1 + n2 -> 0 <= k / 512 < n) as Hk.
  { intros k Hk. split; [apply Z.div_pos; lia|].
    enough (k / 512 <= (ofs + n1 + n2 - 1) / 512) by lia. apply Z.div_le_mono; lia. }
  destruct (maps_put v size di n (ofs / 512) (ofs mod 512) d1 base Hm) as (Hm2 & Hb2); [apply Hk; lia|].
  fold blk v2 in Hm2, Hb2.
  assert (v' blk = splice (ofs mod 512) d1 base) as Hblk.
  { rewrite Hv; [unfold v2, put; by rewrite Z.eqb_refl|].
    intros (k & Hk1 & Hk2). rewrite Hb2 in Hk2 by (apply Hk; lia).
    apply (m_inj _ _ _ _ Hm) in Hk2; [|apply Hk; lia..].
    pose proof (div_next ofs n1 Ho (Hfull ltac:(lia)) k ltac:(lia)). lia. }
  assert (block v' di (ofs / 512) = blk) as Eb.
  { unfold blk. rewrite <- (Hb2 (ofs / 512)) by (apply Hk; lia). apply block_ext. intros t Ht. apply Hv.
    intros (k & Hk1 & ->).
    apply (m_sep _ _ _ _ Hm2 (k / 512) (ofs / 512)); [apply Hk; lia..|done]. }
  unfold written. rewrite length_app, Nat2Z.inj_add. fold n1 n2. split.
  - rewrite contents_app, Hc by lia. f_equal.
    rewrite contents_sector; rewrite ?Eb, ?Hblk; [|lia|lia|lia|rewrite splice_length by lia; lia].
    apply sub_splice; lia.
  - intros x Hx. rewrite Hv.
    + unfold v2, put. destruct (Z.eqb_spec x blk) as [E|]; [|done].
      destruct Hx. exists ofs. split; [lia|exact E].
    + intros (k & Hk1 & ->). apply Hx. exists k. split; [lia|]. apply Hb2, Hk. lia.
Qed.

Lemma write_loop_run fuel : forall s p i n newLen (buf : list Z) ofs w,
  st_inv (store s) -> inodes s !! p = Some i -> maps (fview s) (fsize s) (data i) n ->
  0 <= ofs -> ofs + Z.of_nat (List.length buf) <= newLen -> (newLen - 1) / 512 < n ->
  Forall is_byte buf -> (List.length buf < fuel)%nat ->
  exists s' v', write_loop fuel p newLen buf ofs w s = Ok (w + Z.of_nat (List.length buf), s') /\
    stores s s' v' /\ written (fview s) v' (data i) ofs buf.
Proof.
  induction fuel as [|fuel IH]; intros s p i n newLen buf ofs w Hi Hp Hm Ho Hlen Hn Hb Hf; [lia|].
  cbn [write_loop]. set (size := Z.of_nat (List.length buf)) in *.
  destruct (Z.gtb_spec size 0) as [Hs|Hs].
  2: { exists s, (fview s). assert (buf = []) as -> by (destruct buf; [done|simpl in *; lia]).
       split; [by rewrite Z.add_0_r|]. split; [by apply stores_refl|done]. }
  destruct (chunk_spec size ofs newLen Hs Ho) as (C1 & C2 & C3 & C4 & C5).
  rewrite Z.rem_mod_nonneg by lia. assert (0 <= ofs / 512) by (apply Z.div_pos; lia).
  assert (ofs / 512 <= (newLen - 1) / 512) by (apply Z.div_le_mono; lia).
  destruct (byte_to_sector_run s p i ofs newLen n) as (s1 & R1 & W1); [done..|lia|lia|].
  erewrite bind_eq; [|exact R1].
  set (chunk := if size <? _ then size else _) in *. clearbody chunk.
  rewrite (proj2 (Z.leb_gt chunk 0)) by lia.
  set (blk := block (fview s) (data i) (ofs / 512)) in *. set (d1 := take (Z.to_nat chunk) buf).
  assert (Z.of_nat (List.length d1) = chunk) as Hd1 by (unfold d1; rewrite length_take; lia).
  pose proof (Z.mod_pos_bound ofs 512).
  destruct (buf_write_run s1 blk d1 (ofs mod 512)) as (s2 & base & R2 & L2 & W2).
  { by eapply stores_inv. } { rewrite (stores_size _ _ _ W1). apply (m_block _ _ _ _ Hm). lia. }
  { lia. } { lia. } { by apply Forall_take. }
  erewrite bind_eq; [|exact R2].
  assert (stores s s2 (put (fview s) blk (ofs mod 512) d1 base)) as W.
  { eapply stores_trans; [exact W1|]. eapply stores_ext; [|exact W2]. intros sec. unfold put.
    destruct (sec =? blk); [done|]. by apply (stores_view s). }
  destruct (maps_put (fview s) (fsize s) (data i) n (ofs / 512) (ofs mod 512) d1 base Hm) as [Hm2 _]; [lia|].
  destruct (maps_ext _ (fview s2) _ _ _ Hm2) as (Hm3 & _); [intros; by apply (stores_view s)|].
  set (d2 := drop (Z.to_nat chunk) buf).
  assert (Z.of_nat (List.length d2) = size - chunk) as Hd2 by (unfold d2; rewrite length_drop; lia).
  destruct (IH s2 p i n newLen d2 (ofs + chunk) (w + chunk)) as (s3 & v' & R3 & W3 & Hw3).
  { by eapply stores_inv. } { by rewrite (stores_inodes _ _ _ W). } { by rewrite (stores_size _ _ _ W). }
  { lia. } { lia. } { done. } { by apply Forall_drop. } { lia. }
  exists s3, v'. split; [rewrite R3; do 2 f_equal; lia|]. split; [by eapply stores_trans|].
  rewrite <- (take_drop (Z.to_nat chunk) buf). fold d1 d2.
  eapply (written_chunk _ _ (fsize s) _ n); rewrite ?Hd1, ?Hd2; try done; try lia.
  - enough ((ofs + chunk + (size - chunk) - 1) / 512 <= (newLen - 1) / 512) by lia. apply Z.div_le_mono; lia.
  - eapply written_ext; [|exact Hw3]. intros x. by apply (stores_view s).
Qed.

(** ** Writing inside the file, with the inode *)

(** The inode's own sector is apart from the sectors of its contents. *)
Definition inode_apart v di (n sec : Z) : Prop :=
  forall j, 0 <= j < n -> sec <> block v di j /\ sec ∉ path v di j.

(** An open inode in good order: its blocks and tables are mapped, its sector apart. *)
Record inode_ok s (i : inode) (n : Z) : Prop := {
  io_maps : maps (fview s) (fsize s) (data i) n;
  io_disk : disk_wf (data i);
  io_len : 0 <= length (data i) <= MAX_LEN;
  io_blocks : (length (data i) - 1) / 512 < n;
  io_sector : 0 <= sector i < fsize s;
  io_apart : inode_apart (fview s) (data i) n (sector i) }.

Lemma set_data_same s p i : inodes s !! p = Some i -> set_data p (data i) s = Ok (tt, s).
Proof.
  intros Hp. unfold set_data. erewrite bind_eq; [|by apply get_inode_run].
  unfold set_inode, modify. do 2 f_equal. unfold with_inodes. destruct i. cbn [data sector open_cnt removed deny_write_cnt] in *.
  rewrite insert_id by done. by destruct s.
Qed.

Lemma set_length_same di : set_length di (length di) = di.
Proof. by destruct di. Qed.

(** What [inode_write_at] does once the file has been extended. *)
Definition write_tail (p : Z) (buf : list Z) (ofs newLen : Z) : M fs Z :=
  let! inodeLen := inode_length p in
  let newLen := if inodeLen >? newLen then inodeLen else newLen in
  let! written := write_loop (Datatypes.S (List.length buf)) p newLen buf ofs 0 in
  let! inode := get_inode p in
  let di := set_length (data inode) newLen in
  do! set_data p di;
  do! buf_write (sector inode) (encode di) 0;
  ret written.

(** The contents survive a write to the sector of the inode. *)
Lemma contents_apart v v' di ofs n m sec :
  inode_apart v di n sec -> 0 <= ofs -> (forall k, ofs <= k < ofs + m -> k / 512 < n) ->
  (forall x, x <> sec -> v' x = v x) -> contents v' di ofs m = contents v di ofs m.
Proof.
  intros Hap Ho Hn Hv. apply map_ext_in. intros k Hk%list_elem_of_In%elem_of_seqZ.
  assert (0 <= k / 512 < n) as Hkn by (split; [apply Z.div_pos; lia|apply Hn; lia]).
  destruct (Hap (k / 512) Hkn) as [Hn1 Hn2]. unfold fbyte.
  assert (block v' di (k / 512) = block v di (k / 512)) as ->.
  { apply block_ext. intros t Ht. apply Hv. by intros ->. }
  by rewrite Hv by congruence.
Qed.

Lemma disk_wf_length di L : disk_wf di -> 0 <= L < 2 ^ 31 -> disk_wf (set_length di L).
Proof. intros [H1 H2 H3 H4 H5] HL. split; [cbn; lia|done..]. Qed.

Lemma write_tail_run s p i n (buf : list Z) ofs (size := Z.of_nat (List.length buf))
    (L := Z.max (length (data i)) (size + ofs)) :
  st_inv (store s) -> inodes s !! p = Some i -> inode_ok s i n ->
  0 <= ofs -> (L - 1) / 512 < n -> L < 2 ^ 31 -> Forall is_byte buf ->
  exists s' v', write_tail p buf ofs (size + ofs) s = Ok (size, s') /\
    stores (with_inodes (<[p := with_data i (set_length (data i) L)]> (inodes s)) s) s' v' /\
    v' (sector i) = encode (set_length (data i) L) /\ contents v' (data i) ofs size = buf /\
    (forall x, x <> sector i -> ~ touched (fview s) (data i) ofs size x -> v' x = fview s x).
Proof.
  intros Hi Hp [Hm Hd Hlen Hbl Hsec Hap] Ho HLn HL Hb. unfold write_tail.
  erewrite bind_eq; [|by apply inode_length_run].
  replace (if length (data i) >? size + ofs then length (data i) else size + ofs) with L
    by (unfold L; destruct (Z.gtb_spec (length (data i)) (size + ofs)); lia).
  assert (forall k, ofs <= k < ofs + size -> k / 512 < n) as Hkn.
  { intros k Hk. enough (k / 512 <= (L - 1) / 512) by lia. apply Z.div_le_mono; lia. }
  destruct (write_loop_run (Datatypes.S (List.length buf)) s p i n L buf ofs 0)
    as (s1 & v1 & R1 & W1 & Hc1 & Hv1); [done..|lia|done|done|lia|].
  erewrite bind_eq; [|exact R1]. rewrite Z.add_0_l.
  assert (inodes s1 !! p = Some i) as Hp1 by (by rewrite (stores_inodes _ _ _ W1)).
  erewrite bind_eq; [|by apply get_inode_run].
  set (di := set_length (data i) L). set (s1' := with_inodes (<[p := with_data i di]> (inodes s1)) s1).
  assert (set_data p di s1 = Ok (tt, s1')) as E1
    by (unfold set_data; by erewrite bind_eq; [|by apply get_inode_run]).
  erewrite bind_eq; [|exact E1].
  destruct (buf_write_all s1' (sector i) (encode di)) as (s2 & R2 & W2).
  { exact (stores_inv _ _ _ W1). } { change (0 <= sector i < fsize s1). by rewrite (stores_size _ _ _ W1). }
  { apply encode_length, disk_wf_length; [done|lia]. } { apply encode_bytes. }
  erewrite bind_eq; [|exact R2].
  eexists s2, (fun x => if x =? sector i then encode di else v1 x).
  split; [done|]. split; [|split; [by rewrite Z.eqb_refl|split]].
  - destruct W1 as (x1 & -> & I1 & S1 & V1). destruct W2 as (x2 & -> & I2 & S2 & V2).
    exists x2. split; [done|]. split; [done|]. split; [transitivity (fsize s1'); [exact S2|exact S1]|]. intros sec. rewrite V2.
    destruct (sec =? sector i); [done|apply V1].
  - transitivity (contents v1 (data i) ofs size); [|exact Hc1]. apply (contents_apart _ _ _ _ n _ (sector i)); [|done|exact Hkn|].
    + destruct (maps_written (fview s) v1 (fsize s) (data i) n ofs buf) as (_ & Hb1 & Hp1'); [done..| |done|].
      { destruct (decide (size = 0)); [|apply Hkn; fold size; lia].
        fold size. enough ((ofs + size - 1) / 512 <= (L - 1) / 512) by lia. apply Z.div_le_mono; lia. }
      intros j Hj. rewrite Hb1, Hp1' by done. by apply Hap.
    + intros x Hx. by rewrite (proj2 (Z.eqb_neq _ _) Hx).
  - intros x Hx Ht. rewrite (proj2 (Z.eqb_neq _ _) Hx). by apply Hv1.
Qed.

Lemma write_inside wr s p i n (buf : list Z) ofs :
  st_inv (store s) -> inodes s !! p = Some i -> deny_write_cnt i = 0 -> inode_ok s i n ->
  0 <= ofs -> ofs + Z.of_nat (List.length buf) <= length (data i) -> Forall is_byte buf ->
  exists s' v', write_at_body wr p buf ofs s = Ok (Z.of_nat (List.length buf), s') /\
    stores s s' v' /\ v' (sector i) = encode (data i) /\
    contents v' (data i) ofs (Z.of_nat (List.length buf)) = buf /\
    (forall x, x <> sector i ->
       ~ touched (fview s) (data i) ofs (Z.of_nat (List.length buf)) x -> v' x = fview s x).
Proof.
  intros Hi Hp Hden Hok Ho Hfit Hb. unfold write_at_body. pose proof (io_len _ _ _ Hok) as Hlen.
  erewrite bind_eq; [|by apply get_inode_run]. rewrite Hden. change (negb (0 =? 0)) with false. cbv iota.
  assert (MAX_LEN < 2 ^ 31) by done. set (size := Z.of_nat (List.length buf)) in *.
  rewrite wraps_small by lia. destruct (Z.gtb_spec (size + ofs) MAX_LEN); [lia|].
  assert (inode_extend_length wr p size ofs s = Ok (tt, s)) as Ex.
  { unfold inode_extend_length. rewrite wraps_small by lia.
    erewrite bind_eq; [|by apply inode_length_run]. destruct (Z.ltb_spec (length (data i)) (ofs + size)); [lia|done]. }
  erewrite bind_eq; [|exact Ex].
  destruct (write_tail_run s p i n buf ofs Hi Hp Hok Ho) as (s' & v' & R & W & E1 & E2 & E3).
  { fold size. rewrite Z.max_l by lia. exact (io_blocks _ _ _ Hok). } { fold size. lia. } { done. }
  fold size in R, W, E1, E2, E3. rewrite Z.max_l, set_length_same in * by lia. exists s', v'. split; [exact R|]. split; [|done].
  replace (with_inodes _ s) with s in W; [done|]. unfold with_inodes.
  replace (with_data i (data i)) with i by (by destruct i). rewrite insert_id by done. by destruct s.
Qed.
End run.

End InodeFacts.
