(* ===== verification/InodeAlloc.v ===== *)
(** * filesys/free-map.c and filesys/inode.c: allocating sectors

    Allocation marks a sector that was free and writes the free map to its file;
    the sectors of that file are the only ones it changes.  On top of it, extending
    a file gives it zeroed sectors that were free before. *)

From S2P Require Import Prelude Bytes Block Bitmap BufferFacts Inode InodeFacts.
Import Bytes Block Bitmap BufferFacts Inode InodeFacts.

Module InodeAlloc.

(** ** Counting the free sectors *)

Definition free_cnt (b : bitmap) : Z := occurrences b (Z.to_nat (bit_cnt b)) 0 false.

Lemma occurrences_ext b b' n i v :
  (forall j, i <= j < i + Z.of_nat n -> bit b' j = bit b j) -> occurrences b' n i v = occurrences b n i v.
Proof.
  revert i. induction n as [|n IH]; intros i E; cbn [occurrences]; [done|].
  rewrite E by lia. rewrite IH; [done|]. intros j Hj. apply E. lia.
Qed.

Lemma occurrences_update b b' n i v x :
  i <= x < i + Z.of_nat n -> bit b x = v -> bit b' x = negb v ->
  (forall j, i <= j < i + Z.of_nat n -> j <> x -> bit b' j = bit b j) ->
  occurrences b' n i v = occurrences b n i v - 1.
Proof.
  revert i. induction n as [|n IH]; intros i Hx Hb Hb' E; cbn [occurrences]; [lia|].
  destruct (decide (x = i)) as [->|].
  - rewrite (occurrences_ext b b') by (intros j ?; apply E; lia).
    rewrite Hb, Hb', eqb_reflx. destruct v; simpl; lia.
  - rewrite (IH (i + 1)); [rewrite E by lia; lia|lia|done|done|]. intros j ??. apply E; lia.
Qed.

Lemma occurrences_zero b n i v :
  occurrences b n i v = 0 -> forall j, i <= j < i + Z.of_nat n -> bit b j = negb v.
Proof.
  revert i. induction n as [|n IH]; intros i Ho j Hj; [lia|]. cbn [occurrences] in Ho.
  pose proof (occurrences_bound b n (i + 1) v). destruct (eqb (bit b i) v) eqn:E; [lia|].
  destruct (decide (j = i)) as [->|]; [|apply (IH (i + 1)); lia].
  apply eqb_false_iff in E. by destruct (bit b i), v.
Qed.

Lemma all_are_one b k v : all_are b k 1 v <-> bit b k = v.
Proof. split; [intros Ha; apply Ha; lia|]. intros <- j Hj. f_equal. lia. Qed.

(** [b'] is [b] with sector [sec] marked. *)
Definition marked (b b' : bitmap) (sec : Z) : Prop := updated (Z.eqb sec) (fun _ => true) b b'.

Lemma marked_free_cnt b b' sec :
  0 <= sec < bit_cnt b -> bit b sec = false -> marked b b' sec -> free_cnt b' = free_cnt b - 1.
Proof.
  intros Hs Hb (W & C & U). unfold free_cnt. rewrite C. apply (occurrences_update _ _ _ _ _ sec).
  - lia.
  - done.
  - rewrite U by lia. by rewrite Z.eqb_refl.
  - intros j Hj Hne. rewrite U by lia. by rewrite (proj2 (Z.eqb_neq sec j)) by lia.
Qed.

Lemma scan_one b : Bitmap.wf b -> 0 < free_cnt b ->
  exists sec b', bitmap_scan_and_flip 0 1 false b = Ok (sec, b') /\ sec <> BITMAP_ERROR /\
    0 <= sec < bit_cnt b /\ bit b sec = false /\ marked b b' sec.
Proof.
  intros Hwf Hf. pose proof (wf_cnt b Hwf).
  destruct (bitmap_scan_and_flip_run b 0 1 false) as (r & b' & R & Hr & Hb); [done|lia|lia|].
  destruct Hr as [(Hne & H1 & H2 & H3%all_are_one & _)|[-> Hno]].
  - rewrite (proj2 (Z.eqb_neq _ _) Hne) in Hb. exists r, b'. split_and!; try done; try lia.
    destruct Hb as (W & C & U). split; [done|]. split; [done|]. intros j Hj. rewrite U by done.
    unfold in_range. destruct (Z.leb_spec r j), (Z.ltb_spec j (r + 1)), (Z.eqb_spec r j); done || lia.
  - exfalso. assert (free_cnt b = 0) as E0; [|lia].
    assert (forall n i, 0 <= i -> i + Z.of_nat n <= bit_cnt b -> occurrences b n i false = 0) as Hz.
    { induction n as [|n IH]; intros i Hi Hn; cbn [occurrences]; [done|].
      rewrite IH by lia. specialize (Hno i Hi ltac:(lia)). rewrite all_are_one in Hno.
      by destruct (bit b i). }
    unfold free_cnt. apply Hz; lia.
Qed.

Lemma scan_none b : Bitmap.wf b -> free_cnt b = 0 -> bitmap_scan_and_flip 0 1 false b = Ok (BITMAP_ERROR, b).
Proof.
  intros Hwf Hf. pose proof (wf_cnt b Hwf).
  destruct (bitmap_scan_and_flip_run b 0 1 false) as (r & b' & R & Hr & Hb); [done|lia|lia|].
  destruct Hr as [(Hne & H1 & H2 & H3%all_are_one & _)|[-> Hno]].
  - rewrite (occurrences_zero _ _ _ _ Hf r) in H3 by lia. done.
  - rewrite Z.eqb_refl in Hb. by subst b'.
Qed.

Section alloc.
Context {S : Type} `{HS : SectorStoreLaws S}.
Notation fs := (fs S).
Implicit Types s : fs.

(** ** The free map and its file *)

(** The sectors of a file: its inode, blocks and tables. *)
Definition file_sector v (i : inode) (n x : Z) : Prop :=
  x = sector i \/ exists j, 0 <= j < n /\ (x = block v (data i) j \/ x ∈ path v (data i) j).

(** The free map is open: [f] is its file and [i], at [p], its inode. *)
Record map_open s (f p : Z) (i : inode) (n : Z) : Prop := {
  mo_file : free_map_file s = Some f;
  mo_inode : exists x, files s !! f = Some x /\ file_inode x = p;
  mo_open : inodes s !! p = Some i;
  mo_deny : deny_write_cnt i = 0;
  mo_ok : inode_ok s i n;
  mo_wf : Bitmap.wf (free_map s);
  mo_cnt : bit_cnt (free_map s) = fsize s;
  mo_len : length (data i) = byte_cnt (bit_cnt (free_map s));
  mo_used : forall x, file_sector (fview s) i n x -> bit (free_map s) x = true }.

Lemma byte_cnt_eq b : Bitmap.wf b -> byte_cnt (bit_cnt b) = Z.of_nat (List.length (of_words (bits b))).
Proof.
  intros [Hc Hl _]. unfold byte_cnt. rewrite <- Hl, of_words_length, Nat2Z.inj_mul.
  rewrite wrapu_small; [done|]. rewrite elem_cnt_eq in Hl by done.
  assert ((bit_cnt b + 31) / 32 < 2 ^ 28); [apply Z.div_lt_upper_bound; lia|lia].
Qed.

Lemma with_store_map x m s : with_store x (with_map m s) = with_map m (with_store x s).
Proof. done. Qed.

(** [file_sector] depends on the tables only. *)
Lemma file_sector_ext v v' i n :
  (forall j, 0 <= j < n -> block v' (data i) j = block v (data i) j) ->
  (forall j, 0 <= j < n -> path v' (data i) j = path v (data i) j) ->
  forall x, file_sector v' i n x <-> file_sector v i n x.
Proof.
  intros Eb Ep x. unfold file_sector. split; intros [->|(j & Hj & Hx)]; [by left| |by left|];
    right; exists j; split; try done.
  - by rewrite <- Eb, <- Ep.
  - by rewrite Eb, Ep.
Qed.

(** Writing the free map to its file changes the sectors of its contents and of its
    inode only, and leaves it open. *)
Lemma inode_ok_ext s s' i n :
  inode_ok s i n -> fsize s' = fsize s ->
  (forall j t, 0 <= j < n -> t ∈ path (fview s) (data i) j -> fview s' t = fview s t) ->
  inode_ok s' i n /\ (forall j, 0 <= j < n -> block (fview s') (data i) j = block (fview s) (data i) j) /\
  (forall j, 0 <= j < n -> path (fview s') (data i) j = path (fview s) (data i) j).
Proof.
  intros [H1 H2 H3 H4 H5 H6] Es E. destruct (maps_ext _ (fview s') _ _ _ H1 E) as (M & B & P).
  split; [|done]. split; [by rewrite Es|exact H2|exact H3|exact H4|by rewrite Es|].
  intros j Hj. rewrite B, P by done. by apply H6.
Qed.

Lemma bitmap_write_run d s f p i n :
  st_inv (store s) -> map_open s f p i n ->
  exists s' v', bitmap_write (inode_write_at_depth (Datatypes.S d)) s = Ok (true, s') /\
    stores s s' v' /\ (forall x, ~ file_sector (fview s) i n x -> v' x = fview s x) /\
    (forall j t, 0 <= j < n -> t ∈ path (fview s) (data i) j -> v' t = fview s t) /\
    contents v' (data i) 0 (length (data i)) = of_words (bits (free_map s)).
Proof.
  intros Hi [Hf (x & Hx & <-) Hp Hd Hok Hwf Hc Hl Hu]. unfold bitmap_write, gets.
  erewrite bind_eq; [|done]. erewrite bind_eq; [|done]. cbv beta. rewrite Hf.
  assert (get_file f s = Ok (x, s)) as Eg by (unfold get_file; by rewrite Hx).
  erewrite bind_eq; [|exact Eg]. rewrite byte_cnt_eq in Hl |- * by done.
  rewrite Nat2Z.id, firstn_all.
  destruct (write_inside (inode_write_at_depth d) s (file_inode x) i n (of_words (bits (free_map s))) 0)
    as (s' & v' & R & W & E1 & E2 & E3); [done..|lia|lia|apply of_words_bytes|].
  cbn [inode_write_at_depth]. erewrite bind_eq; [|exact R]. rewrite Z.eqb_refl.
  exists s', v'. split; [done|]. split; [done|].
  pose proof Hok as [Hm _ _ Hb _ Hap].
  assert (forall x, touched (fview s) (data i) 0 (Z.of_nat (List.length (of_words (bits (free_map s))))) x ->
            exists j, 0 <= j < n /\ x = block (fview s) (data i) j) as Ht.
  { intros y (k & Hk & ->). exists (k / 512). split; [|done]. split; [apply Z.div_pos; lia|].
    enough (k / 512 <= (length (data i) - 1) / 512) by lia. apply Z.div_le_mono; lia. }
  split; [|split].
  - intros y Hy. apply E3.
    + intros ->. apply Hy. by left.
    + intros (j & Hj & ->)%Ht. apply Hy. right. exists j. auto.
  - intros j t Hj Hjt. apply E3.
    + intros ->. by destruct (Hap j Hj) as [_ ?].
    + intros (k & Hk & ->)%Ht. by apply (m_sep _ _ _ _ Hm k j) in Hjt.
  - by rewrite Hl.
Qed.

(** ** Allocation *)

(** Everything but the contents of the sectors and the free map is unchanged. *)
Definition same_objects s s' : Prop :=
  inodes s' = inodes s /\ open_inodes s' = open_inodes s /\ files s' = files s /\ dirs s' = dirs s /\
  curr_dir s' = curr_dir s /\ free_map_file s' = free_map_file s /\ next_ptr s' = next_ptr s /\ oom s' = oom s.

Lemma same_objects_refl s : same_objects s s.
Proof. done. Qed.
Lemma same_objects_trans s1 s2 s3 : same_objects s1 s2 -> same_objects s2 s3 -> same_objects s1 s3.
Proof.
  intros (?&?&?&?&?&?&?&?) (?&?&?&?&?&?&?&?). repeat split; congruence.
Qed.
Lemma stores_objects s s' v : stores s s' v -> same_objects s s' /\ free_map s' = free_map s.
Proof. by intros (x & -> & _). Qed.

(** The state after sector [sec] has been allocated. *)
Record allocated s s' (i : inode) (n sec : Z) : Prop := {
  al_inv : st_inv (store s');
  al_size : fsize s' = fsize s;
  al_objects : same_objects s s';
  al_was_free : bit (free_map s) sec = false;
  al_range : 0 <= sec < fsize s;
  al_marked : marked (free_map s) (free_map s') sec;
  al_view : forall x, ~ file_sector (fview s) i n x -> fview s' x = fview s x }.

(** [map_open] survives changes away from the tables of the free map's file. *)
Lemma map_open_ext s s' f p i n :
  map_open s f p i n -> fsize s' = fsize s -> same_objects s s' ->
  Bitmap.wf (free_map s') -> bit_cnt (free_map s') = bit_cnt (free_map s) ->
  (forall x, 0 <= x -> file_sector (fview s) i n x -> bit (free_map s) x = true -> bit (free_map s') x = true) ->
  (forall j t, 0 <= j < n -> t ∈ path (fview s) (data i) j -> fview s' t = fview s t) ->
  map_open s' f p i n /\ (forall x, file_sector (fview s') i n x <-> file_sector (fview s) i n x).
Proof.
  intros [Hf Hx Hp Hd Hok Hwf Hc Hl Hu] Es (E1 & E2 & E3 & E4 & E5 & E6 & _) Hwf' Ec Hbit Hv.
  destruct (inode_ok_ext s s' i n Hok Es Hv) as (Hok' & Eb & Ep).
  assert (forall x, file_sector (fview s') i n x <-> file_sector (fview s) i n x) as Efs
    by (by apply file_sector_ext).
  split; [|done]. split; try congruence.
  - by rewrite E3.
  - intros x Hfs. apply (proj1 (Efs x)) in Hfs. apply Hbit; [|done|by apply Hu].
    destruct Hfs as [->|(j & Hj & [->|Hjp])]; [apply Hok|apply (m_block _ _ _ _ (io_maps _ _ _ Hok)); lia|].
    pose proof (m_path _ _ _ _ (io_maps _ _ _ Hok) j Hj) as Hfp. rewrite Forall_forall in Hfp.
    apply Hfp in Hjp. lia.
Qed.

Lemma free_map_allocate_run d s f p i n :
  st_inv (store s) -> map_open s f p i n -> 0 < free_cnt (free_map s) ->
  exists sec s', free_map_allocate (inode_write_at_depth (Datatypes.S d)) 1 s = Ok (Some sec, s') /\
    allocated s s' i n sec /\ map_open s' f p i n /\
    (forall x, file_sector (fview s') i n x <-> file_sector (fview s) i n x).
Proof.
  intros Hi Hmo Hfree. destruct (scan_one (free_map s) (mo_wf _ _ _ _ _ Hmo) Hfree)
    as (sec & b' & R & Hne & Hr & Hb & Hmk).
  unfold free_map_allocate, gets. assert (on_map (bitmap_scan_and_flip 0 1 false) s = Ok (sec, with_map b' s)) as E1
    by (unfold on_map; by rewrite R).
  erewrite bind_eq; [|exact E1]. rewrite (proj2 (Z.eqb_neq _ _) Hne).
  erewrite bind_eq; [|done]. cbn [free_map_file with_map]. rewrite (mo_file _ _ _ _ _ Hmo).
  pose proof Hmk as (W & C & U).
  destruct (map_open_ext s (with_map b' s) f p i n) as [Hmo1 _]; [done..| | |].
  { intros x Hx _ Hbx. simpl. rewrite U by done. by destruct (sec =? x). }
  { done. }
  destruct (bitmap_write_run d (with_map b' s) f p i n Hi Hmo1) as (s2 & v' & R2 & W2 & V2 & P2 & _).
  erewrite bind_eq; [|exact R2]. destruct (stores_objects _ _ _ W2) as [So Sm].
  exists sec, s2. split; [done|].
  assert (allocated s s2 i n sec) as Hal.
  { split; [by eapply stores_inv|by apply (stores_size _ _ _ W2)| |done|by rewrite <- (mo_cnt _ _ _ _ _ Hmo)| |].
    - eapply same_objects_trans; [|exact So]. done.
    - by rewrite Sm.
    - intros x Hx. rewrite (stores_view _ _ _ _ W2). by apply V2. }
  split; [done|]. destruct Hal as [A1 A2 A3 A4 A5 A6 A7].
  apply map_open_ext; [done|done|done|apply A6|apply A6| |].
  - intros x Hx _ Hbx. destruct A6 as (_ & _ & A6). rewrite A6 by done. by destruct (sec =? x).
  - intros j t Hj Ht. rewrite (stores_view _ _ _ _ W2). by apply (P2 j).
Qed.

Lemma free_map_allocate_full wr s f p i n :
  map_open s f p i n -> free_cnt (free_map s) = 0 -> free_map_allocate wr 1 s = Ok (None, s).
Proof.
  intros Hmo Hf. unfold free_map_allocate.
  assert (on_map (bitmap_scan_and_flip 0 1 false) s = Ok (BITMAP_ERROR, s)) as E.
  { unfold on_map. rewrite (scan_none _ (mo_wf _ _ _ _ _ Hmo) Hf). by destruct s. }
  erewrite bind_eq; [|exact E]. done.
Qed.
End alloc.

End InodeAlloc.
