(* ===== verification/InodeExtend.v ===== *)
(** * filesys/inode.c: [inode_extend_length] gives a file new zeroed blocks

    The loop over the new blocks keeps the tables in memory; [tblock] is the map
    they stand for.  Each round appends one sector, free before and zeroed now, to
    the list of blocks and disturbs none of the others. *)

From S2P Require Import Prelude Bytes Block Bitmap BufferFacts Inode InodeFacts InodeAlloc.
Import Bytes Block Bitmap BufferFacts Inode InodeFacts InodeAlloc.

Module InodeExtend.

(** ** Words of a table *)

Lemma word_insert_eq ws i x : 0 <= i < Z.of_nat (List.length ws) -> word (<[Z.to_nat i := x]> ws) i = x.
Proof.
  intros Hi. unfold word. rewrite nth_lookup, list_lookup_insert_eq by lia. done.
Qed.
Lemma word_insert_ne ws i j x : 0 <= i -> 0 <= j -> i <> j -> word (<[Z.to_nat i := x]> ws) j = word ws j.
Proof.
  intros. unfold word. rewrite !nth_lookup, list_lookup_insert_ne by lia. done.
Qed.
Lemma word_in ws i : 0 <= i < Z.of_nat (List.length ws) -> word ws i ∈ ws.
Proof.
  intros Hi. unfold word. destruct (lookup_lt_is_Some_2 ws (Z.to_nat i)) as [w Hw]; [lia|].
  rewrite (nth_lookup_Some _ _ _ _ Hw). by eapply list_elem_of_lookup_2.
Qed.

Lemma table_of_words (v : Z -> list Z) sec ws :
  List.length ws = 128%nat -> Forall is_word ws -> v sec = of_words ws -> table v sec = ws.
Proof.
  intros Hl Hw E. unfold table. rewrite E, <- Hl, <- (app_nil_r (of_words ws)). by apply to_of_words.
Qed.

(** The map the tables in memory stand for; the pages of the double-indirect table
    are on disk. *)
Definition tblock (v : Z -> list Z) (t : tables) (i : Z) : Z :=
  if i <? DIR_LEN then word (dir (t_inode t)) i
  else if i <? DIR_LEN + TABLE then word (t_1st t) (i - DIR_LEN)
  else if i <? DIR_LEN + 2 * TABLE then word (t_2nd t) (i - DIR_LEN - TABLE)
  else
    let j := i - (DIR_LEN + 2 * TABLE) in
    word (table v (word (t_2level t) (j / TABLE))) (j mod TABLE).

(** The tables a file whose last block is [N] needs. *)
Definition pages (t : tables) (N : Z) : list Z :=
  map (word (t_2level t)) (seqZ 0 ((N - (DIR_LEN + 2 * TABLE)) / TABLE + 1)).
Definition metas (t : tables) (N : Z) : list Z :=
  (if N >=? DIR_LEN then [word (single_indir (t_inode t)) 0] else []) ++
  (if N >=? DIR_LEN + TABLE then [word (single_indir (t_inode t)) 1] else []) ++
  (if N >=? DIR_LEN + 2 * TABLE then double_indir (t_inode t) :: pages t N else []).

Definition tables_wf (t : tables) : Prop :=
  disk_wf (t_inode t) /\
  (List.length (t_1st t) = 128%nat /\ Forall is_word (t_1st t)) /\
  (List.length (t_2nd t) = 128%nat /\ Forall is_word (t_2nd t)) /\
  (List.length (t_2level t) = 128%nat /\ Forall is_word (t_2level t)).

Lemma page_in t N i :
  DIR_LEN + 2 * TABLE <= i <= N -> 
  word (t_2level t) ((i - (DIR_LEN + 2 * TABLE)) / TABLE) ∈ pages t N.
Proof.
  intros Hi. unfold pages, DIR_LEN, TABLE in *. apply list_elem_of_fmap. eexists. split; [done|].
  apply elem_of_seqZ. split; [apply Z.div_pos; lia|].
  enough ((i - (123 + 2 * 128)) / 128 <= (N - (123 + 2 * 128)) / 128) by lia. apply Z.div_le_mono; lia.
Qed.

Lemma page_inj t N i j :
  NoDup (pages t N) -> DIR_LEN + 2 * TABLE <= i <= N -> DIR_LEN + 2 * TABLE <= j <= N ->
  word (t_2level t) ((i - (DIR_LEN + 2 * TABLE)) / TABLE) =
    word (t_2level t) ((j - (DIR_LEN + 2 * TABLE)) / TABLE) ->
  (i - (DIR_LEN + 2 * TABLE)) / TABLE = (j - (DIR_LEN + 2 * TABLE)) / TABLE.
Proof.
  intros Hnd Hi Hj E. unfold pages, DIR_LEN, TABLE in *.
  set (P := (N - (123 + 2 * 128)) / 128 + 1) in *.
  assert (forall k, 379 <= k <= N -> 0 <= (k - (123 + 2 * 128)) / 128 < P) as Hr.
  { intros k Hk. split; [apply Z.div_pos; lia|]. unfold P.
    enough ((k - (123 + 2 * 128)) / 128 <= (N - (123 + 2 * 128)) / 128) by lia. apply Z.div_le_mono; lia. }
  set (a := (i - _) / 128) in *. set (b := (j - _) / 128) in *.
  pose proof (Hr i ltac:(lia)) as Ha. pose proof (Hr j ltac:(lia)) as Hb. fold a in Ha. fold b in Hb.
  assert (map (word (t_2level t)) (seqZ 0 P) !! Z.to_nat a = Some (word (t_2level t) a)) as La
    by (rewrite list_lookup_fmap, lookup_seqZ_lt by lia; simpl; do 2 f_equal; lia).
  assert (map (word (t_2level t)) (seqZ 0 P) !! Z.to_nat b = Some (word (t_2level t) b)) as Lb
    by (rewrite list_lookup_fmap, lookup_seqZ_lt by lia; simpl; do 2 f_equal; lia).
  rewrite <- E in Lb. pose proof (NoDup_lookup _ _ _ _ Hnd La Lb). lia.
Qed.

Lemma tblock_view (v v' : Z -> list Z) t k :
  (DIR_LEN + 2 * TABLE <= k ->
     let g := word (t_2level t) ((k - (DIR_LEN + 2 * TABLE)) / TABLE) in v' g = v g) ->
  tblock v' t k = tblock v t k.
Proof.
  intros E. unfold tblock. destruct (k <? DIR_LEN); [done|]. destruct (k <? DIR_LEN + TABLE); [done|].
  destruct (Z.ltb_spec k (DIR_LEN + 2 * TABLE)); [done|]. unfold table. by rewrite E.
Qed.

(** The map after entry [i] has been set in the table it belongs to. *)
Lemma tblock_set_dir v t i x k :
  0 <= i < DIR_LEN -> 0 <= k -> List.length (dir (t_inode t)) = 123%nat ->
  tblock v (set_dir t (<[Z.to_nat i := x]> (dir (t_inode t)))) k = if k =? i then x else tblock v t k.
Proof.
  intros Hi Hk Hl. unfold tblock, set_dir. cbn [t_inode dir t_1st t_2nd t_2level]. unfold DIR_LEN in *.
  destruct (Z.ltb_spec k 123), (Z.eqb_spec k i) as [->|]; try lia; try done.
  - apply word_insert_eq. lia.
  - apply word_insert_ne; lia.
Qed.
Lemma tblock_set_1st v t i x k :
  DIR_LEN <= i < DIR_LEN + TABLE -> 0 <= k -> List.length (t_1st t) = 128%nat ->
  tblock v (set_1st t (<[Z.to_nat (i - DIR_LEN) := x]> (t_1st t))) k = if k =? i then x else tblock v t k.
Proof.
  intros Hi Hk Hl. unfold tblock, set_1st. cbn [t_inode dir t_1st t_2nd t_2level]. unfold DIR_LEN, TABLE in *.
  destruct (Z.ltb_spec k 123), (Z.eqb_spec k i) as [->|]; try lia; try done;
    destruct (Z.ltb_spec k (123 + 128)) || destruct (Z.ltb_spec i (123 + 128)); try lia; try done.
  - apply word_insert_eq. lia.
  - apply word_insert_ne; lia.
Qed.
Lemma tblock_set_2nd v t i x k :
  DIR_LEN + TABLE <= i < DIR_LEN + 2 * TABLE -> 0 <= k -> List.length (t_2nd t) = 128%nat ->
  tblock v (set_2nd t (<[Z.to_nat (i - DIR_LEN - TABLE) := x]> (t_2nd t))) k =
    if k =? i then x else tblock v t k.
Proof.
  intros Hi Hk Hl. unfold tblock, set_2nd. cbn [t_inode dir t_1st t_2nd t_2level]. unfold DIR_LEN, TABLE in *.
  destruct (Z.eqb_spec k i) as [->|].
  - rewrite !(proj2 (Z.ltb_ge i _)), (proj2 (Z.ltb_lt i _)) by lia. apply word_insert_eq. lia.
  - destruct (k <? 123); [done|]. destruct (Z.ltb_spec k (123 + 128)); [done|].
    destruct (k <? 123 + 2 * 128); [|done]. apply word_insert_ne; lia.
Qed.

(** The tables of a file as they are on disk. *)
Definition disk_tables (v : Z -> list Z) (di : inode_disk) : tables :=
  {| t_inode := di; t_1st := table v (word (single_indir di) 0);
     t_2nd := table v (word (single_indir di) 1); t_2level := table v (double_indir di);
     t_cur := no_table |}.

Lemma tblock_disk v di k : tblock v (disk_tables v di) k = block v di k.
Proof. done. Qed.

Section extend.
Context {S : Type} `{HS : SectorStoreLaws S}.
Notation fs := (fs S).
Implicit Types (s : fs) (U : list Z).

(** The state [s0] before the operation on the file at [p], the free map's file,
    and the bound [d] on nested writes. *)
Context (s0 : fs) (f fp : Z) (fi : inode) (nf : Z) (p : Z) (d : nat) (C : Z).
Context (Hpfp : p <> fp).
Notation wr := (inode_write_at_depth (Datatypes.S d)).

(** The sectors of the free map's file. *)
Definition FM (x : Z) : Prop := file_sector (fview s0) fi nf x.

(** Nothing changed in memory but the inode at [p]. *)
Definition others_same s : Prop :=
  (forall q, q <> p -> inodes s !! q = inodes s0 !! q) /\
  open_inodes s = open_inodes s0 /\ files s = files s0 /\ dirs s = dirs s0 /\
  curr_dir s = curr_dir s0 /\ free_map_file s = free_map_file s0 /\ next_ptr s = next_ptr s0 /\
  oom s = oom s0.

(** In state [s] the sectors [U] belong to the file: those it had, and those
    allocated since [s0]. *)
Record owns s U : Prop := {
  ow_inv : st_inv (store s);
  ow_size : fsize s = fsize s0;
  ow_map : map_open s f fp fi nf;
  ow_fm : forall x, file_sector (fview s) fi nf x <-> FM x;
  ow_objects : others_same s;
  ow_nodup : NoDup U;
  ow_range : forall x, x ∈ U -> 0 <= x < fsize s0 /\ ~ FM x;
  ow_bits : forall x, 0 <= x -> bit (free_map s) x = true <-> bit (free_map s0) x = true \/ x ∈ U;
  ow_free : free_cnt (free_map s) + Z.of_nat (List.length U) = C }.

(** [s'] differs from [s] in the contents of the sectors [W] and of the free map. *)
Definition vframe s s' (W : list Z) : Prop := forall x, ~ FM x -> x ∉ W -> fview s' x = fview s x.

Lemma owns_perm s U U' : Permutation U U' -> owns s U -> owns s U'.
Proof.
  intros HP [H1 H2 H3 H4 H5 H6 H7 H8 H9].
  split; [exact H1|exact H2|exact H3|exact H4|exact H5|by rewrite <- HP| | |by rewrite <- (Permutation_length HP)].
  - intros x Hx. apply H7. by rewrite HP.
  - intros x Hx. rewrite H8 by done. by rewrite HP.
Qed.

(** Writing to a sector of the file. *)
Lemma owns_write s U sec ws :
  owns s U -> sec ∈ U -> List.length ws = 512%nat -> Forall is_byte ws ->
  exists s', buf_write sec ws 0 s = Ok (tt, s') /\ owns s' U /\ inodes s' = inodes s /\
    fview s' sec = ws /\ (forall x, x <> sec -> fview s' x = fview s x).
Proof.
  intros [H1 H2 H3 H4 H5 H6 H7 H8 H9] Hin Hl Hb. destruct (H7 sec Hin) as [Hr Hnf].
  destruct (buf_write_all s sec ws) as (s' & R & W); [done|by rewrite H2|done|done|].
  exists s'. split; [done|]. destruct (stores_objects _ _ _ W) as [So Sm].
  assert (forall x, x <> sec -> fview s' x = fview s x) as V.
  { intros x Hx. rewrite (stores_view _ _ _ _ W). by rewrite (proj2 (Z.eqb_neq _ _) Hx). }
  destruct (map_open_ext s s' f fp fi nf H3) as [M E].
  { by rewrite (stores_size _ _ _ W). } { done. } { rewrite Sm. apply H3. } { by rewrite Sm. }
  { intros x _. by rewrite Sm. }
  { intros j t Hj Ht. apply V. intros ->. apply Hnf. apply (proj1 (H4 sec)). right. eauto. }
  split; [|split; [apply So|split; [|exact V]]].
  - split; [by eapply stores_inv|by rewrite (stores_size _ _ _ W)|exact M| | |exact H6|exact H7| |].
    + intros x. by rewrite E.
    + destruct So as (E1 & E2 & E3 & E4 & E5 & E6 & E7 & E8).
      destruct H5 as (F1 & F2 & F3 & F4 & F5 & F6 & F7 & F8).
      unfold others_same. rewrite E1, E2, E3, E4, E5, E6, E7, E8. done.
    + by rewrite Sm.
    + by rewrite Sm.
  - rewrite (stores_view _ _ _ _ W). by rewrite Z.eqb_refl.
Qed.

(** Allocating one more sector. *)
Lemma owns_alloc s U :
  owns s U -> Z.of_nat (List.length U) < C ->
  exists sec s', free_map_allocate wr 1 s = Ok (Some sec, s') /\ owns s' (sec :: U) /\
    bit (free_map s0) sec = false /\ inodes s' = inodes s /\ vframe s s' [].
Proof.
  intros [H1 H2 H3 H4 H5 H6 H7 H8 H9] Hc.
  destruct (free_map_allocate_run d s f fp fi nf H1 H3) as (sec & s' & R & A & M & E); [lia|].
  destruct A as [A1 A2 A3 A4 A5 A6 A7]. exists sec, s'. split; [done|].
  assert (sec ∉ U) as Hn.
  { intros Hin. rewrite (proj2 (H8 sec ltac:(lia))) in A4 by (by right). done. }
  assert (~ FM sec) as Hnf.
  { intros Hf. apply (proj2 (H4 sec)) in Hf. apply (mo_used _ _ _ _ _ H3) in Hf. congruence. }
  assert (bit (free_map s0) sec = false) as Hb0.
  { destruct (bit (free_map s0) sec) eqn:Eb; [|done].
    rewrite (proj2 (H8 sec ltac:(lia))) in A4 by (by left). done. }
  pose proof A3 as (E1 & E2 & E3 & E4 & E5 & E6 & E7 & E8).
  split; [|split; [done|split; [done|]]].
  - split; [done|congruence|exact M| | |by constructor| | |].
    + intros x. by rewrite E.
    + destruct H5 as (F1 & F2 & F3 & F4 & F5 & F6 & F7 & F8).
      unfold others_same. rewrite E1, E2, E3, E4, E5, E6, E7, E8. done.
    + intros x [->|Hx]%elem_of_cons; [by rewrite <- H2|by apply H7].
    + intros x Hx. destruct A6 as (_ & _ & U6). rewrite U6, elem_of_cons by done.
      destruct (Z.eqb_spec sec x) as [->|]; [split; auto|]. rewrite H8 by done.
      split; [intros [?|?]; auto|intros [?|[?|?]]; auto; congruence].
    + rewrite (marked_free_cnt (free_map s) (free_map s') sec); [|by rewrite (mo_cnt _ _ _ _ _ H3)|done|done].
      simpl. lia.
  - intros x Hx _. apply A7. intros Hf. apply Hx. exact (proj1 (H4 x) Hf).
Qed.

Lemma alloc_into_run s U old :
  owns s U -> Z.of_nat (List.length U) < C ->
  exists sec s', alloc_into wr old s = Ok (sec, s') /\ owns s' (sec :: U) /\
    bit (free_map s0) sec = false /\ inodes s' = inodes s /\ vframe s s' [].
Proof.
  intros Ho Hc. destruct (owns_alloc s U Ho Hc) as (sec & s' & R & Hrest).
  exists sec, s'. unfold alloc_into. erewrite bind_eq; [|exact R]. done.
Qed.

Lemma set_entry_run s ws i x :
  0 <= i < Z.of_nat (List.length ws) -> set_entry ws i x s = Ok (<[Z.to_nat i := x]> ws, s).
Proof.
  intros Hi. unfold set_entry. rewrite (proj2 (Z.leb_le _ _)), (proj2 (Z.ltb_lt _ _)) by lia. done.
Qed.

Lemma alloc_entry_run s U ws i :
  owns s U -> Z.of_nat (List.length U) < C -> 0 <= i < Z.of_nat (List.length ws) ->
  exists sec s', alloc_entry wr ws i s = Ok (<[Z.to_nat i := sec]> ws, s') /\ owns s' (sec :: U) /\
    bit (free_map s0) sec = false /\ inodes s' = inodes s /\ vframe s s' [].
Proof.
  intros Ho Hc Hi. destruct (alloc_into_run s U (word ws i) Ho Hc) as (sec & s' & R & Hrest).
  exists sec, s'. unfold alloc_entry. erewrite bind_eq; [|by apply entry_run].
  erewrite bind_eq; [|exact R]. by rewrite set_entry_run.
Qed.

Lemma zeros_512 : List.length (zeros 512) = 512%nat.
Proof. done. Qed.

Lemma alloc_zeroed_run s U ws i :
  owns s U -> Z.of_nat (List.length U) < C -> 0 <= i < Z.of_nat (List.length ws) ->
  exists sec s', alloc_zeroed wr ws i s = Ok (<[Z.to_nat i := sec]> ws, s') /\ owns s' (sec :: U) /\
    bit (free_map s0) sec = false /\ inodes s' = inodes s /\ fview s' sec = zeros 512 /\ vframe s s' [sec].
Proof.
  intros Ho Hc Hi. destruct (alloc_entry_run s U ws i Ho Hc Hi) as (sec & s1 & R1 & O1 & B1 & I1 & V1).
  unfold alloc_zeroed. erewrite bind_eq; [|exact R1].
  erewrite bind_eq; [|apply entry_run; rewrite length_insert; lia]. rewrite word_insert_eq by lia.
  destruct (owns_write s1 (sec :: U) sec (zeros 512)) as (s2 & R2 & O2 & I2 & Z2 & V2);
    [done|apply list_elem_of_here|done|apply zeros_bytes|].
  erewrite bind_eq; [|exact R2]. exists sec, s2. split; [done|]. split; [done|]. split; [done|].
  split; [congruence|]. split; [done|]. intros x Hx Hn. rewrite V2 by (by intros ->; apply Hn, list_elem_of_here).
  apply V1; [done|apply not_elem_of_nil].
Qed.

Lemma write_table_run s U sec ws :
  owns s U -> sec ∈ U -> List.length ws = 128%nat -> Forall is_word ws ->
  exists s', write_table sec ws s = Ok (tt, s') /\ owns s' U /\ inodes s' = inodes s /\
    table (fview s') sec = ws /\ (forall x, x <> sec -> fview s' x = fview s x).
Proof.
  intros Ho Hin Hl Hw. destruct (owns_write s U sec (of_words ws)) as (s' & R & O & I & Z & V);
    [done|done|by rewrite of_words_length, Hl|apply of_words_bytes|].
  exists s'. split; [done|]. split; [done|]. split; [done|]. split; [|done].
  by apply table_of_words.
Qed.

(** Reading does not change what the file owns. *)
Lemma owns_stores s s' U : owns s U -> stores s s' (fview s) -> owns s' U.
Proof.
  intros [H1 H2 H3 H4 H5 H6 H7 H8 H9] W. destruct (stores_objects _ _ _ W) as [So Sm].
  destruct (map_open_ext s s' f fp fi nf H3) as [M E].
  { by rewrite (stores_size _ _ _ W). } { done. } { rewrite Sm. apply H3. } { by rewrite Sm. }
  { intros x _. by rewrite Sm. } { intros j t _ _. by apply (stores_view s). }
  split; [by eapply stores_inv|by rewrite (stores_size _ _ _ W)|exact M| | |exact H6|exact H7| |].
  - intros x. by rewrite E.
  - destruct So as (E1 & E2 & E3 & E4 & E5 & E6 & E7 & E8).
    destruct H5 as (F1 & F2 & F3 & F4 & F5 & F6 & F7 & F8).
    unfold others_same. rewrite E1, E2, E3, E4, E5, E6, E7, E8. done.
  - by rewrite Sm.
  - by rewrite Sm.
Qed.

(** Updating the inode in place. *)
Lemma set_data_run s U i di :
  owns s U -> inodes s !! p = Some i ->
  exists s', set_data p di s = Ok (tt, s') /\ owns s' U /\ inodes s' !! p = Some (with_data i di) /\
    fview s' = fview s.
Proof.
  intros [H1 H2 H3 H4 H5 H6 H7 H8 H9] Hp.
  exists (with_inodes (<[p := with_data i di]> (inodes s)) s).
  unfold set_data. erewrite bind_eq; [|by apply get_inode_run]. split; [done|].
  split; [|split; [apply lookup_insert_eq|done]].
  split; [exact H1|exact H2| |exact H4| |exact H6|exact H7|exact H8|exact H9].
  - destruct H3 as [M1 M2 M3 M4 M5 M6 M7 M8 M9]. split; [exact M1|exact M2| |exact M4| |exact M6|exact M7|exact M8|exact M9].
    + simpl. by rewrite lookup_insert_ne.
    + destruct M5. split; done.
  - destruct H5 as (F1 & F2). split; [|exact F2]. intros q Hq. simpl. rewrite lookup_insert_ne by done. auto.
Qed.

(** ** The loop *)

Context (i0 : inode) (n0 N : Z) (Hn0 : 0 <= n0).

(** The tables and the inode of the file. *)
Definition meta (t : tables) : list Z := metas t N ++ [sector i0].

(** The blocks of the file so far are [bs], of which the first [n0] are the old ones. *)
Record linv s (t : tables) (bs : list Z) : Prop := {
  li_owns : owns s (bs ++ meta t);
  li_p : inodes s !! p = Some (with_data i0 (t_inode t));
  li_wf : tables_wf t;
  li_blocks : forall k, 0 <= k < Z.of_nat (List.length bs) -> tblock (fview s) t k = word bs k;
  li_zero : forall k, n0 <= k < Z.of_nat (List.length bs) -> fview s (word bs k) = zeros 512;
  li_fresh : forall k, n0 <= k < Z.of_nat (List.length bs) -> bit (free_map s0) (word bs k) = false;
  li_double : DIR_LEN + 2 * TABLE <= N -> table (fview s) (double_indir (t_inode t)) = t_2level t;
  li_frame : forall x, ~ FM x -> x ∉ meta t -> bit (free_map s0) x = true -> fview s x = fview s0 x;
  li_len : length (t_inode t) = length (data i0) }.

Lemma double_meta t : DIR_LEN + 2 * TABLE <= N -> double_indir (t_inode t) ∈ meta t.
Proof.
  intros HN. unfold meta, metas. destruct (Z.geb_spec N (DIR_LEN + 2 * TABLE)); [|lia]. in_list.
Qed.

Lemma word_app_l bs cs k : 0 <= k < Z.of_nat (List.length bs) -> word (bs ++ cs) k = word bs k.
Proof. intros Hk. unfold word. rewrite app_nth1 by lia. done. Qed.
Lemma word_app_end bs x : word (bs ++ [x]) (Z.of_nat (List.length bs)) = x.
Proof. unfold word. rewrite Nat2Z.id, app_nth2, Nat.sub_diag by lia. done. Qed.

Lemma owns_snoc s bs sec ms : owns s (sec :: bs ++ ms) -> owns s ((bs ++ [sec]) ++ ms).
Proof.
  apply owns_perm. rewrite <- app_assoc. simpl. by rewrite Permutation_middle.
Qed.

Lemma page_meta t i : DIR_LEN + 2 * TABLE <= i <= N ->
  word (t_2level t) ((i - (DIR_LEN + 2 * TABLE)) / TABLE) ∈ meta t.
Proof.
  intros Hi. unfold meta, metas. destruct (Z.geb_spec N (DIR_LEN + 2 * TABLE)); [|lia].
  apply elem_of_app. left. apply elem_of_app. right. apply elem_of_app. right. apply elem_of_cons. right. by apply page_in.
Qed.

(** A round that adds [sec] and changes the contents of [sec] and of tables of the
    file only. *)
Lemma linv_add s s' t t' bs sec W :
  linv s t bs -> owns s' (sec :: bs ++ meta t) -> bit (free_map s0) sec = false ->
  meta t' = meta t -> tables_wf t' -> inodes s' !! p = Some (with_data i0 (t_inode t')) ->
  fview s' sec = zeros 512 -> (forall x, ~ FM x -> x ∉ sec :: W -> fview s' x = fview s x) ->
  (forall x, x ∈ W -> x ∈ meta t /\ x <> double_indir (t_inode t)) ->
  double_indir (t_inode t') = double_indir (t_inode t) -> length (t_inode t') = length (t_inode t) ->
  t_2level t' = t_2level t ->
  (forall k, 0 <= k <= Z.of_nat (List.length bs) ->
     tblock (fview s') t' k = if k =? Z.of_nat (List.length bs) then sec else tblock (fview s) t k) ->
  linv s' t' (bs ++ [sec]).
Proof.
  intros [L1 L2 L3 L4 L5 L6 L8 L7 L9] Ho Hb Hm Ht Hp Hz Hv HW Ed El E2 Hk.
  pose proof (ow_nodup _ _ Ho) as Hnd. apply NoDup_cons in Hnd as [Hns Hnd].
  apply NoDup_app in Hnd as (_ & Hdis & _).
  assert (forall k, 0 <= k < Z.of_nat (List.length bs) -> fview s' (word bs k) = fview s (word bs k)) as Hold.
  { intros k Hkr. pose proof (word_in bs k Hkr) as Hin. apply Hv.
    - apply (ow_range _ _ L1). in_list.
    - intros [E|HwW]%elem_of_cons; [apply Hns; rewrite <- E; in_list|]. by apply (Hdis _ Hin), (HW _ HwW). }
  split; rewrite ?Hm, ?length_app; cbn [List.length].
  - by apply owns_snoc.
  - done.
  - done.
  - intros k Hkr. rewrite Hk by lia. destruct (Z.eqb_spec k (Z.of_nat (List.length bs))) as [->|].
    + by rewrite word_app_end.
    + rewrite word_app_l by lia. apply L4. lia.
  - intros k Hkr. destruct (decide (k = Z.of_nat (List.length bs))) as [->|]; [by rewrite word_app_end|].
    rewrite word_app_l, Hold by lia. apply L5. lia.
  - intros k Hkr. destruct (decide (k = Z.of_nat (List.length bs))) as [->|]; [by rewrite word_app_end|].
    rewrite word_app_l by lia. apply L6. lia.
  - intros HN. rewrite Ed, E2, <- L8 by done. unfold table. rewrite Hv; [done| |].
    + apply (ow_range _ _ L1), elem_of_app. right. by apply double_meta.
    + intros [E|HwW]%elem_of_cons; [|by apply (HW _ HwW)].
      apply Hns. rewrite <- E. apply elem_of_app. right. by apply double_meta.
  - intros x Hx Hnm Hbx. rewrite Hv; [by apply L7|done|].
    intros [->|HwW]%elem_of_cons; [congruence|]. by apply Hnm, (HW _ HwW).
  - congruence.
Qed.

Lemma owns_word s U x : owns s U -> x ∈ U -> is_word x.
Proof.
  intros Ho Hx. destruct (ow_range _ _ Ho x Hx) as [Hr _].
  pose proof (st_size_range (store s) (ow_inv _ _ Ho)) as Hs.
  pose proof (ow_size _ _ Ho) as E. unfold fsize in *. unfold is_word. lia.
Qed.

Lemma disk_wf_dir di ws :
  disk_wf di -> List.length ws = 123%nat -> Forall is_word ws ->
  disk_wf {| length := length di; magic := magic di; dir := ws; single_indir := single_indir di;
             double_indir := double_indir di |}.
Proof. intros [H1 H2 H3 H4 H5] Hl Hw. split; done. Qed.

Lemma extend_step_dir s t bs i :
  linv s t bs -> i = Z.of_nat (List.length bs) -> i < DIR_LEN ->
  Z.of_nat (List.length (bs ++ meta t)) < C ->
  exists t' s' sec, extend_step wr p i t s = Ok (t', s') /\ linv s' t' (bs ++ [sec]) /\
    meta t' = meta t.
Proof.
  intros HL -> Hi Hc. pose proof HL as [L1 L2 L3 L4 L5 L6 L8 L7 L9].
  destruct L3 as (Wd & W1 & W2 & W3). pose proof (dw_dir _ Wd) as [Hdl Hdw].
  unfold extend_step. rewrite (proj2 (Z.ltb_lt _ _) Hi). unfold DIR_LEN in Hi.
  erewrite bind_eq; [|apply entry_run; lia].
  destruct (alloc_into_run s _ (word (dir (t_inode t)) (Z.of_nat (List.length bs))) L1 Hc)
    as (sec & s1 & R1 & O1 & B1 & I1 & V1).
  erewrite bind_eq; [|exact R1]. erewrite bind_eq; [|apply set_entry_run; lia].
  set (t' := set_dir t _).
  destruct (set_data_run s1 _ (with_data i0 (t_inode t)) (t_inode t') O1) as (s2 & R2 & O2 & I2 & V2);
    [by rewrite I1|].
  erewrite bind_eq; [|exact R2].
  destruct (owns_write s2 _ sec (zeros 512) O2) as (s3 & R3 & O3 & I3 & Z3 & V3);
    [apply list_elem_of_here|done|apply zeros_bytes|].
  erewrite bind_eq; [|exact R3]. exists t', s3, sec. split; [done|]. split; [|done].
  eapply (linv_add s s3 t t' bs sec []); try done.
  - split; [|done]. apply disk_wf_dir; [done|by rewrite length_insert|].
    apply Forall_insert; [done|]. eapply owns_word; [exact O1|apply list_elem_of_here].
  - by rewrite I3, I2.
  - intros x Hx Hn. rewrite V3 by (by intros ->; apply Hn, list_elem_of_here). rewrite V2.
    apply V1; [done|apply not_elem_of_nil].
  - intros x Hx. by apply not_elem_of_nil in Hx.
  - intros k Hk. unfold t'. rewrite tblock_set_dir; [|unfold DIR_LEN; lia|lia|done].
    destruct (k =? Z.of_nat (List.length bs)); [done|]. apply tblock_view. unfold DIR_LEN, TABLE. lia.
Qed.

(** The two single-indirect ranges. *)
Lemma extend_step_table s t bs i ws get set :
  linv s t bs -> i = Z.of_nat (List.length bs) ->
  i < DIR_LEN + 2 * TABLE -> Z.of_nat (List.length (bs ++ meta t)) < C ->
  List.length ws = 128%nat -> Forall is_word ws -> 0 <= get < 128 ->
  (forall ws', t_inode (set ws') = t_inode t) -> (forall ws', t_2level (set ws') = t_2level t) ->
  (forall ws', List.length ws' = 128%nat -> Forall is_word ws' -> tables_wf (set ws')) ->
  (forall x k, 0 <= k -> tblock (fview s) (set (<[Z.to_nat get := x]> ws)) k =
     if k =? i then x else tblock (fview s) t k) ->
  exists t' s' sec, (let! ws := alloc_zeroed wr ws get in ret (set ws)) s = Ok (t', s') /\
    linv s' t' (bs ++ [sec]) /\ meta t' = meta t.
Proof.
  intros HL -> Hi Hc Hwl Hww Hg Hti H2l Hset Htb. pose proof HL as [L1 L2 L3 L4 L5 L6 L8 L7 L9].
  destruct (alloc_zeroed_run s _ ws get L1 Hc) as (sec & s1 & R1 & O1 & B1 & I1 & Z1 & V1); [lia|].
  erewrite bind_eq; [|exact R1]. exists (set (<[Z.to_nat get := sec]> ws)), s1, sec. split; [done|].
  assert (forall ws', meta (set ws') = meta t) as Hm.
  { intros ws'. unfold meta, metas, pages. by rewrite Hti, H2l. }
  split; [|done]. eapply (linv_add s s1 t _ bs sec []); try done.
  - apply Hset; [by rewrite length_insert|]. apply Forall_insert; [done|].
    eapply owns_word; [exact O1|apply list_elem_of_here].
  - by rewrite I1, Hti.
  - intros x Hx. by apply not_elem_of_nil in Hx.
  - by rewrite Hti.
  - by rewrite Hti.
  - intros k Hk. rewrite <- (Htb sec k) by lia. apply tblock_view. lia.
Qed.

Lemma no_table_wf : List.length no_table = 128%nat /\ Forall is_word no_table.
Proof. split; [done|]. apply Forall_replicate. unfold is_word. lia. Qed.

Lemma table_wf s sec : st_inv (store s) ->
  List.length (table (fview s) sec) = 128%nat /\ Forall is_word (table (fview s) sec).
Proof.
  intros Hi. unfold table. split; [apply to_words_length|]. apply to_words_words, fview_wf. done.
Qed.

(** The page a block of the double-indirect range is on, as the loop reads it. *)
Lemma page_read s t bs i (g := word (t_2level t) ((i - (DIR_LEN + 2 * TABLE)) / TABLE)) :
  linv s t bs -> DIR_LEN + 2 * TABLE <= i <= N -> i < MAX_BLOCKS ->
  exists cur s', (if (i - (DIR_LEN + 2 * TABLE)) mod TABLE =? 0 then ret no_table
                  else let! page := entry (t_2level t) ((i - (DIR_LEN + 2 * TABLE)) / TABLE) in
                       read_table page) s = Ok (cur, s') /\
    stores s s' (fview s) /\ List.length cur = 128%nat /\ Forall is_word cur /\
    ((i - (DIR_LEN + 2 * TABLE)) mod TABLE <> 0 -> cur = table (fview s) g).
Proof.
  intros HL Hi Hmax. pose proof HL as [L1 _ (_ & _ & _ & W3) _ _ _ _ _].
  unfold MAX_BLOCKS, DIR_LEN, TABLE in *.
  destruct (Z.eqb_spec ((i - (123 + 2 * 128)) mod 128) 0).
  - exists no_table, s. split; [done|]. split; [apply stores_refl, (ow_inv _ _ L1)|].
    split; [done|]. split; [apply no_table_wf|done].
  - assert (0 <= (i - (123 + 2 * 128)) / 128 < 128)
      by (split; [apply Z.div_pos; lia|apply Z.div_lt_upper_bound; lia]).
    destruct (read_table_run s g) as (s' & R & W); [apply (ow_inv _ _ L1)| |].
    { rewrite (ow_size _ _ L1). apply (ow_range _ _ L1), elem_of_app. right. apply page_meta. done. }
    exists (table (fview s) g), s'. erewrite bind_eq; [|apply entry_run; lia].
    split; [done|]. split; [done|]. destruct (table_wf s g (ow_inv _ _ L1)). done.
Qed.

(** Blocks before [i] on the same page are at smaller positions. *)
Lemma same_page i k : 0 <= k < i -> k / 128 = i / 128 -> 0 <= k mod 128 < i mod 128.
Proof.
  intros Hk E. pose proof (Z.div_mod i 128). pose proof (Z.div_mod k 128).
  pose proof (Z.mod_pos_bound k 128). rewrite E in *. lia.
Qed.

Lemma extend_step_double s t bs i :
  linv s t bs -> i = Z.of_nat (List.length bs) -> DIR_LEN + 2 * TABLE <= i <= N -> i < MAX_BLOCKS ->
  Z.of_nat (List.length (bs ++ meta t)) < C ->
  exists t' s' sec, extend_step wr p i t s = Ok (t', s') /\ linv s' t' (bs ++ [sec]) /\
    meta t' = meta t.
Proof.
  intros HL Ei Hi Hmax Hc. destruct (page_read s t bs i HL Hi Hmax) as (cur & s1 & R1 & W1 & Hcl & Hcw & Hcur).
  pose proof HL as [L1 L2 L3 L4 L5 L6 L8 L7 L9]. pose proof L3 as (Wd & T1 & T2 & T3).
  pose proof (page_meta t i Hi) as Hg.
  unfold extend_step. rewrite !(proj2 (Z.ltb_ge i _)) by (unfold DIR_LEN, TABLE in *; lia).
  unfold MAX_BLOCKS, DIR_LEN, TABLE in *.
  replace (i - 123 - 2 * 128) with (i - (123 + 2 * 128)) by lia.
  rewrite Z.quot_div_nonneg, Z.rem_mod_nonneg by lia. set (j := i - (123 + 2 * 128)) in *.
  set (g := word (t_2level t) (j / 128)) in *.
  assert (0 <= j / 128 < 128) by (split; [apply Z.div_pos; lia|apply Z.div_lt_upper_bound; lia]).
  pose proof (Z.mod_pos_bound j 128 ltac:(lia)).
  erewrite bind_eq; [|exact R1]. pose proof (owns_stores _ _ _ L1 W1) as O1.
  destruct (alloc_zeroed_run s1 _ cur (j mod 128) O1 Hc) as (sec & s2 & R2 & O2 & B2 & I2 & Z2 & V2); [lia|].
  erewrite bind_eq; [|exact R2]. erewrite bind_eq; [|apply entry_run; lia].
  destruct (write_table_run s2 _ g (<[Z.to_nat (j mod 128) := sec]> cur) O2) as (s3 & R3 & O3 & I3 & T3' & V3).
  { apply elem_of_cons. right. apply elem_of_app. by right. } { by rewrite length_insert. }
  { apply Forall_insert; [done|]. eapply owns_word; [exact O2|apply list_elem_of_here]. }
  erewrite bind_eq; [|exact R3]. eexists _, s3, sec. split; [done|]. split; [|done].
  pose proof (ow_nodup _ _ O2) as Hnd. apply NoDup_cons in Hnd as [Hns Hnd].
  assert (sec <> g) as Hsg by (intros ->; apply Hns, elem_of_app; by right).
  assert (forall x, ~ FM x -> x ∉ [sec; g] -> fview s3 x = fview s x) as V.
  { intros x Hx Hn. rewrite !not_elem_of_cons in Hn. destruct Hn as (Hn1 & Hn2 & _).
    rewrite V3 by done. rewrite V2; [by apply (stores_view s)|done|].
    by intros ?%list_elem_of_singleton. }
  eapply (linv_add s s3 t _ bs sec [g]); try done.
  - by rewrite I3, I2, (stores_inodes _ _ _ W1).
  - by rewrite V3.
  - intros x ->%list_elem_of_singleton. split; [done|]. intros E.
    apply NoDup_app in Hnd as (_ & _ & Hnd). unfold meta, metas in Hnd. apply NoDup_app in Hnd as (Hnd & _).
    destruct (Z.geb_spec N (DIR_LEN + 2 * TABLE)); [|unfold DIR_LEN, TABLE in *; lia].
    apply NoDup_app in Hnd as (_ & _ & Hnd). apply NoDup_app in Hnd as (_ & _ & Hnd).
    apply NoDup_cons in Hnd as [Hnd _]. apply Hnd. rewrite <- E. by apply (page_in t N i).
  - rewrite <- Ei. intros k Hk. unfold tblock, set_cur. cbn [t_inode t_1st t_2nd t_2level].
    unfold DIR_LEN, TABLE. destruct (Z.ltb_spec k 123), (Z.ltb_spec k (123 + 128)), (Z.ltb_spec k (123 + 2 * 128)),
      (Z.eqb_spec k i) as [->|]; try lia; try done.
    + fold j g. rewrite T3'. apply word_insert_eq. lia.
    + set (jk := k - (123 + 2 * 128)). destruct (decide (jk / 128 = j / 128)) as [E|E].
      * rewrite E. fold g. destruct (same_page j jk ltac:(lia) E). rewrite T3', word_insert_ne by lia.
        by rewrite Hcur by lia.
      * unfold table. rewrite V; [done| |].
        { apply (ow_range _ _ L1), elem_of_app. right. apply (page_meta t k). unfold DIR_LEN, TABLE. lia. }
        intros [E1|[E2|[]%not_elem_of_nil]%elem_of_cons]%elem_of_cons.
        { apply Hns. rewrite <- E1. apply elem_of_app. right. apply (page_meta t k). unfold DIR_LEN, TABLE. lia. }
        apply E. apply (page_inj t N k i); unfold DIR_LEN, TABLE; [|lia|lia|done].
        apply NoDup_app in Hnd as (_ & _ & Hnd). unfold meta, metas in Hnd. apply NoDup_app in Hnd as (Hnd & _).
        destruct (Z.geb_spec N (DIR_LEN + 2 * TABLE)); [|unfold DIR_LEN, TABLE in *; lia].
        apply NoDup_app in Hnd as (_ & _ & Hnd). apply NoDup_app in Hnd as (_ & _ & Hnd).
        by apply NoDup_cons in Hnd as [_ ?].
Qed.

Lemma extend_step_run s t bs i :
  linv s t bs -> i = Z.of_nat (List.length bs) -> i <= N -> N < MAX_BLOCKS ->
  Z.of_nat (List.length (bs ++ meta t)) < C ->
  exists t' s' sec, extend_step wr p i t s = Ok (t', s') /\ linv s' t' (bs ++ [sec]) /\
    meta t' = meta t.
Proof.
  intros HL Ei Hi HN Hc. pose proof (li_wf _ _ _ HL) as (Wd & [T1 T1'] & [T2 T2'] & T3).
  destruct (Z_lt_dec i DIR_LEN); [by apply extend_step_dir|].
  destruct (Z_lt_dec i (DIR_LEN + 2 * TABLE)).
  - unfold extend_step. rewrite (proj2 (Z.ltb_ge i DIR_LEN)) by lia.
    destruct (Z.ltb_spec i (DIR_LEN + TABLE)).
    + apply (extend_step_table s t bs i (t_1st t) (i - DIR_LEN) (set_1st t)); try done.
      * unfold DIR_LEN, TABLE in *. lia.
      * intros x k Hk. apply tblock_set_1st; [lia|done|done].
    + rewrite (proj2 (Z.ltb_lt i _)) by lia.
      apply (extend_step_table s t bs i (t_2nd t) (i - DIR_LEN - TABLE) (set_2nd t)); try done.
      * unfold DIR_LEN, TABLE in *. lia.
      * intros x k Hk. apply tblock_set_2nd; [lia|done|done].
  - apply extend_step_double; try done; lia.
Qed.

Lemma extend_loop_run m : forall s t bs i,
  linv s t bs -> i = Z.of_nat (List.length bs) -> i + Z.of_nat m = N + 1 -> N < MAX_BLOCKS ->
  N + 1 + Z.of_nat (List.length (meta t)) <= C ->
  exists t' s' cs, extend_loop wr m p i t s = Ok (t', s') /\ linv s' t' (bs ++ cs) /\
    Z.of_nat (List.length (bs ++ cs)) = N + 1 /\ meta t' = meta t.
Proof.
  induction m as [|m IH]; intros s t bs i HL Ei Hm HN Hc.
  - exists t, s, []. rewrite app_nil_r. split; [done|]. split; [done|]. split; [lia|done].
  - destruct (extend_step_run s t bs i HL Ei) as (t1 & s1 & sec & R1 & L1 & M1);
      [lia|done|rewrite length_app; lia|].
    destruct (IH s1 t1 (bs ++ [sec]) (i + 1) L1) as (t2 & s2 & cs & R2 & L2 & E2 & M2);
      [rewrite length_app; simpl; lia|lia|done|by rewrite M1|].
    exists t2, s2, (sec :: cs). cbn [extend_loop]. erewrite bind_eq; [|exact R1].
    rewrite <- app_assoc in L2, E2. split; [done|]. split; [done|]. split; [done|congruence].
Qed.

(** ** Before the loop: the tables that are missing *)

Lemma extend_single_run s U di k fresh :
  owns s U -> inodes s !! p = Some (with_data i0 di) -> disk_wf di -> 0 <= k < 2 ->
  (fresh = true -> Z.of_nat (List.length U) < C) ->
  exists s' di' U', extend_single wr p k fresh s = Ok (tt, s') /\ owns s' U' /\
    inodes s' !! p = Some (with_data i0 di') /\ disk_wf di' /\ vframe s s' [] /\
    if fresh then exists sec, U' = sec :: U /\ bit (free_map s0) sec = false /\
                    di' = set_single di (<[Z.to_nat k := sec]> (single_indir di))
    else U' = U /\ di' = di.
Proof.
  intros Ho Hp Hd Hk Hc. unfold extend_single. destruct fresh; [|exists s, di, U; done].
  pose proof (dw_single _ Hd) as [Hsl Hsw].
  erewrite bind_eq; [|by apply get_inode_run]. cbn [data with_data].
  destruct (alloc_entry_run s U (single_indir di) k Ho (Hc eq_refl)) as (sec & s1 & R1 & O1 & B1 & I1 & V1); [lia|].
  erewrite bind_eq; [|exact R1].
  set (di' := set_single di _).
  destruct (set_data_run s1 _ (with_data i0 di) di' O1) as (s2 & R2 & O2 & I2 & V2); [by rewrite I1|].
  exists s2, di', (sec :: U). split; [done|]. split; [done|]. split; [done|]. split; [|split].
  - destruct Hd. split; try done. simpl. split; [by rewrite length_insert|].
    apply Forall_insert; [done|]. eapply owns_word; [exact O1|apply list_elem_of_here].
  - intros x Hx Hn. rewrite V2. by apply V1.
  - by exists sec.
Qed.

(** The words of [ws] at [i], [i + 1], ..., [m] of them. *)
Definition words_at (ws : list Z) (i : Z) (m : nat) : list Z := map (word ws) (seqZ i (Z.of_nat m)).

Lemma words_at_S ws i m : words_at ws i (Datatypes.S m) = word ws i :: words_at ws (i + 1) m.
Proof.
  unfold words_at. rewrite seqZ_cons by lia. cbn [map]. f_equal. do 2 f_equal; lia.
Qed.

Lemma alloc_pages_run m : forall s U i ws,
  owns s U -> 0 <= i -> i + Z.of_nat m <= 128 -> List.length ws = 128%nat -> Forall is_word ws ->
  Z.of_nat (List.length U) + Z.of_nat m <= C ->
  exists ws' s', alloc_pages wr m i ws s = Ok (ws', s') /\ owns s' (words_at ws' i m ++ U) /\
    List.length ws' = 128%nat /\ Forall is_word ws' /\ inodes s' = inodes s /\ vframe s s' [] /\
    (forall x, x ∈ words_at ws' i m -> bit (free_map s0) x = false) /\
    (forall k, 0 <= k < i -> word ws' k = word ws k).
Proof.
  induction m as [|m IH]; intros s U i ws Ho Hi Hm Hl Hw Hc; cbn [alloc_pages].
  - exists ws, s. unfold words_at. rewrite seqZ_nil by lia. split_and!; try done.
    intros x Hx. by apply not_elem_of_nil in Hx.
  - destruct (alloc_entry_run s U ws i Ho) as (sec & s1 & R1 & O1 & B1 & I1 & V1); [lia|lia|].
    erewrite bind_eq; [|exact R1].
    destruct (IH s1 (sec :: U) (i + 1) (<[Z.to_nat i := sec]> ws)) as
      (ws' & s2 & R2 & O2 & Hl2 & Hw2 & I2 & V2 & F2 & K2); [done|lia|lia|by rewrite length_insert| |simpl; lia|].
    { apply Forall_insert; [done|]. eapply owns_word; [exact O1|apply list_elem_of_here]. }
    assert (word ws' i = sec) as Es by (rewrite K2 by lia; apply word_insert_eq; lia).
    exists ws', s2. rewrite words_at_S, Es. split; [done|]. split; [|split; [done|split; [done|]]].
    + eapply owns_perm; [|exact O2]. simpl. by rewrite Permutation_middle.
    + split; [congruence|]. split; [|split].
      * intros x Hx Hn. rewrite V2 by done. by apply V1.
      * intros x [->|Hx]%elem_of_cons; [done|by apply F2].
      * intros k Hk. rewrite K2 by lia. apply word_insert_ne; lia.
Qed.

(** The double-indirect table, with its pages up to the one of block [N]. *)
Lemma extend_double_run s U di O (Pn := (N - (DIR_LEN + 2 * TABLE)) / TABLE)
    (Po := if O <? DIR_LEN + 2 * TABLE then -1 else (O - (DIR_LEN + 2 * TABLE)) / TABLE) :
  owns s U -> inodes s !! p = Some (with_data i0 di) -> disk_wf di ->
  0 <= O <= N -> DIR_LEN + 2 * TABLE <= N < MAX_BLOCKS ->
  (DIR_LEN + 2 * TABLE <= O -> double_indir di ∈ U) ->
  Z.of_nat (List.length U) + (if O <? DIR_LEN + 2 * TABLE then 1 else 0) + (Pn - Po) <= C ->
  exists t2 s' di' U', extend_double wr p O N s = Ok (t2, s') /\
    owns s' (words_at t2 (Po + 1) (Z.to_nat (Pn - Po)) ++ U') /\
    inodes s' !! p = Some (with_data i0 di') /\ disk_wf di' /\
    List.length t2 = 128%nat /\ Forall is_word t2 /\ vframe s s' [double_indir di'] /\
    (forall x, x ∈ words_at t2 (Po + 1) (Z.to_nat (Pn - Po)) -> bit (free_map s0) x = false) /\
    table (fview s') (double_indir di') = t2 /\
    if O <? DIR_LEN + 2 * TABLE
    then U' = double_indir di' :: U /\ di' = set_double di (double_indir di') /\
         bit (free_map s0) (double_indir di') = false
    else U' = U /\ di' = di /\
         forall k, 0 <= k <= Po -> word t2 k = word (table (fview s) (double_indir di)) k.
Proof.
  intros Ho Hp Hd HO HN Hdb Hc. unfold MAX_BLOCKS, DIR_LEN, TABLE in *.
  assert (0 <= Pn < 128) as HPn by (unfold Pn; split; [apply Z.div_pos; lia|apply Z.div_lt_upper_bound; lia]).
  assert (-1 <= Po <= Pn) as HPo.
  { unfold Po, Pn. destruct (Z.ltb_spec O (123 + 2 * 128)); [unfold Pn in HPn; lia|].
    split; [pose proof (Z.div_pos (O - (123 + 2 * 128)) 128); lia|apply Z.div_le_mono; lia]. }
  (* the table itself *)
  assert (exists s1 di1 U1,
    (if O <? 123 + 2 * 128 then
       let! inode := get_inode p in
       let! v := alloc_into wr (double_indir (data inode)) in
       set_data p (set_double (data inode) v)
     else ret tt) s = Ok (tt, s1) /\ owns s1 U1 /\ inodes s1 !! p = Some (with_data i0 di1) /\
    disk_wf di1 /\ vframe s s1 [] /\ double_indir di1 ∈ U1 /\
    (if O <? 123 + 2 * 128
     then U1 = double_indir di1 :: U /\ di1 = set_double di (double_indir di1) /\
          bit (free_map s0) (double_indir di1) = false
     else U1 = U /\ di1 = di /\ s1 = s)) as (s1 & di1 & U1 & R1 & O1 & I1 & D1 & V1 & In1 & E1).
  { destruct (Z.ltb_spec O (123 + 2 * 128)).
    - erewrite bind_eq; [|by apply get_inode_run]. cbn [data with_data].
      destruct (alloc_into_run s U (double_indir di) Ho) as (sec & s1 & R1 & O1 & B1 & I1 & V1); [lia|].
      erewrite bind_eq; [|exact R1].
      destruct (set_data_run s1 _ (with_data i0 di) (set_double di sec) O1) as (s2 & R2 & O2 & I2 & V2); [by rewrite I1|].
      exists s2, (set_double di sec), (sec :: U). split; [done|]. split; [done|]. split; [done|].
      split; [|split; [intros x Hx Hn; rewrite V2; by apply V1|split; [apply list_elem_of_here|done]]].
      destruct Hd. split; try done. simpl. eapply owns_word; [exact O1|apply list_elem_of_here].
    - exists s, di, U. split_and!; try done. by apply Hdb. }
  unfold extend_double, DIR_LEN, TABLE. erewrite bind_eq; [|exact R1].
  erewrite bind_eq; [|by apply get_inode_run]. cbn [data with_data].
  destruct (read_table_run s1 (double_indir di1)) as (s2 & R2 & W2); [apply (ow_inv _ _ O1)| |].
  { rewrite (ow_size _ _ O1). by apply (ow_range _ _ O1). }
  erewrite bind_eq; [|exact R2]. pose proof (owns_stores _ _ _ O1 W2) as O2.
  destruct (table_wf s1 (double_indir di1) (ow_inv _ _ O1)) as [Tl Tw].
  rewrite Z.quot_div_nonneg by lia. fold Pn.
  replace (if O - (123 + 2 * 128) <? 0 then -1 else (O - (123 + 2 * 128)) ÷ 128) with Po.
  2: { unfold Po. destruct (Z.ltb_spec O (123 + 2 * 128)), (Z.ltb_spec (O - (123 + 2 * 128)) 0); try lia; try done.
       by rewrite Z.quot_div_nonneg by lia. }
  destruct (alloc_pages_run (Z.to_nat (Pn - Po)) s2 U1 (Po + 1) (table (fview s1) (double_indir di1)))
    as (t2 & s3 & R3 & O3 & Hl3 & Hw3 & I3 & V3 & F3 & K3); [done|lia|lia|done|done| |].
  { destruct (Z.ltb_spec O (123 + 2 * 128)); destruct E1 as (-> & _); simpl; lia. }
  erewrite bind_eq; [|exact R3].
  destruct (write_table_run s3 _ (double_indir di1) t2 O3) as (s4 & R4 & O4 & I4 & T4 & V4);
    [apply elem_of_app; by right|done|done|].
  erewrite bind_eq; [|exact R4]. exists t2, s4, di1, U1.
  split; [done|]. split; [done|]. split; [by rewrite I4, I3, (stores_inodes _ _ _ W2)|].
  split; [done|]. split; [done|]. split; [done|]. split; [|split; [done|split; [done|]]].
  - intros x Hx Hn. rewrite V4 by (intros ->; by apply Hn, list_elem_of_here).
    rewrite V3 by (done || apply not_elem_of_nil). rewrite (stores_view _ _ _ _ W2).
    apply V1; [done|apply not_elem_of_nil].
  - destruct (O <? 123 + 2 * 128); [done|]. destruct E1 as (-> & -> & ->). split; [done|]. split; [done|].
    intros k Hk. rewrite K3 by lia. done.
Qed.

(** ** After the loop: the tables and the inode are written *)

Lemma write_single_run s U (c : bool) di k ws :
  owns s U -> (c = true -> word (single_indir di) k ∈ U) -> List.length (single_indir di) = 2%nat ->
  0 <= k < 2 -> List.length ws = 128%nat -> Forall is_word ws ->
  exists s', (if c then let! v := entry (single_indir di) k in write_table v ws else ret tt) s = Ok (tt, s') /\
    owns s' U /\ inodes s' = inodes s /\
    (c = true -> table (fview s') (word (single_indir di) k) = ws) /\
    (forall x, (c = true -> x <> word (single_indir di) k) -> fview s' x = fview s x).
Proof.
  intros Ho Hin Hl Hk Hwl Hww. destruct c; [|exists s; done].
  erewrite bind_eq; [|apply entry_run; lia].
  destruct (write_table_run s U (word (single_indir di) k) ws Ho (Hin eq_refl) Hwl Hww)
    as (s' & R & O & I & T & V). exists s'. split_and!; auto.
Qed.

(** The sectors of the tables are all different. *)
Lemma meta_distinct t (s1 := word (single_indir (t_inode t)) 0) (s2 := word (single_indir (t_inode t)) 1) :
  NoDup (meta t) ->
  (DIR_LEN <= N -> s1 <> sector i0) /\
  (DIR_LEN + TABLE <= N -> s2 <> sector i0 /\ s2 <> s1) /\
  (DIR_LEN + 2 * TABLE <= N -> forall g, g ∈ double_indir (t_inode t) :: pages t N ->
     g <> sector i0 /\ g <> s1 /\ g <> s2).
Proof.
  unfold meta, metas, DIR_LEN, TABLE. fold s1 s2. intros Hnd.
  destruct (Z.geb_spec N 123), (Z.geb_spec N (123 + 128)), (Z.geb_spec N (123 + 2 * 128)); try lia;
    rewrite <- ?app_assoc in Hnd; simpl in Hnd;
    repeat match type of Hnd with NoDup (_ :: _) =>
      let H := fresh "Hn" in apply NoDup_cons in Hnd as [H Hnd] end.
  all: split_and!; [intros ?; try lia; intros E|intros ?; try lia; split; intros E|intros ? g Hg; try lia].
  all: try (match goal with H : ?a ∉ _, E : ?a = _ |- _ => apply H; rewrite E; in_list
            | H : ?b ∉ _, E : _ = ?b |- _ => apply H; rewrite <- E; in_list end).
  split_and!; intros E.
  - apply elem_of_cons in Hg as [->|Hg]; [apply Hn2; rewrite E; in_list|].
    apply NoDup_app in Hnd as (_ & Hd & _). apply (Hd g Hg). rewrite E. apply list_elem_of_here.
  - apply Hn. rewrite <- E. apply elem_of_cons. right. apply elem_of_cons in Hg. in_list.
  - apply Hn1. rewrite <- E. apply elem_of_cons in Hg. in_list.
Qed.

(** The map of the inode when its tables on disk are those in memory. *)
Lemma block_of_tables v t k :
  0 <= k <= N ->
  (DIR_LEN <= N -> table v (word (single_indir (t_inode t)) 0) = t_1st t) ->
  (DIR_LEN + TABLE <= N -> table v (word (single_indir (t_inode t)) 1) = t_2nd t) ->
  (DIR_LEN + 2 * TABLE <= N -> table v (double_indir (t_inode t)) = t_2level t) ->
  block v (t_inode t) k = tblock v t k.
Proof.
  intros Hk H1 H2 H3. unfold block, tblock, DIR_LEN, TABLE in *.
  destruct (Z.ltb_spec k 123); [done|]. destruct (Z.ltb_spec k (123 + 128)); [by rewrite H1 by lia|].
  destruct (Z.ltb_spec k (123 + 2 * 128)); [by rewrite H2 by lia|]. by rewrite H3 by lia.
Qed.

Lemma extend_finish s t bs :
  linv s t bs -> Z.of_nat (List.length bs) = N + 1 ->
  exists s', extend_write_back (sector i0) N t s = Ok (tt, s') /\
    owns s' (bs ++ meta t) /\ inodes s' = inodes s /\
    (forall k, 0 <= k <= N -> block (fview s') (t_inode t) k = word bs k) /\
    metas (disk_tables (fview s') (t_inode t)) N = metas t N /\
    fview s' (sector i0) = encode (t_inode t) /\
    (forall x, x ∉ meta t -> fview s' x = fview s x).
Proof.
  intros [L1 L2 (Wd & [T1 T1'] & [T2 T2'] & _) L4 L5 L6 L8 L7 L9] Hlen.
  pose proof (dw_single _ Wd) as [Hsl _].
  pose proof (ow_nodup _ _ L1) as Hnd. apply NoDup_app in Hnd as (_ & _ & Hnd).
  destruct (meta_distinct t Hnd) as (D1 & D2 & D3).
  assert (DIR_LEN <= N -> word (single_indir (t_inode t)) 0 ∈ meta t) as M1.
  { intros. unfold meta, metas. rewrite (proj2 (Z.geb_le _ _)) by done. in_list. }
  assert (DIR_LEN + TABLE <= N -> word (single_indir (t_inode t)) 1 ∈ meta t) as M2.
  { intros. unfold meta, metas. rewrite (proj2 (Z.geb_le N (DIR_LEN + TABLE))) by done. in_list. }
  destruct (write_single_run s _ (N >=? DIR_LEN) (t_inode t) 0 (t_1st t) L1) as (s1 & R1 & O1 & I1 & E1 & V1);
    [rewrite Z.geb_le; intros; apply elem_of_app; auto|done|lia|done|done|].
  destruct (write_single_run s1 _ (N >=? DIR_LEN + TABLE) (t_inode t) 1 (t_2nd t) O1) as (s2 & R2 & O2 & I2 & E2 & V2);
    [rewrite Z.geb_le; intros; apply elem_of_app; auto|done|lia|done|done|].
  assert (sector i0 ∈ meta t) as M3 by (unfold meta; in_list).
  destruct (owns_write s2 _ (sector i0) (encode (t_inode t)) O2) as (s3 & R3 & O3 & I3 & E3 & V3);
    [apply elem_of_app; auto|by apply encode_length|apply encode_bytes|].
  rewrite Z.geb_le in E1, E2. setoid_rewrite Z.geb_le in V1. setoid_rewrite Z.geb_le in V2.
  exists s3. unfold extend_write_back. erewrite bind_eq; [|exact R1]. erewrite bind_eq; [|exact R2].
  split; [done|]. split; [done|]. split; [congruence|].
  assert (forall g, DIR_LEN + 2 * TABLE <= N -> g ∈ double_indir (t_inode t) :: pages t N ->
            fview s3 g = fview s g) as Vg.
  { intros g HN Hg. destruct (D3 HN g Hg) as (? & ? & ?). rewrite V3, V2, V1 by done. done. }
  assert (DIR_LEN <= N -> table (fview s3) (word (single_indir (t_inode t)) 0) = t_1st t) as F1.
  { intros HN. rewrite <- (E1 HN). unfold table. rewrite V3 by auto. rewrite V2; [done|].
    intros HN2 E. by apply (D2 HN2). }
  assert (DIR_LEN + TABLE <= N -> table (fview s3) (word (single_indir (t_inode t)) 1) = t_2nd t) as F2.
  { intros HN. rewrite <- (E2 HN). unfold table. by rewrite V3 by (by apply D2). }
  assert (DIR_LEN + 2 * TABLE <= N -> table (fview s3) (double_indir (t_inode t)) = t_2level t) as F3.
  { intros HN. rewrite <- (L8 HN). unfold table. rewrite Vg; [done|done|apply list_elem_of_here]. }
  split; [|split; [|split; [done|]]].
  - intros k Hk. rewrite block_of_tables by done. rewrite <- (L4 k) by lia. apply tblock_view. intros Hk2.
    apply Vg; [lia|]. apply elem_of_cons. right. apply page_in. lia.
  - unfold metas, pages, disk_tables. cbn [t_inode t_2level].
    destruct (Z.geb_spec N (DIR_LEN + 2 * TABLE)); [by rewrite F3|done].
  - intros x Hx. rewrite V3 by congruence. rewrite V2 by (intros ? ->; auto).
    by rewrite V1 by (intros ? ->; auto).
Qed.
(** ** The state at the start of the loop *)

Lemma pages_old t T0 O (Pn := (N - (DIR_LEN + 2 * TABLE)) / TABLE) (Po := (O - (DIR_LEN + 2 * TABLE)) / TABLE) :
  DIR_LEN + 2 * TABLE <= O <= N ->
  (forall k, 0 <= k <= Po -> word (t_2level t) k = word (t_2level T0) k) ->
  pages t N = pages T0 O ++ words_at (t_2level t) (Po + 1) (Z.to_nat (Pn - Po)).
Proof.
  intros HO Hk. unfold pages, words_at. fold Pn Po. unfold DIR_LEN, TABLE in *.
  assert (0 <= Po <= Pn) as HP by (unfold Po, Pn; split; [apply Z.div_pos|apply Z.div_le_mono]; lia).
  rewrite Z2Nat.id by lia. replace (Pn + 1) with ((Po + 1) + (Pn - Po)) by lia.
  rewrite seqZ_app, map_app by lia. f_equal.
  apply map_ext_in. intros k Hin%list_elem_of_In%elem_of_seqZ. apply Hk. lia.
Qed.
Lemma pages_new t (Pn := (N - (DIR_LEN + 2 * TABLE)) / TABLE) :
  DIR_LEN + 2 * TABLE <= N -> pages t N = words_at (t_2level t) (-1 + 1) (Z.to_nat (Pn - -1)).
Proof.
  intros HN. unfold pages, words_at. fold Pn. unfold DIR_LEN, TABLE in *.
  assert (0 <= Pn) by (unfold Pn; apply Z.div_pos; lia). rewrite Z2Nat.id by lia. by do 2 f_equal.
Qed.

(** The tables the file has before, up to block [O], and the ones it gets. *)
Definition tab (c : bool) (xs : list Z) : list Z := if c then xs else [].

Lemma read_single_run s U (c : bool) di k :
  owns s U -> (c = true -> word (single_indir di) k ∈ U) -> List.length (single_indir di) = 2%nat ->
  0 <= k < 2 ->
  exists ws s', (if c then let! v := entry (single_indir di) k in read_table v else ret no_table) s = Ok (ws, s') /\
    stores s s' (fview s) /\ List.length ws = 128%nat /\ Forall is_word ws /\
    (c = true -> ws = table (fview s) (word (single_indir di) k)).
Proof.
  intros Ho Hin Hl Hk. destruct c.
  - erewrite bind_eq; [|apply entry_run; lia].
    destruct (read_table_run s (word (single_indir di) k)) as (s' & R & W); [apply (ow_inv _ _ Ho)| |].
    { rewrite (ow_size _ _ Ho). by apply (ow_range _ _ Ho), Hin. }
    destruct (table_wf s (word (single_indir di) k) (ow_inv _ _ Ho)). eexists _, s'. split; [exact R|]. done.
  - exists no_table, s. split; [done|]. split; [apply stores_refl, (ow_inv _ _ Ho)|].
    destruct no_table_wf. done.
Qed.

Lemma geb_ltb_cases N' O' thr : O' <= N' ->
  (N' >=? thr) && (O' <? thr) = true /\ (N' >=? thr) = true /\ (O' >=? thr) = false \/
  (N' >=? thr) && (O' <? thr) = false /\ (N' >=? thr) = (O' >=? thr).
Proof.
  intros. destruct (Z.geb_spec N' thr), (Z.ltb_spec O' thr), (Z.geb_spec O' thr); simpl; try lia; auto.
Qed.

(** Entry [k] of the single-indirect pointers after its table has been provided. *)
Lemma single_step s U O di k thr :
  owns s U -> inodes s !! p = Some (with_data i0 di) -> disk_wf di -> 0 <= k < 2 -> O <= N ->
  Z.of_nat (List.length U) + (if (N >=? thr) && (O <? thr) then 1 else 0) <= C ->
  exists s' di' X, extend_single wr p k ((N >=? thr) && (O <? thr)) s = Ok (tt, s') /\ owns s' (X ++ U) /\
    inodes s' !! p = Some (with_data i0 di') /\ disk_wf di' /\ vframe s s' [] /\
    tab (N >=? thr) [word (single_indir di') k] = X ++ tab (O >=? thr) [word (single_indir di) k] /\
    ((O >=? thr) = true -> word (single_indir di') k = word (single_indir di) k) /\
    (forall j, 0 <= j < 2 -> j <> k -> word (single_indir di') j = word (single_indir di) j) /\
    dir di' = dir di /\ double_indir di' = double_indir di /\ length di' = length di /\
    Z.of_nat (List.length X) = (if (N >=? thr) && (O <? thr) then 1 else 0) /\
    (forall x, x ∈ X -> bit (free_map s0) x = false).
Proof.
  intros Ho Hp Hd Hk HO Hc.
  destruct (extend_single_run s U di k ((N >=? thr) && (O <? thr)) Ho Hp Hd Hk) as (s' & di' & U' & R & O' & I' & D' & V' & E').
  { intros E. rewrite E in Hc. lia. }
  pose proof (dw_single _ Hd) as [Hsl _]. exists s', di'.
  destruct (geb_ltb_cases N O thr HO) as [(E1 & E2 & E3)|(E1 & E2)]; rewrite E1 in *.
  - destruct E' as (sec & -> & B & ->). exists [sec]. rewrite E2, E3. unfold tab. cbn [single_indir set_single dir double_indir length].
    rewrite word_insert_eq by lia. split_and!; try done.
    + intros j Hj Hne. apply word_insert_ne; lia.
    + by intros x ->%list_elem_of_singleton.
  - destruct E' as (-> & ->). exists []. rewrite E2. split_and!; try done.
    intros x Hx. by apply not_elem_of_nil in Hx.
Qed.
Definition pages_of (ws : list Z) (n : Z) : list Z :=
  map (word ws) (seqZ 0 ((n - (DIR_LEN + 2 * TABLE)) / TABLE + 1)).
(** The number of pages of the double-indirect table. *)
Definition npages (n : Z) : Z :=
  if n >=? DIR_LEN + 2 * TABLE then 1 + ((n - (DIR_LEN + 2 * TABLE)) / TABLE + 1) else 0.

(** The double-indirect table after it has been provided. *)
Lemma double_step s U O di (thr := DIR_LEN + 2 * TABLE) :
  owns s U -> inodes s !! p = Some (with_data i0 di) -> disk_wf di -> 0 <= O <= N -> N < MAX_BLOCKS ->
  ((O >=? thr) = true -> double_indir di ∈ U) ->
  Z.of_nat (List.length U) + (npages N - npages O) <= C ->
  exists t2 s' di' X, (if N >=? thr then extend_double wr p O N else ret no_table) s = Ok (t2, s') /\
    owns s' (X ++ U) /\ inodes s' !! p = Some (with_data i0 di') /\ disk_wf di' /\
    List.length t2 = 128%nat /\ Forall is_word t2 /\ vframe s s' (tab (N >=? thr) [double_indir di']) /\
    Permutation (tab (N >=? thr) (double_indir di' :: pages_of t2 N))
      (X ++ tab (O >=? thr) (double_indir di :: pages_of (table (fview s) (double_indir di)) O)) /\
    ((N >=? thr) = true -> table (fview s') (double_indir di') = t2) /\
    ((O >=? thr) = true -> double_indir di' = double_indir di /\
       forall k, 0 <= k <= (O - thr) / TABLE -> word t2 k = word (table (fview s) (double_indir di)) k) /\
    single_indir di' = single_indir di /\ dir di' = dir di /\ length di' = length di /\
    (forall x, x ∈ X -> bit (free_map s0) x = false).
Proof.
  intros Ho Hp Hd HO HN Hdb Hc. fold thr in Hc |- *. unfold npages in Hc. fold thr in Hc.
  destruct (Z.geb_spec N thr) as [HNt|HNt].
  2: { exists no_table, s, di, []. destruct no_table_wf. rewrite Z.geb_leb, (proj2 (Z.leb_gt thr O)) by lia.
       split_and!; try done. intros x Hx. by apply not_elem_of_nil in Hx. }
  assert (DIR_LEN + 2 * TABLE <= N < MAX_BLOCKS) as HN2 by (unfold thr in HNt; lia).
  rewrite Z.geb_leb in *.
  destruct (extend_double_run s U di O Ho Hp Hd HO HN2) as
    (t2 & s' & di' & U' & R & O' & I' & D' & Tl & Tw & V' & F' & T' & E').
  { intros HOt. apply Hdb, Z.leb_le. done. }
  { fold thr. destruct (Z.leb_spec thr O), (Z.ltb_spec O thr); lia. }
  fold thr in E', O', F'. destruct (Z.leb_spec thr O) as [HOt|HOt].
  - rewrite (proj2 (Z.ltb_ge O thr)) in E', O', F' by lia. destruct E' as (-> & -> & Ek).
    eexists t2, s', di, _. split; [done|]. split; [exact O'|]. split_and!; try done.
    pose proof (pages_old {| t_inode := di; t_1st := []; t_2nd := []; t_2level := t2; t_cur := [] |}
      (disk_tables (fview s) di) O) as HP. cbn [t_2level disk_tables] in HP.
    unfold pages in HP. cbn [t_2level] in HP. unfold tab, pages_of. rewrite HP by (done || lia).
    solve_Permutation.
  - rewrite (proj2 (Z.ltb_lt O thr)) in E', O', F' by lia. destruct E' as (-> & Ed & Eb).
    exists t2, s', di', (words_at t2 (-1 + 1) (Z.to_nat ((N - thr) / TABLE - -1)) ++ [double_indir di']).
    rewrite <- app_assoc. pose proof (pages_new {| t_inode := di; t_1st := []; t_2nd := []; t_2level := t2; t_cur := [] |}) as HP.
    unfold pages in HP. cbn [t_2level] in HP.
    split; [done|]. split; [exact O'|]. split_and!; try done; [|by rewrite Ed..|].
    + unfold tab, pages_of. rewrite HP by lia. fold thr. solve_Permutation.
    + intros x [Hx| ->%list_elem_of_singleton]%elem_of_app; auto.
Qed.
Lemma metas_tab t n :
  metas t n = tab (n >=? DIR_LEN) [word (single_indir (t_inode t)) 0] ++
    tab (n >=? DIR_LEN + TABLE) [word (single_indir (t_inode t)) 1] ++
    tab (n >=? DIR_LEN + 2 * TABLE) (double_indir (t_inode t) :: pages_of (t_2level t) n).
Proof. done. Qed.

(** The number of table sectors of a file whose last block is [n]. *)
Definition nmeta (n : Z) : Z :=
  (if n >=? DIR_LEN then 1 else 0) + (if n >=? DIR_LEN + TABLE then 1 else 0) + npages n.
Lemma metas_length t n : Z.of_nat (List.length (metas t n)) = nmeta n.
Proof.
  rewrite metas_tab, !length_app. unfold nmeta, npages, tab, DIR_LEN, TABLE.
  destruct (Z.geb_spec n (123 + 2 * 128));
    [assert (0 <= (n - (123 + 2 * 128)) / 128) by (apply Z.div_pos; lia)|];
    destruct (n >=? 123), (n >=? 123 + 128); simpl; unfold pages_of;
    rewrite ?length_map, ?length_seqZ; unfold DIR_LEN, TABLE; lia.
Qed.
Lemma nmeta_single n O thr : O <= n ->
  (if (n >=? thr) && (O <? thr) then 1 else 0) =
  (if n >=? thr then 1 else 0) - (if O >=? thr then 1 else 0).
Proof. intros. destruct (Z.geb_spec n thr), (Z.ltb_spec O thr), (Z.geb_spec O thr); simpl; lia. Qed.
Lemma npages_mono O n : O <= n -> npages O <= npages n.
Proof.
  intros. unfold npages, DIR_LEN, TABLE.
  destruct (Z.geb_spec n (123 + 2 * 128)), (Z.geb_spec O (123 + 2 * 128)); try lia.
  - pose proof (Z.div_le_mono (O - (123 + 2 * 128)) (n - (123 + 2 * 128)) 128). lia.
  - pose proof (Z.div_pos (n - (123 + 2 * 128)) 128). lia.
Qed.

(** The blocks of the file are still found through the tables that were read. *)
Lemma blocks_kept v0 v t k O :
  0 <= k <= O -> dir (t_inode t) = dir (data i0) ->
  (DIR_LEN <= O -> t_1st t = table v0 (word (single_indir (data i0)) 0)) ->
  (DIR_LEN + TABLE <= O -> t_2nd t = table v0 (word (single_indir (data i0)) 1)) ->
  (DIR_LEN + 2 * TABLE <= O -> forall j, 0 <= j <= (O - (DIR_LEN + 2 * TABLE)) / TABLE ->
     word (t_2level t) j = word (table v0 (double_indir (data i0))) j /\
     v (word (table v0 (double_indir (data i0))) j) = v0 (word (table v0 (double_indir (data i0))) j)) ->
  tblock v t k = block v0 (data i0) k.
Proof.
  intros Hk Ed E1 E2 E3. unfold tblock, block, DIR_LEN, TABLE in *.
  destruct (Z.ltb_spec k 123); [by rewrite Ed|]. destruct (Z.ltb_spec k (123 + 128)); [by rewrite E1 by lia|].
  destruct (Z.ltb_spec k (123 + 2 * 128)); [by rewrite E2 by lia|].
  destruct (E3 ltac:(lia) ((k - (123 + 2 * 128)) / 128)) as [-> Ev].
  { split; [apply Z.div_pos|apply Z.div_le_mono]; lia. }
  unfold table at 1 3. by rewrite Ev.
Qed.

Lemma tab_in (c : bool) x xs : c = true -> x ∈ xs -> x ∈ tab c xs.
Proof. by intros ->. Qed.
Lemma vframe_trans s s' s'' W : vframe s s' [] -> vframe s' s'' W -> vframe s s'' W.
Proof. intros V1 V2 x Hf Hx. rewrite V2 by done. apply V1; [done|apply not_elem_of_nil]. Qed.

(** The sectors of the tables found through an on-disk inode and a double-indirect table. *)
Definition metas_of (di : inode_disk) (t2 : list Z) (n : Z) : list Z :=
  tab (n >=? DIR_LEN) [word (single_indir di) 0] ++ tab (n >=? DIR_LEN + TABLE) [word (single_indir di) 1] ++
  tab (n >=? DIR_LEN + 2 * TABLE) (double_indir di :: pages_of t2 n).

(** The allocation of the missing tables, the sectors [X]. *)
Lemma extend_alloc_run O U (T0 := disk_tables (fview s0) (data i0)) :
  owns s0 U -> inodes s0 !! p = Some i0 -> disk_wf (data i0) -> 0 <= O <= N -> N < MAX_BLOCKS ->
  (forall x, x ∈ metas T0 O -> 0 <= x /\ ~ FM x /\ x ∈ U) -> Z.of_nat (List.length U) + (nmeta N - nmeta O) <= C ->
  exists t2 s di X,
    (forall A (k : list Z -> M fs A),
      (do! extend_single wr p 0 ((N >=? DIR_LEN) && (O <? DIR_LEN));
       do! extend_single wr p 1 ((N >=? DIR_LEN + TABLE) && (O <? DIR_LEN + TABLE));
       let! t2 := (if N >=? DIR_LEN + 2 * TABLE then extend_double wr p O N else ret no_table) in k t2) s0 = k t2 s) /\
    owns s (X ++ U) /\ inodes s !! p = Some (with_data i0 di) /\ disk_wf di /\
    List.length t2 = 128%nat /\ Forall is_word t2 /\
    Permutation (metas_of di t2 N) (X ++ metas T0 O) /\
    vframe s0 s (tab (N >=? DIR_LEN + 2 * TABLE) [double_indir di]) /\
    (DIR_LEN <= O -> word (single_indir di) 0 = word (single_indir (data i0)) 0) /\
    (DIR_LEN + TABLE <= O -> word (single_indir di) 1 = word (single_indir (data i0)) 1) /\
    (DIR_LEN + 2 * TABLE <= N -> table (fview s) (double_indir di) = t2) /\
    (DIR_LEN + 2 * TABLE <= O -> forall k, 0 <= k <= (O - (DIR_LEN + 2 * TABLE)) / TABLE ->
       word t2 k = word (table (fview s0) (double_indir (data i0))) k) /\
    dir di = dir (data i0) /\ length di = length (data i0) /\
    (forall x, x ∈ X -> bit (free_map s0) x = false) /\
    (DIR_LEN + 2 * TABLE <= O -> double_indir di = double_indir (data i0)) /\
    (O < DIR_LEN + 2 * TABLE <= N -> double_indir di ∈ X).
Proof.
  intros Ho Hp Hd HO HN HU Hc.
  assert (inodes s0 !! p = Some (with_data i0 (data i0))) as Hp' by (rewrite Hp; by destruct i0).
  pose proof (nmeta_single N O DIR_LEN ltac:(lia)) as Q1.
  pose proof (nmeta_single N O (DIR_LEN + TABLE) ltac:(lia)) as Q2.
  pose proof (npages_mono O N ltac:(lia)) as Q3. unfold nmeta in Hc.
  destruct (single_step s0 U O (data i0) 0 DIR_LEN Ho Hp' Hd) as
    (s1 & d1 & X1 & R1 & O1 & P1 & D1 & V1 & M1 & K1 & J1 & dir1 & dbl1 & len1 & L1 & F1); [lia|lia| |].
  { destruct ((N >=? DIR_LEN + TABLE) && (O <? DIR_LEN + TABLE)); lia. }
  destruct (single_step s1 _ O d1 1 (DIR_LEN + TABLE) O1 P1 D1) as
    (s2 & d2 & X2 & R2 & O2 & P2 & D2 & V2 & M2 & K2 & J2 & dir2 & dbl2 & len2 & L2 & F2); [lia|lia| |].
  { rewrite length_app. lia. }
  pose proof (vframe_trans _ _ _ _ V1 V2) as V02. rewrite J1 in M2, K2 by lia.
  assert ((O >=? DIR_LEN + 2 * TABLE) = true -> 0 <= double_indir (data i0) /\ ~ FM (double_indir (data i0)) /\ double_indir (data i0) ∈ U) as HdU.
  { intros E. apply HU. rewrite metas_tab, E. unfold tab. cbn [T0 disk_tables t_inode]. in_list. }
  assert ((O >=? DIR_LEN + 2 * TABLE) = true ->
    table (fview s2) (double_indir (data i0)) = table (fview s0) (double_indir (data i0))) as Tsame.
  { intros E. unfold table. rewrite V02; [done|by apply HdU|apply not_elem_of_nil]. }
  destruct (double_step s2 _ O d2 O2 P2 D2 HO HN) as
    (t2 & s3 & d3 & X3 & R3 & O3 & P3 & D3 & Tl & Tw & V3 & M3 & T3 & K3 & sin3 & dir3 & len3 & F3).
  { intros E. rewrite dbl2, dbl1. apply elem_of_app. right. apply elem_of_app. right. by apply HdU. }
  { rewrite !length_app. lia. }
  rewrite dbl2, dbl1 in M3, K3.
  exists t2, s3, d3, (X3 ++ X2 ++ X1).
  split. { intros A k. erewrite bind_eq; [|exact R1]. erewrite bind_eq; [|exact R2]. by erewrite bind_eq; [|exact R3]. }
  rewrite <- !app_assoc. split; [done|]. split; [done|]. split; [done|]. split; [done|]. split; [done|]. split.
  { unfold metas_of. rewrite metas_tab, sin3, M2, M3, (J2 0), M1 by lia. cbn [T0 disk_tables t_inode t_2level].
    destruct (O >=? DIR_LEN + 2 * TABLE); [rewrite Tsame by done|]; cbn [tab]; solve_Permutation. }
  split; [by apply (vframe_trans _ s2)|].
  split; [intros H0%Z.geb_le; rewrite sin3, J2 by lia; auto|].
  split; [intros H0%Z.geb_le; rewrite sin3; auto|].
  split; [intros H0%Z.geb_le; auto|].
  split; [intros H0%Z.geb_le; rewrite <- (Tsame H0); apply (K3 H0)|].
  split; [congruence|]. split; [congruence|]. split.
  { intros x [Hx|[Hx|Hx]%elem_of_app]%elem_of_app; auto. }
  split; [intros H0%Z.geb_le; by apply K3|].
  intros [H0 H1%Z.geb_le]. rewrite H1, Z.geb_leb, (proj2 (Z.leb_gt _ _)), app_nil_r in M3 by done.
  cbn [tab] in M3. apply elem_of_app. left. rewrite <- M3. apply list_elem_of_here.
Qed.

(** The tables as the loop starts with them. *)
Lemma extend_tables_run O U (T0 := disk_tables (fview s0) (data i0)) :
  owns s0 U -> inodes s0 !! p = Some i0 -> disk_wf (data i0) -> 0 <= O <= N -> N < MAX_BLOCKS ->
  (forall x, x ∈ metas T0 O -> 0 <= x /\ ~ FM x /\ x ∈ U) -> Z.of_nat (List.length U) + (nmeta N - nmeta O) <= C ->
  exists t s X, extend_tables wr p O N s0 = Ok (t, s) /\ owns s (X ++ U) /\
    inodes s !! p = Some (with_data i0 (t_inode t)) /\ tables_wf t /\ Permutation (metas t N) (X ++ metas T0 O) /\
    vframe s0 s (tab (N >=? DIR_LEN + 2 * TABLE) [double_indir (t_inode t)]) /\
    (DIR_LEN <= O -> t_1st t = table (fview s) (word (single_indir (data i0)) 0)) /\
    (DIR_LEN + TABLE <= O -> t_2nd t = table (fview s) (word (single_indir (data i0)) 1)) /\
    (DIR_LEN + 2 * TABLE <= N -> table (fview s) (double_indir (t_inode t)) = t_2level t) /\
    (DIR_LEN + 2 * TABLE <= O -> forall k, 0 <= k <= (O - (DIR_LEN + 2 * TABLE)) / TABLE ->
       word (t_2level t) k = word (table (fview s0) (double_indir (data i0))) k) /\
    dir (t_inode t) = dir (data i0) /\ length (t_inode t) = length (data i0) /\
    (forall x, x ∈ X -> bit (free_map s0) x = false) /\
    (DIR_LEN + 2 * TABLE <= O -> double_indir (t_inode t) = double_indir (data i0)) /\
    (O < DIR_LEN + 2 * TABLE <= N -> double_indir (t_inode t) ∈ X).
Proof.
  intros Ho Hp Hd HO HN HU Hc.
  destruct (extend_alloc_run O U Ho Hp Hd HO HN HU Hc) as
    (t2 & s & di & X & R & O1 & P1 & D1 & Tl & Tw & M1 & V1 & S0 & S1 & T3 & K3 & Etc).
  pose proof (dw_single _ D1) as [Sl _]. fold T0 in M1.
  assert (forall x, x ∈ metas_of di t2 N -> x ∈ X ++ U) as HM.
  { intros x. rewrite M1, !elem_of_app. intros [Hx|Hx]; [by left|right; by apply HU]. }
  destruct (read_single_run s _ (N >=? DIR_LEN) di 0 O1) as (t1 & s4 & R4 & W4 & T1l & T1w & E1); [|done|lia|].
  { intros E. apply HM. unfold metas_of. rewrite E. unfold tab at 1. in_list. }
  assert (owns s4 (X ++ U)) as O4 by (by apply (owns_stores s)).
  destruct (read_single_run s4 _ (N >=? DIR_LEN + TABLE) di 1 O4) as (t2' & s5 & R5 & W5 & T2l & T2w & E2); [|done|lia|].
  { intros E. apply HM. unfold metas_of. rewrite E. unfold tab at 2. in_list. }
  assert (forall x, fview s5 x = fview s x) as Ev.
  { intros x. by rewrite (stores_view _ _ _ _ W5), (stores_view _ _ _ _ W4). }
  assert (forall x, table (fview s5) x = table (fview s) x) as Et by (intros x; unfold table; by rewrite Ev).
  exists {| t_inode := di; t_1st := t1; t_2nd := t2'; t_2level := t2; t_cur := no_table |}, s5, X.
  cbn [t_inode t_1st t_2nd t_2level]. split.
  { unfold extend_tables. rewrite R. erewrite bind_eq; [|apply get_inode_run; exact P1]. cbn [data with_data].
    erewrite bind_eq; [|exact R4]. by erewrite bind_eq; [|exact R5]. }
  split; [by apply (owns_stores s4)|].
  split; [by rewrite (stores_inodes _ _ _ W5), (stores_inodes _ _ _ W4)|]. split; [done|]. split; [exact M1|].
  split; [intros x Hf Hx; rewrite Ev; by apply V1|].
  split; [intros H0; rewrite Et, <- S0 by done; apply E1; apply Z.geb_le; lia|].
  split; [|split; [intros; rewrite Et; auto|done]].
  intros H0. rewrite Et, <- S1 by done. rewrite E2 by (apply Z.geb_le; lia). unfold table. by rewrite (stores_view _ _ _ _ W4).
Qed.
Lemma metas_double di t2 n : NoDup (metas_of di t2 n) -> DIR_LEN + 2 * TABLE <= n ->
  forall x, x ∈ word (single_indir di) 0 :: word (single_indir di) 1 :: pages_of t2 n -> x <> double_indir di.
Proof.
  unfold metas_of. intros Hnd Hn x Hx ->.
  rewrite !(proj2 (Z.geb_le n _)) in Hnd by (unfold DIR_LEN, TABLE in *; lia). cbn [tab app] in Hnd.
  apply NoDup_cons in Hnd as [H1 Hnd]. apply NoDup_cons in Hnd as [H2 Hnd]. apply NoDup_cons in Hnd as [H3 _].
  apply elem_of_cons in Hx as [E|Hx]; [apply H1; rewrite <- E; in_list|].
  apply elem_of_cons in Hx as [E|Hx]; [apply H2; rewrite <- E; in_list|done].
Qed.

Lemma word_map (g : Z -> Z) n k : 0 <= k < n -> word (map g (seqZ 0 n)) k = g k.
Proof.
  intros Hk. unfold word. apply nth_lookup_Some. rewrite list_lookup_fmap, lookup_seqZ_lt by lia.
  cbn. do 2 f_equal. lia.
Qed.

Lemma old_blocks v0 v t k O (T0 := disk_tables v0 (data i0)) :
  0 <= k <= O -> NoDup (metas T0 O) ->
  (forall x, x ∈ metas T0 O -> (DIR_LEN + 2 * TABLE <= O -> x <> double_indir (data i0)) -> v x = v0 x) ->
  (DIR_LEN <= O -> t_1st t = table v (word (single_indir (data i0)) 0)) ->
  (DIR_LEN + TABLE <= O -> t_2nd t = table v (word (single_indir (data i0)) 1)) ->
  (DIR_LEN + 2 * TABLE <= O -> forall k, 0 <= k <= (O - (DIR_LEN + 2 * TABLE)) / TABLE ->
     word (t_2level t) k = word (table v0 (double_indir (data i0))) k) ->
  dir (t_inode t) = dir (data i0) -> tblock v t k = block v0 (data i0) k.
Proof.
  intros Hk Hnd Kept E1 E2 K3 Edir.
  pose proof (metas_double (data i0) (t_2level T0) O Hnd) as Hdb. rewrite metas_tab in Kept.
  apply (blocks_kept v0 v t k O); [done|done| | |].
  - intros H0. rewrite (E1 H0). unfold table. rewrite Kept; [done| |].
    + rewrite (proj2 (Z.geb_le _ _)) by done. cbn [tab T0 disk_tables t_inode]. in_list.
    + intros H1. apply (Hdb H1). in_list.
  - intros H0. rewrite (E2 H0). unfold table. rewrite Kept; [done| |].
    + rewrite (proj2 (Z.geb_le _ (DIR_LEN + TABLE))) by done. cbn [tab T0 disk_tables t_inode]. in_list.
    + intros H1. apply (Hdb H1). in_list.
  - intros H0 j Hj. split; [by apply K3|].
    assert (word (table v0 (double_indir (data i0))) j ∈ pages_of (t_2level T0) O) as Hin.
    { unfold pages_of. apply list_elem_of_fmap. exists j. split; [done|]. apply elem_of_seqZ. lia. }
    apply Kept.
    + rewrite (proj2 (Z.geb_le _ (DIR_LEN + 2 * TABLE))) by done. cbn [tab]. in_list.
    + intros _. apply (Hdb H0). in_list.
Qed.

Lemma extend_prepare O bs (T0 := disk_tables (fview s0) (data i0)) :
  owns s0 (bs ++ metas T0 O ++ [sector i0]) -> inodes s0 !! p = Some i0 -> disk_wf (data i0) ->
  bs = map (block (fview s0) (data i0)) (seqZ 0 (O + 1)) -> n0 = O + 1 -> 0 <= O <= N -> N < MAX_BLOCKS ->
  O + 1 + nmeta N + 1 <= C ->
  exists t s, extend_tables wr p O N s0 = Ok (t, s) /\ linv s t bs /\
    forall x, x ∈ metas t N -> x ∈ metas T0 O \/ bit (free_map s0) x = false.
Proof.
  intros Ho Hp Hd Ebs En HO HN Hc. set (U0 := bs ++ metas T0 O ++ [sector i0]) in *.
  assert (Z.of_nat (List.length bs) = O + 1) as Hlen by (rewrite Ebs, length_map, length_seqZ; lia).
  destruct (extend_tables_run O U0 Ho Hp Hd HO HN) as
    (t & s & X & R & O1 & P1 & T1 & M1 & V1 & E1 & E2 & E3 & K3 & Edir & Elen & FX & Eold & Enew).
  { intros x Hx. assert (x ∈ U0) as Hx' by (unfold U0; rewrite !elem_of_app; auto).
    destruct (ow_range _ _ Ho x Hx'). split_and!; [lia|done|done]. }
  { unfold U0. rewrite !length_app, !Nat2Z.inj_add, metas_length, Hlen. simpl. lia. }
  fold T0 in M1. assert (Permutation (X ++ U0) (bs ++ meta t)) as HP.
  { unfold meta, U0. rewrite M1. solve_Permutation. }
  pose proof (ow_nodup _ _ O1) as [_ [Hdis _]]%NoDup_app.
  assert (forall x, x ∈ metas T0 O -> (DIR_LEN + 2 * TABLE <= O -> x <> double_indir (data i0)) ->
            fview s x = fview s0 x) as Kept.
  { intros x Hx Hne. assert (x ∈ U0) as Hx' by (unfold U0; rewrite !elem_of_app; auto).
    apply V1; [by apply (ow_range _ _ Ho)|]. destruct (Z.geb_spec N (DIR_LEN + 2 * TABLE)) as [HN2|HN2]; [|apply not_elem_of_nil].
    cbn [tab]. intros ->%list_elem_of_singleton. destruct (Z.le_gt_cases (DIR_LEN + 2 * TABLE) O) as [HO2|HO2].
    - apply (Hne HO2), Eold, HO2.
    - by apply (Hdis _ (Enew (conj HO2 HN2))). }
  exists t, s. split; [exact R|]. split.
  2: { intros x. rewrite M1, elem_of_app. intros [Hx|Hx]; auto. }
  split; [by apply (owns_perm s (X ++ U0))|exact P1|exact T1| |intros; lia|intros; lia|exact E3| |exact Elen].
  - intros k Hk. rewrite Hlen in Hk. rewrite Ebs, word_map by lia.
    apply (old_blocks (fview s0) (fview s) t k O); [lia| |done..].
    by pose proof (ow_nodup _ _ Ho) as (_ & _ & [? _]%NoDup_app)%NoDup_app.
  - intros x Hf Hx Hb. apply V1; [done|]. intros Hin. apply Hx.
    destruct (Z.geb_spec N (DIR_LEN + 2 * TABLE)); cbn [tab] in Hin; [|by apply not_elem_of_nil in Hin].
    apply list_elem_of_singleton in Hin as ->. by apply double_meta.
Qed.
End extend.

End InodeExtend.
