(* ===== verification/InodeGrow.v ===== *)
(** * filesys/inode.c: a write past the end of a file makes it grow

    [file_wf] says that the sectors of an open file, its data blocks, its index
    tables and its inode, are all different, allocated in the free map and apart from
    the free map's own file.  [inode_extend_length] and then [inode_write_at] keep it
    while the file grows. *)

From S2P Require Import Prelude Bytes Block Bitmap BufferFacts Inode InodeFacts InodeAlloc InodeExtend.
Import Bytes Block Bitmap BufferFacts Inode InodeFacts InodeAlloc InodeExtend.

Module InodeGrow.

Section grow.
Context {S : Type} `{HS : SectorStoreLaws S}.
Notation fs := (fs S).
Implicit Types (s : fs) (i : inode).

(** The sectors of a file whose last block is [o]: blocks, tables, inode. *)
Definition sectors (v : Z -> list Z) i (o : Z) : list Z :=
  map (block v (data i)) (seqZ 0 (o + 1)) ++ metas (disk_tables v (data i)) o ++ [sector i].

(** The free map's file: the open file, the address of its inode, the inode and the
    number of its blocks. *)
Record map_file := { mf_file : Z; mf_ptr : Z; mf_inode : inode; mf_blocks : Z }.
Definition map_ok s (m : map_file) : Prop := map_open s (mf_file m) (mf_ptr m) (mf_inode m) (mf_blocks m).
Definition map_sector s (m : map_file) (x : Z) : Prop := file_sector (fview s) (mf_inode m) (mf_blocks m) x.

Record file_wf s (m : map_file) (p : Z) i (o : Z) : Prop := {
  fw_inv : st_inv (store s);
  fw_map : map_ok s m;
  fw_ptr : p <> mf_ptr m;
  fw_inode : inodes s !! p = Some i;
  fw_disk : disk_wf (data i);
  fw_nodup : NoDup (sectors (fview s) i o);
  fw_range : forall x, x ∈ sectors (fview s) i o -> 0 <= x < fsize s;
  fw_apart : forall x, x ∈ sectors (fview s) i o -> ~ map_sector s m x;
  fw_used : forall x, x ∈ sectors (fview s) i o -> bit (free_map s) x = true;
  fw_len : 0 <= length (data i) <= MAX_LEN;
  fw_blocks : length (data i) / 512 <= o < MAX_BLOCKS }.

(** ** [file_wf] gives what reading and writing inside the file need *)

Lemma block_sectors v i o k : 0 <= k <= o -> block v (data i) k ∈ map (block v (data i)) (seqZ 0 (o + 1)).
Proof. intros Hk. apply list_elem_of_fmap. exists k. split; [done|]. apply elem_of_seqZ. lia. Qed.

Lemma path_metas v i o k t :
  0 <= k <= o -> t ∈ path v (data i) k -> t ∈ metas (disk_tables v (data i)) o.
Proof.
  intros Hk. unfold path. rewrite metas_tab.
  destruct (Z.ltb_spec k DIR_LEN); [by intros ?%not_elem_of_nil|].
  destruct (Z.ltb_spec k (DIR_LEN + TABLE)).
  { intros ->%list_elem_of_singleton. rewrite (proj2 (Z.geb_le o DIR_LEN)) by lia. cbn [tab disk_tables t_inode]. in_list. }
  destruct (Z.ltb_spec k (DIR_LEN + 2 * TABLE)).
  { intros ->%list_elem_of_singleton. rewrite (proj2 (Z.geb_le o (DIR_LEN + TABLE))) by lia.
    cbn [tab disk_tables t_inode]. in_list. }
  intros Ht. rewrite (proj2 (Z.geb_le o (DIR_LEN + 2 * TABLE))) by lia. cbn [tab].
  pose proof (page_in (disk_tables v (data i)) o k) as Hpg. cbn [disk_tables t_2level t_inode] in *.
  apply elem_of_cons in Ht as [->| ->%list_elem_of_singleton]; [in_list|].
  do 2 (apply elem_of_app; right). apply elem_of_cons. right. apply Hpg. lia.
Qed.

Lemma map_inj_seqZ (g : Z -> Z) n j k :
  NoDup (map g (seqZ 0 n)) -> 0 <= j < n -> 0 <= k < n -> g j = g k -> j = k.
Proof.
  intros Hnd Hj Hk E. rewrite NoDup_alt in Hnd.
  enough (Z.to_nat j = Z.to_nat k) by lia. apply (Hnd _ _ (g j)).
  - rewrite list_lookup_fmap, lookup_seqZ_lt by lia. cbn. do 2 f_equal. lia.
  - rewrite E, list_lookup_fmap, lookup_seqZ_lt by lia. cbn. do 2 f_equal. lia.
Qed.

Lemma file_wf_ok s m p i o : file_wf s m p i o -> inode_ok s i (o + 1).
Proof.
  intros [H1 H2 H3 H4 H5 H6 H7 H8 H9 H10 H11].
  apply NoDup_app in H6 as (N1 & N2 & N3). apply NoDup_app in N3 as (N3 & N4 & _).
  assert (forall k, 0 <= k < o + 1 -> block (fview s) (data i) k ∈ map (block (fview s) (data i)) (seqZ 0 (o + 1))) as Hb
    by (intros; apply block_sectors; lia).
  assert (forall k t, 0 <= k < o + 1 -> t ∈ path (fview s) (data i) k -> t ∈ metas (disk_tables (fview s) (data i)) o) as Hp
    by (intros k t Hk; apply path_metas; lia).
  unfold sectors in H7. setoid_rewrite elem_of_app in H7. setoid_rewrite elem_of_app in H7.
  split; [|done|done| | |].
  - split; [apply H5|apply H5|lia| | | |].
    + intros k Hk. apply Forall_forall. intros t Ht. apply H7. eauto.
    + intros k Hk. apply H7. eauto.
    + intros j k Hj Hk. by apply (map_inj_seqZ _ (o + 1)).
    + intros j k Hj Hk Hin. apply (N2 _ (Hb j Hj)), elem_of_app. left. eauto.
  - enough ((length (data i) - 1) / 512 <= length (data i) / 512) by lia. apply Z.div_le_mono; lia.
  - apply H7. right. right. apply list_elem_of_here.
  - intros j Hj. split.
    + intros E. apply (N2 _ (Hb j Hj)). rewrite <- E. apply elem_of_app. right. apply list_elem_of_here.
    + intros Hin. apply (N4 _ (Hp j _ Hj Hin)), list_elem_of_here.
Qed.

(** ** Extension *)

(** The file at [p] has been given blocks up to [o'], its length not changed yet. *)
Record grown s s' (m : map_file) (p : Z) i i' (o o' : Z) : Prop := {
  gr_wf : file_wf s' m p i' o';
  gr_size : fsize s' = fsize s;
  gr_inode : i' = with_data i (data i') /\ length (data i') = length (data i);
  gr_map : forall x, map_sector s' m x <-> map_sector s m x;
  gr_old : forall k, 0 <= k <= o -> block (fview s') (data i') k = block (fview s) (data i) k;
  gr_new : forall k, o < k <= o' -> bit (free_map s) (block (fview s') (data i') k) = false /\
                                   fview s' (block (fview s') (data i') k) = zeros 512;
  gr_tables : forall x, x ∈ metas (disk_tables (fview s') (data i')) o' ->
                x ∈ metas (disk_tables (fview s) (data i)) o \/ bit (free_map s) x = false;
  gr_bits : forall x, 0 <= x ->
    bit (free_map s') x = true <-> bit (free_map s) x = true \/ x ∈ sectors (fview s') i' o';
  gr_free : free_cnt (free_map s') = free_cnt (free_map s) - (o' - o + (nmeta o' - nmeta o));
  gr_others : others_same s p s';
  gr_frame : forall x, bit (free_map s) x = true -> ~ map_sector s m x ->
    x ∉ metas (disk_tables (fview s) (data i)) o ++ [sector i] -> fview s' x = fview s x }.

Lemma sectors_length v i o : 0 <= o -> Z.of_nat (List.length (sectors v i o)) = o + 1 + nmeta o + 1.
Proof.
  intros. unfold sectors. rewrite !length_app, !Nat2Z.inj_add, metas_length, length_map, length_seqZ.
  simpl. lia.
Qed.

Lemma file_wf_owns s m p i o (C := free_cnt (free_map s) + (o + 1 + nmeta o + 1)) :
  0 <= o -> file_wf s m p i o ->
  owns s (mf_file m) (mf_ptr m) (mf_inode m) (mf_blocks m) p C s (sectors (fview s) i o).
Proof.
  intros Ho [H1 H2 H3 H4 H5 H6 H7 H8 H9 H10 H11].
  split; [exact H1|done|exact H2|done|done|exact H6| | |].
  - intros x Hx. split; [by apply H7|by apply H8].
  - intros x Hx. split; [by left|]. intros [Hb|Hb]; [done|by apply H9].
  - unfold C. by rewrite sectors_length.
Qed.

Lemma word_list (xs : list Z) n :
  Z.of_nat (List.length xs) = n -> map (word xs) (seqZ 0 n) = xs.
Proof.
  intros E. apply list_eq_same_length with (n := Z.to_nat n); [lia|by rewrite length_map, length_seqZ|].
  intros j x y Hj Hx Hy. rewrite list_lookup_fmap, lookup_seqZ_lt in Hx by lia. injection Hx as <-.
  unfold word. rewrite Z.add_0_l, Nat2Z.id. by apply nth_lookup_Some.
Qed.

(** The state [owns] describes at the end is a well-formed, longer file. *)
Lemma grown_wf s s' m p i i' o o' bs C :
  file_wf s m p i o -> owns s (mf_file m) (mf_ptr m) (mf_inode m) (mf_blocks m) p C s' (bs ++ meta i o' (disk_tables (fview s') (data i'))) ->
  inodes s' !! p = Some i' -> i' = with_data i (data i') -> length (data i') = length (data i) ->
  disk_wf (data i') -> o <= o' < MAX_BLOCKS -> Z.of_nat (List.length bs) = o' + 1 ->
  (forall k, 0 <= k <= o' -> block (fview s') (data i') k = word bs k) ->
  file_wf s' m p i' o' /\ sectors (fview s') i' o' = bs ++ meta i o' (disk_tables (fview s') (data i')).
Proof.
  intros [H1 H2 H3 H4 H5 H6 H7 H8 H9 H10 H11] [O1 O2 O3 O4 O5 O6 O7 O8 O9] Hp Ei El Hd Ho Hl Hb.
  assert (sectors (fview s') i' o' = bs ++ meta i o' (disk_tables (fview s') (data i'))) as Es.
  { unfold sectors. rewrite <- (word_list bs (o' + 1) Hl) at 1. f_equal.
    - apply map_ext_in. intros k Hk%list_elem_of_In%elem_of_seqZ. apply Hb. lia.
    - rewrite Ei. done. }
  split; [|done]. split; rewrite ?Es; try done.
  - intros x Hx. rewrite O2. by apply O7.
  - intros x Hx Hf. apply (proj1 (O4 x)) in Hf. by apply (O7 x Hx).
  - intros x Hx. apply O8; [|by right]. destruct (O7 x Hx). lia.
  - rewrite El; lia.
  - rewrite El; lia.
Qed.
(** The three phases, from the state [owns] describes. *)
Lemma extend_phases d s m p i o o' (wr := inode_write_at_depth (Datatypes.S d)) :
  file_wf s m p i o -> 0 <= o <= o' -> o' < MAX_BLOCKS ->
  o' - o + (nmeta o' - nmeta o) <= free_cnt (free_map s) ->
  exists t s1 t' s2 s' i',
    extend_tables wr p o o' s = Ok (t, s1) /\
    extend_loop wr (Z.to_nat (o' - o)) p (o + 1) t s1 = Ok (t', s2) /\
    inodes s2 !! p = Some i' /\ sector i' = sector i /\
    extend_write_back (sector i) o' t' s2 = Ok (tt, s') /\ grown s s' m p i i' o o'.
Proof.
  intros Hw Ho Ho' Hfree. pose proof (file_wf_owns s m p i o ltac:(lia) Hw) as Hown.
  set (C := free_cnt (free_map s) + (o + 1 + nmeta o + 1)) in *.
  set (bs := map (block (fview s) (data i)) (seqZ 0 (o + 1))).
  assert (Z.of_nat (List.length bs) = o + 1) as Hbs by (unfold bs; rewrite length_map, length_seqZ; lia).
  pose proof Hw as [H1 H2 H3 H4 H5 H6 H7 H8 H9 H10 H11].
  destruct (extend_prepare s (mf_file m) (mf_ptr m) (mf_inode m) (mf_blocks m) p d C H3 i (o + 1) o' o bs Hown H4 H5 eq_refl eq_refl) as (t & s1 & R1 & L1 & X1);
    [lia|lia|unfold C; lia|].
  assert (Z.of_nat (List.length (meta i o' t)) = nmeta o' + 1) as Hml.
  { unfold meta. rewrite length_app, Nat2Z.inj_add, metas_length. simpl. lia. }
  destruct (extend_loop_run s (mf_file m) (mf_ptr m) (mf_inode m) (mf_blocks m) p d C H3 i (o + 1) o' ltac:(lia)
    (Z.to_nat (o' - o)) s1 t _ (o + 1) L1) as (t' & s2 & cs & R2 & L2 & Hl & M2);
    [done|lia|lia|unfold C; lia|].
  destruct (extend_finish s (mf_file m) (mf_ptr m) (mf_inode m) (mf_blocks m) p C i (o + 1) o' s2 t' _ L2 Hl)
    as (s' & R3 & O3 & I3 & B3 & T3 & V3 & F3).
  exists t, s1, t', s2, s', (with_data i (t_inode t')). pose proof L2 as [K1 K2 K3 K4 K5 K6 K7 K8 K9].
  split; [exact R1|]. split; [exact R2|]. split; [exact K2|]. split; [done|]. split; [exact R3|].
  assert (inodes s' !! p = Some (with_data i (t_inode t'))) as Hp' by (by rewrite I3).
  assert (meta i o' (disk_tables (fview s') (t_inode t')) = meta i o' t') as Em by (unfold meta; by rewrite T3).
  destruct (grown_wf s s' m p i (with_data i (t_inode t')) o o' (bs ++ cs) C Hw) as [Hw' Es];
    [cbn [data with_data]; rewrite Em; exact O3|done|done|exact K9|apply K3|lia|exact Hl|exact B3|].
  cbn [data with_data] in Es. rewrite Em in Es.
  assert (metas t' o' = metas t o') as Emt by (by apply app_inj_2 in M2 as [? _]).
  assert (forall k, o < k <= o' -> word (bs ++ cs) k ∈ bs ++ cs) as Hin by (intros k Hk; apply word_in; lia).
  pose proof (ow_nodup _ _ _ _ _ _ _ _ _ O3) as (_ & Hdis & _)%NoDup_app.
  split; [exact Hw'|apply (ow_size _ _ _ _ _ _ _ _ _ O3)|done|apply (ow_fm _ _ _ _ _ _ _ _ _ O3)| | | | | | |];
    cbn [data with_data].
  - intros k Hk. rewrite B3, word_app_l by (rewrite ?Hbs; lia). apply word_map. lia.
  - intros k Hk. rewrite B3 by lia. split; [apply K6; lia|].
    rewrite F3 by (apply Hdis, Hin; done). apply K5. lia.
  - rewrite T3, Emt. exact X1.
  - intros x Hx. rewrite Es. by apply (ow_bits _ _ _ _ _ _ _ _ _ O3).
  - pose proof (ow_free _ _ _ _ _ _ _ _ _ O3) as Hf.
    rewrite length_app, Nat2Z.inj_add, Hl, M2, Hml in Hf. unfold C in Hf. lia.
  - apply (ow_objects _ _ _ _ _ _ _ _ _ O3).
  - intros x Hb Hf Hx. assert (x ∉ meta i o' t') as Hx'.
    { rewrite M2. unfold meta. rewrite elem_of_app. rewrite elem_of_app in Hx.
      intros [[Hm|Hm]%X1|Hm]; [tauto|congruence|tauto]. }
    rewrite F3 by done. by apply K8.
Qed.

Lemma inode_extend_length_run d s m p i size ofs (newLen := ofs + size) (o := length (data i) / 512)
    (o' := newLen / 512) :
  file_wf s m p i o -> length (data i) < newLen -> o' < MAX_BLOCKS ->
  o' - o + (nmeta o' - nmeta o) <= free_cnt (free_map s) ->
  exists s' i', inode_extend_length (inode_write_at_depth (Datatypes.S d)) p size ofs s = Ok (tt, s') /\
    inodes s' !! p = Some i' /\ grown s s' m p i i' o o'.
Proof.
  intros Hw Hlen Hmax Hfree. pose proof (fw_len _ _ _ _ _ Hw) as Hl0. pose proof (fw_inode _ _ _ _ _ Hw) as Hp.
  assert (newLen < 2 ^ 31) as HnL.
  { pose proof (Z.div_mod newLen 512). pose proof (Z.mod_pos_bound newLen 512). unfold o' in Hmax.
    unfold MAX_BLOCKS, DIR_LEN, TABLE in *. lia. }
  assert (0 <= o <= o') as Ho by (unfold o, o'; split; [apply Z.div_pos|apply Z.div_le_mono]; lia).
  unfold inode_extend_length. fold newLen. rewrite wraps_small by lia.
  erewrite bind_eq; [|by apply inode_length_run]. rewrite (proj2 (Z.ltb_lt _ _) Hlen).
  rewrite !Z.quot_div_nonneg by lia. fold o o'.
  destruct (extend_phases d s m p i o o' Hw Ho Hmax Hfree) as (t & s1 & t' & s2 & s' & i' & R1 & R2 & I2 & Es & R3 & G).
  erewrite bind_eq; [|exact R1]. erewrite bind_eq; [|exact R2].
  erewrite bind_eq; [|by apply get_inode_run]. rewrite Es. exists s', i'.
  split; [exact R3|]. split; [|exact G]. apply (fw_inode _ _ _ _ _ (gr_wf _ _ _ _ _ _ _ _ G)).
Qed.
(** ** A write of data blocks and of the inode keeps the file well-formed *)

Lemma map_open_inodes s f fp fi nf p i :
  p <> fp -> map_open s f fp fi nf -> map_open (with_inodes (<[p := i]> (inodes s)) s) f fp fi nf.
Proof.
  intros Hne [M1 M2 M3 M4 M5 M6 M7 M8 M9]. split; [exact M1|exact M2| |exact M4| |exact M6|exact M7|exact M8|exact M9].
  - cbn. by rewrite lookup_insert_ne.
  - destruct M5. split; done.
Qed.

Lemma metas_ext v v' di o :
  (forall x, x ∈ metas (disk_tables v di) o -> v' x = v x) ->
  metas (disk_tables v' di) o = metas (disk_tables v di) o.
Proof.
  rewrite !metas_tab. cbn [disk_tables t_inode t_2level]. intros E.
  destruct (o >=? DIR_LEN + 2 * TABLE); [|done]. do 2 f_equal. cbn [tab] in *. f_equal. f_equal.
  unfold table. rewrite E; [done|]. in_list.
Qed.

Lemma set_length_sectors v i L o : sectors v (with_data i (set_length (data i) L)) o = sectors v i o.
Proof. done. Qed.

Lemma sectors_ext v v' i o :
  (forall x, x ∈ metas (disk_tables v (data i)) o -> v' x = v x) ->
  sectors v' i o = sectors v i o /\
  forall k, 0 <= k <= o -> block v' (data i) k = block v (data i) k.
Proof.
  intros E. assert (forall k, 0 <= k <= o -> block v' (data i) k = block v (data i) k) as Hb.
  { intros k Hk. apply block_ext. intros t Ht. apply E. by apply (path_metas v i o k). }
  split; [|done]. unfold sectors. rewrite (metas_ext v v') by done. f_equal.
  apply map_ext_in. intros k Hk%list_elem_of_In%elem_of_seqZ. apply Hb. lia.
Qed.

Lemma file_wf_written s s' v' m p i o L (i' := with_data i (set_length (data i) L)) :
  file_wf s m p i o -> stores (with_inodes (<[p := i']> (inodes s)) s) s' v' ->
  0 <= L <= MAX_LEN -> L / 512 <= o ->
  (forall x, x ∉ map (block (fview s) (data i)) (seqZ 0 (o + 1)) ++ [sector i] -> v' x = fview s x) ->
  file_wf s' m p i' o /\ (forall x, map_sector s' m x <-> map_sector s m x).
Proof.
  intros [H1 H2 H3 H4 H5 H6 H7 H8 H9 H10 H11] W HL HLo Hv.
  pose proof (map_open_inodes s _ _ _ _ p i' H3 H2) as M1.
  destruct (stores_objects _ _ _ W) as [So Sm].
  assert (forall x, ~ (x ∈ sectors (fview s) i o) -> fview s' x = fview s x) as Hout.
  { intros x Hx. rewrite (stores_view _ _ _ _ W). apply Hv. intros Hin. apply Hx. unfold sectors.
    rewrite !elem_of_app. rewrite elem_of_app in Hin. tauto. }
  destruct (map_open_ext _ s' _ _ _ _ M1 (stores_size _ _ _ W) So) as [M2 E2].
  { rewrite Sm. apply H2. } { by rewrite Sm. } { intros x _ _. by rewrite Sm. }
  { intros j t Hj Ht. apply Hout. intros Hin. apply (H8 t Hin). right. exists j. auto. }
  pose proof H6 as (N1 & N2 & N3)%NoDup_app. apply NoDup_app in N3 as (_ & N4 & _).
  destruct (sectors_ext (fview s) (fview s') i o) as [Es Eb].
  { intros x Hx. rewrite (stores_view _ _ _ _ W). apply Hv. intros [Hin|Hin]%elem_of_app.
    - apply (N2 x Hin). in_list.
    - by apply (N4 x Hx). }
  split; [|exact E2]. unfold i'.
  split; rewrite ?set_length_sectors, ?Es; [exact (stores_inv _ _ _ W)|exact M2|exact H3| | |exact H6| | | |exact HL|].
  - rewrite (stores_inodes _ _ _ W). apply lookup_insert_eq.
  - apply disk_wf_length; [done|]. assert (MAX_LEN < 2 ^ 31) by done. lia.
  - intros x Hx. rewrite (stores_size _ _ _ W). by apply H7.
  - intros x Hx Hf. apply (proj1 (E2 x)) in Hf. by apply (H8 x Hx).
  - intros x Hx. rewrite Sm. by apply H9.
  - cbn [data with_data set_length length]. lia.
Qed.
(** ** [inode_write_at] past the end of the file *)

(** [touched] by a write inside the file: only data blocks. *)
Lemma touched_block v di ofs n o x :
  0 <= ofs -> (ofs + n) / 512 <= o -> touched v di ofs n x -> x ∈ map (block v di) (seqZ 0 (o + 1)).
Proof.
  intros Ho Hn (k & Hk & ->). apply list_elem_of_fmap. exists (k / 512). split; [done|].
  apply elem_of_seqZ. pose proof (Z.div_pos k 512). pose proof (Z.div_le_mono k (ofs + n) 512). lia.
Qed.

(** The outcome of a write of [buf] at [ofs] that makes the file end there. *)
Record write_grown s s' (m : map_file) (p : Z) i i' (buf : list Z) (ofs : Z) : Prop := {
  wg_wf : file_wf s' m p i' ((ofs + Z.of_nat (List.length buf)) / 512);
  wg_inode : i' = with_data i (data i');
  wg_length : length (data i') = ofs + Z.of_nat (List.length buf);
  wg_disk : fview s' (sector i) = encode (data i');
  wg_contents : contents (fview s') (data i') ofs (Z.of_nat (List.length buf)) = buf;
  wg_gap : forall k, length (data i) / 512 < k < ofs / 512 ->
    fview s' (block (fview s') (data i') k) = zeros 512;
  wg_before : forall k, 0 <= k <= length (data i) / 512 -> k < ofs / 512 ->
    block (fview s') (data i') k = block (fview s) (data i) k /\
    fview s' (block (fview s) (data i) k) = fview s (block (fview s) (data i) k);
  wg_others : forall x, bit (free_map s) x = true -> ~ map_sector s m x ->
    x ∉ sectors (fview s) i (length (data i) / 512) -> fview s' x = fview s x }.

Lemma contents_ext v v' di ofs n : (forall x, v' x = v x) -> contents v' di ofs n = contents v di ofs n.
Proof.
  intros E. apply map_ext. intros k. unfold fbyte. by rewrite (block_ext v v'), E by (intros; apply E).
Qed.

Lemma write_grown_intro s s1 s' v' m p i i1 (buf : list Z) ofs (newLen := ofs + Z.of_nat (List.length buf))
    (o := length (data i) / 512) (o' := newLen / 512) (i' := with_data i1 (set_length (data i1) newLen)) :
  file_wf s m p i o -> grown s s1 m p i i1 o o' -> 0 <= ofs -> newLen <= MAX_LEN ->
  stores (with_inodes (<[p := i']> (inodes s1)) s1) s' v' -> v' (sector i1) = encode (set_length (data i1) newLen) ->
  contents v' (data i1) ofs (Z.of_nat (List.length buf)) = buf ->
  (forall x, x <> sector i1 -> ~ touched (fview s1) (data i1) ofs (Z.of_nat (List.length buf)) x -> v' x = fview s1 x) ->
  write_grown s s' m p i i' buf ofs.
Proof.
  intros Hw G Hofs HnL W E C F. set (size := Z.of_nat (List.length buf)) in *.
  destruct G as [G1 G2 [G3 G3'] G4 G5 G6 G7 G8 G9 G10 G11].
  assert (sector i1 = sector i) as Esec by (by rewrite G3).
  assert (0 <= newLen) as HnL0 by (unfold newLen; lia).
  assert (forall x, x ∉ map (block (fview s1) (data i1)) (seqZ 0 (o' + 1)) ++ [sector i1] -> v' x = fview s1 x) as F'.
  { intros x Hx. rewrite elem_of_app in Hx. apply F; [intros ->; apply Hx; right; apply list_elem_of_here|].
    intros Ht. apply Hx. left. apply (touched_block _ _ ofs size); done. }
  destruct (file_wf_written s1 s' v' m p i1 o' newLen G1 W) as [Hw' Em]; [lia|done|exact F'|].
  pose proof (fw_nodup _ _ _ _ _ G1) as (N1 & N2 & N3)%NoDup_app. apply NoDup_app in N3 as (_ & N4 & _).
  destruct (sectors_ext (fview s1) (fview s') i1 o') as [_ Eb].
  { intros x Hx. rewrite (stores_view _ _ _ _ W). apply F'. rewrite elem_of_app. intros [Hi|Hi].
    - apply (N2 x Hi), elem_of_app. by left.
    - by apply (N4 x Hx). }
  assert (forall k, 0 <= k <= o' -> k < ofs / 512 ->
    fview s' (block (fview s1) (data i1) k) = fview s1 (block (fview s1) (data i1) k)) as Kept.
  { intros k Hk Hlt. rewrite (stores_view _ _ _ _ W). apply F.
    - intros Es. apply (N2 (block (fview s1) (data i1) k)); [by apply block_sectors|]. rewrite Es, !elem_of_app.
      right. apply list_elem_of_here.
    - intros (j & Hj & Ej). pose proof (Z.div_le_mono ofs j 512 ltac:(lia)). pose proof (Z.div_le_mono j newLen 512).
      apply (map_inj_seqZ _ (o' + 1)) in Ej; [lia|done|lia|unfold o'; lia]. }
  assert (o <= o') as Hoo.
  { pose proof (fw_blocks _ _ _ _ _ G1) as Hbl. rewrite G3' in Hbl. unfold o. lia. }
  unfold i'. split; cbn [data with_data set_length length]; [exact Hw'| |done| | | | |].
  - rewrite G3. done.
  - rewrite <- Esec. by rewrite (stores_view _ _ _ _ W).
  - transitivity (contents (fview s') (data i1) ofs size); [done|].
    transitivity (contents v' (data i1) ofs size); [|exact C]. apply contents_ext. intros x. apply (stores_view _ _ _ _ W).
  - intros k Hk. pose proof (Z.div_le_mono ofs newLen 512 ltac:(lia) ltac:(unfold newLen; lia)) as Hle.
    pose proof (Z.div_pos (length (data i)) 512 (proj1 (fw_len _ _ _ _ _ Hw)) ltac:(lia)).
    change (o < k < ofs / 512) in Hk. change (ofs / 512 <= o') in Hle. unfold o in *.
    change (block _ (set_length _ _) k) with (block (fview s') (data i1) k).
    rewrite Eb, Kept by lia. apply G6. lia.
  - intros k Hk Hlt. change (0 <= k <= o) in Hk.
    change (block _ (set_length _ _) k) with (block (fview s') (data i1) k). rewrite Eb by lia. split; [apply G5; lia|].
    rewrite <- G5, Kept, G5 by lia. apply G11.
    + apply (fw_used _ _ _ _ _ Hw), elem_of_app. left. apply block_sectors. lia.
    + apply (fw_apart _ _ _ _ _ Hw), elem_of_app. left. apply block_sectors. lia.
    + pose proof (fw_nodup _ _ _ _ _ Hw) as (_ & Hdis & _)%NoDup_app. apply Hdis. apply block_sectors. lia.
  - intros x Hb Hf Hx. change (x ∉ sectors (fview s) i o) in Hx. unfold sectors in Hx.
    rewrite elem_of_app in Hx. rewrite (stores_view _ _ _ _ W), F'; [apply G11; tauto|].
    rewrite elem_of_app. intros [(k & -> & Hk%elem_of_seqZ)%list_elem_of_fmap|Hi].
    + destruct (Z.le_gt_cases k o).
      * apply Hx. left. rewrite G5 by lia. apply block_sectors. lia.
      * destruct (G6 k); [lia|congruence].
    + rewrite Esec in Hi. apply Hx. right. apply elem_of_app. by right.
Qed.

Lemma write_grows d s m p i (buf : list Z) ofs (newLen := ofs + Z.of_nat (List.length buf))
    (o := length (data i) / 512) (o' := newLen / 512) :
  file_wf s m p i o -> deny_write_cnt i = 0 -> 0 <= ofs -> Forall is_byte buf ->
  length (data i) < newLen -> o' < MAX_BLOCKS ->
  o' - o + (nmeta o' - nmeta o) <= free_cnt (free_map s) ->
  exists s' i', inode_write_at_depth (Datatypes.S (Datatypes.S d)) p buf ofs s =
      Ok (Z.of_nat (List.length buf), s') /\
    inodes s' !! p = Some i' /\ write_grown s s' m p i i' buf ofs.
Proof.
  intros Hw Hden Hofs Hb Hlen Hmax Hfree. set (size := Z.of_nat (List.length buf)) in *.
  assert (newLen <= MAX_LEN) as HnL.
  { pose proof (Z.div_mod newLen 512). pose proof (Z.mod_pos_bound newLen 512). unfold o' in Hmax.
    assert (MAX_LEN = 512 * MAX_BLOCKS) as -> by done. lia. }
  assert (MAX_LEN < 2 ^ 31) by done. pose proof (fw_len _ _ _ _ _ Hw) as Hl0.
  destruct (inode_extend_length_run d s m p i size ofs Hw Hlen Hmax Hfree) as (s1 & i1 & R1 & P1 & G).
  fold newLen o o' in G. pose proof (gr_wf _ _ _ _ _ _ _ _ G) as Hw1.
  pose proof (gr_inode _ _ _ _ _ _ _ _ G) as [Ei1 El1].
  destruct (write_tail_run s1 p i1 (o' + 1) buf ofs (fw_inv _ _ _ _ _ Hw1) P1 (file_wf_ok _ _ _ _ _ Hw1) Hofs)
    as (s' & v' & R2 & W2 & E2 & C2 & F2).
  { fold size. rewrite El1, Z.max_r by lia. rewrite Z.add_comm. fold newLen.
    enough ((newLen - 1) / 512 <= newLen / 512) by (fold o'; lia). apply Z.div_le_mono; lia. }
  { fold size. lia. } { done. }
  fold size in R2, W2, E2, C2, F2. rewrite El1, Z.max_r in W2, E2 by lia.
  assert (size + ofs = newLen) as EnL by (unfold newLen; lia). rewrite EnL in W2, E2, R2.
  exists s', (with_data i1 (set_length (data i1) newLen)). split; [|split].
  - cbn [inode_write_at_depth]. change (write_at_body (inode_write_at_depth (Datatypes.S d)) p buf ofs s = Ok (size, s')).
    unfold write_at_body. erewrite bind_eq; [|apply get_inode_run; apply Hw]. rewrite Hden.
    change (negb (0 =? 0)) with false. cbv iota. fold size. rewrite EnL, wraps_small by lia.
    destruct (Z.gtb_spec newLen MAX_LEN); [lia|]. erewrite bind_eq; [|exact R1]. exact R2.
  - rewrite (stores_inodes _ _ _ W2). apply lookup_insert_eq.
  - by apply (write_grown_intro s s1 s' v').
Qed.
End grow.

End InodeGrow.
