(* ===== verification/InodeRelease.v ===== *)
(** * filesys/inode.c: the last close of a removed file frees its sectors

    [inode_close] gives every block, index table and the inode of a removed file
    back to the free map, each once, and nothing else. *)

From S2P Require Import Prelude Bytes Block Bitmap BufferFacts Inode InodeFacts InodeAlloc InodeExtend InodeGrow.
Import Bytes Block Bitmap BufferFacts Inode InodeFacts InodeAlloc InodeExtend InodeGrow.

Module InodeRelease.

Section release.
Context {S : Type} `{HS : SectorStoreLaws S}.
Notation fs := (fs S).
Implicit Types (s : fs) (R : list Z).

(** The state before, and the free map's file. *)
Context (s0 : fs) (m : map_file).

(** Since [s0], the sectors [R] have been given back. *)
Record released s R : Prop := {
  re_inv : st_inv (store s);
  re_size : fsize s = fsize s0;
  re_map : map_ok s m;
  re_sectors : forall x, map_sector s m x <-> map_sector s0 m x;
  re_objects : same_objects s0 s;
  re_view : forall x, ~ map_sector s0 m x -> fview s x = fview s0 x;
  re_bits : forall x, 0 <= x -> bit (free_map s) x = bit (free_map s0) x && negb (bool_decide (x ∈ R)) }.

Lemma free_map_release_run d s R x :
  released s R -> 0 <= x < fsize s0 -> ~ map_sector s0 m x -> bit (free_map s0) x = true -> x ∉ R ->
  exists s', free_map_release (inode_write_at_depth (Datatypes.S d)) x 1 s = Ok (tt, s') /\ released s' (x :: R).
Proof.
  intros [R1 R2 R3 R4 R5 R6 R7] Hx Hf Hb Hn. unfold free_map_release.
  pose proof R3 as [Hfile Hino Hopen Hdeny Hok Hwf Hcnt Hlen Hused].
  assert (bit (free_map s) x = true) as Hbit by (rewrite R7, Hb, bool_decide_eq_false_2 by (done || lia); done).
  destruct (bitmap_contains_run (free_map s) x 1 false Hwf) as (r & Rc & Hr); [lia..|].
  assert (r = false) as -> by (apply Hr; intros j Hj; replace j with x by lia; done).
  assert (on_map (bitmap_all x 1) s = Ok (true, s)) as E1.
  { unfold on_map, bitmap_all. erewrite bind_eq; [|exact Rc]. cbn. by destruct s. }
  erewrite bind_eq; [|exact E1]. erewrite bind_eq; [|done].
  destruct (bitmap_set_multiple_run (free_map s) x 1 false Hwf) as (b' & Rs & W' & C' & U'); [lia..|].
  assert (on_map (bitmap_set_multiple x 1 false) s = Ok (tt, with_map b' s)) as E2
    by (unfold on_map; by rewrite Rs).
  erewrite bind_eq; [|exact E2].
  assert (forall y, 0 <= y -> bit b' y = if x =? y then false else bit (free_map s) y) as Ub.
  { intros y Hy. rewrite U' by done. unfold in_range.
    destruct (Z.leb_spec x y), (Z.ltb_spec y (x + 1)), (Z.eqb_spec x y); done || lia. }
  destruct (map_open_ext s (with_map b' s) _ _ _ _ R3) as [M1 F1]; [done|done|done|done| |done|].
  { intros y Hy Hfs Hby. cbn. rewrite Ub by done. destruct (Z.eqb_spec x y) as [->|]; [|done].
    by destruct (Hf (proj1 (R4 y) Hfs)). }
  destruct (bitmap_write_run d (with_map b' s) _ _ _ _ R1 M1) as (s2 & v' & R8 & W8 & V8 & P8 & _).
  erewrite bind_eq; [|exact R8]. exists s2. split; [done|].
  destruct (stores_objects _ _ _ W8) as [So Sm].
  destruct (map_open_ext (with_map b' s) s2 _ _ _ _ M1 (stores_size _ _ _ W8) So) as [M2 F2].
  { by rewrite Sm. } { by rewrite Sm. } { intros y _ _. by rewrite Sm. }
  { intros j t Hj Ht. rewrite (stores_view _ _ _ _ W8). by apply (P8 j). }
  assert (forall y, map_sector s2 m y <-> map_sector s0 m y) as F3.
  { intros y. etransitivity; [apply F2|]. etransitivity; [apply F1|]. apply R4. }
  split; [by eapply stores_inv|by rewrite (stores_size _ _ _ W8)|exact M2|exact F3| | |].
  - eapply same_objects_trans; [exact R5|]. eapply same_objects_trans; [|exact So]. done.
  - intros y Hy. rewrite (stores_view _ _ _ _ W8), V8; [by apply R6|].
    intros Hfs. apply Hy, (proj1 (R4 y)), (proj1 (F1 y)), Hfs.
  - intros y Hy. rewrite Sm. cbn [free_map with_map]. rewrite Ub, R7 by done.
    destruct (Z.eqb_spec x y) as [->|Hne].
    + rewrite (bool_decide_eq_true_2 (y ∈ y :: R)) by apply list_elem_of_here. by rewrite andb_false_r.
    + do 2 f_equal. apply bool_decide_ext. rewrite elem_of_cons. naive_solver.
Qed.

Lemma released_stores s s' R : released s R -> stores s s' (fview s) -> released s' R.
Proof.
  intros [R1 R2 R3 R4 R5 R6 R7] W. destruct (stores_objects _ _ _ W) as [So Sm].
  assert (forall x, fview s' x = fview s x) as Ev by (intros x; apply (stores_view _ _ _ _ W)).
  destruct (map_open_ext s s' _ _ _ _ R3 (stores_size _ _ _ W) So) as [M1 F1].
  { rewrite Sm. apply R3. } { by rewrite Sm. } { intros x _ _. by rewrite Sm. } { auto. }
  split; [by eapply stores_inv|by rewrite (stores_size _ _ _ W)|exact M1| | | |].
  - intros x. etransitivity; [apply F1|apply R4].
  - by eapply same_objects_trans.
  - intros x Hx. rewrite Ev. auto.
  - intros x Hx. rewrite Sm. auto.
Qed.

(** ** The file whose sectors are given back *)

Context (p : Z) (i : inode) (o : Z).
Context (Hw : file_wf s0 m p i o) (Eo : o = length (data i) / 512).
Notation v0 := (fview s0).
Notation di := (data i).

Definition good (x : Z) : Prop := 0 <= x < fsize s0 /\ ~ map_sector s0 m x /\ bit (free_map s0) x = true.

Lemma sectors_good x : x ∈ sectors v0 i o -> good x.
Proof.
  intros Hx. split; [by apply (fw_range _ _ _ _ _ Hw)|].
  split; [by apply (fw_apart _ _ _ _ _ Hw)|by apply (fw_used _ _ _ _ _ Hw)].
Qed.

Lemma release_good d s R x : released s R -> good x -> x ∉ R ->
  exists s', free_map_release (inode_write_at_depth (Datatypes.S d)) x 1 s = Ok (tt, s') /\ released s' (x :: R).
Proof. intros HR (H1 & H2 & H3) Hn. by apply free_map_release_run. Qed.

Lemma read_good s R x : released s R -> good x ->
  exists s', read_table x s = Ok (table v0 x, s') /\ released s' R.
Proof.
  intros HR (H1 & H2 & _). destruct (read_table_run s x) as (s' & E & W).
  - apply (re_inv _ _ HR).
  - by rewrite (re_size _ _ HR).
  - exists s'. split; [|by apply (released_stores s)]. rewrite E. unfold table. by rewrite (re_view _ _ HR).
Qed.

(** The page of block [k], and what is given back together with it. *)
Definition page (k : Z) : Z := word (table v0 (double_indir di)) ((k - (DIR_LEN + 2 * TABLE)) / TABLE).
Definition last_of_page (k : Z) : bool :=
  (DIR_LEN + 2 * TABLE <=? k) && (((k - (DIR_LEN + 2 * TABLE)) mod TABLE =? TABLE - 1) || (k =? o)).
Definition item (k : Z) : list Z := tab (last_of_page k) [page k] ++ [block v0 di k].

(** The tables the loop works with when it comes to block [k]. *)
Record tables_at (t : tables) (k : Z) : Prop := {
  ta_inode : t_inode t = di;
  ta_1st : DIR_LEN <= o -> t_1st t = table v0 (word (single_indir di) 0);
  ta_2nd : DIR_LEN + TABLE <= o -> t_2nd t = table v0 (word (single_indir di) 1);
  ta_2level : DIR_LEN + 2 * TABLE <= o -> t_2level t = table v0 (double_indir di);
  ta_cur : DIR_LEN + 2 * TABLE <= k -> (k - (DIR_LEN + 2 * TABLE)) mod TABLE <> 0 -> t_cur t = table v0 (page k) }.

Lemma table_length' x : List.length (table v0 x) = 128%nat.
Proof. apply (proj1 (table_wf s0 x (fw_inv _ _ _ _ _ Hw))). Qed.

Lemma release_simple s R (t : tables) ws j b :
  released s R -> 0 <= j < Z.of_nat (List.length ws) -> word ws j = b -> good b -> b ∉ R ->
  exists s', (let! v := entry ws j in do! free_map_release (inode_write_at_depth 1) v 1; ret t) s = Ok (t, s') /\
    released s' (b :: R).
Proof.
  intros HR Hj Ew Hg Hn. erewrite bind_eq; [|by apply entry_run]. rewrite Ew.
  destruct (release_good 0 s R _ HR Hg Hn) as (s' & E & HR'). erewrite bind_eq; [|exact E]. eauto.
Qed.

Lemma page_step k :
  DIR_LEN + 2 * TABLE <= k -> (k + 1 - (DIR_LEN + 2 * TABLE)) mod TABLE <> 0 -> page (k + 1) = page k.
Proof.
  intros Hk Hm. unfold page, DIR_LEN, TABLE in *. f_equal.
  pose proof (Z.div_mod (k + 1 - (123 + 2 * 128)) 128). pose proof (Z.div_mod (k - (123 + 2 * 128)) 128).
  pose proof (Z.mod_pos_bound (k + 1 - (123 + 2 * 128)) 128). pose proof (Z.mod_pos_bound (k - (123 + 2 * 128)) 128).
  lia.
Qed.

Lemma tables_step t k : tables_at t k -> k < DIR_LEN + 2 * TABLE -> tables_at t (k + 1).
Proof.
  intros [T1 T2 T3 T4 T5] Hk. split; [done..|]. unfold DIR_LEN, TABLE in *. intros H1 H2. exfalso. apply H2.
  by replace (k + 1 - (123 + 2 * 128)) with 0 by lia.
Qed.

Lemma release_step_low s R t k :
  released s R -> tables_at t k -> 0 <= k <= o -> k < DIR_LEN + 2 * TABLE ->
  good (block v0 di k) -> block v0 di k ∉ R ->
  exists s', release_step o k t s = Ok (t, s') /\ released s' (item k ++ R) /\ tables_at t (k + 1).
Proof.
  intros HR HT Hk Hlt Hg Hn. pose proof HT as [T1 T2 T3 T4 T5].
  pose proof (dw_dir _ (fw_disk _ _ _ _ _ Hw)) as [Hdl _].
  assert (item k = [block v0 di k]) as -> by (unfold item, last_of_page; by rewrite (proj2 (Z.leb_gt _ k)) by lia).
  cut (exists s', release_step o k t s = Ok (t, s') /\ released s' (block v0 di k :: R)).
  { intros (s' & E & HR'). exists s'. split; [done|]. split; [done|]. by apply tables_step. }
  unfold release_step. unfold block in *. unfold DIR_LEN, TABLE in *.
  destruct (Z.ltb_spec k 123); [|destruct (Z.ltb_spec k (123 + 128)); [|destruct (Z.ltb_spec k (123 + 2 * 128)); [|lia]]].
  - apply release_simple; rewrite ?T1, ?Hdl; done || lia.
  - apply release_simple; rewrite ?T2, ?table_length' by lia; done || lia.
  - apply release_simple; rewrite ?T3, ?table_length' by lia; done || lia.
Qed.

Lemma release_step_high s R t k :
  released s R -> tables_at t k -> DIR_LEN + 2 * TABLE <= k <= o -> 
  Forall good (item k) -> good (page k) -> NoDup (item k) -> (forall x, x ∈ item k -> x ∉ R) ->
  exists t' s', release_step o k t s = Ok (t', s') /\ released s' (item k ++ R) /\ tables_at t' (k + 1).
Proof.
  intros HR HT Hk Hg Hgp Hnd Hn. pose proof HT as [T1 T2 T3 T4 T5].
  pose proof (fw_blocks _ _ _ _ _ Hw) as Hmax. unfold release_step.
  rewrite !(proj2 (Z.ltb_ge k _)) by (unfold DIR_LEN, TABLE in *; lia).
  replace (k - DIR_LEN - 2 * TABLE) with (k - (DIR_LEN + 2 * TABLE)) by lia.
  unfold MAX_BLOCKS, DIR_LEN, TABLE in *. set (j := k - (123 + 2 * 128)) in *.
  rewrite Z.quot_div_nonneg, Z.rem_mod_nonneg by lia.
  assert (0 <= j / 128 < 128) as Hj by (split; [apply Z.div_pos; lia|apply Z.div_lt_upper_bound; lia]).
  pose proof (Z.mod_pos_bound j 128 ltac:(lia)) as Hjm.
  assert (forall s, entry (t_2level t) (j / 128) s = Ok (page k, s)) as Ep.
  { intros s'. rewrite T4 by lia. apply entry_run. rewrite table_length'. lia. }
  assert (exists s1, (if j mod 128 =? 0 then let! pg := entry (t_2level t) (j / 128) in read_table pg else ret (t_cur t)) s =
     Ok (table v0 (page k), s1) /\ released s1 R) as (s1 & E1 & HR1).
  { destruct (Z.eqb_spec (j mod 128) 0).
    - erewrite bind_eq; [|apply Ep]. by apply read_good.
    - exists s. rewrite T5 by lia. done. }
  erewrite bind_eq; [|exact E1]. erewrite bind_eq; [|apply entry_run; rewrite table_length'; lia].
  assert (word (table v0 (page k)) (j mod 128) = block v0 di k) as ->.
  { unfold block, DIR_LEN, TABLE. by rewrite !(proj2 (Z.ltb_ge k _)) by lia. }
  assert (block v0 di k ∈ item k) as Hin by (unfold item; in_list).
  destruct (release_good 0 s1 R (block v0 di k) HR1) as (s2 & E2 & HR2).
  { rewrite Forall_forall in Hg. auto. } { auto. }
  erewrite bind_eq; [|exact E2]. exists (set_cur t (table v0 (page k))).
  assert (tables_at (set_cur t (table v0 (page k))) (k + 1)) as HT'.
  { split; [done..|]. cbn [set_cur t_cur]. intros _ Hne. by rewrite page_step by (unfold DIR_LEN, TABLE in *; lia). }
  assert (last_of_page k = (j mod 128 =? 128 - 1) || (k =? o)) as El.
  { unfold last_of_page, DIR_LEN, TABLE. by rewrite (proj2 (Z.leb_le _ k)) by lia. }
  unfold item in *. rewrite El in *. destruct ((j mod 128 =? 128 - 1) || (k =? o)); cbn [tab app] in *.
  - destruct (release_good 0 s2 (block v0 di k :: R) (page k) HR2 Hgp) as (s3 & E3 & HR3).
    { apply not_elem_of_cons. split; [|apply Hn; in_list].
      apply NoDup_cons in Hnd as [Hnd _]. rewrite list_elem_of_singleton in Hnd. done. }
    exists s3. split; [|done]. erewrite bind_eq; [done|]. erewrite bind_eq; [exact E3|apply Ep].
  - exists s2. split; [done|]. done.
Qed.

(** ** No sector is given back twice *)

Definition base : list Z :=
  tab (o >=? DIR_LEN) [word (single_indir di) 0] ++ tab (o >=? DIR_LEN + TABLE) [word (single_indir di) 1] ++
  tab (o >=? DIR_LEN + 2 * TABLE) [double_indir di] ++ [sector i].
Definition blocks : list Z := map (block v0 di) (seqZ 0 (o + 1)).
Definition all_pages : list Z := tab (o >=? DIR_LEN + 2 * TABLE) (pages_of (table v0 (double_indir di)) o).

Lemma sectors_perm : Permutation (sectors v0 i o) (blocks ++ all_pages ++ base).
Proof.
  unfold sectors, base, all_pages, blocks. rewrite metas_tab. cbn [disk_tables t_inode t_2level].
  destruct (o >=? DIR_LEN + 2 * TABLE); cbn [tab]; solve_Permutation.
Qed.
Lemma block_in k : 0 <= k <= o -> block v0 di k ∈ blocks.
Proof. apply block_sectors. Qed.
Lemma page_in_all k : DIR_LEN + 2 * TABLE <= k <= o -> page k ∈ all_pages.
Proof.
  intros Hk. unfold all_pages. rewrite (proj2 (Z.geb_le o _)) by lia. cbn [tab].
  apply (page_in (disk_tables v0 di) o k Hk).
Qed.
Lemma last_of_page_spec k : last_of_page k = true ->
  DIR_LEN + 2 * TABLE <= k /\ ((k - (DIR_LEN + 2 * TABLE)) mod TABLE = TABLE - 1 \/ k = o).
Proof.
  unfold last_of_page. intros [H1%Z.leb_le H2]%andb_prop. split; [done|].
  apply orb_prop in H2 as [H2|H2]; apply Z.eqb_eq in H2; auto.
Qed.
Lemma item_cases k x : x ∈ item k -> x = block v0 di k \/ last_of_page k = true /\ x = page k.
Proof.
  unfold item. destruct (last_of_page k); cbn [tab app]; rewrite !elem_of_cons; intuition.
  all: by match goal with H : _ ∈ [] |- _ => apply not_elem_of_nil in H end.
Qed.

Lemma sectors_distinct :
  NoDup blocks /\ NoDup all_pages /\ (forall x, x ∈ blocks -> x ∉ all_pages /\ x ∉ base) /\
  (forall x, x ∈ all_pages -> x ∉ base).
Proof.
  pose proof (fw_nodup _ _ _ _ _ Hw) as Hnd. rewrite sectors_perm in Hnd.
  apply NoDup_app in Hnd as (N1 & N2 & N3). apply NoDup_app in N3 as (N3 & N4 & _).
  split; [done|]. split; [done|]. split; [|done]. intros x Hx. specialize (N2 x Hx).
  rewrite elem_of_app in N2. tauto.
Qed.

Lemma page_last j k :
  0 <= j < k -> k <= o -> last_of_page j = true -> DIR_LEN + 2 * TABLE <= k -> page j <> page k.
Proof.
  intros Hj Hk [Hl1 Hl2]%last_of_page_spec Hk2 E. destruct sectors_distinct as (_ & N & _).
  unfold all_pages in N. rewrite (proj2 (Z.geb_le o _)) in N by lia. cbn [tab] in N.
  apply (page_inj (disk_tables v0 di) o j k N) in E; [|lia|lia].
  unfold DIR_LEN, TABLE in *. destruct (same_page (k - (123 + 2 * 128)) (j - (123 + 2 * 128))); [lia|done|].
  pose proof (Z.mod_pos_bound (k - (123 + 2 * 128)) 128). lia.
Qed.

Lemma item_sectors k x : 0 <= k <= o -> x ∈ item k -> x ∈ sectors v0 i o.
Proof.
  intros Hk Hx. rewrite sectors_perm. apply item_cases in Hx as [->|[[Hl _]%last_of_page_spec ->]].
  - apply elem_of_app. left. by apply block_in.
  - apply elem_of_app. right. apply elem_of_app. left. apply page_in_all. lia.
Qed.

Lemma item_nodup k : 0 <= k <= o -> NoDup (item k).
Proof.
  intros Hk. unfold item. destruct (last_of_page k) eqn:El; cbn [tab app]; [|apply NoDup_singleton].
  apply NoDup_cons. split; [|apply NoDup_singleton]. intros E%list_elem_of_singleton.
  apply last_of_page_spec in El as [El _]. destruct sectors_distinct as (_ & _ & N & _).
  destruct (N _ (block_in k Hk)) as [Hn _]. apply Hn. rewrite <- E. apply page_in_all. lia.
Qed.

Lemma item_fresh k x : 0 <= k <= o -> x ∈ item k -> x ∉ base /\ forall j, 0 <= j < k -> x ∉ item j.
Proof.
  intros Hk Hx. destruct sectors_distinct as (N1 & N2 & N3 & N4).
  apply item_cases in Hx as [->|[Hl ->]].
  - split; [by apply N3, block_in|]. intros j Hj [E|[Hl E]]%item_cases.
    + apply (map_inj_seqZ _ (o + 1)) in E; [lia|done|lia|lia].
    + apply last_of_page_spec in Hl as [Hl _].
      apply (proj1 (N3 _ (block_in k Hk))). rewrite E. apply page_in_all. lia.
  - pose proof (last_of_page_spec k Hl) as [Hl' _]. assert (page k ∈ all_pages) as Hp by (apply page_in_all; lia).
    split; [by apply N4|]. intros j Hj [E|[Hlj E]]%item_cases.
    + apply (proj1 (N3 _ (block_in j ltac:(lia)))). by rewrite <- E.
    + by apply (page_last j k Hj ltac:(lia) Hlj Hl').
Qed.

Lemma item_last_page k : DIR_LEN + 2 * TABLE <= k <= o -> exists j, k <= j <= o /\ last_of_page j = true /\ page j = page k.
Proof.
  intros Hk. unfold last_of_page, page, DIR_LEN, TABLE in *. set (q := (k - (123 + 2 * 128)) / 128) in *.
  pose proof (Z.div_mod (k - (123 + 2 * 128)) 128 ltac:(lia)) as E. fold q in E.
  pose proof (Z.mod_pos_bound (k - (123 + 2 * 128)) 128 ltac:(lia)).
  exists (Z.min o (123 + 2 * 128 + q * 128 + 127)). split; [lia|]. split.
  - rewrite (proj2 (Z.leb_le _ _)) by lia. apply orb_true_iff.
    destruct (Z.min_spec o (123 + 2 * 128 + q * 128 + 127)) as [[? ->]|[? ->]]; [right; apply Z.eqb_refl|left].
    apply Z.eqb_eq. replace (123 + 2 * 128 + q * 128 + 127 - (123 + 2 * 128)) with (127 + q * 128) by lia.
    rewrite Z.mod_add by lia. done.
  - f_equal. unfold q. symmetry. apply Z.div_unique with (r := Z.min o (123 + 2 * 128 + q * 128 + 127) - (123 + 2 * 128) - q * 128); fold q; lia.
Qed.

(** ** The loop, and all of it *)

Lemma release_loop_run n : forall s R t k,
  released s R -> tables_at t k -> 0 <= k -> k + Z.of_nat n = o + 1 ->
  (forall x, x ∈ R <-> x ∈ base \/ exists j, 0 <= j < k /\ x ∈ item j) ->
  exists s' R', release_loop n o k t s = Ok (tt, s') /\ released s' R' /\
    forall x, x ∈ R' <-> x ∈ base \/ exists j, 0 <= j <= o /\ x ∈ item j.
Proof.
  induction n as [|n IH]; intros s R t k HR HT Hk Hn Hinv; cbn [release_loop].
  { exists s, R. split; [done|]. split; [done|]. intros x. rewrite Hinv.
    split; (intros [Hx|(j & Hj & Hx)]; [by left|right; exists j; split; [lia|done]]). }
  assert (Forall good (item k)) as Hgood.
  { apply Forall_forall. intros x Hx. apply sectors_good. apply (item_sectors k); [lia|done]. }
  assert (forall x, x ∈ item k -> x ∉ R) as Hfresh.
  { intros x Hx. destruct (item_fresh k x ltac:(lia) Hx) as [H1 H2]. rewrite Hinv.
    intros [Hb|(j & Hj & Hxj)]; [done|by apply (H2 j)]. }
  assert (exists t' s', release_step o k t s = Ok (t', s') /\ released s' (item k ++ R) /\ tables_at t' (k + 1))
    as (t' & s1 & E1 & HR1 & HT1).
  { destruct (Z.lt_ge_cases k (DIR_LEN + 2 * TABLE)) as [Hlt|Hge].
    - assert (block v0 di k ∈ item k) as Hin by (unfold item; in_list). rewrite Forall_forall in Hgood.
      destruct (release_step_low s R t k) as (s1 & ?); [done|done|lia|done|auto|auto|]. eauto.
    - apply release_step_high; [done|done|lia|done| |apply item_nodup; lia|done].
      apply sectors_good. rewrite sectors_perm, !elem_of_app. right. left. apply page_in_all. lia. }
  erewrite bind_eq; [|exact E1]. apply (IH s1 (item k ++ R)); [done|done|lia|lia|].
  intros x. rewrite elem_of_app, Hinv. split.
  - intros [Hx|[Hx|(j & Hj & Hx)]]; [right; exists k; split; [lia|done]|by left|right; exists j; split; [lia|done]].
  - intros [Hx|(j & Hj & Hx)]; [by right; left|]. destruct (decide (j = k)) as [->|]; [by left|].
    right; right. exists j. split; [lia|done].
Qed.

Lemma all_released R :
  (forall x, x ∈ R <-> x ∈ base \/ exists j, 0 <= j <= o /\ x ∈ item j) ->
  forall x, x ∈ R <-> x ∈ sectors v0 i o.
Proof.
  intros HR x. rewrite HR. split.
  - intros [Hx|(j & Hj & Hx)]; [|by apply (item_sectors j)]. rewrite sectors_perm, !elem_of_app. auto.
  - rewrite sectors_perm, !elem_of_app. intros [(j & -> & Hj%elem_of_seqZ)%list_elem_of_fmap|[Hx|Hx]]; [| |by left].
    + right. exists j. split; [lia|]. unfold item. in_list.
    + right. unfold all_pages in Hx. destruct (Z.geb_spec o (DIR_LEN + 2 * TABLE)) as [Ho|]; cbn [tab] in Hx;
        [|by apply not_elem_of_nil in Hx].
      unfold pages_of in Hx. apply list_elem_of_fmap in Hx as (q & -> & Hq%elem_of_seqZ).
      destruct (item_last_page (DIR_LEN + 2 * TABLE + q * TABLE)) as (j & Hj & Hl & E).
      { pose proof (Z.mul_div_le (o - (DIR_LEN + 2 * TABLE)) TABLE ltac:(done)). unfold TABLE in *. lia. }
      exists j. unfold DIR_LEN, TABLE in *. split; [lia|]. unfold item. rewrite Hl, E. cbn [tab app].
      unfold page, DIR_LEN, TABLE. replace (123 + 2 * 128 + q * 128 - (123 + 2 * 128)) with (q * 128) by lia.
      rewrite Z.div_mul by lia. apply list_elem_of_here.
Qed.

(** One of the tables of the inode, read and given back. *)
Lemma release_table (c : bool) s R (get : M fs Z) x :
  released s R -> (c = true -> forall s, get s = Ok (x, s)) -> (c = true -> good x /\ x ∉ R) ->
  exists ws s', (if c then let! v := get in let! ws := read_table v in
                   do! free_map_release (inode_write_at_depth 1) v 1; ret ws else ret no_table) s = Ok (ws, s') /\
    released s' (tab c [x] ++ R) /\ (c = true -> ws = table v0 x).
Proof.
  intros HR Hget Hx. destruct c; [|by exists no_table, s]. destruct (Hx eq_refl) as [Hg Hn].
  erewrite bind_eq; [|by apply Hget]. destruct (read_good s R x HR Hg) as (s1 & E1 & HR1).
  erewrite bind_eq; [|exact E1]. destruct (release_good 0 s1 R x HR1 Hg Hn) as (s2 & E2 & HR2).
  erewrite bind_eq; [|exact E2]. eexists _, s2. done.
Qed.

Lemma released_refl : st_inv (store s0) -> map_ok s0 m -> released s0 [].
Proof.
  intros H1 H2. split; [done|done|done|done|done|done|].
  intros x _. by rewrite bool_decide_eq_false_2, andb_true_r by apply not_elem_of_nil.
Qed.

Lemma base_in x : x ∈ base -> good x.
Proof. intros Hx. apply sectors_good. rewrite sectors_perm, !elem_of_app. auto. Qed.

Lemma base_nodup : NoDup base.
Proof.
  pose proof (fw_nodup _ _ _ _ _ Hw) as Hnd. rewrite sectors_perm in Hnd.
  apply NoDup_app in Hnd as (_ & _ & Hnd). by apply NoDup_app in Hnd as (_ & _ & ?).
Qed.

Lemma release_inode_run :
  exists s' R, release_inode i s0 = Ok (tt, s') /\ released s' R /\ forall x, x ∈ R <-> x ∈ sectors v0 i o.
Proof.
  pose proof (fw_len _ _ _ _ _ Hw) as Hlen. pose proof (dw_single _ (fw_disk _ _ _ _ _ Hw)) as [Hsl _].
  pose proof base_nodup as Hnd. pose proof base_in as Hb. unfold base in Hnd, Hb.
  set (b0 := o >=? DIR_LEN) in *. set (b1 := o >=? DIR_LEN + TABLE) in *. set (b2 := o >=? DIR_LEN + 2 * TABLE) in *.
  apply NoDup_app in Hnd as (_ & D1 & Hnd). apply NoDup_app in Hnd as (_ & D2 & Hnd).
  apply NoDup_app in Hnd as (_ & D3 & _). unfold release_inode. rewrite Z.quot_div_nonneg, <- Eo by lia.
  destruct (release_good 0 s0 [] (sector i)) as (s1 & E1 & R1).
  { apply released_refl; apply Hw. } { apply Hb. in_list. } { apply not_elem_of_nil. }
  erewrite bind_eq; [|exact E1]. cbv zeta. fold b0 b1 b2.
  destruct (release_table b0 s1 [sector i] (entry (single_indir di) 0) (word (single_indir di) 0) R1) as (t1 & s2 & E2 & R2 & T1).
  { intros _ s. apply entry_run. lia. }
  { intros E. rewrite E in D1, Hb. split; [apply Hb; cbn [tab]; in_list|].
    intros Hx. apply (D1 (word (single_indir di) 0)); [apply list_elem_of_here|]. rewrite !elem_of_app. auto. }
  erewrite bind_eq; [|exact E2].
  destruct (release_table b1 s2 _ (entry (single_indir di) 1) (word (single_indir di) 1) R2) as (t2 & s3 & E3 & R3 & T2).
  { intros _ s. apply entry_run. lia. }
  { intros E. rewrite E in D1, D2, Hb. split; [apply Hb; cbn [tab]; in_list|].
    intros [Hx|Hx]%elem_of_app.
    - apply (D1 _ Hx). cbn [tab]. in_list.
    - apply (D2 (word (single_indir di) 1)); [apply list_elem_of_here|]. rewrite !elem_of_app. auto. }
  erewrite bind_eq; [|exact E3].
  destruct (release_table b2 s3 _ (ret (double_indir di)) (double_indir di) R3) as (t3 & s4 & E4 & R4 & T3).
  { done. }
  { intros E. rewrite E in D1, D2, D3, Hb. split; [apply Hb; cbn [tab]; in_list|].
    rewrite !elem_of_app. intros [Hx|[Hx|Hx]].
    - apply (D2 _ Hx). cbn [tab]. in_list.
    - apply (D1 _ Hx). cbn [tab]. in_list.
    - apply (D3 (double_indir di)); [apply list_elem_of_here|done]. }
  erewrite bind_eq; [|exact E4].
  destruct (release_loop_run (Z.to_nat (o + 1)) s4 _ {| t_inode := di; t_1st := t1; t_2nd := t2; t_2level := t3; t_cur := no_table |} 0 R4)
    as (s' & R' & E5 & R5 & H5).
  - split; cbn [t_inode t_1st t_2nd t_2level t_cur]; [done| | | |done]; intros ?%Z.geb_le; auto.
  - lia.
  - pose proof (Z.div_pos (length di) 512). lia.
  - intros x. unfold base. fold b0 b1 b2. rewrite !elem_of_app. split; [tauto|].
    intros [Hx|(j & Hj & _)]; [tauto|lia].
  - exists s', R'. split; [exact E5|]. split; [done|]. by apply all_released.
Qed.
End release.

(** ** [inode_close] *)

Section close.
Context {S : Type} `{HS : SectorStoreLaws S}.
Notation fs := (fs S).
Implicit Types s : fs.

(** [file_wf] does not depend on the counters of the inode nor on the list of open inodes. *)
Lemma file_wf_counters s m p i i' o l :
  file_wf s m p i o -> sector i' = sector i -> data i' = data i ->
  file_wf (with_open l (with_inodes (<[p := i']> (inodes s)) s)) m p i' o.
Proof.
  intros [H1 H2 H3 H4 H5 H6 H7 H8 H9 H10 H11] Es Ed.
  assert (forall v, sectors v i' o = sectors v i o) as E by (intros v; unfold sectors; by rewrite Es, Ed).
  pose proof (map_open_inodes s _ _ _ _ p i' H3 H2) as M1.
  split; rewrite ?Ed, ?E; [exact H1| |exact H3|apply lookup_insert_eq|exact H5|exact H6|exact H7|exact H8|exact H9|exact H10|exact H11].
  destruct M1 as [N1 N2 N3 N4 N5 N6 N7 N8 N9]. split; [exact N1|exact N2|exact N3|exact N4| |exact N6|exact N7|exact N8|exact N9].
  destruct N5. split; done.
Qed.

Lemma map_ok_delete s m p : p <> mf_ptr m -> map_ok s m -> map_ok (with_inodes (delete p (inodes s)) s) m.
Proof.
  intros Hne [M1 M2 M3 M4 M5 M6 M7 M8 M9].
  split; [exact M1|exact M2| |exact M4| |exact M6|exact M7|exact M8|exact M9].
  - cbn. by rewrite lookup_delete_ne.
  - destruct M5. split; done.
Qed.

Record closed s s' (m : map_file) (p : Z) i : Prop := {
  cl_inv : st_inv (store s');
  cl_map : map_ok s' m;
  cl_inode : inodes s' !! p = None /\ p ∉ open_inodes s';
  cl_bits : forall x, 0 <= x -> bit (free_map s') x = true <->
    bit (free_map s) x = true /\ x ∉ sectors (fview s) i (length (data i) / 512);
  cl_view : forall x, ~ map_sector s m x -> fview s' x = fview s x }.

Lemma inode_close_last s m p i :
  file_wf s m p i (length (data i) / 512) -> open_cnt i = 1 -> removed i = true ->
  exists s', inode_close (Some p) s = Ok (tt, s') /\ closed s s' m p i.
Proof.
  intros Hw Hc Hr. cbn [inode_close].
  erewrite bind_eq; [|apply get_inode_run; apply (fw_inode _ _ _ _ _ Hw)]. cbv zeta.
  set (i' := {| sector := sector i; open_cnt := open_cnt i - 1; removed := removed i;
                deny_write_cnt := deny_write_cnt i; data := data i |}).
  erewrite bind_eq; [|done]. cbn [open_cnt i']. rewrite Hc. change (1 - 1 =? 0) with true. cbv iota.
  erewrite bind_eq; [|done]. cbn [removed i']. rewrite Hr. cbn [open_inodes with_inodes].
  set (l := List.filter _ (open_inodes s)). set (s1 := with_open l (with_inodes (<[p := i']> (inodes s)) s)).
  pose proof (file_wf_counters s m p i i' _ l Hw eq_refl eq_refl) as Hw1. fold s1 in Hw1.
  destruct (release_inode_run s1 m p i' _ Hw1 eq_refl) as (s2 & R & E2 & HR & Hsec).
  erewrite bind_eq; [|exact E2]. eexists. split; [done|]. destruct HR as [R1 R2 R3 R4 R5 R6 R7].
  split; [exact R1|by apply map_ok_delete; [apply Hw|]| | |exact R6].
  - cbn. split; [apply lookup_delete_eq|]. destruct R5 as (_ & -> & _). cbn. unfold l.
    rewrite list_elem_of_In, filter_In. intros [_ Hf]. by rewrite Z.eqb_refl in Hf.
  - intros x Hx. cbn [free_map with_inodes]. rewrite R7 by done.
    change (free_map s1) with (free_map s). change (fview s1) with (fview s) in Hsec.
    change (sectors (fview s) i') with (sectors (fview s) i) in Hsec.
    rewrite andb_true_iff, negb_true_iff, bool_decide_eq_false. split; intros [Hb Hn]; (split; [done|]).
    + intros Hin. apply Hn, Hsec, Hin.
    + intros Hin. apply Hn, (proj1 (Hsec x)), Hin.
Qed.
End close.

End InodeRelease.
