(* ===== verification/InodeCreate.v ===== *)
(** * filesys/inode.c: creating a file and opening it

    [inode_create] of a file whose blocks are all direct, up to 62975 bytes: each of
    its blocks is a sector that was free, zeroed now; the file that [inode_open] then
    finds is well-formed and reads as zeros. *)

From S2P Require Import Prelude Bytes Block Bitmap BufferFacts Inode InodeFacts InodeAlloc InodeExtend InodeGrow.
Import Bytes Block Bitmap BufferFacts Inode InodeFacts InodeAlloc InodeExtend InodeGrow.

Module InodeCreate.

Section create.
Context {S : Type} `{HS : SectorStoreLaws S}.
Notation fs := (fs S).
Implicit Types (s : fs) (bs : list Z).

(** The next allocation of memory succeeds. *)
Definition memory s : Prop := head (oom s) <> Some true.
Definition after_malloc s : fs :=
  Build_fs (store s) (free_map s) (free_map_file s) (inodes s) (open_inodes s)
    (files s) (dirs s) (curr_dir s) (next_ptr s + 1) (tail (oom s)).
Lemma malloc_run s : memory s -> malloc s = Ok (Some (next_ptr s), after_malloc s).
Proof. unfold memory, malloc, after_malloc. by destruct (oom s) as [|[] ?]. Qed.

(** The on-disk inode of a file of [len] bytes with the direct blocks [bs]. *)
Definition direct_inode (len : Z) bs : inode_disk :=
  {| length := len; magic := INODE_MAGIC; dir := bs ++ replicate (123 - List.length bs) 0;
     single_indir := [0; 0]; double_indir := 0 |}.

Lemma direct_add len bs sec :
  (List.length bs < 123)%nat ->
  <[List.length bs := sec]> (dir (direct_inode len bs)) = dir (direct_inode len (bs ++ [sec])).
Proof.
  intros Hl. cbn [direct_inode dir]. rewrite insert_app_r_alt, Nat.sub_diag by lia.
  rewrite length_app. cbn [List.length].
  replace (123 - List.length bs)%nat with (Datatypes.S (123 - (List.length bs + 1))) by lia.
  by rewrite <- app_assoc.
Qed.
Lemma direct_word len bs k : 0 <= k < Z.of_nat (List.length bs) -> word (dir (direct_inode len bs)) k = word bs k.
Proof. intros Hk. unfold word, direct_inode. cbn [dir]. rewrite app_nth1 by lia. done. Qed.
Lemma direct_wf len bs :
  0 <= len < 2 ^ 31 -> (List.length bs <= 123)%nat -> Forall is_word bs -> disk_wf (direct_inode len bs).
Proof.
  intros Hlen Hl Hw. split; cbn [direct_inode length magic dir single_indir double_indir].
  - lia.
  - by vm_compute.
  - rewrite length_app, length_replicate, Forall_app. split; [lia|]. split; [done|].
    apply Forall_replicate. by vm_compute.
  - split; [done|]. repeat constructor; by vm_compute.
  - by vm_compute.
Qed.

Section loop.
Context (s0 : fs) (m : map_file) (d : nat) (C sec len : Z).
Notation fp := (mf_ptr m).
Notation own := (owns s0 (mf_file m) (mf_ptr m) (mf_inode m) (mf_blocks m) (mf_ptr m + 1) C).

Record cinv s bs : Prop := {
  ci_owns : own s (bs ++ [sec]);
  ci_inodes : inodes s = inodes s0;
  ci_fresh : Forall (fun b => bit (free_map s0) b = false) bs;
  ci_zero : Forall (fun b => fview s b = zeros 512) bs;
  ci_frame : forall x, ~ map_sector s0 m x -> x ∉ bs -> fview s x = fview s0 x }.

Lemma create_loop_run (index : Z) n : forall s bs t,
  cinv s bs -> t_inode t = direct_inode len bs ->
  Z.of_nat (List.length bs) + Z.of_nat n <= DIR_LEN -> Z.of_nat (List.length bs) + Z.of_nat n + 1 <= C ->
  exists t' s' cs, create_loop (inode_write_at_depth (Datatypes.S d)) n index (Z.of_nat (List.length bs)) t s = Ok (t', s') /\
    cinv s' (bs ++ cs) /\ t_inode t' = direct_inode len (bs ++ cs) /\ List.length cs = n.
Proof.
  unfold DIR_LEN. induction n as [|n IH]; intros s bs t [I1 I2 I3 I4 I5] Et Hd Hc; cbn [create_loop].
  { exists t, s, []. rewrite app_nil_r. split; [done|]. done. }
  unfold create_step. rewrite (proj2 (Z.ltb_lt _ DIR_LEN)) by (unfold DIR_LEN; lia). rewrite Et.
  destruct (alloc_zeroed_run s0 (mf_file m) fp (mf_inode m) (mf_blocks m) (fp + 1) d C s _ (dir (direct_inode len bs))
    (Z.of_nat (List.length bs)) I1) as (x & s1 & E1 & O1 & B1 & N1 & Z1 & V1).
  { rewrite length_app. cbn [List.length]. lia. }
  { cbn [direct_inode dir]. rewrite length_app, length_replicate. lia. }
  rewrite Nat2Z.id, direct_add in E1 by lia.
  pose proof (ow_nodup _ _ _ _ _ _ _ _ _ O1) as [Hnx Hnd]%NoDup_cons.
  assert (x ∉ bs) as Hxb by (intros Hx; apply Hnx, elem_of_app; by left).
  assert (forall b, b ∈ bs -> fview s1 b = fview s b) as Hsame.
  { intros b Hb. apply V1.
    - apply (ow_range _ _ _ _ _ _ _ _ _ I1 b). apply elem_of_app. by left.
    - rewrite list_elem_of_singleton. by intros ->. }
  assert (cinv s1 (bs ++ [x])) as J.
  { split; [by apply owns_snoc|congruence|rewrite Forall_app; by split; [|constructor]| |].
    - rewrite Forall_app. split; [|by constructor]. apply Forall_forall. intros b Hb.
      rewrite (Hsame b Hb). rewrite Forall_forall in I4. auto.
    - intros y Hy Hny. rewrite elem_of_app in Hny. rewrite V1; [apply I5; tauto|exact Hy|tauto]. }
  destruct (IH s1 (bs ++ [x]) (set_dir t (dir (direct_inode len (bs ++ [x]))))) as (t' & s' & cs & E2 & J2 & T2 & L2).
  - exact J.
  - cbn [set_dir t_inode]. by rewrite Et.
  - rewrite length_app. cbn [List.length]. lia.
  - rewrite length_app. cbn [List.length]. lia.
  - exists t', s', (x :: cs). rewrite <- app_assoc in J2, T2. split; [|split; [done|split; [done|simpl; lia]]].
    erewrite bind_eq; [|erewrite bind_eq; [done|exact E1]]. rewrite length_app, Nat2Z.inj_add in E2. exact E2.
Qed.
End loop.

(** The file that has been created in sector [sec]. *)
Record created s s' (m : map_file) (sec len : Z) bs : Prop := {
  cr_inv : st_inv (store s');
  cr_size : fsize s' = fsize s;
  cr_map : map_ok s' m;
  cr_sectors : forall x, map_sector s' m x <-> map_sector s m x;
  cr_objects : inodes s' = inodes s /\ open_inodes s' = open_inodes s /\ oom s' = tail (oom s) /\
    next_ptr s' = next_ptr s + 1;
  cr_disk : fview s' sec = encode (direct_inode len bs);
  cr_blocks : Z.of_nat (List.length bs) = len / 512 + 1;
  cr_nodup : NoDup (bs ++ [sec]);
  cr_range : forall b, b ∈ bs ++ [sec] -> 0 <= b < fsize s /\ ~ map_sector s m b;
  cr_fresh : Forall (fun b => bit (free_map s) b = false) bs;
  cr_zero : Forall (fun b => fview s' b = zeros 512) bs;
  cr_bits : forall x, 0 <= x -> bit (free_map s') x = true <-> bit (free_map s) x = true \/ x ∈ bs;
  cr_frame : forall x, ~ map_sector s m x -> x ∉ bs -> x <> sec -> fview s' x = fview s x }.

Lemma inode_create_run d s m sec len :
  st_inv (store s) -> map_ok s m -> memory s ->
  0 <= sec < fsize s -> ~ map_sector s m sec -> bit (free_map s) sec = true ->
  0 <= len < DIR_LEN * 512 -> len / 512 + 1 <= free_cnt (free_map s) ->
  exists s' bs, inode_create (inode_write_at_depth (Datatypes.S d)) sec len s = Ok (true, s') /\
    created s s' m sec len bs.
Proof.
  intros Hi Hm Hmem Hsec Hns Hbit Hlen Hfree. unfold inode_create.
  rewrite (proj2 (Z.geb_le len 0)) by lia. erewrite bind_eq; [|done]. unfold DIR_LEN in Hlen.
  assert (MAX_LEN = 8582656) as EM by done. rewrite EM. destruct (Z.gtb_spec len 8582656); [lia|].
  erewrite bind_eq; [|by apply malloc_run]. set (s1 := after_malloc s).
  rewrite Z.quot_div_nonneg by lia. assert (0 <= len / 512 < 123) as Hidx
    by (split; [apply Z.div_pos|apply Z.div_lt_upper_bound]; lia).
  rewrite !Z.geb_leb, !(proj2 (Z.leb_gt _ (len / 512))) by (unfold DIR_LEN, TABLE; lia).
  do 3 (erewrite bind_eq; [|done]). cbv beta iota.
  assert (cinv s1 m (free_cnt (free_map s) + 1) sec s1 []) as J0.
  { split; [|done|done|done|done]. destruct Hm as [M1 M2 M3 M4 M5 M6 M7 M8 M9].
    split; [exact Hi|done| |done|done|apply NoDup_singleton| | |cbn; lia].
    - split; [exact M1|exact M2|exact M3|exact M4| |exact M6|exact M7|exact M8|exact M9]. destruct M5. done.
    - intros x ->%list_elem_of_singleton. done.
    - intros x Hx. cbn [app]. rewrite list_elem_of_singleton. split; [by left|]. by intros [?| ->]. }
  destruct (create_loop_run s1 m d (free_cnt (free_map s) + 1) sec len (len / 512) (Z.to_nat (len / 512 + 1)) s1 []
    {| t_inode := direct_inode len []; t_1st := no_table; t_2nd := no_table; t_2level := no_table; t_cur := no_table |} J0)
    as (t' & s2 & bs & E2 & J & T2 & L2); [done|cbn; unfold DIR_LEN; lia|cbn; lia|].
  erewrite bind_eq; [|exact E2]. do 2 (erewrite bind_eq; [|done]). destruct J as [J1 J2 J3 J4 J5]. cbn [app] in *.
  rewrite T2. assert (Forall is_word bs) as Hbw.
  { apply Forall_forall. intros b Hb. apply (owns_word _ _ _ _ _ _ _ _ _ b J1), elem_of_app. by left. }
  destruct (owns_write _ _ _ _ _ _ _ s2 _ sec (encode (direct_inode len bs)) J1) as (s3 & E3 & O3 & I3 & V3 & F3).
  { apply elem_of_app. right. apply list_elem_of_here. } { apply encode_length, direct_wf; [lia|lia|done]. } { apply encode_bytes. }
  erewrite bind_eq; [|exact E3]. exists s3, bs. split; [done|]. destruct O3 as [P1 P2 P3 P4 P5 P6 P7 P8 P9].
  pose proof P6 as (_ & Hdis & _)%NoDup_app.
  split; [exact P1|exact P2|exact P3|exact P4| |exact V3| |exact P6|exact P7|exact J3| | |].
  - split; [by rewrite I3, J2|]. by destruct P5 as (_ & E1 & _ & _ & _ & _ & E7 & E8).
  - rewrite L2. lia.
  - apply Forall_forall. intros b Hb. rewrite F3; [rewrite Forall_forall in J4; auto|].
    intros ->. apply (Hdis sec Hb), list_elem_of_here.
  - intros x Hx. rewrite P8 by done. change (free_map s1) with (free_map s).
    rewrite elem_of_app, list_elem_of_singleton. split; [|tauto]. intros [?|[?| ->]]; auto.
  - intros x Hx Hnb Hne. rewrite F3 by done. by apply J5.
Qed.

(** ** Opening it *)

Lemma find_open_none s (sec : Z) : forall ps,
  (forall p, p ∈ ps -> exists i, inodes s !! p = Some i /\ sector i <> sec) -> find_open sec ps s = Ok (None, s).
Proof.
  induction ps as [|p ps IH]; intros Hps; cbn [find_open]; [done|].
  destruct (Hps p) as (i & Hi & Hne); [apply list_elem_of_here|].
  erewrite bind_eq; [|by apply get_inode_run]. rewrite (proj2 (Z.eqb_neq _ _) Hne).
  apply IH. intros q Hq. apply Hps. by apply elem_of_cons; right.
Qed.

(** Opening the inode in [sec] when it is not open yet. *)
Lemma inode_open_run s sec :
  st_inv (store s) -> 0 <= sec < fsize s -> memory s ->
  (forall p, p ∈ open_inodes s -> exists i, inodes s !! p = Some i /\ sector i <> sec) ->
  exists s' x, inode_open sec s = Ok (Some (next_ptr s), s') /\ st_inv x /\ st_size x = fsize s /\
    (forall y, st_view x y = fview s y) /\
    s' = with_inodes (<[next_ptr s := {| sector := sec; open_cnt := 1; removed := false; deny_write_cnt := 0;
                                          data := decode (fview s sec) |}]> (inodes s))
           (with_store x (with_open (next_ptr s :: open_inodes s) (after_malloc s))).
Proof.
  intros Hi Hsec Hmem Hopen. unfold inode_open. erewrite bind_eq; [|done].
  erewrite bind_eq; [|by apply find_open_none]. cbv beta iota. erewrite bind_eq; [|by apply malloc_run]. cbv beta iota.
  erewrite bind_eq; [|done].
  destruct (buf_read_run (with_open (next_ptr s :: open_inodes s) (after_malloc s)) sec 0 512)
    as (s1 & E1 & (x & -> & X1 & X2 & X3)); [exact Hi|exact Hsec|lia|lia|lia|].
  assert (sub_bytes 0 512 (fview s sec) = fview s sec) as E0.
  { apply sub_bytes_all. by rewrite (proj1 (fview_wf s sec Hi)). }
  change (fview (with_open _ (after_malloc s)) sec) with (fview s sec) in E1. rewrite E0 in E1.
  erewrite bind_eq; [|exact E1]. erewrite bind_eq; [|done]. eexists _, x. split; [done|].
  split; [done|]. split; [exact X2|]. split; [exact X3|]. done.
Qed.

Lemma map_ok_same s s' m :
  store s' = store s -> free_map s' = free_map s -> free_map_file s' = free_map_file s ->
  inodes s' = inodes s -> files s' = files s -> map_ok s m -> map_ok s' m.
Proof.
  intros E1 E2 E3 E4 E5 [M1 M2 M3 M4 M5 M6 M7 M8 M9].
  assert (fview s' = fview s /\ fsize s' = fsize s) as [Ev Es] by (unfold fview, fsize; by rewrite E1).
  split; rewrite ?E2, ?E3, ?E4, ?E5, ?Ev, ?Es; [exact M1|exact M2|exact M3|exact M4| |exact M6|exact M7|exact M8|exact M9].
  destruct M5. split; rewrite ?Ev, ?Es; done.
Qed.

(** The file found in a sector that holds a direct inode. *)
Lemma direct_sectors v i len bs :
  data i = direct_inode len bs -> Z.of_nat (List.length bs) = len / 512 + 1 -> len / 512 < DIR_LEN ->
  sectors v i (len / 512) = bs ++ [sector i] /\
  forall k, 0 <= k <= len / 512 -> block v (data i) k = word bs k.
Proof.
  intros Ed Hl Hd. assert (forall k, 0 <= k <= len / 512 -> block v (data i) k = word bs k) as Hb.
  { intros k Hk. unfold block. rewrite (proj2 (Z.ltb_lt k DIR_LEN)), Ed by lia. apply direct_word. lia. }
  split; [|done]. unfold sectors. rewrite metas_tab, !Z.geb_leb, !(proj2 (Z.leb_gt _ (len / 512)))
    by (unfold DIR_LEN, TABLE in *; lia). cbn [tab app]. f_equal.
  rewrite <- (word_list bs (len / 512 + 1)) at 1 by done.
  apply map_ext_in. intros k Hk%list_elem_of_In%elem_of_seqZ. apply Hb. lia.
Qed.

Lemma zero_contents v di len n :
  0 <= len -> (forall k, 0 <= k <= n -> v (block v di k) = zeros 512) -> (len - 1) / 512 <= n ->
  contents v di 0 len = zeros len.
Proof.
  intros Hlen Hz Hn. apply list_eq_same_length with (n := Z.to_nat len);
    [by unfold zeros; rewrite length_replicate|apply contents_length|].
  intros j x y Hj Hx Hy. unfold contents in Hx. rewrite list_lookup_fmap, lookup_seqZ_lt in Hx by lia.
  injection Hx as <-. unfold zeros in Hy. apply lookup_replicate in Hy as [-> _].
  unfold fbyte. rewrite Hz.
  { rewrite nth_lookup. unfold zeros. destruct (replicate _ 0 !! _) eqn:E; [by apply lookup_replicate in E as [-> _]|done]. }
  rewrite Z.add_0_l.
  pose proof (Z.div_le_mono (Z.of_nat j) (len - 1) 512 ltac:(lia) ltac:(lia)).
  split; [apply Z.div_pos; lia|lia].
Qed.

(** The state in which [inode_open] has found the new file. *)
Lemma opened_wf s s1 s' x m sec len bs p
    (i := {| sector := sec; open_cnt := 1; removed := false; deny_write_cnt := 0; data := direct_inode len bs |}) :
  created s s1 m sec len bs -> disk_wf (direct_inode len bs) -> 0 <= len < DIR_LEN * 512 ->
  p <> mf_ptr m -> bit (free_map s) sec = true ->
  st_inv x -> st_size x = fsize s1 -> (forall y, st_view x y = fview s1 y) ->
  s' = with_inodes (<[p := i]> (inodes s1)) (with_store x (with_open (p :: open_inodes s1) (after_malloc s1))) ->
  file_wf s' m p i (len / 512).
Proof.
  intros [K1 K2 K3 K4 _ K8 K9 K10 K11 K12 K13 K14 K15] Hdw Hlen Hp Hbit X1 X2 X3 Es.
  assert (0 <= len / 512 < 123) as Hidx by (unfold DIR_LEN in Hlen; split; [apply Z.div_pos|apply Z.div_lt_upper_bound]; lia).
  destruct (direct_sectors (fview s') i len bs eq_refl K9) as [Esec _]; [unfold DIR_LEN; lia|].
  set (sa := with_open (p :: open_inodes s1) (after_malloc s1)) in *.
  assert (map_ok sa m) as Ma by (by apply (map_ok_same s1)).
  destruct (map_open_ext sa (with_store x sa) _ _ _ _ Ma) as [Mb Fb];
    [exact X2|done|apply Ma|done|done|intros j t _ _; apply X3|].
  assert (map_ok s' m) as Mc by (rewrite Es; exact (map_open_inodes (with_store x sa) _ _ _ _ p i Hp Mb)).
  assert (forall y, map_sector s' m y <-> map_sector s m y) as Fc.
  { intros y. rewrite Es. etransitivity; [apply Fb|apply K4]. }
  assert (fsize s' = fsize s /\ free_map s' = free_map s1) as [Ez Em] by (rewrite Es; split; [by rewrite <- K2|done]).
  assert (len < MAX_LEN /\ 123 < MAX_BLOCKS) as [HM HB] by (unfold DIR_LEN in Hlen; assert (62976 < MAX_LEN) by done; split; [lia|done]).
  split; rewrite ?Esec, ?Ez, ?Em; [by rewrite Es|exact Mc|exact Hp|rewrite Es; apply lookup_insert_eq|exact Hdw|exact K10| | | | |].
  - intros y Hy. by apply K11.
  - intros y Hy Hf. apply (proj1 (Fc y)) in Hf. by apply (K11 y Hy).
  - intros y Hy. destruct (K11 y Hy) as [Hr _]. apply K14; [lia|].
    rewrite elem_of_app, list_elem_of_singleton in Hy. destruct Hy as [Hy| ->]; [by right|by left].
  - cbn. lia.
  - cbn [data i direct_inode length]. lia.
Qed.

(** Creating a file and opening it gives a well-formed file of zeros. *)
Lemma create_open_wf d s m sec len :
  st_inv (store s) -> map_ok s m -> memory s -> head (tail (oom s)) <> Some true -> next_ptr s + 1 <> mf_ptr m ->
  0 <= sec < fsize s -> ~ map_sector s m sec -> bit (free_map s) sec = true ->
  (forall p, p ∈ open_inodes s -> exists i, inodes s !! p = Some i /\ sector i <> sec) ->
  0 <= len < DIR_LEN * 512 -> len / 512 + 1 <= free_cnt (free_map s) ->
  exists s' p i, (let! ok := inode_create (inode_write_at_depth (Datatypes.S d)) sec len in
                  if ok : bool then inode_open sec else ret None) s = Ok (Some p, s') /\
    file_wf s' m p i (len / 512) /\ sector i = sec /\ length (data i) = len /\
    contents (fview s') (data i) 0 len = zeros len.
Proof.
  intros Hi Hm Hmem Hmem2 Hp Hsec Hns Hbit Hopen Hlen Hfree.
  destruct (inode_create_run d s m sec len Hi Hm Hmem Hsec Hns Hbit Hlen Hfree) as (s1 & bs & E1 & C1).
  erewrite bind_eq; [|exact E1]. pose proof C1 as [K1 K2 K3 K4 (K5 & K6 & K7 & K7') K8 K9 K10 K11 K12 K13 K14 K15].
  destruct (inode_open_run s1 sec) as (s' & x & E2 & X1 & X2 & X3 & Es); [done|by rewrite K2|by unfold memory; rewrite K7| |].
  { intros p Hin. rewrite K6 in Hin. rewrite K5. auto. }
  assert (0 <= len / 512 < 123) as Hidx by (unfold DIR_LEN in Hlen; split; [apply Z.div_pos|apply Z.div_lt_upper_bound]; lia).
  assert (Forall is_word bs) as Hbw.
  { apply Forall_forall. intros b Hb. destruct (K11 b) as [Hr _]; [apply elem_of_app; by left|].
    pose proof (st_size_range (store s) Hi). unfold fsize in Hr. unfold is_word. lia. }
  assert (disk_wf (direct_inode len bs)) as Hdw by (apply direct_wf; [unfold DIR_LEN in Hlen; lia|lia|done]).
  rewrite K8, decode_encode in Es by done.
  pose proof (opened_wf s s1 s' x m sec len bs (next_ptr s1) C1 Hdw Hlen ltac:(by rewrite K7') Hbit X1 X2 X3 Es) as Hw.
  eexists s', (next_ptr s1), _. split; [exact E2|]. split; [exact Hw|]. split; [done|]. split; [done|].
  apply (zero_contents _ _ _ (len / 512)); [lia| |apply Z.div_le_mono; lia].
  destruct (direct_sectors (fview s') {| sector := sec; open_cnt := 1; removed := false; deny_write_cnt := 0;
    data := direct_inode len bs |} len bs eq_refl K9) as [_ Eblk]; [unfold DIR_LEN; lia|].
  intros k Hk. rewrite Eblk by done. rewrite Es. transitivity (fview s1 (word bs k)); [apply X3|].
  rewrite Forall_forall in K13. apply K13. apply word_in. lia.
Qed.

(** ** On a full volume

    The failures of the allocations are ignored: the entry that could not be filled
    stays 0, the zeros meant for the new block go to sector 0, and the file is
    reported as created. *)
Lemma inode_create_full wr s m sec len :
  st_inv (store s) -> map_ok s m -> memory s -> 0 <= sec < fsize s -> sec <> 0 ->
  0 <= len < 512 -> free_cnt (free_map s) = 0 ->
  exists s', inode_create wr sec len s = Ok (true, s') /\ free_map s' = free_map s /\
    fview s' sec = encode (direct_inode len [0]) /\ fview s' 0 = zeros 512.
Proof.
  intros Hi Hm Hmem Hsec Hne Hlen Hfree. unfold inode_create.
  rewrite (proj2 (Z.geb_le len 0)) by lia. erewrite bind_eq; [|done].
  assert (MAX_LEN = 8582656) as EM by done. rewrite EM. destruct (Z.gtb_spec len 8582656); [lia|].
  erewrite bind_eq; [|by apply malloc_run]. set (s1 := after_malloc s).
  rewrite Z.quot_div_nonneg, Z.div_small by lia. do 3 (erewrite bind_eq; [|done]). cbv beta iota.
  assert (map_ok s1 m) as Hm1 by (by apply (map_ok_same s)).
  destruct (buf_write_all s1 0 (zeros 512)) as (s2 & E2 & W2);
    [done|change (0 <= 0 < fsize s); lia|done|apply zeros_bytes|].
  destruct (stores_objects _ _ _ W2) as [_ Sm2].
  set (t0 := {| t_inode := direct_inode len []; t_1st := no_table; t_2nd := no_table; t_2level := no_table;
                t_cur := no_table |}).
  assert (alloc_zeroed wr (dir (t_inode t0)) 0 s1 = Ok (dir (direct_inode len [0]), s2)) as Ea.
  { unfold alloc_zeroed, alloc_entry, alloc_into. erewrite bind_eq; [|erewrite bind_eq; [|done]].
    2: { erewrite bind_eq; [|erewrite bind_eq; [done|by eapply free_map_allocate_full]]. done. }
    erewrite bind_eq; [|done]. by erewrite bind_eq; [|exact E2]. }
  assert (create_loop wr (Z.to_nat (0 + 1)) 0 0 t0 s1 = Ok (set_dir t0 (dir (direct_inode len [0])), s2)) as El.
  { change (Z.to_nat (0 + 1)) with 1%nat. cbn [create_loop]. unfold create_step. change (0 <? DIR_LEN) with true. cbv iota.
    erewrite bind_eq; [|erewrite bind_eq; [done|exact Ea]]. done. }
  erewrite bind_eq; [|exact El]. do 2 (erewrite bind_eq; [|done]).
  destruct (buf_write_all s2 sec (encode (direct_inode len [0]))) as (s3 & E3 & W3).
  { by eapply stores_inv. } { by rewrite (stores_size _ _ _ W2). }
  { apply encode_length, direct_wf; [lia|simpl; lia|]. repeat constructor; by vm_compute. } { apply encode_bytes. }
  erewrite bind_eq; [|exact E3]. destruct (stores_objects _ _ _ W3) as [_ Sm3].
  exists s3. split; [done|]. split; [by rewrite Sm3, Sm2|]. rewrite !(stores_view _ _ _ _ W3), Z.eqb_refl.
  split; [done|]. rewrite (proj2 (Z.eqb_neq 0 sec)) by done. by rewrite (stores_view _ _ _ _ W2).
Qed.
End create.

End InodeCreate.
