(* ===== verification/InodeProps.v ===== *)
(** * filesys/inode.c, free-map.c: the properties of files

    With instances on a small volume of 32 sectors: a file of 100 bytes, and the open
    free map. *)

From S2P Require Import Prelude Bytes Block Bitmap Buffer BufferFacts BufferProps.
From S2P Require Import Inode InodeFacts InodeAlloc InodeExtend InodeGrow InodeRelease InodeCreate.
Import Bytes Block Bitmap Buffer BufferFacts BufferProps Inode InodeFacts InodeAlloc InodeExtend InodeGrow
  InodeRelease InodeCreate.

Module InodeProps.

Section props.
Context {S : Type} `{HS : SectorStoreLaws S}.
Notation fs := (fs S).

(** C5: Reading [size] bytes at [ofs] of a well-formed file returns exactly the bytes
    the file has there, cut off at its end, whichever of the direct, single-indirect
    and double-indirect tables lead to them; nothing else changes. *)
Theorem inode_read_at_correct (s : fs) m p i o size ofs :
  file_wf s m p i o -> 0 <= ofs ->
  exists s', inode_read_at p size ofs s =
      Ok (contents (fview s) (data i) ofs (Z.max 0 (Z.min size (length (data i) - ofs))), s') /\
    stores s s' (fview s).
Proof.
  intros Hw Ho. destruct (file_wf_ok _ _ _ _ _ Hw). apply (inode_read_at_run s p i (o + 1)); try done; apply Hw.
Qed.

(** A write inside a file stores exactly the bytes given, reports their number,
    writes the inode back, and changes only the sectors the bytes lie in. *)
Theorem inode_write_at_inside (s : fs) m p i o (buf : list Z) ofs :
  file_wf s m p i o -> deny_write_cnt i = 0 -> 0 <= ofs ->
  ofs + Z.of_nat (List.length buf) <= length (data i) -> Forall is_byte buf ->
  exists s', inode_write_at p buf ofs s = Ok (Z.of_nat (List.length buf), s') /\
    fview s' (sector i) = encode (data i) /\
    contents (fview s') (data i) ofs (Z.of_nat (List.length buf)) = buf /\
    (forall x, x <> sector i -> ~ touched (fview s) (data i) ofs (Z.of_nat (List.length buf)) x ->
       fview s' x = fview s x).
Proof.
  intros Hw Hd Ho Hl Hb.
  destruct (write_inside (inode_write_at_depth 1) s p i (o + 1) buf ofs) as (s' & v' & R & W & E1 & E2 & E3);
    [apply Hw|apply Hw|done|by eapply file_wf_ok|done..|].
  exists s'. split; [exact R|]. rewrite (stores_view _ _ _ _ W). split; [done|]. split.
  - etransitivity; [|exact E2]. apply contents_ext. intros x. apply (stores_view _ _ _ _ W).
  - intros x Hx Ht. rewrite (stores_view _ _ _ _ W). auto.
Qed.


(** Creating a file in a sector and opening it gives a well-formed file of the
    length asked for, of which every byte is zero, provided enough sectors are free
    (for a file of up to 62975 bytes, the direct blocks). *)
Theorem inode_create_open (s : fs) m sec len :
  st_inv (store s) -> map_ok s m -> memory s -> head (tail (oom s)) <> Some true -> next_ptr s + 1 <> mf_ptr m ->
  0 <= sec < fsize s -> ~ map_sector s m sec -> bit (free_map s) sec = true ->
  (forall p, p ∈ open_inodes s -> exists i, inodes s !! p = Some i /\ sector i <> sec) ->
  0 <= len < DIR_LEN * 512 -> len / 512 + 1 <= free_cnt (free_map s) ->
  exists s' p i, (let! ok := inode_create (inode_write_at_depth 1) sec len in
                  if ok : bool then inode_open sec else ret None) s = Ok (Some p, s') /\
    file_wf s' m p i (len / 512) /\ sector i = sec /\ length (data i) = len /\
    contents (fview s') (data i) 0 len = zeros len.
Proof. apply (create_open_wf 0). Qed.

(** C24: The last close of a removed file gives its sectors back, the blocks, the
    index tables at all levels and the inode, and only those; no sector outside the
    free map's file changes. *)
Theorem inode_close_releases (s : fs) m p i :
  file_wf s m p i (length (data i) / 512) -> open_cnt i = 1 -> removed i = true ->
  exists s', inode_close (Some p) s = Ok (tt, s') /\ closed s s' m p i.
Proof. apply inode_close_last. Qed.

(** [free_map_allocate] of one sector takes a sector that was free and marks it,
    and writes the map to its file; when none is free it reports failure and changes
    nothing. *)
Theorem free_map_allocate_correct (s : fs) m :
  st_inv (store s) -> map_ok s m ->
  if free_cnt (free_map s) =? 0 then free_map_allocate (inode_write_at_depth 1) 1 s = Ok (None, s)
  else exists sec s', free_map_allocate (inode_write_at_depth 1) 1 s = Ok (Some sec, s') /\
         allocated s s' (mf_inode m) (mf_blocks m) sec /\ map_ok s' m.
Proof.
  intros Hi Hm. destruct (Z.eqb_spec (free_cnt (free_map s)) 0) as [E|E].
  - by eapply free_map_allocate_full.
  - pose proof (occurrences_bound (free_map s) (Z.to_nat (bit_cnt (free_map s))) 0 false).
    destruct (free_map_allocate_run 0 s _ _ _ _ Hi Hm) as (sec & s' & R & A & M' & _); [unfold free_cnt in *; lia|].
    eauto.
Qed.

(** On a full volume [inode_create] still reports success: the file's first block
    is recorded as sector 0, and zeros have been written over sector 0, where the
    inode of the free map is. *)
Theorem inode_create_full_volume (s : fs) m sec len :
  st_inv (store s) -> map_ok s m -> memory s -> 0 <= sec < fsize s -> sec <> FREE_MAP_SECTOR ->
  0 <= len < 512 -> free_cnt (free_map s) = 0 ->
  exists s', inode_create (inode_write_at_depth 1) sec len s = Ok (true, s') /\
    decode (fview s' sec) = direct_inode len [FREE_MAP_SECTOR] /\ fview s' FREE_MAP_SECTOR = zeros 512.
Proof.
  intros Hi Hm Hmem Hs Hne Hl Hf.
  destruct (inode_create_full (inode_write_at_depth 1) s m sec len Hi Hm Hmem Hs Hne Hl Hf) as (s' & R & _ & E & Z0).
  exists s'. split; [exact R|]. split; [|exact Z0]. rewrite E. apply decode_encode, direct_wf; [lia|simpl; lia|].
  repeat constructor; by vm_compute.
Qed.
End props.

(** The on-disk form of an inode decodes to the inode it was made from. *)
Theorem inode_disk_roundtrip di : disk_wf di -> decode (encode di) = di.
Proof. apply decode_encode. Qed.

(** ** Instances *)

Definition demo_map_inode : inode :=
  {| sector := 0; open_cnt := 1; removed := false; deny_write_cnt := 0; data := direct_inode 4 [2] |}.
Definition demo_inode : inode :=
  {| sector := 3; open_cnt := 1; removed := true; deny_write_cnt := 0; data := direct_inode 100 [4] |}.
(** Sectors 0 to 5 of 32 are in use; nothing is in sector 5. *)
Definition demo_fs : fs (Buffer.state Block.state) :=
  Build_fs demo_cache {| bit_cnt := 32; bits := [63] |} (Some 20)
    (<[10 := demo_map_inode]> (<[11 := demo_inode]> ∅)) [11; 10]
    (<[20 := {| file_inode := 10; pos := 0; deny_write := false |}]> ∅) ∅ None 100 [].
Definition demo_map : map_file := {| mf_file := 20; mf_ptr := 10; mf_inode := demo_map_inode; mf_blocks := 1 |}.

(** The volume is the second block device of [Block.demo]. *)
#[local] Instance demo_store : SectorStore (Buffer.state Block.state) := buffer_store Block.state (blk := 1).
#[local] Instance demo_store_laws : SectorStoreLaws (Buffer.state Block.state) := buffer_store_laws Block.state (blk := 1).

(** Facts about the direct blocks of a file of one block. *)
Lemma demo_block len b k v : 0 <= k < 1 -> block v (direct_inode len [b]) k = b.
Proof. intros Hk. by replace k with 0 by lia. Qed.
Lemma demo_path len b k v : 0 <= k < 1 -> path v (direct_inode len [b]) k = [].
Proof. intros Hk. by replace k with 0 by lia. Qed.
Lemma demo_direct_wf len b : 0 <= len < 2 ^ 31 -> is_word b -> disk_wf (direct_inode len [b]).
Proof. intros. apply direct_wf; [done|simpl; lia|by constructor]. Qed.

Lemma demo_fsize : fsize demo_fs = 32.
Proof. by vm_compute. Qed.

Lemma demo_map_sector x : map_sector demo_fs demo_map x <-> x = 0 \/ x = 2.
Proof.
  split.
  - intros [->|(j & Hj & [->|Hp])]; [by left|right; by apply demo_block|].
    change (data (mf_inode demo_map)) with (direct_inode 4 [2]) in Hp. rewrite demo_path in Hp by done. by apply not_elem_of_nil in Hp.
  - intros [->| ->]; [by left|]. right. exists 0. split; [done|]. by left.
Qed.

Lemma demo_map_ok : map_ok demo_fs demo_map.
Proof.
  assert (disk_wf (direct_inode 4 [2])) as Hd by (apply demo_direct_wf; [lia|by vm_compute]).
  split; [done|by eexists|by vm_compute|done| | |by vm_compute|done|].
  - split; [|done|by vm_compute|done|by rewrite demo_fsize|].
    + split; [done|done|done| | | |]; rewrite ?demo_fsize.
      * intros k Hk. change (data (mf_inode demo_map)) with (direct_inode 4 [2]).
        rewrite demo_path by done. constructor.
      * intros k Hk. change (data (mf_inode demo_map)) with (direct_inode 4 [2]). rewrite demo_block by done. lia.
      * intros j k Hj Hk. cbn [demo_map mf_blocks] in *. lia.
      * intros j k Hj Hk. change (data (mf_inode demo_map)) with (direct_inode 4 [2]). rewrite demo_path by done. apply not_elem_of_nil.
    + intros j Hj. change (data (mf_inode demo_map)) with (direct_inode 4 [2]). rewrite demo_block, demo_path by done.
      split; [done|apply not_elem_of_nil].
  - split; [by vm_compute|by vm_compute|]. repeat constructor; by vm_compute.
  - intros x [->| ->]%demo_map_sector; by vm_compute.
Qed.

Lemma demo_file_wf : file_wf demo_fs demo_map 11 demo_inode 0.
Proof.
  assert (sectors (fview demo_fs) demo_inode 0 = [4; 3]) as E by (by vm_compute).
  split; rewrite ?E, ?demo_fsize; [apply demo_inv|apply demo_map_ok|done|by vm_compute| | | | | |by vm_compute|by vm_compute].
  - apply demo_direct_wf; [lia|by vm_compute].
  - apply (bool_decide_unpack _). by vm_compute.
  - intros x [->|[->|[]%not_elem_of_nil]%elem_of_cons]%elem_of_cons; lia.
  - intros x Hx [->| ->]%demo_map_sector; revert Hx; apply (bool_decide_unpack _); by vm_compute.
  - intros x [->|[->|[]%not_elem_of_nil]%elem_of_cons]%elem_of_cons; by vm_compute.
Qed.

(** Reading the last eight bytes, and more. *)
Lemma inode_read_at_correct_witness :
  exists s', inode_read_at 11 20 92 demo_fs = Ok (zeros 8, s') /\ stores demo_fs s' (fview demo_fs).
Proof.
  destruct (inode_read_at_correct demo_fs demo_map 11 demo_inode 0 20 92 demo_file_wf) as (s' & R & W); [lia|].
  exists s'. split; [|exact W]. rewrite R. by do 2 f_equal.
Defined.

Lemma inode_write_at_inside_witness :
  exists s', inode_write_at 11 [7; 8; 9] 50 demo_fs = Ok (3, s') /\
    contents (fview s') (data demo_inode) 50 3 = [7; 8; 9].
Proof.
  destruct (inode_write_at_inside demo_fs demo_map 11 demo_inode 0 [7; 8; 9] 50 demo_file_wf) as (s' & R & _ & E & _);
    [done|lia|by vm_compute|repeat constructor; by vm_compute|]. exists s'. split; [exact R|exact E].
Defined.


Lemma inode_create_open_witness :
  exists s' p i, (let! ok := inode_create (inode_write_at_depth 1) 5 1000 in
                  if ok : bool then inode_open 5 else ret None) demo_fs = Ok (Some p, s') /\
    contents (fview s') (data i) 0 1000 = zeros 1000.
Proof.
  destruct (inode_create_open demo_fs demo_map 5 1000) as (s' & p & i & R & _ & _ & _ & C);
    [apply demo_inv|apply demo_map_ok|done|done|done|by vm_compute| |by vm_compute| |by vm_compute|by vm_compute|].
  - by intros [?|?]%demo_map_sector.
  - intros p [->|[->|[]%not_elem_of_nil]%elem_of_cons]%elem_of_cons; eexists; split; by vm_compute.
  - exists s', p, i. split; [exact R|exact C].
Defined.

(** The same volume with every sector in use. *)
Definition demo_full_fs : fs (Buffer.state Block.state) := with_map {| bit_cnt := 32; bits := [4294967295] |} demo_fs.
Lemma demo_full_map_ok : map_ok demo_full_fs demo_map.
Proof.
  pose proof demo_map_ok as M. destruct (map_open_ext demo_fs demo_full_fs _ _ _ _ M) as [M' _]; try done.
  - split; [by vm_compute|by vm_compute|]. repeat constructor; by vm_compute.
  - intros x _ [->| ->]%demo_map_sector _; by vm_compute.
Qed.

Lemma inode_create_full_volume_witness :
  exists s', inode_create (inode_write_at_depth 1) 5 100 demo_full_fs = Ok (true, s') /\ fview s' 0 = zeros 512.
Proof.
  destruct (inode_create_full_volume demo_full_fs demo_map 5 100) as (s' & R & _ & E);
    [apply demo_inv|apply demo_full_map_ok|done|by vm_compute|done|lia|by vm_compute|].
  exists s'. split; [exact R|exact E].
Defined.

Lemma inode_close_releases_witness :
  exists s', inode_close (Some 11) demo_fs = Ok (tt, s') /\ bit (free_map s') 4 = false.
Proof.
  destruct (inode_close_releases demo_fs demo_map 11 demo_inode demo_file_wf) as (s' & R & [_ _ _ B _]); [done|done|].
  exists s'. split; [exact R|]. apply not_true_is_false. intros [_ H]%B; [|lia].
  apply H. by vm_compute; left.
Defined.

Lemma free_map_allocate_correct_witness :
  exists sec s', free_map_allocate (inode_write_at_depth 1) 1 demo_fs = Ok (Some sec, s') /\ map_ok s' demo_map.
Proof.
  pose proof (free_map_allocate_correct demo_fs demo_map demo_inv demo_map_ok) as (sec & s' & R & _ & M).
  exists sec, s'. split; [exact R|exact M].
Defined.

Lemma inode_disk_roundtrip_witness : decode (encode (data demo_inode)) = data demo_inode.
Proof. apply inode_disk_roundtrip, demo_direct_wf; [lia|by vm_compute]. Defined.

End InodeProps.
