(* ===== verification/Directory.v ===== *)
(** * filesys/directory.c and filesys/filesys.c

    A directory is a file of entries of 48 bytes: the sector of the inode, the name,
    [in_use], [is_dir] and a lock that nothing uses.  A character array is the list
    of its bytes, terminator included; running past its end is a wild access.  Where
    the code copies around bytes it has not initialised, those bytes are an argument
    ([junk]). *)

From S2P Require Import Prelude Bytes Block Bitmap BufferFacts Inode.
Import Bytes Block Bitmap BufferFacts Inode.

Module Directory.

Definition NAME_MAX : Z := 14.
(** [sizeof (struct dir_entry)] *)
Definition ENTRY : Z := 48.

Definition inode_sector (e : list Z) : Z := le_decode (sub_bytes 0 4 e).
(** From the name to the end of the entry. *)
Definition name_on (e : list Z) : list Z := drop 4 e.
Definition in_use (e : list Z) : bool := negb (nth 19 e 0 =? 0).
Definition is_dir (e : list Z) : bool := negb (nth 20 e 0 =? 0).

Definition set_inode_sector (sec : Z) (e : list Z) : list Z := splice 0 (le_encode 4 sec) e.
Definition set_in_use (b : bool) (e : list Z) : list Z := <[19%nat := Z.b2z b]> e.
Definition set_is_dir (b : bool) (e : list Z) : list Z := <[20%nat := Z.b2z b]> e.

(** ** Character arrays *)

(** [!strcmp (a, b)] *)
Fixpoint str_eq (a b : list Z) : res bool :=
  match a, b with
  | x :: a, y :: b => if x =? y then if x =? 0 then Ok true else str_eq a b else Ok false
  | _, _ => Err WildAccess
  end.
(** The characters before the terminator. *)
Fixpoint chars (a : list Z) : res (list Z) :=
  match a with
  | x :: a => if x =? 0 then Ok [] else rbind (chars a) (fun xs => Ok (x :: xs))
  | [] => Err WildAccess
  end.
(** [strlcpy (e.name, name, size)], for a name array of the entry. *)
Definition set_name (name : list Z) (size : nat) (e : list Z) : res (list Z) :=
  rbind (chars name) (fun xs => Ok (splice 4 (take (size - 1) xs ++ [0]) e)).

Definition DOT : list Z := [46; 0].
Definition DOTDOT : list Z := [46; 46; 0].

Section directory.
Context {S : Type} `{SectorStore S}.
Notation fs := (fs S).

Definition get_dir (d : Z) : M fs dirp := fun s =>
  match dirs s !! d with Some x => Ok (x, s) | None => Err WildAccess end.
Definition set_dirp (d : Z) (x : dirp) : M fs unit := modify (fun s => with_dirs (<[d := x]> (dirs s)) s).

(** [inode_read_at (inode, &e, sizeof e, ofs)] *)
Definition read_entry (inode ofs : Z) : M fs (list Z) := inode_read_at inode ENTRY ofs.
Definition full (e : list Z) : bool := Z.of_nat (List.length e) =? ENTRY.
(** Enough rounds for a loop over the entries of a file. *)
Definition entry_fuel (inode : Z) : M fs nat :=
  let! len := inode_length inode in ret (Datatypes.S (Datatypes.S (Z.to_nat (len / ENTRY)))).

Definition dir_create (sec entry_cnt : Z) : M fs bool :=
  inode_create (inode_write_at_depth 1) sec (s32 (u32 (entry_cnt * ENTRY))).

Definition dir_open (inode : option Z) : M fs (option Z) :=
  let! mem := malloc in
  match inode, mem with
  | Some i, Some d =>
      do! set_dirp d {| dir_inode := i; dir_pos := 0; is_remove := false |};
      ret (Some d)
  | _, _ => do! inode_close inode; ret None
  end.
Definition dir_open_root : M fs (option Z) :=
  let! i := inode_open ROOT_DIR_SECTOR in dir_open i.
Definition dir_reopen (d : Z) : M fs (option Z) :=
  let! x := get_dir d in
  let! i := inode_reopen (dir_inode x) in
  dir_open (Some i).
Definition dir_close (d : option Z) : M fs unit :=
  match d with
  | None => ret tt
  | Some d =>
      let! x := get_dir d in
      do! inode_close (Some (dir_inode x));
      modify (fun s => with_dirs (delete d (dirs s)) s)
  end.
Definition dir_get_inode (d : Z) : M fs Z := let! x := get_dir d in ret (dir_inode x).

(** ** Searching *)

(** The loops of [lookup] and [entry_lookup], which looks at entries with the given
    [is_dir] only. *)
Fixpoint lookup_loop (fuel : nat) (inode : Z) (name : list Z) (kind : option bool) (ofs : Z) :
    M fs (option (list Z * Z)) :=
  match fuel with
  | O => fail OutOfFuel
  | Datatypes.S fuel =>
      let! e := read_entry inode ofs in
      if full e then
        let skip := match kind with Some k => negb (eqb (is_dir e) k) | None => false end in
        if skip then lookup_loop fuel inode name kind (u32 (ofs + ENTRY))
        else if in_use e then
          let! same := lift (str_eq name (name_on e)) in
          if same : bool then ret (Some (e, ofs)) else lookup_loop fuel inode name kind (u32 (ofs + ENTRY))
        else lookup_loop fuel inode name kind (u32 (ofs + ENTRY))
      else ret None
  end.
(** The entry found and its offset. *)
Definition lookup_kind (d : option Z) (name : list Z) (kind : option bool) : M fs (option (list Z * Z)) :=
  match d with
  | None => fail AssertFail
  | Some d =>
      let! x := get_dir d in
      let! fuel := entry_fuel (dir_inode x) in
      lookup_loop fuel (dir_inode x) name kind 0
  end.
Definition lookup (d : option Z) (name : list Z) : M fs (option (list Z * Z)) := lookup_kind d name None.
Definition entry_lookup (d : option Z) (name : list Z) (k : bool) : M fs (option (list Z * Z)) :=
  lookup_kind d name (Some k).

(** [*inode], null unless the result is true. *)
Definition dir_lookup (d : option Z) (name : list Z) : M fs (option Z) :=
  let! r := lookup d name in
  match r with Some (e, _) => inode_open (inode_sector e) | None => ret None end.
Definition dir_lookup_files (d : option Z) (name : list Z) : M fs (option Z) :=
  let! r := entry_lookup d name false in
  match r with Some (e, _) => inode_open (inode_sector e) | None => ret None end.

(** ** Adding and removing *)

(** The first free slot, the end of the file when there is none, and what the entry
    variable then holds. *)
Fixpoint slot_loop (fuel : nat) (inode ofs : Z) (e : list Z) : M fs (list Z * Z) :=
  match fuel with
  | O => fail OutOfFuel
  | Datatypes.S fuel =>
      let! bs := read_entry inode ofs in
      let e := bs ++ drop (List.length bs) e in
      if full bs then
        if negb (in_use e) then ret (e, ofs) else slot_loop fuel inode (s32 (ofs + ENTRY)) e
      else ret (e, ofs)
  end.

Definition dir_add_directory (junk : list Z) (d : option Z) (name : list Z) (sec : Z) (k : bool) : M fs bool :=
  match d with
  | None => fail AssertFail
  | Some dp =>
      let! xs := lift (chars name) in
      if Z.of_nat (List.length xs) =? 0 then ret false else
      if Z.of_nat (List.length xs) >? NAME_MAX then ret false else
      let! found := lookup d name in
      match found with
      | Some _ => ret false
      | None =>
          let! x := get_dir dp in
          let! fuel := entry_fuel (dir_inode x) in
          let! (e, ofs) := slot_loop fuel (dir_inode x) 0 junk in
          let! e := lift (set_name name 15 (set_is_dir k (set_in_use true e))) in
          let e := set_inode_sector sec e in
          let! n := inode_write_at (dir_inode x) e ofs in
          ret (n =? ENTRY)
      end
  end.
Definition dir_add (junk : list Z) (d : option Z) (name : list Z) (sec : Z) : M fs bool :=
  dir_add_directory junk d name sec false.

(** The entries other than [.] and [..] of the directory [e]. *)
Fixpoint size_loop (fuel : nat) (inode ofs n : Z) : M fs Z :=
  match fuel with
  | O => fail OutOfFuel
  | Datatypes.S fuel =>
      let! e := read_entry inode ofs in
      if full e then
        if in_use e then
          let! dot := lift (str_eq DOT (name_on e)) in
          let! dotdot := (if dot : bool then ret true else lift (str_eq DOTDOT (name_on e))) in
          size_loop fuel inode (u32 (ofs + ENTRY)) (if dot || dotdot then n else n + 1)
        else size_loop fuel inode (u32 (ofs + ENTRY)) n
      else ret n
  end.
Definition dir_sizeof (e : list Z) : M fs Z :=
  let! i := inode_open (inode_sector e) in
  if negb (is_dir e) || negb (in_use e) then ret 0 else
  match i with
  | None => fail WildAccess
  | Some i =>
      let! fuel := entry_fuel i in
      let! n := size_loop fuel i 0 0 in
      do! inode_close (Some i);
      ret n
  end.

(** filesys.c: the current directory, the root until one is set. *)
Definition filesys_curr_dir : M fs (option Z) :=
  let! c := gets curr_dir in
  match c with
  | Some _ => ret c
  | None =>
      let! d := dir_open_root in
      do! modify (with_curr d);
      ret d
  end.

Definition dir_remove (d : option Z) (name : list Z) : M fs bool :=
  let! found := lookup d name in
  match found, d with
  | None, _ => ret false
  | _, None => fail AssertFail
  | Some (e, ofs), Some dp =>
      let! busy := (if is_dir e then let! n := dir_sizeof e in ret (negb (n =? 0)) else ret false) in
      if busy : bool then ret false else
      do! (if is_dir e then
             let! c := filesys_curr_dir in
             match c with
             | None => fail WildAccess
             | Some c =>
                 let! cx := get_dir c in
                 let! inumber := inode_get_inumber (dir_inode cx) in
                 if inumber =? inode_sector e then
                   set_dirp c {| dir_inode := dir_inode cx; dir_pos := dir_pos cx; is_remove := true |}
                 else ret tt
             end
           else ret tt);
      let! inode := inode_open (inode_sector e) in
      match inode with
      | None => ret false
      | Some i =>
          let! x := get_dir dp in
          let! n := inode_write_at (dir_inode x) (set_in_use false e) ofs in
          if negb (n =? ENTRY) then do! inode_close inode; ret false
          else
            do! inode_remove i;
            do! inode_close inode;
            ret true
      end
  end.

(** ** Listing *)

Fixpoint readdir_loop (fuel : nat) (d : Z) : M fs (option (list Z)) :=
  match fuel with
  | O => fail OutOfFuel
  | Datatypes.S fuel =>
      let! x := get_dir d in
      let! e := read_entry (dir_inode x) (dir_pos x) in
      if full e then
        do! set_dirp d {| dir_inode := dir_inode x; dir_pos := s32 (dir_pos x + ENTRY); is_remove := is_remove x |};
        if in_use e then
          let! dot := lift (str_eq (name_on e) DOT) in
          let! dotdot := (if dot : bool then ret true else lift (str_eq (name_on e) DOTDOT)) in
          if dot || dotdot then readdir_loop fuel d
          else let! xs := lift (chars (name_on e)) in ret (Some (take 14 xs ++ [0]))
        else readdir_loop fuel d
      else ret None
  end.
(** The name of the next entry, as an array. *)
Definition dir_readdir (d : Z) : M fs (option (list Z)) :=
  let! x := get_dir d in
  let! fuel := entry_fuel (dir_inode x) in
  readdir_loop fuel d.

End directory.

End Directory.
