(* ===== verification/Filesys.v ===== *)
(** * filesys/filesys.c

    Paths are character arrays, terminator included.  The buffer [part] of the code is
    an array of 15 bytes, of which the initial contents are an argument wherever the
    code does not set them. *)

From S2P Require Import Prelude Bytes Block Bitmap BufferFacts Inode Directory.
Import Bytes Block Bitmap BufferFacts Inode Directory.

Module Filesys.

Definition SLASH : Z := 47.

(** ** Path components *)

Fixpoint skip_slashes (src : list Z) : res (list Z) :=
  match src with
  | x :: rest => if x =? SLASH then skip_slashes rest else Ok src
  | [] => Err WildAccess
  end.
(** Copying up to the next slash or the end: the buffer, the number of characters in
    it and the rest of the path, or the failure on a component that is too long. *)
Fixpoint copy_part (src part : list Z) (dst : nat) : res (list Z * option (nat * list Z)) :=
  match src with
  | x :: rest =>
      if negb (x =? SLASH) && negb (x =? 0) then
        if (dst <? 14)%nat then copy_part rest (<[dst := x]> part) (Datatypes.S dst)
        else Ok (part, None)
      else Ok (part, Some (dst, src))
  | [] => Err WildAccess
  end.
(** The result, the buffer and [*srcp]. *)
Definition get_next_part (part src : list Z) : res (Z * list Z * list Z) :=
  rbind (skip_slashes src) (fun s =>
  if hd 0 s =? 0 then Ok (0, part, src)
  else rbind (copy_part s part 0) (fun '(part, r) =>
    match r with
    | None => Ok (-1, part, src)
    | Some (dst, s) =>
        let part := <[dst := 0]> part in
        Ok (if hd 0 s =? 0 then 0 else 1, part, s)
    end)).

Section filesys.
Context {S : Type} `{SectorStore S}.
Notation fs := (fs S).

(** The directory a path starts from; [None] when the current one has been removed. *)
Definition start_dir (name : list Z) : M fs (option (option Z)) :=
  let! dir := filesys_curr_dir in
  if hd 0 name =? SLASH then let! d := dir_open_root in ret (Some d)
  else
    match dir with
    | None => fail WildAccess
    | Some d =>
        let! x := get_dir d in
        if is_remove x then ret None
        else let! d := dir_reopen d in ret (Some d)
    end.

(** The loop over the leading components: each is looked up as a directory and
    replaces the current one.  The result says whether all were found, and has the
    variable [entry], which holds the last one found. *)
Fixpoint walk (fuel : nat) (dir : option Z) (part name entry : list Z) :
    M fs (bool * option Z * list Z * list Z) :=
  match fuel with
  | O => fail OutOfFuel
  | Datatypes.S fuel =>
      let! (r, part, name) := lift (get_next_part part name) in
      if r =? 1 then
        let! e := entry_lookup dir part true in
        match e with
        | Some (e, _) =>
            let! inode := inode_open (inode_sector e) in
            do! dir_close dir;
            let! dir := dir_open inode in
            walk fuel dir part name e
        | None => ret (false, dir, part, entry)
        end
      else ret (true, dir, part, entry)
  end.
(** One round per component. *)
Definition walk_path (dir : option Z) (part name entry : list Z) : M fs (bool * option Z * list Z * list Z) :=
  walk (Datatypes.S (List.length name)) dir part name entry.

(** [success = dir != NULL && free_map_allocate (1, &sec) && inode_create (sec, size)
    && dir_add_directory (dir, part, sec, k)], and [sec], 0 when not allocated. *)
Definition make_entry (junk : list Z) (dir : option Z) (part : list Z) (size : Z) (k : bool) : M fs (bool * Z) :=
  match dir with
  | None => ret (false, 0)
  | Some _ =>
      let! r := free_map_allocate (inode_write_at_depth 1) 1 in
      match r with
      | None => ret (false, 0)
      | Some sec =>
          let! ok := inode_create (inode_write_at_depth 1) sec size in
          if ok : bool then let! ok := dir_add_directory junk dir part sec k in ret (ok, sec)
          else ret (false, sec)
      end
  end.

Definition filesys_create (junk part : list Z) (name : list Z) (initial_size : Z) : M fs bool :=
  let! start := start_dir name in
  match start with
  | None => ret false
  | Some dir =>
      let part := <[0%nat := 0]> part in
      let! (found, dir, part, _) := walk_path dir part name [] in
      let! (success, sec) := (if found : bool then make_entry junk dir part initial_size false
                              else ret (false, 0)) in
      do! (if negb success && negb (sec =? 0) then free_map_release (inode_write_at_depth 1) sec 1 else ret tt);
      do! dir_close dir;
      ret success
  end.

(** [junk_entry] is what the variable [entry] holds at first; the code sets its sector,
    name and [is_dir] only. *)
Definition filesys_create_dir (junk junk_entry part : list Z) (name : list Z) : M fs bool :=
  let! start := start_dir name in
  match start with
  | None => ret false
  | Some dir =>
      let part := <[0%nat := 0]> part in
      let! (found, dir, part, entry) := walk_path dir part name junk_entry in
      let! (success, sec) := (if found : bool then make_entry junk dir part 512 true else ret (false, 0)) in
      do! (if success : bool then
             match dir with
             | None => ret tt
             | Some d =>
                 let! x := get_dir d in
                 let! parent := inode_get_inumber (dir_inode x) in
                 let! e := lift (set_name DOTDOT 3 (set_is_dir true (set_inode_sector parent entry))) in
                 let! inode := inode_open sec in
                 match inode with
                 | None => fail WildAccess
                 | Some i =>
                     let! _ := inode_write_at i e 0 in
                     let! e := lift (set_name DOT 2 e) in
                     let! _ := inode_write_at i (set_inode_sector sec e) ENTRY in
                     inode_close inode
                 end
             end
           else ret tt);
      do! (if negb success && negb (sec =? 0) then free_map_release (inode_write_at_depth 1) sec 1 else ret tt);
      do! dir_close dir;
      ret success
  end.

Definition is_root (name : list Z) : res bool := str_eq [SLASH; 0] name.

(** The directory opened for the path ["/"] is not closed. *)
Definition filesys_open (part : list Z) (name : list Z) : M fs (option Z) :=
  let! start := start_dir name in
  match start with
  | None => ret None
  | Some dir =>
      let! root := lift (is_root name) in
      if root : bool then ret None else
      let! (found, dir, part, _) := walk_path dir part name [] in
      if found : bool then
        let! inode := dir_lookup_files dir part in
        do! dir_close dir;
        file_open inode
      else do! dir_close dir; ret None
  end.

Definition filesys_open_directory (part : list Z) (name : list Z) : M fs (option Z) :=
  let! start := start_dir name in
  match start with
  | None => ret None
  | Some dir =>
      let! root := lift (is_root name) in
      if root : bool then dir_open_root else
      let! (found, dir, part, _) := walk_path dir part name [] in
      let! e := (if found : bool then entry_lookup dir part true else ret None) in
      match e with
      | Some (e, _) =>
          let! inode := inode_open (inode_sector e) in
          do! dir_close dir;
          dir_open inode
      | None => do! dir_close dir; ret None
      end
  end.

Definition filesys_remove (part : list Z) (name : list Z) : M fs bool :=
  let! start := start_dir name in
  match start with
  | None => ret false
  | Some dir =>
      let part := <[0%nat := 0]> part in
      let! (found, dir, part, _) := walk_path dir part name [] in
      let! success := (if found : bool then
                         match dir with None => ret false | Some _ => dir_remove dir part end
                       else ret false) in
      do! dir_close dir;
      ret success
  end.

(** ** Starting and stopping

    The cache is started by [start] ([buffer_init]) and written out by [sync]
    ([buffer_update_disk]). *)

Definition do_format : M fs unit :=
  do! free_map_create;
  let! ok := dir_create ROOT_DIR_SECTOR 16 in
  if ok : bool then free_map_close else fail KernelPanic.

Definition filesys_init (start : M S unit) (dev_size : option Z) (b_ok : bool) (words : option (list Z))
    (format : bool) : M fs unit :=
  match dev_size with
  | None => fail KernelPanic
  | Some n =>
      do! on_store start;
      do! modify (with_open []);
      do! free_map_init n b_ok words;
      do! (if format then do_format else ret tt);
      free_map_open
  end.

Definition filesys_done (sync : M S unit) : M fs unit :=
  do! on_store sync;
  free_map_close.

End filesys.

End Filesys.
