(* ===== verification/DirectoryFacts.v ===== *)
(** * filesys/directory.c: facts

    A directory stands for the list of the entries of its file; the loops find the
    first entry that matches, and end. *)

From S2P Require Import Prelude Bytes Block Bitmap BufferFacts Inode InodeFacts InodeAlloc InodeExtend InodeGrow Directory.
From S2P Require Import Filesys.
Import Bytes Block Bitmap BufferFacts Inode InodeFacts InodeAlloc InodeExtend InodeGrow Directory.

Module DirectoryFacts.

(** ** Names and entries *)

(** The characters of a name and the array of a name. *)
Definition is_name (xs : list Z) : Prop := Forall (fun x => 0 < x < 256) xs.
(** The name of the entry is [xs]. *)
Definition named (e xs : list Z) : Prop := is_name xs /\ exists rest, name_on e = xs ++ 0 :: rest.

Lemma str_eq_run xs ys rest : is_name xs -> is_name ys ->
  str_eq (xs ++ [0]) (ys ++ 0 :: rest) = Ok (bool_decide (xs = ys)).
Proof.
  revert ys. induction xs as [|x xs IH]; intros ys Hx Hy; destruct ys as [|y ys]; cbn [app str_eq].
  - done.
  - apply Forall_cons in Hy as [Hy _]. by rewrite (proj2 (Z.eqb_neq 0 y)) by lia.
  - apply Forall_cons in Hx as [Hx _]. by rewrite (proj2 (Z.eqb_neq x 0)) by lia.
  - apply Forall_cons in Hx as [Hx Hxs]. apply Forall_cons in Hy as [Hy Hys].
    destruct (Z.eqb_spec x y) as [->|Hne].
    + rewrite (proj2 (Z.eqb_neq y 0)) by lia. rewrite IH by done. f_equal. apply bool_decide_ext. naive_solver.
    + rewrite bool_decide_eq_false_2; [done|]. congruence.
Qed.
Lemma str_eq_named xs e ys : is_name xs -> named e ys -> str_eq (xs ++ [0]) (name_on e) = Ok (bool_decide (xs = ys)).
Proof. intros Hx [Hy [rest ->]]. by apply str_eq_run. Qed.
Lemma chars_run xs rest : is_name xs -> chars (xs ++ 0 :: rest) = Ok xs.
Proof.
  induction xs as [|x xs IH]; intros Hx; cbn [app chars]; [done|].
  apply Forall_cons in Hx as [Hx Hxs]. rewrite (proj2 (Z.eqb_neq x 0)) by lia. by rewrite IH.
Qed.
Lemma named_unique e xs ys : named e xs -> named e ys -> xs = ys.
Proof.
  intros [Hx [r E]] [Hy [r' E']]. assert (chars (name_on e) = Ok xs) as C1 by (rewrite E; by apply chars_run).
  rewrite E', chars_run in C1 by done. by injection C1.
Qed.

Section facts.
Context {S : Type} `{HS : SectorStoreLaws S}.
Notation fs := (fs S).
Implicit Types s : fs.

Lemma file_wf_stores s s' m p i o : file_wf s m p i o -> stores s s' (fview s) -> file_wf s' m p i o.
Proof.
  intros [H1 H2 H3 H4 H5 H6 H7 H8 H9 H10 H11] W. destruct (stores_objects _ _ _ W) as [So Sm].
  assert (forall x, fview s' x = fview s x) as Ev by (intros x; apply (stores_view _ _ _ _ W)).
  destruct (map_open_ext s s' _ _ _ _ H2 (stores_size _ _ _ W) So) as [M1 F1];
    [rewrite Sm; apply H2|by rewrite Sm|intros x _ _; by rewrite Sm|auto|].
  destruct (sectors_ext (fview s) (fview s') i o) as [Es _]; [auto|].
  split; rewrite ?Es; [exact (stores_inv _ _ _ W)|exact M1|exact H3|by rewrite (stores_inodes _ _ _ W)|exact H5|exact H6| | | |exact H10|exact H11].
  - intros x Hx. rewrite (stores_size _ _ _ W). by apply H7.
  - intros x Hx Hf. apply (proj1 (F1 x)) in Hf. by apply (H8 x Hx).
  - intros x Hx. rewrite Sm. by apply H9.
Qed.

(** ** Reading entries *)

Context (m : map_file) (p : Z) (i : inode) (o : Z) (v : Z -> list Z).
(** The number of entries, and entry [k]. *)
Definition count : Z := length (data i) / ENTRY.
Definition entry_of (k : Z) : list Z := contents v (data i) (ENTRY * k) ENTRY.

(** Nothing but the cache has changed, and the directory is a file in order. *)
Definition same s s' : Prop := stores s s' (fview s).
Definition ready s : Prop := file_wf s m p i o /\ forall x, fview s x = v x.

Lemma same_dir_trans s1 s2 s3 : same s1 s2 -> same s2 s3 -> same s1 s3.
Proof.
  intros W1 W2. eapply stores_trans; [exact W1|]. eapply stores_ext; [|exact W2].
  intros x. apply (stores_view _ _ _ _ W1).
Qed.
Lemma ready_same s s' : ready s -> same s s' -> ready s'.
Proof.
  intros [Hw Hv] W. split; [by eapply file_wf_stores|]. intros x. by rewrite (stores_view _ _ _ _ W).
Qed.
Lemma ready_refl s : ready s -> same s s.
Proof. intros [Hw _]. apply stores_refl, Hw. Qed.

Lemma read_entry_run s ofs : ready s -> 0 <= ofs ->
  exists s', read_entry p ofs s = Ok (contents v (data i) ofs (Z.max 0 (Z.min ENTRY (length (data i) - ofs))), s') /\
    ready s' /\ same s s'.
Proof.
  intros HR Ho. pose proof HR as [Hw Hv]. destruct (file_wf_ok _ _ _ _ _ Hw).
  destruct (inode_read_at_run s p i (o + 1) ENTRY ofs) as (s' & E & W); [apply Hw|apply Hw|done|done|done|].
  exists s'. split; [|split; [by apply (ready_same s)|done]]. unfold read_entry. rewrite E.
  do 2 f_equal. by apply contents_ext.
Qed.

Lemma count_bound : 0 <= length (data i) -> 0 <= count /\ ENTRY * count <= length (data i) < ENTRY * count + ENTRY.
Proof.
  intros Hl. unfold count, ENTRY. pose proof (Z.div_mod (length (data i)) 48). pose proof (Z.mod_pos_bound (length (data i)) 48).
  pose proof (Z.div_pos (length (data i)) 48). lia.
Qed.

Lemma contents_bytes s ofs n : ready s -> Forall is_byte (contents v (data i) ofs n).
Proof.
  intros [Hw Hv]. apply Forall_forall. intros x (k & -> & _)%list_elem_of_fmap. unfold fbyte.
  rewrite <- Hv, nth_lookup. destruct (fview s _ !! _) eqn:E; cbn; [|unfold is_byte; lia].
  pose proof (fview_wf s (block v (data i) (k / 512)) (fw_inv _ _ _ _ _ Hw)) as [_ Hb]. rewrite Forall_lookup in Hb. by apply (Hb _ _ E).
Qed.

(** Reading at a multiple of the size of an entry: an entry, or less at the end. *)
Lemma read_entry_at s k : ready s -> 0 <= k <= count ->
  exists e s', read_entry p (ENTRY * k) s = Ok (e, s') /\ ready s' /\ same s s' /\
    full e = (k <? count) /\ (k < count -> e = entry_of k) /\ (List.length e <= 48)%nat /\ Forall is_byte e.
Proof.
  intros HR Hk. pose proof (fw_len _ _ _ _ _ (proj1 HR)) as [Hl _]. destruct (count_bound Hl) as [Hc0 Hc].
  destruct (read_entry_run s (ENTRY * k) HR) as (s' & E & HR' & W); [unfold ENTRY; lia|].
  eexists _, s'. split; [exact E|]. split; [done|]. split; [done|]. unfold full, entry_of. rewrite contents_length.
  unfold ENTRY in *. split_and!; [| |lia|by apply (contents_bytes s)].
  - destruct (Z.ltb_spec k count); [apply Z.eqb_eq|apply Z.eqb_neq]; lia.
  - intros Hlt. by rewrite Z.max_r, Z.min_l by lia.
Qed.

(** ** [lookup] *)

(** Entry [k] matches [xs] and, if given, the kind. *)
Definition matches (xs : list Z) (kind : option bool) (k : Z) : Prop :=
  in_use (entry_of k) = true /\ named (entry_of k) xs /\
  match kind with Some b => is_dir (entry_of k) = b | None => True end.

Definition all_named : Prop := forall k, 0 <= k < count -> in_use (entry_of k) = true -> exists ys, named (entry_of k) ys.

(** The first match. *)
Definition first_match (xs : list Z) (kind : option bool) (k0 : Z) (r : option (list Z * Z)) : Prop :=
  match r with
  | None => forall k, k0 <= k < count -> ~ matches xs kind k
  | Some (e, ofs) => exists k, k0 <= k < count /\ e = entry_of k /\ ofs = ENTRY * k /\ matches xs kind k /\
      forall j, k0 <= j < k -> ~ matches xs kind j
  end.

Lemma first_match_next xs kind k r :
  k < count -> ~ matches xs kind k -> first_match xs kind (k + 1) r -> first_match xs kind k r.
Proof.
  intros Hk Hn. assert (forall j, k <= j -> j <> k -> k + 1 <= j) as Hj by lia. destruct r as [[e ofs]|]; cbn.
  - intros (q & Hq & -> & -> & Hm & Hf). exists q. split; [lia|]. split; [done|]. split; [done|]. split; [done|].
    intros j Hjr. destruct (decide (j = k)) as [->|]; [done|apply Hf; lia].
  - intros Hf j Hjr. destruct (decide (j = k)) as [->|]; [done|apply Hf; lia].
Qed.

Lemma lookup_loop_run xs kind fuel : forall s k,
  is_name xs -> all_named -> ready s -> 0 <= k <= count -> (Z.to_nat (count - k) < fuel)%nat ->
  exists r s', lookup_loop fuel p (xs ++ [0]) kind (ENTRY * k) s = Ok (r, s') /\ ready s' /\ same s s' /\
    first_match xs kind k r.
Proof.
  intros s k Hx Hnm. revert s k. induction fuel as [|fuel IH]; intros s k HR Hk Hf; [lia|]. cbn [lookup_loop].
  destruct (read_entry_at s k HR Hk) as (e & s1 & E & HR1 & W1 & Hfull & He & _).
  erewrite bind_eq; [|exact E]. rewrite Hfull. destruct (Z.ltb_spec k count) as [Hlt|Hge].
  2: { exists None, s1. split; [done|]. split; [done|]. split; [done|]. intros j Hj. lia. }
  specialize (He Hlt). subst e.
  pose proof (fw_len _ _ _ _ _ (proj1 HR)) as [Hl Hmax]. destruct (count_bound Hl) as [_ Hc].
  assert (MAX_LEN = 8582656) as EM by done.
  assert (u32 (ENTRY * k + ENTRY) = ENTRY * (k + 1)) as Eu by (unfold ENTRY in *; rewrite wrapu_small by lia; lia).
  rewrite Eu. assert (~ matches xs kind k ->
    exists r s', lookup_loop fuel p (xs ++ [0]) kind (ENTRY * (k + 1)) s1 = Ok (r, s') /\ ready s' /\ same s s' /\
      first_match xs kind k r) as Hnext.
  { intros Hn. destruct (IH s1 (k + 1) HR1) as (r & s' & E' & HR' & W' & Hr); [lia|lia|].
    exists r, s'. split; [done|]. split; [done|]. split; [by eapply same_dir_trans|]. by apply first_match_next. }
  destruct kind as [b|].
  - destruct (eqb (is_dir (entry_of k)) b) eqn:Ek; cbn [negb].
    2: { apply Hnext. intros (_ & _ & Hd). apply eqb_false_iff in Ek. done. }
    apply eqb_prop in Ek. destruct (in_use (entry_of k)) eqn:Eu'; [|apply Hnext; intros (Hu & _); congruence].
    destruct (Hnm k ltac:(lia) Eu') as [ys Hys]. rewrite (str_eq_named xs _ ys Hx Hys). erewrite bind_eq; [|done].
    destruct (bool_decide_reflect (xs = ys)) as [->|Hne].
    + eexists _, s1. split; [done|]. split; [done|]. split; [done|]. exists k. split; [lia|]. split; [done|].
      split; [done|]. split; [done|]. intros j Hj. lia.
    + apply Hnext. intros (_ & Hm & _). apply Hne. by eapply named_unique.
  - destruct (in_use (entry_of k)) eqn:Eu'; [|apply Hnext; intros (Hu & _); congruence].
    destruct (Hnm k ltac:(lia) Eu') as [ys Hys]. rewrite (str_eq_named xs _ ys Hx Hys). erewrite bind_eq; [|done].
    destruct (bool_decide_reflect (xs = ys)) as [->|Hne].
    + eexists _, s1. split; [done|]. split; [done|]. split; [done|]. exists k. split; [lia|]. split; [done|].
      split; [done|]. split; [done|]. intros j Hj. lia.
    + apply Hnext. intros (_ & Hm & _). apply Hne. by eapply named_unique.
Qed.

Lemma lookup_kind_run s d x xs kind :
  dirs s !! d = Some x -> dir_inode x = p -> is_name xs -> all_named -> ready s ->
  exists r s', lookup_kind (Some d) (xs ++ [0]) kind s = Ok (r, s') /\ ready s' /\ same s s' /\
    first_match xs kind 0 r.
Proof.
  intros Hd Ep Hx Hnm HR. cbn [lookup_kind].
  assert (get_dir d s = Ok (x, s)) as E1 by (unfold get_dir; by rewrite Hd).
  erewrite bind_eq; [|exact E1]. rewrite Ep. unfold entry_fuel.
  erewrite bind_eq; [|erewrite bind_eq; [done|apply inode_length_run; apply (proj1 HR)]].
  change 0 with (ENTRY * 0). pose proof (fw_len _ _ _ _ _ (proj1 HR)) as [Hl _]. destruct (count_bound Hl) as [Hc _].
  apply lookup_loop_run; [done|done|done|lia|]. fold count. lia.
Qed.

(** ** Adding *)

(** The slot chosen: the first free one, else the end. *)
Definition free_slot (k0 j : Z) : Prop :=
  k0 <= j <= count /\ (forall q, k0 <= q < j -> in_use (entry_of q) = true) /\
  (j < count -> in_use (entry_of j) = false).

Lemma slot_loop_run fuel : forall s k e0,
  ready s -> 0 <= k <= count -> (Z.to_nat (count - k) < fuel)%nat ->
  List.length e0 = 48%nat -> Forall is_byte e0 ->
  exists e j s', slot_loop fuel p (ENTRY * k) e0 s = Ok ((e, ENTRY * j), s') /\ ready s' /\ same s s' /\
    free_slot k j /\ List.length e = 48%nat /\ Forall is_byte e.
Proof.
  induction fuel as [|fuel IH]; intros s k e0 HR Hk Hf Hl0 Hb0; [lia|]. cbn [slot_loop].
  destruct (read_entry_at s k HR Hk) as (bs & s1 & E & HR1 & W1 & Hfull & He & Hl & Hb).
  erewrite bind_eq; [|exact E]. rewrite Hfull. set (e := bs ++ drop (List.length bs) e0).
  assert (List.length e = 48%nat /\ Forall is_byte e) as [Hle Hbe].
  { unfold e. rewrite length_app, length_drop, Forall_app. split; [lia|]. split; [done|by apply Forall_drop]. }
  destruct (Z.ltb_spec k count) as [Hlt|Hge].
  2: { exists e, k, s1. split; [done|]. split; [done|]. split; [done|]. split; [|done].
       split; [lia|]. split; intros; lia. }
  assert (e = entry_of k) as Ee.
  { unfold e. unfold full in Hfull. apply Z.eqb_eq in Hfull. unfold ENTRY in Hfull.
    rewrite drop_ge, app_nil_r by lia. by apply He. }
  destruct (in_use e) eqn:Eu; cbn [negb].
  - pose proof (fw_len _ _ _ _ _ (proj1 HR)) as [Hl0' Hmax]. destruct (count_bound Hl0') as [_ Hc].
    assert (MAX_LEN = 8582656) as EM by done.
    assert (s32 (ENTRY * k + ENTRY) = ENTRY * (k + 1)) as -> by (unfold ENTRY in *; rewrite wraps_small by lia; lia).
    destruct (IH s1 (k + 1) e HR1) as (e' & j & s' & E' & HR' & W' & (Hj & Hused & Hfree) & Hrest); [lia|lia|done|done|].
    exists e', j, s'. split; [done|]. split; [done|]. split; [by eapply same_dir_trans|]. split; [|done].
    split; [lia|]. split; [|done]. intros q Hq. destruct (decide (q = k)) as [->|]; [by rewrite <- Ee|apply Hused; lia].
  - exists e, k, s1. split; [done|]. split; [done|]. split; [done|]. split; [|done].
    split; [lia|]. split; [intros; lia|]. intros _. by rewrite <- Ee.
Qed.
End facts.

(** The entry written: name, sector and flags in place. *)
Definition new_entry (e xs : list Z) (sec : Z) (k : bool) : list Z :=
  set_inode_sector sec (splice 4 (xs ++ [0]) (set_is_dir k (set_in_use true e))).

Lemma new_entry_spec e xs sec k :
  List.length e = 48%nat -> Forall is_byte e -> is_name xs -> (List.length xs <= 14)%nat -> is_word sec ->
  set_name (xs ++ [0]) 15 (set_is_dir k (set_in_use true e)) = Ok (splice 4 (xs ++ [0]) (set_is_dir k (set_in_use true e))) /\
  List.length (new_entry e xs sec k) = 48%nat /\ Forall is_byte (new_entry e xs sec k) /\
  in_use (new_entry e xs sec k) = true /\ is_dir (new_entry e xs sec k) = k /\
  inode_sector (new_entry e xs sec k) = sec /\ named (new_entry e xs sec k) xs.
Proof.
  intros Hl Hb Hx Hlx Hsec. unfold new_entry. set (e1 := set_is_dir k (set_in_use true e)).
  assert (List.length e1 = 48%nat) as Hl1 by (unfold e1, set_is_dir, set_in_use; by rewrite !length_insert).
  assert (e1 !! 19%nat = Some 1 /\ e1 !! 20%nat = Some (Z.b2z k)) as [H19 H20].
  { unfold e1, set_is_dir, set_in_use. split.
    - rewrite list_lookup_insert_ne, list_lookup_insert_eq by lia. done.
    - rewrite list_lookup_insert_eq by (rewrite length_insert; lia). done. }
  assert (Forall is_byte e1) as Hb1.
  { unfold e1, set_is_dir, set_in_use. apply Forall_insert; [apply Forall_insert; [done|]|destruct k]; unfold is_byte; cbn; lia. }
  assert (List.length (xs ++ [0%Z]) <= 15)%nat as Hlx0 by (rewrite length_app; cbn; lia).
  assert (Forall is_byte (xs ++ [0])) as Hbx.
  { apply Forall_app. split; [|by repeat constructor]. eapply Forall_impl; [exact Hx|]. unfold is_byte. cbn. lia. }
  set (e2 := splice 4 (xs ++ [0]) e1).
  assert (List.length e2 = 48%nat) as Hl2 by (unfold e2; rewrite splice_length; lia).
  assert (forall j, (19 <= j)%nat -> e2 !! j = e1 !! j) as H2.
  { intros j Hj. unfold e2. rewrite splice_lookup by lia. change (Z.to_nat 4) with 4%nat.
    destruct (Nat.ltb_spec j (4 + List.length (xs ++ [0%Z]))); [lia|]. by rewrite andb_false_r. }
  set (e3 := set_inode_sector sec e2). assert (List.length (le_encode 4 sec) = 4%nat) as H4 by apply le_encode_length.
  assert (forall j, (4 <= j)%nat -> e3 !! j = e2 !! j) as H3.
  { intros j Hj. unfold e3, set_inode_sector. rewrite splice_lookup, H4 by lia.
    destruct (Nat.ltb_spec j (Z.to_nat 0 + 4)); [lia|]. by rewrite andb_false_r. }
  split_and!.
  - unfold set_name. rewrite (chars_run xs []) by done. cbn [rbind]. rewrite take_ge by lia. done.
  - unfold e3, set_inode_sector. rewrite splice_length; lia.
  - apply Forall_splice; [apply le_encode_bytes|]. by apply Forall_splice.
  - unfold in_use. by rewrite nth_lookup, H3, H2, H19 by lia.
  - unfold is_dir. rewrite nth_lookup, H3, H2, H20 by lia. by destruct k.
  - unfold inode_sector, e3, set_inode_sector. change 4 with (Z.of_nat 4) at 1. rewrite <- H4 at 1.
    rewrite sub_splice by lia. by apply le_decode_encode.
  - split; [done|]. unfold name_on. exists (drop (4 + List.length (xs ++ [0%Z])) e1).
    assert (drop 4 e3 = drop 4 e2) as ->.
    { unfold e3, set_inode_sector, splice. rewrite H4. change (Z.to_nat 0) with 0%nat. rewrite take_0. cbn [Nat.add].
      change ([] ++ ?x) with x. by apply drop_app_length'. }
    unfold e2, splice. change (Z.to_nat 4) with 4%nat. rewrite drop_app_length' by (rewrite length_take; lia).
    by rewrite <- app_assoc.
Qed.

Section add.
Context {S : Type} `{HS : SectorStoreLaws S}.
Notation fs := (fs S).
Implicit Types s : fs.

Lemma file_wf_same s s' v' m p i o :
  file_wf s m p i o -> stores s s' v' -> length (data i) / 512 <= o ->
  (forall x, x ∉ map (block (fview s) (data i)) (seqZ 0 (o + 1)) ++ [sector i] -> v' x = fview s x) ->
  file_wf s' m p i o.
Proof.
  intros Hw W Ho Hv. pose proof (fw_inode _ _ _ _ _ Hw) as Hp. pose proof (fw_len _ _ _ _ _ Hw) as Hl.
  assert (with_data i (set_length (data i) (length (data i))) = i) as Ei by (rewrite set_length_same; by destruct i).
  destruct (file_wf_written s s' v' m p i o (length (data i)) Hw) as [Hw' _]; [|done|done|done|by rewrite Ei in Hw'].
  rewrite Ei. replace (with_inodes _ s) with s; [done|]. unfold with_inodes. rewrite insert_id by done. by destruct s.
Qed.

(** Writing an entry at slot [j], inside the file or at its end. *)
Lemma write_slot s m p i j (e : list Z) (o := length (data i) / 512) (o' := (ENTRY * count i + ENTRY) / 512) :
  file_wf s m p i o -> deny_write_cnt i = 0 -> 0 <= j <= count i -> List.length e = 48%nat -> Forall is_byte e ->
  o' < MAX_BLOCKS -> o' - o + (nmeta o' - nmeta o) <= free_cnt (free_map s) ->
  exists s' i', inode_write_at p e (ENTRY * j) s = Ok (ENTRY, s') /\ inodes s' !! p = Some i' /\
    length (data i') = Z.max (length (data i)) (ENTRY * j + ENTRY) /\ sector i' = sector i /\
    file_wf s' m p i' (length (data i') / 512) /\ contents (fview s') (data i') (ENTRY * j) ENTRY = e.
Proof.
  intros Hw Hden Hj Hl Hb Hmax Hfree. pose proof (fw_len _ _ _ _ _ Hw) as [Hl0 Hl1]. destruct (count_bound i Hl0) as [Hc0 Hc].
  assert (Z.of_nat (List.length e) = ENTRY) as El by (rewrite Hl; done). unfold ENTRY in *.
  destruct (Z.lt_ge_cases j (count i)) as [Hlt|Hge].
  - destruct (write_inside (inode_write_at_depth 1) s p i (o + 1) e (48 * j)) as (s' & v' & R & W & E1 & E2 & E3);
      [apply Hw|apply Hw|done|by eapply file_wf_ok|lia|lia|done|].
    exists s', i. rewrite El in *. split; [exact R|]. split; [by rewrite (stores_inodes _ _ _ W); apply Hw|].
    split; [lia|]. split; [done|]. split.
    + apply (file_wf_same s s' v'); [done|done|lia|]. intros x Hx. rewrite elem_of_app in Hx. apply E3.
      * intros ->. apply Hx. right. apply list_elem_of_here.
      * intros Ht. apply Hx. left. apply (touched_block _ _ (48 * j) 48); [lia| |done].
        apply Z.div_le_mono; lia.
    + etransitivity; [|exact E2]. apply contents_ext. intros x. apply (stores_view _ _ _ _ W).
  - assert (j = count i) as -> by lia.
    destruct (write_grows 0 s m p i e (48 * count i)) as (s' & i' & R & P & [G1 G2 G3 G4 G5 _ _ _]);
      [done|done|lia|done|rewrite El; lia|rewrite El; done|rewrite El; done|].
    exists s', i'. rewrite El in *. split; [exact R|]. split; [done|]. split; [lia|]. split; [by rewrite G2|].
    split; [by rewrite G3|done].
Qed.

Lemma dir_add_run s m p i d x xs sec k junk (o := length (data i) / 512) (o' := (ENTRY * count i + ENTRY) / 512) :
  dirs s !! d = Some x -> dir_inode x = p -> file_wf s m p i o -> deny_write_cnt i = 0 ->
  is_name xs -> (1 <= List.length xs <= 14)%nat -> all_named i (fview s) ->
  (forall q, 0 <= q < count i -> ~ matches i (fview s) xs None q) -> is_word sec ->
  List.length junk = 48%nat -> Forall is_byte junk ->
  o' < MAX_BLOCKS -> o' - o + (nmeta o' - nmeta o) <= free_cnt (free_map s) ->
  exists s' i' j e, dir_add_directory junk (Some d) (xs ++ [0]) sec k s = Ok (true, s') /\
    inodes s' !! p = Some i' /\ free_slot i (fview s) 0 j /\
    length (data i') = Z.max (length (data i)) (ENTRY * j + ENTRY) /\ sector i' = sector i /\
    file_wf s' m p i' (length (data i') / 512) /\ contents (fview s') (data i') (ENTRY * j) ENTRY = e /\
    in_use e = true /\ is_dir e = k /\ inode_sector e = sec /\ named e xs.
Proof.
  intros Hd Ep Hw Hden Hx Hlx Hnm Habs Hsec Hlj Hbj Hmax Hfree. unfold dir_add_directory.
  rewrite (chars_run xs []) by done. erewrite bind_eq; [|done]. rewrite (proj2 (Z.eqb_neq _ 0)) by lia.
  destruct (Z.gtb_spec (Z.of_nat (List.length xs)) NAME_MAX) as [Hgt|_]; [unfold NAME_MAX in Hgt; lia|].
  assert (ready m p i o (fview s) s) as HR by (by split).
  destruct (lookup_kind_run m p i o (fview s) s d x xs None Hd Ep Hx Hnm HR) as (r & s1 & E1 & HR1 & W1 & Hr).
  erewrite bind_eq; [|exact E1]. destruct r as [[e0 ofs0]|].
  { destruct Hr as (q & Hq & _ & _ & Hm & _). by destruct (Habs q Hq). }
  destruct (stores_objects _ _ _ W1) as [So Sm].
  assert (get_dir d s1 = Ok (x, s1)) as E2.
  { unfold get_dir. destruct So as (_ & _ & _ & -> & _). by rewrite Hd. }
  erewrite bind_eq; [|exact E2]. rewrite Ep. unfold entry_fuel.
  erewrite bind_eq; [|erewrite bind_eq; [done|apply inode_length_run; apply (proj1 HR1)]].
  pose proof (fw_len _ _ _ _ _ Hw) as [Hl0 _]. destruct (count_bound i Hl0) as [Hc _].
  destruct (slot_loop_run m p i o (fview s) (Datatypes.S (Datatypes.S (Z.to_nat (length (data i) / ENTRY)))) s1 0 junk HR1)
    as (e & j & s2 & E3 & HR2 & W2 & Hslot & Hle & Hbe); [lia|fold (count i); lia|done|done|].
  change (ENTRY * 0) with 0 in E3. erewrite bind_eq; [|exact E3]. cbv beta iota.
  destruct (new_entry_spec e xs sec k Hle Hbe Hx ltac:(lia) Hsec) as (Es & Hn1 & Hn2 & Hn3 & Hn4 & Hn5 & Hn6).
  rewrite Es. erewrite bind_eq; [|done]. fold (new_entry e xs sec k).
  destruct (stores_objects _ _ _ W2) as [_ Sm2].
  destruct (write_slot s2 m p i j (new_entry e xs sec k)) as (s3 & i' & E4 & P4 & L4 & S4 & W4 & C4);
    [apply HR2|done|apply Hslot|done|done|done|by rewrite Sm2, Sm|].
  erewrite bind_eq; [|exact E4]. rewrite Z.eqb_refl. exists s3, i', j, (new_entry e xs sec k). done.
Qed.
End add.

End DirectoryFacts.

(** * filesys/filesys.c: paths are taken apart, and the walk along them ends *)

Import Bytes Block Bitmap BufferFacts Inode Directory DirectoryFacts Filesys.

Module FilesysFacts.

(** The characters of a path component. *)
Definition is_part (xs : list Z) : Prop := Forall (fun x => 0 < x < 256 /\ x <> SLASH) xs.

Lemma skip_slashes_run n x rest : x <> SLASH -> skip_slashes (replicate n SLASH ++ x :: rest) = Ok (x :: rest).
Proof.
  intros Hx. induction n as [|n IH]; cbn [replicate app skip_slashes].
  - by rewrite (proj2 (Z.eqb_neq x SLASH) Hx).
  - by rewrite Z.eqb_refl.
Qed.

Lemma copy_part_run xs : forall t part dst,
  is_part xs -> (hd 0 t = 0 \/ hd 0 t = SLASH) -> t <> [] -> (dst + List.length xs <= 14)%nat -> List.length part = 15%nat ->
  copy_part (xs ++ t) part dst =
    Ok (take dst part ++ xs ++ drop (dst + List.length xs) part, Some ((dst + List.length xs)%nat, t)).
Proof.
  induction xs as [|x xs IH]; intros t part dst Hx Ht Hne Hl Hlp; cbn [app].
  - destruct t as [|y t]; [done|]. cbn [copy_part hd] in *.
    rewrite Nat.add_0_r, take_drop. destruct Ht as [-> | ->]; by cbn.
  - apply Forall_cons in Hx as [[Hx0 Hx1] Hx]. cbn [copy_part List.length] in *.
    rewrite (proj2 (Z.eqb_neq x SLASH) Hx1), (proj2 (Z.eqb_neq x 0)) by lia. cbn [negb andb].
    destruct (Nat.ltb_spec dst 14); [|lia]. rewrite IH by (done || lia || by rewrite length_insert).
    replace (Datatypes.S dst + List.length xs)%nat with (dst + Datatypes.S (List.length xs))%nat by lia.
    do 2 f_equal. rewrite (take_S_r _ _ x) by (apply list_lookup_insert_eq; lia).
    rewrite take_insert_ge, drop_insert_lt by lia. by rewrite <- app_assoc.
Qed.

(** A component that is too long fills the buffer. *)
Lemma copy_part_long xs : forall t part dst,
  is_part xs -> (dst <= 14)%nat -> (14 < dst + List.length xs)%nat -> List.length part = 15%nat ->
  copy_part (xs ++ t) part dst = Ok (take dst part ++ take (14 - dst) xs ++ drop 14 part, None).
Proof.
  induction xs as [|x xs IH]; intros t part dst Hx Hd Hl Hlp; cbn [app List.length] in *; [lia|].
  apply Forall_cons in Hx as [[Hx0 Hx1] Hx]. cbn [copy_part].
  rewrite (proj2 (Z.eqb_neq x SLASH) Hx1), (proj2 (Z.eqb_neq x 0)) by lia. cbn [negb andb].
  destruct (Nat.ltb_spec dst 14) as [Hlt|Hge].
  - rewrite IH by (done || lia || by rewrite length_insert). do 2 f_equal.
    rewrite (take_S_r _ _ x) by (apply list_lookup_insert_eq; lia).
    rewrite take_insert_ge, drop_insert_lt by lia.
    replace (14 - dst)%nat with (Datatypes.S (14 - Datatypes.S dst)) by lia. by rewrite <- app_assoc.
  - assert (dst = 14%nat) as -> by lia. rewrite Nat.sub_diag, take_0, app_nil_l. by rewrite take_drop.
Qed.

Lemma part_head xs : is_part xs -> xs <> [] -> exists x ys, xs = x :: ys /\ x <> SLASH /\ 0 < x.
Proof. destruct xs as [|x xs]; [done|]. intros [[Hx0 Hx1] _]%Forall_cons _. exists x, xs. split; [done|]. lia. Qed.

Lemma get_next_part_run part n xs t :
  List.length part = 15%nat -> is_part xs -> xs <> [] -> (List.length xs <= 14)%nat ->
  (hd 0 t = 0 \/ hd 0 t = SLASH) -> t <> [] ->
  get_next_part part (replicate n SLASH ++ xs ++ t) =
    Ok (if hd 0 t =? 0 then 0 else 1, xs ++ 0 :: drop (Datatypes.S (List.length xs)) part, t).
Proof.
  intros Hlp Hx Hne Hl Ht Htn. unfold get_next_part.
  destruct (part_head xs Hx Hne) as (x & ys & Exs & Hx1 & Hx0).
  assert (skip_slashes (replicate n SLASH ++ xs ++ t) = Ok (xs ++ t)) as -> by (rewrite Exs; by apply skip_slashes_run).
  cbn [rbind]. assert (hd 0 (xs ++ t) = x) as -> by (by rewrite Exs).
  rewrite (proj2 (Z.eqb_neq x 0)) by lia. rewrite copy_part_run by (done || lia). cbn [rbind]. do 4 f_equal.
  rewrite take_0. cbn [app Nat.add].
  destruct (drop (List.length xs) part) as [|y rest] eqn:E.
  { apply (f_equal List.length) in E. rewrite length_drop in E. cbn in E. lia. }
  rewrite <- (Nat.add_0_r (List.length xs)) at 1. rewrite insert_app_r. cbn.
  do 2 f_equal. change (Datatypes.S (List.length xs)) with (1 + List.length xs)%nat.
  by rewrite Nat.add_comm, <- drop_drop, E.
Qed.

Lemma get_next_part_long part n xs t :
  List.length part = 15%nat -> is_part xs -> (14 < List.length xs)%nat ->
  get_next_part part (replicate n SLASH ++ xs ++ t) =
    Ok (-1, take 14 xs ++ drop 14 part, replicate n SLASH ++ xs ++ t).
Proof.
  intros Hlp Hx Hl. assert (xs <> []) as Hne by (intros ->; cbn in Hl; lia). unfold get_next_part.
  destruct (part_head xs Hx Hne) as (x & ys & Exs & Hx1 & Hx0).
  assert (skip_slashes (replicate n SLASH ++ xs ++ t) = Ok (xs ++ t)) as -> by (rewrite Exs; by apply skip_slashes_run).
  cbn [rbind]. assert (hd 0 (xs ++ t) = x) as -> by (by rewrite Exs).
  rewrite (proj2 (Z.eqb_neq x 0)) by lia. rewrite copy_part_long by (done || lia). done.
Qed.

Lemma get_next_part_end part n t :
  get_next_part part (replicate n SLASH ++ 0 :: t) = Ok (0, part, replicate n SLASH ++ 0 :: t).
Proof. unfold get_next_part. by rewrite skip_slashes_run. Qed.

(** ** The walk: each round leaves a shorter path *)

Lemma skip_slashes_length src s : skip_slashes src = Ok s -> (List.length s <= List.length src)%nat /\ s <> [].
Proof.
  induction src as [|x src IH]; cbn [skip_slashes]; [done|]. destruct (x =? SLASH).
  - intros [H1 H2]%IH. cbn. split; [lia|done].
  - intros [= <-]. done.
Qed.
Lemma copy_part_length src : forall part dst part' dst' s,
  copy_part src part dst = Ok (part', Some (dst', s)) ->
  (List.length s <= List.length src)%nat /\ s <> [] /\ (hd 0 src <> 0 -> hd 0 src <> SLASH -> (List.length s < List.length src)%nat).
Proof.
  induction src as [|x src IH]; intros part dst part' dst' s; cbn [copy_part]; [done|].
  destruct (Z.eqb_spec x SLASH); [intros [= _ _ <-]; cbn; split; [done|split; [done|congruence]]|].
  destruct (Z.eqb_spec x 0); [intros [= _ _ <-]; cbn; split; [done|split; [done|congruence]]|]. cbn [negb andb].
  destruct (dst <? 14)%nat; [|done]. intros (H1 & H2 & _)%IH. cbn. split; [lia|]. split; [done|]. lia.
Qed.
Lemma skip_slashes_head src s : skip_slashes src = Ok s -> hd 0 s <> SLASH.
Proof.
  induction src as [|x src IH]; cbn [skip_slashes]; [done|].
  destruct (Z.eqb_spec x SLASH); [apply IH|]. by intros [= <-].
Qed.
Lemma get_next_part_shorter part src part' s :
  get_next_part part src = Ok (1, part', s) -> (List.length s < List.length src)%nat.
Proof.
  unfold get_next_part. destruct (skip_slashes src) as [s0|f] eqn:E0; [|done]. cbn [rbind].
  destruct (Z.eqb_spec (hd 0 s0) 0); [done|]. destruct (copy_part s0 part 0) as [[p r]|f] eqn:E1; [|done]. cbn [rbind].
  destruct r as [[dst s1]|]; [|done]. destruct (hd 0 s1 =? 0); [done|]. intros [= _ <-].
  pose proof (skip_slashes_length _ _ E0) as [Hl _]. pose proof (skip_slashes_head _ _ E0) as Hh.
  destruct (copy_part_length _ _ _ _ _ _ E1) as (_ & _ & Hlt). specialize (Hlt ltac:(done) Hh). lia.
Qed.

Section walk.
Context {S : Type} `{HS : SectorStore S}.

(** More fuel than the length of the path does not matter. *)
Lemma walk_fuel n : forall (s : fs S) fuel fuel' dir part name entry,
  (List.length name < n)%nat -> (n <= fuel)%nat -> (n <= fuel')%nat ->
  walk fuel dir part name entry s = walk fuel' dir part name entry s.
Proof.
  induction n as [|n IH]; intros s fuel fuel' dir part name entry Hl Hf Hf'; [lia|].
  destruct fuel as [|fuel], fuel' as [|fuel']; [lia..|]. cbn [walk]. unfold bind, lift.
  destruct (get_next_part part name) as [[[r part'] name']|f] eqn:E; [|done]. cbv beta iota.
  destruct (Z.eqb_spec r 1) as [->|]; [|done].
  pose proof (get_next_part_shorter _ _ _ _ E) as Hs.
  destruct (entry_lookup dir part' true s) as [[[[e ofs]|] s1]|]; [|done..].
  destruct (inode_open (inode_sector e) s1) as [[ino s2]|]; [|done].
  destruct (dir_close dir s2) as [[u s3]|]; [|done].
  destruct (dir_open ino s3) as [[d s4]|]; [|done]. apply IH; lia.
Qed.
End walk.

End FilesysFacts.
