(* ===== verification/DirectoryProps.v ===== *)
(** * filesys/directory.c, filesys/filesys.c: the properties, with instances on the
    volume of [InodeProps], of which the file of 100 bytes is taken as a directory *)

From S2P Require Import Prelude Bytes Block Bitmap Buffer BufferFacts Inode InodeFacts.
From S2P Require Import InodeAlloc InodeExtend InodeGrow InodeCreate InodeProps Directory DirectoryFacts Filesys.
Import Bytes Block Bitmap Buffer BufferFacts Inode InodeFacts InodeAlloc InodeExtend InodeGrow InodeCreate
  InodeProps Directory DirectoryFacts Filesys FilesysFacts.

Module DirectoryProps.

Section props.
Context {S : Type} `{HS : SectorStoreLaws S}.
Notation fs := (fs S).

(** The search of a directory ends and finds the first entry in use with the name
    (and the kind, when files or directories only are wanted), or reports that there
    is none; it changes nothing. *)
Theorem lookup_correct (s : fs) m p i o d x xs kind :
  dirs s !! d = Some x -> dir_inode x = p -> file_wf s m p i o -> is_name xs -> all_named i (fview s) ->
  exists r s', lookup_kind (Some d) (xs ++ [0]) kind s = Ok (r, s') /\ stores s s' (fview s) /\
    first_match i (fview s) xs kind 0 r.
Proof.
  intros Hd Ep Hw Hx Hn.
  destruct (lookup_kind_run m p i o (fview s) s d x xs kind) as (r & s' & E & _ & W & Hr); try done. eauto.
Qed.


(** The loop over the components of a path ends: one round per character is
    enough, more fuel changes nothing. *)
Theorem walk_path_enough_fuel (s : fs) fuel dir part name entry :
  (List.length name < fuel)%nat -> walk fuel dir part name entry s = walk_path dir part name entry s.
Proof. intros Hf. apply (walk_fuel (Datatypes.S (List.length name))); lia. Qed.
End props.

(** [get_next_part] on a path: of a component of at most 14 characters it leaves
    the terminated name and the rest of the path, with result 1 when more of the path
    follows and 0 when the path ends there; of a longer one it leaves the first 14
    characters, not terminated, result -1, the path as it was; of slashes alone
    nothing, result 0. *)
Theorem get_next_part_correct part n xs t :
  List.length part = 15%nat -> is_part xs -> (hd 0 t = 0 \/ hd 0 t = SLASH) -> t <> [] ->
  get_next_part part (replicate n SLASH ++ xs ++ t) =
    if decide (14 < List.length xs)%nat then Ok (-1, take 14 xs ++ drop 14 part, replicate n SLASH ++ xs ++ t)
    else if decide (xs = []) then
      (if hd 0 t =? 0 then Ok (0, part, replicate n SLASH ++ t) else get_next_part part (replicate n SLASH ++ t))
    else Ok (if hd 0 t =? 0 then 0 else 1, xs ++ 0 :: drop (Datatypes.S (List.length xs)) part, t).
Proof.
  intros Hl Hx Ht Hn. destruct (decide (14 < List.length xs)%nat); [by apply get_next_part_long|].
  destruct (decide (xs = [])) as [->|Hne]; [|apply get_next_part_run; done || lia].
  cbn [app]. destruct t as [|y t]; [done|]. cbn [hd] in *. destruct (Z.eqb_spec y 0) as [->|]; [|done].
  by apply get_next_part_end.
Qed.

(** ** Instances *)

#[local] Existing Instance demo_store.
#[local] Existing Instance demo_store_laws.

Definition demo_dir_fs : fs (Buffer.state Block.state) :=
  with_dirs (<[30 := {| dir_inode := 11; dir_pos := 0; is_remove := false |}]> ∅) demo_fs.

Lemma demo_dir_wf : file_wf demo_dir_fs demo_map 11 demo_inode 0.
Proof.
  destruct demo_file_wf as [H1 H2 H3 H4 H5 H6 H7 H8 H9 H10 H11].
  split; [exact H1| |exact H3|exact H4|exact H5|exact H6|exact H7|exact H8|exact H9|exact H10|exact H11].
  by apply (map_ok_same demo_fs).
Qed.

(** Its two entries are free. *)
Lemma demo_entries k : 0 <= k < count demo_inode -> in_use (entry_of demo_inode (fview demo_dir_fs) k) = false.
Proof.
  change (count demo_inode) with 2. intros Hk. assert (k = 0 \/ k = 1) as [->| ->] by lia; by vm_compute.
Qed.

Lemma lookup_correct_witness :
  exists s', lookup_kind (Some 30) ([97] ++ [0]) None demo_dir_fs = Ok (None, s').
Proof.
  destruct (lookup_correct demo_dir_fs demo_map 11 demo_inode 0 30
    {| dir_inode := 11; dir_pos := 0; is_remove := false |} [97] None) as (r & s' & E & _ & Hr);
    [by vm_compute|done|apply demo_dir_wf|repeat constructor; lia| |].
  - intros k Hk Hu. by rewrite demo_entries in Hu.
  - destruct r as [[e ofs]|]; [|exists s'; exact E]. destruct Hr as (k & Hk & _ & _ & (Hu & _) & _).
    by rewrite demo_entries in Hu.
Defined.


Lemma walk_path_enough_fuel_witness :
  walk 10 (Some 30) (zeros 15) [47; 97; 0] [] demo_dir_fs = walk_path (Some 30) (zeros 15) [47; 97; 0] [] demo_dir_fs.
Proof. apply walk_path_enough_fuel. cbn. lia. Defined.

(** The path ["//a"]: its last component is reported with 0, the result for the end. *)
Lemma get_next_part_correct_witness :
  get_next_part (zeros 15) (replicate 2 SLASH ++ [97] ++ [0]) = Ok (0, [97] ++ 0 :: zeros 13, [0]).
Proof.
  apply (get_next_part_correct (zeros 15) 2 [97] [0]); [done|by repeat constructor|by left|done].
Defined.

End DirectoryProps.
