(* ===== verification/LoaderProps.v ===== *)
(** * Loading an executable from the file system: the properties

    The file system discharges the laws the loader relies on, and a segment that the
    validation accepts is loaded as its program header says. *)

From S2P Require Import Prelude Bytes Bitmap VAddr Ram Palloc PageDir PageDirFacts PageDirProps Loader LoaderFacts.
From S2P Require Import Block Buffer BufferFacts BufferProps Inode InodeFacts InodeAlloc InodeGrow InodeProps Filesys.
Import Bytes VAddr Ram Palloc PageDir PageDirFacts PageDirProps Loader LoaderFacts LoaderRun.

Module LoaderProps.

(** ** The open files of the file system *)

Section files.
Import Buffer BufferFacts Inode InodeFacts Filesys.
Context {S : Type} `{HS : SectorStoreLaws S} (part : list Z).

#[export] Instance fs_file_ops : FileOps (fs S) := {
  open_file := filesys_open part;
  deny_file := file_deny_write;
  seek_file := file_seek;
  read_file := file_read;
  length_file := file_length }.

Lemma get_file_run (s : fs S) f x : files s !! f = Some x -> get_file f s = Ok (x, s).
Proof. unfold get_file. by intros ->. Qed.

(** The file [f] is open at [p], its blocks are sectors of the device and hold [bs]. *)
Definition fs_holds (s : fs S) (f : Z) (bs : list Z) (p : Z) : Prop :=
  exists x i n, files s !! f = Some x /\ inodes s !! file_inode x = Some i /\ pos x = p /\
    st_inv (store s) /\ maps (fview s) (fsize s) (data i) n /\ 0 <= length (data i) < 2 ^ 31 /\ (length (data i) - 1) / 512 < n /\
    bs = contents (fview s) (data i) 0 (length (data i)) /\ Forall is_byte bs.

Lemma fs_holds_pos s f x q bs p : fs_holds s f bs p -> files s !! f = Some x ->
  fs_holds (with_files (<[f := {| file_inode := file_inode x; pos := q; deny_write := deny_write x |}]> (files s)) s) f bs q.
Proof.
  intros (x' & i & n & Hf & Hi & _ & Hr) Hx. rewrite Hx in Hf. injection Hf as <-.
  eexists _, i, n. split; [apply lookup_insert_eq|]. done.
Qed.
Lemma fs_holds_stores s s' f bs p : fs_holds s f bs p -> stores s s' (fview s) -> fs_holds s' f bs p.
Proof.
  intros (x & i & n & Hf & Hi & Hp & _ & Hm & Hl & Hn & -> & Hb) Hs. 
  assert (forall sec, fview s' sec = fview s sec) as Hv by (intros; by apply (stores_view s)). pose proof (stores_size _ _ _ Hs) as Hz.
  pose proof (stores_inv _ _ _ Hs) as Hinv. destruct Hs as (st & -> & _). exists x, i, n.
  split; [exact Hf|]. split; [exact Hi|]. split; [exact Hp|]. split; [exact Hinv|].
  split; [by rewrite Hz; apply (maps_ext (fview s))|]. split; [exact Hl|]. split; [exact Hn|]. split; [|exact Hb]. symmetry. by apply InodeGrow.contents_ext.
Qed.

Lemma contents_sub v di len p n : 0 <= p -> 0 <= n -> 0 <= len ->
  contents v di p (Z.max 0 (Z.min n (len - p))) = sub_bytes p n (contents v di 0 len).
Proof.
  intros Hp Hn Hl. unfold sub_bytes. destruct (decide (len <= p)).
  - rewrite drop_ge by (rewrite contents_length; lia). rewrite take_nil. by replace (Z.max 0 _) with 0 by lia.
  - replace len with (p + (len - p)) at 2 by lia. rewrite contents_app, drop_app_length' by (rewrite ?contents_length; lia).
    destruct (decide (n <= len - p)).
    + replace (len - p) with (n + (len - p - n)) at 2 by lia.
      rewrite contents_app, take_app_length' by (rewrite ?contents_length; lia). f_equal; lia.
    + rewrite take_ge by (rewrite contents_length; lia). f_equal; lia.
Qed.

#[export] Program Instance fs_file_laws : FileLaws (fs S) := {| holds := fs_holds |}.
Next Obligation.
  intros s f bs p (x & i & n & _ & _ & _ & _ & _ & Hl & _ & -> & Hb). split; [done|]. rewrite contents_length. lia.
Qed.
Next Obligation.
  intros s f bs p q Hh Hq. pose proof Hh as (x & i & n & Hf & _). eexists. split; [|by apply (fs_holds_pos s f x q bs p)].
  cbn. unfold file_seek. erewrite bind_eq; [|rewrite (proj2 (Z.geb_le q 0)) by lia; reflexivity].
  erewrite bind_eq; [reflexivity|by apply get_file_run].
Qed.
Next Obligation.
  intros s f bs p sz Hh Hp Hn Hlt. pose proof Hh as (x & i & n & Hf & Hi & Ep & Hs & Hm & Hl & Hn' & Hbs & Hb).
  destruct (inode_read_at_run s (file_inode x) i n sz p Hs Hi Hm Hp Hn') as (s' & E & Hst).
  rewrite contents_sub, <- Hbs in E by lia. assert (Z.of_nat (List.length (sub_bytes p sz bs)) <= sz) by (apply sub_bytes_le; lia).
  pose proof (fs_holds_stores _ _ _ _ _ Hh Hst) as Hh'. pose proof Hst as (st & Est & _).
  eexists. cbn. split; [|apply (fs_holds_pos s' f x _ bs p); [exact Hh'|by rewrite Est]].
  unfold file_read. erewrite bind_eq; [|by apply get_file_run]. rewrite Ep. erewrite bind_eq; [|exact E].
  rewrite (wraps_small 32) by lia. by rewrite Est.
Qed.
Next Obligation.
  intros s f bs p Hh. pose proof Hh as (x & i & n & Hf & Hi & _ & _ & _ & Hl & _ & Hbs & _). exists s. split; [|done]. cbn.
  unfold file_length. erewrite bind_eq; [|by apply get_file_run]. erewrite inode_length_run by done.
  rewrite Hbs, contents_length, Z2Nat.id by lia. done.
Qed.

End files.

(** ** Program headers *)

Definition phdr_words (h : Elf32_Phdr) : Prop :=
  is_word (p_offset h) /\ is_word (p_vaddr h) /\ is_word (p_filesz h) /\ is_word (p_memsz h).

(** An accepted segment lies in user space above page 0, and its sum does not wrap. *)
Record segment_ok (h : Elf32_Phdr) (len : Z) : Prop := {
  so_offset : p_offset h <= len;
  so_same : p_offset h mod 4096 = p_vaddr h mod 4096;
  so_size : p_filesz h <= p_memsz h /\ 0 < p_memsz h;
  so_low : 4096 <= p_vaddr h;
  so_high : p_vaddr h + p_memsz h < PHYS_BASE }.

Lemma mask_mod x : Z.land x PGMASK = x mod 4096.
Proof. apply pg_ofs_mod. Qed.

Lemma validate_segment_ok h len : phdr_words h -> 0 <= len < 2 ^ 31 ->
  validate_segment h len = true <-> segment_ok h len.
Proof.
  intros (W1 & W2 & W3 & W4) Hl. unfold is_word in *. unfold validate_segment, is_user_vaddr. rewrite !mask_mod, (wrapu_small 32 len) by lia.
  change PHYS_BASE with 3221225472. change PGSIZE with 4096. split.
  - intros V. repeat case_match; try done. rewrite ?Z.gtb_ltb, ?negb_false_iff, ?Z.eqb_eq, ?Z.ltb_ge, ?Z.ltb_lt, ?Z.eqb_neq in *.
    assert (p_vaddr h + p_memsz h < 2 ^ 32).
    { destruct (decide (p_vaddr h + p_memsz h < 2 ^ 32)) as [?|Hge]; [done|]. exfalso.
      assert (u32 (p_vaddr h + p_memsz h) = p_vaddr h + p_memsz h - 2 ^ 32); [|lia].
      unfold wrapu. symmetry. apply (Z.mod_unique _ _ 1); lia. }
    rewrite wrapu_small in * by lia. split; change PHYS_BASE with 3221225472; lia.
  - intros [O1 O2 O3 O4 O5]. change PHYS_BASE with 3221225472 in O5. rewrite wrapu_small by lia. rewrite O2, Z.eqb_refl. cbn [negb].
    repeat match goal with |- context [if ?b then _ else _] => destruct b eqn:?; rewrite ?Z.gtb_ltb, ?negb_true_iff, ?Z.ltb_lt, ?Z.ltb_ge, ?Z.eqb_eq in *; [lia|] end.
    done.
Qed.

(** The sizes that the code computes from an accepted header. *)
Lemma segment_sizes_ok h len : phdr_words h -> segment_ok h len ->
  exists k, let rd := if p_filesz h >? 0 then p_vaddr h mod 4096 + p_filesz h else 0 in
    segment_sizes h = (rd, 4096 * k - rd) /\ rd <= 4096 * k /\
    p_vaddr h mod 4096 + p_memsz h <= 4096 * k < p_vaddr h mod 4096 + p_memsz h + 4096 /\
    4096 * (p_vaddr h / 4096) + 4096 * k <= PHYS_BASE.
Proof.
  intros (W1 & W2 & W3 & W4) [O1 O2 O3 O4 O5]. unfold is_word in *. change PHYS_BASE with 3221225472 in *. set (o := p_vaddr h mod 4096).
  assert (0 <= o < 4096) by (subst o; apply Z.mod_pos_bound; lia). pose proof (Z.div_mod (p_vaddr h) 4096 ltac:(lia)) as Ed. fold o in Ed.
  set (k := (o + p_memsz h + 4095) / 4096). pose proof (Z.div_mod (o + p_memsz h + 4095) 4096 ltac:(lia)) as Ek. fold k in Ek.
  pose proof (Z.mod_pos_bound (o + p_memsz h + 4095) 4096 ltac:(lia)). exists k. cbn zeta.
  assert (round_page (u32 (o + p_memsz h)) = 4096 * k) as Er.
  { unfold round_page. change PGSIZE with 4096. rewrite !(wrapu_small 32 (o + p_memsz h)) by lia. rewrite (wrapu_small 32 (_ - 1)) by lia.
    replace (o + p_memsz h + 4096 - 1) with (o + p_memsz h + 4095) by lia. fold k. rewrite wrapu_small by lia. lia. }
  unfold segment_sizes. rewrite mask_mod. fold o. rewrite Er. split; [|split; [|split; [lia|]]].
  - rewrite Z.gtb_ltb. destruct (Z.ltb_spec 0 (p_filesz h)); [|f_equal; lia]. rewrite (wrapu_small 32 (o + _)) by lia. by rewrite wrapu_small by lia.
  - rewrite Z.gtb_ltb. destruct (Z.ltb_spec 0 (p_filesz h)); lia.
  - lia.
Qed.

Lemma mask_page x : 0 <= x < 2 ^ 32 -> Z.land x (u32 (Z.lnot PGMASK)) = 4096 * (x / 4096).
Proof. apply land_page. Qed.

Lemma segment_byte_header bs ofs o q i fsz : 0 <= fsz -> 0 <= i -> 0 <= o -> ofs = 4096 * q + o ->
  segment_byte bs (4096 * q) (if 0 <? fsz then o + fsz else 0) (o + i) = if i <? fsz then nth (Z.to_nat (ofs + i)) bs 0 else 0.
Proof.
  intros Hf Hi Ho ->. unfold segment_byte.
  destruct (Z.ltb_spec 0 fsz), (Z.ltb_spec i fsz); try lia; [rewrite (proj2 (Z.ltb_lt _ _)) by lia; f_equal; lia|by rewrite (proj2 (Z.ltb_ge _ _)) by lia..].
Qed.

Section load.
Context {F : Type} `{FileLaws F} (n : Z).

(** C9: Handling a [PT_LOAD] program header of a file of less than two gigabytes less a page
    always returns, and never touches user memory outside the pages of the segment or on a
    page that was mapped before.  When it reports success the header describes a segment
    inside user space and above page 0, none of its pages was mapped, and a user process sees
    exactly the [p_filesz] bytes of the file from [p_offset] at [p_vaddr], followed by zeros
    up to [p_memsz], and may write them if the header says so; a header that the checks reject
    changes nothing.  It fails only when the checks reject the header, a page of the segment is
    mapped already, the file is too short, or there is no free page left. *)
Theorem load_header_correct (t : task F) T file bs pos h :
  space_ok n (tvm t) (pagedir t) T -> holds (tfs t) file bs pos -> Z.of_nat (length bs) + 4096 < 2 ^ 31 -> phdr_words h ->
  let outside va := va / 4096 < p_vaddr h / 4096 \/ (p_vaddr h + p_memsz h - 1) / 4096 < va / 4096 in
  exists (ok : bool) t' T' pos', load_header n file h t = Ok (ok, t') /\ pagedir t' = pagedir t /\ executable t' = executable t /\
    space_ok n (tvm t') (pagedir t) T' /\ holds (tfs t') file bs pos' /\
    unchanged (fun va => outside va \/ Z.testbit (pte_of (tvm t) T va) 0 = true) (tvm t) T (tvm t') T' /\
    (~ segment_ok h (Z.of_nat (length bs)) -> ok = false /\ tvm t' = tvm t) /\
    (ok = false -> ~ segment_ok h (Z.of_nat (length bs)) \/
       (exists va, user_addr va /\ ~ outside va /\ Z.testbit (pte_of (tvm t) T va) 0 = true) \/
       0 < p_filesz h /\ Z.of_nat (length bs) < p_offset h + p_filesz h \/
       no_room (user_pool (vphys (tvm t'))) 1 \/ no_room (kernel_pool (vphys (tvm t'))) 1) /\
    (forall va, user_addr va -> ~ outside va -> Z.testbit (pte_of (tvm t) T va) 0 = true -> ok = false) /\
    (ok = true -> segment_ok h (Z.of_nat (length bs)) /\ (0 < p_filesz h -> p_offset h + p_filesz h <= Z.of_nat (length bs)) /\
       forall i, 0 <= i < p_memsz h ->
         user_byte (tvm t') T' (p_vaddr h + i) = Some (if i <? p_filesz h then nth (Z.to_nat (p_offset h + i)) bs 0 else 0) /\
         Z.testbit (pte_of (tvm t') T' (p_vaddr h + i)) 1 = negb (Z.land (p_flags h) PF_W =? 0)).
Proof.
  intros Hs Hh Hl Hw outside. unfold load_header. destruct (length_law _ _ _ _ Hh) as (f1 & E1 & Hh1). erewrite bind_eq; [|apply on_fs_run; exact E1].
  destruct (validate_segment h _) eqn:V; [|exists false; eexists _, T, pos].
  - apply validate_segment_ok in V; [|done|lia]. destruct (segment_sizes_ok h _ Hw V) as (k & Esz & Hrd & Hk & Hend). rewrite Esz. cbn zeta in *.
    pose proof Hw as (W1 & W2 & W3 & W4). unfold is_word in *. rewrite !mask_page by lia. pose proof V as [O1 O2 O3 O4 O5]. change PHYS_BASE with 3221225472 in *.
    pose proof (Z.div_mod (p_vaddr h) 4096 ltac:(lia)) as Ev. pose proof (Z.mod_pos_bound (p_vaddr h) 4096 ltac:(lia)) as Bv.
    pose proof (Z.div_mod (p_offset h) 4096 ltac:(lia)) as Eo. rewrite O2 in Eo.
    assert ((p_vaddr h + p_memsz h - 1) / 4096 = p_vaddr h / 4096 + k - 1) as Elast by (symmetry; apply (Z.div_unique _ _ _ (p_vaddr h + p_memsz h - 1 - 4096 * (p_vaddr h / 4096 + k - 1))); lia).
    rewrite wraps_small by lia. set (rd := if p_filesz h >? 0 then _ else _) in *.
    assert (0 <= rd) by (subst rd; case_match; lia). set (up := 4096 * (p_vaddr h / 4096)) in *.
    destruct (load_segment_run n (Build_task f1 (tvm t) (pagedir t) (executable t)) T file bs pos (4096 * (p_offset h / 4096)) up rd (4096 * k - rd)
      (negb (Z.land (p_flags h) PF_W =? 0)) k) as (ok & t' & T' & pos' & E & Ep & Ee & Hs' & Hun & Hh' & Hno & Hok); cbn [tfs tvm pagedir executable] in *; try done; try lia.
    1, 2: subst up; rewrite Z.mul_comm; apply Z_mod_mult.
    assert (forall va, outside va <-> other up k va) as Hout.
    { intros va. unfold outside, other. rewrite Elast. pose proof (Z.div_mod va 4096 ltac:(lia)). pose proof (Z.mod_pos_bound va 4096 ltac:(lia)). lia. }
    exists ok, t', T', pos'. do 3 (split; [done|]). split; [done|]. split; [done|]. split.
    { apply (unchanged_weaken _ _ _ _ _ _ Hun). intros va Hva [Hv|Hv]; [left; by apply Hout|by right]. }
    split; [done|]. split.
    { intros Ef. right. destruct (Hno Ef) as [Hm|[(va & Hva & Hm)|Hm]]; [by right; right|left|right; left].
      - exists va. rewrite Hout. unfold user_addr, other. change PHYS_BASE with 3221225472. split; [lia|]. split; [lia|done].
      - subst rd. rewrite Z.gtb_ltb in *. destruct (Z.ltb_spec 0 (p_filesz h)); lia. }
    split.
    { intros va Hva Hin Hb. destruct ok; [|done]. destruct (Hok eq_refl) as (_ & Hnm & _). rewrite Hout in Hin. rewrite Hnm in Hb; [done|]. unfold other in Hin. lia. }
    intros Ht. destruct (Hok Ht) as (Hend' & _ & Hbytes). split; [done|]. subst rd. rewrite Z.gtb_ltb in *. split; [intros Hf; destruct (Z.ltb_spec 0 (p_filesz h)); lia|].
    intros i Hi. replace (p_vaddr h + i) with (up + (p_vaddr h mod 4096 + i)) by lia. destruct (Hbytes (p_vaddr h mod 4096 + i)) as [-> Hwr]; [lia|]. split; [|done]. f_equal. apply segment_byte_header; lia.
  - cbn [tfs tvm pagedir executable]. split; [reflexivity|]. do 6 (split; [done|]). split; [|done]. intros _. left. intros Hok. apply validate_segment_ok in Hok; [congruence|done|lia].
Qed.

End load.

(** A segment of two pages, whose first bytes come from an open file of the sample volume, loaded into an empty address space. *)
Import Buffer BufferFacts BufferProps Inode InodeFacts InodeProps.
#[local] Instance sample_ops : FileOps (fs (Buffer.state Block.state)) :=
  fs_file_ops (H := demo_store) [].
#[local] Instance sample_laws : FileLaws (fs (Buffer.state Block.state)) :=
  fs_file_laws (HS := demo_store_laws) [].
Definition sample_phdr : Elf32_Phdr :=
  {| p_type := 1; p_offset := 0; p_vaddr := 134512640; p_filesz := 4; p_memsz := 5000; p_flags := 5 |}.
Lemma sample_holds : holds demo_fs 20 (zeros 4) 0.
Proof.
  pose proof demo_map_ok as M.
  exists {| file_inode := 10; pos := 0; deny_write := false |}, demo_map_inode, 1.
  split; [reflexivity|]. split; [reflexivity|]. split; [reflexivity|]. split; [apply demo_inv|].
  split; [apply (io_maps _ _ _ (InodeAlloc.mo_ok _ _ _ _ _ M))|]. split; [done|]. split; [done|]. split; [by vm_compute|]. repeat constructor; done.
Qed.
Lemma empty_space s pd : dir_ok s pd ∅ -> pd <> init_page_dir s -> space_ok (2 ^ 18) s pd ∅.
Proof.
  intros Hd Hne. split; [done|done| |].
  - intros va Hva. unfold pte_of. by rewrite lookup_empty.
  - pose proof (pool_end _ _ (phys_user _ (dir_phys _ _ _ Hd))). change PHYS_BASE with 3221225472. split; [lia|done].
Qed.

Lemma load_header_correct_witness : exists s pd (ok : bool) t', dir_ok s pd ∅ /\
  load_header (2 ^ 18) 20 sample_phdr (Build_task demo_fs s pd None) = Ok (ok, t') /\ pagedir t' = pd.
Proof.
  destruct sample_dir as (s & pd & Hd & Hni & _). exists s, pd.
  destruct (load_header_correct (2 ^ 18) (Build_task demo_fs s pd None) ∅ 20 (zeros 4) 0 sample_phdr) as (ok & t' & T' & pos' & E & Ep & _).
  - by apply empty_space.
  - exact sample_holds.
  - done.
  - split_and!; split; done.
  - exists ok, t'. split; [exact Hd|]. split; [exact E|exact Ep].
Defined.

End LoaderProps.
