(* ===== verification/Fsutil.v ===== *)
(** * filesys/fsutil.c: the file system utilities of the kernel command line

    The commands work on the file system and on the scratch device, which they use through
    [FileOps], its extension [FileUtil] and [SectorDevice].  The state holds both, the two
    static positions on the scratch device and the lines that were printed.  A file name is the
    sequence of its characters; the file system gets it with its terminator. *)

From stdpp Require Import strings.
From S2P Require Import Prelude Bytes CString VAddr Stdio StdioFacts Ustar UstarProps Block Loader LoaderFacts BufferFacts Inode Directory Filesys LoaderProps.
Import Bytes VAddr Stdio StdioFacts Ustar Block Loader.

Module Fsutil.

(** The other functions of the file system that the utilities call; [readdir] returns a name
    with its terminator. *)
Class FileUtil (F : Type) := {
  create_file : list Z -> Z -> M F bool;
  remove_file : list Z -> M F bool;
  write_file : Z -> list Z -> M F Z;
  tell_file : Z -> M F Z;
  close_file : Z -> M F unit;
  open_root : M F (option Z);
  readdir : Z -> M F (option (list Z)) }.
Class SizedDevice (D : Type) := { sd_block_size : nat -> M D Z }.

Section utilities.
Context {F D : Type} `{FileOps F} `{FileUtil F} `{SectorDevice D} `{SizedDevice D}.
(** What [block_get_role (BLOCK_SCRATCH)] gives, whether [malloc] has memory, and the byte in
    memory behind the buffer of [fsutil_append]. *)
Context (scratch : option nat) (memory : bool) (behind : Z).

Record util := { ufs : F; udev : D; extract_at : Z; append_at : Z; console : list (list Z) }.
Definition with_ufs (f : F) (u : util) : util :=
  {| ufs := f; udev := udev u; extract_at := extract_at u; append_at := append_at u; console := console u |}.
Definition with_udev (d : D) (u : util) : util :=
  {| ufs := ufs u; udev := d; extract_at := extract_at u; append_at := append_at u; console := console u |}.
Definition with_extract (n : Z) (u : util) : util :=
  {| ufs := ufs u; udev := udev u; extract_at := n; append_at := append_at u; console := console u |}.
Definition with_append (n : Z) (u : util) : util :=
  {| ufs := ufs u; udev := udev u; extract_at := extract_at u; append_at := n; console := console u |}.
Definition print (line : list Z) : M util unit :=
  modify (fun u => {| ufs := ufs u; udev := udev u; extract_at := extract_at u; append_at := append_at u; console := console u ++ [line] |}).
Definition on_fs {A} (c : M F A) : M util A := fun u =>
  match c (ufs u) with Ok (a, f) => Ok (a, with_ufs f u) | Err e => Err e end.
Definition on_dev {A} (c : M D A) : M util A := fun u =>
  match c (udev u) with Ok (a, d) => Ok (a, with_udev d u) | Err e => Err e end.
(** A [PANIC] on a null pointer. *)
Definition need {A} (o : option A) : M util A := match o with Some a => ret a | None => fail KernelPanic end.
Definition panic_unless (b : bool) : M util unit := if b then ret tt else fail KernelPanic.

(** ** Listing, removing *)

Fixpoint ls_loop (fuel : nat) (dir : Z) : M util unit :=
  match fuel with
  | O => fail OutOfFuel
  | S fuel =>
      let! name := on_fs (readdir dir) in
      match name with Some name => do! print (cstring name); ls_loop fuel dir | None => ret tt end
  end.
Definition fsutil_ls (fuel : nat) : M util unit :=
  do! print (chars "Files in the root directory:"%string);
  let! dir := on_fs open_root in
  let! dir := need dir in
  do! ls_loop fuel dir;
  print (chars "End of listing."%string).
(** The lines that [hex_dump] prints. *)
Definition dump (pos : Z) (bs : list Z) : M util unit :=
  let! text := lift (rbind (hex_dump (@with_log) HexDump.say pos bs true (∅, [])) (fun '(_, (_, text)) => Ok text)) in
  print text.
Fixpoint cat_loop (fuel : nat) (file : Z) : M util unit :=
  match fuel with
  | O => fail OutOfFuel
  | S fuel =>
      let! pos := on_fs (tell_file file) in
      let! bs := on_fs (read_file file PGSIZE) in
      match bs with [] => ret tt | _ => do! dump pos bs; cat_loop fuel file end
  end.
Definition fsutil_cat (fuel : nat) (file_name : list Z) : M util unit :=
  do! print (chars "Printing '"%string ++ file_name ++ chars "' to the console..."%string);
  let! file := on_fs (open_file (file_name ++ [0])) in
  let! file := need file in
  do! panic_unless memory;
  do! cat_loop fuel file;
  on_fs (close_file file).
Definition fsutil_rm (file_name : list Z) : M util unit :=
  do! print (chars "Deleting '"%string ++ file_name ++ chars "'..."%string);
  let! ok := on_fs (remove_file (file_name ++ [0])) in
  panic_unless ok.

(** ** Unpacking an archive *)

(** [block_read (src, sector++, ...)] *)
Definition read_next (src : nat) : M util (list Z) :=
  let! sector := gets extract_at in
  do! modify (with_extract (u32 (sector + 1)));
  on_dev (sd_read src sector).
Definition chunk_size (size : Z) : Z := if size >? 512 then 512 else size.
Fixpoint copy_out (fuel : nat) (src : nat) (dst size : Z) : M util unit :=
  if size >? 0 then
    match fuel with
    | O => fail OutOfFuel
    | S fuel =>
        let! data := read_next src in
        let! n := on_fs (write_file dst (sub_bytes 0 (chunk_size size) data)) in
        do! panic_unless (n =? chunk_size size);
        copy_out fuel src dst (size - chunk_size size)
    end
  else ret tt.
Definition sectors_of (size : Z) : nat := Z.to_nat ((size + 511) / 512).
Definition extract_file (src : nat) (file_name : list Z) (size : Z) : M util unit :=
  let! ok := on_fs (create_file (file_name ++ [0]) size) in
  do! panic_unless ok;
  let! dst := on_fs (open_file (file_name ++ [0])) in
  let! dst := need dst in
  do! copy_out (sectors_of size) src dst size;
  on_fs (close_file dst).
Fixpoint extract_loop (fuel : nat) (src : nat) : M util unit :=
  match fuel with
  | O => fail OutOfFuel
  | S fuel =>
      let! header := read_next src in
      match ustar_parse_header header with
      | inl error => fail KernelPanic
      | inr (file_name, type, size) =>
          let file_name := default [] file_name in
          if type =? USTAR_EOF then ret tt
          else
            do! (if type =? USTAR_DIRECTORY then print (chars "ignoring directory "%string ++ file_name)
                 else if type =? USTAR_REGULAR then extract_file src file_name size
                 else ret tt);
            extract_loop fuel src
      end
  end.
Definition fsutil_extract (fuel : nat) : M util unit :=
  do! panic_unless memory;
  let! src := need scratch in
  do! print (chars "Extracting ustar archive from scratch device into file system..."%string);
  do! extract_loop fuel src;
  do! print (chars "Erasing ustar archive..."%string);
  do! on_dev (sd_write src 0 (zeros 512));
  on_dev (sd_write src 1 (zeros 512)).

(** ** Appending to an archive *)

(** [block_write (dst, sector++, ...)] *)
Definition write_next (dst : nat) (buffer : list Z) : M util unit :=
  let! sector := gets append_at in
  do! modify (with_append (u32 (sector + 1)));
  on_dev (sd_write dst sector buffer).
Fixpoint copy_in (fuel : nat) (dst : nat) (src size : Z) : M util unit :=
  if size >? 0 then
    match fuel with
    | O => fail OutOfFuel
    | S fuel =>
        let! sector := gets append_at in
        let! n := on_dev (sd_block_size dst) in
        do! panic_unless (negb (sector >=? n));
        let! bs := on_fs (read_file src (chunk_size size)) in
        do! panic_unless (Z.of_nat (length bs) =? chunk_size size);
        do! write_next dst (bs ++ zeros (512 - chunk_size size));
        copy_in fuel dst src (size - chunk_size size)
    end
  else ret tt.
Definition fsutil_append (file_name : list Z) : M util unit :=
  do! print (chars "Appending '"%string ++ file_name ++ chars "' to ustar archive on scratch device..."%string);
  do! panic_unless memory;
  let! src := on_fs (open_file (file_name ++ [0])) in
  let! src := need src in
  let! size := on_fs (length_file src) in
  let! dst := need scratch in
  let! made := lift (ustar_make_header file_name USTAR_REGULAR size) in
  match made with
  | inl _ => fail KernelPanic
  | inr buffer =>
      do! write_next dst buffer;
      do! copy_in (sectors_of size) dst src size;
      let! sector := gets append_at in
      do! on_dev (sd_write dst sector (zeros 512));
      do! on_dev (sd_write dst sector (drop 1 (zeros 512) ++ [behind]));
      on_fs (close_file src)
  end.

End utilities.
Arguments util : clear implicits.

End Fsutil.

(** * What the utilities do to archives and files *)

Module FsutilProps.
Import Fsutil UstarProps LoaderFacts.

Implicit Types bs : list Z.

(** ** Archives *)

(** Sector [i] of the contents of a file. *)
Definition data_sector (bs : list Z) (i : Z) : list Z :=
  let c := sub_bytes (512 * i) 512 bs in c ++ zeros (512 - Z.of_nat (length c)).
Definition sectors (bs : list Z) : Z := (Z.of_nat (length bs) + 511) / 512.

Lemma sectors_pos bs : bs <> [] -> 0 < sectors bs /\ sectors bs = sectors (drop 512 bs) + 1.
Proof.
  intros Hne. unfold sectors. rewrite length_drop. assert (0 < length bs)%nat by (destruct bs; [done|cbn; lia]). split.
  - apply Z.div_str_pos. lia.
  - destruct (decide (length bs <= 512)%nat).
    + replace (length bs - 512)%nat with 0%nat by lia. change ((Z.of_nat 0 + 511) / 512) with 0. symmetry. apply (Z.div_unique _ _ _ (Z.of_nat (length bs) - 1)); lia.
    + rewrite <- Z.div_add by lia. f_equal. lia.
Qed.
Lemma sectors_nonneg bs : 0 <= sectors bs.
Proof. apply Z.div_pos; lia. Qed.
Lemma sectors_of_length bs : sectors_of (Z.of_nat (length bs)) = Z.to_nat (sectors bs).
Proof. done. Qed.
Lemma data_sector_drop bs i : 0 <= i -> data_sector (drop 512 bs) i = data_sector bs (i + 1).
Proof.
  intros Hi. unfold data_sector. assert (sub_bytes (512 * i) 512 (drop 512 bs) = sub_bytes (512 * (i + 1)) 512 bs) as ->; [|done].
  unfold sub_bytes. rewrite drop_drop. do 2 f_equal. lia.
Qed.
Lemma data_sector_wf bs i : 0 <= i -> Forall is_byte bs -> length (data_sector bs i) = 512%nat /\ Forall is_byte (data_sector bs i).
Proof.
  intros Hi Hb. unfold data_sector. assert (Z.of_nat (length (sub_bytes (512 * i) 512 bs)) <= 512) by (apply LoaderRun.sub_bytes_le; lia). split.
  - rewrite length_app, zeros_length. lia.
  - apply Forall_app. split; [by apply Forall_sub_bytes|apply zeros_bytes].
Qed.
Lemma chunk_length bs : chunk_size (Z.of_nat (length bs)) = Z.of_nat (length (take 512 bs)).
Proof. unfold chunk_size. rewrite length_take. destruct (Z.gtb_spec (Z.of_nat (length bs)) 512); lia. Qed.
Lemma first_chunk bs : sub_bytes 0 (chunk_size (Z.of_nat (length bs))) (data_sector bs 0) = take 512 bs.
Proof.
  rewrite chunk_length. unfold data_sector, sub_bytes. change (Z.to_nat (512 * 0)) with 0%nat. change (Z.to_nat 0) with 0%nat. rewrite !drop_0, Nat2Z.id. apply take_app_length.
Qed.
Lemma rest_length bs : Z.of_nat (length bs) - chunk_size (Z.of_nat (length bs)) = Z.of_nat (length (drop 512 bs)).
Proof. rewrite chunk_length, length_take, length_drop. lia. Qed.

(** The next piece of [bs] when [p] bytes have been copied, and what is left after it. *)
Lemma sub_chunk bs p : 0 <= p -> let r := drop (Z.to_nat p) bs in sub_bytes p (chunk_size (Z.of_nat (length r))) bs = take 512 r.
Proof.
  intros Hp r. unfold sub_bytes. fold r. rewrite chunk_length, Nat2Z.id, length_take. destruct (decide (512 <= length r)%nat).
  - by rewrite Nat.min_l by lia.
  - rewrite Nat.min_r by lia. by rewrite !take_ge by lia.
Qed.
Lemma drop_chunk bs p : 0 <= p -> let r := drop (Z.to_nat p) bs in drop (Z.to_nat (p + Z.of_nat (length (take 512 r)))) bs = drop 512 r.
Proof.
  intros Hp r. unfold r. rewrite drop_drop. destruct (decide (512 <= length (drop (Z.to_nat p) bs))%nat); rewrite length_take.
  - f_equal. lia.
  - rewrite !drop_ge by (rewrite ?length_drop in *; lia). done.
Qed.

(** ** Unpacking a file, by its name and contents *)

Section unpack.
Context {F : Type} `{FileOps F} `{FileUtil F}.
Definition or_panic {A} (o : option A) : M F A := match o with Some a => ret a | None => fail KernelPanic end.
(** Written in pieces of a sector, each of which has to be written completely. *)
Fixpoint put_chunks (n : nat) (dst : Z) (bs : list Z) : M F unit :=
  match n with
  | O => ret tt
  | S n =>
      let! w := write_file dst (take 512 bs) in
      if w =? Z.of_nat (length (take 512 bs)) then put_chunks n dst (drop 512 bs) else fail KernelPanic
  end.
Definition unpack (name bs : list Z) : M F unit :=
  let! ok := create_file (name ++ [0]) (Z.of_nat (length bs)) in
  if negb ok then fail KernelPanic else
  let! dst := open_file (name ++ [0]) in
  let! dst := or_panic dst in
  do! put_chunks (Z.to_nat (sectors bs)) dst bs;
  close_file dst.
Fixpoint unpack_all (entries : list (list Z * list Z)) : M F unit :=
  match entries with [] => ret tt | (name, bs) :: entries => do! unpack name bs; unpack_all entries end.
End unpack.

Class SizedDeviceLaws (D : Type) `{SectorDevice D, SizedDevice D} (blk : nat) `{!SectorDeviceLaws D blk} := {
  sd_block_size_ok d : sd_inv d -> sd_block_size blk d = Ok (sd_size d, d) }.

Section archives.
Context {F D : Type} `{FileOps F} `{FileUtil F} `{HD : SectorDeviceLaws D blk} `{SizedDevice D}.
Implicit Types (u : util F D) (d : D).

(** The file is archived from sector [k] on. *)
Definition archived d (k : Z) (name bs : list Z) : Prop :=
  ustar_parse_header (sd_at d k) = inr (Some name, USTAR_REGULAR, Z.of_nat (length bs)) /\
  forall i, 0 <= i < sectors bs -> sd_at d (k + 1 + i) = data_sector bs i.
Fixpoint archive d (k : Z) (entries : list (list Z * list Z)) : Prop :=
  match entries with [] => True | (name, bs) :: entries => archived d k name bs /\ archive d (k + 1 + sectors bs) entries end.
Fixpoint archive_end (k : Z) (entries : list (list Z * list Z)) : Z :=
  match entries with [] => k | (_, bs) :: entries => archive_end (k + 1 + sectors bs) entries end.
Lemma archive_end_le entries : forall k, k <= archive_end k entries.
Proof. induction entries as [|[name bs] l IH]; intros k; cbn; [lia|]. pose proof (IH (k + 1 + sectors bs)). pose proof (sectors_nonneg bs). lia. Qed.

Definition same_disk d d' : Prop := sd_inv d' /\ sd_size d' = sd_size d /\ forall sec, sd_at d' sec = sd_at d sec.
Lemma same_disk_trans d1 d2 d3 : same_disk d1 d2 -> same_disk d2 d3 -> same_disk d1 d3.
Proof. intros (_ & S1 & A1) (I & S2 & A2). split; [done|]. split; [congruence|]. intros sec. by rewrite A2. Qed.
Lemma same_disk_refl d : sd_inv d -> same_disk d d.
Proof. done. Qed.

Lemma archived_same d d' k name bs : (forall sec, sd_at d' sec = sd_at d sec) -> archived d k name bs -> archived d' k name bs.
Proof. intros E [Hh Hd]. split; [by rewrite E|]. intros i Hi. rewrite E. by apply Hd. Qed.
Lemma archive_same d d' entries : (forall sec, sd_at d' sec = sd_at d sec) -> forall k, archive d k entries -> archive d' k entries.
Proof.
  intros E. induction entries as [|[name bs] l IH]; intros k; cbn; [done|]. intros [Ha Hl]. split; [by apply (archived_same d)|by apply IH].
Qed.

Lemma read_next_run u : sd_inv (udev u) -> 0 <= extract_at u < sd_size (udev u) ->
  exists d', read_next blk u = Ok (sd_at (udev u) (extract_at u), with_udev d' (with_extract (extract_at u + 1) u)) /\ same_disk (udev u) d'.
Proof.
  intros Hi Hk. pose proof (sd_size_range _ Hi). destruct (sd_read_ok (udev u) (extract_at u) Hi Hk) as (d' & R & I & S & A).
  exists d'. split; [|done]. unfold read_next. rewrite (bind_eq _ _ _ _ _ eq_refl), (bind_eq _ _ _ _ _ eq_refl).
  rewrite wrapu_small by lia. unfold on_dev. cbn [udev with_extract]. by rewrite R.
Qed.

(** A run on the file system alone, with the state of the device after it. *)
Definition then_disk (r : res (unit * F)) (d : D) (k : Z) u : res (unit * util F D) :=
  match r with
  | Ok (_, f) => Ok (tt, {| ufs := f; udev := d; extract_at := k; append_at := append_at u; console := console u |})
  | Err e => Err e
  end.

Lemma util_copy_out_run n : forall bs dst u, n = Z.to_nat (sectors bs) -> sd_inv (udev u) -> 0 <= extract_at u ->
  extract_at u + sectors bs <= sd_size (udev u) -> (forall i, 0 <= i < sectors bs -> sd_at (udev u) (extract_at u + i) = data_sector bs i) ->
  exists d', same_disk (udev u) d' /\
    copy_out n blk dst (Z.of_nat (length bs)) u = then_disk (put_chunks n dst bs (ufs u)) d' (extract_at u + sectors bs) u.
Proof.
  induction n as [|n IH]; intros bs dst u En Hi Hk Hsz Hd; pose proof (sectors_nonneg bs) as Hnn.
  - exists (udev u). split; [by apply same_disk_refl|]. destruct (decide (bs = [])) as [->|Hne]; [|pose proof (sectors_pos bs Hne); lia].
    cbn. destruct u. cbn. unfold ret. change (sectors []) with 0. by rewrite Z.add_0_r.
  - assert (bs <> []) as Hne by (intros ->; done). destruct (sectors_pos bs Hne) as [Hp Es].
    assert (0 < Z.of_nat (length bs)) by (destruct bs; [done|cbn; lia]). cbn [copy_out put_chunks].
    rewrite (proj2 (Z.gtb_lt _ 0)) by lia. destruct (read_next_run u Hi ltac:(lia)) as (d1 & R & Hsame). pose proof Hsame as (I1 & S1 & A1).
    erewrite bind_eq; [|exact R]. pose proof (Hd 0 ltac:(lia)) as Hz. rewrite Z.add_0_r in Hz. rewrite Hz, first_chunk, chunk_length. unfold bind, on_fs. cbn [ufs with_udev with_extract].
    destruct (write_file dst (take 512 bs) (ufs u)) as [[w f1]|e]; [|by exists d1].
    destruct (w =? Z.of_nat (length (take 512 bs))); [|by exists d1]. cbn [panic_unless ret]. rewrite <- chunk_length, rest_length.
    destruct (IH (drop 512 bs) dst (with_ufs f1 (with_udev d1 (with_extract (extract_at u + 1) u)))) as (d2 & Hs2 & E2); cbn [udev extract_at ufs with_ufs with_udev with_extract].
    + lia.
    + done.
    + lia.
    + lia.
    + intros i Hi'. rewrite A1, data_sector_drop by lia. replace (extract_at u + 1 + i) with (extract_at u + (i + 1)) by lia. apply Hd. lia.
    + exists d2. split; [by apply (same_disk_trans _ d1)|]. cbn in E2. unfold ret. rewrite E2.
      replace (extract_at u + 1 + sectors (drop 512 bs)) with (extract_at u + sectors bs) by lia. done.
Qed.

Lemma extract_file_run name bs u : sd_inv (udev u) -> 0 <= extract_at u ->
  extract_at u + sectors bs <= sd_size (udev u) -> (forall i, 0 <= i < sectors bs -> sd_at (udev u) (extract_at u + i) = data_sector bs i) ->
  exists d', same_disk (udev u) d' /\
    extract_file blk name (Z.of_nat (length bs)) u = then_disk (unpack name bs (ufs u)) d' (extract_at u + sectors bs) u.
Proof.
  intros Hi Hk Hsz Hd. unfold extract_file, unpack, bind, on_fs.
  destruct (create_file _ _ (ufs u)) as [[[] f1]|e]; [|by exists (udev u)..]. cbn [panic_unless ret ufs with_ufs negb].
  destruct (open_file _ f1) as [[[dst|] f2]|e]; [|by exists (udev u)..]. cbn [need or_panic ret with_ufs].
  destruct (util_copy_out_run (Z.to_nat (sectors bs)) bs dst (with_ufs f2 (with_ufs f1 u))) as (d2 & Hs & E); [done..|]. exists d2. split; [done|].
  unfold ret. rewrite sectors_of_length. unfold with_ufs in *. cbn [ufs udev extract_at append_at console] in *. rewrite E. destruct (put_chunks _ dst bs f2) as [[[] f3]|e]; [|done]. cbn. by destruct (close_file dst f3) as [[[] f4]|e].
Qed.

(** The sector after the entries decides whether the archive ends there. *)
Lemma extract_loop_run entries : forall fuel u (good : bool), (length entries < fuel)%nat -> sd_inv (udev u) -> 0 <= extract_at u ->
  archive (udev u) (extract_at u) entries -> archive_end (extract_at u) entries < sd_size (udev u) ->
  (if good then sd_at (udev u) (archive_end (extract_at u) entries) = zeros 512
   else exists e, ustar_parse_header (sd_at (udev u) (archive_end (extract_at u) entries)) = inl e) ->
  exists d', same_disk (udev u) d' /\
    extract_loop fuel blk u =
      match unpack_all entries (ufs u) with
      | Ok r => if good then then_disk (Ok r) d' (archive_end (extract_at u) entries + 1) u else Err KernelPanic
      | Err e => Err e
      end.
Proof.
  induction entries as [|[name bs] l IH]; intros [|fuel] u good Hf Hi Hk Ha He Hg; try (cbn in Hf; lia); cbn [extract_loop unpack_all archive archive_end length] in *.
  - destruct (read_next_run u Hi ltac:(lia)) as (d1 & R & Hs). exists d1. split; [done|]. erewrite bind_eq; [|exact R]. destruct good; [by rewrite Hg|]. by destruct Hg as [e ->].
  - pose proof (sectors_nonneg bs). pose proof (archive_end_le l (extract_at u + 1 + sectors bs)). destruct Ha as [[Hh Hd] Hl].
    destruct (read_next_run u Hi ltac:(lia)) as (d1 & R & Hs). pose proof Hs as (I1 & S1 & A1). erewrite bind_eq; [|exact R]. rewrite Hh.
    change (USTAR_REGULAR =? USTAR_EOF) with false. change (USTAR_REGULAR =? USTAR_DIRECTORY) with false. change (USTAR_REGULAR =? USTAR_REGULAR) with true. cbn [default].
    destruct (extract_file_run name bs (with_udev d1 (with_extract (extract_at u + 1) u))) as (d2 & Hs2 & E2); cbn [udev extract_at ufs with_udev with_extract] in *.
    + done.
    + lia.
    + lia.
    + intros i Hi'. rewrite A1. by apply Hd.
    + unfold bind. cbn [id]. rewrite E2. destruct (unpack name bs (ufs u)) as [[[] f2]|e]; [|by exists d1]. cbn [then_disk].
      pose proof Hs2 as (I2 & S2 & A2). assert (forall sec, sd_at d2 sec = sd_at (udev u) sec) as A by (intros sec; by rewrite A2).
      match goal with |- context [extract_loop fuel blk ?v] => destruct (IH fuel v good) as (d3 & Hs3 & E3) end; cbn [udev extract_at ufs append_at console] in *.
      * lia.
      * done.
      * lia.
      * by apply (archive_same (udev u)).
      * lia.
      * by rewrite A.
      * exists d3. split; [apply (same_disk_trans _ d1); [done|]; by apply (same_disk_trans _ d2)|]. exact E3.
Qed.

(** ** Erasing *)

Definition two_zeros (d : D) (sec : Z) : list Z := if (sec =? 0) || (sec =? 1) then zeros 512 else sd_at d sec.
Lemma write_zeros_run u sec : sd_inv (udev u) -> 0 <= sec < sd_size (udev u) ->
  exists d', on_dev (sd_write blk sec (zeros 512)) u = Ok (tt, with_udev d' u) /\ sd_inv d' /\ sd_size d' = sd_size (udev u) /\
    forall s, sd_at d' s = if s =? sec then zeros 512 else sd_at (udev u) s.
Proof.
  intros Hi Hs. destruct (sd_write_ok (udev u) sec (zeros 512) Hi Hs (zeros_length 512) (zeros_bytes 512)) as (d' & R & I & S & A).
  exists d'. split; [|done]. unfold on_dev. by rewrite R.
Qed.

Lemma fsutil_extract_run fuel entries u (good : bool) : (length entries < fuel)%nat -> sd_inv (udev u) -> 0 <= extract_at u -> 1 < sd_size (udev u) ->
  archive (udev u) (extract_at u) entries -> archive_end (extract_at u) entries < sd_size (udev u) ->
  (if good then sd_at (udev u) (archive_end (extract_at u) entries) = zeros 512
   else exists e, ustar_parse_header (sd_at (udev u) (archive_end (extract_at u) entries)) = inl e) ->
  match unpack_all entries (ufs u) with
  | Ok (_, f) =>
      if good then
        exists u', fsutil_extract (Some blk) true fuel u = Ok (tt, u') /\ ufs u' = f /\ extract_at u' = archive_end (extract_at u) entries + 1 /\
          append_at u' = append_at u /\ sd_inv (udev u') /\ sd_size (udev u') = sd_size (udev u) /\ forall sec, sd_at (udev u') sec = two_zeros (udev u) sec
      else fsutil_extract (Some blk) true fuel u = Err KernelPanic
  | Err e => fsutil_extract (Some blk) true fuel u = Err e
  end.
Proof.
  intros Hf Hi Hk Hsz Ha He Hg. unfold fsutil_extract. rewrite 3!(bind_eq _ _ _ _ _ eq_refl).
  match goal with |- context [bind (extract_loop _ _) _ ?v] => destruct (extract_loop_run entries fuel v good Hf Hi Hk Ha He Hg) as (d1 & (I1 & S1 & A1) & E) end.
  cbn [ufs] in E. destruct (unpack_all entries (ufs u)) as [[[] f]|e].
  - destruct good; [|by apply bind_err]. erewrite bind_eq; [|exact E]. rewrite (bind_eq _ _ _ _ _ eq_refl). cbn [udev] in *.
    match goal with |- context [bind (on_dev _) _ ?v] => destruct (write_zeros_run v 0) as (d2 & R2 & I2 & S2 & A2) end; cbn [udev] in *; [done|lia|].
    erewrite bind_eq; [|exact R2].
    match goal with |- context [on_dev _ ?v] => destruct (write_zeros_run v 1) as (d3 & R3 & I3 & S3 & A3) end; cbn [udev with_udev] in *; [done|lia|].
    rewrite R3. eexists. split; [reflexivity|]. cbn. do 3 (split; [done|]). split; [done|]. split; [lia|]. intros sec. rewrite A3, A2, A1. unfold two_zeros.
    by destruct (Z.eqb_spec sec 0), (Z.eqb_spec sec 1).
  - by apply bind_err.
Qed.
End archives.

(** ** Writing an archive *)

Section append.
Context {F D : Type} `{HF : FileLaws F} `{FileUtil F} `{HD : SectorDeviceLaws D blk} `{SizedDevice D} `{!SizedDeviceLaws D blk}.
Implicit Types (u : util F D) (d : D).

(** The sectors from [k] on hold [secs], the others are as before. *)
Definition wrote_secs d d' (k n : Z) (secs : Z -> list Z) : Prop :=
  sd_inv d' /\ sd_size d' = sd_size d /\ forall s, sd_at d' s = if (k <=? s) && (s <? k + n) then secs (s - k) else sd_at d s.

Lemma write_next_run u data : sd_inv (udev u) -> 0 <= append_at u < sd_size (udev u) -> length data = 512%nat -> Forall is_byte data ->
  exists d', write_next blk data u = Ok (tt, with_udev d' (with_append (append_at u + 1) u)) /\ sd_inv d' /\ sd_size d' = sd_size (udev u) /\
    forall s, sd_at d' s = if s =? append_at u then data else sd_at (udev u) s.
Proof.
  intros Hi Hk Hl Hb. pose proof (sd_size_range _ Hi). destruct (sd_write_ok (udev u) (append_at u) data Hi Hk Hl Hb) as (d' & R & I & S & A).
  exists d'. split; [|done]. unfold write_next. rewrite 2!(bind_eq _ _ _ _ _ eq_refl). rewrite wrapu_small by lia. unfold on_dev. cbn [udev with_append]. by rewrite R.
Qed.

Lemma util_copy_in_run n : forall f bs p u, holds (ufs u) f bs p -> 0 <= p <= Z.of_nat (length bs) -> n = Z.to_nat (sectors (drop (Z.to_nat p) bs)) ->
  sd_inv (udev u) -> 0 <= append_at u -> append_at u + sectors (drop (Z.to_nat p) bs) <= sd_size (udev u) ->
  exists s' d', copy_in n blk f (Z.of_nat (length bs) - p) u =
      Ok (tt, with_ufs s' (with_udev d' (with_append (append_at u + sectors (drop (Z.to_nat p) bs)) u))) /\
    holds s' f bs (Z.of_nat (length bs)) /\ wrote_secs (udev u) d' (append_at u) (sectors (drop (Z.to_nat p) bs)) (data_sector (drop (Z.to_nat p) bs)).
Proof.
  induction n as [|n IH]; intros f bs p u Hh Hp En Hi Hk Hsz; set (r := drop (Z.to_nat p) bs) in *; pose proof (sectors_nonneg r) as Hnn.
  - exists (ufs u), (udev u). destruct (decide (r = [])) as [E|Hne]; [|pose proof (sectors_pos r Hne); lia].
    assert (p = Z.of_nat (length bs)) as Ep by (pose proof (length_drop bs (Z.to_nat p)) as L; fold r in L; rewrite E in L; cbn in L; lia).
    rewrite E. change (sectors []) with 0. rewrite Z.add_0_r. cbn [copy_in]. split; [|split].
    + destruct (Z.gtb_spec (Z.of_nat (length bs) - p) 0); [lia|]. by destruct u.
    + by rewrite <- Ep.
    + split; [done|]. split; [done|]. intros s. destruct (Z.leb_spec (append_at u) s), (Z.ltb_spec s (append_at u + 0)); done || lia.
  - assert (r <> []) as Hne by (intros E; rewrite E in En; done). destruct (sectors_pos r Hne) as [Hpos Es].
    assert (Z.of_nat (length bs) - p = Z.of_nat (length r)) as El by (unfold r; rewrite length_drop; lia).
    assert (0 < Z.of_nat (length r)) by (destruct r; [done|cbn; lia]). cbn [copy_in]. rewrite El, (proj2 (Z.gtb_lt _ 0)) by lia.
    rewrite (bind_eq _ _ _ _ _ eq_refl). erewrite bind_eq; [|unfold on_dev; rewrite sd_block_size_ok by done; reflexivity].
    erewrite bind_eq; [|rewrite Z.geb_leb, (proj2 (Z.leb_gt _ _)) by lia; reflexivity].
    pose proof (holds_bytes _ _ _ _ Hh) as [Hb Hlt]. pose proof (chunk_length r) as Ec. pose proof (length_take r 512) as Et.
    destruct (read_law (ufs u) f bs p (chunk_size (Z.of_nat (length r))) Hh) as (s1 & R1 & Hh1); [lia|lia|lia|].
    pose proof (sub_chunk bs p (proj1 Hp)) as Esub. cbv zeta in Esub. fold r in Esub. rewrite Esub in *. erewrite bind_eq; [|unfold on_fs; cbn [ufs with_udev]; rewrite R1; reflexivity].
    erewrite bind_eq; [|rewrite Ec, Z.eqb_refl; reflexivity].
    assert (take 512 r ++ zeros (512 - chunk_size (Z.of_nat (length r))) = data_sector r 0) as Ed by (rewrite Ec; done).
    rewrite Ed. destruct (data_sector_wf r 0) as [W1 W2]; [lia|by apply Forall_drop|].
    match goal with |- context [bind (write_next _ _) _ ?v] => destruct (write_next_run v (data_sector r 0)) as (d2 & R2 & I2 & S2 & A2) end; cbn [udev ufs append_at with_ufs with_udev] in *; [done|lia|done|done|].
    erewrite bind_eq; [|exact R2]. rewrite rest_length.
    pose proof (drop_chunk bs p (proj1 Hp)) as Edr. cbv zeta in Edr. fold r in Edr.
    match goal with |- context [copy_in n blk f _ ?v] => destruct (IH f bs (p + Z.of_nat (length (take 512 r))) v) as (s3 & d3 & E3 & Hh3 & I3 & S3 & A3) end; rewrite ?Edr in *; cbn [udev ufs append_at with_ufs with_udev with_append] in *; [done|unfold r in *; rewrite length_drop in *; lia|lia|done|lia|lia|].
    exists s3, d3. split; [|split; [done|]].
    + replace (Z.of_nat (length (drop 512 r))) with (Z.of_nat (length bs) - (p + Z.of_nat (length (take 512 r)))) by (rewrite <- rest_length; lia).
      rewrite E3. unfold with_ufs, with_udev, with_append. cbn. do 3 f_equal. lia.
    + split; [done|]. split; [lia|]. intros s. rewrite A3, A2.
      destruct (Z.leb_spec (append_at u + 1) s), (Z.ltb_spec s (append_at u + 1 + sectors (drop 512 r))), (Z.leb_spec (append_at u) s), (Z.ltb_spec s (append_at u + sectors r)), (Z.eqb_spec s (append_at u)); cbn [andb]; try lia; try done.
      * rewrite data_sector_drop by lia. f_equal. lia.
      * subst s. by rewrite Z.sub_diag.
Qed.

(** The last sector that [fsutil_append] writes. *)
Definition marker (behind : Z) : list Z := drop 1 (zeros 512) ++ [behind].
Lemma marker_wf behind : is_byte behind -> length (marker behind) = 512%nat /\ Forall is_byte (marker behind).
Proof. intros Hb. split; [done|]. apply Forall_app. split; [apply Forall_drop, zeros_bytes|by apply Forall_singleton]. Qed.
Lemma marker_zero : marker 0 = zeros 512.
Proof. done. Qed.
Lemma all_zeros_last n b : is_all_zeros (replicate n 0 ++ [b]) = (b =? 0).
Proof. induction n as [|n IH]; cbn; [by destruct (b =? 0)|done]. Qed.
Lemma marker_parse behind : behind <> 0 -> ustar_parse_header (marker behind) = inl NotUstar.
Proof.
  intros Hb. unfold ustar_parse_header. assert (is_all_zeros (marker behind) = false) as ->.
  { change (marker behind) with (replicate 511 0 ++ [behind]). rewrite all_zeros_last. by apply Z.eqb_neq. }
  by rewrite (bool_decide_eq_false_2 (magic _ = _)) by (vm_compute; discriminate).
Qed.

(** [fsutil_append] up to the call of [file_close]. *)
Lemma fsutil_append_run behind name f bs s1 u : is_byte behind -> Forall (fun c => 0 < c < 256) name -> (length (strip_antisocial_prefixes name) <= 99)%nat ->
  open_file (name ++ [0]) (ufs u) = Ok (Some f, s1) -> holds s1 f bs 0 ->
  sd_inv (udev u) -> 0 <= append_at u -> append_at u + 1 + sectors bs < sd_size (udev u) ->
  exists s2 d2 c2, let e := append_at u + 1 + sectors bs in
    holds s2 f bs (Z.of_nat (length bs)) /\ sd_inv d2 /\ sd_size d2 = sd_size (udev u) /\
    archived d2 (append_at u) (strip_antisocial_prefixes name) bs /\ sd_at d2 e = marker behind /\
    (forall s, s < append_at u \/ e < s -> sd_at d2 s = sd_at (udev u) s) /\
    fsutil_append (Some blk) true behind name u =
      on_fs (close_file f) {| ufs := s2; udev := d2; extract_at := extract_at u; append_at := e; console := c2 |}.
Proof.
  intros Hbb Hn Hl Ho Hh Hi Hk Hsz. pose proof (sectors_nonneg bs) as Hnn. pose proof (holds_bytes _ _ _ _ Hh) as [Hb Hlt].
  unfold fsutil_append. rewrite 2!(bind_eq _ _ _ _ _ eq_refl). erewrite bind_eq; [|unfold on_fs; cbn [ufs]; rewrite Ho; reflexivity].
  rewrite (bind_eq _ _ _ _ _ eq_refl). destruct (length_law _ _ _ _ Hh) as (s1' & RL & Hh'). erewrite bind_eq; [|unfold on_fs; cbn [ufs with_ufs]; rewrite RL; reflexivity].
  rewrite (bind_eq _ _ _ _ _ eq_refl). destruct (made_header_parses name USTAR_REGULAR (Z.of_nat (length bs))) as (h & Eh & Lh & Bh & Ph); [done|done|by left|lia|].
  erewrite bind_eq; [|rewrite Eh; reflexivity]. cbv beta iota.
  match goal with |- context [bind (write_next _ _) _ ?v] => destruct (write_next_run v h) as (d2 & R2 & I2 & S2 & A2) end; cbn [udev ufs append_at with_ufs] in *; [done|lia|done|done|].
  erewrite bind_eq; [|exact R2].
  match goal with |- context [bind (copy_in _ _ _ _) _ ?v] => destruct (util_copy_in_run (Z.to_nat (sectors bs)) f bs 0 v) as (s3 & d3 & R3 & Hh3 & I3 & S3 & A3) end; rewrite ?drop_0 in *; cbn [udev ufs append_at with_ufs with_udev with_append] in *; [done|lia|done|done|lia|lia|].
  rewrite Z.sub_0_r in R3. erewrite bind_eq; [|exact R3]. rewrite (bind_eq _ _ _ _ _ eq_refl). cbn [append_at with_ufs with_udev with_append].
  set (e := append_at u + 1 + sectors bs) in *. match goal with |- context [bind (on_dev (sd_write blk e (zeros 512))) _ ?v] => destruct (write_zeros_run v e) as (d4 & R4 & I4 & S4 & A4) end; cbn [udev with_ufs with_udev with_append] in *; [done|lia|].
  erewrite bind_eq; [|exact R4]. destruct (marker_wf behind Hbb) as [M1 M2].
  destruct (sd_write_ok d4 e (marker behind) I4 ltac:(lia) M1 M2) as (d5 & R5 & I5 & S5 & A5).
  erewrite bind_eq; [|unfold on_dev; cbn [udev with_ufs with_udev with_append]; fold (marker behind); rewrite R5; reflexivity].
  eexists s3, d5, _. split; [done|]. split; [done|]. split; [lia|]. split; [|split; [|split; [|reflexivity]]].
  - split.
    + rewrite A5, A4, A3, A2. destruct (Z.eqb_spec (append_at u) e), (Z.leb_spec (append_at u + 1) (append_at u)); try lia. cbn [andb]. by rewrite Z.eqb_refl.
    + intros i Hi'. rewrite A5, A4, A3. destruct (Z.eqb_spec (append_at u + 1 + i) e); [lia|]. destruct (Z.leb_spec (append_at u + 1) (append_at u + 1 + i)), (Z.ltb_spec (append_at u + 1 + i) e); try lia. cbn [andb]. f_equal. lia.
  - by rewrite A5, Z.eqb_refl.
  - intros s Hs. rewrite A5, A4, A3, A2. destruct (Z.eqb_spec s e); [lia|]. destruct (Z.leb_spec (append_at u + 1) s), (Z.ltb_spec s e), (Z.eqb_spec s (append_at u)); cbn [andb]; done || lia.
Qed.

(** ** Theorems *)

(** C26: [fsutil_extract] unpacks an archive of files: where the scratch device holds the entries of an
    archive (headers that parse, contents in the sectors after them) and a sector of zeros
    behind them, it creates, opens, writes and closes every file as its name and contents say,
    in their order, for every file system; it ends as soon as an operation on a file fails, with
    the same failure, and after the last file it clears the first two sectors and changes no other. *)
Theorem fsutil_extract_correct fuel entries u : (length entries < fuel)%nat -> sd_inv (udev u) -> 0 <= extract_at u -> 1 < sd_size (udev u) ->
  archive (udev u) (extract_at u) entries -> archive_end (extract_at u) entries < sd_size (udev u) ->
  sd_at (udev u) (archive_end (extract_at u) entries) = zeros 512 ->
  match unpack_all entries (ufs u) with
  | Ok (_, f) =>
      exists u', fsutil_extract (Some blk) true fuel u = Ok (tt, u') /\ ufs u' = f /\ extract_at u' = archive_end (extract_at u) entries + 1 /\
        forall sec, sd_at (udev u') sec = if (sec =? 0) || (sec =? 1) then zeros 512 else sd_at (udev u) sec
  | Err e => fsutil_extract (Some blk) true fuel u = Err e
  end.
Proof.
  intros Hf Hi Hk Hsz Ha He Hz. pose proof (fsutil_extract_run fuel entries u true Hf Hi Hk Hsz Ha He Hz) as E.
  destruct (unpack_all entries (ufs u)) as [[[] f]|e]; [|done]. destruct E as (u' & R & E1 & E2 & _ & _ & _ & E3). by exists u'.
Qed.

(** C13: What [fsutil_append] writes, [fsutil_extract] reads: a file that is appended to an
    empty archive is unpacked again with its contents, under its name without leading [/],
    [./] and [../].  The end of the archive is found only if the byte in memory behind the
    buffer of [fsutil_append] is 0, since the last sector of the archive ends with that byte;
    otherwise [fsutil_extract] unpacks the file and then stops the kernel. *)
Theorem fsutil_append_extract behind name f bs s1 u fuel : is_byte behind -> Forall (fun c => 0 < c < 256) name -> (length (strip_antisocial_prefixes name) <= 99)%nat ->
  open_file (name ++ [0]) (ufs u) = Ok (Some f, s1) -> holds s1 f bs 0 ->
  sd_inv (udev u) -> extract_at u = 0 -> append_at u = 0 -> 1 + sectors bs < sd_size (udev u) -> (1 < fuel)%nat ->
  exists s2, holds s2 f bs (Z.of_nat (length bs)) /\
  match close_file f s2 with
  | Err e => fsutil_append (Some blk) true behind name u = Err e
  | Ok (_, s3) =>
      exists u', fsutil_append (Some blk) true behind name u = Ok (tt, u') /\ ufs u' = s3 /\
        match unpack (strip_antisocial_prefixes name) bs s3 with
        | Err e => fsutil_extract (Some blk) true fuel u' = Err e
        | Ok (_, s4) =>
            if behind =? 0 then exists u'', fsutil_extract (Some blk) true fuel u' = Ok (tt, u'') /\ ufs u'' = s4
            else fsutil_extract (Some blk) true fuel u' = Err KernelPanic
        end
  end.
Proof.
  intros Hbb Hn Hl Ho Hh Hi E1 E2 Hsz Hf. pose proof (sectors_nonneg bs).
  destruct (fsutil_append_run behind name f bs s1 u) as (s2 & d2 & c2 & Hh2 & I2 & S2 & Ha & Hm & _ & R); [done..|lia|lia|]. rewrite E2 in *.
  exists s2. split; [done|]. rewrite R. unfold on_fs. cbn [ufs]. destruct (close_file f s2) as [[[] s3]|e]; [|done]. eexists. split; [reflexivity|]. cbn [ufs with_ufs]. split; [done|].
  match goal with |- context [fsutil_extract _ _ _ ?v] => pose proof (fsutil_extract_run fuel [(strip_antisocial_prefixes name, bs)] v (behind =? 0)) as X end.
  cbn [ufs udev extract_at append_at with_ufs archive archive_end length unpack_all] in X. rewrite E1 in *.
  unfold bind, ret in X. specialize (X Hf I2 ltac:(lia) ltac:(lia) (conj Ha I) ltac:(lia)).
  assert (if behind =? 0 then sd_at d2 (0 + 1 + sectors bs) = zeros 512 else exists e, ustar_parse_header (sd_at d2 (0 + 1 + sectors bs)) = inl e) as Hg.
  { rewrite Hm. destruct (Z.eqb_spec behind 0) as [->|Hne]; [apply marker_zero|]. eexists. by apply marker_parse. }
  specialize (X Hg). destruct (unpack _ bs s3) as [[[] s4]|e]; [|done]. destruct (behind =? 0); [|done]. destruct X as (u' & Rx & Eu & _). by exists u'.
Qed.
End append.

(** ** Printing a file *)

Class FileTellLaws (F : Type) `{FileLaws F} `{FileUtil F} :=
  tell_law s f bs p : holds s f bs p -> tell_file f s = Ok (p, s).

Section cat.
Context {F D : Type} `{HF : FileLaws F} `{FileUtil F} `{!FileTellLaws F}.
Implicit Types (u : util F D).

Definition with_text (texts : list (list Z)) u : util F D :=
  {| ufs := ufs u; udev := udev u; extract_at := extract_at u; append_at := append_at u; console := console u ++ texts |}.

Lemma dump_run pos bs u : Forall is_byte bs -> 0 <= pos < 2 ^ 32 ->
  exists text, dump pos bs u = Ok (tt, with_text [text] u) /\ HexDump.dumps true pos bs text.
Proof.
  intros Hb Hp. destruct (HexDump.hex_dump_says ∅ (length bs) pos bs true Hb Hp ltac:(done)) as (text & E & Hd). exists text. split; [|done].
  unfold dump, hex_dump. erewrite bind_eq; [|rewrite (E []); reflexivity]. reflexivity.
Qed.

Lemma cat_loop_S fuel f : cat_loop (D := D) (S fuel) f =
  let! pos := on_fs (tell_file f) in
  let! bs := on_fs (read_file f PGSIZE) in
  match bs with [] => ret tt | _ => do! dump pos bs; cat_loop fuel f end.
Proof. done. Qed.

Lemma cat_loop_run fuel : forall f bs p u, holds (ufs u) f bs p -> 0 <= p <= Z.of_nat (length bs) -> Z.of_nat (length bs) + 4096 < 2 ^ 31 ->
  p mod 16 = 0 \/ p = Z.of_nat (length bs) -> Z.of_nat (length bs) - p <= 4096 * Z.of_nat fuel ->
  exists s' texts, cat_loop (S fuel) f u = Ok (tt, with_ufs s' (with_text texts u)) /\ holds s' f bs (Z.of_nat (length bs)) /\
    HexDump.dumps true p (drop (Z.to_nat p) bs) (concat texts).
Proof.
  induction fuel as [|fuel IH]; intros f bs p u Hh Hp Hlt H16 Hf; pose proof (holds_bytes _ _ _ _ Hh) as [Hb _];
    destruct (read_law (ufs u) f bs p PGSIZE Hh) as (s1 & R1 & Hh1); try (unfold PGSIZE; lia);
    assert (sub_bytes p PGSIZE bs = take 4096 (drop (Z.to_nat p) bs)) as Es by done; rewrite Es in *;
    set (r := drop (Z.to_nat p) bs) in *; assert (Z.of_nat (length r) = Z.of_nat (length bs) - p) as Lr by (unfold r; rewrite length_drop; lia);
    rewrite cat_loop_S; (erewrite bind_eq; [|unfold on_fs; rewrite (tell_law _ _ _ _ Hh); reflexivity]);
    (erewrite bind_eq; [|unfold on_fs; cbn [ufs with_ufs]; rewrite R1; reflexivity]).
  - destruct r as [|x r']; [|cbn in Lr; lia]. exists s1, []. split; [unfold with_text; rewrite app_nil_r; by destruct u|].
    split; [|constructor]. cbn in Hh1, Lr. by replace (Z.of_nat (length bs)) with (p + 0) by lia.
  - destruct (take 4096 r) as [|x xs] eqn:Et.
    { assert (r = []) as Er by (destruct r; [done|by rewrite take_S in Et || cbn in Et]). rewrite Er in *. cbn in Lr, Hh1.
      exists s1, []. split; [unfold with_text; rewrite app_nil_r; by destruct u|]. split; [by replace (Z.of_nat (length bs)) with (p + 0) by lia|constructor]. }
    rewrite <- Et in *. destruct (dump_run p (take 4096 r) (with_ufs s1 (with_ufs (ufs u) u))) as (text & Ed & Hd); [by apply Forall_take, Forall_drop|lia|].
    erewrite bind_eq; [|exact Ed]. pose proof (length_take r 4096) as Lt. set (n := Z.of_nat (length (take 4096 r))) in *.
    assert (0 < n) by (unfold n; rewrite Et; cbn; lia). assert (p mod 16 = 0) as Hp16 by (destruct H16; [done|lia]).
    assert ((p + 4096) mod 16 = 0) as Hq by (rewrite <- Hp16; exact (Z_mod_plus_full p 256 16)).
    assert (n = 4096 \/ p + n = Z.of_nat (length bs)) as Hn by lia.
    destruct (IH f bs (p + n) (with_text [text] (with_ufs s1 (with_ufs (ufs u) u)))) as (s2 & texts & E2 & Hh2 & Hd2);
      [done|lia|done|destruct Hn as [Hn|Hn]; [left; by rewrite Hn|by right]|lia|].
    exists s2, (text :: texts). split; [|split; [done|]].
    + rewrite E2. unfold with_text, with_ufs. cbn. by rewrite <- app_assoc.
    + cbn [concat]. rewrite <- (take_drop 4096 r). assert (drop (Z.to_nat (p + n)) bs = drop (Z.to_nat n) r) as Edr by (unfold r; rewrite drop_drop; f_equal; lia).
      destruct Hn as [Hn|Hn].
      * apply HexDump.dumps_app; [done|lia|fold n; by rewrite Hn|]. fold n. rewrite wrapu_small by lia. rewrite Edr in Hd2. rewrite Hn in Hd2 |- *. exact Hd2.
      * rewrite (drop_ge r 4096) by lia. rewrite (drop_ge bs) in Hd2 by lia. apply HexDump.dumps_empty in Hd2. rewrite Hd2, !app_nil_r. exact Hd.
Qed.

(** [fsutil_cat] prints the dump of the whole file and closes it. *)
Lemma fsutil_cat_correct fuel name f bs s1 u : open_file (name ++ [0]) (ufs u) = Ok (Some f, s1) -> holds s1 f bs 0 ->
  Z.of_nat (length bs) + 4096 < 2 ^ 31 -> Z.of_nat (length bs) <= 4096 * Z.of_nat fuel ->
  exists s2 texts, holds s2 f bs (Z.of_nat (length bs)) /\ HexDump.dumps true 0 bs (concat texts) /\
    fsutil_cat true (S fuel) name u = on_fs (close_file f)
      (with_ufs s2 (with_text ((chars "Printing '"%string ++ name ++ chars "' to the console..."%string) :: texts) u)).
Proof.
  intros Ho Hh Hlt Hf. unfold fsutil_cat. rewrite (bind_eq _ _ _ _ _ eq_refl). erewrite bind_eq; [|unfold on_fs; cbn [ufs]; rewrite Ho; reflexivity].
  rewrite 2!(bind_eq _ _ _ _ _ eq_refl).
  match goal with |- context [bind (cat_loop _ _) _ ?v] => destruct (cat_loop_run fuel f bs 0 v) as (s2 & texts & E & Hh2 & Hd) end; [done|lia|done|by left|lia|].
  exists s2, texts. split; [done|]. split; [done|]. erewrite bind_eq; [|exact E]. unfold with_text, with_ufs. cbn. by rewrite <- app_assoc.
Qed.
End cat.

(** ** The implementations behind the interfaces *)

Section instances.
Import Inode Directory Filesys.
Context {S : Type} `{BufferFacts.SectorStore S} (junk part : list Z).
#[export] Instance fs_file_util : FileUtil (fs S) := {
  create_file := filesys_create junk part;
  remove_file := filesys_remove part;
  write_file := file_write;
  tell_file := file_tell;
  close_file f := file_close (Some f);
  open_root := dir_open_root;
  readdir := dir_readdir }.
End instances.
#[export] Instance fs_tell_laws {S} `{HS : BufferFacts.SectorStoreLaws S} (junk part : list Z) :
  FileTellLaws (Inode.fs S) (H0 := LoaderProps.fs_file_laws part) (H1 := fs_file_util junk part).
Proof. intros s f bs p (x & i & n & Hf & _ & <- & _). cbn. unfold Inode.file_tell. by rewrite (bind_eq _ _ _ _ _ (LoaderProps.get_file_run s f x Hf)). Qed.

#[export] Instance block_sized : SizedDevice Block.state := { sd_block_size := block_size }.
#[export] Instance block_sized_laws blk : SizedDeviceLaws Block.state blk.
Proof.
  split. intros s (Hwf & b & Hb & _). cbn. unfold dev_size. rewrite Hb. cbn. by apply (block_size_run s s blk b Hb (same_refl s)).
Qed.

(** ** A file of 600 bytes *)

(** A file system with one file that can be open once. *)
Record shelf := { on_shelf : list Z; shelf_pos : Z }.
#[export] Instance shelf_ops : FileOps shelf := {
  open_file _ s := Ok (Some 3, {| on_shelf := on_shelf s; shelf_pos := 0 |});
  deny_file _ := ret tt;
  seek_file _ q s := Ok (tt, {| on_shelf := on_shelf s; shelf_pos := q |});
  read_file _ n s := let bs := sub_bytes (shelf_pos s) n (on_shelf s) in
    Ok (bs, {| on_shelf := on_shelf s; shelf_pos := shelf_pos s + Z.of_nat (length bs) |});
  length_file _ := gets (fun s => Z.of_nat (length (on_shelf s))) }.
#[export] Instance shelf_util : FileUtil shelf := {
  create_file _ n s := Ok (true, {| on_shelf := zeros n; shelf_pos := 0 |});
  remove_file _ := ret true;
  write_file _ bs s := Ok (Z.of_nat (length bs), {| on_shelf := splice (shelf_pos s) bs (on_shelf s); shelf_pos := shelf_pos s + Z.of_nat (length bs) |});
  tell_file _ := gets shelf_pos;
  close_file _ := ret tt;
  open_root := ret None;
  readdir _ := ret None }.
#[export] Program Instance shelf_laws : FileLaws shelf :=
  {| holds s _ bs p := on_shelf s = bs /\ shelf_pos s = p /\ Forall is_byte bs /\ Z.of_nat (length bs) < 2 ^ 31 |}.
Next Obligation. by intros s f bs p (_ & _ & Hb & Hl). Qed.
Next Obligation. intros s f bs p q (<- & _ & Hb & Hl) _. eexists. split; [reflexivity|]. done. Qed.
Next Obligation. intros s f bs p n (<- & <- & Hb & Hl) _ _ _. eexists. split; [reflexivity|]. done. Qed.
Next Obligation. intros s f bs p (<- & <- & Hb & Hl). eexists. split; [reflexivity|]. done. Qed.

#[export] Instance shelf_tell_laws : FileTellLaws shelf.
Proof. by intros s f bs p (_ & <- & _). Qed.

Definition sample_file : list Z := replicate 600 65.
Lemma sample_bytes : Forall is_byte sample_file.
Proof. apply Forall_replicate. unfold is_byte. lia. Qed.
Definition sample_util : util shelf Block.state :=
  {| ufs := {| on_shelf := sample_file; shelf_pos := 0 |}; udev := demo; extract_at := 0; append_at := 0; console := [] |}.
Lemma util_demo_inv : dev_inv 0 demo.
Proof. split; [apply demo_wf|]. eexists. split; [reflexivity|done]. Qed.

(** The last line of its dump. *)
Example cat_last_line :
  match fsutil_cat true 2 (chars "echo"%string) sample_util with
  | Ok (_, u) => option_map (drop 2849) (console u !! 1%nat) =
      Some (chars "00000250  41 41 41 41 41 41 41 41-                        |AAAAAAAA        |"%string ++ [10])
  | Err _ => False
  end.
Proof. vm_compute. reflexivity. Qed.

Lemma fsutil_append_extract_witness : exists u' u'', fsutil_append (Some 0%nat) true 0 (chars "../bin/echo"%string) sample_util = Ok (tt, u') /\
  fsutil_extract (Some 0%nat) true 2 u' = Ok (tt, u'') /\ on_shelf (ufs u'') = sample_file.
Proof.
  destruct (fsutil_append_extract (blk := 0%nat) 0 (chars "../bin/echo"%string) 3 sample_file (ufs sample_util) sample_util 2) as (s2 & Hh & X);
    [unfold is_byte; lia|repeat constructor; lia|vm_compute; lia|reflexivity|exact (conj eq_refl (conj eq_refl (conj sample_bytes eq_refl)))|exact util_demo_inv|reflexivity|reflexivity|reflexivity|lia|].
  destruct Hh as (Es & Ep & _). destruct s2 as [b p]. cbn in Es, Ep. subst b p. match type of X with context [close_file 3 ?v] => change (close_file 3 v) with (Ok (tt, v)) in X end. cbv beta iota in X.
  destruct X as (u' & R & Eu & X). rewrite <- Eu in X. exists u'.
  assert (exists s4, unpack (strip_antisocial_prefixes (chars "../bin/echo"%string)) sample_file (ufs u') = Ok (tt, s4) /\ on_shelf s4 = sample_file) as (s4 & E4 & O4).
  { rewrite Eu. eexists. split; vm_compute; reflexivity. }
  rewrite E4 in X. destruct X as (u'' & R2 & E2). exists u''. split; [exact R|]. split; [exact R2|]. by rewrite E2.
Defined.

(** The same file in an archive. *)
Definition sample_entry : list Z := match ustar_make_header (chars "echo"%string) USTAR_REGULAR 600 with Ok (inr h) => h | _ => [] end.
Definition sample_archive : Block.state :=
  {| all_blocks := all_blocks demo; block_by_role := block_by_role demo;
     disks := fun _ sec => if sec =? 0 then sample_entry else if sec =? 1 then replicate 512 65 else if sec =? 2 then replicate 88 65 ++ zeros 424 else zeros 512; held := 0 |}.
Lemma sample_archive_inv : dev_inv 0 sample_archive.
Proof.
  split; [|by eexists]. split; [exact (wf_blocks demo demo_wf)|]. intros d sec. cbn [disks sample_archive]. split.
  - do 3 (destruct (sec =? _); [reflexivity|]). reflexivity.
  - do 3 (destruct (sec =? _); [apply (bool_decide_unpack _); vm_compute; exact I|]). apply (bool_decide_unpack _); vm_compute; exact I.
Qed.
Lemma fsutil_extract_correct_witness : exists u', fsutil_extract (Some 0%nat) true 2 (with_udev sample_archive sample_util) = Ok (tt, u') /\ on_shelf (ufs u') = sample_file.
Proof.
  pose proof (fsutil_extract_correct (blk := 0%nat) 2 [(chars "echo"%string, sample_file)] (with_udev sample_archive sample_util)) as X.
  assert (exists s4, unpack_all [(chars "echo"%string, sample_file)] (ufs (with_udev sample_archive sample_util)) = Ok (tt, s4) /\ on_shelf s4 = sample_file) as (s4 & E4 & O4).
  { eexists. split; vm_compute; reflexivity. }
  rewrite E4 in X. destruct X as (u' & R & E & _).
  - cbn. lia.
  - exact sample_archive_inv.
  - cbn. lia.
  - reflexivity.
  - split; [|exact I]. split; [vm_compute; reflexivity|]. intros i Hi. assert (i = 0 \/ i = 1) as [-> | ->] by (change (sectors sample_file) with 2 in Hi; lia); reflexivity.
  - reflexivity.
  - reflexivity.
  - exists u'. split; [exact R|]. by rewrite E.
Defined.

End FsutilProps.
