(* ===== verification/Syscall.v ===== *)
(** * userprog/syscall.c and exception.c: system calls

    The state is what a process sees of the kernel: the file system, the virtual memory, the
    files it has open and its page directory, with the console and the register [eax] of the
    interrupt frame.  The code of a system call either ends, or the process does not survive
    it: a page fault in the kernel is handled as in user code, by [page_fault], which ends
    the process.  That is how an access of this file to user memory that is not mapped is
    modelled; when the file system or the console meets such memory in the middle of its own
    work the result is [WildAccess]. *)

From stdpp Require Import strings.
From S2P Require Import Prelude Bytes CString CStringFacts FixedPoint Stdio VAddr Ram Palloc PageDir FdTable.
From S2P Require Import Block Buffer BufferFacts Inode Directory Filesys.
Import Bytes CString CStringFacts FixedPoint Stdio VAddr Ram Palloc PageDir FdTable.

Module Syscall.

Definition SYS_HALT : Z := 0.
Definition SYS_EXIT : Z := 1.
Definition SYS_EXEC : Z := 2.
Definition SYS_WAIT : Z := 3.
Definition SYS_CREATE : Z := 4.
Definition SYS_REMOVE : Z := 5.
Definition SYS_OPEN : Z := 6.
Definition SYS_FILESIZE : Z := 7.
Definition SYS_READ : Z := 8.
Definition SYS_WRITE : Z := 9.
Definition SYS_SEEK : Z := 10.
Definition SYS_TELL : Z := 11.
Definition SYS_CLOSE : Z := 12.
Definition SYS_PRACTICE : Z := 13.
Definition SYS_CHDIR : Z := 16.
Definition SYS_MKDIR : Z := 17.
Definition SYS_READDIR : Z := 18.
Definition SYS_ISDIR : Z := 19.
Definition SYS_INUMBER : Z := 20.
Definition SYS_BUFFER_CLEAN : Z := 21.
Definition SYS_BUFFER_HIT_RATE : Z := 22.
Definition SYS_BUFFER_READ_NUM : Z := 23.
Definition SYS_BUFFER_WRITE_NUM : Z := 24.

(** What the system calls ask of the cache and of the device of the file system. *)
Class CacheOps (S : Type) := {
  cache_clean : M S unit;
  cache_performance : M S (Z * Z);
  device_read_cnt : M S Z;
  device_write_cnt : M S Z }.

Definition get_fs_device_read_cnt (fs_device : nat) : M Block.state Z := let! b := Block.deref fs_device in ret (Block.read_cnt b).
Definition get_fs_device_write_cnt (fs_device : nat) : M Block.state Z := let! b := Block.deref fs_device in ret (Block.write_cnt b).
#[export] Instance buffer_cache (fs_device : nat) : CacheOps (Buffer.state Block.state) := {|
  cache_clean := Buffer.buffer_clean;
  cache_performance := Buffer.buffer_performance;
  device_read_cnt := Buffer.on_dev (get_fs_device_read_cnt fs_device);
  device_write_cnt := Buffer.on_dev (get_fs_device_write_cnt fs_device) |}.

(** ** The state *)

Section syscall.
Context {S : Type} `{BufferFacts.SectorStore S} `{CacheOps S}.
Notation fs := (Inode.fs S).

Record process := {
  pfs : fs; pvm : vm; pagedir : Z; fd_list : list fd_pair; executable : option Z;
  console : list Z; typed_cnt : Z; page_fault_cnt : Z; exit_code : Z; eax : Z }.

Definition with_fs (x : fs) (s : process) : process :=
  Build_process x (pvm s) (pagedir s) (fd_list s) (executable s) (console s) (typed_cnt s) (page_fault_cnt s) (exit_code s) (eax s).
Definition with_vm (x : vm) (s : process) : process :=
  Build_process (pfs s) x (pagedir s) (fd_list s) (executable s) (console s) (typed_cnt s) (page_fault_cnt s) (exit_code s) (eax s).
Definition with_pagedir (x : Z) (s : process) : process :=
  Build_process (pfs s) (pvm s) x (fd_list s) (executable s) (console s) (typed_cnt s) (page_fault_cnt s) (exit_code s) (eax s).
Definition with_fds (x : list fd_pair) (s : process) : process :=
  Build_process (pfs s) (pvm s) (pagedir s) x (executable s) (console s) (typed_cnt s) (page_fault_cnt s) (exit_code s) (eax s).
Definition with_console (x : list Z) (s : process) : process :=
  Build_process (pfs s) (pvm s) (pagedir s) (fd_list s) (executable s) x (typed_cnt s) (page_fault_cnt s) (exit_code s) (eax s).
Definition with_typed (x : Z) (s : process) : process :=
  Build_process (pfs s) (pvm s) (pagedir s) (fd_list s) (executable s) (console s) x (page_fault_cnt s) (exit_code s) (eax s).
Definition with_faults (x : Z) (s : process) : process :=
  Build_process (pfs s) (pvm s) (pagedir s) (fd_list s) (executable s) (console s) (typed_cnt s) x (exit_code s) (eax s).
Definition with_exit (x : Z) (s : process) : process :=
  Build_process (pfs s) (pvm s) (pagedir s) (fd_list s) (executable s) (console s) (typed_cnt s) (page_fault_cnt s) x (eax s).
Definition with_eax (x : Z) (s : process) : process :=
  Build_process (pfs s) (pvm s) (pagedir s) (fd_list s) (executable s) (console s) (typed_cnt s) (page_fault_cnt s) (exit_code s) x.

Definition on_fs {A} (c : M fs A) : M process A := fun s =>
  match c (pfs s) with Ok (a, f) => Ok (a, with_fs f s) | Err f => Err f end.
Definition on_vm {A} (c : M vm A) : M process A := fun s =>
  match c (pvm s) with Ok (a, v) => Ok (a, with_vm v s) | Err f => Err f end.
Definition on_mem {A} (c : M mem A) : M process A := on_vm (on_phys (in_ram c)).
Definition set_eax (v : Z) : M process unit := modify (with_eax (u32 v)).

(** Code that may end the process: [None] is that it has. *)
Definition P (A : Type) : Type := M process (option A).
Definition pret {A} (a : A) : P A := ret (Some a).
Definition pbind {A B} (c : P A) (k : A -> P B) : P B :=
  let! r := c in match r with Some a => k a | None => ret None end.
Definition run {A} (c : M process A) : P A := let! a := c in pret a.

(** The address of the name of the thread, the characters that the keyboard gives, and the
    local arrays of filesys.c that are not initialised. *)
Context (name_addr : Z) (typed : Z -> Z) (part junk junk_entry : list Z).

(** ** The end of a process *)

Definition putchar (c : Z) : M process unit := modify (fun s => with_console (console s ++ [u8 c]) s).
Definition printf (format : list Z) (args : list Z) : M process unit := Stdio.__vprintf (@on_mem) putchar format args.

Fixpoint close_loop (l : list fd_pair) : M process unit :=
  match l with
  | [] => ret tt
  | fp :: l =>
      do! modify (with_fds l);
      do! on_fs (Inode.file_close (pair_f fp));
      close_loop l
  end.
(** What [process_exit] gives back, apart from the records shared with other processes. *)
Definition release : M process unit :=
  let! e := gets executable in
  do! (match e with
       | Some f => do! on_fs (Inode.file_allow_write f); on_fs (Inode.file_close (Some f))
       | None => ret tt
       end);
  let! pd := gets pagedir in
  if negb (pd =? 0) then
    do! modify (with_pagedir 0);
    do! on_vm (pagedir_activate 0);
    on_vm (pagedir_destroy pd)
  else ret tt.
Definition sys_exit_handler {A} (status : Z) : P A :=
  do! printf (Stdio.chars "%s: exit(%d)"%string ++ [10]) [name_addr; u32 status];
  let! fds := gets fd_list in
  do! close_loop fds;
  do! modify (with_exit status);
  do! release;
  ret None.
Definition page_fault {A} : P A :=
  do! modify (fun s => with_faults (page_fault_cnt s + 1) s);
  do! set_eax (-1);
  sys_exit_handler (-1).

(** ** User memory *)

(** The address of memory behind the virtual address [va]; the kernel's own part is mapped
    throughout, and the processor honours the write protection in the kernel too. *)
Definition mmu (pd : Z) (write : bool) (va : Z) : M vm (option Z) :=
  if is_user_vaddr va then
    let! pte := lookup_page pd va false in
    if pte =? 0 then ret None
    else
      let! v := load_entry pte in
      if (Z.land v PTE_P =? 0) || (write && (Z.land v PTE_W =? 0)) then ret None
      else let! page := lift (pte_get_page v) in ret (Some (u32 (page + pg_ofs va)))
  else ret (Some va).

(** Accesses of this file. *)
Definition user_load (va : Z) : P Z :=
  let! pd := gets pagedir in
  let! a := on_vm (mmu pd false va) in
  match a with Some a => run (on_mem (load a)) | None => page_fault end.
Definition user_store (va b : Z) : P unit :=
  let! pd := gets pagedir in
  let! a := on_vm (mmu pd true va) in
  match a with Some a => run (on_mem (store a b)) | None => page_fault end.
Fixpoint load_bytes (n : nat) (va : Z) : P (list Z) :=
  match n with
  | O => pret []
  | Datatypes.S n => pbind (user_load va) (fun b => pbind (load_bytes n (u32 (va + 1))) (fun bs => pret (b :: bs)))
  end.
(** [args[i]] *)
Definition arg (esp i : Z) : P Z := pbind (load_bytes 4 (u32 (esp + 4 * i))) (fun bs => pret (le_decode bs)).

(** Accesses of the file system and of the console. *)
Definition peek (va : Z) : M process Z :=
  let! pd := gets pagedir in
  let! a := on_vm (mmu pd false va) in
  match a with Some a => on_mem (load a) | None => fail WildAccess end.
Definition poke (va b : Z) : M process unit :=
  let! pd := gets pagedir in
  let! a := on_vm (mmu pd true va) in
  match a with Some a => on_mem (store a b) | None => fail WildAccess end.
Fixpoint fetch (n : nat) (va : Z) : M process (list Z) :=
  match n with
  | O => ret []
  | Datatypes.S n => let! b := peek va in let! bs := fetch n (u32 (va + 1)) in ret (b :: bs)
  end.
Fixpoint deliver (bs : list Z) (va : Z) : M process unit :=
  match bs with [] => ret tt | b :: bs => do! poke va b; deliver bs (u32 (va + 1)) end.
(** At most [2 ^ k] more characters of a string, which is collected in reverse. *)
Fixpoint string_from (k : nat) (va : Z) (acc : list Z) : M process (list Z * option Z) :=
  match k with
  | O => let! c := peek va in ret (c :: acc, if c =? 0 then None else Some (u32 (va + 1)))
  | Datatypes.S k =>
      let! (acc, next) := string_from k va acc in
      match next with None => ret (acc, None) | Some va => string_from k va acc end
  end.
(** The string at [va] with its terminator; no string is longer than the address space. *)
Definition user_string (va : Z) : M process (list Z) :=
  let! (acc, next) := string_from 32 va [] in
  match next with None => ret (rev acc) | Some _ => fail OutOfFuel end.

(** ** Checks *)

Fixpoint probe_loop (n : nat) (pd buffer i : Z) : M vm bool :=
  match n with
  | O => ret true
  | Datatypes.S n =>
      let add := u32 (buffer + i * 4000) in
      if negb (is_user_vaddr add) then ret false
      else
        let! tmp := pagedir_get_page pd add in
        if tmp =? 0 then ret false else probe_loop n pd buffer (i + 1)
  end.
Definition is_valid_pointer (pd buffer size : Z) : M vm bool :=
  if buffer =? 0 then ret false else probe_loop (Z.to_nat (Z.quot size 4000 + 1)) pd buffer 0.
Definition valid_pointer (buffer size : Z) : M process bool :=
  let! pd := gets pagedir in on_vm (is_valid_pointer pd buffer size).

Fixpoint args_loop (n : nat) (args : Z) : M process bool :=
  match n with
  | O => ret true
  | Datatypes.S n =>
      let! ok := valid_pointer args 0 in
      if ok : bool then args_loop n (u32 (args + 4)) else ret false
  end.
Definition is_args_valid (num_args : nat) (args : Z) : M process bool := args_loop num_args args.

(** ** Reading, writing and opening *)

Definition get_pair (n : Z) : M process (option fd_pair) := gets (fun s => get_file_pair n (fd_list s)).
(** The file of an entry, where a function of file.c asserts that there is one. *)
Definition file_of (p : fd_pair) : M process Z :=
  match pair_f p with Some f => ret f | None => fail AssertFail end.
Definition dir_of (p : fd_pair) : M process Z :=
  match pair_d p with Some d => ret d | None => fail WildAccess end.

Definition input_getc : M process Z :=
  let! k := gets typed_cnt in
  do! modify (with_typed (k + 1));
  ret (u8 (typed k)).
Fixpoint typed_loop (n : nat) (va : Z) : P unit :=
  match n with
  | O => pret tt
  | Datatypes.S n =>
      let! c := input_getc in
      pbind (user_store va c) (fun _ => typed_loop n (u32 (va + 1)))
  end.
Definition sys_read_handler (n buffer size : Z) : P Z :=
  let! is_valid := valid_pointer buffer size in
  if is_valid : bool then
    if n =? 0 then pbind (typed_loop (Z.to_nat size) buffer) (fun _ => pret 0)
    else
      let! fp := get_pair n in
      match fp with
      | None => page_fault
      | Some fp =>
          if pair_is_dir fp then pret (-1)
          else
            let! f := file_of fp in
            let! bs := on_fs (Inode.file_read f size) in
            do! deliver bs buffer;
            pret (Z.of_nat (length bs))
      end
  else pret (-1).

Fixpoint putbuf (n : nat) (va : Z) : M process unit :=
  match n with
  | O => ret tt
  | Datatypes.S n => let! c := peek va in do! putchar c; putbuf n (u32 (va + 1))
  end.
Definition sys_write_handler (n buffer size : Z) : P Z :=
  let! is_valid := valid_pointer buffer size in
  if negb is_valid then pret (-1)
  else if n =? 1 then do! putbuf (Z.to_nat (u32 size)) buffer; pret size
  else
    let! fp := get_pair n in
    match fp with
    | None => page_fault
    | Some fp =>
        if pair_is_dir fp then pret (-1)
        else
          let! f := file_of fp in
          let! bs := fetch (Z.to_nat size) buffer in
          let! size_write := on_fs (Inode.file_write f bs) in
          pret (s32 size_write)
    end.

Definition add_fd (file_pointer dir_pointer : option Z) (is_dir : bool) : P Z :=
  let! mem := on_fs Inode.malloc in
  let! fds := gets fd_list in
  match mem with
  | None => page_fault
  | Some _ =>
      let! (n, fds) := lift (find_free_fd true fds file_pointer dir_pointer is_dir) in
      do! modify (with_fds fds);
      pret n
  end.
Definition sys_open_handler (name : Z) : P Z :=
  let! is_valid := valid_pointer name 0 in
  if is_valid : bool then
    let! s := user_string name in
    let! file_pointer := on_fs (Filesys.filesys_open part s) in
    match file_pointer with
    | None =>
        let! dir_pointer := on_fs (Filesys.filesys_open_directory part s) in
        match dir_pointer with
        | None => pret (-2)
        | Some d => add_fd None (Some d) true
        end
    | Some f => add_fd (Some f) None false
    end
  else pret (-1).

(** ** The handler *)

(** Starting and awaiting processes, and the [load_code] of a child. *)
Context (process_execute : Z -> M process Z) (process_wait : Z -> M process Z) (load_code : Z -> M process (option Z)).

Definition bad_call : P unit := do! set_eax (-1); sys_exit_handler (-1).
Definition with_args (n : nat) (esp : Z) (k : P unit) : P unit :=
  let! ok := is_args_valid n esp in
  if ok : bool then k else bad_call.
Definition with_pointer (va : Z) (k : P unit) : P unit :=
  let! ok := valid_pointer va 0 in
  if ok : bool then k else bad_call.

Definition do_practice (v : Z) : P unit :=
  run (set_eax (v + 1)).
Definition do_exit (v : Z) : P unit :=
  do! set_eax v; sys_exit_handler (s32 v).
Definition do_read (n buffer size : Z) : P unit :=
  pbind (sys_read_handler (s32 n) buffer (s32 size)) (fun read_num =>
    do! set_eax read_num;
    if read_num =? -1 then sys_exit_handler (-1) else pret tt).
Definition do_write (n buffer size : Z) : P unit :=
  pbind (sys_write_handler (s32 n) buffer (s32 size)) (fun write_num =>
    do! set_eax write_num;
    if write_num =? -1 then sys_exit_handler (-1) else pret tt).
Definition do_create (file size : Z) : P unit :=
  with_pointer file (
    let! name := user_string file in
    let! is_success := on_fs (Filesys.filesys_create junk part name (s32 size)) in
    run (set_eax (Z.b2z is_success))).
Definition do_open (name : Z) : P unit :=
  pbind (sys_open_handler name) (fun n =>
    do! set_eax n;
    if n =? -1 then sys_exit_handler (-1)
    else if n =? -2 then run (set_eax (-1))
    else pret tt).
Definition do_filesize (n : Z) : P unit :=
  let! p := get_pair (s32 n) in
  match p with
  | None => run (set_eax (-1))
  | Some p => let! f := file_of p in let! len := on_fs (Inode.file_length f) in run (set_eax len)
  end.
Definition do_seek (n position : Z) : P unit :=
  let! p := get_pair (s32 n) in
  match p with
  | None => pret tt
  | Some p => let! f := file_of p in run (on_fs (Inode.file_seek f (s32 position)))
  end.
Definition do_tell (n : Z) : P unit :=
  let! p := get_pair (s32 n) in
  match p with
  | None => run (set_eax (-1))
  | Some p => let! f := file_of p in let! pos := on_fs (Inode.file_tell f) in run (set_eax pos)
  end.
Definition do_close (n : Z) : P unit :=
  let! p := get_pair (s32 n) in
  match p with
  | None => pret tt
  | Some p =>
      do! modify (fun s => with_fds (remove_pair (s32 n) (fd_list s)) s);
      run (on_fs (Inode.file_close (pair_f p)))
  end.
Definition do_remove (name : Z) : P unit :=
  with_pointer name (
    let! s := user_string name in
    let! is_success := on_fs (Filesys.filesys_remove part s) in
    run (set_eax (Z.b2z is_success))).
Definition do_exec (cmd_line : Z) : P unit :=
  let! pd := gets pagedir in
  let! tmp := on_vm (pagedir_get_page pd cmd_line) in
  if negb (tmp =? 0) then
    let! tid := process_execute cmd_line in
    let! code := load_code tid in
    match code with
    | None => page_fault
    | Some code => run (set_eax (if code =? -1 then -1 else tid))
    end
  else run (set_eax (-1)).
Definition do_wait (tid : Z) : P unit :=
  let! code := process_wait (s32 tid) in run (set_eax code).
Definition do_mkdir (name : Z) : P unit :=
  with_pointer name (
    let! s := user_string name in
    let! res := on_fs (Filesys.filesys_create_dir junk junk_entry part s) in
    run (set_eax (Z.b2z res))).
Definition do_chdir (name : Z) : P unit :=
  with_pointer name (
    let! s := user_string name in
    let! dir := on_fs (Filesys.filesys_open_directory part s) in
    match dir with
    | None => run (set_eax 0)
    | Some dir =>
        let! cur := gets (fun s => Inode.curr_dir (pfs s)) in
        match cur with
        | None => pret tt
        | Some _ =>
            do! on_fs (Directory.dir_close cur);
            do! on_fs (modify (Inode.with_curr (Some dir)));
            run (set_eax 1)
        end
    end).
Definition do_readdir (n name : Z) : P unit :=
  with_pointer name (
    let! p := get_pair (s32 n) in
    match p with
    | None => page_fault
    | Some p =>
        if pair_is_dir p then
          let! d := dir_of p in
          let! entry := on_fs (Directory.dir_readdir d) in
          match entry with
          | Some bs => do! deliver bs name; run (set_eax 1)
          | None => run (set_eax 0)
          end
        else run (set_eax 0)
    end).
Definition do_isdir (n : Z) : P unit :=
  let! p := get_pair (s32 n) in
  match p with
  | None => page_fault
  | Some p => run (set_eax (Z.b2z (pair_is_dir p)))
  end.
Definition do_inumber (n : Z) : P unit :=
  let! p := get_pair (s32 n) in
  match p with
  | None => page_fault
  | Some p =>
      let! i := (if pair_is_dir p then let! d := dir_of p in on_fs (Directory.dir_get_inode d)
                 else match pair_f p with Some f => on_fs (Inode.file_get_inode f) | None => fail WildAccess end) in
      let! nr := on_fs (Inode.inode_get_inumber i) in
      run (set_eax nr)
  end.
Definition hit_rate (access hit : Z) : res Z :=
  rbind (fix_int hit) (fun h => rbind (fix_int access) (fun a => rbind (fix_div h a) (fun q =>
    rbind (fix_int 10000) (fun t => Ok (fix_round (fix_mul q t)))))).
Definition do_hit_rate : P unit :=
  let! (access, hit) := on_fs (Inode.on_store cache_performance) in
  let! r := lift (hit_rate access hit) in
  run (set_eax r).
Definition do_read_num : P unit := let! n := on_fs (Inode.on_store device_read_cnt) in run (set_eax n).
Definition do_write_num : P unit := let! n := on_fs (Inode.on_store device_write_cnt) in run (set_eax n).

(** The call with the number [nr], whose arguments are checked before they are read. *)
Definition with_1 (esp : Z) (k : Z -> P unit) : P unit := with_args 2 esp (pbind (arg esp 1) k).
Definition with_2 (esp : Z) (k : Z -> Z -> P unit) : P unit :=
  with_args 3 esp (pbind (arg esp 1) (fun a => pbind (arg esp 2) (k a))).
Definition with_3 (esp : Z) (k : Z -> Z -> Z -> P unit) : P unit :=
  with_args 4 esp (pbind (arg esp 1) (fun a => pbind (arg esp 2) (fun b => pbind (arg esp 3) (k a b)))).
Definition dispatch (nr esp : Z) : P unit :=
  if nr =? SYS_PRACTICE then with_1 esp do_practice
  else if nr =? SYS_EXIT then with_1 esp do_exit
  else if nr =? SYS_READ then with_3 esp do_read
  else if nr =? SYS_WRITE then with_3 esp do_write
  else if nr =? SYS_CREATE then with_2 esp do_create
  else if nr =? SYS_OPEN then with_1 esp do_open
  else if nr =? SYS_FILESIZE then with_1 esp do_filesize
  else if nr =? SYS_SEEK then with_2 esp do_seek
  else if nr =? SYS_TELL then with_1 esp do_tell
  else if nr =? SYS_CLOSE then with_1 esp do_close
  else if nr =? SYS_REMOVE then with_1 esp do_remove
  else if nr =? SYS_EXEC then with_1 esp do_exec
  else if nr =? SYS_WAIT then with_1 esp do_wait
  else if nr =? SYS_MKDIR then with_1 esp do_mkdir
  else if nr =? SYS_CHDIR then with_1 esp do_chdir
  else if nr =? SYS_READDIR then with_2 esp do_readdir
  else if nr =? SYS_ISDIR then with_1 esp do_isdir
  else if nr =? SYS_INUMBER then with_1 esp do_inumber
  else if nr =? SYS_BUFFER_CLEAN then run (on_fs (Inode.on_store cache_clean))
  else if nr =? SYS_BUFFER_HIT_RATE then do_hit_rate
  else if nr =? SYS_BUFFER_READ_NUM then do_read_num
  else if nr =? SYS_BUFFER_WRITE_NUM then do_write_num
  else pret tt.
Definition syscall_handler (esp : Z) : P unit :=
  with_args 1 esp (pbind (arg esp 0) (fun nr => dispatch nr esp)).

End syscall.
Arguments process : clear implicits.
Arguments Build_process {S} _ _ _ _ _ _ _ _ _ _.

End Syscall.
