(* ===== verification/SyscallFacts.v ===== *)
(** * The checks and the memory accesses of system calls *)

From S2P Require Import Prelude Bytes CString CStringFacts VAddr Ram Palloc PageDir PageDirFacts PageDirProps Loader LoaderFacts FdTable.
From S2P Require Import Block Buffer BufferFacts Inode Syscall.
Import Bytes CString CStringFacts VAddr Ram Palloc PageDir PageDirFacts PageDirProps FdTable Syscall.

Module SyscallFacts.

(** ** Mapped addresses *)

(** A user address that is mapped, and one that may be written. *)
Definition present (s : vm) (T : gmap Z Z) (va : Z) : bool := is_user_vaddr va && Z.testbit (pte_of s T va) 0.
Definition writable (s : vm) (T : gmap Z Z) (va : Z) : bool := present s T va && Z.testbit (pte_of s T va) 1.

Lemma pte_same_page s T va va' : va / 4096 = va' / 4096 -> pte_of s T va = pte_of s T va'.
Proof.
  intros E. unfold pte_of. rewrite !pd_no_div, !pt_no_div, E. replace 4194304 with (4096 * 1024) by done.
  by rewrite <- !Z.div_div, E by lia.
Qed.
Lemma user_same_page va va' : va / 4096 = va' / 4096 -> is_user_vaddr va = is_user_vaddr va'.
Proof.
  intros E. unfold is_user_vaddr. change PHYS_BASE with (786432 * 4096). apply eq_iff_eq_true. rewrite !Z.ltb_lt.
  pose proof (Z.div_lt_upper_bound va 4096 786432). pose proof (Z.div_lt_upper_bound va' 4096 786432).
  pose proof (Z.mul_div_le va 4096). pose proof (Z.mul_div_le va' 4096). pose proof (Z.mul_succ_div_gt va 4096). pose proof (Z.mul_succ_div_gt va' 4096). lia.
Qed.
Lemma present_same_page s T va va' : va / 4096 = va' / 4096 -> present s T va = present s T va'.
Proof. intros E. unfold present. by rewrite (pte_same_page s T va va' E), (user_same_page va va' E). Qed.

Lemma translate_zero w va : 0 <= va -> 0 <= w -> (translate w va =? 0) = negb (Z.testbit w 0).
Proof.
  intros Hv Hw. unfold translate. change PHYS_BASE with 3221225472. destruct (Z.testbit w 0); [|done].
  apply Z.eqb_neq. pose proof (Z.mod_pos_bound va 4096 ltac:(lia)). pose proof (Z.div_pos w 4096). lia.
Qed.
Lemma pte_word s pd T va : dir_ok s pd T -> user_addr va -> is_word (pte_of s T va).
Proof.
  intros Hd Hva. destruct (T !! pd_no va) as [pt|] eqn:E; [by apply (pte_addr_some s pd T va pt Hd Hva E)|]. unfold pte_of. rewrite E. done.
Qed.

(** ** The validation of pointers *)

Definition probed (s : vm) (T : gmap Z Z) (buffer k n : Z) : bool :=
  forallb (fun i => present s T (u32 (buffer + i * 4000))) (seqZ k n).
Lemma probe_loop_run s pd T buffer n : dir_ok s pd T -> forall i,
  probe_loop n pd buffer i s = Ok (probed s T buffer i (Z.of_nat n), s).
Proof.
  intros Hd. induction n as [|n IH]; intros i; cbn [probe_loop]; [done|]. unfold probed.
  rewrite (seqZ_cons i) by lia. cbn [forallb]. replace (Z.pred (Z.of_nat (S n))) with (Z.of_nat n) by lia. change (forallb _ (seqZ _ (Z.of_nat n))) with (probed s T buffer (Z.succ i) (Z.of_nat n)).
  pose proof (wrapu_range 32 (buffer + i * 4000) ltac:(lia)) as Hr. set (a := u32 _) in *. unfold present.
  destruct (is_user_vaddr a) eqn:Eu; cbn [negb andb]; [|done]. assert (user_addr a) as Ha by (apply Z.ltb_lt in Eu; split; [lia|done]).
  erewrite bind_eq; [|by apply (pagedir_get_page_run s pd T)]. rewrite translate_zero; [|lia|by apply (pte_word s pd T a)].
  destruct (Z.testbit (pte_of s T a) 0); cbn [negb andb]; [|done]. exact (IH (i + 1)).
Qed.

(** What [is_valid_pointer] computes: the address is not null, and each of the addresses
    [4000] bytes apart is mapped. *)
Definition valid (s : vm) (T : gmap Z Z) (buffer size : Z) : bool :=
  negb (buffer =? 0) && probed s T buffer 0 (Z.quot size 4000 + 1).
Lemma is_valid_pointer_run s pd T buffer size : dir_ok s pd T ->
  is_valid_pointer pd buffer size s = Ok (valid s T buffer size, s).
Proof.
  intros Hd. unfold is_valid_pointer, valid. destruct (buffer =? 0); [done|]. cbn [negb andb].
  rewrite (probe_loop_run s pd T) by done. unfold probed, seqZ. by rewrite Nat2Z.id.
Qed.

Lemma probed_lookup s T buffer n i : probed s T buffer 0 n = true -> 0 <= i < n -> present s T (u32 (buffer + i * 4000)) = true.
Proof. unfold probed. rewrite forallb_forall. intros H Hi. apply H, list_elem_of_In, elem_of_seqZ. lia. Qed.
(** No address between two probes lies in a page of its own. *)
Lemma between_probes a b va : a <= va -> va < b -> b <= a + 4000 -> va / 4096 = a / 4096 \/ va / 4096 = b / 4096.
Proof.
  intros H1 H2 H3. pose proof (Z.div_mod a 4096 ltac:(lia)). pose proof (Z.div_mod b 4096 ltac:(lia)). pose proof (Z.div_mod va 4096 ltac:(lia)).
  pose proof (Z.mod_pos_bound a 4096 ltac:(lia)). pose proof (Z.mod_pos_bound b 4096 ltac:(lia)). pose proof (Z.mod_pos_bound va 4096 ltac:(lia)). lia.
Qed.
(** The probes do not wrap around the address space. *)
Lemma probed_straight s T buffer n : 0 <= buffer < 2 ^ 32 -> probed s T buffer 0 n = true -> forall i : nat, Z.of_nat i < n ->
  buffer + Z.of_nat i * 4000 < PHYS_BASE.
Proof.
  intros Hb Hp. induction i as [|i IH]; intros Hi; pose proof (probed_lookup _ _ _ _ _ Hp (conj (Nat2Z.is_nonneg _) Hi)) as [Hu _]%andb_prop; apply Z.ltb_lt in Hu.
  - rewrite wrapu_small in Hu by lia. done.
  - specialize (IH ltac:(lia)). change PHYS_BASE with 3221225472 in *. rewrite wrapu_small in Hu by lia. done.
Qed.
Lemma probed_covers s T buffer k : 0 <= buffer < 2 ^ 32 -> probed s T buffer 0 (k + 1) = true ->
  forall va, buffer <= va <= buffer + 4000 * k -> present s T va = true.
Proof.
  intros Hb Hp va Hva. set (i := (va - buffer) / 4000). pose proof (Z.div_mod (va - buffer) 4000 ltac:(lia)) as Ei.
  pose proof (Z.mod_pos_bound (va - buffer) 4000 ltac:(lia)). fold i in Ei. assert (0 <= i) by (apply Z.div_pos; lia).
  assert (forall j, 0 <= j <= k -> present s T (buffer + j * 4000) = true /\ buffer + j * 4000 < PHYS_BASE) as Hj.
  { intros j Hj. pose proof (probed_straight _ _ _ _ Hb Hp (Z.to_nat j)) as Hs. rewrite Z2Nat.id in Hs by lia. specialize (Hs ltac:(lia)).
    pose proof (probed_lookup _ _ _ _ j Hp ltac:(lia)) as Hl. change PHYS_BASE with 3221225472 in *. rewrite wrapu_small in Hl by lia. done. }
  destruct (decide (i = k)) as [->|Hne].
  - replace va with (buffer + k * 4000) by lia. apply Hj. lia.
  - destruct (between_probes (buffer + i * 4000) (buffer + (i + 1) * 4000) va) as [E|E]; [lia..| |]; rewrite (present_same_page _ _ _ _ E); apply Hj; lia.
Qed.

(** ** Accesses to user memory *)

Lemma bit_nonzero w k : 0 <= k -> negb (Z.land w (2 ^ k) =? 0) = Z.testbit w k.
Proof.
  intros Hk. destruct (Z.testbit w k) eqn:E.
  - apply negb_true_iff, Z.eqb_neq. intros H0. assert (Z.testbit (Z.land w (2 ^ k)) k = true); [|by rewrite H0, Z.bits_0 in *].
    by rewrite Z.land_spec, E, Z.pow2_bits_true.
  - apply negb_false_iff, Z.eqb_eq, Z.bits_inj'. intros j Hj. rewrite Z.land_spec, Z.bits_0, Z.pow2_bits_eqb by done.
    destruct (Z.eqb_spec k j) as [<-|]; [by rewrite E|apply andb_false_r].
Qed.
Lemma mmu_run s pd T write va : dir_ok s pd T -> user_addr va ->
  mmu pd write va s = Ok (if Z.testbit (pte_of s T va) 0 && (negb write || Z.testbit (pte_of s T va) 1)
                          then Some (LoaderFacts.frame_of (pte_of s T va) + va mod 4096) else None, s).
Proof.
  intros Hd Hva. unfold mmu, is_user_vaddr. rewrite (proj2 (Z.ltb_lt va PHYS_BASE)) by apply Hva.
  erewrite bind_eq; [|by apply (lookup_page_run s pd T)]. destruct (T !! pd_no va) as [pt|] eqn:E.
  - destruct (pte_addr_some s pd T va pt Hd Hva E) as (Ea & Hn & Hm & Hw & Hok & Er). rewrite (proj2 (Z.eqb_neq _ 0) Hn), Ea.
    erewrite bind_eq; [|by apply load_entry_run]. rewrite Er. rewrite <- (negb_involutive (Z.land _ PTE_P =? 0)), <- (negb_involutive (Z.land _ PTE_W =? 0)).
    rewrite odd_bit. change PTE_W with (2 ^ 1). rewrite bit_nonzero by lia. set (w := pte_of s T va) in *.
    destruct (Z.testbit w 0) eqn:E0; cbn [negb orb andb]; [|done]. destruct write, (Z.testbit w 1); cbn [negb orb andb]; try done.
    all: erewrite bind_eq; [|unfold lift; rewrite pte_get_page_run by auto; reflexivity]; rewrite pg_ofs_mod; specialize (Hok E0); unfold LoaderFacts.frame_of;
      pose proof (Z.mod_pos_bound va 4096 ltac:(lia)); change PHYS_BASE with 3221225472 in *; pose proof (Z.div_pos w 4096 ltac:(apply Hw) ltac:(lia)); by rewrite wrapu_small by lia.
  - unfold pte_addr, pte_of. rewrite E. cbn [Z.eqb]. by rewrite Z.bits_0.
Qed.

(** ** Computations of a process *)

Section process.
Context {S : Type} `{BufferFacts.SectorStore S}.
Implicit Types (p : process S).

Lemma on_vm_same {A} (c : M vm A) p x : c (pvm p) = Ok (x, pvm p) -> on_vm c p = Ok (x, p).
Proof. unfold on_vm. intros ->. by destruct p. Qed.
Lemma on_mem_same {A} (c : M mem A) p x : c (vram (pvm p)) = Ok (x, vram (pvm p)) -> on_mem c p = Ok (x, p).
Proof. intros E. apply on_vm_same. rewrite (on_ram_run _ _ _ _ E). by rewrite set_vram_same. Qed.

(** The address space of the process. *)
Definition space (n : Z) p (T : gmap Z Z) : Prop := LoaderFacts.space_ok n (pvm p) (pagedir p) T.
Definition ubyte p (T : gmap Z Z) (va : Z) : option Z := LoaderFacts.user_byte (pvm p) T va.

Lemma valid_pointer_run n p T buffer size : space n p T -> valid_pointer buffer size p = Ok (valid (pvm p) T buffer size, p).
Proof. intros Hs. unfold valid_pointer, bind, gets. apply on_vm_same, is_valid_pointer_run, Hs. Qed.

(** The byte at a mapped address. *)
Lemma present_byte n p T va : space n p T -> 0 <= va -> present (pvm p) T va = true ->
  exists b, ubyte p T va = Some b /\ vram (pvm p) !! (LoaderFacts.frame_of (pte_of (pvm p) T va) + va mod 4096) = Some b /\ is_byte b.
Proof.
  intros Hs H0 [Hu Hb]%andb_prop. assert (user_addr va) as Hva by (split; [done|by apply Z.ltb_lt]).
  pose proof (LoaderFacts.sp_used _ _ _ _ Hs va Hva Hb) as Hused. destruct (LoaderFacts.user_page_addr _ _ _ _ _ Hs Hused) as (_ & _ & _ & Hm & _).
  pose proof (Z.mod_pos_bound va 4096 ltac:(lia)). destruct (Hm (LoaderFacts.frame_of (pte_of (pvm p) T va) + va mod 4096) ltac:(lia)) as [b Eb].
  exists b. unfold ubyte, LoaderFacts.user_byte. rewrite Hb. split; [done|]. split; [done|]. exact (dir_bytes _ _ _ (LoaderFacts.sp_dir _ _ _ _ Hs) _ _ Eb).
Qed.

Lemma peek_run n p T va : space n p T -> 0 <= va -> present (pvm p) T va = true -> exists b, peek va p = Ok (b, p) /\ ubyte p T va = Some b.
Proof.
  intros Hs H0 Hp. destruct (present_byte n p T va Hs H0 Hp) as (b & Eu & Eb & _). exists b. split; [|done].
  apply andb_prop in Hp as [Hu Hb]. unfold peek. erewrite bind_eq; [|reflexivity].
  erewrite bind_eq; [|apply on_vm_same, (mmu_run _ _ T); [apply Hs|split; [done|by apply Z.ltb_lt]]]. rewrite Hb. cbn [andb negb orb].
  apply on_mem_same. unfold load. by rewrite Eb.
Qed.
Lemma user_load_run name n p T va : space n p T -> 0 <= va -> present (pvm p) T va = true ->
  exists b, user_load name va p = Ok (Some b, p) /\ ubyte p T va = Some b.
Proof.
  intros Hs H0 Hp. destruct (present_byte n p T va Hs H0 Hp) as (b & Eu & Eb & _). exists b. split; [|done].
  apply andb_prop in Hp as [Hu Hb]. unfold user_load. erewrite bind_eq; [|reflexivity].
  erewrite bind_eq; [|apply on_vm_same, (mmu_run _ _ T); [apply Hs|split; [done|by apply Z.ltb_lt]]]. rewrite Hb. cbn [andb negb orb].
  unfold run. erewrite bind_eq; [reflexivity|]. apply on_mem_same. unfold load. by rewrite Eb.
Qed.

(** ** Words on the user stack *)

Lemma u32_u32 a : u32 (u32 a) = u32 a.
Proof. apply Zmod_mod. Qed.

Definition user_word p (T : gmap Z Z) (a : Z) : option Z :=
  match ubyte p T a, ubyte p T (a + 1), ubyte p T (a + 2), ubyte p T (a + 3) with
  | Some b0, Some b1, Some b2, Some b3 => Some (le_decode [b0; b1; b2; b3])
  | _, _, _, _ => None
  end.
Definition word_ok p (T : gmap Z Z) (a : Z) : bool := negb (a =? 0) && present (pvm p) T a.

Lemma word_page a k : a mod 4 = 0 -> 0 <= k < 4 -> (a + k) / 4096 = a / 4096.
Proof.
  intros Ha Hk. pose proof (Z.div_mod a 4 ltac:(lia)). pose proof (Z.div_mod a 4096 ltac:(lia)). pose proof (Z.mod_pos_bound a 4096 ltac:(lia)).
  symmetry. apply (Z.div_unique _ _ _ (a mod 4096 + k)); [|lia].
  assert (exists q, a mod 4096 = 4 * q) as [q Eq]; [|lia]. exists (a / 4 - 1024 * (a / 4096)). lia.
Qed.
Lemma user_word_run name n p T a : space n p T -> 0 <= a -> a mod 4 = 0 -> present (pvm p) T a = true ->
  exists w, pbind (load_bytes name 4 a) (fun bs => pret (le_decode bs)) p = Ok (Some w, p) /\ user_word p T a = Some w.
Proof.
  intros Hs H0 Ha Hp. assert (a < PHYS_BASE) as Hlt by (apply andb_prop in Hp as [?%Z.ltb_lt _]; done).
  assert (a + 3 < PHYS_BASE) as Hlt3.
  { apply Z.ltb_lt. fold (is_user_vaddr (a + 3)). rewrite <- (user_same_page a (a + 3)); [by apply Z.ltb_lt|]. symmetry. by apply word_page. }
  change PHYS_BASE with 3221225472 in *.
  assert (forall k, 0 <= k < 4 -> exists b, user_load name (a + k) p = Ok (Some b, p) /\ ubyte p T (a + k) = Some b) as Hb.
  { intros k Hk. apply (user_load_run name n); [done|lia|]. rewrite <- Hp. by apply present_same_page, word_page. }
  destruct (Hb 0 ltac:(lia)) as (b0 & L0 & U0), (Hb 1 ltac:(lia)) as (b1 & L1 & U1), (Hb 2 ltac:(lia)) as (b2 & L2 & U2), (Hb 3 ltac:(lia)) as (b3 & L3 & U3).
  rewrite Z.add_0_r in L0, U0. exists (le_decode [b0; b1; b2; b3]). unfold user_word. rewrite U0, U1, U2, U3. split; [|done].
  unfold load_bytes, pbind. rewrite !wrapu_small by lia. replace (a + 1 + 1) with (a + 2) by lia. replace (a + 2 + 1) with (a + 3) by lia.
  unfold bind. by rewrite L0, L1, L2, L3.
Qed.

(** The [k] words from [a] on are mapped. *)
Fixpoint words_ok p (T : gmap Z Z) (k : nat) (a : Z) : bool :=
  match k with O => true | Datatypes.S k => word_ok p T (u32 a) && words_ok p T k (a + 4) end.
Lemma u32_add a b : u32 (u32 a + b) = u32 (a + b).
Proof. unfold wrapu. apply Zplus_mod_idemp_l. Qed.
Lemma args_loop_run n k p T : space n p T -> forall a, args_loop k (u32 a) p = Ok (words_ok p T k a, p).
Proof.
  intros Hs. induction k as [|k IH]; intros a; cbn [args_loop words_ok]; [done|].
  erewrite bind_eq; [|by apply (valid_pointer_run n)].
  assert (valid (pvm p) T (u32 a) 0 = word_ok p T (u32 a)) as ->.
  { unfold valid, word_ok, probed. cbn [Z.quot Z.add seqZ forallb]. change (seqZ 0 (0 ÷ 4000 + 1)) with [0]. cbn [forallb]. by rewrite Z.add_0_r, u32_u32, andb_true_r. }
  destruct (word_ok p T (u32 a)); [|done]. cbn [andb]. rewrite u32_add. apply IH.
Qed.
Lemma words_ok_lookup p T k : forall a i, words_ok p T k a = true -> 0 <= i < Z.of_nat k -> word_ok p T (u32 (a + 4 * i)) = true.
Proof.
  induction k as [|k IH]; intros a i; [lia|]. cbn [words_ok]. intros [Hw Hk]%andb_prop Hi. destruct (decide (i = 0)) as [->|]; [by rewrite Z.add_0_r|].
  specialize (IH (a + 4) (i - 1) Hk ltac:(lia)). by replace (a + 4 + 4 * (i - 1)) with (a + 4 * i) in IH by lia.
Qed.

(** The words that the handler reads have been checked. *)
Lemma arg_run name n k p T esp i : space n p T -> esp mod 4 = 0 -> words_ok p T k esp = true -> 0 <= i < Z.of_nat k ->
  exists w, arg name esp i p = Ok (Some w, p) /\ user_word p T (u32 (esp + 4 * i)) = Some w.
Proof.
  intros Hs Hal Hk Hi. pose proof (words_ok_lookup _ _ _ _ _ Hk Hi) as [_ Hp]%andb_prop. unfold arg.
  apply (user_word_run name n); [done|apply wrapu_range; lia| |done]. unfold wrapu.
  rewrite <- (Znumtheory.Zmod_div_mod 4 (2 ^ 32)) by (done || by exists (2 ^ 30)). by rewrite Z.mul_comm, Z_mod_plus_full.
Qed.

End process.

End SyscallFacts.
