(* ===== verification/SyscallProps.v ===== *)
(** * System calls: the properties *)

From S2P Require Import Prelude Bytes CString CStringFacts VAddr Ram Palloc PageDir PageDirFacts PageDirProps Loader LoaderFacts FdTable.
From S2P Require Import Block Buffer BufferFacts Inode InodeFacts InodeProps Filesys LoaderProps Syscall SyscallFacts.
Import Bytes CString CStringFacts VAddr Ram Palloc PageDir PageDirFacts PageDirProps FdTable Syscall SyscallFacts.

Module SyscallProps.

(** ** The validation of pointers *)

Lemma valid_accepts s T buffer size : 0 < buffer -> 0 <= size -> (forall va, buffer <= va <= buffer + size -> present s T va = true) ->
  valid s T buffer size = true.
Proof.
  intros Hb Hsz Hall. unfold valid. rewrite Z.quot_div_nonneg by lia. rewrite (proj2 (Z.eqb_neq _ _)) by lia.
  apply forallb_forall. intros i Hi%list_elem_of_In%elem_of_seqZ. pose proof (Z.mul_div_le size 4000 ltac:(lia)).
  assert (buffer + i * 4000 < PHYS_BASE) by (specialize (Hall (buffer + i * 4000) ltac:(lia)); apply andb_prop in Hall as [?%Z.ltb_lt _]; done).
  change PHYS_BASE with 3221225472 in *. rewrite wrapu_small by lia. apply Hall. lia.
Qed.

(** C22: [is_valid_pointer] returns, without a change, for every address and size.  What it accepts
    is mapped from the first byte to the last multiple of 4000 bytes, pages between the probed
    addresses included; and it accepts a buffer all of whose bytes, and the one after the
    last, are mapped.  A size between -3999 and -1 is handled as 0; a size of -4000 or less
    makes it accept every address but the null pointer, mapped or not. *)
Theorem is_valid_pointer_correct s pd T buffer size : dir_ok s pd T -> 0 <= buffer < 2 ^ 32 -> - 2 ^ 31 <= size < 2 ^ 31 ->
  exists b, is_valid_pointer pd buffer size s = Ok (b, s) /\
    (b = true -> buffer <> 0) /\
    (-4000 < size -> b = true -> forall va, buffer <= va <= buffer + 4000 * (Z.max 0 size / 4000) -> present s T va = true) /\
    (-4000 < size -> buffer <> 0 -> (forall va, buffer <= va <= buffer + Z.max 0 size -> present s T va = true) -> b = true) /\
    (size <= -4000 -> b = negb (buffer =? 0)).
Proof.
  intros Hd Hb Hsz. exists (valid s T buffer size). split; [by apply is_valid_pointer_run|].
  assert (-4000 < size -> Z.quot size 4000 = Z.quot (Z.max 0 size) 4000) as Hq.
  { intros Hlo. destruct (decide (0 <= size)); [by rewrite Z.max_r by lia|]. rewrite Z.max_l by lia.
    rewrite <- (Z.opp_involutive size), Z.quot_opp_l by lia. by rewrite (Z.quot_small (- size)) by lia. }
  split; [intros [Hn _]%andb_prop; by apply Z.eqb_neq, negb_true_iff|]. split; [|split].
  - intros Hlo. unfold valid. rewrite Hq, Z.quot_div_nonneg by lia. intros [_ Hp]%andb_prop. by apply probed_covers.
  - intros Hlo Hn Hall. unfold valid. rewrite Hq by done. apply (valid_accepts s T buffer (Z.max 0 size)); [lia|lia|done].
  - intros Hlo. unfold valid, probed. rewrite seqZ_nil; [apply andb_true_r|].
    pose proof (Z.quot_le_mono size (-4000) 4000 ltac:(lia) Hlo) as Hq'. change (Z.quot (-4000) 4000) with (-1) in Hq'. lia.
Qed.

(** What [is_valid_pointer] does not see: the answer does not depend on the bytes after the
    last multiple of 4000, and every address but the null pointer passes, the kernel's
    included, when the size is -4000 or less. *)
Theorem is_valid_pointer_unchecked s pd buffer size :
  (forall size', Z.quot size' 4000 = Z.quot size 4000 -> is_valid_pointer pd buffer size' s = is_valid_pointer pd buffer size s) /\
  (size <= -4000 -> buffer <> 0 -> is_valid_pointer pd buffer size s = Ok (true, s)).
Proof.
  unfold is_valid_pointer. split; [by intros size' ->|]. intros Hsz Hb. rewrite (proj2 (Z.eqb_neq _ _) Hb).
  replace (Z.to_nat _) with 0%nat; [done|]. pose proof (Z.quot_le_mono size (-4000) 4000 ltac:(lia) Hsz) as Hq.
  change (Z.quot (-4000) 4000) with (-1) in Hq. lia.
Qed.

Section calls.
Context {S : Type} `{HS : BufferFacts.SectorStoreLaws S} `{CacheOps S}.
Context (name_addr : Z) (typed : Z -> Z) (part junk junk_entry : list Z).
Context (process_execute process_wait : Z -> M (process S) Z) (load_code : Z -> M (process S) (option Z)).
Implicit Types (p : process S).

(** ** Decoding *)

(** The number of arguments of a call. *)
Definition arity (nr : Z) : nat :=
  if bool_decide (nr ∈ [SYS_READ; SYS_WRITE]) then 3
  else if bool_decide (nr ∈ [SYS_CREATE; SYS_SEEK; SYS_READDIR]) then 2
  else if bool_decide (nr ∈ [SYS_PRACTICE; SYS_EXIT; SYS_OPEN; SYS_FILESIZE; SYS_TELL; SYS_CLOSE; SYS_REMOVE; SYS_EXEC;
                             SYS_WAIT; SYS_MKDIR; SYS_CHDIR; SYS_ISDIR; SYS_INUMBER]) then 1
  else 0.
(** What a call with the arguments [a], [b] and [c] does. *)
Definition call (nr a b c : Z) : P unit :=
  if nr =? SYS_PRACTICE then do_practice a
  else if nr =? SYS_EXIT then do_exit name_addr a
  else if nr =? SYS_READ then do_read name_addr typed a b c
  else if nr =? SYS_WRITE then do_write name_addr a b c
  else if nr =? SYS_CREATE then do_create name_addr part junk a b
  else if nr =? SYS_OPEN then do_open name_addr part a
  else if nr =? SYS_FILESIZE then do_filesize a
  else if nr =? SYS_SEEK then do_seek a b
  else if nr =? SYS_TELL then do_tell a
  else if nr =? SYS_CLOSE then do_close a
  else if nr =? SYS_REMOVE then do_remove name_addr part a
  else if nr =? SYS_EXEC then do_exec name_addr process_execute load_code a
  else if nr =? SYS_WAIT then do_wait process_wait a
  else if nr =? SYS_MKDIR then do_mkdir name_addr part junk junk_entry a
  else if nr =? SYS_CHDIR then do_chdir name_addr part a
  else if nr =? SYS_READDIR then do_readdir name_addr a b
  else if nr =? SYS_ISDIR then do_isdir name_addr a
  else if nr =? SYS_INUMBER then do_inumber name_addr a
  else if nr =? SYS_BUFFER_CLEAN then run (on_fs (Inode.on_store cache_clean))
  else if nr =? SYS_BUFFER_HIT_RATE then do_hit_rate
  else if nr =? SYS_BUFFER_READ_NUM then do_read_num
  else if nr =? SYS_BUFFER_WRITE_NUM then do_write_num
  else pret tt.

(** The word at the place [i] of the user's stack. *)
Definition stacked p (T : gmap Z Z) (esp i : Z) : Z := default 0 (user_word p T (u32 (esp + 4 * i))).

Lemma arg_stacked n k p T esp i : space n p T -> esp mod 4 = 0 -> words_ok p T k esp = true -> 0 <= i < Z.of_nat k ->
  forall B (f : Z -> P B), pbind (arg name_addr esp i) f p = f (stacked p T esp i) p.
Proof.
  intros Hs Hal Hk Hi B f. destruct (arg_run name_addr n k p T esp i Hs Hal Hk Hi) as (w & E & Ew).
  unfold pbind, stacked. rewrite Ew. by erewrite bind_eq; [|exact E].
Qed.
Lemma with_args_run n k p T esp c : space n p T -> 0 <= esp < 2 ^ 32 ->
  with_args name_addr k esp c p = if words_ok p T k esp then c p else bad_call name_addr p.
Proof.
  intros Hs He. unfold with_args, is_args_valid. pose proof (args_loop_run n k p T Hs esp) as E. rewrite wrapu_small in E by done.
  erewrite bind_eq; [|exact E]. by destruct (words_ok p T k esp).
Qed.
Lemma with_1_run n p T esp k : space n p T -> 0 <= esp < 2 ^ 32 -> esp mod 4 = 0 ->
  with_1 name_addr esp k p = if words_ok p T 2 esp then k (stacked p T esp 1) p else bad_call name_addr p.
Proof.
  intros Hs He Hal. unfold with_1. rewrite (with_args_run n 2 p T) by done. destruct (words_ok p T 2 esp) eqn:Hk; [|done].
  by rewrite (arg_stacked n 2 p T).
Qed.
Lemma with_2_run n p T esp k : space n p T -> 0 <= esp < 2 ^ 32 -> esp mod 4 = 0 ->
  with_2 name_addr esp k p = if words_ok p T 3 esp then k (stacked p T esp 1) (stacked p T esp 2) p else bad_call name_addr p.
Proof.
  intros Hs He Hal. unfold with_2. rewrite (with_args_run n 3 p T) by done. destruct (words_ok p T 3 esp) eqn:Hk; [|done].
  by rewrite !(arg_stacked n 3 p T).
Qed.
Lemma with_3_run n p T esp k : space n p T -> 0 <= esp < 2 ^ 32 -> esp mod 4 = 0 ->
  with_3 name_addr esp k p =
    if words_ok p T 4 esp then k (stacked p T esp 1) (stacked p T esp 2) (stacked p T esp 3) p else bad_call name_addr p.
Proof.
  intros Hs He Hal. unfold with_3. rewrite (with_args_run n 4 p T) by done. destruct (words_ok p T 4 esp) eqn:Hk; [|done].
  by rewrite !(arg_stacked n 4 p T).
Qed.

Notation handler := (syscall_handler name_addr typed part junk junk_entry process_execute process_wait load_code).

Lemma handler_decodes n p T esp : space n p T -> 0 <= esp < 2 ^ 32 -> esp mod 4 = 0 ->
  handler esp p =
    let nr := stacked p T esp 0 in
    if words_ok p T 1 esp && words_ok p T (1 + arity nr) esp
    then call nr (stacked p T esp 1) (stacked p T esp 2) (stacked p T esp 3) p
    else bad_call name_addr p.
Proof.
  intros Hs He Hal. unfold syscall_handler. rewrite (with_args_run n 1 p T) by done. cbv zeta. destruct (words_ok p T 1 esp) eqn:Hk; cbn [andb]; [|reflexivity].
  rewrite (arg_stacked n 1 p T) by done. set (nr := stacked p T esp 0) in *. clearbody nr. cbn [andb]. unfold dispatch, call.
  repeat match goal with
  | |- context [nr =? ?c] =>
      destruct (Z.eqb_spec nr c) as [->|?];
      [let k := eval vm_compute in (1 + arity c)%nat in change (1 + arity c)%nat with k;
       first [rewrite (with_1_run n p T) by done | rewrite (with_2_run n p T) by done | rewrite (with_3_run n p T) by done | rewrite Hk]; reflexivity|]
  end.
  assert (arity nr = 0%nat) as ->; [|change (1 + 0)%nat with 1%nat; rewrite Hk; reflexivity]. unfold arity. rewrite !bool_decide_eq_false_2 by (rewrite !not_elem_of_cons; repeat split; try done; apply not_elem_of_nil).
  done.
Qed.

(** C10: Whatever the user's stack pointer, an aligned one: the system call handler ends the
    process with status -1 when the number of the call or one of the arguments that the call
    takes is not in mapped user memory; otherwise it performs the call with that number and
    with the words of the user's stack as arguments.  A number that has no case does nothing;
    [SYS_HALT] is one of these, so that the call that should stop the machine returns to the
    user program. *)
Theorem syscall_handler_decodes n p T esp : space n p T -> 0 <= esp < 2 ^ 32 -> esp mod 4 = 0 ->
  (handler esp p =
    let nr := stacked p T esp 0 in
    if words_ok p T 1 esp && words_ok p T (1 + arity nr) esp
    then call nr (stacked p T esp 1) (stacked p T esp 2) (stacked p T esp 3) p
    else bad_call name_addr p) /\
  (words_ok p T 1 esp = true -> stacked p T esp 0 = SYS_HALT -> handler esp p = Ok (Some tt, p)).
Proof.
  intros Hs He Hal. pose proof (handler_decodes n p T esp Hs He Hal) as E. split; [exact E|]. intros Hk Eh.
  rewrite E. cbv zeta. rewrite Eh, Hk. change (1 + arity SYS_HALT)%nat with 1%nat. by rewrite Hk.
Qed.

(** C39: Calls by which a user program stops the kernel: starting the program named at a
    kernel address, moving to a position of a file that is negative as an [off_t], and asking
    for the size or the position of an open directory. *)
Theorem user_stops_kernel p : 
  (forall cmd_line, PHYS_BASE <= cmd_line -> do_exec name_addr process_execute load_code cmd_line p = Err AssertFail) /\
  (forall n pair position, get_file_pair (s32 n) (fd_list p) = Some pair -> 2 ^ 31 <= position < 2 ^ 32 ->
     do_seek n position p = Err AssertFail) /\
  (forall n pair, get_file_pair (s32 n) (fd_list p) = Some pair -> pair_f pair = None ->
     do_filesize n p = Err AssertFail /\ do_tell n p = Err AssertFail).
Proof.
  split; [|split].
  - intros cmd Hc. unfold do_exec. erewrite bind_eq; [|reflexivity]. apply bind_err. unfold on_vm, pagedir_get_page, is_user_vaddr.
    rewrite (proj2 (Z.ltb_ge _ _)) by done. done.
  - intros n pair position Hp Hpos. unfold do_seek, get_pair. erewrite bind_eq; [|unfold gets; rewrite Hp; reflexivity]. unfold file_of.
    destruct (pair_f pair) as [f|]; [|done]. erewrite bind_eq; [|reflexivity]. unfold run. apply bind_err. unfold on_fs, Inode.file_seek.
    replace (s32 position >=? 0) with false; [done|]. symmetry. unfold wraps. change (2 ^ (32 - 1)) with (2 ^ 31).
    rewrite <- (Z.mod_unique (position + 2 ^ 31) (2 ^ 32) 1 (position + 2 ^ 31 - 2 ^ 32)) by lia. rewrite Z.geb_leb. apply Z.leb_gt. lia.
  - intros n pair Hp Hf. unfold do_filesize, do_tell, get_pair. split; erewrite bind_eq; [|unfold gets; rewrite Hp; reflexivity| |unfold gets; rewrite Hp; reflexivity].
    all: unfold file_of; rewrite Hf; done.
Qed.

(** ** Reading a file into user memory *)

(** Every page of the process has a frame of its own. *)
Definition private p (T : gmap Z Z) : Prop := forall va va', user_addr va -> user_addr va' ->
  present (pvm p) T va = true -> present (pvm p) T va' = true ->
  LoaderFacts.frame_of (pte_of (pvm p) T va) = LoaderFacts.frame_of (pte_of (pvm p) T va') -> va / 4096 = va' / 4096.

(** The memory of the process after a change of its contents. *)
Record memory_changed n p p' (T : gmap Z Z) (f : Z -> option Z) : Prop := {
  mc_vm : p' = with_vm (pvm p') p;
  mc_space : space n p' T;
  mc_pte : forall va, user_addr va -> pte_of (pvm p') T va = pte_of (pvm p) T va;
  mc_byte : forall va, user_addr va -> ubyte p' T va = f va }.

Lemma poke_run n p T va b : space n p T -> private p T -> user_addr va -> writable (pvm p) T va = true -> is_byte b ->
  exists p', poke va b p = Ok (tt, p') /\ memory_changed n p p' T (fun x => if x =? va then Some b else ubyte p T x).
Proof.
  intros Hs Hpr Hva Hw Hb. pose proof Hw as [Hp Hw1]%andb_prop. pose proof Hp as [_ Hb0]%andb_prop.
  destruct (present_byte n p T va Hs (proj1 Hva) Hp) as (b0 & _ & Eb & _). set (a := LoaderFacts.frame_of (pte_of (pvm p) T va)) in *.
  set (m := <[a + va mod 4096 := b]> (vram (pvm p))). pose proof (Z.mod_pos_bound va 4096 ltac:(lia)) as Hm.
  exists (with_vm (set_vram m (pvm p)) p). split.
  { unfold poke. erewrite bind_eq; [|reflexivity]. erewrite bind_eq; [|apply on_vm_same, (mmu_run _ _ T); [apply Hs|done]].
    rewrite Hb0, Hw1. cbn [negb orb andb]. unfold on_mem, on_vm. erewrite on_ram_run; [reflexivity|]. unfold store. fold a. by rewrite Eb. }
  pose proof (LoaderFacts.sp_used _ _ _ _ Hs va Hva Hb0) as Hu.
  destruct (LoaderFacts.write_page_ok n (pvm p) (pagedir p) T a m Hs Hu) as (Hs' & Hpte & _).
  { unfold m. split; [intros x Hx; apply lookup_insert_ne; lia|]. intros x. destruct (decide (x = a + va mod 4096)) as [->|]; [rewrite lookup_insert_eq; eauto|by rewrite lookup_insert_ne]. }
  { intros x c. unfold m. rewrite lookup_insert. case_decide; [by intros [= <-]|]. apply (dir_bytes _ _ _ (LoaderFacts.sp_dir _ _ _ _ Hs)). }
  split; [done|exact Hs'|exact Hpte|]. intros x Hx. unfold ubyte, LoaderFacts.user_byte. cbn [pvm with_vm]. rewrite Hpte by done.
  change (vram (set_vram m (pvm p))) with m. destruct (Z.testbit (pte_of (pvm p) T x) 0) eqn:Ex; [|destruct (Z.eqb_spec x va) as [->|]; [congruence|done]].
  assert (present (pvm p) T x = true) as Hpx by (unfold present; rewrite Ex, andb_true_r; by apply Z.ltb_lt, Hx).
  destruct (Z.eqb_spec x va) as [->|Hne]; [apply lookup_insert_eq|]. apply lookup_insert_ne. intros E.
  pose proof (LoaderFacts.sp_used _ _ _ _ Hs x Hx Ex) as Hux. pose proof (Z.mod_pos_bound x 4096 ltac:(lia)).
  destruct (decide (LoaderFacts.frame_of (pte_of (pvm p) T x) = a)) as [Ea|Ea].
  - pose proof (Hpr x va Hx Hva Hpx Hp Ea). pose proof (Z.div_mod x 4096). pose proof (Z.div_mod va 4096). lia.
  - destruct (LoaderFacts.user_pages_apart _ _ _ Hux Hu Ea); lia.
Qed.

(** Bytes put into writable memory from [va] on. *)
Definition written (bs : list Z) (va : Z) (f : Z -> option Z) (x : Z) : option Z :=
  if (va <=? x) && (x <? va + Z.of_nat (length bs)) then bs !! Z.to_nat (x - va) else f x.
Lemma written_cons b bs va f x : written bs (va + 1) (fun x => if x =? va then Some b else f x) x = written (b :: bs) va f x.
Proof.
  unfold written. cbn [length]. cbv beta. destruct (Z.eqb_spec x va) as [->|Hne].
  - rewrite (proj2 (Z.leb_gt (va + 1) va)), Z.leb_refl, (proj2 (Z.ltb_lt va (va + Z.of_nat (Datatypes.S _)))), Z.sub_diag by lia. done.
  - destruct (Z.leb_spec (va + 1) x), (Z.leb_spec va x); try lia; cbn [andb]; [|done]. replace (va + 1 + Z.of_nat (length bs)) with (va + Z.of_nat (Datatypes.S (length bs))) by lia.
    destruct (_ <? _); [|done]. replace (Z.to_nat (x - va)) with (Datatypes.S (Z.to_nat (x - (va + 1)))) by lia. done.
Qed.

Lemma changed_private n p p' T f : memory_changed n p p' T f -> private p T -> private p' T.
Proof.
  intros [_ _ Hpte _] Hpr va va' Hva Hva'. unfold present. rewrite !Hpte by done. by apply Hpr.
Qed.
Lemma changed_trans n p p1 p2 T f g : memory_changed n p p1 T f -> memory_changed n p1 p2 T g -> memory_changed n p p2 T g.
Proof.
  intros [E1 _ H1 _] [E2 S2 H2 B2]. split; [|done| |done].
  - rewrite E2, E1. by destruct p.
  - intros va Hva. by rewrite H2, H1.
Qed.
Lemma changed_ext n p p' T f g : memory_changed n p p' T f -> (forall va, user_addr va -> f va = g va) -> memory_changed n p p' T g.
Proof. intros [E Sp Hpte Hb] Hfg. split; [done..|]. intros va Hva. by rewrite Hb, Hfg. Qed.

Lemma deliver_run n T bs : forall p va, space n p T -> private p T -> 0 <= va -> va + Z.of_nat (length bs) <= PHYS_BASE ->
  (forall x, va <= x < va + Z.of_nat (length bs) -> writable (pvm p) T x = true) -> Forall is_byte bs ->
  exists p', deliver bs va p = Ok (tt, p') /\ memory_changed n p p' T (written bs va (ubyte p T)).
Proof.
  induction bs as [|b bs IH]; intros p va Hs Hpr Hva0 Hend Hw Hb; cbn [deliver length] in *; change PHYS_BASE with 3221225472 in *.
  - exists p. split; [done|]. split; [by destruct p|done|done|]. intros x Hx. unfold written. cbn [length]. destruct (Z.leb_spec va x), (Z.ltb_spec x (va + Z.of_nat 0)); try lia; done.
  - apply Forall_cons in Hb as [Hb Hbs]. destruct (poke_run n p T va b) as (p1 & E1 & C1); [done|done|split; [lia|change PHYS_BASE with 3221225472; lia]|apply Hw; lia|done|].
    erewrite bind_eq; [|exact E1]. destruct (decide (bs = [])) as [->|Hne].
    { exists p1. split; [done|]. apply (changed_ext _ _ _ _ _ _ C1). intros x _. rewrite <- written_cons. unfold written. cbn [length].
      destruct (Z.leb_spec (va + 1) x), (Z.ltb_spec x (va + 1 + Z.of_nat 0)); try lia; done. }
    assert (0 < length bs)%nat by (by destruct bs; [|cbn; lia]). rewrite wrapu_small by lia.
    destruct (IH p1 (va + 1)) as (p' & E & C); [apply C1|by eapply changed_private|lia|lia| |done|].
    { intros x Hx. unfold writable, present. rewrite (mc_pte _ _ _ _ _ C1) by (split; [lia|change PHYS_BASE with 3221225472; lia]). apply Hw. lia. }
    exists p'. split; [exact E|]. apply (changed_ext _ _ _ _ _ _ (changed_trans _ _ _ _ _ _ _ C1 C)). intros x Hx. rewrite <- written_cons.
    unfold written. destruct (_ && _); [done|]. by rewrite (mc_byte _ _ _ _ _ C1).
Qed.

(** The call [read] on an open file gives the process the bytes of the file from the
    current position, as many as asked for or as are left: it returns their number, they are
    in the buffer, no other byte of the process changes, and the position moves past them. *)
Theorem sys_read_correct n p T k e f bs pos buffer size :
  space n p T -> private p T -> k <> 0 -> get_file_pair k (fd_list p) = Some e -> pair_is_dir e = false -> pair_f e = Some f ->
  LoaderProps.fs_holds (pfs p) f bs pos -> 0 <= pos -> 0 <= size -> pos + size < 2 ^ 31 -> 0 < buffer ->
  (forall va, buffer <= va <= buffer + size -> present (pvm p) T va = true) ->
  (forall va, buffer <= va < buffer + size -> writable (pvm p) T va = true) ->
  let data := sub_bytes pos size bs in
  exists p', sys_read_handler name_addr typed k buffer size p = Ok (Some (Z.of_nat (length data)), p') /\
    LoaderProps.fs_holds (pfs p') f bs (pos + Z.of_nat (length data)) /\ space n p' T /\
    (forall va, user_addr va -> ubyte p' T va = written data buffer (ubyte p T) va) /\
    fd_list p' = fd_list p /\ console p' = console p /\ pagedir p' = pagedir p.
Proof.
  intros Hs Hpr Hk He Hd Hf Hh Hpos Hsz Hlt Hb0 Hpre Hwr. cbn zeta. set (data := sub_bytes pos size bs).
  assert (buffer + size < PHYS_BASE) as Hend by (specialize (Hpre (buffer + size) ltac:(lia)); apply andb_prop in Hpre as [?%Z.ltb_lt _]; done).
  assert (Z.of_nat (length data) <= size) as Hlen by (by apply LoaderRun.sub_bytes_le).
  destruct (LoaderFacts.holds_bytes (FileLaws := LoaderProps.fs_file_laws part) (pfs p) f bs pos Hh) as [Hbytes _].
  destruct (LoaderFacts.read_law (FileLaws := LoaderProps.fs_file_laws part) (pfs p) f bs pos size Hh Hpos ltac:(lia) Hlt) as (s' & Er & Hh').
  set (p1 := with_fs s' p).
  destruct (deliver_run n T data p1 buffer) as (p' & Ed & C); [done|done|lia|lia| |by apply LoaderRun.sub_bytes_Forall|].
  { intros x Hx. apply Hwr. lia. }
  exists p'. split.
  - unfold sys_read_handler. erewrite bind_eq; [|apply (valid_pointer_run n p T); done].
    rewrite valid_accepts by done.
    rewrite (proj2 (Z.eqb_neq _ _) Hk). unfold get_pair. erewrite bind_eq; [|reflexivity]. rewrite He, Hd. unfold file_of. rewrite Hf.
    erewrite bind_eq; [|reflexivity]. erewrite bind_eq; [|unfold on_fs; cbn in Er; rewrite Er; reflexivity]. by erewrite bind_eq; [|exact Ed].
  - destruct C as [Evm Hs' _ Hby]. rewrite Evm. split; [exact Hh'|]. split; [by rewrite Evm in Hs'|]. split; [|done].
    intros va Hva. rewrite Evm in Hby. by rewrite Hby.
Qed.

(** ** Writing to the console *)

Lemma putbuf_run n T k : forall p va bs, space n p T -> 0 <= va -> va + Z.of_nat k < PHYS_BASE -> length bs = k ->
  (forall i b, bs !! i = Some b -> ubyte p T (va + Z.of_nat i) = Some b /\ present (pvm p) T (va + Z.of_nat i) = true) ->
  Forall is_byte bs -> putbuf k va p = Ok (tt, with_console (console p ++ bs) p).
Proof.
  induction k as [|k IH]; intros p va bs Hs Hva0 Hend Hl Hbs Hb; change PHYS_BASE with 3221225472 in *; cbn [putbuf].
  - destruct bs; [|done]. rewrite app_nil_r. by destruct p.
  - destruct bs as [|b bs]; [done|]. apply Forall_cons in Hb as [Hb Hb']. destruct (Hbs 0%nat b eq_refl) as [Eb Hp]. rewrite Z.add_0_r in Eb, Hp.
    destruct (peek_run n p T va Hs Hva0 Hp) as (b' & E & Eb'). assert (b' = b) as -> by congruence. erewrite bind_eq; [|exact E].
    erewrite bind_eq; [|reflexivity]. rewrite (wrapu_small 8) by (unfold is_byte in Hb; lia). rewrite wrapu_small by lia.
    rewrite (IH _ (va + 1) bs); [|done|lia|change PHYS_BASE with 3221225472; lia|cbn in Hl; lia| |done].
    + do 2 f_equal. destruct p. unfold with_console. cbn. by rewrite <- app_assoc.
    + intros i c Hi. specialize (Hbs (Datatypes.S i) c Hi). by replace (va + 1 + Z.of_nat i) with (va + Z.of_nat (Datatypes.S i)) by lia.
Qed.

(** The call [write] on the console puts out the bytes of the buffer, in order, and nothing
    else changes; it returns their number. *)
Theorem sys_write_console n p T buffer bs : space n p T -> 0 < buffer -> Forall is_byte bs -> Z.of_nat (length bs) < 2 ^ 31 ->
  (forall va, buffer <= va <= buffer + Z.of_nat (length bs) -> present (pvm p) T va = true) ->
  (forall i b, bs !! i = Some b -> ubyte p T (buffer + Z.of_nat i) = Some b) ->
  sys_write_handler name_addr 1 buffer (Z.of_nat (length bs)) p = Ok (Some (Z.of_nat (length bs)), with_console (console p ++ bs) p).
Proof.
  intros Hs Hb0 Hby Hl Hpre Hbs.
  assert (buffer + Z.of_nat (length bs) < PHYS_BASE) as Hend by (specialize (Hpre (buffer + Z.of_nat (length bs)) ltac:(lia)); apply andb_prop in Hpre as [?%Z.ltb_lt _]; done).
  unfold sys_write_handler. erewrite bind_eq; [|by apply (valid_pointer_run n p T)].
  rewrite valid_accepts by (done || lia). cbn [negb Z.eqb Pos.eqb].
  rewrite wrapu_small, Nat2Z.id by lia. erewrite bind_eq; [reflexivity|]. apply (putbuf_run n T); [done|lia|done|done| |done].
  intros i c Hi. split; [by apply Hbs|]. apply Hpre. apply lookup_lt_Some in Hi. lia.
Qed.

End calls.

(** ** Instances *)

(** An address space with one page. *)
Definition sample_page : Z := 134512640.
Definition in_sample (va : Z) : Prop := sample_page <= va < sample_page + 4096.
Lemma in_sample_page va : in_sample va -> user_addr va /\ same_page va sample_page = true.
Proof.
  unfold in_sample, sample_page. intros Hva. split; [split; [lia|change PHYS_BASE with 3221225472; lia]|].
  apply Z.eqb_eq. change (134512640 / 4096) with 32840. symmetry. apply (Z.div_unique _ _ _ (va - 134512640)); lia.
Qed.
Lemma out_sample_page va : same_page va sample_page = true -> in_sample va.
Proof.
  intros E%Z.eqb_eq. unfold in_sample, sample_page in *. change (134512640 / 4096) with 32840 in E.
  pose proof (Z.div_mod va 4096 ltac:(lia)). pose proof (Z.mod_pos_bound va 4096 ltac:(lia)). lia.
Qed.
Lemma sample_space_with bs : Forall is_byte bs -> Z.of_nat (length bs) <= 4096 -> exists s pd T, LoaderFacts.space_ok (2 ^ 18) s pd T /\
  (forall va, in_sample va -> writable s T va = true /\ LoaderFacts.user_byte s T va = Some (nth (Z.to_nat (va - sample_page)) bs 0)) /\
  (forall va, user_addr va -> present s T va = true -> in_sample va).
Proof.
  intros Hbs Hlen. destruct sample_dir as (s & pd & Hd & Hni & Hk & Hu). pose proof (LoaderProps.empty_space s pd Hd Hni) as Hs.
  assert (forall va, pte_of s ∅ va = 0) as Hz by (intros va; unfold pte_of; by rewrite lookup_empty).
  destruct (LoaderFacts.take_page_run (2 ^ 18) s pd ∅ 6 Hs eq_refl eq_refl) as [(a & s1 & _ & Hs1 & Ha & Hp1 & _ & _ & _ & Ek)|[Hno _]]; [|by destruct Hu].
  assert (user_addr sample_page) as Hsp by (split; [done|change PHYS_BASE with 3221225472; done]).
  destruct (LoaderRun.fill_page_run (2 ^ 18) s1 pd ∅ a bs (Z.of_nat (length bs)) Hs1 Ha Hbs) as (_ & _ & _ & _ & m & _ & F & B & V); [lia|lia|].
  destruct (LoaderFacts.write_page_ok (2 ^ 18) s1 pd ∅ a m Hs1 Ha F B) as (Hs1' & Hp1' & Hu1).
  destruct (LoaderFacts.install_page_run (2 ^ 18) (set_vram m s1) pd ∅ sample_page a true Hs1') as [(s2 & T & _ & Hs2 & _ & Hram & Hsame & Hdiff)|[Hno _]].
  { by apply Hu1. } { done. } { done. } { by rewrite Hp1', Hp1, Hz by done. } 2:{ destruct Hk. by rewrite <- Ek. }
  exists s2, pd, T. split; [exact Hs2|]. split.
  - intros va Hva. destruct (in_sample_page va Hva) as [Hv Hp]. destruct (Hsame va Hv Hp) as (H0 & H1 & Hf). unfold writable, present, is_user_vaddr, LoaderFacts.user_byte.
    rewrite H0, H1, Hf, (proj2 (Z.ltb_lt _ _)) by apply Hv. split; [done|]. pose proof (Z.mod_pos_bound va 4096 ltac:(lia)).
    assert (va mod 4096 = va - sample_page) as Em by (unfold in_sample, sample_page in *; symmetry; apply (Z.mod_unique _ _ 32840); lia).
    rewrite (Hram a) by (lia || by apply Hu1). rewrite Em in *. change (vram (set_vram m s1)) with m. rewrite V by lia. f_equal.
    destruct (Z.ltb_spec (va - sample_page) (Z.of_nat (length bs))); [done|]. by rewrite nth_overflow by lia.
  - intros va Hva [_ Hb0]%andb_prop. destruct (same_page va sample_page) eqn:Hp; [by apply out_sample_page|]. rewrite Hdiff, Hp1', Hp1, Hz in Hb0 by done. done.
Qed.
(** The page is filled with zeros. *)
Lemma sample_space : exists s pd T, LoaderFacts.space_ok (2 ^ 18) s pd T /\
  (forall va, in_sample va -> writable s T va = true /\ LoaderFacts.user_byte s T va = Some 0) /\
  (forall va, user_addr va -> present s T va = true -> in_sample va).
Proof.
  destruct (sample_space_with [] ltac:(constructor) ltac:(cbn; lia)) as (s & pd & T & Hs & Hw & Hone). exists s, pd, T.
  split; [done|]. split; [|done]. intros va Hva. destruct (Hw va Hva) as [H1 H2]. split; [done|]. by destruct (Z.to_nat _) in H2.
Qed.

Import Buffer BufferFacts InodeProps.
Definition sample_process (s : vm) (pd : Z) : process (Buffer.state Block.state) :=
  Build_process demo_fs s pd [new_pair (Some 20) None false 2] None [] 0 0 0 0.
Lemma sample_private s pd T : (forall va, user_addr va -> present s T va = true -> in_sample va) -> private (sample_process s pd) T.
Proof.
  intros Hone va va' Hva Hva' H1 H2 _. destruct (in_sample_page va) as [_ E1%Z.eqb_eq]; [by apply Hone|].
  destruct (in_sample_page va') as [_ E2%Z.eqb_eq]; [by apply Hone|]. congruence.
Qed.
Lemma writable_present s T va : writable s T va = true -> present s T va = true.
Proof. by intros [? _]%andb_prop. Qed.

Lemma is_valid_pointer_correct_witness : exists s pd, is_valid_pointer pd sample_page 4095 s = Ok (true, s).
Proof.
  destruct sample_space as (s & pd & T & Hs & Hw & _). exists s, pd.
  destruct (is_valid_pointer_correct s pd T sample_page 4095 (LoaderFacts.sp_dir _ _ _ _ Hs)) as (b & E & _ & _ & Hb & _); [done|done|].
  rewrite E, Hb; [reflexivity|done|discriminate|]. intros va Hva. apply writable_present, Hw. unfold in_sample. lia.
Defined.

#[local] Instance sample_cache : CacheOps (Buffer.state Block.state) := buffer_cache 1.

(** The call of [practice] with the argument 41. *)
Definition practice_stack : list Z := [13; 0; 0; 0; 41; 0; 0; 0].
Lemma syscall_handler_decodes_witness : exists s pd p',
  syscall_handler (H := demo_store) 0 (fun _ => 0) [] [] [] (fun _ => ret 0) (fun _ => ret 0) (fun _ => ret None) sample_page (sample_process s pd) = Ok (Some tt, p') /\ eax p' = 42.
Proof.
  destruct (sample_space_with practice_stack ltac:(repeat constructor; done) ltac:(cbn; lia)) as (s & pd & T & Hs & Hw & _). exists s, pd, (with_eax 42 (sample_process s pd)).
  split; [|reflexivity]. set (p := sample_process s pd).
  assert (forall i, 0 <= i < 4096 -> ubyte p T (sample_page + i) = Some (nth (Z.to_nat i) practice_stack 0)) as Hb.
  { intros i Hi. destruct (Hw (sample_page + i)) as [_ E]; [unfold in_sample; lia|]. replace (sample_page + i - sample_page) with i in E by lia. exact E. }
  assert (words_ok p T 2 sample_page = true /\ words_ok p T 1 sample_page = true) as [Hk2 Hk1].
  { assert (forall va, in_sample va -> present s T va = true) as Hp by (intros va Hva; by apply writable_present, Hw).
    unfold words_ok, word_ok. rewrite ?andb_true_r. split; [apply andb_true_iff; split|]; (apply Hp; vm_compute; split; [discriminate|reflexivity]). }
  assert (stacked p T sample_page 0 = 13 /\ stacked p T sample_page 1 = 41) as [E0 E1].
  { unfold stacked, user_word. change (u32 (sample_page + 4 * 0)) with (sample_page + 0). change (u32 (sample_page + 4 * 1)) with (sample_page + 4).
    rewrite <- !Z.add_assoc, !Hb by lia. split; reflexivity. }
  destruct (syscall_handler_decodes (H := demo_store) 0 (fun _ => 0) [] [] [] (fun _ => ret 0) (fun _ => ret 0) (fun _ => ret None) (2 ^ 18) p T sample_page Hs) as [E _]; [done|done|].
  rewrite E. cbv zeta. rewrite E0, E1, Hk1. change (1 + arity 13)%nat with 2%nat. rewrite Hk2. reflexivity.
Defined.

Lemma sys_read_correct_witness : exists s pd p',
  sys_read_handler (H := demo_store) 0 (fun _ => 0) 2 sample_page 10 (sample_process s pd) = Ok (Some 4, p') /\ pagedir p' = pd.
Proof.
  destruct sample_space as (s & pd & T & Hs & Hw & Hone). exists s, pd.
  destruct (sys_read_correct (HS := demo_store_laws) 0 (fun _ => 0) [] (2 ^ 18) (sample_process s pd) T 2 (new_pair (Some 20) None false 2) 20 (zeros 4) 0 sample_page 10) as (p' & E & _ & _ & _ & _ & _ & Ep).
  - exact Hs.
  - by apply sample_private.
  - done.
  - reflexivity.
  - reflexivity.
  - reflexivity.
  - exact LoaderProps.sample_holds.
  - done.
  - done.
  - done.
  - done.
  - intros va Hva. apply writable_present, Hw. unfold in_sample. lia.
  - intros va Hva. apply Hw. unfold in_sample. lia.
  - exists p'. split; [exact E|exact Ep].
Defined.

Lemma sys_write_console_witness : exists s pd,
  sys_write_handler (H := demo_store) 0 1 sample_page 3 (sample_process s pd) = Ok (Some 3, with_console [0; 0; 0] (sample_process s pd)).
Proof.
  destruct sample_space as (s & pd & T & Hs & Hw & Hone). exists s, pd.
  apply (sys_write_console (H := demo_store) 0 (2 ^ 18) (sample_process s pd) T sample_page [0; 0; 0] Hs).
  - done.
  - repeat constructor; done.
  - done.
  - intros va Hva. apply writable_present, Hw. unfold in_sample. cbn in Hva. lia.
  - intros i b Hi. assert (b = 0) as -> by (do 3 (destruct i as [|i]; [by injection Hi|]); done). apply Hw. apply lookup_lt_Some in Hi. unfold in_sample. cbn in Hi. lia.
Defined.

End SyscallProps.
