(* ===== verification/Thread.v ===== *)
(** * threads/thread.c and threads/synch.c

    The kernel threads of the system as a state machine.  A thread's code is
    a program [P] of kernel operations; [next] gives its next operation and what it
    does with the result, so that every behaviour of threads is covered.

    An operation is a list of frames, the pieces of it that are not interrupted: a
    piece that runs with interrupts off, or a single access.  A frame stays on the
    stack of a thread that is switched out within it, as [FDown] does when the thread
    has to wait, and is taken up again when the thread next runs.  The timer may
    interrupt between any two frames.  [palloc_get_page] is the argument [palloc]; the
    parts of thread creation and exit that belong to processes are not here. *)

From S2P Require Import Prelude.

Module Thread.

Definition TIME_SLICE : Z := 4.
Definition TID_ERROR : Z := -1.
Definition PRI_MIN : Z := 0.
Definition PRI_DEFAULT : Z := 31.
Definition PRI_MAX : Z := 63.

Inductive thread_status := THREAD_RUNNING | THREAD_READY | THREAD_BLOCKED | THREAD_DYING.
#[global] Instance thread_status_eq : EqDecision thread_status.
Proof. solve_decision. Defined.

(** A semaphore by itself, the one inside a lock, or the one of a waiter on a
    condition variable. *)
Inductive sema_ref := Sem (a : Z) | LockSem (l : Z) | WaitSem (w : Z).
#[global] Instance sema_ref_eq : EqDecision sema_ref.
Proof. solve_decision. Defined.

(** The operations of programs. *)
Inductive op (P : Type) :=
| ODown (s : Z) | OTryDown (s : Z) | OUp (s : Z)
| OAcquire (l : Z) | OTryAcquire (l : Z) | ORelease (l : Z)
| OWait (c l : Z) | OSignal (c l : Z) | OBroadcast (c l : Z)
| OYield | OCreate (p : P) (priority : Z) | OSetPriority (n : Z) | OGetPriority
| OIdle (s : Z).
Arguments ODown {P} s.
Arguments OTryDown {P} s.
Arguments OUp {P} s.
Arguments OAcquire {P} l.
Arguments OTryAcquire {P} l.
Arguments ORelease {P} l.
Arguments OWait {P} c l.
Arguments OSignal {P} c l.
Arguments OBroadcast {P} c l.
Arguments OYield {P}.
Arguments OCreate {P} p priority.
Arguments OSetPriority {P} n.
Arguments OGetPriority {P}.
Arguments OIdle {P} s.

Inductive frame (P : Type) :=
| FDown (s : sema_ref) | FTryDown (s : sema_ref) | FUp (s : sema_ref)
| FNotHeld (l : Z) | FHolder (l : Z) | FTryHolder (l : Z) | FClear (l : Z)
| FWait (c l : Z) | FSignal (c l : Z) | FBroadcast (c l : Z)
| FYield | FExit
| FCreate (p : P) (priority : Z) | FTid (t : Z) | FStart (t : Z)
| FSetPriority (n : Z) | FGetPriority
| FSetIdle | FIdle.
Arguments FDown {P} s.
Arguments FTryDown {P} s.
Arguments FUp {P} s.
Arguments FNotHeld {P} l.
Arguments FHolder {P} l.
Arguments FTryHolder {P} l.
Arguments FClear {P} l.
Arguments FWait {P} c l.
Arguments FSignal {P} c l.
Arguments FBroadcast {P} c l.
Arguments FYield {P}.
Arguments FExit {P}.
Arguments FCreate {P} p priority.
Arguments FTid {P} t.
Arguments FStart {P} t.
Arguments FSetPriority {P} n.
Arguments FGetPriority {P}.
Arguments FSetIdle {P}.
Arguments FIdle {P}.

Record semaphore := { value : Z; waiters : list Z }.
Record lock := { holder : option Z; lock_sema : semaphore }.

(** [frames] and [result] are what is left of the operation under way and its result
    so far, [resume] the rest of the program. *)
Record thread (P : Type) := {
  tid : Z; status : thread_status; priority : Z;
  frames : list (frame P); result : Z; resume : Z -> P }.
Arguments tid {P} _.
Arguments status {P} _.
Arguments priority {P} _.
Arguments frames {P} _.
Arguments result {P} _.
Arguments resume {P} _.

Record sys (P : Type) := {
  threads : gmap Z (thread P);
  running : Z;
  ready_list : list Z;
  all_list : list Z;
  idle_thread : option Z;
  initial_thread : Z;
  semas : gmap Z semaphore;
  locks : gmap Z lock;
  conds : gmap Z (list Z);
  waits : gmap Z semaphore;
  next_tid : Z;
  thread_ticks : Z }.
Arguments threads {P} _.
Arguments running {P} _.
Arguments ready_list {P} _.
Arguments all_list {P} _.
Arguments idle_thread {P} _.
Arguments initial_thread {P} _.
Arguments semas {P} _.
Arguments locks {P} _.
Arguments conds {P} _.
Arguments waits {P} _.
Arguments next_tid {P} _.
Arguments thread_ticks {P} _.

(** [tid_lock] *)
Definition TID_LOCK : Z := 0.

Section kernel.
Context {P : Type} (next : P -> option (op P * (Z -> P))).
(** The page [palloc_get_page] returns, [None] when there is none. *)
Context (palloc : sys P -> option Z).
Notation thread := (thread P).
Notation sys := (sys P).
Notation frame := (frame P).
Implicit Types (s : sys) (t : Z).

(** ** Access to the state *)

Definition with_threads (x : gmap Z thread) s : sys :=
  Build_sys P x (running s) (ready_list s) (all_list s) (idle_thread s) (initial_thread s)
    (semas s) (locks s) (conds s) (waits s) (next_tid s) (thread_ticks s).
Definition with_running (x : Z) s : sys :=
  Build_sys P (threads s) x (ready_list s) (all_list s) (idle_thread s) (initial_thread s)
    (semas s) (locks s) (conds s) (waits s) (next_tid s) (thread_ticks s).
Definition with_ready (x : list Z) s : sys :=
  Build_sys P (threads s) (running s) x (all_list s) (idle_thread s) (initial_thread s)
    (semas s) (locks s) (conds s) (waits s) (next_tid s) (thread_ticks s).
Definition with_all (x : list Z) s : sys :=
  Build_sys P (threads s) (running s) (ready_list s) x (idle_thread s) (initial_thread s)
    (semas s) (locks s) (conds s) (waits s) (next_tid s) (thread_ticks s).
Definition with_idle (x : option Z) s : sys :=
  Build_sys P (threads s) (running s) (ready_list s) (all_list s) x (initial_thread s)
    (semas s) (locks s) (conds s) (waits s) (next_tid s) (thread_ticks s).
Definition with_semas (x : gmap Z semaphore) s : sys :=
  Build_sys P (threads s) (running s) (ready_list s) (all_list s) (idle_thread s) (initial_thread s)
    x (locks s) (conds s) (waits s) (next_tid s) (thread_ticks s).
Definition with_locks (x : gmap Z lock) s : sys :=
  Build_sys P (threads s) (running s) (ready_list s) (all_list s) (idle_thread s) (initial_thread s)
    (semas s) x (conds s) (waits s) (next_tid s) (thread_ticks s).
Definition with_conds (x : gmap Z (list Z)) s : sys :=
  Build_sys P (threads s) (running s) (ready_list s) (all_list s) (idle_thread s) (initial_thread s)
    (semas s) (locks s) x (waits s) (next_tid s) (thread_ticks s).
Definition with_waits (x : gmap Z semaphore) s : sys :=
  Build_sys P (threads s) (running s) (ready_list s) (all_list s) (idle_thread s) (initial_thread s)
    (semas s) (locks s) (conds s) x (next_tid s) (thread_ticks s).
Definition with_tid (x : Z) s : sys :=
  Build_sys P (threads s) (running s) (ready_list s) (all_list s) (idle_thread s) (initial_thread s)
    (semas s) (locks s) (conds s) (waits s) x (thread_ticks s).
Definition with_ticks (x : Z) s : sys :=
  Build_sys P (threads s) (running s) (ready_list s) (all_list s) (idle_thread s) (initial_thread s)
    (semas s) (locks s) (conds s) (waits s) (next_tid s) x.
(** A thread that is not there any more has no valid [magic]. *)
Definition get_thread t : M sys thread := fun s =>
  match threads s !! t with Some x => Ok (x, s) | None => Err AssertFail end.
Definition set_thread t (x : thread) : M sys unit := modify (fun s => with_threads (<[t := x]> (threads s)) s).
Definition set_status t (st : thread_status) : M sys unit :=
  let! x := get_thread t in
  set_thread t {| tid := tid x; status := st; priority := priority x; frames := frames x;
                  result := result x; resume := resume x |}.
Definition set_frames t (fs : list frame) : M sys unit :=
  let! x := get_thread t in
  set_thread t {| tid := tid x; status := status x; priority := priority x; frames := fs;
                  result := result x; resume := resume x |}.
Definition set_result t (r : Z) : M sys unit :=
  let! x := get_thread t in
  set_thread t {| tid := tid x; status := status x; priority := priority x; frames := frames x;
                  result := r; resume := resume x |}.

Definition get_sema (r : sema_ref) : M sys semaphore := fun s =>
  match r with
  | Sem a => match semas s !! a with Some x => Ok (x, s) | None => Err WildAccess end
  | LockSem l => match locks s !! l with Some x => Ok (lock_sema x, s) | None => Err WildAccess end
  | WaitSem w => match waits s !! w with Some x => Ok (x, s) | None => Err WildAccess end
  end.
Definition set_sema (r : sema_ref) (x : semaphore) : M sys unit :=
  match r with
  | Sem a => modify (fun s => with_semas (<[a := x]> (semas s)) s)
  | LockSem l => fun s =>
      match locks s !! l with
      | Some y => Ok (tt, with_locks (<[l := {| holder := holder y; lock_sema := x |}]> (locks s)) s)
      | None => Err WildAccess
      end
  | WaitSem w => modify (fun s => with_waits (<[w := x]> (waits s)) s)
  end.
Definition get_lock (l : Z) : M sys lock := fun s =>
  match locks s !! l with Some x => Ok (x, s) | None => Err WildAccess end.
Definition set_holder (l : Z) (h : option Z) : M sys unit :=
  let! x := get_lock l in
  modify (fun s => with_locks (<[l := {| holder := h; lock_sema := lock_sema x |}]> (locks s)) s).
Definition get_cond (c : Z) : M sys (list Z) := fun s =>
  match conds s !! c with Some x => Ok (x, s) | None => Err WildAccess end.

(** ** thread.c *)

(** [running_thread] with its two assertions. *)
Definition thread_current : M sys Z :=
  let! t := gets running in
  let! x := get_thread t in
  do! assert (bool_decide (status x = THREAD_RUNNING));
  ret t.

(** The null pointer is [None]. *)
Definition next_thread_to_run : M sys (option Z) :=
  let! r := gets ready_list in
  match r with
  | [] => gets idle_thread
  | t :: r => do! modify (with_ready r); ret (Some t)
  end.

Definition palloc_free_page t : M sys unit := modify (fun s => with_threads (delete t (threads s)) s).

Definition thread_schedule_tail (prev : option Z) : M sys unit :=
  let! cur := gets running in
  do! set_status cur THREAD_RUNNING;
  do! modify (with_ticks 0);
  match prev with
  | None => ret tt
  | Some prev =>
      let! x := get_thread prev in
      let! init := gets initial_thread in
      if bool_decide (status x = THREAD_DYING) && negb (prev =? init) then
        do! assert (negb (prev =? cur));
        palloc_free_page prev
      else ret tt
  end.

Definition schedule : M sys unit :=
  let! cur := gets running in
  let! next := next_thread_to_run in
  let! x := get_thread cur in
  do! assert (negb (bool_decide (status x = THREAD_RUNNING)));
  match next with
  | None => fail AssertFail
  | Some n =>
      let! _ := get_thread n in
      if negb (cur =? n) then do! modify (with_running n); thread_schedule_tail (Some cur)
      else thread_schedule_tail None
  end.

Definition thread_block : M sys unit :=
  let! t := thread_current in
  do! set_status t THREAD_BLOCKED;
  schedule.

Definition thread_unblock t : M sys unit :=
  let! x := get_thread t in
  do! assert (bool_decide (status x = THREAD_BLOCKED));
  do! modify (fun s => with_ready (ready_list s ++ [t]) s);
  set_status t THREAD_READY.

Definition thread_yield : M sys unit :=
  let! cur := thread_current in
  let! idle := gets idle_thread in
  do! (if negb (bool_decide (Some cur = idle)) then modify (fun s => with_ready (ready_list s ++ [cur]) s)
       else ret tt);
  do! set_status cur THREAD_READY;
  schedule.

(** [process_exit] is not part of this model. *)
Definition thread_exit : M sys unit :=
  let! t := thread_current in
  do! modify (fun s => with_all (List.filter (fun q => negb (q =? t)) (all_list s)) s);
  do! set_status t THREAD_DYING;
  schedule.

(** Whether to yield on return; the statistics are not modelled. *)
Definition thread_tick : M sys bool :=
  let! _ := thread_current in
  do! modify (fun s => with_ticks (u32 (thread_ticks s + 1)) s);
  let! n := gets thread_ticks in
  ret (n >=? TIME_SLICE).

Definition palloc_get_page : M sys (option Z) := gets palloc.

(** The new thread's code starts with the program [p]. *)
Definition init_thread t (p : P) (prio : Z) : M sys unit :=
  do! assert ((PRI_MIN <=? prio) && (prio <=? PRI_MAX));
  do! set_thread t {| tid := 0; status := THREAD_BLOCKED; priority := prio; frames := [];
                      result := 0; resume := fun _ => p |};
  modify (fun s => with_all (all_list s ++ [t]) s).

Definition thread_set_priority (n : Z) : M sys unit :=
  let! t := thread_current in
  let! x := get_thread t in
  set_thread t {| tid := tid x; status := status x; priority := n; frames := frames x;
                  result := result x; resume := resume x |}.
Definition thread_get_priority : M sys Z :=
  let! t := thread_current in let! x := get_thread t in ret (priority x).

(** ** synch.c *)

(** One round of the loop of [sema_down]; [true] when it has decremented. *)
Definition sema_down_round (r : sema_ref) : M sys bool :=
  let! x := get_sema r in
  if value x =? 0 then
    let! t := thread_current in
    do! set_sema r {| value := value x; waiters := waiters x ++ [t] |};
    do! thread_block;
    ret false
  else do! set_sema r {| value := u32 (value x - 1); waiters := waiters x |}; ret true.

Definition sema_try_down (r : sema_ref) : M sys bool :=
  let! x := get_sema r in
  if value x >? 0 then do! set_sema r {| value := value x - 1; waiters := waiters x |}; ret true
  else ret false.

Definition sema_up (r : sema_ref) : M sys unit :=
  let! x := get_sema r in
  let! x := match waiters x with
            | [] => ret x
            | t :: ws =>
                do! set_sema r {| value := value x; waiters := ws |};
                do! thread_unblock t;
                ret {| value := value x; waiters := ws |}
            end in
  set_sema r {| value := u32 (value x + 1); waiters := waiters x |}.

Definition lock_held_by_current_thread (l : Z) : M sys bool :=
  let! x := get_lock l in
  let! t := thread_current in
  ret (bool_decide (holder x = Some t)).

(** ** The frames *)

(** Operations on locks, piece by piece. *)
Definition lock_acquire (l : Z) : list frame := [FNotHeld l; FDown (LockSem l); FHolder l].
Definition lock_try_acquire (l : Z) : list frame := [FNotHeld l; FTryDown (LockSem l); FTryHolder l].
Definition lock_release (l : Z) : list frame := [FClear l; FUp (LockSem l)].
(** [allocate_tid] for the thread [n]. *)
Definition allocate_tid (n : Z) : list frame := lock_acquire TID_LOCK ++ [FTid n] ++ lock_release TID_LOCK.
(** The idle thread, which comes back to [FIdle] for ever. *)
Definition idle (s : Z) : list frame := [FSetIdle; FUp (Sem s); FIdle].

(** The frames of an operation. *)
Definition expand (o : op P) : list frame :=
  match o with
  | ODown s => [FDown (Sem s)]
  | OTryDown s => [FTryDown (Sem s)]
  | OUp s => [FUp (Sem s)]
  | OAcquire l => lock_acquire l
  | OTryAcquire l => lock_try_acquire l
  | ORelease l => lock_release l
  | OWait c l => [FWait c l]
  | OSignal c l => [FSignal c l]
  | OBroadcast c l => [FBroadcast c l]
  | OYield => [FYield]
  | OCreate p n => [FCreate p n]
  | OSetPriority n => [FSetPriority n]
  | OGetPriority => [FGetPriority]
  | OIdle s => idle s
  end.

(** The address of a semaphore on the stack of thread [t]: a thread waits for one
    condition at a time. *)
Definition wait_sema t : Z := t.

(** In what follows [t] is the current thread and [fs] are its frames after the one
    that is run. *)

(** [cond_wait] up to the release of the lock; the rest of it is left to do. *)
Definition cond_wait t (c l : Z) (fs : list frame) : M sys unit :=
  let! held := lock_held_by_current_thread l in
  do! assert held;
  let w := wait_sema t in
  do! modify (fun s => with_waits (<[w := {| value := 0; waiters := [] |}]> (waits s)) s);
  let! ws := get_cond c in
  do! modify (fun s => with_conds (<[c := ws ++ [w]]> (conds s)) s);
  set_frames t (lock_release l ++ [FDown (WaitSem w)] ++ lock_acquire l ++ fs).

Definition cond_signal t (c l : Z) (fs : list frame) : M sys unit :=
  let! held := lock_held_by_current_thread l in
  do! assert held;
  let! ws := get_cond c in
  match ws with
  | [] => set_frames t fs
  | w :: ws =>
      do! modify (fun s => with_conds (<[c := ws]> (conds s)) s);
      set_frames t (FUp (WaitSem w) :: fs)
  end.

(** One test of the loop. *)
Definition cond_broadcast t (c l : Z) (fs : list frame) : M sys unit :=
  let! ws := get_cond c in
  match ws with
  | [] => set_frames t fs
  | _ => set_frames t (FSignal c l :: FBroadcast c l :: fs)
  end.

(** [thread_create] up to [allocate_tid]; the new thread is unblocked at the end.  Its
    stack frames stand for its program. *)
Definition thread_create t (p : P) (prio : Z) (fs : list frame) : M sys unit :=
  let! page := palloc_get_page in
  match page with
  | None => do! set_frames t fs; set_result t TID_ERROR
  | Some n =>
      do! init_thread n p prio;
      set_frames t (allocate_tid n ++ [FStart n] ++ fs)
  end.

(** Run the frame [f].  The frames left are set before a switch. *)
Definition run_frame t (f : frame) (fs : list frame) : M sys unit :=
  match f with
  | FDown r =>
      let! x := get_sema r in
      if value x =? 0 then let! _ := sema_down_round r in ret tt
      else let! _ := sema_down_round r in set_frames t fs
  | FTryDown r =>
      let! ok := sema_try_down r in
      do! set_frames t fs;
      set_result t (Z.b2z ok)
  | FUp r => do! sema_up r; set_frames t fs
  | FNotHeld l =>
      let! held := lock_held_by_current_thread l in
      do! assert (negb held);
      set_frames t fs
  | FHolder l => do! set_holder l (Some t); set_frames t fs
  | FTryHolder l =>
      let! x := get_thread t in
      do! (if negb (result x =? 0) then set_holder l (Some t) else ret tt);
      set_frames t fs
  | FClear l =>
      let! held := lock_held_by_current_thread l in
      do! assert held;
      do! set_holder l None;
      set_frames t fs
  | FWait c l => cond_wait t c l fs
  | FSignal c l => cond_signal t c l fs
  | FBroadcast c l => cond_broadcast t c l fs
  | FYield => do! set_frames t fs; thread_yield
  | FExit => do! set_frames t fs; thread_exit
  | FCreate p prio => thread_create t p prio fs
  | FTid n =>
      let! i := gets next_tid in
      do! modify (with_tid (s32 (i + 1)));
      let! x := get_thread n in
      do! set_thread n {| tid := i; status := status x; priority := priority x; frames := frames x;
                          result := result x; resume := resume x |};
      do! set_result t i;
      set_frames t fs
  | FStart n => do! thread_unblock n; set_frames t fs
  | FSetPriority n => do! thread_set_priority n; set_frames t fs
  | FGetPriority => let! n := thread_get_priority in do! set_result t n; set_frames t fs
  | FSetIdle => do! modify (with_idle (Some t)); set_frames t fs
  | FIdle => thread_block
  end.

(** One piece of the current thread: its next frame, or the next operation of its
    program; [kernel_thread] exits when the program has ended. *)
Definition run_current : M sys unit :=
  let! t := thread_current in
  let! x := get_thread t in
  match frames x with
  | f :: fs => run_frame t f fs
  | [] =>
      match next (resume x (result x)) with
      | None => set_frames t [FExit]
      | Some (o, k) =>
          set_thread t {| tid := tid x; status := status x; priority := priority x;
                          frames := expand o; result := 0; resume := k |}
      end
  end.

(** The timer interrupt, with [intr_yield_on_return]. *)
Definition timer_interrupt : M sys unit :=
  let! yield := thread_tick in
  if yield : bool then thread_yield else ret tt.

(** ** The machine *)

Inductive step : sys -> sys -> Prop :=
| step_run s s' : run_current s = Ok (tt, s') -> step s s'
| step_timer s s' : timer_interrupt s = Ok (tt, s') -> step s s'.

(** The state in which [thread_start] returns to the initial thread [main], which goes on
    with the program [p]: the idle thread waits to be needed, and the kernel has
    initialised the semaphores [sems] (with their values), locks [ls] and conditions [cs]. *)
Definition boot (main idle : Z) (p : P) (sems : gmap Z Z) (ls cs : list Z) : sys :=
  {| threads := <[main := {| tid := 1; status := THREAD_RUNNING; priority := PRI_DEFAULT; frames := [];
                             result := 0; resume := fun _ => p |}]>
                {[idle := {| tid := 2; status := THREAD_BLOCKED; priority := PRI_MIN; frames := [FIdle];
                             result := 0; resume := fun _ => p |}]};
     running := main; ready_list := []; all_list := [main; idle];
     idle_thread := Some idle; initial_thread := main;
     semas := (fun v => {| value := v; waiters := [] |}) <$> sems;
     locks := list_to_map (map (fun l => (l, {| holder := None; lock_sema := {| value := 1; waiters := [] |} |})) (TID_LOCK :: ls));
     conds := list_to_map (map (fun c => (c, [])) cs);
     waits := ∅; next_tid := 3; thread_ticks := 0 |}.

Definition reachable (main idle : Z) (p : P) (sems : gmap Z Z) (ls cs : list Z) (s : sys) : Prop :=
  rtc step (boot main idle p sems ls cs) s.

(** The states [ss] of a run from the state [s] with [n] timer interrupts, which come at any
    time while the threads run their programs. *)
Inductive exec : nat -> sys -> list sys -> Prop :=
| exec_nil s : exec 0 s [s]
| exec_piece n s s' ss : run_current s = Ok (tt, s') -> exec n s' ss -> exec n s (s :: ss)
| exec_timer n s s' ss : timer_interrupt s = Ok (tt, s') -> exec n s' ss -> exec (S n) s (s :: ss).

End kernel.

End Thread.
