(* ===== verification/ThreadFacts.v ===== *)
(** * threads/thread.c, threads/synch.c: the invariant of the thread system

    [inv0] holds at all times, also while a thread is being switched out; [inv] adds
    that exactly the running thread is marked as running. *)

From S2P Require Import Prelude Thread.
Import Thread.

Module ThreadFacts.

(** ** Sums over a finite map *)

Section msum.
Context {A : Type}.
Implicit Types (g : A -> Z) (m : gmap Z A).

Definition msum g m : Z := map_fold (fun _ x acc => g x + acc) 0 m.

Lemma msum_insert_new g m t y : m !! t = None -> msum g (<[t := y]> m) = g y + msum g m.
Proof.
  intros Hn. unfold msum. rewrite map_fold_insert_L; [done| |done]. intros. lia.
Qed.
Lemma msum_delete g m t x : m !! t = Some x -> msum g m = g x + msum g (delete t m).
Proof.
  intros Hx. rewrite <- (insert_id m t x Hx) at 1. rewrite <- insert_delete_eq.
  apply msum_insert_new, lookup_delete_eq.
Qed.
Lemma msum_insert g m t x y : m !! t = Some x -> msum g (<[t := y]> m) = msum g m - g x + g y.
Proof.
  intros Hx. rewrite <- insert_delete_eq, msum_insert_new by apply lookup_delete_eq.
  rewrite (msum_delete g m t x Hx). lia.
Qed.
Lemma msum_nonneg g m : (forall x, 0 <= g x) -> 0 <= msum g m.
Proof.
  intros Hg. induction m as [|i x m Hn IH] using map_ind; [unfold msum; by rewrite map_fold_empty|].
  rewrite msum_insert_new by done. specialize (Hg x). lia.
Qed.
Lemma msum_lookup g m t x : (forall x, 0 <= g x) -> m !! t = Some x -> g x <= msum g m.
Proof.
  intros Hg Hx. rewrite (msum_delete g m t x Hx). pose proof (msum_nonneg g (delete t m) Hg). lia.
Qed.
Lemma msum_two g m t u x y :
  (forall x, 0 <= g x) -> m !! t = Some x -> m !! u = Some y -> t <> u -> g x + g y <= msum g m.
Proof.
  intros Hg Hx Hy Hne. rewrite (msum_delete g m t x Hx).
  assert (delete t m !! u = Some y) as Hy' by (by rewrite lookup_delete_ne).
  pose proof (msum_lookup g (delete t m) u y Hg Hy'). lia.
Qed.
Lemma msum_pos g m : 0 < msum g m -> exists t x, m !! t = Some x /\ 0 < g x.
Proof.
  induction m as [|i y m Hn IH] using map_ind; [unfold msum; by rewrite map_fold_empty|].
  rewrite msum_insert_new by done. intros Hpos. destruct (decide (0 < g y)) as [Hy|Hy].
  - exists i, y. by rewrite lookup_insert_eq.
  - destruct IH as (t & x & Hx & Hg); [lia|]. exists t, x. split; [|done]. rewrite lookup_insert_ne; [done|congruence].
Qed.
End msum.

(** ** Lists that enumerate the threads with a property *)

Section enum.
Context {A : Type}.
Implicit Types (Q : Z -> A -> Prop) (m : gmap Z A) (l : list Z).

Definition enum m l Q : Prop := NoDup l /\ forall t, t ∈ l <-> exists x, m !! t = Some x /\ Q t x.

Lemma enum_ext m l Q Q' : (forall t x, m !! t = Some x -> Q t x <-> Q' t x) -> enum m l Q -> enum m l Q'.
Proof.
  intros E [H1 H2]. split; [done|]. intros t. rewrite H2. split; intros (x & Hx & HQ); exists x; split; try done;
    by apply (E t x Hx).
Qed.
Lemma enum_update m l Q t x y : enum m l Q -> m !! t = Some x -> (Q t x <-> Q t y) -> enum (<[t := y]> m) l Q.
Proof.
  intros [H1 H2] Hx HQ. split; [done|]. intros u. rewrite H2. destruct (decide (t = u)) as [<-|Hne].
  - rewrite lookup_insert_eq. split; intros (z & Hz & HQz); [exists y|exists x]; naive_solver.
  - by rewrite lookup_insert_ne.
Qed.
Lemma enum_insert_new m l Q t y : enum m l Q -> m !! t = None -> ~ Q t y -> enum (<[t := y]> m) l Q.
Proof.
  intros [H1 H2] Hn HQ. split; [done|]. intros u. rewrite H2. destruct (decide (t = u)) as [<-|Hne].
  - rewrite lookup_insert_eq. split; intros (z & Hz & HQz); naive_solver.
  - by rewrite lookup_insert_ne.
Qed.
Lemma enum_delete m l Q t : enum m l Q -> (forall x, m !! t = Some x -> ~ Q t x) -> enum (delete t m) l Q.
Proof.
  intros [H1 H2] HQ. split; [done|]. intros u. rewrite H2. destruct (decide (t = u)) as [<-|Hne].
  - rewrite lookup_delete_eq. split; intros (z & Hz & HQz); [by destruct (HQ z Hz)|done].
  - by rewrite lookup_delete_ne.
Qed.
Lemma enum_push m l Q t x y : enum m l Q -> m !! t = Some x -> ~ Q t x -> Q t y -> enum (<[t := y]> m) (l ++ [t]) Q.
Proof.
  intros [H1 H2] Hx HnQ HQ. assert (t ∉ l) as Hnl by (rewrite H2; intros (z & Hz & ?); naive_solver).
  split.
  - apply NoDup_app. split; [done|]. split; [|apply NoDup_singleton].
    intros u Hu ->%list_elem_of_singleton. done.
  - intros u. rewrite elem_of_app, list_elem_of_singleton, H2. destruct (decide (t = u)) as [<-|Hne].
    + rewrite lookup_insert_eq. split; [intros _; by exists y|by right].
    + rewrite lookup_insert_ne by done. split; [intros [?|?]; [done|congruence]|by left].
Qed.
Lemma enum_pop m t l Q y : enum m (t :: l) Q -> ~ Q t y -> enum (<[t := y]> m) l Q.
Proof.
  intros [[Hn H1]%NoDup_cons H2] HQ. split; [done|]. intros u. specialize (H2 u). rewrite elem_of_cons in H2.
  destruct (decide (t = u)) as [<-|Hne].
  - rewrite lookup_insert_eq. split; [done|]. intros (z & Hz & ?). naive_solver.
  - rewrite lookup_insert_ne by done. rewrite <- H2. naive_solver.
Qed.
Lemma enum_in m l Q t : enum m l Q -> t ∈ l -> exists x, m !! t = Some x /\ Q t x.
Proof. intros [_ H2]. apply H2. Qed.
Lemma enum_nil m Q : (forall t x, m !! t = Some x -> ~ Q t x) -> enum m [] Q.
Proof.
  intros H. split; [apply NoDup_nil_2|]. intros t. split; [by intros ?%not_elem_of_nil|].
  intros (x & Hx & HQ). by destruct (H t x Hx).
Qed.
End enum.

Section inv.
Context {P : Type}.
Notation thread := (thread P).
Notation sys := (sys P).
Notation frame := (frame P).
Implicit Types (s : sys) (t : Z) (x y : thread) (f : frame) (fs : list frame).

(** ** What the pending frames of a thread mean *)

(** After these frames the one that follows does not count yet. *)
Definition guards (l : Z) f : bool :=
  match f with
  | FDown (LockSem l') => l =? l'
  | FClear l' => l =? l'
  | _ => false
  end.
Definition weight (l : Z) f : Z :=
  match f with
  | FHolder l' => Z.b2z (l =? l')
  | FUp (LockSem l') => Z.b2z (l =? l')
  | _ => 0
  end.
Fixpoint pending (skip : bool) (l : Z) fs : Z :=
  match fs with
  | [] => 0
  | f :: fs => (if skip then 0 else weight l f) + pending (guards l f) l fs
  end.
(** How often the thread owns lock [l] without being recorded as its holder: it has
    taken the semaphore and not set the holder yet, or has cleared the holder and not
    given the semaphore back yet. *)
Definition owns l x : Z :=
  match frames x with FTryHolder l' :: _ => if (l =? l') && negb (result x =? 0) then 1 else 0 | _ => 0 end +
  pending false l (frames x).
(** How often the thread is going to start thread [n]. *)
Fixpoint starting (n : Z) fs : Z :=
  match fs with
  | [] => 0
  | FStart n' :: fs => Z.b2z (n =? n') + starting n fs
  | _ :: fs => starting n fs
  end.
(** The frames of thread [t] that belong together are together. *)
Fixpoint wff t fs : Prop :=
  match fs with
  | [] => True
  | f :: fs =>
      match f with
      | FDown (LockSem l) => head fs = Some (FHolder l)
      | FClear l => head fs = Some (FUp (LockSem l))
      | FTryDown (LockSem l) => head fs = Some (FTryHolder l)
      | FDown (WaitSem w) => w = t
      | FTid n => 1 <= starting n fs
      | FExit => fs = []
      | _ => True
      end /\
      match fs with FTryHolder l :: _ => f = FTryDown (LockSem l) | _ => True end /\
      match f with FSetIdle | FIdle => False | _ => True end /\ wff t fs
  end.

Lemma pending_nonneg skip l fs : 0 <= pending skip l fs.
Proof.
  revert skip. induction fs as [|f fs IH]; intros skip; cbn [pending]; [lia|].
  specialize (IH (guards l f)). assert (0 <= weight l f); [|destruct skip; lia].
  destruct f as [[]| |[]| | | | | | | | | | | | | | | |]; cbn; try lia; by destruct (_ =? _).
Qed.
Lemma owns_nonneg l x : 0 <= owns l x.
Proof.
  unfold owns. pose proof (pending_nonneg false l (frames x)).
  destruct (frames x) as [|[] ?]; try lia. destruct (_ && _); lia.
Qed.
Lemma starting_nonneg n fs : 0 <= starting n fs.
Proof. induction fs as [|[] fs IH]; cbn [starting]; try lia. destruct (n =? t); cbn; lia. Qed.

(** ** The invariant *)

Definition sema_at s (r : sema_ref) : option semaphore :=
  match r with
  | Sem a => semas s !! a
  | LockSem l => option_map lock_sema (locks s !! l)
  | WaitSem w => waits s !! w
  end.

(** In the ready list; waiting for [r]; about to take [r]. *)
Definition is_ready s t x : Prop := status x = THREAD_READY /\ idle_thread s <> Some t.
Definition is_waiting (r : sema_ref) (t : Z) x : Prop :=
  status x = THREAD_BLOCKED /\ head (frames x) = Some (FDown r).
Definition awake (r : sema_ref) x : Z :=
  match status x, frames x with
  | THREAD_BLOCKED, _ => 0
  | _, FDown r' :: _ => if bool_decide (r = r') then 1 else 0
  | _, _ => 0
  end.
(** A new thread that has not been started yet. *)
Definition embryo s n x : Prop :=
  status x = THREAD_BLOCKED /\ frames x = [] /\ msum (fun y => starting n (frames y)) (threads s) = 1.

Record inv0 s : Prop := {
  i_ready : enum (threads s) (ready_list s) (is_ready s);
  i_waiters : forall r q, sema_at s r = Some q -> enum (threads s) (waiters q) (is_waiting r) /\ 0 <= value q;
  i_running : is_Some (threads s !! running s);
  i_idle : exists i x, idle_thread s = Some i /\ threads s !! i = Some x /\ frames x = [FIdle] /\
             status x <> THREAD_DYING;
  i_frames : forall t x, threads s !! t = Some x -> idle_thread s <> Some t -> wff t (frames x);
  i_blocked : forall t x, threads s !! t = Some x -> status x = THREAD_BLOCKED ->
    (exists r, head (frames x) = Some (FDown r) /\ is_Some (sema_at s r)) \/ idle_thread s = Some t \/ embryo s t x;
  i_dying : forall t x, threads s !! t = Some x -> status x = THREAD_DYING -> frames x = [];
  i_starts : forall n, msum (fun y => starting n (frames y)) (threads s) <= 1;
  i_embryo : forall n, msum (fun y => starting n (frames y)) (threads s) = 1 ->
    exists x, threads s !! n = Some x /\ embryo s n x;
  i_locks : forall l q, locks s !! l = Some q ->
    value (lock_sema q) + (if holder q then 1 else 0) + msum (owns l) (threads s) = 1;
  i_wake : forall r q, sema_at s r = Some q -> waiters q <> [] -> value q <= msum (awake r) (threads s) }.

(** Exactly the running thread is marked as running, or none. *)
Definition only_running s : Prop :=
  forall t x, threads s !! t = Some x -> status x = THREAD_RUNNING <-> t = running s.
Definition none_running s : Prop := forall t x, threads s !! t = Some x -> status x <> THREAD_RUNNING.

Definition inv s : Prop := inv0 s /\ only_running s.

(** ** Updates of one thread *)

Definition with_status (st : thread_status) x : thread :=
  {| tid := tid x; status := st; priority := priority x; frames := frames x; result := result x; resume := resume x |}.
Definition with_frames fs x : thread :=
  {| tid := tid x; status := status x; priority := priority x; frames := fs; result := result x; resume := resume x |}.
Definition upd t y s : sys := with_threads (<[t := y]> (threads s)) s.

Lemma get_thread_run s t x : threads s !! t = Some x -> get_thread t s = Ok (x, s).
Proof. unfold get_thread. by intros ->. Qed.
Lemma set_status_run s t x st : threads s !! t = Some x -> set_status t st s = Ok (tt, upd t (with_status st x) s).
Proof. intros Hx. unfold set_status. by erewrite bind_eq; [|by apply get_thread_run]. Qed.
Lemma set_frames_run s t x fs : threads s !! t = Some x -> set_frames t fs s = Ok (tt, upd t (with_frames fs x) s).
Proof. intros Hx. unfold set_frames. by erewrite bind_eq; [|by apply get_thread_run]. Qed.
Lemma thread_current_run s : inv s -> exists x, threads s !! running s = Some x /\ status x = THREAD_RUNNING /\
  thread_current s = Ok (running s, s).
Proof.
  intros [H0 H1]. destruct (i_running s H0) as [x Hx]. assert (status x = THREAD_RUNNING) as Hst by (by apply (H1 _ _ Hx)).
  exists x. split; [done|]. split; [done|]. unfold thread_current. erewrite bind_eq; [|done].
  erewrite bind_eq; [|by apply get_thread_run]. rewrite bool_decide_eq_true_2 by done. done.
Qed.

(** One thread changes, from [x] to [y], and with it possibly a semaphore, a lock and
    the ready list. *)
Lemma inv0_step s s' t x y :
  inv0 s -> threads s !! t = Some x -> threads s' = <[t := y]> (threads s) -> idle_thread s' = idle_thread s ->
  is_Some (threads s' !! running s') ->
  enum (threads s') (ready_list s') (is_ready s') ->
  (forall r q, sema_at s' r = Some q -> enum (threads s') (waiters q) (is_waiting r) /\ 0 <= value q) ->
  (forall r, is_Some (sema_at s r) -> is_Some (sema_at s' r)) ->
  (idle_thread s = Some t -> frames y = [FIdle] /\ status y <> THREAD_DYING) ->
  (idle_thread s <> Some t -> wff t (frames y)) ->
  (status y = THREAD_BLOCKED ->
     (exists r, head (frames y) = Some (FDown r) /\ is_Some (sema_at s' r)) \/ idle_thread s = Some t \/ embryo s t y) ->
  (status y = THREAD_DYING -> frames y = []) ->
  (forall n, starting n (frames y) = starting n (frames x)) ->
  (embryo s t x -> embryo s t y) ->
  (forall l q', locks s' !! l = Some q' -> exists q, locks s !! l = Some q /\
     value (lock_sema q') + (if holder q' then 1 else 0) + owns l y =
     value (lock_sema q) + (if holder q then 1 else 0) + owns l x) ->
  (forall r q', sema_at s' r = Some q' -> waiters q' <> [] ->
     value q' <= msum (awake r) (threads s) - awake r x + awake r y) ->
  inv0 s'.
Proof.
  intros H Hx Et Ei Hrun Hready Hwait Hsem Hidle Hwff Hblk Hdy Hst Hemb Hlk Hwk.
  assert (forall n, msum (fun y => starting n (frames y)) (threads s') = msum (fun y => starting n (frames y)) (threads s)) as Es.
  { intros n. rewrite Et, (msum_insert _ _ _ _ _ Hx), Hst. lia. }
  assert (forall n z, embryo s' n z <-> embryo s n z) as Ee by (intros n z; unfold embryo; by rewrite Es).
  destruct H as [_ _ _ Hid Hfr Hbl Hdying Hsts He Hl Hw].
  split; [done|done|done| | | | | | | |].
  - destruct Hid as (i & z & E1 & E2 & E3 & E4). rewrite Ei. destruct (decide (i = t)) as [->|Hne].
    + exists t, y. rewrite Et, lookup_insert_eq. destruct (Hidle E1). done.
    + exists i, z. rewrite Et, lookup_insert_ne by done. done.
  - intros u z. rewrite Et, Ei. destruct (decide (t = u)) as [<-|Hne].
    + rewrite lookup_insert_eq. intros [= <-]. done.
    + rewrite lookup_insert_ne by done. apply Hfr.
  - intros u z. rewrite Et, Ei. destruct (decide (t = u)) as [<-|Hne].
    + rewrite lookup_insert_eq. intros [= <-] Hs. rewrite Ee. by apply Hblk.
    + rewrite lookup_insert_ne by done. intros Hz Hs. rewrite Ee.
      destruct (Hbl u z Hz Hs) as [(r & Hr & Hs')|?]; [left; eauto|by right].
  - intros u z. rewrite Et. destruct (decide (t = u)) as [<-|Hne].
    + rewrite lookup_insert_eq. by intros [= <-].
    + rewrite lookup_insert_ne by done. apply Hdying.
  - intros n. rewrite Es. apply Hsts.
  - intros n. rewrite Es. intros (z & Hz & Hez)%He. rewrite Et. destruct (decide (t = n)) as [<-|Hne].
    + exists y. rewrite lookup_insert_eq, Ee. split; [done|]. apply Hemb. by simplify_eq.
    + exists z. rewrite lookup_insert_ne, Ee by done. done.
  - intros l q' Hq'. destruct (Hlk l q' Hq') as (q & Hq & E). specialize (Hl l q Hq).
    rewrite Et, (msum_insert _ _ _ _ _ Hx). lia.
  - intros r q' Hq' Hne. rewrite Et, (msum_insert _ _ _ _ _ Hx). by apply Hwk.
Qed.

(** A thread that has died is freed. *)
Lemma inv0_free s t x :
  inv0 s -> threads s !! t = Some x -> status x = THREAD_DYING -> t <> running s -> idle_thread s <> Some t ->
  inv0 (with_threads (delete t (threads s)) s).
Proof.
  intros H Hx Hst Hnr Hni. pose proof (i_dying s H t x Hx Hst) as Hfr.
  set (s' := with_threads (delete t (threads s)) s).
  assert (forall g : thread -> Z, g x = 0 -> msum g (threads s') = msum g (threads s)) as Es.
  { intros g Hg. rewrite (msum_delete g (threads s) t x Hx), Hg. done. }
  assert (forall n, msum (fun y => starting n (frames y)) (threads s') = msum (fun y => starting n (frames y)) (threads s)) as Ess
    by (intros n; apply Es; by rewrite Hfr).
  assert (forall n z, embryo s' n z <-> embryo s n z) as Ee by (intros n z; unfold embryo; by rewrite Ess).
  assert (forall u z, threads s' !! u = Some z -> threads s !! u = Some z) as Hsub.
  { intros u z Hz. cbn in Hz. by apply lookup_delete_Some in Hz as [_ ?]. }
  destruct H as [H1 H2 [z Hrun] (i & w & Ei & Hi & Hfi & Hsi) H4 H5 H6 H7 H8 H9 H10].
  split; [| | | | | | | | | |].
  - apply enum_delete; [done|]. intros z' Hz' [Hs _]. congruence.
  - intros r q Hq. destruct (H2 r q Hq) as [He Hv]. split; [|done]. apply enum_delete; [done|].
    intros z' Hz' [Hs _]. congruence.
  - exists z. cbn. by rewrite lookup_delete_ne.
  - exists i, w. cbn. rewrite lookup_delete_ne by congruence. done.
  - intros u z' Hz'. apply H4. by apply Hsub.
  - intros u z' Hz' Hs'. rewrite Ee. apply H5; [by apply Hsub|done].
  - intros u z' Hz'. apply (H6 u). by apply Hsub.
  - intros n. rewrite Ess. apply H7.
  - intros n. rewrite Ess. intros (z' & Hz' & He')%H8. exists z'. rewrite Ee. split; [|done]. cbn.
    rewrite lookup_delete_ne; [done|]. intros ->. destruct He' as (Hs' & _). congruence.
  - intros l q Hq. rewrite Es; [by apply H9|]. unfold owns. by rewrite Hfr.
  - intros r q Hq Hne. rewrite Es; [by apply H10|]. unfold awake. by rewrite Hst, Hfr.
Qed.

(** ** Switching *)

Definition switched s (r : list Z) n xn : sys :=
  with_ticks 0 (upd n (with_status THREAD_RUNNING xn) (with_running n (with_ready r s))).

Lemma awake_status r x st : status x <> THREAD_BLOCKED -> st <> THREAD_BLOCKED -> awake r (with_status st x) = awake r x.
Proof. intros H1 H2. unfold awake. cbn [status with_status frames]. by destruct (status x), st. Qed.

(** The thread [n] with record [xn] becomes the running one. *)
Lemma inv0_switched s r n xn :
  inv0 s -> threads s !! n = Some xn -> status xn <> THREAD_RUNNING -> status xn <> THREAD_DYING ->
  (ready_list s = n :: r /\ is_ready s n xn \/ ready_list s = r /\ idle_thread s = Some n) ->
  inv0 (switched s r n xn).
Proof.
  intros H Hn Hnr Hnd Hwhy. pose proof (i_idle s H) as (i & xi & Ei & Hi & Hfi & _).
  assert (idle_thread s = Some n -> frames xn = [FIdle]) as Hif by (intros E; congruence).
  apply (inv0_step s _ n xn (with_status THREAD_RUNNING xn)); [done|done|done|done| | | |done| | |done|done|done| | |].
  - exists (with_status THREAD_RUNNING xn). cbn. apply lookup_insert_eq.
  - cbn. destruct Hwhy as [[E Hr]|[E Hidle]].
    + apply enum_pop; [|by intros [? _]]. pose proof (i_ready s H) as He. by rewrite E in He.
    + rewrite <- E. apply (enum_update _ _ _ n xn); [apply (i_ready s H)|done|].
      split; intros [_ Hni]; by destruct (Hni Hidle).
  - intros q x Hq. destruct (i_waiters s H q x Hq) as [He Hv]. split; [|done].
    apply (enum_update _ _ _ n xn); [done|done|]. split; intros [Hst Hhd]; [|done].
    destruct Hwhy as [[_ [Hr _]]|[_ Hidle]]; [congruence|]. by rewrite (Hif Hidle) in Hhd.
  - intros E. split; [by apply Hif|done].
  - intros E. by apply (i_frames s H n xn).
  - intros (Hb & Hfr & He). exfalso. destruct Hwhy as [[_ [Hr _]]|[_ Hidle]]; [congruence|].
    rewrite (Hif Hidle) in Hfr. done.
  - intros l q' Hq'. exists q'. done.
  - intros q x Hq Hne. pose proof (i_wake s H q x Hq Hne).
    assert (awake q (with_status THREAD_RUNNING xn) = awake q xn) as ->; [|lia].
    destruct Hwhy as [[_ [Hr _]]|[_ Hidle]]; [apply awake_status; congruence|].
    unfold awake. cbn [frames with_status]. rewrite (Hif Hidle). by destruct (status xn).
Qed.

Lemma pick_run s :
  inv0 s -> none_running s ->
  exists r n xn, next_thread_to_run s = Ok (Some n, with_ready r s) /\ threads s !! n = Some xn /\
    status xn <> THREAD_DYING /\
    (ready_list s = n :: r /\ is_ready s n xn \/ ready_list s = r /\ idle_thread s = Some n).
Proof.
  intros H Hno. unfold next_thread_to_run. erewrite bind_eq; [|done]. destruct (ready_list s) as [|n r] eqn:E.
  - pose proof (i_idle s H) as (i & xi & Ei & Hi & _ & Hsi). exists [], i, xi. unfold gets. rewrite Ei.
    split; [|split; [done|split; [done|by right]]]. do 2 f_equal. destruct s. cbn in *. by subst.
  - destruct (enum_in _ _ _ n (i_ready s H)) as (xn & Hn & Hr); [rewrite E; apply list_elem_of_here|].
    exists r, n, xn. split; [done|]. split; [done|]. split; [destruct Hr; congruence|by left].
Qed.

Lemma only_running_switched s r n xn : none_running s -> threads s !! n = Some xn -> only_running (switched s r n xn).
Proof.
  intros Hno Hn u z. cbn. destruct (decide (n = u)) as [<-|Hne].
  - rewrite lookup_insert_eq. by intros [= <-].
  - rewrite lookup_insert_ne by done. intros Hz. split; [intros Hs; by destruct (Hno u z Hz)|congruence].
Qed.

Lemma schedule_run s : inv0 s -> none_running s -> (forall c x, threads s !! c = Some x -> c = running s ->
    status x = THREAD_DYING -> idle_thread s <> Some c) ->
  exists s', schedule s = Ok (tt, s') /\ inv s'.
Proof.
  intros H Hno Hdy. destruct (i_running s H) as [xc Hc]. destruct (pick_run s H Hno) as (r & n & xn & E & Hn & Hnd & Hwhy).
  unfold schedule. erewrite bind_eq; [|done]. erewrite bind_eq; [|exact E].
  assert (get_thread (running s) (with_ready r s) = Ok (xc, with_ready r s)) as Eg by (by apply get_thread_run).
  erewrite bind_eq; [|exact Eg]. rewrite bool_decide_eq_false_2 by (by apply (Hno _ _ Hc)). erewrite bind_eq; [|done].
  assert (get_thread n (with_ready r s) = Ok (xn, with_ready r s)) as Eg' by (by apply get_thread_run).
  erewrite bind_eq; [|exact Eg'].
  pose proof (inv0_switched s r n xn H Hn (Hno _ _ Hn) Hnd Hwhy) as H3.
  pose proof (only_running_switched s r n xn Hno Hn) as O3. set (s3 := switched s r n xn) in *.
  unfold thread_schedule_tail. destruct (Z.eqb_spec (running s) n) as [Ecn|Hne]; cbn [negb].
  - exists s3. split; [|done]. subst n. erewrite bind_eq; [|done].
    erewrite bind_eq; [|by apply set_status_run]. erewrite bind_eq; [|done].
    unfold s3, switched, ret. do 2 f_equal.
  - erewrite bind_eq; [|done]. erewrite bind_eq; [|done]. erewrite bind_eq; [|by apply set_status_run].
    erewrite bind_eq; [|done]. change (with_ticks 0 _) with s3.
    assert (threads s3 !! running s = Some xc) as Hc3 by (cbn; by rewrite lookup_insert_ne).
    erewrite bind_eq; [|by apply get_thread_run]. erewrite bind_eq; [|done].
    destruct (bool_decide_reflect (status xc = THREAD_DYING)) as [Hdc|Hdc]; cbn [andb]; [|by exists s3].
    destruct (Z.eqb_spec (running s) (initial_thread s3)); cbn [negb]; [by exists s3|].
    rewrite (proj2 (Z.eqb_neq _ _)) by done. erewrite bind_eq; [|done]. eexists. split; [done|]. split.
    + apply (inv0_free s3 (running s) xc); [done|done|done|done|]. by apply (Hdy _ xc).
    + intros u z Hz. change (delete (running s) (threads s3) !! u = Some z) in Hz.
      apply lookup_delete_Some in Hz as [_ Hz]. by apply O3.
Qed.

(** ** Semaphores *)

Definition with_sema r q s : sys :=
  match r with
  | Sem a => with_semas (<[a := q]> (semas s)) s
  | LockSem l =>
      match locks s !! l with
      | Some y => with_locks (<[l := {| holder := holder y; lock_sema := q |}]> (locks s)) s
      | None => s
      end
  | WaitSem w => with_waits (<[w := q]> (waits s)) s
  end.

Lemma get_sema_run s r q : sema_at s r = Some q -> get_sema r s = Ok (q, s).
Proof. unfold get_sema, sema_at. destruct r; [by intros ->| |by intros ->]. destruct (locks s !! l); by intros [= <-]. Qed.
Lemma set_sema_run s r q q' : sema_at s r = Some q -> set_sema r q' s = Ok (tt, with_sema r q' s).
Proof. unfold set_sema, sema_at. destruct r; cbn; [done| |done]. by destruct (locks s !! l). Qed.

Lemma threads_with_sema s r q : threads (with_sema r q s) = threads s.
Proof. destruct r; cbn; [done| |done]. by destruct (locks s !! l). Qed.
Lemma running_with_sema s r q : running (with_sema r q s) = running s.
Proof. destruct r; cbn; [done| |done]. by destruct (locks s !! l). Qed.
Lemma idle_with_sema s r q : idle_thread (with_sema r q s) = idle_thread s.
Proof. destruct r; cbn; [done| |done]. by destruct (locks s !! l). Qed.
Lemma ready_with_sema s r q : ready_list (with_sema r q s) = ready_list s.
Proof. destruct r; cbn; [done| |done]. by destruct (locks s !! l). Qed.

Lemma sema_at_with_eq s r q q' : sema_at s r = Some q -> sema_at (with_sema r q' s) r = Some q'.
Proof.
  destruct r; cbn; [intros _; apply lookup_insert_eq| |intros _; apply lookup_insert_eq].
  destruct (locks s !! l); cbn; [intros _; by rewrite lookup_insert_eq|done].
Qed.
Lemma sema_at_with_ne s r r' q' : r <> r' -> sema_at (with_sema r q' s) r' = sema_at s r'.
Proof.
  intros Hne. destruct r as [a|l|w]; cbn.
  - destruct r'; cbn; [|done|done]. rewrite lookup_insert_ne; [done|congruence].
  - destruct (locks s !! l); [|done]. destruct r'; cbn; [done| |done]. rewrite lookup_insert_ne; [done|congruence].
  - destruct r'; cbn; [done|done|]. rewrite lookup_insert_ne; [done|congruence].
Qed.
Lemma locks_with_sema s r q' l p' :
  locks (with_sema r q' s) !! l = Some p' ->
  exists p, locks s !! l = Some p /\ holder p' = holder p /\
    (r = LockSem l /\ lock_sema p' = q' \/ r <> LockSem l /\ lock_sema p' = lock_sema p).
Proof.
  destruct r as [a|l0|w]; cbn; [intros H; exists p'; by auto| |intros H; exists p'; by auto].
  destruct (locks s !! l0) as [y|] eqn:E; [cbn|intros H; exists p'; split; [done|split; [done|right]]; split; [congruence|done]].
  destruct (decide (l0 = l)) as [<-|Hne].
  - rewrite lookup_insert_eq. intros [= <-]. exists y. auto.
  - rewrite lookup_insert_ne by done. intros H. exists p'. split; [done|]. split; [done|]. right. split; [congruence|done].
Qed.

End inv.

End ThreadFacts.
