(* ===== verification/ThreadRun.v ===== *)
(** * threads/thread.c, threads/synch.c: every piece of a thread's code keeps the invariant

    For every frame: the run of it succeeds, unless the program misuses a lock or
    names an object that is not there ([faulty]), and the state it leaves satisfies the
    invariant. *)

From S2P Require Import Prelude Thread ThreadFacts.
Import Thread ThreadFacts.

Module ThreadRun.

Section run.
Context {P : Type} (next : P -> option (op P * (Z -> P))) (palloc : sys P -> option Z).
Notation thread := (thread P).
Notation sys := (sys P).
Notation frame := (frame P).
Implicit Types (s : sys) (t : Z) (x y : thread) (f : frame) (fs : list frame).

(** ** Steps of the running thread *)

(** [x] is the running thread, with the frame [f] next. *)
Record at_frame s x f fs : Prop := {
  af_inv : inv s;
  af_thread : threads s !! running s = Some x;
  af_frames : frames x = f :: fs;
  af_idle : idle_thread s <> Some (running s) }.

Lemma running_status s x : inv s -> threads s !! running s = Some x -> status x = THREAD_RUNNING.
Proof. intros [_ H] Hx. by apply (H _ _ Hx). Qed.
Lemma current_run s : inv s -> thread_current s = Ok (running s, s).
Proof. intros H. by destruct (thread_current_run s H) as (? & _ & _ & E). Qed.

Lemma inv_run s s' x y :
  inv s -> threads s !! running s = Some x -> idle_thread s <> Some (running s) ->
  threads s' = <[running s := y]> (threads s) ->
  idle_thread s' = idle_thread s -> running s' = running s -> ready_list s' = ready_list s ->
  status y = THREAD_RUNNING -> wff (running s) (frames y) ->
  (forall n, starting n (frames y) = starting n (frames x)) ->
  (forall r, is_Some (sema_at s r) -> is_Some (sema_at s' r)) ->
  (forall r q, sema_at s' r = Some q -> enum (threads s) (waiters q) (is_waiting r) /\ 0 <= value q /\
     (waiters q <> [] -> value q <= msum (awake r) (threads s) - awake r x + awake r y)) ->
  (forall l q', locks s' !! l = Some q' -> exists q, locks s !! l = Some q /\
     value (lock_sema q') + (if holder q' then 1 else 0) + owns l y =
     value (lock_sema q) + (if holder q then 1 else 0) + owns l x) ->
  inv s'.
Proof.
  intros H Hx Hni Et Ei Er El Hst Hwff Hs Hsem Hq Hlk. pose proof (running_status s x H Hx) as Hsx.
  destruct H as [H O]. split.
  - apply (inv0_step s s' (running s) x y); [done|done|done|done| | | |done|done|done| |congruence|done| |done| ].
    + rewrite Er, Et. rewrite lookup_insert_eq. by eexists.
    + rewrite El, Et. apply (enum_ext _ _ (is_ready s)); [intros; unfold is_ready; by rewrite Ei|].
      apply (enum_update _ _ _ _ x); [apply (i_ready s H)|done|]. split; intros [? _]; congruence.
    + intros r q Hr. destruct (Hq r q Hr) as (He & Hv & _). split; [|done]. rewrite Et.
      apply (enum_update _ _ _ _ x); [done|done|]. split; intros [? _]; congruence.
    + congruence.
    + intros [? _]. congruence.
    + intros r q Hr Hne. destruct (Hq r q Hr) as (_ & _ & Hw). by apply Hw.
  - intros u z. rewrite Et, Er. destruct (decide (running s = u)) as [<-|Hne].
    + rewrite lookup_insert_eq. by intros [= <-].
    + rewrite lookup_insert_ne by done. apply O.
Qed.

(** The same when the semaphores do not change. *)
Lemma inv_plain s s' x y :
  inv s -> threads s !! running s = Some x -> idle_thread s <> Some (running s) ->
  threads s' = <[running s := y]> (threads s) ->
  idle_thread s' = idle_thread s -> running s' = running s -> ready_list s' = ready_list s ->
  status y = THREAD_RUNNING -> wff (running s) (frames y) ->
  (forall n, starting n (frames y) = starting n (frames x)) ->
  (forall r, sema_at s' r = sema_at s r) -> (forall r, awake r x <= awake r y) ->
  (forall l q', locks s' !! l = Some q' -> exists q, locks s !! l = Some q /\
     (if holder q' then 1 else 0) + owns l y = (if holder q then 1 else 0) + owns l x) ->
  inv s'.
Proof.
  intros H Hx Hni Et Ei Er El Hst Hwff Hs Hsem Haw Hlk.
  apply (inv_run s s' x y); [done|done|done|done|done|done|done|done|done|done| | |].
  - intros r. by rewrite Hsem.
  - intros r q. rewrite Hsem. intros Hq. destruct H as [H _]. destruct (i_waiters s H r q Hq) as [He Hv].
    split; [done|]. split; [done|]. intros Hne. pose proof (i_wake s H r q Hq Hne). specialize (Haw r). lia.
  - intros l q' Hq'. destruct (Hlk l q' Hq') as (q & Hq & E). exists q. split; [done|].
    specialize (Hsem (LockSem l)). cbn in Hsem. rewrite Hq', Hq in Hsem. cbn in Hsem. injection Hsem as Hsem.
    rewrite Hsem. lia.
Qed.

Lemma not_idle s x : inv s -> threads s !! running s = Some x -> frames x <> [FIdle] -> idle_thread s <> Some (running s).
Proof. intros [H _] Hx Hf E. destruct (i_idle s H) as (i & z & Ei & Hz & Hfz & _). congruence. Qed.
Lemma at_wff s x f fs : at_frame s x f fs -> wff (running s) (f :: fs).
Proof. intros [[H _] Hx Hf Hni]. rewrite <- Hf. by apply (i_frames s H _ x). Qed.

Lemma awake_other r x f fs : frames x = f :: fs -> (forall r, f <> FDown r) -> awake r x = 0.
Proof. intros Hf Hne. unfold awake. rewrite Hf. destruct (status x), f; try done; by destruct (Hne s). Qed.
Lemma awake_nonneg r x : 0 <= awake r x.
Proof. unfold awake. destruct (status x), (frames x) as [|[] ?]; try lia; destruct (bool_decide _); lia. Qed.
Lemma pending_guarded l f fs : guards l f = false -> pending false l (f :: fs) = weight l f + pending false l fs.
Proof. cbn [pending]. by intros ->. Qed.

(** What the run of a frame adds to [owns]. *)
Definition gain (l : Z) f : Z :=
  match f with
  | FDown (LockSem l') | FClear l' => Z.b2z (l =? l')
  | FHolder l' | FUp (LockSem l') => - Z.b2z (l =? l')
  | _ => 0
  end.
(** The frames that the next lemmas take off the stack. *)
Definition regular f : bool :=
  match f with FTryDown _ | FTryHolder _ | FStart _ => false | _ => true end.

Lemma wff_tail t f fs : wff t (f :: fs) -> wff t fs.
Proof. by intros (_ & _ & _ & ?). Qed.
Lemma owns_plain l y : (forall l', head (frames y) <> Some (FTryHolder l')) -> owns l y = pending false l (frames y).
Proof. intros H. unfold owns. destruct (frames y) as [|[] ?]; try done. by destruct (H l0). Qed.
Lemma head_try t f fs l : wff t (f :: fs) -> (forall r, f <> FTryDown r) -> head fs <> Some (FTryHolder l).
Proof. intros (_ & H & _) Hf E. destruct fs as [|g fs]; [done|]. injection E as ->. by apply (Hf (LockSem l)). Qed.

Lemma pending_pop t l f fs : wff t (f :: fs) -> pending false l fs = pending false l (f :: fs) + gain l f.
Proof.
  intros (Hadj & _). cbn [pending]. destruct (guards l f) eqn:G.
  - assert (weight l f = 0) as -> by (by destruct f as [[]| |[]| | | | | | | | | | | | | | | |]).
    assert (gain l f = 1) as ->.
    { destruct f as [[]| |[]| | | | | | | | | | | | | | | |]; try done; cbn in G |- *; by rewrite G. }
    assert (exists g gs, fs = g :: gs /\ weight l g = 1) as (g & gs & -> & Hg).
    { destruct f as [[]| |[]| | | | | | | | | | | | | | | |]; try done; apply Z.eqb_eq in G as ->;
        (destruct fs as [|g gs]; [done|]); injection Hadj as ->; eexists _, _; (split; [done|]); cbn; by rewrite Z.eqb_refl. }
    cbn [pending]. lia.
  - assert (gain l f = - weight l f) as ->; [|lia].
    destruct f as [[]| |[]| | | | | | | | | | | | | | | |]; try done; cbn in G |- *; by rewrite G.
Qed.
Lemma owns_pop t l x y f fs :
  frames x = f :: fs -> frames y = fs -> wff t (f :: fs) -> regular f -> owns l y = owns l x + gain l f.
Proof.
  intros Hx Hy Hw Hr. rewrite !owns_plain.
  - rewrite Hx, Hy. by apply (pending_pop t).
  - rewrite Hx. intros l' E. injection E as ->. done.
  - rewrite Hy. intros l'. apply (head_try t f); [done|]. intros r ->. done.
Qed.
Lemma starting_pop n f fs : regular f -> starting n (f :: fs) = starting n fs.
Proof. by destruct f. Qed.

(** The running thread pops a frame that changes the holders of locks at most. *)
Lemma inv_pop s s' x y f fs :
  at_frame s x f fs -> regular f -> (forall r, f <> FDown r) ->
  threads s' = <[running s := y]> (threads s) ->
  idle_thread s' = idle_thread s -> running s' = running s -> ready_list s' = ready_list s ->
  status y = status x -> frames y = fs -> (forall r, sema_at s' r = sema_at s r) ->
  (forall l q', locks s' !! l = Some q' -> exists q, locks s !! l = Some q /\
     (if holder q' then 1 else 0) + gain l f = (if holder q then 1 else 0)) ->
  inv s'.
Proof.
  intros A Hreg Hnd Et Ei Er El Hst Hfy Hsem Hlk. pose proof (at_wff _ _ _ _ A) as Hw. destruct A as [H Hx Hf Hni].
  apply (inv_plain s s' x y); [done|done|done|done|done|done|done| | | |done| |].
  - rewrite Hst. by apply (running_status s).
  - rewrite Hfy. by apply (wff_tail _ f).
  - intros n. rewrite Hf, Hfy. by rewrite starting_pop.
  - intros r. rewrite (awake_other r x f fs Hf Hnd). apply awake_nonneg.
  - intros l q' Hq'. destruct (Hlk l q' Hq') as (q & Hq & E). exists q. split; [done|].
    rewrite (owns_pop (running s) l x y f fs) by done. lia.
Qed.

(** ** Frames that do not switch *)

(** The misuse of the objects of a program, for the thread [x] with the frame [f]. *)
Definition faulty s x f : bool :=
  let lacks l := bool_decide (locks s !! l = None) in
  let held l := bool_decide (holder <$> locks s !! l = Some (Some (running s))) in
  match f with
  | FDown r | FTryDown r | FUp r => bool_decide (sema_at s r = None)
  | FNotHeld l => lacks l || held l
  | FHolder l => lacks l
  | FTryHolder l => lacks l && negb (result x =? 0)
  | FClear l => negb (held l)
  | FWait c l | FSignal c l => negb (held l) || bool_decide (conds s !! c = None)
  | FBroadcast c l => bool_decide (conds s !! c = None)
  | FCreate p prio =>
      match palloc s with Some _ => negb ((PRI_MIN <=? prio) && (prio <=? PRI_MAX)) | None => false end
  | _ => false
  end.

Lemma held_run s l q : inv s -> locks s !! l = Some q ->
  lock_held_by_current_thread l s = Ok (bool_decide (holder q = Some (running s)), s).
Proof.
  intros H Hq. unfold lock_held_by_current_thread. erewrite bind_eq; [|unfold get_lock; by rewrite Hq].
  by erewrite bind_eq; [|by apply current_run].
Qed.
Lemma set_holder_run s l q h : locks s !! l = Some q ->
  set_holder l h s = Ok (tt, with_locks (<[l := {| holder := h; lock_sema := lock_sema q |}]> (locks s)) s).
Proof. intros Hq. unfold set_holder. by erewrite bind_eq; [|unfold get_lock; by rewrite Hq]. Qed.

Lemma sema_at_holder s l q h r : locks s !! l = Some q ->
  sema_at (with_locks (<[l := {| holder := h; lock_sema := lock_sema q |}]> (locks s)) s) r = sema_at s r.
Proof.
  intros Hq. destruct r; cbn; [done| |done]. destruct (decide (l = l0)) as [<-|Hne].
  - by rewrite lookup_insert_eq, Hq.
  - by rewrite lookup_insert_ne.
Qed.

(** The run succeeds and the invariant holds again. *)
Definition fine (m : M sys unit) s : Prop := exists s', m s = Ok (tt, s') /\ inv s'.

(** [f] is popped and nothing else changes but fields of the thread record. *)
Lemma inv_pop_only s x y f fs :
  at_frame s x f fs -> regular f -> (forall r, f <> FDown r) -> (forall l, gain l f = 0) ->
  status y = status x -> frames y = fs -> inv (upd (running s) y s).
Proof.
  intros A Hr Hnd Hg Hst Hfy. apply (inv_pop s _ x y f fs); try done. intros l q' Hq'. exists q'. rewrite Hg. split; [done|lia].
Qed.

Lemma not_held_fine s x l fs : at_frame s x (FNotHeld l) fs -> faulty s x (FNotHeld l) = false ->
  fine (run_frame palloc (running s) (FNotHeld l) fs) s.
Proof.
  intros A Hf. cbn in Hf. destruct (locks s !! l) as [q|] eqn:Hq; [|done].
  rewrite (bool_decide_eq_false_2 (Some q = None)) in Hf by done. cbn [orb] in Hf. pose proof A as [H Hx _ _].
  eexists. split; [|by apply (inv_pop_only s x (with_frames fs x) (FNotHeld l) fs)].
  cbn [run_frame]. erewrite bind_eq; [|by apply held_run].
  assert (bool_decide (holder q = Some (running s)) = false) as ->.
  { apply bool_decide_eq_false in Hf. apply bool_decide_eq_false. cbn in Hf. congruence. }
  erewrite bind_eq; [|done]. by apply set_frames_run.
Qed.

Lemma holder_free s x l fs q : at_frame s x (FHolder l) fs -> locks s !! l = Some q -> holder q = None.
Proof.
  intros A Hq. pose proof (at_wff _ _ _ _ A) as Hw. destruct A as [[H _] Hx Hf Hni].
  pose proof (i_locks s H l q Hq) as E. pose proof (msum_lookup (owns l) (threads s) _ x (owns_nonneg l) Hx) as Hle.
  destruct (i_waiters s H (LockSem l) (lock_sema q)) as [_ Hv]; [cbn; by rewrite Hq|].
  assert (1 <= owns l x); [|by destruct (holder q); [lia|]].
  unfold owns. rewrite Hf. rewrite pending_guarded by done. cbn. rewrite Z.eqb_refl. cbn.
  pose proof (pending_nonneg false l fs). lia.
Qed.

(** The running thread sets the holder of a lock. *)
Lemma inv_holder s x l fs f (h : option Z) q :
  at_frame s x f fs -> regular f -> (forall r, f <> FDown r) -> locks s !! l = Some q ->
  (forall l', l' <> l -> gain l' f = 0) ->
  (if h then 1 else 0) + gain l f = (if holder q then 1 else 0) ->
  inv (upd (running s) (with_frames fs x) (with_locks (<[l := {| holder := h; lock_sema := lock_sema q |}]> (locks s)) s)).
Proof.
  intros A Hr Hnd Hq Hg Hh. apply (inv_pop s _ x (with_frames fs x) f fs); try done.
  - intros r. by apply sema_at_holder.
  - intros l' q'. cbn. destruct (decide (l = l')) as [<-|Hne].
    + rewrite lookup_insert_eq. intros [= <-]. exists q. done.
    + rewrite lookup_insert_ne by done. intros Hq'. exists q'. split; [done|]. rewrite Hg by done. lia.
Qed.
Lemma holder_fine s x l fs : at_frame s x (FHolder l) fs -> faulty s x (FHolder l) = false ->
  fine (run_frame palloc (running s) (FHolder l) fs) s.
Proof.
  intros A Hf. cbn in Hf. destruct (locks s !! l) as [q|] eqn:Hq; [|by rewrite bool_decide_eq_true_2 in Hf].
  pose proof (holder_free _ _ _ _ _ A Hq) as Hh. pose proof A as [H Hx _ _]. eexists. split.
  - cbn [run_frame]. erewrite bind_eq; [|by apply set_holder_run]. by apply set_frames_run.
  - apply (inv_holder s x l fs (FHolder l)); try done.
    + intros l' Hne. cbn. by rewrite (proj2 (Z.eqb_neq _ _)).
    + cbn. by rewrite Z.eqb_refl, Hh.
Qed.
Lemma held_true s l : bool_decide (holder <$> locks s !! l = Some (Some (running s))) = true ->
  exists q, locks s !! l = Some q /\ holder q = Some (running s).
Proof. intros H%bool_decide_eq_true. destruct (locks s !! l) as [q|]; [|done]. exists q. by injection H. Qed.
Lemma clear_fine s x l fs : at_frame s x (FClear l) fs -> faulty s x (FClear l) = false ->
  fine (run_frame palloc (running s) (FClear l) fs) s.
Proof.
  intros A Hf. cbn in Hf. apply negb_false_iff, held_true in Hf as (q & Hq & Hh). pose proof A as [H Hx _ _].
  eexists. split.
  - cbn [run_frame]. erewrite bind_eq; [|by apply held_run]. rewrite bool_decide_eq_true_2 by done.
    erewrite bind_eq; [|done]. erewrite bind_eq; [|by apply set_holder_run]. by apply set_frames_run.
  - apply (inv_holder s x l fs (FClear l)); try done.
    + intros l' Hne. cbn. by rewrite (proj2 (Z.eqb_neq _ _)).
    + cbn. by rewrite Z.eqb_refl, Hh.
Qed.

Lemma try_holder_fine s x l fs : at_frame s x (FTryHolder l) fs -> faulty s x (FTryHolder l) = false ->
  fine (run_frame palloc (running s) (FTryHolder l) fs) s.
Proof.
  intros A Hf. pose proof (at_wff _ _ _ _ A) as Hw. pose proof A as [H Hx Hfr Hni]. cbn in Hf.
  assert (forall l', owns l' (with_frames fs x) = pending false l' fs) as Oy.
  { intros l'. apply owns_plain. intros l''. cbn. by apply (head_try (running s) (FTryHolder l)). }
  assert (forall l', owns l' x = (if (l' =? l) && negb (result x =? 0) then 1 else 0) + pending false l' fs) as Ox.
  { intros l'. unfold owns. rewrite Hfr. by rewrite pending_guarded. }
  destruct (negb (result x =? 0)) eqn:Er; cycle 1.
  - eexists. split.
    + cbn [run_frame]. erewrite bind_eq; [|by apply get_thread_run]. rewrite Er. erewrite bind_eq; [|done]. by apply set_frames_run.
    + apply (inv_plain s _ x (with_frames fs x)); try done; [exact (running_status s x H Hx)|by apply (wff_tail _ (FTryHolder l))| | |].
      * intros n. rewrite Hfr. done.
      * intros r. rewrite (awake_other r x _ _ Hfr) by done. apply awake_nonneg.
      * intros l' q' Hq'. exists q'. split; [done|]. rewrite Ox, Oy, andb_false_r. lia.
  - destruct (locks s !! l) as [q|] eqn:Hq; [|by rewrite bool_decide_eq_true_2 in Hf]. eexists. split.
    + cbn [run_frame]. erewrite bind_eq; [|by apply get_thread_run]. rewrite Er.
      erewrite bind_eq; [|by apply set_holder_run]. by apply set_frames_run.
    + assert (holder q = None) as Hh.
      { destruct H as [H _]. pose proof (i_locks s H l q Hq) as E.
        pose proof (msum_lookup (owns l) (threads s) _ x (owns_nonneg l) Hx) as Hle. specialize (Ox l).
        rewrite Z.eqb_refl in Ox. cbn in Ox. pose proof (pending_nonneg false l fs).
        destruct (i_waiters s H (LockSem l) (lock_sema q)) as [_ Hv]; [cbn; by rewrite Hq|]. destruct (holder q); [lia|done]. }
      apply (inv_plain s _ x (with_frames fs x)); try done; [exact (running_status s x H Hx)|by apply (wff_tail _ (FTryHolder l))| | | |].
      * intros n. by rewrite Hfr.
      * intros r. by apply sema_at_holder.
      * intros r. rewrite (awake_other r x _ _ Hfr) by done. apply awake_nonneg.
      * intros l' q'. cbn. rewrite Ox, Oy. destruct (decide (l = l')) as [<-|Hne].
        -- rewrite lookup_insert_eq. intros [= <-]. exists q. rewrite Hh, Z.eqb_refl. cbn. split; [done|lia].
        -- rewrite lookup_insert_ne, (proj2 (Z.eqb_neq l' l)) by congruence. intros Hq'. by exists q'.
Qed.

(** ** Semaphores that do not block *)

Definition with_result (v : Z) x : thread :=
  {| tid := tid x; status := status x; priority := priority x; frames := frames x; result := v; resume := resume x |}.
Lemma set_result_run s t x v : threads s !! t = Some x -> set_result t v s = Ok (tt, upd t (with_result v x) s).
Proof. intros Hx. unfold set_result. by erewrite bind_eq; [|by apply get_thread_run]. Qed.
Lemma upd_upd s t y z : upd t z (upd t y s) = upd t z s.
Proof. unfold upd. cbn. by rewrite insert_insert_eq. Qed.

Lemma sema_at_upd s t y r : sema_at (upd t y s) r = sema_at s r.
Proof. by destruct r. Qed.

(** The running thread changes the value of a semaphore. *)
Lemma inv_sema s x y r q v :
  inv s -> threads s !! running s = Some x -> idle_thread s <> Some (running s) -> sema_at s r = Some q -> 0 <= v ->
  status y = status x -> wff (running s) (frames y) -> (forall n, starting n (frames y) = starting n (frames x)) ->
  (waiters q <> [] -> v <= msum (awake r) (threads s) - awake r x + awake r y) ->
  (forall r', r' <> r -> awake r' x <= awake r' y) ->
  (forall l, r = LockSem l -> v + owns l y = value q + owns l x) ->
  (forall l, r <> LockSem l -> owns l y = owns l x) ->
  inv (upd (running s) y (with_sema r {| value := v; waiters := waiters q |} s)).
Proof.
  intros H Hx Hni Hq Hv Hst Hw Hs Hwk Haw Hlk Hlk'. set (s' := upd _ _ _).
  assert (forall r', sema_at s' r' = sema_at (with_sema r {| value := v; waiters := waiters q |} s) r') as Es
    by (intros r'; apply sema_at_upd).
  apply (inv_run s s' x y); [done|done|done| | | | | |done|done| | |].
  - unfold s', upd. cbn. by rewrite threads_with_sema.
  - unfold s', upd. cbn. by rewrite idle_with_sema.
  - unfold s', upd. cbn. by rewrite running_with_sema.
  - unfold s', upd. cbn. by rewrite ready_with_sema.
  - rewrite Hst. by apply (running_status s).
  - intros r' Hr'. rewrite Es. destruct (decide (r = r')) as [<-|Hne].
    + by rewrite (sema_at_with_eq s r q).
    + by rewrite sema_at_with_ne.
  - intros r' q'. rewrite Es. destruct H as [H _]. destruct (decide (r = r')) as [<-|Hne].
    + rewrite (sema_at_with_eq s r q) by done. intros [= <-]. cbn. destruct (i_waiters s H r q Hq) as [He _]. done.
    + rewrite sema_at_with_ne by done. intros Hq'. destruct (i_waiters s H r' q' Hq') as [He Hv'].
      split; [done|]. split; [done|]. intros Hnn. pose proof (i_wake s H r' q' Hq' Hnn).
      assert (awake r' x <= awake r' y); [apply Haw; congruence|lia].
  - intros l p' Hp'. destruct (locks_with_sema s r _ l p' Hp') as (p & Hp & Eh & Hcase). exists p. split; [done|].
    rewrite Eh. destruct Hcase as [[Er ->]|[Hne ->]]; cbn.
    + subst r. cbn in Hq. rewrite Hp in Hq. injection Hq as <-. specialize (Hlk l eq_refl). lia.
    + rewrite (Hlk' l Hne). lia.
Qed.

Lemma try_down_owns s x r fs l b :
  at_frame s x (FTryDown r) fs ->
  owns l {| tid := tid x; status := status x; priority := priority x; frames := fs; result := Z.b2z b; resume := resume x |} =
  owns l x + (if bool_decide (r = LockSem l) && b then 1 else 0).
Proof.
  intros A. destruct (at_wff _ _ _ _ A) as (Hadj & Htry & _). destruct A as [_ _ Hf _].
  rewrite (owns_plain l x) by (rewrite Hf; done). rewrite Hf, pending_guarded by done. cbn [weight].
  unfold owns. cbn [frames result]. destruct fs as [|g fs]; [|destruct g]; try (rewrite bool_decide_eq_false_2; [cbn; lia|]; intros ->; done).
  injection Htry as ->. rewrite Z.add_comm. f_equal. destruct (Z.eqb_spec l l0) as [->|Hne].
  - rewrite bool_decide_eq_true_2 by done. by destruct b.
  - rewrite bool_decide_eq_false_2 by congruence. done.
Qed.

Lemma try_down_fine s x r fs : at_frame s x (FTryDown r) fs -> faulty s x (FTryDown r) = false ->
  fine (run_frame palloc (running s) (FTryDown r) fs) s.
Proof.
  intros A Hf. cbn in Hf. apply bool_decide_eq_false in Hf. destruct (sema_at s r) as [q|] eqn:Hq; [|done].
  pose proof (at_wff _ _ _ _ A) as Hw. pose proof A as [H Hx Hfr Hni].
  destruct H as [H O]. destruct (i_waiters s H r q Hq) as [_ Hv].
  assert (forall r' y, awake r' x <= awake r' y) as Haw.
  { intros r' y. rewrite (awake_other r' x _ _ Hfr) by done. apply awake_nonneg. }
  set (y b := {| tid := tid x; status := status x; priority := priority x; frames := fs;
                 result := Z.b2z b; resume := resume x |}).
  cbn [run_frame]. unfold fine, sema_try_down. destruct (value q >? 0) eqn:Ev.
  - exists (upd (running s) (y true) (with_sema r {| value := value q - 1; waiters := waiters q |} s)). split.
    + erewrite bind_eq; cycle 1.
      { erewrite bind_eq; [|by apply get_sema_run]. rewrite Ev. by erewrite bind_eq; [|by apply (set_sema_run _ _ q)]. }
      erewrite bind_eq; [|by apply (set_frames_run _ _ x); rewrite threads_with_sema].
      rewrite (set_result_run _ _ (with_frames fs x)) by apply lookup_insert_eq. by rewrite upd_upd.
    + apply (inv_sema s x (y true) r q); try done; [lia|by apply (wff_tail _ (FTryDown r))| | | |].
      * intros n. by rewrite Hfr.
      * intros Hne. pose proof (i_wake s H r q Hq Hne). specialize (Haw r (y true)). lia.
      * intros l Hl. unfold y. rewrite (try_down_owns s x r) by done. rewrite bool_decide_eq_true_2 by done. cbn. lia.
      * intros l Hl. unfold y. rewrite (try_down_owns s x r) by done. rewrite bool_decide_eq_false_2 by done. cbn. lia.
  - exists (upd (running s) (y false) s). split.
    + erewrite bind_eq; cycle 1.
      { erewrite bind_eq; [|by apply get_sema_run]. by rewrite Ev. }
      erewrite bind_eq; [|by apply set_frames_run].
      rewrite (set_result_run _ _ (with_frames fs x)) by apply lookup_insert_eq. by rewrite upd_upd.
    + apply (inv_plain s _ x (y false)); try done; [by apply (running_status s x)|by apply (wff_tail _ (FTryDown r))| |].
      * intros n. by rewrite Hfr.
      * intros l q' Hq'. exists q'. split; [done|]. unfold y. rewrite (try_down_owns s x r) by done. rewrite andb_false_r. lia.
Qed.

Definition unblocked u x s : sys := upd u (with_status THREAD_READY x) (with_ready (ready_list s ++ [u]) s).
Lemma unblock_run s u x : threads s !! u = Some x -> status x = THREAD_BLOCKED ->
  thread_unblock u s = Ok (tt, unblocked u x s).
Proof.
  intros Hx Hs. unfold thread_unblock. erewrite bind_eq; [|by apply get_thread_run]. rewrite bool_decide_eq_true_2 by done.
  erewrite bind_eq; [|done]. erewrite bind_eq; [|done]. by apply set_status_run.
Qed.
Lemma awake_blocked r x : status x = THREAD_BLOCKED -> awake r x = 0.
Proof. unfold awake. by intros ->. Qed.
Lemma awake_woken r x : head (frames x) = Some (FDown r) -> awake r (with_status THREAD_READY x) = 1.
Proof. unfold awake. cbn. destruct (frames x); [done|]. intros [= ->]. by rewrite bool_decide_eq_true_2. Qed.

Section wake.
Context s (H : inv s) (r : sema_ref) (q : semaphore) (u : Z) (ws : list Z).
Context (Hq : sema_at s r = Some q) (Hws : waiters q = u :: ws).
Let s0 := with_sema r {| value := value q; waiters := ws |} s.

Lemma woken_thread : exists xu, threads s !! u = Some xu /\ is_waiting r u xu /\ u <> running s /\ idle_thread s <> Some u.
Proof.
  destruct H as [H0 O]. destruct (i_waiters s H0 r q Hq) as [He _].
  destruct (enum_in _ _ _ u He) as (xu & Hu & Hw); [rewrite Hws; apply list_elem_of_here|].
  exists xu. split; [done|]. split; [done|]. destruct Hw as [Hst Hhd]. split.
  - intros E. apply (O _ _ Hu) in E. congruence.
  - intros E. destruct (i_idle s H0) as (i & z & Ei & Hz & Hf & _). simplify_eq. by rewrite Hf in Hhd.
Qed.

(** The first waiter is moved from the semaphore to the ready list. *)
Lemma wake_inv xu :
  threads s !! u = Some xu -> is_waiting r u xu -> u <> running s -> idle_thread s <> Some u -> inv (unblocked u xu s0).
Proof.
  intros Hu [Hst Hhd] Hnr Hni. destruct H as [H0 O]. set (y := with_status THREAD_READY xu).
  assert (threads (unblocked u xu s0) = <[u := y]> (threads s)) as Et by (cbn; unfold s0; by rewrite threads_with_sema).
  assert (idle_thread (unblocked u xu s0) = idle_thread s) as Ei by (cbn; apply idle_with_sema).
  assert (running (unblocked u xu s0) = running s) as Er by (cbn; apply running_with_sema).
  assert (forall r', sema_at (unblocked u xu s0) r' = sema_at s0 r') as Es by (by intros []).
  split; cycle 1.
  { intros v z. rewrite Et, Er. destruct (decide (u = v)) as [<-|Hne].
    - rewrite lookup_insert_eq. intros [= <-]. done.
    - rewrite lookup_insert_ne by done. apply O. }
  apply (inv0_step s _ u xu y); [done|done|done|done| | | | |done| |done| |done| | |].
  - rewrite Er, Et, lookup_insert_ne by done. apply (i_running s H0).
  - rewrite Et. apply (enum_ext _ _ (is_ready s)); [intros; unfold is_ready; by rewrite Ei|]. cbn. unfold s0. rewrite ready_with_sema.
    apply (enum_push _ _ _ u xu); [apply (i_ready s H0)|done| |done]. intros [? _]. congruence.
  - intros r' q'. rewrite Es, Et. unfold s0. destruct (decide (r = r')) as [<-|Hne].
    + rewrite (sema_at_with_eq s r q) by done. intros [= <-]. destruct (i_waiters s H0 r q Hq) as [He Hv]. rewrite Hws in He.
      split; [|done]. apply enum_pop; [done|]. by intros [? _].
    + rewrite sema_at_with_ne by done. intros Hq'. destruct (i_waiters s H0 r' q' Hq') as [He Hv]. split; [|done].
      apply (enum_update _ _ _ u xu); [done|done|]. split; intros [? E]; [|done]. rewrite Hhd in E. congruence.
  - intros r' Hr'. rewrite Es. unfold s0. destruct (decide (r = r')) as [<-|Hne].
    + by rewrite (sema_at_with_eq s r q).
    + by rewrite sema_at_with_ne.
  - intros _. by apply (i_frames s H0 u xu).
  - done.
  - intros (_ & Hf & _). by rewrite Hf in Hhd.
  - intros l p' Hp'. destruct (locks_with_sema s r _ l p' Hp') as (p & Hp & Eh & Hcase). exists p. split; [done|].
    rewrite Eh. destruct Hcase as [[Elr ->]|[Hne ->]]; [|done]. rewrite Elr in Hq. cbn in Hq. rewrite Hp in Hq.
    injection Hq as Hq'. rewrite <- Hq'. done.
  - intros r' q'. rewrite Es. rewrite (awake_blocked r' xu) by done. unfold s0. destruct (decide (r = r')) as [<-|Hne].
    + rewrite (sema_at_with_eq s r q) by done. intros [= <-] _. cbn [value].
      pose proof (i_wake s H0 r q Hq) as Hw. rewrite Hws in Hw. specialize (Hw ltac:(done)).
      pose proof (awake_nonneg r y). lia.
    + rewrite sema_at_with_ne by done. intros Hq' Hnn. pose proof (i_wake s H0 r' q' Hq' Hnn).
      pose proof (awake_nonneg r' y). lia.
Qed.

(** ... where it is ready to take what is about to be given back. *)
Lemma wake_enough xu : threads s !! u = Some xu -> is_waiting r u xu ->
  value q + 1 <= msum (awake r) (threads (unblocked u xu s0)).
Proof.
  intros Hu [Hst Hhd]. assert (threads (unblocked u xu s0) = <[u := with_status THREAD_READY xu]> (threads s)) as ->
    by (cbn; unfold s0; by rewrite threads_with_sema).
  rewrite (msum_insert _ _ _ _ _ Hu), awake_woken, awake_blocked by done. destruct H as [H0 _].
  pose proof (i_wake s H0 r q Hq) as Hw. rewrite Hws in Hw. specialize (Hw ltac:(done)). lia.
Qed.
End wake.

Lemma at_frame_kept s s' x f fs :
  at_frame s x f fs -> inv s' -> threads s' !! running s = Some x -> running s' = running s ->
  idle_thread s' = idle_thread s -> at_frame s' x f fs.
Proof. intros [_ _ Hf Hni] H' Hx Er Ei. split; [done|by rewrite Er|done|by rewrite Er, Ei]. Qed.

Lemma up_wakes s x r fs q : at_frame s x (FUp r) fs -> sema_at s r = Some q ->
  exists s1 q1,
    match waiters q with
    | [] => ret q
    | t :: ws => do! set_sema r {| value := value q; waiters := ws |}; do! thread_unblock t;
                 ret {| value := value q; waiters := ws |}
    end s = Ok (q1, s1) /\
    at_frame s1 x (FUp r) fs /\ running s1 = running s /\ sema_at s1 r = Some q1 /\
    (waiters q1 <> [] -> value q1 + 1 <= msum (awake r) (threads s1)).
Proof.
  intros A Hq. destruct (waiters q) as [|u ws] eqn:Hws.
  - exists s, q. split; [done|]. split; [done|]. split; [done|]. split; [done|]. by rewrite Hws.
  - pose proof A as [H Hx _ _]. destruct (woken_thread s H r q u ws Hq Hws) as (xu & Hu & Hw & Hnr & Hni).
    pose proof (wake_inv s H r q u ws Hq Hws xu Hu Hw Hnr Hni) as H1.
    pose proof (wake_enough s H r q u ws Hq Hws xu Hu Hw) as Hen.
    eexists _, _. split.
    { erewrite bind_eq; [|by apply (set_sema_run _ _ q)].
      erewrite bind_eq; [|apply unblock_run; [by rewrite threads_with_sema|apply Hw]]. done. }
    split; [|split; [|split; [|by intros _]]].
    + apply (at_frame_kept s); [done|done| | |]; cbn.
      * by rewrite threads_with_sema, lookup_insert_ne.
      * apply running_with_sema.
      * apply idle_with_sema.
    + cbn. apply running_with_sema.
    + transitivity (sema_at (with_sema r {| value := value q; waiters := ws |} s) r); [by destruct r|].
      by apply (sema_at_with_eq s r q).
Qed.

Lemma up_fine s x r fs : at_frame s x (FUp r) fs -> faulty s x (FUp r) = false ->
  fine (run_frame palloc (running s) (FUp r) fs) s.
Proof.
  intros A Hf. cbn in Hf. apply bool_decide_eq_false in Hf. destruct (sema_at s r) as [q|] eqn:Hq; [|done].
  destruct (up_wakes s x r fs q A Hq) as (s1 & q1 & E & A1 & Er & Hq1 & Hen).
  pose proof (at_wff _ _ _ _ A1) as Hw. pose proof A1 as [H1 Hx1 Hfr Hni1].
  assert (forall l, owns l (with_frames fs x) = owns l x + gain l (FUp r)) as Ho
    by (intros l; by apply (owns_pop (running s1) l x _ _ fs)).
  assert (forall r' y, awake r' x <= awake r' y) as Haw.
  { intros r' y. rewrite (awake_other r' x _ _ Hfr) by done. apply awake_nonneg. }
  destruct H1 as [H1 O1]. destruct (i_waiters s1 H1 r q1 Hq1) as [_ Hv].
  assert (0 <= u32 (value q1 + 1) <= value q1 + 1) as Hu by (split; [by apply wrapu_range|apply wrapu_le; lia]).
  exists (upd (running s1) (with_frames fs x) (with_sema r {| value := u32 (value q1 + 1); waiters := waiters q1 |} s1)). split.
  - cbn [run_frame]. erewrite bind_eq; cycle 1.
    { unfold sema_up. erewrite bind_eq; [|by apply get_sema_run]. erewrite bind_eq; [|exact E]. by apply (set_sema_run _ _ q1). }
    rewrite <- Er. apply set_frames_run. by rewrite threads_with_sema.
  - apply (inv_sema s1 x _ r q1); try done; [lia|by apply (wff_tail _ (FUp r))| | | |].
    + intros n. by rewrite Hfr.
    + intros Hne. specialize (Hen Hne). specialize (Haw r (with_frames fs x)). lia.
    + intros l ->. rewrite Ho. cbn [gain]. rewrite Z.eqb_refl. cbn [Z.b2z]. cbn in Hq1.
      destruct (locks s1 !! l) as [p|] eqn:Hp; [|done]. injection Hq1 as <-. pose proof (i_locks s1 H1 l p Hp) as Hl.
      pose proof (msum_lookup (owns l) (threads s1) _ x (owns_nonneg l) Hx1) as Hle.
      pose proof (owns_nonneg l (with_frames fs x)) as Hge. rewrite Ho in Hge. cbn [gain] in Hge. rewrite Z.eqb_refl in Hge. cbn [Z.b2z] in Hge.
      rewrite wrapu_small by (destruct (holder p); lia). lia.
    + intros l Hl. rewrite Ho. cbn [gain]. destruct r; try lia. rewrite (proj2 (Z.eqb_neq l l0)) by congruence. cbn. lia.
Qed.

(** ** Condition variables *)

(** The frame [f] is replaced by [gs], which own nothing yet. *)
Lemma inv_replace s s' x y f fs gs :
  at_frame s x f fs -> regular f -> (forall r, f <> FDown r) -> (forall l, gain l f = 0) ->
  threads s' = <[running s := y]> (threads s) ->
  idle_thread s' = idle_thread s -> running s' = running s -> ready_list s' = ready_list s ->
  (forall r, sema_at s' r = sema_at s r) -> locks s' = locks s -> status y = status x -> frames y = gs ++ fs ->
  wff (running s) (gs ++ fs) -> (forall l', head (gs ++ fs) <> Some (FTryHolder l')) ->
  (forall l, pending false l (gs ++ fs) = pending false l fs) ->
  (forall n, starting n (gs ++ fs) = starting n fs) -> inv s'.
Proof.
  intros A Hreg Hnd Hg Et Ei Er El Hsem Hlk Hst Hfy Hw' Hh Hp Hs. pose proof (at_wff _ _ _ _ A) as Hw.
  destruct A as [H Hx Hf Hni]. apply (inv_plain s s' x y); [done|done|done|done|done|done|done| |by rewrite Hfy| |done| |].
  - rewrite Hst. by apply (running_status s).
  - intros n. rewrite Hf, Hfy, Hs. by rewrite starting_pop.
  - intros r. rewrite (awake_other r x f fs Hf Hnd). apply awake_nonneg.
  - intros l q'. rewrite Hlk. intros Hq'. exists q'. split; [done|]. f_equal.
    rewrite (owns_plain l y), Hfy, Hp by (by rewrite Hfy). specialize (Hg l).
    rewrite (pending_pop (running s) l f fs Hw), Hg. rewrite owns_plain, Hf; [lia|].
    rewrite Hf. intros l' E. injection E as ->. done.
Qed.

Lemma signal_fine s x c l fs : at_frame s x (FSignal c l) fs -> faulty s x (FSignal c l) = false ->
  fine (run_frame palloc (running s) (FSignal c l) fs) s.
Proof.
  intros A Hf. cbn in Hf. apply orb_false_iff in Hf as [Hf Hc]. apply negb_false_iff, held_true in Hf as (q & Hq & Hh).
  apply bool_decide_eq_false in Hc. destruct (conds s !! c) as [ws|] eqn:Ec; [|done].
  pose proof A as [H Hx _ _]. pose proof (at_wff _ _ _ _ A) as Hw.
  cbn [run_frame]. unfold fine, cond_signal. erewrite bind_eq; [|by apply held_run]. rewrite bool_decide_eq_true_2 by done.
  erewrite bind_eq; [|done]. erewrite bind_eq; [|unfold get_cond; by rewrite Ec]. destruct ws as [|w ws].
  - eexists. split; [by apply set_frames_run|]. by apply (inv_pop_only s x (with_frames fs x) (FSignal c l) fs).
  - eexists. split; [erewrite bind_eq; [|done]; by apply set_frames_run|].
    apply (inv_replace s _ x (with_frames (FUp (WaitSem w) :: fs) x) (FSignal c l) fs [FUp (WaitSem w)]); try done.
    destruct Hw as (_ & Ht & _ & Hw). split; [done|]. split; [|done]. by destruct fs as [|[] ?].
Qed.
Lemma broadcast_fine s x c l fs : at_frame s x (FBroadcast c l) fs -> faulty s x (FBroadcast c l) = false ->
  fine (run_frame palloc (running s) (FBroadcast c l) fs) s.
Proof.
  intros A Hc. cbn in Hc. apply bool_decide_eq_false in Hc. destruct (conds s !! c) as [ws|] eqn:Ec; [|done].
  pose proof A as [H Hx _ _]. pose proof (at_wff _ _ _ _ A) as Hw.
  cbn [run_frame]. unfold fine, cond_broadcast. erewrite bind_eq; [|unfold get_cond; by rewrite Ec]. destruct ws as [|w ws].
  - eexists. split; [by apply set_frames_run|]. by apply (inv_pop_only s x (with_frames fs x) (FBroadcast c l) fs).
  - eexists. split; [by apply set_frames_run|].
    by apply (inv_replace s _ x (with_frames (FSignal c l :: FBroadcast c l :: fs) x) (FBroadcast c l) fs [FSignal c l; FBroadcast c l]).
Qed.

(** The frames of [cond_wait] after the waiter is on the list. *)
Definition wait_frames t (l : Z) : list frame :=
  [FClear l; FUp (LockSem l); FDown (WaitSem t); FNotHeld l; FDown (LockSem l); FHolder l].
Lemma pending_wait t l l' fs : pending false l' (wait_frames t l ++ fs) = pending false l' fs.
Proof. cbn. by destruct (l' =? l). Qed.
Lemma nobody_waits s u z : inv s -> threads s !! u = Some z -> ~ is_waiting (WaitSem (running s)) u z.
Proof.
  intros [H O] Hz [Hst Hhd]. assert (idle_thread s <> Some u) as Hni.
  { intros E. destruct (i_idle s H) as (i & z' & Ei & Hz' & Hfr & _). simplify_eq. by rewrite Hfr in Hhd. }
  pose proof (i_frames s H u z Hz Hni) as Hw. destruct (frames z) as [|f fs]; [done|]. injection Hhd as ->.
  destruct Hw as (Hw & _). assert (status z = THREAD_RUNNING) by (by apply (O u z Hz)). congruence.
Qed.
Lemma wait_fine s x c l fs : at_frame s x (FWait c l) fs -> faulty s x (FWait c l) = false ->
  fine (run_frame palloc (running s) (FWait c l) fs) s.
Proof.
  intros A Hf. cbn in Hf. apply orb_false_iff in Hf as [Hf Hc]. apply negb_false_iff, held_true in Hf as (q & Hq & Hh).
  apply bool_decide_eq_false in Hc. destruct (conds s !! c) as [ws|] eqn:Ec; [|done].
  pose proof A as [H Hx Hfr Hni]. destruct (at_wff _ _ _ _ A) as (_ & Htry & _ & Hw). eexists. split.
  - cbn [run_frame]. unfold cond_wait. erewrite bind_eq; [|by apply held_run]. rewrite bool_decide_eq_true_2 by done.
    erewrite bind_eq; [|done]. erewrite bind_eq; [|done]. erewrite bind_eq; [|unfold get_cond; by cbn; rewrite Ec].
    erewrite bind_eq; [|done]. by apply set_frames_run.
  - set (s' := upd _ _ _). apply (inv_run s s' x (with_frames (wait_frames (running s) l ++ fs) x)); try done.
    + exact (running_status s x H Hx).
    + cbn. repeat split; try done. by destruct fs as [|[] ?].
    + intros n. by rewrite Hfr.
    + intros r Hr. destruct r as [a|l0|w]; [done|done|]. cbn. unfold wait_sema. destruct (decide (running s = w)) as [->|Hne].
      * rewrite lookup_insert_eq. by eexists.
      * by rewrite lookup_insert_ne.
    + intros r q' Hq'. destruct (decide (r = WaitSem (running s))) as [->|Hne].
      * cbn in Hq'. unfold wait_sema in Hq'. rewrite lookup_insert_eq in Hq'. injection Hq' as <-. cbn [waiters value].
        split; [|done]. apply enum_nil. intros u z Hz. by apply nobody_waits.
      * assert (sema_at s r = Some q') as Hqs.
        { destruct r as [a|l0|w]; [done|done|]. cbn in Hq'. unfold wait_sema in Hq'. rewrite lookup_insert_ne in Hq'; [done|congruence]. }
        destruct H as [H _]. destruct (i_waiters s H r q' Hqs) as [He Hv]. split; [done|]. split; [done|]. intros Hnn.
        pose proof (i_wake s H r q' Hqs Hnn). rewrite (awake_other r x _ _ Hfr) by done.
        pose proof (awake_nonneg r (with_frames (wait_frames (running s) l ++ fs) x)). lia.
    + intros l' q' Hq'. exists q'. split; [done|]. f_equal. rewrite (owns_plain l' x) by (by rewrite Hfr).
      rewrite owns_plain, Hfr, (pending_guarded l' (FWait c l)) by done. apply pending_wait.
Qed.

(** ** Priorities *)

Lemma set_priority_fine s x n fs : at_frame s x (FSetPriority n) fs -> fine (run_frame palloc (running s) (FSetPriority n) fs) s.
Proof.
  intros A. pose proof A as [H Hx _ _]. eexists. split.
  - cbn [run_frame]. unfold thread_set_priority. erewrite bind_eq; cycle 1.
    { erewrite bind_eq; [|by apply current_run]. erewrite bind_eq; [|by apply get_thread_run]. done. }
    apply set_frames_run, lookup_insert_eq.
  - unfold upd. cbn. rewrite insert_insert_eq. by apply (inv_pop_only s x _ (FSetPriority n) fs).
Qed.
Lemma get_priority_fine s x fs : at_frame s x FGetPriority fs -> fine (run_frame palloc (running s) FGetPriority fs) s.
Proof.
  intros A. pose proof A as [H Hx _ _]. eexists. split.
  - cbn [run_frame]. erewrite bind_eq; cycle 1.
    { unfold thread_get_priority. erewrite bind_eq; [|by apply current_run]. by erewrite bind_eq; [|by apply get_thread_run]. }
    erewrite bind_eq; [|by apply set_result_run]. apply set_frames_run, lookup_insert_eq.
  - rewrite upd_upd. by apply (inv_pop_only s x _ FGetPriority fs).
Qed.

End run.

End ThreadRun.
