(* ===== verification/ThreadSteps.v ===== *)
(** * threads/thread.c, threads/synch.c: creation, switches and the steps of the machine

    The frames that create and start a thread, those that give up the processor, the
    timer, and with them every step of the system. *)

From S2P Require Import Prelude Thread ThreadFacts ThreadRun.
Import Thread ThreadFacts ThreadRun.

Module ThreadSteps.

Section steps.
Context {P : Type} (next : P -> option (op P * (Z -> P))) (palloc : sys P -> option Z).
Notation thread := (thread P).
Notation sys := (sys P).
Notation frame := (frame P).
Implicit Types (s : sys) (t : Z) (x y : thread) (f : frame) (fs : list frame).

(** ** A thread and its child *)

(** The running thread goes from [x] to [y] and thread [n], new or not started yet,
    becomes [z]. *)
Section child.
Context s s' x y (n : Z) (z : thread).
Context (H : inv s) (Hx : threads s !! running s = Some x) (Hni : idle_thread s <> Some (running s)) (Hnr : n <> running s).
Context (Hz : frames z = []) (Hn : forall xn, threads s !! n = Some xn -> frames xn = [] /\ status xn = THREAD_BLOCKED).
Context (Et : threads s' = <[running s := y]> (<[n := z]> (threads s))).
Context (Ei : idle_thread s' = idle_thread s) (Er : running s' = running s).
Context (Es : forall r, sema_at s' r = sema_at s r) (El : locks s' = locks s).
Context (Hst : status y = THREAD_RUNNING) (Hw : wff (running s) (frames y)).
Context (Hs : forall m, m <> n -> starting m (frames y) = starting m (frames x)).
Context (Ho : forall l, owns l y = owns l x) (Ha : forall r, awake r x <= awake r y).
Context (Hcase : status z = THREAD_BLOCKED /\ ready_list s' = ready_list s /\
                   msum (fun w => starting n (frames w)) (threads s') = 1 \/
                 status z = THREAD_READY /\ ready_list s' = ready_list s ++ [n] /\ is_Some (threads s !! n) /\
                   msum (fun w => starting n (frames w)) (threads s') = 0).

Lemma child_lookup_running : <[n := z]> (threads s) !! running s = Some x.
Proof. by rewrite lookup_insert_ne. Qed.
Lemma child_not_idle : idle_thread s <> Some n.
Proof.
  intros E. destruct H as [H0 _]. destruct (i_idle s H0) as (i & w & Ew & Hi & Hf & _). simplify_eq.
  destruct (Hn w Hi) as [Hf' _]. by rewrite Hf' in Hf.
Qed.
Lemma child_sum (g : thread -> Z) : (forall w, frames w = [] -> g w = 0) ->
  msum g (threads s') = msum g (threads s) - g x + g y.
Proof.
  intros Hg. rewrite Et, (msum_insert _ _ _ _ _ child_lookup_running). cut (msum g (<[n := z]> (threads s)) = msum g (threads s)); [lia|].
  destruct (threads s !! n) as [xn|] eqn:E.
  - rewrite (msum_insert _ _ _ _ _ E). destruct (Hn xn eq_refl) as [Hf _]. rewrite !Hg by done. lia.
  - rewrite msum_insert_new by done. rewrite Hg by done. lia.
Qed.
Lemma child_enum (Q : Z -> thread -> Prop) l :
  enum (threads s) l Q -> ~ Q n z -> (forall xn, threads s !! n = Some xn -> ~ Q n xn) -> ~ Q (running s) x -> ~ Q (running s) y ->
  enum (threads s') l Q.
Proof.
  intros He Hnz Hnx Hqx Hqy. rewrite Et. apply (enum_update _ _ _ _ x); [|exact child_lookup_running|done].
  destruct (threads s !! n) as [xn|] eqn:E; [|by apply enum_insert_new]. apply (enum_update _ _ _ _ xn); [done|done|].
  specialize (Hnx xn eq_refl). done.
Qed.
Lemma child_other u w : threads s' !! u = Some w -> u = running s /\ w = y \/ u = n /\ w = z \/ u <> n /\ threads s !! u = Some w.
Proof.
  rewrite Et. destruct (decide (running s = u)) as [<-|Hne]; [rewrite lookup_insert_eq; intros [= <-]; by left|].
  rewrite lookup_insert_ne by done. destruct (decide (n = u)) as [<-|Hne']; [rewrite lookup_insert_eq; intros [= <-]; by right; left|].
  rewrite lookup_insert_ne by done. intros E. right. right. split; [congruence|done].
Qed.
Lemma child_embryo m w : m <> n -> embryo s' m w <-> embryo s m w.
Proof.
  intros Hm. unfold embryo. rewrite child_sum by (by intros ? ->). cbn. rewrite (Hs m Hm).
  by replace (msum (fun w => starting m (frames w)) (threads s) - starting m (frames x) + starting m (frames x))
    with (msum (fun w => starting m (frames w)) (threads s)) by lia.
Qed.
Lemma child_ready : enum (threads s') (ready_list s') (is_ready s').
Proof.
  pose proof (running_status s x H Hx) as Hsx. pose proof (i_ready s (proj1 H)) as He.
  apply (enum_ext _ _ (is_ready s)); [intros; unfold is_ready; by rewrite Ei|].
  destruct Hcase as [(Hsz & -> & _)|(Hsz & -> & [xn E] & _)].
  - apply child_enum; [done| | | |]; [intros [? _]; congruence| |intros [? _]; congruence..].
    intros xn E [? _]. destruct (Hn xn E). congruence.
  - rewrite Et. apply (enum_update _ _ _ _ x); [|exact child_lookup_running|split; intros [? _]; congruence].
    apply (enum_push _ _ _ _ xn); [done|done| |split; [done|exact child_not_idle]].
    intros [? _]. destruct (Hn xn E). congruence.
Qed.

Lemma child_starts m : msum (fun w => starting m (frames w)) (threads s') <= 1.
Proof.
  destruct (decide (m = n)) as [->|Hne]; [destruct Hcase as [(_ & _ & E)|(_ & _ & _ & E)]; lia|].
  rewrite child_sum by (by intros ? ->). cbn. rewrite (Hs m Hne). pose proof (i_starts s (proj1 H) m). lia.
Qed.
Lemma child_blocked t w : threads s' !! t = Some w -> status w = THREAD_BLOCKED ->
  (exists r, head (frames w) = Some (FDown r) /\ is_Some (sema_at s' r)) \/ idle_thread s' = Some t \/ embryo s' t w.
Proof.
  rewrite Ei. intros Hw' Hb. destruct (child_other t w Hw') as [[-> ->]|[[-> ->]|[Hne Ht]]]; [congruence| |].
  - right. right. destruct Hcase as [(_ & _ & E)|(? & _)]; [done|congruence].
  - destruct (i_blocked s (proj1 H) t w Ht Hb) as [(r & Hr & Hq)|[?|He]]; [left; exists r; by rewrite Es|by right; left|].
    right. right. by apply (proj2 (child_embryo t w Hne)).
Qed.
Lemma child_embryos m : msum (fun w => starting m (frames w)) (threads s') = 1 ->
  exists w, threads s' !! m = Some w /\ embryo s' m w.
Proof.
  intros E. destruct (decide (m = n)) as [->|Hne].
  - exists z. rewrite Et, lookup_insert_ne, lookup_insert_eq by done. split; [done|].
    destruct Hcase as [(? & _)|(_ & _ & _ & E')]; [done|lia].
  - destruct (i_embryo s (proj1 H) m) as (w & Hm & He).
    { rewrite child_sum in E by (by intros ? ->). cbn in E. rewrite (Hs m Hne) in E. lia. }
    exists w. split; [|by apply (proj2 (child_embryo m w Hne))]. rewrite Et. rewrite !lookup_insert_ne; [done|done|].
    intros <-. rewrite Hx in Hm. injection Hm as <-. destruct He as [Hb _]. pose proof (running_status s x H Hx). congruence.
Qed.

Lemma inv_child : inv s'.
Proof.
  pose proof (running_status s x H Hx) as Hsx. pose proof child_other as Hoth. pose proof (proj1 H) as H0. split; [split|].
  - exact child_ready.
  - intros r q. rewrite Es. intros Hq. destruct (i_waiters s H0 r q Hq) as [He Hv]. split; [|done].
    apply child_enum; [done|intros [_ E]; by rewrite Hz in E| |intros [? _]; congruence..].
    intros xn E [_ E']. destruct (Hn xn E) as [Hf _]. by rewrite Hf in E'.
  - rewrite Er, Et, lookup_insert_eq. by eexists.
  - rewrite Ei. destruct (i_idle s H0) as (i & w & Ew & Hi & Hf). exists i, w. split; [done|].
    rewrite Et, !lookup_insert_ne; [done| |congruence]. intros <-. by apply child_not_idle.
  - intros t w Ht. rewrite Ei. destruct (Hoth t w Ht) as [[-> ->]|[[-> ->]|[_ Ht']]]; [done|by rewrite Hz|].
    by apply (i_frames s H0).
  - exact child_blocked.
  - intros t w Ht Hd. destruct (Hoth t w Ht) as [[-> ->]|[[-> ->]|[_ Ht']]]; [congruence|done|].
    by apply (i_dying s H0 t).
  - exact child_starts.
  - exact child_embryos.
  - intros l q. rewrite El. intros Hq. rewrite child_sum by (intros w Hf; unfold owns; by rewrite Hf). rewrite Ho.
    pose proof (i_locks s H0 l q Hq). lia.
  - intros r q. rewrite Es. intros Hq Hne. pose proof (i_wake s H0 r q Hq Hne).
    rewrite child_sum by (intros w Hf; unfold awake; rewrite Hf; by destruct (status w)). specialize (Ha r). lia.
  - intros t w Ht. rewrite Er. destruct (Hoth t w Ht) as [[-> ->]|[[-> ->]|[_ Ht']]]; [done| |by apply (proj2 H)].
    split; [|done]. destruct Hcase as [(E & _)|(E & _)]; rewrite E; done.
Qed.

End child.

(** ** Creation *)

(** A thread that is to be started is there and waits for it. *)
Lemma start_target s x n : inv s -> threads s !! running s = Some x -> 1 <= starting n (frames x) ->
  starting n (frames x) = 1 /\ msum (fun w => starting n (frames w)) (threads s) = 1 /\
  exists z, threads s !! n = Some z /\ status z = THREAD_BLOCKED /\ frames z = [] /\ n <> running s /\ embryo s n z.
Proof.
  intros H Hx Hs. pose proof H as [H0 O].
  pose proof (msum_lookup (fun w => starting n (frames w)) (threads s) _ x (fun w => starting_nonneg n (frames w)) Hx) as Hle.
  pose proof (i_starts s H0 n) as Hle'. cbn in Hle. split; [lia|]. split; [lia|].
  destruct (i_embryo s H0 n) as (z & Hz & He); [lia|]. exists z. pose proof He as (Hb & Hf & _). repeat split; try done.
  - intros ->. pose proof (running_status s x H Hx). congruence.
  - apply He.
Qed.

Lemma start_fine s x n fs : at_frame s x (FStart n) fs -> fine (run_frame palloc (running s) (FStart n) fs) s.
Proof.
  intros A. pose proof (at_wff _ _ _ _ A) as Hw. destruct A as [H Hx Hf Hni].
  assert (starting n (frames x) = 1 + starting n fs) as Es by (rewrite Hf; cbn; by rewrite Z.eqb_refl).
  pose proof (starting_nonneg n fs) as Hge.
  destruct (start_target s x n H Hx) as (E1 & E2 & z & Hz & Hb & Hfz & Hne & He); [lia|].
  assert (threads (unblocked n z s) !! running s = Some x) as Hx' by (cbn; by rewrite lookup_insert_ne).
  eexists. split.
  - cbn [run_frame]. erewrite bind_eq; [|by apply unblock_run]. by apply set_frames_run.
  - apply (inv_child s _ x (with_frames fs x) n (with_status THREAD_READY z)); try done.
    + intros xn E. by simplify_eq.
    + exact (running_status s x H Hx).
    + by apply (wff_tail _ (FStart n)).
    + intros m Hm. rewrite Hf. cbn. by rewrite (proj2 (Z.eqb_neq m n)).
    + intros l. rewrite !owns_plain; [|by rewrite Hf|intros l'; by apply (head_try (running s) (FStart n))]. by rewrite Hf, pending_guarded.
    + intros r. rewrite (awake_other r x _ _ Hf) by done. apply awake_nonneg.
    + right. split; [done|]. split; [done|]. split; [by eexists|]. cbn. rewrite (msum_insert _ _ _ _ _ Hx'). cbn. rewrite (msum_insert _ _ _ _ _ Hz).
      cbn. rewrite Hfz. cbn. lia.
Qed.

Definition create_frames (n : Z) : list frame :=
  [FNotHeld TID_LOCK; FDown (LockSem TID_LOCK); FHolder TID_LOCK; FTid n; FClear TID_LOCK; FUp (LockSem TID_LOCK); FStart n].
Lemma pending_create n l fs : pending false l (create_frames n ++ fs) = pending false l fs.
Proof. cbn -[Z.eqb]. by destruct (l =? TID_LOCK). Qed.
Lemma wff_create t n fs : wff t fs -> (forall l, head fs <> Some (FTryHolder l)) -> wff t (create_frames n ++ fs).
Proof.
  intros Hw Hh. cbn. repeat split; try done; [rewrite Z.eqb_refl; cbn; pose proof (starting_nonneg n fs); lia|].
  destruct fs as [|[] ?]; try done. by destruct (Hh l).
Qed.

Context (palloc_fresh : forall s n, palloc s = Some n -> threads s !! n = None).

Lemma create_fine s x p prio fs : at_frame s x (FCreate p prio) fs -> faulty palloc s x (FCreate p prio) = false ->
  fine (run_frame palloc (running s) (FCreate p prio) fs) s.
Proof.
  intros A Hfl. pose proof (at_wff _ _ _ _ A) as Hw. pose proof A as [H Hx Hf Hni]. cbn in Hfl. unfold fine. cbn [run_frame]. unfold thread_create.
  erewrite bind_eq; [|done]. destruct (palloc s) as [n|] eqn:Ep; cycle 1.
  { eexists. split.
    - erewrite bind_eq; [|by apply set_frames_run]. apply set_result_run, lookup_insert_eq.
    - rewrite upd_upd. by apply (inv_pop_only s x _ (FCreate p prio) fs). }
  pose proof (palloc_fresh s n Ep) as Hn. assert (n <> running s) as Hne by congruence.
  set (z := {| tid := 0; status := THREAD_BLOCKED; priority := prio; frames := []; result := 0; resume := fun _ => p |}).
  set (s1 := with_all (all_list s ++ [n]) (upd n z s)).
  assert (threads s1 !! running s = Some x) as Hx' by (cbn; by rewrite lookup_insert_ne).
  assert (forall l, head fs <> Some (FTryHolder l)) as Hh by (intros l; by apply (head_try (running s) (FCreate p prio))).
  assert (msum (fun w => starting n (frames w)) (threads s) = 0) as E0.
  { destruct H as [H0 _]. pose proof (i_starts s H0 n). pose proof (msum_nonneg _ (threads s) (fun w : thread => starting_nonneg n (frames w))).
    destruct (decide (msum (fun w => starting n (frames w)) (threads s) = 1)) as [E|]; [|lia].
    destruct (i_embryo s H0 n E) as (w & Hw' & _). congruence. }
  eexists. split.
  - erewrite bind_eq; cycle 1.
    { unfold init_thread. apply negb_false_iff in Hfl. rewrite Hfl. erewrite bind_eq; [|done]. by erewrite bind_eq. }
    by apply set_frames_run.
  - apply (inv_child s _ x (with_frames (create_frames n ++ fs) x) n z); try done.
    + intros xn E. congruence.
    + exact (running_status s x H Hx).
    + apply wff_create; [by apply (wff_tail _ (FCreate p prio))|done].
    + intros m Hm. rewrite Hf. cbn. by rewrite (proj2 (Z.eqb_neq m n)).
    + intros l. rewrite !owns_plain; [|by rewrite Hf|done]. cbn [frames with_frames]. by rewrite Hf, pending_create, pending_guarded.
    + intros r. rewrite (awake_other r x _ _ Hf) by done. apply awake_nonneg.
    + left. split; [done|]. split; [done|]. cbn. rewrite (msum_insert _ _ _ _ _ Hx'). cbn. rewrite msum_insert_new by done.
      rewrite E0, Z.eqb_refl, Hf. cbn. lia.
Qed.

(** [allocate_tid]'s increment is for a thread that has not been started. *)
Lemma inv_renamed s n z i : inv s -> threads s !! n = Some z -> n <> running s ->
  inv (upd n {| tid := i; status := status z; priority := priority z; frames := frames z; result := result z; resume := resume z |} s).
Proof.
  intros [H O] Hz Hne. set (y := Build_thread _ _ _ _ _ _ _). split; cycle 1.
  { intros u w. cbn. destruct (decide (n = u)) as [<-|Hnu].
    - rewrite lookup_insert_eq. intros [= <-]. apply (O n z Hz).
    - rewrite lookup_insert_ne by done. apply O. }
  apply (inv0_step s _ n z y); try done.
  - cbn. rewrite lookup_insert_ne by done. apply (i_running s H).
  - cbn. apply (enum_update _ _ _ n z); [apply (i_ready s H)|done|done].
  - intros r q Hq. destruct (i_waiters s H r q) as [He Hv]; [by destruct r|]. split; [|done]. by apply (enum_update _ _ _ n z).
  - intros E. destruct (i_idle s H) as (i' & w & Ei & Hw & Hf & Hs). by simplify_eq.
  - intros Hn. by apply (i_frames s H n z).
  - intros Hb. destruct (i_blocked s H n z Hz Hb) as [(r & Hr & Hq)|?]; [|by right]. left. exists r. split; [done|]. by destruct r.
  - by apply (i_dying s H n z).
  - intros l q Hq. by exists q.
  - intros r q Hq Hne'. assert (sema_at s r = Some q) as Hq' by (by destruct r). pose proof (i_wake s H r q Hq' Hne').
    change (awake r y) with (awake r z). lia.
Qed.
Lemma inv_with_tid s i : inv s -> inv (with_tid i s).
Proof.
  intros [[] O]. split; [|done]. split; try done; intros r; destruct r; eauto.
Qed.

Lemma tid_fine s x n fs : at_frame s x (FTid n) fs -> fine (run_frame palloc (running s) (FTid n) fs) s.
Proof.
  intros A. destruct (at_wff _ _ _ _ A) as (Hn & _). pose proof A as [H Hx Hf Hni].
  destruct (start_target s x n H Hx) as (_ & _ & z & Hz & Hb & Hfz & Hne & He); [by rewrite Hf|].
  pose proof (inv_renamed _ n z (next_tid s) (inv_with_tid s (s32 (next_tid s + 1)) H) Hz Hne) as H1. set (s1 := upd n _ _) in H1.
  assert (threads s1 !! running s = Some x) as Hx1 by (cbn; by rewrite lookup_insert_ne).
  assert (at_frame s1 x (FTid n) fs) as A1 by (by apply (at_frame_kept s)). eexists. split.
  - cbn [run_frame]. erewrite bind_eq; [|done]. erewrite bind_eq; [|done]. erewrite bind_eq; [|by apply get_thread_run].
    erewrite bind_eq; [|done]. erewrite bind_eq; [|by apply set_result_run]. apply set_frames_run, lookup_insert_eq.
  - rewrite upd_upd. by apply (inv_pop_only s1 x _ (FTid n) fs).
Qed.

(** ** Giving up the processor *)

Lemma inv_leave s s1 x st :
  inv s -> threads s !! running s = Some x -> st <> THREAD_RUNNING -> st <> THREAD_DYING ->
  threads s1 = <[running s := with_status st x]> (threads s) ->
  idle_thread s1 = idle_thread s -> running s1 = running s ->
  enum (threads s1) (ready_list s1) (is_ready s) ->
  (forall r q, sema_at s1 r = Some q -> enum (threads s1) (waiters q) (is_waiting r) /\ 0 <= value q /\
     (waiters q <> [] -> value q <= msum (awake r) (threads s) - awake r x + awake r (with_status st x))) ->
  (forall r, is_Some (sema_at s r) -> is_Some (sema_at s1 r)) ->
  (st = THREAD_BLOCKED -> (exists r, head (frames x) = Some (FDown r) /\ is_Some (sema_at s1 r)) \/ idle_thread s = Some (running s)) ->
  (forall l q', locks s1 !! l = Some q' -> exists q, locks s !! l = Some q /\ holder q' = holder q /\
     value (lock_sema q') = value (lock_sema q)) ->
  exists s', schedule s1 = Ok (tt, s') /\ inv s'.
Proof.
  intros H Hx Hnr Hnd Et Ei Er Hready Hq Hsem Hblk Hlk. pose proof (running_status s x H Hx) as Hsx. destruct H as [H O].
  apply schedule_run.
  - apply (inv0_step s s1 (running s) x (with_status st x)); [done|done|done|done| | | |done| | | |done|done| | |].
    + rewrite Er, Et, lookup_insert_eq. by eexists.
    + apply (enum_ext _ _ (is_ready s)); [intros; unfold is_ready; by rewrite Ei|done].
    + intros r q Hr. by destruct (Hq r q Hr) as (? & ? & _).
    + intros E. destruct (i_idle s H) as (i & w & Ew & Hi & Hf & _). by simplify_eq.
    + by apply (i_frames s H _ x).
    + intros E. destruct (Hblk E) as [?|?]; [by left|by right; left].
    + intros (Hb & _). congruence.
    + intros l q' Hq'. destruct (Hlk l q' Hq') as (q & Hl & E1 & E2). exists q. rewrite E1, E2. done.
    + intros r q Hr Hne. destruct (Hq r q Hr) as (_ & _ & Hw). by apply Hw.
  - intros u z. rewrite Et. destruct (decide (running s = u)) as [<-|Hne]; [rewrite lookup_insert_eq; by intros [= <-]|].
    rewrite lookup_insert_ne by done. intros Hz Hr. apply (O u z Hz) in Hr. congruence.
  - intros c z. rewrite Et, Er. intros Hz -> Hd. rewrite lookup_insert_eq in Hz. injection Hz as <-. done.
Qed.

(** The other semaphores, while the running thread leaves without waiting for one. *)
Lemma leave_semas s x st :
  inv s -> threads s !! running s = Some x -> (forall r, awake r (with_status st x) = awake r x) ->
  (forall r, ~ is_waiting r (running s) (with_status st x)) ->
  forall r q, sema_at s r = Some q ->
    enum (<[running s := with_status st x]> (threads s)) (waiters q) (is_waiting r) /\ 0 <= value q /\
    (waiters q <> [] -> value q <= msum (awake r) (threads s) - awake r x + awake r (with_status st x)).
Proof.
  intros H Hx Ha Hnw r q Hq. pose proof (running_status s x H Hx) as Hsx. destruct H as [H O].
  destruct (i_waiters s H r q Hq) as [He Hv]. split; [|split; [done|]].
  - apply (enum_update _ _ _ _ x); [done|done|]. split; intros Hw; [destruct Hw; congruence|by destruct (Hnw r)].
  - intros Hne. pose proof (i_wake s H r q Hq Hne). rewrite Ha. lia.
Qed.

Lemma yield_fine s : inv s -> fine thread_yield s.
Proof.
  intros H. destruct (i_running s (proj1 H)) as [x Hx]. pose proof (running_status s x H Hx) as Hsx.
  unfold fine, thread_yield. erewrite bind_eq; [|by apply current_run]. erewrite bind_eq; [|done].
  set (s0 := if negb (bool_decide (Some (running s) = idle_thread s))
             then with_ready (ready_list s ++ [running s]) s else s).
  assert ((if negb (bool_decide (Some (running s) = idle_thread s))
           then modify (fun z => with_ready (ready_list z ++ [running s]) z) else ret tt) s = Ok (tt, s0)) as E
    by (unfold s0; by destruct (negb _)).
  erewrite bind_eq; [|exact E].
  assert (threads s0 = threads s /\ idle_thread s0 = idle_thread s /\ running s0 = running s /\
          (forall r, sema_at s0 r = sema_at s r) /\ locks s0 = locks s) as (Et & Ei & Er & Es & El)
    by (unfold s0; destruct (negb _); repeat split; by intros []).
  erewrite bind_eq; [|apply set_status_run; by rewrite Et].
  apply (inv_leave s _ x THREAD_READY); try done.
  - cbn. by rewrite Et.
  - cbn. rewrite Et. unfold s0. destruct (bool_decide_reflect (Some (running s) = idle_thread s)) as [Hi|Hi]; cbn [negb].
    + apply (enum_update _ _ _ _ x); [apply (i_ready s (proj1 H))|done|]. split; intros [? Hn]; [congruence|by destruct (Hn (eq_sym Hi))].
    + apply (enum_push _ _ _ _ x); [apply (i_ready s (proj1 H))|done| |split; [done|congruence]]. intros [? _]. congruence.
  - intros r q. rewrite sema_at_upd, Es. cbn. rewrite Et. apply leave_semas; [done|done| |].
    + intros r'. apply awake_status; congruence.
    + intros r' [? _]. done.
  - intros r. by rewrite sema_at_upd, Es.
  - intros l q'. cbn. rewrite El. intros Hq'. by exists q'.
Qed.

Lemma idle_fine s x : inv s -> threads s !! running s = Some x -> frames x = [FIdle] -> idle_thread s = Some (running s) ->
  fine (run_frame palloc (running s) FIdle []) s.
Proof.
  intros H Hx Hf Hi. pose proof (running_status s x H Hx) as Hsx. unfold fine. cbn [run_frame]. unfold thread_block.
  erewrite bind_eq; [|by apply current_run]. erewrite bind_eq; [|by apply set_status_run].
  apply (inv_leave s _ x THREAD_BLOCKED); try done.
  - cbn. apply (enum_update _ _ _ _ x); [apply (i_ready s (proj1 H))|done|]. split; intros [? _]; [congruence|done].
  - intros r q. rewrite sema_at_upd. cbn. apply leave_semas; [done|done| |].
    + intros r'. rewrite (awake_other r' x FIdle []) by done. by apply awake_blocked.
    + intros r' [_ E]. cbn in E. by rewrite Hf in E.
  - by right.
  - intros l q' Hq'. by exists q'.
Qed.

(** [sema_down] on a semaphore that is zero: the thread waits. *)
Lemma down_waits s x r fs q : at_frame s x (FDown r) fs -> sema_at s r = Some q -> value q = 0 ->
  fine (let! _ := sema_down_round r in ret tt) s.
Proof.
  intros [H Hx Hf Hni] Hq Hv. pose proof (running_status s x H Hx) as Hsx. pose proof (i_wake s (proj1 H)) as Hwake.
  assert (forall r', r' <> r -> awake r' x = 0) as Ho.
  { intros r' Hne. unfold awake. rewrite Hsx, Hf. by rewrite bool_decide_eq_false_2. }
  set (s1 := with_sema r {| value := value q; waiters := waiters q ++ [running s] |} s).
  assert (threads s1 = threads s) as Et by apply threads_with_sema.
  assert (running s1 = running s) as Er by apply running_with_sema.
  destruct (inv_leave s (upd (running s) (with_status THREAD_BLOCKED x) s1) x THREAD_BLOCKED) as (s' & E & H'); try done.
  - cbn. by rewrite Et.
  - cbn. apply idle_with_sema.
  - cbn. rewrite Et. unfold s1. rewrite ready_with_sema. apply (enum_update _ _ _ _ x); [apply (i_ready s (proj1 H))|done|].
    split; intros [? _]; [congruence|done].
  - intros r' q'. rewrite sema_at_upd. cbn [threads upd with_threads]. rewrite Et, (awake_blocked r' (with_status _ _)) by done. unfold s1.
    pose proof (msum_lookup (awake r') (threads s) _ x (awake_nonneg r') Hx) as Hle. destruct (decide (r = r')) as [<-|Hne].
    + rewrite (sema_at_with_eq s r q) by done. intros [= <-]. cbn [waiters value]. destruct (i_waiters s (proj1 H) r q Hq) as [He _].
      split; [|split; [lia|intros _; lia]]. apply (enum_push _ _ _ _ x); [done|done|intros [? _]; congruence|].
      split; [done|]. cbn. by rewrite Hf.
    + rewrite sema_at_with_ne by done. intros Hq'. destruct (i_waiters s (proj1 H) r' q' Hq') as [He Hv'].
      split; [|split; [done|intros Hnn; specialize (Hwake r' q' Hq' Hnn); rewrite Ho by congruence; lia]].
      apply (enum_update _ _ _ _ x); [done|done|]. split; intros [? E]; [congruence|]. cbn in E. rewrite Hf in E. cbn in E. congruence.
  - intros r' Hr'. rewrite sema_at_upd. unfold s1. destruct (decide (r = r')) as [<-|Hne].
    + by rewrite (sema_at_with_eq s r q).
    + by rewrite sema_at_with_ne.
  - intros _. left. exists r. split; [by rewrite Hf|]. rewrite sema_at_upd. unfold s1. by rewrite (sema_at_with_eq s r q).
  - intros l p' Hp'. destruct (locks_with_sema s r _ l p' Hp') as (p & Hp & Eh & Hcase). exists p. split; [done|]. split; [done|].
    destruct Hcase as [[Elr ->]|[_ ->]]; [|done]. subst r. cbn in Hq. rewrite Hp in Hq. by injection Hq as <-.
  - exists s'. split; [|done]. unfold sema_down_round. erewrite bind_eq; [done|]. erewrite bind_eq; [|by apply get_sema_run].
    rewrite (proj2 (Z.eqb_eq _ _) Hv). erewrite bind_eq; [|by apply current_run]. erewrite bind_eq; [|by apply (set_sema_run _ _ q)].
    erewrite bind_eq; [done|]. unfold thread_block.
    assert (thread_current s1 = Ok (running s, s1)) as Ec.
    { unfold thread_current. erewrite bind_eq; [|done]. rewrite Er. erewrite bind_eq; [|apply get_thread_run; by rewrite Et].
      by rewrite bool_decide_eq_true_2. }
    erewrite bind_eq; [|exact Ec]. erewrite bind_eq; [|apply set_status_run; by rewrite Et]. exact E.
Qed.

(** ... and on one that is not: the value is taken, and with it the lock. *)
Lemma down_takes s x r fs q : at_frame s x (FDown r) fs -> sema_at s r = Some q -> value q <> 0 ->
  fine (let! _ := sema_down_round r in set_frames (running s) fs) s.
Proof.
  intros A Hq Hv. pose proof (at_wff _ _ _ _ A) as Hw. pose proof A as [H Hx Hf Hni].
  pose proof (running_status s x H Hx) as Hsx. destruct (i_waiters s (proj1 H) r q Hq) as [_ Hge].
  assert (0 <= u32 (value q - 1) <= value q - 1) as Hu by (split; [by apply wrapu_range|apply wrapu_le; lia]).
  assert (forall l, owns l (with_frames fs x) = owns l x + gain l (FDown r)) as Ho
    by (intros l; by apply (owns_pop (running s) l x _ _ fs)).
  assert (awake r x = 1) as Ha by (unfold awake; rewrite Hsx, Hf; by rewrite bool_decide_eq_true_2).
  exists (upd (running s) (with_frames fs x) (with_sema r {| value := u32 (value q - 1); waiters := waiters q |} s)). split.
  - erewrite bind_eq; cycle 1.
    { unfold sema_down_round. erewrite bind_eq; [|by apply get_sema_run]. rewrite (proj2 (Z.eqb_neq _ _) Hv).
      by erewrite bind_eq; [|by apply (set_sema_run _ _ q)]. }
    apply set_frames_run. by rewrite threads_with_sema.
  - apply (inv_sema s x _ r q); try done; [lia|by apply (wff_tail _ (FDown r))| | | | |].
    + intros n. by rewrite Hf.
    + intros Hne. pose proof (i_wake s (proj1 H) r q Hq Hne). pose proof (awake_nonneg r (with_frames fs x)). lia.
    + intros r' Hne. assert (awake r' x = 0) as -> by (unfold awake; rewrite Hsx, Hf; by rewrite bool_decide_eq_false_2).
      apply awake_nonneg.
    + intros l ->. rewrite Ho. cbn [gain]. rewrite Z.eqb_refl. cbn [Z.b2z]. cbn in Hq. destruct (locks s !! l) as [p|] eqn:Hp; [|done].
      injection Hq as <-. pose proof (i_locks s (proj1 H) l p Hp) as Hl. pose proof (msum_nonneg (owns l) (threads s) (owns_nonneg l)).
      rewrite wrapu_small by (destruct (holder p); lia). lia.
    + intros l Hl. rewrite Ho. cbn [gain]. destruct r; try lia. rewrite (proj2 (Z.eqb_neq l l0)) by congruence. cbn. lia.
Qed.
Lemma down_fine s x r fs : at_frame s x (FDown r) fs -> faulty palloc s x (FDown r) = false ->
  fine (run_frame palloc (running s) (FDown r) fs) s.
Proof.
  intros A Hf. cbn in Hf. apply bool_decide_eq_false in Hf. destruct (sema_at s r) as [q|] eqn:Hq; [|done].
  unfold fine. cbn [run_frame]. erewrite bind_eq; [|by apply get_sema_run]. destruct (Z.eqb_spec (value q) 0) as [Hv|Hv].
  - by apply (down_waits s x r fs q).
  - by apply (down_takes s x r fs q).
Qed.

Lemma frame_yield_fine s x fs : at_frame s x FYield fs -> fine (run_frame palloc (running s) FYield fs) s.
Proof.
  intros A. pose proof A as [H Hx _ _]. unfold fine. cbn [run_frame]. erewrite bind_eq; [|by apply set_frames_run].
  apply yield_fine. by apply (inv_pop_only s x (with_frames fs x) FYield fs).
Qed.

Lemma exit_fine s x fs : at_frame s x FExit fs -> fine (run_frame palloc (running s) FExit fs) s.
Proof.
  intros A. destruct (at_wff _ _ _ _ A) as (-> & _). pose proof A as [H Hx Hf Hni]. pose proof (running_status s x H Hx) as Hsx.
  pose proof (inv_pop_only s x (with_frames [] x) FExit [] A ltac:(done) ltac:(done) ltac:(done) ltac:(done) ltac:(done)) as H1.
  set (s1 := upd (running s) (with_frames [] x) s) in H1. unfold fine. cbn [run_frame]. erewrite bind_eq; [|by apply set_frames_run].
  assert (threads s1 !! running s = Some (with_frames [] x)) as Hx1 by apply lookup_insert_eq.
  unfold thread_exit. change (upd (running s) (with_frames [] x) s) with s1. erewrite bind_eq; [|by apply current_run].
  erewrite bind_eq; [|done]. set (s2 := with_all _ s1). erewrite bind_eq; [|by apply (set_status_run s2 _ (with_frames [] x))].
  set (y := with_status THREAD_DYING (with_frames [] x)). destruct H1 as [H1 O1]. apply schedule_run.
  - apply (inv0_step s1 _ (running s) (with_frames [] x) y); try done.
    + cbn. rewrite lookup_insert_eq. by eexists.
    + apply (enum_update _ _ _ _ (with_frames [] x)); [apply (i_ready s1 H1)|done|]. split; intros [? _]; cbn in *; congruence.
    + intros r q Hq. destruct (i_waiters s1 H1 r q) as [He Hv]; [by destruct r|]. split; [|done].
      apply (enum_update _ _ _ _ (with_frames [] x)); [done|done|]. split; intros [? _]; cbn in *; congruence.
    + intros (Hb & _). cbn in Hb. congruence.
    + intros l q' Hq'. by exists q'.
    + intros r q Hq Hne. assert (sema_at s1 r = Some q) as Hq' by (by destruct r). pose proof (i_wake s1 H1 r q Hq' Hne).
      assert (awake r (with_frames [] x) = 0 /\ awake r y = 0) as [-> ->]; [|lia]. unfold awake. cbn. by destruct (status x).
  - intros u z. cbn. destruct (decide (running s = u)) as [<-|Hne]; [rewrite lookup_insert_eq; by intros [= <-]|].
    rewrite !lookup_insert_ne by done. intros Hz Hr. apply (proj2 H u z Hz) in Hr. congruence.
  - intros c z _ -> _. done.
Qed.

(** ** Every step *)

Lemma frame_fine s x f fs : at_frame s x f fs -> faulty palloc s x f = false -> fine (run_frame palloc (running s) f fs) s.
Proof.
  intros A Hf. pose proof (at_wff _ _ _ _ A) as (_ & _ & Hidle & _). destruct f; try done.
  - by apply (down_fine s x).
  - by apply (try_down_fine palloc s x).
  - by apply (up_fine palloc s x).
  - by apply (not_held_fine palloc s x).
  - by apply (holder_fine palloc s x).
  - by apply (try_holder_fine palloc s x).
  - by apply (clear_fine palloc s x).
  - by apply (wait_fine palloc s x).
  - by apply (signal_fine palloc s x).
  - by apply (broadcast_fine palloc s x).
  - by apply (frame_yield_fine s x).
  - by apply (exit_fine s x).
  - by apply (create_fine s x).
  - by apply (tid_fine s x).
  - by apply (start_fine s x).
  - by apply (set_priority_fine palloc s x).
  - by apply (get_priority_fine palloc s x).
Qed.

Lemma bool_decide_None_true {A} (o : option A) : bool_decide (o = None) = true -> o = None.
Proof. by destruct o. Qed.
Lemma not_held_err s l (k : bool -> M sys unit) :
  inv s -> bool_decide (holder <$> locks s !! l = Some (Some (running s))) = false ->
  exists e, (let! held := lock_held_by_current_thread l in do! assert held; k held) s = Err e.
Proof.
  intros H Hf%bool_decide_eq_false. destruct (locks s !! l) as [q|] eqn:Hq.
  - exists AssertFail. erewrite bind_eq; [|by apply held_run]. rewrite bool_decide_eq_false_2; [done|]. cbn in Hf. congruence.
  - exists WildAccess. unfold lock_held_by_current_thread. apply bind_err, bind_err. unfold get_lock. by rewrite Hq.
Qed.

(** The misuses are exactly what stops the machine. *)
Lemma faulty_err s x f fs : at_frame s x f fs -> faulty palloc s x f = true -> exists e, run_frame palloc (running s) f fs s = Err e.
Proof.
  intros A Hf. pose proof A as [H Hx _ _]. destruct f; cbn in Hf; cbn [run_frame]; unfold cond_wait, cond_signal, cond_broadcast, thread_create; try done.
  - apply bool_decide_None_true in Hf. exists WildAccess. apply bind_err. destruct s0; cbn in *; rewrite ?Hf; [done| |done].
    by destruct (locks s !! l).
  - apply bool_decide_None_true in Hf. exists WildAccess. apply bind_err, bind_err. destruct s0; cbn in *; rewrite ?Hf; [done| |done].
    by destruct (locks s !! l).
  - apply bool_decide_None_true in Hf. exists WildAccess. apply bind_err, bind_err. destruct s0; cbn in *; rewrite ?Hf; [done| |done].
    by destruct (locks s !! l).
  - destruct (locks s !! l) as [q|] eqn:Hq.
    + exists AssertFail. erewrite bind_eq; [|by apply held_run]. cbn in Hf. apply bool_decide_eq_true in Hf. injection Hf as Hf.
      by rewrite bool_decide_eq_true_2.
    + exists WildAccess. unfold lock_held_by_current_thread. apply bind_err, bind_err. unfold get_lock. by rewrite Hq.
  - apply bool_decide_None_true in Hf. exists WildAccess. apply bind_err. unfold set_holder. apply bind_err. unfold get_lock. by rewrite Hf.
  - apply andb_true_iff in Hf as [Hf Hr]. apply bool_decide_None_true in Hf. exists WildAccess. erewrite bind_eq; [|by apply get_thread_run].
    rewrite Hr. apply bind_err. unfold set_holder. apply bind_err. unfold get_lock. by rewrite Hf.
  - apply negb_true_iff in Hf. by apply (not_held_err s l (fun _ => do! set_holder l None; set_frames (running s) fs)).
  - destruct (bool_decide (holder <$> _ = _)) eqn:Hh; cbn [negb orb] in Hf; cycle 1.
    { eapply (not_held_err s l (fun _ => _)); done. }
    apply held_true in Hh as (q & Hq & Hh). apply bool_decide_None_true in Hf. exists WildAccess. erewrite bind_eq; [|by apply held_run].
    rewrite bool_decide_eq_true_2 by done. erewrite bind_eq; [|done]. erewrite bind_eq; [|done]. apply bind_err. unfold get_cond. cbn. by rewrite Hf.
  - destruct (bool_decide (holder <$> _ = _)) eqn:Hh; cbn [negb orb] in Hf; cycle 1.
    { eapply (not_held_err s l (fun _ => _)); done. }
    apply held_true in Hh as (q & Hq & Hh). apply bool_decide_None_true in Hf. exists WildAccess. erewrite bind_eq; [|by apply held_run].
    rewrite bool_decide_eq_true_2 by done. erewrite bind_eq; [|done]. apply bind_err. unfold get_cond. by rewrite Hf.
  - apply bool_decide_None_true in Hf. exists WildAccess. apply bind_err. unfold get_cond. by rewrite Hf.
  - exists AssertFail. erewrite bind_eq; [|done]. destruct (palloc s); [|done]. apply bind_err. unfold init_thread. apply bind_err.
    apply negb_true_iff in Hf. by rewrite Hf.
Qed.

(** The idle thread is the kernel's own. *)
Context (next_not_idle : forall p o k a, next p = Some (o, k) -> o <> OIdle a).

Lemma wff_expand t (o : op P) : (forall a, o <> OIdle a) -> wff t (expand o).
Proof. intros H. destruct o as [| | | | | | | | | | | | |a]; [by repeat split..|by destruct (H a)]. Qed.
Lemma pending_expand l (o : op P) : (forall a, o <> OIdle a) -> pending false l (expand o) = 0.
Proof. intros H. destruct o as [| | | | | | | | | | | | |a]; [cbn; by repeat destruct (l =? _)..|by destruct (H a)]. Qed.
Lemma inv_idle_op s x y : inv s -> threads s !! running s = Some x -> frames x = [] -> status y = status x ->
  wff (running s) (frames y) -> (forall l, pending false l (frames y) = 0) -> (forall l, head (frames y) <> Some (FTryHolder l)) ->
  (forall n, starting n (frames y) = 0) -> inv (upd (running s) y s).
Proof.
  intros H Hx Hf Hst Hw Hp Hh Hs. apply (inv_plain s _ x y); try done.
  - apply (not_idle s x H Hx). by rewrite Hf.
  - rewrite Hst. by apply (running_status s).
  - intros n. by rewrite Hs, Hf.
  - intros r. unfold awake at 1. rewrite Hf. destruct (status x); apply awake_nonneg.
  - intros l q Hq. exists q. split; [done|]. f_equal. rewrite (owns_plain l y), Hp by done. unfold owns. by rewrite Hf.
Qed.

Lemma run_current_fine s x : inv s -> threads s !! running s = Some x ->
  (forall f fs, frames x = f :: fs -> faulty palloc s x f = false) -> fine (run_current next palloc) s.
Proof.
  intros H Hx Hok. unfold fine, run_current. erewrite bind_eq; [|by apply current_run]. erewrite bind_eq; [|by apply get_thread_run].
  destruct (frames x) as [|f fs] eqn:Hf.
  - destruct (next (resume x (result x))) as [[o k]|] eqn:En.
    + eexists. split; [done|]. assert (forall a, o <> OIdle a) as Hn by (intros a; by apply (next_not_idle _ _ _ a En)).
      apply (inv_idle_op s x); try done; cbn; [by apply wff_expand|intros l; by apply pending_expand| |]; by destruct o.
    + eexists. split; [by apply set_frames_run|]. by apply (inv_idle_op s x).
  - destruct (decide (idle_thread s = Some (running s))) as [Hi|Hni].
    + destruct (i_idle s (proj1 H)) as (i & w & Ei & Hw & Hfw & _). simplify_eq. rewrite Hf in Hfw. injection Hfw as -> ->.
      by apply (idle_fine s x).
    + apply (frame_fine s x); [by split|]. by apply (Hok f fs).
Qed.

Lemma inv_with_ticks s n : inv s -> inv (with_ticks n s).
Proof. intros [[] O]. split; [|done]. split; try done; intros r; destruct r; eauto. Qed.
Lemma timer_fine s : inv s -> fine timer_interrupt s.
Proof.
  intros H. unfold fine, timer_interrupt. erewrite bind_eq; cycle 1.
  { unfold thread_tick. erewrite bind_eq; [|by apply current_run]. erewrite bind_eq; [|done]. by erewrite bind_eq. }
  pose proof (inv_with_ticks s (u32 (thread_ticks s + 1)) H) as H'. destruct (_ >=? _); [by apply yield_fine|].
  eexists. split; [done|done].
Qed.

Lemma step_inv s s' : inv s -> step next palloc s s' -> inv s'.
Proof.
  intros H Hs. destruct Hs as [s s' E|s s' E].
  - destruct (i_running s (proj1 H)) as [x Hx]. destruct (run_current_fine s x H Hx) as (s1 & E1 & H1).
    + intros f fs Hf. destruct (faulty palloc s x f) eqn:Hfl; [|done]. exfalso.
      assert (idle_thread s <> Some (running s)) as Hni.
      { apply (not_idle s x H Hx). rewrite Hf. intros [= -> ->]. done. }
      destruct (faulty_err s x f fs) as [e Ee]; [by split|done|]. unfold run_current in E.
      erewrite bind_eq in E; [|by apply current_run]. erewrite bind_eq in E; [|by apply get_thread_run].
      rewrite Hf in E. congruence.
    + rewrite E in E1. by injection E1 as ->.
  - destruct (timer_fine s H) as (s1 & E1 & H1). rewrite E in E1. by injection E1 as ->.
Qed.

(** ** Runs *)

Lemma boot_inv main idle (p : P) (sems : gmap Z Z) ls cs :
  main <> idle -> (forall a v, sems !! a = Some v -> 0 <= v) -> inv (boot main idle p sems ls cs).
Proof.
  intros Hne Hv. set (s := boot main idle p sems ls cs). set (xm := Build_thread P 1 THREAD_RUNNING PRI_DEFAULT [] 0 (fun _ => p)).
  set (xi := Build_thread P 2 THREAD_BLOCKED PRI_MIN [FIdle] 0 (fun _ => p)).
  assert (forall t x, threads s !! t = Some x -> t = main /\ x = xm \/ t = idle /\ x = xi) as Ht.
  { intros t x Hx. unfold s, boot in Hx. cbn [threads] in Hx. apply lookup_insert_Some in Hx as [[<- <-]|[_ Hx]]; [by left|]. apply lookup_singleton_Some in Hx as [<- <-]. by right. }
  assert (forall g : thread -> Z, msum g (threads s) = g xm + g xi) as Hsum.
  { intros g. unfold s, boot. cbn [threads]. rewrite msum_insert_new by (by apply lookup_singleton_None).
    rewrite <- insert_empty, msum_insert_new by apply lookup_empty. unfold msum. rewrite map_fold_empty. unfold xm, xi. lia. }
  assert (forall l q, locks s !! l = Some q -> q = {| holder := None; lock_sema := {| value := 1; waiters := [] |} |}) as Hl.
  { intros l q Hq. apply elem_of_list_to_map_2, list_elem_of_fmap in Hq as (l' & [= _ ->] & _). done. }
  assert (forall r q, sema_at s r = Some q -> waiters q = [] /\ 0 <= value q) as Hs.
  { intros [a|l|w] q Hq; [cbn in Hq|cbn [sema_at] in Hq|cbn in Hq].
    - rewrite lookup_fmap in Hq. destruct (sems !! a) as [v|] eqn:E; [|done]. injection Hq as <-. split; [done|]. by apply (Hv a).
    - destruct (locks s !! l) as [q'|] eqn:E; [|done]. rewrite (Hl l q' E) in Hq. by injection Hq as <-.
    - by rewrite lookup_empty in Hq. }
  split; [split|].
  - apply enum_nil. intros t x Hx [Hst Hi]. destruct (Ht t x Hx) as [[-> ->]|[-> ->]]; done.
  - intros r q Hq. destruct (Hs r q Hq) as [-> Hge]. split; [|done]. apply enum_nil. intros t x Hx [Hst Hi].
    destruct (Ht t x Hx) as [[-> ->]|[-> ->]]; done.
  - exists xm. apply lookup_insert_eq.
  - exists idle, xi. split; [done|]. split; [|done]. cbn. rewrite lookup_insert_ne by done. apply lookup_singleton_eq.
  - intros t x Hx Hi. destruct (Ht t x Hx) as [[-> ->]|[-> ->]]; done.
  - intros t x Hx Hb. destruct (Ht t x Hx) as [[-> ->]|[-> ->]]; [done|]. by right; left.
  - intros t x Hx Hb. destruct (Ht t x Hx) as [[-> ->]|[-> ->]]; done.
  - intros n. rewrite Hsum. done.
  - intros n. rewrite Hsum. done.
  - intros l q Hq. rewrite Hsum, (Hl l q Hq). done.
  - intros r q Hq Hnn. destruct (Hs r q Hq). done.
  - intros t x Hx. cbn. destruct (Ht t x Hx) as [[-> ->]|[-> ->]]; [done|]. split; [done|congruence].
Qed.

Lemma reachable_inv main idle p sems ls cs s :
  main <> idle -> (forall a v, sems !! a = Some v -> 0 <= v) ->
  reachable next palloc main idle p sems ls cs s -> inv s.
Proof.
  intros Hne Hv Hr. pose proof (boot_inv main idle p sems ls cs Hne Hv) as H0.
  induction Hr as [s|s s' s'' Hs Hr IH]; [done|]. apply IH. by apply (step_inv s).
Qed.

End steps.

End ThreadSteps.
