(* ===== verification/ThreadDiscipline.v ===== *)
(** * threads/thread.c, threads/synch.c: proper programs, and the turns of threads

    A discipline for the programs of threads under which no step of the kernel fails, and
    what each step does to the ready list, from which the time a ready thread waits
    follows. *)

From S2P Require Import Prelude Thread ThreadFacts ThreadRun ThreadSteps.
Import Thread ThreadFacts ThreadRun ThreadSteps.

Module ThreadDiscipline.
Section discipline.
Context {P : Type} (next : P -> option (op P * (Z -> P))) (palloc : sys P -> option Z).
(** The semaphores, locks and conditions that the kernel has initialised. *)
Variables (sems : gmap Z Z) (ls cs : list Z).
Notation thread := (thread P).
Notation sys := (sys P).
Notation frame := (frame P).
Implicit Types (s : sys) (t : Z) (x y : thread) (f : frame) (fs : list frame) (H : gset Z).

(** ** The discipline *)

(** What a program that has the locks [H] may do: use what there is, take a lock it does not
    have, give back one that it has, and use conditions while it has the lock. *)
Definition allowed H (o : op P) : Prop :=
  match o with
  | ODown a | OTryDown a | OUp a => is_Some (sems !! a)
  | OAcquire l | OTryAcquire l => l ∈ ls /\ l <> TID_LOCK /\ l ∉ H
  | ORelease l => l ∈ H
  | OWait c l | OSignal c l | OBroadcast c l => c ∈ cs /\ l ∈ H
  | OCreate _ n => PRI_MIN <= n <= PRI_MAX
  | OYield | OSetPriority _ | OGetPriority => True
  | OIdle _ => False
  end.
(** The locks it has after an operation with the result [r]. *)
Definition after H (o : op P) (r : Z) : gset Z :=
  match o with
  | OAcquire l => {[l]} ∪ H
  | OTryAcquire l => if r =? 0 then H else {[l]} ∪ H
  | ORelease l => H ∖ {[l]}
  | _ => H
  end.

(** [safe H p]: the program [p], with the locks [H], keeps to the rules, whatever the results
    of its operations are, and ends without a lock; so do the programs it starts, which
    begin without a lock. *)
Record disciplined (safe : gset Z -> P -> Prop) : Prop := {
  d_op H p o k : safe H p -> next p = Some (o, k) -> TID_LOCK ∉ H /\ allowed H o /\ forall r, safe (after H o r) (k r);
  d_child H p q n k : safe H p -> next p = Some (OCreate q n, k) -> safe ∅ q;
  d_end H p : safe H p -> next p = None -> H = ∅ }.

(** ** What is left of an operation *)

Context (safe : gset Z -> P -> Prop) (disc : disciplined safe).

(** The frames [fs] can be run by a thread that has the locks [H] and the result [r] so far,
    and lead to [K]. *)
Fixpoint wp s H fs (r : Z) (K : gset Z -> Z -> Prop) : Prop :=
  match fs with
  | [] => K H r
  | f :: fs =>
      match f with
      | FDown q | FUp q => is_Some (sema_at s q) /\ wp s H fs r K
      | FTryDown q => is_Some (sema_at s q) /\ forall r, wp s H fs r K
      | FNotHeld l => is_Some (locks s !! l) /\ l ∉ H /\ wp s H fs r K
      | FHolder l => is_Some (locks s !! l) /\ wp s ({[l]} ∪ H) fs r K
      | FTryHolder l => is_Some (locks s !! l) /\ wp s (if r =? 0 then H else {[l]} ∪ H) fs r K
      | FClear l => l ∈ H /\ wp s (H ∖ {[l]}) fs r K
      | FWait c l | FSignal c l | FBroadcast c l => l ∈ H /\ is_Some (conds s !! c) /\ wp s H fs r K
      | FYield | FStart _ | FSetPriority _ => wp s H fs r K
      | FGetPriority | FTid _ => forall r, wp s H fs r K
      | FExit => H = ∅
      | FCreate p prio => PRI_MIN <= prio <= PRI_MAX /\ safe ∅ p /\ TID_LOCK ∉ H /\ forall r, wp s H fs r K
      | FSetIdle | FIdle => False
      end
  end.

(** The thread [t] is the recorded holder of exactly the locks [H]. *)
Definition has s t H : Prop := forall l, l ∈ H <-> holder <$> locks s !! l = Some (Some t).

Definition ok_thread s t x : Prop :=
  exists H, has s t H /\ if decide (status x = THREAD_DYING) then H = ∅
                         else wp s H (frames x) (result x) (fun H r => safe H (resume x r)).

Record objects s : Prop := {
  ob_sems a : is_Some (sems !! a) -> is_Some (semas s !! a);
  ob_locks l : l ∈ TID_LOCK :: ls -> is_Some (locks s !! l);
  ob_conds c : c ∈ cs -> is_Some (conds s !! c);
  ob_waits c ws w : conds s !! c = Some ws -> w ∈ ws -> is_Some (waits s !! w) }.

Record dinv s : Prop := {
  di_threads t x : threads s !! t = Some x -> idle_thread s <> Some t -> ok_thread s t x;
  di_alive l t : holder <$> locks s !! l = Some (Some t) -> is_Some (threads s !! t) /\ idle_thread s <> Some t;
  di_objects : objects s }.

(** ** No frame fails *)

Lemma not_faulty s x f fs : dinv s -> at_frame s x f fs -> status x <> THREAD_DYING -> faulty palloc s x f = false.
Proof.
  intros HD A Hst. pose proof A as [Hi Hx Hf Hni]. destruct (di_threads s HD _ _ Hx Hni) as (H & Hh & Hw).
  rewrite decide_False in Hw by done. rewrite Hf in Hw. cbn [wp] in Hw.
  assert (forall l, is_Some (locks s !! l) -> bool_decide (locks s !! l = None) = false) as Hl
    by (intros l [q ->]; done).
  assert (forall q, is_Some (sema_at s q) -> bool_decide (sema_at s q = None) = false) as Hs by (intros q [y ->]; done).
  assert (forall c, is_Some (conds s !! c) -> bool_decide (conds s !! c = None) = false) as Hc by (intros c [y ->]; done).
  assert (forall l, bool_decide (holder <$> locks s !! l = Some (Some (running s))) = bool_decide (l ∈ H)) as Hb
    by (intros l; apply bool_decide_ext; symmetry; apply Hh).
  destruct f; cbn [faulty]; rewrite ?Hb; try done.
  - apply Hs, Hw.
  - apply Hs, Hw.
  - apply Hs, Hw.
  - destruct Hw as (H1 & H2 & _). by rewrite Hl, bool_decide_eq_false_2.
  - apply Hl, Hw.
  - by rewrite Hl by apply Hw.
  - by rewrite bool_decide_eq_true_2 by apply Hw.
  - destruct Hw as (H1 & H2 & _). by rewrite bool_decide_eq_true_2, Hc.
  - destruct Hw as (H1 & H2 & _). by rewrite bool_decide_eq_true_2, Hc.
  - apply Hc, Hw.
  - destruct Hw as (Hp & _). destruct (palloc s); [|done]. by rewrite !(proj2 (Z.leb_le _ _)) by lia.
Qed.

(** ** What does not concern the discipline *)

(** Statuses, lists and the values of semaphores may change; frames, results and holders stay,
    and only dying threads disappear. *)
Record quiet s s' : Prop := {
  q_back t x' : threads s' !! t = Some x' -> exists x, threads s !! t = Some x /\ frames x' = frames x /\
    result x' = result x /\ resume x' = resume x /\ (status x' = THREAD_DYING <-> status x = THREAD_DYING);
  q_gone t x : threads s !! t = Some x -> threads s' !! t = None -> status x = THREAD_DYING;
  q_idle : idle_thread s' = idle_thread s;
  q_holder l : holder <$> locks s' !! l = holder <$> locks s !! l;
  q_semas a : is_Some (semas s !! a) -> is_Some (semas s' !! a);
  q_conds : conds s' = conds s;
  q_waits w : is_Some (waits s !! w) -> is_Some (waits s' !! w) }.

Lemma q_locks s s' l : quiet s s' -> is_Some (locks s !! l) -> is_Some (locks s' !! l).
Proof. intros Q [q Hq]. pose proof (q_holder _ _ Q l) as E. rewrite Hq in E. destruct (locks s' !! l); [by eexists|done]. Qed.
Lemma q_sema s s' r : quiet s s' -> is_Some (sema_at s r) -> is_Some (sema_at s' r).
Proof.
  intros Q. destruct r as [a|l|w]; cbn [sema_at]; [apply (q_semas _ _ Q)| |apply (q_waits _ _ Q)].
  intros Hl. assert (is_Some (locks s !! l)) as H0 by (destruct (locks s !! l); [by eexists|by destruct Hl]).
  destruct (q_locks _ _ _ Q H0) as [q ->]. by eexists.
Qed.

Lemma quiet_same s s' : threads s' = threads s -> idle_thread s' = idle_thread s -> locks s' = locks s ->
  semas s' = semas s -> conds s' = conds s -> waits s' = waits s -> quiet s s'.
Proof. intros E1 E2 E3 E4 E5 E6. split; rewrite ?E1, ?E2, ?E3, ?E4, ?E5, ?E6; try done; naive_solver congruence. Qed.
Lemma quiet_refl s : quiet s s.
Proof. by apply quiet_same. Qed.
Lemma quiet_trans s1 s2 s3 : quiet s1 s2 -> quiet s2 s3 -> quiet s1 s3.
Proof.
  intros A B. split.
  - intros t x3 H3. destruct (q_back _ _ B t x3 H3) as (x2 & H2 & E1 & E2 & E3 & E4).
    destruct (q_back _ _ A t x2 H2) as (x1 & H1 & F1 & F2 & F3 & F4). exists x1. rewrite E1, E2, E3, E4. auto.
  - intros t x H1 H3. destruct (threads s2 !! t) as [y|] eqn:H2; [|by apply (q_gone _ _ A t x)].
    destruct (q_back _ _ A t y H2) as (x' & H1' & _ & _ & _ & E). simplify_eq. apply E. by apply (q_gone _ _ B t y).
  - rewrite (q_idle _ _ B). apply (q_idle _ _ A).
  - intros l. rewrite (q_holder _ _ B). apply (q_holder _ _ A).
  - intros a Ha. by apply (q_semas _ _ B), (q_semas _ _ A).
  - rewrite (q_conds _ _ B). apply (q_conds _ _ A).
  - intros w Hw. by apply (q_waits _ _ B), (q_waits _ _ A).
Qed.

Lemma wp_mono s s' : (forall r, is_Some (sema_at s r) -> is_Some (sema_at s' r)) -> (forall l, is_Some (locks s !! l) -> is_Some (locks s' !! l)) ->
  (forall c, is_Some (conds s !! c) -> is_Some (conds s' !! c)) -> forall fs H r K, wp s H fs r K -> wp s' H fs r K.
Proof.
  intros Hs Hl Hc. induction fs as [|f fs IH]; intros H r K; cbn [wp]; [done|]. destruct f; naive_solver.
Qed.

Lemma quiet_objects s s' : quiet s s' -> objects s -> objects s'.
Proof.
  intros Q []. split; [eauto using q_semas|eauto using q_locks|rewrite (q_conds _ _ Q); eauto|].
  rewrite (q_conds _ _ Q). eauto using q_waits.
Qed.
Lemma quiet_wp s s' fs H r K : quiet s s' -> wp s H fs r K -> wp s' H fs r K.
Proof. intros Q. apply wp_mono; [intros q; by apply q_sema|intros l; by apply q_locks|by rewrite (q_conds _ _ Q)]. Qed.
Lemma quiet_has s s' t H : quiet s s' -> has s t H -> has s' t H.
Proof. intros Q Hh l. rewrite (q_holder _ _ Q). apply Hh. Qed.

Lemma quiet_dinv s s' : quiet s s' -> dinv s -> dinv s'.
Proof.
  intros Q D. assert (forall t x, threads s !! t = Some x -> threads s' !! t = None -> idle_thread s <> Some t ->
    forall l, holder <$> locks s !! l <> Some (Some t)) as Hgone.
  { intros t x Hx Hn Hi l Hl. destruct (di_threads s D t x Hx Hi) as (H & Hh & Hw).
    rewrite decide_True in Hw by (by apply (q_gone _ _ Q t)). subst H. apply Hh in Hl. by apply not_elem_of_empty in Hl. }
  split.
  - intros t x' Hx' Hi. destruct (q_back _ _ Q t x' Hx') as (x & Hx & E1 & E2 & E3 & E4). rewrite (q_idle _ _ Q) in Hi.
    destruct (di_threads s D t x Hx Hi) as (H & Hh & Hw). exists H. split; [by apply (quiet_has s)|].
    rewrite E1, E2, E3. destruct (decide (status x = THREAD_DYING)) as [Hd|Hd].
    + rewrite decide_True by (by apply E4). done.
    + rewrite decide_False by (by rewrite E4). by apply (quiet_wp s).
  - intros l t. rewrite (q_holder _ _ Q), (q_idle _ _ Q). intros Hl. destruct (di_alive s D l t Hl) as [[x Hx] Hi].
    split; [|done]. destruct (threads s' !! t) as [x'|] eqn:E; [by eexists|]. by destruct (Hgone t x Hx E Hi l).
  - apply (quiet_objects s); [done|]. apply di_objects, D.
Qed.

(** ** The scheduler is quiet *)

(** No thread that can be run next is dying. *)
Definition alive s : Prop := forall n y, n ∈ ready_list s \/ idle_thread s = Some n -> threads s !! n = Some y -> status y <> THREAD_DYING.
Lemma inv_alive s : inv s -> alive s.
Proof.
  intros [I _] n y [Hn|Hn] Hy.
  - apply (proj2 (i_ready s I)) in Hn as (z & Hz & Hs & _). simplify_eq. by rewrite Hs.
  - destruct (i_idle s I) as (i & z & E & Hz & _ & Hd). by simplify_eq.
Qed.

Lemma get_thread_inv s s' t x : get_thread t s = Ok (x, s') -> s' = s /\ threads s !! t = Some x.
Proof. unfold get_thread. destruct (threads s !! t); [|done]. by intros [= -> ->]. Qed.
Lemma current_inv s s' t : thread_current s = Ok (t, s') -> s' = s /\ t = running s.
Proof.
  unfold thread_current. intros (? & ? & [= <- <-] & (x & ? & [-> _]%get_thread_inv & (? & ? & [_ ->]%assert_Ok & [= <- <-])%bind_Ok)%bind_Ok)%bind_Ok. done.
Qed.
Lemma set_status_inv s s' t st u : set_status t st s = Ok (u, s') -> exists x, threads s !! t = Some x /\ s' = upd t (with_status st x) s.
Proof. unfold set_status. intros (x & ? & [-> Hx]%get_thread_inv & [= _ <-])%bind_Ok. by exists x. Qed.
Lemma set_frames_inv s s' t fs u : set_frames t fs s = Ok (u, s') -> exists x, threads s !! t = Some x /\ s' = upd t (with_frames fs x) s.
Proof. unfold set_frames. intros (x & ? & [-> Hx]%get_thread_inv & [= _ <-])%bind_Ok. by exists x. Qed.

(** A thread record changes in what the discipline does not see. *)
Lemma quiet_upd s t x y : threads s !! t = Some x -> frames y = frames x -> result y = result x -> resume y = resume x ->
  (status y = THREAD_DYING <-> status x = THREAD_DYING) -> quiet s (upd t y s).
Proof.
  intros Hx E1 E2 E3 E4. split; try done; cbn.
  - intros u z. destruct (decide (t = u)) as [<-|Hne]; [|rewrite lookup_insert_ne by done; naive_solver].
    rewrite lookup_insert_eq. intros [= <-]. by exists x.
  - intros u z Hz. destruct (decide (t = u)) as [<-|Hne]; [by rewrite lookup_insert_eq|rewrite lookup_insert_ne by done; congruence].
Qed.

Lemma schedule_quiet s s' : alive s -> schedule s = Ok (tt, s') -> quiet s s'.
Proof.
  intros Ha E. unfold schedule in E. apply bind_Ok in E as (cur & ? & [= <- <-] & E).
  apply bind_Ok in E as (nx & s1 & E1 & E).
  assert (quiet s s1 /\ threads s1 = threads s /\ running s1 = running s /\ (forall n y, nx = Some n -> threads s !! n = Some y -> status y <> THREAD_DYING)) as (Q1 & Et & Er & Hn).
  { unfold next_thread_to_run in E1. apply bind_Ok in E1 as (r & ? & [= <- <-] & E1). destruct (ready_list s) as [|m r] eqn:Hr.
    - injection E1 as <- <-. split; [apply quiet_refl|]. split; [done|]. split; [done|]. intros n y Hn. apply Ha. by right.
    - apply bind_Ok in E1 as ([] & ? & [= <-] & [= <- <-]). split; [by apply quiet_same|]. split; [done|]. split; [done|].
      intros n y [= <-]. apply Ha. left. rewrite Hr. apply list_elem_of_here. }
  apply bind_Ok in E as (x & ? & [-> Hx]%get_thread_inv & E). apply bind_Ok in E as (? & ? & [_ ->]%assert_Ok & E).
  destruct nx as [n|]; [|done]. apply bind_Ok in E as (y & ? & [-> Hy]%get_thread_inv & E). rewrite Et in Hy. specialize (Hn n y eq_refl Hy).
  assert (forall s2 prev, quiet s s2 -> threads s2 = threads s -> running s2 = n -> thread_schedule_tail prev s2 = Ok (tt, s') -> quiet s s') as Ht.
  { intros s2 prev Q2 Et2 Er2 E2. unfold thread_schedule_tail in E2. apply bind_Ok in E2 as (? & ? & [= <- <-] & E2).
    apply bind_Ok in E2 as (? & s3 & (z & Hz & ->)%set_status_inv & E2). rewrite Et2, Er2 in Hz. simplify_eq.
    apply bind_Ok in E2 as ([] & s4 & [= <-] & E2).
    assert (quiet s2 (with_ticks 0 (upd (running s2) (with_status THREAD_RUNNING y) s2))) as Q3.
    { eapply quiet_trans; [apply (quiet_upd s2 (running s2) y (with_status THREAD_RUNNING y)); [by rewrite Et2|done|done|done|]|by apply quiet_same]. cbn. split; [done|by intros ?%Hn]. }
    destruct prev as [prev|]; [|injection E2 as <-; by eapply quiet_trans].
    apply bind_Ok in E2 as (z & ? & [-> Hz]%get_thread_inv & E2). apply bind_Ok in E2 as (? & ? & [= <- <-] & E2).
    destruct (_ && _) eqn:Hd; [|injection E2 as <-; by eapply quiet_trans].
    apply bind_Ok in E2 as (? & ? & [_ ->]%assert_Ok & [= <-]). apply andb_true_iff in Hd as [Hd _]. apply bool_decide_eq_true in Hd.
    eapply quiet_trans; [exact Q2|]. eapply quiet_trans; [exact Q3|]. split; try done.
    - intros u w. cbn. destruct (decide (prev = u)) as [<-|Hne]; [by rewrite lookup_delete_eq|]. rewrite lookup_delete_ne by done. naive_solver.
    - intros u w Hw. cbn. destruct (decide (prev = u)) as [<-|Hne]; [intros _; congruence|]. rewrite lookup_delete_ne by done. cbn in Hw. congruence. }
  destruct (negb _) eqn:Hc.
  - apply bind_Ok in E as ([] & ? & [= <-] & E). apply (Ht (with_running n s1) (Some (running s))); [|done|done|exact E]. eapply quiet_trans; [exact Q1|by apply quiet_same].
  - apply (Ht s1 None); [exact Q1|done| |exact E]. apply negb_false_iff, Z.eqb_eq in Hc. congruence.
Qed.

Lemma alive_upd s t x y : threads s !! t = Some x -> status y <> THREAD_DYING -> alive s -> alive (upd t y s).
Proof.
  intros Hx Hy Ha n z Hn. cbn. destruct (decide (t = n)) as [<-|Hne]; [rewrite lookup_insert_eq; by intros [= <-]|].
  rewrite lookup_insert_ne by done. by apply Ha.
Qed.
Lemma block_quiet s s' u : inv s -> alive s -> thread_block s = Ok (u, s') -> quiet s s'.
Proof.
  intros I Ha E. unfold thread_block in E. apply bind_Ok in E as (t & ? & [-> ->]%current_inv & E).
  apply bind_Ok in E as ([] & s1 & (x & Hx & ->)%set_status_inv & E). destruct u.
  pose proof (running_status s x I Hx) as Hr. eapply quiet_trans; [|eapply schedule_quiet; [|exact E]].
  - apply (quiet_upd s _ x (with_status THREAD_BLOCKED x)); try done. cbn. by rewrite Hr.
  - by apply (alive_upd s _ x).
Qed.
Lemma yield_quiet s s' : inv s -> thread_yield s = Ok (tt, s') -> quiet s s'.
Proof.
  intros I E. unfold thread_yield in E. apply bind_Ok in E as (t & ? & [-> ->]%current_inv & E).
  apply bind_Ok in E as (i & ? & [= <- <-] & E). apply bind_Ok in E as ([] & s1 & E1 & E).
  destruct (i_running s (proj1 I)) as [x Hx]. pose proof (running_status s x I Hx) as Hr. pose proof (inv_alive s I) as Ha.
  assert (quiet s s1 /\ threads s1 = threads s /\ alive s1) as (Q1 & Et & Ha1).
  { destruct (negb _); injection E1 as <-; [|split; [apply quiet_refl|done]]. split; [by apply quiet_same|]. split; [done|].
    intros n y [[Hn| ->%list_elem_of_singleton]%elem_of_app|Hn] Hy; [apply (Ha n y); auto| |apply (Ha n y); auto].
    cbn in Hy. simplify_eq. by rewrite Hr. }
  apply bind_Ok in E as ([] & s2 & (y & Hy & ->)%set_status_inv & E). rewrite Et in Hy. assert (y = x) as -> by congruence.
  eapply quiet_trans; [exact Q1|]. eapply quiet_trans; [apply (quiet_upd s1 (running s) x (with_status THREAD_READY x)); [by rewrite Et|done|done|done|cbn; by rewrite Hr]|].
  eapply schedule_quiet; [|exact E]. apply (alive_upd s1 _ x); [by rewrite Et|done|done].
Qed.
Lemma unblock_quiet s s' t u : thread_unblock t s = Ok (u, s') -> quiet s s'.
Proof.
  intros E. unfold thread_unblock in E. apply bind_Ok in E as (x & ? & [-> Hx]%get_thread_inv & E).
  apply bind_Ok in E as ([] & ? & [Hb ->]%assert_Ok & E). apply bool_decide_eq_true in Hb.
  apply bind_Ok in E as ([] & s1 & [= <-] & (y & Hy & ->)%set_status_inv). cbn in Hy. assert (y = x) as -> by congruence.
  eapply quiet_trans; [|apply (quiet_upd _ t x (with_status THREAD_READY x)); [exact Hy|done|done|done|cbn; by rewrite Hb]]. by apply quiet_same.
Qed.

(** ** Semaphores are quiet *)

Lemma get_sema_inv s s' r q : get_sema r s = Ok (q, s') -> s' = s /\ sema_at s r = Some q.
Proof.
  destruct r; cbn; [destruct (semas s !! a)|destruct (locks s !! l)|destruct (waits s !! w)]; try done; by intros [= <- <-].
Qed.
Lemma set_sema_quiet s s' r q u : set_sema r q s = Ok (u, s') ->
  quiet s s' /\ threads s' = threads s /\ ready_list s' = ready_list s /\ idle_thread s' = idle_thread s /\ running s' = running s /\ thread_ticks s' = thread_ticks s.
Proof.
  destruct r as [a|l|w]; cbn.
  - intros [= _ <-]. split; [|done]. split; try done; [naive_solver|naive_solver congruence|]. intros b Hb. cbn.
    destruct (decide (a = b)) as [<-|]; [by rewrite lookup_insert_eq; eexists|by rewrite lookup_insert_ne].
  - destruct (locks s !! l) as [z|] eqn:Hl; [|done]. intros [= _ <-]. split; [|done]. split; try done; [naive_solver|naive_solver congruence|].
    intros b. cbn. destruct (decide (l = b)) as [<-|]; [by rewrite lookup_insert_eq, Hl|by rewrite lookup_insert_ne].
  - intros [= _ <-]. split; [|done]. split; try done; [naive_solver|naive_solver congruence|]. intros b Hb. cbn.
    destruct (decide (w = b)) as [<-|]; [by rewrite lookup_insert_eq; eexists|by rewrite lookup_insert_ne].
Qed.
Lemma try_down_quiet s s' r b : sema_try_down r s = Ok (b, s') -> quiet s s'.
Proof.
  intros E. unfold sema_try_down in E. apply bind_Ok in E as (q & ? & [-> _]%get_sema_inv & E). destruct (_ >? _).
  - apply bind_Ok in E as (? & ? & (Q & _)%set_sema_quiet & [= _ <-]). done.
  - injection E as _ <-. apply quiet_refl.
Qed.
Lemma up_quiet s s' r u : sema_up r s = Ok (u, s') -> quiet s s'.
Proof.
  intros E. unfold sema_up in E. apply bind_Ok in E as (q & ? & [-> _]%get_sema_inv & E). apply bind_Ok in E as (q' & s1 & E1 & (Q2 & _)%set_sema_quiet).
  eapply quiet_trans; [|exact Q2]. destruct (waiters q) as [|t ws]; [injection E1 as _ <-; apply quiet_refl|].
  apply bind_Ok in E1 as (? & s2 & (Q3 & _)%set_sema_quiet & E1). apply bind_Ok in E1 as (? & s3 & Q4%unblock_quiet & [= _ <-]). by eapply quiet_trans.
Qed.
Lemma down_quiet s s' r b : inv s -> sema_down_round r s = Ok (b, s') -> quiet s s'.
Proof.
  intros I E. unfold sema_down_round in E. apply bind_Ok in E as (q & ? & [-> _]%get_sema_inv & E). destruct (_ =? _).
  - apply bind_Ok in E as (t & ? & [-> ->]%current_inv & E). apply bind_Ok in E as ([] & s1 & (Q1 & Et & Er & Ei & Ec & _)%set_sema_quiet & E).
    apply bind_Ok in E as ([] & s2 & E1 & [= _ <-]). eapply quiet_trans; [exact Q1|]. unfold thread_block in E1.
    apply bind_Ok in E1 as (t & ? & [-> ->]%current_inv & E1). apply bind_Ok in E1 as ([] & s3 & (x & Hx & ->)%set_status_inv & E1).
    rewrite Et, Ec in Hx. pose proof (running_status s x I Hx) as Hr.
    eapply quiet_trans; [apply (quiet_upd s1 (running s1) x (with_status THREAD_BLOCKED x)); [by rewrite Et, Ec|done|done|done|cbn; by rewrite Hr]|].
    eapply schedule_quiet; [|exact E1]. apply (alive_upd s1 _ x); [by rewrite Et, Ec|done|]. pose proof (inv_alive s I) as Ha.
    intros n y. rewrite Er, Ei, Et. apply Ha.
  - apply bind_Ok in E as (? & ? & (Q & _)%set_sema_quiet & [= _ <-]). done.
Qed.

(** ** A step of the running thread *)

(** The locks of other threads, and what there is, stay. *)
Record others s s' t : Prop := {
  o_holder l u : u <> t -> holder <$> locks s' !! l = Some (Some u) <-> holder <$> locks s !! l = Some (Some u);
  o_idle : idle_thread s' = idle_thread s;
  o_sema r : is_Some (sema_at s r) -> is_Some (sema_at s' r);
  o_locks l : is_Some (locks s !! l) -> is_Some (locks s' !! l);
  o_conds c : is_Some (conds s !! c) -> is_Some (conds s' !! c) }.

Lemma dinv_run s s' t y : dinv s -> idle_thread s <> Some t -> others s s' t ->
  (forall u x, u <> t -> threads s' !! u = Some x -> threads s !! u = Some x) ->
  (forall u, is_Some (threads s !! u) -> is_Some (threads s' !! u)) ->
  threads s' !! t = Some y -> objects s' -> ok_thread s' t y -> dinv s'.
Proof.
  intros D Hi O Hold Hnew Hy Ho Hok. split; [| |done].
  - intros u x Hx Hu. rewrite (o_idle _ _ _ O) in Hu. destruct (decide (u = t)) as [->|Hne]; [congruence|].
    destruct (di_threads s D u x (Hold u x Hne Hx) Hu) as (H & Hh & Hw). exists H. split.
    + intros l. rewrite (o_holder _ _ _ O l u Hne). apply Hh.
    + destruct (decide _); [done|]. eapply wp_mono; [apply (o_sema _ _ _ O)|apply (o_locks _ _ _ O)|apply (o_conds _ _ _ O)|done].
  - intros l u Hl. rewrite (o_idle _ _ _ O). destruct (decide (u = t)) as [->|Hne]; [by split; [eexists|]|].
    apply (o_holder _ _ _ O l u Hne) in Hl. destruct (di_alive s D l u Hl). split; [by apply Hnew|done].
Qed.

(** Only the record of the thread changes. *)
Lemma dinv_upd s t x y : dinv s -> threads s !! t = Some x -> idle_thread s <> Some t -> status x <> THREAD_DYING -> status y <> THREAD_DYING ->
  (forall H, wp s H (frames x) (result x) (fun H r => safe H (resume x r)) -> wp s H (frames y) (result y) (fun H r => safe H (resume y r))) ->
  dinv (upd t y s).
Proof.
  intros D Hx Hi Hsx Hsy Hw. apply (dinv_run s (upd t y s) t y); try done.
  - intros u z Hne. cbn. by rewrite lookup_insert_ne.
  - intros u [z Hz]. cbn. destruct (decide (t = u)) as [<-|Hne]; [rewrite lookup_insert_eq; by eexists|]. rewrite lookup_insert_ne by done. by eexists.
  - apply lookup_insert_eq.
  - destruct (di_objects s D) as [O1 O2 O3 O4]. split; [exact O1|exact O2|exact O3|exact O4].
  - destruct (di_threads s D t x Hx Hi) as (H & Hh & Hwx). exists H. split; [done|]. rewrite decide_False in Hwx by done. rewrite decide_False by done.
    apply (wp_mono s); [intros r; by destruct r|done|done|by apply Hw].
Qed.

(** The thread sets the holder of a lock and goes on. *)
Lemma dinv_holder s t x l q (h : option Z) fs (g : gset Z -> gset Z) : dinv s -> threads s !! t = Some x -> idle_thread s <> Some t -> status x <> THREAD_DYING ->
  locks s !! l = Some q -> (h = None \/ h = Some t) -> (holder q = None \/ holder q = Some t) ->
  (forall H, has s t H -> forall l', l' ∈ g H <-> if decide (l' = l) then h = Some t else l' ∈ H) ->
  (forall H, wp s H (frames x) (result x) (fun H r => safe H (resume x r)) -> wp s (g H) fs (result x) (fun H r => safe H (resume x r))) ->
  dinv (upd t (with_frames fs x) (with_locks (<[l := {| holder := h; lock_sema := lock_sema q |}]> (locks s)) s)).
Proof.
  intros D Hx Hi Hsx Hq Hh Hold Hg Hw. set (s' := upd _ _ _).
  assert (forall l', holder <$> locks s' !! l' = if decide (l' = l) then Some h else holder <$> locks s !! l') as Hl'.
  { intros l'. cbn. destruct (decide (l' = l)) as [->|Hne]; [by rewrite lookup_insert_eq|by rewrite lookup_insert_ne]. }
  assert (forall l', is_Some (locks s !! l') -> is_Some (locks s' !! l')) as Hlk.
  { intros l' H'. cbn. destruct (decide (l = l')) as [<-|Hne]; [rewrite lookup_insert_eq; by eexists|by rewrite lookup_insert_ne]. }
  assert (forall r, is_Some (sema_at s r) -> is_Some (sema_at s' r)) as Hsm.
  { intros r. destruct r as [a|l'|w]; [done| |done]. cbn. destruct (decide (l = l')) as [<-|Hne]; [rewrite lookup_insert_eq; by eexists|by rewrite lookup_insert_ne]. }
  apply (dinv_run s s' t (with_frames fs x)); try done.
  - split; try done. intros l' u Hne. rewrite Hl'. destruct (decide (l' = l)) as [->|]; [|done]. rewrite Hq. cbn. split; intros [= E]; naive_solver congruence.
  - intros u z Hne. cbn. by rewrite lookup_insert_ne.
  - intros u [z Hz]. cbn. destruct (decide (t = u)) as [<-|Hne]; [rewrite lookup_insert_eq; by eexists|]. rewrite lookup_insert_ne by done. by eexists.
  - apply lookup_insert_eq.
  - destruct (di_objects s D) as [O1 O2 O3 O4]. split; [exact O1| |exact O3|exact O4]. intros l' Hl. by apply Hlk, O2.
  - destruct (di_threads s D t x Hx Hi) as (H & Hh' & Hwx). exists (g H). split.
    + intros l'. rewrite (Hg H Hh'), Hl'. destruct (decide (l' = l)); [split; congruence|apply Hh'].
    + rewrite decide_False in Hwx by done. rewrite decide_False by done. apply (wp_mono s); [exact Hsm|exact Hlk|done|by apply Hw].
Qed.

Lemma running_frames s s1 x f fs x1 : at_frame s x f fs -> quiet s s1 -> threads s1 !! running s = Some x1 ->
  frames x1 = f :: fs /\ result x1 = result x /\ resume x1 = resume x /\ status x1 <> THREAD_DYING /\ idle_thread s1 <> Some (running s).
Proof.
  intros [I Hx Hf Hi] Q H1. destruct (q_back _ _ Q _ _ H1) as (x0 & H0 & E1 & E2 & E3 & E4). assert (x0 = x) as -> by congruence.
  rewrite E1, E4, (running_status s x I H0), (q_idle _ _ Q). done.
Qed.
Lemma running_alive s x f fs : at_frame s x f fs -> status x <> THREAD_DYING.
Proof. intros [I Hx _ _]. by rewrite (running_status s x I Hx). Qed.

(** The frame is done, and was quiet. *)
Lemma dinv_pop s s1 s' x f fs u : dinv s -> quiet s s1 -> at_frame s x f fs -> set_frames (running s) fs s1 = Ok (u, s') ->
  (forall H r K, wp s1 H (f :: fs) r K -> wp s1 H fs r K) -> dinv s'.
Proof.
  intros D Q A (x1 & H1 & ->)%set_frames_inv Hw. destruct (running_frames s s1 x f fs x1 A Q H1) as (Ef & Er & Ek & Hd & Hi).
  apply (dinv_upd s1 _ x1); [by apply (quiet_dinv s)|done|done|done|done|]. intros H. rewrite Ef. apply Hw.
Qed.

Lemma set_holder_inv s s' l h u : set_holder l h s = Ok (u, s') -> exists q, locks s !! l = Some q /\
  s' = with_locks (<[l := {| holder := h; lock_sema := lock_sema q |}]> (locks s)) s.
Proof.
  unfold set_holder. intros (q & s1 & E & [= _ <-])%bind_Ok. unfold get_lock in E. destruct (locks s !! l); [|done].
  injection E as -> <-. by exists q.
Qed.
Lemma held_inv s s' l b : lock_held_by_current_thread l s = Ok (b, s') -> s' = s /\ exists q, locks s !! l = Some q /\ b = bool_decide (holder q = Some (running s)).
Proof.
  unfold lock_held_by_current_thread. intros (q & s1 & E & (t & ? & [-> ->]%current_inv & [= <- <-])%bind_Ok)%bind_Ok.
  unfold get_lock in E. destruct (locks s !! l); [|done]. injection E as -> <-. split; [done|]. by exists q.
Qed.
Lemma get_cond_inv s s' c ws : get_cond c s = Ok (ws, s') -> s' = s /\ conds s !! c = Some ws.
Proof. unfold get_cond. destruct (conds s !! c); [|done]. by intros [= -> ->]. Qed.

Lemma take_dinv s x l fs s' : dinv s -> at_frame s x (FHolder l) fs -> run_frame palloc (running s) (FHolder l) fs s = Ok (tt, s') -> dinv s'.
Proof.
  intros D A E. cbn [run_frame] in E. apply bind_Ok in E as ([] & s1 & (q & Hq & ->)%set_holder_inv & (y & Hy & ->)%set_frames_inv).
  pose proof A as [I Hx Hf Hi]. cbn in Hy. assert (y = x) as -> by congruence. pose proof (holder_free _ _ _ _ _ A Hq) as Hn.
  apply (dinv_holder s (running s) x l q (Some (running s)) fs (fun H => {[l]} ∪ H)); try done; [exact (running_alive s x _ fs A)|by right|by left| |].
  - intros H _ l'. rewrite elem_of_union, elem_of_singleton. destruct (decide (l' = l)); naive_solver.
  - intros H. rewrite Hf. cbn [wp]. by intros [_ Hw].
Qed.
Lemma try_take_dinv s x l fs s' : dinv s -> at_frame s x (FTryHolder l) fs -> run_frame palloc (running s) (FTryHolder l) fs s = Ok (tt, s') -> dinv s'.
Proof.
  intros D A E. pose proof A as [I Hx Hf Hi]. cbn [run_frame] in E. apply bind_Ok in E as (z & ? & [-> Hz]%get_thread_inv & E).
  assert (z = x) as -> by congruence. apply bind_Ok in E as ([] & s1 & E1 & E). destruct (Z.eqb_spec (result x) 0) as [Hr|Hr]; cbn [negb] in E1.
  - injection E1 as <-. apply set_frames_inv in E as (y & Hy & ->). assert (y = x) as -> by congruence.
    apply (dinv_upd s _ x); [done|done|done|by apply (running_alive s x _ fs A)|by apply (running_alive s x _ fs A)|].
    intros H. rewrite Hf. cbn [wp frames with_frames result resume]. rewrite Hr. by intros [_ Hw].
  - apply set_holder_inv in E1 as (q & Hq & ->). apply set_frames_inv in E as (y & Hy & ->). cbn in Hy. assert (y = x) as -> by congruence.
    assert (holder q = None) as Hn.
    { destruct I as [I _]. pose proof (i_locks s I l q Hq) as E. pose proof (msum_lookup (owns l) (threads s) _ x (owns_nonneg l) Hx) as Hle.
      destruct (i_waiters s I (LockSem l) (lock_sema q)) as [_ Hv]; [cbn; by rewrite Hq|]. unfold owns in Hle at 1. rewrite Hf, Z.eqb_refl in Hle.
      rewrite (proj2 (Z.eqb_neq _ _) Hr) in Hle. cbn [negb andb] in Hle. pose proof (pending_nonneg false l (FTryHolder l :: fs)). destruct (holder q); [lia|done]. }
    apply (dinv_holder s (running s) x l q (Some (running s)) fs (fun H => {[l]} ∪ H)); try done; [by apply (running_alive s x _ fs A)|by right|by left| |].
    + intros H _ l'. rewrite elem_of_union, elem_of_singleton. destruct (decide (l' = l)); naive_solver.
    + intros H. rewrite Hf. cbn [wp]. rewrite (proj2 (Z.eqb_neq _ _) Hr). by intros [_ Hw].
Qed.
Lemma clear_dinv s x l fs s' : dinv s -> at_frame s x (FClear l) fs -> run_frame palloc (running s) (FClear l) fs s = Ok (tt, s') -> dinv s'.
Proof.
  intros D A E. pose proof A as [I Hx Hf Hi]. cbn [run_frame] in E. apply bind_Ok in E as (b & ? & [-> (q & Hq & ->)]%held_inv & E).
  apply bind_Ok in E as ([] & ? & [Hb ->]%assert_Ok & E). apply bool_decide_eq_true in Hb.
  apply bind_Ok in E as ([] & s1 & (q' & Hq' & ->)%set_holder_inv & (y & Hy & ->)%set_frames_inv). cbn in Hy. assert (y = x) as -> by congruence.
  assert (q' = q) as -> by congruence.
  apply (dinv_holder s (running s) x l q None fs (fun H => H ∖ {[l]})); try done; [by apply (running_alive s x _ fs A)|by left|by right| |].
  - intros H _ l'. rewrite elem_of_difference, elem_of_singleton. destruct (decide (l' = l)); naive_solver.
  - intros H. rewrite Hf. cbn [wp]. by intros [_ Hw].
Qed.

(** The frames of [cond_wait] after its first piece. *)
Lemma wait_dinv s x c l fs s' : dinv s -> at_frame s x (FWait c l) fs -> run_frame palloc (running s) (FWait c l) fs s = Ok (tt, s') -> dinv s'.
Proof.
  intros D A E. pose proof A as [I Hx Hf Hi]. cbn [run_frame] in E. unfold cond_wait in E.
  apply bind_Ok in E as (b & ? & [-> (q & Hq & ->)]%held_inv & E). apply bind_Ok in E as ([] & ? & [Hb ->]%assert_Ok & E). apply bool_decide_eq_true in Hb.
  apply bind_Ok in E as ([] & s1 & [= <-] & E). apply bind_Ok in E as (ws & ? & [-> Hc]%get_cond_inv & E). cbn in Hc.
  apply bind_Ok in E as ([] & s2 & [= <-] & (y & Hy & ->)%set_frames_inv). cbn in Hy. assert (y = x) as -> by congruence.
  set (w := wait_sema (running s)) in *. set (s' := upd _ _ _).
  assert (forall r, is_Some (sema_at s r) -> is_Some (sema_at s' r)) as Hsm.
  { intros r. destruct r as [a|l'|w']; [done|done|]. cbn. destruct (decide (w = w')) as [<-|]; [rewrite lookup_insert_eq; by eexists|by rewrite lookup_insert_ne]. }
  assert (forall c', is_Some (conds s !! c') -> is_Some (conds s' !! c')) as Hcd.
  { intros c' H'. cbn. destruct (decide (c = c')) as [<-|]; [rewrite lookup_insert_eq; by eexists|by rewrite lookup_insert_ne]. }
  apply (dinv_run s s' (running s) (with_frames (lock_release l ++ [FDown (WaitSem w)] ++ lock_acquire l ++ fs) x)); try done.
  - intros u z Hne. cbn. by rewrite lookup_insert_ne.
  - intros u [z Hz]. cbn. destruct (decide (running s = u)) as [<-|Hne]; [rewrite lookup_insert_eq; by eexists|]. rewrite lookup_insert_ne by done. by eexists.
  - apply lookup_insert_eq.
  - destruct (di_objects s D) as [O1 O2 O3 O4]. split; [exact O1|exact O2|intros c' Hc'; by apply Hcd, O3|].
    intros c' ws' w' Hws Hw. cbn in *. assert (w' = w \/ is_Some (waits s !! w')) as Hor.
    { destruct (decide (c = c')) as [<-|]; [|rewrite lookup_insert_ne in Hws by done; right; by apply (O4 c' ws')].
      rewrite lookup_insert_eq in Hws. injection Hws as <-. apply elem_of_app in Hw as [Hw|Hw]; [right; by apply (O4 c ws)|left; by apply list_elem_of_singleton in Hw]. }
    destruct (decide (w = w')) as [<-|Hne]; [rewrite lookup_insert_eq; by eexists|]. rewrite lookup_insert_ne by done. naive_solver.
  - destruct (di_threads s D _ x Hx Hi) as (H & Hh & Hw). exists H. split; [exact Hh|]. pose proof (running_alive s x _ fs A) as Hd.
    rewrite decide_False in Hw by done. rewrite decide_False by done. rewrite Hf in Hw. cbn [wp] in Hw. destruct Hw as (Hl & _ & Hw).
    apply (wp_mono s s' Hsm ltac:(done) Hcd) in Hw. cbn [frames with_frames result resume lock_release lock_acquire app wp].
    assert (is_Some (sema_at s' (LockSem l))) as Hls by (cbn; rewrite Hq; by eexists). assert (is_Some (locks s' !! l)) as Hll by (cbn; rewrite Hq; by eexists).
    split; [done|]. split; [done|]. split; [cbn; rewrite lookup_insert_eq; by eexists|]. split; [done|]. split; [set_solver|]. split; [done|]. split; [done|].
    replace ({[l]} ∪ H ∖ {[l]}) with H; [done|]. by rewrite <- union_difference_singleton_L.
Qed.

Lemma signal_dinv s x c l fs s' : dinv s -> at_frame s x (FSignal c l) fs -> run_frame palloc (running s) (FSignal c l) fs s = Ok (tt, s') -> dinv s'.
Proof.
  intros D A E. pose proof A as [I Hx Hf Hi]. pose proof (running_alive s x _ fs A) as Hd. cbn [run_frame] in E. unfold cond_signal in E.
  apply bind_Ok in E as (b & ? & [-> _]%held_inv & E). apply bind_Ok in E as ([] & ? & [_ ->]%assert_Ok & E).
  apply bind_Ok in E as (ws & ? & [-> Hc]%get_cond_inv & E). destruct ws as [|w ws].
  { apply (dinv_pop s s s' x (FSignal c l) fs tt); [done|apply quiet_refl|done|done|]. intros H r K. cbn [wp]. tauto. }
  apply bind_Ok in E as ([] & s2 & [= <-] & (y & Hy & ->)%set_frames_inv). cbn in Hy. assert (y = x) as -> by congruence. set (s' := upd _ _ _).
  assert (forall c', is_Some (conds s !! c') -> is_Some (conds s' !! c')) as Hcd.
  { intros c' H'. cbn. destruct (decide (c = c')) as [<-|]; [rewrite lookup_insert_eq; by eexists|by rewrite lookup_insert_ne]. }
  apply (dinv_run s s' (running s) (with_frames (FUp (WaitSem w) :: fs) x)); try done.
  - intros u z Hne. cbn. by rewrite lookup_insert_ne.
  - intros u [z Hz]. cbn. destruct (decide (running s = u)) as [<-|Hne]; [rewrite lookup_insert_eq; by eexists|]. rewrite lookup_insert_ne by done. by eexists.
  - apply lookup_insert_eq.
  - destruct (di_objects s D) as [O1 O2 O3 O4]. split; [exact O1|exact O2|intros c' Hc'; by apply Hcd, O3|].
    intros c' ws' w' Hws Hw. cbn in *. destruct (decide (c = c')) as [<-|]; [|rewrite lookup_insert_ne in Hws by done; by apply (O4 c' ws')].
    rewrite lookup_insert_eq in Hws. injection Hws as <-. apply (O4 c (w :: ws)); [done|by apply list_elem_of_further].
  - destruct (di_threads s D _ x Hx Hi) as (H & Hh & Hw). exists H. split; [exact Hh|]. rewrite decide_False in Hw by done. rewrite decide_False by done.
    rewrite Hf in Hw. cbn [wp] in Hw. destruct Hw as (Hl & _ & Hw). cbn [frames with_frames result resume wp]. split.
    + apply (ob_waits s (di_objects s D) c (w :: ws)); [done|apply list_elem_of_here].
    + apply (wp_mono s s'); [intros r; by destruct r|done|exact Hcd|done].
Qed.

Lemma broadcast_dinv s x c l fs s' : dinv s -> at_frame s x (FBroadcast c l) fs -> run_frame palloc (running s) (FBroadcast c l) fs s = Ok (tt, s') -> dinv s'.
Proof.
  intros D A E. pose proof A as [I Hx Hf Hi]. pose proof (running_alive s x _ fs A) as Hd. cbn [run_frame] in E. unfold cond_broadcast in E.
  apply bind_Ok in E as (ws & ? & [-> Hc]%get_cond_inv & E). destruct ws as [|w ws].
  { apply (dinv_pop s s s' x (FBroadcast c l) fs tt); [done|apply quiet_refl|done|done|]. intros H r K. cbn [wp]. tauto. }
  apply set_frames_inv in E as (y & Hy & ->). assert (y = x) as -> by congruence.
  apply (dinv_upd s _ x); try done. intros H. rewrite Hf. cbn [frames with_frames result resume wp]. tauto.
Qed.

Lemma exit_dinv s x fs s' : dinv s -> at_frame s x FExit fs -> run_frame palloc (running s) FExit fs s = Ok (tt, s') -> dinv s'.
Proof.
  intros D A E. pose proof A as [I Hx Hf Hi]. pose proof (running_alive s x _ fs A) as Hd. cbn [run_frame] in E.
  apply bind_Ok in E as ([] & s1 & (y & Hy & ->)%set_frames_inv & E). assert (y = x) as -> by congruence. unfold thread_exit in E.
  apply bind_Ok in E as (t & ? & [-> ->]%current_inv & E). apply bind_Ok in E as ([] & s2 & [= <-] & E).
  apply bind_Ok in E as ([] & s3 & (y & Hy' & ->)%set_status_inv & E). cbn in Hy'. rewrite lookup_insert_eq in Hy'. injection Hy' as <-.
  eapply quiet_dinv; [eapply schedule_quiet; [|exact E]|].
  - intros n z Hn. cbn. pose proof (inv_alive s I n) as Ha. destruct (decide (running s = n)) as [<-|Hne]; [|rewrite !lookup_insert_ne by done; by apply Ha].
    exfalso. destruct Hn as [Hn|Hn]; [|done]. cbn in Hn. apply (proj2 (i_ready s (proj1 I))) in Hn as (z' & Hz' & Hs' & _).
    pose proof (running_status s z' I Hz'). congruence.
  - match goal with |- dinv ?v => apply (dinv_run s v (running s) (with_status THREAD_DYING (with_frames fs x))); try done end.
    + intros u z Hne. cbn. by rewrite !lookup_insert_ne.
    + intros u [z Hz]. cbn. destruct (decide (running s = u)) as [<-|Hne]; [rewrite lookup_insert_eq; by eexists|]. rewrite !lookup_insert_ne by done. by eexists.
    + apply lookup_insert_eq.
    + destruct (di_objects s D) as [O1 O2 O3 O4]. split; [exact O1|exact O2|exact O3|exact O4].
    + destruct (di_threads s D _ x Hx Hi) as (H & Hh & Hw). exists H. split; [exact Hh|]. rewrite decide_True by done.
      rewrite decide_False in Hw by done. rewrite Hf in Hw. exact Hw.
Qed.

Hypothesis palloc_fresh : forall s n, palloc s = Some n -> threads s !! n = None.

Lemma create_dinv s x p prio fs s' : dinv s -> at_frame s x (FCreate p prio) fs ->
  run_frame palloc (running s) (FCreate p prio) fs s = Ok (tt, s') -> dinv s'.
Proof.
  intros D A E. pose proof A as [I Hx Hf Hi]. pose proof (running_alive s x _ fs A) as Hd. cbn [run_frame] in E. unfold thread_create in E.
  apply bind_Ok in E as (pg & ? & [= <- <-] & E). destruct (palloc s) as [n|] eqn:Hp.
  - pose proof (palloc_fresh s n Hp) as Hn. assert (n <> running s) as Hne by (intros ->; congruence).
    apply bind_Ok in E as ([] & s1 & E1 & E). unfold init_thread in E1. apply bind_Ok in E1 as ([] & ? & [_ ->]%assert_Ok & E1).
    apply bind_Ok in E1 as ([] & s2 & [= <-] & [= <-]). apply set_frames_inv in E as (y & Hy & ->). cbn in Hy. rewrite lookup_insert_ne in Hy by done.
    assert (y = x) as -> by congruence. set (new := Build_thread _ _ _ _ _ _ _) in *. set (s' := upd _ _ _).
    assert (forall fs H r K, wp s H fs r K -> wp s' H fs r K) as Hm by (intros; apply (wp_mono s); [intros q; by destruct q|done|done|done]).
    destruct (di_objects s D) as [O1 O2 O3 O4]. assert (objects s') as Ho by (split; [exact O1|exact O2|exact O3|exact O4]).
    split; [| |done].
    + intros u z Hz Hu. cbn in Hz, Hu. destruct (decide (running s = u)) as [<-|Hnu].
      * rewrite lookup_insert_eq in Hz. injection Hz as <-. destruct (di_threads s D _ x Hx Hi) as (H & Hh & Hw). exists H. split; [exact Hh|].
        rewrite decide_False in Hw by done. rewrite decide_False by done. rewrite Hf in Hw. cbn [wp] in Hw. destruct Hw as (_ & _ & Ht & Hw).
        assert (is_Some (locks s !! TID_LOCK)) as Hl by (apply O2, list_elem_of_here).
        assert (is_Some (sema_at s' (LockSem TID_LOCK))) as Hls by (cbn; destruct Hl as [q ->]; by eexists).
        cbn [frames with_frames result resume allocate_tid lock_acquire lock_release app wp].
        split; [done|]. split; [done|]. split; [done|]. split; [done|]. intros r. split; [set_solver|]. split; [done|].
        replace (({[TID_LOCK]} ∪ H) ∖ {[TID_LOCK]}) with H by set_solver. by apply Hm.
      * rewrite lookup_insert_ne in Hz by done. destruct (decide (n = u)) as [<-|Hnu'].
        -- rewrite lookup_insert_eq in Hz. injection Hz as <-. exists ∅. split.
           ++ intros l. split; [by intros ?%not_elem_of_empty|]. intros Hl. destruct (di_alive s D l n Hl) as [[? ?] _]. congruence.
           ++ rewrite decide_False by done. cbn. destruct (di_threads s D _ x Hx Hi) as (H & Hh & Hw). rewrite decide_False in Hw by done.
              rewrite Hf in Hw. cbn [wp] in Hw. tauto.
        -- rewrite lookup_insert_ne in Hz by done. destruct (di_threads s D u z Hz Hu) as (H & Hh & Hw). exists H. split; [exact Hh|].
           destruct (decide _); [done|]. by apply Hm.
    + intros l u Hl. destruct (di_alive s D l u Hl) as [[z Hz] Hu]. split; [|done]. cbn. destruct (decide (running s = u)) as [<-|]; [rewrite lookup_insert_eq; by eexists|].
      rewrite lookup_insert_ne by done. destruct (decide (n = u)) as [<-|]; [rewrite lookup_insert_eq; by eexists|]. rewrite lookup_insert_ne by done. by eexists.
  - apply bind_Ok in E as ([] & s1 & (y & Hy & ->)%set_frames_inv & E). assert (y = x) as -> by congruence. unfold set_result in E.
    apply bind_Ok in E as (y & ? & [-> Hy']%get_thread_inv & [= <-]). cbn in Hy'. rewrite lookup_insert_eq in Hy'. injection Hy' as <-.
    match goal with |- dinv ?v => replace v with (upd (running s) (Build_thread P (tid x) (status x) (priority x) fs TID_ERROR (resume x)) s) end.
    + apply (dinv_upd s _ x); try done. intros H. rewrite Hf. cbn [wp frames result resume]. intros (_ & _ & _ & Hw). apply Hw.
    + unfold upd. cbn. by rewrite insert_insert_eq.
Qed.

(** The frame is done with the result [r], and was quiet. *)
Lemma dinv_result s s1 x f fs y r : dinv s -> quiet s s1 -> at_frame s x f fs -> threads s1 !! running s = Some y ->
  (forall H K, wp s1 H (f :: fs) (result x) K -> wp s1 H fs r K) -> dinv (upd (running s) (with_result r (with_frames fs y)) s1).
Proof.
  intros D Q A Hy Hw. destruct (running_frames s s1 x f fs y A Q Hy) as (Ef & Er & Ek & Hd & Hi).
  apply (dinv_upd s1 _ y); [by apply (quiet_dinv s)|done|done|done|done|]. intros H. rewrite Ef, Er. apply Hw.
Qed.
Lemma result_frames s s' t r fs u : (do! set_result t r; set_frames t fs) s = Ok (u, s') ->
  exists y, threads s !! t = Some y /\ s' = upd t (with_result r (with_frames fs y)) s.
Proof.
  intros ([] & s1 & E & (y' & Hy' & ->)%set_frames_inv)%bind_Ok. unfold set_result in E.
  apply bind_Ok in E as (y & ? & [-> Hy]%get_thread_inv & [= <-]). exists y. split; [done|].
  cbn in Hy'. rewrite lookup_insert_eq in Hy'. injection Hy' as <-. unfold upd, with_threads. cbn. f_equal. apply insert_insert_eq.
Qed.
Lemma frames_result s s' t r fs u : (do! set_frames t fs; set_result t r) s = Ok (u, s') ->
  exists y, threads s !! t = Some y /\ s' = upd t (with_result r (with_frames fs y)) s.
Proof.
  intros ([] & s1 & (y & Hy & ->)%set_frames_inv & E)%bind_Ok. exists y. split; [done|]. unfold set_result in E.
  apply bind_Ok in E as (y' & ? & [-> Hy']%get_thread_inv & [= _ <-]).
  cbn in Hy'. rewrite lookup_insert_eq in Hy'. injection Hy' as <-. unfold upd, with_threads. cbn. f_equal. apply insert_insert_eq.
Qed.

Lemma tid_dinv s x n fs s' : dinv s -> at_frame s x (FTid n) fs -> run_frame palloc (running s) (FTid n) fs s = Ok (tt, s') -> dinv s'.
Proof.
  intros D A E. cbn [run_frame] in E. apply bind_Ok in E as (i & ? & [= <- <-] & E). apply bind_Ok in E as ([] & s1 & [= <-] & E).
  apply bind_Ok in E as (z & ? & [-> Hz]%get_thread_inv & E). apply bind_Ok in E as ([] & s2 & [= <-] & E).
  apply result_frames in E as (y & Hy & ->). refine (dinv_result s _ x _ fs y _ D _ A Hy _); [|intros H K Hw; apply Hw].
  apply (quiet_trans s (with_tid (s32 (next_tid s + 1)) s)); [by apply quiet_same|].
  by apply (quiet_upd (with_tid (s32 (next_tid s + 1)) s) n z
    {| tid := next_tid s; status := status z; priority := priority z; frames := frames z; result := result z; resume := resume z |}).
Qed.

Lemma try_down_dinv s x r fs s' : dinv s -> at_frame s x (FTryDown r) fs -> run_frame palloc (running s) (FTryDown r) fs s = Ok (tt, s') -> dinv s'.
Proof.
  intros D A E. cbn [run_frame] in E. apply bind_Ok in E as (b & s1 & Q%try_down_quiet & E).
  apply frames_result in E as (y & Hy & ->). apply (dinv_result s s1 x (FTryDown r) fs y _ D Q A Hy). intros H K Hw. apply Hw.
Qed.

Lemma set_priority_dinv s x n fs s' : dinv s -> at_frame s x (FSetPriority n) fs -> run_frame palloc (running s) (FSetPriority n) fs s = Ok (tt, s') -> dinv s'.
Proof.
  intros D A E. cbn [run_frame] in E. apply bind_Ok in E as ([] & s1 & E1 & E). unfold thread_set_priority in E1.
  apply bind_Ok in E1 as (? & ? & [-> ->]%current_inv & E1). apply bind_Ok in E1 as (y & ? & [-> Hy]%get_thread_inv & [= <-]).
  refine (dinv_pop s _ s' x _ fs tt D _ A E _); [|done].
  by apply (quiet_upd s (running s) y {| tid := tid y; status := status y; priority := n; frames := frames y; result := result y; resume := resume y |}).
Qed.
Lemma get_priority_dinv s x fs s' : dinv s -> at_frame s x FGetPriority fs -> run_frame palloc (running s) FGetPriority fs s = Ok (tt, s') -> dinv s'.
Proof.
  intros D A E. cbn [run_frame] in E. apply bind_Ok in E as (n & s1 & E1 & E). unfold thread_get_priority in E1.
  apply bind_Ok in E1 as (? & ? & [-> ->]%current_inv & E1). apply bind_Ok in E1 as (y & ? & [-> Hy]%get_thread_inv & [= <- <-]).
  apply result_frames in E as (z & Hz & ->). apply (dinv_result s s x FGetPriority fs z _ D (quiet_refl s) A Hz). intros H K Hw. apply Hw.
Qed.

Lemma down_dinv s x r fs s' : dinv s -> at_frame s x (FDown r) fs -> run_frame palloc (running s) (FDown r) fs s = Ok (tt, s') -> dinv s'.
Proof.
  intros D A E. pose proof A as [I _ _ _]. cbn [run_frame] in E. apply bind_Ok in E as (q & ? & [-> Hq]%get_sema_inv & E). destruct (_ =? _).
  - apply bind_Ok in E as (b & s1 & Q%down_quiet & [= <-]); [|done]. by apply (quiet_dinv s).
  - apply bind_Ok in E as (b & s1 & Q%down_quiet & E); [|done]. apply (dinv_pop s s1 s' x (FDown r) fs tt D Q A E). intros H r' K Hw. apply Hw.
Qed.

Lemma yield_dinv s x fs s' : dinv s -> at_frame s x FYield fs -> run_frame palloc (running s) FYield fs s = Ok (tt, s') -> dinv s'.
Proof.
  intros D A E. pose proof A as [I Hx Hf Hi]. cbn [run_frame] in E. apply bind_Ok in E as ([] & s1 & E1 & E).
  pose proof (dinv_pop s s s1 x FYield fs tt D (quiet_refl s) A E1 ltac:(done)) as D1. apply (quiet_dinv s1); [|done].
  apply yield_quiet; [|done]. apply set_frames_inv in E1 as (y & Hy & ->). assert (y = x) as -> by congruence.
  by apply (inv_pop_only s x (with_frames fs x) FYield fs).
Qed.

Lemma frame_dinv s x f fs s' : dinv s -> at_frame s x f fs -> run_frame palloc (running s) f fs s = Ok (tt, s') -> dinv s'.
Proof.
  intros D A E. destruct f as [r|r|r|l|l|l|l|c l|c l|c l| | |p n|n|n|n| | |].
  - by apply (down_dinv s x r fs).
  - by apply (try_down_dinv s x r fs).
  - cbn [run_frame] in E. apply bind_Ok in E as (u & s1 & Q%up_quiet & E). apply (dinv_pop s s1 s' x (FUp r) fs tt D Q A E). intros H r' K Hw. apply Hw.
  - cbn [run_frame] in E. apply bind_Ok in E as (b & ? & [-> _]%held_inv & E). apply bind_Ok in E as (? & ? & [_ ->]%assert_Ok & E).
    apply (dinv_pop s s s' x (FNotHeld l) fs tt D (quiet_refl s) A E). intros H r' K Hw. apply Hw.
  - by apply (take_dinv s x l fs).
  - by apply (try_take_dinv s x l fs).
  - by apply (clear_dinv s x l fs).
  - by apply (wait_dinv s x c l fs).
  - by apply (signal_dinv s x c l fs).
  - by apply (broadcast_dinv s x c l fs).
  - by apply (yield_dinv s x fs).
  - by apply (exit_dinv s x fs).
  - by apply (create_dinv s x p n fs).
  - by apply (tid_dinv s x n fs).
  - cbn [run_frame] in E. apply bind_Ok in E as (u & s1 & Q%unblock_quiet & E). by apply (dinv_pop s s1 s' x (FStart n) fs tt D Q A E).
  - by apply (set_priority_dinv s x n fs).
  - by apply (get_priority_dinv s x fs).
  - destruct A as [I Hx Hf Hi]. destruct (di_threads s D _ _ Hx Hi) as (H & _ & Hw). rewrite decide_False in Hw by by rewrite (running_status s x I Hx).
    rewrite Hf in Hw. by destruct Hw.
  - destruct A as [I Hx Hf Hi]. destruct (di_threads s D _ _ Hx Hi) as (H & _ & Hw). rewrite decide_False in Hw by by rewrite (running_status s x I Hx).
    rewrite Hf in Hw. by destruct Hw.
Qed.

(** ** Every step *)

Lemma wp_expand s H (o : op P) (k : Z -> P) : objects s -> TID_LOCK ∉ H -> allowed H o ->
  (forall r, safe (after H o r) (k r)) -> (forall q n, o = OCreate q n -> safe ∅ q) ->
  (forall l, l ∈ H -> is_Some (locks s !! l)) ->
  wp s H (expand o) 0 (fun H r => safe H (k r)).
Proof.
  intros [O1 O2 O3 O4] Ht Ha Hk Hc Hl.
  assert (forall l, is_Some (locks s !! l) -> is_Some (sema_at s (LockSem l))) as Hs by (intros l [q Hq]; cbn; rewrite Hq; by eexists).
  assert (forall l, l ∈ ls -> is_Some (locks s !! l)) as Hls by (intros l E; apply O2; by right).
  destruct o; cbn [expand allowed after lock_acquire lock_try_acquire lock_release wp] in *; try done.
  - split; [by apply O1|apply Hk].
  - split; [by apply O1|apply Hk].
  - split; [by apply O1|apply Hk].
  - destruct Ha as (Ha & _ & Hn). repeat split; auto.
  - destruct Ha as (Ha & _ & Hn). repeat split; auto.
  - repeat split; auto.
  - destruct Ha. repeat split; auto.
  - destruct Ha. repeat split; auto.
  - destruct Ha. repeat split; auto.
  - split; [exact Ha|]. split; [by eapply Hc|done].
Qed.

Lemma has_locks s t H l : has s t H -> l ∈ H -> is_Some (locks s !! l).
Proof. intros Hh Hl. apply Hh in Hl. destruct (locks s !! l); [by eexists|done]. Qed.

Lemma fetch_dinv s x y : dinv s -> inv s -> threads s !! running s = Some x -> frames x = [] ->
  status y = status x ->
  match next (resume x (result x)) with
  | None => frames y = [FExit]
  | Some (o, k) => frames y = expand o /\ result y = 0 /\ resume y = k
  end -> dinv (upd (running s) y s).
Proof.
  intros D I Hx Hf Hst Hy. assert (idle_thread s <> Some (running s)) as Hi by (apply (not_idle s x I Hx); by rewrite Hf).
  assert (status x <> THREAD_DYING) as Hd by by rewrite (running_status s x I Hx).
  destruct (di_threads s D _ x Hx Hi) as (H0 & Hh0 & _).
  apply (dinv_run s (upd (running s) y s) (running s) y); try done.
  - intros u z Hne. cbn. by rewrite lookup_insert_ne.
  - intros u [z Hz]. cbn. destruct (decide (running s = u)) as [<-|Hne]; [rewrite lookup_insert_eq; by eexists|]. rewrite lookup_insert_ne by done. by eexists.
  - apply lookup_insert_eq.
  - destruct (di_objects s D) as [O1 O2 O3 O4]. split; [exact O1|exact O2|exact O3|exact O4].
  - destruct (di_threads s D _ x Hx Hi) as (H & Hh & Hw). exists H. split; [done|]. rewrite decide_False in Hw by done.
    rewrite Hf in Hw. cbn [wp] in Hw. rewrite decide_False by by rewrite Hst.
    apply (wp_mono s); [intros r; by destruct r|done|done|].
    destruct (next _) as [[o k]|] eqn:En.
    + destruct Hy as (-> & -> & ->). destruct (d_op _ disc _ _ _ _ Hw En) as (H1 & H2 & H3).
      apply wp_expand; try done; [apply (di_objects s D)| |intros l; by apply (has_locks s (running s))].
      intros q n ->. by apply (d_child _ disc _ _ _ _ _ Hw En).
    + rewrite Hy. cbn. by apply (d_end _ disc _ _ Hw).
Qed.

Lemma run_current_dinv s s' : dinv s -> inv s -> run_current next palloc s = Ok (tt, s') -> dinv s'.
Proof.
  intros D I E. unfold run_current in E. apply bind_Ok in E as (t & ? & [-> ->]%current_inv & E).
  apply bind_Ok in E as (x & ? & [-> Hx]%get_thread_inv & E). destruct (frames x) as [|f fs] eqn:Hf.
  - destruct (next (resume x (result x))) as [[o k]|] eqn:En.
    + injection E as <-. apply (fetch_dinv s x); try done. by rewrite En.
    + apply set_frames_inv in E as (y & Hy & ->). assert (y = x) as -> by congruence. apply (fetch_dinv s x); try done. by rewrite En.
  - destruct (decide (idle_thread s = Some (running s))) as [Hi|Hni].
    + destruct (i_idle s (proj1 I)) as (i & w & Ei & Hw & Hfw & _). simplify_eq. rewrite Hf in Hfw. injection Hfw as -> ->.
      cbn [run_frame] in E. apply (quiet_dinv s); [|done]. apply (block_quiet s s' tt); [done|by apply inv_alive|done].
    + apply (frame_dinv s x f fs); [done|by split|done].
Qed.

Lemma timer_dinv s s' : dinv s -> inv s -> timer_interrupt s = Ok (tt, s') -> dinv s'.
Proof.
  intros D I E. apply (quiet_dinv s); [|done]. unfold timer_interrupt in E. apply bind_Ok in E as (b & s1 & E1 & E).
  unfold thread_tick in E1. apply bind_Ok in E1 as (? & ? & [-> ->]%current_inv & E1). apply bind_Ok in E1 as ([] & s2 & [= <-] & E1).
  apply bind_Ok in E1 as (n & ? & [= <- <-] & [= <- <-]). pose proof (inv_with_ticks s (u32 (thread_ticks s + 1)) I) as I1.
  apply (quiet_trans s (with_ticks (u32 (thread_ticks s + 1)) s)); [by apply quiet_same|].
  destruct (_ >=? _); [by apply yield_quiet|]. injection E as <-. apply quiet_refl.
Qed.

Lemma boot_dinv main idle p : main <> idle -> safe ∅ p -> dinv (boot main idle p sems ls cs).
Proof.
  intros Hne Hp. set (s := boot main idle p sems ls cs).
  assert (forall l q, locks s !! l = Some q -> holder q = None) as Hl.
  { intros l q Hq. apply elem_of_list_to_map_2, list_elem_of_fmap in Hq as (l' & [= _ ->] & _). done. }
  split.
  - intros t x Hx Hi. assert (t <> idle) as Hti by (intros ->; done). unfold s, boot in Hx. cbn [threads] in Hx.
    apply lookup_insert_Some in Hx as [[<- <-]|[_ Hx]]; [|apply lookup_singleton_Some in Hx as [<- _]; done].
    exists ∅. split; [|done]. intros l. split; [by intros ?%not_elem_of_empty|]. destruct (locks s !! l) as [q|] eqn:E; [|done].
    cbn. rewrite (Hl l q E). done.
  - intros l t. destruct (locks s !! l) as [q|] eqn:E; [|done]. cbn. rewrite (Hl l q E). done.
  - split.
    + intros a [v Hv]. cbn. rewrite lookup_fmap, Hv. by eexists.
    + intros l Hm. cbn [s boot locks]. apply not_eq_None_Some. intros E%not_elem_of_list_to_map_2. apply E.
      rewrite <- list_fmap_compose. apply list_elem_of_fmap. by exists l.
    + intros c Hm. cbn [s boot conds]. apply not_eq_None_Some. intros E%not_elem_of_list_to_map_2. apply E.
      rewrite <- list_fmap_compose. apply list_elem_of_fmap. by exists c.
    + intros c ws w Hc Hw. apply elem_of_list_to_map_2, list_elem_of_fmap in Hc as (c' & [= _ ->] & _). by apply elem_of_nil in Hw.
Qed.
Context (next_not_idle : forall p o k a, next p = Some (o, k) -> o <> OIdle a).

Lemma step_dinv s s' : inv s -> dinv s -> step next palloc s s' -> dinv s'.
Proof. intros I D Hs. destruct Hs as [s s' E|s s' E]; [by apply (run_current_dinv s)|by apply (timer_dinv s)]. Qed.
Lemma reachable_dinv main idle p s : main <> idle -> (forall a v, sems !! a = Some v -> 0 <= v) -> safe ∅ p ->
  reachable next palloc main idle p sems ls cs s -> inv s /\ dinv s.
Proof.
  intros Hne Hv Hp Hr. pose proof (boot_inv main idle p sems ls cs Hne Hv) as I0. pose proof (boot_dinv main idle p Hne Hp) as D0.
  induction Hr as [s|s s' s'' Hs Hr IH]; [done|]. apply IH; [by apply (step_inv next palloc palloc_fresh next_not_idle s)|by apply (step_dinv s)].
Qed.

(** The next piece of the current thread succeeds. *)
Lemma run_current_Ok s : inv s -> dinv s -> exists s', run_current next palloc s = Ok (tt, s').
Proof.
  intros I D. destruct (i_running s (proj1 I)) as [x Hx].
  destruct (run_current_fine next palloc palloc_fresh next_not_idle s x I Hx) as (s' & E & _); [|by exists s'].
  intros f fs Hf. destruct (decide (idle_thread s = Some (running s))) as [Hi|Hni].
  - destruct (i_idle s (proj1 I)) as (i & w & Ei & Hw & Hfw & _). simplify_eq. rewrite Hf in Hfw. by injection Hfw as -> ->.
  - apply (not_faulty s x f fs D); [by split|]. by rewrite (running_status s x I Hx).
Qed.
End discipline.
End ThreadDiscipline.

(** * The order of the ready list

    What a step does to the ready list, and how long a ready thread waits at most. *)

Module ThreadFair.
Section fair.
Context {P : Type} (next : P -> option (op P * (Z -> P))) (palloc : sys P -> option Z).
Notation thread := (thread P).
Notation sys := (sys P).
Notation frame := (frame P).
Implicit Types (s : sys) (t : Z) (fs : list frame).

(** ** Keeping the processor *)

(** The same thread is running, in the same slice, and ready threads keep their places. *)
Definition stays s s' : Prop :=
  running s' = running s /\ thread_ticks s' = thread_ticks s /\ exists r, ready_list s' = ready_list s ++ r.
(** A new slice begins, of the first ready thread if there is one. *)
Definition switches s s' : Prop :=
  thread_ticks s' = 0 /\ forall n r, ready_list s = n :: r -> running s' = n /\ exists r', ready_list s' = r ++ r'.
Definition moves s s' : Prop := stays s s' \/ switches s s'.

Lemma stays_same s s' : running s' = running s -> thread_ticks s' = thread_ticks s -> ready_list s' = ready_list s -> stays s s'.
Proof. intros E1 E2 E3. split; [done|]. split; [done|]. exists []. by rewrite app_nil_r. Qed.
Lemma stays_trans s1 s2 s3 : stays s1 s2 -> stays s2 s3 -> stays s1 s3.
Proof.
  intros (A1 & A2 & r & A3) (B1 & B2 & r' & B3). split; [congruence|]. split; [congruence|]. exists (r ++ r').
  by rewrite B3, A3, app_assoc.
Qed.
Lemma moves_l s1 s2 s3 : stays s1 s2 -> moves s2 s3 -> moves s1 s3.
Proof.
  intros A [B|[B1 B2]]; [left; by apply (stays_trans s1 s2)|right]. destruct A as (A1 & A2 & r & A3). split; [done|].
  intros n q Hq. rewrite Hq in A3. destruct (B2 n (q ++ r) A3) as (B3 & r' & B4). split; [done|]. exists (r ++ r').
  by rewrite B4, app_assoc.
Qed.
Lemma moves_r s1 s2 s3 : moves s1 s2 -> stays s2 s3 -> moves s1 s3.
Proof.
  intros [A|[A1 A2]] B; [left; by apply (stays_trans s1 s2)|right]. destruct B as (B1 & B2 & r & B3). split; [congruence|].
  intros n q Hq. destruct (A2 n q Hq) as (A3 & r' & A4). split; [congruence|]. exists (r' ++ r). by rewrite B3, A4, app_assoc.
Qed.

Definition keeps {A} (m : M sys A) : Prop := forall s a s', m s = Ok (a, s') -> stays s s'.
Definition mover {A} (m : M sys A) : Prop := forall s a s', m s = Ok (a, s') -> moves s s'.

Lemma keeps_bind {A B} (m : M sys A) (k : A -> M sys B) : keeps m -> (forall a, keeps (k a)) -> keeps (bind m k).
Proof. intros Hm Hk s a s' (b & s1 & E1 & E2)%bind_Ok. eapply stays_trans; [by eapply Hm|by eapply Hk]. Qed.
Lemma keeps_state {A} (m : M sys A) : (forall s a s', m s = Ok (a, s') -> s' = s) -> keeps m.
Proof. intros H s a s' E. rewrite (H s a s' E). by apply stays_same. Qed.
Lemma keeps_ret {A} (a : A) : keeps (ret a).
Proof. apply keeps_state. by intros s b s' [= _ <-]. Qed.
Lemma keeps_fail {A} e : keeps (fail e : M sys A).
Proof. by intros s a s' E. Qed.
Lemma keeps_gets {A} (f : sys -> A) : keeps (gets f).
Proof. apply keeps_state. by intros s b s' [= _ <-]. Qed.
Lemma keeps_assert b : keeps (assert b).
Proof. apply keeps_state. by intros s a s' [_ ->]%assert_Ok. Qed.
Lemma keeps_modify (f : sys -> sys) : (forall s, stays s (f s)) -> keeps (modify f).
Proof. by intros H s a s' [= _ <-]. Qed.
Lemma keeps_get_thread t : keeps (get_thread (P:=P) t).
Proof. apply keeps_state. unfold get_thread. intros s a s'. destruct (_ !! _); [|done]. by intros [= _ <-]. Qed.
Lemma keeps_get_sema r : keeps (get_sema (P:=P) r).
Proof. apply keeps_state. unfold get_sema. intros s a s'. destruct r; destruct (_ !! _); try done; by intros [= _ <-]. Qed.
Lemma keeps_get_lock l : keeps (get_lock (P:=P) l).
Proof. apply keeps_state. unfold get_lock. intros s a s'. destruct (_ !! _); [|done]. by intros [= _ <-]. Qed.
Lemma keeps_get_cond l : keeps (get_cond (P:=P) l).
Proof. apply keeps_state. unfold get_cond. intros s a s'. destruct (_ !! _); [|done]. by intros [= _ <-]. Qed.
Lemma keeps_set_sema r q : keeps (set_sema (P:=P) r q).
Proof.
  intros s a s'. destruct r as [b|l|w]; cbn; [intros [= _ <-]; by apply stays_same| |intros [= _ <-]; by apply stays_same].
  destruct (_ !! _); [|done]. intros [= _ <-]. by apply stays_same.
Qed.
Lemma mover_keeps {A} (m : M sys A) : keeps m -> mover m.
Proof. intros H s a s' E. left. by eapply H. Qed.
Lemma mover_l {A B} (m : M sys A) (k : A -> M sys B) : keeps m -> (forall a, mover (k a)) -> mover (bind m k).
Proof. intros Hm Hk s a s' (b & s1 & E1 & E2)%bind_Ok. eapply moves_l; [by eapply Hm|by eapply Hk]. Qed.
Lemma mover_r {A B} (m : M sys A) (k : A -> M sys B) : mover m -> (forall a, keeps (k a)) -> mover (bind m k).
Proof. intros Hm Hk s a s' (b & s1 & E1 & E2)%bind_Ok. eapply moves_r; [by eapply Hm|by eapply Hk]. Qed.

Hint Resolve keeps_ret keeps_fail keeps_gets keeps_assert keeps_get_thread keeps_get_sema keeps_get_lock keeps_get_cond keeps_set_sema : keeps.
Ltac keep := repeat first
  [ solve [eauto with keeps] | apply keeps_bind; [|intros ?] | apply keeps_modify; intros ?; by apply stays_same
  | match goal with |- keeps (if ?b then _ else _) => destruct b | |- keeps (match ?o with _ => _ end) => destruct o end ].

Lemma keeps_set_frames t fs : keeps (set_frames t fs).
Proof. unfold set_frames, set_thread. keep. Qed.
Lemma keeps_set_status t st : keeps (set_status (P:=P) t st).
Proof. unfold set_status, set_thread. keep. Qed.
Lemma keeps_set_result t r : keeps (set_result (P:=P) t r).
Proof. unfold set_result, set_thread. keep. Qed.
Lemma keeps_set_holder l h : keeps (set_holder (P:=P) l h).
Proof. unfold set_holder. keep. Qed.
Lemma keeps_current : keeps (thread_current (P:=P)).
Proof. unfold thread_current. keep. Qed.
Hint Resolve keeps_set_frames keeps_set_status keeps_set_result keeps_set_holder keeps_current : keeps.

Lemma keeps_unblock t : keeps (thread_unblock (P:=P) t).
Proof.
  unfold thread_unblock. keep. apply keeps_modify. intros s. split; [done|]. split; [done|]. by exists [t].
Qed.
Lemma keeps_held l : keeps (lock_held_by_current_thread (P:=P) l).
Proof. unfold lock_held_by_current_thread. keep. Qed.
Hint Resolve keeps_unblock keeps_held : keeps.
Lemma keeps_up r : keeps (sema_up (P:=P) r).
Proof. unfold sema_up. keep. Qed.
Lemma keeps_try_down r : keeps (sema_try_down (P:=P) r).
Proof. unfold sema_try_down. keep. Qed.
Hint Resolve keeps_up keeps_try_down : keeps.

(** ** Switches *)

Lemma tail_starts prev s s' : thread_schedule_tail prev s = Ok (tt, s') ->
  running s' = running s /\ ready_list s' = ready_list s /\ thread_ticks s' = 0.
Proof.
  unfold thread_schedule_tail. intros (t & ? & [= <- <-] & E)%bind_Ok.
  apply bind_Ok in E as ([] & s1 & E1 & E). apply bind_Ok in E1 as (x & s2 & E2 & [= <-]).
  assert (s2 = s) as -> by (unfold get_thread in E2; destruct (_ !! _); by simplify_eq).
  apply bind_Ok in E as ([] & s3 & [= <-] & E). destruct prev as [prev|]; [|by injection E as <-].
  apply bind_Ok in E as (y & s4 & E4 & E). set (s5 := with_ticks _ _) in *.
  assert (s4 = s5) as -> by (unfold get_thread in E4; destruct (_ !! _); by simplify_eq).
  apply bind_Ok in E as (i & ? & [= <- <-] & E). destruct (_ && _); [|by injection E as <-].
  apply bind_Ok in E as ([] & ? & [_ ->]%assert_Ok & [= <-]). done.
Qed.
Lemma schedule_switches s s' : schedule s = Ok (tt, s') -> switches s s'.
Proof.
  unfold schedule. intros (t & ? & [= <- <-] & E)%bind_Ok. apply bind_Ok in E as (nx & s1 & E1 & E).
  assert (running s1 = running s /\ forall n r, ready_list s = n :: r -> nx = Some n /\ ready_list s1 = r) as [Er Hn].
  { unfold next_thread_to_run in E1. apply bind_Ok in E1 as (r & ? & [= <- <-] & E1). destruct (ready_list s) as [|m r] eqn:Hr.
    - injection E1 as _ <-. by rewrite Hr.
    - apply bind_Ok in E1 as ([] & ? & [= <-] & [= <- <-]). split; [done|]. by intros n q [= <- <-]. }
  apply bind_Ok in E as (x & s2 & E2 & E). assert (s2 = s1) as -> by (unfold get_thread in E2; destruct (_ !! _); by simplify_eq).
  apply bind_Ok in E as ([] & ? & [_ ->]%assert_Ok & E). destruct nx as [n|]; [|done].
  apply bind_Ok in E as (y & s2 & E3 & E). assert (s2 = s1) as -> by (unfold get_thread in E3; destruct (_ !! _); by simplify_eq).
  assert (exists prev s2, running s2 = n /\ ready_list s2 = ready_list s1 /\ thread_schedule_tail prev s2 = Ok (tt, s')) as (prev & s2 & E4 & E5 & E6).
  { destruct (negb _) eqn:Hc.
    - apply bind_Ok in E as ([] & ? & [= <-] & E). by exists (Some (running s)), (with_running n s1).
    - exists None, s1. apply negb_false_iff, Z.eqb_eq in Hc. split; [congruence|done]. }
  apply tail_starts in E6 as (T1 & T2 & T3). split; [done|]. intros m q Hq. destruct (Hn m q Hq) as [[= ->] Hl].
  split; [congruence|]. exists []. by rewrite app_nil_r, T2, E5.
Qed.
Lemma mover_schedule : mover (schedule (P:=P)).
Proof. intros s [] s' E. right. by apply schedule_switches. Qed.

(** A computation that always switches. *)
Lemma switches_after {A} (m : M sys A) (k : A -> M sys unit) : keeps m -> (forall a s s', k a s = Ok (tt, s') -> switches s s') ->
  forall s s', bind m k s = Ok (tt, s') -> switches s s'.
Proof.
  intros Hm Hk s s' (a & s1 & E1 & E2)%bind_Ok. destruct (Hm _ _ _ E1) as (_ & _ & r & Ar). destruct (Hk _ _ _ E2) as [B1 B2].
  split; [done|]. intros n q Hq. rewrite Hq in Ar. destruct (B2 n (q ++ r) Ar) as (B3 & r' & B4). split; [done|]. exists (r ++ r').
  by rewrite B4, app_assoc.
Qed.
Lemma yield_switches s s' : thread_yield s = Ok (tt, s') -> switches s s'.
Proof.
  unfold thread_yield. apply switches_after; [auto with keeps|]. intros t. apply switches_after; [auto with keeps|]. intros i.
  apply switches_after.
  - keep. apply keeps_modify. intros u. split; [done|]. split; [done|]. by exists [t].
  - intros _. apply switches_after; [auto with keeps|]. intros _. apply schedule_switches.
Qed.
Lemma mover_yield : mover (thread_yield (P:=P)).
Proof. intros s [] s' E. right. by apply yield_switches. Qed.
Lemma mover_block : mover (thread_block (P:=P)).
Proof. unfold thread_block. apply mover_l; [auto with keeps|]. intros t. apply mover_l; [auto with keeps|]. intros _. apply mover_schedule. Qed.
Lemma mover_exit : mover (thread_exit (P:=P)).
Proof.
  unfold thread_exit. apply mover_l; [auto with keeps|]. intros t. apply mover_l; [keep|]. intros _.
  apply mover_l; [auto with keeps|]. intros _. apply mover_schedule.
Qed.
Lemma mover_down r : mover (sema_down_round (P:=P) r).
Proof.
  unfold sema_down_round. apply mover_l; [auto with keeps|]. intros q. destruct (_ =? _); [|apply mover_keeps; keep].
  apply mover_l; [auto with keeps|]. intros t. apply mover_l; [auto with keeps|]. intros _. apply mover_r; [apply mover_block|]. intros _. keep.
Qed.

Lemma mover_frame t f fs : mover (run_frame palloc t f fs).
Proof.
  destruct f; cbn [run_frame]; try (apply mover_keeps;
    unfold cond_wait, cond_signal, cond_broadcast, thread_create, init_thread, thread_set_priority, thread_get_priority, palloc_get_page, set_thread; by keep).
  - apply mover_l; [auto with keeps|]. intros q. destruct (_ =? _); (apply mover_r; [apply mover_down|]; intros b; keep).
  - apply mover_l; [auto with keeps|]. intros _. apply mover_yield.
  - apply mover_l; [auto with keeps|]. intros _. apply mover_exit.
  - apply mover_block.
Qed.
Lemma mover_current : mover (run_current next palloc).
Proof.
  unfold run_current. apply mover_l; [auto with keeps|]. intros t. apply mover_l; [auto with keeps|]. intros x.
  destruct (frames x) as [|f fs]; [|apply mover_frame]. apply mover_keeps. unfold set_thread. keep.
Qed.

(** ** Slices *)

Definition in_slice s : Prop := 0 <= thread_ticks s < TIME_SLICE.

Lemma timer_moves s s' : in_slice s -> timer_interrupt s = Ok (tt, s') ->
  running s' = running s /\ ready_list s' = ready_list s /\ thread_ticks s' = thread_ticks s + 1 /\ in_slice s' \/ switches s s'.
Proof.
  unfold in_slice, TIME_SLICE. intros Ht (b & s1 & E1 & E)%bind_Ok. unfold thread_tick in E1. apply bind_Ok in E1 as (t & s2 & E2 & E1).
  assert (s2 = s) as ->.
  { unfold thread_current, get_thread in E2. apply bind_Ok in E2 as (? & ? & [= <- <-] & E2). apply bind_Ok in E2 as (y & s3 & E3 & E2).
    destruct (_ !! _); [|done]. injection E3 as _ <-. by apply bind_Ok in E2 as ([] & ? & [_ ->]%assert_Ok & [= _ <-]). }
  apply bind_Ok in E1 as ([] & s3 & [= <-] & E1). apply bind_Ok in E1 as (n & ? & [= <- <-] & [= <- <-]).
  cbn in E. replace (u32 (thread_ticks s + 1)) with (thread_ticks s + 1) in E by (symmetry; apply wrapu_small; lia).
  destruct (_ >=? _) eqn:Hb.
  - right. apply yield_switches in E as [S1 S2]. by split.
  - left. injection E as <-. cbn. rewrite Z.geb_leb in Hb. apply Z.leb_gt in Hb. unfold TIME_SLICE in Hb. repeat split; lia.
Qed.
Lemma moves_slice s s' : in_slice s -> moves s s' -> in_slice s'.
Proof. intros H [(_ & E & _)|[E _]]; unfold in_slice; rewrite E; [done|]. unfold TIME_SLICE. lia. Qed.
Lemma step_slice s s' : in_slice s -> step next palloc s s' -> in_slice s'.
Proof.
  intros H Hs. destruct Hs as [s s' E|s s' E].
  - apply (moves_slice s); [done|]. by apply mover_current in E.
  - destruct (timer_moves s s' H E) as [(_ & _ & _ & ?)|E']; [done|]. apply (moves_slice s); [done|by right].
Qed.
Lemma reachable_slice main idle p sems ls cs s : reachable next palloc main idle p sems ls cs s -> in_slice s.
Proof.
  intros Hr. assert (in_slice (boot main idle p sems ls cs)) as H0 by (unfold in_slice, TIME_SLICE; cbn; lia).
  induction Hr as [s|s s' s'' Hs Hr IH]; [done|]. apply IH. by apply (step_slice s).
Qed.

(** The interrupts a thread waits for at most, with [k] ready threads before it. *)
Definition wait_bound s (k : nat) : Z := TIME_SLICE * Z.of_nat k + (TIME_SLICE - thread_ticks s).

Lemma exec_head n s ss : exec next palloc n s ss -> s ∈ ss.
Proof. intros []; apply list_elem_of_here. Qed.

Lemma exec_runs n s ss : exec next palloc n s ss -> forall l1 t l2, in_slice s -> ready_list s = l1 ++ t :: l2 -> wait_bound s (length l1) <= Z.of_nat n ->
  exists s', s' ∈ ss /\ running s' = t.
Proof.
  assert (forall m s s' ss l1 t l2, exec next palloc m s' ss -> in_slice s -> switches s s' -> ready_list s = l1 ++ t :: l2 ->
    (forall l1 t l2, in_slice s' -> ready_list s' = l1 ++ t :: l2 -> wait_bound s' (length l1) <= Z.of_nat m -> exists s', s' ∈ ss /\ running s' = t) ->
    wait_bound s (length l1) <= Z.of_nat m + 1 -> exists u, u ∈ s :: ss /\ running u = t) as Hsw.
  { intros m s0 s' ss' l1 t l2 Ex Hi Sw Hr IH Hb. destruct Sw as [S1 S2]. destruct l1 as [|a l1].
    - destruct (S2 t l2 Hr) as (S3 & _). exists s'. split; [|done]. right. by apply (exec_head m).
    - destruct (S2 a (l1 ++ t :: l2) Hr) as (S3 & r' & S4). rewrite <- app_assoc in S4. cbn in S4.
      destruct (IH l1 t (l2 ++ r')) as (u & Hu & Eu); [unfold in_slice; rewrite S1; unfold TIME_SLICE; lia|done| |exists u; split; [by right|done]].
      unfold wait_bound, in_slice, TIME_SLICE in *. cbn [length] in Hb. lia. }
  induction 1 as [s|m s s' ss E Ex IH|m s s' ss E Ex IH]; intros l1 t l2 Hi Hr Hb.
  - unfold wait_bound, in_slice, TIME_SLICE in *. lia.
  - apply mover_current in E as [(M1 & M2 & r & M3)|Sw]; [|apply (Hsw m s s' ss l1 t l2); [done..|lia]].
    rewrite Hr, <- app_assoc in M3. cbn in M3. destruct (IH l1 t (l2 ++ r)) as (u & Hu & Eu).
    + unfold in_slice. by rewrite M2.
    + done.
    + unfold wait_bound. by rewrite M2.
    + exists u. split; [by right|done].
  - destruct (timer_moves s s' Hi E) as [(M1 & M2 & M3 & M4)|Sw]; [|apply (Hsw m s s' ss l1 t l2); [done..|lia]].
    destruct (IH l1 t l2) as (u & Hu & Eu); [done|by rewrite M2|unfold wait_bound in *; rewrite M3; lia|]. exists u. split; [by right|done].
Qed.

Lemma timer_exec m s : inv s -> exists ss, exec next palloc m s ss.
Proof.
  revert s. induction m as [|m IH]; intros s H; [eexists; apply exec_nil|].
  destruct (timer_fine s H) as (s' & E & H'). destruct (IH s' H') as [ss Hss]. eexists. by apply (exec_timer next palloc m s s' ss).
Qed.
End fair.
End ThreadFair.
