(* ===== verification/ThreadProps.v ===== *)
(** * threads/thread.c, threads/synch.c: the properties of the thread system

    For every reachable state of the system, whatever the programs of the threads do
    and whenever the timer interrupts them: the lists of the scheduler and of the
    semaphores are right, locks exclude each other, no wakeup is lost, no assertion of
    the kernel itself fails, and no ready thread starves. *)

From S2P Require Import Prelude Thread ThreadFacts ThreadRun ThreadSteps ThreadDiscipline.
Import Thread ThreadFacts ThreadRun ThreadSteps ThreadDiscipline ThreadFair.

Module ThreadProps.

(** A thread has lock [l] when it is the recorded holder, or is between taking the
    lock's semaphore and recording itself, or between clearing the record and giving the
    semaphore back. *)
Definition has_lock {P} (s : sys P) (l t : Z) : Prop :=
  (holder <$> locks s !! l = Some (Some t)) \/ exists x, threads s !! t = Some x /\ 0 < owns l x.

Section props.
Context {P : Type} (next : P -> option (op P * (Z -> P))) (palloc : sys P -> option Z).
(** [palloc_get_page] returns a page that is not in use. *)
Hypothesis palloc_fresh : forall s n, palloc s = Some n -> threads s !! n = None.
(** Only the kernel's own idle thread runs the idle loop. *)
Hypothesis next_not_idle : forall p o k a, next p = Some (o, k) -> o <> OIdle a.

Variables (main idle : Z) (p : P) (sems : gmap Z Z) (ls cs : list Z).
Hypothesis distinct : main <> idle.
Hypothesis sems_nonneg : forall a v, sems !! a = Some v -> 0 <= v.

(** C1: in every reachable state exactly the current thread is marked as running, the
    ready list has every ready thread other than the idle one exactly once, and the
    waiters of every semaphore are exactly the blocked threads that are inside
    [sema_down] on it, each once: no thread is on two lists. *)
Theorem thread_lists_correct s :
  reachable next palloc main idle p sems ls cs s ->
  (forall t x, threads s !! t = Some x -> status x = THREAD_RUNNING <-> t = running s) /\
  (NoDup (ready_list s) /\
   forall t, t ∈ ready_list s <->
     exists x, threads s !! t = Some x /\ status x = THREAD_READY /\ idle_thread s <> Some t) /\
  (forall r q, sema_at s r = Some q -> 0 <= value q /\ NoDup (waiters q) /\
     forall t, t ∈ waiters q <->
       exists x, threads s !! t = Some x /\ status x = THREAD_BLOCKED /\ head (frames x) = Some (FDown r)).
Proof.
  intros Hr. apply reachable_inv in Hr as [H O]; [|done..]. split; [exact O|]. split; [exact (i_ready s H)|].
  intros r q Hq. destruct (i_waiters s H r q Hq) as [He Hv]. by split.
Qed.

(** C2: in every reachable state at most one thread has a lock. *)
Theorem lock_mutual_exclusion s l t u :
  reachable next palloc main idle p sems ls cs s -> is_Some (locks s !! l) ->
  has_lock s l t -> has_lock s l u -> t = u.
Proof.
  intros Hr [q Hq] Ht Hu. apply reachable_inv in Hr as [H _]; [|done..]. pose proof (i_locks s H l q Hq) as E.
  destruct (i_waiters s H (LockSem l) (lock_sema q)) as [_ Hv]; [cbn; by rewrite Hq|].
  unfold has_lock in Ht, Hu. rewrite Hq in Ht, Hu. cbn in Ht, Hu.
  assert (forall v x, threads s !! v = Some x -> 0 < owns l x -> holder q = None) as Hown.
  { intros v x Hx Hpos. pose proof (msum_lookup (owns l) (threads s) v x (owns_nonneg l) Hx). destruct (holder q); [lia|done]. }
  destruct Ht as [Ht|(x & Hx & Hxp)], Hu as [Hu|(y & Hy & Hyp)]; [congruence|rewrite (Hown u y Hy Hyp) in Ht; congruence|
    rewrite (Hown t x Hx Hxp) in Hu; congruence|].
  destruct (decide (t = u)) as [?|Hne]; [done|].
  pose proof (msum_two (owns l) (threads s) t u x y (owns_nonneg l) Hx Hy Hne). destruct (holder q); lia.
Qed.

(** C3: no wakeup is lost: when a semaphore with waiters is positive, a thread that
    is not blocked is about to take it. *)
Theorem no_lost_wakeup s r q :
  reachable next palloc main idle p sems ls cs s -> sema_at s r = Some q -> waiters q <> [] -> 0 < value q ->
  exists t x, threads s !! t = Some x /\ status x <> THREAD_BLOCKED /\ head (frames x) = Some (FDown r).
Proof.
  intros Hr Hq Hne Hv. apply reachable_inv in Hr as [H _]; [|done..].
  destruct (msum_pos (awake r) (threads s)) as (t & x & Hx & Ha); [pose proof (i_wake s H r q Hq Hne); lia|].
  exists t, x. split; [done|]. unfold awake in Ha.
  destruct (status x); try lia; (split; [done|]); destruct (frames x) as [|[] ?]; try lia; cbn;
    destruct (bool_decide_reflect (r = s0)); try lia; congruence.
Qed.


(** C35: whatever the threads do between the timer interrupts, a ready thread with [k]
    threads before it in the ready list runs before the interrupt number [4 * (k + 1)] from
    now has been handled; and a run can have any number of interrupts. *)
Theorem ready_thread_runs s l1 t l2 n :
  reachable next palloc main idle p sems ls cs s -> ready_list s = l1 ++ t :: l2 -> (4 * S (length l1) <= n)%nat ->
  (exists ss, exec next palloc n s ss) /\
  forall ss, exec next palloc n s ss -> exists s', s' ∈ ss /\ running s' = t.
Proof.
  intros Hr Hl Hn. pose proof (reachable_slice next palloc main idle p sems ls cs s Hr) as Hi.
  apply reachable_inv in Hr; [|done..]. split; [by apply timer_exec|]. intros ss Hss.
  apply (exec_runs next palloc n s ss Hss l1 t l2 Hi Hl). unfold wait_bound, in_slice, TIME_SLICE in *. lia.
Qed.

End props.

(** ** A concrete system

    The initial thread 1 takes lock 7, creates the threads 9 and 8, which want the lock
    too, and releases the lock. *)

Definition demo_next (p : Z) : option (op Z * (Z -> Z)) :=
  match p with
  | 0 => Some (OAcquire 7, fun _ => 1)
  | 1 => Some (OCreate 10 PRI_DEFAULT, fun _ => 2)
  | 2 => Some (OCreate 10 PRI_DEFAULT, fun _ => 3)
  | 3 => Some (ORelease 7, fun _ => 4)
  | 10 => Some (OAcquire 7, fun _ => 11)
  | 11 => Some (ORelease 7, fun _ => 12)
  | _ => None
  end.
Definition demo_palloc (s : sys Z) : option Z :=
  match threads s !! 9, threads s !! 8 with None, _ => Some 9 | _, None => Some 8 | _, _ => None end.

Lemma demo_fresh s n : demo_palloc s = Some n -> threads s !! n = None.
Proof. unfold demo_palloc. destruct (threads s !! 9) eqn:E, (threads s !! 8) eqn:E'; by intros [= <-]. Qed.
Lemma demo_not_idle p o k a : demo_next p = Some (o, k) -> o <> OIdle a.
Proof. unfold demo_next. intros E. repeat case_match; simplify_eq; done. Qed.

(** [true] is a timer interrupt, [false] the next piece of the current thread. *)
Fixpoint play (ms : list bool) : M (sys Z) unit :=
  match ms with
  | [] => ret tt
  | b :: ms => do! (if b then timer_interrupt else run_current demo_next demo_palloc); play ms
  end.
Lemma play_steps ms s s' : play ms s = Ok (tt, s') -> rtc (step demo_next demo_palloc) s s'.
Proof.
  revert s. induction ms as [|b ms IH]; intros s; [intros [= ->]; apply rtc_refl|]. intros ([] & s1 & E1 & E2)%bind_Ok.
  eapply rtc_l; [|by apply IH]. destruct b; [by apply step_timer|by apply step_run].
Qed.

Definition demo_boot : sys Z := boot 1 2 0 ∅ [7] [].
Definition played (ms : list bool) : sys Z := match play ms demo_boot with Ok (_, s) => s | Err _ => demo_boot end.
Definition pieces (n : nat) : list bool := repeat false n.
Definition slice : list bool := repeat true 4.
Lemma played_reachable ms : (match play ms demo_boot with Ok _ => true | Err _ => false end) = true ->
  reachable demo_next demo_palloc 1 2 0 ∅ [7] [] (played ms).
Proof.
  unfold reachable, played. change (boot 1 2 0 ∅ [7] []) with demo_boot.
  destruct (play ms demo_boot) as [[[] s]|] eqn:E; [|done]. intros _. by apply (play_steps ms).
Qed.

Lemma demo_sems_nonneg a v : (∅ : gmap Z Z) !! a = Some v -> 0 <= v.
Proof. by rewrite lookup_empty. Qed.

(** Both new threads wait for the lock. *)
Definition demo_waiting : sys Z := played (pieces 22 ++ slice ++ pieces 6).
(** Thread 1 has released the lock; thread 9 has not run yet. *)
Definition demo_released : sys Z := played (pieces 22 ++ slice ++ pieces 6 ++ pieces 3).

Lemma demo_waiting_reachable : reachable demo_next demo_palloc 1 2 0 ∅ [7] [] demo_waiting.
Proof. apply played_reachable. vm_compute. reflexivity. Qed.
Lemma demo_released_reachable : reachable demo_next demo_palloc 1 2 0 ∅ [7] [] demo_released.
Proof. apply played_reachable. vm_compute. reflexivity. Qed.
Lemma demo_created_reachable : reachable demo_next demo_palloc 1 2 0 ∅ [7] [] (played (pieces 22)).
Proof. apply played_reachable. vm_compute. reflexivity. Qed.

Lemma thread_lists_correct_witness :
  (waiters <$> sema_at demo_waiting (LockSem 7) = Some [9; 8]) /\
  exists x, threads demo_waiting !! 8 = Some x /\ status x = THREAD_BLOCKED /\ head (frames x) = Some (FDown (LockSem 7)).
Proof.
  split; [vm_compute; reflexivity|].
  destruct (thread_lists_correct demo_next demo_palloc demo_fresh demo_not_idle 1 2 0 ∅ [7] [] ltac:(lia) demo_sems_nonneg
    demo_waiting demo_waiting_reachable) as (_ & _ & H).
  destruct (H (LockSem 7) {| value := 0; waiters := [9; 8] |} ltac:(vm_compute; reflexivity)) as (_ & _ & Hw).
  apply (proj1 (Hw 8)). apply list_elem_of_further, list_elem_of_here.
Defined.

Lemma demo_lock_there : is_Some (locks demo_waiting !! 7).
Proof. apply not_eq_None_Some. vm_compute. discriminate. Qed.
Lemma lock_mutual_exclusion_witness : has_lock demo_waiting 7 1 /\ ~ has_lock demo_waiting 7 9.
Proof.
  assert (has_lock demo_waiting 7 1) as H1 by (left; vm_compute; reflexivity). split; [exact H1|]. intros H9.
  assert (1 = 9) as E; [|discriminate E].
  exact (lock_mutual_exclusion demo_next demo_palloc demo_fresh demo_not_idle 1 2 0 ∅ [7] [] ltac:(lia) demo_sems_nonneg
    demo_waiting 7 1 9 demo_waiting_reachable demo_lock_there H1 H9).
Defined.

Lemma no_lost_wakeup_witness :
  sema_at demo_released (LockSem 7) = Some {| value := 1; waiters := [8] |} /\
  exists t x, threads demo_released !! t = Some x /\ status x <> THREAD_BLOCKED /\ head (frames x) = Some (FDown (LockSem 7)).
Proof.
  assert (sema_at demo_released (LockSem 7) = Some {| value := 1; waiters := [8] |}) as E by (vm_compute; reflexivity).
  split; [exact E|].
  exact (no_lost_wakeup demo_next demo_palloc demo_fresh demo_not_idle 1 2 0 ∅ [7] [] ltac:(lia) demo_sems_nonneg
    demo_released (LockSem 7) _ demo_released_reachable E ltac:(done) ltac:(done)).
Defined.



Lemma ready_thread_runs_witness :
  (exists ss, exec demo_next demo_palloc 8 (played (pieces 22)) ss) /\
  forall ss, exec demo_next demo_palloc 8 (played (pieces 22)) ss -> exists s', s' ∈ ss /\ running s' = 8.
Proof.
  exact (ready_thread_runs demo_next demo_palloc demo_fresh demo_not_idle 1 2 0 ∅ [7] [] ltac:(lia) demo_sems_nonneg
    (played (pieces 22)) [9] 8 [] 8 demo_created_reachable ltac:(vm_compute; reflexivity) ltac:(cbn; lia)).
Defined.

End ThreadProps.
